(* ===== verification/_CoqProject ===== *)
-Q . S2P
Prelude.v
Bitmap.v
CArray.v
CQueue.v
Thread.v
ThreadSpec.v
ThreadMemory.v
ThreadTheorems.v
Synch.v
KHeap.v
KHeapSpec.v
Coremap.v
KHeapTheorems.v
Uio.v
CString.v
Printf.v
Menu.v
CatMouse.v
CatMouseSpec.v
CatMouseSteps.v
CatMouseRun.v
CatMouseDriver.v
CatMouseTheorems.v
Sfs.v
SfsSpec.v
SfsTrunc.v
SfsTheorems.v
SfsFrame.v
SfsDir.v
SfsDirSpec.v
SfsVnode.v
SfsMount.v
SfsInv.v
SfsTree.v
SfsOps.v
SfsLoad.v
SfsNames.v
SfsFiles.v
FileSys.v
SfsNamespace.v
SfsLabel.v
SfsSync.v
SfsRemount.v
Mksfs.v
MksfsSpec.v
SfsSystem.v
Vfs.v
VfsPath.v
VfsInv.v
VfsOps.v
VfsCalls.v
VfsResolve.v
VfsState.v
VfsSpec.v
VfsRefine.v
VfsDirs.v
VfsMounts.v
VfsAdd.v
VfsClients.v
VfsSystem.v
Process.v
ProcessSpec.v
FdSpec.v
ProcessTheorems.v
ProcessVfs.v
AddrSpace.v
VmSpec.v
LoadElf.v
VmLoad.v
VmTheorems.v
Usermode.v
Trap.v
