(* ===== verification/Prelude.v ===== *)
(** * A verification of the OS/161 kernel

    The program is OS/161 with the work of a course on it: a small Unix-like kernel for
    a MIPS machine with one processor, its C library, and the tools around its file system. This library
    translates the C code into functions and proves what makes it correct. Paths below are under src/.

    ** The parts of the program

    At the bottom are containers: bit maps (kern/lib/bitmap.c), growing arrays (array.c) and ring buffers
    (queue.c). The thread system (kern/thread) keeps threads in such containers: a run queue, a list of sleepers, a
    list of zombies; synch.c builds semaphores, locks and condition variables on sleeping and waking, and
    kern/asst1/catmouse.c is a client of these. The frames of physical memory are handed out by
    kern/vm/vm.c; kern/lib/kheap.c makes kmalloc and kfree of whole frames. Data reach the user through
    kern/lib/copyinout.c and kern/userprog/uio.c. The simple file system (kern/fs/sfs) keeps files on the
    disk driver kern/dev/lamebus/lhd.c; sbin/mksfs makes the volumes that it mounts. The VFS layer (kern/fs/vfs)
    resolves paths and passes operations on to devices and file systems. The system calls
    (kern/syscalls) keep processes and file descriptors on top of it. The virtual memory system
    (kern/vm) runs programs that kern/userprog loads, and kern/arch/mips/mips/trap.c and syscall.c are where
    programs enter the kernel.

    ** How the code is translated

    A function of C is a function on the state it works on, which returns an [outcome]: a value ([Ret]), a panic
    or failed assertion ([Panic]), a use of memory that is not there, uninitialised or freed ([Wild]), or no end within
    the fuel of a loop ([Spin]). Integers are kept at their width with [u32] and [s32] where they can wrap
    around. An error number is the left side of [result]. Structures that are shared live in maps from addresses, and
    kfree removes them. Allocation failure is an argument: [nomem n] or [km n] says whether a call of
    kmalloc fails or succeeds, and every theorem says what it assumes of it. What a thread does after a context
    switch is a continuation kept with the thread. Interleavings are lists of choices, over which the
    theorems quantify.

    ** The files

    - Prelude.v: outcomes with their notation and tactics, loops, machine integers, lists.
    - Bitmap.v, CArray.v, CQueue.v: kern/lib/bitmap.c, array.c, queue.c.
    - Thread.v: thread.c, scheduler.c, hardclock.c, pcb.c, spl.c. ThreadSpec.v: the abstract scheduler and the
      invariant [tinv]. ThreadMemory.v: the same calls when memory runs out. ThreadTheorems.v: the theorems.
    - Synch.v: synch.c, as instructions of threads on the abstract scheduler that ThreadSpec.v justifies.
    - CatMouse.v: catmouse.c, bowls.c, and the clock of hardclock.c. CatMouseSpec.v, CatMouseSteps.v,
      CatMouseRun.v, CatMouseDriver.v: the invariant [ginv] and that every step keeps it. CatMouseTheorems.v.
    - KHeap.v: kheap.c over the interface [KPages]. KHeapSpec.v: the invariant [kinv]. Coremap.v: ram.c and the
      frame allocator of vm.c, an instance of [KPages]. KHeapTheorems.v: any client of the heap.
    - Uio.v: copyinout.c, uio.c. CString.v, Printf.v: lib/libc. Menu.v: kgets.c and the parser of menu.c.
    - Sfs.v: lhd.c, sfs_io.c, and block allocation, block map, reading, writing and truncating of sfs_vnode.c.
      SfsSpec.v, SfsTrunc.v, SfsTheorems.v, SfsFrame.v: their effect on files. SfsDir.v, SfsDirSpec.v:
      directories. SfsVnode.v: vnode.c and the operation tables of sfs_vnode.c. SfsMount.v: sfs_fs.c. SfsInv.v, SfsTree.v,
      SfsOps.v, SfsLoad.v, SfsNames.v, SfsFiles.v: the invariant of a mounted volume, operation by operation.
      FileSys.v: the interface [FileSystem] of any file system; SfsNamespace.v: SFS implements it.
      SfsLabel.v, SfsSync.v, SfsRemount.v: sync and mount. Mksfs.v, MksfsSpec.v: sbin/mksfs. SfsSystem.v: the whole.
    - Vfs.v: vfslist.c, vfslookup.c, vfspath.c, vfscwd.c, device.c, devnull.c over any [FsOps]. VfsPath.v,
      VfsInv.v, VfsOps.v, VfsCalls.v, VfsResolve.v, VfsState.v, VfsSpec.v, VfsRefine.v, VfsDirs.v, VfsMounts.v,
      VfsAdd.v: path syntax, the abstract layer [vsys], the reference accounting [vinv], and each call.
      VfsClients.v, VfsSystem.v: the abstract machine [vstep] and the theorems.
    - Process.v: process.c, fileDescriptor.c, process_syscall.c, file_syscall.c, and what runprogram.c does with the
      program's file, over the interface [Vfs] with its laws [VfsLaws]. ProcessSpec.v, FdSpec.v: the invariants
      [pinv], [finv]. ProcessTheorems.v: runs of processes. ProcessVfs.v: the layer of Vfs.v keeps [VfsLaws].
    - AddrSpace.v: addrspace.c, vm-tlb.c, uw-vmstats.c, vm_fault, over the interface [Frames]. VmSpec.v: the
      invariant [vinv] of the fault handler. LoadElf.v, VmLoad.v: loadelf.c for every executable. VmTheorems.v.
    - Usermode.v: the arguments of a program and md_usermode. Trap.v: trap.c and syscall.c over the interface
      [Kernel], and the system calls of Process.v as an instance.

    ** What the theorems show

    - Containers: bitmap_alloc, the array and the queue refine a set, a list and a FIFO.
    - Threads: whatever calls are made and whatever memory does, the lists partition the threads, and a panic
      has a named cause in lack of memory; yield, sleep and fork do what the abstract scheduler says. Semaphores count,
      locks exclude, no wakeup of them is lost, in every interleaving; the wakeup of a condition variable can be, because
      cv_wait is not atomic, and the theorem says exactly when. The cats and mice keep their bowls,
      counters and locks; the one rule that can be broken is the one bowls.c watches for.
    - Memory: kmalloc and kfree serve any client without overlap, over first-fit frames. To a program its memory is
      flat; every access is settled after at most two faults; loading an executable gives the segments its headers ask
      for. Address spaces are not kept apart, because as_activate never flushes the TLB.
    - Files: reading, writing and truncating act on exactly the bytes they name. Every sequence of operations on a
      mounted volume refines an abstract machine of names and files; sync and remount preserve it; mksfs makes an
      empty volume. The VFS layer serves any client that keeps its contract, with every reference counted.
    - Processes: over any layer that keeps [VfsLaws], and over the modelled one, no call goes wrong before a process
      closes what is not open or what is shared; exit statuses arrive once; descriptors share offsets.
    - Entering and leaving the kernel: each trap leads where its code says, and arguments arrive at the
      program. copyin and copyout touch what they should, block functions equal the bytewise ones, vsnprintf stays
      within its buffer.

    Theorems whose hypotheses are on an invariant are about states that the initialisation code is proved to
    establish, or that the theorem reaches from boot. Where the code does not do what it means to, the theorem states
    what it does.

    ** Bounds and fuel

    Loops with a bound in the code run [for_loop] with that bound. Other loops have fuel that their data bound, and the
    theorems show that [Spin] does not occur: 32 doublings of an int in queue.c and array.c; the size of the ring in
    q_grow; the length of the page lists in kheap.c; the length of the text in the string and
    menu functions; 11 tries of a disk operation, as in sfs_rwblock. q_addtail and q_grow call each other to depth
    2. vm_fault has fuel 2, as a fault inside a fault finds its page valid. The idle loop of the scheduler
    ends when the list of interrupts it is given ends; [Spin] is then the answer of the model, and of the machine.
    Reference counts are machine integers: a run of the VFS layer may make (2^31 - 64) / 16 calls, and a command of a process
    makes at most four of them.

    ** Not modelled

    Devices other than the disk and the null device, interrupt dispatch, and assembly, of which the C code sees the
    interrupt level, the TLB instructions and the context switch, which are modelled; main.c and the commands of the menu;
    kprintf, which sends the text of Printf.v to the console; the rest of lib/libc; the test code and the user
    programs; files that are not built (addrspace-carl.c and the like, dumbvm.c) and the unsolved stoplight.c. Locks
    that guard code which never sleeps on them are steps that are taken as a whole, as said in each
    file. The commands of processes are whole system calls; what a switch inside fork or waitpid does is
    shown by examples in ProcessTheorems.v. *)

From Stdlib Require Export ZArith Lia.
From stdpp Require Export base tactics numbers list gmap.

#[global] Open Scope Z_scope.

(** ** Outcomes of kernel code

    A piece of C either returns, stops the machine through [panic] or a failed
    [assert], touches memory it does not own (out-of-range index, read of an
    uninitialised cell, null dereference), or does not return within the fuel
    given to its loop. *)

Inductive outcome (A : Type) : Type :=
| Ret (a : A)
| Panic
| Wild
| Spin.
Arguments Ret {A} a.
Arguments Panic {A}.
Arguments Wild {A}.
Arguments Spin {A}.

#[export] Instance outcome_ret : MRet outcome := @Ret.
#[export] Instance outcome_bind : MBind outcome := λ A B f m,
  match m with
  | Ret a => f a
  | Panic => Panic
  | Wild => Wild
  | Spin => Spin
  end.

#[export] Instance outcome_eq_dec `{EqDecision A} : EqDecision (outcome A).
Proof. solve_decision. Defined.

(** [assert(b)]. *)
Definition c_assert (b : bool) : outcome () := if b then Ret () else Panic.

(** ** Error numbers of kern/errno.h *)

Definition EINVAL : Z := 1.
Definition EFAULT : Z := 2.
Definition ENAMETOOLONG : Z := 3.
Definition ENOMEM : Z := 4.
Definition EIO : Z := 5.
Definition ENOENT : Z := 6.
Definition ENOTDIR : Z := 7.
Definition EISDIR : Z := 8.
Definition EEXIST : Z := 9.
Definition EXDEV : Z := 10.
Definition EAGAIN : Z := 11.
Definition ESPIPE : Z := 12.
Definition EUNIMP : Z := 13.
Definition ENXIO : Z := 14.
Definition ENODEV : Z := 15.
Definition EBUSY : Z := 16.
Definition EIOCTL : Z := 17.
Definition ENOSPC : Z := 20.
Definition EMFILE : Z := 21.
Definition ENOEXEC : Z := 24.
Definition EBADF : Z := 26.

(** A C function that returns an error number and, when that is 0, hands back
    a value through a pointer argument: [inl e] is [return e] with [e] not 0,
    [inr a] is [return 0] with [a] stored. *)
Abbreviation result A := (Z + A)%type.

(** ** Machine integers *)

Definition u8 (x : Z) : Z := x mod 2 ^ 8.
Definition u16 (x : Z) : Z := x mod 2 ^ 16.
Definition u32 (x : Z) : Z := x mod 2 ^ 32.
Definition s32 (x : Z) : Z := (x + 2 ^ 31) mod 2 ^ 32 - 2 ^ 31.

(** The macro DIVROUNDUP of lib.h on 32-bit unsigned arguments. *)
Definition DIVROUNDUP (a b : Z) : Z := u32 (u32 (a + b) - 1) / b.

Lemma u32_small x : 0 ≤ x < 2 ^ 32 → u32 x = x.
Proof. intros. unfold u32. by apply Z.mod_small. Qed.

Lemma u32_range x : 0 ≤ u32 x < 2 ^ 32.
Proof. unfold u32. by apply Z.mod_pos_bound. Qed.

Lemma s32_small x : - 2 ^ 31 ≤ x < 2 ^ 31 → s32 x = x.
Proof. intros. unfold s32. rewrite Z.mod_small; lia. Qed.

Lemma DIVROUNDUP_8 n : 0 ≤ n ≤ 2 ^ 32 - 8 →
  DIVROUNDUP n 8 = (n + 7) / 8.
Proof.
  intros. unfold DIVROUNDUP. destruct (decide (n = 2 ^ 32 - 8)) as [->|]; [done|].
  rewrite (u32_small (n + 8)) by lia. rewrite u32_small by lia. f_equal. lia.
Qed.

(** ** Arrays: Z-indexed access to lists

    Reading or writing outside the array is [Wild]. *)

Definition rd {A} (l : list A) (i : Z) : outcome A :=
  if bool_decide (0 ≤ i) then
    match l !! Z.to_nat i with Some x => Ret x | None => Wild end
  else Wild.

Definition wr {A} (l : list A) (i : Z) (x : A) : outcome (list A) :=
  if bool_decide (0 ≤ i < Z.of_nat (length l)) then Ret (<[Z.to_nat i := x]> l)
  else Wild.

Abbreviation len l := (Z.of_nat (length l)) (only parsing).

Section arrays.
Context {A : Type}.
Implicit Types (l : list A) (i : Z) (x : A).

Lemma rd_Ret l i x : rd l i = Ret x ↔ 0 ≤ i ∧ l !! Z.to_nat i = Some x.
Proof.
  unfold rd. case_bool_decide; [|naive_solver].
  destruct (l !! Z.to_nat i); naive_solver.
Qed.

Lemma rd_lookup l i x : 0 ≤ i → l !! Z.to_nat i = Some x → rd l i = Ret x.
Proof. intros. by apply rd_Ret. Qed.

Lemma rd_in_range l i : 0 ≤ i < len l → ∃ x, rd l i = Ret x ∧ l !! Z.to_nat i = Some x.
Proof.
  intros Hi. destruct (lookup_lt_is_Some_2 l (Z.to_nat i)) as [x Hx]; [lia|].
  exists x. split; [|done]. apply rd_lookup; [lia|done].
Qed.

Lemma wr_in_range l i x : 0 ≤ i < len l → wr l i x = Ret (<[Z.to_nat i := x]> l).
Proof. intros. unfold wr. by rewrite bool_decide_eq_true_2. Qed.

Lemma wr_Ret l i x l' : wr l i x = Ret l' →
  0 ≤ i < len l ∧ l' = <[Z.to_nat i := x]> l.
Proof. unfold wr. case_bool_decide; naive_solver. Qed.

Lemma insert_Z_same l i x : 0 ≤ i < len l → (<[Z.to_nat i := x]> l) !! Z.to_nat i = Some x.
Proof. intros. apply list_lookup_insert_eq. lia. Qed.

Lemma insert_Z_other l i j x : 0 ≤ i → 0 ≤ j → i ≠ j →
  (<[Z.to_nat i := x]> l) !! Z.to_nat j = l !! Z.to_nat j.
Proof. intros. apply list_lookup_insert_ne. lia. Qed.
End arrays.

(** ** Loops *)

(** [for (i = a; i < a + n; i++) body] where the bound does not change in the
    body; [inr r] leaves the loop with [r] ([return] or [break]). *)
Fixpoint for_loop {S R} (n : nat) (i : Z) (body : Z → S → outcome (S + R)) (s : S)
    : outcome (S + R) :=
  match n with
  | O => Ret (inl s)
  | Datatypes.S n' =>
      r ← body i s;
      match r with
      | inl s' => for_loop n' (i + 1) body s'
      | inr x => Ret (inr x)
      end
  end.

(** The same without early exit. *)
Fixpoint for_each {S} (n : nat) (i : Z) (body : Z → S → outcome S) (s : S) : outcome S :=
  match n with
  | O => Ret s
  | Datatypes.S n' => s' ← body i s; for_each n' (i + 1) body s'
  end.

(** [while (cond) body], with fuel. *)
Fixpoint while_loop {S} (fuel : nat) (cond : S → bool) (body : S → outcome S) (s : S)
    : outcome S :=
  if cond s then
    match fuel with
    | O => Spin
    | Datatypes.S f => s' ← body s; while_loop f cond body s'
    end
  else Ret s.

Section loops.
Context {S R : Type}.

Lemma for_each_inv (Inv : Z → S → Prop) body n i s :
  Inv i s →
  (∀ j t, i ≤ j < i + Z.of_nat n → Inv j t → ∃ t', body j t = Ret t' ∧ Inv (j + 1) t') →
  ∃ s', for_each n i body s = Ret s' ∧ Inv (i + Z.of_nat n) s'.
Proof.
  revert i s. induction n as [|n IH]; intros i s Hi Hstep.
  - exists s. by rewrite Z.add_0_r.
  - destruct (Hstep i s) as (t & Ht & Hinv); [lia|done|].
    destruct (IH (i + 1) t Hinv) as (s' & Hs' & Hinv').
    { intros j u Hj. apply Hstep. lia. }
    exists s'. simpl. rewrite Ht. simpl. split; [done|].
    by replace (i + Z.of_nat (Datatypes.S n)) with (i + 1 + Z.of_nat n) by lia.
Qed.

Lemma for_loop_inv (Inv : Z → S → Prop) (Exit : R → Prop) body n i s :
  Inv i s →
  (∀ j t, i ≤ j < i + Z.of_nat n → Inv j t →
     (∃ t', body j t = Ret (inl t') ∧ Inv (j + 1) t') ∨
     (∃ r, body j t = Ret (inr r) ∧ Exit r)) →
  (∃ s', for_loop n i body s = Ret (inl s') ∧ Inv (i + Z.of_nat n) s') ∨
  (∃ r, for_loop n i body s = Ret (inr r) ∧ Exit r).
Proof.
  revert i s. induction n as [|n IH]; intros i s Hi Hstep.
  - left. exists s. by rewrite Z.add_0_r.
  - destruct (Hstep i s) as [(t & Ht & Hinv)|(r & Hr & Hex)]; [lia|done| |].
    + simpl. rewrite Ht. simpl.
      replace (i + Z.of_nat (Datatypes.S n)) with (i + 1 + Z.of_nat n) by lia.
      apply IH; [done|]. intros j u Hj. apply Hstep. lia.
    + right. exists r. simpl. by rewrite Hr.
Qed.

(** A while loop ends when every iteration lowers a measure below the fuel. *)
Lemma while_loop_inv (Inv : S → Prop) (m : S → nat) cond body fuel s :
  Inv s → (m s ≤ fuel)%nat →
  (∀ t, Inv t → cond t = true → ∃ t', body t = Ret t' ∧ Inv t' ∧ (m t' < m t)%nat) →
  ∃ s', while_loop fuel cond body s = Ret s' ∧ Inv s' ∧ cond s' = false.
Proof.
  intros Hinv Hm Hstep. revert s Hinv Hm.
  induction fuel as [|f IH]; intros s Hinv Hm; simpl; destruct (cond s) eqn:Hc.
  - destruct (Hstep s Hinv Hc) as (t & _ & _ & ?). lia.
  - naive_solver.
  - destruct (Hstep s Hinv Hc) as (t & -> & Ht & ?). simpl. apply IH; [done|lia].
  - naive_solver.
Qed.
End loops.

(** ** Automation *)

Create HintDb os161.

(** Split the booleans of C conditions into the comparisons they test. *)
Ltac cbool :=
  repeat match goal with
  | H : (_ && _)%bool = true |- _ => apply andb_prop in H as [??]
  | H : (_ || _)%bool = false |- _ => apply orb_false_elim in H as [??]
  | H : negb _ = true |- _ => apply negb_true_iff in H
  | H : negb _ = false |- _ => apply negb_false_iff in H
  | H : bool_decide _ = true |- _ => apply bool_decide_eq_true in H
  | H : bool_decide _ = false |- _ => apply bool_decide_eq_false in H
  end.

(** Decide by [lia] the comparisons tested in the goal. *)
Ltac bdec :=
  repeat match goal with
  | |- context [bool_decide ?P] =>
      first [rewrite (bool_decide_eq_true_2 P) by lia
            |rewrite (bool_decide_eq_false_2 P) by lia]
  end; cbn [andb orb negb].

(** Reduce binds whose first computation is known, leaving loop bodies alone. *)
Lemma bind_Ret {A B} (a : A) (f : A → outcome B) : Ret a ≫= f = f a.
Proof. done. Qed.

Lemma assert_true b : b = true → c_assert b = Ret ().
Proof. by intros ->. Qed.

Ltac ostep := repeat (rewrite bind_Ret; cbv beta iota).

(** Unfold one application of a loop body, leaving the loop itself folded. *)
Ltac unfold_app t :=
  let h := lazymatch t with
    | ?f _ _ _ _ _ => f | ?f _ _ _ _ => f | ?f _ _ _ => f | ?f _ _ => f | ?f _ => f end in
  let u := eval unfold h in t in
  change t with u; cbv zeta.

(** Invert a run that returned. *)
Lemma bind_Ret_inv {A B} (m : outcome A) (f : A → outcome B) b :
  m ≫= f = Ret b → ∃ a, m = Ret a ∧ f a = Ret b.
Proof. destruct m; naive_solver. Qed.

Lemma c_assert_Ret b u : c_assert b = Ret u ↔ b = true.
Proof. destruct b, u; naive_solver. Qed.

Ltac ret_inv :=
  repeat match goal with
  | H : _ ≫= _ = Ret _ |- _ =>
      let a := fresh "a" in let E := fresh "E" in
      apply bind_Ret_inv in H as (a & E & H)
  | H : c_assert _ = Ret _ |- _ => apply c_assert_Ret in H
  | H : Ret _ = Ret _ |- _ => injection H as H
  end.

(** ** Total correctness of a piece of code

    [returns m Q]: the code [m] returns, and what it returns satisfies [Q]. *)

Definition returns {A} (m : outcome A) (Q : A → Prop) : Prop := ∃ a, m = Ret a ∧ Q a.

Section returns.
Context {A B : Type}.

Lemma returns_ret (a : A) (Q : A → Prop) : Q a → returns (Ret a) Q.
Proof. intros. by exists a. Qed.

Lemma returns_mono (m : outcome A) (P Q : A → Prop) : returns m P → (∀ a, P a → Q a) → returns m Q.
Proof. intros (a & Ha & HP) HQ. exists a. auto. Qed.

Lemma returns_bind (m : outcome A) (f : A → outcome B) P Q :
  returns m P → (∀ a, P a → returns (f a) Q) → returns (m ≫= f) Q.
Proof. intros (a & -> & Ha) Hf. by apply Hf. Qed.

Lemma returns_assert b (m : outcome B) Q : b = true → returns m Q → returns (c_assert b;; m) Q.
Proof. by intros ->. Qed.
End returns.
