(* ===== verification/Bitmap.v ===== *)
(** * kern/lib/bitmap.c: arrays of bits

    The operations of the bitmap object, translated byte by byte, and their
    specification through [bit], the value of one bit of the map. *)
From S2P Require Import Prelude.

Definition BITS_PER_WORD : Z := 8.
Definition WORD_ALLBITS : Z := 255.

Record bitmap := Bitmap { bm_nbits : Z; bm_v : list Z }.

(** [ok_b] and [ok_v] say whether the two calls of kmalloc succeed. *)
Definition bitmap_create (ok_b ok_v : bool) (nbits : Z) : outcome (option bitmap) :=
  let words := DIVROUNDUP nbits BITS_PER_WORD in
  if negb ok_b then Ret None
  else if negb ok_v then Ret None
  else
    let zeros := replicate (Z.to_nat words) 0 in
    if bool_decide (nbits / BITS_PER_WORD < words) then
      let ix := u32 (words - 1) in
      let overbits := u32 (nbits - u32 (ix * BITS_PER_WORD)) in
      c_assert (bool_decide (nbits / BITS_PER_WORD = u32 (words - 1)));;
      c_assert (bool_decide (0 < overbits) && bool_decide (overbits < BITS_PER_WORD));;
      v ← for_each (Z.to_nat (BITS_PER_WORD - overbits)) overbits
            (λ j v, w ← rd v ix; wr v ix (u8 (Z.lor w (Z.shiftl 1 j)))) zeros;
      Ret (Some (Bitmap nbits v))
    else Ret (Some (Bitmap nbits zeros)).

Definition bitmap_getdata (b : bitmap) : list Z := bm_v b.

(** The body of the loop over the bits of word [ix], whose value is [w]. *)
Definition alloc_bit (b : bitmap) (ix w offset : Z) (_ : ()) : outcome (() + bitmap * Z) :=
  let mask := u8 (Z.shiftl 1 offset) in
  if bool_decide (Z.land w mask = 0) then
    v ← wr (bm_v b) ix (u8 (Z.lor w mask));
    let index := u32 (u32 (ix * BITS_PER_WORD) + offset) in
    c_assert (bool_decide (index < bm_nbits b));;
    Ret (inr (Bitmap (bm_nbits b) v, index))
  else Ret (inl ()).

(** The body of the loop over the words. *)
Definition alloc_word (b : bitmap) (ix : Z) (_ : ()) : outcome (() + bitmap * Z) :=
  w ← rd (bm_v b) ix;
  if bool_decide (w ≠ WORD_ALLBITS) then
    inner ← for_loop (Z.to_nat BITS_PER_WORD) 0 (alloc_bit b ix w) ();
    match inner with
    | inl _ => Panic
    | inr found => Ret (inr found)
    end
  else Ret (inl ()).

Definition bitmap_alloc (b : bitmap) : outcome (bitmap * result Z) :=
  let maxix := DIVROUNDUP (bm_nbits b) BITS_PER_WORD in
  r ← for_loop (Z.to_nat maxix) 0 (alloc_word b) ();
  match r with
  | inl _ => Ret (b, inl ENOSPC)
  | inr (b', index) => Ret (b', inr index)
  end.

Definition bitmap_translate (bitno : Z) : Z * Z :=
  (bitno / BITS_PER_WORD, u8 (Z.shiftl 1 (bitno mod BITS_PER_WORD))).

Definition bitmap_mark (b : bitmap) (index : Z) : outcome bitmap :=
  c_assert (bool_decide (index < bm_nbits b));;
  let '(ix, mask) := bitmap_translate index in
  w ← rd (bm_v b) ix;
  c_assert (bool_decide (Z.land w mask = 0));;
  v ← wr (bm_v b) ix (u8 (Z.lor w mask));
  Ret (Bitmap (bm_nbits b) v).

Definition bitmap_unmark (b : bitmap) (index : Z) : outcome bitmap :=
  c_assert (bool_decide (index < bm_nbits b));;
  let '(ix, mask) := bitmap_translate index in
  w ← rd (bm_v b) ix;
  c_assert (bool_decide (Z.land w mask ≠ 0));;
  v ← wr (bm_v b) ix (u8 (Z.land w (Z.lnot mask)));
  Ret (Bitmap (bm_nbits b) v).

Definition bitmap_isset (b : bitmap) (index : Z) : outcome Z :=
  let '(ix, mask) := bitmap_translate index in
  w ← rd (bm_v b) ix;
  Ret (Z.land w mask).

(** ** Specification *)

Definition bit (b : bitmap) (i : Z) : bool :=
  match bm_v b !! Z.to_nat (i / 8) with
  | Some w => Z.testbit w (i mod 8)
  | None => false
  end.

(** Bytes are bytes, there are just enough of them, and the bits beyond the
    last valid index are set. *)
Record bitmap_wf (b : bitmap) : Prop := {
  wf_nbits : 0 ≤ bm_nbits b ≤ 2 ^ 32 - 8;
  wf_words : len (bm_v b) = (bm_nbits b + 7) / 8;
  wf_bytes : Forall (λ w, 0 ≤ w < 2 ^ 8) (bm_v b);
  wf_padding : ∀ i, bm_nbits b ≤ i < 8 * len (bm_v b) → bit b i = true
}.

(** ** Bit-level lemmas *)

Lemma u8_bits x k : 0 ≤ k → Z.testbit (u8 x) k = (bool_decide (k < 8) && Z.testbit x k)%bool.
Proof.
  intros. unfold u8. case_bool_decide; simpl.
  - apply Z.mod_pow2_bits_low. lia.
  - apply Z.mod_pow2_bits_high. lia.
Qed.

Lemma byte_bits_high w k : 0 ≤ w < 2 ^ 8 → 8 ≤ k → Z.testbit w k = false.
Proof.
  intros Hw ?. rewrite <- (Z.mod_small w (2 ^ 8)) by done.
  apply Z.mod_pow2_bits_high. lia.
Qed.

Lemma byte_eq w w' : 0 ≤ w < 2 ^ 8 → 0 ≤ w' < 2 ^ 8 →
  (∀ k, 0 ≤ k < 8 → Z.testbit w k = Z.testbit w' k) → w = w'.
Proof.
  intros Hw Hw' Heq. apply Z.bits_inj'. intros k Hk.
  destruct (decide (k < 8)); [by apply Heq|].
  rewrite !byte_bits_high by (done || lia). done.
Qed.

Lemma byte_allbits w : 0 ≤ w < 2 ^ 8 → (∀ k, 0 ≤ k < 8 → Z.testbit w k = true) → w = 255.
Proof.
  intros Hw Hb. apply byte_eq; [done|lia|]. intros k Hk. rewrite Hb by done.
  change 255 with (Z.ones 8). rewrite Z.testbit_ones_nonneg by lia.
  symmetry. apply Z.ltb_lt. lia.
Qed.

Lemma mask_bits o k : 0 ≤ o < 8 → 0 ≤ k → Z.testbit (u8 (Z.shiftl 1 o)) k = bool_decide (k = o).
Proof.
  intros Ho Hk. rewrite u8_bits by done. rewrite Z.shiftl_1_l.
  destruct (decide (k = o)) as [->|Hne].
  - rewrite Z.pow2_bits_true by lia. rewrite !bool_decide_eq_true_2 by lia. done.
  - rewrite Z.pow2_bits_false by lia. rewrite andb_false_r, bool_decide_eq_false_2; done.
Qed.

Lemma land_mask w o : 0 ≤ o < 8 → Z.land w (u8 (Z.shiftl 1 o)) = 0 ↔ Z.testbit w o = false.
Proof.
  intros Ho. split; intros H.
  - apply (f_equal (λ z, Z.testbit z o)) in H.
    rewrite Z.land_spec, mask_bits, bool_decide_eq_true_2, Z.bits_0 in H by lia.
    by rewrite andb_true_r in H.
  - apply Z.bits_inj'. intros k Hk. rewrite Z.land_spec, mask_bits, Z.bits_0 by lia.
    case_bool_decide; subst; [by rewrite H|apply andb_false_r].
Qed.

Lemma u8_range x : 0 ≤ u8 x < 2 ^ 8.
Proof. unfold u8. apply Z.mod_pos_bound. lia. Qed.

Lemma setmask_bits w o k : 0 ≤ o < 8 → 0 ≤ k < 8 →
  Z.testbit (u8 (Z.lor w (u8 (Z.shiftl 1 o)))) k = (bool_decide (k = o) || Z.testbit w k)%bool.
Proof.
  intros. rewrite u8_bits, bool_decide_eq_true_2 by lia. simpl.
  rewrite Z.lor_spec, mask_bits by lia. apply orb_comm.
Qed.

Lemma clearmask_bits w o k : 0 ≤ o < 8 → 0 ≤ k < 8 →
  Z.testbit (u8 (Z.land w (Z.lnot (u8 (Z.shiftl 1 o))))) k
  = (bool_decide (k ≠ o) && Z.testbit w k)%bool.
Proof.
  intros. rewrite u8_bits, bool_decide_eq_true_2 by lia. simpl.
  rewrite Z.land_spec, Z.lnot_spec, mask_bits by lia.
  repeat case_bool_decide; try lia; destruct (Z.testbit w k); done.
Qed.

(** ** Words of a well-formed map *)

Lemma bit_word b i w : bm_v b !! Z.to_nat (i / 8) = Some w → bit b i = Z.testbit w (i mod 8).
Proof. intros H. unfold bit. by rewrite H. Qed.

Lemma bit_word_at b i w k : bm_v b !! Z.to_nat (i / 8) = Some w → 0 ≤ k < 8 →
  bit b (8 * (i / 8) + k) = Z.testbit w k.
Proof.
  intros Hw Hk. unfold bit.
  replace ((8 * (i / 8) + k) / 8) with (i / 8) by (Z.to_euclidean_division_equations; lia).
  rewrite Hw. f_equal. Z.to_euclidean_division_equations; lia.
Qed.

Lemma wf_word b i : bitmap_wf b → 0 ≤ i < 8 * len (bm_v b) →
  ∃ w, rd (bm_v b) (i / 8) = Ret w ∧ bm_v b !! Z.to_nat (i / 8) = Some w ∧ 0 ≤ w < 2 ^ 8.
Proof.
  intros Hwf Hi. destruct (rd_in_range (bm_v b) (i / 8)) as (w & Hrd & Hw).
  { split; [apply Z.div_pos; lia|apply Z.div_lt_upper_bound; lia]. }
  exists w. split_and!; [done..| |];
    eapply (Forall_lookup_1 _ _ _ _ (wf_bytes b Hwf) Hw).
Qed.

Lemma wf_bound b i : bitmap_wf b → i < bm_nbits b → i < 8 * len (bm_v b).
Proof. intros [? Hl ??] Hi. rewrite Hl. Z.to_euclidean_division_equations. lia. Qed.

(** Replacing one word changes exactly the bits of that word. *)
Lemma bit_set_word b i w j : 0 ≤ i < 8 * len (bm_v b) → 0 ≤ j →
  bit (Bitmap (bm_nbits b) (<[Z.to_nat (i / 8) := w]> (bm_v b))) j
  = if bool_decide (j / 8 = i / 8) then Z.testbit w (j mod 8) else bit b j.
Proof.
  intros Hi Hj. unfold bit. simpl.
  assert (0 ≤ i / 8 < len (bm_v b)) by
    (split; [apply Z.div_pos; lia|apply Z.div_lt_upper_bound; lia]).
  case_bool_decide as Heq.
  - rewrite Heq, insert_Z_same by done. done.
  - rewrite insert_Z_other; [done|lia| |done]. apply Z.div_pos; lia.
Qed.

(** A change of one bit of a well-formed map, by way of its word. *)
Lemma wf_change b i w (x : bool) : bitmap_wf b → 0 ≤ i < bm_nbits b →
  0 ≤ w < 2 ^ 8 →
  (∀ k, 0 ≤ k < 8 → Z.testbit w k =
     if bool_decide (k = i mod 8) then x else bit b (8 * (i / 8) + k)) →
  let b' := Bitmap (bm_nbits b) (<[Z.to_nat (i / 8) := w]> (bm_v b)) in
  bitmap_wf b' ∧ ∀ j, 0 ≤ j → bit b' j = if bool_decide (j = i) then x else bit b j.
Proof.
  intros Hwf Hi Hw Hbits b'.
  pose proof (wf_bound b i Hwf ltac:(lia)) as Hi8.
  assert (Hbit : ∀ j, 0 ≤ j → bit b' j = if bool_decide (j = i) then x else bit b j).
  { intros j Hj. unfold b'. rewrite bit_set_word by lia.
    pose proof (Z.div_mod j 8 ltac:(lia)). pose proof (Z.div_mod i 8 ltac:(lia)).
    case_bool_decide as Hd.
    - rewrite Hbits by (apply Z.mod_pos_bound; lia).
      replace (8 * (i / 8) + j mod 8) with j by lia.
      by repeat case_bool_decide; try lia.
    - case_bool_decide; [subst; done|done]. }
  split; [|done].
  destruct Hwf as [Hn Hl Hf Hp]. split; simpl; [done|by rewrite length_insert|by apply Forall_insert|].
  rewrite length_insert. intros j Hj. rewrite Hbit by lia.
  case_bool_decide; [lia|]. by apply Hp.
Qed.

(** The two updates the code makes, as changes of one bit. *)
Lemma set_word_spec b i w : bitmap_wf b → 0 ≤ i < bm_nbits b →
  bm_v b !! Z.to_nat (i / 8) = Some w →
  let b' := Bitmap (bm_nbits b)
              (<[Z.to_nat (i / 8) := u8 (Z.lor w (u8 (Z.shiftl 1 (i mod 8))))]> (bm_v b)) in
  bitmap_wf b' ∧ ∀ j, 0 ≤ j → bit b' j = if bool_decide (j = i) then true else bit b j.
Proof.
  intros Hwf Hi Hw. apply wf_change; [done..|apply u8_range|].
  intros k Hk. pose proof (Z.mod_pos_bound i 8 ltac:(lia)).
  rewrite setmask_bits by lia. case_bool_decide; [done|]. simpl.
  symmetry. by apply bit_word_at.
Qed.

Lemma clear_word_spec b i w : bitmap_wf b → 0 ≤ i < bm_nbits b →
  bm_v b !! Z.to_nat (i / 8) = Some w →
  let b' := Bitmap (bm_nbits b)
              (<[Z.to_nat (i / 8) := u8 (Z.land w (Z.lnot (u8 (Z.shiftl 1 (i mod 8)))))]> (bm_v b)) in
  bitmap_wf b' ∧ ∀ j, 0 ≤ j → bit b' j = if bool_decide (j = i) then false else bit b j.
Proof.
  intros Hwf Hi Hw. apply wf_change; [done..|apply u8_range|].
  intros k Hk. pose proof (Z.mod_pos_bound i 8 ltac:(lia)).
  rewrite clearmask_bits by lia. repeat case_bool_decide; try lia; try done. simpl.
  symmetry. by apply bit_word_at.
Qed.

(** ** The operations, in terms of [bit] *)

Lemma inner_scan b ix w n o : bitmap_wf b → 0 ≤ ix < len (bm_v b) →
  bm_v b !! Z.to_nat ix = Some w → 0 ≤ w < 2 ^ 8 → w ≠ WORD_ALLBITS →
  0 ≤ o → o + Z.of_nat n = 8 → (∀ k, 0 ≤ k < o → Z.testbit w k = true) →
  ∃ i, i / 8 = ix ∧ 0 ≤ i < bm_nbits b ∧ bit b i = false ∧
    (∀ j, 8 * ix ≤ j < i → bit b j = true) ∧
    for_loop n o (alloc_bit b ix w) ()
    = Ret (inr (Bitmap (bm_nbits b)
        (<[Z.to_nat ix := u8 (Z.lor w (u8 (Z.shiftl 1 (i mod 8))))]> (bm_v b)), i)).
Proof.
  intros Hwf Hix Hw Hb Hfull. revert o. induction n as [|n IH]; intros o Ho Hn Hset.
  - exfalso. apply Hfull, byte_allbits; [done|]. intros. apply Hset. lia.
  - simpl. unfold_app (alloc_bit b ix w o ()). case_bool_decide as Hz.
    + apply land_mask in Hz; [|lia]. exists (8 * ix + o).
      assert (Hq : (8 * ix + o) / 8 = ix) by (Z.to_euclidean_division_equations; lia).
      assert (Hr : (8 * ix + o) mod 8 = o) by (Z.to_euclidean_division_equations; lia).
      assert (Hat : ∀ k, 0 ≤ k < 8 → bit b (8 * ix + k) = Z.testbit w k).
      { intros k Hk. rewrite <- Hq at 1. apply bit_word_at; [by rewrite Hq|done]. }
      assert (Hlt : 8 * ix + o < bm_nbits b).
      { destruct (decide (8 * ix + o < bm_nbits b)); [done|].
        rewrite <- (Hat o) in Hz by lia. rewrite (wf_padding b) in Hz by (done || lia). done. }
      pose proof (wf_nbits b Hwf).
      rewrite Hr, wr_in_range by done. simpl. unfold BITS_PER_WORD.
      rewrite (u32_small (ix * 8)), u32_small by lia.
      rewrite bool_decide_eq_true_2 by lia. simpl.
      split_and!; [done|lia|lia|by rewrite Hat by lia| |do 4 f_equal; lia].
      intros j Hj. replace j with (8 * ix + (j - 8 * ix)) by lia.
      rewrite Hat by lia. apply Hset. lia.
    + simpl. apply IH; [lia|lia|]. intros k Hk.
      destruct (decide (k = o)) as [->|]; [|apply Hset; lia].
      destruct (Z.testbit w o) eqn:E; [done|]. by apply land_mask in E; [|lia].
Qed.

(** bitmap_alloc sets the first clear bit, or reports ENOSPC when there is none. *)
Lemma bitmap_alloc_ok b : bitmap_wf b →
  (∃ b' i, bitmap_alloc b = Ret (b', inr i) ∧ bitmap_wf b' ∧ bm_nbits b' = bm_nbits b ∧
     0 ≤ i < bm_nbits b ∧ bit b i = false ∧ (∀ j, 0 ≤ j < i → bit b j = true) ∧
     ∀ j, 0 ≤ j → bit b' j = if bool_decide (j = i) then true else bit b j) ∨
  (bitmap_alloc b = Ret (b, inl ENOSPC) ∧ ∀ j, 0 ≤ j < bm_nbits b → bit b j = true).
Proof.
  intros Hwf. unfold bitmap_alloc.
  pose proof (wf_nbits b Hwf). pose proof (wf_words b Hwf) as Hl.
  replace (Z.to_nat (DIVROUNDUP (bm_nbits b) BITS_PER_WORD)) with (length (bm_v b)).
  2: { unfold BITS_PER_WORD. rewrite DIVROUNDUP_8 by lia. lia. }
  destruct (for_loop_inv (λ ix _, 0 ≤ ix ∧ ∀ j, 0 ≤ j < 8 * ix → bit b j = true)
    (λ r, ∃ i, r.2 = i ∧ 0 ≤ i < bm_nbits b ∧ bit b i = false ∧
      (∀ j, 0 ≤ j < i → bit b j = true) ∧ bitmap_wf r.1 ∧ bm_nbits r.1 = bm_nbits b ∧
      ∀ j, 0 ≤ j → bit r.1 j = if bool_decide (j = i) then true else bit b j)
    (alloc_word b) (length (bm_v b)) 0 ()) as [([] & -> & _ & Hall)|((b' & i') & -> & i & Hsnd & Hex)].
  - split; [done|]. intros j Hj. lia.
  - intros ix [] Hix [? Hinv]. unfold alloc_word.
    destruct (rd_in_range (bm_v b) ix) as (w & -> & Hw); [lia|]. ostep.
    pose proof (Forall_lookup_1 _ _ _ _ (wf_bytes b Hwf) Hw) as Hb.
    case_bool_decide as Hfull.
    + destruct (inner_scan b ix w 8 0) as (i & Hi8 & Hi & Hclear & Hbefore & Hrun);
        [done|lia|done..|lia|].
      right. eexists. change (Z.to_nat BITS_PER_WORD) with 8%nat. rewrite Hrun. simpl. split; [done|].
      exists i. subst ix.
      destruct (set_word_spec b i w) as [Hwf' Hbit]; [done..|].
      split_and!; try done; try lia. intros j Hj.
      destruct (decide (j < 8 * (i / 8))); [apply Hinv; lia|apply Hbefore; lia].
    + left. exists (). split; [done|]. split; [lia|]. intros j Hj.
      destruct (decide (j < 8 * ix)); [apply Hinv; lia|].
      subst w.
      erewrite bit_word; [|replace (j / 8) with ix; [done|]; Z.to_euclidean_division_equations; lia].
      change WORD_ALLBITS with (Z.ones 8). rewrite Z.testbit_ones_nonneg by
        (try apply Z.mod_pos_bound; lia).
      apply Z.ltb_lt. apply Z.mod_pos_bound. lia.
  - right. split; [done|]. intros j Hj. apply Hall.
    pose proof (wf_bound b j Hwf). lia.
  - left. simpl in *. subst i'. exists b', i. naive_solver.
Qed.

Lemma bitmap_mark_ok b i : bitmap_wf b → 0 ≤ i < bm_nbits b → bit b i = false →
  ∃ b', bitmap_mark b i = Ret b' ∧ bitmap_wf b' ∧ bm_nbits b' = bm_nbits b ∧
    ∀ j, 0 ≤ j → bit b' j = if bool_decide (j = i) then true else bit b j.
Proof.
  intros Hwf Hi Hb. unfold bitmap_mark, bitmap_translate.
  pose proof (wf_bound b i Hwf ltac:(lia)).
  destruct (wf_word b i Hwf) as (w & Hrd & Hw & ?); [lia|]. change BITS_PER_WORD with 8.
  rewrite bool_decide_eq_true_2 by lia. simpl. rewrite Hrd. simpl.
  rewrite (bit_word b i w Hw) in Hb.
  rewrite bool_decide_eq_true_2 by (apply land_mask; [apply Z.mod_pos_bound; lia|done]). simpl.
  rewrite wr_in_range by (Z.to_euclidean_division_equations; lia). simpl.
  destruct (set_word_spec b i w) as [??]; [done..|]. eauto.
Qed.

Lemma bitmap_unmark_ok b i : bitmap_wf b → 0 ≤ i < bm_nbits b → bit b i = true →
  ∃ b', bitmap_unmark b i = Ret b' ∧ bitmap_wf b' ∧ bm_nbits b' = bm_nbits b ∧
    ∀ j, 0 ≤ j → bit b' j = if bool_decide (j = i) then false else bit b j.
Proof.
  intros Hwf Hi Hb. unfold bitmap_unmark, bitmap_translate.
  pose proof (wf_bound b i Hwf ltac:(lia)).
  destruct (wf_word b i Hwf) as (w & Hrd & Hw & ?); [lia|]. change BITS_PER_WORD with 8.
  rewrite bool_decide_eq_true_2 by lia. simpl. rewrite Hrd. simpl.
  rewrite (bit_word b i w Hw) in Hb.
  rewrite bool_decide_eq_true_2 by (rewrite land_mask by (apply Z.mod_pos_bound; lia); congruence).
  simpl. rewrite wr_in_range by (Z.to_euclidean_division_equations; lia). simpl.
  destruct (clear_word_spec b i w) as [??]; [done..|]. eauto.
Qed.

Lemma bitmap_isset_ok b i : bitmap_wf b → 0 ≤ i < 8 * len (bm_v b) →
  ∃ r, bitmap_isset b i = Ret r ∧ (r ≠ 0 ↔ bit b i = true).
Proof.
  intros Hwf Hi. unfold bitmap_isset, bitmap_translate.
  destruct (wf_word b i Hwf Hi) as (w & Hrd & Hw & ?). change BITS_PER_WORD with 8.
  rewrite Hrd. simpl. eexists. split; [done|].
  rewrite land_mask, (bit_word b i w Hw) by (apply Z.mod_pos_bound; lia).
  destruct (Z.testbit w (i mod 8)); naive_solver.
Qed.

(** Marking a set bit or clearing a clear one stops the kernel. *)
Lemma bitmap_mark_panic b i : bitmap_wf b → 0 ≤ i < bm_nbits b → bit b i = true →
  bitmap_mark b i = Panic.
Proof.
  intros Hwf Hi Hb. unfold bitmap_mark, bitmap_translate.
  pose proof (wf_bound b i Hwf ltac:(lia)).
  destruct (wf_word b i Hwf) as (w & Hrd & Hw & ?); [lia|]. change BITS_PER_WORD with 8.
  rewrite bool_decide_eq_true_2 by lia. simpl. rewrite Hrd. simpl.
  rewrite (bit_word b i w Hw) in Hb.
  rewrite bool_decide_eq_false_2; [done|].
  rewrite land_mask by (apply Z.mod_pos_bound; lia). congruence.
Qed.

Lemma bitmap_unmark_panic b i : bitmap_wf b → 0 ≤ i < bm_nbits b → bit b i = false →
  bitmap_unmark b i = Panic.
Proof.
  intros Hwf Hi Hb. unfold bitmap_unmark, bitmap_translate.
  pose proof (wf_bound b i Hwf ltac:(lia)).
  destruct (wf_word b i Hwf) as (w & Hrd & Hw & ?); [lia|]. change BITS_PER_WORD with 8.
  rewrite bool_decide_eq_true_2 by lia. simpl. rewrite Hrd. simpl.
  rewrite (bit_word b i w Hw) in Hb.
  rewrite bool_decide_eq_false_2; [done|].
  intros Hne. apply Hne, land_mask; [apply Z.mod_pos_bound; lia|done].
Qed.

(** The last word after the loop of bitmap_create: its bits from [overbits] on. *)
Lemma pad_loop n ov k v : 0 ≤ ov → ov + Z.of_nat n = 8 →
  k < len v → 0 ≤ k →
  (∃ w, v !! Z.to_nat k = Some w ∧ 0 ≤ w < 2 ^ 8) →
  ∃ w, for_each n ov (λ j v, w ← rd v k; wr v k (u8 (Z.lor w (Z.shiftl 1 j)))) v
       = Ret (<[Z.to_nat k := w]> v) ∧ 0 ≤ w < 2 ^ 8 ∧
       ∀ w0, v !! Z.to_nat k = Some w0 → ∀ b, 0 ≤ b < 8 →
         Z.testbit w b = (bool_decide (ov ≤ b) || Z.testbit w0 b)%bool.
Proof.
  revert ov v. induction n as [|n IH]; intros ov v Hov Hn Hk Hk0 (w0 & Hw0 & Hr).
  - exists w0. rewrite list_insert_id by done. split_and!; [done|lia|lia|].
    intros w1 Hw1 b Hb. rewrite bool_decide_eq_false_2 by lia. simpl. naive_solver.
  - simpl. erewrite rd_lookup by done. simpl. rewrite wr_in_range by lia. simpl.
    destruct (IH (ov + 1) (<[Z.to_nat k := u8 (Z.lor w0 (Z.shiftl 1 ov))]> v))
      as (w & -> & Hwr & Hbits).
    { lia. } { lia. } { by rewrite length_insert. } { done. }
    { eexists. split; [by apply insert_Z_same|apply u8_range]. }
    exists w. rewrite list_insert_insert_eq. split_and!; [done|lia|lia|].
    intros w1 Hw1 b Hb. simplify_eq.
    rewrite (Hbits _ (insert_Z_same _ _ _ (conj Hk0 Hk)) b Hb).
    rewrite u8_bits, (bool_decide_eq_true_2 (b < 8)) by lia. simpl.
    rewrite Z.lor_spec, Z.shiftl_1_l, Z.pow2_bits_eqb by lia.
    repeat case_bool_decide; try lia; simpl;
      destruct (Z.eqb_spec ov b); try lia; by rewrite ?orb_true_r, ?orb_false_r.
Qed.

Lemma bitmap_create_ok n : 0 ≤ n ≤ 2 ^ 32 - 8 →
  ∃ b, bitmap_create true true n = Ret (Some b) ∧ bitmap_wf b ∧ bm_nbits b = n ∧
    ∀ i, 0 ≤ i < n → bit b i = false.
Proof.
  intros Hn. unfold bitmap_create. change BITS_PER_WORD with 8.
  rewrite DIVROUNDUP_8 by done. cbn [negb].
  set (words := (n + 7) / 8). assert (0 ≤ words) by (unfold words; Z.to_euclidean_division_equations; lia).
  assert (Hz : ∀ i, 0 ≤ i < words → replicate (Z.to_nat words) 0 !! Z.to_nat i = Some 0).
  { intros i Hi. apply lookup_replicate. split; [done|lia]. }
  case_bool_decide as Hpart.
  - assert (n < 8 * words ∧ 8 * (words - 1) < n) as [Hhi Hlo]
      by (unfold words in *; Z.to_euclidean_division_equations; lia).
    rewrite (u32_small (words - 1)), (u32_small ((words - 1) * 8)), u32_small by lia.
    rewrite (bool_decide_eq_true_2 (n / 8 = words - 1))
      by (unfold words in *; Z.to_euclidean_division_equations; lia).
    rewrite !bool_decide_eq_true_2 by lia. ostep.
    destruct (pad_loop (Z.to_nat (8 - (n - (words - 1) * 8))) (n - (words - 1) * 8)
      (words - 1) (replicate (Z.to_nat words) 0)) as (w & -> & Hw & Hbits).
    { lia. } { lia. } { rewrite length_replicate. lia. } { lia. }
    { exists 0. split; [apply Hz; lia|lia]. }
    ostep. eexists. split; [done|].
    assert (Hbit : ∀ i, 0 ≤ i < 8 * words →
      bit (Bitmap n (<[Z.to_nat (words - 1):=w]> (replicate (Z.to_nat words) 0))) i
      = bool_decide (n ≤ i)).
    { intros i Hi. unfold bit. simpl.
      assert (0 ≤ i mod 8 < 8) by (apply Z.mod_pos_bound; lia).
      pose proof (Z.div_mod i 8 ltac:(lia)).
      destruct (decide (i / 8 = words - 1)) as [Heq|Hne].
      - rewrite Heq, insert_Z_same by (rewrite length_replicate; lia).
        rewrite (Hbits 0 ltac:(apply Hz; lia)) by done. rewrite Z.bits_0, orb_false_r.
        repeat case_bool_decide; lia || done.
      - rewrite insert_Z_other by (try apply Z.div_pos; lia).
        rewrite Hz by (split; [apply Z.div_pos|apply Z.div_lt_upper_bound]; lia).
        rewrite Z.bits_0, bool_decide_eq_false_2; [done|].
        assert (i / 8 < words) by (apply Z.div_lt_upper_bound; lia). lia. }
    split_and!; [|done|intros i Hi; rewrite Hbit, bool_decide_eq_false_2 by lia; done].
    split; simpl; [done|rewrite length_insert, length_replicate; fold words; lia| |].
    + apply Forall_insert; [|done]. apply Forall_replicate. lia.
    + rewrite length_insert, length_replicate. intros i Hi.
      rewrite Hbit by lia. by apply bool_decide_eq_true_2; lia.
  - assert (n = 8 * words) by (unfold words in *; Z.to_euclidean_division_equations; lia).
    eexists. split; [done|]. split_and!; [|done|].
    + split; simpl; [done|rewrite length_replicate; fold words; lia| |].
      * apply Forall_replicate. lia.
      * rewrite length_replicate. lia.
    + intros i Hi. unfold bit. simpl.
      rewrite Hz by (split; [apply Z.div_pos|apply Z.div_lt_upper_bound]; lia). apply Z.bits_0.
Qed.

(** ** Refinement of a set of indices *)

(** The abstract value of a bitmap: the set of marked indices. *)
Definition used (b : bitmap) : gset Z :=
  list_to_set (filter (λ i, bit b i = true) (seqZ 0 (bm_nbits b))).

Lemma elem_of_used b i : i ∈ used b ↔ 0 ≤ i < bm_nbits b ∧ bit b i = true.
Proof.
  unfold used. rewrite elem_of_list_to_set, list_elem_of_filter, elem_of_seqZ.
  naive_solver lia.
Qed.

Lemma used_change b b' i x : bm_nbits b' = bm_nbits b → 0 ≤ i < bm_nbits b →
  (∀ j, 0 ≤ j → bit b' j = if bool_decide (j = i) then x else bit b j) →
  used b' = if x then {[i]} ∪ used b else used b ∖ {[i]}.
Proof.
  intros Hn Hi Hbit. apply set_eq. intros j. rewrite elem_of_used, Hn.
  destruct (decide (0 ≤ j < bm_nbits b)) as [Hj|Hj].
  - rewrite Hbit by lia. case_bool_decide; destruct x;
      rewrite ?elem_of_union, ?elem_of_difference, ?elem_of_singleton, elem_of_used; naive_solver.
  - destruct x; rewrite ?elem_of_union, ?elem_of_difference, elem_of_singleton, elem_of_used;
      naive_solver.
Qed.

Lemma bitmap_ext b b' : bitmap_wf b → bitmap_wf b' → bm_nbits b' = bm_nbits b →
  (∀ i, 0 ≤ i → bit b' i = bit b i) → b' = b.
Proof.
  intros Hwf Hwf' Hn Hbit.
  assert (Hv : bm_v b' = bm_v b).
  { apply list_eq_same_length with (length (bm_v b)); [done| |].
    { pose proof (wf_words b Hwf). pose proof (wf_words b' Hwf'). rewrite Hn in *. lia. }
    intros k w w' Hk Hw Hw'.
    apply byte_eq; [eapply (Forall_lookup_1 _ _ _ _ (wf_bytes b' Hwf') Hw)
                   |eapply (Forall_lookup_1 _ _ _ _ (wf_bytes b Hwf) Hw')|].
    intros j Hj.
    assert (Hq : (8 * Z.of_nat k) / 8 = Z.of_nat k) by (rewrite Z.mul_comm; apply Z.div_mul; lia).
    rewrite <- (bit_word_at b' (8 * Z.of_nat k) w j), <- (bit_word_at b (8 * Z.of_nat k) w' j)
      by (try done; rewrite Hq, Nat2Z.id; done).
    apply Hbit. lia. }
  destruct b, b'. simpl in *. congruence.
Qed.

(** A fresh bitmap of [n] bits is well formed and represents the empty set, the padding of
    its last byte being marked so that it can never be handed out. *)
Theorem bitmap_create_refines n : 0 ≤ n ≤ 2 ^ 32 - 8 →
  ∃ b, bitmap_create true true n = Ret (Some b) ∧ bitmap_wf b ∧ bm_nbits b = n ∧ used b = ∅.
Proof.
  intros Hn. destruct (bitmap_create_ok n Hn) as (b & Hb & Hwf & Hnb & Hclear).
  exists b. split_and!; [done..|]. apply set_eq. intros i. rewrite elem_of_used.
  rewrite Hnb. split; [|set_solver]. intros [Hi Ht]. by rewrite Hclear in Ht.
Qed.

Lemma bitmap_create_refines_witness :
  ∃ b, bitmap_create true true 11 = Ret (Some b) ∧ bitmap_wf b ∧ bm_nbits b = 11 ∧ used b = ∅.
Proof. apply (bitmap_create_refines 11). lia. Defined.

(** [C19] bitmap_alloc refines "take the least free index": it never panics, adds to the set
    exactly the least index not in it, and answers ENOSPC, changing nothing, exactly when all
    indices are taken. *)
Theorem bitmap_alloc_refines b : bitmap_wf b →
  match bitmap_alloc b with
  | Ret (b', inr i) =>
      bitmap_wf b' ∧ bm_nbits b' = bm_nbits b ∧ 0 ≤ i < bm_nbits b ∧
      (i ∉ used b) ∧ (∀ j, 0 ≤ j < i → j ∈ used b) ∧ used b' = {[i]} ∪ used b
  | Ret (b', inl e) => b' = b ∧ e = ENOSPC ∧ ∀ j, 0 ≤ j < bm_nbits b → j ∈ used b
  | _ => False
  end.
Proof.
  intros Hwf. destruct (bitmap_alloc_ok b Hwf)
    as [(b' & i & -> & Hwf' & Hn & Hi & Hclear & Hmin & Hbit)|[-> Hall]].
  - split_and!; [done|done|lia|lia| | |].
    + rewrite elem_of_used. intros [_ ?]. congruence.
    + intros j Hj. rewrite elem_of_used. split; [lia|]. by apply Hmin.
    + by rewrite (used_change b b' i true).
  - split_and!; [done..|]. intros j Hj. rewrite elem_of_used. auto.
Qed.

Lemma bitmap_alloc_refines_witness :
  ∃ b b', bitmap_wf b ∧ bitmap_alloc b = Ret (b', inr 0) ∧ used b' = {[0]} ∪ used b.
Proof.
  destruct (bitmap_create_ok 11) as (b & Hb & Hwf & _); [lia|].
  vm_compute in Hb. injection Hb as <-.
  pose proof (bitmap_alloc_refines _ Hwf) as H.
  eexists _, _. split_and!; [exact Hwf|vm_compute; reflexivity|].
  vm_compute in H |- *. apply H.
Defined.

(** bitmap_mark and bitmap_unmark refine insertion and deletion, are inverse to each other,
    and panic exactly on a double mark and on a double free. *)
Theorem bitmap_mark_unmark_refine b i : bitmap_wf b → 0 ≤ i < bm_nbits b →
  if bool_decide (i ∈ used b) then
    bitmap_mark b i = Panic ∧
    ∃ b', bitmap_unmark b i = Ret b' ∧ bitmap_wf b' ∧ used b' = used b ∖ {[i]} ∧
      bitmap_mark b' i = Ret b
  else
    bitmap_unmark b i = Panic ∧
    ∃ b', bitmap_mark b i = Ret b' ∧ bitmap_wf b' ∧ used b' = {[i]} ∪ used b ∧
      bitmap_unmark b' i = Ret b.
Proof.
  intros Hwf Hi. case_bool_decide as Hu; rewrite elem_of_used in Hu.
  - destruct Hu as [_ Hu]. split; [by apply bitmap_mark_panic|].
    destruct (bitmap_unmark_ok b i Hwf Hi Hu) as (b' & -> & Hwf' & Hn & Hbit).
    exists b'. split_and!; [done|done|by rewrite (used_change b b' i false)|].
    destruct (bitmap_mark_ok b' i) as (b'' & -> & Hwf'' & Hn' & Hbit'); [done|lia| |].
    { rewrite Hbit by lia. by rewrite bool_decide_eq_true_2. }
    f_equal. apply bitmap_ext; [done..|congruence|]. intros j Hj.
    rewrite Hbit', Hbit by done. by case_bool_decide; subst.
  - assert (bit b i = false) as Hc by (apply not_true_is_false; naive_solver).
    split; [by apply bitmap_unmark_panic|].
    destruct (bitmap_mark_ok b i Hwf Hi Hc) as (b' & -> & Hwf' & Hn & Hbit).
    exists b'. split_and!; [done|done|by rewrite (used_change b b' i true)|].
    destruct (bitmap_unmark_ok b' i) as (b'' & -> & Hwf'' & Hn' & Hbit'); [done|lia| |].
    { rewrite Hbit by lia. by rewrite bool_decide_eq_true_2. }
    f_equal. apply bitmap_ext; [done..|congruence|]. intros j Hj.
    rewrite Hbit', Hbit by done. by case_bool_decide; subst.
Qed.

Lemma bitmap_mark_unmark_refine_witness :
  ∃ b b', bitmap_wf b ∧ bitmap_mark b 3 = Ret b' ∧ bitmap_unmark b' 3 = Ret b.
Proof.
  destruct (bitmap_create_ok 11) as (b & Hb & Hwf & Hn & Hc); [lia|].
  vm_compute in Hb. injection Hb as <-.
  pose proof (bitmap_mark_unmark_refine _ 3 Hwf) as H.
  rewrite bool_decide_eq_false_2 in H by (rewrite elem_of_used; vm_compute; naive_solver).
  destruct H as (_ & b' & H1 & _ & _ & H2); [simpl; lia|]. eauto.
Defined.
