(* ===== verification/CArray.v ===== *)
(** * kern/lib/array.c: resizable arrays of pointers

    The pointers are values of a type [A]; a cell of freshly allocated memory
    that has not been written is [None].  [km sz] says whether a call of
    kmalloc for [sz] bytes succeeds.  The abstract value of an array is the
    list of its elements ([arepr]). *)
From S2P Require Import Prelude.

Record array (A : Type) := Array {
  a_num : Z;
  a_max : Z;
  a_v : option (list (option A))   (* None is the null pointer *)
}.
Arguments Array {A} _ _ _.
Arguments a_num {A} _.
Arguments a_max {A} _.
Arguments a_v {A} _.

Definition sizeof_ptr : Z := 4.

(** Reading a cell: the null pointer and an unwritten cell are [Wild]. *)
Definition cell {A} (v : option (list (option A))) (i : Z) : outcome A :=
  match v with
  | None => Wild
  | Some l => x ← rd l i; match x with Some y => Ret y | None => Wild end
  end.

Definition set_cell {A} (v : option (list (option A))) (i : Z) (x : option A)
    : outcome (option (list (option A))) :=
  match v with
  | None => Wild
  | Some l => l' ← wr l i x; Ret (Some l')
  end.

Section ops.
Context {A : Type}.
Implicit Types a : array A.

Definition array_create (ok : bool) : option (array A) :=
  if ok then Some (Array 0 0 None) else None.

Definition array_getnum a : Z := a_num a.

Definition array_getguy a (index : Z) : outcome A :=
  c_assert (bool_decide (a_num a ≤ a_max a));;
  c_assert (bool_decide (0 ≤ index) && bool_decide (index < a_num a));;
  cell (a_v a) index.

(** The loop [while (nguys > newmax) newmax = (newmax+1)*2], on 32-bit ints. *)
Definition grow_max (fuel : nat) (nguys newmax : Z) : outcome Z :=
  while_loop fuel (λ m, bool_decide (nguys > m)) (λ m, Ret (s32 (s32 (m + 1) * 2))) newmax.

(** [for (i=0; i<a->num; i++) newv[i] = a->v[i]]; a cell is copied as it is. *)
Definition copy_cell (v : option (list (option A))) (i : Z) (newv : list (option A))
    : outcome (list (option A)) :=
  match v with
  | None => Wild
  | Some l => x ← rd l i; wr newv i x
  end.

Definition array_preallocate (km : Z → bool) a (nguys : Z) : outcome (array A * Z) :=
  c_assert (bool_decide (0 ≤ a_num a) && bool_decide (a_num a ≤ a_max a));;
  newmax ← grow_max 32 nguys (a_max a);
  if negb (km (u32 (newmax * sizeof_ptr))) then Ret (a, ENOMEM)
  else
    newv ← for_each (Z.to_nat (a_num a)) 0 (copy_cell (a_v a))
             (replicate (Z.to_nat newmax) None);
    Ret (Array (a_num a) newmax (Some newv), 0).

Definition array_setsize (km : Z → bool) a (nguys : Z) : outcome (array A * Z) :=
  c_assert (bool_decide (0 ≤ a_num a) && bool_decide (a_num a ≤ a_max a));;
  if bool_decide (nguys > a_max a) then
    '(a', r) ← array_preallocate km a nguys;
    if bool_decide (r ≠ 0) then Ret (a', r)
    else Ret (Array nguys (a_max a') (a_v a'), 0)
  else if bool_decide (nguys = 0) && bool_decide (a_max a > 16) then
    c_assert (bool_decide (is_Some (a_v a)));;
    Ret (Array nguys 0 None, 0)
  else Ret (Array nguys (a_max a) (a_v a), 0).

Definition array_setguy a (index : Z) (ptr : A) : outcome (array A) :=
  c_assert (bool_decide (a_num a ≤ a_max a));;
  c_assert (bool_decide (0 ≤ index) && bool_decide (index < a_num a));;
  v ← set_cell (a_v a) index (Some ptr);
  Ret (Array (a_num a) (a_max a) v).

Definition array_add (km : Z → bool) a (guy : A) : outcome (array A * Z) :=
  let ix := a_num a in
  '(a', r) ← array_setsize km a (s32 (ix + 1));
  if bool_decide (r ≠ 0) then Ret (a', r)
  else
    v ← set_cell (a_v a') ix (Some guy);
    Ret (Array (a_num a') (a_max a') v, 0).

(** [memmove(v+dst, v+src, n)] on whole cells. *)
Definition move_cells (v : option (list (option A))) (dst src n : Z)
    : outcome (option (list (option A))) :=
  match v with
  | None => if bool_decide (n = 0) then Ret None else Wild
  | Some l =>
      if bool_decide (0 ≤ n ∧ 0 ≤ dst ∧ 0 ≤ src ∧ src + n ≤ len l ∧ dst + n ≤ len l) then
        Ret (Some (take (Z.to_nat dst) l ++ take (Z.to_nat n) (drop (Z.to_nat src) l)
                   ++ drop (Z.to_nat (dst + n)) l))
      else Wild
  end.

Definition array_remove a (index : Z) : outcome (array A) :=
  c_assert (bool_decide (a_num a ≤ a_max a));;
  c_assert (bool_decide (0 ≤ index) && bool_decide (index < a_num a));;
  let nmove := a_num a - (index + 1) in
  v ← move_cells (a_v a) index (index + 1) nmove;
  Ret (Array (a_num a - 1) (a_max a) v).
End ops.

(** ** Representation *)

(** [avis a c]: the array is consistent and its visible cells, those below [num], are [c];
    a cell that has not been written is [None].  The bound keeps the growth loop inside the
    32-bit range. *)
Record avis {A} (a : array A) (c : list (option A)) : Prop := {
  av_num : a_num a = len c;
  av_max : a_num a ≤ a_max a ≤ 2 ^ 30;
  av_v : match a_v a with
         | None => a_max a = 0
         | Some v => len v = a_max a ∧ take (length c) v = c
         end
}.

(** [arepr a l]: the elements of the array are [l]. *)
Definition arepr {A} (a : array A) (l : list A) : Prop := avis a (Some <$> l).

Lemma ar_num {A} (a : array A) l : arepr a l → a_num a = len l.
Proof. intros H. rewrite (av_num _ _ H). by rewrite length_fmap. Qed.

Lemma avis_nonneg {A} (a : array A) c : avis a c → 0 ≤ a_num a ≤ a_max a.
Proof. intros [? ? ?]. lia. Qed.

Lemma arepr_create {A} : arepr (A:=A) (Array 0 0 None) [].
Proof. split; simpl; lia || done. Qed.

Lemma avis_cell {A} (a : array A) c i x : avis a c → 0 ≤ i → c !! Z.to_nat i = Some (Some x) →
  cell (a_v a) i = Ret x.
Proof.
  intros [Hn Hm Hv] Hi Hx. pose proof (lookup_lt_Some _ _ _ Hx). unfold cell.
  destruct (a_v a) as [v|]; [|simpl in *; lia]. destruct Hv as [Hl Ht].
  erewrite rd_lookup with (x := Some x); [done|done|].
  rewrite <- (lookup_take_lt v (length c)) by lia. by rewrite Ht.
Qed.

Lemma getguy_cells {A} (a : array A) c i x : avis a c → 0 ≤ i →
  c !! Z.to_nat i = Some (Some x) → array_getguy a i = Ret x.
Proof.
  intros Hr Hi Hx. pose proof (avis_nonneg a c Hr). pose proof (lookup_lt_Some _ _ _ Hx).
  pose proof (av_num a c Hr). unfold array_getguy.
  rewrite !bool_decide_eq_true_2 by lia. simpl. by eapply avis_cell.
Qed.

Lemma array_getguy_ok {A} (a : array A) l i x : arepr a l → 0 ≤ i →
  l !! Z.to_nat i = Some x → array_getguy a i = Ret x.
Proof. intros Hr Hi Hx. eapply getguy_cells; [done..|]. by rewrite list_lookup_fmap, Hx. Qed.

(** The growth loop ends with room for [nguys], at most doubling what is asked. *)
Lemma grow_max_ok nguys m : 0 ≤ m ≤ 2 ^ 30 → 0 ≤ nguys ≤ 2 ^ 29 →
  ∃ m', grow_max 32 nguys m = Ret m' ∧ nguys ≤ m' ∧ m ≤ m' ≤ 2 ^ 30 ∧
    (nguys ≤ m → m' = m).
Proof.
  intros Hm Hn. unfold grow_max.
  destruct (decide (nguys > m)) as [Hgt|Hle].
  2: { exists m. simpl. rewrite bool_decide_eq_false_2 by lia. split_and!; done || lia. }
  destruct (while_loop_inv (λ x, m ≤ x ≤ 2 ^ 30)
    (λ x, Z.to_nat (Z.log2 (2 ^ 31) - Z.log2 (x + 1)))
    (λ x, bool_decide (nguys > x)) (λ x, Ret (s32 (s32 (x + 1) * 2))) 32 m)
    as (m' & -> & Hm' & Hc).
  - lia.
  - change (Z.log2 (2 ^ 31)) with 31. pose proof (Z.log2_nonneg (m + 1)). lia.
  - intros x Hx Hc. cbool. eexists. split; [done|].
    rewrite (s32_small (x + 1)), s32_small by lia. split; [lia|].
    change (Z.log2 (2 ^ 31)) with 31.
    assert (Z.log2 (x + 1) + 1 ≤ Z.log2 ((x + 1) * 2 + 1)).
    { pose proof (Z.log2_le_mono (2 * (x + 1)) ((x + 1) * 2 + 1)).
      rewrite Z.log2_double in * by lia. lia. }
    assert (Z.log2 (x + 1) ≤ 30).
    { pose proof (Z.log2_le_mono (x + 1) (2 ^ 30)). change (Z.log2 (2 ^ 30)) with 30 in *. lia. }
    lia.
  - cbool. exists m'. split_and!; try done; lia.
Qed.

Lemma copy_loop {A} (c newv : list (option A)) n : (n ≤ length c)%nat → (n ≤ length newv)%nat →
  for_each n 0 (copy_cell (Some c)) newv = Ret (take n c ++ drop n newv).
Proof.
  intros Hc Hn.
  destruct (for_each_inv (λ i r, 0 ≤ i ≤ Z.of_nat n ∧
      r = take (Z.to_nat i) c ++ drop (Z.to_nat i) newv)
    (copy_cell (Some c)) n 0 newv) as (r & -> & Hi & ->).
  - split; [lia|done].
  - intros i r Hi [_ ->]. unfold copy_cell.
    destruct (rd_in_range c i) as (x & -> & Hx); [lia|]. ostep.
    rewrite wr_in_range by (rewrite length_app, length_take, length_drop; lia).
    eexists. split; [done|]. split; [lia|].
    rewrite (Z2Nat.inj_add i 1), Nat.add_1_r by lia.
    rewrite insert_app_r_alt by (rewrite length_take; lia).
    rewrite length_take, Nat.min_l, Nat.sub_diag by lia.
    destruct (lookup_lt_is_Some_2 newv (Z.to_nat i)) as [y Hy]; [lia|].
    rewrite (drop_S newv y) by done. simpl.
    by rewrite (take_S_r c (Z.to_nat i) x Hx), <- app_assoc.
  - by rewrite Z.add_0_l, Nat2Z.id.
Qed.

Lemma preallocate_cells {A} km (a : array A) c nguys : avis a c → 0 ≤ nguys ≤ 2 ^ 29 →
  (∃ a', array_preallocate km a nguys = Ret (a', 0) ∧ avis a' c ∧ nguys ≤ a_max a' ∧
     a_max a ≤ a_max a') ∨
  (array_preallocate km a nguys = Ret (a, ENOMEM) ∧ ∃ x, km x = false).
Proof.
  intros Hr Hg. pose proof (avis_nonneg a c Hr) as Hnn. destruct Hr as [Hn Hm Hv].
  unfold array_preallocate. rewrite !bool_decide_eq_true_2 by lia. simpl.
  destruct (grow_max_ok nguys (a_max a)) as (m & -> & ? & ? & _); [lia..|]. simpl.
  destruct (km _) eqn:Hkm; [left|right; eauto]. cbn [negb].
  assert (Hz : Z.to_nat (a_num a) = length c) by lia.
  destruct (a_v a) as [v|].
  - destruct Hv as [Hl Ht]. rewrite copy_loop by (rewrite ?length_replicate; lia). simpl.
    eexists. split; [done|]. split; [|simpl; lia].
    split; simpl; [done|lia|]. rewrite Hz, Ht. split.
    + rewrite length_app, length_drop, length_replicate. lia.
    + by rewrite take_app_length' by done.
  - rewrite Hz. assert (c = []) as -> by (apply length_zero_iff_nil; lia). simpl.
    eexists. split; [done|]. split; [|simpl; lia]. split; simpl; [done|lia|].
    split; [rewrite length_replicate; lia|done].
Qed.

Lemma array_preallocate_ok {A} km (a : array A) l nguys : arepr a l → 0 ≤ nguys ≤ 2 ^ 29 →
  (∃ a', array_preallocate km a nguys = Ret (a', 0) ∧ arepr a' l ∧ nguys ≤ a_max a' ∧
     a_max a ≤ a_max a') ∨
  (array_preallocate km a nguys = Ret (a, ENOMEM) ∧ ∃ x, km x = false).
Proof. apply preallocate_cells. Qed.

(** Shrinking keeps the first cells, growing appends cells with whatever is there.  Memory is
    asked for beyond the capacity only, and given back only with the last element. *)
Lemma setsize_cells {A} km (a : array A) c n : avis a c → 0 ≤ n → n ≤ 2 ^ 29 ∨ n ≤ a_max a →
  (∃ a' d, array_setsize km a n = Ret (a', 0) ∧ avis a' (take (Z.to_nat n) c ++ d) ∧
     len d = n - Z.min n (len c) ∧
     a_max a ≤ (if bool_decide (n = 0) && bool_decide (a_max a > 16) then a_max a else a_max a') ∧
     (n ≤ a_max a → a_max a' = if bool_decide (n = 0) && bool_decide (a_max a > 16) then 0 else a_max a)) ∨
  (array_setsize km a n = Ret (a, ENOMEM) ∧ a_max a < n ∧ ∃ x, km x = false).
Proof.
  intros Hr Hn Hbig. pose proof (avis_nonneg a c Hr) as Hnn. pose proof (av_num a c Hr) as Hnum.
  unfold array_setsize. bdec. simpl.
  assert (Hwide : ∀ a', avis a' c → n ≤ a_max a' → (a_v a' = None → n = 0) →
    ∃ d, avis (Array n (a_max a') (a_v a')) (take (Z.to_nat n) c ++ d) ∧ len d = n - Z.min n (len c)).
  { intros a' [Hn' Hm' Hv'] Hle Hnone. destruct (a_v a') as [v|] eqn:Ev.
    - destruct Hv' as [Hl Ht]. exists (drop (length c) (take (Z.to_nat n) v)).
      assert (Hcells : take (Z.to_nat n) c ++ drop (length c) (take (Z.to_nat n) v) = take (Z.to_nat n) v).
      { rewrite <- Ht at 1. rewrite take_take, Nat.min_comm, <- take_take. apply take_drop. }
      split; [|rewrite length_drop, length_take; lia]. rewrite Hcells. split; simpl; [rewrite length_take; lia|lia|].
      split; [done|]. by rewrite length_take, Nat.min_l by lia.
    - exists []. specialize (Hnone eq_refl). subst n. simpl. split; [split; simpl; done || lia|lia]. }
  case_bool_decide as Hgt.
  - destruct (preallocate_cells km a c n Hr) as [(a' & -> & Hr' & Hmax & Hle)|[-> ?]]; [lia| |]; ostep.
    2: { right. split_and!; [done|lia|done]. }
    left. bdec. ostep. destruct (Hwide a' Hr') as (d & Hd & Hlen); [done| |].
    { intros Hv. pose proof (av_v _ _ Hr') as Hv'. rewrite Hv in Hv'. lia. }
    exists (Array n (a_max a') (a_v a')), d. split_and!; [done|done|done| |lia]. bdec. simpl. lia.
  - left. destruct (bool_decide (n = 0) && bool_decide (a_max a > 16)) eqn:Hz.
    + apply andb_true_iff in Hz as [Hz1%bool_decide_eq_true Hz2%bool_decide_eq_true]. subst n.
      pose proof (av_v _ _ Hr) as Hv. destruct (a_v a) as [v|]; [|lia]. rewrite bool_decide_eq_true_2 by eauto. simpl.
      exists (Array 0 0 None), []. split_and!; [done| |simpl; lia|lia|done]. split; simpl; done || lia.
    + destruct (Hwide a Hr) as (d & Hd & Hlen); [lia| |].
      { intros Hv. pose proof (av_v _ _ Hr) as Hv'. rewrite Hv in Hv'. lia. }
      exists (Array n (a_max a) (a_v a)), d. split_and!; [done|done|done|simpl; lia|done].
Qed.

Lemma set_cell_cells {A} (a : array A) c i x : avis a c → 0 ≤ i < len c →
  ∃ v, set_cell (a_v a) i (Some x) = Ret v ∧ avis (Array (a_num a) (a_max a) v) (<[Z.to_nat i := Some x]> c).
Proof.
  intros [Hn Hm Hv] Hi. destruct (a_v a) as [v|]; [|simpl in *; lia]. destruct Hv as [Hl Ht]. simpl.
  rewrite wr_in_range by lia. simpl. eexists. split; [done|].
  split; simpl; [by rewrite length_insert|lia|]. rewrite !length_insert. split; [done|].
  by rewrite take_insert_lt, Ht by lia.
Qed.

Lemma add_cells {A} km (a : array A) c x : avis a c → len c < 2 ^ 29 ∨ len c < a_max a →
  (∃ a', array_add km a x = Ret (a', 0) ∧ avis a' (c ++ [Some x]) ∧ a_max a ≤ a_max a' ∧
     (len c < a_max a → a_max a' = a_max a)) ∨
  (array_add km a x = Ret (a, ENOMEM) ∧ a_max a = len c ∧ ∃ x, km x = false).
Proof.
  intros Hr Hlt. pose proof (av_num a c Hr). pose proof (avis_nonneg a c Hr).
  pose proof (av_max a c Hr). unfold array_add. rewrite s32_small by lia.
  destruct (setsize_cells km a c (a_num a + 1) Hr) as [(a' & d & -> & Hr' & Hd & Hmax & Hkeep)|(-> & ? & ?)]; [lia|lia| |]; ostep.
  2: { right. split_and!; [done|lia|done]. }
  left. bdec. simpl in *. rewrite take_ge in Hr' by lia. destruct d as [|y []]; [simpl in Hd; lia| |simpl in Hd; lia].
  destruct (set_cell_cells a' (c ++ [y]) (a_num a) x Hr') as (v & -> & Hv); [rewrite length_app; simpl; lia|]. ostep.
  eexists. split; [done|]. rewrite insert_app_r_alt in Hv by lia. replace (Z.to_nat (a_num a) - length c)%nat with 0%nat in Hv by lia.
  split; [done|]. rewrite (bool_decide_eq_false_2 (a_num a + 1 = 0)) in Hmax, Hkeep by lia. simpl in *. split; [lia|]. intros. apply Hkeep. lia.
Qed.

(** With room for one more element no memory is asked for. *)
Lemma array_add_room {A} km (a : array A) l x : arepr a l → len l < a_max a →
  ∃ a', array_add km a x = Ret (a', 0) ∧ arepr a' (l ++ [x]) ∧ a_max a' = a_max a.
Proof.
  intros Hr Hroom. destruct (add_cells km a _ x Hr) as [(a' & ? & Hr' & _ & Hmax)|(_ & Hfull & _)]; rewrite length_fmap in *; [lia| |lia].
  exists a'. split; [done|]. split; [|by apply Hmax]. unfold arepr. by rewrite fmap_app.
Qed.

Lemma array_add_ok {A} km (a : array A) l x : arepr a l → len l < 2 ^ 29 →
  (∃ a', array_add km a x = Ret (a', 0) ∧ arepr a' (l ++ [x]) ∧ a_max a ≤ a_max a') ∨
  (array_add km a x = Ret (a, ENOMEM) ∧ a_max a = len l ∧ ∃ x, km x = false).
Proof.
  intros Hr Hlt. destruct (add_cells km a _ x Hr) as [(a' & ? & Hr' & ? & _)|(? & ? & ?)]; [rewrite length_fmap; lia| |right; rewrite length_fmap in *; done].
  left. exists a'. split; [done|]. split; [|done]. unfold arepr. by rewrite fmap_app.
Qed.

Lemma remove_cells {A} (a : array A) c i : avis a c → 0 ≤ i < len c →
  ∃ a', array_remove a i = Ret a' ∧ avis a' (delete (Z.to_nat i) c) ∧ a_max a' = a_max a.
Proof.
  intros Hr Hi. pose proof (avis_nonneg a c Hr). destruct Hr as [Hn Hm Hv].
  unfold array_remove. bdec. simpl.
  destruct (a_v a) as [v|]; [|simpl in *; lia]. destruct Hv as [Hl Ht]. unfold move_cells.
  rewrite bool_decide_eq_true_2 by lia. simpl. eexists. split; [done|]. split; [|done].
  assert (∃ d, v = c ++ d) as [d ->] by (exists (drop (length c) v); by rewrite <- Ht at 1; rewrite take_drop).
  assert (Hd : length (delete (Z.to_nat i) c) = (length c - 1)%nat).
  { apply length_delete, lookup_lt_is_Some_2. lia. }
  rewrite length_app in Hl.
  split; simpl; [lia|lia|]. split.
  - rewrite !length_app, !length_take, !length_drop, length_app. lia.
  - rewrite Hd, delete_take_drop, (take_app_le c), (drop_app_le c), (take_app_le (drop _ c)), (take_ge (drop _ c)), app_assoc, take_app_le, take_ge;
      rewrite ?length_app, ?length_take, ?length_drop; [|lia..].
    do 2 f_equal. lia.
Qed.

Lemma array_remove_ok {A} (a : array A) l i : arepr a l → 0 ≤ i < len l →
  ∃ a', array_remove a i = Ret a' ∧ arepr a' (delete (Z.to_nat i) l) ∧ a_max a' = a_max a.
Proof.
  intros Hr Hi. destruct (remove_cells a _ i Hr) as (a' & ? & ? & ?); [by rewrite length_fmap|].
  exists a'. unfold arepr. by rewrite list_fmap_delete.
Qed.

Lemma array_setsize_0 {A} km (a : array A) l : arepr a l →
  ∃ a', array_setsize km a 0 = Ret (a', 0) ∧ arepr a' [] ∧
    a_max a' = if bool_decide (a_max a > 16) then 0 else a_max a.
Proof.
  intros Hr. pose proof (avis_nonneg a _ Hr).
  destruct (setsize_cells km a _ 0 Hr) as [(a' & d & ? & Hr' & Hd & _ & Hmax)|(_ & ? & _)]; [lia|lia| |lia].
  exists a'. destruct d; [|simpl in Hd; lia]. split; [done|]. split; [done|]. apply Hmax. lia.
Qed.

Lemma setguy_cells {A} (a : array A) c i x : avis a c → 0 ≤ i < len c →
  ∃ a', array_setguy a i x = Ret a' ∧ avis a' (<[Z.to_nat i := Some x]> c) ∧ a_max a' = a_max a.
Proof.
  intros Hr Hi. pose proof (avis_nonneg a c Hr). pose proof (av_num a c Hr).
  unfold array_setguy. bdec. simpl. destruct (set_cell_cells a c i x Hr Hi) as (v & -> & ?). ostep. by eexists.
Qed.

Lemma array_setguy_ok {A} (a : array A) l i x : arepr a l → 0 ≤ i < len l →
  ∃ a', array_setguy a i x = Ret a' ∧ arepr a' (<[Z.to_nat i := x]> l) ∧ a_max a' = a_max a.
Proof.
  intros Hr Hi. destruct (setguy_cells a _ i x Hr) as (a' & ? & ? & ?); [by rewrite length_fmap|].
  exists a'. unfold arepr. by rewrite list_fmap_insert.
Qed.

(** ** Refinement of a list *)

(** The calls a client makes, and what each hands back. *)
Inductive array_call (A : Type) :=
| CallAdd (x : A)
| CallRemove (i : Z)
| CallSet (i : Z) (x : A)
| CallGet (i : Z)
| CallGetnum
| CallSetsize (n : Z)
| CallPreallocate (n : Z).
Arguments CallAdd {A} x.
Arguments CallRemove {A} i.
Arguments CallSet {A} i x.
Arguments CallGet {A} i.
Arguments CallGetnum {A}.
Arguments CallSetsize {A} n.
Arguments CallPreallocate {A} n.

Inductive array_reply (A : Type) := RCode (e : Z) | RGuy (x : A) | RNum (n : Z).
Arguments RCode {A} e.
Arguments RGuy {A} x.
Arguments RNum {A} n.

Definition array_exec {A} (km : Z → bool) (a : array A) (c : array_call A) : outcome (array A * array_reply A) :=
  match c with
  | CallAdd x => '(a', r) ← array_add km a x; Ret (a', RCode r)
  | CallRemove i => a' ← array_remove a i; Ret (a', RCode 0)
  | CallSet i x => a' ← array_setguy a i x; Ret (a', RCode 0)
  | CallGet i => x ← array_getguy a i; Ret (a, RGuy x)
  | CallGetnum => Ret (a, RNum (array_getnum a))
  | CallSetsize n => '(a', r) ← array_setsize km a n; Ret (a', RCode r)
  | CallPreallocate n => '(a', r) ← array_preallocate km a n; Ret (a', RCode r)
  end.

(** The abstract array: a list in which [None] is an element that array_setsize has made
    room for and that has not been set. *)
Definition resize {A} (n : Z) (l : list (option A)) : list (option A) :=
  take (Z.to_nat n) l ++ replicate (Z.to_nat n - length l) None.

(** The same calls on it; [None] where the caller breaks the interface. *)
Definition list_exec {A} (l : list (option A)) (c : array_call A) : option (list (option A) * array_reply A) :=
  match c with
  | CallAdd x => if bool_decide (len l < 2 ^ 29) then Some (l ++ [Some x], RCode 0) else None
  | CallRemove i => if bool_decide (0 ≤ i < len l) then Some (delete (Z.to_nat i) l, RCode 0) else None
  | CallSet i x => if bool_decide (0 ≤ i < len l) then Some (<[Z.to_nat i := Some x]> l, RCode 0) else None
  | CallGet i => if bool_decide (0 ≤ i) then match l !! Z.to_nat i with Some (Some x) => Some (l, RGuy x) | _ => None end else None
  | CallGetnum => Some (l, RNum (len l))
  | CallSetsize n => if bool_decide (0 ≤ n ≤ 2 ^ 29) then Some (resize n l, RCode 0) else None
  | CallPreallocate n => if bool_decide (0 ≤ n ≤ 2 ^ 29) then Some (l, RCode 0) else None
  end.

(** The calls that may ask for memory. *)
Definition allocates {A} (c : array_call A) : bool :=
  match c with CallAdd _ | CallSetsize _ | CallPreallocate _ => true | _ => false end.

(** A cell holds what has been set. *)
Definition agrees {A} (y o : option A) : Prop := match o with Some x => y = Some x | None => True end.
Definition acells {A} (a : array A) (l : list (option A)) : Prop := ∃ c, avis a c ∧ Forall2 agrees c l.

Lemma acells_num {A} (a : array A) l : acells a l → a_num a = len l.
Proof. intros (c & Hr & Hc). rewrite (av_num _ _ Hr). by rewrite (Forall2_length _ _ _ Hc). Qed.

Lemma agrees_resize {A} (c d l : list (option A)) n : Forall2 agrees c l → 0 ≤ n → len d = n - Z.min n (len c) →
  Forall2 agrees (take (Z.to_nat n) c ++ d) (resize n l).
Proof.
  intros Hc Hn Hd. pose proof (Forall2_length _ _ _ Hc). apply Forall2_app; [by apply Forall2_take|].
  apply Forall2_replicate_r; [lia|]. by apply Forall_true.
Qed.

(** [C20] Every call of the array module behaves as the operation on the list of the elements
    does: adding, removing, setting, getting, counting, preallocating, and setting the size to
    any number, which keeps the first elements and, if it grows, leaves the new ones unset.
    While the caller keeps to indices in range, elements that have been set and sizes up to
    2^29, no assertion fails and no cell out of range or unwritten is read.  The only failure
    is ENOMEM, of the calls that may allocate, when kmalloc fails; it leaves the array as it was. *)
Theorem array_refines_list {A} km (a : array A) l c l' out :
  acells a l → list_exec l c = Some (l', out) →
  (∃ a', array_exec km a c = Ret (a', out) ∧ acells a' l') ∨
  (array_exec km a c = Ret (a, RCode ENOMEM) ∧ allocates c = true ∧ ∃ x, km x = false).
Proof.
  intros (v & Hr & Hv) Hc. pose proof (Forall2_length _ _ _ Hv) as Hlen. destruct c as [x|i|i x|i| |n|n]; simpl in *.
  - case_bool_decide; simplify_eq.
    destruct (add_cells km a v x Hr) as [(a' & -> & ? & _)|(-> & _ & ?)]; [lia|left|right]; ostep; [|done].
    eexists. split; [done|]. eexists. split; [done|]. apply Forall2_app; [done|by repeat constructor].
  - case_bool_decide; simplify_eq.
    destruct (remove_cells a v i Hr) as (a' & -> & ? & _); [lia|]. ostep. left. eexists. split; [done|]. eexists. split; [done|by apply Forall2_delete].
  - case_bool_decide; simplify_eq.
    destruct (setguy_cells a v i x Hr) as (a' & -> & ? & _); [lia|]. ostep. left. eexists. split; [done|]. eexists. split; [done|by apply Forall2_insert].
  - case_bool_decide; simplify_eq. destruct (l !! Z.to_nat i) as [[y|]|] eqn:E; simplify_eq/=.
    destruct (Forall2_lookup_r _ _ _ _ _ Hv E) as (z & Hz & ->). erewrite getguy_cells by done. ostep. left. eexists. split; [done|by exists v].
  - simplify_eq. left. exists a. unfold array_getnum. rewrite (av_num _ _ Hr). split; [by rewrite Hlen|by exists v].
  - case_bool_decide; simplify_eq.
    destruct (setsize_cells km a v n Hr) as [(a' & d & -> & ? & Hd & _)|(-> & _ & ?)]; [lia|lia|left|right]; ostep; [|done].
    eexists. split; [done|]. eexists. split; [done|]. apply agrees_resize; [done|lia|lia].
  - case_bool_decide; simplify_eq.
    destruct (preallocate_cells km a v n Hr) as [(a' & -> & ? & _)|[-> ?]]; [done|left|right]; ostep; [|done].
    eexists. split; [done|by exists v].
Qed.

(** Two of three elements are kept without asking for memory. *)
Lemma array_refines_list_witness :
  ∃ a', array_exec (λ _, false) (Array 3 6 (Some [Some 7; Some 8; Some 9; None; None; None])) (CallSetsize 2) = Ret (a', RCode 0) ∧
    acells a' [Some 7; Some 8].
Proof.
  destruct (array_refines_list (λ _, false) (Array 3 6 (Some [Some 7; Some 8; Some 9; None; None; None])) [Some 7; Some 8; Some 9] (CallSetsize 2)
    [Some 7; Some 8] (RCode 0)) as [?|(H & _)]; [|reflexivity|assumption|vm_compute in H; discriminate H].
  exists [Some 7; Some 8; Some 9]. split; [split; simpl; [reflexivity|lia|split; reflexivity]|repeat constructor].
Defined.

(** Adding a list of elements, stopping at the first error. *)
Fixpoint array_add_all {A} (km : Z → bool) (a : array A) (xs : list A) : outcome (array A * Z) :=
  match xs with
  | [] => Ret (a, 0)
  | x :: xs' =>
      '(a', r) ← array_add km a x;
      if bool_decide (r ≠ 0) then Ret (a', r) else array_add_all km a' xs'
  end.

Lemma array_add_all_room {A} km (a : array A) l xs : arepr a l → len l + len xs ≤ a_max a →
  ∃ a', array_add_all km a xs = Ret (a', 0) ∧ arepr a' (l ++ xs).
Proof.
  revert a l. induction xs as [|x xs IH]; intros a l Hr Hroom; simpl.
  - exists a. by rewrite app_nil_r.
  - simpl in Hroom. destruct (array_add_room km a l x Hr) as (a' & -> & Hr' & Hmax); [lia|].
    ostep. bdec. destruct (IH a' (l ++ [x]) Hr') as (a'' & -> & Hr'').
    { rewrite length_app. simpl. lia. }
    exists a''. split; [done|]. by rewrite <- app_assoc in Hr''.
Qed.

(** The promise of array_preallocate: once it has succeeded for [n] elements, additions up
    to [n] elements succeed even when kmalloc fails every time. *)
Theorem array_preallocate_guarantee {A} km (a a' : array A) l n xs :
  arepr a l → 0 ≤ n ≤ 2 ^ 29 → array_preallocate km a n = Ret (a', 0) →
  len l + len xs ≤ n →
  ∃ a'', array_add_all (λ _, false) a' xs = Ret (a'', 0) ∧ arepr a'' (l ++ xs).
Proof.
  intros Hr Hn Hpre Hlen.
  destruct (array_preallocate_ok km a l n Hr Hn) as [(b & Hb & Hr' & Hmax & _)|[Hb _]];
    rewrite Hpre in Hb; simplify_eq.
  apply array_add_all_room; [done|lia].
Qed.

Lemma array_preallocate_guarantee_witness :
  ∃ a'', array_add_all (λ _, false) (Array 0 6 (Some (replicate 6 None))) [1; 2; 3; 4; 5]
         = Ret (a'', 0) ∧ arepr a'' ([] ++ [1; 2; 3; 4; 5]).
Proof.
  apply (array_preallocate_guarantee (λ _, true) (Array 0 0 None) _ [] 5);
    [apply arepr_create|lia|vm_compute; reflexivity|simpl; lia].
Defined.
