(* ===== verification/CQueue.v ===== *)
(** * kern/lib/queue.c: ring buffers of pointers

    As in [CArray], elements are values of a type [A], unwritten cells are
    [None], and [km] says which calls of kmalloc succeed.  q_grow re-inserts the
    old elements with q_addtail, which itself may call q_grow: the recursion is
    given a depth, and depth 2 is proved enough.  The abstract value of a queue
    is the list of its elements, oldest first ([qrepr]). *)
From S2P Require Import Prelude.

Record queue (A : Type) := Queue {
  q_size : Z;
  q_nextwrite : Z;
  q_nextread : Z;
  q_data : list (option A)
}.
Arguments Queue {A} _ _ _ _.
Arguments q_size {A} _.
Arguments q_nextwrite {A} _.
Arguments q_nextread {A} _.
Arguments q_data {A} _.

Section ops.
Context {A : Type}.
Implicit Types q : queue A.

Definition slot (l : list (option A)) (i : Z) : outcome A :=
  x ← rd l i;
  match x with Some y => Ret y | None => Wild end.

(** One step of [for (i=onr; i!=onw; i=(i+1)%osize) q_addtail(q, olddata[i])]. *)
Definition reinsert (addtail : queue A → A → outcome (queue A * Z))
    (olddata : list (option A)) (osize : Z) (s : Z * queue A) : outcome (Z * queue A) :=
  let '(i, q) := s in
  x ← slot olddata i;
  '(q', result) ← addtail q x;
  c_assert (bool_decide (result = 0));;
  Ret (Z.rem (s32 (i + 1)) osize, q').

(** [nsize *= 2; assert(nsize > 0)] *)
Definition double_size (nsize : Z) : outcome Z :=
  let nsize' := s32 (nsize * 2) in
  c_assert (bool_decide (nsize' > 0));;
  Ret nsize'.

Definition q_grow_with (addtail : queue A → A → outcome (queue A * Z))
    (km : Z → bool) q (targetsize : Z) : outcome (queue A * Z) :=
  let olddata := q_data q in
  let onr := q_nextread q in
  let onw := q_nextwrite q in
  let osize := q_size q in
  nsize ← while_loop 32 (λ n, bool_decide (n < targetsize)) double_size (q_size q);
  if negb (km (u32 (nsize * 4))) then Ret (q, ENOMEM)
  else
    let q0 := Queue nsize 0 0 (replicate (Z.to_nat nsize) None) in
    '(_, q') ← while_loop (Z.to_nat osize) (λ s, bool_decide (s.1 ≠ onw))
                 (reinsert addtail olddata osize) (onr, q0);
    Ret (q', 0).

Fixpoint q_addtail_depth (depth : nat) (km : Z → bool) q (ptr : A) : outcome (queue A * Z) :=
  match depth with
  | O => Spin
  | S depth' =>
      c_assert (bool_decide (q_size q > 0));;
      let nextnext := Z.rem (s32 (q_nextwrite q + 1)) (q_size q) in
      '(q', nn, err) ←
        (if bool_decide (nextnext = q_nextread q) then
           '(q1, result) ← q_grow_with (q_addtail_depth depth' km) km q (s32 (q_size q + 1));
           if bool_decide (result ≠ 0) then Ret (q1, 0, result)
           else Ret (q1, Z.rem (s32 (q_nextwrite q1 + 1)) (q_size q1), 0)
         else Ret (q, nextnext, 0));
      if bool_decide (err ≠ 0) then Ret (q', err)
      else
        data ← wr (q_data q') (q_nextwrite q') (Some ptr);
        Ret (Queue (q_size q') nn (q_nextread q') data, 0)
  end.

Definition q_addtail := q_addtail_depth 2.

Definition q_grow (km : Z → bool) q (targetsize : Z) : outcome (queue A * Z) :=
  q_grow_with (q_addtail km) km q targetsize.

Definition q_create (ok_q ok_data : bool) (size : Z) : option (queue A) :=
  if ok_q && ok_data then Some (Queue size 0 0 (replicate (Z.to_nat size) None)) else None.

Definition q_preallocate (km : Z → bool) q (size : Z) : outcome (queue A * Z) :=
  c_assert (bool_decide (q_size q > 0));;
  if bool_decide (size > q_size q) then q_grow km q size else Ret (q, 0).

Definition q_empty q : bool := bool_decide (q_nextwrite q = q_nextread q).

Definition q_remhead q : outcome (queue A * A) :=
  c_assert (bool_decide (q_size q > 0));;
  c_assert (negb (q_empty q));;
  ret ← slot (q_data q) (q_nextread q);
  Ret (Queue (q_size q) (q_nextwrite q) (Z.rem (s32 (q_nextread q + 1)) (q_size q)) (q_data q), ret).

Definition q_destroy q : outcome () := c_assert (q_empty q).

Definition q_getstart q : Z := q_nextread q.
Definition q_getend q : Z := q_nextwrite q.
Definition q_getsize q : Z := q_size q.

Definition q_getguy q (index : Z) : outcome A :=
  c_assert (bool_decide (0 ≤ index) && bool_decide (index < q_size q));;
  slot (q_data q) index.
End ops.

(** ** Representation *)

Record qrepr {A} (q : queue A) (l : list A) : Prop := {
  qr_size : 0 < q_size q ≤ 2 ^ 29;
  qr_data : len (q_data q) = q_size q;
  qr_read : 0 ≤ q_nextread q < q_size q;
  qr_write : q_nextwrite q = (q_nextread q + len l) mod q_size q;
  qr_room : len l < q_size q;
  qr_elems : ∀ k x, l !! k = Some x →
    q_data q !! Z.to_nat ((q_nextread q + Z.of_nat k) mod q_size q) = Some (Some x)
}.

Lemma mod_cancel a b c n : 0 < n → 0 ≤ b < n → 0 ≤ c < n → (a + b) mod n = (a + c) mod n → b = c.
Proof.
  intros Hn Hb Hc Heq.
  pose proof (Z.div_mod (a + b) n ltac:(lia)). pose proof (Z.div_mod (a + c) n ltac:(lia)).
  assert (b - c = n * ((a + b) / n - (a + c) / n)) as Hd by lia.
  destruct (Z.lt_trichotomy ((a + b) / n - (a + c) / n) 0) as [|[|]]; nia.
Qed.

Lemma rem_mod x n : 0 ≤ x → 0 < n → Z.rem x n = x mod n.
Proof. intros. apply Z.rem_mod_nonneg; lia. Qed.

Section proofs.
Context {A : Type}.
Implicit Types (q : queue A) (l : list A).

Lemma qrepr_write_range q l : qrepr q l → 0 ≤ q_nextwrite q < q_size q.
Proof. intros [? ? ? -> ? ?]. apply Z.mod_pos_bound. lia. Qed.

Lemma qrepr_new size : 0 < size ≤ 2 ^ 29 →
  qrepr (Queue size 0 0 (replicate (Z.to_nat size) None)) ([] : list A).
Proof.
  intros. split; simpl; [lia|rewrite length_replicate; lia|lia|by rewrite Z.mod_0_l by lia|lia|].
  intros k x. by rewrite lookup_nil.
Qed.

Lemma nextnext_eq q l : qrepr q l →
  Z.rem (s32 (q_nextwrite q + 1)) (q_size q) = (q_nextread q + (len l + 1)) mod q_size q.
Proof.
  intros Hr. pose proof (qrepr_write_range q l Hr). destruct Hr.
  rewrite s32_small, rem_mod by lia. rewrite qr_write0.
  rewrite Z.add_mod_idemp_l by lia. f_equal. lia.
Qed.

Lemma nextnext_full q l : qrepr q l →
  (Z.rem (s32 (q_nextwrite q + 1)) (q_size q) = q_nextread q ↔ len l + 1 = q_size q).
Proof.
  intros Hr. rewrite (nextnext_eq q l Hr). destruct Hr. split.
  - intros Heq. destruct (decide (len l + 1 = q_size q)); [done|].
    assert (len l + 1 = 0); [|lia]. apply (mod_cancel (q_nextread q) _ 0 (q_size q)); [lia..|].
    rewrite Heq, Z.add_0_r. symmetry. by apply Z.mod_small.
  - intros ->. rewrite <- (Z.mul_1_l (q_size q)) at 1. rewrite Z.mod_add by lia.
    by apply Z.mod_small.
Qed.

(** Writing the next cell of a queue with room appends the element. *)
Lemma qrepr_push q l x : qrepr q l → len l + 1 < q_size q →
  qrepr (Queue (q_size q) ((q_nextread q + (len l + 1)) mod q_size q) (q_nextread q)
           (<[Z.to_nat (q_nextwrite q) := Some x]> (q_data q))) (l ++ [x]).
Proof.
  intros Hr Hroom. pose proof (qrepr_write_range q l Hr) as Hw. destruct Hr.
  split; simpl; [done|by rewrite length_insert|done| | |].
  { rewrite length_app. simpl. f_equal. lia. }
  { rewrite length_app. simpl. lia. }
  intros k y Hk.
  assert (0 ≤ (q_nextread q + Z.of_nat k) mod q_size q < q_size q) by (apply Z.mod_pos_bound; lia).
  apply lookup_app_Some in Hk as [Hk|[Hk Hy]].
  - pose proof (lookup_lt_Some _ _ _ Hk).
    rewrite insert_Z_other; [by apply qr_elems0|lia..|].
    rewrite qr_write0. intros Heq. apply mod_cancel in Heq; lia.
  - destruct (k - length l)%nat eqn:E; [|done]. injection Hy as ->.
    replace (Z.of_nat k) with (len l) by lia. rewrite <- qr_write0.
    apply insert_Z_same. lia.
Qed.

Lemma q_addtail_room depth km q l x : qrepr q l → len l + 1 < q_size q →
  ∃ q', q_addtail_depth (S depth) km q x = Ret (q', 0) ∧ qrepr q' (l ++ [x]) ∧
    q_size q' = q_size q.
Proof.
  intros Hr Hroom. pose proof (qrepr_write_range q l Hr). pose proof (qr_size _ _ Hr).
  pose proof (qr_data _ _ Hr). simpl.
  rewrite (bool_decide_eq_true_2 (q_size q > 0)) by lia. simpl.
  rewrite bool_decide_eq_false_2 by (rewrite (nextnext_full q l Hr); lia). simpl.
  rewrite wr_in_range by lia. simpl. rewrite (nextnext_eq q l Hr).
  eexists. split; [done|]. split; [by apply qrepr_push|done].
Qed.

(** The re-insertion loop: the elements of [rest] still to be moved. *)
Lemma reinsert_loop depth km q fuel rest : ∀ front q1,
  qrepr q (front ++ rest) → qrepr q1 front → len (front ++ rest) < q_size q1 →
  (length rest ≤ fuel)%nat →
  ∃ q2 i, while_loop fuel (λ s, bool_decide (s.1 ≠ q_nextwrite q))
      (reinsert (q_addtail_depth (S depth) km) (q_data q) (q_size q))
      ((q_nextread q + len front) mod q_size q, q1) = Ret (i, q2) ∧
    qrepr q2 (front ++ rest) ∧ q_size q2 = q_size q1.
Proof.
  revert rest. induction fuel as [|fuel IH]; intros rest front q1 Hq Hq1 Hlt Hfuel.
  - destruct rest; [|simpl in *; lia]. rewrite app_nil_r in *. simpl.
    rewrite (qr_write _ _ Hq), bool_decide_eq_false_2 by naive_solver. eauto.
  - destruct rest as [|x rest].
    + rewrite app_nil_r in *. simpl.
      rewrite (qr_write _ _ Hq), bool_decide_eq_false_2 by naive_solver. eauto.
    + rewrite length_app in Hlt. simpl in Hlt, Hfuel. cbn [while_loop].
      pose proof (qr_size _ _ Hq). pose proof (qr_room _ _ Hq) as Hroom.
      rewrite length_app in Hroom. simpl in Hroom.
      assert (0 ≤ (q_nextread q + len front) mod q_size q < q_size q) by (apply Z.mod_pos_bound; lia).
      rewrite bool_decide_eq_true_2.
      2: { simpl. rewrite (qr_write _ _ Hq), length_app. simpl. intros Heq.
           apply mod_cancel in Heq; lia. }
      unfold reinsert at 2. unfold slot.
      rewrite (rd_lookup _ _ (Some x)); [|lia|].
      2: { apply (qr_elems _ _ Hq). by rewrite lookup_app_r, Nat.sub_diag by lia. }
      ostep. destruct (q_addtail_room depth km q1 front x Hq1) as (q1' & -> & Hq1' & Hs); [lia|].
      ostep. rewrite bool_decide_eq_true_2 by done. cbn [c_assert]. ostep.
      rewrite s32_small, rem_mod by lia. rewrite Z.add_mod_idemp_l by lia.
      replace (q_nextread q + len front + 1) with (q_nextread q + len (front ++ [x]))
        by (rewrite length_app; simpl; lia).
      rewrite (cons_middle x front rest), app_assoc in *. rewrite <- Hs in Hlt |- *.
      apply IH; [done..| |lia]. rewrite !length_app. simpl. lia.
Qed.

(** The doubling loop. *)
Lemma double_loop n target : 0 < n ≤ 2 ^ 29 → target ≤ 2 ^ 28 → 
  ∃ m, while_loop 32 (λ n, bool_decide (n < target)) double_size n = Ret m ∧
       target ≤ m ∧ n ≤ m ≤ 2 ^ 29 ∧ (n < target → m < 2 * target).
Proof.
  intros Hn Ht.
  destruct (while_loop_inv (λ x, n ≤ x ≤ 2 ^ 29 ∧ (n < target → x < 2 * target))
    (λ x, Z.to_nat (Z.log2 (2 ^ 30) - Z.log2 x)) (λ n, bool_decide (n < target))
    double_size 32 n)
    as (m & -> & [Hm Hm2] & Hc).
  - lia.
  - change (Z.log2 (2 ^ 30)) with 30. pose proof (Z.log2_nonneg n). lia.
  - intros x [Hx Hx2] Hc. cbool. unfold double_size. rewrite s32_small by lia.
    rewrite bool_decide_eq_true_2 by lia. ostep. eexists. split; [done|]. split; [lia|].
    change (Z.log2 (2 ^ 30)) with 30. rewrite Z.mul_comm, Z.log2_double by lia.
    pose proof (Z.log2_le_mono x (2 ^ 28)). change (Z.log2 (2 ^ 28)) with 28 in *. lia.
  - cbool. exists m. split_and!; try done; lia.
Qed.

Lemma q_grow_ok depth km q l target : qrepr q l → target ≤ 2 ^ 28 →
  (∃ q', q_grow_with (q_addtail_depth (S depth) km) km q target = Ret (q', 0) ∧ qrepr q' l ∧
     target ≤ q_size q' ∧ q_size q ≤ q_size q') ∨
  (q_grow_with (q_addtail_depth (S depth) km) km q target = Ret (q, ENOMEM) ∧ ∃ x, km x = false).
Proof.
  intros Hq Ht. unfold q_grow_with.
  destruct (double_loop (q_size q) target) as (m & -> & Hm & Hqm & _); [apply (qr_size _ _ Hq)|done|].
  ostep. destruct (km _) eqn:Hkm; [left|right; eauto]. cbn [negb]. ostep.
  pose proof (qr_size _ _ Hq). pose proof (qr_room _ _ Hq). pose proof (qr_read _ _ Hq).
  destruct (reinsert_loop depth km q (Z.to_nat (q_size q)) l []
    (Queue m 0 0 (replicate (Z.to_nat m) None))) as (q2 & i & Hrun & Hq2 & Hs).
  { done. } { apply qrepr_new. lia. } { simpl. lia. } { lia. }
  change (len []) with 0 in Hrun.
  rewrite Z.add_0_r, Z.mod_small in Hrun by done. rewrite Hrun. ostep.
  eexists. split; [done|]. split; [done|]. simpl in Hs. lia.
Qed.

(** q_addtail appends; it only asks for memory, and can only fail, when the
    ring is full. *)
Lemma q_addtail_ok km q l x : qrepr q l → len l + 2 ≤ 2 ^ 28 →
  (∃ q', q_addtail km q x = Ret (q', 0) ∧ qrepr q' (l ++ [x]) ∧ q_size q ≤ q_size q') ∨
  (q_addtail km q x = Ret (q, ENOMEM) ∧ len l + 1 = q_size q ∧ ∃ x, km x = false).
Proof.
  intros Hq Hlen. pose proof (qr_size _ _ Hq). pose proof (qr_room _ _ Hq).
  destruct (decide (len l + 1 = q_size q)) as [Hfull|Hroom].
  2: { left. destruct (q_addtail_room 1 km q l x Hq) as (q' & ? & ? & ?); [lia|]. eauto with lia. }
  unfold q_addtail. cbn [q_addtail_depth].
  rewrite (bool_decide_eq_true_2 (q_size q > 0)) by lia. cbn [c_assert]. ostep.
  rewrite bool_decide_eq_true_2 by (by apply (nextnext_full q l Hq)).
  rewrite (s32_small (q_size q + 1)) by lia.
  destruct (q_grow_ok 0 km q l (q_size q + 1) Hq) as [(q' & Hrun & Hq' & Hs & _)|[Hrun ?]]; [lia| |];
    change (q_addtail_depth 1 km) with (@q_addtail_depth A 1 km) in Hrun; cbn [q_addtail_depth] in Hrun;
    rewrite Hrun; ostep.
  2: { right. eauto. }
  left. pose proof (qrepr_write_range _ _ Hq'). pose proof (qr_data _ _ Hq').
  bdec. ostep. bdec.
  rewrite wr_in_range by lia. ostep. rewrite (nextnext_eq q' l Hq').
  eexists. split; [done|]. split; [apply qrepr_push; [done|lia]|simpl; lia].
Qed.

Lemma q_preallocate_ok km q l n : qrepr q l → n ≤ 2 ^ 28 →
  (∃ q', q_preallocate km q n = Ret (q', 0) ∧ qrepr q' l ∧ n ≤ q_size q' ∧
     q_size q ≤ q_size q') ∨
  (q_preallocate km q n = Ret (q, ENOMEM) ∧ ∃ x, km x = false).
Proof.
  intros Hq Hn. pose proof (qr_size _ _ Hq). unfold q_preallocate.
  rewrite (bool_decide_eq_true_2 (q_size q > 0)) by lia. cbn [c_assert]. ostep.
  case_bool_decide; [by apply q_grow_ok|]. left. exists q. split_and!; [done..|lia|lia].
Qed.

Lemma q_empty_ok q l : qrepr q l → q_empty q = bool_decide (l = []).
Proof.
  intros Hq. unfold q_empty. rewrite (qr_write _ _ Hq). destruct Hq.
  apply bool_decide_ext. split.
  - intros Heq. assert (len l = 0) by (apply (mod_cancel (q_nextread q) _ _ (q_size q)); [lia..|];
      rewrite Heq, Z.add_0_r; symmetry; by apply Z.mod_small).
    apply length_zero_iff_nil. lia.
  - intros ->. simpl. rewrite Z.add_0_r. by apply Z.mod_small.
Qed.

Lemma q_remhead_ok q x l : qrepr q (x :: l) →
  ∃ q', q_remhead q = Ret (q', x) ∧ qrepr q' l ∧ q_size q' = q_size q.
Proof.
  intros Hq. unfold q_remhead. rewrite (q_empty_ok q _ Hq).
  rewrite (bool_decide_eq_false_2 (x :: l = [])) by done.
  destruct Hq. simpl in *. rewrite bool_decide_eq_true_2 by lia. simpl. unfold slot.
  rewrite (rd_lookup _ _ (Some x)); [|lia|].
  2: { rewrite <- (qr_elems0 0%nat x) by done. f_equal. f_equal. simpl.
       rewrite Z.add_0_r. symmetry. by apply Z.mod_small. }
  simpl. rewrite s32_small, rem_mod by lia. eexists. split; [done|]. split; [|done].
  split; simpl; try done; [apply Z.mod_pos_bound; lia| |lia|].
  - rewrite qr_write0, Z.add_mod_idemp_l by lia. f_equal. lia.
  - intros k y Hk. rewrite Z.add_mod_idemp_l by lia. rewrite <- (qr_elems0 (S k) y) by done.
    do 3 f_equal. lia.
Qed.

Lemma q_remhead_empty q : qrepr q [] → q_remhead q = Panic.
Proof.
  intros Hq. unfold q_remhead. rewrite (q_empty_ok q _ Hq).
  pose proof (qr_size _ _ Hq). by rewrite !bool_decide_eq_true_2 by (done || lia).
Qed.
End proofs.

(** ** Refinement of a FIFO list *)

Inductive queue_call (A : Type) :=
| CallAddtail (x : A)
| CallRemhead
| CallPreallocate (n : Z).
Arguments CallAddtail {A} x.
Arguments CallRemhead {A}.
Arguments CallPreallocate {A} n.

Definition queue_exec {A} (km : Z → bool) (q : queue A) (c : queue_call A)
    : outcome (queue A * Z * option A) :=
  match c with
  | CallAddtail x => '(q', r) ← q_addtail km q x; Ret (q', r, None)
  | CallRemhead => '(q', x) ← q_remhead q; Ret (q', 0, Some x)
  | CallPreallocate n => '(q', r) ← q_preallocate km q n; Ret (q', r, None)
  end.

(** The calls on a list; [None] where the caller breaks the interface. *)
Definition fifo_exec {A} (l : list A) (c : queue_call A) : option (list A * option A) :=
  match c with
  | CallAddtail x => if bool_decide (len l + 2 ≤ 2 ^ 28) then Some (l ++ [x], None) else None
  | CallRemhead => match l with x :: l' => Some (l', Some x) | [] => None end
  | CallPreallocate n => if bool_decide (n ≤ 2 ^ 28) then Some (l, None) else None
  end.

(** [C21] The ring buffer refines a FIFO list: each call returns, hands back what the list
    operation does and leaves a queue representing the new list, through wrap-around and
    growth; the only failure is ENOMEM, when kmalloc fails, and it changes nothing. *)
Theorem queue_refines_fifo {A} km (q : queue A) l c l' out :
  qrepr q l → fifo_exec l c = Some (l', out) →
  (∃ q', queue_exec km q c = Ret (q', 0, out) ∧ qrepr q' l') ∨
  (∃ out', queue_exec km q c = Ret (q, ENOMEM, out') ∧ ∃ x, km x = false).
Proof.
  intros Hq Hc. destruct c as [x| |n]; simpl in *.
  - case_bool_decide; simplify_eq.
    destruct (q_addtail_ok km q l x Hq) as [(q' & -> & ? & _)|(-> & _ & ?)]; [done|left|right];
      ostep; eauto.
  - destruct l as [|x l]; simplify_eq.
    destruct (q_remhead_ok q x l' Hq) as (q' & -> & ? & _). ostep. eauto.
  - case_bool_decide; simplify_eq.
    destruct (q_preallocate_ok km q l' n Hq) as [(q' & -> & ? & _)|[-> ?]]; [done|left|right];
      ostep; eauto.
Qed.

Lemma queue_refines_fifo_witness :
  (∃ q', queue_exec (λ _, true) (Queue 4 0 0 (replicate 4 None)) (CallAddtail 5)
         = Ret (q', 0, None) ∧ qrepr q' [5]).
Proof.
  destruct (queue_refines_fifo (λ _, true) (Queue 4 0 0 (replicate 4 None)) [] (CallAddtail 5) [5] None)
    as [?|(? & _ & ? & ?)]; [apply (qrepr_new 4); lia|reflexivity|assumption|discriminate].
Defined.

(** How much q_preallocate guarantees: after it has succeeded for [n], a queue with fewer
    than [n - 1] elements takes one more without memory, but a ring of exactly [n] cells that
    holds [n - 1] elements has to grow, so that adding the [n]-th fails when kmalloc does. *)
Theorem q_preallocate_capacity {A} km (q q' : queue A) l n x :
  qrepr q l → n < 2 ^ 28 → q_preallocate km q n = Ret (q', 0) →
  (len l + 1 < n → ∃ q'', q_addtail (λ _, false) q' x = Ret (q'', 0) ∧ qrepr q'' (l ++ [x])) ∧
  (q_size q' = n → len l + 1 = n → q_addtail (λ _, false) q' x = Ret (q', ENOMEM)).
Proof.
  intros Hq Hn Hpre.
  destruct (q_preallocate_ok km q l n Hq) as [(b & Hb & Hq' & Hs & _)|[Hb _]];
    [lia|rewrite Hpre in Hb; simplify_eq..]. split.
  - intros Hlen. destruct (q_addtail_room 1 (λ _, false) b l x Hq') as (q'' & ? & ? & _); [lia|]. eauto.
  - intros Hsz Hlen. pose proof (qr_size _ _ Hq').
    unfold q_addtail. cbn [q_addtail_depth].
    rewrite (bool_decide_eq_true_2 (q_size b > 0)) by lia. cbn [c_assert]. ostep.
    rewrite bool_decide_eq_true_2 by (apply (nextnext_full b l Hq'); lia).
    unfold q_grow_with at 1. rewrite (s32_small (q_size b + 1)) by lia.
    destruct (double_loop (q_size b) (q_size b + 1)) as (m & -> & _); [lia..|]. by ostep.
Qed.

Lemma q_preallocate_capacity_witness :
  (len ([] : list Z) + 1 < 4 → ∃ q'', q_addtail (λ _, false) (Queue 4 0 0 (replicate 4 None)) 9 = Ret (q'', 0)
    ∧ qrepr q'' ([] ++ [9])) ∧
  (q_size (Queue 4 0 0 (replicate 4 None) : queue Z) = 4 → len ([] : list Z) + 1 = 4 →
   q_addtail (λ _, false) (Queue 4 0 0 (replicate 4 None)) 9
   = Ret (Queue 4 0 0 (replicate 4 None), ENOMEM)).
Proof.
  apply (q_preallocate_capacity (λ _, true) (Queue 4 0 0 (replicate 4 None)) _ [] 4);
    [apply (qrepr_new 4); lia|lia|reflexivity].
Defined.
