(* ===== verification/Thread.v ===== *)
(** * kern/thread: threads, the run queue, sleeping and context switches

    Models kern/thread/thread.c, kern/thread/scheduler.c, kern/thread/hardclock.c,
    the context switch of kern/arch/mips/mips/pcb.c and the interrupt level of
    kern/arch/mips/mips/spl.c as functions on one state, the globals of the
    thread system.  Thread structures are named by their address.

    A context switch does not return to its caller but continues the thread it
    switches to, at the point where that thread last left the processor.  That
    point is a [kont] kept in the thread's pcb: the start of a new thread, the
    rest of thread_yield or the rest of thread_sleep.  [mi_switch] therefore
    takes the continuation of the thread that leaves and ends by running the
    continuation of the thread that arrives.

    The idle loop of the scheduler waits for interrupts; the interrupts that
    arrive are an argument, a list of [irq]. *)
From S2P Require Import Prelude.
From S2P Require Import CArray.
From S2P Require Import CQueue.

Definition NULL : Z := 0.
Definition SPL_HIGH : Z := 15.
Definition STACK_SIZE : Z := 4096.
Definition HZ : Z := 100.

(** The sleep address &lbolt, an address no allocated object has. *)
Definition lbolt : Z := 1.

Inductive kont :=
| KStart (func data1 data2 : Z)   (* mi_threadstart, for a thread that never ran *)
| KYield (spl : Z)                (* the rest of thread_yield: splx(spl) *)
| KSleep                          (* the rest of thread_sleep *)
| KExit                           (* the rest of thread_exit: panic *)
| KNone.                          (* no switchframe has been saved *)

Record pcb := Pcb {
  pcb_kstack : Z;
  pcb_ininterrupt : Z;
  pcb_resume : kont               (* what pcb_switchstack and its switchframe encode *)
}.

Record thread := Thread {
  t_pcb : pcb;
  t_sleepaddr : Z;
  t_stack : Z;
  t_magic : list Z;               (* the four bytes at the bottom of the stack *)
  t_vmspace : Z;
  t_cwd : Z;
  t_process : Z
}.

Inductive threadstate := S_RUN | S_READY | S_SLEEP | S_ZOMB.

Record tsys := TSys {
  curthread : Z;
  sleepers : array Z;
  zombies : array Z;
  numthreads : Z;
  runqueue : queue Z;
  threads : gmap Z thread;        (* the thread structures in memory *)
  vnrefs : gmap Z Z;              (* references taken on vnodes as current directories *)
  curspl : Z;
  in_interrupt : Z;
  curkstack : Z;
  lbolt_counter : Z;
  active_as : Z;                  (* the address space as_activate was last called on *)
  ts_up : bool                    (* sleepers and zombies are not NULL *)
}.

Definition set_curthread x s := TSys x (sleepers s) (zombies s) (numthreads s) (runqueue s)
  (threads s) (vnrefs s) (curspl s) (in_interrupt s) (curkstack s) (lbolt_counter s) (active_as s) (ts_up s).
Definition set_sleepers x s := TSys (curthread s) x (zombies s) (numthreads s) (runqueue s)
  (threads s) (vnrefs s) (curspl s) (in_interrupt s) (curkstack s) (lbolt_counter s) (active_as s) (ts_up s).
Definition set_zombies x s := TSys (curthread s) (sleepers s) x (numthreads s) (runqueue s)
  (threads s) (vnrefs s) (curspl s) (in_interrupt s) (curkstack s) (lbolt_counter s) (active_as s) (ts_up s).
Definition set_numthreads x s := TSys (curthread s) (sleepers s) (zombies s) x (runqueue s)
  (threads s) (vnrefs s) (curspl s) (in_interrupt s) (curkstack s) (lbolt_counter s) (active_as s) (ts_up s).
Definition set_runqueue x s := TSys (curthread s) (sleepers s) (zombies s) (numthreads s) x
  (threads s) (vnrefs s) (curspl s) (in_interrupt s) (curkstack s) (lbolt_counter s) (active_as s) (ts_up s).
Definition set_threads x s := TSys (curthread s) (sleepers s) (zombies s) (numthreads s) (runqueue s)
  x (vnrefs s) (curspl s) (in_interrupt s) (curkstack s) (lbolt_counter s) (active_as s) (ts_up s).
Definition set_vnrefs x s := TSys (curthread s) (sleepers s) (zombies s) (numthreads s) (runqueue s)
  (threads s) x (curspl s) (in_interrupt s) (curkstack s) (lbolt_counter s) (active_as s) (ts_up s).
Definition set_curspl x s := TSys (curthread s) (sleepers s) (zombies s) (numthreads s) (runqueue s)
  (threads s) (vnrefs s) x (in_interrupt s) (curkstack s) (lbolt_counter s) (active_as s) (ts_up s).
Definition set_interrupt x y s := TSys (curthread s) (sleepers s) (zombies s) (numthreads s) (runqueue s)
  (threads s) (vnrefs s) (curspl s) x y (lbolt_counter s) (active_as s) (ts_up s).
Definition set_lbolt_counter x s := TSys (curthread s) (sleepers s) (zombies s) (numthreads s) (runqueue s)
  (threads s) (vnrefs s) (curspl s) (in_interrupt s) (curkstack s) x (active_as s) (ts_up s).
Definition set_active_as x s := TSys (curthread s) (sleepers s) (zombies s) (numthreads s) (runqueue s)
  (threads s) (vnrefs s) (curspl s) (in_interrupt s) (curkstack s) (lbolt_counter s) x (ts_up s).
Definition set_ts_up x s := TSys (curthread s) (sleepers s) (zombies s) (numthreads s) (runqueue s)
  (threads s) (vnrefs s) (curspl s) (in_interrupt s) (curkstack s) (lbolt_counter s) (active_as s) x.

(** ** Interrupt level: spl.c *)

Definition splx (newspl : Z) (s : tsys) : tsys * Z := (set_curspl newspl s, curspl s).
Definition splhigh (s : tsys) : tsys * Z := splx SPL_HIGH s.
Definition spl0 (s : tsys) : tsys * Z := splx 0 s.

(** ** Thread structures *)

(** Dereferencing a thread pointer. *)
Definition get_thread (s : tsys) (t : Z) : outcome thread :=
  match threads s !! t with Some th => Ret th | None => Wild end.

Definition put_thread (t : Z) (th : thread) (s : tsys) : tsys :=
  set_threads (<[t := th]> (threads s)) s.

Definition with_pcb (p : pcb) (th : thread) : thread :=
  Thread p (t_sleepaddr th) (t_stack th) (t_magic th) (t_vmspace th) (t_cwd th) (t_process th).
Definition with_sleepaddr (a : Z) (th : thread) : thread :=
  Thread (t_pcb th) a (t_stack th) (t_magic th) (t_vmspace th) (t_cwd th) (t_process th).
Definition with_vmspace (a : Z) (th : thread) : thread :=
  Thread (t_pcb th) (t_sleepaddr th) (t_stack th) (t_magic th) a (t_cwd th) (t_process th).
Definition with_cwd (a : Z) (th : thread) : thread :=
  Thread (t_pcb th) (t_sleepaddr th) (t_stack th) (t_magic th) (t_vmspace th) a (t_process th).

Definition vop_incref (v : Z) (s : tsys) : tsys :=
  set_vnrefs (<[v := default 0 (vnrefs s !! v) + 1]> (vnrefs s)) s.
Definition vop_decref (v : Z) (s : tsys) : tsys :=
  set_vnrefs (<[v := default 0 (vnrefs s !! v) - 1]> (vnrefs s)) s.

Definition stack_magic : list Z := [174; 17; 218; 51].

(** The assertions on the bottom of the stack. *)
Definition check_stack (th : thread) : outcome () :=
  if bool_decide (t_stack th ≠ NULL) then c_assert (bool_decide (t_magic th = stack_magic))
  else Ret ().

(** [ok_t] and [ok_n]: kmalloc of the structure, kstrdup of the name. *)
Definition thread_create (ok_t ok_n : bool) : option thread :=
  if negb ok_t then None
  else if negb ok_n then None
  else Some (Thread (Pcb 0 0 KNone) NULL NULL [] NULL NULL NULL).

Definition thread_destroy (t : Z) (s : tsys) : outcome tsys :=
  c_assert (bool_decide (t ≠ curthread s));;
  th ← get_thread s t;
  c_assert (bool_decide (t_vmspace th = NULL));;
  c_assert (bool_decide (t_cwd th = NULL));;
  Ret (set_threads (delete t (threads s)) s).

Definition exorcise_one (i : Z) (s : tsys) : outcome tsys :=
  z ← array_getguy (zombies s) i;
  c_assert (bool_decide (z ≠ curthread s));;
  thread_destroy z s.

Definition exorcise (s : tsys) : outcome tsys :=
  c_assert (bool_decide (curspl s > 0));;
  s' ← for_each (Z.to_nat (array_getnum (zombies s))) 0 exorcise_one s;
  '(zs, err) ← array_setsize (λ _, false) (zombies s') 0;
  c_assert (bool_decide (err = 0));;
  Ret (set_zombies zs s').

(** ** pcb.c *)

Definition md_initpcb0 (s : tsys) : pcb := Pcb (curkstack s) 0 KNone.

Definition md_initpcb (stack data1 data2 func : Z) : pcb :=
  Pcb (u32 (stack + STACK_SIZE)) 0 (KStart func data1 data2).

(** md_switch up to the assembly switch, which saves the resumption point [k]
    of the old thread. *)
Definition md_switch (old nu : Z) (k : kont) (s : tsys) : outcome tsys :=
  tho ← get_thread s old;
  if bool_decide (old = nu) then
    Ret (put_thread old (with_pcb (Pcb (pcb_kstack (t_pcb tho)) (pcb_ininterrupt (t_pcb tho)) k) tho) s)
  else
    let s1 := put_thread old (with_pcb (Pcb (curkstack s) (in_interrupt s) k) tho) s in
    thn ← get_thread s1 nu;
    Ret (set_interrupt (pcb_ininterrupt (t_pcb thn)) (pcb_kstack (t_pcb thn)) s1).

(** ** scheduler.c *)

Definition scheduler_bootstrap (ok_q ok_data : bool) : outcome (queue Z) :=
  match q_create ok_q ok_data 32 with Some q => Ret q | None => Panic end.

Definition scheduler_preallocate (km : Z → bool) (nthreads : Z) (s : tsys) : outcome (tsys * Z) :=
  c_assert (bool_decide (curspl s > 0));;
  '(q, err) ← q_preallocate km (runqueue s) nthreads;
  Ret (set_runqueue q s, err).

Definition make_runnable (km : Z → bool) (t : Z) (s : tsys) : outcome (tsys * Z) :=
  c_assert (bool_decide (curspl s > 0));;
  '(q, err) ← q_addtail km (runqueue s) t;
  Ret (set_runqueue q s, err).

(** ** Waking up: thread_wakeup, thread_wakeup_n, thread_hassleepers *)

(** The common part of one iteration: take sleepers[i] off the list and make
    it runnable. *)
Definition wake_at (km : Z → bool) (i t : Z) (s : tsys) : outcome tsys :=
  sl ← array_remove (sleepers s) i;
  '(s', err) ← make_runnable km t (set_sleepers sl s);
  c_assert (bool_decide (err = 0));;
  Ret s'.

(** One iteration; the state is the loop index and the system. *)
Definition wakeup_step (km : Z → bool) (addr : Z) (p : Z * tsys) : outcome (Z * tsys) :=
  let '(i, s) := p in
  t ← array_getguy (sleepers s) i;
  th ← get_thread s t;
  if bool_decide (t_sleepaddr th = addr) then
    s' ← wake_at km i t s;
    Ret ((i - 1) + 1, s')
  else Ret (i + 1, s).

Definition thread_wakeup (km : Z → bool) (addr : Z) (s : tsys) : outcome tsys :=
  c_assert (bool_decide (curspl s > 0));;
  '(_, s') ← while_loop (Z.to_nat (array_getnum (sleepers s)))
               (λ p, bool_decide (p.1 < array_getnum (sleepers p.2)))
               (wakeup_step km addr) (0, s);
  Ret s'.

(** With the test [n == i] that ends the loop; [true] after a break. *)
Definition wakeup_n_step (km : Z → bool) (addr n : Z) (p : Z * tsys * bool)
    : outcome (Z * tsys * bool) :=
  let '(i, s, _) := p in
  t ← array_getguy (sleepers s) i;
  th ← get_thread s t;
  if bool_decide (t_sleepaddr th = addr) then
    s' ← wake_at km i t s;
    if bool_decide (n = i - 1) then Ret (i - 1, s', true) else Ret ((i - 1) + 1, s', false)
  else Ret (i + 1, s, false).

Definition thread_wakeup_n (km : Z → bool) (addr n : Z) (s : tsys) : outcome tsys :=
  let n := n - 1 in
  c_assert (bool_decide (curspl s > 0));;
  '(_, s', _) ← while_loop (Z.to_nat (array_getnum (sleepers s)))
                  (λ p, negb p.2 && bool_decide (p.1.1 < array_getnum (sleepers p.1.2)))
                  (wakeup_n_step km addr n) (0, s, false);
  Ret s'.

Definition hassleepers_step (addr : Z) (s : tsys) (i : Z) (_ : ()) : outcome (() + ()) :=
  t ← array_getguy (sleepers s) i;
  th ← get_thread s t;
  if bool_decide (t_sleepaddr th = addr) then Ret (inr ()) else Ret (inl ()).

Definition thread_hassleepers (addr : Z) (s : tsys) : outcome Z :=
  c_assert (bool_decide (curspl s > 0));;
  r ← for_loop (Z.to_nat (array_getnum (sleepers s))) 0 (hassleepers_step addr s) ();
  match r with inr _ => Ret 1 | inl _ => Ret 0 end.

(** ** The idle loop *)

(** The part of hardclock before its thread_yield. *)
Definition hardclock_tick (km : Z → bool) (s : tsys) : outcome tsys :=
  let c := lbolt_counter s + 1 in
  if bool_decide (HZ ≤ c) then thread_wakeup km lbolt (set_lbolt_counter 0 s)
  else Ret (set_lbolt_counter c s).

(** Interrupts that arrive while the processor idles: the clock, whose
    thread_yield does nothing because curthread is NULL, and devices, which
    wake the threads waiting on an address. *)
Inductive irq := IrqClock | IrqDevice (addr : Z).

Definition cpu_idle (km : Z → bool) (q : irq) (s : tsys) : outcome tsys :=
  c_assert (bool_decide (curspl s > 0));;
  match q with
  | IrqClock => hardclock_tick km s
  | IrqDevice addr => thread_wakeup km addr s
  end.

Fixpoint idle_until_ready (km : Z → bool) (irqs : list irq) (s : tsys) : outcome tsys :=
  if q_empty (runqueue s) then
    match irqs with
    | [] => Spin
    | q :: irqs' => s' ← cpu_idle km q s; idle_until_ready km irqs' s'
    end
  else Ret s.

Definition scheduler (km : Z → bool) (irqs : list irq) (s : tsys) : outcome (tsys * Z) :=
  c_assert (bool_decide (curspl s > 0));;
  s' ← idle_until_ready km irqs s;
  '(q, next) ← q_remhead (runqueue s');
  Ret (set_runqueue q s', next).

(** ** mi_switch *)

Definition activate_current (s : tsys) : outcome tsys :=
  th ← get_thread s (curthread s);
  if bool_decide (t_vmspace th ≠ NULL) then Ret (set_active_as (t_vmspace th) s) else Ret s.

(** mi_threadstart up to the call of the thread's function. *)
Definition mi_threadstart (s : tsys) : outcome tsys :=
  s' ← activate_current s;
  Ret (spl0 s').1.

(** What the callers of mi_switch do when it returns. *)
Definition after_switch (k : kont) (s : tsys) : outcome tsys :=
  match k with
  | KYield spl => Ret (splx spl s).1
  | KSleep =>
      th ← get_thread s (curthread s);
      Ret (put_thread (curthread s) (with_sleepaddr NULL th) s)
  | KExit => Panic
  | KStart _ _ _ | KNone => Wild
  end.

(** What the thread that has just become current goes on to do. *)
Definition resume (s : tsys) : outcome tsys :=
  th ← get_thread s (curthread s);
  match pcb_resume (t_pcb th) with
  | KStart _ _ _ => mi_threadstart s
  | k =>
      s1 ← exorcise s;
      s2 ← activate_current s1;
      after_switch k s2
  end.

(** Put the current thread on the list its next state calls for. *)
Definition stash (km : Z → bool) (nextstate : threadstate) (cur : Z) (s : tsys)
    : outcome (tsys * Z) :=
  match nextstate with
  | S_READY => make_runnable km cur s
  | S_SLEEP => '(a, r) ← array_add km (sleepers s) cur; Ret (set_sleepers a s, r)
  | S_ZOMB => '(a, r) ← array_add km (zombies s) cur; Ret (set_zombies a s, r)
  | S_RUN => Panic
  end.

Definition mi_switch (km : Z → bool) (irqs : list irq) (nextstate : threadstate) (k : kont)
    (s : tsys) : outcome tsys :=
  c_assert (bool_decide (curspl s > 0));;
  if bool_decide (curthread s = NULL) then after_switch k s
  else
    let cur := curthread s in
    th ← get_thread s cur;
    check_stack th;;
    '(s2, err) ← stash km nextstate cur (set_curthread NULL s);
    c_assert (bool_decide (err = 0));;
    '(s3, next) ← scheduler km irqs s2;
    s4 ← md_switch cur next k (set_curthread next s3);
    resume s4.

(** ** The operations of the thread system *)

Definition thread_yield (km : Z → bool) (irqs : list irq) (s : tsys) : outcome tsys :=
  let '(s1, spl) := splhigh s in
  c_assert (ts_up s1);;
  mi_switch km irqs S_READY (KYield spl) s1.

Definition thread_sleep (km : Z → bool) (irqs : list irq) (addr : Z) (s : tsys) : outcome tsys :=
  c_assert (bool_decide (in_interrupt s = 0));;
  th ← get_thread s (curthread s);
  mi_switch km irqs S_SLEEP KSleep (put_thread (curthread s) (with_sleepaddr addr th) s).

Definition thread_exit (km : Z → bool) (irqs : list irq) (s : tsys) : outcome tsys :=
  th ← get_thread s (curthread s);
  check_stack th;;
  let '(s1, _) := splhigh s in
  let s2 := if bool_decide (t_vmspace th ≠ NULL)
            then put_thread (curthread s1) (with_vmspace NULL th) s1 else s1 in
  th2 ← get_thread s2 (curthread s2);
  let s3 := if bool_decide (t_cwd th2 ≠ NULL)
            then put_thread (curthread s2) (with_cwd NULL th2) (vop_decref (t_cwd th2) s2) else s2 in
  c_assert (bool_decide (numthreads s3 > 0));;
  mi_switch km irqs S_ZOMB KExit (set_numthreads (numthreads s3 - 1) s3).

Definition hardclock (km : Z → bool) (irqs : list irq) (s : tsys) : outcome tsys :=
  s' ← hardclock_tick km s;
  thread_yield km irqs s'.

(** thread_fork.  [new] and [stack] are the addresses kmalloc hands back for
    the structure and the stack; [ok_t], [ok_n], [ok_s] say whether the three
    allocations succeed, [km] whether those that extend the lists do. *)
Definition fork_fail (t : Z) (spl : Z) (err : Z) (s : tsys) : outcome (tsys * result Z) :=
  let '(s1, _) := splx spl s in
  th ← get_thread s1 t;
  let s2 := if bool_decide (t_cwd th ≠ NULL) then vop_decref (t_cwd th) s1 else s1 in
  Ret (set_threads (delete t (threads s2)) s2, inl err).

(** The part of thread_fork that runs with interrupts off, up to its splx. *)
Definition fork_enqueue (km : Z → bool) (new spl : Z) (s3 : tsys) : outcome (tsys * result Z) :=
  '(sl, err) ← array_preallocate km (sleepers s3) (numthreads s3 + 1);
  if bool_decide (err ≠ 0) then fork_fail new spl err s3 else
  let s4 := set_sleepers sl s3 in
  '(zs, err) ← array_preallocate km (zombies s4) (numthreads s4 + 1);
  if bool_decide (err ≠ 0) then fork_fail new spl err s4 else
  let s5 := set_zombies zs s4 in
  '(s6, err) ← scheduler_preallocate km (numthreads s5 + 1) s5;
  if bool_decide (err ≠ 0) then fork_fail new spl err s6 else
  '(s7, err) ← make_runnable km new s6;
  if bool_decide (err ≠ 0) then fork_fail new spl err s7 else
  Ret ((splx spl (set_numthreads (numthreads s7 + 1) s7)).1, inr new).

Definition thread_fork (km : Z → bool) (ok_t ok_n ok_s : bool) (new stack : Z)
    (data1 data2 func : Z) (s : tsys) : outcome (tsys * result Z) :=
  match thread_create ok_t ok_n with
  | None => Ret (s, inl ENOMEM)
  | Some th0 =>
      if negb ok_s then Ret (s, inl ENOMEM)
      else
        cth ← get_thread s (curthread s);
        let s1 := if bool_decide (t_cwd cth ≠ NULL) then vop_incref (t_cwd cth) s else s in
        let th := Thread (md_initpcb stack data1 data2 func) (t_sleepaddr th0) stack stack_magic
                    (t_vmspace th0) (t_cwd cth) (t_process th0) in
        let s2 := put_thread new th s1 in
        let '(s3, spl) := splhigh s2 in
        fork_enqueue km new spl s3
  end.

(** thread_bootstrap: [me] is the address of the first thread structure. *)
Definition thread_bootstrap (ok_s ok_z ok_t ok_n : bool) (me kstack : Z) (q : queue Z)
    : outcome tsys :=
  match array_create ok_s, array_create ok_z, thread_create ok_t ok_n with
  | Some sl, Some zs, Some th =>
      let s := TSys NULL sl zs 0 q ∅ ∅ SPL_HIGH 0 kstack 0 NULL true in
      let th' := with_pcb (md_initpcb0 s) th in
      Ret (set_numthreads 1 (set_curthread me (put_thread me th' s)))
  | _, _, _ => Panic
  end.

Definition one_thread_only (s : tsys) : bool := bool_decide (numthreads s = 1).

(** ** Panic and shutdown *)

Definition drop_sleeper (i : Z) (s : tsys) : outcome tsys :=
  t ← array_getguy (sleepers s) i;
  get_thread s t;;                      (* kprintf of t->t_name *)
  Ret s.

Definition thread_killall (s : tsys) : outcome tsys :=
  c_assert (bool_decide (curspl s > 0));;
  s' ← for_each (Z.to_nat (array_getnum (sleepers s))) 0 drop_sleeper s;
  '(sl, r) ← array_setsize (λ _, false) (sleepers s') 0;
  c_assert (bool_decide (r = 0));;
  Ret (set_sleepers sl s').

Definition drop_ready (s : tsys) : outcome tsys :=
  '(q, t) ← q_remhead (runqueue s);
  get_thread s t;;
  Ret (set_runqueue q s).

Definition scheduler_killall (s : tsys) : outcome tsys :=
  c_assert (bool_decide (curspl s > 0));;
  while_loop (Z.to_nat (q_size (runqueue s))) (λ s, negb (q_empty (runqueue s))) drop_ready s.

Definition thread_panic (s : tsys) : outcome tsys :=
  c_assert (bool_decide (curspl s > 0));;
  s' ← thread_killall s;
  scheduler_killall s'.

Definition thread_shutdown (s : tsys) : tsys := set_ts_up false s.

Definition scheduler_shutdown (s : tsys) : outcome tsys :=
  s' ← scheduler_killall s;
  c_assert (bool_decide (curspl s' > 0));;
  q_destroy (runqueue s');;
  Ret s'.
