(* ===== verification/ThreadSpec.v ===== *)
(** * The thread system against an abstract scheduler

    The concrete lists of Thread.v (a ring buffer, two growable arrays and the
    thread structures in memory) are related to an abstract scheduler: a
    current thread, a ready list, a sleeping list and a zombie list.  The
    invariant [tinv] says that these partition the threads in memory and that
    the count, the saved continuations and the stacks agree with the lists;
    the theorems say what each operation does to the abstract lists. *)
From S2P Require Import Prelude.
From S2P Require Import CArray.
From S2P Require Import CQueue.
From S2P Require Import Thread.

(** ** Abstract scheduler *)

(** Threads sleeping on [addr] become ready in the order in which they went to
    sleep; [sa] gives the sleep address of a thread. *)
Definition wake (sa : Z → Z) (addr : Z) (p : list Z * list Z) : list Z * list Z :=
  (p.1 ++ filter (λ t, sa t = addr) p.2, filter (λ t, sa t ≠ addr) p.2).

(** The effect of one interrupt taken while idle, on the ready and sleeping
    lists and the lbolt counter. *)
Definition irq_spec (sa : Z → Z) (q : irq) (p : list Z * list Z) (lb : Z)
    : list Z * list Z * Z :=
  match q with
  | IrqClock => if bool_decide (HZ ≤ lb + 1) then (wake sa lbolt p, 0) else (p, lb + 1)
  | IrqDevice addr => (wake sa addr p, lb)
  end.

(** Idle until a thread is ready; [None] when the interrupts run out first. *)
Fixpoint idle_spec (sa : Z → Z) (irqs : list irq) (p : list Z * list Z) (lb : Z)
    : option (list Z * list Z * Z) :=
  match p.1 with
  | _ :: _ => Some (p, lb)
  | [] =>
      match irqs with
      | [] => None
      | q :: irqs' => let '(p', lb') := irq_spec sa q p lb in idle_spec sa irqs' p' lb'
      end
  end.

(** The sleep address of a thread in memory. *)
Definition saddr (s : tsys) (t : Z) : Z :=
  match threads s !! t with Some th => t_sleepaddr th | None => NULL end.

(** [n] threads fit a run queue of [sz] cells: without asking for memory when
    there are fewer threads than cells, otherwise when kmalloc succeeds. *)
Definition fits (km : Z → bool) (n sz : Z) : Prop :=
  n < 2 ^ 28 ∧ ((∀ x, km x = true) ∨ n < sz).

Lemma get_thread_Some s t th : threads s !! t = Some th → get_thread s t = Ret th.
Proof. intros H. unfold get_thread. by rewrite H. Qed.

(** ** Ready list *)

Lemma make_runnable_ok km t s R : curspl s > 0 → qrepr (runqueue s) R →
  fits km (len R + 1) (q_size (runqueue s)) →
  ∃ q', make_runnable km t s = Ret (set_runqueue q' s, 0) ∧ qrepr q' (R ++ [t]) ∧
    q_size (runqueue s) ≤ q_size q'.
Proof.
  intros Hspl Hq [Hn Hfit]. unfold make_runnable. bdec. cbn [c_assert]. ostep.
  destruct (q_addtail_ok km (runqueue s) R t Hq) as [(q' & -> & ? & ?)|(_ & Hfull & x & Hx)];
    [lia|ostep; eauto|].
  destruct Hfit as [Hkm|]; [by rewrite Hkm in Hx|lia].
Qed.

(** ** Waking up *)

Lemma filter_split_length (sa : Z → Z) addr (L : list Z) :
  len (filter (λ t, sa t = addr) L) + len (filter (λ t, sa t ≠ addr) L) = len L.
Proof.
  induction L as [|t L IH]; [done|]. rewrite !filter_cons.
  repeat case_decide; simpl; tauto || lia.
Qed.

Lemma fits_le km n m sz sz' : fits km n sz → m ≤ n → sz ≤ sz' → fits km m sz'.
Proof. intros [? [?|?]] ??; split; auto with lia. Qed.

(** The state of the thread system with other lists, all that waking up
    changes. *)
Definition relist (a : array Z) (q : queue Z) (s : tsys) : tsys :=
  set_runqueue q (set_sleepers a s).

(** The room in the sleeper list and the run queue never shrinks. *)
Definition grows (s s' : tsys) : Prop :=
  a_max (sleepers s) ≤ a_max (sleepers s') ∧ q_size (runqueue s) ≤ q_size (runqueue s').

#[export] Instance grows_preorder : PreOrder grows.
Proof. split; [split; done|]. intros s1 s2 s3 [] []. split; lia. Qed.

(** What a sleeper list and a run queue reached from those of [s] satisfy. *)
Definition listed (s : tsys) (R L : list Z) (a : array Z) (q : queue Z) : Prop :=
  arepr a L ∧ qrepr q R ∧ a_max a = a_max (sleepers s) ∧ q_size (runqueue s) ≤ q_size q.

Lemma wake_at_ok km t s R K M a q : curspl s > 0 → listed s R (K ++ t :: M) a q →
  fits km (len R + 1) (q_size (runqueue s)) →
  ∃ a' q', wake_at km (len K) t (relist a q s) = Ret (relist a' q' s) ∧
    listed s (R ++ [t]) (K ++ M) a' q'.
Proof.
  intros Hspl (Ha & Hq & Hmax & Hsz) Hfit. unfold wake_at. cbn [sleepers set_runqueue set_sleepers relist].
  destruct (array_remove_ok a _ (len K) Ha) as (a1 & -> & Ha1 & Hmax1).
  { rewrite length_app. simpl. lia. }
  ostep. rewrite Nat2Z.id, delete_middle in Ha1.
  destruct (make_runnable_ok km t (set_sleepers a1 (relist a q s)) R)
    as (q1 & -> & Hq1 & Hsz1); [done|done|by eapply fits_le|].
  ostep. exists a1, q1. split; [done|]. change (q_size q ≤ q_size q1) in Hsz1. split_and!; done || lia.
Qed.

(** Looking at the [i]-th sleeper. *)
Lemma sleeper_ok s t th K M a q R : listed s R (K ++ t :: M) a q → threads s !! t = Some th →
  array_getguy a (len K) = Ret t ∧ get_thread (relist a q s) t = Ret th ∧
  len K < array_getnum a ∧ saddr s t = t_sleepaddr th.
Proof.
  intros (Ha & _) Hth. split_and!.
  - eapply array_getguy_ok; [done|lia|]. rewrite Nat2Z.id. by apply list_lookup_middle.
  - unfold get_thread. simpl. by rewrite Hth.
  - unfold array_getnum. rewrite (ar_num _ _ Ha), length_app. simpl. lia.
  - unfold saddr. by rewrite Hth.
Qed.

Lemma wakeup_loop km addr s N : curspl s > 0 → fits km N (q_size (runqueue s)) →
  ∀ M R K fuel a q, (length M ≤ fuel)%nat → listed s R (K ++ M) a q →
  (∀ t, t ∈ M → is_Some (threads s !! t)) → len R + len M ≤ N →
  ∃ i a' q',
    while_loop fuel (λ p, bool_decide (p.1 < array_getnum (sleepers p.2))) (wakeup_step km addr)
      (len K, relist a q s) = Ret (i, relist a' q' s) ∧
    listed s (R ++ filter (λ t, saddr s t = addr) M)
      (K ++ filter (λ t, saddr s t ≠ addr) M) a' q'.
Proof.
  intros Hspl Hfit. induction M as [|t M IH]; intros R K fuel a q Hfuel Hl Hin Hlen.
  - exists (len K), a, q. change (filter _ []) with (@nil Z). rewrite !app_nil_r in *.
    split; [|done]. destruct Hl as (Ha & _). pose proof (ar_num _ _ Ha).
    destruct fuel; simpl; unfold array_getnum; by bdec.
  - destruct fuel as [|fuel]; [simpl in Hfuel; lia|]. cbn [while_loop].
    destruct (Hin t) as [th Hth]; [by left|].
    destruct (sleeper_ok s t th K M a q R Hl Hth) as (Hg & Hgt & Hlt & Hsa).
    cbn [fst snd]. change (sleepers (relist a q s)) with a. bdec.
    unfold_app (wakeup_step km addr (len K, relist a q s)).
    change (sleepers (relist a q s)) with a. rewrite Hg. ostep. rewrite Hgt. ostep.
    rewrite !filter_cons, Hsa. cbn [length] in *. case_bool_decide as Haddr.
    + rewrite decide_True, (decide_False (P := _ ≠ _)) by tauto.
      destruct (wake_at_ok km t s R K M a q) as (a1 & q1 & -> & Hl1); [done..| |].
      { eapply fits_le; [done|lia|lia]. }
      ostep. replace (len K - 1 + 1) with (len K) by lia. rewrite cons_middle, (assoc_L (++)).
      apply IH; [lia|done|naive_solver set_solver|]. rewrite length_app. simpl. lia.
    + rewrite decide_False, (decide_True (P := _ ≠ _)) by done. ostep.
      replace (len K + 1) with (len (K ++ [t])) by (rewrite length_app; simpl; lia).
      rewrite (cons_middle t K (filter _ _)), (assoc_L (++) K [t] (filter _ _)).
      apply IH; [lia|by rewrite <- (assoc_L (++))|set_solver|lia].
Qed.

Lemma thread_wakeup_ok km addr s R L : curspl s > 0 →
  qrepr (runqueue s) R → arepr (sleepers s) L → (∀ t, t ∈ L → is_Some (threads s !! t)) →
  fits km (len R + len L) (q_size (runqueue s)) →
  ∃ a' q', thread_wakeup km addr s = Ret (relist a' q' s) ∧
    listed s (wake (saddr s) addr (R, L)).1 (wake (saddr s) addr (R, L)).2 a' q'.
Proof.
  intros Hspl Hq Ha Hin Hfit. unfold thread_wakeup. bdec. cbn [c_assert]. ostep.
  destruct (wakeup_loop km addr s (len R + len L) Hspl Hfit L R []
    (Z.to_nat (array_getnum (sleepers s))) (sleepers s) (runqueue s)) as (i & a' & q' & Hrun & Hl).
  - unfold array_getnum. rewrite (ar_num _ _ Ha). lia.
  - split_and!; done || lia.
  - done.
  - lia.
  - exists a', q'. split; [|done].
    replace (relist (sleepers s) (runqueue s) s) with s in Hrun by by destruct s.
    change (len []) with 0 in Hrun. rewrite Hrun. by ostep.
Qed.

(** ** Waking a bounded number of threads *)

(** What thread_wakeup_n does to the sleeping list: [k] counts the threads
    already passed over that sleep elsewhere.  Returns the threads woken and
    the threads left. *)
Fixpoint wake_n (sa : Z → Z) (addr n k : Z) (L : list Z) : list Z * list Z :=
  match L with
  | [] => ([], [])
  | t :: M =>
      if bool_decide (sa t = addr) then
        if bool_decide (n = k) then ([t], M)
        else let '(w, r) := wake_n sa addr n k M in (t :: w, r)
      else let '(w, r) := wake_n sa addr n (k + 1) M in (w, t :: r)
  end.

Lemma wake_n_perm sa addr n L : ∀ k, (wake_n sa addr n k L).1 ++ (wake_n sa addr n k L).2 ≡ₚ L.
Proof.
  induction L as [|t L IH]; intros k; [done|]. simpl. repeat case_bool_decide; [done|..].
  - specialize (IH k). destruct (wake_n sa addr n k L). simpl in *. by rewrite IH.
  - specialize (IH (k + 1)). destruct (wake_n sa addr n (k + 1) L). simpl in *.
    by rewrite <- Permutation_middle, IH.
Qed.

(** The threads woken are the first of those sleeping on the address. *)
Lemma wake_n_prefix sa addr n L : ∀ k,
  (wake_n sa addr n k L).1 `prefix_of` filter (λ t, sa t = addr) L.
Proof.
  induction L as [|t L IH]; intros k; [done|]. rewrite filter_cons. simpl.
  repeat case_bool_decide; case_decide; try done.
  - apply prefix_cons, prefix_nil.
  - specialize (IH k). destruct (wake_n sa addr n k L). by apply prefix_cons.
  - specialize (IH (k + 1)). by destruct (wake_n sa addr n (k + 1) L).
Qed.

Lemma wake_n_some sa addr n L : ∀ k t, t ∈ L → sa t = addr → (wake_n sa addr n k L).1 ≠ [].
Proof.
  induction L as [|u L IH]; intros k t Ht Hsa; [by apply not_elem_of_nil in Ht|]. simpl.
  repeat case_bool_decide; [done|by destruct (wake_n sa addr n k L)|].
  assert (Ht' : t ∈ L) by set_solver. specialize (IH (k + 1) t Ht' Hsa).
  by destruct (wake_n sa addr n (k + 1) L).
Qed.

Lemma wake_n_all sa addr n L : ∀ k, k < n → (∀ t, t ∈ L → sa t = addr) → wake_n sa addr n k L = (L, []).
Proof.
  induction L as [|u L IH]; intros k Hk Hall; [done|]. simpl.
  rewrite bool_decide_eq_true_2 by (apply Hall; set_solver).
  rewrite bool_decide_eq_false_2 by lia. rewrite IH; [done|lia|set_solver].
Qed.

Lemma wakeup_n_loop km addr n s N : curspl s > 0 → fits km N (q_size (runqueue s)) →
  ∀ M R K fuel a q, (length M ≤ fuel)%nat → listed s R (K ++ M) a q →
  (∀ t, t ∈ M → is_Some (threads s !! t)) → len R + len M ≤ N →
  ∃ i a' q' b,
    while_loop fuel (λ p, negb p.2 && bool_decide (p.1.1 < array_getnum (sleepers p.1.2)))
      (wakeup_n_step km addr (n - 1)) (len K, relist a q s, false) = Ret (i, relist a' q' s, b) ∧
    listed s (R ++ (wake_n (saddr s) addr n (len K) M).1)
      (K ++ (wake_n (saddr s) addr n (len K) M).2) a' q'.
Proof.
  intros Hspl Hfit. induction M as [|t M IH]; intros R K fuel a q Hfuel Hl Hin Hlen.
  - exists (len K), a, q, false. simpl. rewrite !app_nil_r in *.
    split; [|done]. destruct Hl as (Ha & _). pose proof (ar_num _ _ Ha).
    destruct fuel; simpl; unfold array_getnum; by bdec.
  - destruct fuel as [|fuel]; [simpl in Hfuel; lia|]. cbn [while_loop].
    destruct (Hin t) as [th Hth]; [by left|].
    destruct (sleeper_ok s t th K M a q R Hl Hth) as (Hg & Hgt & Hlt & Hsa).
    cbn [fst snd negb andb]. change (sleepers (relist a q s)) with a.
    rewrite (bool_decide_eq_true_2 (_ < _)) by lia.
    unfold_app (wakeup_n_step km addr (n - 1) (len K, relist a q s, false)).
    change (sleepers (relist a q s)) with a. rewrite Hg. ostep. rewrite Hgt. ostep.
    cbn [wake_n]. rewrite Hsa. cbn [length] in *. case_bool_decide as Haddr.
    + destruct (wake_at_ok km t s R K M a q) as (a1 & q1 & -> & Hl1); [done..| |].
      { eapply fits_le; [done|lia|lia]. }
      ostep. case_bool_decide as Hn.
      * rewrite (bool_decide_eq_true_2 (n = len K)) by lia. ostep.
        exists (len K - 1), a1, q1, true. split; [by destruct fuel|done].
      * rewrite (bool_decide_eq_false_2 (n = len K)) by lia. ostep.
        replace (len K - 1 + 1) with (len K) by lia.
        destruct (IH (R ++ [t]) K fuel a1 q1) as (i & a' & q' & b & -> & Hl');
          [lia|done|set_solver|rewrite length_app; simpl; lia|].
        exists i, a', q', b. split; [done|].
        destruct (wake_n _ _ _ _ M). simpl in *. by rewrite <- (assoc_L (++)) in Hl'.
    + ostep. replace (len K + 1) with (len (K ++ [t])) by (rewrite length_app; simpl; lia).
      destruct (IH R (K ++ [t]) fuel a q) as (i & a' & q' & b & -> & Hl');
        [lia|by rewrite <- (assoc_L (++))|set_solver|lia|].
      exists i, a', q', b. split; [done|].
      destruct (wake_n _ _ _ _ M). simpl in *. by rewrite <- (assoc_L (++)) in Hl'.
Qed.

Lemma thread_wakeup_n_ok km addr n s R L : curspl s > 0 →
  qrepr (runqueue s) R → arepr (sleepers s) L → (∀ t, t ∈ L → is_Some (threads s !! t)) →
  fits km (len R + len L) (q_size (runqueue s)) →
  ∃ a' q', thread_wakeup_n km addr n s = Ret (relist a' q' s) ∧
    listed s (R ++ (wake_n (saddr s) addr n 0 L).1) (wake_n (saddr s) addr n 0 L).2 a' q'.
Proof.
  intros Hspl Hq Ha Hin Hfit. unfold thread_wakeup_n. bdec. cbn [c_assert]. ostep.
  destruct (wakeup_n_loop km addr n s (len R + len L) Hspl Hfit L R []
    (Z.to_nat (array_getnum (sleepers s))) (sleepers s) (runqueue s)) as (i & a' & q' & b & Hrun & Hl).
  - unfold array_getnum. rewrite (ar_num _ _ Ha). lia.
  - split_and!; done || lia.
  - done.
  - lia.
  - exists a', q'. split; [|done].
    replace (relist (sleepers s) (runqueue s) s) with s in Hrun by by destruct s.
    change (len []) with 0 in Hrun. rewrite Hrun. by ostep.
Qed.

(** ** Idling *)

Lemma wake_perm sa addr R L : (wake sa addr (R, L)).1 ++ (wake sa addr (R, L)).2 ≡ₚ R ++ L.
Proof.
  simpl. rewrite <- (assoc_L (++)). f_equiv. induction L as [|t L IH]; [done|].
  rewrite !filter_cons. repeat case_decide; try tauto.
  - simpl. by f_equiv.
  - by rewrite <- Permutation_middle, IH.
Qed.

Lemma wake_length sa addr R L :
  len (wake sa addr (R, L)).1 + len (wake sa addr (R, L)).2 = len R + len L.
Proof. pose proof (Permutation_length (wake_perm sa addr R L)) as H. rewrite !length_app in H. lia. Qed.

Lemma listed_trans s R L R' L' a q a' q' :
  listed s R L a q → listed (relist a q s) R' L' a' q' → listed s R' L' a' q'.
Proof.
  intros (_ & _ & ? & ?) (? & ? & Hm & Hs).
  change (a_max a' = a_max a) in Hm. change (q_size q ≤ q_size q') in Hs.
  split_and!; done || lia.
Qed.

Lemma cpu_idle_ok km q s R L : curspl s > 0 →
  qrepr (runqueue s) R → arepr (sleepers s) L → (∀ t, t ∈ L → is_Some (threads s !! t)) →
  fits km (len R + len L) (q_size (runqueue s)) →
  let '(R', L', lb') := irq_spec (saddr s) q (R, L) (lbolt_counter s) in
  R' ++ L' ≡ₚ R ++ L ∧
  ∃ a' q', cpu_idle km q s = Ret (set_lbolt_counter lb' (relist a' q' s)) ∧ listed s R' L' a' q'.
Proof.
  intros Hspl Hq Ha Hin Hfit. unfold cpu_idle. bdec. cbn [c_assert]. ostep.
  assert (Hs : relist (sleepers s) (runqueue s) s = s) by by destruct s.
  destruct q as [|addr]; cbn [irq_spec]; unfold hardclock_tick.
  - case_bool_decide.
    + destruct (thread_wakeup_ok km lbolt (set_lbolt_counter 0 s) R L) as (a' & q' & -> & Hl); [done..|].
      cbn [wake fst snd]. split; [apply (wake_perm (saddr s))|]. exists a', q'. done.
    + split; [done|]. exists (sleepers s), (runqueue s). rewrite Hs. split; [done|].
      split_and!; done || lia.
  - destruct (thread_wakeup_ok km addr s R L) as (a' & q' & -> & Hl); [done..|].
    cbn [wake fst snd]. split; [apply (wake_perm (saddr s))|]. exists a', q'. split; [|done].
    by destruct s.
Qed.

Lemma idle_ok km irqs : ∀ s R L, curspl s > 0 →
  qrepr (runqueue s) R → arepr (sleepers s) L → (∀ t, t ∈ L → is_Some (threads s !! t)) →
  fits km (len R + len L) (q_size (runqueue s)) →
  match idle_spec (saddr s) irqs (R, L) (lbolt_counter s) with
  | Some (R', L', lb') => R' ++ L' ≡ₚ R ++ L ∧ R' ≠ [] ∧
      ∃ a' q', idle_until_ready km irqs s = Ret (set_lbolt_counter lb' (relist a' q' s)) ∧
        listed s R' L' a' q'
  | None => idle_until_ready km irqs s = Spin
  end.
Proof.
  induction irqs as [|q irqs IH]; intros s R L Hspl Hq Ha Hin Hfit;
    cbn [idle_until_ready idle_spec fst]; rewrite (q_empty_ok _ _ Hq); destruct R as [|t R];
    rewrite ?(bool_decide_eq_true_2 ([] = [])), ?(bool_decide_eq_false_2 (t :: R = [])) by done;
    try (split_and!; [done..|]; exists (sleepers s), (runqueue s); split; [by destruct s|];
         split_and!; done || lia); [done|].
  pose proof (cpu_idle_ok km q s [] L Hspl Hq Ha Hin Hfit) as Hi.
  destruct (irq_spec _ _ _ _) as [[R1 L1] lb1]. destruct Hi as (Hp & a1 & q1 & -> & Hl1). ostep.
  pose proof (Permutation_length Hp) as Hlen. rewrite !length_app in Hlen. simpl in Hlen.
  destruct Hl1 as (Ha1 & Hq1 & Hm1 & Hs1).
  specialize (IH (set_lbolt_counter lb1 (relist a1 q1 s)) R1 L1 Hspl Hq1 Ha1).
  change (saddr (set_lbolt_counter lb1 (relist a1 q1 s))) with (saddr s) in IH. simpl in IH.
  specialize (IH ltac:(intros t Ht; apply Hin; rewrite <- (app_nil_l L), <- Hp; set_solver)
    ltac:(eapply fits_le; [done|simpl; lia|done])).
  destruct (idle_spec _ _ _ _) as [[[R2 L2] lb2]|]; [|done].
  destruct IH as (Hp2 & Hne & a2 & q2 & -> & Hl2). split_and!; [by rewrite Hp2|done|].
  exists a2, q2. split; [done|]. by eapply (listed_trans s R1 L1).
Qed.

(** ** The invariant *)

Definition oconst (C : option Z) : list Z := match C with Some c => [c] | None => [] end.

(** The current thread [C] (none inside the scheduler) and the three lists
    partition the thread structures in memory; the concrete lists represent
    them; zombies hold no resources; no stack has overflowed. *)
Record linked (s : tsys) (C : option Z) (R L Zs : list Z) : Prop := {
  li_q : qrepr (runqueue s) R;
  li_s : arepr (sleepers s) L;
  li_z : arepr (zombies s) Zs;
  li_cur : curthread s = default NULL C;
  li_nodup : NoDup (oconst C ++ R ++ L ++ Zs);
  li_dom : ∀ t, is_Some (threads s !! t) ↔ t ∈ oconst C ++ R ++ L ++ Zs;
  li_null : threads s !! NULL = None;
  li_stack : ∀ t th, threads s !! t = Some th → check_stack th = Ret ();
  li_zomb : ∀ t th, t ∈ Zs → threads s !! t = Some th → t_vmspace th = NULL ∧ t_cwd th = NULL;
  li_up : ts_up s = true
}.

(** A ready thread can be continued: it was forked, or it left the processor
    in thread_yield or thread_sleep. *)
Definition resumable (k : kont) : Prop :=
  match k with KStart _ _ _ | KYield _ | KSleep => True | KExit | KNone => False end.

Definition konts (s : tsys) (R L : list Z) : Prop :=
  (∀ t th, t ∈ R → threads s !! t = Some th → resumable (pcb_resume (t_pcb th))) ∧
  (∀ t th, t ∈ L → threads s !! t = Some th → pcb_resume (t_pcb th) = KSleep).

(** The invariant of the thread system while thread [c] runs. *)
Record tinv (s : tsys) (c : Z) (R L Zs : list Z) : Prop := {
  ti_linked : linked s (Some c) R L Zs;
  ti_konts : konts s R L;
  ti_num : numthreads s = 1 + len R + len L
}.

(** [n] elements fit an array with [mx] cells. *)
Definition afits (km : Z → bool) (n mx : Z) : Prop :=
  n ≤ 2 ^ 29 ∧ ((∀ x, km x = true) ∨ n ≤ mx).

Lemma array_add_fits {A} km (a : array A) l x : arepr a l → afits km (len l + 1) (a_max a) →
  ∃ a', array_add km a x = Ret (a', 0) ∧ arepr a' (l ++ [x]) ∧ a_max a ≤ a_max a'.
Proof.
  intros Ha [Hn Hfit]. destruct (array_add_ok km a l x Ha) as [?|(_ & Hm & y & Hy)]; [lia|done|].
  destruct Hfit as [Hkm|]; [by rewrite Hkm in Hy|lia].
Qed.

(** Membership facts of the partition. *)
Lemma linked_get s C R L Zs t : linked s C R L Zs → t ∈ oconst C ++ R ++ L ++ Zs →
  ∃ th, threads s !! t = Some th ∧ get_thread s t = Ret th ∧ check_stack th = Ret () ∧ t ≠ NULL.
Proof.
  intros Hl Ht. apply (li_dom _ _ _ _ _ Hl) in Ht as [th Hth]. exists th.
  split; [done|]. unfold get_thread. rewrite Hth. split; [done|].
  split; [by eapply li_stack|]. intros ->. by rewrite (li_null _ _ _ _ _ Hl) in Hth.
Qed.

(** The partition survives a permutation of its members. *)
Lemma linked_perm s s' C C' R L Zs R' L' Zs' : linked s C R L Zs →
  oconst C' ++ R' ++ L' ++ Zs' ≡ₚ oconst C ++ R ++ L ++ Zs →
  threads s' = threads s → ts_up s' = ts_up s → curthread s' = default NULL C' →
  qrepr (runqueue s') R' → arepr (sleepers s') L' → arepr (zombies s') Zs' →
  (∀ t th, t ∈ Zs' → threads s !! t = Some th → t_vmspace th = NULL ∧ t_cwd th = NULL) →
  linked s' C' R' L' Zs'.
Proof.
  intros [] Hp Hth Hup Hcur Hq Ha Hz Hzomb. split; rewrite ?Hth, ?Hup; try done.
  - by rewrite Hp.
  - intros t. by rewrite Hp.
Qed.

(** ** Leaving the processor *)

(** Where the thread that leaves goes. *)
Definition stashed (ns : threadstate) (c : Z) (R L Zs : list Z) : list Z * list Z * list Z :=
  match ns with
  | S_SLEEP => (R, L ++ [c], Zs)
  | S_ZOMB => (R, L, Zs ++ [c])
  | S_READY | S_RUN => (R ++ [c], L, Zs)
  end.

(** Memory is not needed, or there is some. *)
Definition mem_ok (km : Z → bool) (ns : threadstate) (s : tsys) (R L Zs : list Z) : Prop :=
  fits km (len R + len L + 1) (q_size (runqueue s)) ∧
  match ns with
  | S_SLEEP => afits km (len L + 1) (a_max (sleepers s))
  | S_ZOMB => afits km (len Zs + 1) (a_max (zombies s))
  | S_READY | S_RUN => True
  end.

Lemma stash_ok km ns c s R L Zs : ns ≠ S_RUN → curspl s > 0 → linked s (Some c) R L Zs →
  (∀ th, ns = S_ZOMB → threads s !! c = Some th → t_vmspace th = NULL ∧ t_cwd th = NULL) →
  mem_ok km ns s R L Zs →
  let '(R2, L2, Zs2) := stashed ns c R L Zs in
  ∃ z a q, stash km ns c (set_curthread NULL s)
           = Ret (set_zombies z (relist a q (set_curthread NULL s)), 0) ∧
    linked (set_zombies z (relist a q (set_curthread NULL s))) None R2 L2 Zs2 ∧
    grows s (set_zombies z (relist a q (set_curthread NULL s))).
Proof.
  intros Hrun Hspl Hl Hz [Hf Hm]. pose proof Hl as [Hq Ha Hzs _ _ _ _ _ Hzomb _].
  destruct ns; [done|..]; cbn [stashed stash].
  - destruct (make_runnable_ok km c (set_curthread NULL s) R) as (q' & -> & Hq' & Hs); [done|done| |].
    { eapply fits_le; [done|lia|done]. }
    exists (zombies s), (sleepers s), q'. split; [by destruct s|]. split; [|by split; simpl].
    eapply linked_perm; [exact Hl|..]; try done. simpl. solve_Permutation.
  - destruct (array_add_fits km (sleepers s) L c Ha Hm) as (a' & Hadd & ? & ?). simpl. rewrite Hadd. ostep.
    exists (zombies s), a', (runqueue s). split; [by destruct s|]. split; [|by split; simpl].
    eapply linked_perm; [exact Hl|..]; try done. simpl. solve_Permutation.
  - destruct (array_add_fits km (zombies s) Zs c Hzs Hm) as (z' & Hadd & ? & _). simpl. rewrite Hadd. ostep.
    exists z', (sleepers s), (runqueue s). split; [by destruct s|]. split; [|by split; simpl].
    eapply linked_perm; [exact Hl|..]; try done.
    + simpl. solve_Permutation.
    + intros t th [Ht| ->%list_elem_of_singleton]%elem_of_app Hth; [by eapply Hzomb|by apply Hz].
Qed.

(** ** Taking the processor *)

Lemma scheduler_ok km irqs s R L Zs : curspl s > 0 → linked s None R L Zs →
  fits km (len R + len L) (q_size (runqueue s)) →
  match idle_spec (saddr s) irqs (R, L) (lbolt_counter s) with
  | Some (R', L', lb') => R' ++ L' ≡ₚ R ++ L ∧
      ∃ n R'' a q, R' = n :: R'' ∧
        scheduler km irqs s = Ret (set_lbolt_counter lb' (relist a q s), n) ∧
        linked (set_curthread n (set_lbolt_counter lb' (relist a q s))) (Some n) R'' L' Zs ∧
        grows s (relist a q s)
  | None => scheduler km irqs s = Spin
  end.
Proof.
  intros Hspl Hl Hfit. pose proof (li_q _ _ _ _ _ Hl) as Hq. pose proof (li_s _ _ _ _ _ Hl) as Ha.
  assert (Hin : ∀ t, t ∈ L → is_Some (threads s !! t)) by (intros; apply (li_dom _ _ _ _ _ Hl); set_solver).
  pose proof (idle_ok km irqs s R L Hspl Hq Ha Hin Hfit) as Hi.
  unfold scheduler. bdec. cbn [c_assert]. ostep.
  destruct (idle_spec _ _ _ _) as [[[R' L'] lb']|]; [|by rewrite Hi].
  destruct Hi as (Hp & Hne & a & q & -> & Ha' & Hq' & Hma & Hsz). split; [done|].
  destruct R' as [|n R'']; [done|]. ostep.
  destruct (q_remhead_ok _ _ _ Hq') as (q2 & Hrem & Hq2 & Hsz2).
  change (runqueue (set_lbolt_counter lb' (relist a q s))) with q. rewrite Hrem. ostep.
  exists n, R'', a, q2. split_and!; [done..| |split; simpl; lia].
  eapply linked_perm; [exact Hl|..]; try done.
  - simpl. rewrite !(assoc_L (++)). simpl in Hp. by rewrite <- Hp, <- app_comm_cons.
  - apply Hl.
  - apply (li_zomb _ _ _ _ _ Hl).
Qed.

(** Changing one thread structure in place. *)
Lemma linked_put s C R L Zs t th th' : linked s C R L Zs → threads s !! t = Some th →
  check_stack th' = Ret () → (t ∈ Zs → t_vmspace th' = NULL ∧ t_cwd th' = NULL) →
  linked (put_thread t th' s) C R L Zs.
Proof.
  intros [] Hth Hst Hz. split; simpl; try done.
  - intros t'. rewrite lookup_insert_is_Some'. rewrite <- li_dom0. naive_solver.
  - rewrite lookup_insert_ne; [done|]. intros ->. by rewrite li_null0 in Hth.
  - intros t' x [[<- <-]|[_ Hx]]%lookup_insert_Some; [done|by eapply li_stack0].
  - intros t' x Ht' [[<- <-]|[_ Hx]]%lookup_insert_Some; [by apply Hz|by eapply li_zomb0].
Qed.

Lemma md_switch_ok c n k s R L Zs th : linked s (Some n) R L Zs → threads s !! c = Some th →
  ∃ p x y, md_switch c n k s = Ret (set_interrupt x y (put_thread c (with_pcb p th) s)) ∧
    pcb_resume p = k ∧ linked (set_interrupt x y (put_thread c (with_pcb p th) s)) (Some n) R L Zs.
Proof.
  intros Hl Hth. unfold md_switch. rewrite (get_thread_Some _ _ _ Hth). ostep.
  assert (Hput : ∀ p x y, linked (set_interrupt x y (put_thread c (with_pcb p th) s)) (Some n) R L Zs).
  { intros p x y. assert (Hl' : linked (put_thread c (with_pcb p th) s) (Some n) R L Zs).
    - eapply linked_put; [done..| |].
      + change (check_stack th = Ret ()). by apply (li_stack _ _ _ _ _ Hl c).
      + intros Hc. change (t_vmspace th = NULL ∧ t_cwd th = NULL). by apply (li_zomb _ _ _ _ _ Hl c).
    - by destruct Hl'. }
  case_bool_decide.
  - exists (Pcb (pcb_kstack (t_pcb th)) (pcb_ininterrupt (t_pcb th)) k), (in_interrupt s), (curkstack s).
    split_and!; [by destruct s|done|apply Hput].
  - set (p := Pcb (curkstack s) (in_interrupt s) k). cbv zeta.
    specialize (Hput p (in_interrupt s) (curkstack s)) as Hl1.
    destruct (linked_get _ _ _ _ _ n Hl1) as (thn & Hn & _); [set_solver|].
    change (threads (put_thread c (with_pcb p th) s) !! n = Some thn) in Hn.
    rewrite (get_thread_Some _ _ _ Hn). ostep. eexists p, _, _. split_and!; [done..|apply Hput].
Qed.

(** ** Zombies *)

Lemma thread_destroy_ok t th s : t ≠ curthread s → threads s !! t = Some th →
  t_vmspace th = NULL → t_cwd th = NULL →
  thread_destroy t s = Ret (set_threads (delete t (threads s)) s).
Proof.
  intros Hne Hth Hv Hc. unfold thread_destroy.
  rewrite bool_decide_eq_true_2 by done. cbn [c_assert]. ostep.
  rewrite (get_thread_Some _ _ _ Hth). ostep.
  by rewrite Hv, Hc.
Qed.

(** The structures left when those of [X] have been freed one after the other. *)
Definition without (X : list Z) (m : gmap Z thread) : gmap Z thread := foldl (λ m t, delete t m) m X.

Lemma lookup_without X m t : without X m !! t = if decide (t ∈ X) then None else m !! t.
Proof.
  unfold without. revert m. induction X as [|x X IH]; intros m; cbn [foldl]; [by rewrite decide_False by set_solver|].
  rewrite IH. destruct (decide (t = x)) as [->|].
  - rewrite lookup_delete_eq, (decide_True (P := x ∈ x :: X)) by set_solver. by case_decide.
  - rewrite lookup_delete_ne by done. repeat case_decide; set_solver.
Qed.

Lemma without_snoc X t m : without (X ++ [t]) m = delete t (without X m).
Proof. unfold without. by rewrite foldl_app. Qed.

Lemma zombie_not_current s C R L Zs t : linked s C R L Zs → t ∈ Zs → t ≠ curthread s.
Proof.
  intros Hl Ht ->. destruct (linked_get s C R L Zs (curthread s) Hl) as (_ & _ & _ & _ & Hn); [set_solver|].
  pose proof (li_cur _ _ _ _ _ Hl) as Hcur. pose proof (li_nodup _ _ _ _ _ Hl) as Hnd.
  destruct C as [c|]; simpl in *; [|done].
  apply NoDup_cons in Hnd as [Hnd _]. set_solver.
Qed.

Lemma exorcise_one_ok s C R L Zs i t : linked s C R L Zs → Zs !! i = Some t →
  exorcise_one (Z.of_nat i) (set_threads (without (take i Zs) (threads s)) s)
  = Ret (set_threads (without (take (S i) Zs) (threads s)) s).
Proof.
  intros Hl Ht. pose proof (list_elem_of_lookup_2 _ _ _ Ht) as Hin. unfold exorcise_one.
  erewrite array_getguy_ok; [|apply (li_z _ _ _ _ _ Hl)|lia|by rewrite Nat2Z.id]. ostep.
  pose proof (zombie_not_current _ _ _ _ _ t Hl Hin).
  rewrite bool_decide_eq_true_2 by done. cbn [c_assert]. ostep.
  destruct (linked_get s C R L Zs t Hl) as (th & Hth & _); [set_solver|].
  destruct (li_zomb _ _ _ _ _ Hl t th) as [Hv Hc]; [done..|].
  rewrite (thread_destroy_ok t th); [|done| |done|done].
  - erewrite take_S_r by done. by rewrite without_snoc.
  - simpl. rewrite lookup_without, decide_False; [done|].
    pose proof (li_nodup _ _ _ _ _ Hl) as Hnd. rewrite <- (take_drop_middle _ _ _ Ht) in Hnd.
    rewrite !NoDup_app in Hnd. set_solver.
Qed.

(** exorcise frees exactly the zombies, and never fails. *)
Lemma exorcise_ok s C R L Zs : curspl s > 0 → linked s C R L Zs →
  ∃ z, exorcise s = Ret (set_zombies z (set_threads (without Zs (threads s)) s)) ∧
    linked (set_zombies z (set_threads (without Zs (threads s)) s)) C R L [].
Proof.
  intros Hspl Hl. pose proof (li_z _ _ _ _ _ Hl) as Hz. pose proof (ar_num _ _ Hz) as Hnum.
  unfold exorcise. bdec. cbn [c_assert]. ostep.
  destruct (for_each_inv (λ i s', s' = set_threads (without (take (Z.to_nat i) Zs) (threads s)) s)
    exorcise_one (Z.to_nat (array_getnum (zombies s))) 0 s) as (s' & -> & ->).
  - by destruct s.
  - intros j s' Hj ->. unfold array_getnum in Hj.
    destruct (lookup_lt_is_Some_2 Zs (Z.to_nat j)) as [t Ht]; [lia|].
    eexists. split; [|done]. pose proof (exorcise_one_ok s C R L Zs _ t Hl Ht) as H.
    rewrite Z2Nat.id in H by lia. rewrite H. do 4 f_equal. lia.
  - ostep. unfold array_getnum. rewrite Hnum, Z.add_0_l, !Nat2Z.id, firstn_all.
    destruct (array_setsize_0 (λ _, false) (zombies s) Zs Hz) as (z & Hset & Hz' & _).
    cbn [zombies set_threads]. rewrite Hset. ostep.
    rewrite bool_decide_eq_true_2 by done. cbn [c_assert]. ostep. exists z. split; [done|].
    pose proof (zombie_not_current s C R L Zs) as Hnc.
    destruct Hl as [Hq Ha _ Hcur Hnd Hdom Hnull Hst Hzomb Hup].
    split; simpl; try done; rewrite ?app_nil_r.
    + rewrite !(assoc_L (++)) in Hnd. rewrite (assoc_L (++)). by apply NoDup_app in Hnd as [? _].
    + intros t. rewrite lookup_without. rewrite !NoDup_app in Hnd.
      case_decide; [|rewrite Hdom; set_solver]. split; [by intros []|]. set_solver.
    + rewrite lookup_without. by case_decide.
    + intros t th. rewrite lookup_without. case_decide; [done|apply Hst].
    + set_solver.
Qed.

(** ** Resuming a thread *)

Definition resumed_spl (k : kont) (spl : Z) : Z :=
  match k with KStart _ _ _ => 0 | KYield spl' => spl' | _ => spl end.

(** A thread that starts does not pass through exorcise. *)
Definition resumed_zombies (k : kont) (Zs : list Z) : list Z :=
  match k with KStart _ _ _ => Zs | _ => [] end.

Definition resumed_as (th : thread) (a : Z) : Z :=
  if bool_decide (t_vmspace th ≠ NULL) then t_vmspace th else a.

Lemma activate_current_ok s th : threads s !! curthread s = Some th →
  activate_current s = Ret (set_active_as (resumed_as th (active_as s)) s).
Proof.
  intros Hth. unfold activate_current, resumed_as. rewrite (get_thread_Some _ _ _ Hth). ostep.
  case_bool_decide; [done|by destruct s].
Qed.

(** [s'] is [s] after thread [n], whose structure is [th], has resumed. *)
Definition resumed (s s' : tsys) (n : Z) (th : thread) (R L Zs : list Z) : Prop :=
  let k := pcb_resume (t_pcb th) in
  tinv s' n R L (resumed_zombies k Zs) ∧ curspl s' = resumed_spl k (curspl s) ∧
  lbolt_counter s' = lbolt_counter s ∧ active_as s' = resumed_as th (active_as s) ∧
  grows s s' ∧ (∀ t, t ∈ R ++ L → threads s' !! t = threads s !! t) ∧
  threads s' !! n = Some (match k with KSleep => with_sleepaddr NULL th | _ => th end).

Lemma resume_ok s n th R L Zs : linked s (Some n) R L Zs → konts s R L → curspl s > 0 →
  numthreads s = 1 + len R + len L → threads s !! n = Some th →
  resumable (pcb_resume (t_pcb th)) →
  ∃ s', resume s = Ret s' ∧ resumed s s' n th R L Zs.
Proof.
  intros Hl Hk Hspl Hnum Hth Hres. pose proof (li_cur _ _ _ _ _ Hl) as Hcur. simpl in Hcur.
  unfold resume. rewrite Hcur, (get_thread_Some _ _ _ Hth). ostep.
  destruct (exorcise_ok s (Some n) R L Zs Hspl Hl) as (z & Hex & Hl1).
  set (s1 := set_zombies z (set_threads (without Zs (threads s)) s)) in *.
  pose proof (li_nodup _ _ _ _ _ Hl) as Hnd. simpl in Hnd. rewrite NoDup_cons, !NoDup_app in Hnd.
  assert (Hsame : ∀ t, t ∈ n :: R ++ L → threads s1 !! t = threads s !! t).
  { intros t Ht. simpl. rewrite lookup_without, decide_False; [done|set_solver]. }
  assert (Hth1 : threads s1 !! n = Some th) by (rewrite Hsame; set_solver).
  assert (Hk1 : konts s1 R L).
  { destruct Hk as [Hk1 Hk2]. split; intros t x Ht; rewrite Hsame by set_solver; eauto. }
  assert (Hact : activate_current s1 = Ret (set_active_as (resumed_as th (active_as s)) s1)).
  { refine (activate_current_ok s1 th _). by change (curthread s1) with (curthread s); rewrite Hcur. }
  destruct (pcb_resume (t_pcb th)) as [f d1 d2|spl| | |] eqn:Hkont; try done.
  - unfold mi_threadstart. rewrite (activate_current_ok s th) by by rewrite Hcur.
    ostep. eexists. split; [done|]. unfold resumed. rewrite Hkont.
    split_and!; try done. split; [by destruct Hl|done|done].
  - rewrite Hex. ostep. rewrite Hact. ostep. eexists. split; [done|]. unfold resumed. rewrite Hkont.
    split_and!; try done; [|set_solver]. split; [by destruct Hl1|done|done].
  - rewrite Hex. ostep. rewrite Hact. ostep. cbn [after_switch].
    change (curthread (set_active_as _ s1)) with (curthread s). rewrite Hcur.
    rewrite (get_thread_Some _ _ th) by done. ostep.
    eexists. split; [done|]. unfold resumed. rewrite Hkont.
    assert (Hne : ∀ t, t ∈ R ++ L → n ≠ t) by set_solver.
    split_and!; try done.
    + split; [| |done].
      * apply (linked_put _ _ _ _ _ n th); [by destruct Hl1|done| |set_solver].
        change (check_stack th = Ret ()). by apply (li_stack _ _ _ _ _ Hl n).
      * destruct Hk1 as [Hk1 Hk2].
        split; intros t x Ht; simpl; rewrite lookup_insert_ne by set_solver; eauto.
    + intros t Ht. simpl. rewrite lookup_insert_ne by auto. apply Hsame. set_solver.
    + simpl. apply lookup_insert_eq.
Qed.

(** ** The context switch *)

Lemma idle_spec_sleepers sa irqs : ∀ R L lb R' L' lb',
  idle_spec sa irqs (R, L) lb = Some (R', L', lb') → ∀ t, t ∈ L' → t ∈ L.
Proof.
  induction irqs as [|q irqs IH]; intros R L lb R' L' lb' H t Ht; destruct R as [|x R];
    simplify_eq/=; try done.
  destruct q as [|addr]; simpl in H; [case_bool_decide|]; apply IH with (t := t) in H; try done;
    by apply list_elem_of_filter in H as [_ H].
Qed.

Definition kont_of (s : tsys) (t : Z) : kont :=
  match threads s !! t with Some th => pcb_resume (t_pcb th) | None => KNone end.

(** The continuation under which [n] resumes when [c] leaves with [k]. *)
Definition next_kont (s : tsys) (c : Z) (k : kont) (n : Z) : kont :=
  if decide (n = c) then k else kont_of s n.

(** Continuations that agree with the state a thread is in. *)
Definition kont_ok (ns : threadstate) (k : kont) : Prop :=
  match ns with
  | S_READY => resumable k
  | S_SLEEP => k = KSleep
  | S_ZOMB => True
  | S_RUN => False
  end.

Lemma konts_stashed ns c k p th s R L Zs R' L' : linked s (Some c) R L Zs → konts s R L →
  kont_ok ns k → pcb_resume p = k →
  (∀ t, t ∈ R' → (t ∈ (stashed ns c R L Zs).1.1) ∨ (t ∈ (stashed ns c R L Zs).1.2)) →
  (∀ t, t ∈ L' → t ∈ (stashed ns c R L Zs).1.2) →
  ∀ s', threads s' = <[c := with_pcb p th]> (threads s) → konts s' R' L'.
Proof.
  intros Hl [HR HL] Hk Hp HR' HL' s' Hs'.
  pose proof (li_nodup _ _ _ _ _ Hl) as Hnd. simpl in Hnd. apply NoDup_cons in Hnd as [Hc _].
  split; intros t x Ht Hx; rewrite Hs' in Hx;
    apply lookup_insert_Some in Hx as [[<- <-]|[Hne Hx]]; simpl; rewrite ?Hp.
  - apply HR' in Ht. destruct ns; simpl in *; [done|done|by rewrite Hk|set_solver].
  - apply HR' in Ht. assert (Ht' : (t ∈ R) ∨ (t ∈ L)) by (destruct ns; simpl in *; set_solver).
    destruct Ht' as [Ht'|Ht']; [by eapply HR|]. by rewrite (HL t x).
  - apply HL' in Ht. destruct ns; simpl in *; [done|set_solver|done|set_solver].
  - apply HL' in Ht. apply (HL t x); [|done]. destruct ns; simpl in *; set_solver.
Qed.

Lemma stashed_count ns c R L Zs : ns ≠ S_RUN →
  len (stashed ns c R L Zs).1.1 + len (stashed ns c R L Zs).1.2 ≤ len R + len L + 1.
Proof. destruct ns; simpl; rewrite ?length_app; simpl; lia || done. Qed.

(** mi_switch up to the point where the next thread has the processor; it stops
    idling exactly when the abstract scheduler finds a thread. *)
Lemma mi_switch_out km irqs ns k s c th R L Zs : ns ≠ S_RUN → curspl s > 0 →
  linked s (Some c) R L Zs → threads s !! c = Some th →
  (ns = S_ZOMB → t_vmspace th = NULL ∧ t_cwd th = NULL) →
  mem_ok km ns s R L Zs →
  let '(R2, L2, Zs2) := stashed ns c R L Zs in
  match idle_spec (saddr s) irqs (R2, L2) (lbolt_counter s) with
  | None => mi_switch km irqs ns k s = Spin
  | Some (R', L', lb') => R' ++ L' ≡ₚ R2 ++ L2 ∧ ∃ n R'' s4 p, R' = n :: R'' ∧
      mi_switch km irqs ns k s = resume s4 ∧ linked s4 (Some n) R'' L' Zs2 ∧ pcb_resume p = k ∧
      threads s4 = <[c := with_pcb p th]> (threads s) ∧
      (curspl s4, numthreads s4, lbolt_counter s4, active_as s4)
      = (curspl s, numthreads s, lb', active_as s) ∧ grows s s4
  end.
Proof.
  intros Hrun Hspl Hl Hth Hz Hmem.
  pose proof (stash_ok km ns c s R L Zs Hrun Hspl Hl) as Hst.
  specialize (Hst ltac:(naive_solver) Hmem).
  pose proof (stashed_count ns c R L Zs Hrun) as Hcnt.
  destruct (linked_get s (Some c) R L Zs c Hl) as (th' & Hth' & Hget & Hchk & Hnn); [set_solver|].
  simplify_eq. assert (Hcur : curthread s = c) by apply (li_cur _ _ _ _ _ Hl).
  unfold mi_switch. rewrite Hcur. bdec. cbn [c_assert]. ostep.
  cbv zeta. rewrite Hget. ostep. rewrite Hchk. ostep.
  destruct (stashed ns c R L Zs) as [[R2 L2] Zs2]. simpl in Hcnt.
  destruct Hst as (z & a & q & -> & Hl2 & Hsz). ostep.
  set (s2 := set_zombies z (relist a q (set_curthread NULL s))) in *.
  assert (Hfit : fits km (len R2 + len L2) (q_size (runqueue s2))).
  { destruct Hmem as [Hf _]. eapply fits_le; [exact Hf|lia|apply Hsz]. }
  pose proof (scheduler_ok km irqs s2 R2 L2 Zs2 Hspl Hl2 Hfit) as Hsch.
  change (saddr s2) with (saddr s) in Hsch. change (lbolt_counter s2) with (lbolt_counter s) in Hsch.
  destruct (idle_spec _ _ _ _) as [[[R' L'] lb']|]; [|by rewrite Hsch].
  destruct Hsch as (Hp & n & R'' & a3 & q3 & -> & -> & Hl3 & Hg3). split; [done|]. ostep.
  set (s3 := set_curthread n (set_lbolt_counter lb' (relist a3 q3 s2))) in *.
  destruct (md_switch_ok c n k s3 R'' L' Zs2 th Hl3 Hth) as (p & x & y & -> & Hpk & Hl4). ostep.
  exists n, R'', (set_interrupt x y (put_thread c (with_pcb p th) s3)), p.
  split_and!; try done. transitivity s2; [exact Hsz|exact Hg3].
Qed.

(** The whole switch, as the thread that arrives sees it. *)
Lemma mi_switch_ok km irqs ns k s c th R L Zs : ns ≠ S_RUN → curspl s > 0 →
  linked s (Some c) R L Zs → konts s R L → kont_ok ns k → threads s !! c = Some th →
  (ns = S_ZOMB → t_vmspace th = NULL ∧ t_cwd th = NULL) →
  mem_ok km ns s R L Zs →
  let '(R2, L2, Zs2) := stashed ns c R L Zs in
  numthreads s = len R2 + len L2 →
  match idle_spec (saddr s) irqs (R2, L2) (lbolt_counter s) with
  | None => mi_switch km irqs ns k s = Spin
  | Some (R', L', lb') => R' ++ L' ≡ₚ R2 ++ L2 ∧ ∃ n R'' s', R' = n :: R'' ∧
      mi_switch km irqs ns k s = Ret s' ∧
      tinv s' n R'' L' (resumed_zombies (next_kont s c k n) Zs2) ∧
      curspl s' = resumed_spl (next_kont s c k n) (curspl s) ∧ lbolt_counter s' = lb' ∧
      grows s s' ∧ (∀ t, t ∈ R'' ++ L' → saddr s' t = saddr s t) ∧
      saddr s' n = (match next_kont s c k n with KSleep => NULL | _ => saddr s n end)
  end.
Proof.
  intros Hrun Hspl Hl Hks Hk Hth Hz Hmem.
  pose proof (mi_switch_out km irqs ns k s c th R L Zs Hrun Hspl Hl Hth Hz Hmem) as Hout.
  pose proof (λ p R' L', konts_stashed ns c k p th s R L Zs R' L' Hl Hks Hk) as Hkst.
  destruct (stashed ns c R L Zs) as [[R2 L2] Zs2]. intros Hnum. simpl in Hkst.
  pose proof (idle_spec_sleepers (saddr s) irqs R2 L2 (lbolt_counter s)) as Hsl.
  destruct (idle_spec _ _ _ _) as [[[R' L'] lb']|]; [|done].
  destruct Hout as (Hp & n & R'' & s4 & p & -> & Hrun' & Hl4 & Hpk & Hths & Heq & Hg4). simplify_eq.
  split; [done|].
  assert (Hin : ∀ t, t ∈ n :: R'' → (t ∈ R2) ∨ (t ∈ L2)).
  { intros t Ht. apply elem_of_app. rewrite <- Hp. set_solver. }
  destruct (Hkst p (n :: R'') L' eq_refl Hin (Hsl _ _ _ eq_refl) s4 Hths) as [HkR HkL].
  destruct (linked_get s4 (Some n) R'' L' Zs2 n Hl4) as (thn & Hthn & _); [set_solver|].
  assert (Hkn : pcb_resume (t_pcb thn) = next_kont s c (pcb_resume p) n ∧ t_sleepaddr thn = saddr s n).
  { unfold next_kont, kont_of, saddr. rewrite Hths in Hthn.
    apply lookup_insert_Some in Hthn as [[<- <-]|[? ->]]; [by rewrite decide_True, Hth|by rewrite decide_False]. }
  destruct Hkn as [Hkn Hsn].
  pose proof (Permutation_length Hp) as Hpl. rewrite !length_app in Hpl. simpl in Hpl.
  destruct (resume_ok s4 n thn R'' L' Zs2) as (s' & Hres & Hti & Hspl' & Hlb & _ & Hg' & Hsame & Hself);
    [done|split; [intros; eapply HkR; set_solver|done]|lia|lia|done|by eapply HkR; [left|]|].
  rewrite Hkn in *. exists n, R'', s'. split_and!; [done|congruence|done|congruence|congruence|by transitivity s4| |].
  - intros t Ht. unfold saddr. rewrite (Hsame t Ht), Hths.
    destruct (decide (t = c)) as [->|]; [by rewrite lookup_insert_eq, Hth|by rewrite lookup_insert_ne].
  - unfold saddr at 1. rewrite Hself. by destruct (next_kont _ _ _ _).
Qed.

(** ** thread_fork *)

Definition refs (s : tsys) (v : Z) : Z := default 0 (vnrefs s !! v).

(** The state of thread_fork once the new structure is filled in and
    interrupts are off; [cwd] is the inherited directory. *)
Definition forking (s : tsys) (cwd new : Z) (th : thread) : tsys :=
  (splhigh (put_thread new th (if bool_decide (cwd ≠ NULL) then vop_incref cwd s else s))).1.

Definition newborn (stack data1 data2 func cwd : Z) : thread :=
  Thread (md_initpcb stack data1 data2 func) NULL stack stack_magic NULL cwd NULL.

Lemma refs_incref v w s : refs (vop_incref v s) w = refs s w + (if decide (w = v) then 1 else 0).
Proof.
  unfold refs, vop_incref. simpl. case_decide as H; [subst; by rewrite lookup_insert_eq|].
  rewrite lookup_insert_ne by done. lia.
Qed.

Lemma refs_decref v w s : refs (vop_decref v s) w = refs s w - (if decide (w = v) then 1 else 0).
Proof.
  unfold refs, vop_decref. simpl. case_decide as H; [subst; by rewrite lookup_insert_eq|].
  rewrite lookup_insert_ne by done. lia.
Qed.

Lemma forking_proj s cwd new th :
  let s3 := forking s cwd new th in
  threads s3 = <[new := th]> (threads s) ∧ curthread s3 = curthread s ∧
  numthreads s3 = numthreads s ∧ curspl s3 = SPL_HIGH ∧ ts_up s3 = ts_up s ∧
  (sleepers s3, zombies s3, runqueue s3) = (sleepers s, zombies s, runqueue s) ∧
  (∀ v, refs s3 v = refs s v + (if decide (v = cwd ∧ cwd ≠ NULL) then 1 else 0)).
Proof.
  unfold forking. case_bool_decide as H; split_and!; try done; intros v.
  - transitivity (refs (vop_incref cwd s) v); [done|]. rewrite refs_incref.
    repeat case_decide; tauto || lia.
  - rewrite decide_False by tauto. unfold refs. simpl. lia.
Qed.

Lemma fork_fail_ok s c R L Zs new th e z a q : tinv s c R L Zs → threads s !! new = None →
  arepr z Zs → arepr a L → qrepr q R →
  ∃ s', fork_fail new (curspl s) e (set_zombies z (relist a q (forking s (t_cwd th) new th)))
        = Ret (s', inl e) ∧
    tinv s' c R L Zs ∧ threads s' = threads s ∧ curspl s' = curspl s ∧
    (sleepers s', runqueue s') = (a, q) ∧ (∀ v, refs s' v = refs s v).
Proof.
  intros [Hl Hk Hn] Hnew Hz Ha Hq. unfold fork_fail.
  destruct (forking_proj s (t_cwd th) new th) as (Hth & Hcur & Hnum & _ & Hup & Hls & Hrefs).
  set (s3 := forking s (t_cwd th) new th) in *. clearbody s3. cbn [splx fst].
  rewrite (get_thread_Some _ _ th) by (simpl; by rewrite Hth, lookup_insert_eq). ostep.
  assert (Hdel : delete new (threads s3) = threads s) by by rewrite Hth, delete_insert_id.
  eexists. split; [done|]. case_bool_decide as Hc; simpl; rewrite Hdel.
  all: split; [split|split_and!; [done..|]].
  1, 5: destruct Hl; split; simpl; rewrite ?Hdel, ?Hcur, ?Hup; done.
  1, 4: destruct Hk as [Hk1 Hk2]; split; intros t x Ht; simpl; rewrite ?Hdel; eauto.
  1, 3: simpl; lia.
  - intros v. transitivity (refs (vop_decref (t_cwd th) s3) v); [done|].
    rewrite refs_decref, Hrefs. repeat case_decide; tauto || lia.
  - intros v. transitivity (refs s3 v); [done|]. rewrite Hrefs, decide_False by tauto. lia.
Qed.

(** The new thread joins the tail of the ready list. *)
Lemma fork_success s c R L Zs new th z a q : tinv s c R L Zs → threads s !! new = None →
  new ≠ NULL → check_stack th = Ret () → resumable (pcb_resume (t_pcb th)) →
  arepr z Zs → arepr a L → qrepr q (R ++ [new]) →
  tinv (set_curspl (curspl s) (set_numthreads (numthreads s + 1)
         (set_zombies z (relist a q (forking s (t_cwd th) new th))))) c (R ++ [new]) L Zs.
Proof.
  intros [Hl [Hk1 Hk2] Hn] Hnew Hnn Hst Hres Hz Ha Hq.
  destruct (forking_proj s (t_cwd th) new th) as (Hth & Hcur & _ & _ & Hup & _ & _).
  set (s3 := forking s (t_cwd th) new th) in *. clearbody s3. destruct Hl.
  assert (Hfresh : new ∉ oconst (Some c) ++ R ++ L ++ Zs).
  { rewrite <- li_dom0, Hnew. by intros []. }
  split; [split|split|]; simpl; try done; try congruence.
  - by rewrite Hcur.
  - rewrite <- (assoc_L (++)). simpl. rewrite <- Permutation_middle. simpl in li_nodup0, Hfresh.
    rewrite Permutation_swap. apply NoDup_cons. by split.
  - intros t. rewrite Hth, lookup_insert_is_Some'. rewrite li_dom0. simpl. set_solver.
  - by rewrite Hth, lookup_insert_ne.
  - intros t x. rewrite Hth. intros [[<- <-]|[_ Hx]]%lookup_insert_Some; [done|by eapply li_stack0].
  - intros t x Ht. rewrite Hth. intros [[<- <-]|[_ Hx]]%lookup_insert_Some; [set_solver|by eapply li_zomb0].
  - intros t x Ht. rewrite Hth. intros [[<- <-]|[Hne Hx]]%lookup_insert_Some; [done|].
    apply (Hk1 t x); [set_solver|done].
  - intros t x Ht. rewrite Hth. intros [[<- <-]|[_ Hx]]%lookup_insert_Some; [set_solver|by eapply Hk2].
  - rewrite length_app. simpl. lia.
Qed.

(** Every allocation thread_fork makes succeeds. *)
Definition fork_mem (km : Z → bool) (ok_t ok_n ok_s : bool) : Prop :=
  ok_t = true ∧ ok_n = true ∧ ok_s = true ∧ ∀ x, km x = true.

Lemma not_fork_mem km ok_t ok_n ok_s x : km x = false → ¬ fork_mem km ok_t ok_n ok_s.
Proof. intros Hx (_ & _ & _ & H). by rewrite H in Hx. Qed.

(** The branch a returned error code of 0 takes. *)
Ltac noerr :=
  repeat first [rewrite (bool_decide_eq_false_2 (0 ≠ 0)) by lia
               |rewrite (bool_decide_eq_true_2 (SPL_HIGH > 0)) by (unfold SPL_HIGH; lia)
               |rewrite bind_Ret]; cbn [c_assert]; ostep.

Section fork.
Context (km : Z → bool) (s : tsys) (c : Z) (R L Zs : list Z) (new : Z) (th : thread).
Context (Ht : tinv s c R L Zs) (Hnew : threads s !! new = None) (Hnn : new ≠ NULL).
Context (Hst : check_stack th = Ret ()) (Hres : resumable (pcb_resume (t_pcb th))).
Context (Hb : len R + len L + 2 < 2 ^ 28).

(** What thread_fork promises when it succeeds and when it runs out of memory. *)
Definition forked (s' : tsys) : Prop :=
  tinv s' c (R ++ [new]) L Zs ∧ curspl s' = curspl s ∧
  threads s' = <[new := th]> (threads s) ∧
  (∀ v, refs s' v = refs s v + (if decide (v = t_cwd th ∧ t_cwd th ≠ NULL) then 1 else 0)) ∧
  numthreads s' ≤ a_max (sleepers s') ∧ numthreads s' ≤ q_size (runqueue s').

Definition not_forked (s' : tsys) : Prop :=
  tinv s' c R L Zs ∧ curspl s' = curspl s ∧ threads s' = threads s ∧ grows s s' ∧
  (∀ v, refs s' v = refs s v).

Lemma fork_fail_mem z a q : arepr z Zs → arepr a L → qrepr q R →
  a_max (sleepers s) ≤ a_max a → q_size (runqueue s) ≤ q_size q → (∃ x, km x = false) →
  ∃ s', fork_fail new (curspl s) ENOMEM (set_zombies z (relist a q (forking s (t_cwd th) new th)))
        = Ret (s', inl ENOMEM) ∧ not_forked s' ∧ ∃ x, km x = false.
Proof.
  intros Hz Ha Hq Hma Hsq Hx.
  destruct (fork_fail_ok s c R L Zs new th ENOMEM z a q Ht Hnew Hz Ha Hq) as (s' & ? & ? & ? & ? & ? & ?).
  simplify_eq. exists s'. unfold not_forked, grows. eauto 10.
Qed.

Lemma fork_enqueue_ok :
  (∃ s', fork_enqueue km new (curspl s) (forking s (t_cwd th) new th) = Ret (s', inr new) ∧ forked s') ∨
  (∃ s', fork_enqueue km new (curspl s) (forking s (t_cwd th) new th) = Ret (s', inl ENOMEM) ∧
     not_forked s' ∧ ∃ x, km x = false).
Proof.
  destruct (forking_proj s (t_cwd th) new th) as (Hth & _ & Hnum3 & Hspl3 & _ & Hls & Hrefs).
  pose proof fork_fail_mem as Hfail.
  pose proof (λ z a q, fork_success s c R L Zs new th z a q Ht Hnew Hnn Hst Hres) as Hok.
  destruct Ht as [[Hq Ha Hz _ _ _ _ _ _ _] _ Hnum]. clear Ht.
  set (s3 := forking s (t_cwd th) new th) in *. clearbody s3.
  injection Hls as Hsl Hsz Hsq.
  assert (H3 : ∀ z a q, set_zombies z (relist a q s3) = set_runqueue q (set_zombies z (set_sleepers a s3)))
    by done.
  unfold fork_enqueue. rewrite Hnum3.
  assert (Hs3 : s3 = set_zombies (zombies s3) (relist (sleepers s3) (runqueue s3) s3)) by by destruct s3.
  destruct (array_preallocate_ok km (sleepers s3) L (numthreads s + 1)) as [(a1 & -> & Ha1 & Hm1 & Hg1)|[-> ?]];
    [congruence|lia|ostep; noerr|ostep; right; rewrite Hs3; apply Hfail; first [congruence|done|rewrite <- ?Hsl, <- ?Hsq; simpl; lia]].
  cbv zeta. change (numthreads (set_sleepers a1 s3)) with (numthreads s3).
  change (zombies (set_sleepers a1 s3)) with (zombies s3). rewrite Hnum3.
  destruct (array_preallocate_ok km (zombies s3) Zs (numthreads s + 1)) as [(z1 & -> & Hz1 & _ & _)|[-> ?]];
    [congruence|lia|ostep; noerr|ostep; right; rewrite Hs3; apply (Hfail (zombies s3) a1 (runqueue s3)); first [congruence|done|rewrite <- ?Hsl, <- ?Hsq; simpl; lia]].
  unfold scheduler_preallocate.
  change (numthreads (set_zombies _ _)) with (numthreads s3). rewrite Hnum3.
  change (curspl (set_zombies _ _)) with (curspl s3). rewrite Hspl3.
  change (runqueue (set_zombies _ _)) with (runqueue s3). 
  cbn [c_assert]. ostep.
  destruct (q_preallocate_ok km (runqueue s3) R (numthreads s + 1)) as [(q1 & -> & Hq1 & Hsz1 & Hgq)|[-> ?]];
    [congruence|lia| |]; ostep.
  2: { right. apply (Hfail z1 a1 (runqueue s3)); first [congruence|done|rewrite <- ?Hsl, <- ?Hsq; simpl; lia]. }
  noerr.
  unfold make_runnable. cbn [curspl runqueue numthreads set_runqueue set_zombies set_sleepers].
  rewrite Hspl3. noerr.
  destruct (q_addtail_ok km q1 R new Hq1) as [(q2 & Hadd & Hq2 & Hsz2)|(Hadd & _ & ?)]; [lia| |];
    rewrite Hadd; ostep.
  2: { right. apply (Hfail z1 a1 q1); first [congruence|done|rewrite <- ?Hsl, <- ?Hsq; simpl; lia]. }
  noerr. left. eexists. split; [done|].
  change (numthreads (set_runqueue _ _)) with (numthreads s3). rewrite Hnum3.
  split_and!; [by apply (Hok z1 a1 q2)|done|done| |simpl; lia..].
  intros v. apply Hrefs.
Qed.
End fork.

Lemma thread_fork_ok km ok_t ok_n ok_s new stack data1 data2 func s c cth R L Zs :
  tinv s c R L Zs → threads s !! c = Some cth → threads s !! new = None → new ≠ NULL →
  len R + len L + 2 < 2 ^ 28 →
  let th := newborn stack data1 data2 func (t_cwd cth) in
  (∃ s', thread_fork km ok_t ok_n ok_s new stack data1 data2 func s = Ret (s', inr new) ∧
     forked s c R L Zs new th s') ∨
  (∃ s', thread_fork km ok_t ok_n ok_s new stack data1 data2 func s = Ret (s', inl ENOMEM) ∧
     not_forked s c R L Zs s' ∧ ¬ fork_mem km ok_t ok_n ok_s).
Proof.
  intros Ht Hcth Hnew Hnn Hb th.
  assert (Hcur : curthread s = c) by apply (li_cur _ _ _ _ _ (ti_linked _ _ _ _ _ Ht)).
  assert (Hrefl : not_forked s c R L Zs s) by by split_and!.
  unfold thread_fork, thread_create.
  destruct ok_t; [|right; exists s; split_and!; try done; by intros (? & _)].
  destruct ok_n; [|right; exists s; split_and!; try done; by intros (_ & ? & _)].
  destruct ok_s; [|right; exists s; split_and!; try done; by intros (_ & _ & ? & _)].
  cbn [negb]. rewrite Hcur, (get_thread_Some _ _ _ Hcth). ostep. cbv zeta. fold th.
  destruct (fork_enqueue_ok km s c R L Zs new th) as [?|(s' & He & Hs & x & Hx)]; try done.
  - unfold check_stack. simpl. by case_bool_decide.
  - left. unfold forking in *. simpl in *. case_bool_decide; done.
  - right. exists s'. split_and!; [|done|by eapply not_fork_mem].
    unfold forking in *. simpl in *. case_bool_decide; done.
Qed.

(** ** thread_yield, thread_sleep, thread_exit *)

Lemma idle_spec_ready sa irqs n R L lb : idle_spec sa irqs (n :: R, L) lb = Some (n :: R, L, lb).
Proof. by destruct irqs. Qed.

Lemma linked_splx s C R L Zs spl : linked s C R L Zs → linked (splx spl s).1 C R L Zs.
Proof. by intros []. Qed.

Lemma thread_yield_ok km irqs s c R L Zs : tinv s c R L Zs →
  fits km (len R + len L + 1) (q_size (runqueue s)) →
  ∃ n R' s', R ++ [c] = n :: R' ∧ thread_yield km irqs s = Ret s' ∧
    tinv s' n R' L (resumed_zombies (next_kont s c (KYield (curspl s)) n) Zs) ∧
    curspl s' = resumed_spl (next_kont s c (KYield (curspl s)) n) SPL_HIGH ∧
    lbolt_counter s' = lbolt_counter s ∧ grows s s' ∧ (∀ t, t ∈ R' ++ L → saddr s' t = saddr s t).
Proof.
  intros [Hl Hk Hn] Hfit. unfold thread_yield. cbn [splhigh splx].
  destruct (linked_get s (Some c) R L Zs c Hl) as (th & Hth & _); [set_solver|].
  change (ts_up (set_curspl SPL_HIGH s)) with (ts_up s).
  rewrite (li_up _ _ _ _ _ Hl). cbn [c_assert]. ostep.
  pose proof (mi_switch_ok km irqs S_READY (KYield (curspl s)) (set_curspl SPL_HIGH s) c th R L Zs) as Hm.
  simpl in Hm. specialize (Hm ltac:(done) ltac:(unfold SPL_HIGH; lia) (linked_splx _ _ _ _ _ SPL_HIGH Hl)
    Hk I Hth ltac:(done) (conj Hfit I) ltac:(rewrite length_app; simpl; lia)).
  destruct (R ++ [c]) as [|n R'] eqn:E; [by destruct R|]. rewrite idle_spec_ready in Hm.
  destruct Hm as (_ & n' & R'' & s' & ? & ? & ? & ? & ? & ? & ? & _). simplify_eq.
  by exists n', R'', s'.
Qed.

(** The sleep addresses once the current thread has set its own. *)
Definition saddr_set (s : tsys) (c addr : Z) : Z → Z := λ t, if decide (t = c) then addr else saddr s t.

Lemma wake_ext (f g : Z → Z) addr p : (∀ t, f t = g t) → wake f addr p = wake g addr p.
Proof. intros H. unfold wake. f_equal; [f_equal|]; apply list_filter_iff; intros t; by rewrite H. Qed.

Lemma idle_spec_ext (f g : Z → Z) irqs p lb : (∀ t, f t = g t) →
  idle_spec f irqs p lb = idle_spec g irqs p lb.
Proof.
  intros H. revert p lb. induction irqs as [|q irqs IH]; intros [R L] lb; [done|]. simpl.
  destruct R; [|done]. destruct q as [|addr]; unfold irq_spec; rewrite (wake_ext f g) by done;
    [case_bool_decide|]; apply IH.
Qed.

Lemma saddr_put s c th addr : threads s !! c = Some th →
  ∀ t, saddr (put_thread c (with_sleepaddr addr th) s) t = saddr_set s c addr t.
Proof.
  intros Hth t. unfold saddr_set, saddr. simpl. case_decide as Hd; [subst; by rewrite lookup_insert_eq|].
  by rewrite lookup_insert_ne.
Qed.

Lemma next_kont_put s c th th' k n : threads s !! c = Some th →
  next_kont (put_thread c th' s) c k n = next_kont s c k n.
Proof.
  intros Hth. unfold next_kont, kont_of. case_decide; [done|]. simpl. by rewrite lookup_insert_ne.
Qed.

(** The current thread's own structure may change without touching the rest. *)
Lemma tinv_put_cur s c th th' R L Zs : tinv s c R L Zs → threads s !! c = Some th →
  check_stack th' = Ret () → tinv (put_thread c th' s) c R L Zs.
Proof.
  intros [Hl [Hk1 Hk2] Hn] Hth Hst. pose proof (li_nodup _ _ _ _ _ Hl) as Hnd.
  simpl in Hnd. apply NoDup_cons in Hnd as [Hc _]. split; [| |done].
  - eapply linked_put; [done..|]. set_solver.
  - split; intros t x Ht; simpl; rewrite lookup_insert_ne by set_solver; eauto.
Qed.

Lemma thread_sleep_ok km irqs addr s c R L Zs : tinv s c R L Zs → curspl s > 0 →
  in_interrupt s = 0 → mem_ok km S_SLEEP s R L Zs →
  match idle_spec (saddr_set s c addr) irqs (R, L ++ [c]) (lbolt_counter s) with
  | None => thread_sleep km irqs addr s = Spin
  | Some (R', L', lb') => R' ++ L' ≡ₚ R ++ L ++ [c] ∧ ∃ n R'' s', R' = n :: R'' ∧
      thread_sleep km irqs addr s = Ret s' ∧
      tinv s' n R'' L' (resumed_zombies (next_kont s c KSleep n) Zs) ∧
      curspl s' = resumed_spl (next_kont s c KSleep n) (curspl s) ∧ lbolt_counter s' = lb' ∧
      grows s s' ∧ (∀ t, t ∈ R'' ++ L' → saddr s' t = saddr_set s c addr t) ∧
      (next_kont s c KSleep n = KSleep → saddr s' n = NULL)
  end.
Proof.
  intros Ht Hspl Hint Hmem. pose proof (ti_linked _ _ _ _ _ Ht) as Hl.
  destruct (linked_get s (Some c) R L Zs c Hl) as (th & Hth & Hget & Hst & _); [set_solver|].
  unfold thread_sleep. bdec. cbn [c_assert]. ostep.
  rewrite (li_cur _ _ _ _ _ Hl). cbn [default from_option id]. rewrite Hget. ostep.
  set (s1 := put_thread c (with_sleepaddr addr th) s).
  assert (Ht1 : tinv s1 c R L Zs) by by eapply tinv_put_cur. destruct Ht1 as [Hl1 Hk1 Hn1].
  pose proof (mi_switch_ok km irqs S_SLEEP KSleep s1 c (with_sleepaddr addr th) R L Zs) as Hm.
  cbn [stashed] in Hm. specialize (Hm ltac:(done) Hspl Hl1 Hk1 eq_refl (lookup_insert_eq _ _ _)
    ltac:(done) Hmem ltac:(rewrite length_app; simpl in *; lia)).
  change (lbolt_counter s1) with (lbolt_counter s) in Hm. change (curspl s1) with (curspl s) in Hm.
  rewrite (idle_spec_ext (saddr s1) (saddr_set s c addr)) in Hm by by apply saddr_put.
  destruct (idle_spec _ _ _ _) as [[[R' L'] lb']|]; [|done].
  destruct Hm as (Hp & n & R'' & s' & ? & ? & Ht' & Hs' & ? & Hg & Hsa & Hsn). split; [done|].
  unfold s1 in Ht', Hs', Hsn. rewrite (next_kont_put s c th) in Ht', Hs', Hsn by done.
  exists n, R'', s'. split_and!; try done.
  - intros t Htt. rewrite Hsa by done. by apply saddr_put.
  - intros Hkk. by rewrite Hsn, Hkk.
Qed.

(** The structure of a thread that has given up its resources. *)
Definition stripped (th : thread) : thread := with_cwd NULL (with_vmspace NULL th).

Lemma with_vmspace_same th : t_vmspace th = NULL → with_vmspace NULL th = th.
Proof. destruct th. simpl. by intros ->. Qed.
Lemma with_cwd_same th : t_cwd th = NULL → with_cwd NULL th = th.
Proof. destruct th. simpl. by intros ->. Qed.

Lemma put_thread_same t th s : threads s !! t = Some th → put_thread t th s = s.
Proof. intros H. unfold put_thread. rewrite insert_id by done. by destruct s. Qed.

(** thread_exit until mi_switch. *)
Lemma thread_exit_prepare km irqs s c th R L Zs : tinv s c R L Zs → threads s !! c = Some th →
  thread_exit km irqs s =
  mi_switch km irqs S_ZOMB KExit (set_numthreads (numthreads s - 1)
    (put_thread c (stripped th) (set_curspl SPL_HIGH
      (if bool_decide (t_cwd th ≠ NULL) then vop_decref (t_cwd th) s else s)))).
Proof.
  intros [Hl _ Hn] Hth. pose proof (li_cur _ _ _ _ _ Hl) as Hcur. simpl in Hcur.
  unfold thread_exit. rewrite Hcur, (get_thread_Some _ _ _ Hth). ostep.
  rewrite (li_stack _ _ _ _ _ Hl c th Hth). ostep. cbn [splhigh splx]. cbv zeta.
  change (curthread (set_curspl SPL_HIGH s)) with (curthread s). rewrite Hcur.
  set (s2 := if bool_decide (t_vmspace th ≠ NULL) then _ else _).
  assert (Hs2 : s2 = put_thread c (with_vmspace NULL th) (set_curspl SPL_HIGH s)).
  { unfold s2. case_bool_decide as Hv; [done|]. rewrite with_vmspace_same by tauto.
    by rewrite put_thread_same. }
  clearbody s2. subst s2.
  change (curthread (put_thread _ _ _)) with (curthread s). rewrite Hcur.
  erewrite get_thread_Some by apply lookup_insert_eq. ostep.
  change (t_cwd (with_vmspace NULL th)) with (t_cwd th).
  case_bool_decide as Hc; simpl numthreads; bdec; cbn [c_assert]; ostep.
  - f_equal. unfold put_thread, vop_decref. simpl. by rewrite insert_insert_eq.
  - unfold stripped. by rewrite with_cwd_same by (simpl; tauto).
Qed.

Lemma thread_exit_ok km irqs s c th R L Zs : tinv s c R L Zs → threads s !! c = Some th →
  mem_ok km S_ZOMB s R L Zs →
  match idle_spec (saddr s) irqs (R, L) (lbolt_counter s) with
  | None => thread_exit km irqs s = Spin
  | Some (R', L', lb') => R' ++ L' ≡ₚ R ++ L ∧ ∃ n R'' s', R' = n :: R'' ∧
      thread_exit km irqs s = Ret s' ∧
      tinv s' n R'' L' (resumed_zombies (kont_of s n) (Zs ++ [c])) ∧
      curspl s' = resumed_spl (kont_of s n) SPL_HIGH ∧ lbolt_counter s' = lb' ∧ grows s s'
  end.
Proof.
  intros Ht Hth Hmem. rewrite (thread_exit_prepare km irqs s c th R L Zs Ht Hth).
  set (s0 := if bool_decide _ then _ else _). pose proof (ti_linked _ _ _ _ _ Ht) as Hl.
  assert (H0 : tinv (set_curspl SPL_HIGH s0) c R L Zs ∧ mem_ok km S_ZOMB s0 R L Zs ∧
    threads s0 = threads s ∧ lbolt_counter s0 = lbolt_counter s ∧ grows s s0).
  { destruct Ht as [[] Hk Hn]. unfold s0. case_bool_decide; split_and!; done. }
  destruct H0 as (Ht0 & Hmem0 & Hths & Hlb & Hg0). clearbody s0.
  assert (Hst : check_stack (stripped th) = Ret ()) by by apply (li_stack _ _ _ _ _ Hl c th).
  apply (tinv_put_cur _ c th (stripped th)) in Ht0; [|by simpl; rewrite Hths|done].
  set (s1 := put_thread c (stripped th) (set_curspl SPL_HIGH s0)) in *.
  assert (Hsame : ∀ t, t ≠ c → threads s1 !! t = threads s !! t).
  { intros t Hne. simpl. by rewrite lookup_insert_ne, Hths. }
  assert (Hsa : ∀ t, saddr (set_numthreads (numthreads s - 1) s1) t = saddr s t).
  { intros t. unfold saddr. simpl. rewrite Hths. destruct (decide (t = c)) as [->|].
    - by rewrite lookup_insert_eq, Hth.
    - by rewrite lookup_insert_ne. }
  destruct Ht0 as [Hl1 Hk1 Hn1]. destruct Ht as [_ _ Hn].
  pose proof (mi_switch_ok km irqs S_ZOMB KExit (set_numthreads (numthreads s - 1) s1) c (stripped th) R L Zs) as Hm.
  cbn [stashed] in Hm. specialize (Hm ltac:(done) ltac:(simpl; unfold SPL_HIGH; lia)
    ltac:(by destruct Hl1) Hk1 I (lookup_insert_eq _ _ _) ltac:(done) Hmem0 ltac:(simpl; lia)).
  change (lbolt_counter (set_numthreads _ s1)) with (lbolt_counter s0) in Hm.
  rewrite Hlb, (idle_spec_ext _ _ _ _ _ Hsa) in Hm.
  destruct (idle_spec _ _ _ _) as [[[R' L'] lb']|]; [|done].
  destruct Hm as (Hp & n & R'' & s' & -> & ? & Ht' & Hspl & ? & Hg' & _). split; [done|].
  assert (Hnc : n ≠ c).
  { pose proof (li_nodup _ _ _ _ _ Hl) as Hnd. simpl in Hnd. apply NoDup_cons in Hnd as [Hnd _].
    intros ->. apply Hnd. rewrite (assoc_L (++)), <- Hp. set_solver. }
  assert (Hnk : next_kont (set_numthreads (numthreads s - 1) s1) c KExit n = kont_of s n).
  { unfold next_kont, kont_of. rewrite decide_False by done. simpl threads. by rewrite Hsame. }
  rewrite Hnk in *. exists n, R'', s'. split_and!; try done. by transitivity s0.
Qed.
