(* ===== verification/ThreadMemory.v ===== *)
(** * The thread system when memory runs out

    A call of the thread system that is made while kmalloc may fail does exactly
    what it does with memory to spare, or it stops at an assertion. This is a
    comparison of two runs of the same code and holds in every state. *)

From S2P Require Import Prelude CArray CQueue Thread.

Definition ever (_ : Z) : bool := true.
Definition never (_ : Z) : bool := false.

Section short.
Context (km : Z → bool).

Definition starved : Prop := ∃ x, km x = false.

(** [o], with [km], against [o'], with memory to spare. *)
Definition likewise {A} (o o' : outcome A) : Prop := o = o' ∨ (o = Panic ∧ starved).

(** The same of a call that may also hand back an error number. *)
Definition likewise_code {A} (o o' : outcome (A * Z)) : Prop :=
  likewise o o' ∨ (starved ∧ ∃ a e, o = Ret (a, e) ∧ e ≠ 0).

Lemma likewise_refl {A} (o : outcome A) : likewise o o.
Proof. by left. Qed.

Lemma likewise_bind {A B} (o o' : outcome A) (f f' : A → outcome B) :
  likewise o o' → (∀ a, likewise (f a) (f' a)) → likewise (o ≫= f) (o' ≫= f').
Proof. intros [->|[-> Hs]] Hf; [|by right]. destruct o' as [a| | |]; [apply Hf|by left..]. Qed.

Lemma likewise_while {S} (cond : S → bool) (body body' : S → outcome S) fuel s :
  (∀ t, likewise (body t) (body' t)) → likewise (while_loop fuel cond body s) (while_loop fuel cond body' s).
Proof.
  intros Hb. revert s. induction fuel as [|fuel IH]; intros s; simpl; [by left|].
  destruct (cond s); [|by left]. by apply likewise_bind.
Qed.

(** A caller that asserts success. *)
Lemma likewise_asserted {A B} (o o' : outcome (A * Z)) (f : A → outcome B) :
  likewise_code o o' →
  likewise ('(a, e) ← o; c_assert (bool_decide (e = 0));; f a) ('(a, e) ← o'; c_assert (bool_decide (e = 0));; f a).
Proof.
  intros [H|(Hs & a & e & -> & He)]; [by apply likewise_bind; [|intros; left]|].
  right. split; [|done]. ostep. by rewrite bool_decide_eq_false_2.
Qed.

(** A caller that hands the error on, with a change of the state. *)
Lemma likewise_code_map {A B} (o o' : outcome (A * Z)) (f : A → B) :
  likewise_code o o' → likewise_code ('(a, e) ← o; Ret (f a, e)) ('(a, e) ← o'; Ret (f a, e)).
Proof.
  intros [H|(Hs & a & e & -> & He)]; [left; by apply likewise_bind; [|intros; left]|].
  right. split; [done|]. by exists (f a), e.
Qed.

Lemma likewise_code_bind {A B} (o : outcome A) (f f' : A → outcome (B * Z)) :
  (∀ a, likewise_code (f a) (f' a)) → likewise_code (o ≫= f) (o ≫= f').
Proof. intros Hf. destruct o as [a| | |]; [apply Hf|left; by left..]. Qed.

(** The two runs do not differ. *)
Ltac same := left; left; reflexivity.

(** ** Arrays and queues *)

Lemma preallocate_likewise {A} (a : array A) n : likewise_code (array_preallocate km a n) (array_preallocate ever a n).
Proof.
  unfold array_preallocate. apply likewise_code_bind. intros []. apply likewise_code_bind. intros newmax.
  destruct (km _) eqn:Hk; [same|right]. split; [by eexists|]. by exists a, ENOMEM.
Qed.

Lemma setsize_likewise {A} (a : array A) n : likewise_code (array_setsize km a n) (array_setsize ever a n).
Proof.
  unfold array_setsize. apply likewise_code_bind. intros []. case_bool_decide; [|same].
  destruct (preallocate_likewise a n) as [Hl|(Hs & b & e & -> & He)].
  - left. by apply likewise_bind; [|intros; left].
  - right. split; [done|]. exists b, e. ostep. by rewrite bool_decide_eq_true_2.
Qed.

Lemma add_likewise {A} (a : array A) x : likewise_code (array_add km a x) (array_add ever a x).
Proof.
  unfold array_add. destruct (setsize_likewise a (s32 (a_num a + 1))) as [Hl|(Hs & b & e & -> & He)].
  - left. by apply likewise_bind; [|intros; left].
  - right. split; [done|]. exists b, e. ostep. by rewrite bool_decide_eq_true_2.
Qed.

Lemma grow_likewise {A} (add add' : queue A → A → outcome (queue A * Z)) q n :
  (∀ q x, likewise_code (add q x) (add' q x)) → likewise_code (q_grow_with add km q n) (q_grow_with add' ever q n).
Proof.
  intros Ha. unfold q_grow_with. apply likewise_code_bind. intros nsize.
  destruct (km _) eqn:Hk; [left|right; split; [by eexists|]; by exists q, ENOMEM]. cbn [negb ever].
  apply likewise_bind; [|intros; by left]. apply likewise_while. intros [i q']. unfold reinsert.
  apply likewise_bind; [by left|]. intros x. by apply likewise_asserted.
Qed.

Lemma addtail_likewise {A} depth : ∀ (q : queue A) x, likewise_code (q_addtail_depth depth km q x) (q_addtail_depth depth ever q x).
Proof.
  induction depth as [|depth IH]; intros q x; [same|]. cbn [q_addtail_depth].
  apply likewise_code_bind. intros []. case_bool_decide; [|same].
  destruct (grow_likewise _ _ q (s32 (q_size q + 1)) IH) as [[->|[-> Hs]]|(Hs & q1 & e & -> & He)]; [same|left; by right|].
  right. split; [done|]. exists q1, e. ostep. rewrite (bool_decide_eq_true_2 (e ≠ 0)) by done. ostep. by rewrite bool_decide_eq_true_2.
Qed.

(** ** Threads *)

Lemma make_runnable_likewise t s : likewise_code (make_runnable km t s) (make_runnable ever t s).
Proof.
  unfold make_runnable. apply likewise_code_bind. intros [].
  apply (likewise_code_map _ _ (λ q, set_runqueue q s)), addtail_likewise.
Qed.

Lemma wake_at_likewise i t s : likewise (wake_at km i t s) (wake_at ever i t s).
Proof.
  unfold wake_at. apply likewise_bind; [by left|]. intros sl.
  exact (likewise_asserted _ _ Ret (make_runnable_likewise t (set_sleepers sl s))).
Qed.

Lemma wakeup_likewise addr s : likewise (thread_wakeup km addr s) (thread_wakeup ever addr s).
Proof.
  unfold thread_wakeup. apply likewise_bind; [by left|]. intros []. apply likewise_bind; [|intros []; by left].
  apply likewise_while. intros [i s']. unfold wakeup_step. apply likewise_bind; [by left|]. intros t.
  apply likewise_bind; [by left|]. intros th. case_bool_decide; [|by left].
  apply likewise_bind; [apply wake_at_likewise|by left].
Qed.

Lemma wakeup_n_likewise addr n s : likewise (thread_wakeup_n km addr n s) (thread_wakeup_n ever addr n s).
Proof.
  unfold thread_wakeup_n. apply likewise_bind; [by left|]. intros []. apply likewise_bind; [|intros [[]]; by left].
  apply likewise_while. intros [[i s'] b]. unfold wakeup_n_step. apply likewise_bind; [by left|]. intros t.
  apply likewise_bind; [by left|]. intros th. case_bool_decide; [|by left].
  apply likewise_bind; [apply wake_at_likewise|by left].
Qed.

Lemma tick_likewise s : likewise (hardclock_tick km s) (hardclock_tick ever s).
Proof. unfold hardclock_tick. cbv zeta. case_bool_decide; [apply wakeup_likewise|by left]. Qed.

Lemma idle_likewise irqs : ∀ s, likewise (idle_until_ready km irqs s) (idle_until_ready ever irqs s).
Proof.
  induction irqs as [|q irqs IH]; intros s; simpl; destruct (q_empty (runqueue s)); [by left..| |by left].
  apply likewise_bind; [|done]. unfold cpu_idle. apply likewise_bind; [by left|]. intros [].
  destruct q; [apply tick_likewise|apply wakeup_likewise].
Qed.

Lemma stash_likewise ns cur s : likewise_code (stash km ns cur s) (stash ever ns cur s).
Proof.
  destruct ns; simpl; [same|apply make_runnable_likewise|..].
  - apply (likewise_code_map _ _ (λ a, set_sleepers a s)), add_likewise.
  - apply (likewise_code_map _ _ (λ a, set_zombies a s)), add_likewise.
Qed.

Lemma switch_likewise irqs ns k s : likewise (mi_switch km irqs ns k s) (mi_switch ever irqs ns k s).
Proof.
  unfold mi_switch. apply likewise_bind; [by left|]. intros []. case_bool_decide; [by left|].
  apply likewise_bind; [by left|]. intros th. apply likewise_bind; [by left|]. intros [].
  destruct (stash_likewise ns (curthread s) (set_curthread NULL s)) as [[->|[-> Hs]]|(Hs & s2 & e & -> & He)]; [|by right|].
  - destruct (stash ever ns _ _) as [[s2 e]| | |]; [|by left..]. ostep. apply likewise_bind; [by left|]. intros [].
    apply likewise_bind; [|intros []; by left]. unfold scheduler. apply likewise_bind; [by left|]. intros [].
    apply likewise_bind; [apply idle_likewise|by left].
  - right. split; [|done]. ostep. by rewrite bool_decide_eq_false_2.
Qed.

Lemma yield_likewise irqs s : likewise (thread_yield km irqs s) (thread_yield ever irqs s).
Proof. unfold thread_yield. cbv zeta. destruct (splhigh s). apply likewise_bind; [by left|]. intros []. apply switch_likewise. Qed.

Lemma sleep_likewise irqs addr s : likewise (thread_sleep km irqs addr s) (thread_sleep ever irqs addr s).
Proof.
  unfold thread_sleep. apply likewise_bind; [by left|]. intros []. apply likewise_bind; [by left|]. intros th. apply switch_likewise.
Qed.

Lemma exit_likewise irqs s : likewise (thread_exit km irqs s) (thread_exit ever irqs s).
Proof.
  unfold thread_exit. apply likewise_bind; [by left|]. intros th. apply likewise_bind; [by left|]. intros [].
  destruct (splhigh s) as [s1 spl]. cbv zeta. apply likewise_bind; [by left|]. intros th2. apply likewise_bind; [by left|]. intros [].
  apply switch_likewise.
Qed.

Lemma hardclock_likewise irqs s : likewise (hardclock km irqs s) (hardclock ever irqs s).
Proof. unfold hardclock. apply likewise_bind; [apply tick_likewise|]. intros s'. apply yield_likewise. Qed.
End short.
