(* ===== verification/ThreadTheorems.v ===== *)
(** * What the thread system guarantees

    The functional theorems of the operations of kern/thread, the safety of
    every sequence of calls from the state in which the kernel boots, and what
    preallocation in thread_fork does and does not rule out. *)
From S2P Require Import Prelude.
From S2P Require Import CArray.
From S2P Require Import CQueue.
From S2P Require Import Thread.
From S2P Require Import ThreadSpec.
From S2P Require Import ThreadMemory.

(** ** The boot state *)

(** The run queue scheduler_bootstrap creates. *)
Definition boot_queue : queue Z := Queue 32 0 0 (replicate 32 None).

Lemma thread_bootstrap_ok me kstack q : me ≠ NULL → qrepr q [] →
  ∃ s, thread_bootstrap true true true true me kstack q = Ret s ∧ tinv s me [] [] [].
Proof.
  intros Hme Hq. eexists. split; [done|].
  assert (Hth : ∀ t x, (<[me := Thread (Pcb kstack 0 KNone) NULL NULL [] NULL NULL NULL]> ∅ : gmap Z thread)
    !! t = Some x → t = me ∧ x = Thread (Pcb kstack 0 KNone) NULL NULL [] NULL NULL NULL).
  { intros t x. rewrite insert_empty. by intros [-> ->]%lookup_singleton_Some. }
  split; [split|split|]; simpl; try done; try apply arepr_create.
  - apply NoDup_singleton.
  - intros t. rewrite insert_empty, list_elem_of_singleton, lookup_singleton_is_Some. naive_solver.
  - by rewrite insert_empty, lookup_singleton_ne.
  - intros t x [-> ->]%Hth. done.
  - intros t x Ht. by apply not_elem_of_nil in Ht.
  - intros t x Ht. by apply not_elem_of_nil in Ht.
  - intros t x Ht. by apply not_elem_of_nil in Ht.
Qed.

Lemma linked_size s C R L Zs : linked s C R L Zs →
  Z.of_nat (size (threads s)) = len (oconst C ++ R ++ L ++ Zs).
Proof.
  intros Hl. f_equal. rewrite <- size_dom.
  replace (dom (threads s)) with (list_to_set (C := gset Z) (oconst C ++ R ++ L ++ Zs)).
  - by apply size_list_to_set, (li_nodup _ _ _ _ _ Hl).
  - apply set_eq. intros t. rewrite elem_of_list_to_set, elem_of_dom. symmetry. apply Hl.
Qed.

(** ** Calls and runs *)

Inductive tcall :=
| TYield
| TSleep (addr : Z)
| TExit
| TFork (ok_t ok_n ok_s : bool) (new stack data1 data2 func : Z)
| TWakeup (addr : Z)
| TWakeupN (addr n : Z)
| TClock
| TSplx (spl : Z).

Definition texec (km : Z → bool) (irqs : list irq) (call : tcall) (s : tsys) : outcome tsys :=
  match call with
  | TYield => thread_yield km irqs s
  | TSleep addr => thread_sleep km irqs addr s
  | TExit => thread_exit km irqs s
  | TFork ok_t ok_n ok_s new stack data1 data2 func =>
      '(s', _) ← thread_fork km ok_t ok_n ok_s new stack data1 data2 func s; Ret s'
  | TWakeup addr => thread_wakeup km addr s
  | TWakeupN addr n => thread_wakeup_n km addr n s
  | TClock => hardclock km irqs s
  | TSplx spl => Ret (splx spl s).1
  end.

(** What the callers have to respect: interrupts off for sleeping and waking,
    no sleeping in an interrupt handler, a fresh address from kmalloc.  The
    bound on the structures in memory is that of a 32-bit address space. *)
Definition tenabled (call : tcall) (s : tsys) : Prop :=
  Z.of_nat (size (threads s)) < 2 ^ 27 ∧
  match call with
  | TSleep _ => curspl s > 0 ∧ in_interrupt s = 0
  | TWakeup _ | TWakeupN _ _ | TClock => curspl s > 0
  | TFork _ _ _ new _ _ _ _ => threads s !! new = None ∧ new ≠ NULL
  | TYield | TExit | TSplx _ => True
  end.

(** Room for every thread to sleep and to be ready. *)
Definition preallocated (s : tsys) : Prop :=
  numthreads s ≤ a_max (sleepers s) ∧ numthreads s ≤ q_size (runqueue s).

(** Memory suffices for the call: always for thread_fork, which hands a failure of
    kmalloc to its caller; for thread_exit if kmalloc succeeds; for the others also
    if the lists have been preallocated and the run queue is not full. *)
Definition tmem (km : Z → bool) (call : tcall) (s : tsys) : Prop :=
  match call with
  | TFork _ _ _ _ _ _ _ _ | TSplx _ => True
  | TExit => ∀ x, km x = true
  | _ => (∀ x, km x = true) ∨ (preallocated s ∧ numthreads s < q_size (runqueue s))
  end.

(** States reached from boot, whatever interrupts arrive and whichever calls of
    kmalloc fail. *)
Inductive treach : tsys → Prop :=
| treach_boot me kstack q s : me ≠ NULL → scheduler_bootstrap true true = Ret q →
    thread_bootstrap true true true true me kstack q = Ret s → treach s
| treach_step km irqs call s s' : treach s → tenabled call s →
    texec km irqs call s = Ret s' → treach s'.

(** ** One call *)

(** [r] is a run that finds no thread ready and idles until the interrupts run out, or one
    that ends in a state of the invariant. *)
Definition safe_step (s : tsys) (r : outcome tsys) : Prop :=
  (r = Spin ∧ q_empty (runqueue s) = true) ∨ ∃ s' c R L Zs, r = Ret s' ∧ tinv s' c R L Zs ∧ (preallocated s → preallocated s').

Lemma idle_spec_None sa irqs R L lb : idle_spec sa irqs (R, L) lb = None → R = [].
Proof. by destruct irqs, R. Qed.

Lemma grows_preallocated s s' : grows s s' → numthreads s' ≤ numthreads s →
  preallocated s → preallocated s'.
Proof. intros [] ? []. split; lia. Qed.

Section step.
Context (km : Z → bool) (irqs : list irq) (s : tsys) (c : Z) (R L Zs : list Z).
Context (Ht : tinv s c R L Zs) (Hsize : Z.of_nat (size (threads s)) < 2 ^ 27).

Lemma step_bound : len R + len L + len Zs + 1 < 2 ^ 27.
Proof.
  pose proof (linked_size _ _ _ _ _ (ti_linked _ _ _ _ _ Ht)) as H.
  rewrite !length_app in H. simpl in H. lia.
Qed.

Lemma none_ready sa L' lb : idle_spec sa irqs (R, L') lb = None → q_empty (runqueue s) = true.
Proof.
  intros ->%idle_spec_None. rewrite (q_empty_ok _ _ (li_q _ _ _ _ _ (ti_linked _ _ _ _ _ Ht))). done.
Qed.

Lemma tmem_fits : (∀ x, km x = true) ∨ (preallocated s ∧ numthreads s < q_size (runqueue s)) →
  fits km (len R + len L + 1) (q_size (runqueue s)) ∧ afits km (len L + 1) (a_max (sleepers s)).
Proof.
  intros Hm. pose proof step_bound. pose proof (ti_num _ _ _ _ _ Ht).
  split; (split; [lia|]); (destruct Hm as [|[[? ?] ?]]; [by left|right; lia]).
Qed.

Lemma yield_returns : tmem km TYield s → ∃ s' c' R' L' Zs', thread_yield km irqs s = Ret s' ∧ tinv s' c' R' L' Zs' ∧ (preallocated s → preallocated s').
Proof.
  intros [Hf _]%tmem_fits.
  destruct (thread_yield_ok km irqs s c R L Zs Ht Hf) as (n & R' & s' & HR & -> & Ht' & _ & _ & Hg & _).
  eexists s', n, R', L, _. split_and!; [done..|]. apply grows_preallocated; [done|].
  apply (f_equal length) in HR. rewrite length_app in HR. simpl in HR.
  rewrite (ti_num _ _ _ _ _ Ht), (ti_num _ _ _ _ _ Ht'). lia.
Qed.

Lemma sleep_safe addr : tenabled (TSleep addr) s → tmem km (TSleep addr) s →
  safe_step s (thread_sleep km irqs addr s).
Proof.
  intros (_ & Hspl & Hint) [Hf Ha]%tmem_fits.
  pose proof (thread_sleep_ok km irqs addr s c R L Zs Ht Hspl Hint (conj Hf Ha)) as Hs.
  destruct (idle_spec _ _ _ _) as [[[R' L'] lb']|] eqn:Hidle; [|left; by eauto using none_ready].
  destruct Hs as (Hp & n & R'' & s' & -> & -> & Ht' & _ & _ & Hg & _).
  right. eexists s', n, R'', L', _. split_and!; [done..|]. apply grows_preallocated; [done|].
  apply Permutation_length in Hp. rewrite !length_app in Hp. simpl in Hp.
  rewrite (ti_num _ _ _ _ _ Ht), (ti_num _ _ _ _ _ Ht'). lia.
Qed.

Lemma exit_safe : tmem km TExit s → safe_step s (thread_exit km irqs s).
Proof.
  intros Hkm. pose proof step_bound. pose proof (ti_linked _ _ _ _ _ Ht) as Hl.
  destruct (linked_get s (Some c) R L Zs c Hl) as (th & Hth & _); [set_solver|].
  assert (Hmem : mem_ok km S_ZOMB s R L Zs) by (repeat split; [lia|by left|lia|by left]).
  pose proof (thread_exit_ok km irqs s c th R L Zs Ht Hth Hmem) as Hs.
  destruct (idle_spec _ _ _ _) as [[[R' L'] lb']|] eqn:Hidle; [|left; by eauto using none_ready].
  destruct Hs as (Hp & n & R'' & s' & -> & -> & Ht' & _ & _ & Hg).
  right. eexists s', n, R'', L', _. split_and!; [done..|]. apply grows_preallocated; [done|].
  apply Permutation_length in Hp. rewrite !length_app in Hp. simpl in Hp.
  rewrite (ti_num _ _ _ _ _ Ht), (ti_num _ _ _ _ _ Ht'). lia.
Qed.

End step.

(** Moving threads from the sleeping to the ready list keeps the invariant. *)
Lemma tinv_relist s c R L Zs R' L' a q : tinv s c R L Zs → listed s R' L' a q → R' ++ L' ≡ₚ R ++ L → (∀ t, t ∈ L' → t ∈ L) →
  tinv (relist a q s) c R' L' Zs.
Proof.
  intros Ht (Ha & Hq & _ & _) Hp Hsub. destruct Ht as [Hl [Hk1 Hk2] Hn].
  split; [|split|].
  - eapply linked_perm; [exact Hl|..]; try done; [|apply Hl|apply Hl|apply Hl].
    simpl. by rewrite (assoc_L (++)), Hp, <- (assoc_L (++)).
  - intros t th HR Hth. assert (Hin : t ∈ R ++ L) by (rewrite <- Hp; set_solver).
    apply elem_of_app in Hin as [Hin|Hin]; [by eapply Hk1|]. by rewrite (Hk2 t th).
  - intros t th HL. apply Hk2. auto.
  - apply Permutation_length in Hp. rewrite !length_app in Hp. simpl. lia.
Qed.

Lemma relist_safe s c R L Zs R' L' a q r : tinv s c R L Zs → listed s R' L' a q → R' ++ L' ≡ₚ R ++ L → (∀ t, t ∈ L' → t ∈ L) →
  r = Ret (relist a q s) → safe_step s r.
Proof.
  intros Ht Hl Hp Hsub ->. right. exists (relist a q s), c, R', L', Zs.
  split_and!; [done|by eapply tinv_relist|]. destruct Hl as (_ & _ & Hm & Hs).
  apply grows_preallocated; [split; simpl; lia|done].
Qed.

Lemma sleepers_in_memory s c R L Zs : tinv s c R L Zs → ∀ t, t ∈ L → is_Some (threads s !! t).
Proof. intros Ht t Hin. apply (li_dom _ _ _ _ _ (ti_linked _ _ _ _ _ Ht)). set_solver. Qed.

(** ** Waking *)

Section waking.
Context (km : Z → bool) (irqs : list irq) (s : tsys) (c : Z) (R L Zs : list Z).
Context (Ht : tinv s c R L Zs) (Hsize : Z.of_nat (size (threads s)) < 2 ^ 27) (Hspl : curspl s > 0).
Context (Hmem : (∀ x, km x = true) ∨ (preallocated s ∧ numthreads s < q_size (runqueue s))).

Lemma wake_fits : fits km (len R + len L) (q_size (runqueue s)).
Proof. destruct (tmem_fits km s c R L Zs Ht Hsize Hmem) as [Hf _]. eapply fits_le; [done|lia|done]. Qed.

Lemma wakeup_run addr : ∃ a q R' L', thread_wakeup km addr s = Ret (relist a q s) ∧
  (R', L') = wake (saddr s) addr (R, L) ∧ listed s R' L' a q ∧
  R' ++ L' ≡ₚ R ++ L ∧ (∀ t, t ∈ L' → t ∈ L).
Proof.
  pose proof (ti_linked _ _ _ _ _ Ht) as Hl.
  destruct (thread_wakeup_ok km addr s R L Hspl (li_q _ _ _ _ _ Hl) (li_s _ _ _ _ _ Hl)
    (sleepers_in_memory s c R L Zs Ht) wake_fits) as (a & q & -> & Hlist).
  exists a, q. do 2 eexists. split_and!; [done|done|done|apply wake_perm|].
  intros t. simpl. by intros [_ ?]%list_elem_of_filter.
Qed.

Lemma wakeup_n_run addr n : ∃ a q, thread_wakeup_n km addr n s = Ret (relist a q s) ∧
  listed s (R ++ (wake_n (saddr s) addr n 0 L).1) (wake_n (saddr s) addr n 0 L).2 a q ∧
  (R ++ (wake_n (saddr s) addr n 0 L).1) ++ (wake_n (saddr s) addr n 0 L).2 ≡ₚ R ++ L ∧
  (∀ t, t ∈ (wake_n (saddr s) addr n 0 L).2 → t ∈ L).
Proof.
  pose proof (ti_linked _ _ _ _ _ Ht) as Hl.
  destruct (thread_wakeup_n_ok km addr n s R L Hspl (li_q _ _ _ _ _ Hl) (li_s _ _ _ _ _ Hl)
    (sleepers_in_memory s c R L Zs Ht) wake_fits) as (a & q & -> & Hlist).
  pose proof (wake_n_perm (saddr s) addr n L 0) as Hp.
  exists a, q. split_and!; [done|done|by rewrite <- (assoc_L (++)), Hp|].
  intros t Hin. rewrite <- Hp. set_solver.
Qed.

Lemma clock_safe : safe_step s (hardclock km irqs s).
Proof.
  pose proof (ti_linked _ _ _ _ _ Ht) as Hl. unfold hardclock, hardclock_tick. cbv zeta.
  assert (Hy : ∀ s1 R1 L1, tinv s1 c R1 L1 Zs → threads s1 = threads s → grows s s1 →
    numthreads s1 = numthreads s → safe_step s (thread_yield km irqs s1)).
  { intros s1 R1 L1 Ht1 Hth Hg Hn.
    destruct (yield_returns km irqs s1 c R1 L1 Zs Ht1) as (s' & c' & R' & L' & Z' & -> & ? & ?).
    - by rewrite Hth.
    - destruct Hmem as [?|[[? ?] ?]]; [by left|right]. destruct Hg. split; [split|]; lia.
    - right. exists s', c', R', L', Z'. split_and!; [done..|]. intros Hpre.
      assert (preallocated s1); [|auto]. destruct Hpre, Hg. split; lia. }
  case_bool_decide.
  - assert (Ht0 : tinv (set_lbolt_counter 0 s) c R L Zs) by by destruct Ht as [[] ? ?].
    destruct (wakeup_run lbolt) as (a & q & R' & L' & _ & Hw & Hli & Hp & Hsub).
    destruct (thread_wakeup_ok km lbolt (set_lbolt_counter 0 s) R L Hspl (li_q _ _ _ _ _ Hl) (li_s _ _ _ _ _ Hl)
      (sleepers_in_memory s c R L Zs Ht) wake_fits) as (a2 & q2 & -> & Hl2). ostep.
    change (saddr (set_lbolt_counter 0 s)) with (saddr s) in Hl2. rewrite <- Hw in Hl2.
    apply (Hy _ R' L'); [by apply (tinv_relist _ c R L)|done| |done].
    destruct Hl2 as (_ & _ & Hm & Hs). simpl in Hm, Hs. split; simpl; lia.
  - ostep. apply (Hy _ R L); [by destruct Ht as [[] ? ?]|done|done|done].
Qed.
End waking.

(** ** Concrete states: one thread at boot, and a second one forked *)

Definition of_outcome {A} (d : A) (o : outcome A) : A := match o with Ret a => a | _ => d end.

Definition boot1 : tsys :=
  TSys 100 (Array 0 0 None) (Array 0 0 None) 1 boot_queue
    (<[100 := Thread (Pcb 7 0 KNone) NULL NULL [] NULL NULL NULL]> ∅) ∅ SPL_HIGH 0 7 0 NULL true.

Definition fork_call (new : Z) : tcall := TFork true true true new (4096 * new) 1 2 3.

Definition two : tsys := of_outcome boot1 (texec ever [] (fork_call 200) boot1).

Lemma boot1_tinv : tinv boot1 100 [] [] [].
Proof.
  destruct (thread_bootstrap_ok 100 7 boot_queue) as (s & Hs & Ht); [done|by apply (qrepr_new 32)|].
  by injection Hs as <-.
Qed.

Lemma two_tinv : tinv two 100 [200] [] [].
Proof.
  destruct (thread_fork_ok ever true true true 200 (4096 * 200) 1 2 3 boot1 100
    (Thread (Pcb 7 0 KNone) NULL NULL [] NULL NULL NULL) [] [] []) as [(s' & Hs & Hf)|(s' & Hs & _)];
    [apply boot1_tinv|reflexivity|reflexivity|discriminate|simpl; lia| |].
  - assert (two = s') as -> by (unfold two; simpl texec; by rewrite Hs). apply Hf.
  - vm_compute in Hs. discriminate.
Qed.

Lemma step_safe km irqs call s c R L Zs : tinv s c R L Zs → tenabled call s → tmem km call s →
  safe_step s (texec km irqs call s).
Proof.
  intros Ht Hen Hmem. destruct Hen as [Hsize Hen]. pose proof (step_bound s c R L Zs Ht Hsize).
  destruct call; simpl in *.
  - right. by eapply yield_returns.
  - by eapply sleep_safe.
  - by eapply exit_safe.
  - destruct (linked_get s (Some c) R L Zs c (ti_linked _ _ _ _ _ Ht)) as (cth & Hth & _); [set_solver|].
    destruct (thread_fork_ok km ok_t ok_n ok_s new stack data1 data2 func s c cth R L Zs)
      as [(s' & -> & Hf)|(s' & -> & Hf & _)]; [done|done|tauto|tauto|lia|..]; ostep; right.
    + destruct Hf as (? & _ & _ & _ & ? & ?). eexists s', c, _, L, Zs. by split_and!.
    + destruct Hf as (Ht' & _ & _ & Hg & _). exists s', c, R, L, Zs. split_and!; [done..|].
      apply grows_preallocated; [done|].
      by rewrite (ti_num _ _ _ _ _ Ht), (ti_num _ _ _ _ _ Ht').
  - destruct (wakeup_run km s c R L Zs Ht Hsize Hen Hmem addr) as (a & q & R' & L' & Hr & _ & Hl & Hp & Hs).
    by eapply relist_safe.
  - destruct (wakeup_n_run km s c R L Zs Ht Hsize Hen Hmem addr n) as (a & q & Hr & Hl & Hp & Hs).
    by eapply relist_safe.
  - by eapply clock_safe.
  - right. exists (splx spl s).1, c, R, L, Zs. split_and!; [done|by destruct Ht as [[] ? ?]|done].
Qed.

Lemma tmem_ever call s : tmem ever call s.
Proof. destruct call; simpl; auto. Qed.

(** With too little memory a call does the same or stops at an assertion. *)
Lemma texec_likewise km irqs call s : (∀ ok_t ok_n ok_s new stack data1 data2 func, call ≠ TFork ok_t ok_n ok_s new stack data1 data2 func) →
  likewise km (texec km irqs call s) (texec ever irqs call s).
Proof.
  intros Hc. destruct call; simpl; [apply yield_likewise|apply sleep_likewise|apply exit_likewise|by destruct (Hc ok_t ok_n ok_s new stack data1 data2 func)|
    apply wakeup_likewise|apply wakeup_n_likewise|apply hardclock_likewise|by left].
Qed.

Lemma step_any km irqs call s c R L Zs : tinv s c R L Zs → tenabled call s →
  safe_step s (texec km irqs call s) ∨ (texec km irqs call s = Panic ∧ ¬ tmem km call s).
Proof.
  intros Ht Hen. assert (Hd : tmem km call s ∨ ∀ ok_t ok_n ok_s new stack data1 data2 func, call ≠ TFork ok_t ok_n ok_s new stack data1 data2 func)
    by (destruct call; try (by right); by left).
  destruct Hd as [Hmem|Hc]; [left; by eapply step_safe|]. destruct (texec_likewise km irqs call s Hc) as [->|[Hp Hs]].
  - left. eapply step_safe; [done..|apply tmem_ever].
  - right. split; [done|]. intros Hmem. destruct (step_safe km irqs call s c R L Zs Ht Hen Hmem) as [[? _]|(? & ? & ? & ? & ? & ? & _)]; congruence.
Qed.

Lemma treach_tinv s : treach s → ∃ c R L Zs, tinv s c R L Zs.
Proof.
  induction 1 as [me kstack q s Hme Hq Hs|km irqs call s s' _ (c & R & L & Zs & Ht) Hen Hrun].
  - assert (q = boot_queue) as -> by by injection Hq.
    destruct (thread_bootstrap_ok me kstack boot_queue) as (s' & Hs' & Ht); [done|by apply (qrepr_new 32)|].
    rewrite Hs in Hs'. simplify_eq. eauto.
  - destruct (step_any km irqs call s c R L Zs Ht Hen) as [[[Hsp _]|(s1 & c1 & R1 & L1 & Z1 & Hr & Ht1 & _)]|[? _]];
      rewrite Hrun in *; simplify_eq. eauto.
Qed.

Lemma ever_mem ns s R L Zs : len R + len L + len Zs + 1 < 2 ^ 28 → mem_ok ever ns s R L Zs.
Proof. intros H. split; [split; [lia|by left]|]. destruct ns; [done|done|..]; (split; [lia|by left]). Qed.

(** ** Theorems *)

(** [C5] Whatever the memory: in every state reached from boot by yields, sleeps, exits, forks,
    wakeups, clock ticks and changes of the interrupt level, of which any calls of kmalloc may
    have failed, the current thread, the ready, sleeping and zombie lists partition the thread
    structures in memory, with the count, the stacks and the saved continuations that go with
    each list.  Every further call returns, or finds no thread ready and idles for want of an
    interrupt, or panics; none touches memory it does not own.  It panics only where memory
    does not suffice ([tmem]): never in thread_fork; in thread_exit only if a kmalloc fails; in
    the other calls only if one fails and the lists were not preallocated for all threads or
    the run queue is full. *)
Theorem thread_system_safe s : treach s →
  (∃ c R L Zs, tinv s c R L Zs) ∧
  ∀ km irqs call, tenabled call s →
    (∃ s', texec km irqs call s = Ret s') ∨
    (texec km irqs call s = Spin ∧ q_empty (runqueue s) = true) ∨
    (texec km irqs call s = Panic ∧ ¬ tmem km call s).
Proof.
  intros Hr. destruct (treach_tinv s Hr) as (c & R & L & Zs & Ht). split; [eauto|].
  intros km irqs call Hen.
  destruct (step_any km irqs call s c R L Zs Ht Hen) as [[?|(s' & _ & _ & _ & _ & ? & _)]|?]; eauto.
Qed.

Lemma thread_system_safe_witness :
  (∃ c R L Zs, tinv two c R L Zs) ∧
  ∀ km irqs call, tenabled call two →
    (∃ s', texec km irqs call two = Ret s') ∨
    (texec km irqs call two = Spin ∧ q_empty (runqueue two) = true) ∨
    (texec km irqs call two = Panic ∧ ¬ tmem km call two).
Proof.
  apply thread_system_safe. apply (treach_step ever [] (fork_call 200) boot1).
  - by apply (treach_boot 100 7 boot_queue).
  - split; [reflexivity|split; [reflexivity|discriminate]].
  - reflexivity.
Defined.

(** [C22] thread_yield is round robin: the current thread goes to the tail of the ready list and
    the head of that list runs (the same thread when no other is ready); nobody else moves, no
    sleep address changes, and the thread that continues gets back the interrupt level it had
    when it yielded (a new thread starts with interrupts on). *)
Theorem thread_yield_round_robin km irqs s c R L Zs : tinv s c R L Zs →
  fits km (len R + len L + 1) (q_size (runqueue s)) →
  ∃ n R' s', R ++ [c] = n :: R' ∧ thread_yield km irqs s = Ret s' ∧
    tinv s' n R' L (resumed_zombies (next_kont s c (KYield (curspl s)) n) Zs) ∧
    curspl s' = resumed_spl (next_kont s c (KYield (curspl s)) n) SPL_HIGH ∧
    ∀ t, t ∈ R' ++ L → saddr s' t = saddr s t.
Proof.
  intros Ht Hf. destruct (thread_yield_ok km irqs s c R L Zs Ht Hf) as (n & R' & s' & ?).
  exists n, R', s'. tauto.
Qed.

Lemma thread_yield_round_robin_witness :
  ∃ n R' s', [200] ++ [100] = n :: R' ∧ thread_yield never [] two = Ret s' ∧
    tinv s' n R' [] (resumed_zombies (next_kont two 100 (KYield (curspl two)) n) []) ∧
    curspl s' = resumed_spl (next_kont two 100 (KYield (curspl two)) n) SPL_HIGH ∧
    ∀ t, t ∈ R' ++ [] → saddr s' t = saddr two t.
Proof.
  apply thread_yield_round_robin; [apply two_tinv|]. split; [reflexivity|right; vm_compute; reflexivity].
Defined.

(** thread_sleep: the current thread joins the tail of the sleeping list under the address
    it gave, and the processor goes to the thread the abstract scheduler picks, after as many
    interrupts as it takes for one to be ready; that thread resumes where it left, and one that
    was itself asleep has its sleep address cleared.  Without a ready thread and without
    interrupts the kernel idles forever. *)
Theorem thread_sleep_refines km irqs addr s c R L Zs : tinv s c R L Zs → curspl s > 0 →
  in_interrupt s = 0 → mem_ok km S_SLEEP s R L Zs →
  match idle_spec (saddr_set s c addr) irqs (R, L ++ [c]) (lbolt_counter s) with
  | None => thread_sleep km irqs addr s = Spin
  | Some (R', L', lb') => R' ++ L' ≡ₚ R ++ L ++ [c] ∧ ∃ n R'' s', R' = n :: R'' ∧
      thread_sleep km irqs addr s = Ret s' ∧
      tinv s' n R'' L' (resumed_zombies (next_kont s c KSleep n) Zs) ∧
      curspl s' = resumed_spl (next_kont s c KSleep n) (curspl s) ∧ lbolt_counter s' = lb' ∧
      (∀ t, t ∈ R'' ++ L' → saddr s' t = saddr_set s c addr t) ∧
      (next_kont s c KSleep n = KSleep → saddr s' n = NULL)
  end.
Proof.
  intros Ht Hspl Hint Hmem.
  pose proof (thread_sleep_ok km irqs addr s c R L Zs Ht Hspl Hint Hmem) as H.
  destruct (idle_spec _ _ _ _) as [[[R' L'] lb']|]; [|done].
  destruct H as (Hp & n & R'' & s' & ? & ? & ? & ? & ? & _ & ? & ?). split; [done|].
  by exists n, R'', s'.
Qed.

(** The only thread sleeps until a device interrupt wakes it. *)
Lemma thread_sleep_refines_witness :
  [100] ++ [] ≡ₚ [] ++ [] ++ [100] ∧ ∃ n R'' s', [100] = n :: R'' ∧
    thread_sleep ever [IrqClock; IrqDevice 55] 55 boot1 = Ret s' ∧
    tinv s' n R'' [] (resumed_zombies (next_kont boot1 100 KSleep n) []) ∧
    curspl s' = resumed_spl (next_kont boot1 100 KSleep n) (curspl boot1) ∧ lbolt_counter s' = 1 ∧
    (∀ t, t ∈ R'' ++ [] → saddr s' t = saddr_set boot1 100 55 t) ∧
    (next_kont boot1 100 KSleep n = KSleep → saddr s' n = NULL).
Proof.
  apply (thread_sleep_refines ever [IrqClock; IrqDevice 55] 55 boot1 100 [] [] []);
    [apply boot1_tinv|reflexivity|reflexivity|].
  apply ever_mem; simpl; lia.
Defined.

(** thread_exit: the thread drops its address space and its reference on its current
    directory, is no longer counted, and never runs again; the structure of every zombie is
    freed as soon as a thread resumes that had run before. *)
Theorem thread_exit_reaps km irqs s c th n R L Zs : tinv s c (n :: R) L Zs →
  threads s !! c = Some th → mem_ok km S_ZOMB s (n :: R) L Zs →
  ∃ s' Zs', thread_exit km irqs s = Ret s' ∧ tinv s' n R L Zs' ∧
    numthreads s' = numthreads s - 1 ∧ curthread s' = n ∧
    match kont_of s n with
    | KStart _ _ _ => Zs' = Zs ++ [c] ∧ curspl s' = 0
    | KYield spl => Zs' = [] ∧ threads s' !! c = None ∧ curspl s' = spl
    | _ => Zs' = [] ∧ threads s' !! c = None ∧ curspl s' = SPL_HIGH
    end.
Proof.
  intros Ht Hth Hmem. pose proof (thread_exit_ok km irqs s c th (n :: R) L Zs Ht Hth Hmem) as H.
  rewrite idle_spec_ready in H. destruct H as (_ & n' & R' & s' & [= <- <-] & Hrun & Ht' & Hspl & _).
  exists s', (resumed_zombies (kont_of s n) (Zs ++ [c])). split_and!; [done|done| | |].
  - rewrite (ti_num _ _ _ _ _ Ht), (ti_num _ _ _ _ _ Ht'). simpl. lia.
  - apply (li_cur _ _ _ _ _ (ti_linked _ _ _ _ _ Ht')).
  - assert (Hgone : resumed_zombies (kont_of s n) (Zs ++ [c]) = [] → threads s' !! c = None).
    { intros HZ. destruct (threads s' !! c) eqn:E; [|done].
      pose proof (li_dom _ _ _ _ _ (ti_linked _ _ _ _ _ Ht') c) as Hd. rewrite E, HZ, app_nil_r in Hd.
      pose proof (li_nodup _ _ _ _ _ (ti_linked _ _ _ _ _ Ht)) as Hnd. simpl in *.
      apply NoDup_cons in Hnd as [Hnd _]. destruct Hnd.
      rewrite app_comm_cons, (assoc_L (++)). apply elem_of_app. left. apply Hd. eauto. }
    destruct (kont_of s n); simpl in *; auto.
Qed.

Lemma thread_exit_reaps_witness :
  ∃ s' Zs', thread_exit ever [] two = Ret s' ∧ tinv s' 200 [] [] Zs' ∧
    numthreads s' = numthreads two - 1 ∧ curthread s' = 200 ∧
    match kont_of two 200 with
    | KStart _ _ _ => Zs' = [] ++ [100] ∧ curspl s' = 0
    | KYield spl => Zs' = [] ∧ threads s' !! 100 = None ∧ curspl s' = spl
    | _ => Zs' = [] ∧ threads s' !! 100 = None ∧ curspl s' = SPL_HIGH
    end.
Proof.
  eapply (thread_exit_reaps ever [] two 100); [apply two_tinv|reflexivity|].
  apply ever_mem; simpl; lia.
Defined.

(** thread_wakeup makes every thread sleeping on the address ready, behind those already
    ready and in the order in which they went to sleep; all other threads stay as they are. *)
Theorem thread_wakeup_fifo km addr s c R L Zs : tinv s c R L Zs → curspl s > 0 →
  fits km (len R + len L + 1) (q_size (runqueue s)) →
  ∃ s', thread_wakeup km addr s = Ret s' ∧
    tinv s' c (R ++ filter (λ t, saddr s t = addr) L) (filter (λ t, saddr s t ≠ addr) L) Zs ∧
    threads s' = threads s ∧ curspl s' = curspl s.
Proof.
  intros Ht Hspl Hf. pose proof (ti_linked _ _ _ _ _ Ht) as Hl.
  destruct (thread_wakeup_ok km addr s R L Hspl (li_q _ _ _ _ _ Hl) (li_s _ _ _ _ _ Hl)
    (sleepers_in_memory s c R L Zs Ht)) as (a & q & -> & Hlist); [eapply fits_le; [done|lia|done]|].
  exists (relist a q s). split_and!; [done| |done|done].
  eapply tinv_relist; [done|exact Hlist|apply (wake_perm (saddr s))|].
  by intros t [_ ?]%list_elem_of_filter.
Qed.

Lemma thread_wakeup_fifo_witness :
  ∃ s', thread_wakeup never 55 two = Ret s' ∧
    tinv s' 100 ([200] ++ filter (λ t, saddr two t = 55) []) (filter (λ t, saddr two t ≠ 55) []) [] ∧
    threads s' = threads two ∧ curspl s' = curspl two.
Proof.
  apply thread_wakeup_fifo; [apply two_tinv|reflexivity|].
  split; [reflexivity|right; vm_compute; reflexivity].
Defined.

(** thread_wakeup_n wakes threads from the front of those sleeping on the address and at
    least one when there is one, so that a signal is never lost; but its count does not bound
    them: when every sleeping thread waits on the address, all of them are woken whatever [n]
    is, because the loop compares [n] with a position in the list that each removal moves back. *)
Theorem thread_wakeup_n_wakes km addr n s c R L Zs : tinv s c R L Zs → curspl s > 0 →
  fits km (len R + len L + 1) (q_size (runqueue s)) → 0 < n →
  ∃ s' W L', thread_wakeup_n km addr n s = Ret s' ∧ tinv s' c (R ++ W) L' Zs ∧ W ++ L' ≡ₚ L ∧
    W `prefix_of` filter (λ t, saddr s t = addr) L ∧
    ((∃ t, t ∈ L ∧ saddr s t = addr) → W ≠ []) ∧
    ((∀ t, t ∈ L → saddr s t = addr) → W = L).
Proof.
  intros Ht Hspl Hf Hn. pose proof (ti_linked _ _ _ _ _ Ht) as Hl.
  destruct (thread_wakeup_n_ok km addr n s R L Hspl (li_q _ _ _ _ _ Hl) (li_s _ _ _ _ _ Hl)
    (sleepers_in_memory s c R L Zs Ht)) as (a & q & -> & Hlist); [eapply fits_le; [done|lia|done]|].
  pose proof (wake_n_perm (saddr s) addr n L 0) as Hp.
  exists (relist a q s), (wake_n (saddr s) addr n 0 L).1, (wake_n (saddr s) addr n 0 L).2.
  split_and!; [done| |done|apply wake_n_prefix| |].
  - eapply tinv_relist; [done|exact Hlist|by rewrite <- (assoc_L (++)), Hp|].
    intros t Hin. rewrite <- Hp. set_solver.
  - intros (t & Hin & Hsa). by eapply wake_n_some.
  - intros Hall. by rewrite wake_n_all.
Qed.

Lemma thread_wakeup_n_wakes_witness :
  ∃ s' W L', thread_wakeup_n never 55 1 two = Ret s' ∧ tinv s' 100 ([200] ++ W) L' [] ∧ W ++ L' ≡ₚ [] ∧
    W `prefix_of` filter (λ t, saddr two t = 55) [] ∧
    ((∃ t, t ∈ ([] : list Z) ∧ saddr two t = 55) → W ≠ []) ∧
    ((∀ t, t ∈ ([] : list Z) → saddr two t = 55) → W = []).
Proof.
  apply (thread_wakeup_n_wakes never 55 1 two 100 [200] [] []); [apply two_tinv|reflexivity| |lia].
  split; [reflexivity|right; vm_compute; reflexivity].
Defined.

(** Two threads sleep on one address and nobody else sleeps: asked to wake one,
    thread_wakeup_n wakes both. *)
Definition three_sleeping : outcome tsys :=
  s1 ← texec ever [] (fork_call 200) boot1;
  s2 ← texec ever [] (fork_call 300) s1;
  s3 ← texec ever [] (TSleep 55) s2;
  s4 ← texec ever [] (TSplx SPL_HIGH) s3;
  s5 ← texec ever [] (TSleep 55) s4;
  texec ever [] (TSplx SPL_HIGH) s5.

(** A concrete run: after two threads have gone to sleep on address 55 and the third is
    running, thread_wakeup_n(55, 1), which cv_signal calls, makes both of them ready. *)
Example wakeup_one_wakes_both :
  (s ← three_sleeping; s' ← thread_wakeup_n ever 55 1 s;
   Ret (array_getnum (sleepers s), array_getnum (sleepers s'), curthread s')) = Ret (2, 0, 300).
Proof. vm_compute. reflexivity. Qed.

(** [C23] thread_fork is atomic: it either succeeds, and then the new thread is last in the ready
    list with its arguments and an extra reference on the inherited directory, and both the
    sleeper list and the run queue have as many cells as there are threads; or it returns
    ENOMEM, only when some allocation failed, and then no thread, no reference and no interrupt
    level has changed. *)
Theorem thread_fork_atomic km ok_t ok_n ok_s new stack data1 data2 func s c cth R L Zs :
  tinv s c R L Zs → threads s !! c = Some cth → threads s !! new = None → new ≠ NULL →
  len R + len L + 2 < 2 ^ 28 →
  let th := newborn stack data1 data2 func (t_cwd cth) in
  (∃ s', thread_fork km ok_t ok_n ok_s new stack data1 data2 func s = Ret (s', inr new) ∧
     forked s c R L Zs new th s') ∨
  (∃ s', thread_fork km ok_t ok_n ok_s new stack data1 data2 func s = Ret (s', inl ENOMEM) ∧
     not_forked s c R L Zs s' ∧ ¬ fork_mem km ok_t ok_n ok_s).
Proof. intros. by apply thread_fork_ok. Qed.

Lemma thread_fork_atomic_witness :
  let th := newborn 8192 1 2 3 NULL in
  (∃ s', thread_fork never true true true 300 8192 1 2 3 two = Ret (s', inr 300) ∧
     forked two 100 [200] [] [] 300 th s') ∨
  (∃ s', thread_fork never true true true 300 8192 1 2 3 two = Ret (s', inl ENOMEM) ∧
     not_forked two 100 [200] [] [] s' ∧ ¬ fork_mem never true true true).
Proof.
  apply (thread_fork_atomic never true true true 300 8192 1 2 3 two 100
    (Thread (Pcb 7 0 KNone) NULL NULL [] NULL NULL NULL) [200] [] []);
    [apply two_tinv|vm_compute; reflexivity|vm_compute; reflexivity|discriminate|simpl; lia].
Defined.

(** What the preallocation of thread_fork is for: as long as there are fewer threads than
    cells in the run queue (32 at boot), yielding, sleeping, waking and clock ticks go through
    even when kmalloc fails every time, and the preallocation stays in force. *)
Theorem preallocation_suffices s c R L Zs km irqs call :
  tinv s c R L Zs → preallocated s → numthreads s < q_size (runqueue s) → tenabled call s →
  match call with TFork _ _ _ _ _ _ _ _ | TExit => False | _ => True end →
  texec km irqs call s = Spin ∨ ∃ s' c' R' L' Zs',
    texec km irqs call s = Ret s' ∧ tinv s' c' R' L' Zs' ∧ preallocated s'.
Proof.
  intros Ht Hpre Hlt Hen Hcall. destruct (step_safe km irqs call s c R L Zs Ht Hen)
    as [[? _]|(s' & c' & R' & L' & Z' & ? & ? & ?)]; [by destruct call; simpl; auto|by left|].
  right. exists s', c', R', L', Z'. auto.
Qed.

Lemma preallocation_suffices_witness :
  texec never [IrqDevice 55] (TSleep 55) two = Spin ∨ ∃ s' c' R' L' Zs',
    texec never [IrqDevice 55] (TSleep 55) two = Ret s' ∧ tinv s' c' R' L' Zs' ∧ preallocated s'.
Proof.
  apply (preallocation_suffices two 100 [200] [] []); [apply two_tinv| | | |exact I].
  - split; vm_compute; discriminate.
  - vm_compute. reflexivity.
  - split; [vm_compute; reflexivity|split; vm_compute; reflexivity].
Defined.

(** Fork [n] threads with the addresses 200, 201, ... *)
Fixpoint fork_many (n : nat) (s : tsys) : outcome tsys :=
  match n with
  | O => Ret s
  | S m => s' ← fork_many m s; texec ever [] (fork_call (200 + Z.of_nat m)) s'
  end.

(** Where the preallocation falls short: with 32 threads, all ready, every thread_fork has
    succeeded in reserving room for 32, yet the ring of 32 cells holds 31, so that thread_yield
    needs memory and its assertion stops the machine when there is none.  And because exorcise
    empties the zombie list with array_setsize, which frees its storage once that has grown past
    16 cells, the room thread_fork reserved in it is gone after the next switch and thread_exit
    stops the machine in the same way. *)
Example preallocation_falls_short :
  (s ← fork_many 31 boot1; Ret (numthreads s, q_size (runqueue s))) = Ret (32, 32) ∧
  (s ← fork_many 31 boot1; thread_yield never [] s) = Panic ∧
  (s ← fork_many 16 boot1; s1 ← thread_yield ever [] s;
   s2 ← for_each 16 0 (λ _ t, thread_yield ever [] t) s1; 
   Ret (a_max (zombies s) >=? 17, a_max (zombies s2), numthreads s2)) = Ret (true, 0, 17) ∧
  (s ← fork_many 16 boot1; s1 ← for_each 17 0 (λ _ t, thread_yield ever [] t) s;
   thread_exit never [] s1) = Panic.
Proof. vm_compute. repeat split; reflexivity. Qed.
