(* ===== verification/Synch.v ===== *)
(** * kern/thread/synch.c: semaphores, locks and condition variables

    Each primitive runs with interrupts off, except where it sleeps and, in
    cv_wait, between the release of the lock and the call of thread_sleep.  A
    thread is therefore modelled by the code it has left to run, one
    instruction per uninterruptible stretch; the stretches inside a primitive
    that follow a sleep are instructions of their own.  The threads take turns:
    a timer interrupt may preempt the current one between instructions that
    start with interrupts on, and a device interrupt may do a V.

    Sleeping and waking are the abstract operations [wake] and [wake_n] of the
    thread system, which thread_wakeup and thread_wakeup_n implement. *)
From S2P Require Import Prelude.
From S2P Require Import Thread.
From S2P Require Import ThreadSpec.

Inductive instr :=
| CP (sem : Z)
| CPLoop (sem : Z)                  (* in P, back from thread_sleep *)
| CV (sem : Z)
| CAcquire (lock : Z)
| CAcquireLoop (lock : Z)           (* in lock_acquire, back from thread_sleep *)
| CRelease (lock : Z)
| CWait (cv lock : Z)
| CWaitSleep (cv lock : Z)          (* in cv_wait, after lock_release *)
| CWaitWoken (lock : Z)             (* in cv_wait, back from thread_sleep and splx *)
| CSignal (cv lock : Z)
| CBroadcast (cv lock : Z).

Record sstate := SState {
  ss_cur : option Z;                (* None: the processor idles *)
  ss_ready : list Z;
  ss_asleep : list Z;
  ss_addr : gmap Z Z;               (* t_sleepaddr *)
  ss_code : gmap Z (list instr);    (* what each thread has left to do *)
  ss_count : gmap Z Z;              (* the count of each semaphore *)
  ss_owner : gmap Z Z               (* myOwner of each lock *)
}.

Definition set_sched c r a x st :=
  SState c r a x (ss_code st) (ss_count st) (ss_owner st).
Definition set_code t k st :=
  SState (ss_cur st) (ss_ready st) (ss_asleep st) (ss_addr st) (<[t := k]> (ss_code st))
    (ss_count st) (ss_owner st).
Definition set_count sem n st :=
  SState (ss_cur st) (ss_ready st) (ss_asleep st) (ss_addr st) (ss_code st)
    (<[sem := n]> (ss_count st)) (ss_owner st).
Definition set_owner l t st :=
  SState (ss_cur st) (ss_ready st) (ss_asleep st) (ss_addr st) (ss_code st)
    (ss_count st) (<[l := t]> (ss_owner st)).

Definition count_of (st : sstate) (sem : Z) : Z := default 0 (ss_count st !! sem).
Definition owner_of (st : sstate) (l : Z) : Z := default NULL (ss_owner st !! l).
Definition addr_of (st : sstate) (t : Z) : Z := default NULL (ss_addr st !! t).

(** ** The thread system, abstractly *)

(** The head of the ready list gets the processor. *)
Definition dispatch (st : sstate) : sstate :=
  match ss_ready st with
  | [] => set_sched None [] (ss_asleep st) (ss_addr st) st
  | n :: r => set_sched (Some n) r (ss_asleep st) (ss_addr st) st
  end.

Definition s_sleep (t addr : Z) (st : sstate) : sstate :=
  dispatch (set_sched None (ss_ready st) (ss_asleep st ++ [t]) (<[t := addr]> (ss_addr st)) st).

Definition s_wakeup (addr : Z) (st : sstate) : sstate :=
  let '(r, a) := wake (addr_of st) addr (ss_ready st, ss_asleep st) in
  set_sched (ss_cur st) r a (ss_addr st) st.

Definition s_wakeup_n (addr n : Z) (st : sstate) : sstate :=
  let '(w, a) := wake_n (addr_of st) addr n 0 (ss_asleep st) in
  set_sched (ss_cur st) (ss_ready st ++ w) a (ss_addr st) st.

(** ** The primitives

    Each takes the thread that runs it and the code [k] that follows it, and
    returns the state and, when the primitive has taken effect, its event. *)

Inductive event :=
| EP (t sem : Z)
| EV (t sem : Z)
| EAcquire (t lock : Z)
| ERelease (t lock : Z).

Definition sem_create (ok_s ok_n : bool) (sem initial_count : Z) (st : sstate)
    : outcome (sstate * bool) :=
  c_assert (bool_decide (0 ≤ initial_count));;
  if ok_s && ok_n then Ret (set_count sem initial_count st, true) else Ret (st, false).

(** [in_interrupt] is the kernel's flag of that name. *)
Definition P (in_interrupt t sem : Z) (k : list instr) (st : sstate) : outcome (sstate * option event) :=
  c_assert (bool_decide (sem ≠ NULL));;
  c_assert (bool_decide (in_interrupt = 0));;
  if bool_decide (count_of st sem = 0) then
    Ret (s_sleep t sem (set_code t (CPLoop sem :: k) st), None)
  else
    c_assert (bool_decide (count_of st sem > 0));;
    Ret (set_count sem (count_of st sem - 1) (set_code t k st), Some (EP t sem)).

Definition V (t sem : Z) (st : sstate) : outcome (sstate * option event) :=
  c_assert (bool_decide (sem ≠ NULL));;
  let n := s32 (count_of st sem + 1) in
  c_assert (bool_decide (n > 0));;
  Ret (s_wakeup sem (set_count sem n st), Some (EV t sem)).

Definition sem_destroy (sem : Z) (st : sstate) : outcome sstate :=
  c_assert (bool_decide (sem ≠ NULL));;
  c_assert (forallb (λ t, negb (bool_decide (addr_of st t = sem))) (ss_asleep st));;
  Ret (SState (ss_cur st) (ss_ready st) (ss_asleep st) (ss_addr st) (ss_code st)
         (delete sem (ss_count st)) (ss_owner st)).

Definition lock_create (ok_l ok_n : bool) (l : Z) (st : sstate) : sstate * bool :=
  if ok_l && ok_n then (set_owner l NULL st, true) else (st, false).

Definition lock_destroy (l : Z) (st : sstate) : outcome sstate :=
  c_assert (bool_decide (l ≠ NULL));;
  c_assert (bool_decide (owner_of st l = NULL));;
  Ret (SState (ss_cur st) (ss_ready st) (ss_asleep st) (ss_addr st) (ss_code st)
         (ss_count st) (delete l (ss_owner st))).

Definition lock_do_i_hold (t l : Z) (st : sstate) : bool := bool_decide (t = owner_of st l).

Definition lock_acquire (t l : Z) (k : list instr) (st : sstate)
    : outcome (sstate * option event) :=
  c_assert (bool_decide (l ≠ NULL));;
  if bool_decide (owner_of st l ≠ NULL) then
    Ret (s_sleep t l (set_code t (CAcquireLoop l :: k) st), None)
  else Ret (set_owner l t (set_code t k st), Some (EAcquire t l)).

Definition lock_release (t l : Z) (st : sstate) : outcome (sstate * option event) :=
  c_assert (bool_decide (l ≠ NULL));;
  c_assert (lock_do_i_hold t l st);;
  Ret (s_wakeup l (set_owner l NULL st), Some (ERelease t l)).

Definition cv_wait (in_interrupt t cv l : Z) (k : list instr) (st : sstate)
    : outcome (sstate * option event) :=
  c_assert (bool_decide (cv ≠ NULL));;
  c_assert (bool_decide (l ≠ NULL));;
  c_assert (lock_do_i_hold t l st);;
  c_assert (bool_decide (in_interrupt = 0));;
  '(st', e) ← lock_release t l st;
  Ret (set_code t (CWaitSleep cv l :: k) st', e).

Definition cv_signal (t cv l : Z) (st : sstate) : outcome (sstate * option event) :=
  c_assert (bool_decide (cv ≠ NULL));;
  c_assert (bool_decide (l ≠ NULL));;
  c_assert (lock_do_i_hold t l st);;
  Ret (s_wakeup_n cv 1 st, None).

Definition cv_broadcast (t cv l : Z) (st : sstate) : outcome (sstate * option event) :=
  c_assert (bool_decide (cv ≠ NULL));;
  c_assert (bool_decide (l ≠ NULL));;
  c_assert (lock_do_i_hold t l st);;
  Ret (s_wakeup cv st, None).

(** ** Execution *)

(** The current thread runs the next stretch of its code, outside any interrupt
    handler; a thread without code is done and leaves. *)
Definition exec_instr (t : Z) (i : instr) (k : list instr) (st : sstate)
    : outcome (sstate * option event) :=
  match i with
  | CP sem | CPLoop sem => P 0 t sem k st
  | CV sem => V t sem (set_code t k st)
  | CAcquire l | CAcquireLoop l => lock_acquire t l k st
  | CRelease l => lock_release t l (set_code t k st)
  | CWait cv l => cv_wait 0 t cv l k st
  | CWaitSleep cv l => Ret (s_sleep t cv (set_code t (CWaitWoken l :: k) st), None)
  | CWaitWoken l => lock_acquire t l k st
  | CSignal cv l => cv_signal t cv l (set_code t k st)
  | CBroadcast cv l => cv_broadcast t cv l (set_code t k st)
  end.

Definition exec (st : sstate) : outcome (sstate * option event) :=
  match ss_cur st with
  | None => Ret (dispatch st, None)
  | Some t =>
      match ss_code st !! t with
      | Some (i :: k) => exec_instr t i k st
      | Some [] => Ret (dispatch st, None)
      | None => Wild
      end
  end.

(** Instructions that begin with interrupts on, where a thread can be preempted. *)
Definition interruptible (i : instr) : bool :=
  match i with CPLoop _ | CAcquireLoop _ => false | _ => true end.

Definition can_interrupt (st : sstate) : bool :=
  match ss_cur st with
  | None => true
  | Some t => match ss_code st !! t with
              | Some (i :: _) => interruptible i
              | _ => true
              end
  end.

(** The timer interrupt: hardclock calls thread_yield. *)
Definition preempt (st : sstate) : sstate :=
  match ss_cur st with
  | None => st
  | Some t => dispatch (set_sched None (ss_ready st ++ [t]) (ss_asleep st) (ss_addr st) st)
  end.

(** One step of the machine with the event it emits. *)
Inductive sstep : sstate → option event → sstate → Prop :=
| sstep_exec st st' e : exec st = Ret (st', e) → sstep st e st'
| sstep_timer st : can_interrupt st = true → sstep st None (preempt st)
| sstep_device st sem st' e : can_interrupt st = true → V NULL sem st = Ret (st', e) →
    sstep st e st'.

Definition oevent (e : option event) : list event := match e with Some x => [x] | None => [] end.

Inductive srun : sstate → list event → sstate → Prop :=
| srun_nil st : srun st [] st
| srun_snoc st es st' e st'' : srun st es st' → sstep st' e st'' → srun st (es ++ oevent e) st''.

(** ** The invariant *)

(** Which kind of object lives at an address. *)
Inductive okind := KSem | KLock | KCv.

Section invariant.
Context (kind : Z → okind).

Definition instr_ok (i : instr) : Prop :=
  match i with
  | CP s | CPLoop s | CV s => kind s = KSem
  | CAcquire l | CAcquireLoop l | CRelease l | CWaitWoken l => kind l = KLock
  | CWait c l | CWaitSleep c l | CSignal c l | CBroadcast c l => kind c = KCv ∧ kind l = KLock
  end.

(** A sleeping thread has a reason to: its semaphore is 0, its lock is taken,
    or it waits for a condition variable. *)
Definition blocked (st : sstate) (t : Z) : Prop :=
  match ss_code st !! t with
  | Some (CPLoop s :: _) => addr_of st t = s ∧ count_of st s = 0
  | Some (CAcquireLoop l :: _) => addr_of st t = l ∧ owner_of st l ≠ NULL
  | Some (CWaitWoken _ :: _) => kind (addr_of st t) = KCv
  | _ => False
  end.

Definition all_threads (st : sstate) : list Z := oconst (ss_cur st) ++ ss_ready st ++ ss_asleep st.

Definition code_ok (st : sstate) (t : Z) : Prop :=
  ∃ k, ss_code st !! t = Some k ∧ Forall instr_ok k.

Record sinv (st : sstate) : Prop := {
  si_nodup : NoDup (all_threads st);
  si_null : NULL ∉ all_threads st;
  si_code : ∀ t, t ∈ all_threads st → code_ok st t;
  si_count : ∀ s, 0 ≤ count_of st s < 2 ^ 31;
  si_asleep : ∀ t, t ∈ ss_asleep st → blocked st t
}.

Lemma NoDup_sub (l k : list Z) : NoDup k → l ⊆+ k → NoDup l.
Proof. intros Hk [k' Hp]%submseteq_Permutation. rewrite Hp in Hk. by apply NoDup_app in Hk as [? _]. Qed.

(** Scheduling changes that move threads about and leave the rest alone. *)
Lemma sinv_sched st c r a : sinv st → oconst c ++ r ++ a ⊆+ all_threads st →
  (∀ t, t ∈ a → t ∈ ss_asleep st) → sinv (set_sched c r a (ss_addr st) st).
Proof.
  intros [] Hsub Ha.
  assert (Hin : ∀ t, t ∈ oconst c ++ r ++ a → t ∈ all_threads st)
    by (intros t Ht; by eapply elem_of_submseteq).
  split; unfold all_threads; simpl; try done.
  - by eapply NoDup_sub.
  - intros H. by apply si_null0, Hin.
  - intros t H. by apply si_code0, Hin.
  - intros t Ht. by apply si_asleep0, Ha.
Qed.

Lemma dispatch_sinv st : sinv st → sinv (dispatch st).
Proof.
  intros H. unfold dispatch. destruct (ss_ready st) as [|n r] eqn:E; apply sinv_sched; try done;
    unfold all_threads; rewrite E; simpl; by apply submseteq_inserts_l.
Qed.

Lemma cur_not_asleep st t : sinv st → ss_cur st = Some t → (t ∉ ss_asleep st) ∧ t ≠ NULL.
Proof.
  intros Hi Hc. pose proof (si_nodup _ Hi) as Hnd. pose proof (si_null _ Hi) as Hnull.
  unfold all_threads in *. rewrite Hc in *. simpl in *. apply NoDup_cons in Hnd as [? _].
  split; [set_solver|]. intros ->. set_solver.
Qed.

Lemma sinv_set_code st t k : sinv st → ss_cur st = Some t → Forall instr_ok k →
  sinv (set_code t k st).
Proof.
  intros Hi Hc Hk. destruct (cur_not_asleep st t Hi Hc) as [Hna _]. destruct Hi.
  split; try done.
  - intros u Hu. unfold code_ok. simpl. destruct (decide (u = t)) as [->|].
    + rewrite lookup_insert_eq. eauto.
    + rewrite lookup_insert_ne by done. by apply si_code0.
  - intros u Hu. specialize (si_asleep0 u Hu). unfold blocked in *. simpl.
    by rewrite lookup_insert_ne by set_solver.
Qed.

(** A thread may go to sleep when it has a reason to. *)
Lemma s_sleep_sinv st t addr : sinv st → ss_cur st = Some t →
  (∀ st', ss_code st' = ss_code st → ss_count st' = ss_count st → ss_owner st' = ss_owner st →
     addr_of st' t = addr → blocked st' t) →
  sinv (s_sleep t addr st).
Proof.
  intros Hi Hc Hb. destruct (cur_not_asleep st t Hi Hc) as [Hna _]. unfold s_sleep.
  apply dispatch_sinv. destruct Hi. unfold all_threads in *. rewrite Hc in *. simpl in *.
  assert (Hp : ss_ready st ++ ss_asleep st ++ [t] ≡ₚ t :: ss_ready st ++ ss_asleep st)
    by solve_Permutation.
  split; unfold all_threads; simpl; try done.
  - by rewrite Hp.
  - by rewrite Hp.
  - intros u. rewrite Hp. apply si_code0.
  - intros u [Hu| ->%list_elem_of_singleton]%elem_of_app.
    + specialize (si_asleep0 u Hu). unfold blocked, addr_of in *. simpl.
      by rewrite lookup_insert_ne by set_solver.
    + apply Hb; try done. unfold addr_of. simpl. by rewrite lookup_insert_eq.
Qed.

Lemma wake_submseteq st addr :
  oconst (ss_cur st) ++ (wake (addr_of st) addr (ss_ready st, ss_asleep st)).1 ++
    (wake (addr_of st) addr (ss_ready st, ss_asleep st)).2 ⊆+ all_threads st.
Proof. by rewrite wake_perm. Qed.

(** Changing one semaphore or one lock is harmless once those who slept on it are awake. *)
Lemma sinv_objects st st' addr : sinv st →
  (ss_cur st', ss_ready st', ss_addr st', ss_code st')
  = (ss_cur st, ss_ready st, ss_addr st, ss_code st) → ss_asleep st' = ss_asleep st →
  (∀ s, 0 ≤ count_of st' s < 2 ^ 31) →
  (∀ s, s ≠ addr → count_of st' s = count_of st s) →
  (∀ l, l ≠ addr → owner_of st' l = owner_of st l) →
  sinv (s_wakeup addr st').
Proof.
  intros Hi Heq Ha Hc Hcount Howner. injection Heq as Hcur Hready Haddr Hcode.
  assert (Haddr' : addr_of st' = addr_of st) by (unfold addr_of; by rewrite Haddr).
  pose proof (wake_submseteq st addr) as Hsub. unfold s_wakeup. rewrite Haddr', Ha, Hready, Hcur.
  set (p := wake _ _ _) in *. destruct p as [r a] eqn:E. subst p.
  assert (Hwa : ∀ t, t ∈ a → t ∈ ss_asleep st ∧ addr_of st t ≠ addr).
  { intros t Ht. injection E as _ <-. apply list_elem_of_filter in Ht. tauto. }
  destruct Hi.
  assert (Hin : ∀ t, t ∈ oconst (ss_cur st) ++ r ++ a → t ∈ all_threads st)
    by (intros t Ht; by eapply elem_of_submseteq).
  split; unfold all_threads; simpl; try done.
  - by eapply NoDup_sub.
  - intros H. by apply si_null0, Hin.
  - intros t H. destruct (si_code0 t) as (k & ? & ?); [by apply Hin|]. exists k. simpl. split; congruence.
  - intros t Ht. destruct (Hwa t Ht) as [Ht' Hne]. specialize (si_asleep0 t Ht').
    unfold blocked, addr_of, count_of, owner_of in *. simpl. rewrite Hcode, Haddr.
    destruct (ss_code st !! t) as [[|[]]|]; try done; destruct si_asleep0 as [Hx Hy]; split; try done;
      rewrite <- Hx in *; rewrite ?Hcount, ?Howner by done; done.
Qed.

(** ** Events *)

(** The effect of an event on a semaphore's count and on a lock's owner. *)
Definition ev_count (e : option event) (s : Z) : Z :=
  match e with
  | Some (EV _ s') => if decide (s = s') then 1 else 0
  | Some (EP _ s') => if decide (s = s') then -1 else 0
  | _ => 0
  end.

Definition ev_owner (e : option event) (l o : Z) : Z :=
  match e with
  | Some (EAcquire t l') => if decide (l = l') then t else o
  | Some (ERelease _ l') => if decide (l = l') then NULL else o
  | _ => o
  end.

(** A lock is acquired only when nobody holds it, and released only by its holder. *)
Definition ev_legal (owner : Z → Z) (e : option event) : Prop :=
  match e with
  | Some (EAcquire t l) => owner l = NULL ∧ t ≠ NULL
  | Some (ERelease t l) => owner l = t ∧ t ≠ NULL
  | _ => True
  end.

Definition step_ok (st : sstate) (e : option event) (st' : sstate) : Prop :=
  sinv st' ∧ (∀ s, count_of st' s = count_of st s + ev_count e s) ∧
  (∀ l, owner_of st' l = ev_owner e l (owner_of st l)) ∧ ev_legal (owner_of st) e.

(** Scheduling does not touch the objects. *)
Definition same_objects (st st' : sstate) : Prop :=
  ss_count st' = ss_count st ∧ ss_owner st' = ss_owner st.

Lemma step_ok_silent st st' : sinv st' → same_objects st st' → step_ok st None st'.
Proof.
  intros Hi [Hc Ho]. split_and!; [done|..|done]; intros x; unfold count_of, owner_of; simpl.
  - rewrite Hc. lia.
  - by rewrite Ho.
Qed.

Lemma same_dispatch st : same_objects st (dispatch st).
Proof. unfold dispatch. by destruct (ss_ready st). Qed.

Lemma same_sleep st t a k : same_objects st (s_sleep t a (set_code t k st)).
Proof. unfold s_sleep, dispatch. simpl. by destruct (ss_ready st). Qed.

Lemma count_set st s n x : count_of (set_count s n st) x = if decide (x = s) then n else count_of st x.
Proof.
  unfold count_of. simpl. case_decide; [subst; by rewrite lookup_insert_eq|by rewrite lookup_insert_ne].
Qed.

Lemma owner_set st l o x : owner_of (set_owner l o st) x = if decide (x = l) then o else owner_of st x.
Proof.
  unfold owner_of. simpl. case_decide; [subst; by rewrite lookup_insert_eq|by rewrite lookup_insert_ne].
Qed.

Lemma count_wakeup a st x : count_of (s_wakeup a st) x = count_of st x.
Proof. done. Qed.
Lemma owner_wakeup a st x : owner_of (s_wakeup a st) x = owner_of st x.
Proof. done. Qed.

(** Is it the object that changed? *)
Ltac ocase :=
  repeat match goal with |- context [decide (?x = ?y)] => destruct (decide (x = y)); subst end.

Section primitives.
Context (st : sstate) (t : Z) (k : list instr).
Context (Hi : sinv st) (Hcur : ss_cur st = Some t) (Hk : Forall instr_ok k).

Lemma P_ok sem st' e : kind sem = KSem → P 0 t sem k st = Ret (st', e) → step_ok st e st'.
Proof.
  intros Hsem Hrun. unfold P in Hrun. ret_inv. case_bool_decide as Hz; ret_inv; simplify_eq.
  - apply step_ok_silent; [|apply same_sleep]. apply s_sleep_sinv; [|done|].
    + apply sinv_set_code; [done..|]. by constructor.
    + intros st' Hc Hn _ Ha. unfold blocked. rewrite Hc. simpl. rewrite lookup_insert_eq.
      split; [done|]. unfold count_of. by rewrite Hn.
  - cbool. pose proof (sinv_set_code st t k Hi Hcur Hk) as Hi'. pose proof (si_count _ Hi sem) as Hb.
    split_and!; [|..|done]; [destruct Hi'; split; try done|intros x..].
    + intros x. rewrite count_set. ocase; [lia|apply si_count0].
    + intros u Hu. specialize (si_asleep0 u Hu). unfold blocked in *. simpl in *.
      destruct (<[t:=k]> (ss_code st) !! u) as [[|[]]|]; try done.
      destruct si_asleep0 as [Hx Hy]. split; [done|]. rewrite count_set.
      change (count_of (set_code t k st)) with (count_of st) in *.
      ocase; [congruence|done].
    + rewrite count_set. change (count_of (set_code t k st)) with (count_of st). simpl.
      ocase; lia.
    + done.
Qed.

Lemma acquire_ok l st' e : kind l = KLock → lock_acquire t l k st = Ret (st', e) → step_ok st e st'.
Proof.
  intros Hl Hrun. unfold lock_acquire in Hrun. ret_inv. case_bool_decide as Ho; ret_inv; simplify_eq.
  - apply step_ok_silent; [|apply same_sleep]. apply s_sleep_sinv; [|done|].
    + apply sinv_set_code; [done..|]. by constructor.
    + intros st' Hc _ Hw Ha. unfold blocked. rewrite Hc. simpl. rewrite lookup_insert_eq.
      split; [done|]. unfold owner_of. by rewrite Hw.
  - destruct (cur_not_asleep st t Hi Hcur) as [_ Hnn].
    pose proof (sinv_set_code st t k Hi Hcur Hk) as Hi'. split_and!; [|intros x..|split; [|done]].
    + destruct Hi'. split; try done. intros u Hu. specialize (si_asleep0 u Hu). unfold blocked in *. simpl in *.
      destruct (<[t:=k]> (ss_code st) !! u) as [[|[]]|]; try done.
      destruct si_asleep0 as [Hx Hy]. split; [done|]. rewrite owner_set. by ocase.
    + change (count_of (set_owner l t (set_code t k st)) x) with (count_of st x). simpl. lia.
    + rewrite owner_set. simpl. by ocase.
    + destruct (decide (owner_of st l = NULL)); tauto.
Qed.

End primitives.

Lemma V_ok u sem st1 st' e : sinv st1 → V u sem st1 = Ret (st', e) → step_ok st1 e st'.
Proof.
  intros Hi1 Hrun. unfold V in Hrun. ret_inv. simplify_eq. cbool.
  pose proof (si_count _ Hi1 sem) as Hb.
  assert (Hs : s32 (count_of st1 sem + 1) = count_of st1 sem + 1 ∧ count_of st1 sem + 1 < 2 ^ 31).
  { destruct (decide (count_of st1 sem + 1 < 2 ^ 31)) as [|Hge]; [split; [apply s32_small; lia|done]|].
    assert (Hc : count_of st1 sem = 2 ^ 31 - 1) by lia. rewrite Hc in *. vm_compute in E0. done. }
  destruct Hs as [Hs Hlt]. rewrite Hs in *. split_and!; [|intros x..|done].
  - apply (sinv_objects st1); try done.
    + intros s. rewrite count_set. ocase; [lia|apply Hi1].
    + intros s Hne. by rewrite count_set, decide_False.
  - rewrite count_wakeup, count_set. simpl. ocase; lia.
  - done.
Qed.

Lemma release_ok t l st1 st' e : sinv st1 → ss_cur st1 = Some t → kind l = KLock →
  lock_release t l st1 = Ret (st', e) → step_ok st1 e st' ∧ ss_cur st' = Some t.
Proof.
  intros Hi1 Hc1 Hl Hrun. unfold lock_release in Hrun. ret_inv. simplify_eq. unfold lock_do_i_hold in *. cbool.
  destruct (cur_not_asleep st1 t Hi1 Hc1) as [_ Hnn]. split; [|done].
  split_and!; [|intros x..|by split].
  - apply (sinv_objects st1); try done; [apply Hi1|]. intros x Hne. by rewrite owner_set, decide_False.
  - rewrite count_wakeup. change (count_of (set_owner l NULL st1) x) with (count_of st1 x). simpl. lia.
  - rewrite owner_wakeup, owner_set. simpl. by ocase.
Qed.

Lemma wakeup_ok a st1 : sinv st1 → step_ok st1 None (s_wakeup a st1).
Proof. intros Hi1. apply step_ok_silent; [|done]. by apply (sinv_objects st1); try done; apply Hi1. Qed.

Lemma wakeup_n_sinv a n st1 : sinv st1 → step_ok st1 None (s_wakeup_n a n st1).
Proof.
  intros Hi1. unfold s_wakeup_n. pose proof (wake_n_perm (addr_of st1) a n (ss_asleep st1) 0) as Hp.
  destruct (wake_n _ _ _ _ _) as [w r]. simpl in Hp. apply step_ok_silent; [|done].
  apply sinv_sched; [done| |].
  - unfold all_threads. by rewrite <- (assoc_L (++) (ss_ready st1)), Hp.
  - intros u Hu. rewrite <- Hp. set_solver.
Qed.

Lemma exec_instr_ok st t i k st' e : sinv st → ss_cur st = Some t → Forall instr_ok (i :: k) →
  exec_instr t i k st = Ret (st', e) → step_ok st e st'.
Proof.
  intros Hi Hc Hik Hrun. apply Forall_cons in Hik as [Hok Hk].
  pose proof (sinv_set_code st t k Hi Hc Hk) as Hi'.
  destruct i as [s|s|s|l|l|l|cv l|cv l|l|cv l|cv l]; simpl in *.
  - by eapply P_ok.
  - by eapply P_ok.
  - by apply V_ok in Hrun.
  - by eapply acquire_ok.
  - by eapply acquire_ok.
  - by apply release_ok in Hrun as [? _].
  - unfold cv_wait in Hrun. ret_inv. destruct a3 as [st1 e1]. simplify_eq.
    apply release_ok in E3 as [(Hi1 & ? & ? & ?) Hc1]; [|tauto..]. split_and!; try done.
    apply sinv_set_code; [done..|]. by constructor.
  - simplify_eq. apply step_ok_silent; [|apply same_sleep]. apply s_sleep_sinv; [|done|].
    + apply sinv_set_code; [done..|]. constructor; [simpl; tauto|done].
    + intros st1 H1 _ _ Ha. unfold blocked. rewrite H1. simpl. rewrite lookup_insert_eq, Ha. tauto.
  - by eapply acquire_ok.
  - unfold cv_signal in Hrun. ret_inv. simplify_eq. by apply (wakeup_n_sinv cv 1 (set_code t k st)).
  - unfold cv_broadcast in Hrun. ret_inv. simplify_eq. by apply (wakeup_ok cv (set_code t k st)).
Qed.

Lemma preempt_sinv st : sinv st → sinv (preempt st).
Proof.
  intros Hi. unfold preempt. destruct (ss_cur st) as [t|] eqn:Hc; [|done].
  apply dispatch_sinv, sinv_sched; [done| |done]. unfold all_threads. rewrite Hc. simpl.
  apply Permutation_submseteq. solve_Permutation.
Qed.

Lemma same_preempt st : same_objects st (preempt st).
Proof. unfold preempt, dispatch. destruct (ss_cur st); [simpl; by destruct (ss_ready st)|done]. Qed.

Lemma sstep_ok st e st' : sinv st → sstep st e st' → step_ok st e st'.
Proof.
  intros Hi Hs. destruct Hs as [st st' e Hrun|st Hint|st sem st' e Hint Hrun].
  - unfold exec in Hrun. destruct (ss_cur st) as [t|] eqn:Hc.
    2: { simplify_eq. apply step_ok_silent; [by apply dispatch_sinv|apply same_dispatch]. }
    destruct (si_code _ Hi t) as (k & Hk & Hok); [unfold all_threads; rewrite Hc; set_solver|].
    rewrite Hk in Hrun. destruct k as [|i k].
    + simplify_eq. apply step_ok_silent; [by apply dispatch_sinv|apply same_dispatch].
    + by eapply exec_instr_ok.
  - apply step_ok_silent; [by apply preempt_sinv|apply same_preempt].
  - by apply V_ok in Hrun.
Qed.

(** ** Runs *)

Lemma srun_sinv st es st' : srun st es st' → sinv st → sinv st'.
Proof. induction 1 as [|st es st1 e st2 _ IH Hs]; [done|]. intros Hi. by apply (sstep_ok st1 e st2); auto. Qed.
End invariant.

(** How often P and V on [s] have taken effect. *)
Definition is_P (s : Z) (e : event) : bool :=
  match e with EP _ s' => bool_decide (s = s') | _ => false end.
Definition is_V (s : Z) (e : event) : bool :=
  match e with EV _ s' => bool_decide (s = s') | _ => false end.
Definition count_P (s : Z) (es : list event) : Z := len (List.filter (is_P s) es).
Definition count_V (s : Z) (es : list event) : Z := len (List.filter (is_V s) es).

Lemma count_oevent s e : count_V s (oevent e) - count_P s (oevent e) = ev_count e s.
Proof.
  destruct e as [[]|]; try done; unfold count_V, count_P; simpl; repeat case_bool_decide; case_decide; done.
Qed.

Lemma count_app s es es' : count_P s (es ++ es') = count_P s es + count_P s es' ∧
  count_V s (es ++ es') = count_V s es + count_V s es'.
Proof. unfold count_P, count_V. rewrite !List.filter_app, !length_app. lia. Qed.

(** The holder of a lock according to the events, [None] when an event breaks
    mutual exclusion: an acquisition while the lock is held, or a release by
    another thread. *)
Definition hold (l : Z) (h : option Z) (e : event) : option Z :=
  match h, e with
  | None, _ => None
  | Some o, EAcquire t l' =>
      if decide (l = l') then if decide (o = NULL ∧ t ≠ NULL) then Some t else None else Some o
  | Some o, ERelease t l' =>
      if decide (l = l') then if decide (o = t ∧ t ≠ NULL) then Some NULL else None else Some o
  | Some o, _ => Some o
  end.

Definition holder (l o : Z) (es : list event) : option Z := foldl (hold l) (Some o) es.

Lemma hold_oevent l e (owner : Z → Z) : ev_legal owner e →
  foldl (hold l) (Some (owner l)) (oevent e) = Some (ev_owner e l (owner l)).
Proof.
  destruct e as [[]|]; simpl; intros H; try done; (case_decide; [subst|done]); by rewrite decide_True by tauto.
Qed.

(** ** A waiter that a signal has missed *)

Definition wakes (cv : Z) (i : instr) : Prop :=
  match i with CSignal c _ | CBroadcast c _ => c = cv | _ => False end.

Definition runnable (st : sstate) : list Z := oconst (ss_cur st) ++ ss_ready st.

(** Thread [w] is in cv_wait, on its way to sleep or asleep. *)
Definition waiting (cv w l : Z) (k : list instr) (st : sstate) : Prop :=
  (w ∈ runnable st ∧ ss_code st !! w = Some (CWaitSleep cv l :: k)) ∨
  (w ∈ ss_asleep st ∧ addr_of st w = cv ∧ ss_code st !! w = Some (CWaitWoken l :: k)).

(** Nobody but [w] has a signal of [cv] left to send. *)
Definition no_signaller (cv w : Z) (st : sstate) : Prop :=
  ∀ t c, t ≠ w → ss_code st !! t = Some c → Forall (λ i, ¬ wakes cv i) c.

Section missed.
Context (cv w : Z).

(** [w] stays where it is. *)
Definition undisturbed (st st' : sstate) : Prop :=
  ss_code st' !! w = ss_code st !! w ∧
  (w ∈ runnable st → w ∈ runnable st') ∧
  (w ∈ ss_asleep st → addr_of st w = cv → w ∈ ss_asleep st' ∧ addr_of st' w = cv).

Lemma undisturbed_trans st1 st2 st3 : undisturbed st1 st2 → undisturbed st2 st3 → undisturbed st1 st3.
Proof. intros (H1 & H2 & H3) (H4 & H5 & H6). split_and!; [congruence|auto|]. intros Ha Hb. destruct (H3 Ha Hb). auto. Qed.

Lemma undisturbed_waiting l k st st' : undisturbed st st' → waiting cv w l k st → waiting cv w l k st'.
Proof. intros (Hc & Hr & Ha) [[? ?]|(? & ? & ?)]; [left|right]; rewrite Hc; [auto|]. split_and!; [apply Ha..|]; done. Qed.

Lemma undisturbed_dispatch st : ss_cur st ≠ Some w → undisturbed st (dispatch st).
Proof.
  intros Hc. unfold undisturbed, runnable, dispatch. split_and!; [by destruct (ss_ready st)| |].
  - destruct (ss_cur st), (ss_ready st); simpl; set_solver.
  - by destruct (ss_ready st).
Qed.

Lemma undisturbed_sleep t a st : t ≠ w → ss_cur st = Some t → undisturbed st (s_sleep t a st).
Proof.
  intros Ht Hc. unfold s_sleep. eapply undisturbed_trans; [|by apply undisturbed_dispatch].
  unfold undisturbed, runnable, addr_of. simpl. rewrite Hc, lookup_insert_ne by done. set_solver.
Qed.

Lemma undisturbed_wakeup a st : a ≠ cv → undisturbed st (s_wakeup a st).
Proof.
  intros Ha. unfold undisturbed, runnable, s_wakeup. simpl. split_and!; [done|set_solver|].
  intros Hw Hx. split; [|done]. apply list_elem_of_filter. split; [congruence|done].
Qed.

Lemma wake_n_others sa a n L x : ∀ j, x ∈ L → sa x ≠ a → x ∈ (wake_n sa a n j L).2.
Proof.
  induction L as [|y L IH]; intros j Hx Hne; [by apply not_elem_of_nil in Hx|]. simpl.
  apply elem_of_cons in Hx. repeat case_bool_decide.
  - destruct Hx as [->|?]; [done|done].
  - destruct Hx as [->|Hx]; [done|]. specialize (IH j Hx Hne). by destruct (wake_n sa a n j L).
  - destruct (wake_n sa a n (j + 1) L) eqn:E. destruct Hx as [->|Hx]; [by left|right].
    specialize (IH (j + 1) Hx Hne). by rewrite E in IH.
Qed.

Lemma undisturbed_wakeup_n a n st : a ≠ cv → undisturbed st (s_wakeup_n a n st).
Proof.
  intros Ha. unfold undisturbed, runnable, s_wakeup_n.
  pose proof (wake_n_others (addr_of st) a n (ss_asleep st) w 0) as Hw.
  destruct (wake_n _ _ _ _ _) as [x y]. simpl in *. split_and!; [done|set_solver|].
  intros ? ?. split; [apply Hw; congruence|done].
Qed.

Lemma undisturbed_set_code t c st : t ≠ w → undisturbed st (set_code t c st).
Proof. intros Ht. split; [by apply lookup_insert_ne|done]. Qed.

Lemma undisturbed_preempt st : undisturbed st (preempt st).
Proof.
  unfold preempt. destruct (ss_cur st) as [t|] eqn:Hc; [|done].
  eapply undisturbed_trans; [|by apply undisturbed_dispatch].
  unfold undisturbed, runnable. simpl. rewrite Hc. set_solver.
Qed.

Lemma undisturbed_V t sem st st' e : V t sem st = Ret (st', e) → sem ≠ cv → undisturbed st st'.
Proof.
  intros Hr Hs. unfold V in Hr. ret_inv. simplify_eq.
  eapply undisturbed_trans; [|by apply undisturbed_wakeup]. done.
Qed.

Lemma undisturbed_release t l st st' e : lock_release t l st = Ret (st', e) → l ≠ cv → undisturbed st st'.
Proof.
  intros Hr Hs. unfold lock_release in Hr. ret_inv. simplify_eq.
  eapply undisturbed_trans; [|by apply undisturbed_wakeup]. done.
Qed.

(** The code a thread has left after one of its instructions: what followed, or that and the
    rest of the primitive. *)
Lemma exec_instr_code t i k st st' e : exec_instr t i k st = Ret (st', e) →
  ∃ c, ss_code st' = <[t := c]> (ss_code st) ∧ (c = k ∨ ∃ j, c = j :: k ∧ ¬ wakes cv j).
Proof.
  assert (Hd : ∀ s, ss_code (dispatch s) = ss_code s) by (intros s; unfold dispatch; by destruct (ss_ready s)).
  intros Hr. destruct i as [s|s|s|l|l|l|c l|c l|l|c l|c l]; simpl in Hr;
    unfold P, V, lock_acquire, cv_wait, cv_signal, cv_broadcast, lock_release, s_sleep in Hr; ret_inv;
    try (case_bool_decide; ret_inv); try (destruct a3; simplify_eq); simplify_eq; unfold s_wakeup_n;
    try (destruct (wake_n _ _ _ _ _)); eexists; rewrite ?Hd; (split; [simpl; reflexivity|]); eauto 10.
Qed.

Lemma exec_instr_undisturbed kind t i k st st' e : instr_ok kind i → kind cv = KCv → ¬ wakes cv i → t ≠ w →
  ss_cur st = Some t → exec_instr t i k st = Ret (st', e) → undisturbed st st'.
Proof.
  intros Hok Hcv Hq Ht Hc Hr. pose proof (undisturbed_set_code t k st Ht) as Hk.
  assert (Hsl : ∀ a c, undisturbed st (s_sleep t a (set_code t c st))).
  { intros a c. eapply undisturbed_trans; [by apply undisturbed_set_code|by apply undisturbed_sleep]. }
  assert (Hnc : ∀ s, kind s ≠ KCv → s ≠ cv) by congruence.
  destruct i as [s|s|s|l|l|l|c l|c l|l|c l|c l]; simpl in *; unfold P, lock_acquire, cv_wait, cv_signal, cv_broadcast in Hr.
  1,2,4,5,8,9: ret_inv; try (case_bool_decide; ret_inv); by simplify_eq.
  - eapply undisturbed_trans; [exact Hk|]. eapply undisturbed_V; [done|]. apply Hnc. by rewrite Hok.
  - eapply undisturbed_trans; [exact Hk|]. eapply undisturbed_release; [done|]. apply Hnc. by rewrite Hok.
  - ret_inv. destruct a3. simplify_eq. destruct Hok as [_ Hl].
    eapply undisturbed_trans; [eapply undisturbed_release; [done|]; apply Hnc; by rewrite Hl|by apply undisturbed_set_code].
  - ret_inv. simplify_eq. eapply undisturbed_trans; [exact Hk|by apply undisturbed_wakeup_n].
  - ret_inv. simplify_eq. eapply undisturbed_trans; [exact Hk|by apply undisturbed_wakeup].
Qed.

Lemma no_signaller_update st st' t c : no_signaller cv w st → ss_code st' = <[t := c]> (ss_code st) →
  (t ≠ w → Forall (λ i, ¬ wakes cv i) c) → no_signaller cv w st'.
Proof.
  intros Hq Hc Hk u x Hu. rewrite Hc. destruct (decide (u = t)) as [->|].
  - rewrite lookup_insert_eq. intros [= <-]. auto.
  - rewrite lookup_insert_ne by done. by apply Hq.
Qed.

Lemma exec_missed kind l k st st' e : sinv kind st → kind cv = KCv → waiting cv w l k st → no_signaller cv w st →
  exec st = Ret (st', e) → waiting cv w l k st' ∧ no_signaller cv w st'.
Proof.
  intros Hi Hcv Hw Hq Hr. unfold exec in Hr. destruct (ss_cur st) as [t|] eqn:Hc.
  2: { simplify_eq. split; [eapply undisturbed_waiting; [apply undisturbed_dispatch; congruence|done]|].
       intros u c. unfold dispatch. destruct (ss_ready st); apply Hq. }
  destruct (si_code _ _ Hi t) as (c & Hk & Hok); [unfold all_threads; rewrite Hc; set_solver|]. rewrite Hk in Hr.
  destruct (decide (t = w)) as [->|Ht].
  - destruct (cur_not_asleep kind st w Hi Hc) as [Hna _]. destruct Hw as [[_ Hcode]|[? _]]; [|done].
    rewrite Hcode in Hk. simplify_eq. simpl in Hr. simplify_eq. split.
    + right. unfold s_sleep, dispatch, addr_of. simpl.
      destruct (ss_ready st); simpl; rewrite !lookup_insert_eq; set_solver.
    + eapply (no_signaller_update st _ w (CWaitWoken l :: k)); [done| |done]. unfold s_sleep, dispatch. simpl.
      by destruct (ss_ready st).
  - destruct c as [|i c]; [simplify_eq|].
    + split; [eapply undisturbed_waiting; [apply undisturbed_dispatch; congruence|done]|].
      intros u x. unfold dispatch. destruct (ss_ready st); apply Hq.
    + apply Forall_cons in Hok as [Hok _]. pose proof (Hq t _ Ht Hk) as Hn. apply Forall_cons in Hn as [Hn Hns]. split.
      * eapply undisturbed_waiting; [|done]. by eapply exec_instr_undisturbed.
      * destruct (exec_instr_code t i c st st' e Hr) as (c' & Hc' & Hcase). eapply no_signaller_update; [done..|].
        intros _. destruct Hcase as [->|(j & -> & Hj)]; [done|by constructor].
Qed.

Lemma sstep_missed kind l k st e st' : sinv kind st → kind cv = KCv → (∀ t, e ≠ Some (EV t cv)) →
  waiting cv w l k st ∧ no_signaller cv w st → sstep st e st' → waiting cv w l k st' ∧ no_signaller cv w st'.
Proof.
  intros Hi Hcv He [Hw Hq] Hs. destruct Hs as [st st' e Hr|st Hint|st sem st' e Hint Hr].
  - by eapply exec_missed.
  - split; [eapply undisturbed_waiting; [apply undisturbed_preempt|done]|].
    intros u c. unfold preempt, dispatch. destruct (ss_cur st); [simpl; destruct (ss_ready st ++ _)|]; apply Hq.
  - assert (Hne : sem ≠ cv) by (intros ->; unfold V in Hr; ret_inv; simplify_eq; by eapply He).
    split; [eapply undisturbed_waiting; [by eapply undisturbed_V|done]|].
    unfold V in Hr. ret_inv. by simplify_eq.
Qed.

Lemma srun_missed kind l k st es st' : srun st es st' → sinv kind st → kind cv = KCv → (∀ t, EV t cv ∉ es) →
  waiting cv w l k st ∧ no_signaller cv w st → waiting cv w l k st'.
Proof.
  intros Hr Hi Hcv Hes Hw. enough (waiting cv w l k st' ∧ no_signaller cv w st') by tauto.
  induction Hr as [|st es st1 e st2 Hr IH Hs]; [done|].
  eapply sstep_missed; [by eapply srun_sinv|done| |apply IH; [done| |done]|done].
  - intros t ->. apply (Hes t). set_solver.
  - intros t Ht. apply (Hes t). set_solver.
Qed.
End missed.

(** The first thread asleep on an address is among those woken. *)
Lemma wake_n_first sa a n x b : ∀ L j, (∀ y, y ∈ L → sa y ≠ a) → sa x = a → x ∈ (wake_n sa a n j (L ++ x :: b)).1.
Proof.
  induction L as [|y L IH]; intros j HL Hx; simpl.
  - rewrite bool_decide_eq_true_2 by done. case_bool_decide; [by left|].
    destruct (wake_n sa a n j b). by left.
  - rewrite bool_decide_eq_false_2 by (apply HL; by left).
    specialize (IH (j + 1)). destruct (wake_n sa a n (j + 1) _). apply IH; [|done]. intros z Hz. apply HL. by right.
Qed.

(** A signal reaches the sleepers only: the thread that runs it, and every thread not yet asleep,
    stay where they are. *)
Lemma signal_effect st u i c cv l' st1 e : ss_cur st = Some u → ss_code st !! u = Some (i :: c) →
  i = CSignal cv l' ∨ i = CBroadcast cv l' → exec st = Ret (st1, e) →
  ss_code st1 = <[u := c]> (ss_code st) ∧ ss_cur st1 = Some u ∧ (∀ t, t ∈ ss_ready st → t ∈ ss_ready st1) ∧
  (∀ t a b, ss_asleep st = a ++ t :: b → addr_of st t = cv → (∀ x, x ∈ a → addr_of st x ≠ cv) ∨ i = CBroadcast cv l' →
     t ∈ ss_ready st1).
Proof.
  intros Hc Hk Hi Hr. unfold exec in Hr. rewrite Hc, Hk in Hr.
  destruct Hi as [-> | ->]; simpl in Hr; unfold cv_signal, cv_broadcast in Hr; ret_inv; simplify_eq.
  - unfold s_wakeup_n. simpl.
    pose proof (λ x b L, wake_n_first (addr_of st) cv 1 x b L 0) as Hf.
    change (addr_of (set_code u c st)) with (addr_of st).
    destruct (wake_n _ _ _ _ _) as [x y] eqn:Ew. simpl in *. split_and!; [done|done|set_solver|].
    intros t p q Ha Ht [Hx|?]; [|done]. specialize (Hf t q p Hx Ht). rewrite <- Ha, Ew in Hf. set_solver.
  - simpl. split_and!; [done|done|set_solver|]. intros t p q Ha Ht _. apply elem_of_app. right.
    apply list_elem_of_filter. split; [done|]. rewrite Ha. set_solver.
Qed.

(** ** Playing a schedule *)

Inductive move := MExec | MTimer | MDevice (sem : Z).

Definition do_move (m : move) (st : sstate) : outcome (sstate * option event) :=
  match m with
  | MExec => exec st
  | MTimer => if can_interrupt st then Ret (preempt st, None) else Spin
  | MDevice sem => if can_interrupt st then V NULL sem st else Spin
  end.

Definition do_moves (ms : list move) (st : sstate) : outcome (sstate * list event) :=
  foldl (λ r m, '(st, es) ← r; '(st', e) ← do_move m st; Ret (st', es ++ oevent e)) (Ret (st, [])) ms.

Lemma do_moves_srun ms st st' es : do_moves ms st = Ret (st', es) → srun st es st'.
Proof.
  revert st' es. induction ms as [|m ms IH] using rev_ind; intros st' es Hr.
  - injection Hr as <- <-. constructor.
  - unfold do_moves in *. rewrite foldl_app in Hr. simpl in Hr. ret_inv. destruct a as [st1 es1]. ret_inv.
    destruct a as [st2 e]. simplify_eq. eapply srun_snoc; [by apply IH|].
    destruct m; simpl in *; [by constructor|..]; destruct (can_interrupt st1) eqn:?; simplify_eq.
    + by constructor.
    + by eapply sstep_device.
Qed.

(** Two threads, 1 running and 2 ready, a semaphore at 1000, a lock at 2000 and
    a condition variable at 3000. *)
Definition demo_kind (a : Z) : okind :=
  if decide (a = 1000) then KSem else if decide (a = 2000) then KLock else KCv.

Definition demo (k1 k2 : list instr) (n : Z) : sstate :=
  SState (Some 1) [2] [] ∅ {[1 := k1; 2 := k2]} {[1000 := n]} {[2000 := NULL]}.

Lemma demo_sinv k1 k2 n : 0 ≤ n < 2 ^ 31 → Forall (instr_ok demo_kind) k1 →
  Forall (instr_ok demo_kind) k2 → sinv demo_kind (demo k1 k2 n).
Proof.
  intros Hn H1 H2. split.
  - by apply (bool_decide_unpack _).
  - by apply (bool_decide_unpack _).
  - intros t. unfold all_threads. simpl. intros Ht. unfold code_ok.
    assert (t = 1 ∨ t = 2) as [-> | ->] by set_solver; simpl; eauto.
  - intros s. unfold count_of, demo. simpl. destruct (decide (s = 1000)) as [->|].
    + by rewrite lookup_singleton_eq.
    + rewrite lookup_singleton_ne by done. simpl. lia.
  - intros t Ht. by apply not_elem_of_nil in Ht.
Qed.

(** ** Theorems *)

(** [C15] A sleeping thread always has a reason to sleep, in every interleaving: whoever sleeps in
    P does so on a semaphore whose count is 0, whoever sleeps in lock_acquire does so on a lock
    that is held.  No wakeup is lost. *)
Theorem no_lost_wakeup kind st es st' t : srun st es st' → sinv kind st → t ∈ ss_asleep st' →
  (∀ sem k, ss_code st' !! t = Some (CPLoop sem :: k) → addr_of st' t = sem ∧ count_of st' sem = 0) ∧
  (∀ l k, ss_code st' !! t = Some (CAcquireLoop l :: k) → addr_of st' t = l ∧ owner_of st' l ≠ NULL).
Proof.
  intros Hr Hi Ht. apply (srun_sinv kind) in Hr; [|done]. pose proof (si_asleep _ _ Hr t Ht) as Hb.
  unfold blocked in Hb. split; intros x k Hx; by rewrite Hx in Hb.
Qed.

(** [C14] Semaphore accounting: in every interleaving, with device interrupts, the count is the
    initial count plus the Vs minus the Ps that have taken effect; it never goes negative, so
    that at most as many Ps get through as there were units and Vs, and never overflows. *)
Theorem semaphore_accounting kind st es st' sem : srun st es st' → sinv kind st →
  count_of st' sem = count_of st sem + count_V sem es - count_P sem es ∧
  0 ≤ count_of st' sem < 2 ^ 31.
Proof.
  intros Hr Hi. split; [|by apply (si_count kind), (srun_sinv kind st es)].
  induction Hr as [|st es st1 e st2 Hr IH Hs]; [unfold count_P, count_V; simpl; lia|].
  destruct (sstep_ok kind st1 e st2) as (_ & Hc & _); [by eapply srun_sinv|done|].
  rewrite Hc, IH by done. pose proof (count_oevent sem e). pose proof (count_app sem es (oevent e)). lia.
Qed.

(** [C10] Mutual exclusion: in every interleaving the acquisitions and releases of a lock alternate,
    every acquisition finds the lock free and every release is done by the thread that acquired it
    last; myOwner names that thread. *)
Theorem lock_mutual_exclusion kind st es st' l : srun st es st' → sinv kind st →
  holder l (owner_of st l) es = Some (owner_of st' l).
Proof.
  intros Hr Hi. induction Hr as [|st es st1 e st2 Hr IH Hs]; [done|].
  destruct (sstep_ok kind st1 e st2) as (_ & _ & Ho & Hl); [by eapply srun_sinv|done|].
  unfold holder in *. rewrite foldl_app, IH, Ho by done. by apply hold_oevent.
Qed.

(** ** Witnesses *)

Lemma no_lost_wakeup_witness : ∃ st', srun (demo [CP 1000] [] 0) [] st' ∧
  (∀ sem k, ss_code st' !! 1 = Some (CPLoop sem :: k) → addr_of st' 1 = sem ∧ count_of st' sem = 0) ∧
  (∀ l k, ss_code st' !! 1 = Some (CAcquireLoop l :: k) → addr_of st' 1 = l ∧ owner_of st' l ≠ NULL).
Proof.
  eexists. split; [apply (do_moves_srun [MExec]); reflexivity|].
  eapply (no_lost_wakeup demo_kind (demo [CP 1000] [] 0) []).
  - apply (do_moves_srun [MExec]). reflexivity.
  - apply demo_sinv; [lia|by repeat constructor|constructor].
  - by left.
Defined.

Lemma semaphore_accounting_witness : ∃ st',
  srun (demo [CP 1000] [CV 1000] 0) [EV 2 1000; EP 1 1000] st' ∧
  (count_of st' 1000 = 0 + count_V 1000 [EV 2 1000; EP 1 1000] - count_P 1000 [EV 2 1000; EP 1 1000] ∧
   0 ≤ count_of st' 1000 < 2 ^ 31).
Proof.
  eexists. split; [apply (do_moves_srun [MExec; MExec; MExec; MExec]); reflexivity|].
  apply (semaphore_accounting demo_kind (demo [CP 1000] [CV 1000] 0)).
  - apply (do_moves_srun [MExec; MExec; MExec; MExec]). reflexivity.
  - apply demo_sinv; [lia|by repeat constructor..].
Defined.

Lemma lock_mutual_exclusion_witness : ∃ st',
  srun (demo [CAcquire 2000; CRelease 2000] [CAcquire 2000] 0)
    [EAcquire 1 2000; ERelease 1 2000; EAcquire 2 2000] st' ∧
  holder 2000 NULL [EAcquire 1 2000; ERelease 1 2000; EAcquire 2 2000] = Some (owner_of st' 2000).
Proof.
  eexists. split; [apply (do_moves_srun [MExec; MTimer; MExec; MExec; MExec; MExec]); reflexivity|].
  apply (lock_mutual_exclusion demo_kind (demo [CAcquire 2000; CRelease 2000] [CAcquire 2000] 0)).
  - apply (do_moves_srun [MExec; MTimer; MExec; MExec; MExec; MExec]). reflexivity.
  - apply demo_sinv; [lia|by repeat constructor..].
Defined.

(** [C24] A signal wakes sleepers only, and cv_wait is not atomic.  A thread that runs cv_signal or
    cv_broadcast makes ready the first thread asleep on the condition variable (cv_broadcast: all
    of them).  But a thread [w] that has released the lock in cv_wait and been preempted before its
    thread_sleep is missed: unless somebody signals once more, in every continuation of the run
    [w] is on its way to sleep or asleep on the condition variable, and never gets past its
    wait, although the signal came after it had released the lock. *)
Theorem cv_wait_loses_signal kind st u i c cv l' st1 e : sinv kind st → ss_cur st = Some u →
  ss_code st !! u = Some (i :: c) → i = CSignal cv l' ∨ i = CBroadcast cv l' → exec st = Ret (st1, e) →
  (∀ t a b, ss_asleep st = a ++ t :: b → addr_of st t = cv → (∀ x, x ∈ a → addr_of st x ≠ cv) ∨ i = CBroadcast cv l' →
     t ∈ ss_ready st1) ∧
  (∀ w l k, w ∈ ss_ready st → ss_code st !! w = Some (CWaitSleep cv l :: k) → no_signaller cv w st1 →
     ∀ es st2, srun st1 es st2 → (∀ t, EV t cv ∉ es) → waiting cv w l k st2).
Proof.
  intros Hi Hc Hk Hsig Hr. destruct (signal_effect st u i c cv l' st1 e Hc Hk Hsig Hr) as (Hc1 & Hcur & Hrd & Hwk).
  split; [done|]. intros w l k Hw Hcw Hq es st2 Hrun Hes.
  assert (Hne : u ≠ w).
  { intros ->. rewrite Hk in Hcw. destruct Hsig; simplify_eq. }
  destruct (si_code _ _ Hi u) as (c0 & Hc0 & Hok); [unfold all_threads; rewrite Hc; set_solver|].
  rewrite Hk in Hc0. injection Hc0 as <-. apply Forall_cons in Hok as [Hok _].
  eapply (srun_missed cv w kind l k st1 es st2); [done|..|done|split; [left|done]].
  - by apply (sstep_ok kind st e st1 Hi), sstep_exec.
  - destruct Hsig as [-> | ->]; apply Hok.
  - unfold runnable. rewrite Hc1, Hcur, lookup_insert_ne by done. split; [simpl; set_solver|done].
Qed.

(** Thread 1 waits, the timer interrupts it, and thread 2 takes the lock and is about to signal. *)
Definition about_to_signal : sstate :=
  SState (Some 2) [1] [] ∅ {[1 := [CWaitSleep 3000 2000; CRelease 2000]; 2 := [CSignal 3000 2000; CRelease 2000]]}
    {[1000 := 0]} {[2000 := 2]}.

Lemma cv_wait_loses_signal_witness : 
  srun (demo [CAcquire 2000; CWait 3000 2000; CRelease 2000] [CAcquire 2000; CSignal 3000 2000; CRelease 2000] 0)
    [EAcquire 1 2000; ERelease 1 2000; EAcquire 2 2000] about_to_signal ∧
  ∃ st1 e, exec about_to_signal = Ret (st1, e) ∧
    ∀ es st2, srun st1 es st2 → (∀ t, EV t 3000 ∉ es) → waiting 3000 1 2000 [CRelease 2000] st2.
Proof.
  assert (Hr : srun (demo [CAcquire 2000; CWait 3000 2000; CRelease 2000] [CAcquire 2000; CSignal 3000 2000; CRelease 2000] 0)
    [EAcquire 1 2000; ERelease 1 2000; EAcquire 2 2000] about_to_signal)
    by (apply (do_moves_srun [MExec; MExec; MTimer; MExec]); vm_compute; reflexivity).
  split; [exact Hr|]. do 2 eexists. split; [reflexivity|].
  eapply (cv_wait_loses_signal demo_kind about_to_signal 2 (CSignal 3000 2000) [CRelease 2000] 3000 2000); try reflexivity.
  - eapply srun_sinv; [exact Hr|]. apply demo_sinv; [lia|by repeat constructor..].
  - by left.
  - by left.
  - intros t c Ht. unfold about_to_signal. simpl. intros Hl.
    apply lookup_insert_Some in Hl as [[_ <-]|[Hne Hl]]; [repeat constructor; simpl; tauto|].
    apply lookup_insert_Some in Hl as [[<- _]|[_ Hl]]; [done|].
    by apply lookup_singleton_Some in Hl as [? _].
Defined.
