(* ===== verification/KHeap.v ===== *)
(** * kern/lib/kheap.c: the kernel heap

    kmalloc hands out blocks smaller than 2048 bytes from pages cut into
    blocks of one size, and whole pages otherwise.  The model keeps the data
    structures of the code: the table of pagerefs with its in-use bits, the
    two kinds of linked lists through it, and the free list of every page,
    threaded through the free blocks in memory.

    The pages come from the virtual memory system through alloc_kpages and
    free_kpages; [KPages] states what the heap relies on. *)
From S2P Require Import Prelude.

Definition PAGE_SIZE : Z := 4096.
Definition PAGE_FRAME : Z := 0xfffff000.
Definition NSIZES : Z := 8.
Definition sizes : list Z := [16; 32; 64; 128; 256; 512; 1024; 2048].
Definition LARGEST_SUBPAGE_SIZE : Z := 2048.
Definition NPAGEREFS : Z := 256.
Definition INUSE_WORDS : Z := 8.
Definition INVALID_OFFSET : Z := 0xffff.

(** ** The page allocator the heap runs on *)

Class KPages (Pg : Type) := {
  kp_alloc : Z → Pg → outcome (Pg * Z);
  kp_free : Z → Pg → outcome Pg;
  kp_inv : Pg → Prop;
  kp_blocks : Pg → gmap Z Z;          (* the blocks handed out: address and pages *)
  (** Blocks are aligned, inside the address space, and do not overlap. *)
  kp_range p a n : kp_inv p → kp_blocks p !! a = Some n →
    0 < a ∧ 0 < n ∧ a mod PAGE_SIZE = 0 ∧ a + n * PAGE_SIZE < 2 ^ 32;
  kp_disjoint p a n b m : kp_inv p → kp_blocks p !! a = Some n → kp_blocks p !! b = Some m →
    a ≠ b → a + n * PAGE_SIZE ≤ b ∨ b + m * PAGE_SIZE ≤ a;
  kp_alloc_spec p n : kp_inv p → 0 < n < 2 ^ 20 →
    ∃ p' a, kp_alloc n p = Ret (p', a) ∧ kp_inv p' ∧
      ((a = 0 ∧ kp_blocks p' = kp_blocks p) ∨
       (a ≠ 0 ∧ kp_blocks p !! a = None ∧ kp_blocks p' = <[a := n]> (kp_blocks p)));
  kp_free_spec p a n : kp_inv p → kp_blocks p !! a = Some n →
    ∃ p', kp_free a p = Ret p' ∧ kp_inv p' ∧ kp_blocks p' = delete a (kp_blocks p)
}.

(** ** Data *)

Record pageref := Pageref {
  next_samesize : option Z;           (* an index of pagerefs[], None is NULL *)
  next_all : option Z;
  pageaddr_and_blocktype : Z;
  freelist_offset : Z;
  nfree : Z
}.

Definition PR_PAGEADDR (pr : pageref) : Z := Z.land (pageaddr_and_blocktype pr) PAGE_FRAME.
Definition PR_BLOCKTYPE (pr : pageref) : Z := Z.land (pageaddr_and_blocktype pr) 0xfff.
Definition MKPAB (pa blk : Z) : Z := Z.lor (Z.land pa PAGE_FRAME) (Z.land blk 0xfff).

Record kheap (Pg : Type) := KHeap {
  pagerefs : list pageref;
  pagerefs_inuse : list Z;
  sizebases : list (option Z);
  allbase : option Z;
  mem : gmap Z Z;                     (* the words of memory *)
  kp : Pg
}.
Arguments KHeap {Pg}.
Arguments pagerefs {Pg}.
Arguments pagerefs_inuse {Pg}.
Arguments sizebases {Pg}.
Arguments allbase {Pg}.
Arguments mem {Pg}.
Arguments kp {Pg}.

Section ops.
Context {Pg : Type} `{!KPages Pg}.
Implicit Types (h : kheap Pg).

Definition set_pagerefs x h : kheap Pg := KHeap x (pagerefs_inuse h) (sizebases h) (allbase h) (mem h) (kp h).
Definition set_inuse x h : kheap Pg := KHeap (pagerefs h) x (sizebases h) (allbase h) (mem h) (kp h).
Definition set_sizebases x h : kheap Pg := KHeap (pagerefs h) (pagerefs_inuse h) x (allbase h) (mem h) (kp h).
Definition set_allbase x h : kheap Pg := KHeap (pagerefs h) (pagerefs_inuse h) (sizebases h) x (mem h) (kp h).
Definition set_mem x h : kheap Pg := KHeap (pagerefs h) (pagerefs_inuse h) (sizebases h) (allbase h) x (kp h).
Definition set_kp (x : Pg) h := KHeap (pagerefs h) (pagerefs_inuse h) (sizebases h) (allbase h) (mem h) x.

Definition write_word (a v : Z) h : kheap Pg := set_mem (<[a := v]> (mem h)) h.

Definition read_word (a : Z) h : outcome Z :=
  match mem h !! a with Some v => Ret v | None => Wild end.

Definition fill_word (ptr i : Z) h : outcome (kheap Pg) := Ret (write_word (ptr + 4 * i) 0xdeadbeef h).

Definition fill_deadbeef (ptr len : Z) h : outcome (kheap Pg) :=
  for_each (Z.to_nat (len / 4)) 0 (fill_word ptr) h.

(** ** pagerefs *)

(** The inner loop of allocpageref: the first clear bit of word [i]. *)
Definition alloc_ref_bit (i w j : Z) h : outcome (kheap Pg + kheap Pg * Z) :=
  if Z.testbit w j then Ret (inl h)
  else
    ws ← wr (pagerefs_inuse h) i (Z.lor w (2 ^ j));
    Ret (inr (set_inuse ws h, i * 32 + j)).

Definition alloc_ref_word (i : Z) h : outcome (kheap Pg + kheap Pg * Z) :=
  w ← rd (pagerefs_inuse h) i;
  if bool_decide (w = 0xffffffff) then Ret (inl h)
  else
    r ← for_loop 32 0 (alloc_ref_bit i w) h;
    match r with inr x => Ret (inr x) | inl _ => Panic end.

Definition allocpageref h : outcome (kheap Pg * option Z) :=
  r ← for_loop (Z.to_nat INUSE_WORDS) 0 alloc_ref_word h;
  match r with inr (h', j) => Ret (h', Some j) | inl h' => Ret (h', None) end.

Definition freepageref (j : Z) h : outcome (kheap Pg) :=
  c_assert (bool_decide (0 ≤ j < NPAGEREFS));;
  w ← rd (pagerefs_inuse h) (j / 32);
  c_assert (Z.testbit w (j mod 32));;
  ws ← wr (pagerefs_inuse h) (j / 32) (Z.ldiff w (2 ^ (j mod 32)));
  Ret (set_inuse ws h).

(** ** The lists of pages *)

(** Which list: that of one block size, or that of all pages. *)
Inductive which := Same (blktype : Z) | All.

(** Where the pointer [*guy] lives: in the list head or in a pageref. *)
Inductive guy := Base | Next (i : Z).

Definition next_of (w : which) (pr : pageref) : option Z :=
  match w with Same _ => next_samesize pr | All => next_all pr end.

Definition set_next (w : which) (v : option Z) (pr : pageref) : pageref :=
  match w with
  | Same _ => Pageref v (next_all pr) (pageaddr_and_blocktype pr) (freelist_offset pr) (nfree pr)
  | All => Pageref (next_samesize pr) v (pageaddr_and_blocktype pr) (freelist_offset pr) (nfree pr)
  end.

Definition read_guy (w : which) (g : guy) h : outcome (option Z) :=
  match g, w with
  | Base, Same b => rd (sizebases h) b
  | Base, All => Ret (allbase h)
  | Next i, _ => pr ← rd (pagerefs h) i; Ret (next_of w pr)
  end.

Definition write_guy (w : which) (g : guy) (v : option Z) h : outcome (kheap Pg) :=
  match g, w with
  | Base, Same b => bs ← wr (sizebases h) b v; Ret (set_sizebases bs h)
  | Base, All => Ret (set_allbase v h)
  | Next i, _ =>
      pr ← rd (pagerefs h) i;
      prs ← wr (pagerefs h) i (set_next w v pr);
      Ret (set_pagerefs prs h)
  end.

Fixpoint unlink (fuel : nat) (w : which) (g : guy) (pr : Z) h : outcome (kheap Pg) :=
  c ← read_guy w g h;
  match c with
  | None => Ret h
  | Some i =>
      if bool_decide (i = pr) then
        p ← rd (pagerefs h) pr;
        write_guy w g (next_of w p) h
      else
        match fuel with
        | O => Spin
        | S f => unlink f w (Next i) pr h
        end
  end.

Definition remove_lists (pr blktype : Z) h : outcome (kheap Pg) :=
  c_assert (bool_decide (0 ≤ blktype < NSIZES));;
  h1 ← unlink (Z.to_nat NPAGEREFS) (Same blktype) Base pr h;
  unlink (Z.to_nat NPAGEREFS) All Base pr h1.

(** ** Block sizes *)

Definition blocktype_step (sz i : Z) (_ : ()) : outcome (() + Z) :=
  s ← rd sizes i;
  if bool_decide (sz ≤ s) then Ret (inr i) else Ret (inl ()).

Definition blocktype (sz : Z) : outcome Z :=
  r ← for_loop (Z.to_nat NSIZES) 0 (blocktype_step sz) ();
  match r with inr i => Ret i | inl _ => Panic end.

(** ** Allocation *)

(** The label doalloc: take the first block of the free list of page [j]. *)
Definition doalloc (j : Z) h : outcome (kheap Pg * Z) :=
  pr ← rd (pagerefs h) j;
  c_assert (bool_decide (freelist_offset pr < PAGE_SIZE));;
  let prpage := PR_PAGEADDR pr in
  let retptr := u32 (prpage + freelist_offset pr) in
  fl ← read_word retptr h;
  let n := u16 (nfree pr - 1) in
  off ← (if bool_decide (fl ≠ 0) then
           c_assert (bool_decide (n > 0));;
           c_assert (bool_decide (u32 (fl - prpage) < PAGE_SIZE));;
           Ret (u16 (fl - prpage))
         else
           c_assert (bool_decide (n = 0));;
           Ret INVALID_OFFSET);
  prs ← wr (pagerefs h) j
          (Pageref (next_samesize pr) (next_all pr) (pageaddr_and_blocktype pr) off n);
  Ret (set_pagerefs prs h, retptr).

(** The search for a page with a free block. *)
Fixpoint find_free (fuel : nat) (cur : option Z) (blktype : Z) h : outcome (option Z) :=
  match cur with
  | None => Ret None
  | Some j =>
      match fuel with
      | O => Spin
      | S f =>
          pr ← rd (pagerefs h) j;
          c_assert (bool_decide (PR_BLOCKTYPE pr = blktype));;
          if bool_decide (nfree pr > 0) then Ret (Some j)
          else find_free f (next_samesize pr) blktype h
      end
  end.

(** Thread block [i] of a fresh page to block [i-1]. *)
Definition link_block (fla sz i : Z) h : outcome (kheap Pg) :=
  c_assert (bool_decide (u32 (fla + i * sz) ≠ u32 (fla + (i - 1) * sz)));;
  Ret (write_word (u32 (fla + i * sz)) (u32 (fla + (i - 1) * sz)) h).

Definition new_page (blktype sz j prpage : Z) h : outcome (kheap Pg) :=
  let n := PAGE_SIZE / sz in
  h1 ← for_each (Z.to_nat (n - 1)) 1 (link_block prpage sz) (write_word prpage 0 h);
  let off := u16 ((n - 1) * sz) in
  c_assert (bool_decide (off = (n - 1) * sz));;
  base ← rd (sizebases h1) blktype;
  prs ← wr (pagerefs h1) j (Pageref base (allbase h1) (MKPAB prpage blktype) off n);
  bs ← wr (sizebases h1) blktype (Some j);
  Ret (set_allbase (Some j) (set_sizebases bs (set_pagerefs prs h1))).

Definition subpage_kmalloc (sz : Z) h : outcome (kheap Pg * Z) :=
  blktype ← blocktype sz;
  sz' ← rd sizes blktype;
  base ← rd (sizebases h) blktype;
  found ← find_free (Z.to_nat NPAGEREFS + 1) base blktype h;
  match found with
  | Some j => doalloc j h
  | None =>
      '(h1, r) ← allocpageref h;
      match r with
      | None => Ret (h1, 0)
      | Some j =>
          '(p, prpage) ← kp_alloc 1 (kp h1);
          let h2 := set_kp p h1 in
          if bool_decide (prpage = 0) then h3 ← freepageref j h2; Ret (h3, 0)
          else
            h3 ← new_page blktype sz' j prpage h2;
            doalloc j h3
      end
  end.

(** ** Release *)

Fixpoint find_page (fuel : nat) (cur : option Z) (ptraddr : Z) h : outcome (option Z) :=
  match cur with
  | None => Ret None
  | Some j =>
      match fuel with
      | O => Spin
      | S f =>
          pr ← rd (pagerefs h) j;
          let prpage := PR_PAGEADDR pr in
          c_assert (bool_decide (0 ≤ PR_BLOCKTYPE pr < NSIZES));;
          if bool_decide (prpage ≤ ptraddr) && bool_decide (ptraddr < u32 (prpage + PAGE_SIZE))
          then Ret (Some j)
          else find_page f (next_all pr) ptraddr h
      end
  end.

(** [true]: the block was on one of our pages (return 0). *)
Definition subpage_kfree (ptraddr : Z) h : outcome (kheap Pg * bool) :=
  found ← find_page (Z.to_nat NPAGEREFS + 1) (allbase h) ptraddr h;
  match found with
  | None => Ret (h, false)
  | Some j =>
      pr ← rd (pagerefs h) j;
      let prpage := PR_PAGEADDR pr in
      let blktype := PR_BLOCKTYPE pr in
      sz ← rd sizes blktype;
      let offset := u32 (ptraddr - prpage) in
      if bool_decide (PAGE_SIZE ≤ offset) || bool_decide (offset mod sz ≠ 0) then Panic
      else
        h1 ← fill_deadbeef ptraddr sz h;
        let nxt := if bool_decide (freelist_offset pr = INVALID_OFFSET) then 0
                   else u32 (prpage + freelist_offset pr) in
        let h2 := write_word (u32 (prpage + offset)) nxt h1 in
        let n := u16 (nfree pr + 1) in
        prs ← wr (pagerefs h2) j
                (Pageref (next_samesize pr) (next_all pr) (pageaddr_and_blocktype pr) (u16 offset) n);
        let h3 := set_pagerefs prs h2 in
        c_assert (bool_decide (n ≤ PAGE_SIZE / sz));;
        if bool_decide (n = PAGE_SIZE / sz) then
          h4 ← remove_lists j blktype h3;
          p ← kp_free prpage (kp h4);
          h5 ← freepageref j (set_kp p h4);
          Ret (h5, true)
        else Ret (h3, true)
  end.

(** ** kmalloc and kfree *)

Definition kmalloc (sz : Z) h : outcome (kheap Pg * Z) :=
  if bool_decide (LARGEST_SUBPAGE_SIZE ≤ sz) then
    let npages := u32 (sz + PAGE_SIZE - 1) / PAGE_SIZE in
    '(p, address) ← kp_alloc npages (kp h);
    Ret (set_kp p h, address)
  else subpage_kmalloc sz h.

Definition kfree (ptr : Z) h : outcome (kheap Pg) :=
  if bool_decide (ptr = 0) then Ret h
  else
    '(h1, ours) ← subpage_kfree ptr h;
    if (ours : bool) then Ret h1
    else
      c_assert (bool_decide (ptr mod PAGE_SIZE = 0));;
      p ← kp_free ptr (kp h1);
      Ret (set_kp p h1).
End ops.
