(* ===== verification/KHeapSpec.v ===== *)
(** * The kernel heap against a set of live blocks

    The invariant [kinv] relates the tables, lists and free lists of KHeap.v
    to a list of heap pages, each with its free blocks in free-list order, and
    a map of the large allocations.  The live blocks are the rest.  The
    theorems say that kmalloc adds one block that overlaps no live block, that
    kfree removes exactly one, and that what a client writes into its blocks
    cannot disturb the heap. *)
From S2P Require Import Prelude.
From S2P Require Import KHeap.

(** ** Sizes and addresses *)

Definition bsize (b : Z) : Z := 2 ^ (4 + b).
Definition bcount (b : Z) : Z := 2 ^ (8 - b).

Lemma bsize_cases b : 0 ≤ b < 8 →
  rd sizes b = Ret (bsize b) ∧ 16 ≤ bsize b ≤ 2048 ∧ bcount b * bsize b = PAGE_SIZE ∧
  PAGE_SIZE / bsize b = bcount b ∧ 2 ≤ bcount b ≤ 256 ∧ bsize b mod 16 = 0.
Proof.
  intros Hb. assert (b = 0 ∨ b = 1 ∨ b = 2 ∨ b = 3 ∨ b = 4 ∨ b = 5 ∨ b = 6 ∨ b = 7) as H by lia.
  destruct_or! H; subst; vm_compute; split_and!; done.
Qed.

Lemma blocktype_ok sz : 0 ≤ sz ≤ 2048 →
  ∃ b, blocktype sz = Ret b ∧ 0 ≤ b < 8 ∧ sz ≤ bsize b ∧ (0 < b → bsize (b - 1) < sz).
Proof.
  intros Hsz. unfold blocktype.
  destruct (for_loop_inv (λ j _, 0 < j → bsize (j - 1) < sz)
    (λ b, 0 ≤ b < 8 ∧ sz ≤ bsize b ∧ (0 < b → bsize (b - 1) < sz))
    (blocktype_step sz) (Z.to_nat NSIZES) 0 ()) as [(u & -> & Hno)|(b & -> & Hb)].
  - lia.
  - intros j [] Hj Hinv. change (Z.of_nat (Z.to_nat NSIZES)) with 8 in Hj. unfold blocktype_step.
    destruct (bsize_cases j) as (-> & _); [lia|]. ostep. case_bool_decide; [right|left]; eexists; (split; [done|]).
    + split_and!; try done; lia.
    + intros _. replace (j + 1 - 1) with j by lia. lia.
  - change (0 + Z.of_nat (Z.to_nat NSIZES)) with 8 in Hno. specialize (Hno ltac:(lia)).
    change (bsize (8 - 1)) with 2048 in Hno. lia.
  - ostep. eauto.
Qed.

Lemma page_frame x : 0 ≤ x < 2 ^ 32 → Z.land x PAGE_FRAME = x - x mod PAGE_SIZE.
Proof.
  intros Hx. transitivity (Z.shiftl (Z.shiftr x 12) 12).
  - apply Z.bits_inj'. intros n Hn. change PAGE_FRAME with (Z.shiftl (Z.ones 20) 12).
    rewrite Z.land_spec, !Z.shiftl_spec by lia.
    destruct (decide (n < 12)).
    + rewrite !(Z.testbit_neg_r _ (n - 12)) by lia. by rewrite andb_false_r.
    + rewrite Z.shiftr_spec, Z.testbit_ones by lia. replace (n - 12 + 12) with n by lia.
      destruct (decide (n < 32)).
      * rewrite (proj2 (Z.leb_le 0 (n - 12))), (proj2 (Z.ltb_lt (n - 12) 20)) by lia. by rewrite andb_true_r.
      * assert (Hb : Z.testbit x n = false).
        { destruct (decide (x = 0)) as [->|]; [apply Z.testbit_0_l|].
          apply Z.bits_above_log2; [lia|]. apply Z.log2_lt_pow2; [lia|].
          apply (Z.lt_le_trans _ (2 ^ 32)); [lia|]. apply Z.pow_le_mono_r; lia. }
        by rewrite Hb.
  - rewrite Z.shiftl_mul_pow2, Z.shiftr_div_pow2 by lia. unfold PAGE_SIZE.
    change (2 ^ 12) with 4096. pose proof (Z.div_mod x 4096). lia.
Qed.

Lemma page_low x : Z.land x 0xfff = x mod PAGE_SIZE.
Proof. change 0xfff with (Z.ones 12). by rewrite Z.land_ones. Qed.

Section pab.
Context (a b : Z) (Ha : a mod PAGE_SIZE = 0) (Hr : 0 ≤ a < 2 ^ 32 - PAGE_SIZE) (Hb : 0 ≤ b < 8).

Lemma pab_mod : (a + b) mod PAGE_SIZE = b.
Proof. rewrite <- Zplus_mod_idemp_l, Ha. apply Z.mod_small. unfold PAGE_SIZE. lia. Qed.

Lemma pab_addr : Z.land (a + b) PAGE_FRAME = a.
Proof. unfold PAGE_SIZE in *. rewrite page_frame by lia. pose proof pab_mod as H. unfold PAGE_SIZE in *. lia. Qed.

Lemma pab_type : Z.land (a + b) 0xfff = b.
Proof. rewrite page_low. apply pab_mod. Qed.

Lemma MKPAB_add : MKPAB a b = a + b.
Proof.
  unfold MKPAB. rewrite page_frame by (unfold PAGE_SIZE in *; lia). rewrite Ha, page_low, Z.sub_0_r.
  rewrite (Z.mod_small b) by (unfold PAGE_SIZE; lia).
  rewrite <- Z.add_nocarry_lor; [done|]. apply Z.bits_inj'. intros n Hn. rewrite Z.land_spec, Z.bits_0.
  destruct (decide (n < 12)).
  - assert (Hm : Z.testbit (a mod 2 ^ 12) n = Z.testbit a n) by (by apply Z.mod_pow2_bits_low).
    change (2 ^ 12) with PAGE_SIZE in Hm. rewrite Ha, Z.bits_0 in Hm. by rewrite <- Hm.
  - assert (Hz : Z.testbit b n = false); [|by rewrite Hz, andb_false_r].
    destruct (decide (b = 0)) as [->|]; [apply Z.testbit_0_l|].
    apply Z.bits_above_log2; [lia|]. apply Z.log2_lt_pow2; [lia|].
    apply (Z.lt_le_trans _ (2 ^ 12)); [lia|]. apply Z.pow_le_mono_r; lia.
Qed.
End pab.

(** ** Linked lists through the pagerefs *)

Fixpoint chain (w : which) (prs : list pageref) (start : option Z) (l : list Z) : Prop :=
  match l with
  | [] => start = None
  | i :: r => start = Some i ∧ ∃ pr, rd prs i = Ret pr ∧ chain w prs (next_of w pr) r
  end.

(** A list sees only the next fields of its own members. *)
Lemma chain_ext w prs prs' start l : chain w prs start l →
  (∀ i pr, i ∈ l → rd prs i = Ret pr → ∃ pr', rd prs' i = Ret pr' ∧ next_of w pr' = next_of w pr) →
  chain w prs' start l.
Proof.
  revert start. induction l as [|i l IH]; intros start; simpl; [done|].
  intros (-> & pr & Hpr & Hc) Hext. split; [done|].
  destruct (Hext i pr) as (pr' & Hpr' & Hn); [by left|done|]. exists pr'. split; [done|].
  rewrite Hn. apply IH; [done|]. intros j q Hj. apply Hext. by right.
Qed.

Lemma rd_wr_same {A} (l l' : list A) i x : wr l i x = Ret l' → rd l' i = Ret x.
Proof.
  intros [Hi ->]%wr_Ret. apply rd_lookup; [lia|]. apply insert_Z_same. lia.
Qed.

Lemma rd_wr_other {A} (l l' : list A) i j x : wr l i x = Ret l' → i ≠ j → rd l' j = rd l j.
Proof.
  intros [Hi ->]%wr_Ret Hne. unfold rd. case_bool_decide; [|done].
  by rewrite insert_Z_other by lia.
Qed.

Lemma rd_Ret_range {A} (l : list A) i x : rd l i = Ret x → 0 ≤ i < len l.
Proof. intros [Hi Hx]%rd_Ret. apply lookup_lt_Some in Hx. lia. Qed.

Lemma wr_ok {A} (l : list A) i x y : rd l i = Ret y → ∃ l', wr l i x = Ret l' ∧ length l' = length l.
Proof.
  intros Hr%rd_Ret_range. rewrite wr_in_range by done. eexists. split; [done|]. by rewrite length_insert.
Qed.

Section heap.
Context {Pg : Type} `{!KPages Pg}.
Implicit Types (h : kheap Pg).

(** What unlinking from list [w] leaves alone: only the next fields of the
    pages [l] and, when [base] holds, the head of the list may change. *)
Definition relinked (w : which) (base : bool) (l : list Z) h h' : Prop :=
  pagerefs_inuse h' = pagerefs_inuse h ∧ mem h' = mem h ∧ kp h' = kp h ∧
  length (pagerefs h') = length (pagerefs h) ∧ length (sizebases h') = length (sizebases h) ∧
  (∀ i pr, rd (pagerefs h) i = Ret pr → ∃ pr', rd (pagerefs h') i = Ret pr' ∧
     (pr' = pr ∨ (i ∈ l ∧ ∃ v, pr' = set_next w v pr))) ∧
  match w with
  | All => sizebases h' = sizebases h ∧ (base = false → allbase h' = allbase h)
  | Same b => allbase h' = allbase h ∧ (∀ b', b' ≠ b → rd (sizebases h') b' = rd (sizebases h) b') ∧
      (base = false → sizebases h' = sizebases h)
  end.

(** The pointer a guy holds lies outside the rest of the list. *)
Definition guy_out (g : guy) (l : list Z) : Prop :=
  match g with Base => True | Next i => i ∉ l end.

Definition is_base (g : guy) : bool := match g with Base => true | Next _ => false end.
Definition guy_ref (g : guy) : list Z := match g with Base => [] | Next i => [i] end.

Lemma write_guy_ok w g v h old l : read_guy w g h = Ret old → guy_out g l →
  ∃ h', write_guy w g v h = Ret h' ∧ read_guy w g h' = Ret v ∧
    relinked w (is_base g) (guy_ref g) h h' ∧
    (∀ i, i ∈ l → rd (pagerefs h') i = rd (pagerefs h) i).
Proof.
  intros Hr Hout. destruct g as [|i]; [destruct w as [b|]|]; simpl in *.
  - destruct (wr_ok _ _ v _ Hr) as (bs & Hbs & Hlen). rewrite Hbs. ostep. eexists. split; [done|].
    split; [by eapply rd_wr_same|]. split; [|done]. split_and!; try done; simpl; [eauto|].
    intros b' Hne. by eapply rd_wr_other.
  - eexists. split; [done|]. split; [done|]. split; [|done]. split_and!; try done. simpl. eauto.
  - ret_inv. rewrite E. ostep. destruct (wr_ok _ _ (set_next w v a) _ E) as (prs & Hprs & Hlen).
    rewrite Hprs. ostep. eexists. split; [done|]. simpl. rewrite (rd_wr_same _ _ _ _ Hprs). ostep.
    split; [by destruct w|]. split.
    + split_and!; try done; simpl.
      * intros j pr Hj. destruct (decide (i = j)) as [<-|Hne].
        -- exists (set_next w v a). rewrite (rd_wr_same _ _ _ _ Hprs). split; [done|right].
           split; [set_solver|]. exists v. congruence.
        -- rewrite (rd_wr_other _ _ _ _ _ Hprs Hne). eauto.
      * by destruct w.
    + intros j Hj. simpl. apply (rd_wr_other _ _ _ _ _ Hprs). set_solver.
Qed.

Lemma relinked_weaken w b l b' l' h h' : relinked w b l h h' → l ⊆ l' → (b' = false → b = false) →
  relinked w b' l' h h'.
Proof.
  intros (? & ? & ? & ? & ? & H & Hw) Hsub Hb. split_and!; try done.
  - intros i pr Hpr. destruct (H i pr Hpr) as (pr' & ? & [?|[? ?]]); exists pr'; [by auto|].
    split; [done|right]. split; [set_solver|done].
  - destruct w; naive_solver.
Qed.

(** Unlinking from a list elsewhere does not change a pointer outside it. *)
Lemma relinked_guy w l g h h' v : relinked w false l h h' → guy_out g l →
  read_guy w g h = Ret v → read_guy w g h' = Ret v.
Proof.
  intros (_ & _ & _ & _ & _ & H & Hw) Hout Hr. destruct g as [|i]; simpl in *.
  - destruct w; simpl in *; destruct_and!.
    + by replace (sizebases h') with (sizebases h) by (symmetry; auto).
    + by replace (allbase h') with (allbase h) by (symmetry; auto).
  - ret_inv. destruct (H i a E) as (pr' & -> & [->|[? _]]); [ostep; congruence|done].
Qed.

(** Unlinking a member of a list. *)
Lemma unlink_ok w pr : ∀ l1 l2 fuel g h start, (length l1 ≤ fuel)%nat →
  read_guy w g h = Ret start → guy_out g (l1 ++ pr :: l2) → NoDup (l1 ++ pr :: l2) →
  chain w (pagerefs h) start (l1 ++ pr :: l2) →
  ∃ h' start', unlink fuel w g pr h = Ret h' ∧ read_guy w g h' = Ret start' ∧
    chain w (pagerefs h') start' (l1 ++ l2) ∧ relinked w (is_base g) (guy_ref g ++ l1) h h'.
Proof.
  induction l1 as [|j l1 IH]; intros l2 fuel g h start Hf Hg Hout Hnd Hc; simpl in Hc.
  - destruct Hc as (-> & p & Hp & Hc). destruct fuel; cbn [unlink]; rewrite Hg; ostep;
      rewrite bool_decide_eq_true_2 by done; rewrite Hp; ostep.
    all: destruct (write_guy_ok w g (next_of w p) h (Some pr) (pr :: l2) Hg) as (h' & -> & Hr & Hrel & Hsame);
      [done|]; exists h', (next_of w p); rewrite app_nil_r; (split_and!; [done|done| |done]);
      eapply chain_ext; [done|]; intros i q Hi Hq; exists q; (split; [|done]); rewrite Hsame; [done|set_solver].
  - destruct Hc as (-> & p & Hp & Hc). simpl in Hnd. apply NoDup_cons in Hnd as [Hj Hnd].
    destruct fuel as [|fuel]; [simpl in Hf; lia|]. cbn [unlink]. rewrite Hg. ostep.
    rewrite bool_decide_eq_false_2 by set_solver.
    assert (Hg' : read_guy w (Next j) h = Ret (next_of w p)) by (simpl; rewrite Hp; by ostep).
    destruct (IH l2 fuel (Next j) h (next_of w p)) as (h' & start' & Hu & Hr' & Hc' & Hrel);
      [simpl in Hf; lia|done..|]. simpl in Hr'. ret_inv. 
    exists h', (Some j). split_and!; [done| | |].
    + eapply relinked_guy; [exact Hrel| |done]. destruct g; simpl in *; [done|set_solver].
    + simpl. split; [done|]. exists a. split; [done|]. by rewrite Hr'.
    + eapply relinked_weaken; [exact Hrel|set_solver|done].
Qed.

(** ** The in-use bits *)

Definition ref_bit (ws : list Z) (j : Z) : bool :=
  match ws !! Z.to_nat (j / 32) with Some w => Z.testbit w (j mod 32) | None => false end.

Definition inuse_ok (ws : list Z) (R : list Z) : Prop :=
  length ws = 8%nat ∧ Forall (λ w, 0 ≤ w < 2 ^ 32) ws ∧
  ∀ j, 0 ≤ j < 256 → ref_bit ws j = bool_decide (j ∈ R).

Lemma word_range x : Z.land x (Z.ones 32) = x → 0 ≤ x < 2 ^ 32.
Proof. intros <-. rewrite Z.land_ones by lia. by apply Z.mod_pos_bound. Qed.

Lemma word_land x : 0 ≤ x < 2 ^ 32 → Z.land x (Z.ones 32) = x.
Proof. intros. rewrite Z.land_ones by lia. by apply Z.mod_small. Qed.

Lemma pow2_range j : 0 ≤ j < 32 → 0 ≤ 2 ^ j < 2 ^ 32.
Proof. intros. split; [apply Z.pow_nonneg; lia|]. apply Z.pow_lt_mono_r; lia. Qed.

Lemma lor_range x j : 0 ≤ x < 2 ^ 32 → 0 ≤ j < 32 → 0 ≤ Z.lor x (2 ^ j) < 2 ^ 32.
Proof.
  intros Hx Hj. apply word_range. by rewrite Z.land_lor_distr_l, !word_land by (done || by apply pow2_range).
Qed.

Lemma ldiff_range x y : 0 ≤ x < 2 ^ 32 → 0 ≤ Z.ldiff x y < 2 ^ 32.
Proof.
  intros Hx. apply word_range. apply Z.bits_inj'. intros n Hn.
  rewrite Z.land_spec, Z.ldiff_spec. rewrite <- (word_land x Hx) at 2. rewrite Z.land_spec.
  by destruct (Z.testbit x n), (Z.testbit (Z.ones 32) n), (Z.testbit y n).
Qed.

Lemma word_full w : 0 ≤ w < 2 ^ 32 → (∀ k, 0 ≤ k < 32 → Z.testbit w k = true) ↔ w = 0xffffffff.
Proof.
  intros Hw. change 0xffffffff with (Z.ones 32). split.
  - intros H. rewrite <- (word_land w Hw). apply Z.bits_inj'. intros n Hn. rewrite Z.land_spec.
    rewrite Z.testbit_ones_nonneg by lia. destruct (Z.ltb_spec n 32); [by rewrite H by lia|apply andb_false_r].
  - intros -> k Hk. rewrite Z.testbit_ones_nonneg by lia. apply Z.ltb_lt. lia.
Qed.

Lemma ref_bit_at ws i j w : ws !! Z.to_nat i = Some w → 0 ≤ i → 0 ≤ j < 32 →
  ref_bit ws (i * 32 + j) = Z.testbit w j.
Proof.
  intros Hw Hi Hj. unfold ref_bit. rewrite Z.div_add_l, (Z.div_small j), Z.add_0_r, Hw by lia.
  by rewrite Z.add_comm, Z_mod_plus_full, Z.mod_small by lia.
Qed.

(** Changing one word in a way that changes one bit. *)
Lemma inuse_change ws R R' j w w' (x : bool) : inuse_ok ws R → 0 ≤ j < 256 →
  ws !! Z.to_nat (j / 32) = Some w → 0 ≤ w' < 2 ^ 32 →
  (∀ k, 0 ≤ k < 32 → Z.testbit w' k = if decide (k = j mod 32) then x else Z.testbit w k) →
  (∀ i, i ∈ R' ↔ if decide (i = j) then x = true else i ∈ R) →
  inuse_ok (<[Z.to_nat (j / 32) := w']> ws) R'.
Proof.
  intros (Hl & Hf & Hb) Hj Hw Hw' Hbits HR. split_and!.
  - by rewrite length_insert.
  - by apply Forall_insert.
  - intros i Hi. unfold ref_bit. destruct (decide (i / 32 = j / 32)) as [He|Hne].
    + rewrite He, list_lookup_insert_eq by (apply lookup_lt_Some in Hw; done).
      rewrite Hbits by (apply Z.mod_pos_bound; lia). specialize (Hb i Hi). unfold ref_bit in Hb. rewrite He, Hw in Hb.
      assert (Hij : i mod 32 = j mod 32 ↔ i = j).
      { split; [|by intros ->]. intros Hm. pose proof (Z.div_mod i 32). pose proof (Z.div_mod j 32). lia. }
      specialize (HR i). destruct (decide (i = j)) as [->|].
      * rewrite decide_True in * by done. destruct x; symmetry; [by apply bool_decide_eq_true_2, HR|].
        apply bool_decide_eq_false_2. by rewrite HR.
      * rewrite decide_False by tauto. rewrite Hb. apply bool_decide_ext. by rewrite HR.
    + pose proof (Z.div_pos i 32). pose proof (Z.div_pos j 32).
      rewrite list_lookup_insert_ne by lia. specialize (Hb i Hi). unfold ref_bit in Hb. rewrite Hb.
      apply bool_decide_ext. rewrite HR, decide_False; [done|]. by intros ->.
Qed.

(** A pageref has been taken: [r] is the heap and its index. *)
Definition ref_taken h (R : list Z) (r : kheap Pg * Z) : Prop :=
  ∃ ws, r.1 = set_inuse ws h ∧ 0 ≤ r.2 < 256 ∧ (r.2 ∉ R) ∧ inuse_ok ws (r.2 :: R).

Lemma take_bit h R i j w : inuse_ok (pagerefs_inuse h) R → 0 ≤ i < 8 → 0 ≤ j < 32 →
  pagerefs_inuse h !! Z.to_nat i = Some w → Z.testbit w j = false →
  ∃ r, alloc_ref_bit i w j h = Ret (inr r) ∧ ref_taken h R r.
Proof.
  intros Hu Hi Hj Hw Ht. pose proof Hu as (Hl & Hf & Hb).
  pose proof (proj1 (Forall_lookup _ _) Hf _ _ Hw) as Hwr. simpl in Hwr.
  assert (Hd : (i * 32 + j) / 32 = i) by (rewrite Z.div_add_l by lia; rewrite (Z.div_small j) by lia; lia).
  assert (Hm : (i * 32 + j) mod 32 = j) by (rewrite Z.add_comm, Z_mod_plus_full; apply Z.mod_small; lia).
  unfold alloc_ref_bit. rewrite Ht, wr_in_range by lia. ostep. eexists. split; [done|].
  eexists. split; [done|]. simpl. split; [lia|]. split.
  - intros Hin. specialize (Hb (i * 32 + j) ltac:(lia)).
    rewrite (ref_bit_at _ _ _ w), Ht in Hb by (done || lia). symmetry in Hb. by apply bool_decide_eq_false in Hb.
  - replace (Z.to_nat i) with (Z.to_nat ((i * 32 + j) / 32)) by by rewrite Hd.
    eapply (inuse_change _ R _ (i * 32 + j) w _ true); [done|lia|by rewrite Hd|apply lor_range; lia| |].
    + intros k Hk'. rewrite Hm, Z.lor_spec, Z.pow2_bits_eqb by lia.
      destruct (decide (k = j)) as [->|]; [by rewrite Z.eqb_refl, orb_true_r|].
      rewrite (proj2 (Z.eqb_neq j k)) by done. apply orb_false_r.
    + intros k. case_decide; set_solver.
Qed.

Lemma alloc_ref_word_ok h R i w : inuse_ok (pagerefs_inuse h) R → 0 ≤ i < 8 →
  pagerefs_inuse h !! Z.to_nat i = Some w →
  (w = 0xffffffff ∧ alloc_ref_word i h = Ret (inl h)) ∨
  (∃ r, alloc_ref_word i h = Ret (inr r) ∧ ref_taken h R r).
Proof.
  intros Hu Hi Hw. pose proof Hu as (Hl & Hf & Hb).
  pose proof (proj1 (Forall_lookup _ _) Hf _ _ Hw) as Hwr. simpl in Hwr.
  unfold alloc_ref_word. rewrite (rd_lookup _ i w) by (done || lia). ostep.
  case_bool_decide as Hfull; [by left|right].
  destruct (for_loop_inv (λ j h', h' = h ∧ ∀ k, 0 ≤ k < j → Z.testbit w k = true)
    (ref_taken h R) (alloc_ref_bit i w) 32 0 h) as [(h' & -> & _ & Hbits)|(r & -> & Hr)].
  - split; [done|]. lia.
  - intros j h' Hj (-> & Hk). destruct (Z.testbit w j) eqn:Ht; [left|right; by apply take_bit].
    exists h. unfold alloc_ref_bit. rewrite Ht. split; [done|]. split; [done|]. intros k Hk'.
    destruct (decide (k = j)) as [->|]; [done|apply Hk; lia].
  - exfalso. apply Hfull. apply word_full; [done|]. intros k Hk. apply Hbits. lia.
  - ostep. by exists r.
Qed.

Lemma allocpageref_ok h R : inuse_ok (pagerefs_inuse h) R →
  (∃ r, allocpageref h = Ret (r.1, Some r.2) ∧ ref_taken h R r) ∨
  (allocpageref h = Ret (h, None) ∧ ∀ j, 0 ≤ j < 256 → j ∈ R).
Proof.
  intros Hu. pose proof Hu as (Hl & Hf & Hb). unfold allocpageref.
  destruct (for_loop_inv
    (λ i h', h' = h ∧ ∀ j, 0 ≤ j < i * 32 → ref_bit (pagerefs_inuse h) j = true) (ref_taken h R)
    alloc_ref_word (Z.to_nat INUSE_WORDS) 0 h) as [(h' & -> & -> & Hall)|([h' j] & -> & Hr)].
  - split; [done|]. lia.
  - intros i h' Hi (-> & Hbefore). change (Z.of_nat (Z.to_nat INUSE_WORDS)) with 8 in Hi.
    destruct (lookup_lt_is_Some_2 (pagerefs_inuse h) (Z.to_nat i)) as [w Hw]; [lia|].
    pose proof (proj1 (Forall_lookup _ _) Hf _ _ Hw) as Hwr. simpl in Hwr.
    destruct (alloc_ref_word_ok h R i w Hu) as [[Hfull ->]|?]; [lia|done|left|by right].
    exists h. split; [done|]. split; [done|]. intros j Hj.
    destruct (decide (j < i * 32)); [apply Hbefore; lia|].
    replace j with (i * 32 + (j - i * 32)) by lia. rewrite (ref_bit_at _ _ _ w) by (done || lia).
    apply (proj2 (word_full w Hwr)); [done|lia].
  - right. ostep. split; [done|]. intros j Hj. change (0 + Z.of_nat (Z.to_nat INUSE_WORDS)) with 8 in Hall.
    specialize (Hall j ltac:(lia)). rewrite Hb in Hall by done. by apply bool_decide_eq_true in Hall.
  - left. ostep. by exists (h', j).
Qed.

Lemma freepageref_ok h R R' j : inuse_ok (pagerefs_inuse h) R → j ∈ R → 0 ≤ j < 256 →
  (∀ i, i ∈ R' ↔ i ∈ R ∧ i ≠ j) →
  ∃ ws, freepageref j h = Ret (set_inuse ws h) ∧ inuse_ok ws R'.
Proof.
  intros Hu Hin Hj HR. pose proof Hu as (Hl & Hf & Hb). unfold freepageref, NPAGEREFS. bdec. cbn [c_assert]. ostep.
  assert (Hd : 0 ≤ j / 32 < 8) by (split; [apply Z.div_pos; lia|apply Z.div_lt_upper_bound; lia]).
  destruct (lookup_lt_is_Some_2 (pagerefs_inuse h) (Z.to_nat (j / 32))) as [w Hw]; [lia|].
  pose proof (proj1 (Forall_lookup _ _) Hf _ _ Hw) as Hwr. simpl in Hwr.
  rewrite (rd_lookup _ _ w) by (done || lia). ostep. specialize (Hb j Hj). unfold ref_bit in Hb.
  rewrite Hw, bool_decide_eq_true_2 in Hb by done. rewrite Hb. cbn [c_assert]. ostep.
  rewrite wr_in_range by lia. ostep. eexists. split; [done|].
  pose proof (Z.mod_pos_bound j 32 ltac:(lia)).
  eapply (inuse_change _ R _ j w _ false); [done|done|done|by apply ldiff_range| |].
  - intros k Hk. rewrite Z.ldiff_spec, Z.pow2_bits_eqb by lia.
    destruct (decide (k = j mod 32)) as [->|]; [by rewrite Z.eqb_refl, andb_false_r|].
    rewrite (proj2 (Z.eqb_neq (j mod 32) k)) by done. apply andb_true_r.
  - intros i. rewrite HR. case_decide; naive_solver.
Qed.

(** ** Heap pages *)

(** A page of the heap: its pageref, its address, its block type and the
    indices of its free blocks in free-list order. *)
Record gpage := GPage { g_ref : Z; g_addr : Z; g_blk : Z; g_free : list Z }.

Definition set_free (l : list Z) (g : gpage) : gpage := GPage (g_ref g) (g_addr g) (g_blk g) l.

Definition baddr (g : gpage) (k : Z) : Z := g_addr g + k * bsize (g_blk g).

Definition next_addr (g : gpage) (l : list Z) : Z :=
  match l with [] => 0 | k :: _ => baddr g k end.

(** The free list in memory. *)
Fixpoint links (m : gmap Z Z) (g : gpage) (l : list Z) : Prop :=
  match l with
  | [] => True
  | k :: r => m !! baddr g k = Some (next_addr g r) ∧ links m g r
  end.

Definition pref (g : gpage) (ns na : option Z) : pageref :=
  Pageref ns na (g_addr g + g_blk g)
    (match g_free g with [] => INVALID_OFFSET | k :: _ => k * bsize (g_blk g) end) (len (g_free g)).

Record shape (g : gpage) : Prop := {
  sh_ref : 0 ≤ g_ref g < 256;
  sh_blk : 0 ≤ g_blk g < 8;
  sh_addr : g_addr g mod PAGE_SIZE = 0 ∧ 0 < g_addr g < 2 ^ 32 - PAGE_SIZE;
  sh_nodup : NoDup (g_free g);
  sh_range : Forall (λ k, 0 ≤ k < bcount (g_blk g)) (g_free g)
}.

(** The invariant, without the condition that a page without live blocks goes back. *)
Record kinv0 h (G : list gpage) (B : gmap Z Z) : Prop := {
  ki_prs : length (pagerefs h) = 256%nat;
  ki_bases : length (sizebases h) = 8%nat;
  ki_all : chain All (pagerefs h) (allbase h) (g_ref <$> G);
  ki_same : ∀ b, 0 ≤ b < 8 → ∃ base, rd (sizebases h) b = Ret base ∧
    chain (Same b) (pagerefs h) base (g_ref <$> filter (λ g, g_blk g = b) G);
  ki_data : ∀ g, g ∈ G → ∃ ns na, rd (pagerefs h) (g_ref g) = Ret (pref g ns na);
  ki_shape : ∀ g, g ∈ G → shape g;
  ki_links : ∀ g, g ∈ G → links (mem h) g (g_free g);
  ki_refs : NoDup (g_ref <$> G);
  ki_inuse : inuse_ok (pagerefs_inuse h) (g_ref <$> G);
  ki_addrs : NoDup (g_addr <$> G);
  ki_kp : kp_inv (kp h);
  ki_blocks : ∀ a n, kp_blocks (kp h) !! a = Some n ↔ B !! a = Some n ∨ (n = 1 ∧ a ∈ g_addr <$> G);
  ki_big : ∀ g, g ∈ G → B !! g_addr g = None
}.

Record kinv h (G : list gpage) (B : gmap Z Z) : Prop := {
  ki_0 : kinv0 h G B;
  ki_used : ∀ g, g ∈ G → len (g_free g) < bcount (g_blk g)
}.

(** The live blocks: address and size. *)
Definition live (G : list gpage) (B : gmap Z Z) (a s : Z) : Prop :=
  (∃ g k, g ∈ G ∧ 0 ≤ k < bcount (g_blk g) ∧ (k ∉ g_free g) ∧ a = baddr g k ∧ s = bsize (g_blk g)) ∨
  (∃ n, B !! a = Some n ∧ s = n * PAGE_SIZE).

(** ** Geometry *)

Lemma baddr_range g k : shape g → 0 ≤ k < bcount (g_blk g) →
  0 ≤ k * bsize (g_blk g) ∧ k * bsize (g_blk g) + bsize (g_blk g) ≤ PAGE_SIZE ∧
  0 < baddr g k < 2 ^ 32.
Proof.
  intros [_ Hb [_ Ha] _ _] Hk. destruct (bsize_cases (g_blk g) Hb) as (_ & Hs & Hc & _).
  unfold baddr, PAGE_SIZE in *. nia.
Qed.

Lemma baddr_inj g k k' : shape g → baddr g k = baddr g k' → k = k'.
Proof.
  intros [_ Hb _ _ _] H. destruct (bsize_cases (g_blk g) Hb) as (_ & Hs & _). unfold baddr in H. nia.
Qed.

(** Different blocks of a page do not overlap. *)
Lemma baddr_disjoint g k k' : shape g → k ≠ k' →
  baddr g k + bsize (g_blk g) ≤ baddr g k' ∨ baddr g k' + bsize (g_blk g) ≤ baddr g k.
Proof.
  intros [_ Hb _ _ _] H. destruct (bsize_cases (g_blk g) Hb) as (_ & Hs & _). unfold baddr. nia.
Qed.

Lemma shape_set_free g l : shape g → NoDup l → Forall (λ k, 0 ≤ k < bcount (g_blk g)) l →
  shape (set_free l g).
Proof. intros [] ??. by split. Qed.

(** Two pages do not overlap. *)
Lemma pages_disjoint h G B g g' : kinv0 h G B → g ∈ G → g' ∈ G → g_addr g ≠ g_addr g' →
  g_addr g + PAGE_SIZE ≤ g_addr g' ∨ g_addr g' + PAGE_SIZE ≤ g_addr g.
Proof.
  intros Hi Hg Hg' Hne.
  assert (Hb : ∀ x, x ∈ G → kp_blocks (kp h) !! g_addr x = Some 1).
  { intros x Hx. apply (ki_blocks _ _ _ Hi). right. split; [done|]. by apply list_elem_of_fmap_2. }
  pose proof (kp_disjoint (kp h) _ _ _ _ (ki_kp _ _ _ Hi) (Hb g Hg) (Hb g' Hg') Hne). lia.
Qed.

Lemma page_big_disjoint h G B g a n : kinv0 h G B → g ∈ G → B !! a = Some n →
  g_addr g + PAGE_SIZE ≤ a ∨ a + n * PAGE_SIZE ≤ g_addr g.
Proof.
  intros Hi Hg HB.
  assert (Hb : kp_blocks (kp h) !! g_addr g = Some 1).
  { apply (ki_blocks _ _ _ Hi). right. split; [done|]. by apply list_elem_of_fmap_2. }
  assert (Ha : kp_blocks (kp h) !! a = Some n) by (apply (ki_blocks _ _ _ Hi); by left).
  assert (g_addr g ≠ a) by (intros <-; by rewrite (ki_big _ _ _ Hi g Hg) in HB).
  pose proof (kp_disjoint (kp h) _ _ _ _ (ki_kp _ _ _ Hi) Hb Ha). lia.
Qed.

(** Pages are determined by their reference or their address. *)
Lemma page_same_ref h G B g g' : kinv0 h G B → g ∈ G → g' ∈ G → g_ref g = g_ref g' → g = g'.
Proof.
  intros Hi Hg Hg' He. apply list_elem_of_lookup in Hg as [i Hi']. apply list_elem_of_lookup in Hg' as [j Hj].
  assert (i = j) as <-; [|congruence].
  apply (NoDup_lookup (g_ref <$> G) i j (g_ref g)); [by apply Hi|by rewrite list_lookup_fmap, Hi'|].
  by rewrite list_lookup_fmap, Hj, He.
Qed.

Lemma page_same_addr h G B g g' : kinv0 h G B → g ∈ G → g' ∈ G → g_addr g = g_addr g' → g = g'.
Proof.
  intros Hi Hg Hg' He. apply list_elem_of_lookup in Hg as [i Hi']. apply list_elem_of_lookup in Hg' as [j Hj].
  assert (i = j) as <-; [|congruence].
  apply (NoDup_lookup (g_addr <$> G) i j (g_addr g)); [by apply Hi|by rewrite list_lookup_fmap, Hi'|].
  by rewrite list_lookup_fmap, Hj, He.
Qed.

(** The free list reads only the first words of its blocks. *)
Lemma links_ext m m' g l : links m g l → (∀ k, k ∈ l → m' !! baddr g k = m !! baddr g k) → links m' g l.
Proof.
  induction l as [|k l IH]; simpl; [done|]. intros [H1 H2] Hext. split; [rewrite Hext; [done|by left]|].
  apply IH; [done|]. intros k' Hk'. apply Hext. by right.
Qed.

(** Memory changes inside one page do not touch the others, and changes inside
    a block that is not free do not touch the page's own free list. *)
Lemma links_elsewhere h G B g g' m' : kinv0 h G B → g ∈ G → g' ∈ G → g ≠ g' →
  (∀ x, (x < g_addr g ∨ g_addr g + PAGE_SIZE ≤ x) → m' !! x = mem h !! x) →
  links m' g' (g_free g').
Proof.
  intros Hi Hg Hg' Hne Hm. eapply links_ext; [by apply (ki_links _ _ _ Hi)|]. intros k Hk. apply Hm.
  pose proof (ki_shape _ _ _ Hi g' Hg') as Hs. pose proof (sh_range _ Hs) as Hr.
  rewrite Forall_forall in Hr. destruct (baddr_range g' k Hs (Hr k Hk)) as (? & ? & _).
  destruct (bsize_cases (g_blk g')) as (_ & ? & _); [apply Hs|].
  assert (g_addr g ≠ g_addr g') by (intros He; by apply Hne, (page_same_addr h G B)).
  destruct (pages_disjoint h G B g g') as [?|?]; [done..| |]; unfold baddr; lia.
Qed.

(** ** Changing the free list of one page *)

Lemma refs_filter_set_free G1 g G2 l b :
  g_ref <$> filter (λ g, g_blk g = b) (G1 ++ set_free l g :: G2)
  = g_ref <$> filter (λ g, g_blk g = b) (G1 ++ g :: G2).
Proof. rewrite !filter_app, !filter_cons, !fmap_app. simpl. by case_decide. Qed.

Lemma filter_refs_sub b (G : list gpage) : g_ref <$> filter (λ g, g_blk g = b) G ⊆ g_ref <$> G.
Proof.
  intros i [g [-> [_ Hg]%list_elem_of_filter]]%list_elem_of_fmap. by apply list_elem_of_fmap_2.
Qed.

Lemma in_middle {A} (l1 l2 : list A) (x y : A) : y ∈ l1 ++ x :: l2 ↔ y = x ∨ y ∈ l1 ++ l2.
Proof. rewrite !elem_of_app, elem_of_cons. tauto. Qed.

Lemma kinv0_update h G1 g G2 B l m' ns na : kinv0 h (G1 ++ g :: G2) B →
  rd (pagerefs h) (g_ref g) = Ret (pref g ns na) → shape (set_free l g) →
  links m' (set_free l g) l → (∀ g0, g0 ∈ G1 ++ G2 → links m' g0 (g_free g0)) →
  ∃ prs, wr (pagerefs h) (g_ref g) (pref (set_free l g) ns na) = Ret prs ∧
    kinv0 (set_pagerefs prs (set_mem m' h)) (G1 ++ set_free l g :: G2) B.
Proof.
  intros Hi Hpr Hsh Hln Hothers. destruct (wr_ok _ _ (pref (set_free l g) ns na) _ Hpr) as (prs & Hprs & Hlen).
  exists prs. split; [done|].
  assert (Hne : ∀ g0, g0 ∈ G1 ++ G2 → g_ref g ≠ g_ref g0).
  { pose proof (ki_refs _ _ _ Hi) as Hnd. rewrite fmap_app in Hnd. simpl in Hnd.
    rewrite NoDup_app, NoDup_cons in Hnd. intros g0 Hg0 He.
    apply elem_of_app in Hg0 as [H0|H0]; apply (list_elem_of_fmap_2 g_ref) in H0; rewrite <- He in H0; set_solver. }
  assert (Hext : ∀ w i pr, rd (pagerefs h) i = Ret pr →
    ∃ pr', rd prs i = Ret pr' ∧ next_of w pr' = next_of w pr).
  { intros w i pr Hi'. destruct (decide (g_ref g = i)) as [<-|Hn].
    - rewrite (rd_wr_same _ _ _ _ Hprs). eexists. split; [done|]. rewrite Hpr in Hi'. injection Hi' as <-. by destruct w.
    - rewrite (rd_wr_other _ _ _ _ _ Hprs Hn). eauto. }
  destruct Hi. split; simpl; rewrite ?fmap_app in *; try done.
  - by rewrite Hlen.
  - eapply chain_ext; [done|]. eauto.
  - intros b Hb. destruct (ki_same0 b Hb) as (base & Hbase & Hc). exists base. split; [done|].
    rewrite refs_filter_set_free. eapply chain_ext; [done|]. eauto.
  - intros g0 [->|Hg0]%in_middle; [exists ns, na; by apply (rd_wr_same _ _ _ _ Hprs)|].
    rewrite (rd_wr_other _ _ _ _ _ Hprs) by by apply Hne. apply ki_data0, in_middle. by right.
  - intros g0 [->|Hg0]%in_middle; [done|]. apply ki_shape0, in_middle. by right.
  - intros g0 [->|Hg0]%in_middle; [done|]. by apply Hothers.
  - intros g0 [->|Hg0]%in_middle; [apply (ki_big0 g)|apply ki_big0]; apply in_middle; auto.
Qed.

Lemma set_mem_id h : set_mem (mem h) h = h.
Proof. by destruct h. Qed.

Lemma links_set_free m g l l' : links m (set_free l' g) l ↔ links m g l.
Proof. induction l as [|k l IH]; [done|]. simpl. rewrite IH. by destruct l. Qed.

Lemma free_bound (l : list Z) n : 0 ≤ n → NoDup l → Forall (λ k, 0 ≤ k < n) l → len l ≤ n.
Proof.
  intros Hn Hnd Hr. rewrite Forall_forall in Hr.
  assert (Hs : l ⊆+ seqZ 0 n) by (apply NoDup_submseteq; [done|]; intros k Hk%Hr; apply elem_of_seqZ; lia).
  apply submseteq_length in Hs. rewrite length_seqZ in Hs. lia.
Qed.

(** The label doalloc takes the first free block of a page. *)
Lemma doalloc_ok h G1 g G2 B k l : kinv0 h (G1 ++ g :: G2) B → g_free g = k :: l →
  ∃ h', doalloc (g_ref g) h = Ret (h', baddr g k) ∧ kinv0 h' (G1 ++ set_free l g :: G2) B ∧
    mem h' = mem h ∧ kp h' = kp h.
Proof.
  intros Hi Hf. assert (Hg : g ∈ G1 ++ g :: G2) by (apply in_middle; by left).
  pose proof (ki_shape _ _ _ Hi g Hg) as Hs. pose proof (ki_links _ _ _ Hi g Hg) as Hln.
  destruct (ki_data _ _ _ Hi g Hg) as (ns & na & Hpr). pose proof Hs as [Hr Hb [Ha1 Ha2] Hnd Hrg].
  rewrite Hf in *. simpl in Hln. destruct Hln as [Hk Hln].
  destruct (bsize_cases (g_blk g) Hb) as (_ & Hsz & _ & _ & Hc & _).
  assert (Hlen : len l < 256).
  { pose proof (free_bound (k :: l) (bcount (g_blk g)) ltac:(lia) Hnd Hrg) as H. simpl in H. lia. }
  apply NoDup_cons in Hnd as [Hkl Hnd]. apply Forall_cons in Hrg as [Hkr Hrg].
  destruct (baddr_range g k Hs Hkr) as (Hk0 & Hk1 & Hk2).
  destruct (kinv0_update h G1 g G2 B l (mem h) ns na Hi Hpr) as (prs & Hprs & Hi');
    [by apply shape_set_free|by apply links_set_free| |].
  { intros g0 Hg0. apply (ki_links _ _ _ Hi), in_middle. by right. }
  rewrite set_mem_id in Hi'. exists (set_pagerefs prs h). split_and!; try done.
  assert (Hfo : freelist_offset (pref g ns na) = k * bsize (g_blk g)) by (unfold pref; simpl; by rewrite Hf).
  assert (Hpa : PR_PAGEADDR (pref g ns na) = g_addr g) by (apply pab_addr; done || lia).
  assert (Hn : u16 (nfree (pref g ns na) - 1) = len l).
  { unfold pref. simpl. rewrite Hf. unfold u16. simpl. rewrite Z.mod_small; lia. }
  unfold doalloc. rewrite Hpr. ostep. rewrite Hfo, Hpa, Hn. rewrite (bool_decide_eq_true_2 (k * bsize (g_blk g) < PAGE_SIZE)) by lia.
  cbn [c_assert]. ostep. cbv zeta. fold (baddr g k). rewrite (u32_small (baddr g k)) by lia.
  unfold read_word. rewrite Hk. ostep.
  change (next_samesize (pref g ns na)) with ns. change (next_all (pref g ns na)) with na.
  change (pageaddr_and_blocktype (pref g ns na)) with (g_addr g + g_blk g).
  destruct l as [|k' l]; simpl next_addr; unfold pref in Hprs; simpl in Hprs.
  - rewrite bool_decide_eq_false_2 by tauto. cbn [c_assert]. ostep. simpl. by rewrite Hprs.
  - apply Forall_cons in Hrg as [Hkr' _]. destruct (baddr_range g k' Hs Hkr') as (Hq0 & Hq1 & Hq2).
    assert (Hoff : baddr g k' - g_addr g = k' * bsize (g_blk g)) by (unfold baddr; lia).
    rewrite Hoff, u32_small by (unfold PAGE_SIZE in *; lia). cbn [length]. bdec. cbn [c_assert]. ostep.
    replace (u16 (k' * bsize (g_blk g))) with (k' * bsize (g_blk g))
      by (unfold u16, PAGE_SIZE in *; rewrite Z.mod_small; lia).
    simpl. by rewrite Hprs.
Qed.

(** ** Searching the lists *)

Lemma pref_type g ns na : shape g → PR_BLOCKTYPE (pref g ns na) = g_blk g.
Proof. intros [_ ? [? ?] _ _]. apply pab_type; done || lia. Qed.

Lemma pref_addr g ns na : shape g → PR_PAGEADDR (pref g ns na) = g_addr g.
Proof. intros [_ ? [? ?] _ _]. apply pab_addr; done || lia. Qed.

Definition described h (L : list gpage) : Prop :=
  ∀ g, g ∈ L → shape g ∧ ∃ ns na, rd (pagerefs h) (g_ref g) = Ret (pref g ns na).

Lemma described_cons h g L : described h (g :: L) → described h L ∧ shape g ∧
  ∃ ns na, rd (pagerefs h) (g_ref g) = Ret (pref g ns na).
Proof. intros H. split; [intros g' Hg'; apply H; by right|apply H; by left]. Qed.

Lemma find_free_ok h b : ∀ L fuel start, chain (Same b) (pagerefs h) start (g_ref <$> L) →
  described h L → (∀ g, g ∈ L → g_blk g = b) → (length L < fuel)%nat →
  (∃ g, g ∈ L ∧ g_free g ≠ [] ∧ find_free fuel start b h = Ret (Some (g_ref g))) ∨
  (find_free fuel start b h = Ret None ∧ ∀ g, g ∈ L → g_free g = []).
Proof.
  induction L as [|g L IH]; intros fuel start Hc Hd Hb Hf; simpl in Hc.
  - right. subst. destruct fuel; (split; [done|]); intros g Hg; by apply not_elem_of_nil in Hg.
  - destruct Hc as (-> & pr & Hpr & Hc). apply described_cons in Hd as (Hd & Hs & ns & na & Hpr').
    rewrite Hpr in Hpr'. injection Hpr' as ->. destruct fuel as [|fuel]; [simpl in Hf; lia|].
    cbn [find_free]. rewrite Hpr. ostep. rewrite pref_type, (Hb g) by (done || by left).
    rewrite (bool_decide_eq_true_2 (b = b)) by done. cbn [c_assert]. ostep. simpl nfree.
    case_bool_decide as Hn.
    + left. exists g. split; [by left|]. split; [|done]. intros He. rewrite He in Hn. simpl in Hn. lia.
    + destruct (IH fuel ns) as [(g' & Hg' & ? & ?)|[? Hall]]; try done.
      * intros g' Hg'. apply Hb. by right.
      * simpl in Hf. lia.
      * left. exists g'. split; [by right|done].
      * right. split; [done|]. intros g' [->|Hg']%elem_of_cons; [|auto].
        apply length_zero_iff_nil. lia.
Qed.

Definition in_page (g : gpage) (p : Z) : Prop := g_addr g ≤ p < g_addr g + PAGE_SIZE.

Lemma find_page_ok h p : ∀ L fuel start, chain All (pagerefs h) start (g_ref <$> L) →
  described h L → (length L < fuel)%nat →
  (∃ g, g ∈ L ∧ in_page g p ∧ find_page fuel start p h = Ret (Some (g_ref g))) ∨
  (find_page fuel start p h = Ret None ∧ ∀ g, g ∈ L → ¬ in_page g p).
Proof.
  induction L as [|g L IH]; intros fuel start Hc Hd Hf; simpl in Hc.
  - right. subst. destruct fuel; (split; [done|]); intros g Hg; by apply not_elem_of_nil in Hg.
  - destruct Hc as (-> & pr & Hpr & Hc). apply described_cons in Hd as (Hd & Hs & ns & na & Hpr').
    rewrite Hpr in Hpr'. injection Hpr' as ->. destruct fuel as [|fuel]; [simpl in Hf; lia|].
    cbn [find_page]. rewrite Hpr. ostep. rewrite pref_type, pref_addr by done. cbv zeta.
    pose proof Hs as [_ ? [_ ?] _ _]. unfold NSIZES.
    rewrite (bool_decide_eq_true_2 (0 ≤ g_blk g < 8)) by done. cbn [c_assert]. ostep.
    rewrite u32_small by (unfold PAGE_SIZE in *; lia). unfold in_page in *.
    destruct (bool_decide _ && bool_decide _) eqn:Hin.
    + cbool. left. exists g. split; [by left|]. done.
    + destruct (IH fuel na) as [(g' & Hg' & ? & ?)|[? Hall]]; try done.
      * simpl in Hf. lia.
      * left. exists g'. split; [by right|done].
      * right. split; [done|]. intros g' [->|Hg']%elem_of_cons; [|auto].
        apply andb_false_iff in Hin as [Hin|Hin]; cbool; lia.
Qed.

(** ** A fresh page *)

Definition all_free (n : Z) : list Z := reverse (seqZ 0 n).

Lemma all_free_length n : 0 ≤ n → len (all_free n) = n.
Proof. intros. unfold all_free. rewrite length_reverse, length_seqZ. lia. Qed.

Lemma all_free_elem n k : k ∈ all_free n ↔ 0 ≤ k < n.
Proof. unfold all_free. rewrite elem_of_reverse, elem_of_seqZ. lia. Qed.

Lemma all_free_S (n : nat) : all_free (Z.of_nat (S n)) = Z.of_nat n :: all_free (Z.of_nat n).
Proof. unfold all_free. rewrite seqZ_S, reverse_app. done. Qed.

Lemma links_all_free m g (n : nat) :
  (∀ i, 0 ≤ i < Z.of_nat n → m !! baddr g i = Some (if decide (i = 0) then 0 else baddr g (i - 1))) →
  links m g (all_free (Z.of_nat n)).
Proof.
  induction n as [|n IH]; intros Hm; [done|]. rewrite all_free_S. split.
  - rewrite Hm by lia. destruct n as [|n]; [done|]. rewrite decide_False by lia.
    rewrite all_free_S. simpl. do 2 f_equal. lia.
  - apply IH. intros i Hi. apply Hm. lia.
Qed.

Lemma link_blocks_ok a b (g := GPage 0 a b []) h : 0 ≤ b < 8 → 0 < a < 2 ^ 32 - PAGE_SIZE →
  ∃ m, for_each (Z.to_nat (bcount b - 1)) 1 (link_block a (bsize b)) (write_word a 0 h) = Ret (set_mem m h) ∧
    (∀ i, 0 ≤ i < bcount b → m !! baddr g i = Some (if decide (i = 0) then 0 else baddr g (i - 1))) ∧
    (∀ x, (x < a ∨ a + PAGE_SIZE ≤ x) → m !! x = mem h !! x).
Proof.
  intros Hb Ha. destruct (bsize_cases b Hb) as (_ & Hsz & Hcs & _ & Hc & _).
  destruct (for_each_inv (λ n h', ∃ m, h' = set_mem m h ∧
    (∀ i, 0 ≤ i < n → m !! baddr g i = Some (if decide (i = 0) then 0 else baddr g (i - 1))) ∧
    (∀ x, (x < a ∨ a + PAGE_SIZE ≤ x) → m !! x = mem h !! x))
    (link_block a (bsize b)) (Z.to_nat (bcount b - 1)) 1 (write_word a 0 h)) as (h' & -> & m & -> & Hm & Ho).
  - exists (<[a := 0]> (mem h)). split_and!; [done|..].
    + intros i Hi. replace i with 0 by lia. replace (baddr g 0) with a by (unfold baddr; simpl; lia).
      by rewrite lookup_insert_eq.
    + intros x Hx. rewrite lookup_insert_ne; [done|]. unfold PAGE_SIZE in *. lia.
  - intros i h' Hi (m & -> & Hm & Ho). unfold link_block.
    assert (Hr : 0 ≤ i * bsize b ∧ i * bsize b + bsize b ≤ PAGE_SIZE ∧ 0 ≤ (i - 1) * bsize b < PAGE_SIZE) by nia.
    assert (Hu : u32 (a + i * bsize b) = baddr g i ∧ u32 (a + (i - 1) * bsize b) = baddr g (i - 1)).
    { unfold baddr. simpl. split; apply u32_small; lia. }
    destruct Hu as [-> ->].
    rewrite bool_decide_eq_true_2 by (unfold baddr; simpl; nia). cbn [c_assert]. ostep.
    eexists. split; [done|]. exists (<[baddr g i := baddr g (i - 1)]> m). split_and!; [done|..].
    + intros k Hk. destruct (decide (k = i)) as [->|].
      * rewrite lookup_insert_eq. by rewrite decide_False by lia.
      * rewrite lookup_insert_ne by (unfold baddr; simpl; nia). apply Hm. lia.
    + intros x Hx. rewrite lookup_insert_ne; [by apply Ho|]. unfold baddr. simpl. lia.
  - exists m. split; [done|]. split; [|done]. intros i Hi. apply Hm. lia.
Qed.

Definition fresh_page (j a b : Z) : gpage := GPage j a b (all_free (bcount b)).

Lemma fresh_pref j a b ns na : 0 ≤ b < 8 →
  pref (fresh_page j a b) ns na = Pageref ns na (a + b) ((bcount b - 1) * bsize b) (bcount b).
Proof.
  intros Hb. destruct (bsize_cases b Hb) as (_ & _ & _ & _ & Hc & _). unfold pref, fresh_page. simpl.
  rewrite all_free_length by lia. f_equal.
  replace (bcount b) with (Z.of_nat (S (Z.to_nat (bcount b - 1)))) by lia. rewrite all_free_S. f_equal. lia.
Qed.

Lemma fresh_shape j a b : 0 ≤ j < 256 → 0 ≤ b < 8 → a mod PAGE_SIZE = 0 → 0 < a < 2 ^ 32 - PAGE_SIZE →
  shape (fresh_page j a b).
Proof.
  intros. split; try done.
  - simpl. unfold all_free. rewrite reverse_Permutation. apply NoDup_seqZ.
  - simpl. apply Forall_forall. intros k. apply all_free_elem.
Qed.

(** The page just taken is none of the heap's and overlaps none of them. *)
Lemma fresh_block h G B p a : kinv0 h G B → kp_inv p → kp_blocks (kp h) !! a = None →
  kp_blocks p = <[a := 1]> (kp_blocks (kp h)) →
  B !! a = None ∧ (a ∉ g_addr <$> G) ∧ (a mod PAGE_SIZE = 0 ∧ 0 < a < 2 ^ 32 - PAGE_SIZE) ∧
  (∀ g, g ∈ G → a + PAGE_SIZE ≤ g_addr g ∨ g_addr g + PAGE_SIZE ≤ a).
Proof.
  intros Hi Hp Hnew Hblk. pose proof (ki_blocks _ _ _ Hi) as Hb.
  assert (HaG : a ∉ g_addr <$> G).
  { intros Hin. pose proof (proj2 (Hb a 1) (or_intror (conj eq_refl Hin))) as H. congruence. }
  assert (Ha : kp_blocks p !! a = Some 1) by by rewrite Hblk, lookup_insert_eq.
  split_and!.
  - destruct (B !! a) as [n|] eqn:E; [|done]. pose proof (proj2 (Hb a n) (or_introl E)). congruence.
  - done.
  - by destruct (kp_range p a 1 Hp Ha) as (_ & _ & ? & _).
  - destruct (kp_range p a 1 Hp Ha) as (? & _ & _ & ?). lia.
  - destruct (kp_range p a 1 Hp Ha) as (? & _ & _ & ?). lia.
  - intros g Hg. assert (Hga : g_addr g ≠ a) by (intros <-; by apply HaG, list_elem_of_fmap_2).
    assert (Hg1 : kp_blocks p !! g_addr g = Some 1).
    { rewrite Hblk, lookup_insert_ne by done. apply Hb. right. split; [done|]. by apply list_elem_of_fmap_2. }
    pose proof (kp_disjoint p _ _ _ _ Hp Ha Hg1). lia.
Qed.

Lemma new_page_ok h G B ws p j a b : kinv0 h G B → 0 ≤ j < 256 → j ∉ g_ref <$> G →
  inuse_ok ws (j :: (g_ref <$> G)) → kp_inv p → kp_blocks (kp h) !! a = None →
  kp_blocks p = <[a := 1]> (kp_blocks (kp h)) → 0 ≤ b < 8 →
  ∃ h', new_page b (bsize b) j a (set_kp p (set_inuse ws h)) = Ret h' ∧
    kinv0 h' (fresh_page j a b :: G) B ∧ (∀ x, (x < a ∨ a + PAGE_SIZE ≤ x) → mem h' !! x = mem h !! x).
Proof.
  intros Hi Hj HjG Hws Hp Hnew Hblk Hb. destruct (fresh_block h G B p a) as (HBa & HaG & [Ham Har] & Hdis); [done..|].
  destruct (bsize_cases b Hb) as (_ & Hsz & Hcs & Hdiv & Hc & _).
  destruct (link_blocks_ok a b (set_kp p (set_inuse ws h)) Hb Har) as (m & Hlink & Hm & Ho).
  unfold new_page. cbv zeta. rewrite Hdiv, Hlink. ostep.
  assert (Hu : u16 ((bcount b - 1) * bsize b) = (bcount b - 1) * bsize b).
  { unfold u16, PAGE_SIZE in *. apply Z.mod_small. nia. }
  rewrite Hu, bool_decide_eq_true_2 by done. cbn [c_assert]. ostep.
  destruct (ki_same _ _ _ Hi b Hb) as (base & Hbase & Hcb). simpl sizebases. rewrite Hbase. ostep.
  rewrite MKPAB_add by (done || lia). simpl allbase. simpl pagerefs.
  destruct (rd_in_range (pagerefs h) j) as (old & Hold & _); [rewrite (ki_prs _ _ _ Hi); lia|].
  rewrite <- (fresh_pref j a b base (allbase h) Hb).
  destruct (wr_ok _ _ (pref (fresh_page j a b) base (allbase h)) _ Hold) as (prs & Hprs & Hlp). rewrite Hprs. ostep.
  destruct (wr_ok _ _ (Some j) _ Hbase) as (bs & Hbs & Hlb). simpl sizebases. rewrite Hbs. ostep.
  eexists. split; [done|]. split; [|exact Ho].
  assert (Hother : ∀ i, i ∈ g_ref <$> G → rd prs i = rd (pagerefs h) i).
  { intros i Hin. apply (rd_wr_other _ _ _ _ _ Hprs). by intros ->. }
  assert (Hchain : ∀ w start l, l ⊆ g_ref <$> G → chain w (pagerefs h) start l → chain w prs start l).
  { intros w start l Hsub Hch. eapply chain_ext; [done|]. intros i pr Hin Hpr. exists pr. split; [|done].
    rewrite Hother; [done|set_solver]. }
  destruct Hi. split; simpl.
  - by rewrite Hlp.
  - by rewrite Hlb.
  - split; [done|]. exists (pref (fresh_page j a b) base (allbase h)). split; [by eapply rd_wr_same|].
    by apply Hchain.
  - intros b' Hb'. rewrite filter_cons. simpl. case_decide as Heq.
    + subst b'. exists (Some j). split; [by eapply rd_wr_same|]. simpl. split; [done|].
      exists (pref (fresh_page j a b) base (allbase h)). split; [by eapply rd_wr_same|].
      apply Hchain; [apply filter_refs_sub|done].
    + destruct (ki_same0 b' Hb') as (base' & Hbase' & Hc'). exists base'. split.
      * by rewrite (rd_wr_other _ _ _ _ _ Hbs).
      * apply Hchain; [apply filter_refs_sub|done].
  - intros g [->|Hg]%elem_of_cons; [exists base, (allbase h); by eapply rd_wr_same|].
    rewrite Hother by by apply list_elem_of_fmap_2. auto.
  - intros g [->|Hg]%elem_of_cons; [by apply fresh_shape|auto].
  - intros g [->|Hg]%elem_of_cons.
    + simpl. replace (bcount b) with (Z.of_nat (Z.to_nat (bcount b))) by lia. apply links_all_free.
      intros i Hi'. apply Hm. lia.
    + eapply links_ext; [by apply ki_links0|]. intros k Hk. apply Ho.
      pose proof (ki_shape0 g Hg) as Hs. pose proof (sh_range _ Hs) as Hr. rewrite Forall_forall in Hr.
      destruct (baddr_range g k Hs (Hr k Hk)) as (? & ? & _). destruct (bsize_cases (g_blk g)) as (_ & ? & _); [apply Hs|].
      destruct (Hdis g Hg); unfold baddr; lia.
  - by apply NoDup_cons.
  - done.
  - by apply NoDup_cons.
  - done.
  - intros x n. rewrite Hblk, lookup_insert_Some, ki_blocks0, elem_of_cons.
    destruct (decide (x = a)) as [->|]; [|naive_solver]. rewrite HBa. naive_solver.
  - intros g [->|Hg]%elem_of_cons; [done|auto].
Qed.

(** ** The effect of an allocation on the live blocks *)

Definition allocated (G : list gpage) (B : gmap Z Z) (G' : list gpage) (B' : gmap Z Z) (a s : Z) : Prop :=
  (∀ x t, live G' B' x t ↔ (x = a ∧ t = s) ∨ live G B x t) ∧
  (∀ x t, live G B x t → a + s ≤ x ∨ x + t ≤ a).

(** The contents of the live blocks survive. *)
Definition keeps h (G : list gpage) (B : gmap Z Z) h' : Prop :=
  ∀ a s x, live G B a s → a ≤ x < a + s → mem h' !! x = mem h !! x.

Lemma keeps_same h G B h' : mem h' = mem h → keeps h G B h'.
Proof. intros He a s x _ _. by rewrite He. Qed.

Lemma live_outside_page h g G B x t : kinv0 h (g :: G) B → live G B x t →
  x + t ≤ g_addr g ∨ g_addr g + PAGE_SIZE ≤ x.
Proof.
  intros Hi. assert (Hg : g ∈ g :: G) by by left. intros [(g0 & k & Hg0 & Hk & _ & -> & ->)|(n & HB & ->)].
  - assert (Hne : g_addr g ≠ g_addr g0).
    { pose proof (ki_addrs _ _ _ Hi) as Hnd. apply NoDup_cons in Hnd as [Hnd _]. intros He. apply Hnd.
      rewrite He. by apply list_elem_of_fmap_2. }
    assert (Hg0' : g0 ∈ g :: G) by by right. pose proof (ki_shape _ _ _ Hi g0 Hg0') as Hs.
    destruct (baddr_range g0 k Hs Hk) as (? & ? & _).
    destruct (pages_disjoint h _ B g g0 Hi Hg Hg0' Hne); unfold baddr; lia.
  - destruct (page_big_disjoint h _ B g x n Hi Hg HB); lia.
Qed.

Lemma take_block h G1 g G2 B k l : kinv0 h (G1 ++ g :: G2) B → g_free g = k :: l →
  allocated (G1 ++ g :: G2) B (G1 ++ set_free l g :: G2) B (baddr g k) (bsize (g_blk g)).
Proof.
  intros Hi Hf. assert (Hg : g ∈ G1 ++ g :: G2) by (apply in_middle; by left).
  pose proof (ki_shape _ _ _ Hi g Hg) as Hs. pose proof Hs as [_ Hb _ Hnd Hrg]. rewrite Hf in *.
  apply NoDup_cons in Hnd as [Hkl Hnd]. apply Forall_cons in Hrg as [Hkr Hrg].
  destruct (baddr_range g k Hs Hkr) as (? & ? & _). split.
  - intros x t. unfold live. split.
    + intros [(g0 & k0 & [->|Hg0]%in_middle & Hk0 & Hn0 & -> & ->)|?]; [| |by auto].
      * destruct (decide (k0 = k)) as [->|Hne]; [by left|]. right. left. exists g, k0.
        simpl in *. split_and!; try (done || lia). rewrite Hf. set_solver.
      * right. left. exists g0, k0. simpl in *; split_and!; try (done || lia). apply in_middle. by right.
    + intros [[-> ->]|[(g0 & k0 & [->|Hg0]%in_middle & Hk0 & Hn0 & -> & ->)|?]]; [| | |by auto].
      * left. exists (set_free l g), k. simpl in *; split_and!; try (done || lia). apply in_middle. by left.
      * left. exists (set_free l g), k0. simpl in *; split_and!; try (done || lia); [apply in_middle; by left|].
        rewrite Hf in Hn0. set_solver.
      * left. exists g0, k0. simpl in *; split_and!; try (done || lia). apply in_middle. by right.
  - intros x t [(g0 & k0 & Hg0 & Hk0 & Hn0 & -> & ->)|(n & HB & ->)].
    + destruct (decide (g_addr g = g_addr g0)) as [He|Hne].
      * apply (page_same_addr h (G1 ++ g :: G2) B) in He as <-; [|done..]. apply baddr_disjoint; [done|].
        intros <-. rewrite Hf in Hn0. set_solver.
      * pose proof (ki_shape _ _ _ Hi g0 Hg0) as Hs0. destruct (baddr_range g0 k0 Hs0 Hk0) as (? & ? & _).
        destruct (pages_disjoint h _ B g g0 Hi Hg Hg0 Hne); unfold baddr; lia.
    + destruct (page_big_disjoint h _ B g x n Hi Hg HB); unfold baddr; lia.
Qed.

Lemma live_fresh G B j a b x t : live (fresh_page j a b :: G) B x t ↔ live G B x t.
Proof.
  unfold live. split; (intros [(g & k & Hg & Hk & Hn & ?)|?]; [|by right]); left; exists g, k; split_and!; try (tauto || lia).
  - apply elem_of_cons in Hg as [->|?]; [|done]. simpl in *. by rewrite all_free_elem in Hn.
  - by right.
Qed.

Lemma kinv0_pages h G B : kinv0 h G B → (length G ≤ 256)%nat.
Proof.
  intros Hi. pose proof (free_bound (g_ref <$> G) 256 ltac:(lia) (ki_refs _ _ _ Hi)) as H.
  rewrite length_fmap in H. enough (len G ≤ 256) by lia. apply H. apply Forall_forall.
  intros i [g [-> Hg]]%list_elem_of_fmap. by apply (ki_shape _ _ _ Hi).
Qed.

Lemma kinv_described h G B L : kinv0 h G B → L ⊆ G → described h L.
Proof. intros Hi Hsub g Hg%Hsub. split; [by apply (ki_shape _ _ _ Hi)|by apply (ki_data _ _ _ Hi)]. Qed.

Lemma kinv_take h G1 g G2 B k l : kinv0 h (G1 ++ set_free l g :: G2) B →
  (∀ g0, g0 ∈ G1 ++ G2 → len (g_free g0) < bcount (g_blk g0)) → g_free g = k :: l → shape g →
  kinv h (G1 ++ set_free l g :: G2) B.
Proof.
  intros Hi Hu Hf Hs. split; [done|]. intros g0 [->|Hg0]%in_middle; [|by apply Hu]. simpl.
  pose proof Hs as [_ Hb _ Hnd Hrg]. rewrite Hf in *.
  destruct (bsize_cases (g_blk g) Hb) as (_ & _ & _ & _ & Hc & _).
  pose proof (free_bound (k :: l) (bcount (g_blk g)) ltac:(lia) Hnd Hrg) as H. simpl in H. lia.
Qed.

(** What an allocation of [sz] bytes may do. *)
Definition malloc_post (sz : Z) h G B h' a : Prop :=
  keeps h G B h' ∧
  ((a = 0 ∧ kinv h' G B) ∨
  ∃ G' B' s, kinv h' G' B' ∧ a ≠ 0 ∧ a mod 16 = 0 ∧ sz ≤ s ∧ allocated G B G' B' a s).

Lemma baddr_aligned g k : shape g → baddr g k mod 16 = 0.
Proof.
  intros [_ Hb [Ha _] _ _]. destruct (bsize_cases (g_blk g) Hb) as (_ & _ & _ & _ & _ & Hm).
  unfold baddr, PAGE_SIZE in *. apply Z.mod_divide in Ha as [x ->]; [|lia].
  apply Z.mod_divide in Hm as [y ->]; [|lia]. apply Z.mod_divide; [lia|]. exists (x * 256 + k * y). lia.
Qed.

(** Allocation from a page with a free block. *)
Lemma doalloc_post sz h G1 g G2 B : kinv0 h (G1 ++ g :: G2) B → g_free g ≠ [] →
  (∀ g0, g0 ∈ G1 ++ G2 → len (g_free g0) < bcount (g_blk g0)) → sz ≤ bsize (g_blk g) →
  ∃ h' a G' s, doalloc (g_ref g) h = Ret (h', a) ∧ kinv h' G' B ∧ a ≠ 0 ∧ a mod 16 = 0 ∧ sz ≤ s ∧
    allocated (G1 ++ g :: G2) B G' B a s ∧ mem h' = mem h.
Proof.
  intros Hi Hne Hu Hsz. destruct (g_free g) as [|k l] eqn:Hf; [done|].
  destruct (doalloc_ok h G1 g G2 B k l Hi Hf) as (h' & Hrun & Hi' & Hm & _).
  assert (Hg : g ∈ G1 ++ g :: G2) by (apply in_middle; by left).
  pose proof (ki_shape _ _ _ Hi g Hg) as Hs. pose proof (sh_range _ Hs) as Hr. rewrite Hf in Hr.
  apply Forall_cons in Hr as [Hk _]. destruct (baddr_range g k Hs Hk) as (_ & _ & Hpos).
  exists h', (baddr g k), (G1 ++ set_free l g :: G2), (bsize (g_blk g)). split_and!; [done| |lia| |done| |done].
  - by eapply kinv_take.
  - by apply baddr_aligned.
  - by eapply take_block.
Qed.

(** Taking a pageref and giving it back when there is no page. *)
Lemma kinv0_kp h G B ws p : kinv0 h G B → inuse_ok ws (g_ref <$> G) → kp_inv p →
  kp_blocks p = kp_blocks (kp h) → kinv0 (set_inuse ws (set_kp p h)) G B.
Proof. intros [] Hws Hp Hb. split; try done. intros a n. simpl. by rewrite Hb. Qed.

Lemma subpage_kmalloc_ok sz h G B : kinv h G B → 0 ≤ sz < 2048 →
  ∃ h' a, subpage_kmalloc sz h = Ret (h', a) ∧ malloc_post sz h G B h' a.
Proof.
  intros Hk Hsz. pose proof (ki_0 _ _ _ Hk) as Hi. pose proof (kinv0_pages h G B Hi) as Hlen.
  unfold subpage_kmalloc. destruct (blocktype_ok sz) as (b & -> & Hb & Hle & _); [lia|]. ostep.
  destruct (bsize_cases b Hb) as (-> & _ & _ & _ & Hc & _). ostep.
  destruct (ki_same _ _ _ Hi b Hb) as (base & -> & Hch). ostep.
  destruct (find_free_ok h b (filter (λ g, g_blk g = b) G) (Z.to_nat NPAGEREFS + 1) base Hch)
    as [(g & Hg & Hne & ->)|[-> Hall]].
  - apply (kinv_described h G B); [done|]. intros g. by rewrite list_elem_of_filter; intros [_ ?].
  - intros g. by rewrite list_elem_of_filter; intros [? _].
  - pose proof (length_filter (λ g, g_blk g = b) G). change (Z.to_nat NPAGEREFS) with 256%nat. lia.
  - ostep. apply list_elem_of_filter in Hg as [Hgb Hg]. apply list_elem_of_split in Hg as (G1 & G2 & ->).
    destruct (doalloc_post sz h G1 g G2 B Hi Hne) as (h' & a & G' & s & -> & ? & ? & ? & ? & ? & ?).
    + intros g0 Hg0. apply (ki_used _ _ _ Hk), in_middle. by right.
    + by rewrite Hgb.
    + exists h', a. split; [done|]. split; [by apply keeps_same|]. right. by exists G', B, s.
  - ostep. destruct (allocpageref_ok h (g_ref <$> G) (ki_inuse _ _ _ Hi)) as [([h1 j] & -> & ws & Hh1 & Hj & HjG & Hws)|[-> _]].
    2: { ostep. exists h, 0. split; [done|]. split; [by apply keeps_same|]. by left. }
    simpl in *. subst h1. ostep.
    destruct (kp_alloc_spec (kp h) 1 (ki_kp _ _ _ Hi)) as (p & a & Hal & Hp & [(-> & Hbl)|(Ha & Hnew & Hbl)]); [lia|..];
      simpl kp; rewrite Hal; ostep.
    + rewrite bool_decide_eq_true_2 by done.
      destruct (freepageref_ok (set_kp p (set_inuse ws h)) (j :: (g_ref <$> G)) (g_ref <$> G) j Hws)
        as (ws' & -> & Hws'); [by left|done|set_solver|]. ostep.
      eexists _, 0. split; [done|]. split; [by apply keeps_same|]. left. split; [done|]. split; [by apply (kinv0_kp h)|apply (ki_used _ _ _ Hk)].
    + rewrite bool_decide_eq_false_2 by done.
      destruct (new_page_ok h G B ws p j a b Hi Hj HjG Hws Hp Hnew Hbl Hb) as (h3 & -> & Hi3 & Hm3). ostep.
      destruct (doalloc_post sz h3 [] (fresh_page j a b) G B Hi3) as (h' & x & G' & s & Hrun & ? & ? & ? & ? & Hall' & Hm').
      * intros He. pose proof (all_free_length (bcount b)) as Hlf. simpl in He. rewrite He in Hlf. simpl in Hlf. lia.
      * intros g0 Hg0. by apply (ki_used _ _ _ Hk).
      * done.
      * simpl in Hrun. rewrite Hrun. exists h', x. split; [done|]. split.
        { intros y t z Hl Hz. rewrite Hm'. apply Hm3. pose proof (live_outside_page _ _ _ _ _ _ Hi3 Hl) as Hd.
          simpl in Hd. lia. }
        right. exists G', B, s. split_and!; try done.
        destruct Hall' as [Hl1 Hl2]. split; intros y t; [rewrite Hl1|intros Hly; apply Hl2];
          simpl app; by rewrite live_fresh.
Qed.

Lemma big_post sz h G B p n a : kinv h G B → 0 < n → sz ≤ n * PAGE_SIZE → kp_inv p → a ≠ 0 →
  kp_blocks (kp h) !! a = None → kp_blocks p = <[a := n]> (kp_blocks (kp h)) →
  malloc_post sz h G B (set_kp p h) a.
Proof.
  intros Hk Hn Hsz Hp Ha Hnew Hbl. pose proof (ki_0 _ _ _ Hk) as Hi.
  assert (Hpa : kp_blocks p !! a = Some n) by by rewrite Hbl, lookup_insert_eq.
  destruct (kp_range p a n Hp Hpa) as (_ & _ & Ham & _).
  assert (HaG : a ∉ g_addr <$> G).
  { intros Hin. pose proof (proj2 (ki_blocks _ _ _ Hi a 1) (or_intror (conj eq_refl Hin))). congruence. }
  assert (HBa : B !! a = None).
  { destruct (B !! a) as [m|] eqn:E; [|done]. pose proof (proj2 (ki_blocks _ _ _ Hi a m) (or_introl E)). congruence. }
  assert (Hold : ∀ x m, kp_blocks (kp h) !! x = Some m → a + n * PAGE_SIZE ≤ x ∨ x + m * PAGE_SIZE ≤ a).
  { intros x m Hx. assert (x ≠ a) by congruence. apply (kp_disjoint p a n x m); [done|done| |done].
    by rewrite Hbl, lookup_insert_ne. }
  split; [by apply keeps_same|]. right. exists G, (<[a := n]> B), (n * PAGE_SIZE). split_and!; try done.
  - split; [|apply Hk]. destruct Hi. split; try done; simpl.
    + intros x m. rewrite Hbl, !lookup_insert_Some, ki_blocks0. destruct (decide (x = a)) as [->|]; naive_solver.
    + intros g Hg. rewrite lookup_insert_ne; [by apply ki_big0|]. intros ->. by apply HaG, list_elem_of_fmap_2.
  - unfold PAGE_SIZE in *. apply Z.mod_divide in Ham as [x ->]; [|lia]. apply Z.mod_divide; [lia|]. exists (x * 256). lia.
  - split.
    + intros x t. unfold live. split.
      * intros [?|(m & [[<- <-]|[? ?]]%lookup_insert_Some & ->)]; [by auto|by left|]. right. right. eauto.
      * intros [[-> ->]|[?|(m & Hm & ->)]]; [right; exists n; by rewrite lookup_insert_eq|by auto|].
        right. exists m. rewrite lookup_insert_ne; [done|]. congruence.
    + intros x t [(g & k & Hg & Hkr & _ & -> & ->)|(m & Hm & ->)].
      * pose proof (ki_shape _ _ _ Hi g Hg) as Hs. destruct (baddr_range g k Hs Hkr) as (? & ? & _).
        destruct (Hold (g_addr g) 1); [|unfold baddr; lia..].
        apply (ki_blocks _ _ _ Hi). right. split; [done|]. by apply list_elem_of_fmap_2.
      * apply Hold, (ki_blocks _ _ _ Hi). by left.
Qed.

Lemma kmalloc_ok sz h G B : kinv h G B → 0 ≤ sz ≤ 2 ^ 32 - PAGE_SIZE →
  ∃ h' a, kmalloc sz h = Ret (h', a) ∧ malloc_post sz h G B h' a.
Proof.
  intros Hk Hsz. unfold kmalloc, LARGEST_SUBPAGE_SIZE. case_bool_decide as Hbig; [|apply subpage_kmalloc_ok; [done|lia]].
  cbv zeta. unfold PAGE_SIZE in Hsz. rewrite u32_small by (unfold PAGE_SIZE; lia).
  pose proof (Z.div_mod (sz + PAGE_SIZE - 1) PAGE_SIZE) as Hdm.
  pose proof (Z.mod_pos_bound (sz + PAGE_SIZE - 1) PAGE_SIZE) as Hmp.
  set (n := (sz + PAGE_SIZE - 1) / PAGE_SIZE) in *. unfold PAGE_SIZE in Hdm, Hmp.
  destruct (kp_alloc_spec (kp h) n (ki_kp _ _ _ (ki_0 _ _ _ Hk))) as (p & a & -> & Hp & [(-> & Hbl)|(Ha & Hnew & Hbl)]); [lia|..];
    ostep.
  - eexists _, 0. split; [done|]. split; [by apply keeps_same|]. left. split; [done|]. split; [|apply Hk].
    destruct Hk as [[] _]. split; try done. intros x m. simpl. by rewrite Hbl.
  - eexists _, a. split; [done|]. eapply big_post; try done; unfold PAGE_SIZE; lia.
Qed.

(** ** Taking a page off its lists *)

Lemma relinked_chain w b l h h' w' start l' : relinked w b l h h' →
  chain w' (pagerefs h) start l' →
  (∀ v pr, next_of w' (set_next w v pr) = next_of w' pr) ∨ (∀ i, i ∈ l' → i ∉ l) →
  chain w' (pagerefs h') start l'.
Proof.
  intros (_ & _ & _ & _ & _ & H & _) Hc Hor. eapply chain_ext; [done|]. intros i pr Hi Hpr.
  destruct (H i pr Hpr) as (pr' & Hpr' & [->|[Hin [v ->]]]); [eauto|].
  eexists. split; [done|]. destruct Hor as [Hor|Hor]; [apply Hor|]. by destruct (Hor i Hi).
Qed.

Lemma relinked_described w b l h h' L : relinked w b l h h' → described h L → described h' L.
Proof.
  intros (_ & _ & _ & _ & _ & H & _) Hd g Hg. destruct (Hd g Hg) as (Hs & ns & na & Hpr). split; [done|].
  destruct (H _ _ Hpr) as (pr' & -> & [->|[_ [v ->]]]); [eauto|]. destruct w; simpl; eauto.
Qed.

Lemma NoDup_refs_filter G b : NoDup (g_ref <$> G) → NoDup (g_ref <$> filter (λ g, g_blk g = b) G).
Proof.
  induction G as [|g G IH]; [done|]. simpl. rewrite NoDup_cons. intros [Hg Hnd]. rewrite filter_cons.
  case_decide; [|auto]. simpl. rewrite NoDup_cons. split; [|auto]. intros Hin. by apply Hg, (filter_refs_sub b).
Qed.

Lemma remove_lists_ok h G1 g G2 B : kinv0 h (G1 ++ g :: G2) B →
  ∃ h', remove_lists (g_ref g) (g_blk g) h = Ret h' ∧
    pagerefs_inuse h' = pagerefs_inuse h ∧ mem h' = mem h ∧ kp h' = kp h ∧
    length (pagerefs h') = 256%nat ∧ length (sizebases h') = 8%nat ∧
    chain All (pagerefs h') (allbase h') (g_ref <$> G1 ++ G2) ∧
    (∀ b, 0 ≤ b < 8 → ∃ base, rd (sizebases h') b = Ret base ∧
       chain (Same b) (pagerefs h') base (g_ref <$> filter (λ g, g_blk g = b) (G1 ++ G2))) ∧
    described h' (G1 ++ g :: G2).
Proof.
  intros Hi. pose proof (kinv0_pages _ _ _ Hi) as Hlen. rewrite length_app in Hlen. simpl in Hlen.
  assert (Hsh : shape g) by (apply (ki_shape _ _ _ Hi), in_middle; by left).
  pose proof (sh_blk _ Hsh) as Hb. pose proof (ki_refs _ _ _ Hi) as Hnd.
  pose proof (NoDup_refs_filter _ (g_blk g) Hnd) as Hndb.
  destruct (ki_same _ _ _ Hi (g_blk g) Hb) as (base & Hbase & Hcb).
  set (fl := λ G : list gpage, g_ref <$> filter (λ g', g_blk g' = g_blk g) G) in *.
  assert (Hfl : fl (G1 ++ g :: G2) = fl G1 ++ g_ref g :: fl G2).
  { unfold fl. rewrite filter_app, filter_cons, decide_True by done. by rewrite fmap_app. }
  change (g_ref <$> filter (λ g', g_blk g' = g_blk g) (G1 ++ g :: G2)) with (fl (G1 ++ g :: G2)) in *.
  rewrite Hfl in *. unfold remove_lists, NSIZES. bdec. cbn [c_assert]. ostep.
  destruct (unlink_ok (Same (g_blk g)) (g_ref g) (fl G1) (fl G2) (Z.to_nat NPAGEREFS) Base h base)
    as (h1 & st1 & -> & Hr1 & Hc1 & Hrel1); [|done..|].
  { unfold fl. rewrite length_fmap. pose proof (length_filter (λ g', g_blk g' = g_blk g) G1).
    change (Z.to_nat NPAGEREFS) with 256%nat. lia. }
  ostep. simpl in Hrel1, Hr1. rewrite fmap_app in Hnd. simpl in Hnd.
  assert (Hall1 : chain All (pagerefs h1) (allbase h1) ((g_ref <$> G1) ++ g_ref g :: (g_ref <$> G2))).
  { pose proof Hrel1 as (_ & _ & _ & _ & _ & _ & -> & _). eapply relinked_chain; [exact Hrel1| |by left].
    pose proof (ki_all _ _ _ Hi) as Ha. by rewrite fmap_app in Ha. }
  destruct (unlink_ok All (g_ref g) (g_ref <$> G1) (g_ref <$> G2) (Z.to_nat NPAGEREFS) Base h1 (allbase h1))
    as (h2 & st2 & -> & Hr2 & Hc2 & Hrel2); [|done..|].
  { rewrite length_fmap. change (Z.to_nat NPAGEREFS) with 256%nat. lia. }
  simpl in Hrel2, Hr2. injection Hr2 as <-. exists h2. split; [done|].
  pose proof Hrel1 as (Hu1 & Hm1 & Hk1 & Hp1 & Hb1 & _ & _ & Hsb1 & _).
  pose proof Hrel2 as (Hu2 & Hm2 & Hk2 & Hp2 & Hb2 & _ & Hsb2 & _).
  split_and!; try congruence.
  - rewrite Hp2, Hp1. apply Hi.
  - rewrite Hb2, Hb1. apply Hi.
  - by rewrite fmap_app.
  - intros b Hb'. rewrite Hsb2. destruct (decide (b = g_blk g)) as [->|Hne].
    + exists st1. split; [done|]. eapply relinked_chain; [exact Hrel2| |by left].
      by rewrite filter_app, fmap_app.
    + destruct (ki_same _ _ _ Hi b Hb') as (base' & Hbase' & Hc'). exists base'. split; [by rewrite Hsb1|].
      rewrite filter_app, filter_cons, decide_False in Hc' by done. rewrite filter_app.
      eapply relinked_chain; [exact Hrel2| |by left]. eapply relinked_chain; [exact Hrel1|done|]. right.
      intros i Hin Hin1. unfold fl in Hin1. apply list_elem_of_fmap in Hin as (x & -> & Hx).
      apply list_elem_of_fmap in Hin1 as (y & Hxy & [Hyb Hy]%list_elem_of_filter).
      rewrite <- filter_app in Hx. apply list_elem_of_filter in Hx as [Hxb Hx].
      assert (x = y); [|congruence]. eapply (page_same_ref _ _ _ _ _ Hi); [apply in_middle; by right| |done].
      apply elem_of_app. by left.
  - eapply relinked_described; [exact Hrel2|]. eapply relinked_described; [exact Hrel1|].
    by eapply kinv_described.
Qed.

(** ** Release *)

Lemma fill_deadbeef_ok p n h : 0 ≤ n →
  ∃ m, fill_deadbeef p n h = Ret (set_mem m h) ∧ ∀ x, (x < p ∨ p + n ≤ x) → m !! x = mem h !! x.
Proof.
  intros Hn. unfold fill_deadbeef. pose proof (Z.div_mod n 4). pose proof (Z.mod_pos_bound n 4).
  pose proof (Z.div_pos n 4).
  destruct (for_each_inv (λ i h', ∃ m, h' = set_mem m h ∧ ∀ x, (x < p ∨ p + n ≤ x) → m !! x = mem h !! x)
    (fill_word p) (Z.to_nat (n / 4)) 0 h) as (h' & -> & m & -> & Hm).
  - exists (mem h). split; [by rewrite set_mem_id|done].
  - intros i h' Hi (m & -> & Hm). eexists. split; [done|]. exists (<[p + 4 * i := 0xdeadbeef]> m).
    split; [done|]. intros x Hx. rewrite lookup_insert_ne by lia. by apply Hm.
  - by exists m.
Qed.

Definition freed (G : list gpage) (B : gmap Z Z) (G' : list gpage) (B' : gmap Z Z) (a : Z) : Prop :=
  ∀ x t, live G' B' x t ↔ live G B x t ∧ x ≠ a.

(** Live blocks do not overlap. *)
Lemma live_disjoint h G B a s x t : kinv0 h G B → live G B a s → live G B x t →
  (a = x ∧ s = t) ∨ a + s ≤ x ∨ x + t ≤ a.
Proof.
  intros Hi [(g & k & Hg & Hk & _ & -> & ->)|(n & Hn & ->)] [(g' & k' & Hg' & Hk' & _ & -> & ->)|(m & Hm & ->)].
  - pose proof (ki_shape _ _ _ Hi g Hg) as Hs. pose proof (ki_shape _ _ _ Hi g' Hg') as Hs'.
    destruct (decide (g_addr g = g_addr g')) as [He|Hne].
    + apply (page_same_addr h G B) in He as <-; [|done..].
      destruct (decide (k = k')) as [<-|]; [by left|right]. by apply baddr_disjoint.
    + right. destruct (baddr_range g k Hs Hk) as (? & ? & _). destruct (baddr_range g' k' Hs' Hk') as (? & ? & _).
      destruct (pages_disjoint h G B g g'); unfold baddr; done || lia.
  - right. pose proof (ki_shape _ _ _ Hi g Hg) as Hs. destruct (baddr_range g k Hs Hk) as (? & ? & _).
    destruct (page_big_disjoint h G B g x m Hi Hg Hm); unfold baddr; lia.
  - right. pose proof (ki_shape _ _ _ Hi g' Hg') as Hs. destruct (baddr_range g' k' Hs Hk') as (? & ? & _).
    destruct (page_big_disjoint h G B g' a n Hi Hg' Hn); unfold baddr; lia.
  - destruct (decide (a = x)) as [<-|Hne]; [left; split; congruence|right].
    apply (kp_disjoint (kp h)); [apply Hi| | |done]; apply (ki_blocks _ _ _ Hi); by left.
Qed.

Lemma live_pos h G B a s : kinv0 h G B → live G B a s → 0 < a ∧ 0 < s.
Proof.
  intros Hi [(g & k & Hg & Hk & _ & -> & ->)|(n & Hn & ->)].
  - pose proof (ki_shape _ _ _ Hi g Hg) as Hs. destruct (baddr_range g k Hs Hk) as (_ & _ & ?).
    destruct (bsize_cases (g_blk g)) as (_ & ? & _); [apply Hs|lia].
  - destruct (kp_range (kp h) a n) as (? & ? & _); [apply Hi|apply (ki_blocks _ _ _ Hi); by left|].
    unfold PAGE_SIZE. lia.
Qed.

(** Putting a block on its page's free list undoes taking it. *)
Lemma give_block h G1 g G2 B k : kinv0 h (G1 ++ set_free (k :: g_free g) g :: G2) B →
  freed (G1 ++ g :: G2) B (G1 ++ set_free (k :: g_free g) g :: G2) B (baddr g k).
Proof.
  intros Hi. destruct (take_block h G1 (set_free (k :: g_free g) g) G2 B k (g_free g) Hi) as [Hl Hd]; [done|].
  assert (Hsh : shape (set_free (k :: g_free g) g)) by (apply (ki_shape _ _ _ Hi), in_middle; by left).
  destruct (bsize_cases (g_blk g)) as (_ & Hs & _); [apply Hsh|].
  replace (set_free (g_free g) (set_free (k :: g_free g) g)) with g in Hl by by destruct g.
  intros x t. change (baddr (set_free (k :: g_free g) g) k) with (baddr g k) in *.
  change (g_blk (set_free (k :: g_free g) g)) with (g_blk g) in *. rewrite Hl. split; [|naive_solver].
  intros Hx. split; [by right|]. intros ->. pose proof (live_pos _ _ _ _ _ Hi Hx). specialize (Hd _ _ Hx). lia.
Qed.

(** A page whose blocks are all free has no live block. *)
Lemma drop_page G1 g G2 B x t : (∀ k, 0 ≤ k < bcount (g_blk g) → k ∈ g_free g) →
  live (G1 ++ g :: G2) B x t ↔ live (G1 ++ G2) B x t.
Proof.
  intros Hall. unfold live. split; (intros [(g0 & k & Hg & Hk & Hn & ?)|?]; [|by right]); left; exists g0, k;
    split_and!; try (tauto || lia).
  - apply in_middle in Hg as [->|?]; [|done]. by destruct Hn; apply Hall.
  - apply in_middle. by right.
Qed.

Lemma all_blocks_free (l : list Z) n : 0 ≤ n → NoDup l → Forall (λ k, 0 ≤ k < n) l → len l = n →
  ∀ k, 0 ≤ k < n → k ∈ l.
Proof.
  intros Hn Hnd Hr Hlen k Hk. rewrite Forall_forall in Hr.
  assert (Hs : l ⊆+ seqZ 0 n) by (apply NoDup_submseteq; [done|]; intros i Hi%Hr; apply elem_of_seqZ; lia).
  apply submseteq_length_Permutation in Hs; [|rewrite length_seqZ; lia]. rewrite Hs. apply elem_of_seqZ. lia.
Qed.

(** Returning a page all of whose blocks are free. *)
Lemma return_page h G1 g G2 B : kinv0 h (G1 ++ g :: G2) B →
  ∃ h4 p h5, remove_lists (g_ref g) (g_blk g) h = Ret h4 ∧ kp_free (g_addr g) (kp h4) = Ret p ∧
    freepageref (g_ref g) (set_kp p h4) = Ret h5 ∧ kinv0 h5 (G1 ++ G2) B ∧ mem h5 = mem h.
Proof.
  intros Hi. destruct (remove_lists_ok h G1 g G2 B Hi) as (h4 & -> & Hu & Hm & Hkp & Hp & Hb & Ha & Hsame & Hd).
  assert (Hg : g ∈ G1 ++ g :: G2) by (apply in_middle; by left).
  assert (Hga : kp_blocks (kp h4) !! g_addr g = Some 1).
  { rewrite Hkp. apply (ki_blocks _ _ _ Hi). right. split; [done|]. by apply list_elem_of_fmap_2. }
  assert (Hk4 : kp_inv (kp h4)) by (rewrite Hkp; apply Hi).
  destruct (kp_free_spec (kp h4) (g_addr g) 1 Hk4 Hga) as (p & Hfree & Hpi & Hpb).
  pose proof (ki_refs _ _ _ Hi) as Hnr. pose proof (ki_addrs _ _ _ Hi) as Hna.
  pose proof (ki_inuse _ _ _ Hi) as Hin. rewrite fmap_app in Hnr, Hna, Hin. simpl in Hnr, Hna, Hin.
  assert (Hmid : ∀ (l1 l2 : list Z) x, NoDup (l1 ++ x :: l2) → NoDup (l1 ++ l2) ∧ (x ∉ l1 ++ l2)).
  { intros l1 l2 x H. rewrite <- Permutation_middle in H. apply NoDup_cons in H. tauto. }
  destruct (Hmid _ _ _ Hnr) as [Hnr' Hgr]. destruct (Hmid _ _ _ Hna) as [Hna' Hgad].
  destruct (freepageref_ok (set_kp p h4) ((g_ref <$> G1) ++ g_ref g :: (g_ref <$> G2))
    ((g_ref <$> G1) ++ (g_ref <$> G2)) (g_ref g)) as (ws & Hfr & Hws).
  { simpl. by rewrite Hu. }
  { apply in_middle. by left. }
  { by apply (ki_shape _ _ _ Hi). }
  { intros i. rewrite in_middle. split; [|naive_solver]. intros Hi'. split; [by right|]. by intros ->. }
  exists h4, p, (set_inuse ws (set_kp p h4)). split_and!; try done.
  destruct Hi. split; simpl; rewrite ?fmap_app; try done.
  - by rewrite <- fmap_app.
  - intros g0 Hg0. apply Hd, in_middle. by right.
  - intros g0 Hg0. apply ki_shape0, in_middle. by right.
  - intros g0 Hg0. rewrite Hm. apply ki_links0, in_middle. by right.
  - intros a n. rewrite Hpb, lookup_delete_Some, Hkp, ki_blocks0. rewrite !fmap_app. simpl. rewrite in_middle.
    assert (HB : B !! g_addr g = None) by by apply ki_big0. split; [naive_solver|].
    intros [HBa|[-> Hin']]; (split; [|by auto]); [congruence|by intros <-].
  - intros g0 Hg0. apply ki_big0, in_middle. by right.
Qed.

Lemma in_page_block h G B g k g' : kinv0 h G B → g ∈ G → g' ∈ G → 0 ≤ k < bcount (g_blk g) →
  in_page g' (baddr g k) → g' = g.
Proof.
  intros Hi Hg Hg' Hk Hin. pose proof (ki_shape _ _ _ Hi g Hg) as Hs.
  destruct (baddr_range g k Hs Hk) as (? & ? & _). destruct (bsize_cases (g_blk g)) as (_ & ? & _); [apply Hs|].
  destruct (decide (g_addr g' = g_addr g)) as [He|Hne]; [by apply (page_same_addr h G B)|].
  unfold in_page, baddr in *. destruct (pages_disjoint h G B g' g Hi Hg' Hg Hne); lia.
Qed.

Lemma find_page_block h G B g k : kinv0 h G B → g ∈ G → 0 ≤ k < bcount (g_blk g) →
  find_page (Z.to_nat NPAGEREFS + 1) (allbase h) (baddr g k) h = Ret (Some (g_ref g)).
Proof.
  intros Hi Hg Hk. pose proof (kinv0_pages h G B Hi).
  destruct (find_page_ok h (baddr g k) G (Z.to_nat NPAGEREFS + 1) (allbase h)) as [(g' & Hg' & Hin & ->)|[_ Hno]].
  - apply Hi.
  - by apply (kinv_described h G B).
  - change (Z.to_nat NPAGEREFS) with 256%nat. lia.
  - by rewrite (in_page_block h G B g k g').
  - destruct (Hno g Hg). pose proof (ki_shape _ _ _ Hi g Hg) as Hs.
    destruct (baddr_range g k Hs Hk) as (? & ? & _). destruct (bsize_cases (g_blk g)) as (_ & ? & _); [apply Hs|].
    unfold in_page, baddr. lia.
Qed.

(** The memory after the block has been filled and linked. *)
Lemma freed_links h G1 g G2 B k m : kinv0 h (G1 ++ g :: G2) B → 0 ≤ k < bcount (g_blk g) → k ∉ g_free g →
  (∀ x, (x < baddr g k ∨ baddr g k + bsize (g_blk g) ≤ x) → m !! x = mem h !! x) →
  let m' := <[baddr g k := next_addr g (g_free g)]> m in
  links m' (set_free (k :: g_free g) g) (k :: g_free g) ∧
  (∀ g0, g0 ∈ G1 ++ G2 → links m' g0 (g_free g0)).
Proof.
  intros Hi Hk Hnk Hm m'. assert (Hg : g ∈ G1 ++ g :: G2) by (apply in_middle; by left).
  pose proof (ki_shape _ _ _ Hi g Hg) as Hs. destruct (baddr_range g k Hs Hk) as (? & ? & _).
  destruct (bsize_cases (g_blk g)) as (_ & ? & _); [apply Hs|]. split.
  - apply links_set_free. simpl. split; [by unfold m'; rewrite lookup_insert_eq|].
    eapply links_ext; [by apply (ki_links _ _ _ Hi)|]. intros k0 Hk0.
    assert (Hne : k0 ≠ k) by (by intros ->). unfold m'.
    rewrite lookup_insert_ne by (intros He; apply Hne; symmetry; by apply (baddr_inj g)).
    apply Hm. destruct (baddr_disjoint g k0 k Hs Hne); lia.
  - intros g0 Hg0. apply (links_elsewhere h _ B g g0 m' Hi Hg); [apply in_middle; by right| |].
    + intros <-. pose proof (ki_refs _ _ _ Hi) as Hnd. rewrite fmap_app in Hnd. simpl in Hnd.
      rewrite <- Permutation_middle in Hnd. apply NoDup_cons in Hnd as [Hnd _]. apply Hnd.
      rewrite <- fmap_app. by apply list_elem_of_fmap_2.
    + intros x Hx. unfold m'. rewrite lookup_insert_ne by (unfold baddr; lia). apply Hm. unfold baddr. lia.
Qed.

(** The fields the code computes for the freed block. *)
Lemma free_fields g k ns na : shape g → 0 ≤ k < bcount (g_blk g) → len (g_free g) < bcount (g_blk g) →
  u32 (baddr g k - g_addr g) = k * bsize (g_blk g) ∧
  (if bool_decide (freelist_offset (pref g ns na) = INVALID_OFFSET) then 0
   else u32 (g_addr g + freelist_offset (pref g ns na))) = next_addr g (g_free g) ∧
  u16 (nfree (pref g ns na) + 1) = len (k :: g_free g) ∧
  u16 (k * bsize (g_blk g)) = k * bsize (g_blk g).
Proof.
  intros Hs Hk Hlt. pose proof Hs as [_ Hb [_ Ha] _ Hrg].
  destruct (bsize_cases (g_blk g) Hb) as (_ & _ & _ & _ & Hc & _).
  destruct (baddr_range g k Hs Hk) as (? & ? & _). destruct (bsize_cases (g_blk g) Hb) as (_ & ? & _).
  unfold PAGE_SIZE in *. split_and!.
  - replace (baddr g k - g_addr g) with (k * bsize (g_blk g)) by (unfold baddr; lia). apply u32_small. lia.
  - unfold pref. simpl. destruct (g_free g) as [|k0 l0]; [done|]. apply Forall_cons in Hrg as [Hk0r _].
    destruct (baddr_range g k0 Hs Hk0r) as (? & ? & ?). unfold PAGE_SIZE in *.
    rewrite bool_decide_eq_false_2 by (unfold INVALID_OFFSET; lia). simpl. fold (baddr g k0). apply u32_small. lia.
  - unfold u16. simpl. rewrite Z.mod_small; lia.
  - unfold u16. apply Z.mod_small. lia.
Qed.

Lemma subpage_kfree_ok h G1 g G2 B k : kinv h (G1 ++ g :: G2) B → 0 ≤ k < bcount (g_blk g) → k ∉ g_free g →
  ∃ h' G', subpage_kfree (baddr g k) h = Ret (h', true) ∧ kinv h' G' B ∧
    freed (G1 ++ g :: G2) B G' B (baddr g k) ∧
    ∀ x, (x < baddr g k ∨ baddr g k + bsize (g_blk g) ≤ x) → mem h' !! x = mem h !! x.
Proof.
  intros [Hi Hu] Hk Hnk. assert (Hg : g ∈ G1 ++ g :: G2) by (apply in_middle; by left).
  pose proof (ki_shape _ _ _ Hi g Hg) as Hs. pose proof Hs as [_ Hb [Ha1 Ha2] Hnd Hrg].
  destruct (bsize_cases (g_blk g) Hb) as (Hsz & Hb2 & Hbc & Hdiv & Hc & _).
  destruct (baddr_range g k Hs Hk) as (Hk0 & Hk1 & Hk2). pose proof (Hu g Hg) as Hlt.
  destruct (ki_data _ _ _ Hi g Hg) as (ns & na & Hpr).
  destruct (fill_deadbeef_ok (baddr g k) (bsize (g_blk g)) h) as (m & Hfill & Hm); [lia|].
  destruct (freed_links h G1 g G2 B k m Hi Hk Hnk Hm) as [Hl1 Hl2].
  assert (Hsh : shape (set_free (k :: g_free g) g)).
  { apply shape_set_free; [done|by apply NoDup_cons|by apply Forall_cons]. }
  destruct (kinv0_update h G1 g G2 B (k :: g_free g) _ ns na Hi Hpr Hsh Hl1 Hl2) as (prs & Hprs & Hi').
  pose proof (give_block _ G1 g G2 B k Hi') as Hfreed.
  unfold subpage_kfree. rewrite (find_page_block h (G1 ++ g :: G2) B g k) by done. ostep. rewrite Hpr. ostep. cbv zeta.
  rewrite pref_type, pref_addr by done. rewrite Hsz. ostep.
  destruct (free_fields g k ns na Hs Hk Hlt) as (Hoff & Hnxt & Hn & Ho).
  rewrite Hoff, Z_mod_mult. bdec. rewrite Hfill. ostep.
  rewrite Hnxt. fold (baddr g k). rewrite (u32_small (baddr g k)) by lia.
  rewrite Hn, Ho, Hdiv.
  change (wr (pagerefs (write_word (baddr g k) (next_addr g (g_free g)) (set_mem m h))) (g_ref g) _)
    with (wr (pagerefs h) (g_ref g) (pref (set_free (k :: g_free g) g) ns na)). rewrite Hprs. ostep.
  set (h3 := set_pagerefs prs _) in *.
  change (set_pagerefs prs (write_word (baddr g k) (next_addr g (g_free g)) (set_mem m h))) with h3.
  assert (Hlen : len (k :: g_free g) ≤ bcount (g_blk g)) by (simpl; lia).
  rewrite (bool_decide_eq_true_2 (len (k :: g_free g) ≤ bcount (g_blk g))) by done. cbn [c_assert]. ostep.
  assert (Hm3 : ∀ x, (x < baddr g k ∨ baddr g k + bsize (g_blk g) ≤ x) → mem h3 !! x = mem h !! x).
  { intros x Hx. unfold h3. simpl. rewrite lookup_insert_ne by lia. by apply Hm. }
  clear Hnxt. case_bool_decide as Hfull.
  - destruct (return_page h3 G1 _ G2 B Hi') as (h4 & p & h5 & Hr & Hf & Hfr & Hi5 & Hm5). simpl in Hr, Hf, Hfr.
    rewrite Hr. ostep. rewrite Hf. ostep. rewrite Hfr. ostep. exists h5, (G1 ++ G2). split; [done|].
    split; [split; [done|]; intros g0 Hg0; apply Hu, in_middle; by right|]. split; [|by rewrite Hm5].
    intros x t. rewrite <- (Hfreed x t). symmetry. apply drop_page.
    apply all_blocks_free; [simpl; lia|by apply Hsh|by apply (sh_range _ Hsh)|done].
  - exists h3, (G1 ++ set_free (k :: g_free g) g :: G2). split; [done|]. split; [|by split]. split; [done|].
    intros g0 [->|Hg0]%in_middle; [simpl in *; lia|]. apply Hu, in_middle. by right.
Qed.

(** Freeing a block of whole pages. *)
Lemma kfree_big_ok h G B a n : kinv h G B → B !! a = Some n →
  ∃ h', kfree a h = Ret h' ∧ kinv h' G (delete a B) ∧ freed G B G (delete a B) a ∧ mem h' = mem h.
Proof.
  intros [Hi Hu] HB. assert (Ha : kp_blocks (kp h) !! a = Some n) by (apply (ki_blocks _ _ _ Hi); by left).
  destruct (kp_range (kp h) a n) as (Hpos & Hn & Hal & _); [apply Hi|done|].
  destruct (kp_free_spec (kp h) a n (ki_kp _ _ _ Hi) Ha) as (p & Hfree & Hp & Hpb).
  unfold kfree. rewrite bool_decide_eq_false_2 by lia. unfold subpage_kfree.
  pose proof (kinv0_pages h G B Hi).
  destruct (find_page_ok h a G (Z.to_nat NPAGEREFS + 1) (allbase h)) as [(g & Hg & Hin & _)|[-> _]].
  { apply Hi. } { by apply (kinv_described h G B). } { change (Z.to_nat NPAGEREFS) with 256%nat. lia. }
  { unfold in_page, PAGE_SIZE in *. pose proof (page_big_disjoint h G B g a n Hi Hg HB) as Hd.
    unfold PAGE_SIZE in Hd. lia. }
  ostep. rewrite Hal. ostep. rewrite Hfree. ostep. eexists. split; [done|].
  assert (Hna : ∀ g, g ∈ G → g_addr g ≠ a) by (intros g Hg <-; by rewrite (ki_big _ _ _ Hi g Hg) in HB).
  split.
  - split; [|done]. destruct Hi. split; try done; simpl.
    + intros x m. rewrite Hpb, !lookup_delete_Some, ki_blocks0. split; [naive_solver|].
      intros [?|[-> Hx]]; [naive_solver|]. split; [|by auto].
      apply list_elem_of_fmap in Hx as (g & -> & Hg). by apply not_eq_sym, Hna.
    + intros g Hg. rewrite lookup_delete_None. auto.
  - split; [|done]. intros x t. unfold live. setoid_rewrite lookup_delete_Some. split; [|naive_solver].
    intros [(g & k & Hg & Hk & Hnk & -> & ->)|(m & [? ?] & ->)]; [|naive_solver].
    split; [left; by exists g, k|]. pose proof (ki_shape _ _ _ Hi g Hg) as Hs.
    destruct (baddr_range g k Hs Hk) as (? & ? & _). destruct (bsize_cases (g_blk g)) as (_ & ? & _); [apply Hs|].
    pose proof (page_big_disjoint h G B g a n Hi Hg HB) as Hd. unfold baddr, PAGE_SIZE in *. lia.
Qed.

(** Freeing any live block. *)
Lemma kfree_ok h G B a s : kinv h G B → live G B a s →
  ∃ h' G' B', kfree a h = Ret h' ∧ kinv h' G' B' ∧ freed G B G' B' a ∧
    ∀ x, (x < a ∨ a + s ≤ x) → mem h' !! x = mem h !! x.
Proof.
  intros Hk [(g & k & Hg & Hkr & Hnk & -> & ->)|(n & HB & ->)].
  - apply list_elem_of_split in Hg as (G1 & G2 & ->).
    destruct (subpage_kfree_ok h G1 g G2 B k Hk Hkr Hnk) as (h' & G' & Hf & Hk' & Hfr & Hm).
    exists h', G', B. split_and!; [|done..]. unfold kfree.
    assert (Hg : g ∈ G1 ++ g :: G2) by (apply in_middle; by left).
    destruct (baddr_range g k) as (_ & _ & Hp); [by apply (ki_shape _ _ _ (ki_0 _ _ _ Hk))|done|].
    rewrite bool_decide_eq_false_2 by lia. rewrite Hf. by ostep.
  - destruct (kfree_big_ok h G B a n Hk HB) as (h' & ? & ? & ? & Hm). exists h', G, (delete a B).
    split_and!; try done. by rewrite Hm.
Qed.

(** What a client stores in a live block does not disturb the heap. *)
Lemma client_write_ok h G B a s x v : kinv h G B → live G B a s → a ≤ x < a + s → kinv (write_word x v h) G B.
Proof.
  intros [Hi Hu] Hl Hx. split; [|done].
  assert (Hw : ∀ g, g ∈ G → links (<[x := v]> (mem h)) g (g_free g)).
  { intros g Hg. eapply links_ext; [by apply (ki_links _ _ _ Hi)|]. intros k Hk. rewrite lookup_insert_ne; [done|].
    pose proof (ki_shape _ _ _ Hi g Hg) as Hs. pose proof (sh_range _ Hs) as Hr. rewrite Forall_forall in Hr.
    destruct (baddr_range g k Hs (Hr k Hk)) as (? & ? & _). destruct (bsize_cases (g_blk g)) as (_ & ? & _); [apply Hs|].
    destruct Hl as [(g' & k' & Hg' & Hk' & Hnk & -> & ->)|(n & HB & ->)].
    - destruct (decide (g_addr g = g_addr g')) as [He|Hne].
      + apply (page_same_addr h G B) in He as <-; [|done..].
        destruct (baddr_disjoint g k k' Hs) as [?|?]; [by intros ->|lia..].
      + destruct (baddr_range g' k' (ki_shape _ _ _ Hi g' Hg') Hk') as (? & ? & _).
        destruct (pages_disjoint h G B g g'); unfold baddr in *; done || lia.
    - destruct (page_big_disjoint h G B g a n Hi Hg HB); unfold baddr in *; lia. }
  destruct Hi. by split.
Qed.

(** A heap without live blocks holds no page. *)
Lemma no_live_no_pages h G B : kinv h G B → (∀ a s, ¬ live G B a s) → kp_blocks (kp h) = ∅.
Proof.
  intros [Hi Hu] Hno. assert (G = []) as ->.
  { destruct G as [|g G]; [done|]. exfalso.
    assert (Hg : g ∈ g :: G) by by left. pose proof (ki_shape _ _ _ Hi g Hg) as Hs.
    destruct (decide (Forall (λ k, k ∈ g_free g) (seqZ 0 (bcount (g_blk g))))) as [Hall|Hex].
    - assert (Hsub : seqZ 0 (bcount (g_blk g)) ⊆+ g_free g).
      { apply NoDup_submseteq; [apply NoDup_seqZ|]. by rewrite Forall_forall in Hall. }
      apply submseteq_length in Hsub. rewrite length_seqZ in Hsub. specialize (Hu g Hg).
      destruct (bsize_cases (g_blk g)) as (_ & _ & _ & _ & ? & _); [apply Hs|]. lia.
    - apply not_Forall_Exists in Hex; [|intros ?; apply _]. apply Exists_exists in Hex as (k & Hk & Hn).
      apply (Hno (baddr g k) (bsize (g_blk g))). left. exists g, k. apply elem_of_seqZ in Hk.
      split_and!; done || lia. }
  apply map_empty. intros a. apply eq_None_not_Some. intros [n Hn].
  apply (ki_blocks _ _ _ Hi) in Hn as [HB|[_ []%not_elem_of_nil]]. apply (Hno a (n * PAGE_SIZE)). right. by exists n.
Qed.

(** The heap as the kernel starts with it. *)
Definition kheap_init (p : Pg) : kheap Pg :=
  KHeap (replicate 256 (Pageref None None 0 0 0)) (replicate 8 0) (replicate 8 None) None ∅ p.

Lemma kheap_init_ok p : kp_inv p → kp_blocks p = ∅ → kinv (kheap_init p) [] ∅.
Proof.
  intros Hp Hb. split; [|by intros g ?%not_elem_of_nil].
  split; try done; try (by intros g ?%not_elem_of_nil); try apply NoDup_nil_2.
  - intros b Hbr. exists None. split; [|done]. apply rd_lookup; [lia|]. apply lookup_replicate_2. lia.
  - split_and!; [done|by apply Forall_replicate|]. intros j Hj. unfold ref_bit.
    change (pagerefs_inuse (kheap_init p)) with (replicate 8 0). rewrite lookup_replicate_2 by (pose proof (Z.div_lt_upper_bound j 32 8); lia).
    rewrite Z.testbit_0_l. symmetry. apply bool_decide_eq_false_2, not_elem_of_nil.
  - intros a n. simpl. rewrite Hb, lookup_empty, elem_of_nil. naive_solver.
Qed.
End heap.
