(* ===== verification/Coremap.v ===== *)
(** * Physical memory: arch/mips/mips/ram.c and the page allocator of vm/vm.c

    [vmst] is the memory-management state of the kernel: the bounds ram.c keeps,
    the coremap (one entry for each page frame) and the round-robin TLB victim.
    Locks are represented by whether they exist; the functions below run with
    [core_lock] held, so they are modelled as single steps.

    What a call takes from outside (the garbage in the uninitialised variable
    [count_pages], the time of day, the identity of the calling process) is an
    argument of type [cm_env]. *)

From S2P Require Import Prelude KHeap KHeapSpec.

Definition MIPS_KSEG0 : Z := 0x80000000.
Definition USERTOP : Z := MIPS_KSEG0.
Definition PADDR_TO_KVADDR (pa : Z) : Z := u32 (pa + MIPS_KSEG0).

(** ** struct coremap *)

Record coremap_entry := CoremapEntry {
  cm_vaddr : Z; cm_paddr : Z; cm_used : Z; cm_flag : Z; cm_len : Z; cm_pid : Z;
  cm_nextpage : Z; cm_secs : Z; cm_nano : Z
}.

(** sizeof(struct coremap): nine 32-bit fields. *)
Definition COREMAP_SIZEOF : Z := 36.

Definition set_used (v : Z) (e : coremap_entry) : coremap_entry :=
  CoremapEntry (cm_vaddr e) (cm_paddr e) v (cm_flag e) (cm_len e) (cm_pid e) (cm_nextpage e) (cm_secs e) (cm_nano e).
Definition set_len (v : Z) (e : coremap_entry) : coremap_entry :=
  CoremapEntry (cm_vaddr e) (cm_paddr e) (cm_used e) (cm_flag e) v (cm_pid e) (cm_nextpage e) (cm_secs e) (cm_nano e).
Definition set_pid (v : Z) (e : coremap_entry) : coremap_entry :=
  CoremapEntry (cm_vaddr e) (cm_paddr e) (cm_used e) (cm_flag e) (cm_len e) v (cm_nextpage e) (cm_secs e) (cm_nano e).
Definition set_time (s n : Z) (e : coremap_entry) : coremap_entry :=
  CoremapEntry (cm_vaddr e) (cm_paddr e) (cm_used e) (cm_flag e) (cm_len e) (cm_pid e) (cm_nextpage e) s n.

Record vmst := Vmst {
  firstpaddr : Z; lastpaddr : Z;
  core_lock : bool; tlb_lock : bool; next_victim : Z;
  coremap : list coremap_entry; coremap_size : Z; pt_initialize : bool
}.

Definition set_paddrs (lo hi : Z) (s : vmst) : vmst :=
  Vmst lo hi (core_lock s) (tlb_lock s) (next_victim s) (coremap s) (coremap_size s) (pt_initialize s).
Definition set_coremap (cm : list coremap_entry) (s : vmst) : vmst :=
  Vmst (firstpaddr s) (lastpaddr s) (core_lock s) (tlb_lock s) (next_victim s) cm (coremap_size s) (pt_initialize s).

Record cm_env := CmEnv { e_junk : Z; e_secs : Z; e_nano : Z; e_pid : option Z }.

(** ** ram.c *)

(** [ramsize] is what mips_ramsize() reads from the bus, [firstfree] the address
    start.S leaves. *)
Definition ram_bootstrap (ramsize firstfree : Z) (s : vmst) : vmst :=
  let ramsize := if bool_decide (508 * 1024 * 1024 < ramsize) then 508 * 1024 * 1024 else ramsize in
  set_paddrs (u32 (firstfree - MIPS_KSEG0)) ramsize s.

Definition ram_stealmem (npages : Z) (s : vmst) : vmst * Z :=
  let size := u32 (npages * PAGE_SIZE) in
  if bool_decide (lastpaddr s < u32 (firstpaddr s + size)) then (s, 0)
  else (set_paddrs (u32 (firstpaddr s + size)) (lastpaddr s) s, firstpaddr s).

Definition ram_getsize (s : vmst) : vmst * Z * Z :=
  (set_paddrs 0 0 s, firstpaddr s, lastpaddr s).

(** ** vm_bootstrap *)

(** One turn of the initialising loop: entry [i], whose memory held [e]. *)
Definition bootstrap_entry (firstaddr freeaddr i : Z) (e : coremap_entry) : outcome coremap_entry :=
  let fixed := bool_decide (i < u32 (freeaddr - firstaddr) / PAGE_SIZE) in
  let paddr := u32 (firstaddr + i * PAGE_SIZE) in
  c_assert (bool_decide (Z.land paddr PAGE_FRAME = paddr));;
  Ret (CoremapEntry (cm_vaddr e) paddr (if fixed then 1 else 0) (if fixed then 1 else 0)
         (-1) (-1) (cm_nextpage e) (cm_secs e) (cm_nano e)).

(** [raw] is what the memory at the first free address holds, seen as coremap
    entries; [core] and [tlb] tell whether lock_create found memory. *)
Definition vm_bootstrap (core tlb : bool) (raw : list coremap_entry) (s : vmst) : outcome vmst :=
  let '(s, firstaddr, lastaddr) := ram_getsize s in
  let size := lastaddr / PAGE_SIZE in
  c_assert (negb (bool_decide (PADDR_TO_KVADDR firstaddr = 0)));;
  let freeaddr := u32 (firstaddr + size * COREMAP_SIZEOF) in
  c_assert (negb (bool_decide (u32 (lastaddr - freeaddr) ≤ 0)));;
  cm ← for_each (Z.to_nat size) 0 (λ i cm,
         e ← rd cm i;
         e' ← bootstrap_entry firstaddr freeaddr i e;
         wr cm i e') raw;
  Ret (Vmst (firstpaddr s) (lastpaddr s) core tlb 0 cm size true).

(** ** getppages *)

(** One turn of the search: [inl count] goes on, [inr] is the break, with the
    entry at the start of the run stamped. *)
Definition scan_page (e : cm_env) (npages i : Z) (st : list coremap_entry * Z)
    : outcome (list coremap_entry * Z + list coremap_entry * Z * Z) :=
  let '(cm, count_pages) := st in
  let j := s32 (i - npages + 1) in
  c ← rd cm i;
  if bool_decide (cm_used c = 0) then
    let count_pages := u32 (count_pages + 1) in
    if bool_decide (count_pages = npages) then
      h ← rd cm j;
      let h := set_time (e_secs e) (e_nano e) (set_len (s32 npages) h) in
      let h := match e_pid e with Some p => set_pid p h | None => h end in
      cm ← wr cm j h;
      Ret (inr (cm, count_pages, i))
    else Ret (inl (cm, count_pages))
  else Ret (inl (cm, 0)).

Definition mark_used (v : Z) (k : Z) (cm : list coremap_entry) : outcome (list coremap_entry) :=
  e ← rd cm k; wr cm k (set_used v e).

Definition getppages (e : cm_env) (npages : Z) (s : vmst) : outcome (vmst * Z) :=
  if negb (pt_initialize s) then Ret (ram_stealmem npages s)
  else
    c_assert (core_lock s);;
    r ← for_loop (Z.to_nat (coremap_size s)) 0 (scan_page e npages) (coremap s, e_junk e);
    let '(cm, count_pages, i) := match r with
      | inr r => r
      | inl (cm, count) => (cm, count, coremap_size s)
      end in
    if bool_decide (count_pages = npages) then
      let first := s32 (i - npages + 1) in
      cm ← for_each (Z.to_nat (i + 1 - first)) first (mark_used 1) cm;
      h ← rd cm first;
      c_assert (bool_decide (Z.land (cm_paddr h) PAGE_FRAME = cm_paddr h));;
      Ret (set_coremap cm s, cm_paddr h)
    else Ret (set_coremap cm s, 0).

(** ** alloc_kpages and free_kpages *)

(** The index of the first entry satisfying the test, or the size. *)
Definition cm_search (test : coremap_entry → outcome bool) (s : vmst) : outcome Z :=
  r ← for_loop (Z.to_nat (coremap_size s)) 0 (λ i (_ : ()),
        e ← rd (coremap s) i;
        b ← test e;
        Ret (if (b : bool) then inr i else inl ())) ();
  Ret (match r with inr i => i | inl _ => coremap_size s end).

Definition coremap_insertpid (pa pid : Z) (s : vmst) : outcome vmst :=
  i ← cm_search (λ e, Ret (bool_decide (cm_paddr e = pa))) s;
  e ← rd (coremap s) i;
  cm ← wr (coremap s) i (set_pid pid e);
  Ret (set_coremap cm s).

Definition alloc_kpages (e : cm_env) (npages : Z) (s : vmst) : outcome (vmst * Z) :=
  '(s, pa) ← getppages e (u32 npages) s;
  if bool_decide (pa = 0) then Ret (s, 0)
  else
    let va := PADDR_TO_KVADDR pa in
    if bool_decide (USERTOP < va) then Ret (s, va)
    else
      match e_pid e with
      | Some pid => s ← coremap_insertpid pa pid s; Ret (s, va)
      | None => Panic
      end.

Definition free_kpages (e : cm_env) (addr : Z) (s : vmst) : outcome vmst :=
  c_assert (core_lock s);;
  i ← cm_search (λ c,
        if bool_decide (USERTOP < addr) then Ret (bool_decide (PADDR_TO_KVADDR (cm_paddr c) = addr))
        else match e_pid e with
             | Some pid => Ret (bool_decide (PADDR_TO_KVADDR (cm_paddr c) = addr) && bool_decide (cm_pid c = pid))
             | None => Panic
             end) s;
  c_assert (negb (bool_decide (coremap_size s ≤ i)));;
  c ← rd (coremap s) i;
  c_assert (negb (bool_decide (cm_len c = -1)));;
  cm ← wr (coremap s) i (set_len (-1) c);
  cm ← for_each (Z.to_nat (cm_len c)) 0 (λ z, mark_used 0 (z + i)) cm;
  Ret (set_coremap cm s).

(** ** Runs on a small machine: 512K of memory, the kernel in the first 128K *)

Definition raw_entries (n : nat) : list coremap_entry := replicate n (CoremapEntry 0 0 0 0 0 0 0 0 0).
Definition before_boot : vmst := Vmst 0x20000 0x80000 false false 0 [] 0 false.
Definition some_env : cm_env := CmEnv 7 100 5 None.

Example boot_run :
  (s ← vm_bootstrap true true (raw_entries 128) before_boot;
   '(s, a) ← alloc_kpages some_env 2 s;
   '(s, b) ← alloc_kpages some_env 1 s;
   s ← free_kpages some_env a s;
   '(s, c) ← alloc_kpages some_env 1 s;
   '(s, d) ← alloc_kpages some_env 2 s;
   Ret (a, b, c, d)) = Ret (0x80021000, 0x80023000, 0x80021000, 0x80024000).
Proof. vm_compute. reflexivity. Qed.

(** ** The state of the frames

    [u k] and [l k] are the fields [used] and [len] of frame [k]. A frame with
    [l k] other than -1 starts a block of [l k] frames; the first [fx] frames
    hold the coremap itself. *)

Definition covered (l : Z → Z) (k : Z) : Prop := ∃ j, 0 ≤ j ≤ k ∧ k < j + l j.

Record frames_ok (N fx : Z) (u l : Z → Z) : Prop := {
  fr_fixed : 1 ≤ fx ≤ N;
  fr_block : ∀ k, 0 ≤ k < N → l k ≠ -1 →
    fx ≤ k ∧ 0 < l k ∧ k + l k ≤ N ∧ ∀ d, k < d < k + l k → l d = -1;
  fr_used : ∀ k, 0 ≤ k < N → u k ≠ 0 ↔ k < fx ∨ covered l k
}.

Definition run_free (N : Z) (u : Z → Z) (j n : Z) : Prop :=
  0 ≤ j ∧ j + n ≤ N ∧ ∀ k, j ≤ k < j + n → u k = 0.

Definition fill (j n v : Z) (u : Z → Z) (k : Z) : Z := if decide (j ≤ k < j + n) then v else u k.
Definition put (j v : Z) (l : Z → Z) (k : Z) : Z := if decide (k = j) then v else l k.

Lemma frame_free N fx u l k : frames_ok N fx u l → 0 ≤ k < N → u k = 0 → fx ≤ k ∧ l k = -1 ∧ ¬ covered l k.
Proof.
  intros [Hf Hb Hu] Hk H0. assert (Hn : ¬ (k < fx ∨ covered l k)) by (rewrite <- Hu by done; lia).
  assert (¬ covered l k) by tauto. split; [lia|]. split; [|done]. destruct (decide (l k = -1)) as [|Hl]; [done|].
  destruct (Hb k Hk Hl) as (_ & ? & _). destruct H. exists k. lia.
Qed.

(** Blocks do not overlap. *)
Lemma blocks_apart N fx u l j k : frames_ok N fx u l → 0 ≤ j < N → 0 ≤ k < N → l j ≠ -1 → l k ≠ -1 → j < k →
  j + l j ≤ k.
Proof.
  intros [Hf Hb Hu] Hj Hk Hlj Hlk Hlt. destruct (Hb j Hj Hlj) as (_ & _ & _ & Hin).
  destruct (decide (k < j + l j)) as [?|]; [|lia]. destruct Hlk. apply Hin. lia.
Qed.

(** Taking a free run. *)
Lemma frames_alloc N fx u l j n : frames_ok N fx u l → 0 < n → run_free N u j n →
  frames_ok N fx (fill j n 1 u) (put j n l).
Proof.
  intros Hok Hn (Hj & HjN & Hrun). pose proof Hok as [Hf Hb Hu].
  assert (Hfr : ∀ k, j ≤ k < j + n → fx ≤ k ∧ l k = -1 ∧ ¬ covered l k).
  { intros k Hk. apply (frame_free N fx u l k Hok); [lia|]. by apply Hrun. }
  split; [done| |].
  - intros k Hk Hl. unfold put in Hl. case_decide as Hkj.
    + subst k. destruct (Hfr j) as (? & ? & ?); [lia|]. unfold put. rewrite (decide_True (P := j = j)) by done.
      split_and!; try lia. intros d Hd. rewrite decide_False by lia. apply Hfr. lia.
    + destruct (Hb k Hk Hl) as (? & ? & ? & Hin). unfold put. rewrite (decide_False (P := k = j)) by done.
      split_and!; try lia. intros d Hd. case_decide as Hdj; [|by apply Hin].
      subst d. destruct (Hfr j) as (_ & _ & Hnc); [lia|]. destruct Hnc. exists k. lia.
  - intros k Hk. unfold fill. case_decide as Hin.
    + split; [|lia]. intros _. right. exists j. unfold put. rewrite decide_True by done. lia.
    + rewrite Hu by done. split; (intros [?|(i & Hi & Hc)]; [by left|right; exists i; split; [done|]]).
      * unfold put. case_decide as Hij; [|done]. subst i. destruct (Hfr j) as (_ & ? & _); lia.
      * unfold put in Hc. case_decide; lia.
Qed.

(** Giving a block back. *)
Lemma frames_free N fx u l i : frames_ok N fx u l → 0 ≤ i < N → l i ≠ -1 →
  frames_ok N fx (fill i (l i) 0 u) (put i (-1) l).
Proof.
  intros Hok Hi Hl. pose proof Hok as [Hf Hb Hu]. destruct (Hb i Hi Hl) as (Hfx & Hpos & HN & Hint). split; [done| |].
  - intros k Hk Hlk. unfold put in *. destruct (decide (k = i)) as [->|Hki]; [done|].
    destruct (Hb k Hk Hlk) as (? & ? & ? & Hin). split_and!; try lia. intros d Hd. case_decide; [done|]. by apply Hin.
  - intros k Hk. unfold fill. case_decide as Hin.
    + split; [done|]. intros [?|(j & Hj & Hc)]; [lia|]. exfalso. unfold put in Hc. case_decide as Hji; [lia|].
      assert (Hlj : l j ≠ -1) by lia. destruct (decide (j < i)).
      * pose proof (blocks_apart N fx u l j i Hok). lia.
      * pose proof (blocks_apart N fx u l i j Hok). lia.
    + rewrite Hu by done. split; (intros [?|(j & Hj & Hc)]; [by left|right; exists j; split; [done|]]).
      * unfold put. case_decide as Hij; [subst j; lia|done].
      * unfold put in Hc. case_decide; lia.
Qed.

(** ** The coremap represents the frames *)

Definition frame_rep (base : Z) (cm : list coremap_entry) (u l : Z → Z) : Prop :=
  ∀ k, 0 ≤ k < len cm → ∃ e, rd cm k = Ret e ∧
    cm_paddr e = base + k * PAGE_SIZE ∧ cm_used e = u k ∧ cm_len e = l k.

Lemma frame_rep_ext base cm u l u' l' : frame_rep base cm u l →
  (∀ k, 0 ≤ k < len cm → u' k = u k ∧ l' k = l k) → frame_rep base cm u' l'.
Proof.
  intros Hr He k Hk. destruct (Hr k Hk) as (e & ? & ? & ? & ?). destruct (He k Hk). exists e. split_and!; congruence.
Qed.

Lemma frame_rep_wr base cm u l k e : frame_rep base cm u l → 0 ≤ k < len cm → cm_paddr e = base + k * PAGE_SIZE →
  ∃ cm', wr cm k e = Ret cm' ∧ length cm' = length cm ∧ frame_rep base cm' (put k (cm_used e) u) (put k (cm_len e) l).
Proof.
  intros Hr Hk Hp. eexists. split; [by apply wr_in_range|]. split; [apply length_insert|]. intros i Hi.
  rewrite length_insert in Hi. unfold put. destruct (decide (i = k)) as [->|Hne].
  - exists e. split_and!; [|done..]. apply rd_lookup; [lia|]. by apply insert_Z_same.
  - destruct (Hr i Hi) as (e' & [_ He]%rd_Ret & ?). exists e'. split; [|done]. apply rd_lookup; [lia|].
    rewrite insert_Z_other by lia. done.
Qed.

Lemma mark_used_ok base cm u l v k : frame_rep base cm u l → 0 ≤ k < len cm →
  ∃ cm', mark_used v k cm = Ret cm' ∧ length cm' = length cm ∧ frame_rep base cm' (put k v u) l.
Proof.
  intros Hr Hk. unfold mark_used. destruct (Hr k Hk) as (e & -> & Hp & Hu & Hl). ostep.
  destruct (frame_rep_wr base cm u l k (set_used v e) Hr Hk Hp) as (cm' & -> & Hlen & Hr').
  exists cm'. split_and!; try done. eapply frame_rep_ext; [exact Hr'|]. intros i Hi. unfold put. simpl.
  case_decide; by subst.
Qed.

Lemma mark_loop_ok base v j n cm u l : frame_rep base cm u l → 0 ≤ j → 0 ≤ n → j + n ≤ len cm →
  ∃ cm', for_each (Z.to_nat n) j (mark_used v) cm = Ret cm' ∧ length cm' = length cm ∧
    frame_rep base cm' (fill j n v u) l.
Proof.
  intros Hr Hj Hn HN.
  destruct (for_each_inv (λ i cm', length cm' = length cm ∧ frame_rep base cm' (fill j (i - j) v u) l)
    (mark_used v) (Z.to_nat n) j cm) as (cm' & Hf & Hlen & Hr').
  - split; [done|]. eapply frame_rep_ext; [exact Hr|]. intros k Hk. unfold fill. by rewrite decide_False by lia.
  - intros i c Hi [Hlen Hc]. destruct (mark_used_ok base c _ l v i Hc) as (c' & Hm & Hl' & Hr'); [lia|].
    exists c'. split_and!; [done|lia|]. eapply frame_rep_ext; [exact Hr'|]. intros k Hk. unfold fill, put.
    repeat case_decide; try lia; done.
  - exists cm'. split_and!; [done..|]. by replace (j + Z.of_nat (Z.to_nat n) - j) with n in Hr' by lia.
Qed.

Lemma for_each_shift {S} (body : Z → S → outcome S) o n : ∀ i s,
  for_each n i (λ z, body (z + o)) s = for_each n (i + o) body s.
Proof.
  induction n as [|n IH]; intros i s; [done|]. simpl. destruct (body (i + o) s); [simpl|done..].
  rewrite IH. by replace (i + 1 + o) with (i + o + 1) by lia.
Qed.

(** ** The allocator's invariant *)

Record cinv (base fx : Z) (u l : Z → Z) (s : vmst) : Prop := {
  ci_init : pt_initialize s = true;
  ci_lock : core_lock s = true;
  ci_size : coremap_size s = len (coremap s);
  ci_base : base mod PAGE_SIZE = 0 ∧ 0 < base ∧ base + coremap_size s * PAGE_SIZE < 2 ^ 31;
  ci_rep : frame_rep base (coremap s) u l;
  ci_frames : frames_ok (coremap_size s) fx u l
}.

(** The kernel address of a frame. *)
Definition kaddr (base k : Z) : Z := base + k * PAGE_SIZE + MIPS_KSEG0.

Section scan.
Context (n N : Z) (u : Z → Z).

(** While the search goes on: [c] free frames end at [i], the frame before them
    is used, and no run fits below [i]. Before the first frame the count is
    whatever the variable held. *)
Definition scan_inv (i c : Z) : Prop :=
  (i = 0 ∨ (0 ≤ c < n ∧ c < i ∧ (∀ k, i - c ≤ k < i → u k = 0) ∧ u (i - c - 1) ≠ 0)) ∧
  (∀ j, 0 ≤ j → j + n ≤ i → ¬ run_free N u j n).

Lemma scan_inv_used i c : 0 < n → 0 ≤ i → scan_inv i c → u i ≠ 0 → scan_inv (i + 1) 0.
Proof.
  intros Hn Hi [_ Hno] Hu. split.
  - right. split_and!; try lia. by replace (i + 1 - 0 - 1) with i by lia.
  - intros j Hj Hjn Hrun. destruct (decide (j + n ≤ i)); [by apply (Hno j)|].
    destruct Hrun as (_ & _ & Hrun). apply Hu, Hrun. lia.
Qed.

Lemma scan_inv_free i c : 0 < i → scan_inv i c → u i = 0 → c + 1 ≠ n → scan_inv (i + 1) (c + 1).
Proof.
  intros Hi [[?|(Hc & Hci & Hfree & Hbe)] Hno] Hu Hne; [lia|]. split.
  - right. split_and!; try lia.
    + intros k Hk. destruct (decide (k = i)) as [->|]; [done|]. apply Hfree. lia.
    + by replace (i + 1 - (c + 1) - 1) with (i - c - 1) by lia.
  - intros j Hj Hjn Hrun. destruct (decide (j + n ≤ i)); [by apply (Hno j)|].
    destruct Hrun as (_ & _ & Hrun). apply Hbe, Hrun. lia.
Qed.

(** The break: the lowest free run. *)
Lemma scan_inv_found i c : 0 < i < N → scan_inv i c → u i = 0 → c + 1 = n →
  run_free N u (i - n + 1) n ∧ ∀ j, 0 ≤ j < i - n + 1 → ¬ run_free N u j n.
Proof.
  intros Hi [[?|(Hc & Hci & Hfree & Hbe)] Hno] Hu Hne; [lia|]. split.
  - split_and!; [lia..|]. intros k Hk. destruct (decide (k = i)) as [->|]; [done|]. apply Hfree. lia.
  - intros j Hj. apply Hno; lia.
Qed.
End scan.

Definition first_fit (N : Z) (u : Z → Z) (j n : Z) : Prop :=
  run_free N u j n ∧ ∀ j', 0 ≤ j' < j → ¬ run_free N u j' n.

Lemma cinv_bounds base fx u l s : cinv base fx u l s → 1 ≤ coremap_size s < 2 ^ 19 ∧ u 0 ≠ 0.
Proof.
  intros [_ _ _ (_ & ? & ?) _ [? _ Hu]]. unfold PAGE_SIZE in *. split; [lia|]. apply Hu; lia.
Qed.

(** The entry stamped at the start of the run. *)
Lemma stamp_ok base e n s u l j : frame_rep base (coremap s) u l → 0 ≤ j < len (coremap s) → 0 < n < 2 ^ 20 →
  ∃ h cm, rd (coremap s) j = Ret h ∧
    wr (coremap s) j (let h' := set_time (e_secs e) (e_nano e) (set_len (s32 n) h) in
                      match e_pid e with Some p => set_pid p h' | None => h' end) = Ret cm ∧
    length cm = length (coremap s) ∧ frame_rep base cm u (put j n l).
Proof.
  intros Hr Hj Hn. destruct (Hr j Hj) as (h & Hh & Hp & Hu & Hl). exists h. rewrite (s32_small n) by lia. cbv zeta.
  set (h' := match e_pid e with Some p => _ | None => _ end).
  assert (H' : cm_paddr h' = base + j * PAGE_SIZE ∧ cm_used h' = u j ∧ cm_len h' = n).
  { unfold h'. by destruct (e_pid e). }
  destruct H' as (Hp' & Hu' & Hl'). destruct (frame_rep_wr base _ u l j h' Hr Hj Hp') as (cm & Hw & Hlen & Hr').
  exists cm. split_and!; try done. rewrite Hl' in Hr'. eapply frame_rep_ext; [exact Hr'|].
  intros k _. split; [|done]. unfold put. case_decide as Hk; [by rewrite Hk|done].
Qed.

Lemma scan_ok base fx u l s e n : cinv base fx u l s → 0 < n < 2 ^ 20 →
  let run := for_loop (Z.to_nat (coremap_size s)) 0 (scan_page e n) (coremap s, e_junk e) in
  (∃ c, run = Ret (inl (coremap s, c)) ∧ c ≠ n ∧ ∀ j, ¬ run_free (coremap_size s) u j n) ∨
  (∃ cm j, run = Ret (inr (cm, n, j + n - 1)) ∧ first_fit (coremap_size s) u j n ∧
     length cm = length (coremap s) ∧ frame_rep base cm u (put j n l)).
Proof.
  intros Hi Hn run. destruct (cinv_bounds _ _ _ _ _ Hi) as [HN Hu0]. pose proof (ci_rep _ _ _ _ _ Hi) as Hr.
  pose proof (ci_size _ _ _ _ _ Hi) as Hsz. set (N := coremap_size s) in *.
  destruct (for_loop_inv (λ i (st : list coremap_entry * Z), st.1 = coremap s ∧ scan_inv n N u i st.2)
    (λ r, ∃ cm j, r = (cm, n, j + n - 1) ∧ first_fit N u j n ∧ length cm = length (coremap s) ∧
       frame_rep base cm u (put j n l)) (scan_page e n) (Z.to_nat N) 0 (coremap s, e_junk e))
    as [([cm c] & Hrun & Heq & Hinv)|(r & Hrun & cm & j & -> & ?)].
  - split; [done|]. split; [by left|]. simpl. intros j ??. lia.
  - intros i [cm c] Hir [Heq Hinv]. simpl in Heq, Hinv. subst cm. unfold scan_page.
    destruct (Hr i) as (x & -> & _ & Hux & _); [lia|]. ostep. rewrite Hux.
    case_bool_decide as Hfree; [|left; eexists; split; [done|]; split; [done|]; by apply (scan_inv_used n N u i c); try lia].
    assert (Hi0 : 0 < i) by (destruct (decide (i = 0)); [by subst|lia]).
    assert (Hc : u32 (c + 1) = c + 1). { destruct Hinv as [[?|?] _]; [lia|]. apply u32_small. lia. }
    rewrite Hc. case_bool_decide as Heqn.
    + right. destruct (scan_inv_found n N u i c) as [Hrf Hlow]; [lia|done..|].
      rewrite s32_small by (destruct Hrf; lia).
      destruct (stamp_ok base e n s u l (i - n + 1)) as (h & cm & -> & Hw & Hlen & Hr'); [done|destruct Hrf; lia|done|].
      ostep. cbv zeta in Hw. rewrite Hw. ostep. eexists. split; [done|]. exists cm, (i - n + 1).
      rewrite Heqn. replace (i - n + 1 + n - 1) with i by lia. done.
    + left. eexists. split; [done|]. split; [done|]. apply scan_inv_free; done || lia.
  - left. simpl in Heq, Hinv. subst cm. exists c. split; [done|]. rewrite Z2Nat.id in Hinv by lia.
    destruct Hinv as [[?|?] Hno]; [lia|]. split; [lia|]. intros j Hj. pose proof Hj as (? & ? & _).
    apply (Hno j); [lia..|done].
  - right. exists cm, j. done.
Qed.

Lemma kaddr_KV base k : 0 < base + k * PAGE_SIZE < 2 ^ 31 → PADDR_TO_KVADDR (base + k * PAGE_SIZE) = kaddr base k.
Proof. intros. unfold PADDR_TO_KVADDR, kaddr, MIPS_KSEG0. apply u32_small. lia. Qed.

(** getppages takes the lowest run of free frames that fits, and fails only
    when there is none. *)
Lemma getppages_ok base fx u l s e n : cinv base fx u l s → 0 < n < 2 ^ 20 →
  (getppages e n s = Ret (s, 0) ∧ ∀ j, ¬ run_free (coremap_size s) u j n) ∨
  (∃ s' j, getppages e n s = Ret (s', base + j * PAGE_SIZE) ∧ first_fit (coremap_size s) u j n ∧
     coremap_size s' = coremap_size s ∧ cinv base fx (fill j n 1 u) (put j n l) s').
Proof.
  intros Hi Hn. destruct (cinv_bounds _ _ _ _ _ Hi) as [HN Hu0]. unfold getppages.
  rewrite (ci_init _ _ _ _ _ Hi), (ci_lock _ _ _ _ _ Hi). cbn [negb c_assert]. ostep.
  destruct (scan_ok base fx u l s e n Hi Hn) as [(c & -> & Hc & Hno)|(cm & j & -> & Hff & Hlen & Hr)]; ostep.
  - rewrite bool_decide_eq_false_2 by done. left. split; [by destruct s|done].
  - rewrite bool_decide_eq_true_2 by done. right. pose proof Hff as [(Hj & HjN & Hrun) Hlow].
    pose proof Hi as [Hini Hlk Hsz (Hb1 & Hb2 & Hb3) _ Hfr]. replace (j + n - 1 - n + 1) with j by lia.
    rewrite s32_small by lia. replace (j + n - 1 + 1 - j) with n by lia.
    destruct (mark_loop_ok base 1 j n cm u (put j n l)) as (cm' & -> & Hlen' & Hr'); [done|lia..|]. ostep.
    destruct (Hr' j) as (h & -> & Hp & _); [lia|]. ostep. rewrite Hp. unfold PAGE_SIZE in Hb1, Hb3.
    rewrite page_frame by (unfold PAGE_SIZE; lia). unfold PAGE_SIZE.
    rewrite Z.mod_add, Hb1, Z.sub_0_r by lia. rewrite bool_decide_eq_true_2 by done. cbn [c_assert]. ostep.
    eexists _, j. split_and!; [done..|]. split; simpl; try done.
    + rewrite Hsz. lia.
    + apply frames_alloc; done || lia.
Qed.

(** ** The kernel's page interface *)

Lemma cm_search_ok test s k : 0 ≤ k < coremap_size s →
  (∀ i, 0 ≤ i ≤ k → ∃ c, rd (coremap s) i = Ret c ∧ test c = Ret (bool_decide (i = k))) →
  cm_search test s = Ret k.
Proof.
  intros Hk Ht. unfold cm_search.
  destruct (for_loop_inv (λ i (_ : ()), i ≤ k) (λ r, r = k) (λ i (_ : ()),
    e ← rd (coremap s) i; b ← test e; Ret (if (b : bool) then inr i else inl ())) (Z.to_nat (coremap_size s)) 0 ())
    as [(? & _ & ?)|(r & -> & ->)]; [lia| |lia|done].
  intros j [] Hj Hjk. destruct (Ht j) as (c & -> & Htc); [lia|]. ostep. rewrite Htc. ostep.
  case_bool_decide; [right; by exists j|left; exists (); split; [done|lia]].
Qed.

Lemma kaddr_inj base i k : kaddr base i = kaddr base k → i = k.
Proof. unfold kaddr, PAGE_SIZE. lia. Qed.

Lemma frame_kaddr base fx u l s k c : cinv base fx u l s → rd (coremap s) k = Ret c →
  cm_paddr c = base + k * PAGE_SIZE ∧ PADDR_TO_KVADDR (cm_paddr c) = kaddr base k ∧ USERTOP < kaddr base k.
Proof.
  intros [_ _ Hsz (_ & Hb & HN) Hr _] Hc. pose proof (rd_Ret_range _ _ _ Hc) as Hk.
  destruct (Hr k Hk) as (c' & Hc' & Hp & _). rewrite Hc in Hc'. injection Hc' as <-.
  unfold PAGE_SIZE in *. rewrite Hp. rewrite kaddr_KV by (unfold PAGE_SIZE; lia).
  split_and!; try done. unfold kaddr, USERTOP, MIPS_KSEG0, PAGE_SIZE. lia.
Qed.

Lemma alloc_kpages_ok base fx u l s e n : cinv base fx u l s → 0 < n < 2 ^ 20 →
  (alloc_kpages e n s = Ret (s, 0) ∧ ∀ j, ¬ run_free (coremap_size s) u j n) ∨
  (∃ s' j, alloc_kpages e n s = Ret (s', kaddr base j) ∧ first_fit (coremap_size s) u j n ∧
     coremap_size s' = coremap_size s ∧ cinv base fx (fill j n 1 u) (put j n l) s').
Proof.
  intros Hi Hn. unfold alloc_kpages. rewrite (u32_small n) by lia.
  destruct (getppages_ok base fx u l s e n Hi Hn) as [[-> ?]|(s' & j & -> & Hff & Hsz & Hi')]; ostep.
  - rewrite bool_decide_eq_true_2 by done. by left.
  - right. exists s', j. pose proof Hff as [(Hj & HjN & _) _].
    destruct (rd_in_range (coremap s') j) as (c & Hc & _).
    { rewrite <- (ci_size _ _ _ _ _ Hi'), Hsz. lia. }
    destruct (frame_kaddr _ _ _ _ _ _ _ Hi' Hc) as (Hp & Hkv & Htop). rewrite Hp in Hkv. rewrite Hkv.
    destruct (ci_base _ _ _ _ _ Hi) as (_ & ? & _). unfold PAGE_SIZE in *.
    rewrite (bool_decide_eq_false_2 (_ = 0)) by lia. rewrite bool_decide_eq_true_2 by done. done.
Qed.

Lemma free_kpages_ok base fx u l s e k : cinv base fx u l s → 0 ≤ k < coremap_size s → l k ≠ -1 →
  ∃ s', free_kpages e (kaddr base k) s = Ret s' ∧ coremap_size s' = coremap_size s ∧
    cinv base fx (fill k (l k) 0 u) (put k (-1) l) s'.
Proof.
  intros Hi Hk Hl. pose proof Hi as [Hini Hlk Hsz Hb Hr Hfr]. unfold free_kpages. rewrite Hlk. cbn [c_assert]. ostep.
  destruct (fr_block _ _ _ _ Hfr k Hk Hl) as (_ & Hpos & HkN & _).
  rewrite (cm_search_ok _ s k Hk).
  2: { intros i Hi'. destruct (Hr i) as (c & Hc & _); [lia|]. exists c. split; [done|].
       destruct (frame_kaddr _ _ _ _ _ _ _ Hi Hc) as (_ & -> & Htop).
       rewrite (bool_decide_eq_true_2 (USERTOP < _)) by (unfold kaddr, PAGE_SIZE in *; destruct Hb as (_ & ? & _); unfold USERTOP, MIPS_KSEG0; lia).
       f_equal. apply bool_decide_ext. split; [apply kaddr_inj|by intros ->]. }
  ostep. rewrite bool_decide_eq_false_2 by lia. cbn [negb c_assert]. ostep.
  destruct (Hr k) as (c & -> & Hp & Hu & Hlc); [lia|]. ostep. rewrite Hlc, bool_decide_eq_false_2 by done.
  cbn [negb c_assert]. ostep.
  destruct (frame_rep_wr base _ u l k (set_len (-1) c) Hr) as (cm & -> & Hlen & Hr'); [lia|done|]. ostep.
  rewrite (for_each_shift (mark_used 0) k).
  destruct (mark_loop_ok base 0 k (l k) cm _ _ Hr') as (cm' & Hm & Hlen' & Hr''); [lia..|]. rewrite Z.add_0_l, Hm. ostep.
  eexists. split_and!; [done..|]. split; simpl; try done.
  - rewrite Hsz. lia.
  - eapply frame_rep_ext; [exact Hr''|]. intros i _. split; [|done]. unfold fill, put. simpl.
    repeat case_decide; subst; done || lia.
  - by apply frames_free.
Qed.

(** ** The coremap as the heap's source of pages

    The heap sees the allocator together with the outside world: the call
    number [cp_tick] of the stream [cp_env] supplies the next environment. *)

Record cpages := CPages { cp_st : vmst; cp_env : nat → cm_env; cp_tick : nat }.

Definition cp_alloc (n : Z) (p : cpages) : outcome (cpages * Z) :=
  '(s, a) ← alloc_kpages (cp_env p (cp_tick p)) n (cp_st p);
  Ret (CPages s (cp_env p) (S (cp_tick p)), a).

Definition cp_free (a : Z) (p : cpages) : outcome cpages :=
  s ← free_kpages (cp_env p (cp_tick p)) a (cp_st p);
  Ret (CPages s (cp_env p) (S (cp_tick p))).

Definition cp_inv (p : cpages) : Prop := ∃ base fx u l, cinv base fx u l (cp_st p).

Definition cm_blocks (cm : list coremap_entry) : gmap Z Z :=
  list_to_map ((λ c, (PADDR_TO_KVADDR (cm_paddr c), cm_len c)) <$> filter (λ c, cm_len c ≠ -1) cm).

Lemma cm_blocks_nodup base fx u l s (cm := coremap s) : cinv base fx u l s →
  NoDup (((λ c, (PADDR_TO_KVADDR (cm_paddr c), cm_len c)) <$> filter (λ c, cm_len c ≠ -1) cm).*1).
Proof.
  intros Hi. rewrite <- list_fmap_compose.
  assert (Hnd : NoDup ((PADDR_TO_KVADDR ∘ cm_paddr) <$> cm)).
  { apply NoDup_alt. intros i j x Hx Hy. rewrite list_lookup_fmap in Hx, Hy.
    apply fmap_Some in Hx as (c & Hc & ->). apply fmap_Some in Hy as (d & Hd & Heq). simpl in Heq.
    assert (Hc' : rd cm (Z.of_nat i) = Ret c) by (apply rd_lookup; [lia|by rewrite Nat2Z.id]).
    assert (Hd' : rd cm (Z.of_nat j) = Ret d) by (apply rd_lookup; [lia|by rewrite Nat2Z.id]).
    destruct (frame_kaddr _ _ _ _ _ _ _ Hi Hc') as (_ & H1 & _). destruct (frame_kaddr _ _ _ _ _ _ _ Hi Hd') as (_ & H2 & _).
    rewrite H1, H2 in Heq. apply kaddr_inj in Heq. lia. }
  eapply sublist_NoDup; [exact Hnd|]. apply fmap_sublist, sublist_filter.
Qed.

Lemma cm_blocks_lookup base fx u l s a n : cinv base fx u l s →
  cm_blocks (coremap s) !! a = Some n ↔
  ∃ k, 0 ≤ k < coremap_size s ∧ a = kaddr base k ∧ l k = n ∧ n ≠ -1.
Proof.
  intros Hi. unfold cm_blocks. rewrite <- elem_of_list_to_map by by eapply cm_blocks_nodup.
  rewrite list_elem_of_fmap. setoid_rewrite list_elem_of_filter. pose proof Hi as [_ _ Hsz _ Hr _]. split.
  - intros (c & [= -> ->] & Hl & Hc). apply list_elem_of_lookup in Hc as [i Hc].
    assert (Hc' : rd (coremap s) (Z.of_nat i) = Ret c) by (apply rd_lookup; [lia|by rewrite Nat2Z.id]).
    exists (Z.of_nat i). apply lookup_lt_Some in Hc. destruct (frame_kaddr _ _ _ _ _ _ _ Hi Hc') as (_ & -> & _).
    destruct (Hr (Z.of_nat i)) as (c' & Hc'' & _ & _ & Hlc); [lia|]. rewrite Hc' in Hc''. injection Hc'' as <-.
    split_and!; done || lia.
  - intros (k & Hk & -> & <- & Hl). destruct (Hr k) as (c & Hc & _ & _ & Hlc); [lia|]. exists c.
    destruct (frame_kaddr _ _ _ _ _ _ _ Hi Hc) as (_ & -> & _). rewrite Hlc. split_and!; try done.
    apply rd_Ret in Hc as [_ Hc]. by eapply list_elem_of_lookup_2.
Qed.

(** Blocks after an allocation and after a release. *)
Lemma cm_blocks_put base fx u l s u' s' j n : cinv base fx u l s → cinv base fx u' (put j n l) s' →
  coremap_size s' = coremap_size s → 0 ≤ j < coremap_size s →
  cm_blocks (coremap s') =
    if decide (n = -1) then delete (kaddr base j) (cm_blocks (coremap s))
    else <[kaddr base j := n]> (cm_blocks (coremap s)).
Proof.
  intros Hi Hi' Hsz Hj. apply map_eq. intros a. apply option_eq. intros m.
  rewrite (cm_blocks_lookup _ _ _ _ _ _ _ Hi'), Hsz.
  assert (Hother : a ≠ kaddr base j → (∃ k, 0 ≤ k < coremap_size s ∧ a = kaddr base k ∧ put j n l k = m ∧ m ≠ -1)
    ↔ cm_blocks (coremap s) !! a = Some m).
  { intros Hne. rewrite (cm_blocks_lookup _ _ _ _ _ _ _ Hi). apply exist_proper. intros k. unfold put.
    case_decide; [|done]. subst k. naive_solver. }
  destruct (decide (a = kaddr base j)) as [->|Hne].
  - assert (Hk : (∃ k, 0 ≤ k < coremap_size s ∧ kaddr base j = kaddr base k ∧ put j n l k = m ∧ m ≠ -1) ↔ n = m ∧ m ≠ -1).
    { split; [|intros [? ?]; exists j; unfold put; rewrite decide_True by done; done].
      intros (k & _ & <-%kaddr_inj & Hp & ?). unfold put in Hp. rewrite decide_True in Hp by done. done. }
    rewrite Hk. case_decide as Hn.
    + rewrite lookup_delete_eq. naive_solver.
    + rewrite lookup_insert_eq. naive_solver.
  - rewrite Hother by done. case_decide; [by rewrite lookup_delete_ne|by rewrite lookup_insert_ne].
Qed.

Lemma cp_range p a n : cp_inv p → cm_blocks (coremap (cp_st p)) !! a = Some n →
  0 < a ∧ 0 < n ∧ a mod PAGE_SIZE = 0 ∧ a + n * PAGE_SIZE < 2 ^ 32.
Proof.
  intros (base & fx & u & l & Hi) Ha. apply (cm_blocks_lookup _ _ _ _ _ _ _ Hi) in Ha as (k & Hk & -> & <- & Hl).
  destruct Hi as [_ _ _ (Hb1 & Hb2 & Hb3) _ Hfr]. destruct (fr_block _ _ _ _ Hfr k Hk Hl) as (_ & Hpos & HkN & _).
  unfold kaddr, MIPS_KSEG0, PAGE_SIZE in *. split_and!; try lia.
  replace (base + k * 4096 + 2147483648) with (base + (k + 524288) * 4096) by lia. by rewrite Z.mod_add.
Qed.

Lemma cp_disjoint p a n b m : cp_inv p → cm_blocks (coremap (cp_st p)) !! a = Some n →
  cm_blocks (coremap (cp_st p)) !! b = Some m → a ≠ b → a + n * PAGE_SIZE ≤ b ∨ b + m * PAGE_SIZE ≤ a.
Proof.
  intros (base & fx & u & l & Hi) Ha Hb Hne.
  apply (cm_blocks_lookup _ _ _ _ _ _ _ Hi) in Ha as (j & Hj & -> & <- & Hlj).
  apply (cm_blocks_lookup _ _ _ _ _ _ _ Hi) in Hb as (k & Hk & -> & <- & Hlk).
  pose proof (ci_frames _ _ _ _ _ Hi) as Hfr. unfold kaddr, PAGE_SIZE in *. destruct (decide (j < k)).
  - left. pose proof (blocks_apart _ _ _ _ j k Hfr Hj Hk Hlj Hlk). lia.
  - right. assert (j ≠ k) by (by intros ->). pose proof (blocks_apart _ _ _ _ k j Hfr Hk Hj Hlk Hlj). lia.
Qed.

Lemma cp_alloc_spec p n : cp_inv p → 0 < n < 2 ^ 20 →
  ∃ p' a, cp_alloc n p = Ret (p', a) ∧ cp_inv p' ∧
    ((a = 0 ∧ cm_blocks (coremap (cp_st p')) = cm_blocks (coremap (cp_st p))) ∨
     (a ≠ 0 ∧ cm_blocks (coremap (cp_st p)) !! a = None ∧
      cm_blocks (coremap (cp_st p')) = <[a := n]> (cm_blocks (coremap (cp_st p))))).
Proof.
  intros (base & fx & u & l & Hi) Hn. unfold cp_alloc.
  destruct (alloc_kpages_ok base fx u l (cp_st p) (cp_env p (cp_tick p)) n Hi Hn)
    as [[-> _]|(s' & j & -> & [(Hj & HjN & Hrun) _] & Hsz & Hi')]; ostep.
  - eexists _, 0. split; [done|]. split; [by exists base, fx, u, l|]. by left.
  - eexists _, (kaddr base j). split; [done|]. split; [by exists base, fx, (fill j n 1 u), (put j n l)|].
    right. simpl. rewrite (cm_blocks_put base fx u l (cp_st p) _ s' j n Hi Hi' Hsz) by lia.
    rewrite decide_False by lia. destruct (ci_base _ _ _ _ _ Hi) as (_ & ? & _).
    split_and!; [unfold kaddr, PAGE_SIZE, MIPS_KSEG0; lia| |done].
    apply eq_None_not_Some. intros [m Hm]. apply (cm_blocks_lookup _ _ _ _ _ _ _ Hi) in Hm as (k & _ & <-%kaddr_inj & <- & Hl).
    destruct (frame_free _ _ _ _ j (ci_frames _ _ _ _ _ Hi)) as (_ & ? & _); [lia|apply Hrun; lia|done].
Qed.

Lemma cp_free_spec p a n : cp_inv p → cm_blocks (coremap (cp_st p)) !! a = Some n →
  ∃ p', cp_free a p = Ret p' ∧ cp_inv p' ∧
    cm_blocks (coremap (cp_st p')) = delete a (cm_blocks (coremap (cp_st p))).
Proof.
  intros (base & fx & u & l & Hi) Ha. apply (cm_blocks_lookup _ _ _ _ _ _ _ Hi) in Ha as (k & Hk & -> & <- & Hl).
  unfold cp_free. destruct (free_kpages_ok base fx u l (cp_st p) (cp_env p (cp_tick p)) k Hi Hk Hl)
    as (s' & -> & Hsz & Hi'). ostep. eexists. split; [done|]. split; [by eexists _, _, _, _|]. simpl.
  by rewrite (cm_blocks_put base fx u l (cp_st p) _ s' k (-1) Hi Hi' Hsz) by done.
Qed.

#[export] Instance coremap_pages : KPages cpages := {|
  kp_alloc := cp_alloc; kp_free := cp_free; kp_inv := cp_inv;
  kp_blocks := λ p, cm_blocks (coremap (cp_st p));
  kp_range := cp_range; kp_disjoint := cp_disjoint;
  kp_alloc_spec := cp_alloc_spec; kp_free_spec := cp_free_spec
|}.

(** ** Bootstrap *)

(** The bounds ram.c hands over: page aligned, with room for a page of coremap
    entries (114 of them) below the end of memory. *)
Definition ram_ok (s : vmst) : Prop :=
  (firstpaddr s mod PAGE_SIZE = 0 ∧ lastpaddr s mod PAGE_SIZE = 0) ∧ 0 < firstpaddr s ∧
  114 * PAGE_SIZE ≤ lastpaddr s ≤ 508 * 1024 * 1024 ∧
  firstpaddr s + lastpaddr s / PAGE_SIZE * COREMAP_SIZEOF < lastpaddr s.

(** The number of frames marked as holding the coremap. *)
Definition nfixed (s : vmst) : Z := lastpaddr s / PAGE_SIZE * COREMAP_SIZEOF / PAGE_SIZE.

Lemma bootstrap_entry_ok s i e (N := lastpaddr s / PAGE_SIZE) : ram_ok s → 0 ≤ i < N →
  bootstrap_entry (firstpaddr s) (u32 (firstpaddr s + N * COREMAP_SIZEOF)) i e =
  Ret (CoremapEntry (cm_vaddr e) (firstpaddr s + i * PAGE_SIZE) (if decide (i < nfixed s) then 1 else 0)
         (if decide (i < nfixed s) then 1 else 0) (-1) (-1) (cm_nextpage e) (cm_secs e) (cm_nano e)).
Proof.
  intros ((Hal & _) & Hpos & Hlast & Hroom) Hi. pose proof (Z.mul_div_le (lastpaddr s) PAGE_SIZE) as HN. fold N in HN, Hroom.
  unfold bootstrap_entry, COREMAP_SIZEOF, PAGE_SIZE in HN, Hroom, Hal, Hlast, Hi |- *. rewrite (u32_small (firstpaddr s + N * 36)) by lia.
  rewrite (u32_small (firstpaddr s + N * 36 - firstpaddr s)) by lia. rewrite (u32_small (firstpaddr s + i * 4096)) by lia.
  replace (firstpaddr s + N * 36 - firstpaddr s) with (N * 36) by lia.
  rewrite page_frame by lia. unfold PAGE_SIZE. rewrite Z.mod_add, Hal, Z.sub_0_r by lia.
  rewrite (bool_decide_eq_true_2 (_ = _)) by done. cbn [c_assert]. ostep. unfold nfixed, COREMAP_SIZEOF, PAGE_SIZE. fold N.
  case_bool_decide; case_decide; done.
Qed.

Definition boot_u (s : vmst) (k : Z) : Z := if decide (k < nfixed s) then 1 else 0.

Lemma nfixed_range s : ram_ok s → 1 ≤ nfixed s ≤ lastpaddr s / PAGE_SIZE.
Proof.
  intros (_ & _ & Hlast & _). pose proof (Z.div_le_mono (114 * PAGE_SIZE) (lastpaddr s) PAGE_SIZE) as HN.
  rewrite Z.div_mul in HN by done. unfold nfixed, COREMAP_SIZEOF, PAGE_SIZE in *.
  pose proof (Z.div_le_lower_bound (lastpaddr s / 4096 * 36) 4096 1).
  pose proof (Z.div_le_upper_bound (lastpaddr s / 4096 * 36) 4096 (lastpaddr s / 4096)). lia.
Qed.

Lemma boot_frames s : ram_ok s → frames_ok (lastpaddr s / PAGE_SIZE) (nfixed s) (boot_u s) (λ _, -1).
Proof.
  intros Hr. split; [by apply nfixed_range|done|]. intros k Hk. unfold boot_u, covered.
  case_decide; split; try lia; intros [?|(j & ? & ?)]; lia.
Qed.

(** The initialising loop writes every entry. *)
Lemma boot_loop_ok s raw (N := lastpaddr s / PAGE_SIZE) : ram_ok s → len raw = N →
  ∃ cm, for_each (Z.to_nat N) 0 (λ i cm,
      e ← rd cm i;
      e' ← bootstrap_entry (firstpaddr s) (u32 (firstpaddr s + N * COREMAP_SIZEOF)) i e;
      wr cm i e') raw = Ret cm ∧
    len cm = N ∧ frame_rep (firstpaddr s) cm (boot_u s) (λ _, -1).
Proof.
  intros Hr Hraw.
  destruct (for_each_inv (λ i cm, len cm = N ∧ ∀ k, 0 ≤ k < i → ∃ e, rd cm k = Ret e ∧
      cm_paddr e = firstpaddr s + k * PAGE_SIZE ∧ cm_used e = boot_u s k ∧ cm_len e = -1)
    (λ i cm, e ← rd cm i; e' ← bootstrap_entry (firstpaddr s) (u32 (firstpaddr s + N * COREMAP_SIZEOF)) i e; wr cm i e')
    (Z.to_nat N) 0 raw) as (cm & Hf & Hlen & Hall).
  - split; [done|]. intros k ?. lia.
  - intros j cm Hj [Hlen Hall]. destruct (rd_in_range cm j) as (e & He & _); [lia|]. rewrite He. ostep.
    unfold N. rewrite bootstrap_entry_ok by (done || lia). ostep. rewrite wr_in_range by lia. eexists. split; [done|].
    split; [by rewrite length_insert|]. intros k Hk. destruct (decide (k = j)) as [->|Hne].
    + eexists. split; [apply rd_lookup; [lia|]; apply insert_Z_same; lia|]. done.
    + destruct (Hall k) as (x & [_ Hx]%rd_Ret & ?); [lia|]. exists x. split; [|done].
      apply rd_lookup; [lia|]. by rewrite insert_Z_other by lia.
  - exists cm. split_and!; [done..|]. intros k Hk. apply Hall. lia.
Qed.

Lemma vm_bootstrap_ok s raw : ram_ok s → len raw = lastpaddr s / PAGE_SIZE →
  ∃ s', vm_bootstrap true true raw s = Ret s' ∧ coremap_size s' = lastpaddr s / PAGE_SIZE ∧
    cinv (firstpaddr s) (nfixed s) (boot_u s) (λ _, -1) s'.
Proof.
  intros Hr Hraw. pose proof Hr as ((Hal & _) & Hpos & Hlast & Hroom).
  pose proof (Z.mul_div_le (lastpaddr s) PAGE_SIZE) as HN. pose proof (Z.div_pos (lastpaddr s) PAGE_SIZE) as HN0.
  unfold vm_bootstrap, ram_getsize. cbv zeta. unfold PADDR_TO_KVADDR. rewrite (u32_small (_ + MIPS_KSEG0)).
  2: { unfold MIPS_KSEG0, COREMAP_SIZEOF, PAGE_SIZE in *. lia. }
  rewrite (bool_decide_eq_false_2 (_ = 0)) by (unfold MIPS_KSEG0; lia). cbn [negb c_assert]. ostep.
  rewrite bool_decide_eq_false_2.
  2: { unfold COREMAP_SIZEOF, PAGE_SIZE in *. rewrite (u32_small (firstpaddr s + _)) by lia. rewrite u32_small; lia. }
  cbn [negb c_assert]. ostep. destruct (boot_loop_ok s raw Hr Hraw) as (cm & -> & Hlen & Hrep). ostep.
  eexists. split_and!; [done..|]. split; simpl; try done.
  - unfold PAGE_SIZE, COREMAP_SIZEOF in *. split_and!; lia.
  - by apply boot_frames.
Qed.

(** ** Theorems *)

Lemma no_blocks base fx u s : cinv base fx u (λ _, -1) s → cm_blocks (coremap s) = ∅.
Proof.
  intros Hi. apply map_empty. intros a. apply eq_None_not_Some. intros [n Hn].
  apply (cm_blocks_lookup _ _ _ _ _ _ _ Hi) in Hn as (k & _ & _ & <- & Hl). done.
Qed.

Lemma cinv_ext base fx u l u' l' s : cinv base fx u l s → (∀ k, u' k = u k) → (∀ k, l' k = l k) →
  cinv base fx u' l' s.
Proof.
  intros [? ? ? ? Hr [Hf Hb Hu]] Eu El. split; try done; [by eapply frame_rep_ext|]. split; [done| |].
  - intros k Hk. rewrite El. intros Hl. destruct (Hb k Hk Hl) as (? & ? & ? & Hd).
    split_and!; try done. intros d. rewrite El. apply Hd.
  - intros k Hk. rewrite Eu, Hu by done. unfold covered. by setoid_rewrite El.
Qed.

(** [C25] alloc_kpages takes the lowest run of free frames that is long enough,
    whatever the uninitialised variable [count_pages] holds, and fails only when
    no such run exists; free_kpages on the block it returned gives back exactly
    the frames it took. *)
Theorem alloc_kpages_first_fit base fx u l s e n : cinv base fx u l s → 0 < n < 2 ^ 20 →
  (alloc_kpages e n s = Ret (s, 0) ∧ ∀ j, ¬ run_free (coremap_size s) u j n) ∨
  (∃ s' j, alloc_kpages e n s = Ret (s', kaddr base j) ∧ first_fit (coremap_size s) u j n ∧
     cinv base fx (fill j n 1 u) (put j n l) s' ∧
     ∀ e', ∃ s'', free_kpages e' (kaddr base j) s' = Ret s'' ∧ cinv base fx u l s'').
Proof.
  intros Hi Hn. destruct (alloc_kpages_ok base fx u l s e n Hi Hn) as [?|(s' & j & ? & Hff & Hsz & Hi')]; [by left|].
  right. exists s', j. split_and!; try done. intros e'. pose proof Hff as [(Hj & HjN & Hrun) _].
  destruct (frame_free _ _ _ _ j (ci_frames _ _ _ _ _ Hi)) as (_ & Hlj & _); [lia|apply Hrun; lia|].
  assert (Hp : put j n l j = n) by (unfold put; by rewrite decide_True).
  destruct (free_kpages_ok base fx _ _ s' e' j Hi') as (s'' & Hf & _ & Hi''); [lia|rewrite Hp; lia|].
  exists s''. split; [done|]. rewrite Hp in Hi''. eapply cinv_ext; [exact Hi''|..]; intros k.
  - unfold fill. case_decide; [by apply Hrun|done].
  - unfold put. case_decide; by subst.
Qed.

(** vm_bootstrap turns the bounds left by ram.c and any contents of the
    memory below into an allocator with no block handed out; when the entries
    fill whole pages, no frame that holds part of the coremap is free. *)
Theorem vm_bootstrap_ready s raw : ram_ok s → len raw = lastpaddr s / PAGE_SIZE →
  ∃ s', vm_bootstrap true true raw s = Ret s' ∧
    cinv (firstpaddr s) (nfixed s) (boot_u s) (λ _, -1) s' ∧ cm_blocks (coremap s') = ∅ ∧
    (coremap_size s' * COREMAP_SIZEOF mod PAGE_SIZE = 0 → ∀ k c, rd (coremap s') k = Ret c →
       cm_paddr c < firstpaddr s + coremap_size s' * COREMAP_SIZEOF → cm_used c = 1).
Proof.
  intros Hr Hraw. destruct (vm_bootstrap_ok s raw Hr Hraw) as (s' & Hb & Hsz & Hi). exists s'. split_and!; try done.
  - by eapply no_blocks.
  - intros Hm k c Hc Hlt. destruct (frame_kaddr _ _ _ _ _ _ _ Hi Hc) as (Hp & _ & _).
    pose proof (rd_Ret_range _ _ _ Hc) as Hk. destruct (ci_rep _ _ _ _ _ Hi k Hk) as (c' & Hc' & _ & Hu & _).
    rewrite Hc in Hc'. injection Hc' as <-. rewrite Hu. unfold boot_u, nfixed. rewrite <- Hsz.
    rewrite decide_True; [done|]. pose proof (Z_div_exact_full_2 (coremap_size s' * COREMAP_SIZEOF) PAGE_SIZE).
    unfold PAGE_SIZE in *. lia.
Qed.

(** The coremap does not describe the memory it should: it has free frames
    at and beyond the end of memory (the frames are counted from address 0 but
    placed from the first free address), and when its entries do not fill
    whole pages the frame with the last of them is free, so that an allocation
    may overwrite the coremap. *)
Theorem coremap_frames_misplaced s raw s' : ram_ok s → len raw = lastpaddr s / PAGE_SIZE →
  vm_bootstrap true true raw s = Ret s' →
  (∃ k c, rd (coremap s') k = Ret c ∧ cm_used c = 0 ∧ lastpaddr s ≤ cm_paddr c) ∧
  (coremap_size s' * COREMAP_SIZEOF mod PAGE_SIZE ≠ 0 → ∃ k c, rd (coremap s') k = Ret c ∧ cm_used c = 0 ∧
     cm_paddr c < firstpaddr s + coremap_size s' * COREMAP_SIZEOF).
Proof.
  intros Hr Hraw Hrun. destruct (vm_bootstrap_ok s raw Hr Hraw) as (s1 & Hb & Hsz & Hi).
  rewrite Hrun in Hb. injection Hb as <-. pose proof (nfixed_range s Hr) as Hfx.
  pose proof Hr as ((Hf & Hl) & Hpos & Hlast & Hroom). pose proof (ci_rep _ _ _ _ _ Hi) as Hrep.
  pose proof (ci_size _ _ _ _ _ Hi) as Hlen. unfold boot_u in Hrep.
  apply Z_div_exact_full_2 in Hl; [|done]. apply Z_div_exact_full_2 in Hf; [|done].
  assert (HN : nfixed s < coremap_size s').
  { unfold nfixed. apply Z.div_lt_upper_bound; [done|]. unfold PAGE_SIZE, COREMAP_SIZEOF in *. lia. }
  split.
  - destruct (Hrep (coremap_size s' - 1)) as (c & Hc & Hp & Hu & _); [lia|]. exists (coremap_size s' - 1), c.
    split; [done|]. rewrite Hu, Hp, decide_False by lia. split; [done|]. unfold PAGE_SIZE in *. lia.
  - intros Hm. destruct (Hrep (nfixed s)) as (c & Hc & Hp & Hu & _); [lia|]. exists (nfixed s), c.
    split; [done|]. rewrite Hu, Hp, decide_False by lia. split; [done|]. unfold nfixed. rewrite <- Hsz.
    pose proof (Z.div_mod (coremap_size s' * COREMAP_SIZEOF) PAGE_SIZE).
    pose proof (Z.mod_pos_bound (coremap_size s' * COREMAP_SIZEOF) PAGE_SIZE). unfold PAGE_SIZE in *. lia.
Qed.

Lemma before_boot_ok : ram_ok before_boot.
Proof. done. Qed.

Lemma alloc_kpages_first_fit_witness :
  ∃ s, vm_bootstrap true true (raw_entries 128) before_boot = Ret s ∧
  ∃ s' j, alloc_kpages some_env 2 s = Ret (s', kaddr 0x20000 j) ∧ first_fit (coremap_size s) (boot_u before_boot) j 2 ∧
    cinv 0x20000 1 (fill j 2 1 (boot_u before_boot)) (put j 2 (λ _, -1)) s' ∧
    ∀ e', ∃ s'', free_kpages e' (kaddr 0x20000 j) s' = Ret s'' ∧ cinv 0x20000 1 (boot_u before_boot) (λ _, -1) s''.
Proof.
  destruct (vm_bootstrap_ok before_boot (raw_entries 128) before_boot_ok eq_refl) as (s & Hb & Hsz & Hi).
  exists s. split; [done|].
  destruct (alloc_kpages_first_fit 0x20000 1 (boot_u before_boot) (λ _, -1) s some_env 2 Hi) as [[_ Hno]|?]; [lia| |done].
  exfalso. apply (Hno 1). rewrite Hsz. split_and!; [done..|]. intros k Hk. unfold boot_u.
  change (nfixed before_boot) with 1. by rewrite decide_False by lia.
Defined.

(** 4M of memory: 1024 entries fill nine pages. *)
Definition before_boot_4M : vmst := Vmst 0x20000 0x400000 false false 0 [] 0 false.

Lemma vm_bootstrap_ready_witness :
  ∃ s', vm_bootstrap true true (raw_entries 1024) before_boot_4M = Ret s' ∧
    cinv 0x20000 9 (boot_u before_boot_4M) (λ _, -1) s' ∧ cm_blocks (coremap s') = ∅ ∧
    (coremap_size s' * COREMAP_SIZEOF mod PAGE_SIZE = 0 → ∀ k c, rd (coremap s') k = Ret c →
       cm_paddr c < 0x20000 + coremap_size s' * COREMAP_SIZEOF → cm_used c = 1).
Proof. apply (vm_bootstrap_ready before_boot_4M (raw_entries 1024)); done. Defined.

Lemma coremap_frames_misplaced_witness :
  ∃ s', vm_bootstrap true true (raw_entries 128) before_boot = Ret s' ∧
    (∃ k c, rd (coremap s') k = Ret c ∧ cm_used c = 0 ∧ 0x80000 ≤ cm_paddr c) ∧
    (∃ k c, rd (coremap s') k = Ret c ∧ cm_used c = 0 ∧ cm_paddr c < 0x20000 + 128 * 36).
Proof.
  destruct (vm_bootstrap_ok before_boot (raw_entries 128) before_boot_ok eq_refl) as (s & Hb & Hsz & Hi).
  exists s. split; [done|].
  destruct (coremap_frames_misplaced before_boot (raw_entries 128) s before_boot_ok eq_refl Hb) as [H1 H2].
  split; [exact H1|]. rewrite Hsz in H2. by apply H2.
Defined.

(** On a machine with 512K, 120 pages are handed out as one block although only
    96 pages are left above the kernel: its end lies 100K beyond the memory. *)
Example block_beyond_memory :
  (s ← vm_bootstrap true true (raw_entries 128) before_boot;
   '(s, a) ← alloc_kpages some_env 120 s;
   Ret (a, a + 120 * PAGE_SIZE - PADDR_TO_KVADDR 0x80000)) = Ret (0x80021000, 100 * 1024).
Proof. vm_compute. reflexivity. Qed.

(** Pages taken before vm_bootstrap are unknown to the coremap: freeing one
    stops the kernel. *)
Example early_page_cannot_be_freed :
  ('(s, a) ← alloc_kpages some_env 1 before_boot;
   s ← vm_bootstrap true true (raw_entries 128) s;
   s ← free_kpages some_env a s; Ret tt) = Panic.
Proof. vm_compute. reflexivity. Qed.

(** A request for no pages reads past the end of the coremap. *)
Example no_pages_wild :
  (s ← vm_bootstrap true true (raw_entries 128) before_boot;
   '(s, _) ← alloc_kpages some_env 127 s;
   '(s, _) ← alloc_kpages some_env 0 s; Ret tt) = Wild.
Proof. vm_compute. reflexivity. Qed.
