(* ===== verification/KHeapTheorems.v ===== *)
(** * The kernel heap as its clients see it

    A client is a list of commands: allocate, release one of its blocks, store
    a word in one of its blocks. [owned] is what the client knows about a
    block: the address it was given, the size it asked for and the words it
    stored. The theorems hold for every source of pages that satisfies the
    interface of KHeap.v; the witnesses run on the coremap of Coremap.v. *)

From S2P Require Import Prelude KHeap KHeapSpec Coremap.

Inductive hcmd :=
| HMalloc (sz : Z)
| HFree (i : nat)
| HStore (i : nat) (off v : Z).

Record owned := Owned { o_addr : Z; o_size : Z; o_data : gmap Z Z }.

Section client.
Context {Pg : Type} `{!KPages Pg}.
Implicit Types (h : kheap Pg) (os : list owned).

(** A command on a block the client does not have, or a store outside the block
    it asked for, is skipped. *)
Definition hexec (c : hcmd) (st : kheap Pg * list owned) : outcome (kheap Pg * list owned) :=
  let '(h, os) := st in
  match c with
  | HMalloc sz =>
      '(h, a) ← kmalloc sz h;
      Ret (h, if bool_decide (a = 0) then os else os ++ [Owned a sz ∅])
  | HFree i =>
      match os !! i with
      | Some o => h ← kfree (o_addr o) h; Ret (h, delete i os)
      | None => Ret (h, os)
      end
  | HStore i off v =>
      match os !! i with
      | Some o =>
          if bool_decide (0 ≤ off < o_size o) then
            Ret (write_word (o_addr o + off) v h, <[i := Owned (o_addr o) (o_size o) (<[off := v]> (o_data o))]> os)
          else Ret (h, os)
      | None => Ret (h, os)
      end
  end.

Fixpoint hrun (cs : list hcmd) (st : kheap Pg * list owned) : outcome (kheap Pg * list owned) :=
  match cs with
  | [] => Ret st
  | c :: cs => st ← hexec c st; hrun cs st
  end.

Definition cmd_ok (c : hcmd) : Prop :=
  match c with HMalloc sz => 0 ≤ sz ≤ 2 ^ 32 - PAGE_SIZE | _ => True end.

(** What the heap promises for one block. *)
Definition owned_ok h G B (o : owned) : Prop :=
  o_addr o mod 16 = 0 ∧ (∃ s, live G B (o_addr o) s ∧ o_size o ≤ s) ∧
  ∀ off v, o_data o !! off = Some v → 0 ≤ off < o_size o ∧ mem h !! (o_addr o + off) = Some v.

Record client_inv h os G B : Prop := {
  cl_heap : kinv h G B;
  cl_live : ∀ a s, live G B a s → a ∈ o_addr <$> os;
  cl_owned : ∀ o, o ∈ os → owned_ok h G B o;
  cl_nodup : NoDup (o_addr <$> os)
}.

(** A block keeps its promise when it stays live and its words stay. *)
Lemma owned_ok_keep h h' G B G' B' o : owned_ok h G B o →
  (∀ s, live G B (o_addr o) s → live G' B' (o_addr o) s ∧
     ∀ x, o_addr o ≤ x < o_addr o + s → mem h' !! x = mem h !! x) → owned_ok h' G' B' o.
Proof.
  intros (Ha & (s & Hl & Hs) & Hd) Hk. destruct (Hk s Hl) as [Hl' Hm]. split_and!; [done|by exists s|].
  intros off v Hv. destruct (Hd off v Hv) as [Hr Hw]. split; [done|]. rewrite Hm; [done|lia].
Qed.

Lemma malloc_inv sz h os G B : client_inv h os G B → 0 ≤ sz ≤ 2 ^ 32 - PAGE_SIZE →
  ∃ h' os' G' B', hexec (HMalloc sz) (h, os) = Ret (h', os') ∧ client_inv h' os' G' B'.
Proof.
  intros [Hk Hl Ho Hnd] Hsz. simpl. destruct (kmalloc_ok sz h G B Hk Hsz) as (h' & a & -> & Hkeep & Hpost). ostep.
  destruct Hpost as [[-> Hk']|(G' & B' & s & Hk' & Ha & Ha16 & Hs & Hl1 & Hl2)].
  - rewrite bool_decide_eq_true_2 by done. exists h', os, G, B. split; [done|]. split; try done.
    intros o Hin. apply (owned_ok_keep h h' G B); [by apply Ho|]. intros s Hls. split; [done|].
    intros x. by apply Hkeep.
  - rewrite bool_decide_eq_false_2 by done. exists h', (os ++ [Owned a sz ∅]), G', B'. split; [done|]. split; [done|..].
    + intros b t [[-> ->]|Hb]%Hl1; rewrite fmap_app, elem_of_app; [right; by left|left; by eapply Hl].
    + intros o [Hin| ->%list_elem_of_singleton]%elem_of_app.
      * apply (owned_ok_keep h h' G B); [by apply Ho|]. intros t Ht. split; [apply Hl1; by right|].
        intros x. by apply Hkeep.
      * split_and!; [done| |done]. exists s. split; [|done]. apply Hl1. by left.
    + rewrite fmap_app. apply NoDup_app. split_and!; [done| |apply NoDup_singleton].
      intros b (o & -> & Hin)%list_elem_of_fmap Hb. apply list_elem_of_singleton in Hb. simpl in Hb.
      destruct (Ho o Hin) as (_ & (t & Ht & _) & _). rewrite Hb in Ht. specialize (Hl2 _ _ Ht).
      assert (Hla : live G' B' a s) by (apply Hl1; by left).
      pose proof (live_pos _ _ _ _ _ (ki_0 _ _ _ Hk) Ht). pose proof (live_pos _ _ _ _ _ (ki_0 _ _ _ Hk') Hla). lia.
Qed.

(** Two different blocks of the client lie apart. *)
Lemma owned_apart h os G B i j o p s t : client_inv h os G B → os !! i = Some o → os !! j = Some p → i ≠ j →
  live G B (o_addr o) s → live G B (o_addr p) t → o_addr o + s ≤ o_addr p ∨ o_addr p + t ≤ o_addr o.
Proof.
  intros [Hk _ _ Hnd] Hi Hj Hne Hs Ht.
  destruct (live_disjoint _ _ _ _ _ _ _ (ki_0 _ _ _ Hk) Hs Ht) as [[He _]|?]; [|done]. destruct Hne.
  apply (NoDup_lookup (o_addr <$> os) i j (o_addr o) Hnd); rewrite list_lookup_fmap; [by rewrite Hi|by rewrite Hj, He].
Qed.

Lemma free_inv i h os G B : client_inv h os G B →
  ∃ h' os' G' B', hexec (HFree i) (h, os) = Ret (h', os') ∧ client_inv h' os' G' B'.
Proof.
  intros Hc. pose proof Hc as [Hk Hl Ho Hnd]. simpl. destruct (os !! i) as [o|] eqn:Hi; [|by exists h, os, G, B].
  assert (Hin : o ∈ os) by by eapply list_elem_of_lookup_2. destruct (Ho o Hin) as (_ & (s & Hs & _) & _).
  destruct (kfree_ok h G B (o_addr o) s Hk Hs) as (h' & G' & B' & -> & Hk' & Hfr & Hm). ostep.
  exists h', (delete i os), G', B'. split; [done|]. pose proof (delete_Permutation os i o Hi) as Hp.
  assert (Hnd' : NoDup (o_addr o :: (o_addr <$> delete i os))) by by rewrite <- fmap_cons, <- Hp.
  apply NoDup_cons in Hnd' as [Hno Hnd']. split; try done.
  - intros a t [Ha Hne]%Hfr. apply Hl in Ha. rewrite Hp in Ha. apply elem_of_cons in Ha as [?|?]; done.
  - intros p Hp'. assert (Hpo : p ∈ os) by (rewrite Hp; by right).
    assert (Hne : o_addr p ≠ o_addr o) by (intros He; apply Hno; rewrite <- He; by apply list_elem_of_fmap_2).
    apply (owned_ok_keep h h' G B); [by apply Ho|]. intros t Ht. split; [by apply Hfr|]. intros x Hx. apply Hm.
    destruct (live_disjoint _ _ _ _ _ _ _ (ki_0 _ _ _ Hk) Ht Hs) as [[? _]|?]; [done|lia].
Qed.

Lemma store_inv i off v h os G B : client_inv h os G B →
  ∃ h' os' G' B', hexec (HStore i off v) (h, os) = Ret (h', os') ∧ client_inv h' os' G' B'.
Proof.
  intros Hc. pose proof Hc as [Hk Hl Ho Hnd]. simpl. destruct (os !! i) as [o|] eqn:Hi; [|by exists h, os, G, B].
  case_bool_decide as Hoff; [|by exists h, os, G, B].
  assert (Hin : o ∈ os) by by eapply list_elem_of_lookup_2.
  destruct (Ho o Hin) as (Ha & (s & Hs & Hle) & Hd). eexists _, _, G, B. split; [done|].
  assert (Haddr : o_addr <$> <[i := Owned (o_addr o) (o_size o) (<[off := v]> (o_data o))]> os = o_addr <$> os).
  { rewrite list_fmap_insert. simpl. apply list_insert_id. by rewrite list_lookup_fmap, Hi. }
  split; [eapply client_write_ok; [done|done|lia]|by rewrite Haddr| |by rewrite Haddr].
  intros p (j & Hj)%list_elem_of_lookup. apply list_lookup_insert_Some in Hj as [(<- & <- & _)|[Hne Hj]].
  - split_and!; [done|by exists s|]. simpl. intros f w. rewrite lookup_insert_Some.
    intros [[<- <-]|[Hf Hw]]; [by rewrite lookup_insert_eq|]. rewrite lookup_insert_ne by lia. by apply Hd.
  - assert (Hp : p ∈ os) by by eapply list_elem_of_lookup_2. apply (owned_ok_keep h _ G B); [by apply Ho|].
    intros t Ht. split; [done|]. intros x Hx. simpl. rewrite lookup_insert_ne; [done|].
    destruct (owned_apart h os G B i j o p s t Hc Hi Hj Hne Hs Ht); lia.
Qed.

Lemma hrun_inv cs : ∀ h os G B, client_inv h os G B → Forall cmd_ok cs →
  ∃ h' os' G' B', hrun cs (h, os) = Ret (h', os') ∧ client_inv h' os' G' B'.
Proof.
  induction cs as [|c cs IH]; intros h os G B Hc Hcs; [by exists h, os, G, B|]. apply Forall_cons in Hcs as [Hok Hcs].
  assert (Hstep : ∃ h' os' G' B', hexec c (h, os) = Ret (h', os') ∧ client_inv h' os' G' B').
  { destruct c; [by apply (malloc_inv _ _ _ G B)|by apply (free_inv _ _ _ G B)|by apply (store_inv _ _ _ _ _ G B)]. }
  destruct Hstep as (h1 & os1 & G1 & B1 & Hx & Hc1). cbn [hrun]. rewrite Hx. ostep. by apply (IH h1 os1 G1 B1).
Qed.

(** [C4] Whatever a client does with kmalloc, kfree and its blocks, the heap
    never panics, runs wild or loops; the blocks the client holds are aligned to
    16 bytes, lie apart from each other, and hold the words the client stored;
    and when the client has released all of them, every page has gone back to
    the page allocator. *)
Theorem kheap_client_safe h cs : kinv h [] ∅ → Forall cmd_ok cs →
  ∃ h' os, hrun cs (h, []) = Ret (h', os) ∧
    (∀ i o, os !! i = Some o → o_addr o ≠ 0 ∧ o_addr o mod 16 = 0 ∧
       ∀ off v, o_data o !! off = Some v → mem h' !! (o_addr o + off) = Some v) ∧
    (∀ i j o p, os !! i = Some o → os !! j = Some p → i ≠ j →
       o_addr o + o_size o ≤ o_addr p ∨ o_addr p + o_size p ≤ o_addr o) ∧
    (os = [] → kp_blocks (kp h') = ∅).
Proof.
  intros Hk Hcs. destruct (hrun_inv cs h [] [] ∅) as (h' & os & G & B & Hrun & Hc); [|done|].
  { split; [done| |by intros o ?%not_elem_of_nil|apply NoDup_nil_2].
    intros a s [(g & k & []%not_elem_of_nil & _)|(n & [=] & _)]. }
  exists h', os. pose proof Hc as [Hk' Hl Ho Hnd]. split_and!; [done|..].
  - intros i o Hi. destruct (Ho o) as (Ha & (s & Hs & _) & Hd); [by eapply list_elem_of_lookup_2|].
    pose proof (live_pos _ _ _ _ _ (ki_0 _ _ _ Hk') Hs). split_and!; [lia|done|]. intros off v Hv. by apply Hd.
  - intros i j o p Hi Hj Hne. destruct (Ho o) as (_ & (s & Hs & ?) & _); [by eapply list_elem_of_lookup_2|].
    destruct (Ho p) as (_ & (t & Ht & ?) & _); [by eapply list_elem_of_lookup_2|].
    destruct (owned_apart _ _ _ _ _ _ _ _ _ _ Hc Hi Hj Hne Hs Ht); lia.
  - intros ->. eapply no_live_no_pages; [done|]. intros a s Hs. by apply Hl in Hs as []%not_elem_of_nil.
Qed.

(** kmalloc returns a block of at least the size asked for that overlaps no
    live block, adds exactly this block to the live ones and changes no word of
    the others; or it returns 0 and changes nothing for its clients. *)
Theorem kmalloc_fresh sz h G B : kinv h G B → 0 ≤ sz ≤ 2 ^ 32 - PAGE_SIZE →
  ∃ h' a, kmalloc sz h = Ret (h', a) ∧ keeps h G B h' ∧
    ((a = 0 ∧ kinv h' G B) ∨
     ∃ G' B' s, kinv h' G' B' ∧ a ≠ 0 ∧ a mod 16 = 0 ∧ sz ≤ s ∧ allocated G B G' B' a s).
Proof. intros Hk Hsz. by apply kmalloc_ok. Qed.

(** kfree of a live block ends exactly its life and changes memory only
    inside it. *)
Theorem kfree_releases h G B a s : kinv h G B → live G B a s →
  ∃ h' G' B', kfree a h = Ret h' ∧ kinv h' G' B' ∧ freed G B G' B' a ∧
    ∀ x, (x < a ∨ a + s ≤ x) → mem h' !! x = mem h !! x.
Proof. intros Hk Hl. by apply kfree_ok. Qed.
End client.

(** ** Runs on the coremap *)

Definition boot_pages (s : vmst) : cpages := CPages s (λ _, some_env) 0.

(** The heap on a machine with 512K, right after vm_bootstrap. *)
Definition booted : vmst :=
  match vm_bootstrap true true (raw_entries 128) before_boot with Ret s => s | _ => before_boot end.
Definition boot_heap : kheap cpages := kheap_init (boot_pages booted).

Lemma booted_ok : vm_bootstrap true true (raw_entries 128) before_boot = Ret booted ∧ kinv boot_heap [] ∅.
Proof.
  unfold boot_heap, booted.
  destruct (vm_bootstrap_ok before_boot (raw_entries 128) before_boot_ok eq_refl) as (s & -> & _ & Hi).
  split; [done|]. apply kheap_init_ok; [by eexists _, _, _, _|]. exact (no_blocks _ _ _ _ Hi).
Qed.

(** A session with two sizes of block, a block of two pages, stores and releases. *)
Definition session : list hcmd :=
  [HMalloc 20; HMalloc 32; HMalloc 5000; HStore 0 4 11; HStore 2 4096 13; HFree 1; HMalloc 24; HMalloc 200].
Definition release_all : list hcmd := [HFree 0; HFree 0; HFree 0; HFree 0].

Definition blocks_after (cs : list hcmd) : outcome (list (Z * Z)) :=
  r ← hrun cs (boot_heap, []);
  Ret (map (λ o, (o_addr o, o_size o)) r.2).

Example session_run : blocks_after session =
  Ret [(0x80021fe0, 20); (0x80022000, 5000); (0x80021fc0, 24); (0x80024f00, 200)].
Proof. vm_compute. reflexivity. Qed.

Lemma blocks_after_run cs l h os : blocks_after cs = Ret l → hrun cs (boot_heap, []) = Ret (h, os) →
  l = map (λ o, (o_addr o, o_size o)) os.
Proof. unfold blocks_after. intros Hb Hr. rewrite Hr in Hb. by injection Hb. Qed.

Lemma release_all_run : blocks_after (session ++ release_all) = Ret [].
Proof. vm_compute. reflexivity. Qed.

Lemma kheap_client_safe_witness :
  ∃ h', hrun (session ++ release_all) (boot_heap, []) = Ret (h', []) ∧ kp_blocks (kp h') = ∅.
Proof.
  destruct (kheap_client_safe boot_heap (session ++ release_all)) as (h' & os & Hrun & _ & _ & Hend).
  - exact (proj2 booted_ok).
  - repeat constructor; done.
  - pose proof (blocks_after_run _ _ _ _ release_all_run Hrun) as Hos. destruct os; [|done].
    exists h'. split; [done|]. by apply Hend.
Defined.

Lemma kmalloc_fresh_witness :
  ∃ h' a, kmalloc 100 boot_heap = Ret (h', a) ∧ keeps boot_heap [] ∅ h' ∧
    ((a = 0 ∧ kinv h' [] ∅) ∨
     ∃ G' B' s, kinv h' G' B' ∧ a ≠ 0 ∧ a mod 16 = 0 ∧ 100 ≤ s ∧ allocated [] ∅ G' B' a s).
Proof. apply kmalloc_fresh; [exact (proj2 booted_ok)|done]. Defined.

Lemma malloc_run : blocks_after [HMalloc 100] = Ret [(0x80021f80, 100)].
Proof. vm_compute. reflexivity. Qed.

(** Allocate 100 bytes, then release them. *)
Lemma kfree_releases_witness :
  ∃ h1 a G1 B1 h2 G2 B2, kmalloc 100 boot_heap = Ret (h1, a) ∧ kinv h1 G1 B1 ∧
    kfree a h1 = Ret h2 ∧ kinv h2 G2 B2 ∧ freed G1 B1 G2 B2 a.
Proof.
  destruct (kmalloc_ok 100 boot_heap [] ∅ (proj2 booted_ok)) as (h1 & a & Hm & _ & Hpost); [done|].
  destruct Hpost as [[-> _]|(G1 & B1 & s & Hk & _ & _ & _ & Hl & _)].
  { exfalso. assert (Hr : hrun [HMalloc 100] (boot_heap, []) = Ret (h1, [])) by (cbn [hrun hexec]; by rewrite Hm).
    pose proof (blocks_after_run _ _ _ _ malloc_run Hr). done. }
  destruct (kfree_releases h1 G1 B1 a s Hk) as (h2 & G2 & B2 & Hf & Hk2 & Hfr & _).
  { apply Hl. left. split; reflexivity. }
  exists h1, a, G1, B1, h2, G2, B2.
  exact (conj Hm (conj Hk (conj Hf (conj Hk2 Hfr)))).
Defined.
