(* ===== verification/Uio.v ===== *)
(** * Moving data: lib/copyinout.c and userprog/uio.c

    Memory is a map from addresses to bytes. Which user addresses the VM system
    makes accessible is the parameter [present]: touching any other user
    address from the kernel faults, and the fault handler resumes at copyfail,
    so that the copy ends there with EFAULT, the bytes before it copied.

    A kernel buffer handed to uiomove is a list of bytes; the memory the uio
    points to is disjoint from it. *)

From S2P Require Import Prelude KHeap KHeapSpec Coremap.

Abbreviation memory := (gmap Z Z).
Definition peek (m : memory) (a : Z) : Z := default 0 (m !! a).

Fixpoint load (m : memory) (a : Z) (n : nat) : list Z :=
  match n with O => [] | S n => peek m a :: load m (a + 1) n end.

Fixpoint store (m : memory) (a : Z) (l : list Z) : memory :=
  match l with [] => m | b :: l => store (<[a := b]> m) (a + 1) l end.

(** memcpy over the first bytes of a buffer. *)
Definition overwrite (l buf : list Z) : list Z := l ++ drop (length l) buf.

Inductive uio_rw := UIO_READ | UIO_WRITE.
Inductive uio_seg := UIO_USERSPACE | UIO_SYSSPACE | UIO_USERISPACE.

#[export] Instance uio_rw_eq_dec : EqDecision uio_rw.
Proof. solve_decision. Defined.
#[export] Instance uio_seg_eq_dec : EqDecision uio_seg.
Proof. solve_decision. Defined.

(** struct uio, with its iovec. Address spaces are numbers, 0 being NULL. *)
Record uio := Uio {
  iov_base : Z; iov_len : Z;
  uio_offset : Z; uio_resid : Z;
  uio_segflg : uio_seg; uio_dir : uio_rw; uio_space : Z
}.

Definition mk_kuio (kbuf len pos : Z) (rw : uio_rw) : uio := Uio kbuf len pos len UIO_SYSSPACE rw 0.

Section copy.
Context (present : Z → bool).

(** ** copyinout.c *)

(** [inr stoplen] when the region starts in user space. *)
Definition copycheck (userptr len : Z) : result Z :=
  let bot := userptr in
  let top := u32 (u32 (bot + len) - 1) in
  if bool_decide (top < bot) then inl EFAULT
  else if bool_decide (USERTOP ≤ bot) then inl EFAULT
  else if bool_decide (USERTOP ≤ top) then inr (USERTOP - bot)
  else inr len.

(** The number of bytes from [a] on, up to [n], before one that faults. *)
Fixpoint reach (a : Z) (n : nat) : nat :=
  match n with
  | O => O
  | S n => if present a then S (reach (a + 1) n) else O
  end.

(** The error and the bytes stored at the destination. *)
Definition copyin (m : memory) (usersrc len : Z) : Z * list Z :=
  match copycheck usersrc len with
  | inl e => (e, [])
  | inr stoplen =>
      if bool_decide (stoplen ≠ len) then (EFAULT, [])
      else
        let k := reach usersrc (Z.to_nat len) in
        (if bool_decide (k = Z.to_nat len) then 0 else EFAULT, load m usersrc k)
  end.

Definition copyout (m : memory) (src : list Z) (userdest : Z) : Z * memory :=
  match copycheck userdest (len src) with
  | inl e => (e, m)
  | inr stoplen =>
      if bool_decide (stoplen ≠ len src) then (EFAULT, m)
      else
        let k := reach userdest (length src) in
        (if bool_decide (k = length src) then 0 else EFAULT, store m userdest (take k src))
  end.

(** The loop of copystr from a user address: [n] is the bound both lengths
    leave. The error and the bytes stored; the length got is theirs. *)
Fixpoint copystr_in (n : nat) (m : memory) (a : Z) : option Z * list Z :=
  match n with
  | O => (None, [])
  | S n =>
      if present a then
        if bool_decide (peek m a = 0) then (Some 0, [0])
        else let '(e, l) := copystr_in n m (a + 1) in (e, peek m a :: l)
      else (Some EFAULT, [])
  end.

(** copystr after its loop ran out. *)
Definition copystr_end (maxlen stoplen : Z) : Z :=
  if bool_decide (stoplen < maxlen) then EFAULT else ENAMETOOLONG.

Definition copyinstr (m : memory) (usersrc len : Z) : Z * list Z :=
  match copycheck usersrc len with
  | inl e => (e, [])
  | inr stoplen =>
      let '(e, l) := copystr_in (Z.to_nat (len `min` stoplen)) m usersrc in
      (default (copystr_end len stoplen) e, l)
  end.

(** The same loop towards a user address; reading past the end of the source is
    wild. *)
Fixpoint copystr_out (n : nat) (m : memory) (src : list Z) (a : Z) : outcome (option Z * memory * Z) :=
  match n with
  | O => Ret (None, m, 0)
  | S n =>
      match src with
      | [] => Wild
      | b :: src =>
          if present a then
            let m := <[a := b]> m in
            if bool_decide (b = 0) then Ret (Some 0, m, 1)
            else '(e, m, k) ← copystr_out n m src (a + 1); Ret (e, m, k + 1)
          else Ret (Some EFAULT, m, 0)
      end
  end.

Definition copyoutstr (m : memory) (src : list Z) (userdest len : Z) : outcome (Z * memory * Z) :=
  match copycheck userdest len with
  | inl e => Ret (e, m, 0)
  | inr stoplen =>
      '(e, m, k) ← copystr_out (Z.to_nat (len `min` stoplen)) m src userdest;
      Ret (default (copystr_end len stoplen) e, m, k)
  end.

(** ** uio.c *)

(** One turn of the loop of uiomove with [ptr] the rest of the buffer: the
    error, memory, and the bytes the turn leaves at the front of the buffer. *)
Definition uio_turn (m : memory) (ptr : list Z) (size : Z) (u : uio) : Z * memory * list Z :=
  match uio_segflg u, uio_dir u with
  | UIO_SYSSPACE, UIO_READ => (0, store m (iov_base u) (take (Z.to_nat size) ptr), [])
  | UIO_SYSSPACE, UIO_WRITE => (0, m, load m (iov_base u) (Z.to_nat size))
  | _, UIO_READ => let '(e, m) := copyout m (take (Z.to_nat size) ptr) (iov_base u) in (e, m, [])
  | _, UIO_WRITE => let '(e, l) := copyin m (iov_base u) size in (e, m, l)
  end.

Definition advance (size : Z) (u : uio) : uio :=
  Uio (u32 (iov_base u + size)) (u32 (iov_len u - size)) (s32 (uio_offset u + size)) (u32 (uio_resid u - size))
    (uio_segflg u) (uio_dir u) (uio_space u).

(** [done] is the part of the buffer behind the pointer. *)
Fixpoint uiomove_loop (fuel : nat) (m : memory) (done ptr : list Z) (n : Z) (u : uio)
    : outcome (Z * memory * list Z * uio) :=
  if bool_decide (0 < n) && bool_decide (0 < uio_resid u) then
    match fuel with
    | O => Spin
    | S f =>
        let size := if bool_decide (n < iov_len u) then n else iov_len u in
        if bool_decide (size = 0) then Panic
        else if bool_decide (len ptr < size) then Wild
        else
          let '(e, m, l) := uio_turn m ptr size u in
          let ptr := overwrite l ptr in
          if bool_decide (e ≠ 0) then Ret (e, m, done ++ ptr, u)
          else uiomove_loop f m (done ++ take (Z.to_nat size) ptr) (drop (Z.to_nat size) ptr) (n - size)
                 (advance size u)
    end
  else Ret (0, m, done ++ ptr, u).

(** [space] is the address space of the current thread. *)
Definition uiomove (space : Z) (m : memory) (buf : list Z) (n : Z) (u : uio) : outcome (Z * memory * list Z * uio) :=
  c_assert (if decide (uio_segflg u = UIO_SYSSPACE) then bool_decide (uio_space u = 0)
            else bool_decide (uio_space u = space));;
  uiomove_loop (Z.to_nat n) m [] buf n u.

Definition zeros : list Z := replicate 16 0.

Fixpoint zeros_loop (fuel : nat) (space : Z) (m : memory) (n : Z) (u : uio) : outcome (Z * memory * uio) :=
  if bool_decide (0 < n) then
    match fuel with
    | O => Spin
    | S f =>
        let amt := if bool_decide (n < 16) then n else 16 in
        '(e, m, _, u) ← uiomove space m zeros amt u;
        if bool_decide (e ≠ 0) then Ret (e, m, u) else zeros_loop f space m (n - amt) u
    end
  else Ret (0, m, u).

Definition uiomovezeros (space : Z) (m : memory) (n : Z) (u : uio) : outcome (Z * memory * uio) :=
  c_assert (bool_decide (uio_dir u = UIO_READ));;
  zeros_loop (Z.to_nat n) space m n u.
End copy.

(** ** Bytes in memory *)

Lemma load_length m n : ∀ a, length (load m a n) = n.
Proof. induction n; intros; simpl; auto. Qed.

Lemma load_app m n k : ∀ a, load m a (n + k) = load m a n ++ load m (a + Z.of_nat n) k.
Proof.
  induction n as [|n IH]; intros a; simpl; [by rewrite Z.add_0_r|]. rewrite IH. do 2 f_equal.
  f_equal. lia.
Qed.

Lemma load_ext m m' n : ∀ a, (∀ x, a ≤ x < a + Z.of_nat n → peek m' x = peek m x) → load m' a n = load m a n.
Proof.
  induction n as [|n IH]; intros a H; simpl; [done|]. rewrite H by lia. f_equal. apply IH. intros x Hx. apply H. lia.
Qed.

Lemma peek_insert m a b x : peek (<[a := b]> m) x = if decide (x = a) then b else peek m x.
Proof.
  unfold peek. case_decide; [subst; by rewrite lookup_insert_eq|by rewrite lookup_insert_ne].
Qed.

(** A store changes its own bytes only. *)
Lemma peek_store_outside l : ∀ m a x, (x < a ∨ a + len l ≤ x) → peek (store m a l) x = peek m x.
Proof.
  induction l as [|b l IH]; intros m a x Hx; simpl in *; [done|]. rewrite IH by lia. rewrite peek_insert.
  rewrite decide_False by lia. done.
Qed.

Lemma load_store l : ∀ m a, load (store m a l) a (length l) = l.
Proof.
  induction l as [|b l IH]; intros m a; simpl; [done|]. rewrite IH. f_equal.
  rewrite peek_store_outside by lia. rewrite peek_insert, decide_True by done. done.
Qed.

Lemma store_app l k : ∀ m a, store m a (l ++ k) = store (store m a l) (a + len l) k.
Proof.
  induction l as [|b l IH]; intros m a; simpl; [by rewrite Z.add_0_r|]. rewrite IH. f_equal. lia.
Qed.

(** ** Copies between the kernel and a user process *)

Section user.
Context (present : Z → bool).

(** The region lies in user space and all of it can be touched. *)
Definition user_range (p n : Z) : Prop :=
  0 < n ∧ p + n ≤ USERTOP ∧ ∀ a, p ≤ a < p + n → present a = true.

Definition word (x : Z) : Prop := 0 ≤ x < 2 ^ 32.

(** copycheck accepts exactly the non-empty regions that start in user space and
    do not wrap around, and cuts them at the top of user space. *)
Lemma copycheck_ok p n : word p → word n →
  copycheck p n =
    if decide (p < USERTOP ∧ ((0 < n ∧ p + n ≤ 2 ^ 32) ∨ (n = 0 ∧ p = 0))) then
      inr (if decide (0 < n ∧ p + n ≤ USERTOP) then n else USERTOP - p)
    else inl EFAULT.
Proof.
  intros Hp Hn. unfold word, copycheck in *. cbv zeta.
  assert (Htop : u32 (u32 (p + n) - 1) = if decide (0 < p + n ≤ 2 ^ 32) then p + n - 1
    else if decide (p + n = 0) then 2 ^ 32 - 1 else p + n - 2 ^ 32 - 1).
  { unfold u32. destruct (decide (p + n < 2 ^ 32)).
    - rewrite (Z.mod_small (p + n)) by lia. case_decide; [rewrite Z.mod_small; lia|]. rewrite decide_True by lia.
      replace (p + n) with 0 by lia. done.
    - replace (p + n) with (p + n - 2 ^ 32 + 1 * 2 ^ 32) at 1 by lia. rewrite Z.mod_add, (Z.mod_small (p + n - 2 ^ 32)) by lia.
      case_decide.
      + replace (p + n - 2 ^ 32 - 1) with (-1) by lia. change (-1 mod 2 ^ 32) with (2 ^ 32 - 1). lia.
      + rewrite decide_False by lia. rewrite Z.mod_small; lia. }
  rewrite Htop. unfold USERTOP, MIPS_KSEG0.
  repeat case_decide; repeat case_bool_decide; try lia; try done; f_equal; lia.
Qed.

Lemma reach_all a n : (∀ x, a ≤ x < a + Z.of_nat n → present x = true) → reach present a n = n.
Proof.
  revert a. induction n as [|n IH]; intros a H; simpl; [done|]. rewrite H by lia. f_equal. apply IH.
  intros x Hx. apply H. lia.
Qed.

Lemma reach_inv n : ∀ a, (reach present a n ≤ n)%nat ∧
  (∀ x, a ≤ x < a + Z.of_nat (reach present a n) → present x = true).
Proof.
  induction n as [|n IH]; intros a; simpl; [split; [lia|intros; lia]|]. destruct (present a) eqn:Ha; simpl.
  - destruct (IH (a + 1)) as [Hle Hall]. split; [lia|]. intros x Hx. destruct (decide (x = a)) as [->|]; [done|].
    apply Hall. lia.
  - split; [lia|]. intros x Hx. lia.
Qed.

(** A copy that ends early has met an address that faults. *)
Lemma reach_stops n : ∀ a, (reach present a n < n)%nat → present (a + Z.of_nat (reach present a n)) = false.
Proof.
  induction n as [|n IH]; intros a; simpl; [lia|]. destruct (present a) eqn:Ha; simpl.
  - intros Hlt. rewrite <- (IH (a + 1)) by lia. f_equal. lia.
  - intros _. by rewrite Z.add_0_r.
Qed.

Lemma copyin_spec m p n : word p → word n →
  (user_range p n → copyin present m p n = (0, load m p (Z.to_nat n))) ∧
  (¬ user_range p n → ∃ k, copyin present m p n = (EFAULT, load m p k) ∧ (k = 0%nat ∨ user_range p (Z.of_nat k))).
Proof.
  intros Hp Hn. unfold copyin. rewrite copycheck_ok by done. unfold word, USERTOP, MIPS_KSEG0 in *. split.
  - intros (H0 & Htop & Hall). unfold USERTOP, MIPS_KSEG0 in *. rewrite !decide_True by lia.
    rewrite bool_decide_eq_false_2 by tauto. rewrite reach_all by (intros x Hx; apply Hall; lia).
    by rewrite bool_decide_eq_true_2.
  - intros Hno. case_decide as Hc; [|exists 0%nat; by auto]. case_decide as Hr.
    + rewrite bool_decide_eq_false_2 by tauto. destruct (reach_inv (Z.to_nat n) p) as [Hle Hall].
      exists (reach present p (Z.to_nat n)). split.
      * rewrite bool_decide_eq_false_2; [done|]. intros He. apply Hno. split_and!; try lia.
        { unfold USERTOP, MIPS_KSEG0. lia. }
        intros a Ha. apply Hall. lia.
      * destruct (decide (reach present p (Z.to_nat n) = 0%nat)); [by left|right]. split_and!; [lia| |done].
        unfold USERTOP, MIPS_KSEG0. lia.
    + rewrite bool_decide_eq_true_2 by lia. exists 0%nat. by auto.
Qed.

Lemma copyout_spec m l p : word p → word (len l) →
  (user_range p (len l) → copyout present m l p = (0, store m p l)) ∧
  (¬ user_range p (len l) → ∃ k, copyout present m l p = (EFAULT, store m p (take k l)) ∧
     (k = 0%nat ∨ ((k ≤ length l)%nat ∧ user_range p (Z.of_nat k)))).
Proof.
  intros Hp Hn. unfold copyout. rewrite copycheck_ok by done. unfold word, USERTOP, MIPS_KSEG0 in *. split.
  - intros (H0 & Htop & Hall). unfold USERTOP, MIPS_KSEG0 in *. rewrite !decide_True by lia.
    rewrite bool_decide_eq_false_2 by tauto. rewrite reach_all by (intros x Hx; apply Hall; lia).
    by rewrite bool_decide_eq_true_2, firstn_all.
  - intros Hno. case_decide as Hc; [|exists 0%nat; by auto]. case_decide as Hr.
    + rewrite bool_decide_eq_false_2 by tauto. destruct (reach_inv (length l) p) as [Hle Hall].
      exists (reach present p (length l)). split.
      * rewrite bool_decide_eq_false_2; [done|]. intros He. apply Hno. split_and!; try lia.
        { unfold USERTOP, MIPS_KSEG0. lia. }
        intros a Ha. apply Hall. lia.
      * destruct (decide (reach present p (length l) = 0%nat)); [by left|right]. split; [done|]. split_and!; [lia| |done].
        unfold USERTOP, MIPS_KSEG0. lia.
    + rewrite bool_decide_eq_true_2 by lia. exists 0%nat. by auto.
Qed.

Definition nonzero (m : memory) (a k : Z) : Prop := ∀ x, a ≤ x < a + k → peek m x ≠ 0.

Lemma copystr_in_ok m n : ∀ a,
  (∃ k, 0 ≤ k < Z.of_nat n ∧ (∀ x, a ≤ x < a + k + 1 → present x = true) ∧ nonzero m a k ∧ peek m (a + k) = 0 ∧
     copystr_in present n m a = (Some 0, load m a (Z.to_nat (k + 1)))) ∨
  ((∀ x, a ≤ x < a + Z.of_nat n → present x = true) ∧ nonzero m a (Z.of_nat n) ∧
     copystr_in present n m a = (None, load m a n)) ∨
  (∃ k, 0 ≤ k < Z.of_nat n ∧ nonzero m a k ∧ present (a + k) = false ∧
     copystr_in present n m a = (Some EFAULT, load m a (Z.to_nat k))).
Proof.
  induction n as [|n IH]; intros a; simpl; [right; left; split_and!; done || (intros ?; lia)|].
  destruct (present a) eqn:Ha; [|right; right; exists 0; split_and!; [lia..|intros ? ?; lia|by rewrite Z.add_0_r|done]].
  case_bool_decide as H0.
  { left. exists 0. split_and!; [lia..| |intros ? ?; lia|by rewrite Z.add_0_r|simpl; by rewrite H0].
    intros x Hx. by replace x with a by lia. }
  assert (Hnz : ∀ k, nonzero m (a + 1) k → nonzero m a (k + 1)).
  { intros k Hk x Hx. destruct (decide (x = a)) as [->|]; [done|]. apply Hk. lia. }
  assert (Hload : ∀ k, 0 ≤ k → load m a (Z.to_nat (k + 1)) = peek m a :: load m (a + 1) (Z.to_nat k)).
  { intros k Hk. by replace (Z.to_nat (k + 1)) with (S (Z.to_nat k)) by lia. }
  destruct (IH (a + 1)) as [(k & Hk & Hp & Hz & He & ->)|[(Hp & Hz & ->)|(k & Hk & Hz & Hp & ->)]].
  - left. exists (k + 1). rewrite (Hload (k + 1)) by lia. split_and!; [lia..| |by apply Hnz| |done].
    + intros x Hx. destruct (decide (x = a)) as [->|]; [done|]. apply Hp. lia.
    + by replace (a + (k + 1)) with (a + 1 + k) by lia.
  - right. left. split_and!; [| |done].
    + intros x Hx. destruct (decide (x = a)) as [->|]; [done|]. apply Hp. lia.
    + replace (Z.of_nat (S n)) with (Z.of_nat n + 1) by lia. by apply Hnz.
  - right. right. exists (k + 1). rewrite Hload by lia. split_and!; [lia..|by apply Hnz| |done].
    by replace (a + (k + 1)) with (a + 1 + k) by lia.
Qed.

Lemma copyinstr_spec m p n : word p → 0 < n ≤ 2 ^ 31 →
  let '(e, l) := copyinstr present m p n in
  (e = 0 ∧ ∃ k, 0 ≤ k < n ∧ user_range p (k + 1) ∧ nonzero m p k ∧ peek m (p + k) = 0 ∧
     l = load m p (Z.to_nat (k + 1))) ∨
  (e = ENAMETOOLONG ∧ user_range p n ∧ nonzero m p n) ∨
  (e = EFAULT ∧ (∀ k, 0 ≤ k < n → nonzero m p k → peek m (p + k) = 0 → ¬ user_range p (k + 1)) ∧
     ¬ (user_range p n ∧ nonzero m p n)).
Proof.
  intros Hp Hn. unfold copyinstr. rewrite copycheck_ok by (unfold word in *; lia). unfold word in Hp.
  unfold user_range, USERTOP, MIPS_KSEG0. case_decide as Hc; [|right; right; split_and!; [done|intros; lia..]].
  set (t := n `min` (if decide (0 < n ∧ p + n ≤ 2147483648) then n else 2147483648 - p)).
  assert (Ht : 0 < t ≤ n ∧ p + t ≤ 2147483648 ∧ (t = n ∨ p + t = 2147483648)) by (unfold t; case_decide; lia).
  assert (Hend : default (copystr_end n (if decide (0 < n ∧ p + n ≤ 2147483648) then n else 2147483648 - p)) None
    = if decide (t = n) then ENAMETOOLONG else EFAULT).
  { unfold copystr_end, t. simpl. repeat case_decide; case_bool_decide; try done; lia. }
  clearbody t.
  destruct (copystr_in_ok m (Z.to_nat t) p) as [(k & Hk & Hpr & Hz & He & ->)|[(Hpr & Hz & ->)|(k & Hk & Hz & Hpr & ->)]].
  - left. split; [done|]. exists k. split_and!; try lia; try done. intros a Ha. apply Hpr. lia.
  - rewrite Hend. rewrite Z2Nat.id in Hpr, Hz by lia. destruct (decide (t = n)) as [Htn|Htn].
    + right. left. rewrite Htn in Hpr, Hz, Ht. split_and!; try lia; done.
    + right. right. split_and!; [done| |lia]. intros k Hk Hzk H0 (_ & Hle & _).
      apply (Hz (p + k)); [lia|done].
  - right. right. split_and!; [done|..].
    + intros k' Hk' Hz' H0 (_ & _ & Hall). destruct (decide (k' < k)).
      * apply (Hz (p + k')); [lia|done].
      * rewrite Hall in Hpr by lia. done.
    + intros [(_ & _ & Hall) _]. rewrite Hall in Hpr by lia. done.
Qed.

(** ** uiomove *)

Definition is_user (u : uio) : bool := bool_decide (uio_segflg u ≠ UIO_SYSSPACE).

(** The uio after [k] bytes have moved. *)
Definition moved (k : Z) (u : uio) : uio :=
  Uio (iov_base u + k) (iov_len u - k) (uio_offset u + k) (uio_resid u - k)
    (uio_segflg u) (uio_dir u) (uio_space u).

(** What the caller of uiomove sets up: a region in the address space, no more to
    transfer than the region holds, an offset that does not overflow, and the
    address space the kind of region asks for. *)
Record uio_wf (space : Z) (u : uio) : Prop := {
  uw_base : 0 ≤ iov_base u ∧ iov_base u + iov_len u < 2 ^ 32;
  uw_resid : 0 ≤ uio_resid u ≤ iov_len u;
  uw_offset : - 2 ^ 31 ≤ uio_offset u ∧ uio_offset u + uio_resid u < 2 ^ 31;
  uw_space : uio_space u = if is_user u then space else 0
}.

Lemma advance_moved space u k : uio_wf space u → 0 ≤ k ≤ uio_resid u → advance k u = moved k u.
Proof.
  intros [] Hk. unfold advance, moved. rewrite !u32_small by lia. rewrite s32_small by lia. done.
Qed.

Lemma moved_wf space u k : uio_wf space u → 0 ≤ k ≤ uio_resid u → uio_wf space (moved k u).
Proof. intros [] Hk. split; simpl; try lia. done. Qed.

Lemma space_check space u : uio_wf space u →
  c_assert (if decide (uio_segflg u = UIO_SYSSPACE) then bool_decide (uio_space u = 0)
            else bool_decide (uio_space u = space)) = Ret ().
Proof.
  intros [_ _ _ Hs]. apply assert_true. unfold is_user in Hs. case_decide as Hd.
  - rewrite bool_decide_eq_false_2 in Hs by tauto. by apply bool_decide_eq_true_2.
  - rewrite bool_decide_eq_true_2 in Hs by done. by apply bool_decide_eq_true_2.
Qed.

(** The state after a transfer of [k] bytes. *)
Definition moved_mem (m : memory) (buf : list Z) (k : Z) (u : uio) : memory :=
  match uio_dir u with UIO_READ => store m (iov_base u) (take (Z.to_nat k) buf) | UIO_WRITE => m end.
Definition moved_buf (m : memory) (buf : list Z) (k : Z) (u : uio) : list Z :=
  match uio_dir u with UIO_READ => buf | UIO_WRITE => overwrite (load m (iov_base u) (Z.to_nat k)) buf end.

Lemma copyin_length m p n : (length (copyin present m p n).2 ≤ Z.to_nat n)%nat.
Proof.
  unfold copyin. destruct (copycheck p n); simpl; [lia|]. case_bool_decide; simpl; [lia|].
  rewrite load_length. apply reach_inv.
Qed.

(** One turn moves its bytes, or faults in user space. *)
Lemma uio_turn_ok space m buf k u : uio_wf space u → 0 < k ≤ uio_resid u → k ≤ len buf →
  (is_user u = false ∨ user_range (iov_base u) k →
     ∃ l, uio_turn present m buf k u = (0, moved_mem m buf k u, l) ∧ overwrite l buf = moved_buf m buf k u) ∧
  (is_user u = true → ¬ user_range (iov_base u) k →
     ∃ m' l, uio_turn present m buf k u = (EFAULT, m', l) ∧ (∀ a, USERTOP ≤ a → peek m' a = peek m a) ∧
       (length l ≤ length buf)%nat).
Proof.
  intros [] Hk Hbuf. assert (Hwb : word (iov_base u)) by (unfold word; lia).
  assert (Hwk : word k) by (unfold word; lia).
  assert (Hlt : len (take (Z.to_nat k) buf) = k) by (rewrite length_take; lia).
  destruct (copyin_spec m (iov_base u) k Hwb Hwk) as [Hin1 Hin2].
  destruct (copyout_spec m (take (Z.to_nat k) buf) (iov_base u)) as [Hout1 Hout2]; [done|by rewrite Hlt|].
  rewrite Hlt in Hout1, Hout2. unfold uio_turn, moved_mem, moved_buf, is_user. split.
  - intros Hr. destruct (uio_segflg u) eqn:Hs; destruct (uio_dir u); try (eexists; split; reflexivity);
      (destruct Hr as [?|Hr]; [done|]); rewrite ?(Hin1 Hr), ?(Hout1 Hr); eexists; split; reflexivity.
  - intros Hus Hno. destruct (Hin2 Hno) as (ki & Hi & Hir). destruct (Hout2 Hno) as (ko & Ho & Hor).
    assert (Hmem : ∀ a, USERTOP ≤ a → peek (store m (iov_base u) (take ko (take (Z.to_nat k) buf))) a = peek m a).
    { intros a Ha. apply peek_store_outside. rewrite length_take. destruct Hor as [->|(? & _ & ? & _)]; lia. }
    assert (Hki : (ki ≤ length buf)%nat).
    { pose proof (copyin_length m (iov_base u) k) as H. rewrite Hi in H. simpl in H. rewrite load_length in H. lia. }
    destruct (uio_segflg u); [|by rewrite bool_decide_eq_false_2 in Hus by tauto|];
      (destruct (uio_dir u); rewrite ?Hi, ?Ho; eexists _, _; (split; [done|]); split; try done; rewrite ?load_length; simpl; lia).
Qed.

Lemma uiomove_loop_stop f m d p n u : n ≤ 0 ∨ uio_resid u ≤ 0 →
  uiomove_loop present f m d p n u = Ret (0, m, d ++ p, u).
Proof.
  intros H. assert (Hz : bool_decide (0 < n) && bool_decide (0 < uio_resid u) = false).
  { apply andb_false_iff. rewrite !bool_decide_eq_false. lia. }
  destruct f; cbn [uiomove_loop]; by rewrite Hz.
Qed.

Lemma uiomove_spec space m buf n u : uio_wf space u → 0 ≤ n ≤ len buf → (n ≤ uio_resid u ∨ uio_resid u = iov_len u) →
  let k := n `min` uio_resid u in
  (is_user u = false ∨ k = 0 ∨ user_range (iov_base u) k →
     uiomove present space m buf n u = Ret (0, moved_mem m buf k u, moved_buf m buf k u, moved k u)) ∧
  (is_user u = true → 0 < k → ¬ user_range (iov_base u) k →
     ∃ m' buf', uiomove present space m buf n u = Ret (EFAULT, m', buf', u) ∧ length buf' = length buf ∧
       ∀ a, USERTOP ≤ a → peek m' a = peek m a).
Proof.
  intros Hw Hn Hcap k. pose proof Hw as [Hb Hr Ho _]. unfold uiomove. rewrite (space_check space u Hw). ostep.
  destruct (decide (k = 0)) as [Hk0|Hk0].
  { split; [|lia]. intros _.
    rewrite uiomove_loop_stop, Hk0 by lia. unfold moved_mem, moved_buf, moved. rewrite !Z.add_0_r, !Z.sub_0_r. simpl.
    destruct u as [? ? ? ? ? []]; simpl; done. }
  destruct (Z.to_nat n) as [|f] eqn:Hf; [lia|]. simpl uiomove_loop.
  rewrite (bool_decide_eq_true_2 (0 < n)), (bool_decide_eq_true_2 (0 < uio_resid u)) by lia. cbn [andb].
  assert (Hsize : (if bool_decide (n < iov_len u) then n else iov_len u) = k) by (case_bool_decide; lia). rewrite Hsize.
  rewrite bool_decide_eq_false_2 by done. rewrite bool_decide_eq_false_2 by lia.
  destruct (uio_turn_ok space m buf k u Hw) as [Hok Hbad]; [lia..|]. split.
  - intros Hcase. destruct Hok as (l & -> & Hl); [tauto|]. rewrite bool_decide_eq_false_2 by tauto. rewrite Hl.
    rewrite (advance_moved space) by (done || lia).
    rewrite uiomove_loop_stop by (simpl; lia). simpl app. by rewrite firstn_skipn.
  - intros Hus Hk Hno. destruct (Hbad Hus Hno) as (m' & l & -> & Hm & Hlen). rewrite bool_decide_eq_true_2 by done.
    exists m', (overwrite l buf). split_and!; try done. unfold overwrite.
    rewrite length_app, length_drop. lia.
Qed.

Lemma zeros_take k : 0 ≤ k ≤ 16 → take (Z.to_nat k) zeros = replicate (Z.to_nat k) 0.
Proof. intros Hk. unfold zeros. rewrite take_replicate. f_equal. lia. Qed.

Lemma user_range_sub p n k : user_range p n → 0 < k ≤ n → user_range p k.
Proof. intros (? & ? & Hall) Hk. split_and!; [lia..|]. intros a Ha. apply Hall. lia. Qed.

Lemma user_range_rest p n k : user_range p n → 0 ≤ k < n → user_range (p + k) (n - k).
Proof. intros (? & ? & Hall) Hk. split_and!; [lia..|]. intros a Ha. apply Hall. lia. Qed.

Lemma zeros_loop_spec space f : ∀ m n u, uio_wf space u → uio_dir u = UIO_READ → 0 ≤ n ≤ uio_resid u →
  n ≤ Z.of_nat f → is_user u = false ∨ n = 0 ∨ user_range (iov_base u) n →
  zeros_loop present f space m n u = Ret (0, store m (iov_base u) (replicate (Z.to_nat n) 0), moved n u).
Proof.
  induction f as [|f IH]; intros m n u Hw Hd Hn Hf Hr.
  - assert (n = 0) as -> by lia. simpl. unfold moved. rewrite !Z.add_0_r, !Z.sub_0_r. by destruct u.
  - cbn [zeros_loop]. case_bool_decide as Hpos.
    2: { assert (n = 0) as -> by lia. simpl. unfold moved. rewrite !Z.add_0_r, !Z.sub_0_r. by destruct u. }
    set (amt := if bool_decide (n < 16) then n else 16).
    assert (Ha : amt = n `min` 16) by (unfold amt; case_bool_decide; lia). clearbody amt.
    destruct (uiomove_spec space m zeros amt u Hw) as [Hmove _]; [unfold zeros; simpl; lia|lia|].
    replace (amt `min` uio_resid u) with amt in Hmove by lia.
    rewrite Hmove by (destruct Hr as [?|[?|Hr]]; [by left|lia|right; right; apply (user_range_sub _ n); done || lia]).
    ostep. rewrite bool_decide_eq_false_2 by tauto. rewrite IH.
    + assert (Hmv : moved (n - amt) (moved amt u) = moved n u) by (unfold moved; simpl; f_equal; lia).
      rewrite Hmv. unfold moved_mem. rewrite Hd, zeros_take by lia.
      replace (Z.to_nat n) with (Z.to_nat amt + Z.to_nat (n - amt))%nat by lia.
      rewrite replicate_add, store_app, length_replicate. simpl. by rewrite Z2Nat.id by lia.
    + apply moved_wf; [done|lia].
    + done.
    + simpl. lia.
    + lia.
    + destruct Hr as [?|[?|Hr]]; [by left|lia|]. right. destruct (decide (n - amt = 0)); [by left|right].
      simpl. apply user_range_rest; done || lia.
Qed.

(** ** Theorems *)

(** The number of bytes a copy of [n] bytes at [p] moves before it fails: none
    if the block is empty or reaches into the kernel, otherwise those before the
    first address that faults. *)
Definition stops_after (p n : Z) (k : nat) : Prop :=
  (k = 0%nat ∧ ¬ (0 < n ∧ p + n ≤ USERTOP)) ∨
  (Z.of_nat k < n ∧ p + n ≤ USERTOP ∧ present (p + Z.of_nat k) = false ∧
   ∀ a, p ≤ a < p + Z.of_nat k → present a = true).

Lemma user_copy_stops m p n l : word p → word n → len l = n → ¬ user_range p n →
  ∃ k, stops_after p n k ∧ copyin present m p n = (EFAULT, load m p k) ∧
    copyout present m l p = (EFAULT, store m p (take k l)).
Proof.
  intros Hp Hn Hl Hno. unfold copyin, copyout. rewrite Hl, !copycheck_ok by done.
  destruct (decide (0 < n ∧ p + n ≤ USERTOP)) as [Hr|Hr].
  - assert (p < USERTOP) by lia. unfold word in *. rewrite decide_True by (unfold USERTOP, MIPS_KSEG0 in *; lia).
    rewrite !bool_decide_eq_false_2 by tauto. replace (length l) with (Z.to_nat n) by lia.
    pose proof (reach_stops (Z.to_nat n) p) as Hs. destruct (reach_inv (Z.to_nat n) p) as [Hle Hall].
    assert (Hk : reach present p (Z.to_nat n) ≠ Z.to_nat n).
    { intros He. apply Hno. split_and!; [lia..|]. intros a Ha. apply Hall. lia. }
    exists (reach present p (Z.to_nat n)). rewrite !bool_decide_eq_false_2 by done.
    split; [|done]. right. split_and!; [lia..| |done]. apply Hs. lia.
  - exists 0%nat. split; [by left|]. case_decide; [|done]. unfold word in *.
    rewrite !bool_decide_eq_true_2 by (unfold USERTOP, MIPS_KSEG0 in *; lia). done.
Qed.

(** [C26] copyin and copyout transfer the whole block and return 0 exactly when
    it is not empty, lies below the kernel and can be touched.  In every other
    case, wild and overlapping pointers included, they return EFAULT after
    moving the same prefix of the block: nothing if the block is empty or not
    entirely below the kernel, otherwise the bytes before the first address
    that faults; copyout changes no byte outside that prefix, in the user's
    memory or in the kernel's. *)
Theorem user_copy_confined m p n l : word p → word n → len l = n →
  (user_range p n → copyin present m p n = (0, load m p (Z.to_nat n)) ∧ copyout present m l p = (0, store m p l)) ∧
  (¬ user_range p n → ∃ k, stops_after p n k ∧
     copyin present m p n = (EFAULT, load m p k) ∧
     ∃ m', copyout present m l p = (EFAULT, m') ∧ load m' p k = take k l ∧
       ∀ a, a < p ∨ p + Z.of_nat k ≤ a → peek m' a = peek m a).
Proof.
  intros Hp Hn Hl. destruct (copyin_spec m p n Hp Hn) as [Hi1 _].
  destruct (copyout_spec m l p Hp) as [Ho1 _]; [by rewrite Hl|]. rewrite Hl in Ho1. split.
  - intros Hr. by rewrite Hi1, Ho1.
  - intros Hr. destruct (user_copy_stops m p n l Hp Hn Hl Hr) as (k & Hk & -> & ->).
    assert (Hlen : length (take k l) = k) by (rewrite length_take; destruct Hk as [[-> _]|[? _]]; lia).
    exists k. split_and!; [done..|]. eexists. split_and!; [done| |].
    + rewrite <- Hlen at 2. apply load_store.
    + intros a Ha. apply peek_store_outside. by rewrite Hlen.
Qed.

(** copyinstr returns the string up to its terminator when that comes
    within the limit and in accessible user space, ENAMETOOLONG when the limit
    is reached first, and EFAULT otherwise. *)
Theorem copyinstr_outcomes m p n : word p → 0 < n ≤ 2 ^ 31 →
  let '(e, l) := copyinstr present m p n in
  (e = 0 ∧ ∃ k, 0 ≤ k < n ∧ user_range p (k + 1) ∧ nonzero m p k ∧ peek m (p + k) = 0 ∧
     l = load m p (Z.to_nat (k + 1))) ∨
  (e = ENAMETOOLONG ∧ user_range p n ∧ nonzero m p n) ∨
  (e = EFAULT ∧ (∀ k, 0 ≤ k < n → nonzero m p k → peek m (p + k) = 0 → ¬ user_range p (k + 1)) ∧
     ¬ (user_range p n ∧ nonzero m p n)).
Proof. apply copyinstr_spec. Qed.

(** uiomove moves the smaller of what it is asked for and what the uio has
    left, in the direction of the uio, and accounts for it in the uio; a user
    region that cannot be touched gives EFAULT, leaves the uio and the kernel's
    memory alone. uiomovezeros fills with zeros. *)
Theorem uiomove_transfers space m buf n u : uio_wf space u → 0 ≤ n ≤ len buf →
  (n ≤ uio_resid u ∨ uio_resid u = iov_len u) →
  let k := n `min` uio_resid u in
  (is_user u = false ∨ k = 0 ∨ user_range (iov_base u) k →
     uiomove present space m buf n u = Ret (0, moved_mem m buf k u, moved_buf m buf k u, moved k u) ∧
     (uio_dir u = UIO_READ → uiomovezeros present space m k u =
        Ret (0, store m (iov_base u) (replicate (Z.to_nat k) 0), moved k u))) ∧
  (is_user u = true → 0 < k → ¬ user_range (iov_base u) k →
     ∃ m' buf', uiomove present space m buf n u = Ret (EFAULT, m', buf', u) ∧ length buf' = length buf ∧
       ∀ a, USERTOP ≤ a → peek m' a = peek m a).
Proof.
  intros Hw Hn Hcap k. destruct (uiomove_spec space m buf n u Hw Hn Hcap) as [H1 H2]. split; [|done].
  intros Hr. split; [by apply H1|]. intros Hd. unfold uiomovezeros. rewrite bool_decide_eq_true_2 by done.
  cbn [c_assert]. ostep. pose proof (uw_resid _ _ Hw). apply zeros_loop_spec; try done; lia.
Qed.
End user.

(** ** Runs with one accessible user page *)

Definition one_page (a : Z) : bool := bool_decide (0x400000 ≤ a < 0x401000).
Definition hello : list Z := [104; 101; 108; 108; 111; 0].
Definition hello_mem : memory := store ∅ 0x400010 hello.

Lemma one_page_range p n : 0 < n → 0x400000 ≤ p → p + n ≤ 0x401000 → user_range one_page p n.
Proof.
  intros. split_and!; [done|unfold USERTOP, MIPS_KSEG0; lia|]. intros a Ha. apply bool_decide_eq_true_2. lia.
Qed.

Lemma user_copy_confined_witness :
  copyin one_page hello_mem 0x400010 6 = (0, hello) ∧ copyout one_page ∅ hello 0x400010 = (0, hello_mem) ∧
  (∃ k, stops_after one_page 0x400ffd 6 k ∧ copyin one_page ∅ 0x400ffd 6 = (EFAULT, load ∅ 0x400ffd k) ∧
     ∃ m', copyout one_page ∅ hello 0x400ffd = (EFAULT, m') ∧ load m' 0x400ffd k = take k hello ∧
       ∀ a, a < 0x400ffd ∨ 0x400ffd + Z.of_nat k ≤ a → peek m' a = peek ∅ a).
Proof.
  destruct (user_copy_confined one_page hello_mem 0x400010 6 hello) as [H1 _]; [done..|].
  destruct (user_copy_confined one_page ∅ 0x400010 6 hello) as [H2 _]; [done..|].
  destruct (user_copy_confined one_page ∅ 0x400ffd 6 hello) as [_ H3]; [done..|].
  split; [apply H1; by apply one_page_range|]. split; [apply H2; by apply one_page_range|]. apply H3.
  intros (_ & _ & Hall). specialize (Hall 0x401000 ltac:(lia)). discriminate Hall.
Defined.

Lemma copyinstr_outcomes_witness :
  copyinstr one_page hello_mem 0x400010 100 = (0, hello) ∧
  (∃ k, 0 ≤ k < 100 ∧ user_range one_page 0x400010 (k + 1) ∧ nonzero hello_mem 0x400010 k ∧
     peek hello_mem (0x400010 + k) = 0 ∧ hello = load hello_mem 0x400010 (Z.to_nat (k + 1))).
Proof.
  assert (Hrun : copyinstr one_page hello_mem 0x400010 100 = (0, hello)) by (vm_compute; reflexivity).
  split; [exact Hrun|]. pose proof (copyinstr_outcomes one_page hello_mem 0x400010 100) as H. rewrite Hrun in H.
  destruct H as [[_ H]|[[H _]|[H _]]]; [done..|exact H|discriminate H|discriminate H].
Defined.

Lemma uiomove_transfers_witness :
  let u := Uio 0x400010 100 7 100 UIO_USERSPACE UIO_READ 3 in
  uiomove one_page 3 ∅ hello 6 u = Ret (0, hello_mem, hello, moved 6 u) ∧
  (∃ m' buf', uiomove one_page 3 ∅ hello 6 (Uio 0x7ffffffe 100 7 100 UIO_USERSPACE UIO_READ 3) =
     Ret (EFAULT, m', buf', Uio 0x7ffffffe 100 7 100 UIO_USERSPACE UIO_READ 3) ∧ length buf' = 6%nat ∧
     ∀ a, USERTOP ≤ a → peek m' a = peek ∅ a).
Proof.
  split.
  - destruct (uiomove_transfers one_page 3 ∅ hello 6 (Uio 0x400010 100 7 100 UIO_USERSPACE UIO_READ 3)) as [H _].
    + by split.
    + simpl. lia.
    + by right.
    + apply H. right. right. by apply one_page_range.
  - destruct (uiomove_transfers one_page 3 ∅ hello 6 (Uio 0x7ffffffe 100 7 100 UIO_USERSPACE UIO_READ 3)) as [_ H].
    + by split.
    + simpl. lia.
    + by right.
    + apply H; [done|simpl; lia|]. intros (_ & Hle & _). simpl in Hle. unfold USERTOP, MIPS_KSEG0 in Hle. lia.
Defined.

(** An empty block is refused. *)
Example empty_copy_faults : copyin one_page hello_mem 0x400010 0 = (EFAULT, []).
Proof. reflexivity. Qed.

(** uiomove does not stop at uio_resid: with 4 bytes left in a region of 100 it
    moves 6 and the count wraps around. *)
Example uiomove_ignores_resid :
  (r ← uiomove one_page 0 ∅ hello 6 (Uio 0x80001000 100 0 4 UIO_SYSSPACE UIO_READ 0);
   let '(e, m, _, u) := r in Ret (e, load m 0x80001000 6, uio_resid u)) = Ret (0, hello, 2 ^ 32 - 2).
Proof. vm_compute. reflexivity. Qed.

(** A string copied out and in again. *)
Example string_round_trip :
  ('(e, m, k) ← copyoutstr one_page ∅ hello 0x400010 100; Ret (e, k, copyinstr one_page m 0x400010 100))
  = Ret (0, 6, (0, hello)).
Proof. vm_compute. reflexivity. Qed.
