(* ===== verification/CString.v ===== *)
(** * Memory and strings: the functions of lib/libc that the kernel shares

    memcpy, memmove and bzero work on the memory, by words where the pointers
    and the length are aligned. The string functions work on the bytes of an
    object, a list; reading past its end is [Wild]. A string ends at its first
    zero byte: [cut] is the string, [0 ∈ s] says that there is one. *)

From S2P Require Import Prelude KHeap KHeapSpec Coremap Uio.

(** ** Blocks of memory *)

Definition LONG : Z := 4.

(** A long in memory, big-endian. *)
Definition get_long (m : memory) (a : Z) : Z :=
  ((peek m a * 256 + peek m (a + 1)) * 256 + peek m (a + 2)) * 256 + peek m (a + 3).
Definition put_long (m : memory) (a x : Z) : memory :=
  store m a [x / 2 ^ 24 mod 256; x / 2 ^ 16 mod 256; x / 2 ^ 8 mod 256; x mod 256].

(** [for (i = n; i > 0; i--) body(i - 1)]. *)
Fixpoint for_down {S} (n : nat) (body : Z → S → outcome S) (s : S) : outcome S :=
  match n with
  | O => Ret s
  | Datatypes.S n' => s ← body (Z.of_nat n') s; for_down n' body s
  end.

Definition copy_long (dst src i : Z) (m : memory) : outcome memory :=
  Ret (put_long m (dst + LONG * i) (get_long m (src + LONG * i))).
Definition copy_char (dst src i : Z) (m : memory) : outcome memory :=
  Ret (<[dst + i := peek m (src + i)]> m).

Definition all_aligned (dst src n : Z) : bool :=
  bool_decide (dst mod LONG = 0) && bool_decide (src mod LONG = 0) && bool_decide (n mod LONG = 0).

Definition memcpy (dst src n : Z) (m : memory) : outcome (Z * memory) :=
  m ← (if all_aligned dst src n then for_each (Z.to_nat (n / LONG)) 0 (copy_long dst src) m
       else for_each (Z.to_nat n) 0 (copy_char dst src) m);
  Ret (dst, m).

Definition memmove (dst src n : Z) (m : memory) : outcome (Z * memory) :=
  if bool_decide (dst < src) then memcpy dst src n m
  else
    m ← (if all_aligned dst src n then for_down (Z.to_nat (n / LONG)) (copy_long dst src) m
         else for_down (Z.to_nat n) (copy_char dst src) m);
    Ret (dst, m).

Definition bzero (block n : Z) (m : memory) : outcome memory :=
  if bool_decide (block mod LONG = 0) && bool_decide (n mod LONG = 0) then
    for_each (Z.to_nat (n / LONG)) 0 (λ i m, Ret (put_long m (block + LONG * i) 0)) m
  else for_each (Z.to_nat n) 0 (λ i m, Ret (<[block + i := 0]> m)) m.

Definition memset (p ch n : Z) (m : memory) : outcome (Z * memory) :=
  m ← for_each (Z.to_nat n) 0 (λ i m, Ret (<[p + i := u8 ch]> m)) m;
  Ret (p, m).

Definition memcmp (a b n : Z) (m : memory) : outcome Z :=
  r ← for_loop (Z.to_nat n) 0 (λ i (_ : ()),
        Ret (if bool_decide (peek m (a + i) ≠ peek m (b + i)) then inr (peek m (a + i) - peek m (b + i)) else inl ())) ();
  Ret (match r with inl _ => 0 | inr d => d end).

(** ** Strings *)

Definition s8 (x : Z) : Z := (x + 128) mod 256 - 128.

(** A loop over the bytes of [s] from [p] on, until [body] leaves it. *)
Definition scan {S R} (s : list Z) (p : Z) (body : Z → Z → S → outcome (S + R)) (st : S) : outcome R :=
  r ← for_loop (Z.to_nat (len s - p)) p (λ i st, c ← rd s i; body i c st) st;
  match r with inl _ => Wild | inr r => Ret r end.

Definition strlen_at (s : list Z) (p : Z) : outcome Z :=
  scan s p (λ i c (_ : ()), Ret (if bool_decide (c = 0) then inr (i - p) else inl ())) ().
Definition strlen (s : list Z) : outcome Z := strlen_at s 0.

(** [off]: where in the object [dest] points to. *)
Definition strcpy_at (dest : list Z) (off : Z) (src : list Z) : outcome (list Z) :=
  '(dest, i) ← scan src 0 (λ i c dest,
      if bool_decide (c = 0) then Ret (inr (dest, i)) else dest ← wr dest (off + i) c; Ret (inl dest)) dest;
  wr dest (off + i) 0.
Definition strcpy (dest src : list Z) : outcome (list Z) := strcpy_at dest 0 src.

Definition strcat (dest src : list Z) : outcome (list Z) :=
  offset ← strlen dest;
  strcpy_at dest offset src.

Definition strcmp (a b : list Z) : outcome Z :=
  scan a 0 (λ i c (_ : ()),
    d ← rd b i;
    Ret (if bool_decide (c ≠ 0) && bool_decide (c = d) then inl ()
         else inr (if bool_decide (s8 c > s8 d) then 1 else if bool_decide (c = d) then 0 else -1))) ().

(** The results are positions, [None] being the null pointer. *)
Definition strchr (s : list Z) (ch : Z) : outcome (option Z) :=
  scan s 0 (λ i c (_ : ()),
    Ret (if bool_decide (c = 0) then inr (if bool_decide (c = ch) then Some i else None)
         else if bool_decide (c = ch) then inr (Some i) else inl ())) ().

Fixpoint rscan (s : list Z) (ch : Z) (i : nat) : outcome (option Z) :=
  match i with
  | O => Ret None
  | S i =>
      c ← rd s (Z.of_nat i);
      if bool_decide (c = ch) then Ret (Some (Z.of_nat i)) else rscan s ch i
  end.
Definition strrchr (s : list Z) (ch : Z) : outcome (option Z) :=
  n ← strlen s;
  rscan s ch (Z.to_nat (n + 1)).

(** *** strtok_r: words are cut out of the buffer in place *)

Definition is_sep (seps : list Z) (c : Z) : outcome bool := r ← strchr seps c; Ret (bool_decide (r ≠ None)).

(** Going on while the character is not the last one and [test] holds; the
    result is the place and the character there. *)
Definition skip_while (test : Z → outcome bool) (buf : list Z) (p : Z) : outcome (Z * Z) :=
  scan buf p (λ i c (_ : ()),
    if bool_decide (c ≠ 0) then b ← test c; Ret (if (b : bool) then inl () else inr (i, c)) else Ret (inr (i, c))) ().

Definition strtok_r (string : option Z) (seps : list Z) (context : option Z) (buf : list Z)
    : outcome (option Z * option Z * list Z) :=
  let context := match string with Some p => Some p | None => context end in
  match context with
  | None => Ret (None, None, buf)
  | Some head =>
      '(head, c) ← skip_while (is_sep seps) buf head;
      if bool_decide (c = 0) then Ret (None, None, buf)
      else
        '(tail, c) ← skip_while (λ c, b ← is_sep seps c; Ret (negb b)) buf head;
        if bool_decide (c = 0) then Ret (Some head, None, buf)
        else buf ← wr buf tail 0; Ret (Some head, Some (tail + 1), buf)
  end.

(** *** atoi *)

Definition digits : list Z := [48; 49; 50; 51; 52; 53; 54; 55; 56; 57; 0].

Definition atoi (s : list Z) : outcome Z :=
  '(p, c) ← scan s 0 (λ i c (_ : ()), Ret (if bool_decide (c = 32) || bool_decide (c = 9) then inl () else inr (i, c))) ();
  let neg := bool_decide (c = 45) in
  let p := if neg || bool_decide (c = 43) then p + 1 else p in
  val ← scan s p (λ _ c val,
    if bool_decide (c = 0) then Ret (inr val)
    else
      where_ ← strchr digits c;
      Ret (match where_ with None => inr val | Some digit => inl (u32 (val * 10 + digit)) end)) 0;
  Ret (if neg then s32 (- val) else s32 val).

(** ** Blocks: the copies as single stores *)

Definition bytes_ok (m : memory) : Prop := ∀ a, 0 ≤ peek m a < 256.

Lemma lookup_store l : ∀ m a x, store m a l !! x = if decide (a ≤ x < a + len l) then l !! Z.to_nat (x - a) else m !! x.
Proof.
  induction l as [|b l IH]; intros m a x; simpl.
  - rewrite decide_False by lia. done.
  - rewrite IH. destruct (decide (x = a)) as [->|Hx].
    + rewrite decide_False, decide_True by lia. rewrite lookup_insert_eq, Z.sub_diag. done.
    + destruct (decide (a ≤ x < a + Z.of_nat (S (length l)))) as [Hin|Hout].
      * rewrite decide_True by lia. replace (Z.to_nat (x - a)) with (S (Z.to_nat (x - (a + 1)))) by lia. done.
      * rewrite decide_False by lia. by rewrite lookup_insert_ne.
Qed.

Lemma store_store_apart m a l b k : a + len l ≤ b → store (store m b k) a l = store (store m a l) b k.
Proof.
  intros Hab. apply map_eq. intros x. rewrite !lookup_store. repeat case_decide; try done; lia.
Qed.

Lemma load_outside m a l b n : (b + Z.of_nat n ≤ a ∨ a + len l ≤ b) → load (store m a l) b n = load m b n.
Proof. intros Hab. apply load_ext. intros x Hx. apply peek_store_outside. lia. Qed.

Lemma load_bytes m n : bytes_ok m → ∀ a, Forall (λ x, 0 ≤ x < 256) (load m a n).
Proof. intros Hm. induction n as [|n IH]; intros a; simpl; constructor; auto. Qed.

Lemma store_bytes l : ∀ m a, bytes_ok m → Forall (λ x, 0 ≤ x < 256) l → bytes_ok (store m a l).
Proof.
  induction l as [|b l IH]; intros m a Hm Hl; simpl; [done|]. inversion Hl; subst. apply IH; [|done].
  intros x. rewrite peek_insert. by case_decide.
Qed.

Lemma put_get_long m a b : bytes_ok m → put_long m a (get_long m b) = store m a (load m b 4).
Proof.
  intros Hm. unfold put_long, get_long. cbn [load]. replace (b + 1 + 1 + 1) with (b + 3) by lia. replace (b + 1 + 1) with (b + 2) by lia.
  pose proof (Hm b). pose proof (Hm (b + 1)). pose proof (Hm (b + 2)). pose proof (Hm (b + 3)).
  generalize dependent (peek m b). generalize dependent (peek m (b + 1)). generalize dependent (peek m (b + 2)). generalize dependent (peek m (b + 3)).
  intros w Hw z Hz y Hy x Hx. change (2 ^ 24) with 16777216. change (2 ^ 16) with 65536. change (2 ^ 8) with 256.
  f_equal. f_equal; [|f_equal; [|f_equal; [|f_equal]]]; clear m Hm; Z.to_euclidean_division_equations; lia.
Qed.

Section copies.
Context (dst src : Z) (body : Z → memory → outcome memory) (u : Z) (Hu : 0 < u).
Context (Hbody : ∀ i m, bytes_ok m → body i m = Ret (store m (dst + u * i) (load m (src + u * i) (Z.to_nat u)))).

(** Upwards is right if the destination does not start inside the source. *)
Lemma copy_up (n : nat) m : bytes_ok m → (dst ≤ src ∨ src + u * Z.of_nat n ≤ dst) →
  for_each n 0 body m = Ret (store m dst (load m src (Z.to_nat (u * Z.of_nat n)))).
Proof.
  intros Hm Hor. destruct (for_each_inv (λ i t, t = store m dst (load m src (Z.to_nat (u * i)))) body n 0 m) as (t & -> & ->); [by rewrite Z.mul_0_r| |done].
  intros i t Hi ->. eexists. split; [apply Hbody; apply store_bytes; [done|by apply load_bytes]|].
  rewrite load_outside by (rewrite load_length; nia).
  replace (Z.to_nat (u * (i + 1))) with (Z.to_nat (u * i) + Z.to_nat u)%nat by nia.
  rewrite load_app, store_app, load_length. do 2 f_equal; [|f_equal]; nia.
Qed.

(** Downwards if the source does not start inside the destination. *)
Lemma copy_down (n : nat) : ∀ m, bytes_ok m → (src ≤ dst ∨ dst + u * Z.of_nat n ≤ src) →
  for_down n body m = Ret (store m dst (load m src (Z.to_nat (u * Z.of_nat n)))).
Proof.
  induction n as [|n IH]; intros m Hm Hor; [simpl; by rewrite Z.mul_0_r|]. cbn [for_down]. rewrite Hbody by done. ostep.
  rewrite IH; [|apply store_bytes; [done|by apply load_bytes]|nia]. f_equal.
  rewrite load_outside by (rewrite load_length; nia). rewrite store_store_apart by (rewrite load_length; nia).
  replace (Z.to_nat (u * Z.of_nat (S n))) with (Z.to_nat (u * Z.of_nat n) + Z.to_nat u)%nat by nia.
  rewrite load_app, store_app, load_length. do 2 f_equal; [|f_equal]; nia.
Qed.
End copies.

Lemma copy_long_unit dst src i m : bytes_ok m →
  copy_long dst src i m = Ret (store m (dst + LONG * i) (load m (src + LONG * i) (Z.to_nat LONG))).
Proof. intros Hm. unfold copy_long. by rewrite put_get_long. Qed.

Lemma copy_char_unit dst src i m : copy_char dst src i m = Ret (store m (dst + 1 * i) (load m (src + 1 * i) (Z.to_nat 1))).
Proof. unfold copy_char. rewrite !Z.mul_1_l. done. Qed.

Lemma aligned_length dst src n : 0 ≤ n → all_aligned dst src n = true → LONG * Z.of_nat (Z.to_nat (n / LONG)) = n.
Proof. unfold all_aligned, LONG. intros Hn H. cbool. Z.to_euclidean_division_equations. lia. Qed.

Lemma memcpy_ok dst src n m : 0 ≤ n → bytes_ok m → (dst ≤ src ∨ src + n ≤ dst) →
  memcpy dst src n m = Ret (dst, store m dst (load m src (Z.to_nat n))).
Proof.
  intros Hn Hm Hor. unfold memcpy. destruct (all_aligned dst src n) eqn:Ha.
  - pose proof (aligned_length _ _ _ Hn Ha) as Hl.
    rewrite (copy_up dst src _ LONG) by (try done; try (intros; by apply copy_long_unit); by rewrite Hl). rewrite Hl. done.
  - rewrite (copy_up dst src _ 1) by (try done; try (intros; apply copy_char_unit); lia). ostep. do 4 f_equal. lia.
Qed.

Lemma memmove_ok dst src n m : 0 ≤ n → bytes_ok m →
  memmove dst src n m = Ret (dst, store m dst (load m src (Z.to_nat n))).
Proof.
  intros Hn Hm. unfold memmove. case_bool_decide; [apply memcpy_ok; [done|done|lia]|]. destruct (all_aligned dst src n) eqn:Ha.
  - pose proof (aligned_length _ _ _ Hn Ha) as Hl.
    rewrite (copy_down dst src _ LONG) by (try done; try (intros; by apply copy_long_unit); lia). rewrite Hl. done.
  - rewrite (copy_down dst src _ 1) by (try done; try (intros; apply copy_char_unit); lia). ostep. do 4 f_equal. lia.
Qed.

(** Filling with a constant. *)
Lemma fill_up block (body : Z → memory → outcome memory) (u : nat) b (n : nat) m :
  (∀ i m, body i m = Ret (store m (block + Z.of_nat u * i) (replicate u b))) →
  for_each n 0 body m = Ret (store m block (replicate (u * n) b)).
Proof.
  intros Hbody. destruct (for_each_inv (λ i t, t = store m block (replicate (u * Z.to_nat i) b)) body n 0 m) as (t & -> & ->).
  - by rewrite Nat.mul_0_r.
  - intros i t Hi ->. eexists. split; [apply Hbody|]. replace (u * Z.to_nat (i + 1))%nat with (u * Z.to_nat i + u)%nat by nia.
    rewrite replicate_add, store_app, length_replicate. do 2 f_equal; nia.
  - do 4 f_equal. lia.
Qed.

Lemma bzero_ok block n m : 0 ≤ n → bzero block n m = Ret (store m block (replicate (Z.to_nat n) 0)).
Proof.
  intros Hn. unfold bzero. destruct (bool_decide (block mod LONG = 0) && bool_decide (n mod LONG = 0)) eqn:Ha.
  - cbool. rewrite (fill_up block _ 4 0) by done. do 3 f_equal. unfold LONG in *. Z.to_euclidean_division_equations. lia.
  - rewrite (fill_up block _ 1 0) by (intros; by rewrite Z.mul_1_l). do 3 f_equal. lia.
Qed.

Lemma memset_ok p ch n m : 0 ≤ n → memset p ch n m = Ret (p, store m p (replicate (Z.to_nat n) (u8 ch))).
Proof.
  intros Hn. unfold memset. rewrite (fill_up p _ 1 (u8 ch)) by (intros; by rewrite Z.mul_1_l). ostep. do 4 f_equal. lia.
Qed.

Lemma load_lookup_byte m n : ∀ a i, (i < n)%nat → load m a n !! i = Some (peek m (a + Z.of_nat i)).
Proof.
  induction n as [|n IH]; intros a i Hi; [lia|]. destruct i as [|i]; cbn [load lookup list_lookup]; [by rewrite Z.add_0_r|].
  rewrite IH by lia. do 2 f_equal. lia.
Qed.

Lemma memcmp_ok a b n m : 0 ≤ n → ∃ d, memcmp a b n m = Ret d ∧ (d = 0 ↔ load m a (Z.to_nat n) = load m b (Z.to_nat n)).
Proof.
  intros Hn. unfold memcmp.
  destruct (for_loop_inv (λ i (_ : ()), ∀ j, 0 ≤ j < i → peek m (a + j) = peek m (b + j))
    (λ d, d ≠ 0 ∧ ∃ j, 0 ≤ j < n ∧ peek m (a + j) ≠ peek m (b + j))
    (λ i _, Ret (if bool_decide (peek m (a + i) ≠ peek m (b + i)) then inr (peek m (a + i) - peek m (b + i)) else inl ()))
    (Z.to_nat n) 0 ()) as [([] & -> & Hinv)|(d & -> & Hd & j & Hj & Hne)].
  - intros; lia.
  - intros j [] Hj Hinv. case_bool_decide as Hc.
    + right. eexists. split; [done|]. split; [lia|]. exists j. split; [lia|done].
    + left. exists (). split; [done|]. intros k Hk. destruct (decide (k = j)) as [->|]; [lia|]. apply Hinv. lia.
  - ostep. exists 0. split; [done|]. split; [intros _|done]. apply list_eq. intros i.
    destruct (decide (i < Z.to_nat n)%nat) as [Hi|Hi]; [|rewrite !lookup_ge_None_2; [done|rewrite load_length; lia..]].
    rewrite !load_lookup_byte by done. f_equal. apply Hinv. lia.
  - ostep. exists d. split; [done|]. split; [done|]. intros Heq. destruct Hne. apply (f_equal (.!! Z.to_nat j)) in Heq.
    rewrite !load_lookup_byte in Heq by lia. injection Heq as Heq. by rewrite Z2Nat.id in Heq by lia.
Qed.

(** ** Strings: the part up to the terminator *)

Fixpoint cut (l : list Z) : list Z :=
  match l with [] => [] | c :: l => if decide (c = 0) then [] else c :: cut l end.
Definition string_at (buf : list Z) (p : Z) : list Z := cut (drop (Z.to_nat p) buf).

Definition nonzero (w : list Z) : Prop := Forall (λ c, c ≠ 0) w.

Lemma cut_app w t : nonzero w → cut (w ++ 0 :: t) = w.
Proof. induction 1; simpl; [done|]. rewrite decide_False by done. by f_equal. Qed.

Lemma cut_nonzero l : nonzero (cut l).
Proof. induction l as [|c l IH]; simpl; [constructor|]. case_decide; by constructor. Qed.

Lemma cut_split l : 0 ∈ l → ∃ t, l = cut l ++ 0 :: t.
Proof.
  induction l as [|c l IH]; intros Hin; [by apply not_elem_of_nil in Hin|]. simpl. case_decide as Hc; [subst; by exists l|].
  apply elem_of_cons in Hin as [?|Hin]; [done|]. destruct (IH Hin) as [t Ht]. exists t. simpl. by rewrite <- Ht.
Qed.

(** A scan that goes over the bytes of [w] and leaves the loop at the next one. *)
Lemma scan_string_ok {S R} (body : Z → Z → S → outcome (S + R)) (Inv : Z → S → Prop) (Exit : R → Prop) pre w c t st :
  Inv (len pre) st →
  (∀ i d st, w !! i = Some d → Inv (len pre + Z.of_nat i) st →
     (∃ st', body (len pre + Z.of_nat i) d st = Ret (inl st') ∧ Inv (len pre + Z.of_nat i + 1) st') ∨
     (∃ r, body (len pre + Z.of_nat i) d st = Ret (inr r) ∧ Exit r)) →
  (∀ st, Inv (len pre + len w) st → ∃ r, body (len pre + len w) c st = Ret (inr r) ∧ Exit r) →
  ∃ r, scan (pre ++ w ++ c :: t) (len pre) body st = Ret r ∧ Exit r.
Proof.
  intros Hi Hstep Hend. unfold scan.
  assert (Hrd : ∀ j d, (w ++ c :: t) !! j = Some d → rd (pre ++ w ++ c :: t) (len pre + Z.of_nat j) = Ret d).
  { intros j d Hj. apply rd_lookup; [lia|]. rewrite lookup_app_r by lia. by replace (Z.to_nat _ - length pre)%nat with j by lia. }
  destruct (for_loop_inv (λ i st, i ≤ len pre + len w ∧ Inv i st) Exit
    (λ i st, d ← rd (pre ++ w ++ c :: t) i; body i d st) (Z.to_nat (len (pre ++ w ++ c :: t) - len pre)) (len pre) st)
    as [(s' & -> & Hle & _)|(r & -> & Hr)].
  - split; [lia|done].
  - intros i st' Hi' [Hle Hinv]. replace i with (len pre + Z.of_nat (Z.to_nat (i - len pre))) in * by lia.
    set (j := Z.to_nat (i - len pre)) in *. destruct (decide (j < length w)%nat) as [Hj|Hj].
    + destruct (lookup_lt_is_Some_2 w j Hj) as [d Hd]. rewrite (Hrd j d) by (by apply lookup_app_l_Some). ostep.
      destruct (Hstep j d st' Hd Hinv) as [(st2 & -> & H2)|(r & -> & Hr)]; [left; exists st2|right; by exists r].
      split; [done|]. split; [lia|done].
    + assert (j = length w) as Hjw by lia. rewrite Hjw in *. rewrite (Hrd (length w) c) by (rewrite lookup_app_r by lia; by rewrite Nat.sub_diag). ostep.
      destruct (Hend st' Hinv) as (r & -> & Hr). right. by exists r.
  - rewrite !length_app in Hle. simpl in Hle. lia.
  - ostep. by exists r.
Qed.

Lemma scan_start {S R} (body : Z → Z → S → outcome (S + R)) (Inv : Z → S → Prop) (Exit : R → Prop) w c t st :
  Inv 0 st →
  (∀ (i : nat) d st, w !! i = Some d → Inv (Z.of_nat i) st →
     (∃ st', body (Z.of_nat i) d st = Ret (inl st') ∧ Inv (Z.of_nat i + 1) st') ∨
     (∃ r, body (Z.of_nat i) d st = Ret (inr r) ∧ Exit r)) →
  (∀ st, Inv (len w) st → ∃ r, body (len w) c st = Ret (inr r) ∧ Exit r) →
  ∃ r, scan (w ++ c :: t) 0 body st = Ret r ∧ Exit r.
Proof. exact (scan_string_ok body Inv Exit [] w c t st). Qed.

Lemma strlen_at_ok pre w t : nonzero w → strlen_at (pre ++ w ++ 0 :: t) (len pre) = Ret (len w).
Proof.
  intros Hw. unfold strlen_at.
  destruct (scan_string_ok (λ i c (_ : ()), Ret (if bool_decide (c = 0) then inr (i - len pre) else inl ())) (λ _ _, True) (λ r, r = len w) pre w 0 t ())
    as (r & -> & ->); [done| | |done].
  - intros i d st Hd _. left. exists (). rewrite bool_decide_eq_false_2; [done|]. by eapply Forall_lookup_1 in Hw.
  - intros st _. eexists. split; [done|]. lia.
Qed.

Lemma strlen_ok w t : nonzero w → strlen (w ++ 0 :: t) = Ret (len w).
Proof. apply (strlen_at_ok []). Qed.

Lemma strlen_cut s : 0 ∈ s → strlen s = Ret (len (cut s)).
Proof. intros [t Ht]%cut_split. rewrite Ht at 1. apply strlen_ok, cut_nonzero. Qed.

Lemma strcpy_at_ok dest off w t : nonzero w → 0 ≤ off → off + len w < len dest →
  strcpy_at dest off (w ++ 0 :: t) = Ret (take (Z.to_nat off) dest ++ w ++ 0 :: drop (Z.to_nat off + length w + 1) dest).
Proof.
  intros Hw Hoff Hlen. unfold strcpy_at.
  set (Copied := λ (i : Z) (d : list Z), d = take (Z.to_nat off) dest ++ take (Z.to_nat i) w ++ drop (Z.to_nat off + Z.to_nat i) dest).
  destruct (scan_start (λ i c dest, if bool_decide (c = 0) then Ret (inr (dest, i)) else dest ← wr dest (off + i) c; Ret (inl dest))
    Copied (λ r : list Z * Z, Copied (len w) r.1 ∧ r.2 = len w) w 0 t dest) as ([d i] & Hrun & Hd & Hi).
  - unfold Copied. simpl. by rewrite Nat.add_0_r, take_drop.
  - intros i c d Hc Hd. left. rewrite bool_decide_eq_false_2 by (by eapply Forall_lookup_1 in Hw).
    apply lookup_lt_Some in Hc as Hil. unfold Copied in Hd. rewrite Nat2Z.id in Hd. rewrite Hd, wr_in_range.
    2:{ rewrite !length_app, !length_take, length_drop. lia. }
    ostep. eexists. split; [done|]. unfold Copied.
    replace (Z.to_nat (off + Z.of_nat i)) with (length (take (Z.to_nat off) dest) + (length (take i w) + 0))%nat by (rewrite !length_take; lia).
    rewrite !insert_app_r. replace (Z.to_nat (Z.of_nat i + 1)) with (S i) by lia. rewrite (take_S_r _ _ _ Hc). rewrite <- app_assoc. do 2 f_equal.
    destruct (lookup_lt_is_Some_2 dest (Z.to_nat off + i)) as [x Hx]; [lia|]. rewrite (drop_S _ _ _ Hx). simpl. by rewrite Nat.add_succ_r.
  - intros d Hd. simpl in *. eexists (d, _). split; [done|]. done.
  - rewrite Hrun. ostep. simpl in Hd, Hi. unfold Copied in Hd. rewrite Nat2Z.id, (take_ge w) in Hd by lia. subst d i. rewrite wr_in_range by (rewrite !length_app, length_take, length_drop; lia).
    replace (Z.to_nat (off + len w)) with (length (take (Z.to_nat off) dest) + (length w + 0))%nat by (rewrite length_take; lia).
    rewrite !insert_app_r. do 3 f_equal. destruct (lookup_lt_is_Some_2 dest (Z.to_nat off + length w)) as [x Hx]; [lia|].
    rewrite (drop_S _ _ _ Hx). simpl. by rewrite Nat.add_1_r.
Qed.

Lemma strcat_ok w t v t' : nonzero w → nonzero v → len v ≤ len t →
  strcat (w ++ 0 :: t) (v ++ 0 :: t') = Ret (w ++ v ++ 0 :: drop (length v) t).
Proof.
  intros Hw Hv Hl. unfold strcat. rewrite strlen_ok by done. ostep. rewrite strcpy_at_ok; [|done|lia|rewrite length_app; simpl; lia].
  rewrite Nat2Z.id, take_app_length. do 4 f_equal. rewrite <- Nat.add_assoc, <- drop_drop, drop_app_length. by rewrite Nat.add_1_r.
Qed.

Lemma strcmp_ok w v t t' : nonzero w → nonzero v → ∃ r, strcmp (w ++ 0 :: t) (v ++ 0 :: t') = Ret r ∧ (r = 0 ↔ w = v).
Proof.
  intros Hw Hv. unfold strcmp.
  assert (Hrd : ∀ i, (∀ j, (j < i)%nat → w !! j = v !! j) → (i ≤ length w)%nat → (i ≤ length v)%nat ∧ ∃ d, rd (v ++ 0 :: t') (Z.of_nat i) = Ret d ∧ (v ++ [0]) !! i = Some d).
  { intros i Heq Hi. assert (Hiv : (i ≤ length v)%nat).
    { destruct (decide (i ≤ length v)%nat) as [|Hn]; [done|]. specialize (Heq (length v) ltac:(lia)).
      rewrite (lookup_ge_None_2 v) in Heq by lia. apply lookup_ge_None_1 in Heq. lia. }
    split; [done|]. destruct (lookup_lt_is_Some_2 (v ++ [0]) i) as [d Hd]; [rewrite length_app; simpl; lia|]. exists d. split; [|done].
    apply rd_lookup; [lia|]. rewrite Nat2Z.id, cons_middle, app_assoc. by apply lookup_app_l_Some. }
  destruct (scan_start (λ i c (_ : ()), d ← rd (v ++ 0 :: t') i;
    Ret (if bool_decide (c ≠ 0) && bool_decide (c = d) then inl () else inr (if bool_decide (s8 c > s8 d) then 1 else if bool_decide (c = d) then 0 else -1)))
    (λ i _, ∀ j, (Z.of_nat j < i) → w !! j = v !! j) (λ r, r = 0 ↔ w = v) w 0 t ()) as (r & Hr & Hrw).
  - simpl. intros; lia.
  - intros i c [] Hc Hinv. simpl in *. apply lookup_lt_Some in Hc as Hil. destruct (Hrd i) as (Hiv & d & -> & Hd); [intros; apply Hinv; lia|lia|]. ostep.
    assert (c ≠ 0) by (by eapply Forall_lookup_1 in Hw). rewrite (bool_decide_eq_true_2 (c ≠ 0)) by done. cbn [andb]. case_bool_decide as Hcd.
    + left. exists (). split; [done|]. intros j Hj. destruct (decide (j = i)) as [->|]; [|apply Hinv; lia]. subst d.
      apply lookup_app_Some in Hd as [Hd|[? Hd]]; [congruence|]. apply list_lookup_singleton_Some in Hd as [_ <-]. done.
    + right. eexists. split; [done|]. assert (w ≠ v). { intros ->. destruct Hcd. apply (lookup_app_l_Some _ [0]) in Hc. congruence. }
      case_bool_decide; split; done.
  - intros [] Hinv. simpl in *. destruct (Hrd (length w)) as (Hlv & d & -> & Hd); [intros; apply Hinv; lia|lia|]. ostep. eexists. split; [done|].
    assert (Htake : w = take (length w) v). { apply list_eq. intros j. destruct (decide (j < length w)%nat) as [Hj|Hj]; [rewrite lookup_take_lt by done; apply Hinv; lia|].
      rewrite lookup_take_ge by lia. apply lookup_ge_None_2. lia. }
    assert (Hd0 : d = 0 ↔ w = v).
    { split; intros H.
      - subst d. destruct (decide (length w = length v)) as [Hl|Hl]; [by rewrite Htake, Hl, firstn_all|]. rewrite lookup_app_l in Hd by lia.
        eapply Forall_lookup_1 in Hv; [|exact Hd]. done.
      - subst v. rewrite lookup_app_r, Nat.sub_diag in Hd by lia. by injection Hd as <-. }
    rewrite <- Hd0. case_bool_decide as Hgt; [|by case_bool_decide]. split; [done|]. intros ->. lia.
  - by exists r.
Qed.

(** The first place of a character. *)
Lemma strchr_ok w t ch : nonzero w → ∃ r, strchr (w ++ 0 :: t) ch = Ret r ∧
  match r with
  | Some i => 0 ≤ i ∧ (w ++ [0]) !! Z.to_nat i = Some ch ∧ ∀ j, (j < Z.to_nat i)%nat → w !! j ≠ Some ch
  | None => (ch ∉ w) ∧ ch ≠ 0
  end.
Proof.
  intros Hw. unfold strchr.
  apply (scan_start _ (λ i _, ∀ j, Z.of_nat j < i → w !! j ≠ Some ch)
    (λ r, match r with Some i => 0 ≤ i ∧ (w ++ [0]) !! Z.to_nat i = Some ch ∧ ∀ j, (j < Z.to_nat i)%nat → w !! j ≠ Some ch | None => (ch ∉ w) ∧ ch ≠ 0 end)).
  - intros; lia.
  - intros i c [] Hc Hinv. rewrite (bool_decide_eq_false_2 (c = 0)) by (by eapply Forall_lookup_1 in Hw). case_bool_decide as Hch.
    + right. eexists. split; [done|]. split; [lia|]. rewrite Nat2Z.id. split; [subst; by apply lookup_app_l_Some|]. intros j Hj. apply Hinv. lia.
    + left. exists (). split; [done|]. intros j Hj. destruct (decide (j = i)) as [->|]; [congruence|]. apply Hinv. lia.
  - intros [] Hinv. rewrite (bool_decide_eq_true_2 (0 = 0)) by done. eexists. split; [done|]. case_bool_decide as Hch.
    + split; [lia|]. rewrite Nat2Z.id. split; [rewrite lookup_app_r, Nat.sub_diag by lia; by subst|]. intros j Hj. apply Hinv. lia.
    + split; [|done]. intros [j Hj]%list_elem_of_lookup_1. apply (Hinv j); [|done]. apply lookup_lt_Some in Hj. lia.
Qed.

Lemma is_sep_ok seps t c : nonzero seps → c ≠ 0 → is_sep (seps ++ 0 :: t) c = Ret (bool_decide (c ∈ seps)).
Proof.
  intros Hs Hc. unfold is_sep. destruct (strchr_ok seps t c Hs) as (r & -> & Hr). ostep. f_equal. apply bool_decide_ext.
  destruct r as [i|]; [|naive_solver]. destruct Hr as (Hi & Hl & _). split; [intros _|done].
  apply lookup_app_Some in Hl as [Hl|[_ Hl]]; [by eapply list_elem_of_lookup_2|]. apply list_lookup_singleton_Some in Hl as [_ <-]. done.
Qed.

(** The last place of a character. *)
Lemma rscan_ok s ch : ∀ i, (i ≤ length s)%nat → ∃ r, rscan s ch i = Ret r ∧
  match r with
  | Some j => 0 ≤ j ∧ (Z.to_nat j < i)%nat ∧ s !! Z.to_nat j = Some ch ∧ ∀ k, (Z.to_nat j < k < i)%nat → s !! k ≠ Some ch
  | None => ∀ k, (k < i)%nat → s !! k ≠ Some ch
  end.
Proof.
  induction i as [|i IH]; intros Hi; cbn [rscan]; [exists None; split; [done|]; intros; lia|].
  destruct (rd_in_range s (Z.of_nat i)) as (c & -> & Hc); [lia|]. rewrite Nat2Z.id in Hc. ostep. case_bool_decide as Hch.
  - exists (Some (Z.of_nat i)). split; [done|]. cbv beta iota. rewrite Nat2Z.id. split; [lia|]. split; [lia|]. split; [congruence|]. intros; lia.
  - destruct IH as (r & -> & Hr); [lia|]. exists r. split; [done|].
    assert (Hi0 : s !! i ≠ Some ch) by congruence. destruct r as [j|].
    + destruct Hr as (Hj & Hji & Hl & Hlast). split; [done|]. split; [lia|]. split; [done|]. intros k Hk. destruct (decide (k = i)) as [->|]; [done|]. apply Hlast. lia.
    + intros k Hk. destruct (decide (k = i)) as [->|]; [done|]. apply Hr. lia.
Qed.

Lemma strrchr_ok w t ch : nonzero w → ∃ r, strrchr (w ++ 0 :: t) ch = Ret r ∧
  match r with
  | Some j => 0 ≤ j ∧ (w ++ [0]) !! Z.to_nat j = Some ch ∧ ∀ k, (Z.to_nat j < k)%nat → (w ++ [0]) !! k ≠ Some ch
  | None => ch ∉ w ++ [0]
  end.
Proof.
  intros Hw. unfold strrchr. rewrite strlen_ok by done. ostep. replace (Z.to_nat (len w + 1)) with (length (w ++ [0])) by (rewrite length_app; simpl; lia).
  destruct (rscan_ok (w ++ 0 :: t) ch (length (w ++ [0]))) as (r & -> & Hr); [rewrite !length_app; simpl; lia|]. exists r. split; [done|].
  assert (Hl : ∀ k, (k < length (w ++ [0%Z]))%nat → (w ++ 0 :: t) !! k = (w ++ [0]) !! k) by (intros k Hk; rewrite cons_middle, app_assoc; by apply lookup_app_l).
  destruct r as [j|].
  - destruct Hr as (Hj & Hjl & Hr & Hlast). rewrite Hl in Hr by done. split; [done|]. split; [done|].
    intros k Hk Hkc. apply lookup_lt_Some in Hkc as Hkl. apply (Hlast k); [lia|]. by rewrite Hl.
  - intros [k Hk]%list_elem_of_lookup_1. apply lookup_lt_Some in Hk as Hkl. apply (Hr k Hkl). by rewrite Hl.
Qed.

(** ** Words *)

(** The words of a string: its longest parts without separators. *)
Fixpoint words_from (sep : Z → bool) (cur s : list Z) : list (list Z) :=
  let done := match cur with [] => [] | _ => [cur] end in
  match s with
  | [] => done
  | c :: s => if sep c then done ++ words_from sep [] s else words_from sep (cur ++ [c]) s
  end.
Definition words_of (sep : Z → bool) : list Z → list (list Z) := words_from sep [].

Lemma words_skip sep l s : Forall (λ c, sep c = true) l → words_of sep (l ++ s) = words_of sep s.
Proof. induction 1 as [|c l Hc _ IH]; [done|]. unfold words_of. simpl. rewrite Hc. simpl. apply IH. Qed.

Lemma words_word sep w s : Forall (λ c, sep c = false) w → ∀ cur, words_from sep cur (w ++ s) = words_from sep (cur ++ w) s.
Proof. induction 1 as [|c l Hc _ IH]; intros cur; simpl; [by rewrite app_nil_r|]. rewrite Hc, IH. by rewrite <- app_assoc. Qed.

Fixpoint before (f : Z → bool) (l : list Z) : list Z :=
  match l with [] => [] | c :: l => if f c then c :: before f l else [] end.
Fixpoint after (f : Z → bool) (l : list Z) : list Z :=
  match l with [] => [] | c :: l' => if f c then after f l' else l end.

Lemma before_after f l : before f l ++ after f l = l.
Proof. induction l as [|c l IH]; simpl; [done|]. destruct (f c); simpl; by f_equal. Qed.
Lemma before_all f l : Forall (λ c, f c = true) (before f l).
Proof. induction l as [|c l IH]; simpl; [done|]. destruct (f c) eqn:Hc; by constructor. Qed.
Lemma after_head f l c l' : after f l = c :: l' → f c = false.
Proof. induction l as [|d l IH]; simpl; [done|]. destruct (f d) eqn:Hd; [apply IH|]. by intros [= -> ->]. Qed.

Lemma skip_while_ok (f : Z → bool) (test : Z → outcome bool) pre s t : nonzero s →
  (∀ c, c ≠ 0 → test c = Ret (f c)) →
  skip_while test (pre ++ s ++ 0 :: t) (len pre) =
  Ret (len pre + len (before f s), match after f s with [] => 0 | c :: _ => c end).
Proof.
  intros Hs Ht. unfold skip_while. rewrite <- (before_after f s) at 1. rewrite <- (before_after f s) in Hs. apply Forall_app in Hs as [Hb Ha].
  pose proof (before_all f s) as Hall. pose proof (after_head f s) as Hhead. set (w := before f s) in *. set (a := after f s) in *.
  set (e := match a with [] => 0 | c :: _ => c end).
  assert (Hsplit : ∃ t', (w ++ a) ++ 0 :: t = w ++ e :: t').
  { destruct a as [|c a]; [exists t|exists (a ++ 0 :: t)]; unfold e; simpl; [by rewrite app_nil_r|]. by rewrite <- app_assoc. }
  destruct Hsplit as [t' ->].
  match goal with |- scan _ _ ?body _ = _ => destruct (scan_string_ok body (λ _ _, True) (λ r, r = (len pre + len w, e)) pre w e t' ()) as (r & -> & ->) end; [done| | |done].
  - intros i d [] Hd _. left. exists (). assert (d ≠ 0) by (by eapply Forall_lookup_1 in Hb). rewrite bool_decide_eq_true_2, Ht by done. ostep.
    eapply Forall_lookup_1 in Hall; [|exact Hd]. simpl in Hall. by rewrite Hall.
  - intros [] _. eexists. split; [|done]. case_bool_decide as He; [|done]. rewrite Ht by done. ostep.
    unfold e in He |- *. destruct a as [|c a']; [done|]. by rewrite (Hhead c a' eq_refl).
Qed.

(** One call on a string [s] in the middle of the buffer. *)
Lemma strtok_r_step (seps ts pre s t : list Z) (sep := λ c, bool_decide (c ∈ seps)) (lead := before sep s) (rest := after sep s)
    (w := before (λ c, negb (sep c)) rest) (buf := pre ++ s ++ 0 :: t) : nonzero seps → nonzero s →
  strtok_r None (seps ++ 0 :: ts) (Some (len pre)) buf =
  match rest with
  | [] => Ret (None, None, buf)
  | _ => match after (λ c, negb (sep c)) rest with
         | [] => Ret (Some (len (pre ++ lead)), None, buf)
         | _ :: s' => Ret (Some (len (pre ++ lead)), Some (len ((pre ++ lead) ++ w ++ [0])), ((pre ++ lead) ++ w ++ [0]) ++ s' ++ 0 :: t)
         end
  end.
Proof.
  intros Hseps Hs. pose proof (before_after sep s) as Hsplit. fold lead rest in Hsplit. rewrite <- Hsplit in Hs. apply Forall_app in Hs as [Hlead Hrest].
  unfold strtok_r, buf. rewrite (skip_while_ok sep); [|rewrite <- Hsplit; by apply Forall_app|intros; by apply is_sep_ok]. fold lead rest. ostep.
  destruct rest as [|c r] eqn:Hr; [by rewrite bool_decide_eq_true_2 by done|].
  rewrite (bool_decide_eq_false_2 (c = 0)) by (by inversion Hrest). rewrite <- Hsplit.
  replace (pre ++ (lead ++ c :: r) ++ 0 :: t) with ((pre ++ lead) ++ (c :: r) ++ 0 :: t) by by rewrite <- !app_assoc.
  replace (len pre + len lead) with (len (pre ++ lead)) by (rewrite length_app; lia).
  rewrite (skip_while_ok (λ c, negb (sep c))); [|done|intros d Hd; by rewrite is_sep_ok]. ostep. fold w.
  pose proof (before_after (λ c, negb (sep c)) (c :: r)) as Hw. fold w in Hw. rewrite <- Hw in Hrest. apply Forall_app in Hrest as [_ Ha].
  destruct (after _ (c :: r)) as [|d s'] eqn:Hs'; [by rewrite bool_decide_eq_true_2 by done|].
  rewrite (bool_decide_eq_false_2 (d = 0)) by (by inversion Ha). rewrite <- Hw.
  rewrite wr_in_range by (rewrite !length_app; simpl; lia). ostep.
  replace (Z.to_nat _) with (length (pre ++ lead) + (length w + 0))%nat by lia. rewrite <- (app_assoc w), !insert_app_r.
  f_equal. f_equal; [do 2 f_equal; rewrite !length_app; simpl; lia|]. simpl. by rewrite <- !app_assoc.
Qed.

(** What is left of the string after a word: nothing, or a string past the
    terminator that replaces the separator. *)
Definition tail_of (rest : option (list Z)) : list Z := match rest with Some s => 0 :: s | None => [] end.
Definition rest_words (sep : Z → bool) (rest : option (list Z)) : list (list Z) :=
  match rest with Some s => words_of sep s | None => [] end.
Definition rest_nonzero (rest : option (list Z)) : Prop := match rest with Some s => nonzero s | None => True end.
Definition context_of (pre w : list Z) (rest : option (list Z)) : option Z :=
  match rest with Some _ => Some (len (pre ++ w ++ [0])) | None => None end.

(** The same in terms of the words of [s]: none is left; or [w] is found, and
    [rest] is left for the next call. *)
Lemma strtok_r_words (seps ts pre s t : list Z) (sep := λ c, bool_decide (c ∈ seps)) : nonzero seps → nonzero s →
  (strtok_r None (seps ++ 0 :: ts) (Some (len pre)) (pre ++ s ++ 0 :: t) = Ret (None, None, pre ++ s ++ 0 :: t) ∧ words_of sep s = []) ∨
  ∃ lead w rest, strtok_r None (seps ++ 0 :: ts) (Some (len pre)) (pre ++ s ++ 0 :: t) =
      Ret (Some (len (pre ++ lead)), context_of (pre ++ lead) w rest, (pre ++ lead) ++ w ++ tail_of rest ++ 0 :: t) ∧
    w ≠ [] ∧ nonzero w ∧ rest_nonzero rest ∧ words_of sep s = w :: rest_words sep rest ∧ length (lead ++ w ++ tail_of rest) = length s.
Proof.
  intros Hseps Hs. rewrite strtok_r_step by done. fold sep. pose proof (before_after sep s) as Hsplit.
  assert (Hws : words_of sep s = words_of sep (after sep s)) by (rewrite <- Hsplit at 1; by apply words_skip, before_all).
  rewrite <- Hsplit in Hs. apply Forall_app in Hs as [_ Hs]. rewrite Hws. destruct (after sep s) as [|c r] eqn:Hr; [by left|right].
  change (λ c, negb (bool_decide (c ∈ seps))) with (λ c, negb (sep c)). set (f := λ c, negb (sep c)).
  pose proof (before_after f (c :: r)) as Hw. rewrite <- Hw in Hs. apply Forall_app in Hs as [Hnw Hna].
  assert (Hne : before f (c :: r) ≠ []) by (unfold f; simpl; by rewrite (after_head _ _ _ _ Hr)).
  assert (Hword : words_of sep (c :: r) = words_from sep (before f (c :: r)) (after f (c :: r))).
  { rewrite <- Hw at 1. apply (words_word sep). eapply Forall_impl; [apply before_all|]. intros d. apply negb_true_iff. }
  rewrite Hword. clear Hws Hword Hr. set (lead := before sep s) in *. clearbody lead. subst s.
  set (w := before f (c :: r)) in *. exists lead, w. destruct (after f (c :: r)) as [|d s'] eqn:Ha.
  - exists None. simpl in Hw |- *. rewrite app_nil_r in Hw |- *. rewrite <- Hw. split_and!; try done; [by rewrite <- !app_assoc|by destruct w].
  - exists (Some s'). assert (Hd : sep d = true) by (by apply negb_false_iff, (after_head f (c :: r) d s')).
    split; [simpl; by rewrite <- !app_assoc|]. split_and!; try done; [by inversion Hna|simpl; rewrite Hd; by destruct w|].
    rewrite <- Hw, !length_app. simpl. lia.
Qed.

(** [C17] The block functions, which go by words where they can, do what the plain
    definitions say. memmove leaves at the destination the bytes that the source
    held before, wherever the two blocks lie; memcpy does the same unless the
    destination starts inside the source; bzero is memset to 0; and memcmp is 0
    exactly for equal blocks. *)
Theorem block_functions_equivalent dst src ch n m : bytes_ok m → 0 ≤ n →
  memmove dst src n m = Ret (dst, store m dst (load m src (Z.to_nat n))) ∧
  ((dst ≤ src ∨ src + n ≤ dst) → memcpy dst src n m = memmove dst src n m) ∧
  memset dst ch n m = Ret (dst, store m dst (replicate (Z.to_nat n) (u8 ch))) ∧
  bzero dst n m = ('(_, m') ← memset dst 0 n m; Ret m') ∧
  ∃ d, memcmp dst src n m = Ret d ∧ (d = 0 ↔ load m dst (Z.to_nat n) = load m src (Z.to_nat n)).
Proof.
  intros Hm Hn. rewrite memmove_ok, !memset_ok, bzero_ok by done. split; [done|]. split; [by apply memcpy_ok|].
  split; [done|]. split; [done|]. by apply memcmp_ok.
Qed.

Definition sixteen : memory := store ∅ 96 (seqZ 1 16).

(** Overlapping blocks, by words: the same call in the wrong direction copies
    the first word twice. *)
Lemma block_functions_equivalent_witness :
  memmove 100 96 8 sixteen = Ret (100, store sixteen 100 (load sixteen 96 8)) ∧
  memmove 100 96 8 sixteen ≠ memcpy 100 96 8 sixteen.
Proof.
  split; [|by vm_compute]. apply (block_functions_equivalent 100 96 0 8 sixteen); [|done].
  apply store_bytes; [intros a; by vm_compute|]. apply Forall_forall. intros x Hx%elem_of_seqZ. lia.
Defined.
