(* ===== verification/Printf.v ===== *)
(** * Formatted printing: lib/libc/__printf.c and lib/libc/snprintf.c

    The engine sends text to a client through a function, [send], on the data
    [C] of the client. The arguments are a list: a word, which serves for the
    integer types, the characters and the pointers, or a string, which may be
    the null pointer. Taking an argument of the other kind, or one that is
    missing, is [Wild]. Characters are their ASCII codes. *)

From S2P Require Import Prelude KHeap KHeapSpec Coremap Uio CString.

Inductive arg := AInt (x : Z) | AStr (s : option (list Z)).
Inductive intsize := INTSZ | LONGSZ.

#[export] Instance intsize_eq_dec : EqDecision intsize.
Proof. solve_decision. Defined.

(** (sizeof(INTTYPE) * CHAR_BIT) / 3 + 2 *)
Definition NUMBER_BUF_SIZE : Z := 12.

(** "0123456789abcdef", "-", "0x", "0" and the empty string. *)
Definition hexdigits : list Z := [48; 49; 50; 51; 52; 53; 54; 55; 56; 57; 97; 98; 99; 100; 101; 102; 0].
Definition minus : list Z := [45; 0].
Definition ox : list Z := [48; 120; 0].
Definition zero : list Z := [48; 0].
Definition nothing : list Z := [0].
Definition null_text : list Z := [40; 110; 117; 108; 108; 41; 0].   (* (null) *)
Definition modifiers : list Z := [35; 45; 113; 108; 48; 49; 50; 51; 52; 53; 54; 55; 56; 57; 0].   (* #-ql0123456789 *)
Definition inttypes : list Z := [100; 111; 117; 112; 120; 0].   (* doupx *)

Section engine.
Context {C : Type} (send : C → list Z → C).

Record PF := Pf {
  clientdata : C; ap : list arg; charcount : Z;
  in_pct : bool; size : intsize; num : Z; sign : Z;
  spacing : Z; rightspc : bool; fillchar : Z; base : Z; baseprefix : bool; altformat : bool
}.
Implicit Types pf : PF.

Definition __pf_print (txt : list Z) (n : Z) pf : PF :=
  Pf (send (clientdata pf) (take (Z.to_nat n) txt)) (ap pf) (s32 (charcount pf + n))
     (in_pct pf) (size pf) (num pf) (sign pf) (spacing pf) (rightspc pf) (fillchar pf) (base pf) (baseprefix pf) (altformat pf).

Definition __pf_endfield pf : PF :=
  Pf (clientdata pf) (ap pf) (charcount pf) false INTSZ 0 0 0 false 32 0 false false.

Definition set_in_pct pf : PF :=
  Pf (clientdata pf) (ap pf) (charcount pf) true (size pf) (num pf) (sign pf) (spacing pf) (rightspc pf) (fillchar pf) (base pf) (baseprefix pf) (altformat pf).
Definition set_altformat pf : PF :=
  Pf (clientdata pf) (ap pf) (charcount pf) (in_pct pf) (size pf) (num pf) (sign pf) (spacing pf) (rightspc pf) (fillchar pf) (base pf) (baseprefix pf) true.
Definition set_rightspc pf : PF :=
  Pf (clientdata pf) (ap pf) (charcount pf) (in_pct pf) (size pf) (num pf) (sign pf) (spacing pf) true (fillchar pf) (base pf) (baseprefix pf) (altformat pf).
Definition set_long pf : PF :=
  Pf (clientdata pf) (ap pf) (charcount pf) (in_pct pf) LONGSZ (num pf) (sign pf) (spacing pf) (rightspc pf) (fillchar pf) (base pf) (baseprefix pf) (altformat pf).
Definition set_spacing (n : Z) pf : PF :=
  Pf (clientdata pf) (ap pf) (charcount pf) (in_pct pf) (size pf) (num pf) (sign pf) n (rightspc pf) (fillchar pf) (base pf) (baseprefix pf) (altformat pf).
Definition set_fillchar (c : Z) pf : PF :=
  Pf (clientdata pf) (ap pf) (charcount pf) (in_pct pf) (size pf) (num pf) (sign pf) (spacing pf) (rightspc pf) c (base pf) (baseprefix pf) (altformat pf).
Definition set_num (n sgn : Z) (rest : list arg) pf : PF :=
  Pf (clientdata pf) rest (charcount pf) (in_pct pf) (size pf) n sgn (spacing pf) (rightspc pf) (fillchar pf) (base pf) (baseprefix pf) (altformat pf).
Definition set_base (b : Z) (prefix : bool) pf : PF :=
  Pf (clientdata pf) (ap pf) (charcount pf) (in_pct pf) (size pf) (num pf) (sign pf) (spacing pf) (rightspc pf) (fillchar pf) b prefix (altformat pf).
Definition set_ap (rest : list arg) pf : PF :=
  Pf (clientdata pf) rest (charcount pf) (in_pct pf) (size pf) (num pf) (sign pf) (spacing pf) (rightspc pf) (fillchar pf) (base pf) (baseprefix pf) (altformat pf).

Definition __pf_modifier (ch : Z) pf : outcome PF :=
  if bool_decide (ch = 35) then Ret (set_altformat pf)
  else if bool_decide (ch = 45) then Ret (set_rightspc pf)
  else if bool_decide (ch = 108) then Ret (if bool_decide (size pf = LONGSZ) then pf else set_long pf)
  else if bool_decide (ch = 113) then Ret (set_long pf)
  else if bool_decide (ch = 48) then
    Ret (if bool_decide (0 < spacing pf) then set_spacing (s32 (spacing pf * 10)) pf else set_fillchar 48 pf)
  else
    c_assert (bool_decide (48 < ch) && bool_decide (ch ≤ 57));;
    Ret (set_spacing (s32 (spacing pf * 10 + (ch - 48))) pf).

(** The integer types have one size, so that pf->size does not matter here. *)
Definition __pf_getnum (ch : Z) pf : outcome PF :=
  match ap pf with
  | AInt x :: rest =>
      Ret (if bool_decide (ch = 112) then set_num (u32 x) (sign pf) rest pf
           else if bool_decide (ch = 100) then
             let signednum := s32 x in
             if bool_decide (signednum < 0) then set_num (u32 (- signednum)) (-1) rest pf
             else set_num (u32 signednum) (sign pf) rest pf
           else set_num (u32 x) (sign pf) rest pf)
  | _ => Wild
  end.

Definition __pf_setbase (ch : Z) pf : PF :=
  let b := if bool_decide (ch = 100) || bool_decide (ch = 117) then 10
           else if bool_decide (ch = 120) || bool_decide (ch = 112) then 16
           else if bool_decide (ch = 111) then 8 else base pf in
  set_base b (if altformat pf || bool_decide (ch = 112) then true else baseprefix pf) pf.

Definition __pf_fill (spc : Z) pf : outcome PF :=
  let f := fillchar pf in
  for_each (Z.to_nat spc) 0 (λ _ pf, Ret (__pf_print [u8 f] 1 pf)) pf.

Definition __pf_printstuff (prefix prefix2 stuff : list Z) pf : outcome PF :=
  n1 ← strlen prefix;
  n2 ← strlen prefix2;
  n3 ← strlen stuff;
  let len := s32 (n1 + n2 + n3) in
  let spc := if bool_decide (len < spacing pf) then spacing pf - len else 0 in
  pf ← (if bool_decide (0 < spc) && negb (rightspc pf) && bool_decide (fillchar pf ≠ 48) then __pf_fill spc pf else Ret pf);
  let pf := __pf_print prefix2 n2 (__pf_print prefix n1 pf) in
  pf ← (if bool_decide (0 < spc) && negb (rightspc pf) && bool_decide (fillchar pf = 48) then __pf_fill spc pf else Ret pf);
  let pf := __pf_print stuff n3 pf in
  if bool_decide (0 < spc) && rightspc pf then __pf_fill spc pf else Ret pf.

(** The digits from right to left; the buffer is not initialised, [x] is the
    index of the next one. *)
Fixpoint num_digits (fuel : nat) (b xnum : Z) (buf : list Z) (x : Z) : outcome (list Z * Z) :=
  d ← rd hexdigits (xnum mod b);
  buf ← wr buf x d;
  let x := x - 1 in
  let xnum := xnum / b in
  if bool_decide (0 < xnum) then
    match fuel with O => Spin | S fuel => num_digits fuel b xnum buf x end
  else Ret (buf, x).

Definition __pf_printnum (pf : PF) : outcome PF :=
  let buf := replicate (Z.to_nat NUMBER_BUF_SIZE) 255 in
  let x := NUMBER_BUF_SIZE - 1 in
  buf ← wr buf x 0;
  '(buf, x) ← num_digits 32 (base pf) (num pf) buf (x - 1);
  let x := x + 1 in
  let bprefix := if baseprefix pf && bool_decide (base pf = 16) then ox
                 else if baseprefix pf && bool_decide (base pf = 8) then zero else nothing in
  let sprefix := if bool_decide (sign pf ≠ 0) then minus else nothing in
  __pf_printstuff sprefix bprefix (drop (Z.to_nat x) buf) pf.

Definition __pf_send (ch : Z) pf : outcome PF :=
  c_assert (bool_decide (ch ≠ 0));;
  if negb (in_pct pf) && bool_decide (ch ≠ 37) then Ret (__pf_print [ch] 1 pf)
  else if negb (in_pct pf) then Ret (set_in_pct pf)
  else
    is_mod ← strchr modifiers ch;
    is_int ← strchr inttypes ch;
    if bool_decide (is_mod ≠ None) then __pf_modifier ch pf
    else if bool_decide (is_int ≠ None) then
      pf ← __pf_getnum ch pf;
      pf ← __pf_printnum (__pf_setbase ch pf);
      Ret (__pf_endfield pf)
    else if bool_decide (ch = 115) then
      match ap pf with
      | AStr s :: rest =>
          let str := match s with Some s => s | None => null_text end in
          pf ← __pf_printstuff nothing nothing str (set_ap rest pf);
          Ret (__pf_endfield pf)
      | _ => Wild
      end
    else
      '(c, pf) ← (if bool_decide (ch = 99) then
                    match ap pf with AInt x :: rest => Ret (u8 x, set_ap rest pf) | _ => Wild end
                  else Ret (ch, pf));
      pf ← __pf_printstuff nothing nothing [c; 0] pf;
      Ret (__pf_endfield pf).

Definition __vprintf (cd : C) (format : list Z) (args : list arg) : outcome (Z * C) :=
  pf ← scan format 0 (λ _ c pf,
         if bool_decide (c = 0) then Ret (inr pf) else pf ← __pf_send c pf; Ret (inl pf))
         (__pf_endfield (Pf cd args 0 false INTSZ 0 0 0 false 32 0 false false));
  Ret (charcount pf, clientdata pf).
End engine.
Arguments PF : clear implicits.
Arguments Pf {C}.

(** ** snprintf *)

Record SNP := Snp { snp_buf : list Z; snp_buflen : Z; snp_bufpos : Z }.

(** Writing outside the buffer is [Wild]; it would end the run, so the client
    keeps it in its data. *)
Definition __snprintf_send (snp : outcome SNP) (data : list Z) : outcome SNP :=
  snp ← snp;
  for_each (length data) 0 (λ i snp,
    c ← rd data i;
    if bool_decide (snp_bufpos snp < snp_buflen snp) then
      b ← wr (snp_buf snp) (snp_bufpos snp) c;
      Ret (Snp b (snp_buflen snp) (snp_bufpos snp + 1))
    else Ret snp) snp.

Definition vsnprintf (buf : list Z) (len : Z) (fmt : list Z) (args : list arg) : outcome (Z * list Z) :=
  let buflen := if bool_decide (len = 0) then 0 else len - 1 in
  '(chars, snp) ← __vprintf __snprintf_send (Ret (Snp buf buflen 0)) fmt args;
  snp ← snp;
  if bool_decide (0 < len) then buf ← wr (snp_buf snp) (snp_bufpos snp) 0; Ret (chars, buf)
  else Ret (chars, snp_buf snp).

(** snprintf(buf, 12, "%d", -2147483648) and a mix of formats. *)
Example snprintf_runs :
  vsnprintf (replicate 12 7) 12 [37; 100; 0] [AInt (- 2 ^ 31)] = Ret (11, [45; 50; 49; 52; 55; 52; 56; 51; 54; 52; 56; 0]) ∧
  vsnprintf (replicate 12 7) 9 [37; 48; 52; 120; 58; 37; 45; 51; 115; 33; 0] [AInt 255; AStr (Some [97; 0])] =
    Ret (9, [48; 48; 102; 102; 58; 97; 32; 32; 0; 7; 7; 7]).
Proof. split; vm_compute; reflexivity. Qed.

(** ** The text, whoever receives it *)

Abbreviation collect := (@app Z) (only parsing).

(** The state for another client, whose data are [h] of the text so far. *)
Definition to_client {C} (h : list Z → C) (pf : PF (list Z)) : PF C :=
  Pf (h (clientdata pf)) (ap pf) (charcount pf) (in_pct pf) (size pf) (num pf) (sign pf)
     (spacing pf) (rightspc pf) (fillchar pf) (base pf) (baseprefix pf) (altformat pf).

Section clients.
Context {C : Type} (send : C → list Z → C) (h : list Z → C) (Hh : ∀ a b, send (h a) b = h (a ++ b)).

Lemma print_client txt n pf : __pf_print send txt n (to_client h pf) = to_client h (__pf_print collect txt n pf).
Proof. unfold __pf_print, to_client. simpl. by rewrite Hh. Qed.

Lemma fill_client spc pf : __pf_fill send spc (to_client h pf) = (pf ← __pf_fill collect spc pf; Ret (to_client h pf)).
Proof.
  unfold __pf_fill. change (fillchar (to_client h pf)) with (fillchar pf). generalize (fillchar pf) as f. generalize 0 as i. generalize pf.
  induction (Z.to_nat spc) as [|n IH]; intros pf' i f; cbn [for_each]; [done|]. ostep. rewrite print_client. apply IH.
Qed.

Lemma printstuff_client p1 p2 st pf :
  __pf_printstuff send p1 p2 st (to_client h pf) = (pf ← __pf_printstuff collect p1 p2 st pf; Ret (to_client h pf)).
Proof.
  unfold __pf_printstuff. destruct (strlen p1) as [n1| | |]; [|done..]. destruct (strlen p2) as [n2| | |]; [|done..].
  destruct (strlen st) as [n3| | |]; [|done..]. ostep. cbv zeta. change (spacing (to_client h pf)) with (spacing pf).
  set (spc := if bool_decide _ then _ else _). clearbody spc.
  change (rightspc (to_client h pf)) with (rightspc pf). change (fillchar (to_client h pf)) with (fillchar pf).
  assert (Hcase : ∀ (b : bool) pf, (if b then __pf_fill send spc (to_client h pf) else Ret (to_client h pf)) =
    (pf ← (if b then __pf_fill collect spc pf else Ret pf); Ret (to_client h pf))) by (intros [] ?; [apply fill_client|done]).
  rewrite Hcase. destruct (if bool_decide (0 < spc) && negb (rightspc pf) && bool_decide (fillchar pf ≠ 48) then _ else _) as [pf1| | |]; [|done..]. ostep.
  rewrite !print_client. set (pf2 := __pf_print collect p2 n2 _). change (rightspc (to_client h pf2)) with (rightspc pf2).
  change (fillchar (to_client h pf2)) with (fillchar pf2). rewrite Hcase.
  destruct (if bool_decide (0 < spc) && negb (rightspc pf2) && bool_decide (fillchar pf2 = 48) then _ else _) as [pf3| | |]; [|done..]. ostep.
  rewrite print_client. set (pf4 := __pf_print collect st n3 pf3). change (rightspc (to_client h pf4)) with (rightspc pf4). apply Hcase.
Qed.

Lemma modifier_client ch pf : __pf_modifier ch (to_client h pf) = (pf ← __pf_modifier ch pf; Ret (to_client h pf)).
Proof.
  unfold __pf_modifier. change (size (to_client h pf)) with (size pf). change (spacing (to_client h pf)) with (spacing pf).
  destruct (bool_decide (ch = 35)); [done|]. destruct (bool_decide (ch = 45)); [done|]. destruct (bool_decide (ch = 108)); [by case_bool_decide|].
  destruct (bool_decide (ch = 113)); [done|]. destruct (bool_decide (ch = 48)); [by case_bool_decide|]. by destruct (c_assert _).
Qed.

Lemma getnum_client ch pf : __pf_getnum ch (to_client h pf) = (pf ← __pf_getnum ch pf; Ret (to_client h pf)).
Proof.
  unfold __pf_getnum. change (ap (to_client h pf)) with (ap pf). destruct (ap pf) as [|[x|s] rest]; [done| |done]. ostep. by repeat case_bool_decide.
Qed.

Lemma printnum_client pf : __pf_printnum send (to_client h pf) = (pf ← __pf_printnum collect pf; Ret (to_client h pf)).
Proof.
  unfold __pf_printnum. cbv zeta. change (base (to_client h pf)) with (base pf). change (num (to_client h pf)) with (num pf).
  destruct (wr _ _ 0) as [b1| | |]; [|done..]. ostep. destruct (num_digits _ _ _ _ _) as [[b2 x]| | |]; [|done..]. ostep. apply printstuff_client.
Qed.

Lemma send_client ch pf : __pf_send send ch (to_client h pf) = (pf ← __pf_send collect ch pf; Ret (to_client h pf)).
Proof.
  unfold __pf_send. destruct (c_assert _); [|done..]. ostep. change (in_pct (to_client h pf)) with (in_pct pf).
  destruct (negb (in_pct pf) && _); [by rewrite print_client|]. destruct (negb (in_pct pf)); [done|].
  destruct (strchr modifiers ch) as [r| | |]; [|done..]. ostep. destruct (strchr inttypes ch) as [r2| | |]; [|done..]. ostep.
  case_bool_decide; [apply modifier_client|]. case_bool_decide.
  { rewrite getnum_client. destruct (__pf_getnum ch pf) as [pf1| | |]; [|done..]. ostep.
    change (__pf_setbase ch (to_client h pf1)) with (to_client h (__pf_setbase ch pf1)). rewrite printnum_client.
    by destruct (__pf_printnum _ _) as [pf2| | |]. }
  change (ap (to_client h pf)) with (ap pf). case_bool_decide.
  { destruct (ap pf) as [|[x|s] rest]; [done|done|]. change (set_ap rest (to_client h pf)) with (to_client h (set_ap rest pf)). rewrite printstuff_client.
    by destruct (__pf_printstuff _ _ _ _ _) as [pf2| | |]. }
  case_bool_decide.
  - destruct (ap pf) as [|[x|s] rest]; [done| |done]. ostep. change (set_ap rest (to_client h pf)) with (to_client h (set_ap rest pf)). rewrite printstuff_client.
    by destruct (__pf_printstuff _ _ _ _ _) as [pf2| | |].
  - ostep. rewrite printstuff_client. by destruct (__pf_printstuff _ _ _ _ _) as [pf2| | |].
Qed.

Lemma vprintf_client fmt args : __vprintf send (h []) fmt args = ('(n, out) ← __vprintf collect [] fmt args; Ret (n : Z, h out)).
Proof.
  unfold __vprintf, scan. rewrite !Z.sub_0_r, Nat2Z.id.
  change (__pf_endfield (Pf (h []) args 0 false INTSZ 0 0 0 false 32 0 false false)) with (to_client h (__pf_endfield (Pf (@nil Z) args 0 false INTSZ 0 0 0 false 32 0 false false))).
  generalize (__pf_endfield (Pf (@nil Z) args 0 false INTSZ 0 0 0 false 32 0 false false)) as pf0.
  assert (Hloop : ∀ n i pf,
    for_loop n i (λ i pf, c ← rd fmt i; if bool_decide (c = 0) then Ret (inr pf) else pf ← __pf_send send c pf; Ret (inl pf)) (to_client h pf) =
    (r ← for_loop n i (λ i pf, c ← rd fmt i; if bool_decide (c = 0) then Ret (inr pf) else pf ← __pf_send collect c pf; Ret (inl pf)) pf;
     Ret (match r with inl pf => inl (to_client h pf) | inr pf => inr (to_client h pf) end))).
  { induction n as [|n IH]; intros i pf; cbn [for_loop]; [done|]. destruct (rd fmt i) as [c| | |]; [|done..]. ostep.
    case_bool_decide; [done|]. rewrite send_client. destruct (__pf_send collect c pf) as [pf'| | |]; [|done..]. ostep. apply IH. }
  intros pf. rewrite Hloop. by destruct (for_loop _ _ _ pf) as [[pf'|pf']| | |].
Qed.
End clients.

(** ** Numbers *)

(** The digits of [n], the most significant first. *)
Fixpoint digs (fuel : nat) (b n : Z) : list Z :=
  match fuel with
  | O => []
  | S fuel => (if bool_decide (0 < n / b) then digs fuel b (n / b) else []) ++ [n mod b]
  end.
Definition hexdigit (d : Z) : Z := default 0 (hexdigits !! Z.to_nat d).
Definition numeral (b n : Z) : list Z := map hexdigit (digs 33 b n).
Definition value (b : Z) (l : list Z) : Z := foldl (λ v d, v * b + d) 0 l.

Lemma value_snoc b l d : value b (l ++ [d]) = value b l * b + d.
Proof. unfold value. by rewrite foldl_app. Qed.

Lemma digs_value fuel b : 2 ≤ b → ∀ n, 0 ≤ n < 2 ^ Z.of_nat fuel → value b (digs fuel b n) = n.
Proof.
  intros Hb. induction fuel as [|fuel IH]; intros n Hn; cbn [digs]; [change (2 ^ Z.of_nat 0) with 1 in Hn; unfold value; simpl; lia|].
  rewrite Nat2Z.inj_succ, Z.pow_succ_r in Hn by lia. rewrite value_snoc. pose proof (Z.div_mod n b). pose proof (Z.mod_pos_bound n b).
  assert (0 ≤ n / b < 2 ^ Z.of_nat fuel) by (split; [apply Z.div_pos; lia|apply Z.div_lt_upper_bound; nia]).
  case_bool_decide; [rewrite IH by done|unfold value; simpl]; nia.
Qed.

Lemma digs_length fuel b k : 2 ≤ b → ∀ n, 0 ≤ n < b ^ Z.of_nat (S k) → (length (digs fuel b n) ≤ S k)%nat.
Proof.
  intros Hb. revert fuel. induction k as [|k IH]; intros [|fuel] n Hn; cbn [digs]; simpl; try lia; rewrite length_app; simpl.
  - rewrite Z.pow_1_r in Hn. rewrite Z.div_small by lia. simpl. lia.
  - case_bool_decide; simpl; [|lia]. rewrite Nat2Z.inj_succ, Z.pow_succ_r in Hn by lia.
    assert (0 ≤ n / b < b ^ Z.of_nat (S k)) by (split; [apply Z.div_pos; lia|apply Z.div_lt_upper_bound; lia]).
    specialize (IH fuel (n / b) ltac:(done)). lia.
Qed.

Lemma digs_range fuel b : 2 ≤ b → ∀ n, Forall (λ d, 0 ≤ d < b) (digs fuel b n).
Proof.
  intros Hb. induction fuel as [|fuel IH]; intros n; cbn [digs]; [done|]. apply Forall_app. split; [by case_bool_decide|].
  constructor; [apply Z.mod_pos_bound; lia|done].
Qed.

Lemma hexdigit_rd d : 0 ≤ d < 16 → rd hexdigits d = Ret (hexdigit d) ∧ 48 ≤ hexdigit d < 127.
Proof.
  intros Hd. assert (Hc : d ∈ seqZ 0 16) by (apply elem_of_seqZ; lia). revert d Hd Hc. vm_compute (seqZ 0 16). intros d _ Hd.
  repeat (apply elem_of_cons in Hd as [->|Hd]; [by vm_compute|]). by apply not_elem_of_nil in Hd.
Qed.

(** The loop fills the buffer from the right. *)
Lemma num_digits_ok b fuel : 2 ≤ b ≤ 16 → ∀ n pre suf, 0 ≤ n < 2 ^ Z.of_nat fuel → (length (digs (S fuel) b n) ≤ length pre)%nat →
  ∃ pre', num_digits fuel b n (pre ++ suf) (len pre - 1) = Ret (pre' ++ map hexdigit (digs (S fuel) b n) ++ suf, len pre' - 1) ∧
    length pre = (length pre' + length (digs (S fuel) b n))%nat.
Proof.
  intros Hb. induction fuel as [|fuel IH]; intros n pre suf Hn Hl; cbn [num_digits].
  all: destruct pre as [|y pre _] using rev_ind; [cbn [digs] in Hl; rewrite length_app in Hl; simpl in Hl; lia|].
  all: pose proof (Z.mod_pos_bound n b ltac:(lia)); destruct (hexdigit_rd (n mod b)) as [-> _]; [lia|]; ostep.
  all: rewrite length_app, <- app_assoc; cbn [length app]; rewrite wr_in_range by (rewrite length_app; simpl; lia); ostep.
  all: replace (Z.to_nat _) with (length pre + 0)%nat by lia; rewrite insert_app_r; cbn [insert list_insert].
  - change (2 ^ Z.of_nat 0) with 1 in Hn. rewrite Z.div_small by lia. rewrite bool_decide_eq_false_2 by lia. exists pre.
    cbn [digs]. rewrite Z.div_small, bool_decide_eq_false_2 by lia. split; [do 2 f_equal; lia|simpl; lia].
  - change (digs (S (S fuel)) b n) with ((if bool_decide (0 < n / b) then digs (S fuel) b (n / b) else []) ++ [n mod b]) in *.
    rewrite !length_app in Hl. cbn [length] in Hl. rewrite Nat2Z.inj_succ, Z.pow_succ_r in Hn by lia.
    assert (0 ≤ n / b < 2 ^ Z.of_nat fuel) by (split; [apply Z.div_pos; lia|apply Z.div_lt_upper_bound; nia]).
    destruct (bool_decide (0 < n / b)).
    + destruct (IH (n / b) pre (hexdigit (n mod b) :: suf)) as (pre' & Hrun & Hlen); [done|lia|].
      replace (Z.of_nat (length pre + 1) - 1 - 1) with (len pre - 1) by lia. rewrite Hrun. exists pre'.
      rewrite map_app, <- app_assoc. split; [done|]. rewrite length_app. cbn [length]. lia.
    + exists pre. split; [do 2 f_equal; lia|]. simpl. lia.
Qed.

Lemma numeral_length b n : b = 8 ∨ b = 10 ∨ b = 16 → 0 ≤ n < 2 ^ 32 → (length (digs 33 b n) ≤ 11)%nat.
Proof. intros Hb Hn. apply digs_length; [lia|]. destruct Hb as [->|[->| ->]]; lia. Qed.

Lemma numeral_nonzero b n : 2 ≤ b ≤ 16 → nonzero (numeral b n).
Proof.
  intros Hb. unfold numeral. apply Forall_fmap. eapply Forall_impl; [apply (digs_range 33 b); lia|].
  intros d Hd. cbv beta in Hd. pose proof (proj2 (hexdigit_rd d ltac:(lia))). unfold compose. lia.
Qed.

(** ** What is printed *)

(** Sending a text, all at once. *)
Definition say (txt : list Z) (pf : PF (list Z)) : PF (list Z) := __pf_print collect txt (len txt) pf.

(** The count is the length of the text, as an int. *)
Definition counted (pf : PF (list Z)) : Prop := charcount pf = s32 (len (clientdata pf)).

Lemma s32_add a b : s32 (s32 a + b) = s32 (a + b).
Proof.
  unfold s32. f_equal. replace ((a + 2 ^ 31) `mod` 2 ^ 32 - 2 ^ 31 + b + 2 ^ 31) with ((a + 2 ^ 31) `mod` 2 ^ 32 + b) by lia.
  rewrite Z.add_mod_idemp_l by lia. f_equal. lia.
Qed.

Lemma say_counted txt pf : counted pf → counted (say txt pf).
Proof. unfold counted, say, __pf_print. simpl. intros ->. rewrite s32_add, firstn_all2, length_app by lia. f_equal. lia. Qed.

Lemma say_app a b pf : say b (say a pf) = say (a ++ b) pf.
Proof.
  unfold say, __pf_print. simpl. rewrite s32_add, length_app. rewrite !(firstn_all2) by (rewrite ?length_app; lia). rewrite app_assoc. do 2 f_equal. lia.
Qed.

Lemma say_nil pf : counted pf → say [] pf = pf.
Proof.
  intros Hc. unfold say, __pf_print. simpl. rewrite app_nil_r, Hc, s32_add, Z.add_0_r, <- Hc. by destruct pf.
Qed.

Lemma print_say txt n pf : 0 ≤ n ≤ len txt → __pf_print collect txt n pf = say (take (Z.to_nat n) txt) pf.
Proof. intros Hn. unfold say, __pf_print. rewrite take_take, length_take. do 2 f_equal; [|lia]. f_equal. lia. Qed.

Lemma fill_ok spc pf : counted pf → __pf_fill collect spc pf = Ret (say (replicate (Z.to_nat spc) (u8 (fillchar pf))) pf).
Proof.
  intros Hc. unfold __pf_fill. set (f := fillchar pf). clearbody f. generalize 0 as i. revert pf Hc.
  induction (Z.to_nat spc) as [|n IH]; intros pf Hc i; cbn [for_each replicate]; [by rewrite say_nil|]. ostep.
  change (__pf_print collect [u8 f] 1 pf) with (say [u8 f] pf). rewrite IH by (by apply say_counted). by rewrite say_app.
Qed.

(** The layout of a field: prefix, text and padding. *)
Definition field (pf : PF (list Z)) (prefix stuff : list Z) : list Z :=
  let n := s32 (len prefix + len stuff) in
  let pad := replicate (Z.to_nat (spacing pf - n)) (u8 (fillchar pf)) in
  if rightspc pf then prefix ++ stuff ++ pad
  else if bool_decide (fillchar pf = 48) then prefix ++ pad ++ stuff
  else pad ++ prefix ++ stuff.

Lemma printstuff_ok p1 t1 p2 t2 st t3 pf : counted pf → nonzero p1 → nonzero p2 → nonzero st →
  __pf_printstuff collect (p1 ++ 0 :: t1) (p2 ++ 0 :: t2) (st ++ 0 :: t3) pf = Ret (say (field pf (p1 ++ p2) st) pf).
Proof.
  intros Hc H1 H2 H3. unfold __pf_printstuff. rewrite !strlen_ok by done. ostep. cbv zeta.
  unfold field. rewrite !length_app, Nat2Z.inj_add. set (n := s32 _). set (spc := if bool_decide _ then _ else _).
  assert (Hspc : Z.to_nat spc = Z.to_nat (spacing pf - n)) by (unfold spc; case_bool_decide; lia).
  rewrite <- Hspc. clearbody spc n. clear Hspc. set (pad := replicate (Z.to_nat spc) (u8 (fillchar pf))).
  assert (Hfill : ∀ (b : bool) txt, (if bool_decide (0 < spc) && b then __pf_fill collect spc (say txt pf) else Ret (say txt pf)) =
    Ret (say (if b then txt ++ pad else txt) pf)).
  { intros b txt. destruct b; rewrite ?andb_true_r, ?andb_false_r; [|done]. case_bool_decide.
    - rewrite fill_ok by (by apply say_counted). by rewrite say_app.
    - unfold pad. replace (Z.to_nat spc) with 0%nat by lia. by rewrite app_nil_r. }
  assert (Hp : ∀ w t q, __pf_print collect (w ++ 0 :: t) (len w) q = say w q).
  { intros w t q. rewrite print_say by (rewrite length_app; lia). by rewrite Nat2Z.id, take_app_length. }
  pose proof (λ b, Hfill b []) as Hfill0. rewrite say_nil in Hfill0 by done. rewrite <- andb_assoc, Hfill0. ostep. rewrite !Hp, !say_app.
  cbn [rightspc fillchar say __pf_print]. rewrite <- andb_assoc, Hfill. ostep. rewrite Hp, say_app. cbn [rightspc say __pf_print]. rewrite Hfill.
  do 2 f_equal. destruct (rightspc pf); cbn [negb andb]; [by rewrite <- !app_assoc|]. destruct (decide (fillchar pf = 48)) as [He|He].
  - rewrite (bool_decide_eq_false_2 (fillchar pf ≠ 48)), (bool_decide_eq_true_2 (fillchar pf = 48)) by lia. by rewrite <- ?app_assoc.
  - rewrite (bool_decide_eq_true_2 (fillchar pf ≠ 48)), (bool_decide_eq_false_2 (fillchar pf = 48)) by lia. by rewrite <- ?app_assoc.
Qed.

Definition sign_text (pf : PF (list Z)) : list Z := if bool_decide (sign pf ≠ 0) then [45] else [].
Definition base_text (pf : PF (list Z)) : list Z :=
  if baseprefix pf && bool_decide (base pf = 16) then [48; 120] else if baseprefix pf && bool_decide (base pf = 8) then [48] else [].

(** Every number fits in the buffer. *)
Lemma printnum_ok pf : counted pf → base pf = 8 ∨ base pf = 10 ∨ base pf = 16 → 0 ≤ num pf < 2 ^ 32 →
  __pf_printnum collect pf = Ret (say (field pf (sign_text pf ++ base_text pf) (numeral (base pf) (num pf))) pf).
Proof.
  intros Hc Hb Hn. unfold __pf_printnum. cbv zeta. change (wr (replicate (Z.to_nat NUMBER_BUF_SIZE) 255) (NUMBER_BUF_SIZE - 1) 0) with (Ret (replicate 11 255 ++ [0])). ostep.
  assert (Hb16 : 2 ≤ base pf ≤ 16) by lia. pose proof (numeral_length _ _ Hb Hn) as Hl.
  destruct (num_digits_ok (base pf) 32 Hb16 (num pf) (replicate 11 255) [0]) as (pre & Hrun & Hlen); [done|by rewrite length_replicate|].
  change (NUMBER_BUF_SIZE - 1 - 1) with (len (replicate 11 255) - 1). rewrite Hrun. ostep. replace (len pre - 1 + 1) with (len pre) by lia.
  rewrite Nat2Z.id, drop_app_length. fold (numeral (base pf) (num pf)).
  set (sp := if bool_decide (sign pf ≠ 0) then minus else nothing). assert (Hsp : sp = sign_text pf ++ [0]) by (unfold sp, sign_text; by case_bool_decide).
  set (bp := if baseprefix pf && bool_decide (base pf = 16) then ox else _).
  assert (Hbp : bp = base_text pf ++ [0]) by (unfold bp, base_text; destruct (baseprefix pf && _); [done|]; by destruct (baseprefix pf && _)).
  rewrite Hsp, Hbp. apply printstuff_ok; [done|unfold sign_text; case_bool_decide; by repeat constructor|unfold base_text|by apply numeral_nonzero].
  destruct (baseprefix pf && _); [by repeat constructor|]. destruct (baseprefix pf && _); by repeat constructor.
Qed.

(** ** Formats and their arguments *)

Definition is_modifier (c : Z) : bool := bool_decide (c ∈ [35; 45; 113; 108; 48; 49; 50; 51; 52; 53; 54; 55; 56; 57]).
Definition is_inttype (c : Z) : bool := bool_decide (c ∈ [100; 111; 117; 112; 120]).

(** The arguments are those that the format asks for; [pct] says whether we are
    behind a percent sign. *)
Fixpoint args_match (pct : bool) (fmt : list Z) (args : list arg) : Prop :=
  match fmt with
  | [] => True
  | c :: fmt =>
      if negb pct then args_match (bool_decide (c = 37)) fmt args
      else if is_modifier c then args_match true fmt args
      else if is_inttype c || bool_decide (c = 99) then
        match args with AInt _ :: args => args_match false fmt args | _ => False end
      else if bool_decide (c = 115) then
        match args with AStr s :: args => match s with Some s => 0 ∈ s | None => True end ∧ args_match false fmt args | _ => False end
      else args_match false fmt args
  end.

Lemma modifier_ok c pf : is_modifier c = true → counted pf → ∃ pf', __pf_modifier c pf = Ret pf' ∧ counted pf' ∧ in_pct pf' = in_pct pf ∧ ap pf' = ap pf.
Proof.
  intros Hc%bool_decide_eq_true Hcnt. unfold __pf_modifier.
  repeat (apply elem_of_cons in Hc as [->|Hc]; [bdec; cbn [c_assert]; ostep; try case_bool_decide; by eexists|]). by apply not_elem_of_nil in Hc.
Qed.

Lemma getnum_ok c pf x rest : ap pf = AInt x :: rest → is_inttype c = true → counted pf → ∃ pf', __pf_getnum c pf = Ret pf' ∧
  let pf'' := __pf_setbase c pf' in counted pf'' ∧ in_pct pf'' = in_pct pf ∧ ap pf'' = rest ∧ 0 ≤ num pf'' < 2 ^ 32 ∧ (base pf'' = 8 ∨ base pf'' = 10 ∨ base pf'' = 16).
Proof.
  intros Hap Hc%bool_decide_eq_true Hcnt. unfold __pf_getnum. rewrite Hap. eexists. split; [done|]. cbv zeta.
  repeat (apply elem_of_cons in Hc as [->|Hc]; [repeat case_bool_decide; try done; (split; [exact Hcnt|]; do 2 (split; [done|]); split; [apply u32_range|simpl; lia])|]).
  by apply not_elem_of_nil in Hc.
Qed.

Lemma strchr_found w c : nonzero w → c ≠ 0 → ∃ r, strchr (w ++ [0]) c = Ret r ∧ bool_decide (r ≠ None) = bool_decide (c ∈ w).
Proof.
  intros Hw Hc. pose proof (is_sep_ok w [] c Hw Hc) as Hs. unfold is_sep in Hs. destruct (strchr (w ++ [0]) c) as [r| | |]; [|done..].
  exists r. split; [done|]. by injection Hs.
Qed.

(** A character of the format is processed. *)
Lemma pf_send_ok c fmt pf : c ≠ 0 → args_match (in_pct pf) (c :: fmt) (ap pf) → counted pf →
  ∃ pf', __pf_send collect c pf = Ret pf' ∧ counted pf' ∧ args_match (in_pct pf') fmt (ap pf').
Proof.
  intros Hc0 Hm Hcnt. unfold __pf_send. rewrite (bool_decide_eq_true_2 (c ≠ 0)) by done. cbn [c_assert]. ostep. cbn [args_match] in Hm.
  destruct (in_pct pf) eqn:Hpct; cbn [negb andb] in *.
  2:{ destruct (decide (c = 37)) as [->|H37].
      - eexists. split; [done|]. by split.
      - rewrite (bool_decide_eq_true_2 (c ≠ 37)) by done. rewrite (bool_decide_eq_false_2 (c = 37)) in Hm by done.
        eexists. split; [done|]. split; [by apply (say_counted [c])|]. simpl. by rewrite Hpct. }
  destruct (strchr_found [35; 45; 113; 108; 48; 49; 50; 51; 52; 53; 54; 55; 56; 57] c) as (r1 & Hr1 & Hmod); [by repeat constructor|done|].
  destruct (strchr_found [100; 111; 117; 112; 120] c) as (r2 & Hr2 & Hint); [by repeat constructor|done|].
  fold (is_modifier c) in Hmod. fold (is_inttype c) in Hint. cbn [app] in Hr1, Hr2. unfold modifiers, inttypes. rewrite Hr1. ostep. rewrite Hr2. ostep. rewrite Hmod, Hint.
  destruct (is_modifier c) eqn:Hm1.
  { destruct (modifier_ok c pf Hm1 Hcnt) as (pf' & -> & Hc' & Hp' & Ha'). exists pf'. rewrite Hp', Ha', Hpct. done. }
  assert (Hstuff : ∀ st t q, nonzero st → counted q → args_match false fmt (ap q) →
    ∃ pf', (pf ← __pf_printstuff collect nothing nothing (st ++ 0 :: t) q; Ret (__pf_endfield pf)) = Ret pf' ∧ counted pf' ∧ args_match (in_pct pf') fmt (ap pf')).
  { intros st t q Hst Hq Ha. pose proof (printstuff_ok [] [] [] [] st t q Hq (Forall_nil_2 _) (Forall_nil_2 _) Hst) as Hp. cbn [app] in Hp.
    unfold nothing. rewrite Hp. ostep. eexists. split; [done|]. split; [by apply (say_counted (field q [] st) q)|done]. }
  destruct (is_inttype c) eqn:Hm2; cbn [orb] in Hm.
  { destruct (ap pf) as [|[x|s] rest] eqn:Hap; [done| |done]. destruct (getnum_ok c pf x rest Hap Hm2 Hcnt) as (pf1 & -> & Hc1 & _ & Ha1 & Hn1 & Hb1). ostep.
    rewrite printnum_ok by done. ostep. eexists. split; [done|]. split; [by apply (say_counted (field _ _ _) (__pf_setbase c pf1))|]. simpl. by rewrite <- Ha1 in Hm. }
  destruct (bool_decide (c = 99)) eqn:H99; cbn [orb] in Hm.
  - apply bool_decide_eq_true in H99 as ->. rewrite bool_decide_eq_false_2 by done. destruct (ap pf) as [|[x|s] rest]; [done| |done]. ostep.
    destruct (decide (u8 x = 0)) as [->|Hx]; [apply (Hstuff [] [0])|apply (Hstuff [u8 x] [])]; try done; by repeat constructor.
  - destruct (bool_decide (c = 115)); [|ostep; apply (Hstuff [c] []); [by repeat constructor|done|done]].
    destruct (ap pf) as [|[x|s] rest]; [done|done|]. destruct Hm as [Hs Hm]. destruct s as [s|].
    + destruct (cut_split s Hs) as [t Ht]. rewrite Ht. apply Hstuff; [apply cut_nonzero|done|done].
    + apply (Hstuff [40; 110; 117; 108; 108; 41] []); [by repeat constructor|done|done].
Qed.

Lemma vprintf_ok fmt t args : nonzero fmt → args_match false fmt args →
  ∃ out, __vprintf collect [] (fmt ++ 0 :: t) args = Ret (s32 (len out), out).
Proof.
  intros Hf Hm. unfold __vprintf.
  destruct (scan_start (λ _ c pf, if bool_decide (c = 0) then Ret (inr pf) else pf ← __pf_send collect c pf; Ret (inl pf))
    (λ i pf, counted pf ∧ args_match (in_pct pf) (drop (Z.to_nat i) fmt) (ap pf)) counted fmt 0 t
    (__pf_endfield (Pf (@nil Z) args 0 false INTSZ 0 0 0 false 32 0 false false))) as (pf & -> & Hc).
  - split; [done|exact Hm].
  - intros i c pf Hi [Hc Ha]. left. assert (Hc0 : c ≠ 0) by (by eapply Forall_lookup_1 in Hf). rewrite bool_decide_eq_false_2 by done.
    rewrite Nat2Z.id, (drop_S _ _ _ Hi) in Ha. destruct (pf_send_ok c _ pf Hc0 Ha Hc) as (pf' & -> & Hc' & Ha'). ostep. exists pf'.
    split; [done|]. split; [done|]. by replace (Z.to_nat (Z.of_nat i + 1)) with (S i) by lia.
  - intros pf [Hc _]. by exists pf.
  - ostep. exists (clientdata pf). by rewrite Hc.
Qed.

(** ** snprintf *)

(** What the buffer holds after a text has been sent. *)
Definition snp_after (buf : list Z) (buflen : Z) (out : list Z) : outcome SNP :=
  let w := take (Z.to_nat buflen) out in
  Ret (Snp (w ++ drop (length w) buf) buflen (len w)).

Lemma snp_send buf buflen a b : 0 ≤ buflen ≤ len buf →
  __snprintf_send (snp_after buf buflen a) b = snp_after buf buflen (a ++ b).
Proof.
  intros Hl. unfold __snprintf_send, snp_after at 1. ostep.
  destruct (for_each_inv (λ i st, Ret st = snp_after buf buflen (a ++ take (Z.to_nat i) b)) (λ i snp,
    c ← rd b i;
    if bool_decide (snp_bufpos snp < snp_buflen snp) then b ← wr (snp_buf snp) (snp_bufpos snp) c; Ret (Snp b (snp_buflen snp) (snp_bufpos snp + 1))
    else Ret snp) (length b) 0 (Snp (take (Z.to_nat buflen) a ++ drop (length (take (Z.to_nat buflen) a)) buf) buflen (len (take (Z.to_nat buflen) a))))
    as (st & -> & ->).
  - by rewrite take_0, app_nil_r.
  - intros i st Hi [= ->]. destruct (rd_in_range b i) as (c & -> & Hc); [lia|]. ostep. simpl.
    replace (Z.to_nat (i + 1)) with (S (Z.to_nat i)) by lia. rewrite (take_S_r _ _ _ Hc), app_assoc. set (w := a ++ take _ b).
    case_bool_decide as Hroom; rewrite length_take in Hroom.
    + rewrite (take_ge w) in * by lia. rewrite wr_in_range by (rewrite length_app, length_drop; lia). ostep. eexists. split; [done|].
      unfold snp_after. rewrite take_ge by (rewrite length_app; simpl; lia). rewrite length_app. simpl.
      replace (Z.to_nat (len w)) with (length w + 0)%nat by lia. rewrite insert_app_r. destruct (lookup_lt_is_Some_2 buf (length w)) as [x Hx]; [lia|].
      rewrite (drop_S _ _ _ Hx). simpl. rewrite <- app_assoc, Nat.add_1_r. do 2 f_equal. lia.
    + eexists. split; [done|]. unfold snp_after. rewrite take_app_le by lia. done.
  - by rewrite Z.add_0_l, Nat2Z.id, firstn_all.
Qed.

Lemma vsnprintf_ok buf n fmt t args : 0 ≤ n ≤ len buf → nonzero fmt → args_match false fmt args →
  ∃ out, __vprintf collect [] (fmt ++ 0 :: t) args = Ret (s32 (len out), out) ∧
    vsnprintf buf n (fmt ++ 0 :: t) args =
      Ret (s32 (len out), if decide (n = 0) then buf else take (Z.to_nat (n - 1)) out ++ 0 :: drop (S (length (take (Z.to_nat (n - 1)) out))) buf).
Proof.
  intros Hn Hf Hm. destruct (vprintf_ok fmt t args Hf Hm) as (out & Hrun). exists out. split; [done|]. unfold vsnprintf.
  set (buflen := if bool_decide (n = 0) then 0 else n - 1). assert (Hl : 0 ≤ buflen ≤ len buf) by (unfold buflen; case_bool_decide; lia).
  replace (Ret (Snp buf buflen 0)) with (snp_after buf buflen []) by (unfold snp_after; by rewrite take_nil, drop_0).
  rewrite (vprintf_client __snprintf_send (snp_after buf buflen)) by (intros; by apply snp_send). rewrite Hrun. ostep. unfold snp_after. ostep. cbn [snp_buf snp_bufpos].
  case_decide as Hn0.
  - rewrite bool_decide_eq_false_2 by lia. unfold buflen. rewrite bool_decide_eq_true_2 by done. by rewrite take_0, drop_0.
  - rewrite bool_decide_eq_true_2 by lia. unfold buflen. rewrite bool_decide_eq_false_2 by done. set (w := take _ out).
    assert (Hw : (length w < length buf)%nat) by (unfold w; rewrite length_take; lia). rewrite wr_in_range by (rewrite length_app, length_drop; lia). ostep.
    replace (Z.to_nat (len w)) with (length w + 0)%nat by lia. rewrite insert_app_r. destruct (lookup_lt_is_Some_2 buf (length w) Hw) as [x Hx].
    by rewrite (drop_S _ _ _ Hx).
Qed.

(** The text of %s. *)
Lemma pct_s_ok b : 0 ∈ b → len b < 2 ^ 31 → __vprintf collect [] [37; 115; 0] [AStr (Some b)] = Ret (len (cut b), cut b).
Proof.
  intros [t Hb]%cut_split Hlen. pose proof (cut_nonzero b) as Hw. set (w := cut b) in *. assert (Hl : len w < 2 ^ 31) by (rewrite Hb, length_app in Hlen; lia).
  set (pf0 := __pf_endfield (Pf (@nil Z) [AStr (Some b)] 0 false INTSZ 0 0 0 false 32 0 false false)). set (pf1 := set_ap [] (set_in_pct pf0)).
  assert (Hfield : field pf1 [] w = w).
  { unfold field. cbn [spacing rightspc fillchar pf1 pf0 set_ap set_in_pct __pf_endfield]. rewrite (bool_decide_eq_false_2 (32 = 48)) by done. cbn [length].
    rewrite s32_small by lia. replace (Z.to_nat _) with 0%nat by lia. done. }
  assert (Hsend : __pf_send collect 115 (set_in_pct pf0) = Ret (__pf_endfield (say w pf1))).
  { unfold __pf_send. change (strchr modifiers 115) with (Ret (@None Z)). change (strchr inttypes 115) with (Ret (@None Z)).
    change (c_assert (bool_decide (115 ≠ 0))) with (Ret ()). ostep. cbn [in_pct set_in_pct pf0 negb andb].
    rewrite !(bool_decide_eq_false_2 (None ≠ None)) by (by intros []). rewrite (bool_decide_eq_false_2 (115 = 99)), (bool_decide_eq_true_2 (115 = 115)) by done.
    cbn [ap set_in_pct pf0 __pf_endfield]. fold pf0. fold pf1. pose proof (printstuff_ok [] [] [] [] w t pf1 eq_refl (Forall_nil_2 _) (Forall_nil_2 _) Hw) as Hp. cbn [app] in Hp.
    unfold nothing. rewrite Hb, Hp, Hfield. done. }
  unfold __vprintf, scan. fold pf0. change (Z.to_nat (len [37; 115; 0] - 0)) with 3%nat. cbn [for_loop].
  change (rd [37; 115; 0] 0) with (Ret 37). ostep. rewrite (bool_decide_eq_false_2 (37 = 0)) by done. change (__pf_send collect 37 pf0) with (Ret (set_in_pct pf0)). ostep.
  change (rd [37; 115; 0] (0 + 1)) with (Ret 115). ostep. rewrite (bool_decide_eq_false_2 (115 = 0)) by done. rewrite Hsend. ostep.
  change (rd [37; 115; 0] (0 + 1 + 1)) with (Ret 0). ostep. rewrite (bool_decide_eq_true_2 (0 = 0)) by done. ostep.
  unfold say, __pf_print. simpl. rewrite Nat2Z.id, firstn_all. rewrite s32_small by lia. done.
Qed.

(** ** Decimal numbers and atoi *)

(** The text of %d. *)
Definition decimal (x : Z) : list Z := (if decide (x < 0) then [45] else []) ++ numeral 10 (Z.abs x).

Lemma pct_d_ok x : - 2 ^ 31 ≤ x < 2 ^ 31 → __vprintf collect [] [37; 100; 0] [AInt x] = Ret (len (decimal x), decimal x).
Proof.
  intros Hx. set (pf0 := __pf_endfield (Pf (@nil Z) [AInt x] 0 false INTSZ 0 0 0 false 32 0 false false)).
  set (pf1 := __pf_setbase 100 (set_num (Z.abs x) (if decide (x < 0) then -1 else 0) [] (set_in_pct pf0))).
  assert (Hget : __pf_getnum 100 (set_in_pct pf0) = Ret (set_num (Z.abs x) (if decide (x < 0) then -1 else 0) [] (set_in_pct pf0))).
  { unfold __pf_getnum. cbn [ap set_in_pct pf0 __pf_endfield]. rewrite (bool_decide_eq_false_2 (100 = 112)), (bool_decide_eq_true_2 (100 = 100)) by done.
    rewrite s32_small by lia. case_decide; [rewrite bool_decide_eq_true_2 by done|rewrite bool_decide_eq_false_2 by done]; rewrite u32_small by lia; repeat f_equal; lia. }
  assert (Hfield : field pf1 (sign_text pf1 ++ base_text pf1) (numeral 10 (Z.abs x)) = decimal x ∧ (length (decimal x) ≤ 12)%nat).
  { pose proof (numeral_length 10 (Z.abs x) ltac:(auto) ltac:(lia)). unfold decimal, numeral in *. unfold field, sign_text, base_text. cbn [sign baseprefix spacing rightspc fillchar pf1 pf0 __pf_setbase set_base set_num set_in_pct __pf_endfield altformat].
    rewrite (bool_decide_eq_false_2 (32 = 48)), (bool_decide_eq_false_2 (100 = 112)) by done. cbn [orb andb]. rewrite app_nil_r.
    assert (Hsig : (if bool_decide ((if decide (x < 0) then -1 else 0) ≠ 0) then [45] else []) = (if decide (x < 0) then [45] else [])) by (by case_decide).
    rewrite Hsig. set (sg := if decide (x < 0) then [45] else []). assert (length sg ≤ 1)%nat by (unfold sg; case_decide; simpl; lia).
    rewrite s32_small, length_map by (rewrite length_map; lia). replace (Z.to_nat _) with 0%nat by lia. split; [done|]. rewrite length_app, length_map. lia. }
  assert (Hsend : __pf_send collect 100 (set_in_pct pf0) = Ret (__pf_endfield (say (decimal x) pf1))).
  { unfold __pf_send. change (strchr modifiers 100) with (Ret (@None Z)). change (strchr inttypes 100) with (Ret (Some 0)).
    change (c_assert (bool_decide (100 ≠ 0))) with (Ret ()). ostep. cbn [in_pct set_in_pct pf0 negb andb].
    rewrite (bool_decide_eq_false_2 (None ≠ None)), (bool_decide_eq_true_2 (Some 0 ≠ None)) by (done || by intros []). fold pf0. rewrite Hget. ostep. fold pf1.
    rewrite printnum_ok; [|done|by right; left|simpl; lia]. ostep. change (base pf1) with 10. change (num pf1) with (Z.abs x). by rewrite (proj1 Hfield). }
  unfold __vprintf, scan. fold pf0. change (Z.to_nat (len [37; 100; 0] - 0)) with 3%nat. cbn [for_loop].
  change (rd [37; 100; 0] 0) with (Ret 37). ostep. rewrite (bool_decide_eq_false_2 (37 = 0)) by done. change (__pf_send collect 37 pf0) with (Ret (set_in_pct pf0)). ostep.
  change (rd [37; 100; 0] (0 + 1)) with (Ret 100). ostep. rewrite (bool_decide_eq_false_2 (100 = 0)) by done. rewrite Hsend. ostep.
  change (rd [37; 100; 0] (0 + 1 + 1)) with (Ret 0). ostep. rewrite (bool_decide_eq_true_2 (0 = 0)) by done. ostep. destruct Hfield as [_ Hl].
  unfold say, __pf_print. simpl. rewrite firstn_all2 by lia. rewrite s32_small by lia. done.
Qed.

Lemma digit_char d : 0 ≤ d < 10 → strchr digits (hexdigit d) = Ret (Some d) ∧ 48 ≤ hexdigit d ≤ 57.
Proof.
  intros Hd. assert (Hc : d ∈ seqZ 0 10) by (apply elem_of_seqZ; lia). revert d Hd Hc. vm_compute (seqZ 0 10). intros d _ Hd.
  repeat (apply elem_of_cons in Hd as [->|Hd]; [by vm_compute|]). by apply not_elem_of_nil in Hd.
Qed.

Lemma value_take b l k : 1 ≤ b → Forall (λ d, 0 ≤ d < b) l → 0 ≤ value b (take k l) ≤ value b l.
Proof.
  intros Hb Hl. revert k. induction l as [|d l IH] using rev_ind; intros k; [rewrite take_nil; unfold value; simpl; lia|].
  apply Forall_app in Hl as [Hl Hd]. inversion Hd; subst. specialize (IH Hl). pose proof (IH 0%nat) as H0. rewrite take_0 in H0. change (value b []) with 0 in H0.
  rewrite value_snoc. destruct (decide (k ≤ length l)%nat) as [Hk|Hk]; [rewrite take_app_le by done; specialize (IH k); nia|].
  rewrite take_ge by (rewrite length_app; simpl; lia). rewrite value_snoc. nia.
Qed.

(** The digits are read back, with an optional sign [pre]. *)
Lemma atoi_digits pre ds t : Forall (λ d, 0 ≤ d < 10) ds → value 10 ds < 2 ^ 32 →
  scan (pre ++ map hexdigit ds ++ 0 :: t) (len pre) (λ _ c val,
    if bool_decide (c = 0) then Ret (inr val)
    else where_ ← strchr digits c; Ret (match where_ with None => inr val | Some digit => inl (u32 (val * 10 + digit)) end)) 0 = Ret (value 10 ds).
Proof.
  intros Hds Hv.
  match goal with |- scan _ _ ?body _ = _ => destruct (scan_string_ok body (λ i v, v = value 10 (take (Z.to_nat (i - len pre)) ds)) (λ r, r = value 10 ds) pre (map hexdigit ds) 0 t 0) as (r & -> & ->) end; [|..|done].
  - by rewrite Z.sub_diag, take_0.
  - intros i c v Hc ->. left. apply list_lookup_fmap_Some in Hc as (d & -> & Hd). eapply Forall_lookup_1 in Hds as Hr; [|exact Hd]. simpl in Hr.
    destruct (digit_char d Hr) as [Hs Hrange]. rewrite bool_decide_eq_false_2 by lia. rewrite Hs. ostep. eexists. split; [done|].
    replace (len pre + Z.of_nat i - len pre) with (Z.of_nat i) by lia. replace (len pre + Z.of_nat i + 1 - len pre) with (Z.of_nat (S i)) by lia.
    rewrite !Nat2Z.id, (take_S_r _ _ _ Hd), <- value_snoc. apply u32_small. rewrite <- (take_S_r _ _ _ Hd). pose proof (value_take 10 ds (S i) ltac:(lia) Hds). lia.
  - intros v ->. rewrite length_map. replace (len pre + len ds - len pre) with (len ds) by lia. rewrite Nat2Z.id, firstn_all. by eexists.
Qed.

Lemma atoi_decimal x t : - 2 ^ 31 ≤ x < 2 ^ 31 → atoi (decimal x ++ 0 :: t) = Ret x.
Proof.
  intros Hx. unfold atoi, decimal, numeral. set (ds := digs 33 10 (Z.abs x)).
  assert (Hds : Forall (λ d, 0 ≤ d < 10) ds) by (by apply digs_range). assert (Hv : value 10 ds = Z.abs x) by (apply digs_value; lia).
  assert (Hne : ∃ d ds', ds = d :: ds').
  { destruct ds as [|d ds'] eqn:Hd; [|by exists d, ds']. exfalso. unfold ds in Hd. cbn [digs] in Hd. by apply app_eq_nil in Hd as [_ ?]. }
  assert (Hfirst : ∀ c s, 32 < c → scan (c :: s) 0 (λ i c (_ : ()), Ret (if bool_decide (c = 32) || bool_decide (c = 9) then inl () else inr (i, c))) () = Ret (0, c)).
  { intros c s Hc. destruct (scan_start (λ i c (_ : ()), Ret (if bool_decide (c = 32) || bool_decide (c = 9) then inl () else inr (i, c))) (λ _ _, True) (λ r, r = (0, c)) [] c s ()) as (r & Hr & ->); [done|done| |exact Hr].
    intros [] _. rewrite !bool_decide_eq_false_2 by lia. by eexists. }
  destruct Hne as (d & ds' & Hd). case_decide as Hneg.
  - cbn [app]. rewrite Hfirst by lia. ostep. rewrite (bool_decide_eq_true_2 (45 = 45)) by done. cbn [orb].
    change (45 :: map hexdigit ds ++ 0 :: t) with ([45] ++ map hexdigit ds ++ 0 :: t). change (0 + 1) with (len [45]). rewrite atoi_digits by (done || lia). ostep.
    rewrite Hv. f_equal. rewrite s32_small; lia.
  - cbn [app]. assert (Hdr : 0 ≤ d < 10) by (rewrite Hd in Hds; by inversion Hds). pose proof (proj2 (digit_char d Hdr)) as Hc.
    assert (Hs : map hexdigit ds ++ 0 :: t = hexdigit d :: map hexdigit ds' ++ 0 :: t) by by rewrite Hd. rewrite Hs at 1. rewrite Hfirst by lia. ostep.
    rewrite !bool_decide_eq_false_2 by lia. cbn [orb]. pose proof (atoi_digits [] ds t Hds ltac:(lia)) as Hval. cbn [app] in Hval. change (len (@nil Z)) with 0 in Hval. rewrite Hval. ostep. rewrite Hv. f_equal. rewrite s32_small; lia.
Qed.

(** [C35] Printing and truncation: for every format and the arguments it asks for,
    vsnprintf returns, writes no byte outside the first n of the buffer, leaves
    there the beginning of the whole text with a terminator, and returns the
    length of the whole text. *)
Theorem vsnprintf_truncates buf n fmt t args : 0 ≤ n ≤ len buf → nonzero fmt → args_match false fmt args →
  ∃ out, __vprintf collect [] (fmt ++ 0 :: t) args = Ret (s32 (len out), out) ∧
    vsnprintf buf n (fmt ++ 0 :: t) args =
      Ret (s32 (len out), if decide (n = 0) then buf else take (Z.to_nat (n - 1)) out ++ 0 :: drop (S (length (take (Z.to_nat (n - 1)) out))) buf).
Proof. apply vsnprintf_ok. Qed.

(** The format "%s!" into a buffer of three bytes. *)
Lemma vsnprintf_truncates_witness :
  vsnprintf [1; 2; 3] 3 [37; 115; 33; 0] [AStr (Some [104; 105; 0])] = Ret (3, [104; 105; 0]).
Proof.
  destruct (vsnprintf_truncates [1; 2; 3] 3 [37; 115; 33] [] [AStr (Some [104; 105; 0])]) as (out & Hout & Hrun);
    [simpl; lia|by repeat constructor|vm_compute; split; [set_solver|done]|].
  cbn [app] in Hout, Hrun. assert (Htext : __vprintf collect [] [37; 115; 33; 0] [AStr (Some [104; 105; 0])] = Ret (3, [104; 105; 33])) by (vm_compute; reflexivity).
  rewrite Htext in Hout. injection Hout as _ <-. exact Hrun.
Defined.

(** Decimal numbers survive printing and parsing: every int printed with %d
    into a buffer of 12 bytes is read back by atoi, and the text printed is all
    there. *)
Theorem decimal_roundtrip x buf n : - 2 ^ 31 ≤ x < 2 ^ 31 → 12 ≤ n ≤ len buf →
  ∃ k text, vsnprintf buf n [37; 100; 0] [AInt x] = Ret (k, text) ∧ strlen text = Ret k ∧ atoi text = Ret x.
Proof.
  intros Hx Hn. destruct (vsnprintf_ok buf n [37; 100] [] [AInt x]) as (out & Hout & Hrun); [lia|by repeat constructor|by vm_compute|].
  cbn [app] in Hout, Hrun. rewrite (pct_d_ok x Hx) in Hout. injection Hout as Hlen <-.
  pose proof (numeral_length 10 (Z.abs x) ltac:(auto) ltac:(lia)) as Hl.
  assert (Hd : (length (decimal x) ≤ 11)%nat).
  { unfold decimal, numeral. rewrite length_app, length_map. destruct (decide (x < 0)) as [Hneg|Hneg]; [|cbn [length]; lia]. assert (length (digs 33 10 (Z.abs x)) ≤ 10)%nat by (apply digs_length; lia). cbn [length]. lia. }
  rewrite decide_False, firstn_all2 in Hrun by lia. eexists _, _. split; [exact Hrun|]. rewrite <- Hlen. split; [|by apply atoi_decimal].
  apply strlen_ok. unfold decimal. apply Forall_app. split; [case_decide; by repeat constructor|by apply numeral_nonzero].
Qed.

Lemma decimal_roundtrip_witness : ∃ k text, vsnprintf (replicate 12 0) 12 [37; 100; 0] [AInt (- 2 ^ 31)] = Ret (k, text) ∧
  strlen text = Ret k ∧ atoi text = Ret (- 2 ^ 31).
Proof. apply (decimal_roundtrip (- 2 ^ 31) (replicate 12 0) 12); [lia|simpl; lia]. Defined.
