(* ===== verification/Menu.v ===== *)
(** * The kernel menu: kern/main/menu.c and kern/lib/kgets.c

    kgets edits a line that is typed at the console, menu_execute takes a line
    apart into commands and cmd_dispatch a command into words. The table of the
    commands is an argument: names with the functions behind them, on a state of
    the kernel [K]. Printing and timing are left out. *)

From S2P Require Import Prelude KHeap KHeapSpec Coremap Uio CString.

Definition MAXMENUARGS : Z := 16.
Definition E2BIG : Z := 25.

(** ** kgets *)

(** The loops of ^U and ^W: erasing while the last character satisfies [f]. *)
Fixpoint erase (f : Z → bool) (buf : list Z) (pos : nat) : outcome Z :=
  match pos with
  | O => Ret 0
  | S pos' => c ← rd buf (Z.of_nat pos'); if f c then erase f buf pos' else Ret (Z.of_nat pos)
  end.

(** One character: [inl] goes on with the buffer and the position, [inr] ends. *)
Definition kgets_char (maxlen ch : Z) (st : list Z * Z) : outcome (list Z * Z + list Z * Z) :=
  let '(buf, pos) := st in
  if bool_decide (ch = 10) || bool_decide (ch = 13) then Ret (inr (buf, pos))
  else if bool_decide (32 ≤ ch) && bool_decide (ch < 127) && bool_decide (pos < u32 (maxlen - 1)) then
    buf ← wr buf pos ch; Ret (inl (buf, pos + 1))
  else if (bool_decide (ch = 8) || bool_decide (ch = 127)) && bool_decide (0 < pos) then Ret (inl (buf, pos - 1))
  else if bool_decide (ch = 3) then Ret (inr (buf, 0))
  else if bool_decide (ch = 18) then buf ← wr buf pos 0; Ret (inl (buf, pos))
  else if bool_decide (ch = 21) then pos ← erase (λ _, true) buf (Z.to_nat pos); Ret (inl (buf, pos))
  else if bool_decide (ch = 23) then
    pos ← erase (λ c, bool_decide (c = 32)) buf (Z.to_nat pos);
    pos ← erase (λ c, bool_decide (c ≠ 32)) buf (Z.to_nat pos);
    Ret (inl (buf, pos))
  else Ret (inl (buf, pos)).

(** The line from the characters that are typed; [None] while it is not ended. *)
Fixpoint kgets_loop (maxlen : Z) (input : list Z) (st : list Z * Z) : outcome (option (list Z * list Z)) :=
  match input with
  | [] => Ret None
  | ch :: input =>
      r ← kgets_char maxlen ch st;
      match r with
      | inl st => kgets_loop maxlen input st
      | inr (buf, pos) => buf ← wr buf pos 0; Ret (Some (buf, input))
      end
  end.
Definition kgets (buf : list Z) (maxlen : Z) (input : list Z) : outcome (option (list Z * list Z)) :=
  kgets_loop maxlen input (buf, 0).

(** ** The dispatcher *)

Section menu.
Context {K : Type}.

Abbreviation command := (list Z * (list (list Z) → K → outcome (Z * K)))%type.

Definition blanks : list Z := [32; 9; 0].
Definition semicolon : list Z := [59; 0].

(** The loop over the words of a command; [None] stands for too many. *)
Fixpoint get_words (fuel : nat) (word context : option Z) (args buf : list Z) : outcome (option (list Z) * list Z) :=
  match word, fuel with
  | None, _ => Ret (Some args, buf)
  | Some _, O => Spin
  | Some p, S fuel =>
      if bool_decide (MAXMENUARGS ≤ len args) then Ret (None, buf)
      else
        '(word, context, buf) ← strtok_r None blanks context buf;
        get_words fuel word context (args ++ [p]) buf
  end.

Fixpoint find_command (cmdtable : list command) (name : list Z) : outcome (option (list (list Z) → K → outcome (Z * K))) :=
  match cmdtable with
  | [] => Ret None
  | (n, func) :: cmdtable =>
      c ← rd n 0;
      if bool_decide (c ≠ 0) then
        r ← strcmp name n;
        if bool_decide (r = 0) then Ret (Some func) else find_command cmdtable name
      else find_command cmdtable name
  end.

Definition cmd_dispatch (cmdtable : list command) (cmd : Z) (buf : list Z) (k : K) : outcome (Z * list Z * K) :=
  '(word, context, buf) ← strtok_r (Some cmd) blanks None buf;
  '(args, buf) ← get_words (length buf) word context [] buf;
  match args with
  | None => Ret (E2BIG, buf, k)
  | Some [] => Ret (0, buf, k)
  | Some ((first :: _) as args) =>
      f ← find_command cmdtable (drop (Z.to_nat first) buf);
      match f with
      | None => Ret (EINVAL, buf, k)
      | Some func => '(e, k) ← func (map (string_at buf) args) k; Ret (e, buf, k)
      end
  end.

Fixpoint execute_loop (fuel : nat) (cmdtable : list command) (isargs : bool) (command context : option Z) (buf : list Z) (k : K)
    : outcome (list Z * K) :=
  match command, fuel with
  | None, _ => Ret (buf, k)
  | Some _, O => Spin
  | Some p, S fuel =>
      '(result, buf, k) ← cmd_dispatch cmdtable p buf k;
      if bool_decide (result ≠ 0) && isargs then Panic
      else
        '(command, context, buf) ← strtok_r None semicolon context buf;
        execute_loop fuel cmdtable isargs command context buf k
  end.

Definition menu_execute (cmdtable : list command) (isargs : bool) (line : list Z) (k : K) : outcome (list Z * K) :=
  '(command, context, buf) ← strtok_r (Some 0) semicolon None line;
  execute_loop (length line) cmdtable isargs command context buf k.
End menu.

Definition getinterval (s1 ns1 s2 ns2 : Z) : Z * Z :=
  let '(s2, ns2) := if bool_decide (ns2 < ns1) then (s2 - 1, u32 (ns2 + 1000000000)) else (s2, ns2) in
  (s2 - s1, u32 (ns2 - ns1)).

(** ** Taking a line apart *)

Definition blank (c : Z) : bool := bool_decide (c ∈ [32; 9]).
Definition semi (c : Z) : bool := bool_decide (c ∈ [59]).

(** The strings [ws] lie at [ps] in the buffer, and in its part [pre]. *)
Definition strings_in (buf ps : list Z) (ws : list (list Z)) : Prop :=
  Forall2 (λ p w, nonzero w ∧ ∃ t, drop (Z.to_nat p) buf = w ++ 0 :: t) ps ws.
Definition held (pre ps : list Z) (ws : list (list Z)) : Prop := ∀ rest, strings_in (pre ++ rest) ps ws.

Lemma held_more pre x ps ws : held pre ps ws → held (pre ++ x) ps ws.
Proof. intros Hh rest. rewrite <- app_assoc. apply Hh. Qed.

Lemma held_word pre w ps ws : nonzero w → held pre ps ws → held (pre ++ w ++ [0]) (ps ++ [len pre]) (ws ++ [w]).
Proof.
  intros Hw Hh rest. apply Forall2_app; [by apply held_more|]. constructor; [|constructor]. split; [done|]. exists rest.
  by rewrite Nat2Z.id, <- app_assoc, drop_app_length, <- app_assoc.
Qed.

Lemma strings_map buf ps ws : strings_in buf ps ws → map (string_at buf) ps = ws.
Proof. induction 1 as [|p w ps ws (Hw & t & Hp) _ IH]; simpl; [done|]. f_equal; [|done]. unfold string_at. by rewrite Hp, cut_app. Qed.

Lemma blanks_nonzero : nonzero [32; 9].
Proof. by repeat constructor. Qed.
Lemma semicolon_nonzero : nonzero [59].
Proof. by repeat constructor. Qed.

Lemma strtok_r_end seps buf : strtok_r None seps None buf = Ret (None, None, buf).
Proof. done. Qed.

(** The words of a command: [w] has been found, [rest] is left. The parts of
    the buffer before and after the command stay. *)
Lemma get_words_ok fuel : ∀ pre w rest t args ws,
  nonzero w → rest_nonzero rest → held pre args ws → (length (tail_of rest) ≤ fuel)%nat → (0 < fuel)%nat →
  let all := ws ++ w :: rest_words blank rest in
  ∃ r mid, get_words fuel (Some (len pre)) (context_of pre w rest) args (pre ++ w ++ tail_of rest ++ 0 :: t) =
      Ret (r, pre ++ mid ++ 0 :: t) ∧ length mid = length (w ++ tail_of rest) ∧
    match r with
    | None => MAXMENUARGS < len all
    | Some ps => len all ≤ MAXMENUARGS ∧ strings_in (pre ++ mid ++ 0 :: t) ps all
    end.
Proof.
  induction fuel as [|fuel IH]; intros pre w rest t args ws Hw Hrest Hheld Hfuel H0 all; [lia|]. cbn [get_words].
  assert (Hlen : length args = length ws) by (eapply Forall2_length, (Hheld [])). case_bool_decide as Hmax.
  { exists None, (w ++ tail_of rest). rewrite <- app_assoc. split; [done|]. split; [done|]. unfold all. rewrite length_app. simpl. lia. }
  pose proof (held_word pre w args ws Hw Hheld) as Hheld'. destruct rest as [s|]; unfold all; simpl in *; clear all.
  2:{ exists (Some (args ++ [len pre])), w. rewrite app_nil_r. split; [by destruct fuel|]. split; [done|].
      rewrite length_app. split; [simpl; lia|]. specialize (Hheld' t). by rewrite <- !app_assoc in Hheld'. }
  replace (pre ++ w ++ 0 :: s ++ 0 :: t) with ((pre ++ w ++ [0]) ++ s ++ 0 :: t) by by rewrite <- !app_assoc.
  change (strtok_r None blanks) with (strtok_r None ([32; 9] ++ 0 :: [])).
  destruct (strtok_r_words [32; 9] [] (pre ++ w ++ [0]) s t blanks_nonzero Hrest) as [(-> & Hws)|(lead & v & rest & -> & Hv & Hnv & Hn' & Hws & Hl)];
    fold blank in Hws; ostep; rewrite Hws.
  { exists (Some (args ++ [len pre])), (w ++ 0 :: s). split; [destruct fuel; cbn [get_words]; by rewrite <- !app_assoc|].
    split; [done|]. rewrite length_app. split; [simpl; lia|]. specialize (Hheld' (s ++ 0 :: t)). rewrite <- !app_assoc in Hheld'. rewrite <- app_assoc. exact Hheld'. }
  assert (length v ≠ 0)%nat by (by destruct v). rewrite !length_app in Hl.
  destruct (IH ((pre ++ w ++ [0]) ++ lead) v rest t (args ++ [len pre]) (ws ++ [w])) as (r & mid & -> & Hm & Hr); [done|done|by apply held_more|lia|lia|].
  assert (Hb : ((pre ++ w ++ [0]) ++ lead) ++ mid ++ 0 :: t = pre ++ (w ++ 0 :: lead ++ mid) ++ 0 :: t).
  { rewrite <- !app_assoc. simpl. by rewrite <- !app_assoc. }
  rewrite Hb in Hr |- *. rewrite <- (app_assoc ws) in Hr. exists r, (w ++ 0 :: lead ++ mid). split; [done|]. split; [|done].
  rewrite !length_app in *. simpl in *. rewrite !length_app in *. lia.
Qed.

(** ** What a line means *)

Section commands.
Context {K : Type}.
Abbreviation func := (list (list Z) → K → outcome (Z * K)).
Implicit Types (tbl : list (list Z * func)) (k : K).

Fixpoint lookup_command tbl (name : list Z) : option func :=
  match tbl with
  | [] => None
  | (n, f) :: tbl => if decide (cut n ≠ [] ∧ cut n = name) then Some f else lookup_command tbl name
  end.

(** A command is a list of words. *)
Definition run_command tbl (ws : list (list Z)) k : outcome (Z * K) :=
  match ws with
  | [] => Ret (0, k)
  | name :: _ =>
      if decide (MAXMENUARGS < len ws) then Ret (E2BIG, k)
      else match lookup_command tbl name with None => Ret (EINVAL, k) | Some f => f ws k end
  end.

Fixpoint run_commands tbl (isargs : bool) (cmds : list (list (list Z))) k : outcome K :=
  match cmds with
  | [] => Ret k
  | ws :: cmds =>
      '(e, k) ← run_command tbl ws k;
      if decide (e ≠ 0 ∧ isargs = true) then Panic else run_commands tbl isargs cmds k
  end.

Definition names_end tbl : Prop := Forall (λ c, 0 ∈ c.1) tbl.

Lemma find_command_ok tbl name t : names_end tbl → nonzero name → find_command tbl (name ++ 0 :: t) = Ret (lookup_command tbl name).
Proof.
  intros Ht Hn. induction Ht as [|[n f] tbl H0 _ IH]; simpl; [done|]. simpl in H0. destruct (cut_split n H0) as [tn Hcut].
  pose proof (cut_nonzero n) as Hcn. destruct (cut n) as [|c cn]; rewrite Hcut.
  - rewrite (rd_lookup _ 0 0) by done. ostep. rewrite bool_decide_eq_false_2 by (by intros []). rewrite decide_False by naive_solver. done.
  - rewrite (rd_lookup _ 0 c) by done. ostep. rewrite bool_decide_eq_true_2 by (by inversion Hcn).
    destruct (strcmp_ok name (c :: cn) t tn Hn Hcn) as (r & -> & Hr). ostep. case_bool_decide as Hr0; case_decide as Hd; naive_solver.
Qed.

Lemma cmd_dispatch_ok tbl pre s t : names_end tbl → nonzero s → ∃ mid, length mid = length s ∧
  ∀ k, cmd_dispatch tbl (len pre) (pre ++ s ++ 0 :: t) k = ('(e, k) ← run_command tbl (words_of blank s) k; Ret (e, pre ++ mid ++ 0 :: t, k)).
Proof.
  intros Htbl Hs. unfold cmd_dispatch. change (strtok_r (Some (len pre)) blanks None) with (strtok_r None ([32; 9] ++ 0 :: []) (Some (len pre))).
  destruct (strtok_r_words [32; 9] [] pre s t blanks_nonzero Hs) as [(Hrun & Hws)|(lead & w & rest & Hrun & Hw & Hnw & Hn' & Hws & Hl)];
    fold blank in Hws; rewrite Hrun, Hws; clear Hrun.
  { exists s. split; [done|]. intros k. ostep. by destruct (length _). }
  set (buf := (pre ++ lead) ++ w ++ tail_of rest ++ 0 :: t).
  destruct (get_words_ok (length buf) (pre ++ lead) w rest t [] []) as (r & mid & Hgw & Hm & Hr); [done|done|constructor|unfold buf; rewrite !length_app; simpl; lia..|].
  exists (lead ++ mid). split; [rewrite !length_app in *; lia|]. intros k. ostep. fold buf in Hgw. rewrite Hgw. ostep.
  assert (Hb : (pre ++ lead) ++ mid ++ 0 :: t = pre ++ (lead ++ mid) ++ 0 :: t) by by rewrite <- !app_assoc. rewrite Hb in Hr |- *.
  simpl in Hr. unfold run_command. destruct r as [ps|].
  - destruct Hr as [Hle Hin]. rewrite decide_False by (simpl in *; lia). pose proof (strings_map _ _ _ Hin) as Hmap.
    inversion Hin as [|p w' ps' ws' (_ & t' & Hp) _]; subst. rewrite Hmap, Hp.
    rewrite find_command_ok by done. ostep. destruct (lookup_command tbl w) as [f|]; [|done]. by destruct (f _ k) as [[]| | |].
  - rewrite decide_True by (simpl in Hr |- *; lia). done.
Qed.

Lemma execute_loop_ok tbl isargs fuel : names_end tbl → ∀ pre w rest t,
  nonzero w → rest_nonzero rest → (length (tail_of rest) ≤ fuel)%nat → (0 < fuel)%nat →
  ∃ buf, ∀ k, execute_loop fuel tbl isargs (Some (len pre)) (context_of pre w rest) (pre ++ w ++ tail_of rest ++ 0 :: t) k =
    (k ← run_commands tbl isargs (map (words_of blank) (w :: rest_words semi rest)) k; Ret (buf, k)).
Proof.
  intros Htbl. induction fuel as [|fuel IH]; intros pre w rest t Hw Hrest Hfuel H0; [lia|]. cbn [execute_loop map run_commands].
  set (t' := match rest with Some s => s ++ 0 :: t | None => t end).
  assert (Hbuf : pre ++ w ++ tail_of rest ++ 0 :: t = pre ++ w ++ 0 :: t') by (by destruct rest).
  destruct (cmd_dispatch_ok tbl pre w t' Htbl Hw) as (mid & Hmid & Hrun).
  assert (Hnext : ∃ buf, ∀ k, ('(command, context, buf) ← strtok_r None semicolon (context_of pre w rest) (pre ++ mid ++ 0 :: t');
      execute_loop fuel tbl isargs command context buf k) = (k ← run_commands tbl isargs (map (words_of blank) (rest_words semi rest)) k; Ret (buf, k))).
  { destruct rest as [s|]; simpl in *.
    2:{ exists (pre ++ mid ++ 0 :: t'). intros k. ostep. by destruct fuel. }
    unfold t'. replace (length (pre ++ w ++ [0])) with (length (pre ++ mid ++ [0])) by (rewrite !length_app; lia).
    replace (pre ++ mid ++ 0 :: s ++ 0 :: t) with ((pre ++ mid ++ [0]) ++ s ++ 0 :: t) by by rewrite <- !app_assoc.
    change (strtok_r None semicolon) with (strtok_r None ([59] ++ 0 :: [])).
    destruct (strtok_r_words [59] [] (pre ++ mid ++ [0]) s t semicolon_nonzero Hrest) as [(-> & Hws)|(lead & v & rest & -> & Hv & Hnv & Hn' & Hws & Hl)];
      fold semi in Hws; rewrite Hws; cbn [map].
    - eexists. intros k. ostep. by destruct fuel.
    - assert (length v ≠ 0)%nat by (by destruct v). rewrite !length_app in Hl.
      destruct (IH ((pre ++ mid ++ [0]) ++ lead) v rest t) as [buf Hb]; [done|done|lia|lia|]. exists buf. intros k. ostep. apply Hb. }
  destruct Hnext as [buf Hnext]. exists buf. intros k. rewrite Hbuf, Hrun. destruct (run_command tbl (words_of blank w) k) as [[e k']| | |]; [|done..]. ostep.
  destruct (decide (e ≠ 0 ∧ isargs = true)) as [[He ->]|Hn]; [by rewrite bool_decide_eq_true_2|].
  replace (bool_decide (e ≠ 0) && isargs) with false by (symmetry; apply andb_false_iff; destruct isargs; [left; apply bool_decide_eq_false_2; naive_solver|by right]).
  apply Hnext.
Qed.

Lemma menu_execute_ok tbl isargs s t : names_end tbl → nonzero s →
  ∃ buf, ∀ k, menu_execute tbl isargs (s ++ 0 :: t) k =
    (k ← run_commands tbl isargs (map (words_of blank) (words_of semi s)) k; Ret (buf, k)).
Proof.
  intros Htbl Hs. unfold menu_execute. change (strtok_r (Some 0) semicolon None) with (strtok_r None [59; 0] (Some (len (@nil Z)))).
  destruct (strtok_r_words [59] [] [] s t semicolon_nonzero Hs) as [(Hrun & Hws)|(lead & w & rest & Hrun & Hw & Hnw & Hn' & Hws & Hl)];
    cbn [app] in Hrun; fold semi in Hws; rewrite Hws, Hrun.
  - eexists. intros k. ostep. by destruct (length (s ++ 0 :: t)).
  - destruct (execute_loop_ok tbl isargs (length (s ++ 0 :: t)) Htbl lead w rest t) as [buf Hb]; [done|done|rewrite !length_app in *; simpl; lia..|].
    exists buf. intros k. ostep. apply Hb.
Qed.
End commands.

(** ** Editing a line *)

(** [line] without its last characters that satisfy [f]. *)
Definition strip (f : Z → bool) (line : list Z) : list Z := rev (after f (rev line)).

(** What a typed character does to the line: [inr] is the line that is entered. *)
Definition edit_char (n ch : Z) (line : list Z) : list Z + list Z :=
  if bool_decide (ch = 10) || bool_decide (ch = 13) then inr line
  else if bool_decide (32 ≤ ch) && bool_decide (ch < 127) && bool_decide (len line < n - 1) then inl (line ++ [ch])
  else if (bool_decide (ch = 8) || bool_decide (ch = 127)) && bool_decide (0 < len line) then inl (removelast line)
  else if bool_decide (ch = 3) then inr []
  else if bool_decide (ch = 18) then inl line
  else if bool_decide (ch = 21) then inl []
  else if bool_decide (ch = 23) then inl (strip (λ c, bool_decide (c ≠ 32)) (strip (λ c, bool_decide (c = 32)) line))
  else inl line.

Fixpoint edit (n : Z) (input line : list Z) : option (list Z * list Z) :=
  match input with
  | [] => None
  | ch :: input => match edit_char n ch line with inl line => edit n input line | inr line => Some (line, input) end
  end.

Lemma strip_prefix f line : ∃ k, line = strip f line ++ k.
Proof.
  exists (rev (before f (rev line))). unfold strip. rewrite <- rev_app_distr, before_after. by rewrite rev_involutive.
Qed.

Lemma erase_ok f line : ∀ t, erase f (line ++ t) (length line) = Ret (len (strip f line)).
Proof.
  induction line as [|c line IH] using rev_ind; intros t; [done|]. rewrite length_app, Nat.add_1_r. cbn [erase].
  rewrite (rd_lookup _ _ c) by (try lia; rewrite Nat2Z.id, <- app_assoc, lookup_app_r, Nat.sub_diag by lia; done). ostep. unfold strip. rewrite rev_app_distr. simpl.
  destruct (f c); [rewrite <- app_assoc; apply IH|]. simpl. rewrite length_app, length_rev, length_rev. simpl. do 2 f_equal. lia.
Qed.

Lemma strip_all line : strip (λ _, true) line = [].
Proof. unfold strip. by replace (after (λ _, true) (rev line)) with (@nil Z) by by induction (rev line). Qed.

(** The buffer holds a line of printable characters, with room for the end. *)
Definition line_ok (n : Z) (line : list Z) : Prop := Forall (λ c, 32 ≤ c < 127) line ∧ len line < n.

Lemma line_prefix n line k : line_ok n (line ++ k) → line_ok n line.
Proof. intros [Hf Hl]. apply Forall_app in Hf as [Hf _]. rewrite length_app in Hl. split; [done|lia]. Qed.

Lemma kgets_char_ok n ch line t : 0 < n < 2 ^ 32 → line_ok n line → len (line ++ t) = n →
  match edit_char n ch line with
  | inl line' => line_ok n line' ∧ ∃ t', kgets_char n ch (line ++ t, len line) = Ret (inl (line' ++ t', len line')) ∧ len (line' ++ t') = n
  | inr line' => line_ok n line' ∧ ∃ t', kgets_char n ch (line ++ t, len line) = Ret (inr (line' ++ t', len line')) ∧ len (line' ++ t') = n
  end.
Proof.
  intros Hn Hok Hlen. pose proof Hok as [Hf Hl]. unfold edit_char, kgets_char. rewrite u32_small by lia.
  assert (Hkeep : ∀ l k, line = l ++ k → line_ok n l ∧ ∃ t', line ++ t = l ++ t' ∧ len (l ++ t') = n).
  { intros l k ->. split; [by apply (line_prefix n _ k)|]. exists (k ++ t). rewrite <- app_assoc in *. done. }
  destruct (_ || _) eqn:H1; [split; [done|by exists t]|]. destruct (_ && _ && _) eqn:H2.
  { cbool. assert (Ht : ∃ x t', t = x :: t') by (destruct t as [|x t']; [rewrite app_nil_r in Hlen; lia|by exists x, t']). destruct Ht as (x & t' & ->).
    rewrite wr_in_range by (rewrite Hlen; lia). ostep. rewrite length_app in Hlen. simpl in Hlen. split.
    - split; [apply Forall_app; split; [done|]; by repeat constructor|]. rewrite length_app. simpl. lia.
    - exists t'. replace (Z.to_nat (len line)) with (length line + 0)%nat by lia. rewrite insert_app_r. simpl. rewrite <- app_assoc, length_app.
      split; [simpl; do 3 f_equal; lia|]. rewrite !length_app. simpl. lia. }
  destruct ((_ || _) && _) eqn:H3.
  { cbool. destruct line as [|c line _] using rev_ind; [simpl in *; lia|]. rewrite removelast_last. destruct (Hkeep line [c] eq_refl) as (Hl' & t' & Ht & Hn').
    split; [done|]. exists t'. rewrite Ht. split; [|done]. do 3 f_equal. rewrite length_app. simpl. lia. }
  destruct (bool_decide (ch = 3)); [destruct (Hkeep [] line eq_refl) as (Hl' & t' & Ht & Hn'); split; [done|]; exists t'; by rewrite Ht|].
  destruct (bool_decide (ch = 18)).
  { assert (Ht : ∃ x t', t = x :: t') by (destruct t as [|x t']; [rewrite app_nil_r in Hlen; lia|by exists x, t']). destruct Ht as (x & t' & ->).
    rewrite wr_in_range by (rewrite Hlen; lia). ostep. split; [done|]. exists (0 :: t').
    replace (Z.to_nat (len line)) with (length line + 0)%nat by lia. rewrite insert_app_r. split; [done|]. rewrite length_app in *. done. }
  rewrite !Nat2Z.id. destruct (bool_decide (ch = 21)).
  { rewrite erase_ok, strip_all. ostep. destruct (Hkeep [] line eq_refl) as (Hl' & t' & Ht & Hn'). split; [done|]. exists t'. by rewrite Ht. }
  destruct (bool_decide (ch = 23)); [|split; [done|by exists t]].
  rewrite erase_ok. ostep. destruct (strip_prefix (λ c, bool_decide (c = 32)) line) as [k1 Hk1]. set (l1 := strip _ line) in *.
  destruct (strip_prefix (λ c, bool_decide (c ≠ 32)) l1) as [k2 Hk2]. rewrite Nat2Z.id.
  assert (He : erase (λ c, bool_decide (c ≠ 32)) (line ++ t) (length l1) = Ret (len (strip (λ c, bool_decide (c ≠ 32)) l1))).
  { destruct (Hkeep l1 k1 Hk1) as (_ & t1 & -> & _). apply erase_ok. }
  rewrite He. ostep. destruct (Hkeep (strip (λ c, bool_decide (c ≠ 32)) l1) (k2 ++ k1)) as (Hl' & t' & Ht & Hn'); [by rewrite app_assoc, <- Hk2|].
  split; [done|]. exists t'. by rewrite Ht.
Qed.

Lemma kgets_loop_ok n input : 0 < n < 2 ^ 32 → ∀ line t, line_ok n line → len (line ++ t) = n →
  match edit n input line with
  | Some (line', rest) => line_ok n line' ∧ ∃ t', kgets_loop n input (line ++ t, len line) = Ret (Some (line' ++ 0 :: t', rest)) ∧ len (line' ++ 0 :: t') = n
  | None => kgets_loop n input (line ++ t, len line) = Ret None
  end.
Proof.
  intros Hn. induction input as [|ch input IH]; intros line t Hok Hlen; cbn [edit kgets_loop]; [done|].
  pose proof (kgets_char_ok n ch line t Hn Hok Hlen) as Hstep. destruct (edit_char n ch line) as [line'|line'];
    destruct Hstep as (Hok' & t' & -> & Hlen'); ostep; [by apply IH|].
  split; [done|]. destruct t' as [|x t']; [rewrite app_nil_r in Hlen'; destruct Hok'; lia|]. rewrite wr_in_range by (destruct Hok'; lia). ostep.
  exists t'. replace (Z.to_nat (len line')) with (length line' + 0)%nat by lia. rewrite insert_app_r. split; [done|]. rewrite length_app in *. done.
Qed.

Lemma kgets_ok n buf input : 0 < n < 2 ^ 32 → len buf = n →
  match edit n input [] with
  | Some (line, rest) => line_ok n line ∧ ∃ t, kgets buf n input = Ret (Some (line ++ 0 :: t, rest)) ∧ len (line ++ 0 :: t) = n
  | None => kgets buf n input = Ret None
  end.
Proof. intros Hn Hlen. apply (kgets_loop_ok n input Hn [] buf); [|done]. split; [done|]. simpl. lia. Qed.

(** A line typed at the menu is edited and executed as it reads. kgets never
    writes outside its buffer; it waits as long as the line is not entered, and
    then hands back the line as the editing keys have left it, printable and
    shorter than the buffer. menu_execute then runs the commands of the line from
    left to right: the parts between semicolons, each split at blanks into words,
    the first of which is looked up in the table and run with the words as its
    arguments. Unknown commands and commands of more than 16 words are not run. *)
Theorem menu_line_executed {K : Type} (tbl : list (list Z * (list (list Z) → K → outcome (Z * K)))) n buf input :
  names_end tbl → 0 < n < 2 ^ 32 → len buf = n →
  match edit n input [] with
  | None => kgets buf n input = Ret None
  | Some (line, rest) => Forall (λ c, 32 ≤ c < 127) line ∧ len line < n ∧
      ∃ buf' buf2, kgets buf n input = Ret (Some (buf', rest)) ∧ len buf' = n ∧
        ∀ k, menu_execute tbl false buf' k = (k ← run_commands tbl false (map (words_of blank) (words_of semi line)) k; Ret (buf2, k))
  end.
Proof.
  intros Htbl Hn Hlen. pose proof (kgets_ok n buf input Hn Hlen) as Hk. destruct (edit n input []) as [[line rest]|]; [|done].
  destruct Hk as ([Hf Hl] & t & Hk & Ht). split; [done|]. split; [done|].
  destruct (menu_execute_ok tbl false line t Htbl) as [buf2 Hrun]; [eapply Forall_impl; [exact Hf|]; simpl; lia|]. by exists (line ++ 0 :: t), buf2.
Qed.

(** Typing "xy", erasing a character, and going on to "x a;;zz  b": the state
    records the calls. *)
Definition note_call (id : Z) (ws : list (list Z)) (k : list (Z * list (list Z))) : outcome (Z * list (Z * list (list Z))) :=
  Ret (0, k ++ [(id, ws)]).
Definition two_commands : list (list Z * (list (list Z) → list (Z * list (list Z)) → outcome (Z * list (Z * list (list Z))))) :=
  [([120; 0], note_call 1); ([122; 122; 0], note_call 2)].
Definition keys : list Z := [120; 121; 8; 32; 97; 59; 59; 122; 122; 32; 32; 98; 10; 113].

Lemma menu_line_executed_witness : edit 64 keys [] = Some ([120; 32; 97; 59; 59; 122; 122; 32; 32; 98], [113]) ∧
  ∃ buf' buf2, kgets (replicate 64 7) 64 keys = Ret (Some (buf', [113])) ∧
    menu_execute two_commands false buf' [] = Ret (buf2, [(1, [[120]; [97]]); (2, [[122; 122]; [98]])]).
Proof.
  split; [vm_compute; reflexivity|].
  destruct (menu_line_executed two_commands 64 (replicate 64 7) keys) as (_ & _ & buf' & buf2 & Hk & _ & Hm); [repeat constructor; set_solver|lia|done|].
  exists buf', buf2. split; [exact Hk|]. rewrite Hm. vm_compute. reflexivity.
Defined.
