(* ===== verification/CatMouse.v ===== *)
(** * kern/asst1: cats, mice and bowls

    catmouse.c has cats and mice eat from bowls, one animal to a bowl and never a
    cat and a mouse at a time; bowls.c watches over the rules and panics when
    one is broken. The animals synchronize with the primitives of synch.c as
    Synch.v has them.

    A thread is the code it has left to run. A statement is one step; between
    statements, and inside the primitives where these allow it, the timer may
    take the processor away. [clocksleep] sleeps on [lbolt] and keeps interrupts off
    until it returns; hardclock, called HZ times a second, wakes [lbolt] when its
    counter says that a second is over. The structures have fixed addresses; [ok n] says whether the
    [n]-th kmalloc of the setup succeeds, [km] whether those of the queue do. *)

From S2P Require Import Prelude CQueue Thread ThreadSpec Synch CString.

Inductive animal := Cat | Mouse.
#[export] Instance animal_eq_dec : EqDecision animal.
Proof. solve_decision. Defined.
Definition other (k : animal) : animal := match k with Cat => Mouse | Mouse => Cat end.

(** One number for the cats, one for the mice. *)
Record both := Both { cats : Z; mice : Z }.
Definition num (k : animal) (b : both) : Z := match k with Cat => cats b | Mouse => mice b end.
Definition plus (k : animal) (n : Z) (b : both) : both :=
  match k with Cat => Both (s32 (cats b + n)) (mice b) | Mouse => Both (cats b) (s32 (mice b + n)) end.

Definition CatMouseWait : Z := 1.
Definition MaxBowlCount : Z := 2.
Definition mutex : Z := 3.
Definition FreeBlockBowls : Z := 4.
Definition WaitConditions : Z := 5.
Definition cvNoCatsEating : Z := 6.
Definition cvNoMiceEating : Z := 7.
Definition LBOLT : Z := 8.

(** The variables of catmouse.c, and, from [bowls] on, those of bowls.c. *)
Record data := Data {
  NumBowls : Z; NumCats : Z; NumMice : Z; NumLoops : Z;
  cvNone : both;
  FreeBowlsList : queue Z;
  eating_count : both;
  waiting_count : both;
  bowls : list Z;
  num_bowls : Z;
  bowl_eating_count : both
}.
Definition set_free (q : queue Z) (d : data) : data :=
  Data (NumBowls d) (NumCats d) (NumMice d) (NumLoops d) (cvNone d) q (eating_count d) (waiting_count d) (bowls d) (num_bowls d) (bowl_eating_count d).
Definition set_counts (e w : both) (d : data) : data :=
  Data (NumBowls d) (NumCats d) (NumMice d) (NumLoops d) (cvNone d) (FreeBowlsList d) e w (bowls d) (num_bowls d) (bowl_eating_count d).
Definition set_bowls (l : list Z) (e : both) (d : data) : data :=
  Data (NumBowls d) (NumCats d) (NumMice d) (NumLoops d) (cvNone d) (FreeBowlsList d) (eating_count d) (waiting_count d) l (num_bowls d) e.

(** The variables [i] and [bowl] of a thread; [bowl] has no value at first. *)
Record locals := Locals { l_i : Z; l_bowl : option Z }.

(** ** Code *)

Inductive action :=
| WaitingUp | EatingUp | RemHead | CheckBowl | CheckNumber | StartEating | FinishEating | AddTail | CountsDown | NextLoop | ResetIndex.
Inductive test := Looping | OthersEating | MustYield | AnyFree | NobodyLeft | MoreCats | MoreMice | MoreToWait.
Inductive stmt :=
| Do (a : action)
| Call (i : instr)
| Wait (k : animal)
| Broadcast (k : animal)
| Delay (num_secs : Z)
| Delaying (num_secs : Z)            (* in clocksleep, back from thread_sleep *)
| Fork (k : animal)
| Cleanup
| If (b : test) (p q : list stmt)
| While (b : test) (p : list stmt).

Definition EATINGTIME (k : animal) : Z := match k with Cat => 1 | Mouse => 3 end.
Definition SLEEPINGTIME (k : animal) : Z := match k with Cat => 5 | Mouse => 3 end.

(** cat_eat and mouse_eat. *)
Definition eat (k : animal) : list stmt :=
  [ Do CheckNumber;
    Call (CP mutex);
    Do StartEating;
    Call (CV mutex);
    Delay (EATINGTIME k);
    Call (CP mutex);
    Do FinishEating;
    Call (CV mutex) ].

(** One turn of the loops of cat_simulation and mouse_simulation. *)
Definition turn (k : animal) : list stmt :=
  [ Delay (SLEEPINGTIME k);
    Call (CAcquire WaitConditions);
    Do WaitingUp;
    If OthersEating
      [While OthersEating [Wait (other k)]]
      [If MustYield [While MustYield [Wait (other k)]] []];
    Do EatingUp;
    Call (CRelease WaitConditions);
    Call (CP MaxBowlCount);
    Call (CAcquire FreeBlockBowls);
    If AnyFree [Do RemHead] [];
    Call (CRelease FreeBlockBowls);
    Do CheckBowl ] ++
  eat k ++
  [ Call (CAcquire FreeBlockBowls);
    Do AddTail;
    Call (CRelease FreeBlockBowls);
    Call (CAcquire WaitConditions);
    Do CountsDown;
    If NobodyLeft [Broadcast k] [];
    Call (CRelease WaitConditions);
    Call (CV MaxBowlCount);
    Do NextLoop ].

Definition simulation (k : animal) : list stmt := [While Looping (turn k); Call (CV CatMouseWait)].
Definition cat_simulation : list stmt := simulation Cat.
Definition mouse_simulation : list stmt := simulation Mouse.

(** catmouse, once everything is set up. *)
Definition catmouse : list stmt :=
  [ While MoreCats [Fork Cat; Do NextLoop];
    Do ResetIndex;
    While MoreMice [Fork Mouse; Do NextLoop];
    Do ResetIndex;
    While MoreToWait [Call (CP CatMouseWait); Do NextLoop];
    Cleanup ].

Inductive role := Main | Animal (k : animal).
Record thr := Thr { role_of : role; code : list stmt; vars : locals }.

Record cm := Cm { c_s : sstate; c_data : data; c_thr : gmap Z thr; c_next : Z; c_lbolt : Z }.

(** ** Statements *)

Definition ask (k : animal) (b : test) (d : data) (v : locals) : bool :=
  match b with
  | Looping => bool_decide (l_i v < NumLoops d)
  | OthersEating => bool_decide (num (other k) (eating_count d) ≠ 0)
  | MustYield => bool_decide (num k (eating_count d) ≠ 0) && bool_decide (num (other k) (waiting_count d) ≠ 0)
  | AnyFree => negb (q_empty (FreeBowlsList d))
  | NobodyLeft => bool_decide (num k (eating_count d) = 0)
  | MoreCats => bool_decide (l_i v < NumCats d)
  | MoreMice => bool_decide (l_i v < NumMice d)
  | MoreToWait => bool_decide (l_i v < NumCats d + NumMice d)
  end.

Definition letter (k : animal) : Z := match k with Cat => 99 | Mouse => 109 end.
Definition DASH : Z := 45.

(** The bowl of a thread, if it has a value. *)
Definition my_bowl (v : locals) : outcome Z := match l_bowl v with Some b => Ret b | None => Wild end.
Definition bowl_at (d : data) (b : Z) : outcome Z := match bowls d !! Z.to_nat (b - 1) with Some c => Ret c | None => Wild end.

Definition start_eating (k : animal) (d : data) (v : locals) : outcome data :=
  b ← my_bowl v;
  c ← bowl_at d b;
  if bool_decide (c = letter k) then Panic
  else if bool_decide (num (other k) (bowl_eating_count d) > 0) then Panic
  else
    c_assert (bool_decide (c = DASH));;
    c_assert (bool_decide (num (other k) (bowl_eating_count d) = 0));;
    Ret (set_bowls (<[Z.to_nat (b - 1) := letter k]> (bowls d)) (plus k 1 (bowl_eating_count d)) d).

Definition finish_eating (k : animal) (d : data) (v : locals) : outcome data :=
  b ← my_bowl v;
  c ← bowl_at d b;
  c_assert (bool_decide (num k (bowl_eating_count d) > 0));;
  c_assert (bool_decide (c = letter k));;
  Ret (set_bowls (<[Z.to_nat (b - 1) := DASH]> (bowls d)) (plus k (-1) (bowl_eating_count d)) d).

Definition act (km : Z → bool) (k : animal) (a : action) (d : data) (v : locals) : outcome (data * locals) :=
  match a with
  | WaitingUp => Ret (set_counts (eating_count d) (plus k 1 (waiting_count d)) d, v)
  | EatingUp => Ret (set_counts (plus k 1 (eating_count d)) (waiting_count d) d, v)
  | RemHead => '(q, b) ← q_remhead (FreeBowlsList d); Ret (set_free q d, Locals (l_i v) (Some b))
  | CheckBowl =>
      b ← my_bowl v;
      c_assert (bool_decide (1 ≤ b));;
      c_assert (bool_decide (b ≤ NumBowls d));;
      Ret (d, v)
  | CheckNumber =>
      b ← my_bowl v;
      if bool_decide (b = 0) || bool_decide (num_bowls d < s32 b) then Panic else Ret (d, v)
  | StartEating => d ← start_eating k d v; Ret (d, v)
  | FinishEating => d ← finish_eating k d v; Ret (d, v)
  | AddTail => b ← my_bowl v; '(q, _) ← q_addtail km (FreeBowlsList d) b; Ret (set_free q d, v)
  | CountsDown => Ret (set_counts (plus k (-1) (eating_count d)) (plus k (-1) (waiting_count d)) d, v)
  | NextLoop => Ret (d, Locals (s32 (l_i v + 1)) (l_bowl v))
  | ResetIndex => Ret (d, Locals 0 (l_bowl v))
  end.

(** *** The end of catmouse *)

Definition empty_queue (q : queue Z) : outcome (queue Z) :=
  while_loop (Z.to_nat (q_size q)) (λ q, negb (q_empty q)) (λ q, '(q, _) ← q_remhead q; Ret q) q.

Definition cleanup (d : data) (s : sstate) : outcome (data * sstate) :=
  s ← sem_destroy CatMouseWait s;
  s ← sem_destroy MaxBowlCount s;
  c_assert (bool_decide (cats (cvNone d) ≠ NULL));;
  c_assert (bool_decide (mice (cvNone d) ≠ NULL));;
  s ← lock_destroy FreeBlockBowls s;
  s ← lock_destroy WaitConditions s;
  s ← sem_destroy mutex s;
  q ← empty_queue (FreeBowlsList d);
  q_destroy q;;
  Ret (set_free q d, s).

(** ** Execution *)

Definition set_thr (t : Z) (th : thr) (st : cm) : cm := Cm (c_s st) (c_data st) (<[t := th]> (c_thr st)) (c_next st) (c_lbolt st).
Definition set_s (s : sstate) (st : cm) : cm := Cm s (c_data st) (c_thr st) (c_next st) (c_lbolt st).
Definition set_data (d : data) (st : cm) : cm := Cm (c_s st) d (c_thr st) (c_next st) (c_lbolt st).
Definition kind_of (r : role) : animal := match r with Animal k => k | Main => Cat end.
Definition proceed (th : thr) (rest : list stmt) : thr := Thr (role_of th) rest (vars th).
Definition fork (k : animal) (st : cm) : cm :=
  let t := c_next st in
  let s := set_code t [] (c_s st) in
  Cm (set_sched (ss_cur s) (ss_ready s ++ [t]) (ss_asleep s) (ss_addr s) s) (c_data st) (<[t := Thr (Animal k) (simulation k) (Locals 0 None)]> (c_thr st)) (t + 1) (c_lbolt st).

Definition exec_stmt (km : Z → bool) (t : Z) (th : thr) (x : stmt) (rest : list stmt) (st : cm) : outcome cm :=
  let k := kind_of (role_of th) in
  let d := c_data st in
  let st' := set_thr t (proceed th rest) st in
  let primitive i := '(s, _) ← exec_instr t i [] (c_s st); Ret (set_s s st') in
  match x with
  | Do a => '(d, v) ← act km k a d (vars th); Ret (set_data d (set_thr t (Thr (role_of th) rest v) st))
  | Call i => primitive i
  | Wait k' => primitive (CWait (num k' (cvNone d)) WaitConditions)
  | Broadcast k' => primitive (CBroadcast (num k' (cvNone d)) WaitConditions)
  | Delay n | Delaying n =>
      if bool_decide (0 < n) then Ret (set_s (s_sleep t LBOLT (c_s st)) (set_thr t (proceed th (Delaying (n - 1) :: rest)) st))
      else Ret st'
  | Fork k' => Ret (fork k' st')
  | Cleanup => '(d, s) ← cleanup d (c_s st); Ret (set_data d (set_s s st'))
  | If b p q => Ret (set_thr t (proceed th ((if ask k b d (vars th) then p else q) ++ rest)) st)
  | While b p => Ret (set_thr t (proceed th (if ask k b d (vars th) then p ++ While b p :: rest else rest)) st)
  end.

(** The current thread goes on in the primitive it is in, or with its next
    statement; a thread at its end exits. *)
Definition step (km : Z → bool) (st : cm) : outcome cm :=
  let s := c_s st in
  match ss_cur s with
  | None => Ret (set_s (dispatch s) st)
  | Some t =>
      match ss_code s !! t, c_thr st !! t with
      | Some (i :: k), _ => '(s, _) ← exec_instr t i k s; Ret (set_s s st)
      | Some [], Some th =>
          match code th with
          | [] => Ret (set_s (dispatch s) st)
          | x :: rest => exec_stmt km t th x rest st
          end
      | _, _ => Wild
      end
  end.

(** Is the current thread between two sleeps of clocksleep? *)
Definition in_clocksleep (st : cm) : bool :=
  match ss_cur (c_s st) with
  | Some t => match c_thr st !! t with Some (Thr _ (Delaying _ :: _) _) => true | _ => false end
  | None => false
  end.
Definition interrupts_on (st : cm) : bool := can_interrupt (c_s st) && negb (in_clocksleep st).

(** hardclock: every HZ-th call wakes those who sleep on lbolt; then the current thread yields. *)
Definition cm_hardclock (st : cm) : cm :=
  let n := s32 (c_lbolt st + 1) in
  let '(s, n) := if bool_decide (HZ ≤ n) then (s_wakeup LBOLT (c_s st), 0) else (c_s st, n) in
  Cm (preempt s) (c_data st) (c_thr st) (c_next st) n.

(** What happens next: a step of the current thread, or an interrupt of the clock if
    interrupts are on. *)
Inductive choice := Step | Tick.
Definition choose (km : Z → bool) (c : choice) (st : cm) : outcome cm :=
  match c with
  | Step => step km st
  | Tick => Ret (if interrupts_on st then cm_hardclock st else st)
  end.

Fixpoint run (km : Z → bool) (cs : list choice) (st : cm) : outcome cm :=
  match cs with [] => Ret st | c :: cs => st ← choose km c st; run km cs st end.

(** ** The setup *)

Definition initialize_bowls (ok : nat → bool) (bowlcount : Z) (d : data) (s : sstate) : outcome (result (data * sstate)) :=
  if bool_decide (bowlcount = 0) then Ret (inl 1)
  else if negb (ok 6%nat) then Panic
  else
    let d := Data (NumBowls d) (NumCats d) (NumMice d) (NumLoops d) (cvNone d) (FreeBowlsList d) (eating_count d) (waiting_count d)
      (replicate (Z.to_nat bowlcount) DASH) bowlcount (Both 0 0) in
    '(s, b) ← sem_create (ok 7%nat) true mutex 1 s;
    if (b : bool) then Ret (inr (d, s)) else Panic.

Definition fill_turn (km : Z → bool) (i : Z) (q : queue Z) : outcome (queue Z) := '(q, _) ← q_addtail km q i; Ret q.

(** The thread [t] of the menu is the driver; [lb] is the lbolt counter at that time. *)
Definition catmouse_setup (ok : nat → bool) (km : Z → bool) (nb nc nm nl : Z) (t lb : Z) : outcome cm :=
  let s := SState (Some t) [] [] ∅ {[t := []]} ∅ ∅ in
  '(s, b) ← sem_create (ok 0%nat) true CatMouseWait 0 s;
  if negb b then Panic else
  '(s, b) ← sem_create (ok 1%nat) true MaxBowlCount nb s;
  if negb b then Panic else
  let cvs := Both (if ok 2%nat then cvNoCatsEating else NULL) (if ok 3%nat then cvNoMiceEating else NULL) in
  let '(s, b) := lock_create (ok 4%nat) true FreeBlockBowls s in
  if negb b then Panic else
  let '(s, b) := lock_create (ok 5%nat) true WaitConditions s in
  if negb b then Panic else
  r ← initialize_bowls ok nb (Data nb nc nm nl cvs (Queue 0 0 0 []) (Both 0 0) (Both 0 0) [] 0 (Both 0 0)) s;
  match r with
  | inl _ => Panic
  | inr (d, s) =>
      q ← match q_create (ok 8%nat) (ok 9%nat) nb with Some q => Ret q | None => Wild end;
      q ← for_each (Z.to_nat nb) 1 (fill_turn km) q;
      Ret (Cm s (set_free q d) {[t := Thr Main catmouse (Locals 0 None)]} (t + 1) lb)
  end.

(** The arguments of the menu command. *)
Definition catmouse_start (ok : nat → bool) (km : Z → bool) (args : list (list Z)) (t lb : Z) : outcome (result cm) :=
  match args with
  | [_; a1; a2; a3; a4] =>
      nb ← atoi a1;
      if bool_decide (nb ≤ 0) then Ret (inl 1) else
      nc ← atoi a2;
      if bool_decide (nc < 0) then Ret (inl 1) else
      nm ← atoi a3;
      if bool_decide (nm < 0) then Ret (inl 1) else
      nl ← atoi a4;
      if bool_decide (nl ≤ 0) then Ret (inl 1) else
      st ← catmouse_setup ok km nb nc nm nl t lb; Ret (inr st)
  | _ => Ret (inl 1)
  end.
