(* ===== verification/CatMouseSpec.v ===== *)
(** * The synchronization of catmouse.c

    What a thread of CatMouse.v has left to do determines what it holds: a lock, a place
    at the bowls, a bowl, and which counters count it. [positions] lists the
    places an animal can be at; [ginv] relates the places of all threads to the
    shared variables, the semaphores and the locks. *)

From S2P Require Import Prelude CQueue Thread ThreadSpec Synch CString CatMouse.

(** ** The primitives, seen from a thread of the simulation *)

(** [t] ran a primitive from [s] to [s'] and is now at [pend] in it. *)
Record effect (t : Z) (pend : list instr) (cnt own : gmap Z Z) (s s' : sstate) : Prop := Effect {
  ef_code : ss_code s' = <[t := pend]> (ss_code s);
  ef_count : ss_count s' = cnt;
  ef_owner : ss_owner s' = own;
  ef_threads : all_threads s' ≡ₚ all_threads s;
  ef_asleep : ∀ u, u ∈ ss_asleep s' → u ∈ ss_asleep s ∨ (u = t ∧ pend ≠ [])
}.

(** Pass an assertion that holds. *)
Lemma assert_pass {A} b (f : unit → outcome A) : b = true → c_assert b ≫= f = f ().
Proof. by intros ->. Qed.
Ltac passes := rewrite assert_pass by (apply bool_decide_eq_true_2; done || lia); ostep.

Section effects.
Context (t : Z) (s : sstate) (Hcur : ss_cur s = Some t).

Lemma s_sleep_fields a : ss_code (s_sleep t a s) = ss_code s ∧ ss_count (s_sleep t a s) = ss_count s ∧ ss_owner (s_sleep t a s) = ss_owner s ∧
  all_threads (s_sleep t a s) ≡ₚ all_threads s ∧ ss_asleep (s_sleep t a s) = ss_asleep s ++ [t].
Proof.
  unfold s_sleep, dispatch, all_threads. rewrite Hcur. simpl. destruct (ss_ready s); simpl; split_and!; try done; solve_Permutation.
Qed.

Lemma sleep_effect a pend : pend ≠ [] → effect t pend (ss_count s) (ss_owner s) s (s_sleep t a (set_code t pend s)).
Proof.
  intros Hp. unfold s_sleep, dispatch. split; simpl; try by destruct (ss_ready s).
  - unfold all_threads. rewrite Hcur. simpl. destruct (ss_ready s); simpl; solve_Permutation.
  - intros u. destruct (ss_ready s); simpl; set_solver.
Qed.

Lemma wake_effect a cnt own pend : effect t pend cnt own s (s_wakeup a (SState (ss_cur s) (ss_ready s) (ss_asleep s) (ss_addr s) (<[t := pend]> (ss_code s)) cnt own)).
Proof.
  split; try done.
  - unfold s_wakeup, all_threads. simpl. f_equiv. apply (wake_perm (addr_of s) a (ss_ready s) (ss_asleep s)).
  - simpl. intros u Hu. apply list_elem_of_filter in Hu. tauto.
Qed.

Lemma stay_effect cnt own pend : effect t pend cnt own s (SState (ss_cur s) (ss_ready s) (ss_asleep s) (ss_addr s) (<[t := pend]> (ss_code s)) cnt own).
Proof. split; try done. tauto. Qed.

Lemma P_effect sem : sem ≠ NULL → 0 ≤ count_of s sem → ∃ s' e, P 0 t sem [] s = Ret (s', e) ∧
  (effect t [CPLoop sem] (ss_count s) (ss_owner s) s s' ∨
   0 < count_of s sem ∧ effect t [] (<[sem := count_of s sem - 1]> (ss_count s)) (ss_owner s) s s').
Proof.
  intros Hn Hc. unfold P. do 2 passes. case_bool_decide.
  - do 2 eexists. split; [done|]. left. by apply sleep_effect.
  - passes. do 2 eexists. split; [done|]. right. split; [lia|]. apply stay_effect.
Qed.

Lemma V_effect sem : sem ≠ NULL → 0 ≤ count_of s sem < 2 ^ 31 - 1 → ∃ s' e, V t sem (set_code t [] s) = Ret (s', e) ∧
  effect t [] (<[sem := count_of s sem + 1]> (ss_count s)) (ss_owner s) s s'.
Proof.
  intros Hn Hc. unfold V. change (count_of (set_code t [] s) sem) with (count_of s sem). rewrite s32_small by lia. do 2 passes.
  do 2 eexists. split; [done|]. apply wake_effect.
Qed.

Lemma acquire_effect l : l ≠ NULL → ∃ s' e, lock_acquire t l [] s = Ret (s', e) ∧
  (effect t [CAcquireLoop l] (ss_count s) (ss_owner s) s s' ∨
   owner_of s l = NULL ∧ effect t [] (ss_count s) (<[l := t]> (ss_owner s)) s s').
Proof.
  intros Hn. unfold lock_acquire. passes. case_bool_decide.
  - do 2 eexists. split; [done|]. left. by apply sleep_effect.
  - do 2 eexists. split; [done|]. right. split; [lia|]. apply stay_effect.
Qed.

Lemma release_effect l : l ≠ NULL → owner_of s l = t → ∃ s' e, lock_release t l (set_code t [] s) = Ret (s', e) ∧
  effect t [] (ss_count s) (<[l := NULL]> (ss_owner s)) s s'.
Proof.
  intros Hn Ho. unfold lock_release, lock_do_i_hold. change (owner_of (set_code t [] s) l) with (owner_of s l). do 2 passes.
  do 2 eexists. split; [done|]. apply wake_effect.
Qed.

Lemma wait_effect cv l : cv ≠ NULL → l ≠ NULL → owner_of s l = t → ∃ s' e, cv_wait 0 t cv l [] s = Ret (s', e) ∧
  effect t [CWaitSleep cv l] (ss_count s) (<[l := NULL]> (ss_owner s)) s s'.
Proof.
  intros Hv Hl Ho. unfold cv_wait, lock_release, lock_do_i_hold. do 6 passes.
  do 2 eexists. split; [done|]. apply (wake_effect l).
Qed.

Lemma broadcast_effect cv l : cv ≠ NULL → l ≠ NULL → owner_of s l = t → ∃ s' e, cv_broadcast t cv l (set_code t [] s) = Ret (s', e) ∧
  effect t [] (ss_count s) (ss_owner s) s s'.
Proof.
  intros Hv Hl Ho. unfold cv_broadcast, lock_do_i_hold. change (owner_of (set_code t [] s) l) with (owner_of s l). do 3 passes.
  do 2 eexists. split; [done|]. apply wake_effect.
Qed.
End effects.

(** ** Where a thread is *)

(** A thread inside a primitive still has the primitive to do; one that waits on a
    condition variable, to get its lock back. *)
Definition pending (k : list instr) : list stmt :=
  match k with
  | CPLoop s :: _ => [Call (CP s)]
  | CAcquireLoop l :: _ | CWaitSleep _ l :: _ | CWaitWoken l :: _ => [Call (CAcquire l)]
  | _ => []
  end.
Record view := View { v_role : role; v_left : list stmt; v_vars : locals }.
Definition view_of (k : list instr) (th : thr) : view := View (role_of th) (pending k ++ code th) (vars th).

(** *** What it holds

    A mark says of a statement whether it takes something ([Some false]: until here the
    thread does not have it) or gives it up. *)
Definition mark := stmt → option bool.
Definition at_addr (a a' : Z) (b : bool) : option bool := if bool_decide (a = a') then Some b else None.
Definition on_lock (l : Z) : mark := λ x,
  match x with
  | Call (CAcquire l') => at_addr l l' false
  | Call (CRelease l') => at_addr l l' true
  | Wait _ => at_addr l WaitConditions true
  | _ => None
  end.
Definition on_sem (s : Z) : mark := λ x,
  match x with Call (CP s') => at_addr s s' false | Call (CV s') => at_addr s s' true | _ => None end.
Definition on_bowl : mark := λ x,
  match x with If AnyFree _ _ | Do RemHead => Some false | Do AddTail => Some true | _ => None end.
Definition on_table : mark := λ x,
  match x with Do StartEating => Some false | Do FinishEating => Some true | _ => None end.
Definition on_wait : mark := λ x,
  match x with Do WaitingUp => Some false | Do CountsDown => Some true | _ => None end.
Definition on_eat : mark := λ x,
  match x with Do EatingUp => Some false | Do CountsDown => Some true | _ => None end.

Fixpoint flag (m : mark) (c : list stmt) : bool :=
  match c with [] => false | x :: c => match m x with Some b => b | None => flag m c end end.
Definition toggles (m : mark) (x : stmt) : bool :=
  match x with If _ _ _ => false | _ => match m x with Some _ => true | None => false end end.

Definition marks : list mark :=
  [on_lock WaitConditions; on_lock FreeBlockBowls; on_sem MaxBowlCount; on_sem mutex; on_sem CatMouseWait; on_bowl; on_table; on_wait; on_eat].

(** *** The places *)

Definition succs (c : list stmt) : list (list stmt) :=
  match c with
  | [] => []
  | Wait _ :: c => [Call (CAcquire WaitConditions) :: c]
  | (Delay n | Delaying n) :: c => if bool_decide (0 < n) then [Delaying (n - 1) :: c] else [c]
  | If AnyFree p _ :: c => [p ++ c]
  | If _ p q :: c => [p ++ c; q ++ c]
  | While b p :: c => [p ++ While b p :: c; c]
  | _ :: c => [c]
  end.

(** The code a piece of code goes through, before [rest]. *)
Fixpoint spots (fuel : nat) (p rest : list stmt) : list (list stmt) :=
  match fuel with
  | O => []
  | S fuel =>
      match p with
      | [] => []
      | x :: p =>
          let rest' := p ++ rest in
          (match x with
           | Delay n => (x :: rest') :: ((λ i, Delaying i :: rest') <$> seqZ 0 n)
           | If _ q r => (x :: rest') :: spots fuel q rest' ++ spots fuel r rest'
           | While _ q => (x :: rest') :: spots fuel q (x :: rest')
           | Wait _ => [x :: rest'; Call (CAcquire WaitConditions) :: rest']
           | _ => [x :: rest']
           end) ++ spots fuel p rest
      end
  end.
Definition positions (k : animal) : list (list stmt) := spots 40 (simulation k) [] ++ [[]].

(** *** What holds at every place *)

(** The loop of an animal: at its head, inside or past it. *)
Inductive lap := AtHead | Inside | Past.
#[export] Instance lap_eq_dec : EqDecision lap.
Proof. solve_decision. Defined.
Definition lap_of (c : list stmt) : lap :=
  match c with While Looping _ :: _ => AtHead | [] | [_] => Past | _ => Inside end.

Definition locked (l : Z) (c : list stmt) : bool := flag (on_lock l) c.
Definition allowed (c : list stmt) : bool :=
  match c with
  | [] => true
  | Do a :: _ =>
      match a with
      | WaitingUp | EatingUp | CountsDown => locked WaitConditions c
      | RemHead => locked FreeBlockBowls c && flag (on_sem MaxBowlCount) c
      | AddTail => locked FreeBlockBowls c
      | StartEating | FinishEating => flag (on_sem mutex) c && flag on_bowl c
      | CheckBowl | CheckNumber => flag on_bowl c
      | NextLoop => true
      | ResetIndex => false
      end
  | While Looping q :: r => bool_decide (lap_of (q ++ c) = Inside) && bool_decide (lap_of r = Past)
  | If b _ _ :: _ | While b _ :: _ =>
      match b with
      | OthersEating | MustYield | NobodyLeft => locked WaitConditions c
      | AnyFree => locked FreeBlockBowls c && flag (on_sem MaxBowlCount) c
      | _ => false
      end
  | Wait _ :: _ | Broadcast _ :: _ => locked WaitConditions c
  | Call (CP s) :: _ => bool_decide (s = MaxBowlCount ∨ s = mutex)
  | Call (CV s) :: _ => bool_decide (s = MaxBowlCount ∨ s = mutex ∨ s = CatMouseWait)
  | Call (CAcquire l) :: _ | Call (CRelease l) :: _ => bool_decide (l = WaitConditions ∨ l = FreeBlockBowls)
  | (Delay _ | Delaying _) :: _ => true
  | _ => false
  end.
Definition ordered (c : list stmt) : bool :=
  implb (flag on_bowl c) (flag (on_sem MaxBowlCount) c) && implb (flag on_table c) (flag on_bowl c) &&
  forallb (λ m, implb (flag m c) (flag (on_sem CatMouseWait) c)) marks &&
  eqb (flag (on_sem CatMouseWait) c) (match c with [] => false | _ => true end).
Definition marked (c : list stmt) : bool :=
  match c with
  | [] => true
  | x :: _ => forallb (λ c',
      forallb (λ m, eqb (flag m c') (xorb (toggles m x) (flag m c))) marks &&
      match x with
      | While Looping _ => true
      | Do NextLoop => bool_decide (lap_of c' = AtHead)
      | _ => bool_decide (lap_of c' = lap_of c)
      end) (succs c)
  end.

Lemma positions_sane k c : c ∈ positions k → allowed c && ordered c && marked c = true.
Proof.
  intros Hc. assert (Hall : forallb (λ c, allowed c && ordered c && marked c) (positions k) = true) by (destruct k; reflexivity).
  rewrite forallb_forall in Hall. apply Hall. by apply list_elem_of_In.
Qed.

#[export] Instance instr_eq_dec : EqDecision instr.
Proof. solve_decision. Defined.
#[export] Instance action_eq_dec : EqDecision action.
Proof. solve_decision. Defined.
#[export] Instance test_eq_dec : EqDecision test.
Proof. solve_decision. Defined.

Fixpoint stmt_eqb (x y : stmt) {struct x} : bool :=
  let fix eqs (p q : list stmt) : bool :=
    match p, q with [], [] => true | a :: p, b :: q => stmt_eqb a b && eqs p q | _, _ => false end in
  match x, y with
  | Do a, Do b => bool_decide (a = b)
  | Call i, Call j => bool_decide (i = j)
  | Wait k, Wait k' | Broadcast k, Broadcast k' | Fork k, Fork k' => bool_decide (k = k')
  | Delay n, Delay m | Delaying n, Delaying m => bool_decide (n = m)
  | Cleanup, Cleanup => true
  | If b p q, If b' p' q' => bool_decide (b = b') && eqs p p' && eqs q q'
  | While b p, While b' p' => bool_decide (b = b') && eqs p p'
  | _, _ => false
  end.
Definition code_eqb (p q : list stmt) : bool := forallb (λ c, stmt_eqb c.1 c.2) (zip p q) && bool_decide (length p = length q).

Lemma stmt_eqb_ok : ∀ x y, stmt_eqb x y = true → x = y.
Proof.
  fix IH 1. intros x y. set (eqs := fix eqs (p q : list stmt) : bool :=
    match p, q with [], [] => true | a :: p, b :: q => stmt_eqb a b && eqs p q | _, _ => false end).
  assert (Heqs : ∀ p q, eqs p q = true → p = q).
  { fix IHp 1. intros [|a p] [|b q]; try done. simpl. rewrite andb_true_iff. intros [Hab Hpq]. f_equal; [by apply IH|by apply IHp]. }
  destruct x, y; try done; clear IH; simpl; fold eqs; rewrite ?andb_true_iff, ?bool_decide_eq_true;
    intros; destruct_and?; f_equal; auto.
Qed.
Lemma code_eqb_ok p q : code_eqb p q = true → p = q.
Proof.
  unfold code_eqb. rewrite andb_true_iff, bool_decide_eq_true. revert q. induction p as [|a p IH]; intros [|b q]; [done|by intros [_ ?]..|].
  simpl. rewrite andb_true_iff. intros [[H1 H2] H3]. f_equal; [by apply stmt_eqb_ok|]. apply IH. auto with lia.
Qed.

Definition closed (l : list (list stmt)) : bool := forallb (λ c, forallb (λ c', existsb (code_eqb c') l) (succs c)) l.
Lemma closed_ok l c c' : closed l = true → c ∈ l → c' ∈ succs c → c' ∈ l.
Proof.
  unfold closed. rewrite forallb_forall, !list_elem_of_In. intros Hall Hc Hc'. specialize (Hall c Hc). rewrite forallb_forall in Hall.
  apply Hall, existsb_exists in Hc' as (q & Hq & Heq). apply code_eqb_ok in Heq. by rewrite Heq.
Qed.
Lemma positions_closed k c c' : c ∈ positions k → c' ∈ succs c → c' ∈ positions k.
Proof. apply closed_ok. destruct k; vm_compute; reflexivity. Qed.

(** ** The invariant *)

#[export] Instance role_eq_dec : EqDecision role.
Proof. solve_decision. Defined.

Definition is_kind (k : animal) (v : view) : bool := bool_decide (v_role v = Animal k).
Definition having (m : mark) (v : view) : bool := flag m (v_left v).
Definition tally (f : view → bool) (vs : list view) : Z := foldr (λ v n, Z.b2z (f v) + n) 0 vs.
Definition number (k : animal) (m : mark) (vs : list view) : Z := tally (λ v, is_kind k v && having m v) vs.
Definition bowl_held (v : view) : option Z := if having on_bowl v then l_bowl (v_vars v) else None.

Record params := Params { p_bowls : Z; p_cats : Z; p_mice : Z; p_loops : Z; p_main : Z }.
Record params_ok (p : params) : Prop := {
  pk_bowls : 1 ≤ p_bowls p ≤ 2 ^ 28 - 2;
  pk_cats : 0 ≤ p_cats p;
  pk_mice : 0 ≤ p_mice p;
  pk_all : p_cats p + p_mice p < 2 ^ 31 - 1;
  pk_loops : 0 < p_loops p < 2 ^ 31;
  pk_main : 0 < p_main p
}.

(** The driver has forked [c] cats and [m] mice and waited_for for [w] of them. *)
Inductive driver (p : params) : list stmt → Z → Z → Z → Z → Prop :=
| D_cats i : 0 ≤ i ≤ p_cats p → driver p catmouse i i 0 0
| D_fork_cat i : 0 ≤ i < p_cats p → driver p (Fork Cat :: Do NextLoop :: catmouse) i i 0 0
| D_next_cat i : 0 ≤ i < p_cats p → driver p (Do NextLoop :: catmouse) i (i + 1) 0 0
| D_all_cats i : driver p (drop 1 catmouse) i (p_cats p) 0 0
| D_mice i : 0 ≤ i ≤ p_mice p → driver p (drop 2 catmouse) i (p_cats p) i 0
| D_fork_mouse i : 0 ≤ i < p_mice p → driver p (Fork Mouse :: Do NextLoop :: drop 2 catmouse) i (p_cats p) i 0
| D_next_mouse i : 0 ≤ i < p_mice p → driver p (Do NextLoop :: drop 2 catmouse) i (p_cats p) (i + 1) 0
| D_all_mice i : driver p (drop 3 catmouse) i (p_cats p) (p_mice p) 0
| D_wait i : 0 ≤ i ≤ p_cats p + p_mice p → driver p (drop 4 catmouse) i (p_cats p) (p_mice p) i
| D_P i : 0 ≤ i < p_cats p + p_mice p → driver p (Call (CP CatMouseWait) :: Do NextLoop :: drop 4 catmouse) i (p_cats p) (p_mice p) i
| D_next i : 0 ≤ i < p_cats p + p_mice p → driver p (Do NextLoop :: drop 4 catmouse) i (p_cats p) (p_mice p) (i + 1)
| D_cleanup i : driver p [Cleanup] i (p_cats p) (p_mice p) (p_cats p + p_mice p).

Definition laps_ok (p : params) (v : view) : Prop :=
  match lap_of (v_left v) with
  | AtHead => 0 ≤ l_i (v_vars v) ≤ p_loops p
  | Inside => 0 ≤ l_i (v_vars v) < p_loops p
  | Past => l_i (v_vars v) = p_loops p
  end.
Definition animal_ok (p : params) (v : view) : Prop :=
  ∃ k, v_role v = Animal k ∧ v_left v ∈ positions k ∧ laps_ok p v.

Record consts (p : params) (d : data) : Prop := {
  co_bowls : NumBowls d = p_bowls p;
  co_cats : NumCats d = p_cats p;
  co_mice : NumMice d = p_mice p;
  co_loops : NumLoops d = p_loops p;
  co_num : num_bowls d = p_bowls p;
  co_cvs : cvNone d = Both cvNoCatsEating cvNoMiceEating
}.

(** The counters count. *)
Record counters (p : params) (d : data) (cnt : Z → Z) (vs : list view) : Prop := {
  ct_eating : ∀ k, num k (eating_count d) = number k on_eat vs;
  ct_waiting : ∀ k, num k (waiting_count d) = number k on_wait vs;
  ct_table : ∀ k, num k (bowl_eating_count d) = number k on_table vs;
  ct_bowls : cnt MaxBowlCount + tally (having (on_sem MaxBowlCount)) vs = p_bowls p;
  ct_mutex : cnt mutex + tally (having (on_sem mutex)) vs = 1;
  ct_nonneg : ∀ s, 0 ≤ cnt s
}.

(** A lock is held by the thread that is inside. *)
Definition owner_ok (p : params) (own : Z → Z) (vs : list view) (l : Z) : Prop :=
  (∀ i v, vs !! i = Some v → (having (on_lock l) v = true ↔ own l = p_main p + Z.of_nat i)) ∧
  (own l = NULL ∨ ∃ i v, vs !! i = Some v ∧ own l = p_main p + Z.of_nat i).
Definition owners (p : params) (own : Z → Z) (vs : list view) : Prop :=
  owner_ok p own vs WaitConditions ∧ owner_ok p own vs FreeBlockBowls.

(** Every bowl is free or somebody's; the array shows who eats where. *)
Record tables (p : params) (d : data) (vs : list view) : Prop := {
  tb_queue : ∃ l, qrepr (FreeBowlsList d) l ∧ p_bowls p < q_size (FreeBowlsList d) ∧ l ++ omap bowl_held vs ≡ₚ seqZ 1 (p_bowls p);
  tb_bowl : ∀ v, v ∈ vs → having on_bowl v = true → ∃ b, l_bowl (v_vars v) = Some b;
  tb_len : len (bowls d) = p_bowls p;
  tb_full : ∀ v, v ∈ vs → having on_table v = true → ∃ k b, v_role v = Animal k ∧ l_bowl (v_vars v) = Some b ∧
    bowls d !! Z.to_nat (b - 1) = Some (letter k);
  tb_dash : ∀ b c, 1 ≤ b → bowls d !! Z.to_nat (b - 1) = Some c → c = DASH ∨
    ∃ v, v ∈ vs ∧ having on_table v = true ∧ l_bowl (v_vars v) = Some b
}.

Definition waited_for (cnt : Z → Z) (vs : list view) : Z := len vs - 1 - tally (having (on_sem CatMouseWait)) vs - cnt CatMouseWait.
Record places (p : params) (cnt : Z → Z) (vs : list view) : Prop := {
  pl_main : ∃ v, vs !! 0%nat = Some v ∧ v_role v = Main ∧
    driver p (v_left v) (l_i (v_vars v)) (tally (is_kind Cat) vs) (tally (is_kind Mouse) vs) (waited_for cnt vs);
  pl_animals : ∀ i v, vs !! S i = Some v → animal_ok p v
}.

Record ginv (p : params) (d : data) (cnt own : Z → Z) (vs : list view) : Prop := {
  gi_consts : consts p d;
  gi_counters : counters p d cnt vs;
  gi_owners : owners p own vs;
  gi_tables : tables p d vs;
  gi_places : places p cnt vs
}.
