(* ===== verification/CatMouseSteps.v ===== *)
(** * The steps of the cats, the mice and their driver

    Every step of CatMouse.v keeps the invariant [ginv] of CatMouseSpec.v: the counters
    move with the marks a statement sets, the locks change hands only when free, and a
    bowl goes from the queue to an animal and back. *)

From S2P Require Import Prelude CQueue Thread ThreadSpec Synch CString CatMouse CatMouseSpec.

(** ** Tallies *)

Lemma tally_insert f (vs : list view) i v v' : vs !! i = Some v →
  tally f (<[i := v']> vs) = tally f vs - Z.b2z (f v) + Z.b2z (f v').
Proof.
  revert i. induction vs as [|w vs IH]; intros [|i] Hi; simplify_eq/=; [lia|]. rewrite (IH i Hi). lia.
Qed.
Lemma tally_app f vs ws : tally f (vs ++ ws) = tally f vs + tally f ws.
Proof. induction vs as [|v vs IH]; simpl; lia. Qed.
Lemma tally_le f g (vs : list view) : (∀ v, v ∈ vs → f v = true → g v = true) → tally f vs ≤ tally g vs.
Proof.
  induction vs as [|v vs IH]; simpl; [lia|]. intros H. specialize (IH ltac:(set_solver)). specialize (H v ltac:(set_solver)).
  destruct (f v), (g v); simpl; naive_solver lia.
Qed.
Lemma tally_bounds f (vs : list view) : 0 ≤ tally f vs ≤ len vs.
Proof. induction vs as [|v vs IH]; simpl; [lia|]. destruct (f v); simpl; lia. Qed.
Lemma tally_lt f g (vs : list view) v : (∀ v, v ∈ vs → f v = true → g v = true) → v ∈ vs → f v = false → g v = true →
  tally f vs < tally g vs.
Proof.
  intros H Hv Hf Hg. induction vs as [|w vs IH]; [set_solver|]. simpl.
  assert (Hle : tally f vs ≤ tally g vs) by (apply tally_le; set_solver).
  apply elem_of_cons in Hv as [<-|Hv]; [rewrite Hf, Hg; simpl; lia|].
  specialize (IH ltac:(set_solver) Hv). specialize (H w ltac:(set_solver)). destruct (f w), (g w); simpl; naive_solver lia.
Qed.
Lemma tally_none f (vs : list view) v : tally f vs = 0 → v ∈ vs → f v = false.
Proof.
  induction vs as [|w vs IH]; [set_solver|]. simpl. pose proof (tally_bounds f vs). intros H0 [->|Hv]%elem_of_cons.
  - destruct (f w); simpl in *; lia.
  - apply IH; [|done]. destruct (f w); simpl in *; lia.
Qed.
Lemma tally_all f (vs : list view) v : tally f vs = len vs → v ∈ vs → f v = true.
Proof.
  induction vs as [|w vs IH]; [set_solver|]. simpl. pose proof (tally_bounds f vs). intros H0 [->|Hv]%elem_of_cons.
  - destruct (f w); simpl in *; lia.
  - apply IH; [|done]. destruct (f w); simpl in *; lia.
Qed.
Lemma tally_false f (vs : list view) : (∀ v, v ∈ vs → f v = false) → tally f vs = 0.
Proof. induction vs as [|v vs IH]; simpl; intros H; [done|]. rewrite H, IH by set_solver. done. Qed.

(** ** How many animals there are *)

Lemma kinds_total (vs : list view) : (∀ v, v ∈ vs → ∃ k, v_role v = Animal k) → tally (is_kind Cat) vs + tally (is_kind Mouse) vs = len vs.
Proof.
  induction vs as [|v vs IH]; simpl; intros H; [lia|]. specialize (IH ltac:(set_solver)). destruct (H v ltac:(set_solver)) as [k Hk].
  unfold is_kind at 1 3. rewrite Hk. destruct k; simpl; lia.
Qed.
Lemma animals_total p cnt vs : places p cnt vs → tally (is_kind Cat) vs + tally (is_kind Mouse) vs = len vs - 1.
Proof.
  intros [(v & Hv & Hr & _) Ha]. destruct vs as [|w vs]; [done|]. injection Hv as ->. simpl.
  assert (Hk : tally (is_kind Cat) vs + tally (is_kind Mouse) vs = len vs).
  { apply kinds_total. intros u [i Hu]%list_elem_of_lookup. destruct (Ha i u Hu) as (k & ? & _). eauto. }
  assert (∀ k, is_kind k v = false) as Hf by (intros k; unfold is_kind; by rewrite Hr). rewrite !Hf. simpl. lia.
Qed.
Lemma driver_bounds p c i nc nm w : params_ok p → driver p c i nc nm w → 0 ≤ nc ≤ p_cats p ∧ 0 ≤ nm ≤ p_mice p ∧ 0 ≤ w.
Proof. intros [] []; lia. Qed.
Lemma threads_bound p cnt vs : params_ok p → places p cnt vs → len vs ≤ p_cats p + p_mice p + 1.
Proof.
  intros Hp H. pose proof (animals_total p cnt vs H). destruct H as [(v & Hv & _ & Hd) _]. apply driver_bounds in Hd; [|done]. lia.
Qed.

(** ** One step of an animal *)

Definition delta (m : mark) (x : stmt) : Z := if toggles m x then match m x with Some true => -1 | _ => 1 end else 0.
Definition bump (k : animal) (n : Z) (b : both) : both := if decide (n = 0) then b else plus k n b.

Lemma num_plus k k' n b : num k' (plus k n b) = if decide (k' = k) then s32 (num k b + n) else num k' b.
Proof. by destruct k, k'. Qed.
Lemma num_bump k k' n b : - 2 ^ 31 ≤ num k b + n < 2 ^ 31 → - 2 ^ 31 ≤ num k b < 2 ^ 31 →
  num k' (bump k n b) = num k' b + if decide (k' = k) then n else 0.
Proof.
  intros. unfold bump. destruct (decide (n = 0)) as [->|]; [case_decide; lia|]. rewrite num_plus. case_decide; [|lia]. subst. by apply s32_small.
Qed.

Lemma omap_insert {A} (f : A → option Z) (l : list A) i x y : l !! i = Some x →
  omap f (<[i := y]> l) ≡ₚ oconst (f y) ++ omap f (take i l ++ drop (S i) l) ∧ omap f l ≡ₚ oconst (f x) ++ omap f (take i l ++ drop (S i) l).
Proof.
  intros Hi. rewrite insert_take_drop by (by eapply lookup_lt_Some). split; [|rewrite <- (take_drop_middle l i x Hi) at 1];
    rewrite !omap_app; simpl; change (list_omap A Z f) with (omap (M := list) f); [destruct (f y)|destruct (f x)]; simpl;
    try (by rewrite <- Permutation_middle); done.
Qed.

Lemma omap_lookup_inj {A} (f : A → option Z) (l : list A) i j x y b : NoDup (omap f l) → l !! i = Some x → l !! j = Some y →
  f x = Some b → f y = Some b → i = j.
Proof.
  intros Hnd Hi Hj Hx Hy. destruct (decide (i = j)) as [|Hne]; [done|]. destruct (omap_insert f l i x x Hi) as [_ E].
  rewrite E, Hx in Hnd. simpl in Hnd. apply NoDup_cons in Hnd as [Hnot _]. destruct Hnot. apply list_elem_of_omap. exists y. split; [|done].
  rewrite <- delete_take_drop. apply list_elem_of_lookup. destruct (decide (j < i)%nat).
  - exists j. by rewrite list_lookup_delete_lt.
  - exists (pred j). rewrite list_lookup_delete_ge by lia. by replace (S (pred j)) with j by lia.
Qed.

(** ** What the places say of everybody *)

Lemma driver_flags p c i nc nm w m : driver p c i nc nm w → m ∈ marks → flag m c = false.
Proof.
  intros Hd Hm. assert (Hall : Forall (λ m, flag m c = false) marks) by (destruct Hd; repeat constructor).
  rewrite Forall_forall in Hall. by apply Hall.
Qed.

Lemma held_count ws : (∀ v, v ∈ ws → having on_bowl v = true → ∃ b, l_bowl (v_vars v) = Some b) →
  len (omap bowl_held ws) = tally (having on_bowl) ws.
Proof.
  induction ws as [|v ws IH]; intros H; [done|]. specialize (IH ltac:(set_solver)). specialize (H v ltac:(set_solver)).
  cbn [omap list_omap tally foldr]. change (list_omap view Z bowl_held) with (omap (M := list) bowl_held).
  change (foldr _ 0 ws) with (tally (having on_bowl) ws). unfold bowl_held at 1.
  destruct (having on_bowl v); simpl; [|done]. destruct (H eq_refl) as [b ->]. cbn [length]. lia.
Qed.

Section everybody.
Context (p : params) (Hp : params_ok p) (d : data) (cnt own : Z → Z) (vs : list view) (G : ginv p d cnt own vs).

Lemma everybody v : v ∈ vs → (v_role v = Main ∧ ∀ m, m ∈ marks → having m v = false) ∨ animal_ok p v.
Proof using Hp G.
  intros [[|i] Hv]%list_elem_of_lookup; destruct (gi_places _ _ _ _ _ G) as [(v0 & Hv0 & Hr & Hd) Ha]; [left|right; eauto].
  simplify_eq. split; [done|]. intros m Hm. unfold having. by eapply driver_flags.
Qed.
Lemma animal_ordered v : animal_ok p v → ordered (v_left v) = true.
Proof using Type. intros (k & _ & Hpos & _). pose proof (positions_sane k _ Hpos) as H. rewrite !andb_true_iff in H. tauto. Qed.
Lemma bowl_seat v : v ∈ vs → having on_bowl v = true → having (on_sem MaxBowlCount) v = true.
Proof using Hp G.
  intros Hv Hb. destruct (everybody v Hv) as [[_ Hno]|Ha]; [rewrite Hno in Hb; [done|unfold marks; set_solver]|].
  apply animal_ordered in Ha. unfold ordered, having in *. rewrite Hb in Ha. by destruct (flag (on_sem MaxBowlCount) (v_left v)).
Qed.
Lemma table_bowl v : v ∈ vs → having on_table v = true → having on_bowl v = true.
Proof using Hp G.
  intros Hv Hb. destruct (everybody v Hv) as [[_ Hno]|Ha]; [rewrite Hno in Hb; [done|unfold marks; set_solver]|].
  apply animal_ordered in Ha. unfold ordered, having in *. rewrite Hb in Ha. destruct (flag on_bowl (v_left v)); [done|].
  by rewrite andb_false_r in Ha.
Qed.

Lemma held_some v b : v ∈ vs → having on_bowl v = true → l_bowl (v_vars v) = Some b → 1 ≤ b ≤ p_bowls p.
Proof using Hp G.
  intros Hv Hb Hl. destruct (gi_tables _ _ _ _ _ G) as [(l & _ & _ & Hperm) _ _ _ _].
  assert (Hin : b ∈ seqZ 1 (p_bowls p)); [|apply elem_of_seqZ in Hin; lia]. rewrite <- Hperm. apply elem_of_app. right.
  apply list_elem_of_omap. exists v. split; [done|]. unfold bowl_held. by rewrite Hb.
Qed.
Lemma held_apart i j v w b : vs !! i = Some v → vs !! j = Some w → having on_bowl v = true → having on_bowl w = true →
  l_bowl (v_vars v) = Some b → l_bowl (v_vars w) = Some b → i = j.
Proof using Hp G.
  intros Hi Hj Hv Hw Hb Hb'. destruct (gi_tables _ _ _ _ _ G) as [(l & _ & _ & Hperm) _ _ _ _].
  eapply (omap_lookup_inj bowl_held vs i j v w b); try done; [|unfold bowl_held; by rewrite ?Hv, ?Hw..].
  assert (Hnd : NoDup (l ++ omap bowl_held vs)) by (rewrite Hperm; apply NoDup_seqZ). by apply NoDup_app in Hnd as (_ & _ & ?).
Qed.
Lemma queue_length l : qrepr (FreeBowlsList d) l → l ++ omap bowl_held vs ≡ₚ seqZ 1 (p_bowls p) →
  len l + tally (having on_bowl) vs = p_bowls p.
Proof using Hp G.
  intros _ Hperm%Permutation_length. rewrite length_app, length_seqZ in Hperm. pose proof (pk_bowls _ Hp).
  rewrite <- held_count by apply (tb_bowl _ _ _ (gi_tables _ _ _ _ _ G)). lia.
Qed.
End everybody.

Section move.
Context (p : params) (Hp : params_ok p) (d d' : data) (cnt cnt' own own' : Z → Z) (vs : list view).
Context (i : nat) (v : view) (k : animal) (x : stmt) (rest c' : list stmt) (r' : locals).
Context (G : ginv p d cnt own vs) (Hv : vs !! S i = Some v) (Hk : v_role v = Animal k).
Context (Hleft : v_left v = x :: rest) (Hc' : c' ∈ succs (x :: rest)).
Let v' : view := View (Animal k) c' r'.
Let vs' : list view := <[S i := v']> vs.

Lemma v_pos : x :: rest ∈ positions k.
Proof using Hp G Hv Hk Hleft. destruct (pl_animals _ _ _ (gi_places _ _ _ _ _ G) i v Hv) as (k' & Hk' & Hpos & _). congruence. Qed.
Lemma v_sane : allowed (x :: rest) = true ∧ ordered (x :: rest) = true ∧ marked (x :: rest) = true.
Proof using Hp G Hv Hk Hleft. pose proof (positions_sane k _ v_pos) as H. rewrite !andb_true_iff in H. tauto. Qed.

Lemma having_after m : m ∈ marks → having m v' = xorb (toggles m x) (having m v).
Proof using Hp G Hv Hk Hleft Hc'.
  intros Hm. destruct v_sane as (_ & _ & H). unfold marked in H. rewrite forallb_forall in H. specialize (H c' (proj1 (list_elem_of_In _ _) Hc')).
  apply andb_true_iff in H as [H _]. rewrite forallb_forall in H. specialize (H m (proj1 (list_elem_of_In _ _) Hm)).
  apply eqb_prop in H. unfold having. by rewrite Hleft.
Qed.
Lemma delta_after m : m ∈ marks → Z.b2z (having m v') = Z.b2z (having m v) + delta m x.
Proof using Hp G Hv Hk Hleft Hc'.
  intros Hm. rewrite having_after by done. unfold delta. destruct (toggles m x) eqn:Ht; [|by destruct (having m v)].
  assert (Hx : m x = Some (having m v)).
  { unfold having. rewrite Hleft. unfold toggles in Ht. simpl. destruct (m x); [done|]. by destruct x. }
  rewrite Hx. by destruct (having m v).
Qed.
Lemma tally_after m : m ∈ marks → tally (having m) vs' = tally (having m) vs + delta m x.
Proof using Hp G Hv Hk Hleft Hc'. intros Hm. unfold vs'. rewrite (tally_insert _ _ _ _ _ Hv), delta_after by done. lia. Qed.
Lemma number_after m k' : m ∈ marks → number k' m vs' = number k' m vs + if decide (k' = k) then delta m x else 0.
Proof using Hp G Hv Hk Hleft Hc'.
  intros Hm. unfold number, vs'. rewrite (tally_insert _ _ _ _ _ Hv). pose proof (delta_after m Hm) as Hd.
  unfold is_kind. simpl. rewrite Hk. destruct (decide (k' = k)) as [->|Hne].
  - rewrite bool_decide_eq_true_2 by done. simpl. lia.
  - rewrite bool_decide_eq_false_2 by congruence. simpl. lia.
Qed.
Lemma kinds_after k' : tally (is_kind k') vs' = tally (is_kind k') vs.
Proof using Hv Hk. unfold vs'. rewrite (tally_insert _ _ _ _ _ Hv). unfold is_kind at 2 3. simpl. rewrite Hk. lia. Qed.

Lemma number_range k' m ws : len ws = len vs → 0 ≤ number k' m ws < 2 ^ 31.
Proof using Hp G.
  intros Hl. unfold number. pose proof (tally_bounds (λ v, is_kind k' v && having m v) ws).
  pose proof (threads_bound p cnt vs Hp (gi_places _ _ _ _ _ G)). pose proof (pk_all _ Hp). lia.
Qed.
Lemma number_bump k' m b b' : m ∈ marks → (∀ k', num k' b = number k' m vs) → b' = bump k (delta m x) b →
  num k' b' = number k' m vs'.
Proof using Hp G Hv Hk Hleft Hc'.
  intros Hm Hb ->. assert (Hl : len vs' = len vs) by (unfold vs'; by rewrite length_insert).
  pose proof (number_range k m vs eq_refl). pose proof (number_range k m vs' Hl) as Hr. rewrite number_after in * by done.
  rewrite decide_True in Hr by done. rewrite num_bump; rewrite Hb; try lia. 
Qed.

Lemma counters_move : eating_count d' = bump k (delta on_eat x) (eating_count d) →
  waiting_count d' = bump k (delta on_wait x) (waiting_count d) →
  bowl_eating_count d' = bump k (delta on_table x) (bowl_eating_count d) →
  cnt' MaxBowlCount = cnt MaxBowlCount - delta (on_sem MaxBowlCount) x → cnt' mutex = cnt mutex - delta (on_sem mutex) x →
  (∀ s, 0 ≤ cnt' s) → counters p d' cnt' vs'.
Proof using Hp G Hv Hk Hleft Hc'.
  intros He Hw Ht Hb Hm Hn. destruct (gi_counters _ _ _ _ _ G). split; try done.
  - intros k'. eapply number_bump; eauto. unfold marks. set_solver.
  - intros k'. eapply number_bump; eauto. unfold marks. set_solver.
  - intros k'. eapply number_bump; eauto. unfold marks. set_solver.
  - rewrite tally_after by (unfold marks; set_solver). lia.
  - rewrite tally_after by (unfold marks; set_solver). lia.
Qed.

Lemma moved_lookup j w : vs' !! j = Some w → (j = S i ∧ w = v') ∨ (j ≠ S i ∧ vs !! j = Some w).
Proof using Hv.
  unfold vs'. destruct (decide (j = S i)) as [->|Hne]; [|rewrite list_lookup_insert_ne by done; auto].
  rewrite list_lookup_insert_eq by (by eapply lookup_lt_Some). intros [= <-]. auto.
Qed.
Lemma moved_elem w : w ∈ vs' → w = v' ∨ w ∈ vs.
Proof using Hv.
  intros [j Hj]%list_elem_of_lookup. apply moved_lookup in Hj as [[_ ->]|[_ Hj]]; [by left|right]. by eapply list_elem_of_lookup_2.
Qed.

Lemma moved_in : v' ∈ vs'.
Proof using Hv. eapply list_elem_of_lookup_2, list_lookup_insert_eq. by eapply lookup_lt_Some. Qed.
Lemma stays_elem w : w ∈ vs → w = v ∨ w ∈ vs'.
Proof using Hv.
  intros [j Hj]%list_elem_of_lookup. destruct (decide (j = S i)) as [->|Hne]; [left; congruence|right].
  eapply (list_elem_of_lookup_2 _ j). unfold vs'. by rewrite list_lookup_insert_ne.
Qed.

Lemma places_move : cnt' CatMouseWait = cnt CatMouseWait - delta (on_sem CatMouseWait) x → laps_ok p v' → places p cnt' vs'.
Proof using Hp G Hv Hk Hleft Hc'.
  intros Hcnt Hlaps. destruct (gi_places _ _ _ _ _ G) as [(v0 & Hv0 & Hr & Hd) Ha]. split.
  - exists v0. split; [unfold vs'; by rewrite list_lookup_insert_ne|]. split; [done|]. rewrite !kinds_after.
    replace (waited_for cnt' vs') with (waited_for cnt vs); [done|]. unfold waited_for. rewrite tally_after by (unfold marks; set_solver).
    unfold vs'. rewrite length_insert. lia.
  - intros j w Hj. apply moved_lookup in Hj as [[_ ->]|[_ Hj]]; [|by eapply Ha]. exists k. split_and!; try done.
    simpl. eapply positions_closed; [apply v_pos|done].
Qed.

Lemma laps_keep : l_i r' = l_i (v_vars v) → match x with While Looping _ | Do NextLoop => False | _ => True end → laps_ok p v'.
Proof using Hp G Hv Hk Hleft Hc'.
  intros Hi Hx. destruct (pl_animals _ _ _ (gi_places _ _ _ _ _ G) i v Hv) as (k' & _ & _ & Hl).
  destruct v_sane as (_ & _ & H). unfold marked in H. rewrite forallb_forall in H. specialize (H c' (proj1 (list_elem_of_In _ _) Hc')).
  apply andb_true_iff in H as [_ H]. assert (He : lap_of c' = lap_of (x :: rest)).
  { destruct x as [[]| | | | | | | | |[]]; try done; by apply bool_decide_eq_true in H. }
  unfold laps_ok in *. simpl. by rewrite He, Hi, <- Hleft.
Qed.

(** What a statement does to a lock. *)
Definition hands_over (l : Z) : Prop :=
  if toggles (on_lock l) x then
    match on_lock l x with Some false => own l = NULL ∧ own' l = p_main p + Z.of_nat (S i) | _ => own' l = NULL end
  else own' l = own l.

Lemma owner_move l : on_lock l ∈ marks → hands_over l → owner_ok p own vs l → owner_ok p own' vs' l.
Proof using Hp G Hv Hk Hleft Hc'.
  intros Hm Hh [Ho Hn]. pose proof (having_after _ Hm) as Hv'. pose proof (pk_main _ Hp) as Hpos. pose proof (Ho _ _ Hv) as Hov.
  unfold hands_over in Hh. unfold NULL in *. destruct (toggles (on_lock l) x) eqn:Ht.
  - assert (Hx : on_lock l x = Some (having (on_lock l) v)).
    { unfold having. rewrite Hleft. unfold toggles in Ht. simpl. destruct (on_lock l x); [done|]. by destruct x. }
    rewrite Hx in Hh. destruct (having (on_lock l) v) eqn:Hh0; simpl in Hv'.
    + split; [|by left]. rewrite Hh. intros j w Hj. apply moved_lookup in Hj as [[-> ->]|[Hne Hj]]; [rewrite Hv'; split; [done|lia]|].
      rewrite (Ho _ _ Hj). pose proof (proj1 Hov eq_refl). lia.
    + destruct Hh as [Hold Hnew]. split.
      * intros j w Hj. rewrite Hnew. apply moved_lookup in Hj as [[-> ->]|[Hne Hj]]; [by rewrite Hv'|]. rewrite (Ho _ _ Hj). lia.
      * right. exists (S i), v'. split; [|done]. apply list_lookup_insert_eq. by eapply lookup_lt_Some.
  - rewrite xorb_false_l in Hv'. split.
    + intros j w Hj. rewrite Hh. apply moved_lookup in Hj as [[-> ->]|[Hne Hj]]; [by rewrite Hv'|by apply Ho].
    + rewrite Hh. destruct Hn as [?|(j & w & Hj & ?)]; [by left|right]. exists j.
      assert (is_Some (vs' !! j)) as [w' Hw'] by (apply lookup_lt_is_Some; unfold vs'; rewrite length_insert; by eapply lookup_lt_Some). eauto.
Qed.
Lemma owners_move : hands_over WaitConditions → hands_over FreeBlockBowls → owners p own' vs'.
Proof using Hp G Hv Hk Hleft Hc'.
  intros Hw Hf. destruct (gi_owners _ _ _ _ _ G). split; apply owner_move; try done; unfold marks; set_solver.
Qed.

Lemma tables_keep : toggles on_bowl x = false → toggles on_table x = false → FreeBowlsList d' = FreeBowlsList d → bowls d' = bowls d →
  l_bowl r' = l_bowl (v_vars v) → tables p d' vs'.
Proof using Hp G Hv Hk Hleft Hc'.
  intros Hb Ht Hq Hl Hr. pose proof (having_after on_bowl ltac:(unfold marks; set_solver)) as Hb'.
  pose proof (having_after on_table ltac:(unfold marks; set_solver)) as Ht'. rewrite Hb in Hb'. rewrite Ht in Ht'. rewrite xorb_false_l in *.
  pose proof (list_elem_of_lookup_2 _ _ _ Hv) as Hin. destruct (gi_tables _ _ _ _ _ G) as [Tq Tb Tl Tf Td]. split.
  - destruct Tq as (l & H1 & H2 & H3). exists l. rewrite Hq. split_and!; try done. rewrite <- H3. f_equiv.
    destruct (omap_insert bowl_held vs (S i) v v' Hv) as [E1 E2]. unfold vs'. rewrite E1, E2. unfold bowl_held. simpl. by rewrite Hb', Hr.
  - intros w [->|Hw]%moved_elem; [|by auto]. rewrite Hb'. simpl. rewrite Hr. by apply Tb.
  - by rewrite Hl.
  - intros w [->|Hw]%moved_elem; [|rewrite Hl; by auto]. rewrite Ht', Hl. simpl. rewrite Hr, <- Hk. by apply Tf.
  - rewrite Hl. intros b c Hb1 Hc. destruct (Td b c Hb1 Hc) as [?|(w & [Hw|Hw]%stays_elem & Hwt & Hwb)]; [by left|right..]; [|eauto].
    exists v'. rewrite Ht'. simpl. rewrite Hr, <- Hw. split; [apply moved_in|done].
Qed.

(** *** The bowls *)

Lemma held_after : omap bowl_held vs ≡ₚ oconst (bowl_held v) ++ omap bowl_held (take (S i) vs ++ drop (S (S i)) vs) ∧
  omap bowl_held vs' ≡ₚ oconst (bowl_held v') ++ omap bowl_held (take (S i) vs ++ drop (S (S i)) vs).
Proof using Hv. destruct (omap_insert bowl_held vs (S i) v v' Hv). by split. Qed.
Lemma v_in : v ∈ vs.
Proof using Hv. by eapply list_elem_of_lookup_2. Qed.
Lemma v_not_table : having on_bowl v = false → having on_table v = false.
Proof using Hp G Hv.
  intros Hb. destruct (having on_table v) eqn:Ht; [|done]. pose proof (table_bowl p Hp d cnt own vs G v v_in Ht). congruence.
Qed.
Lemma moved_not_table : having on_bowl v' = false → having on_table v' = false.
Proof using Hp G Hv Hk Hleft Hc'.
  intros Hb. pose proof (positions_closed k _ _ v_pos Hc') as Hpos. pose proof (positions_sane k _ Hpos) as H. rewrite !andb_true_iff in H.
  destruct H as [[_ H] _]. unfold ordered, having in *. simpl in *. rewrite Hb in H. by destruct (flag on_table c'); [rewrite andb_false_r in H|].
Qed.

(** A thread with a seat and without a bowl finds one. *)
Lemma bowl_free : having on_bowl v = false → having (on_sem MaxBowlCount) v = true → ∃ b l, qrepr (FreeBowlsList d) (b :: l) ∧
  p_bowls p < q_size (FreeBowlsList d) ∧ (b :: l) ++ omap bowl_held vs ≡ₚ seqZ 1 (p_bowls p).
Proof using Hp G Hv.
  intros Hb Hs. destruct (tb_queue _ _ _ (gi_tables _ _ _ _ _ G)) as (l & Hq & Hsz & Hperm).
  pose proof (queue_length p Hp d cnt own vs G l Hq Hperm) as Hl.
  pose proof (tally_lt (having on_bowl) (having (on_sem MaxBowlCount)) vs v (bowl_seat p Hp d cnt own vs G) v_in Hb Hs) as Hlt.
  destruct (gi_counters _ _ _ _ _ G) as [_ _ _ Hc _ Hn]. specialize (Hn MaxBowlCount). destruct l as [|b l]; [simpl in Hl; lia|]. eauto.
Qed.

Lemma tables_take b l : x = Do RemHead → having (on_sem MaxBowlCount) v = true →
  qrepr (FreeBowlsList d') l → p_bowls p < q_size (FreeBowlsList d') → (b :: l) ++ omap bowl_held vs ≡ₚ seqZ 1 (p_bowls p) →
  bowls d' = bowls d → l_bowl r' = Some b → tables p d' vs'.
Proof using Hp G Hv Hk Hleft Hc'.
  clear cnt' own'. intros Hx Hs Hq Hsz Hperm Hl Hr. assert (Hb : having on_bowl v = false) by (unfold having; by rewrite Hleft, Hx).
  pose proof (v_not_table Hb) as Ht. pose proof (having_after on_bowl ltac:(unfold marks; set_solver)) as Hb'.
  pose proof (having_after on_table ltac:(unfold marks; set_solver)) as Ht'. rewrite Hb, Hx in Hb'. rewrite Ht, Hx in Ht'. simpl in Hb', Ht'.
  destruct held_after as [E1 E2]. destruct (gi_tables _ _ _ _ _ G) as [_ Tb Tl Tf Td]. split.
  - exists l. split_and!; try done. rewrite <- Hperm, E2, E1. unfold bowl_held at 1 3. rewrite Hb, Hb'. simpl. rewrite Hr. simpl. by rewrite <- Permutation_middle.
  - intros w [->|Hw]%moved_elem; [|by auto]. simpl. eauto.
  - by rewrite Hl.
  - intros w [->|Hw]%moved_elem; [by rewrite Ht'|rewrite Hl; by auto].
  - rewrite Hl. intros b' c Hb1 Hc. destruct (Td b' c Hb1 Hc) as [?|(w & [Hw|Hw]%stays_elem & Hwt & Hwb)]; [by left|right..]; [|eauto]. congruence.
Qed.

Lemma tables_give b l : x = Do AddTail → l_bowl (v_vars v) = Some b → l ++ omap bowl_held vs ≡ₚ seqZ 1 (p_bowls p) →
  qrepr (FreeBowlsList d') (l ++ [b]) → p_bowls p < q_size (FreeBowlsList d') → bowls d' = bowls d → tables p d' vs'.
Proof using Hp G Hv Hk Hleft Hc'.
  clear cnt' own'. intros Hx Hr Hperm Hq Hsz Hl. assert (Hb : having on_bowl v = true) by (unfold having; by rewrite Hleft, Hx).
  pose proof (having_after on_bowl ltac:(unfold marks; set_solver)) as Hb'.
  pose proof (having_after on_table ltac:(unfold marks; set_solver)) as Ht'. rewrite Hb, Hx in Hb'. rewrite Hx in Ht'. simpl in Hb'. rewrite xorb_false_l in Ht'.
  pose proof (moved_not_table Hb') as Hnt. rewrite Hnt in Ht'.
  destruct held_after as [E1 E2]. destruct (gi_tables _ _ _ _ _ G) as [_ Tb Tl Tf Td]. split.
  - exists (l ++ [b]). split_and!; try done. rewrite <- Hperm, E2, E1. unfold bowl_held at 1 3. rewrite Hb, Hb', Hr. simpl. by rewrite <- (assoc_L (++)).
  - intros w [->|Hw]%moved_elem; [by rewrite Hb'|by auto].
  - by rewrite Hl.
  - intros w [->|Hw]%moved_elem; [by rewrite Hnt|rewrite Hl; by auto].
  - rewrite Hl. intros b' c Hb1 Hc. destruct (Td b' c Hb1 Hc) as [?|(w & [Hw|Hw]%stays_elem & Hwt & Hwb)]; [by left|right..]; [|eauto]. congruence.
Qed.

(** Other eating animals eat elsewhere. *)
Lemma eats_elsewhere b j w : having on_bowl v = true → l_bowl (v_vars v) = Some b → vs !! j = Some w → j ≠ S i → having on_table w = true →
  ∃ b', l_bowl (v_vars w) = Some b' ∧ 1 ≤ b' ∧ b' ≠ b.
Proof using Hp G Hv.
  intros Hb Hl Hj Hne Ht. pose proof (list_elem_of_lookup_2 _ _ _ Hj) as Hw. pose proof (table_bowl p Hp d cnt own vs G w Hw Ht) as Hbw.
  destruct (tb_bowl _ _ _ (gi_tables _ _ _ _ _ G) w Hw Hbw) as [b' Hb']. pose proof (held_some p Hp d cnt own vs G w b' Hw Hbw Hb').
  exists b'. split_and!; [done|lia|]. intros ->. by pose proof (held_apart p Hp d cnt own vs G _ _ _ _ b Hj Hv Hbw Hb Hb' Hl).
Qed.
Lemma bowl_dash b : having on_bowl v = true → having on_table v = false → l_bowl (v_vars v) = Some b →
  1 ≤ b ≤ p_bowls p ∧ bowls d !! Z.to_nat (b - 1) = Some DASH.
Proof using Hp G Hv.
  intros Hb Ht Hl. pose proof (held_some p Hp d cnt own vs G v b v_in Hb Hl) as Hr. split; [done|].
  destruct (gi_tables _ _ _ _ _ G) as [_ _ Tl _ Td].
  destruct (lookup_lt_is_Some_2 (bowls d) (Z.to_nat (b - 1))) as [c Hc]; [lia|]. rewrite Hc. f_equal.
  destruct (Td b c) as [?|(w & [j Hj]%list_elem_of_lookup & Hwt & Hwb)]; try done; [lia|].
  destruct (decide (j = S i)) as [->|Hne]; [congruence|]. destruct (eats_elsewhere b j w Hb Hl Hj Hne Hwt) as (b' & Hb' & _ & ?); congruence.
Qed.

Lemma tables_eat b c : having on_bowl v = true → l_bowl (v_vars v) = Some b → 1 ≤ b ≤ p_bowls p →
  toggles on_bowl x = false → toggles on_table x = true → c = (if having on_table v then DASH else letter k) →
  FreeBowlsList d' = FreeBowlsList d → bowls d' = <[Z.to_nat (b - 1) := c]> (bowls d) → l_bowl r' = Some b → tables p d' vs'.
Proof using Hp G Hv Hk Hleft Hc'.
  clear cnt' own'. intros Hb Hl Hbr Htb Htt Hcc Hq Hbs Hr. pose proof (having_after on_bowl ltac:(unfold marks; set_solver)) as Hb'.
  pose proof (having_after on_table ltac:(unfold marks; set_solver)) as Ht'. rewrite Htb, xorb_false_l in Hb'. rewrite Htt, xorb_true_l in Ht'.
  pose proof v_in as Hin. destruct held_after as [E1 E2]. destruct (gi_tables _ _ _ _ _ G) as [(l & H1 & H2 & H3) Tb Tl Tf Td]. split.
  - exists l. rewrite Hq. split_and!; try done. rewrite <- H3, E1, E2. unfold bowl_held at 1 3. simpl. by rewrite Hb', Hr, Hl.
  - intros w [->|Hw]%moved_elem; [simpl; eauto|by auto].
  - by rewrite Hbs, length_insert.
  - intros w [j Hj]%list_elem_of_lookup Hwt. rewrite Hbs. apply moved_lookup in Hj as [[-> ->]|[Hne Hj]].
    + exists k, b. rewrite list_lookup_insert_eq by lia. rewrite Ht' in Hwt. by destruct (having on_table v); simplify_eq/=.
    + destruct (eats_elsewhere b j w Hb Hl Hj Hne Hwt) as (b' & Hb'' & ? & ?).
      destruct (Tf w (list_elem_of_lookup_2 _ _ _ Hj) Hwt) as (kw & b2 & ? & ? & Hlet). simplify_eq. exists kw, b'. rewrite list_lookup_insert_ne by lia. done.
  - intros b' e Hb1. rewrite Hbs. destruct (decide (b' = b)) as [->|Hne].
    + rewrite list_lookup_insert_eq by lia. intros [= <-]. rewrite Hcc. destruct (having on_table v) eqn:E; [by left|right].
      exists v'. split; [apply moved_in|by rewrite Ht'].
    + rewrite list_lookup_insert_ne by lia. intros Hc. destruct (Td b' e Hb1 Hc) as [?|(w & [->|Hw]%stays_elem & Hwt & Hwb)]; [by left|congruence|right; eauto].
Qed.

Lemma ginv_move : consts p d' → eating_count d' = bump k (delta on_eat x) (eating_count d) →
  waiting_count d' = bump k (delta on_wait x) (waiting_count d) →
  bowl_eating_count d' = bump k (delta on_table x) (bowl_eating_count d) →
  (∀ s, s ∈ [MaxBowlCount; mutex; CatMouseWait] → cnt' s = cnt s - delta (on_sem s) x) → (∀ s, 0 ≤ cnt' s) →
  hands_over WaitConditions → hands_over FreeBlockBowls → laps_ok p v' → tables p d' vs' → ginv p d' cnt' own' vs'.
Proof using Hp G Hv Hk Hleft Hc'.
  intros Hco He Hw Ht Hs Hn Hh1 Hh2 Hl Htb. split; [done|apply counters_move; try done; apply Hs; set_solver|by apply owners_move|done|].
  apply places_move; [|done]. apply Hs. set_solver.
Qed.
End move.

(** ** The threads of a state *)

Definition paused (k : list instr) : Prop :=
  match k with [] | [CPLoop _] | [CAcquireLoop _] | [CWaitSleep _ _] | [CWaitWoken _] => True | _ => False end.
Definition slot_of (st : cm) (t : Z) : view :=
  view_of (default [] (ss_code (c_s st) !! t)) (default (Thr Main [] (Locals 0 None)) (c_thr st !! t)).
Definition views (p : params) (st : cm) : list view := slot_of st <$> seqZ (p_main p) (c_next st - p_main p).

Record sched (p : params) (st : cm) : Prop := {
  sd_next : p_main p < c_next st;
  sd_nodup : NoDup (all_threads (c_s st));
  sd_range : ∀ t, t ∈ all_threads (c_s st) → p_main p ≤ t < c_next st;
  sd_code : ∀ t, p_main p ≤ t < c_next st → ∃ k th, ss_code (c_s st) !! t = Some k ∧ c_thr st !! t = Some th ∧ paused k;
  sd_asleep : ∀ t, t ∈ ss_asleep (c_s st) → v_left (slot_of st t) ≠ []
}.
Definition live (p : params) (st : cm) : Prop :=
  sched p st ∧ ginv p (c_data st) (count_of (c_s st)) (owner_of (c_s st)) (views p st).

Lemma views_lookup p st i v : views p st !! i = Some v ↔ p_main p + Z.of_nat i < c_next st ∧ v = slot_of st (p_main p + Z.of_nat i).
Proof.
  unfold views. rewrite list_lookup_fmap_Some. split.
  - intros (t & -> & Ht). apply lookup_seqZ in Ht as [-> ?]. split; [lia|done].
  - intros [? ->]. eexists. split; [done|]. apply lookup_seqZ. lia.
Qed.
Lemma views_update p st st' i : c_next st' = c_next st → (∀ u, u ≠ p_main p + Z.of_nat i → slot_of st' u = slot_of st u) →
  views p st' = <[i := slot_of st' (p_main p + Z.of_nat i)]> (views p st).
Proof.
  intros Hn Hu. apply list_eq. intros j. destruct (decide (j = i)) as [->|Hne].
  - destruct (views p st !! i) as [v|] eqn:E.
    + rewrite list_lookup_insert_eq by (by eapply lookup_lt_Some). apply views_lookup in E as [? _]. apply views_lookup. by rewrite Hn.
    + rewrite (list_insert_ge (views p st)) by (by apply lookup_ge_None). rewrite E. apply eq_None_not_Some. intros [w Hw].
      apply views_lookup in Hw as [Hlt _]. rewrite Hn in Hlt. assert (views p st !! i = Some (slot_of st (p_main p + Z.of_nat i))) by (by apply views_lookup). congruence.
  - rewrite list_lookup_insert_ne by done. apply option_eq. intros w. rewrite !views_lookup, Hn, Hu by lia. done.
Qed.

Section thread.
Context (p : params) (st : cm) (t : Z) (Hs : sched p st) (Hcur : ss_cur (c_s st) = Some t).

Lemma cur_range : p_main p ≤ t < c_next st.
Proof using Hs Hcur. apply (sd_range _ _ Hs). unfold all_threads. rewrite Hcur. set_solver. Qed.
Lemma cur_awake : t ∉ ss_asleep (c_s st).
Proof using Hs Hcur. pose proof (sd_nodup _ _ Hs) as H. unfold all_threads in H. rewrite Hcur in H. simpl in H. apply NoDup_cons in H as [? _]. set_solver. Qed.

(** The state after [t] ran. *)
Definition after (s' : sstate) (d' : data) (th : thr) : cm := Cm s' d' (<[t := th]> (c_thr st)) (c_next st) (c_lbolt st).

Lemma slot_after s' d' th pend u : ss_code s' = <[t := pend]> (ss_code (c_s st)) →
  slot_of (after s' d' th) u = if decide (u = t) then view_of pend th else slot_of st u.
Proof using Type.
  intros Hc. unfold slot_of. simpl. rewrite Hc. case_decide; [subst; by rewrite !lookup_insert_eq|by rewrite !lookup_insert_ne].
Qed.

Lemma sched_after s' d' th pend : ss_code s' = <[t := pend]> (ss_code (c_s st)) → all_threads s' ≡ₚ all_threads (c_s st) → paused pend →
  (∀ u, u ∈ ss_asleep s' → u ∈ ss_asleep (c_s st) ∨ (u = t ∧ pending pend ++ code th ≠ [])) → sched p (after s' d' th).
Proof using Hs Hcur.
  intros Hc Hp Hpa Ha. destruct Hs as [H1 H2 H3 H4 H5]. split; [done|simpl; by rewrite Hp|simpl; by setoid_rewrite Hp|..].
  - intros u Hu. simpl. rewrite Hc. destruct (decide (u = t)) as [->|]; [rewrite !lookup_insert_eq; eauto|rewrite !lookup_insert_ne by done; auto].
  - intros u Hu. rewrite (slot_after _ _ _ pend) by done. destruct (Ha u Hu) as [Hin|[-> Hne]].
    + rewrite decide_False; [by auto|]. intros ->. by apply cur_awake.
    + by rewrite decide_True.
Qed.
End thread.
