(* ===== verification/CatMouseRun.v ===== *)
(** * Running the simulation

    A step of an animal or of the driver, from a state that satisfies the invariant of CatMouseSpec.v,
    returns to such a state; the one exception is a cat that starts to eat among mice or
    a mouse among cats, which bowls.c answers with a panic. *)

From S2P Require Import Prelude CQueue Thread ThreadSpec Synch CString CatMouse CatMouseSpec CatMouseSteps.

(** ** A step of an animal *)

(** What the statement [x] of [t] does to a lock. *)
Definition hands (s : sstate) (t : Z) (x : stmt) (s' : sstate) (l : Z) : Prop :=
  if toggles (on_lock l) x then
    match on_lock l x with Some false => owner_of s l = NULL ∧ owner_of s' l = t | _ => owner_of s' l = NULL end
  else owner_of s' l = owner_of s l.

(** Statements that only deal with locks and semaphores, and the flow of control. *)
Definition quiet (x : stmt) : bool := match x with Do _ | While Looping _ => false | _ => true end.
Lemma quiet_marks x : quiet x = true → delta on_eat x = 0 ∧ delta on_wait x = 0 ∧ delta on_table x = 0 ∧
  toggles on_bowl x = false ∧ toggles on_table x = false ∧ match x with While Looping _ | Do NextLoop => False | _ => True end.
Proof. by destruct x as [| | | | | | | |[]|[]]. Qed.

Lemma delta_P s s' : delta (on_sem s) (Call (CP s')) = if decide (s = s') then 1 else 0.
Proof. unfold delta, toggles, on_sem, at_addr. by case_bool_decide; case_decide. Qed.
Lemma delta_V s s' : delta (on_sem s) (Call (CV s')) = if decide (s = s') then -1 else 0.
Proof. unfold delta, toggles, on_sem, at_addr. by case_bool_decide; case_decide. Qed.
Lemma count_changed s s' sem n x : ss_count s' = <[sem := n]> (ss_count s) → count_of s' x = if decide (x = sem) then n else count_of s x.
Proof. intros H. unfold count_of. rewrite H. case_decide; [subst; by rewrite lookup_insert_eq|by rewrite lookup_insert_ne]. Qed.
Lemma owner_changed s s' l o x : ss_owner s' = <[l := o]> (ss_owner s) → owner_of s' x = if decide (x = l) then o else owner_of s x.
Proof. intros H. unfold owner_of. rewrite H. case_decide; [subst; by rewrite lookup_insert_eq|by rewrite lookup_insert_ne]. Qed.
Lemma hands_off s t x s' l : toggles (on_lock l) x = false → ss_owner s' = ss_owner s → hands s t x s' l.
Proof. intros Ht Ho. unfold hands, owner_of. by rewrite Ht, Ho. Qed.
Lemma hands_on s t s' l' l : owner_of s l' = NULL → ss_owner s' = <[l' := t]> (ss_owner s) → hands s t (Call (CAcquire l')) s' l.
Proof.
  intros Hn Ho. unfold hands, toggles, on_lock, at_addr. rewrite (owner_changed s s' l' t l Ho). case_bool_decide; case_decide; try done. by subst.
Qed.
Lemma hands_back s t x s' l' l : x = Call (CRelease l') ∨ (∃ k, x = Wait k ∧ l' = WaitConditions) → ss_owner s' = <[l' := NULL]> (ss_owner s) →
  hands s t x s' l.
Proof.
  intros Hx Ho. unfold hands. rewrite (owner_changed s s' l' NULL l Ho).
  destruct Hx as [->|(k & -> & ->)]; unfold toggles, on_lock, at_addr; case_bool_decide; case_decide; done.
Qed.

(** The rule broken: [t] is about to eat while the others do. *)
Definition clash (st : cm) : Prop := ∃ t th k rest, ss_cur (c_s st) = Some t ∧ c_thr st !! t = Some th ∧ role_of th = Animal k ∧
  code th = Do StartEating :: rest ∧ 0 < num (other k) (bowl_eating_count (c_data st)).

Section animal.
Context (p : params) (Hp : params_ok p) (st : cm) (t : Z) (k0 : list instr) (th : thr) (k : animal) (x : stmt) (rest : list stmt).
Context (L : live p st) (Hcur : ss_cur (c_s st) = Some t) (Hcode : ss_code (c_s st) !! t = Some k0) (Hth : c_thr st !! t = Some th).
Context (Hrole : role_of th = Animal k) (Hleft : pending k0 ++ code th = x :: rest).

Lemma cur_slot : slot_of st t = view_of k0 th.
Proof using Hcode Hth. unfold slot_of. by rewrite Hcode, Hth. Qed.
Lemma animal_at : ∃ i, t = p_main p + Z.of_nat (S i) ∧ views p st !! S i = Some (view_of k0 th).
Proof using L Hcur Hcode Hth Hrole.
  destruct L as [Hs G]. pose proof (cur_range p st t Hs Hcur) as Hr. destruct (pl_main _ _ _ (gi_places _ _ _ _ _ G)) as (v & [_ Hv]%views_lookup & Hm & _).
  assert (t ≠ p_main p).
  { intros Ht. rewrite Z.add_0_r, <- Ht, cur_slot in Hv. rewrite Hv in Hm. simpl in Hm. congruence. }
  exists (Z.to_nat (t - p_main p - 1)). split; [lia|]. apply views_lookup. rewrite <- cur_slot. split; [lia|]. f_equal. lia.
Qed.

(** The thread is where it was: it has gone to sleep in a primitive, or to the next stretch of one. *)
Lemma live_same s' pend code' : ss_code s' = <[t := pend]> (ss_code (c_s st)) → all_threads s' ≡ₚ all_threads (c_s st) → paused pend →
  (∀ u, u ∈ ss_asleep s' → u ∈ ss_asleep (c_s st) ∨ (u = t ∧ pend ≠ [])) →
  ss_count s' = ss_count (c_s st) → ss_owner s' = ss_owner (c_s st) → pending pend ++ code' = x :: rest →
  live p (after st t s' (c_data st) (Thr (role_of th) code' (vars th))).
Proof using L Hcur Hcode Hth Hrole Hleft.
  intros Hc Hpe Hpa Ha Hcnt Hown Hpend. destruct L as [Hs G]. split.
  - eapply sched_after; try done. simpl. intros u Hu. destruct (Ha u Hu) as [?|[-> ?]]; [by left|right]. by rewrite Hpend.
  - unfold count_of, owner_of. simpl. rewrite Hcnt, Hown. replace (views p (after st t s' (c_data st) _)) with (views p st); [done|].
    unfold views. apply list_fmap_ext. intros _ u _. rewrite (slot_after st t _ _ _ pend) by done. case_decide; [|done]. subst u.
    rewrite cur_slot. unfold view_of. simpl. by rewrite Hleft, Hpend.
Qed.

Lemma live_move s' d' pend code' r' : (pending pend ++ code') ∈ succs (x :: rest) →
  ss_code s' = <[t := pend]> (ss_code (c_s st)) → all_threads s' ≡ₚ all_threads (c_s st) → paused pend →
  (∀ u, u ∈ ss_asleep s' → u ∈ ss_asleep (c_s st) ∨ (u = t ∧ pending pend ++ code' ≠ [])) →
  consts p d' → eating_count d' = bump k (delta on_eat x) (eating_count (c_data st)) →
  waiting_count d' = bump k (delta on_wait x) (waiting_count (c_data st)) →
  bowl_eating_count d' = bump k (delta on_table x) (bowl_eating_count (c_data st)) →
  (∀ s, s ∈ [MaxBowlCount; mutex; CatMouseWait] → count_of s' s = count_of (c_s st) s - delta (on_sem s) x) → (∀ s, 0 ≤ count_of s' s) →
  hands (c_s st) t x s' WaitConditions → hands (c_s st) t x s' FreeBlockBowls → laps_ok p (View (Animal k) (pending pend ++ code') r') →
  (∀ i, views p st !! S i = Some (view_of k0 th) → tables p d' (<[S i := View (Animal k) (pending pend ++ code') r']> (views p st))) →
  live p (after st t s' d' (Thr (role_of th) code' r')).
Proof using Hp L Hcur Hcode Hth Hrole Hleft.
  intros Hsu Hc Hpe Hpa Ha Hco He Hw Ht Hcnt Hn Hh1 Hh2 Hl Htb. destruct animal_at as (i & Hi & Hv). destruct L as [Hs G]. split.
  - by eapply sched_after.
  - rewrite (views_update p st _ (S i)); [|done|intros u Hu; rewrite (slot_after st t _ _ _ pend) by done; by rewrite decide_False by lia].
    rewrite <- Hi, (slot_after st t _ _ _ pend), decide_True by done. unfold view_of at 1. simpl. rewrite Hrole.
    unfold hands in *. eapply ginv_move; try done; [unfold hands_over; by rewrite <- Hi..|by apply Htb].
Qed.

Lemma live_quiet s' pend code' : quiet x = true → (pending pend ++ code') ∈ succs (x :: rest) →
  ss_code s' = <[t := pend]> (ss_code (c_s st)) → all_threads s' ≡ₚ all_threads (c_s st) → paused pend →
  (∀ u, u ∈ ss_asleep s' → u ∈ ss_asleep (c_s st) ∨ (u = t ∧ pending pend ++ code' ≠ [])) →
  (∀ s, s ∈ [MaxBowlCount; mutex; CatMouseWait] → count_of s' s = count_of (c_s st) s - delta (on_sem s) x) → (∀ s, 0 ≤ count_of s' s) →
  hands (c_s st) t x s' WaitConditions → hands (c_s st) t x s' FreeBlockBowls →
  live p (after st t s' (c_data st) (Thr (role_of th) code' (vars th))).
Proof using Hp L Hcur Hcode Hth Hrole Hleft.
  intros Hq Hsu Hc Hpe Hpa Ha Hcnt Hn Hh1 Hh2. destruct animal_at as (i & Hi & Hv). pose proof L as [Hs G].
  destruct (quiet_marks x Hq) as (H1 & H2 & H3 & H4 & H5 & H6).
  eapply live_move; try done; rewrite ?H1, ?H2, ?H3; try done; [apply (gi_consts _ _ _ _ _ G)|..].
  - by apply (laps_keep p Hp _ _ _ _ i _ k x rest _ _ G Hv Hrole Hleft Hsu).
  - intros j Hj. by eapply (tables_keep p Hp _ _ _ _ _ j).
Qed.

(** *** The primitives *)

Lemma live_nonneg s : 0 ≤ count_of (c_s st) s.
Proof using L. destruct L as [_ G]. apply (ct_nonneg _ _ _ _ (gi_counters _ _ _ _ _ G)). Qed.
Lemma live_room sem : sem = MaxBowlCount ∨ sem = mutex ∨ sem = CatMouseWait → count_of (c_s st) sem < 2 ^ 31 - 1.
Proof using Hp L.
  destruct L as [Hs G]. destruct (gi_counters _ _ _ _ _ G) as [_ _ _ H1 H2 _]. pose proof (pk_bowls _ Hp). pose proof (pk_all _ Hp).
  pose proof (threads_bound p _ _ Hp (gi_places _ _ _ _ _ G)). destruct (pl_main _ _ _ (gi_places _ _ _ _ _ G)) as (v & _ & _ & Hd).
  apply driver_bounds in Hd; [|done]. destruct Hd as (_ & _ & Hw). unfold waited_for in Hw.
  pose proof (tally_bounds (having (on_sem MaxBowlCount)) (views p st)). pose proof (tally_bounds (having (on_sem mutex)) (views p st)).
  pose proof (tally_bounds (having (on_sem CatMouseWait)) (views p st)). intros [->|[->| ->]]; lia.
Qed.
Lemma cur_sane : allowed (x :: rest) = true.
Proof using Hp L Hcur Hcode Hth Hrole Hleft. destruct animal_at as (i & Hi & Hv), L as [_ G]. by eapply v_sane. Qed.

Let th' := Thr (role_of th) rest (vars th).

Lemma same_effect pend code' s' : effect t pend (ss_count (c_s st)) (ss_owner (c_s st)) (c_s st) s' → paused pend →
  pending pend ++ code' = x :: rest → live p (after st t s' (c_data st) (Thr (role_of th) code' (vars th))).
Proof using L Hcur Hcode Hth Hrole Hleft. intros [] Hpa Hpe. by eapply live_same. Qed.

Lemma quiet_effect pend code' cnt own s' : effect t pend cnt own (c_s st) s' → paused pend → quiet x = true →
  (pending pend ++ code') ∈ succs (x :: rest) →
  (∀ s, s ∈ [MaxBowlCount; mutex; CatMouseWait] → count_of s' s = count_of (c_s st) s - delta (on_sem s) x) → (∀ s, 0 ≤ count_of s' s) →
  (∀ l, hands (c_s st) t x s' l) → live p (after st t s' (c_data st) (Thr (role_of th) code' (vars th))).
Proof using Hp L Hcur Hcode Hth Hrole Hleft.
  intros [Hc _ _ Ht Ha] Hpa Hq Hsu Hcnt Hn Hh. eapply live_quiet; try done. intros u Hu. destruct (Ha u Hu) as [?|[-> Hne]]; [by left|right].
  split; [done|]. by destruct pend as [|[] [|]].
Qed.

Lemma calm_effect pend code' own s' : effect t pend (ss_count (c_s st)) own (c_s st) s' → paused pend → quiet x = true →
  (pending pend ++ code') ∈ succs (x :: rest) → (∀ s, toggles (on_sem s) x = false) →
  (∀ l, hands (c_s st) t x s' l) → live p (after st t s' (c_data st) (Thr (role_of th) code' (vars th))).
Proof using Hp L Hcur Hcode Hth Hrole Hleft.
  intros He Hpa Hq Hsu Hs Hh. pose proof He as [_ Hc _ _ _]. eapply quiet_effect; try done.
  - intros s _. unfold count_of, delta. rewrite Hc, Hs. lia.
  - intros s. pose proof (live_nonneg s). unfold count_of in *. by rewrite Hc.
Qed.

Lemma animal_P sem : x = Call (CP sem) → ∃ s' e, P 0 t sem [] (c_s st) = Ret (s', e) ∧ live p (after st t s' (c_data st) th').
Proof using Hp L Hcur Hcode Hth Hrole Hleft.
  intros Hx. pose proof cur_sane as Ha. rewrite Hx in Ha. apply bool_decide_eq_true in Ha.
  destruct (P_effect t (c_s st) Hcur sem) as (s' & e & -> & [He|[Hpos He]]); [by destruct Ha; subst|apply live_nonneg|..];
    exists s', e; (split; [done|]); [eapply same_effect; try done; by rewrite Hx|].
  pose proof He as [_ Hc Ho _ _]. eapply quiet_effect; try done; rewrite ?Hx; try done.
  - by apply list_elem_of_singleton.
  - intros s _. rewrite delta_P, (count_changed _ _ _ _ s Hc). case_decide; subst; lia.
  - intros s. pose proof (live_nonneg s). rewrite (count_changed _ _ _ _ s Hc). case_decide; subst; lia.
  - intros l. by apply hands_off.
Qed.

Lemma animal_V sem : x = Call (CV sem) → ∃ s' e, V t sem (set_code t [] (c_s st)) = Ret (s', e) ∧ live p (after st t s' (c_data st) th').
Proof using Hp L Hcur Hcode Hth Hrole Hleft.
  intros Hx. pose proof cur_sane as Ha. rewrite Hx in Ha. apply bool_decide_eq_true in Ha.
  destruct (V_effect t (c_s st) sem) as (s' & e & -> & He); [by destruct Ha as [|[|]]; subst|split; [apply live_nonneg|by apply live_room]|].
  exists s', e. split; [done|]. pose proof He as [_ Hc Ho _ _]. eapply quiet_effect; try done; rewrite ?Hx; try done.
  - by apply list_elem_of_singleton.
  - intros s _. rewrite delta_V, (count_changed _ _ _ _ s Hc). case_decide; subst; lia.
  - intros s. pose proof (live_nonneg s). rewrite (count_changed _ _ _ _ s Hc). case_decide; subst; lia.
  - intros l. by apply hands_off.
Qed.

Lemma animal_acquire l : x = Call (CAcquire l) → ∃ s' e, lock_acquire t l [] (c_s st) = Ret (s', e) ∧ live p (after st t s' (c_data st) th').
Proof using Hp L Hcur Hcode Hth Hrole Hleft.
  intros Hx. pose proof cur_sane as Ha. rewrite Hx in Ha. apply bool_decide_eq_true in Ha.
  destruct (acquire_effect t (c_s st) Hcur l) as (s' & e & -> & [He|[Hnull He]]); [by destruct Ha; subst|..];
    exists s', e; (split; [done|]); [eapply same_effect; try done; by rewrite Hx|].
  pose proof He as [_ Hc Ho _ _]. eapply calm_effect; try done; rewrite ?Hx; try done.
  - by apply list_elem_of_singleton.
  - intros l'. by apply hands_on.
Qed.

Lemma cur_owns l : l = WaitConditions ∨ l = FreeBlockBowls → locked l (x :: rest) = true → owner_of (c_s st) l = t.
Proof using L Hcur Hcode Hth Hrole Hleft.
  intros Hl Hf. destruct animal_at as (i & Hi & Hv), L as [_ G]. destruct (gi_owners _ _ _ _ _ G) as [[Hw _] [Hb _]].
  rewrite Hi. destruct Hl as [->| ->]; [apply (Hw _ _ Hv)|apply (Hb _ _ Hv)]; unfold having; simpl; by rewrite Hleft.
Qed.

Lemma animal_release l : x = Call (CRelease l) → ∃ s' e, lock_release t l (set_code t [] (c_s st)) = Ret (s', e) ∧
  live p (after st t s' (c_data st) th').
Proof using Hp L Hcur Hcode Hth Hrole Hleft.
  intros Hx. pose proof cur_sane as Ha. rewrite Hx in Ha. apply bool_decide_eq_true in Ha.
  destruct (release_effect t (c_s st) l) as (s' & e & -> & He); [by destruct Ha; subst|apply cur_owns; [done|]|].
  { rewrite Hx. unfold locked. simpl. unfold at_addr. by rewrite bool_decide_eq_true_2. }
  exists s', e. split; [done|]. pose proof He as [_ Hc Ho _ _]. eapply calm_effect; try done; rewrite ?Hx; try done.
  - by apply list_elem_of_singleton.
  - intros l'. eapply hands_back; [by left|done].
Qed.

Lemma animal_wait k' : x = Wait k' → ∃ s' e, cv_wait 0 t (num k' (cvNone (c_data st))) WaitConditions [] (c_s st) = Ret (s', e) ∧
  live p (after st t s' (c_data st) th').
Proof using Hp L Hcur Hcode Hth Hrole Hleft.
  intros Hx. destruct L as [_ G]. rewrite (co_cvs _ _ (gi_consts _ _ _ _ _ G)).
  destruct (wait_effect t (c_s st) (num k' (Both cvNoCatsEating cvNoMiceEating)) WaitConditions) as (s' & e & -> & He);
    [by destruct k'|done|apply cur_owns; [by left|by rewrite Hx]|].
  exists s', e. split; [done|]. pose proof He as [_ Hc Ho _ _]. eapply calm_effect; try done; rewrite ?Hx; try done.
  - by apply list_elem_of_singleton.
  - intros l'. eapply hands_back; [right; eauto|done].
Qed.

Lemma animal_broadcast k' : x = Broadcast k' → ∃ s' e,
  cv_broadcast t (num k' (cvNone (c_data st))) WaitConditions (set_code t [] (c_s st)) = Ret (s', e) ∧ live p (after st t s' (c_data st) th').
Proof using Hp L Hcur Hcode Hth Hrole Hleft.
  intros Hx. pose proof cur_sane as Ha. rewrite Hx in Ha. destruct L as [_ G]. rewrite (co_cvs _ _ (gi_consts _ _ _ _ _ G)).
  destruct (broadcast_effect t (c_s st) (num k' (Both cvNoCatsEating cvNoMiceEating)) WaitConditions) as (s' & e & -> & He);
    [by destruct k'|done|apply cur_owns; [by left|by rewrite Hx]|].
  exists s', e. split; [done|]. pose proof He as [_ Hc Ho _ _]. eapply calm_effect; try done; rewrite ?Hx; try done.
  - by apply list_elem_of_singleton.
  - intros l'. by apply hands_off.
Qed.

(** *** The flow of control *)

Lemma still : k0 = [] → effect t [] (ss_count (c_s st)) (ss_owner (c_s st)) (c_s st) (c_s st).
Proof using Hcode. intros Hk. split; [by rewrite insert_id by congruence|done..|]. intros u Hu. by left. Qed.

Lemma animal_flow c' : k0 = [] → quiet x = true → (∀ s, toggles (on_sem s) x = false) → (∀ l, toggles (on_lock l) x = false) → c' ∈ succs (x :: rest) →
  live p (after st t (c_s st) (c_data st) (Thr (role_of th) c' (vars th))).
Proof using Hp L Hcur Hcode Hth Hrole Hleft.
  intros Hk Hq Hs Hl Hsu. eapply (calm_effect []); try done; [by apply still|]. intros l. by apply hands_off.
Qed.

Lemma animal_sleep n : k0 = [] → x = Delay n ∨ x = Delaying n → 0 < n →
  live p (after st t (s_sleep t LBOLT (c_s st)) (c_data st) (Thr (role_of th) (Delaying (n - 1) :: rest) (vars th))).
Proof using Hp L Hcur Hcode Hth Hrole Hleft.
  intros Hk Hx Hn. destruct (s_sleep_fields t (c_s st) Hcur LBOLT) as (Hc & Hcnt & Ho & Ht & Ha).
  apply (live_quiet _ []); try done; try (by destruct Hx as [-> | ->]).
  - destruct Hx as [-> | ->]; simpl; rewrite bool_decide_eq_true_2 by done; by apply list_elem_of_singleton.
  - by rewrite Hc, insert_id by congruence.
  - rewrite Ha. intros u. set_solver.
  - intros s _. assert (delta (on_sem s) x = 0) as -> by (by destruct Hx as [-> | ->]). unfold count_of. rewrite Hcnt. lia.
  - intros s. pose proof (live_nonneg s). unfold count_of in *. by rewrite Hcnt.
  - apply hands_off; [by destruct Hx as [-> | ->]|done].
  - apply hands_off; [by destruct Hx as [-> | ->]|done].
Qed.

(** *** The variables *)

Lemma do_move a d' r' : k0 = [] → x = Do a → consts p d' → eating_count d' = bump k (delta on_eat x) (eating_count (c_data st)) →
  waiting_count d' = bump k (delta on_wait x) (waiting_count (c_data st)) →
  bowl_eating_count d' = bump k (delta on_table x) (bowl_eating_count (c_data st)) → laps_ok p (View (Animal k) rest r') →
  (∀ i, views p st !! S i = Some (view_of k0 th) → tables p d' (<[S i := View (Animal k) rest r']> (views p st))) →
  live p (after st t (c_s st) d' (Thr (role_of th) rest r')).
Proof using Hp L Hcur Hcode Hth Hrole Hleft.
  intros Hk Hx Hco He Hw Ht Hl Htb. apply (live_move _ _ []); try done; rewrite ?Hx.
  - by apply list_elem_of_singleton.
  - by rewrite insert_id by congruence.
  - auto.
  - intros s _. change (delta (on_sem s) (Do a)) with 0. lia.
  - apply live_nonneg.
  - by apply hands_off.
  - by apply hands_off.
Qed.

Lemma rest_in a : x = Do a → rest ∈ succs (x :: rest).
Proof using Type. intros Hx. rewrite Hx. by apply list_elem_of_singleton. Qed.
Lemma laps_do a r' : x = Do a → a ≠ NextLoop → l_i r' = l_i (vars th) → laps_ok p (View (Animal k) rest r').
Proof using Hp L Hcur Hcode Hth Hrole Hleft.
  intros Hx Hne Hr. destruct animal_at as (i & Hi & Hv). pose proof L as [Hs G]. pose proof (rest_in a Hx).
  eapply (laps_keep p Hp _ _ _ _ i _ k x rest); try done. rewrite Hx. by destruct a.
Qed.
Lemma do_keeps a d' : k0 = [] → x = Do a → a ≠ NextLoop → toggles on_bowl x = false → toggles on_table x = false →
  consts p d' → eating_count d' = bump k (delta on_eat x) (eating_count (c_data st)) →
  waiting_count d' = bump k (delta on_wait x) (waiting_count (c_data st)) → bowl_eating_count d' = bowl_eating_count (c_data st) →
  FreeBowlsList d' = FreeBowlsList (c_data st) → bowls d' = bowls (c_data st) →
  live p (after st t (c_s st) d' (Thr (role_of th) rest (vars th))).
Proof using Hp L Hcur Hcode Hth Hrole Hleft.
  intros Hk Hx Hne Hb Ht Hco He Hw Hbe Hq Hbs. destruct L as [Hs G]. eapply do_move; try done.
  - rewrite Hbe. unfold delta. by rewrite Ht.
  - by eapply laps_do.
  - intros j Hj. eapply (tables_keep p Hp _ _ _ _ _ j); try done. by eapply rest_in.
Qed.

Lemma my_bowl_ok : flag on_bowl (x :: rest) = true → ∃ b, l_bowl (vars th) = Some b ∧ my_bowl (vars th) = Ret b ∧ 1 ≤ b ≤ p_bowls p.
Proof using Hp L Hcur Hcode Hth Hrole Hleft.
  intros Hf. destruct animal_at as (i & Hi & Hv). pose proof L as [Hs G]. pose proof (list_elem_of_lookup_2 _ _ _ Hv) as Hin.
  assert (Hb : having on_bowl (view_of k0 th) = true) by (unfold having; simpl; by rewrite Hleft).
  destruct (tb_bowl _ _ _ (gi_tables _ _ _ _ _ G) _ Hin Hb) as [b Hl]. exists b. simpl in Hl. unfold my_bowl. rewrite Hl. split_and!; try done;
    by apply (held_some p Hp _ _ _ _ G _ b Hin Hb).
Qed.

Definition acts (km : Z → bool) (a : action) : Prop :=
  match act km k a (c_data st) (vars th) with
  | Ret (d', r') => live p (after st t (c_s st) d' (Thr (role_of th) rest r'))
  | Panic => clash st
  | _ => False
  end.

Lemma act_counts km a : k0 = [] → x = Do a → a ∈ [WaitingUp; EatingUp; CountsDown] → acts km a.
Proof using Hp L Hcur Hcode Hth Hrole Hleft.
  intros Hk Hx Ha. destruct L as [Hs G]. destruct (gi_consts _ _ _ _ _ G). rewrite !elem_of_cons, elem_of_nil in Ha.
  destruct Ha as [->|[->|[->|[]]]]; eapply do_keeps; try done; by rewrite ?Hx.
Qed.

Lemma act_next km : k0 = [] → x = Do NextLoop → acts km NextLoop.
Proof using Hp L Hcur Hcode Hth Hrole Hleft.
  intros Hk Hx. destruct animal_at as (i & Hi & Hv), L as [Hs G]. unfold acts. simpl. eapply do_move; try done; rewrite ?Hx; try done.
  - apply (gi_consts _ _ _ _ _ G).
  - destruct (pl_animals _ _ _ (gi_places _ _ _ _ _ G) i _ Hv) as (k' & _ & _ & Hl). unfold laps_ok in *. simpl in Hl. rewrite Hleft, Hx in Hl.
    pose proof (pk_loops _ Hp). destruct (v_sane p Hp _ _ _ _ i _ k x rest G Hv Hrole Hleft) as (_ & _ & Hm).
    rewrite Hx in Hm. simpl in Hm. apply andb_true_iff in Hm as [Hm _]. apply andb_true_iff in Hm as [_ Hm]. apply bool_decide_eq_true in Hm.
    simpl. rewrite Hm. destruct (decide (rest = [])) as [->|Hne]; [done|]. assert (Hin : lap_of (Do NextLoop :: rest) = Inside) by (by destruct rest).
    rewrite Hin in Hl. rewrite s32_small; lia.
  - intros j Hj. eapply (tables_keep p Hp _ _ _ _ _ j); try done; rewrite ?Hx; try done. by apply list_elem_of_singleton.
Qed.

Lemma act_checks km a : k0 = [] → x = Do a → a = CheckBowl ∨ a = CheckNumber → acts km a.
Proof using Hp L Hcur Hcode Hth Hrole Hleft.
  intros Hk Hx Ha. pose proof cur_sane as Hs. rewrite Hx in Hs.
  destruct my_bowl_ok as (b & Hl & Hb & Hr); [rewrite Hx; by destruct Ha; subst|]. pose proof (pk_bowls _ Hp). pose proof L as [_ G].
  pose proof (gi_consts _ _ _ _ _ G) as Hco. assert (Hlive : live p (after st t (c_s st) (c_data st) (Thr (role_of th) rest (vars th)))).
  { eapply do_keeps; try done; rewrite ?Hx; by destruct Ha; subst. }
  unfold acts. destruct Ha as [->| ->]; simpl; rewrite Hb; ostep.
  - rewrite (co_bowls _ _ Hco). do 2 passes. done.
  - rewrite (co_num _ _ Hco), s32_small by lia. rewrite !bool_decide_eq_false_2 by lia. done.
Qed.

Lemma act_take km : k0 = [] → x = Do RemHead → acts km RemHead.
Proof using Hp L Hcur Hcode Hth Hrole Hleft.
  intros Hk Hx. destruct animal_at as (i & Hi & Hv). pose proof L as [Hs G]. pose proof cur_sane as Ha. rewrite Hx in Ha. apply andb_true_iff in Ha as [_ Ha].
  assert (Hseat : having (on_sem MaxBowlCount) (view_of k0 th) = true) by (unfold having; simpl; by rewrite Hleft, Hx).
  destruct (bowl_free p Hp _ _ _ _ i _ G Hv) as (b & l & Hq & Hsz & Hperm); [unfold having; simpl; by rewrite Hleft, Hx|done|].
  destruct (q_remhead_ok _ _ _ Hq) as (q' & Hrem & Hq' & Hsz'). unfold acts. simpl. rewrite Hrem. ostep.
  destruct (gi_consts _ _ _ _ _ G). eapply do_move; try done; rewrite ?Hx; try done; [by eapply laps_do|].
  intros j Hj. eapply (tables_take p Hp _ _ _ _ _ j); try done; rewrite ?Hx; try done; [by apply list_elem_of_singleton|simpl; lia].
Qed.

Lemma act_give km : k0 = [] → x = Do AddTail → acts km AddTail.
Proof using Hp L Hcur Hcode Hth Hrole Hleft.
  intros Hk Hx. destruct animal_at as (i & Hi & Hv). pose proof L as [Hs G]. destruct my_bowl_ok as (b & Hl & Hb & Hr); [by rewrite Hx|].
  destruct (tb_queue _ _ _ (gi_tables _ _ _ _ _ G)) as (l & Hq & Hsz & Hperm). pose proof (queue_length p Hp _ _ _ _ G l Hq Hperm) as Hlen.
  pose proof (tally_lt (λ _, false) (having on_bowl) (views p st) (view_of k0 th) ltac:(done) (list_elem_of_lookup_2 _ _ _ Hv) eq_refl) as Hlt.
  unfold having in Hlt at 1. simpl in Hlt. rewrite Hleft, Hx in Hlt. specialize (Hlt eq_refl). rewrite tally_false in Hlt by done.
  destruct (q_addtail_room 1 km _ _ b Hq) as (q' & Hadd & Hq' & Hsz'); [lia|]. unfold acts. simpl. rewrite Hb. ostep. unfold q_addtail. rewrite Hadd. ostep.
  destruct (gi_consts _ _ _ _ _ G). eapply do_move; try done; rewrite ?Hx; try done; [by eapply laps_do|].
  intros j Hj. eapply (tables_give p Hp _ _ _ _ _ j); try done; rewrite ?Hx; try done; [by apply list_elem_of_singleton|simpl; lia].
Qed.

Lemma act_start km : k0 = [] → x = Do StartEating → acts km StartEating.
Proof using Hp L Hcur Hcode Hth Hrole Hleft.
  intros Hk Hx. destruct animal_at as (i & Hi & Hv). pose proof L as [Hs G]. pose proof cur_sane as Ha. rewrite Hx in Ha. apply andb_true_iff in Ha as [_ Ha].
  destruct my_bowl_ok as (b & Hl & Hb & Hr); [by rewrite Hx|].
  assert (Hbowl : having on_bowl (view_of k0 th) = true) by (unfold having; simpl; by rewrite Hleft, Hx).
  assert (Hno : having on_table (view_of k0 th) = false) by (unfold having; simpl; by rewrite Hleft, Hx).
  destruct (bowl_dash p Hp _ _ _ _ i _ G Hv b) as [_ Hdash]; try done. unfold acts. simpl. unfold start_eating, bowl_at. rewrite Hb. ostep. rewrite Hdash. ostep.
  rewrite bool_decide_eq_false_2 by (by destruct k). case_bool_decide as Hother.
  { exists t, th, k, rest. split_and!; try done; [|lia]. by rewrite <- Hx, <- Hleft, Hk. }
  pose proof (ct_table _ _ _ _ (gi_counters _ _ _ _ _ G) (other k)) as Hnum. pose proof (tally_bounds (λ v, is_kind (other k) v && having on_table v) (views p st)).
  unfold number in Hnum. rewrite assert_pass by done. ostep. passes. destruct (gi_consts _ _ _ _ _ G).
  eapply do_move; try done; rewrite ?Hx; try done; [by eapply laps_do|].
  intros j Hj. eapply (tables_eat p Hp _ _ _ _ _ j _ _ x rest _ _ G Hj Hrole Hleft); rewrite ?Hx; try done; [by apply list_elem_of_singleton|by rewrite Hno].
Qed.

Lemma act_finish km : k0 = [] → x = Do FinishEating → acts km FinishEating.
Proof using Hp L Hcur Hcode Hth Hrole Hleft.
  intros Hk Hx. destruct animal_at as (i & Hi & Hv). pose proof L as [Hs G]. pose proof cur_sane as Ha. rewrite Hx in Ha. apply andb_true_iff in Ha as [_ Ha].
  destruct my_bowl_ok as (b & Hl & Hb & Hr); [by rewrite Hx|]. pose proof (list_elem_of_lookup_2 _ _ _ Hv) as Hin.
  assert (Hbowl : having on_bowl (view_of k0 th) = true) by (unfold having; simpl; by rewrite Hleft, Hx).
  assert (Hyes : having on_table (view_of k0 th) = true) by (unfold having; simpl; by rewrite Hleft, Hx).
  destruct (tb_full _ _ _ (gi_tables _ _ _ _ _ G) _ Hin Hyes) as (k' & b' & Hk' & Hb' & Hlet). simpl in Hk', Hb'. assert (k' = k) as -> by congruence. assert (b' = b) as -> by congruence.
  unfold acts. simpl. unfold finish_eating, bowl_at. rewrite Hb. ostep. rewrite Hlet. ostep.
  assert (Hpos : 0 < num k (bowl_eating_count (c_data st))).
  { rewrite (ct_table _ _ _ _ (gi_counters _ _ _ _ _ G) k). unfold number. rewrite <- (tally_false (λ _, false) (views p st)) by done.
    eapply tally_lt; [done|exact Hin|done|]. unfold is_kind. simpl. by rewrite bool_decide_eq_true_2. }
  do 2 passes. destruct (gi_consts _ _ _ _ _ G). eapply do_move; try done; rewrite ?Hx; try done; [by eapply laps_do|].
  intros j Hj. eapply (tables_eat p Hp _ _ _ _ _ j _ _ x rest _ _ G Hj Hrole Hleft); rewrite ?Hx; try done; [by apply list_elem_of_singleton|by rewrite Hyes].
Qed.

(** The loop over the meals. *)
Lemma animal_loop q b : k0 = [] → x = While Looping q → b = bool_decide (l_i (vars th) < NumLoops (c_data st)) →
  live p (after st t (c_s st) (c_data st) (Thr (role_of th) (if b then q ++ x :: rest else rest) (vars th))).
Proof using Hp L Hcur Hcode Hth Hrole Hleft.
  intros Hk Hx Hb. destruct animal_at as (i & Hi & Hv). pose proof L as [Hs G]. pose proof cur_sane as Ha. rewrite Hx in Ha.
  apply andb_true_iff in Ha as [H1%bool_decide_eq_true H2%bool_decide_eq_true].
  destruct (pl_animals _ _ _ (gi_places _ _ _ _ _ G) i _ Hv) as (k' & _ & _ & Hl). unfold laps_ok in Hl. simpl in Hl. rewrite Hleft, Hx in Hl. simpl in Hl.
  assert (Hsu : (if b then q ++ x :: rest else rest) ∈ succs (x :: rest)) by (rewrite Hx; destruct b; simpl; set_solver).
  destruct (gi_consts _ _ _ _ _ G). apply (live_move _ _ []); try done; rewrite ?Hx; try done; try by apply hands_off.
  - by rewrite insert_id by congruence.
  - auto.
  - intros s _. change (delta (on_sem s) (While Looping q)) with 0. lia.
  - apply live_nonneg.
  - unfold laps_ok. simpl. rewrite co_loops in Hb. destruct b; symmetry in Hb; rewrite ?H1, ?H2;
      [apply bool_decide_eq_true in Hb|apply bool_decide_eq_false in Hb]; lia.
  - intros j Hj. rewrite <- Hx. eapply (tables_keep p Hp _ _ _ _ _ j _ _ x); try done; by rewrite Hx.
Qed.
End animal.

(** ** Scheduling *)

Definition reschedules (s s' : sstate) : Prop :=
  ss_code s' = ss_code s ∧ ss_count s' = ss_count s ∧ ss_owner s' = ss_owner s ∧ all_threads s' ⊆+ all_threads s ∧ ss_asleep s' ⊆ ss_asleep s.

Lemma sched_reschedules p st s' : sched p st → reschedules (c_s st) s' → sched p (set_s s' st).
Proof.
  intros [H1 H2 H3 H4 H5] (Hc & _ & _ & Ht & Ha). split; simpl; [done|by eapply NoDup_sub|..].
  - intros t Hin. apply H3. by eapply elem_of_submseteq.
  - by rewrite Hc.
  - intros t Hin. unfold slot_of. simpl. rewrite Hc. by apply H5, Ha.
Qed.
Lemma views_reschedules p st s' : ss_code s' = ss_code (c_s st) → views p (set_s s' st) = views p st.
Proof. intros Hc. unfold views. apply list_fmap_ext. intros _ t _. unfold slot_of. simpl. by rewrite Hc. Qed.
Lemma live_reschedules p st s' : live p st → reschedules (c_s st) s' → live p (set_s s' st).
Proof.
  intros [Hs G] Hr. split; [by apply sched_reschedules|]. destruct Hr as (Hc & Hn & Ho & _). rewrite views_reschedules by done.
  unfold count_of, owner_of. simpl. by rewrite Hn, Ho.
Qed.

Lemma dispatch_reschedules s : reschedules s (dispatch s).
Proof.
  unfold dispatch, reschedules, all_threads. destruct (ss_ready s) as [|n r] eqn:E; simpl; split_and!; try done.
  - by apply submseteq_inserts_l.
  - by apply submseteq_inserts_l.
Qed.
Lemma reschedules_trans s s' s'' : reschedules s s' → reschedules s' s'' → reschedules s s''.
Proof. unfold reschedules. intros (? & ? & ? & ? & ?) (? & ? & ? & ? & ?). split_and!; try congruence; by etrans. Qed.
Lemma preempt_reschedules s : reschedules s (preempt s).
Proof.
  unfold preempt. destruct (ss_cur s) as [t|] eqn:E; [|by split_and!]. eapply reschedules_trans; [|apply dispatch_reschedules].
  split_and!; try done. unfold all_threads. rewrite E. simpl. apply Permutation_submseteq. solve_Permutation.
Qed.
Lemma wakeup_reschedules a s : reschedules s (s_wakeup a s).
Proof.
  split_and!; try done.
  - unfold s_wakeup, all_threads. simpl. apply Permutation_submseteq. f_equiv. apply (wake_perm (addr_of s) a (ss_ready s) (ss_asleep s)).
  - simpl. intros u Hu. apply list_elem_of_filter in Hu. tauto.
Qed.

(** ** A step *)

(** Everything is over: nobody has anything left to do. *)
Definition over (p : params) (st : cm) : Prop :=
  sched p st ∧ (∀ v, v ∈ views p st → v_left v = []) ∧
  (∀ i v, views p st !! S i = Some v → ∃ k, v_role v = Animal k ∧ l_i (v_vars v) = p_loops p) ∧
  tally (is_kind Cat) (views p st) = p_cats p ∧ tally (is_kind Mouse) (views p st) = p_mice p.
Definition good (p : params) (st : cm) (o : outcome cm) : Prop :=
  match o with Ret st' => live p st' ∨ over p st' | Panic => clash st | _ => False end.

Lemma after_same st t s th : c_thr st !! t = Some th → after st t s (c_data st) (Thr (role_of th) (code th) (vars th)) = set_s s st.
Proof. intros Ht. unfold after, set_s. f_equal. apply insert_id. by destruct th. Qed.

Section animal_step.
Context (p : params) (Hp : params_ok p) (km : Z → bool) (st : cm) (t : Z) (th : thr) (k : animal).
Context (L : live p st) (Hcur : ss_cur (c_s st) = Some t) (Hth : c_thr st !! t = Some th) (Hrole : role_of th = Animal k).

(** A thread inside a primitive goes on in it. *)
Lemma animal_inside i k0 : ss_code (c_s st) !! t = Some (i :: k0) → paused (i :: k0) →
  ∃ s' e, exec_instr t i k0 (c_s st) = Ret (s', e) ∧ live p (set_s s' st).
Proof using Hp L Hcur Hth Hrole.
  intros Hcode Hpa. setoid_rewrite <- (after_same st t _ th Hth). destruct k0; [|by destruct i]. destruct i; try done.
  - eapply animal_P; eauto.
  - eapply animal_acquire; eauto.
  - exists (s_sleep t cv (set_code t [CWaitWoken lock] (c_s st))), None. split; [done|]. 
    apply (same_effect p st t _ th k _ _ L Hcur Hcode Hth Hrole eq_refl [CWaitWoken lock]); try done. by apply sleep_effect.
  - eapply animal_acquire; eauto.
Qed.

Lemma animal_call i rest : ss_code (c_s st) !! t = Some [] → code th = Call i :: rest →
  ∃ s' e, exec_instr t i [] (c_s st) = Ret (s', e) ∧ live p (after st t s' (c_data st) (Thr (role_of th) rest (vars th))).
Proof using Hp L Hcur Hth Hrole.
  intros Hcode Hc. pose proof (cur_sane p Hp st t [] th k (Call i) rest L Hcur Hcode Hth Hrole Hc) as Ha. destruct i; try done.
  - eapply animal_P; eauto.
  - eapply animal_V; eauto.
  - eapply animal_acquire; eauto.
  - eapply animal_release; eauto.
Qed.

Lemma animal_act a rest : ss_code (c_s st) !! t = Some [] → code th = Do a :: rest → acts p st t th k rest km a.
Proof using Hp L Hcur Hth Hrole.
  intros Hcode Hc. pose proof (cur_sane p Hp st t [] th k (Do a) rest L Hcur Hcode Hth Hrole Hc) as Ha. destruct a; try done.
  - eapply act_counts; eauto. set_solver.
  - eapply act_counts; eauto. set_solver.
  - eapply act_take; eauto.
  - eapply act_checks; eauto.
  - eapply act_checks; eauto.
  - eapply act_start; eauto.
  - eapply act_finish; eauto.
  - eapply act_give; eauto.
  - eapply act_counts; eauto. set_solver.
  - eapply act_next; eauto.
Qed.

(** The queue of free bowls is not empty when an animal looks. *)
Lemma animal_free q r rest : ss_code (c_s st) !! t = Some [] → code th = If AnyFree q r :: rest → q_empty (FreeBowlsList (c_data st)) = false.
Proof using Hp L Hcur Hth Hrole.
  intros Hcode Hc. pose proof (cur_sane p Hp st t [] th k _ rest L Hcur Hcode Hth Hrole Hc) as Ha. apply andb_true_iff in Ha as [_ Ha].
  destruct (animal_at p st t [] th k L Hcur Hcode Hth Hrole) as (i & Hi & Hv), L as [Hs G].
  destruct (bowl_free p Hp _ _ _ _ i _ G Hv) as (b & l & Hq & _ & _); [unfold having; simpl; by rewrite Hc..|]. by rewrite (q_empty_ok _ _ Hq).
Qed.

Lemma animal_delay y n rest : y = Delay n ∨ y = Delaying n → ss_code (c_s st) !! t = Some [] → code th = y :: rest → good p st (exec_stmt km t th y rest st).
Proof using Hp L Hcur Hth Hrole.
  intros Hy Hcode Hc. unfold exec_stmt. assert (Hl : live p (if bool_decide (0 < n) then set_s (s_sleep t LBOLT (c_s st)) (set_thr t (proceed th (Delaying (n - 1) :: rest)) st)
    else set_thr t (proceed th rest) st)).
  { case_bool_decide as Hn.
    - by apply (animal_sleep p Hp st t [] th k y rest L Hcur Hcode Hth Hrole Hc).
    - apply (animal_flow p Hp st t [] th k y rest L Hcur Hcode Hth Hrole Hc); try done; try (by destruct Hy as [-> | ->]).
      destruct Hy as [-> | ->]; simpl; rewrite bool_decide_eq_false_2 by done; by apply list_elem_of_singleton. }
  destruct Hy as [-> | ->]; case_bool_decide; by left.
Qed.

Lemma animal_stmt y rest : ss_code (c_s st) !! t = Some [] → code th = y :: rest → good p st (exec_stmt km t th y rest st).
Proof using Hp L Hcur Hth Hrole.
  intros Hcode Hc. pose proof (cur_sane p Hp st t [] th k y rest L Hcur Hcode Hth Hrole Hc) as Ha. unfold exec_stmt. rewrite Hrole. simpl kind_of.
  destruct y as [a|i|k'|k'|n|n|k'| |b q r|b q]; try done.
  - pose proof (animal_act a rest Hcode Hc) as Hact. unfold acts in Hact. destruct (act km k a _ _) as [[d' r']| | |]; try done.
    left. rewrite Hrole in Hact. exact Hact.
  - destruct (animal_call i rest Hcode Hc) as (s' & e & -> & Hl). left. exact Hl.
  - destruct (animal_wait p Hp st t [] th k (Wait k') rest L Hcur Hcode Hth Hrole Hc k' eq_refl) as (s' & e & Heq & Hl). simpl. rewrite Heq. left. exact Hl.
  - destruct (animal_broadcast p Hp st t [] th k (Broadcast k') rest L Hcur Hcode Hth Hrole Hc k' eq_refl) as (s' & e & Heq & Hl).
    simpl. rewrite Heq. left. exact Hl.
  - by apply (animal_delay (Delay n) n); [left|..].
  - by apply (animal_delay (Delaying n) n); [right|..].
  - left. apply (animal_flow p Hp st t [] th k (If b q r) rest L Hcur Hcode Hth Hrole Hc); try done.
    destruct b; try (simpl; case_match; set_solver). unfold ask. rewrite (animal_free q r rest Hcode Hc). by apply list_elem_of_singleton.
  - left. destruct b; try (apply (animal_flow p Hp st t [] th k _ rest L Hcur Hcode Hth Hrole Hc); try done; simpl; case_match; set_solver).
    by apply (animal_loop p Hp st t [] th k _ rest L Hcur Hcode Hth Hrole Hc q).
Qed.

Lemma animal_step : good p st (step km st).
Proof using Hp L Hcur Hth Hrole.
  destruct (sd_code _ _ (proj1 L) t (cur_range p st t (proj1 L) Hcur)) as (k0 & th' & Hcode & Hth' & Hpa). unfold step. rewrite Hcur, Hcode, Hth.
  destruct k0 as [|i k0]; [destruct (code th) as [|y rest] eqn:Hc|].
  - left. apply live_reschedules; [done|apply dispatch_reschedules].
  - by apply animal_stmt.
  - destruct (animal_inside i k0 Hcode Hpa) as (s' & e & -> & Hl). by left.
Qed.
End animal_step.
