(* ===== verification/CatMouseDriver.v ===== *)
(** * The driver of the simulation

    catmouse() forks the animals, waits for them and takes down what it set up; when it gets there, every animal has
    had its meals and nothing is held or slept on. With the steps of the animals this gives the
    invariant of a whole run. *)

From S2P Require Import Prelude CQueue Thread ThreadSpec Synch CString CatMouse CatMouseSpec CatMouseSteps CatMouseRun.

(** A thread just forked. *)
Definition newborn (k : animal) : view := View (Animal k) (simulation k) (Locals 0 None).

Lemma newborn_flags k m : m ∈ marks → having m (newborn k) = false ∨ (∀ x, m x = on_sem CatMouseWait x).
Proof.
  intros Hm. unfold marks in Hm. rewrite !elem_of_cons, elem_of_nil in Hm.
  destruct Hm as [->|[->|[->|[->|[->|[->|[->|[->|[->|[]]]]]]]]]]; (left; by destruct k) || by right.
Qed.
Lemma simulation_at k : simulation k ∈ positions k.
Proof. destruct k; vm_compute; apply list_elem_of_here. Qed.
Lemma newborn_ok p k : params_ok p → animal_ok p (newborn k).
Proof.
  intros Hp. exists k. split_and!; [done|apply simulation_at|]. pose proof (pk_loops _ Hp). unfold laps_ok. simpl. lia.
Qed.

(** ** The driver moves, and may fork *)

Section driver_move.
Context (p : params) (Hp : params_ok p) (d : data) (cnt cnt' own : Z → Z) (vs : list view) (v v' : view) (new : list animal).
Context (G : ginv p d cnt own vs) (Hv : vs !! 0%nat = Some v).
Context (Hrole : v_role v' = Main) (Hflags : ∀ m, m ∈ marks → having m v' = false).
Let vs' : list view := <[0%nat := v']> vs ++ (newborn <$> new).

Lemma main_flags : v_role v = Main ∧ ∀ m, m ∈ marks → having m v = false.
Proof using Hp G Hv.
  destruct (pl_main _ _ _ (gi_places _ _ _ _ _ G)) as (v0 & Hv0 & Hr & Hd). assert (v0 = v) as -> by congruence. split; [done|].
  intros m Hm. unfold having. by eapply driver_flags.
Qed.
Lemma tally_main f : f v = false → f v' = false → (∀ k, f (newborn k) = false) → tally f vs' = tally f vs.
Proof using Hv.
  intros H1 H2 H3. unfold vs'. rewrite tally_app, (tally_insert _ _ _ _ _ Hv), H1, H2, (tally_false f (newborn <$> new)); [simpl; lia|].
  intros w (k & -> & _)%list_elem_of_fmap. apply H3.
Qed.
Lemma number_main k m : m ∈ marks → (∀ k, having m (newborn k) = false) → number k m vs' = number k m vs.
Proof using Hp G Hv Hrole Hflags.
  intros Hm Hn. destruct main_flags as [_ Hf]. unfold number. apply tally_main; [by rewrite Hf, andb_false_r by done|by rewrite Hflags, andb_false_r by done|].
  intros k'. by rewrite Hn, andb_false_r.
Qed.
Lemma having_main m : m ∈ marks → (∀ k, having m (newborn k) = false) → tally (having m) vs' = tally (having m) vs.
Proof using Hp G Hv Hrole Hflags. intros Hm Hn. destruct main_flags as [_ Hf]. apply tally_main; auto. Qed.

Lemma driven_cases j w : vs' !! j = Some w → (j = 0%nat ∧ w = v') ∨ (j ≠ 0%nat ∧ vs !! j = Some w) ∨ ((length vs ≤ j)%nat ∧ ∃ k, w = newborn k).
Proof using Hv.
  unfold vs'. intros [Hj|[Hge Hj]]%lookup_app_Some.
  - destruct (decide (j = 0%nat)) as [->|Hne]; [|right; left; by rewrite list_lookup_insert_ne in Hj]. left.
    rewrite list_lookup_insert_eq in Hj by (by eapply lookup_lt_Some). by injection Hj as <-.
  - right; right. rewrite length_insert in Hge. apply list_lookup_fmap_Some in Hj as (k & -> & _). eauto.
Qed.
Lemma driven_old j w : j ≠ 0%nat → vs !! j = Some w → vs' !! j = Some w.
Proof using Type. intros Hj Hw. unfold vs'. apply lookup_app_l_Some. by rewrite list_lookup_insert_ne. Qed.
Lemma driven_members w : w ∈ vs' → w = v' ∨ w ∈ vs ∨ ∃ k, w = newborn k.
Proof using Hv.
  intros [j Hj]%list_elem_of_lookup. apply driven_cases in Hj as [[_ ->]|[[_ Hj]|[_ ?]]]; auto. right; left. by eapply list_elem_of_lookup_2.
Qed.
Lemma kept_members w m : w ∈ vs → m ∈ marks → having m w = true → w ∈ vs'.
Proof using Hp G Hv.
  intros [j Hj]%list_elem_of_lookup Hm Hh. destruct main_flags as [_ Hf]. destruct (decide (j = 0%nat)) as [->|Hne].
  - assert (w = v) as -> by congruence. by rewrite Hf in Hh.
  - by eapply list_elem_of_lookup_2, driven_old.
Qed.

Lemma counters_main : cnt' MaxBowlCount = cnt MaxBowlCount → cnt' mutex = cnt mutex → (∀ s, 0 ≤ cnt' s) → counters p d cnt' vs'.
Proof using Hp G Hv Hrole Hflags.
  intros Hb Hm Hn. destruct (gi_counters _ _ _ _ _ G) as [H1 H2 H3 H4 H5 H6]. split; try done.
  - intros k. rewrite number_main; [done|unfold marks; set_solver|by intros []].
  - intros k. rewrite number_main; [done|unfold marks; set_solver|by intros []].
  - intros k. rewrite number_main; [done|unfold marks; set_solver|by intros []].
  - rewrite having_main, Hb; [done|unfold marks; set_solver|by intros []].
  - rewrite having_main, Hm; [done|unfold marks; set_solver|by intros []].
Qed.

Lemma owner_main l : on_lock l ∈ marks → (∀ k, having (on_lock l) (newborn k) = false) → owner_ok p own vs l → owner_ok p own vs' l.
Proof using Hp G Hv Hrole Hflags.
  intros Hm Hn [Ho Hnull]. destruct main_flags as [_ Hf]. pose proof (pk_main _ Hp). pose proof (Ho _ _ Hv) as Hv0. rewrite (Hf _ Hm) in Hv0. split.
  - intros j w Hj. apply driven_cases in Hj as [[-> ->]|[[_ Hj]|[Hge [k ->]]]]; [by rewrite (Hflags _ Hm)|by apply Ho|].
    rewrite Hn. split; [done|]. intros He. destruct Hnull as [Hz|(i & w & Hi & Hz)]; [unfold NULL in Hz; lia|]. apply lookup_lt_Some in Hi. lia.
  - destruct Hnull as [?|(j & w & Hj & Hz)]; [by left|right]. destruct (decide (j = 0%nat)) as [->|Hne]; [|exists j, w; split; [by apply driven_old|done]].
    exfalso. by apply Hv0 in Hz.
Qed.

Lemma held_main : omap bowl_held vs' ≡ₚ omap bowl_held vs.
Proof using Hp G Hv Hrole Hflags.
  unfold vs'. rewrite omap_app. replace (omap bowl_held (newborn <$> new)) with ([] : list Z); [|induction new as [|[]]; done].
  rewrite app_nil_r. destruct (omap_insert bowl_held vs 0 v v' Hv) as [-> ->]. destruct main_flags as [_ Hf].
  unfold bowl_held. rewrite Hf, Hflags by (unfold marks; set_solver). done.
Qed.

Lemma tables_main : tables p d vs'.
Proof using Hp G Hv Hrole Hflags.
  assert (Hb : on_bowl ∈ marks) by (unfold marks; set_solver). assert (Ht : on_table ∈ marks) by (unfold marks; set_solver).
  destruct (gi_tables _ _ _ _ _ G) as [(l & Hq & Hs & Hperm) T1 T2 T3 T4]. split; [|..|done| |].
  - exists l. rewrite held_main. done.
  - intros w [->|[Hw|[k ->]]]%driven_members; [by rewrite Hflags|by apply T1|by destruct k].
  - intros w [->|[Hw|[k ->]]]%driven_members; [by rewrite Hflags|by apply T3|by destruct k].
  - intros b c H1 H2. destruct (T4 b c H1 H2) as [?|(w & Hw & Hwt & Hwb)]; [by left|right]. exists w. split; [by eapply kept_members|done].
Qed.

Lemma ginv_main : cnt' MaxBowlCount = cnt MaxBowlCount → cnt' mutex = cnt mutex → (∀ s, 0 ≤ cnt' s) →
  driver p (v_left v') (l_i (v_vars v')) (tally (is_kind Cat) vs') (tally (is_kind Mouse) vs') (waited_for cnt' vs') → ginv p d cnt' own vs'.
Proof using Hp G Hv Hrole Hflags.
  intros Hb Hm Hn Hd. split; [apply (gi_consts _ _ _ _ _ G)|by apply counters_main| |apply tables_main|].
  - destruct (gi_owners _ _ _ _ _ G). split; (apply owner_main; [unfold marks; set_solver|by intros []|done]).
  - split.
    + exists v'. split; [|done]. unfold vs'. apply lookup_app_l_Some, list_lookup_insert_eq. by eapply lookup_lt_Some.
    + intros i w Hw. apply driven_cases in Hw as [[? _]|[[_ Hw]|[_ [k ->]]]]; [done|by eapply (pl_animals _ _ _ (gi_places _ _ _ _ _ G))|by apply newborn_ok].
Qed.

(** The numbers the driver goes by. *)
Lemma kinds_main k : tally (is_kind k) vs' = tally (is_kind k) vs + len (filter (k =.) new).
Proof using Hp G Hv Hrole.
  unfold vs'. rewrite tally_app, (tally_insert _ _ _ _ _ Hv). destruct main_flags as [Hr _].
  assert (is_kind k v = false ∧ is_kind k v' = false) as [-> ->] by (unfold is_kind; by rewrite Hr, Hrole).
  replace (tally (is_kind k) (newborn <$> new)) with (len (filter (k =.) new)); [simpl; lia|].
  induction new as [|k' l IH]; [done|]. rewrite filter_cons, fmap_cons. simpl. rewrite <- IH. unfold is_kind. simpl.
  case_decide; case_bool_decide; simplify_eq/=; lia.
Qed.
Lemma waited_main : waited_for cnt' vs' = waited_for cnt vs + cnt CatMouseWait - cnt' CatMouseWait.
Proof using Hp G Hv Hrole Hflags.
  unfold waited_for, vs'. rewrite tally_app, (tally_insert _ _ _ _ _ Hv), length_app, length_insert, length_fmap.
  destruct main_flags as [_ Hf]. rewrite Hf, Hflags by (unfold marks; set_solver).
  replace (tally (having (on_sem CatMouseWait)) (newborn <$> new)) with (len new); [simpl; lia|].
  induction new as [|k l IH]; [done|]. rewrite fmap_cons. simpl. rewrite <- IH. destruct k; simpl; lia.
Qed.
End driver_move.

(** ** A step of the driver *)

Lemma empty_queue_ok (q : queue Z) l : qrepr q l → ∃ q', empty_queue q = Ret q' ∧ qrepr q' [].
Proof.
  intros Hq. pose proof (qr_room _ _ Hq) as Hroom. unfold empty_queue. revert Hroom. generalize (q_size q) as sz. intros sz Hroom.
  assert (Hf : (length l ≤ Z.to_nat sz)%nat) by lia. clear Hroom. revert q Hq Hf. generalize (Z.to_nat sz) as fuel. clear. 
  induction l as [|x l IH]; intros fuel q Hq Hf.
  - exists q. split; [|done]. destruct fuel; simpl; by rewrite (q_empty_ok _ _ Hq).
  - destruct fuel as [|fuel]; [simpl in Hf; lia|]. cbn [while_loop]. rewrite (q_empty_ok _ _ Hq). simpl.
    destruct (q_remhead_ok _ _ _ Hq) as (q' & -> & Hq' & _). ostep. apply IH; [done|simpl in Hf; lia].
Qed.

Lemma sem_destroy_ok sem s : sem ≠ NULL → ss_asleep s = [] →
  sem_destroy sem s = Ret (SState (ss_cur s) (ss_ready s) (ss_asleep s) (ss_addr s) (ss_code s) (delete sem (ss_count s)) (ss_owner s)).
Proof. intros Hn Ha. unfold sem_destroy. passes. by rewrite Ha. Qed.
Lemma lock_destroy_ok l s : l ≠ NULL → owner_of s l = NULL →
  lock_destroy l s = Ret (SState (ss_cur s) (ss_ready s) (ss_asleep s) (ss_addr s) (ss_code s) (ss_count s) (delete l (ss_owner s))).
Proof. intros Hn Ho. unfold lock_destroy. by do 2 passes. Qed.
Lemma cleanup_ok d s l : ss_asleep s = [] → owner_of s WaitConditions = NULL → owner_of s FreeBlockBowls = NULL →
  cvNone d = Both cvNoCatsEating cvNoMiceEating → qrepr (FreeBowlsList d) l → ∃ d' cnt own,
  cleanup d s = Ret (d', SState (ss_cur s) (ss_ready s) (ss_asleep s) (ss_addr s) (ss_code s) cnt own).
Proof.
  intros Ha Hw Hf Hcv Hq. destruct (empty_queue_ok _ _ Hq) as (q' & Heq & Hq'). unfold cleanup.
  rewrite sem_destroy_ok by done. ostep. rewrite sem_destroy_ok by done. ostep. rewrite Hcv. do 2 passes.
  rewrite lock_destroy_ok by done. ostep. rewrite lock_destroy_ok by (done || unfold owner_of in *; simpl; by rewrite lookup_delete_ne). ostep.
  rewrite sem_destroy_ok by done. ostep. rewrite Heq. ostep. unfold q_destroy. rewrite (q_empty_ok _ _ Hq'). simpl. eauto.
Qed.

Lemma driver_call p j c i a b n : driver p (Call j :: c) i a b n → j = CP CatMouseWait ∧ driver p c i a b (n + 1).
Proof. intros Hd. inversion Hd; subst. split; [done|]. by apply D_next. Qed.

Section driver_step.
Context (p : params) (Hp : params_ok p) (st : cm) (t : Z) (th : thr) (k0 : list instr).
Context (L : live p st) (Hcur : ss_cur (c_s st) = Some t) (Hcode : ss_code (c_s st) !! t = Some k0) (Hth : c_thr st !! t = Some th) (Hrole : role_of th = Main).
Let nc := tally (is_kind Cat) (views p st).
Let nm := tally (is_kind Mouse) (views p st).
Let w := waited_for (count_of (c_s st)) (views p st).

Lemma main_at : t = p_main p ∧ views p st !! 0%nat = Some (view_of k0 th) ∧ driver p (pending k0 ++ code th) (l_i (vars th)) nc nm w.
Proof using Hp L Hcur Hcode Hth Hrole.
  destruct L as [Hs G]. pose proof (cur_range p st t Hs Hcur) as Hr. pose proof (cur_slot st t k0 th Hcode Hth) as Hslot.
  assert (t = p_main p) as ->.
  { destruct (decide (t = p_main p)) as [|Hne]; [done|]. exfalso.
    destruct (pl_animals _ _ _ (gi_places _ _ _ _ _ G) (Z.to_nat (t - p_main p - 1)) (view_of k0 th)) as (k & Hk & _); [|simpl in Hk; congruence].
    apply views_lookup. split; [lia|]. rewrite <- Hslot. f_equal. lia. }
  assert (Hv : views p st !! 0%nat = Some (view_of k0 th)) by (apply views_lookup; rewrite Z.add_0_r; split; [lia|done]).
  split_and!; try done. destruct (pl_main _ _ _ (gi_places _ _ _ _ _ G)) as (v & Hv' & _ & Hd). assert (v = view_of k0 th) as -> by congruence. exact Hd.
Qed.

Lemma main_move s' pend code' r' : ss_code s' = <[t := pend]> (ss_code (c_s st)) → all_threads s' ≡ₚ all_threads (c_s st) → paused pend →
  (∀ u, u ∈ ss_asleep s' → u ∈ ss_asleep (c_s st) ∨ (u = t ∧ pending pend ++ code' ≠ [])) → ss_owner s' = ss_owner (c_s st) →
  (∀ s, s ≠ CatMouseWait → count_of s' s = count_of (c_s st) s) → 0 ≤ count_of s' CatMouseWait →
  driver p (pending pend ++ code') (l_i r') nc nm (w + count_of (c_s st) CatMouseWait - count_of s' CatMouseWait) →
  live p (after st t s' (c_data st) (Thr (role_of th) code' r')).
Proof using Hp L Hcur Hcode Hth Hrole.
  intros Hc Hpe Hpa Ha Ho Hcnt Hpos Hd. destruct main_at as (Ht & Hv & _), L as [Hs G]. split; [by eapply sched_after|].
  rewrite (views_update p st _ 0); [|done|intros u Hu; rewrite (slot_after st t _ _ _ pend) by done; by rewrite decide_False by lia].
  rewrite Z.add_0_r, <- Ht, (slot_after st t _ _ _ pend), decide_True by done. unfold owner_of. simpl. rewrite Ho.
  set (v' := view_of pend (Thr (role_of th) code' r')). assert (Hflags : ∀ m, m ∈ marks → having m v' = false) by (intros m Hm; by eapply driver_flags).
  pose proof (ginv_main p Hp (c_data st) (count_of (c_s st)) (count_of s') (owner_of (c_s st)) (views p st) _ v' [] G Hv Hrole Hflags) as Hg.
  rewrite (kinds_main p Hp _ _ _ _ _ v' [] G Hv Hrole), (kinds_main p Hp _ _ _ _ _ v' [] G Hv Hrole), (waited_main p Hp _ _ _ _ _ _ v' [] G Hv Hrole Hflags) in Hg.
  simpl in Hg. rewrite app_nil_r, !Z.add_0_r in Hg. apply Hg; try (by apply Hcnt); [|done].
  intros s. destruct (decide (s = CatMouseWait)) as [->|Hne]; [done|]. rewrite Hcnt by done. apply (ct_nonneg _ _ _ _ (gi_counters _ _ _ _ _ G)).
Qed.

Lemma main_flow code' r' : k0 = [] → driver p code' (l_i r') nc nm w → live p (after st t (c_s st) (c_data st) (Thr (role_of th) code' r')).
Proof using Hp L Hcur Hcode Hth Hrole.
  intros Hk Hd. apply (main_move _ []); try done; [by rewrite insert_id by congruence|auto|apply (live_nonneg p st L)|].
  replace (w + _ - _) with w by lia. done.
Qed.

(** *** Forking *)

Lemma sched_fork k rest : sched p (fork k (set_thr t (Thr (role_of th) rest (vars th)) st)).
Proof using Hp L Hcur Hcode Hth Hrole.
  destruct L as [Hs _]. pose proof (cur_range p st t Hs Hcur) as Ht. destruct Hs as [H1 H2 H3 H4 H5].
  assert (Hall : all_threads (c_s (fork k (set_thr t (Thr (role_of th) rest (vars th)) st))) ≡ₚ c_next st :: all_threads (c_s st)).
  { unfold all_threads, fork. simpl. solve_Permutation. }
  split.
  - simpl. lia.
  - rewrite Hall. apply NoDup_cons. split; [|done]. intros Hin%H3. lia.
  - intros u. rewrite Hall. simpl. intros [->|Hu%H3]%elem_of_cons; lia.
  - intros u Hu. simpl in Hu. destruct (decide (u = c_next st)) as [->|Hne].
    + exists [], (Thr (Animal k) (simulation k) (Locals 0 None)). simpl. by rewrite !lookup_insert_eq.
    + destruct (H4 u) as (k' & th' & Ha & Hb & Hc); [lia|]. exists k', (if decide (u = t) then Thr (role_of th) rest (vars th) else th').
      simpl. rewrite !(lookup_insert_ne _ (c_next st)) by done. split; [done|]. split; [|done]. case_decide; [subst; apply lookup_insert_eq|by rewrite lookup_insert_ne].
  - intros u Hu. simpl in Hu. assert (u ≠ c_next st ∧ u ≠ t) as [Hn1 Hn2].
    { split; intros ->; [|by apply (cur_awake p st t (proj1 L) Hcur)]. assert (Hin : c_next st ∈ all_threads (c_s st)) by (unfold all_threads; set_solver).
      apply H3 in Hin. lia. }
    unfold slot_of. simpl. rewrite !lookup_insert_ne by done. by apply H5.
Qed.

Lemma views_fork k rest : views p (fork k (set_thr t (Thr (role_of th) rest (vars th)) st)) =
  <[0%nat := view_of k0 (Thr (role_of th) rest (vars th))]> (views p st) ++ [newborn k].
Proof using Hp L Hcur Hcode Hth Hrole.
  destruct main_at as (Ht & Hv & _), L as [Hs _]. pose proof (sd_next _ _ Hs). set (st1 := set_thr t _ st).
  assert (H1 : views p st1 = <[0%nat := view_of k0 (Thr (role_of th) rest (vars th))]> (views p st)).
  { rewrite (views_update p st st1 0); [|done|intros u Hu; unfold slot_of, st1; simpl; by rewrite lookup_insert_ne by lia]. f_equal.
    rewrite Z.add_0_r, <- Ht. unfold slot_of, st1. simpl. by rewrite Hcode, lookup_insert_eq. }
  rewrite <- H1. unfold views. simpl. replace (c_next st + 1 - p_main p) with (c_next st - p_main p + 1) by lia.
  rewrite seqZ_app, fmap_app by lia. f_equal.
  - apply list_fmap_ext. intros j u Hu. apply lookup_seqZ in Hu as [-> ?]. unfold slot_of, st1. simpl. by rewrite !(lookup_insert_ne _ (c_next st)) by lia.
  - replace (p_main p + (c_next st - p_main p)) with (c_next st) by lia. unfold slot_of. simpl. rewrite ?Z.add_0_r. by rewrite !lookup_insert_eq.
Qed.

Lemma main_fork k rest : k0 = [] → driver p rest (l_i (vars th)) (nc + len (filter (Cat =.) [k])) (nm + len (filter (Mouse =.) [k])) w →
  live p (fork k (set_thr t (Thr (role_of th) rest (vars th)) st)).
Proof using Hp L Hcur Hcode Hth Hrole.
  intros Hk Hd. destruct main_at as (Ht & Hv & _). split; [apply sched_fork|]. destruct L as [Hs G]. rewrite views_fork.
  set (v' := view_of k0 (Thr (role_of th) rest (vars th))).
  assert (Hflags : ∀ m, m ∈ marks → having m v' = false) by (intros m Hm; unfold having, v'; simpl; rewrite Hk; by eapply driver_flags).
  pose proof (ginv_main p Hp (c_data st) (count_of (c_s st)) (count_of (c_s st)) (owner_of (c_s st)) (views p st) _ v' [k] G Hv Hrole Hflags) as Hg.
  rewrite (kinds_main p Hp _ _ _ _ _ v' [k] G Hv Hrole), (kinds_main p Hp _ _ _ _ _ v' [k] G Hv Hrole), (waited_main p Hp _ _ _ _ _ _ v' [k] G Hv Hrole Hflags) in Hg.
  apply Hg; try done; [apply (ct_nonneg _ _ _ _ (gi_counters _ _ _ _ _ G))|]. unfold v'. rewrite Hk. simpl. fold nc nm w. replace (w + _ - _) with w by lia. done.
Qed.

(** *** Waiting *)

Lemma main_P rest : driver p rest (l_i (vars th)) nc nm (w + 1) → pending k0 ++ code th = Call (CP CatMouseWait) :: rest →
  ∃ s' e, P 0 t CatMouseWait [] (c_s st) = Ret (s', e) ∧ live p (after st t s' (c_data st) (Thr (role_of th) rest (vars th))).
Proof using Hp L Hcur Hcode Hth Hrole.
  intros Hd Hleft. destruct main_at as (_ & _ & Hold). rewrite Hleft in Hold.
  destruct (P_effect t (c_s st) Hcur CatMouseWait) as (s' & e & -> & [[Hc Hn Ho Ht Ha]|[Hpos [Hc Hn Ho Ht Ha]]]); [done|apply (live_nonneg p st L)|..];
    exists s', e; (split; [done|]); eapply main_move; try done; try (intros u Hu; destruct (Ha u Hu) as [?|[-> ?]]; [by left|by right]).
  - intros s _. unfold count_of. by rewrite Hn.
  - unfold count_of. rewrite Hn. apply (live_nonneg p st L).
  - unfold count_of. rewrite Hn. replace (w + _ - _) with w by lia. exact Hold.
  - intros s Hne. rewrite (count_changed _ _ _ _ s Hn). by rewrite decide_False.
  - rewrite (count_changed _ _ _ _ _ Hn), decide_True by done. lia.
  - rewrite (count_changed _ _ _ _ _ Hn), decide_True by done. replace (w + _ - _) with (w + 1) by lia. done.
Qed.

(** *** Taking it all down *)

Lemma all_done : pending k0 ++ code th = [Cleanup] → nc = p_cats p ∧ nm = p_mice p ∧
  ∀ i v, views p st !! S i = Some v → v_left v = [] ∧ ∃ k, v_role v = Animal k ∧ l_i (v_vars v) = p_loops p.
Proof using Hp L Hcur Hcode Hth Hrole.
  intros Hleft. destruct main_at as (_ & _ & Hd). rewrite Hleft in Hd. pose proof (live_nonneg p st L CatMouseWait) as Hn. destruct L as [Hs G].
  pose proof (animals_total p _ _ (gi_places _ _ _ _ _ G)) as Htot. fold nc nm in Htot.
  assert (Hw : w = len (views p st) - 1 - tally (having (on_sem CatMouseWait)) (views p st) - count_of (c_s st) CatMouseWait) by done.
  pose proof (tally_bounds (having (on_sem CatMouseWait)) (views p st)). revert Hd Hw Htot. generalize nc, nm, w. intros a b c Hd.
  inversion Hd; subst. intros Hw Htot. split_and!; try done. intros i v Hv.
  destruct (pl_animals _ _ _ (gi_places _ _ _ _ _ G) i v Hv) as (k & Hk & Hpos & Hl).
  pose proof (tally_none (having (on_sem CatMouseWait)) (views p st) v ltac:(lia) (list_elem_of_lookup_2 _ _ _ Hv)) as Hfin.
  pose proof (positions_sane k _ Hpos) as Hsane. rewrite !andb_true_iff in Hsane. destruct Hsane as [[_ Hord] _]. apply andb_true_iff in Hord as [_ Hord].
  apply eqb_prop in Hord. unfold having in Hfin. rewrite Hfin in Hord. destruct (v_left v) eqn:E; [|done].
  split; [done|]. exists k. split; [done|]. unfold laps_ok in Hl. by rewrite E in Hl.
Qed.

Lemma all_awake : k0 = [] → pending k0 ++ code th = [Cleanup] → ss_asleep (c_s st) = [] ∧
  owner_of (c_s st) WaitConditions = NULL ∧ owner_of (c_s st) FreeBlockBowls = NULL.
Proof using Hp L Hcur Hcode Hth Hrole.
  intros Hk Hleft. destruct (all_done Hleft) as (_ & _ & Hall). destruct main_at as (Ht & Hv & Hd). pose proof (cur_awake p st t (proj1 L) Hcur) as Hawake.
  destruct L as [Hs G]. split.
  - destruct (ss_asleep (c_s st)) as [|u l] eqn:E; [done|]. exfalso. assert (Hin : u ∈ ss_asleep (c_s st)) by (rewrite E; set_solver).
    pose proof (sd_range _ _ Hs u ltac:(unfold all_threads; set_solver)) as Hr. apply (sd_asleep _ _ Hs u Hin).
    assert (u ≠ t) by (intros ->; set_solver).
    apply (Hall (Z.to_nat (u - p_main p - 1))), views_lookup. split; [lia|]. f_equal. lia.
  - assert (Hno : ∀ l, on_lock l ∈ marks → owner_ok p (owner_of (c_s st)) (views p st) l → owner_of (c_s st) l = NULL).
    { intros l Hm [Ho [?|([|i] & v & Hi & Hown)]]; [done|..].
      - apply (Ho _ _ Hi) in Hown. assert (v = view_of k0 th) as -> by congruence. unfold having in Hown. simpl in Hown. by erewrite driver_flags in Hown.
      - apply (Ho _ _ Hi) in Hown. destruct (Hall i v Hi) as [Hv0 _]. unfold having in Hown. by rewrite Hv0 in Hown. }
    destruct (gi_owners _ _ _ _ _ G). split; apply Hno; try done; unfold marks; set_solver.
Qed.

Lemma main_cleanup : k0 = [] → code th = [Cleanup] → ∃ d' s', cleanup (c_data st) (c_s st) = Ret (d', s') ∧
  over p (after st t s' d' (Thr (role_of th) [] (vars th))).
Proof using Hp L Hcur Hcode Hth Hrole.
  intros Hk Hc. assert (Hleft : pending k0 ++ code th = [Cleanup]) by (by rewrite Hk, Hc).
  destruct (all_done Hleft) as (Hnc & Hnm & Hall). destruct (all_awake Hk Hleft) as (Ha & Hw & Hf). destruct main_at as (Ht & Hv & Hd). destruct L as [Hs G].
  destruct (tb_queue _ _ _ (gi_tables _ _ _ _ _ G)) as (l & Hq & _).
  destruct (cleanup_ok _ _ l Ha Hw Hf (co_cvs _ _ (gi_consts _ _ _ _ _ G)) Hq) as (d' & cnt & own & ->). do 2 eexists. split; [done|].
  set (st' := after _ _ _ _ _). assert (Hsched : sched p st').
  { unfold st'. apply (sched_after p st t Hs Hcur _ _ _ []); try done; [simpl; by rewrite insert_id by congruence|simpl; rewrite Ha; set_solver]. }
  assert (Hviews : views p st' = <[0%nat := View Main [] (vars th)]> (views p st)).
  { rewrite (views_update p st st' 0); [|done|intros u Hu; unfold slot_of, st'; simpl; by rewrite lookup_insert_ne by lia].
    f_equal. rewrite Z.add_0_r, <- Ht. unfold slot_of, st'. simpl. rewrite Hcode, Hk, lookup_insert_eq. unfold view_of. simpl. by rewrite Hrole. }
  assert (Hkinds : ∀ k, tally (is_kind k) (views p st') = tally (is_kind k) (views p st)).
  { intros k. rewrite Hviews, (tally_insert _ _ _ _ _ Hv). unfold is_kind at 2 3. simpl. rewrite Hrole. simpl. lia. }
  split; [done|]. rewrite !Hkinds. split_and!; try done.
  - rewrite Hviews. intros v [[|i] Hi]%list_elem_of_lookup; [|rewrite list_lookup_insert_ne in Hi by done; by eapply Hall].
    rewrite list_lookup_insert_eq in Hi by (by eapply lookup_lt_Some). by injection Hi as <-.
  - rewrite Hviews. intros i v Hi. rewrite list_lookup_insert_ne in Hi by done. by eapply Hall.
Qed.

Lemma main_stmt km c i a b n : code th = c → l_i (vars th) = i → nc = a → nm = b → w = n → driver p c i a b n → k0 = [] →
  match c with [] => True | x :: rest => good p st (exec_stmt km t th x rest st) end.
Proof using Hp L Hcur Hcode Hth Hrole.
  intros Hc Hi Ha Hb Hn Hd Hk. pose proof Hp as [_ ? ? ? _ _]. destruct L as [_ G]. destruct (gi_consts _ _ _ _ _ G) as [_ Kc Km _ _ _].
  assert (Hflow : ∀ code' r', driver p code' (l_i r') a b n → good p st (Ret (set_thr t (Thr (role_of th) code' r') st))).
  { intros code' r' Hd'. left. apply main_flow; [done|]. by rewrite Ha, Hb, Hn. }
  destruct Hd; unfold exec_stmt; cbn [ask act catmouse drop].
  - apply Hflow. cbn. rewrite Hi, Kc. case_bool_decide; [apply D_fork_cat; lia|]. replace i with (p_cats p) by lia. constructor.
  - left. apply main_fork; [done|]. rewrite Hi, Ha, Hb, Hn. by apply D_next_cat.
  - ostep. apply (Hflow _ (Locals _ _)). cbn. rewrite Hi, s32_small by lia. apply D_cats. lia.
  - ostep. apply (Hflow _ (Locals _ _)). cbn. apply D_mice. lia.
  - apply Hflow. cbn. rewrite Hi, Km. case_bool_decide; [apply D_fork_mouse; lia|]. replace i with (p_mice p) by lia. constructor.
  - left. apply main_fork; [done|]. rewrite Hi, Ha, Hb, Hn. cbn. rewrite Z.add_0_r. by apply D_next_mouse.
  - ostep. apply (Hflow _ (Locals _ _)). cbn. rewrite Hi, s32_small by lia. apply D_mice. lia.
  - ostep. apply (Hflow _ (Locals _ _)). cbn. apply D_wait. lia.
  - apply Hflow. cbn. rewrite Hi, Kc, Km. case_bool_decide; [apply D_P; lia|]. replace i with (p_cats p + p_mice p) by lia. constructor.
  - destruct (main_P (Do NextLoop :: drop 4 catmouse)) as (s' & e & Heq & Hl); [rewrite Hi, Ha, Hb, Hn; by apply D_next|by rewrite Hk, Hc|].
    cbn. rewrite Heq. left. exact Hl.
  - ostep. apply (Hflow _ (Locals _ _)). cbn. rewrite Hi, s32_small by lia. apply D_wait. lia.
  - destruct (main_cleanup Hk Hc) as (d' & s' & Heq & Hov). rewrite Heq. right. exact Hov.
Qed.

Lemma main_inside i k1 : k0 = i :: k1 → paused k0 → ∃ s' e, exec_instr t i k1 (c_s st) = Ret (s', e) ∧ live p (set_s s' st).
Proof using Hp L Hcur Hcode Hth Hrole.
  intros Hk Hpa. destruct main_at as (_ & _ & Hd). setoid_rewrite <- (after_same st t _ th Hth). rewrite Hk in Hpa, Hd.
  destruct k1; [|by destruct i]. destruct i; try done; apply driver_call in Hd as [Hj Hd]; try done. injection Hj as ->.
  apply main_P; [done|by rewrite Hk].
Qed.

Lemma main_step km : good p st (step km st).
Proof using Hp L Hcur Hcode Hth Hrole.
  destruct (sd_code _ _ (proj1 L) t (cur_range p st t (proj1 L) Hcur)) as (k1 & th' & Hcode' & Hth' & Hpa). assert (k1 = k0) as -> by congruence.
  unfold step. rewrite Hcur, Hcode, Hth. destruct (decide (k0 = [])) as [Hk|Hk].
  - destruct main_at as (_ & _ & Hd). rewrite Hk in Hd. pose proof (main_stmt km _ _ _ _ _ eq_refl eq_refl eq_refl eq_refl eq_refl Hd Hk) as Hg.
    rewrite Hk. destruct (code th); [|exact Hg]. left. apply live_reschedules; [done|apply dispatch_reschedules].
  - assert (∃ i k1, k0 = i :: k1) as (i & k1 & E) by (destruct k0; naive_solver).
    destruct (main_inside i k1 E Hpa) as (s' & e & Heq & Hl). rewrite E, Heq. by left.
Qed.
End driver_step.

(** ** Runs *)

Definition inv (p : params) (st : cm) : Prop := live p st ∨ over p st.

Lemma over_reschedules p st s' : over p st → reschedules (c_s st) s' → over p (set_s s' st).
Proof.
  intros (Hs & H1 & H2 & H3 & H4) Hr. split; [by apply sched_reschedules|]. by rewrite views_reschedules by (apply Hr).
Qed.
Lemma inv_reschedules p st s' : inv p st → reschedules (c_s st) s' → inv p (set_s s' st).
Proof. intros [H|H] Hr; [left; by apply live_reschedules|right; by apply over_reschedules]. Qed.

Lemma over_step p km st : over p st → ∃ st', step km st = Ret st' ∧ inv p st'.
Proof.
  intros Hov. pose proof Hov as (Hs & Hall & _). unfold step. destruct (ss_cur (c_s st)) as [t|] eqn:Hcur.
  - pose proof (cur_range p st t Hs Hcur) as Hr. destruct (sd_code _ _ Hs t Hr) as (k0 & th & Hcode & Hth & Hpa). rewrite Hcode, Hth.
    assert (Hleft : pending k0 ++ code th = []).
    { rewrite <- (Hall (slot_of st t)); [by rewrite (cur_slot st t k0 th)|]. apply (list_elem_of_lookup_2 _ (Z.to_nat (t - p_main p))), views_lookup.
      replace (p_main p + Z.of_nat (Z.to_nat (t - p_main p))) with t by lia. split; [lia|done]. }
    apply app_eq_nil in Hleft as [Hpe Hc]. rewrite Hc. assert (k0 = []) as -> by (by destruct k0 as [|[] []]).
    eexists. split; [done|]. apply inv_reschedules; [by right|apply dispatch_reschedules].
  - eexists. split; [done|]. apply inv_reschedules; [by right|apply dispatch_reschedules].
Qed.

Lemma live_step p km st : params_ok p → live p st → good p st (step km st).
Proof.
  intros Hp L. destruct (ss_cur (c_s st)) as [t|] eqn:Hcur.
  - pose proof L as [Hs _]. destruct (sd_code _ _ Hs t (cur_range p st t Hs Hcur)) as (k0 & th & Hcode & Hth & _).
    destruct (role_of th) as [|k] eqn:Hr; [by eapply main_step|by eapply animal_step].
  - unfold step. rewrite Hcur. left. apply live_reschedules; [done|apply dispatch_reschedules].
Qed.

(** The lbolt counter is the clock's own. *)
Lemma inv_ticks p st n s : inv p (set_s s st) → inv p (Cm s (c_data st) (c_thr st) (c_next st) n).
Proof. by intros [[[] []]|[[] ?]]; [left|right]. Qed.

(** What any choice leads to. *)
Lemma choose_ok p km c st : params_ok p → inv p st →
  (∃ st', choose km c st = Ret st' ∧ inv p st') ∨ (choose km c st = Panic ∧ clash st).
Proof.
  intros Hp Hi. destruct c; simpl.
  - destruct Hi as [L|Hov]; [|left; by apply over_step]. pose proof (live_step p km st Hp L) as Hg.
    destruct (step km st) as [st'| | |]; try done; [left; eauto|by right].
  - left. eexists. split; [done|]. destruct (interrupts_on st); [|done]. unfold cm_hardclock. case_bool_decide.
    + apply inv_ticks, inv_reschedules; [done|]. eapply reschedules_trans; [apply wakeup_reschedules|apply preempt_reschedules].
    + apply inv_ticks, inv_reschedules; [done|apply preempt_reschedules].
Qed.

Lemma run_ok p km cs : params_ok p → ∀ st, inv p st → (∃ st', run km cs st = Ret st' ∧ inv p st') ∨
  (run km cs st = Panic ∧ ∃ cs1 cs2 st', cs = cs1 ++ cs2 ∧ run km cs1 st = Ret st' ∧ inv p st' ∧ clash st').
Proof.
  intros Hp. induction cs as [|c cs IH]; intros st Hi; [left; simpl; eauto|]. simpl.
  destruct (choose_ok p km c st Hp Hi) as [(st1 & Heq & Hi1)|[Heq Hcl]]; rewrite Heq; ostep.
  - destruct (IH st1 Hi1) as [?|(Hr & cs1 & cs2 & st' & -> & Hrun & ?)]; [by left|right]. split; [done|].
    exists (c :: cs1), cs2, st'. split_and!; try done; [|tauto..]. simpl. by rewrite Heq.
  - right. split; [done|]. exists [], (c :: cs), st. done.
Qed.
