(* ===== verification/CatMouseTheorems.v ===== *)
(** * What the cats and mice do

    A run of catmouse() from its setup: the bowls, the counters and the locks are used as they should be
    whatever the scheduler does, and a run that reaches its end has served everybody.  The one thing that can
    go wrong is that an animal is let in while the other kind eats, where bowls.c panics. *)

From S2P Require Import Prelude CQueue Thread ThreadSpec Synch CString CatMouse CatMouseSpec CatMouseSteps CatMouseRun CatMouseDriver.

Definition yes {A} (_ : A) : bool := true.

(** ** The setup *)

Lemma fill_bowls_ok (q : queue Z) n : 0 ≤ n ≤ 2 ^ 28 - 2 → qrepr q [] → ∃ q', for_each (Z.to_nat n) 1 (fill_turn yes) q = Ret q' ∧ qrepr q' (seqZ 1 n).
Proof.
  intros Hn Hq. destruct (for_each_inv (λ i q, qrepr q (seqZ 1 (i - 1))) (fill_turn yes) (Z.to_nat n) 1 q) as (q' & -> & Hq').
  - by replace (seqZ 1 (1 - 1)) with ([] : list Z) by done.
  - intros i q1 Hi Hq1. unfold fill_turn.
    destruct (q_addtail_ok yes q1 (seqZ 1 (i - 1)) i Hq1) as [(q2 & -> & Hq2 & _)|(_ & _ & y & Hy)]; [rewrite length_seqZ; lia| |done].
    ostep. exists q2. split; [done|]. replace (i + 1 - 1) with (i - 1 + 1) by lia. rewrite seqZ_app by lia. simpl. rewrite ?Z.add_0_r.
    by replace (1 + (i - 1)) with i by lia.
  - exists q'. split; [done|]. by replace (1 + Z.of_nat (Z.to_nat n) - 1) with n in Hq' by lia.
Qed.

Lemma live_start p st : params_ok p → c_next st = p_main p + 1 → c_thr st = {[p_main p := Thr Main catmouse (Locals 0 None)]} →
  all_threads (c_s st) = [p_main p] → ss_asleep (c_s st) = [] → ss_code (c_s st) = {[p_main p := []]} →
  consts p (c_data st) → eating_count (c_data st) = Both 0 0 → waiting_count (c_data st) = Both 0 0 → bowl_eating_count (c_data st) = Both 0 0 →
  bowls (c_data st) = replicate (Z.to_nat (p_bowls p)) DASH → qrepr (FreeBowlsList (c_data st)) (seqZ 1 (p_bowls p)) →
  count_of (c_s st) CatMouseWait = 0 → count_of (c_s st) MaxBowlCount = p_bowls p → count_of (c_s st) mutex = 1 → (∀ s, 0 ≤ count_of (c_s st) s) →
  (∀ l, owner_of (c_s st) l = NULL) → live p st.
Proof.
  intros Hp Hn Hth Hall Has Hcode Hco He Hw Hbe Hb Hq Hc1 Hc2 Hc3 Hc4 Ho. pose proof Hp as [Hpb Hpc Hpm _ _ Hpmain].
  assert (Hv : views p st = [View Main catmouse (Locals 0 None)]).
  { unfold views. rewrite Hn. replace (p_main p + 1 - p_main p) with 1 by lia. simpl. unfold slot_of. rewrite Hth, Hcode. rewrite ?Z.add_0_r, !lookup_singleton_eq. done. }
  split; [|rewrite Hv].
  - split; [lia|rewrite Hall; apply NoDup_singleton|rewrite Hall; intros t ->%list_elem_of_singleton; lia| |rewrite Has; set_solver].
    intros t Hr. assert (t = p_main p) as -> by lia. rewrite Hcode, Hth, !lookup_singleton_eq. by do 2 eexists.
  - split; [done| |split|..|].
    + split; rewrite ?He, ?Hw, ?Hbe; try (by intros []); [rewrite Hc2; simpl; lia|by rewrite Hc3].
    + split; [|by left]. intros i v Hi. rewrite Ho. apply list_lookup_singleton_Some in Hi as [-> <-]. unfold NULL. split; [done|lia].
    + split; [|by left]. intros i v Hi. rewrite Ho. apply list_lookup_singleton_Some in Hi as [-> <-]. unfold NULL. split; [done|lia].
    + split; rewrite ?Hb; try (by intros v ->%list_elem_of_singleton).
      * exists (seqZ 1 (p_bowls p)). split_and!; [done|pose proof (qr_room _ _ Hq) as Hr; rewrite length_seqZ in Hr; lia|]. by rewrite app_nil_r.
      * rewrite length_replicate. lia.
      * intros b c _ Hc. left. by apply lookup_replicate in Hc as [-> _].
    + split.
      * eexists. split_and!; [done..|]. unfold waited_for. rewrite Hc1. simpl. apply D_cats. lia.
      * intros i v Hi. by rewrite lookup_cons_ne_0 in Hi.
Qed.

Lemma setup_ok p lb : params_ok p → ∃ st, catmouse_setup yes yes (p_bowls p) (p_cats p) (p_mice p) (p_loops p) (p_main p) lb = Ret st ∧ live p st.
Proof.
  intros Hp. pose proof Hp as [Hb Hc Hm Ha Hl Ht]. unfold catmouse_setup, sem_create, initialize_bowls, lock_create, sem_create, q_create, yes. simpl.
  rewrite (bool_decide_eq_true_2 (0 ≤ p_bowls p)) by lia. simpl. rewrite (bool_decide_eq_false_2 (p_bowls p = 0)) by lia. simpl.
  destruct (fill_bowls_ok (Queue (p_bowls p) 0 0 (replicate (Z.to_nat (p_bowls p)) None)) (p_bowls p)) as (q & Hq & Hr); [lia|apply qrepr_new; lia|].
  unfold yes in Hq. rewrite Hq. simpl. eexists. split; [done|]. apply live_start; try done.
  - intros s. cbn [c_s]. assert (Hso : ∀ l o s', count_of (set_owner l o s') s = count_of s' s) by done.
    rewrite count_set, !Hso, !count_set. repeat case_decide; try lia. unfold count_of. simpl. by rewrite lookup_empty.
  - intros l. cbn [c_s]. assert (Hsc : ∀ x n s', owner_of (set_count x n s') l = owner_of s' l) by done.
    rewrite Hsc, !owner_set, !Hsc. by repeat case_decide.
Qed.

(** ** The rules *)

Definition with_bowl (st : cm) (t b : Z) : Prop := having on_bowl (slot_of st t) = true ∧ l_bowl (v_vars (slot_of st t)) = Some b.
Definition eating (st : cm) (t : Z) : Prop := having on_table (slot_of st t) = true.
(** The lock that protects what a statement uses. *)
Definition protector (x : stmt) : option Z :=
  match x with
  | Do (WaitingUp | EatingUp | CountsDown) | If (OthersEating | MustYield | NobodyLeft) _ _ | While (OthersEating | MustYield) _ => Some WaitConditions
  | Do (RemHead | AddTail) | If AnyFree _ _ => Some FreeBlockBowls
  | _ => None
  end.
Definition is_thread (p : params) (st : cm) (t : Z) : Prop := p_main p ≤ t < c_next st.

(** While the driver has not returned. *)
Record at_work (p : params) (st : cm) : Prop := {
  aw_range : ∀ t b, is_thread p st t → with_bowl st t b → 1 ≤ b ≤ p_bowls p;
  aw_apart : ∀ t t' b, is_thread p st t → is_thread p st t' → with_bowl st t b → with_bowl st t' b → t = t';
  aw_eating : ∀ t, is_thread p st t → eating st t → ∃ k b, v_role (slot_of st t) = Animal k ∧ with_bowl st t b ∧
    bowls (c_data st) !! Z.to_nat (b - 1) = Some (letter k);
  aw_shown : ∀ b c, 1 ≤ b → bowls (c_data st) !! Z.to_nat (b - 1) = Some c → c = DASH ∨ ∃ t, is_thread p st t ∧ eating st t ∧ with_bowl st t b;
  aw_counted : ∀ k, num k (bowl_eating_count (c_data st)) = number k on_table (views p st) ∧
    num k (eating_count (c_data st)) = number k on_eat (views p st) ∧ num k (waiting_count (c_data st)) = number k on_wait (views p st);
  aw_locks : ∀ t th x rest l k, ss_cur (c_s st) = Some t → ss_code (c_s st) !! t = Some [] → c_thr st !! t = Some th → role_of th = Animal k →
    code th = x :: rest → protector x = Some l → owner_of (c_s st) l = t
}.
(** When it has: every cat and every mouse has had its meals. *)
Definition finished (p : params) (st : cm) : Prop :=
  (∀ t, is_thread p st t → v_left (slot_of st t) = []) ∧
  (∀ t, is_thread p st t → t ≠ p_main p → ∃ k, v_role (slot_of st t) = Animal k ∧ l_i (v_vars (slot_of st t)) = p_loops p) ∧
  tally (is_kind Cat) (views p st) = p_cats p ∧ tally (is_kind Mouse) (views p st) = p_mice p.

Lemma thread_view p st t : is_thread p st t → views p st !! Z.to_nat (t - p_main p) = Some (slot_of st t).
Proof. intros Ht. unfold is_thread in Ht. apply views_lookup. rewrite Z2Nat.id by lia. split; [lia|]. f_equal. lia. Qed.
Lemma view_thread p st v : v ∈ views p st → ∃ t, is_thread p st t ∧ v = slot_of st t.
Proof.
  intros (i & [Hi ->]%views_lookup)%list_elem_of_lookup. eexists. split; [|done]. unfold is_thread. lia.
Qed.

Lemma live_at_work p st : params_ok p → live p st → at_work p st.
Proof.
  intros Hp L. pose proof L as [Hs G]. destruct (gi_tables _ _ _ _ _ G) as [_ T1 T2 T3 T4]. destruct (gi_counters _ _ _ _ _ G). split.
  - intros t b Ht%thread_view [H1 H2]. eapply held_some; eauto. by eapply list_elem_of_lookup_2.
  - intros t t' b Ht Ht' [H1 H2] [H3 H4]. pose proof (held_apart p Hp _ _ _ _ G _ _ _ _ b (thread_view _ _ _ Ht) (thread_view _ _ _ Ht') H1 H3 H2 H4).
    unfold is_thread in *. lia.
  - intros t Ht%thread_view He. pose proof (list_elem_of_lookup_2 _ _ _ Ht) as Hin. destruct (T3 _ Hin He) as (k & b & ? & ? & ?).
    exists k, b. split_and!; try done. split; [|done]. by eapply table_bowl.
  - intros b c Hb Hc. destruct (T4 b c Hb Hc) as [?|(v & Hv & He & Hl)]; [by left|right]. pose proof (table_bowl p Hp _ _ _ _ G v Hv He).
    destruct (view_thread p st v Hv) as (t & Ht & ->). by exists t.
  - done.
  - intros t th x rest l k Hcur Hcode Hth Hr Hc Hl. pose proof (cur_sane p Hp st t [] th k x rest L Hcur Hcode Hth Hr Hc) as Ha.
    eapply (cur_owns p st t [] th k x rest); eauto.
    + destruct x as [[]| | | | | | | |[]|[]]; naive_solver.
    + destruct x as [[]| | | | | | | |[]|[]]; simplify_eq/=; try done; by apply andb_true_iff in Ha as [Ha _].
Qed.
Lemma over_finished p st : over p st → finished p st.
Proof.
  intros (Hs & H1 & H2 & H3 & H4). split_and!; try done.
  - intros t Ht%thread_view. apply H1. by eapply list_elem_of_lookup_2.
  - intros t Ht Hne. pose proof (thread_view _ _ _ Ht) as Hv. unfold is_thread in Ht.
    replace (Z.to_nat (t - p_main p)) with (S (Z.to_nat (t - p_main p - 1))) in Hv by lia. by eapply H2.
Qed.
Lemma inv_rules p st : params_ok p → inv p st → at_work p st ∨ finished p st.
Proof. intros Hp [L|O]; [left; by apply live_at_work|right; by apply over_finished]. Qed.

(** A clash takes a cat and a mouse. *)
Lemma clash_both p st : params_ok p → inv p st → p_cats p = 0 ∨ p_mice p = 0 → ¬ clash st.
Proof.
  intros Hp Hi H0 (t & th & k & rest & Hcur & Hth & Hr & Hc & Hn). destruct Hi as [L|(Hs & Hall & _)].
  - pose proof L as [Hs G]. pose proof (cur_range p st t Hs Hcur) as Ht. rewrite (ct_table _ _ _ _ (gi_counters _ _ _ _ _ G)) in Hn.
    assert (Hk : 0 < tally (is_kind k) (views p st)).
    { rewrite <- (tally_false (λ _, false) (views p st)) by done. eapply tally_lt; [done|eapply list_elem_of_lookup_2, thread_view, Ht|done|].
      unfold slot_of, is_kind. rewrite Hth. simpl. by rewrite Hr, bool_decide_eq_true_2. }
    assert (Ho : 0 < tally (is_kind (other k)) (views p st)).
    { eapply Z.lt_le_trans; [exact Hn|]. apply tally_le. intros v _ [H _]%andb_true_iff. done. }
    destruct (pl_main _ _ _ (gi_places _ _ _ _ _ G)) as (v & _ & _ & Hd). apply driver_bounds in Hd; [|done]. destruct k; simpl in Ho; lia.
  - pose proof (cur_range p st t Hs Hcur) as Ht. pose proof (Hall _ (list_elem_of_lookup_2 _ _ _ (thread_view _ _ _ Ht))) as Hleft.
    unfold slot_of in Hleft. rewrite Hth in Hleft. simpl in Hleft. rewrite Hc in Hleft. by apply app_eq_nil in Hleft as [_ ?].
Qed.

(** ** Every run *)

(** [C7] The simulation keeps its variables in order: given memory for the setup, catmouse is ready to
    run, and after any sequence of steps and interrupts of the clock it is either still at work, or finished, or it has
    panicked.  At work, every animal between taking a bowl and giving it back has a bowl between
    1 and NumBowls of its own; bowls.c shows exactly who eats where; its counters and those of
    catmouse.c are exact; and each shared variable is used under its lock.  Finished, every cat and every
    mouse has had its NumLoops meals.  The only panic is that of an animal about to eat while animals of the other
    kind do: no assertion fails, no bowl is given out twice and no semaphore or lock is misused. *)
Theorem catmouse_orderly p lb : params_ok p → ∃ st,
  catmouse_setup yes yes (p_bowls p) (p_cats p) (p_mice p) (p_loops p) (p_main p) lb = Ret st ∧
  ∀ km cs,
    (∃ st', run km cs st = Ret st' ∧ (at_work p st' ∨ finished p st')) ∨
    (run km cs st = Panic ∧ ∃ cs1 cs2 st', cs = cs1 ++ cs2 ∧ run km cs1 st = Ret st' ∧ (at_work p st' ∨ finished p st') ∧ clash st').
Proof.
  intros Hp. destruct (setup_ok p lb Hp) as (st & Hst & L). exists st. split; [done|]. intros km cs.
  destruct (run_ok p km cs Hp st (or_introl L)) as [(st' & Hr & Hi)|(Hr & cs1 & cs2 & st' & He & Hr1 & Hi & Hcl)].
  - left. exists st'. split; [done|by apply inv_rules].
  - right. split; [done|]. exists cs1, cs2, st'. split_and!; try done. by apply inv_rules.
Qed.

Definition two_each : params := Params 2 2 2 1 1.
Lemma two_each_ok : params_ok two_each.
Proof. split; simpl; lia. Qed.
Lemma catmouse_orderly_witness : ∃ st, catmouse_setup yes yes 2 2 2 1 1 0 = Ret st ∧
  (∃ st', run yes [Step] st = Ret st' ∧ (at_work two_each st' ∨ finished two_each st')).
Proof.
  destruct (catmouse_orderly two_each 0) as (st & Hst & Hrun); [exact two_each_ok|]. exists st. split; [exact Hst|].
  destruct (Hrun yes [Step]) as [H|[H _]]; [exact H|]. exfalso. vm_compute in Hst. injection Hst as <-. vm_compute in H. discriminate H.
Defined.

(** [C40] With cats alone, or mice alone, nothing goes wrong: if there are no mice or no cats, no run of the
    simulation panics, whatever the scheduler does. *)
Theorem catmouse_one_kind p lb : params_ok p → p_cats p = 0 ∨ p_mice p = 0 → ∃ st,
  catmouse_setup yes yes (p_bowls p) (p_cats p) (p_mice p) (p_loops p) (p_main p) lb = Ret st ∧
  ∀ km cs, ∃ st', run km cs st = Ret st' ∧ (at_work p st' ∨ finished p st').
Proof.
  intros Hp H0. destruct (setup_ok p lb Hp) as (st & Hst & L). exists st. split; [done|]. intros km cs.
  destruct (run_ok p km cs Hp st (or_introl L)) as [(st' & Hr & Hi)|(Hr & cs1 & cs2 & st' & He & Hr1 & Hi & Hcl)].
  - exists st'. split; [done|by apply inv_rules].
  - exfalso. by eapply clash_both.
Qed.

Lemma catmouse_one_kind_witness : ∃ st, catmouse_setup yes yes 1 2 0 3 1 0 = Ret st ∧
  ∀ km cs, ∃ st', run km cs st = Ret st' ∧ (at_work (Params 1 2 0 3 1) st' ∨ finished (Params 1 2 0 3 1) st').
Proof. apply (catmouse_one_kind (Params 1 2 0 3 1) 0); [split; simpl; lia|right; reflexivity]. Defined.
