(* ===== verification/Sfs.v ===== *)
(** * The simple file system: fs/sfs/sfs_io.c, fs/sfs/sfs_vnode.c and the disk
    driver dev/lamebus/lhd.c under it

    Blocks are lists of 512 bytes. The disk keeps its sectors and decides, by
    the number of the operation, which operations fail with a media error
    ([d_fail]). A structure the code reads or writes as a whole (an indirect
    block, an inode, a directory entry) goes through its big-endian bytes, as
    it does on the machine.

    A kernel buffer passed to the block routines is a value; [in_buffer] runs
    the uio code on a memory that holds just this buffer. *)

From S2P Require Import Prelude Bitmap KHeap KHeapSpec Coremap Uio.

Definition SFS_BLOCKSIZE : Z := 512.
Definition SFS_NDIRECT : Z := 15.
Definition SFS_DBPERIDB : Z := 128.
Definition SFS_NAMELEN : Z := 60.
Definition SFS_NOINO : Z := 0.
Definition SFS_TYPE_FILE : Z := 1.
Definition SFS_TYPE_DIR : Z := 2.
Definition LHD_SECTSIZE : Z := 512.

(** A cleared block, and what a buffer that is about to be overwritten holds. *)
Definition zero_block : list Z := replicate 512 0.

(** ** Words in bytes *)

Definition word_bytes (w : Z) : list Z := [w / 2 ^ 24; w / 2 ^ 16 mod 256; w / 2 ^ 8 mod 256; w mod 256].
Definition half_bytes (w : Z) : list Z := [w / 2 ^ 8; w mod 256].

Fixpoint words_bytes (ws : list Z) : list Z :=
  match ws with [] => [] | w :: ws => word_bytes w ++ words_bytes ws end.

Fixpoint bytes_words (l : list Z) : list Z :=
  match l with
  | a :: b :: c :: d :: l => (((a * 256 + b) * 256 + c) * 256 + d) :: bytes_words l
  | _ => []
  end.

(** ** On-disk and in-memory structures *)

Record sfs_inode := SfsInode {
  sfi_size : Z; sfi_type : Z; sfi_linkcount : Z;
  sfi_direct : list Z; sfi_indirect : Z; sfi_waste : list Z
}.

Definition inode_bytes (i : sfs_inode) : list Z :=
  word_bytes (sfi_size i) ++ half_bytes (sfi_type i) ++ half_bytes (sfi_linkcount i) ++
  words_bytes (sfi_direct i) ++ word_bytes (sfi_indirect i) ++ words_bytes (sfi_waste i).

Record sfs_vnode := SfsVnode { sv_i : sfs_inode; sv_ino : Z; sv_dirty : bool }.

Record disk := Disk { d_blocks : Z; d_sectors : list (list Z); d_fail : nat → bool; d_ops : nat }.

Record sfs_fs := SfsFs {
  sp_nblocks : Z; sfs_device : disk; sfs_freemap : bitmap; sfs_freemapdirty : bool
}.

Definition set_device (dk : disk) (s : sfs_fs) : sfs_fs := SfsFs (sp_nblocks s) dk (sfs_freemap s) (sfs_freemapdirty s).
Definition set_freemap (b : bitmap) (s : sfs_fs) : sfs_fs := SfsFs (sp_nblocks s) (sfs_device s) b true.

Definition set_direct (k b : Z) (sv : sfs_vnode) : outcome sfs_vnode :=
  d ← wr (sfi_direct (sv_i sv)) k b;
  Ret (SfsVnode (SfsInode (sfi_size (sv_i sv)) (sfi_type (sv_i sv)) (sfi_linkcount (sv_i sv)) d
                   (sfi_indirect (sv_i sv)) (sfi_waste (sv_i sv))) (sv_ino sv) true).
Definition set_indirect (b : Z) (sv : sfs_vnode) : sfs_vnode :=
  SfsVnode (SfsInode (sfi_size (sv_i sv)) (sfi_type (sv_i sv)) (sfi_linkcount (sv_i sv)) (sfi_direct (sv_i sv))
              b (sfi_waste (sv_i sv))) (sv_ino sv) true.
Definition set_size (n : Z) (sv : sfs_vnode) : sfs_vnode :=
  SfsVnode (SfsInode n (sfi_type (sv_i sv)) (sfi_linkcount (sv_i sv)) (sfi_direct (sv_i sv))
              (sfi_indirect (sv_i sv)) (sfi_waste (sv_i sv))) (sv_ino sv) true.
Definition set_clean (sv : sfs_vnode) : sfs_vnode := SfsVnode (sv_i sv) (sv_ino sv) false.

Section sfs.
Context (present : Z → bool) (space : Z).

(** ** lhd.c *)

(** Start an operation and wait for the interrupt: did it fail? *)
Definition d_start (dk : disk) : bool * disk :=
  (d_fail dk (d_ops dk), Disk (d_blocks dk) (d_sectors dk) (d_fail dk) (S (d_ops dk))).
Definition set_sectors (ss : list (list Z)) (dk : disk) : disk := Disk (d_blocks dk) ss (d_fail dk) (d_ops dk).

(** The buffer on the card, which every transfer overwrites. *)
Definition lh_buf : list Z := zero_block.

Abbreviation dstate := (disk * memory * uio)%type.

Definition lhd_sector (sector i : Z) (st : dstate) : outcome (dstate + Z * dstate) :=
  let '(dk, m, u) := st in
  match uio_dir u with
  | UIO_WRITE =>
      '(e, m, buf, u) ← uiomove present space m lh_buf LHD_SECTSIZE u;
      if bool_decide (e ≠ 0) then Ret (inr (e, (dk, m, u)))
      else
        let '(failed, dk) := d_start dk in
        if failed then Ret (inr (EIO, (dk, m, u)))
        else ss ← wr (d_sectors dk) (sector + i) buf; Ret (inl (set_sectors ss dk, m, u))
  | UIO_READ =>
      let '(failed, dk) := d_start dk in
      if failed then Ret (inr (EIO, (dk, m, u)))
      else
        buf ← rd (d_sectors dk) (sector + i);
        '(e, m, _, u) ← uiomove present space m buf LHD_SECTSIZE u;
        if bool_decide (e ≠ 0) then Ret (inr (e, (dk, m, u))) else Ret (inl (dk, m, u))
  end.

Definition lhd_io (st : dstate) : outcome (Z * dstate) :=
  let '(dk, m, u) := st in
  let sector := u32 (Z.quot (uio_offset u) LHD_SECTSIZE) in
  let sectoff := u32 (Z.rem (uio_offset u) LHD_SECTSIZE) in
  let len := uio_resid u / LHD_SECTSIZE in
  let lenoff := uio_resid u mod LHD_SECTSIZE in
  if bool_decide (sectoff ≠ 0) || bool_decide (lenoff ≠ 0) then Ret (EINVAL, st)
  else if bool_decide (d_blocks dk < u32 (sector + len)) then Ret (EINVAL, st)
  else
    r ← for_loop (Z.to_nat len) 0 (lhd_sector sector) st;
    Ret (match r with inl st => (0, st) | inr r => r end).

(** ** sfs_io.c *)

(** [more] retries are left; the first attempt leaves ten. *)
Fixpoint sfs_rw_tries (more : nat) (st : dstate) : outcome (Z * dstate) :=
  '(e, st) ← lhd_io st;
  if bool_decide (e = EINVAL) then Panic
  else if bool_decide (e = EIO) then
    match more with
    | O => Ret (e, st)
    | S more => sfs_rw_tries more st
    end
  else Ret (e, st).

Definition sfs_rwblock (s : sfs_fs) (m : memory) (u : uio) : outcome (Z * sfs_fs * memory * uio) :=
  '(e, (dk, m, u)) ← sfs_rw_tries 10 (sfs_device s, m, u);
  Ret (e, set_device dk s, m, u).

(** Where a kernel buffer lies. *)
Definition KBUF : Z := 0x80100000.

Definition in_buffer (data : list Z) (pos : Z) (rw : uio_rw) (s : sfs_fs) : outcome (Z * sfs_fs * list Z) :=
  '(e, s, m, _) ← sfs_rwblock s (store ∅ KBUF data) (mk_kuio KBUF SFS_BLOCKSIZE pos rw);
  Ret (e, s, load m KBUF (length data)).

Definition sfs_rblock (s : sfs_fs) (data : list Z) (block : Z) : outcome (Z * sfs_fs * list Z) :=
  in_buffer data (s32 (s32 block * SFS_BLOCKSIZE)) UIO_READ s.

Definition sfs_wblock (s : sfs_fs) (data : list Z) (block : Z) : outcome (Z * sfs_fs) :=
  '(e, s, _) ← in_buffer data (s32 (s32 block * SFS_BLOCKSIZE)) UIO_WRITE s;
  Ret (e, s).

(** ** Space allocation *)

Definition sfs_clearblock (s : sfs_fs) (block : Z) : outcome (Z * sfs_fs) :=
  sfs_wblock s zero_block block.

Definition sfs_sync_inode (s : sfs_fs) (sv : sfs_vnode) : outcome (Z * sfs_fs * sfs_vnode) :=
  if sv_dirty sv then
    '(e, s) ← sfs_wblock s (inode_bytes (sv_i sv)) (sv_ino sv);
    Ret (if bool_decide (e ≠ 0) then (e, s, sv) else (0, s, set_clean sv))
  else Ret (0, s, sv).

Definition sfs_balloc (s : sfs_fs) : outcome (sfs_fs * result Z) :=
  '(fm, r) ← bitmap_alloc (sfs_freemap s);
  match r with
  | inl e => Ret (s, inl e)
  | inr diskblock =>
      let s := set_freemap fm s in
      if bool_decide (sp_nblocks s ≤ diskblock) then Panic
      else
        '(e, s) ← sfs_clearblock s diskblock;
        Ret (s, if bool_decide (e ≠ 0) then inl e else inr diskblock)
  end.

Definition sfs_bfree (s : sfs_fs) (diskblock : Z) : outcome sfs_fs :=
  fm ← bitmap_unmark (sfs_freemap s) diskblock;
  Ret (set_freemap fm s).

Definition sfs_bused (s : sfs_fs) (diskblock : Z) : outcome bool :=
  if bool_decide (sp_nblocks s ≤ diskblock) then Panic
  else r ← bitmap_isset (sfs_freemap s) diskblock; Ret (bool_decide (r ≠ 0)).

(** ** Block mapping *)

(** The check before a block is handed back. *)
Definition hand_back (s : sfs_fs) (sv : sfs_vnode) (block : Z) : outcome (sfs_fs * sfs_vnode * result Z) :=
  if bool_decide (block ≠ 0) then
    used ← sfs_bused s block;
    c_assert used;;
    Ret (s, sv, inr block)
  else Ret (s, sv, inr block).

Definition bmap_direct (s : sfs_fs) (sv : sfs_vnode) (fileblock : Z) (doalloc : bool)
    : outcome (sfs_fs * sfs_vnode * result Z) :=
  block ← rd (sfi_direct (sv_i sv)) fileblock;
  if bool_decide (block = 0) && doalloc then
    '(s, r) ← sfs_balloc s;
    match r with
    | inl e => Ret (s, sv, inl e)
    | inr block =>
        sv ← set_direct fileblock block sv;
        hand_back s sv block
    end
  else hand_back s sv block.

(** The indirect block: its number and contents. What the static buffer held
    before is never used. *)
Definition get_indirect (s : sfs_fs) (sv : sfs_vnode) : outcome (sfs_fs * sfs_vnode * result (Z * list Z)) :=
  let idblock := sfi_indirect (sv_i sv) in
  if bool_decide (idblock = 0) then
    '(s, r) ← sfs_balloc s;
    match r with
    | inl e => Ret (s, sv, inl e)
    | inr idblock => Ret (s, set_indirect idblock sv, inr (idblock, replicate 128 0))
    end
  else
    '(e, s, data) ← sfs_rblock s zero_block idblock;
    Ret (s, sv, if bool_decide (e ≠ 0) then inl e else inr (idblock, bytes_words data)).

Definition bmap_indirect (s : sfs_fs) (sv : sfs_vnode) (idoff : Z) (doalloc : bool)
    : outcome (sfs_fs * sfs_vnode * result Z) :=
  '(s, sv, r) ← get_indirect s sv;
  match r with
  | inl e => Ret (s, sv, inl e)
  | inr (idblock, idbuf) =>
      block ← rd idbuf idoff;
      if bool_decide (block = 0) && doalloc then
        '(s, r) ← sfs_balloc s;
        match r with
        | inl e => Ret (s, sv, inl e)
        | inr block =>
            idbuf ← wr idbuf idoff block;
            '(e, s) ← sfs_wblock s (words_bytes idbuf) idblock;
            if bool_decide (e ≠ 0) then Ret (s, sv, inl e) else hand_back s sv block
        end
      else hand_back s sv block
  end.

Definition sfs_bmap (s : sfs_fs) (sv : sfs_vnode) (fileblock : Z) (doalloc : bool)
    : outcome (sfs_fs * sfs_vnode * result Z) :=
  if bool_decide (fileblock < SFS_NDIRECT) then bmap_direct s sv fileblock doalloc
  else
    let fileblock := fileblock - SFS_NDIRECT in
    let idnum := fileblock / SFS_DBPERIDB in
    let idoff := fileblock mod SFS_DBPERIDB in
    if bool_decide (0 < idnum) then Ret (s, sv, inl EINVAL)
    else if bool_decide (sfi_indirect (sv_i sv) = 0) && negb doalloc then Ret (s, sv, inr 0)
    else bmap_indirect s sv idoff doalloc.

(** ** File I/O *)

Abbreviation fstate := (sfs_fs * sfs_vnode * memory * uio)%type.

Definition is_write (u : uio) : bool := bool_decide (uio_dir u = UIO_WRITE).

Definition sfs_partialio (skipstart len : Z) (st : fstate) : outcome (Z * fstate) :=
  let '(s, sv, m, u) := st in
  c_assert (bool_decide (skipstart + len ≤ SFS_BLOCKSIZE));;
  let fileblock := u32 (Z.quot (uio_offset u) SFS_BLOCKSIZE) in
  '(s, sv, r) ← sfs_bmap s sv fileblock (is_write u);
  match r with
  | inl e => Ret (e, (s, sv, m, u))
  | inr diskblock =>
      '(e, s, iobuf) ← (if bool_decide (diskblock = 0) then
                          c_assert (negb (is_write u));;
                          Ret (0, s, zero_block)
                        else sfs_rblock s zero_block diskblock);
      if bool_decide (e ≠ 0) then Ret (e, (s, sv, m, u))
      else
        '(e, m, rest, u) ← uiomove present space m (drop (Z.to_nat skipstart) iobuf) len u;
        if bool_decide (e ≠ 0) then Ret (e, (s, sv, m, u))
        else if is_write u then
          '(e, s) ← sfs_wblock s (take (Z.to_nat skipstart) iobuf ++ rest) diskblock;
          Ret (e, (s, sv, m, u))
        else Ret (0, (s, sv, m, u))
  end.

Definition set_pos (off resid : Z) (u : uio) : uio :=
  Uio (iov_base u) (iov_len u) off resid (uio_segflg u) (uio_dir u) (uio_space u).

Definition sfs_blockio (st : fstate) : outcome (Z * fstate) :=
  let '(s, sv, m, u) := st in
  let fileblock := u32 (Z.quot (uio_offset u) SFS_BLOCKSIZE) in
  '(s, sv, r) ← sfs_bmap s sv fileblock (is_write u);
  match r with
  | inl e => Ret (e, (s, sv, m, u))
  | inr diskblock =>
      if bool_decide (diskblock = 0) then
        c_assert (negb (is_write u));;
        '(e, m, u) ← uiomovezeros present space m SFS_BLOCKSIZE u;
        Ret (e, (s, sv, m, u))
      else
        let saveoff := uio_offset u in
        let diskoff := s32 (u32 (diskblock * SFS_BLOCKSIZE)) in
        c_assert (bool_decide (SFS_BLOCKSIZE ≤ uio_resid u));;
        let saveres := s32 (uio_resid u) in
        '(e, s, m, u) ← sfs_rwblock s m (set_pos diskoff SFS_BLOCKSIZE u);
        Ret (e, (s, sv, m, set_pos (s32 (uio_offset u - diskoff + saveoff))
                              (u32 (uio_resid u - SFS_BLOCKSIZE + saveres)) u))
  end.

(** The loop over whole blocks. *)
Definition block_turn (_ : Z) (st : fstate) : outcome (fstate + Z * fstate) :=
  '(e, st) ← sfs_blockio st;
  Ret (if bool_decide (e ≠ 0) then inr (e, st) else inl st).

(** The whole blocks and the rest after them. *)
Definition io_aligned (st : fstate) : outcome (Z * fstate) :=
  c_assert (bool_decide (Z.rem (uio_offset st.2) SFS_BLOCKSIZE = 0));;
  r ← for_loop (Z.to_nat (uio_resid st.2 / SFS_BLOCKSIZE)) 0 block_turn st;
  match r with
  | inr r => Ret r
  | inl st =>
      c_assert (bool_decide (uio_resid st.2 < SFS_BLOCKSIZE));;
      if bool_decide (0 < uio_resid st.2) then sfs_partialio 0 (uio_resid st.2) st else Ret (0, st)
  end.

(** sfs_io up to the label out. *)
Definition io_blocks (st : fstate) : outcome (Z * fstate) :=
  let blkoff := u32 (Z.rem (uio_offset st.2) SFS_BLOCKSIZE) in
  '(e, st) ← (if bool_decide (blkoff ≠ 0) then
                let len := SFS_BLOCKSIZE - blkoff in
                let len := if bool_decide (uio_resid st.2 < len) then uio_resid st.2 else len in
                sfs_partialio blkoff len st
              else Ret (0, st));
  if bool_decide (e ≠ 0) || bool_decide (uio_resid st.2 = 0) then Ret (e, st) else io_aligned st.

(** From the label out on. *)
Definition io_out (extraresid : Z) (r : Z * fstate) : Z * fstate :=
  let '(e, (s, sv, m, u)) := r in
  let sv := if is_write u && bool_decide (s32 (sfi_size (sv_i sv)) < uio_offset u)
            then set_size (u32 (uio_offset u)) sv else sv in
  (e, (s, sv, m, set_pos (uio_offset u) (u32 (uio_resid u + extraresid)) u)).

Definition sfs_io (st : fstate) : outcome (Z * fstate) :=
  let '(s, sv, m, u) := st in
  if is_write u then r ← io_blocks st; Ret (io_out 0 r)
  else
    let size := s32 (sfi_size (sv_i sv)) in
    let endpos := s32 (uio_offset u + uio_resid u) in
    if bool_decide (size ≤ uio_offset u) then Ret (0, st)
    else if bool_decide (size < endpos) then
      let extraresid := u32 (endpos - size) in
      c_assert (bool_decide (extraresid < uio_resid u));;
      r ← io_blocks (s, sv, m, set_pos (uio_offset u) (uio_resid u - extraresid) u);
      Ret (io_out extraresid r)
    else r ← io_blocks st; Ret (io_out 0 r).

(** ** Truncation *)

Definition trunc_direct (blocklen i : Z) (st : sfs_fs * sfs_vnode) : outcome (sfs_fs * sfs_vnode) :=
  let '(s, sv) := st in
  block ← rd (sfi_direct (sv_i sv)) i;
  if bool_decide (blocklen ≤ i) && bool_decide (block ≠ 0) then
    s ← sfs_bfree s block;
    sv ← set_direct i 0 sv;
    Ret (s, sv)
  else Ret (s, sv).

(** State: file system, buffer, hasnonzero, iddirty. *)
Definition trunc_indirect (blocklen j : Z) (st : sfs_fs * list Z * bool * bool)
    : outcome (sfs_fs * list Z * bool * bool) :=
  let '(s, idbuf, hasnonzero, iddirty) := st in
  b ← rd idbuf j;
  '(s, idbuf, iddirty) ← (if bool_decide (blocklen < SFS_NDIRECT + j) && bool_decide (b ≠ 0) then
      s ← sfs_bfree s b;
      idbuf ← wr idbuf j 0;
      Ret (s, idbuf, true)
    else Ret (s, idbuf, iddirty));
  b ← rd idbuf j;
  Ret (s, idbuf, hasnonzero || bool_decide (b ≠ 0), iddirty).

(** The part of sfs_truncate for the indirect block. *)
Definition trunc_idblock (blocklen : Z) (s : sfs_fs) (sv : sfs_vnode) : outcome (Z * sfs_fs * sfs_vnode) :=
  let idblock := sfi_indirect (sv_i sv) in
  let highblock := SFS_NDIRECT + SFS_DBPERIDB - 1 in
  if bool_decide (blocklen < highblock) && bool_decide (idblock ≠ 0) then
    '(e, s, data) ← sfs_rblock s zero_block idblock;
    if bool_decide (e ≠ 0) then Ret (e, s, sv)
    else
      '(s, idbuf, hasnonzero, iddirty) ← for_each (Z.to_nat SFS_DBPERIDB) 0 (trunc_indirect blocklen)
                                           (s, bytes_words data, false, false);
      if negb hasnonzero then s ← sfs_bfree s idblock; Ret (0, s, set_indirect 0 sv)
      else if (iddirty : bool) then '(e, s) ← sfs_wblock s (words_bytes idbuf) idblock; Ret (e, s, sv)
      else Ret (0, s, sv)
  else Ret (0, s, sv).

Definition sfs_truncate (len : Z) (s : sfs_fs) (sv : sfs_vnode) : outcome (Z * sfs_fs * sfs_vnode) :=
  let blocklen := u32 (Z.quot (len + SFS_BLOCKSIZE - 1) SFS_BLOCKSIZE) in
  '(s, sv) ← for_each (Z.to_nat SFS_NDIRECT) 0 (trunc_direct blocklen) (s, sv);
  '(e, s, sv) ← trunc_idblock blocklen s sv;
  if bool_decide (e ≠ 0) then Ret (e, s, sv) else Ret (0, s, set_size (u32 len) sv).
End sfs.

(** ** Runs on a disk of 40 blocks *)

Definition no_user (_ : Z) : bool := false.
Definition small_disk (fail : nat → bool) : disk := Disk 40 (replicate 40 (replicate 512 170)) fail 0.
(** Blocks 0 to 3 are taken: superblock, root directory, free map, and the inode
    of the file. *)
Definition small_fs (fail : nat → bool) : sfs_fs := SfsFs 40 (small_disk fail) (Bitmap 40 [15; 0; 0; 0; 0]) false.
Definition empty_file : sfs_vnode := SfsVnode (SfsInode 0 SFS_TYPE_FILE 1 (replicate 15 0) 0 (replicate 110 0)) 3 false.

Definition kwrite (data : list Z) (pos : Z) (st : sfs_fs * sfs_vnode) : outcome (Z * sfs_fs * sfs_vnode) :=
  '(e, (s, sv, _, _)) ← sfs_io no_user 0 (st.1, st.2, store ∅ 0x80200000 data, mk_kuio 0x80200000 (len data) pos UIO_WRITE);
  Ret (e, s, sv).
Definition kread (n : nat) (pos : Z) (st : sfs_fs * sfs_vnode) : outcome (Z * list Z * Z) :=
  '(e, (_, _, m, u)) ← sfs_io no_user 0 (st.1, st.2, ∅, mk_kuio 0x80200000 (Z.of_nat n) pos UIO_READ);
  Ret (e, load m 0x80200000 n, uio_resid u).

(** A write across three blocks, 15 and 16 being in the indirect block, and a
    read that starts before it and runs past the end. *)
Example sfs_write_read :
  ('(e, s, sv) ← kwrite (seqZ 0 700) 7600 (small_fs (λ _, false), empty_file);
   '(e', l, resid) ← kread 1000 7595 (s, sv);
   Ret (e, e', take 8 l, l !! 704%nat, resid, sfi_indirect (sv_i sv), sfi_size (sv_i sv)))
  = Ret (0, 0, [0; 0; 0; 0; 0; 0; 1; 2], Some 699, 295, 5, 8300).
Proof. vm_compute. reflexivity. Qed.
