(* ===== verification/SfsSpec.v ===== *)
(** * Specification of the file system's block and file layers

    A file is its block map [bmap_of] (143 block numbers, 0 for a hole) and the
    bytes [fbyte] that the mapped blocks hold. The lemmas give each routine of
    Sfs.v its effect on these, on a disk without media errors, and what it
    leaves alone: blocks in use that do not belong to the file. *)

From S2P Require Import Prelude Bitmap KHeap KHeapSpec Coremap Uio Sfs.

(** ** Words in bytes *)

Lemma word_bytes_length w : length (word_bytes w) = 4%nat.
Proof. done. Qed.

Lemma words_bytes_length ws : length (words_bytes ws) = (4 * length ws)%nat.
Proof. induction ws as [|w ws IH]; [done|]. simpl. lia. Qed.

Lemma bytes_words_bytes ws : Forall word ws → bytes_words (words_bytes ws) = ws.
Proof.
  induction 1 as [|w ws Hw _ IH]; [done|]. simpl. f_equal; [|done]. unfold word in Hw.
  change (2 ^ 24) with 16777216. change (2 ^ 16) with 65536. change (2 ^ 8) with 256.
  Z.to_euclidean_division_equations. lia.
Qed.

Lemma bytes_words_length l : ∀ n, length l = (4 * n)%nat → length (bytes_words l) = n.
Proof.
  intros n. revert l. induction n as [|n IH]; intros l Hl; [by destruct l|].
  destruct l as [|a [|b [|c [|d l]]]]; simpl in Hl; try lia. simpl. f_equal. apply IH. lia.
Qed.

Lemma zero_words : bytes_words zero_block = replicate 128 0.
Proof. reflexivity. Qed.

(** ** The disk *)

Abbreviation secs s := (d_sectors (sfs_device s)).

(** [s'] is [s] with the sectors [ss] and the free map [fm]. *)
Record fs_to (s s' : sfs_fs) (ss : list (list Z)) (fm : bitmap) : Prop := {
  ft_nblocks : sp_nblocks s' = sp_nblocks s;
  ft_blocks : d_blocks (sfs_device s') = d_blocks (sfs_device s);
  ft_fail : d_fail (sfs_device s') = d_fail (sfs_device s);
  ft_secs : secs s' = ss;
  ft_map : sfs_freemap s' = fm;
  ft_nbits : bm_nbits fm = bm_nbits (sfs_freemap s);
  ft_clean : sfs_freemapdirty s' = false → sfs_freemapdirty s = false ∧ fm = sfs_freemap s
}.

Record fs_ok (s : sfs_fs) : Prop := {
  fs_reliable : ∀ n, d_fail (sfs_device s) n = false;
  fs_sectors : len (secs s) = d_blocks (sfs_device s);
  fs_size : 0 < sp_nblocks s ≤ d_blocks (sfs_device s) ∧ d_blocks (sfs_device s) < 2 ^ 22;
  fs_full : Forall (λ b, length b = 512%nat) (secs s);
  fs_map : bitmap_wf (sfs_freemap s);
  fs_bits : sp_nblocks s ≤ bm_nbits (sfs_freemap s);
  fs_beyond : ∀ i, sp_nblocks s ≤ i < bm_nbits (sfs_freemap s) → bit (sfs_freemap s) i = true;
  fs_super : bit (sfs_freemap s) 0 = true
}.

Lemma fs_to_refl s : fs_to s s (secs s) (sfs_freemap s).
Proof. done. Qed.

Lemma fs_to_trans s s1 s2 ss1 fm1 ss2 fm2 : fs_to s s1 ss1 fm1 → fs_to s1 s2 ss2 fm2 → fs_to s s2 ss2 fm2.
Proof. intros [] []. split; try congruence. intros [? ->]%ft_clean1. rewrite ft_map0. auto. Qed.

(** Changing sectors and free map keeps a file system in order. *)
Lemma fs_ok_to s s' ss fm : fs_ok s → fs_to s s' ss fm → length ss = length (secs s) →
  Forall (λ b, length b = 512%nat) ss → bitmap_wf fm → bm_nbits fm = bm_nbits (sfs_freemap s) →
  (∀ i, sp_nblocks s ≤ i < bm_nbits fm → bit fm i = true) → bit fm 0 = true → fs_ok s'.
Proof.
  intros [] [] Hl Hf Hw Hn Hb H0. split; rewrite ?ft_fail0, ?ft_secs0, ?ft_blocks0, ?ft_nblocks0, ?ft_map0; try done; lia.
Qed.

Lemma fs_ok_same s s' : fs_ok s → fs_to s s' (secs s) (sfs_freemap s) → fs_ok s'.
Proof.
  intros [] []. split; rewrite ?ft_fail0, ?ft_secs0, ?ft_blocks0, ?ft_nblocks0, ?ft_map0; done.
Qed.

Section spec.
Context (present : Z → bool) (space : Z).

(** The region of a uio can be transferred: kernel memory, or user memory that is
    present. *)
Definition accessible (u : uio) (n : Z) : Prop := is_user u = false ∨ n = 0 ∨ user_range present (iov_base u) n.

Lemma accessible_sub u n k : accessible u n → 0 ≤ k ≤ n → accessible u k.
Proof.
  intros [?|[?|Hr]] Hk; [by left|right; left; lia|right]. destruct (decide (k = 0)); [by left|right].
  apply (user_range_sub _ _ n); done || lia.
Qed.

Lemma accessible_moved u n k : accessible u n → 0 ≤ k ≤ n → accessible (moved k u) (n - k).
Proof.
  intros [?|[?|Hr]] Hk; [by left|right; left; lia|right]. destruct (decide (k = n)); [left; lia|right].
  simpl. apply user_range_rest; done || lia.
Qed.

(** uiomove for as much as is left. *)
Lemma uiomove_ok m buf n u : uio_wf space u → 0 ≤ n ≤ len buf → n ≤ uio_resid u → accessible u n →
  uiomove present space m buf n u = Ret (0, moved_mem m buf n u, moved_buf m buf n u, moved n u).
Proof.
  intros Hw Hn Hr Ha. destruct (uiomove_spec present space m buf n u Hw Hn) as [H _]; [by left|].
  replace (n `min` uio_resid u) with n in H by lia. by apply H.
Qed.

(** ** One block *)

Definition block_mem (m : memory) (blk : list Z) (u : uio) : memory :=
  match uio_dir u with UIO_READ => store m (iov_base u) blk | UIO_WRITE => m end.
Definition block_secs (m : memory) (ss : list (list Z)) (b : Z) (u : uio) : list (list Z) :=
  match uio_dir u with UIO_READ => ss | UIO_WRITE => <[Z.to_nat b := load m (iov_base u) 512]> ss end.

Lemma lhd_io_ok dk m u b blk : d_fail dk (d_ops dk) = false → uio_wf space u → accessible u 512 →
  uio_resid u = 512 → uio_offset u = b * 512 → 0 ≤ b < d_blocks dk → d_blocks dk < 2 ^ 22 →
  len (d_sectors dk) = d_blocks dk → d_sectors dk !! Z.to_nat b = Some blk → length blk = 512%nat →
  lhd_io present space (dk, m, u) =
    Ret (0, (Disk (d_blocks dk) (block_secs m (d_sectors dk) b u) (d_fail dk) (S (d_ops dk)),
             block_mem m blk u, moved 512 u)).
Proof.
  intros Hrel Hw Hacc Hres Hoff Hb Hsz Hlen Hblk Hbl. unfold lhd_io. rewrite Hres, Hoff. unfold LHD_SECTSIZE.
  rewrite Z.quot_mul, Z.rem_mul by done. rewrite (u32_small b) by lia. change (u32 0) with 0.
  change (512 / 512) with 1. change (512 mod 512) with 0. rewrite u32_small by lia.
  rewrite (bool_decide_eq_false_2 (0 ≠ 0)) by tauto. cbn [orb]. rewrite bool_decide_eq_false_2 by lia.
  change (Z.to_nat 1) with 1%nat. unfold for_loop, lhd_sector, d_start, LHD_SECTSIZE. rewrite Hrel.
  destruct (uio_dir u) eqn:Hd; unfold block_secs, block_mem; rewrite Hd.
  - simpl d_sectors. rewrite Z.add_0_r, (rd_lookup (d_sectors dk) b blk) by (done || lia). ostep.
    rewrite uiomove_ok by (done || lia). ostep. rewrite (bool_decide_eq_false_2 (0 ≠ 0)) by tauto. ostep.
    unfold moved_mem. rewrite Hd. rewrite firstn_all2 by (rewrite Hbl; done). done.
  - rewrite uiomove_ok by (unfold lh_buf; simpl; done || lia). ostep.
    rewrite (bool_decide_eq_false_2 (0 ≠ 0)) by tauto. cbn iota. simpl d_sectors.
    rewrite wr_in_range by lia. ostep. unfold moved_mem, moved_buf. rewrite Hd, Z.add_0_r. unfold overwrite.
    rewrite load_length. change (Z.to_nat 512) with 512%nat. unfold lh_buf, zero_block. rewrite drop_replicate, app_nil_r. done.
Qed.

(** A media error: nothing is transferred to or from the disk, but the uio of a
    write has moved on. *)
Lemma lhd_io_fails dk m u b : d_fail dk (d_ops dk) = true → uio_wf space u → accessible u 512 →
  uio_resid u = 512 → uio_offset u = b * 512 → 0 ≤ b < d_blocks dk → d_blocks dk < 2 ^ 22 →
  lhd_io present space (dk, m, u) =
    Ret (EIO, (Disk (d_blocks dk) (d_sectors dk) (d_fail dk) (S (d_ops dk)), m,
               match uio_dir u with UIO_READ => u | UIO_WRITE => moved 512 u end)).
Proof.
  intros Hrel Hw Hacc Hres Hoff Hb Hsz. unfold lhd_io. rewrite Hres, Hoff. unfold LHD_SECTSIZE.
  rewrite Z.quot_mul, Z.rem_mul by done. rewrite (u32_small b) by lia. change (u32 0) with 0.
  change (512 / 512) with 1. change (512 mod 512) with 0. rewrite u32_small by lia.
  rewrite (bool_decide_eq_false_2 (0 ≠ 0)) by tauto. cbn [orb]. rewrite bool_decide_eq_false_2 by lia.
  change (Z.to_nat 1) with 1%nat. unfold for_loop, lhd_sector, d_start, LHD_SECTSIZE. rewrite Hrel.
  destruct (uio_dir u) eqn:Hd; [done|].
  rewrite uiomove_ok by (unfold lh_buf; simpl; done || lia). ostep.
  rewrite (bool_decide_eq_false_2 (0 ≠ 0)) by tauto. unfold moved_mem. by rewrite Hd.
Qed.

(** A transfer of nothing succeeds without touching the disk. *)
Lemma lhd_io_empty dk m u b : uio_resid u = 0 → uio_offset u = b * 512 → 0 ≤ b ≤ d_blocks dk → d_blocks dk < 2 ^ 22 →
  lhd_io present space (dk, m, u) = Ret (0, (dk, m, u)).
Proof.
  intros Hres Hoff Hb Hsz. unfold lhd_io. rewrite Hres, Hoff. unfold LHD_SECTSIZE.
  rewrite Z.quot_mul, Z.rem_mul by done. rewrite (u32_small b) by lia. change (u32 0) with 0.
  change (0 / 512) with 0. change (0 mod 512) with 0. rewrite u32_small by lia.
  rewrite (bool_decide_eq_false_2 (0 ≠ 0)) by tauto. cbn [orb]. by rewrite bool_decide_eq_false_2 by lia.
Qed.

Lemma sector_length s b blk : fs_ok s → secs s !! Z.to_nat b = Some blk → length blk = 512%nat.
Proof. intros Hs Hb. pose proof (fs_full s Hs) as Hf. rewrite Forall_lookup in Hf. by eapply Hf. Qed.

Lemma sector_get s b : fs_ok s → 0 ≤ b < d_blocks (sfs_device s) →
  ∃ blk, secs s !! Z.to_nat b = Some blk ∧ length blk = 512%nat.
Proof.
  intros Hs Hb. destruct (lookup_lt_is_Some_2 (secs s) (Z.to_nat b)) as [blk Hblk].
  { pose proof (fs_sectors s Hs). lia. }
  exists blk. split; [done|]. by eapply sector_length.
Qed.

Lemma sfs_rwblock_ok s m u b blk : fs_ok s → uio_wf space u → accessible u 512 → uio_resid u = 512 →
  uio_offset u = b * 512 → 0 ≤ b < d_blocks (sfs_device s) → secs s !! Z.to_nat b = Some blk →
  ∃ s', sfs_rwblock present space s m u = Ret (0, s', block_mem m blk u, moved 512 u) ∧
    fs_to s s' (block_secs m (secs s) b u) (sfs_freemap s).
Proof.
  intros Hs Hw Hacc Hres Hoff Hb Hblk. pose proof Hs as [Hrel Hlen [Hsz Hsz2] _ _ _ _ _]. unfold sfs_rwblock, sfs_rw_tries.
  rewrite (lhd_io_ok _ m u b blk) by (apply Hrel || done || by eapply sector_length). ostep. cbn [bool_decide]. ostep.
  eexists. split; [done|]. by split.
Qed.

Lemma kbuf_wf b rw : 0 ≤ b < 2 ^ 22 - 1 → uio_wf space (mk_kuio KBUF SFS_BLOCKSIZE (b * 512) rw).
Proof. intros Hb. split; simpl; unfold KBUF, SFS_BLOCKSIZE; try done; lia. Qed.

Lemma block_offset b : 0 ≤ b < 2 ^ 22 → s32 (s32 b * SFS_BLOCKSIZE) = b * 512.
Proof. intros Hb. unfold SFS_BLOCKSIZE. rewrite (s32_small b) by lia. apply s32_small. lia. Qed.

Lemma sfs_rblock_ok s data b blk : fs_ok s → length data = 512%nat → 0 ≤ b < sp_nblocks s →
  secs s !! Z.to_nat b = Some blk →
  ∃ s', sfs_rblock present space s data b = Ret (0, s', blk) ∧ fs_to s s' (secs s) (sfs_freemap s).
Proof.
  intros Hs Hd Hb Hblk. pose proof (fs_size s Hs). unfold sfs_rblock, in_buffer. rewrite block_offset by lia.
  destruct (sfs_rwblock_ok s (store ∅ KBUF data) (mk_kuio KBUF SFS_BLOCKSIZE (b * 512) UIO_READ) b blk)
    as (s' & -> & Hto); try done; [apply kbuf_wf; lia|by left|lia|].
  ostep. exists s'. split; [|done]. do 2 f_equal. simpl. rewrite Hd, <- (sector_length s b blk) by done. apply load_store.
Qed.

Lemma sfs_wblock_ok s data b : fs_ok s → length data = 512%nat → 0 ≤ b < sp_nblocks s →
  ∃ s', sfs_wblock present space s data b = Ret (0, s') ∧
    fs_to s s' (<[Z.to_nat b := data]> (secs s)) (sfs_freemap s).
Proof.
  intros Hs Hd Hb. pose proof (fs_size s Hs). unfold sfs_wblock, in_buffer. rewrite block_offset by lia.
  destruct (sector_get s b Hs) as (blk & Hblk & _); [lia|].
  destruct (sfs_rwblock_ok s (store ∅ KBUF data) (mk_kuio KBUF SFS_BLOCKSIZE (b * 512) UIO_WRITE) b blk)
    as (s' & -> & Hto); try done; [apply kbuf_wf; lia|by left|lia|].
  ostep. exists s'. split; [done|]. unfold block_secs in Hto.
  cbn [uio_dir iov_base mk_kuio] in Hto. replace 512%nat with (length data) in Hto. by rewrite load_store in Hto.
Qed.

(** ** The free map *)

Definition marked (s : sfs_fs) (b : Z) : Prop := bit (sfs_freemap s) b = true.

Lemma sfs_bused_ok s b : fs_ok s → 0 ≤ b < sp_nblocks s →
  ∃ r, sfs_bused s b = Ret r ∧ (r = true ↔ marked s b).
Proof.
  intros Hs Hb. unfold sfs_bused. rewrite bool_decide_eq_false_2 by lia. pose proof (fs_map s Hs) as Hw.
  destruct (bitmap_isset_ok (sfs_freemap s) b Hw) as (r & -> & Hr).
  { pose proof (fs_bits s Hs). pose proof (wf_bound _ b Hw). lia. }
  ostep. eexists. split; [done|]. by rewrite bool_decide_eq_true.
Qed.

(** A free block is cleared and marked, or there is none. *)
Lemma sfs_balloc_ok s : fs_ok s →
  (∃ s' b fm, sfs_balloc present space s = Ret (s', inr b) ∧ 0 < b < sp_nblocks s ∧ ¬ marked s b ∧
     fs_to s s' (<[Z.to_nat b := zero_block]> (secs s)) fm ∧ fs_ok s' ∧
     (∀ j, 0 ≤ j → marked s' j ↔ j = b ∨ marked s j)) ∨
  (sfs_balloc present space s = Ret (s, inl ENOSPC) ∧ ∀ j, 0 ≤ j < sp_nblocks s → marked s j).
Proof.
  intros Hs. pose proof Hs as [Hrel Hlen [Hsz Hsz2] Hfull Hmap Hbits Hbey H0]. unfold sfs_balloc.
  destruct (bitmap_alloc_ok _ Hmap) as [(fm & b & -> & Hw & Hn & Hbr & Hfree & _ & Hbit)|[-> Hall]]; ostep.
  2: { right. split; [done|]. intros j Hj. apply Hall. lia. }
  left. assert (Hb : 0 < b < sp_nblocks s).
  { assert (b ≠ 0) by (intros ->; congruence). destruct (decide (sp_nblocks s ≤ b)); [|lia].
    rewrite Hbey in Hfree by lia. done. }
  set (s1 := set_freemap fm s). cbv zeta. rewrite bool_decide_eq_false_2 by (simpl; lia).
  assert (Hbit' : ∀ j, 0 ≤ j → bit fm j = true ↔ j = b ∨ marked s j).
  { intros j Hj. rewrite Hbit by done. unfold marked. case_bool_decide; naive_solver. }
  assert (Hs1 : fs_ok s1).
  { apply (fs_ok_to s s1 (secs s) fm); try done.
    - intros i Hi. apply Hbit'; [lia|]. right. apply Hbey. lia.
    - apply Hbit'; [done|]. by right. }
  destruct (sfs_wblock_ok s1 zero_block b Hs1) as (s' & Hwr & Hto); [done|simpl; lia|].
  unfold sfs_clearblock. rewrite Hwr. ostep. exists s', b, fm. split_and!; try done; try lia.
  - by rewrite <- not_true_iff_false in Hfree.
  - destruct Hto as [? ? ? ? ? ? Hc]. split; try done. by intros [? _]%Hc.
  - eapply (fs_ok_to s1 s'); try done.
    + by rewrite length_insert.
    + by apply Forall_insert.
    + exact (fs_beyond s1 Hs1).
    + exact (fs_super s1 Hs1).
  - intros j Hj. unfold marked. rewrite (ft_map _ _ _ _ Hto). by apply Hbit'.
Qed.

Lemma sfs_bfree_ok s b : fs_ok s → 0 < b < sp_nblocks s → marked s b →
  ∃ s' fm, sfs_bfree s b = Ret s' ∧ fs_to s s' (secs s) fm ∧ fs_ok s' ∧
    (∀ j, 0 ≤ j → marked s' j ↔ j ≠ b ∧ marked s j).
Proof.
  intros Hs Hb Hm. pose proof Hs as [Hrel Hlen [Hsz Hsz2] Hfull Hmap Hbits Hbey H0]. unfold sfs_bfree.
  destruct (bitmap_unmark_ok _ b Hmap) as (fm & -> & Hw & Hn & Hbit); [lia|done|]. ostep.
  assert (Hbit' : ∀ j, 0 ≤ j → bit fm j = true ↔ j ≠ b ∧ marked s j).
  { intros j Hj. rewrite Hbit by done. unfold marked. case_bool_decide; naive_solver. }
  eexists _, fm. split_and!; [done|done| |done]. apply (fs_ok_to s _ (secs s) fm); try done.
  - intros i Hi. apply Hbit'; [lia|]. split; [lia|]. apply Hbey. lia.
  - apply Hbit'; [done|]. split; [lia|done].
Qed.

(** ** Files *)

Definition sector (s : sfs_fs) (b : Z) : list Z := default [] (secs s !! Z.to_nat b).

(** The indirect block's entries, the whole block map, and all blocks the file
    owns. *)
Definition ids (s : sfs_fs) (sv : sfs_vnode) : list Z :=
  if decide (sfi_indirect (sv_i sv) = 0) then replicate 128 0 else bytes_words (sector s (sfi_indirect (sv_i sv))).
Definition bmap_of (s : sfs_fs) (sv : sfs_vnode) : list Z := sfi_direct (sv_i sv) ++ ids s sv.
Definition own (s : sfs_fs) (sv : sfs_vnode) : list Z :=
  sv_ino sv :: filter (λ b, b ≠ 0) (sfi_indirect (sv_i sv) :: bmap_of s sv).

(** The contents: a hole reads as zeros. *)
Definition fblock (s : sfs_fs) (sv : sfs_vnode) (k : Z) : list Z :=
  let b := default 0 (bmap_of s sv !! Z.to_nat k) in
  if decide (b = 0) then zero_block else sector s b.

Record file_ok (s : sfs_fs) (sv : sfs_vnode) : Prop := {
  fo_direct : length (sfi_direct (sv_i sv)) = 15%nat;
  fo_nodup : NoDup (own s sv);
  fo_own : ∀ b, b ∈ own s sv → 0 < b < sp_nblocks s ∧ marked s b
}.

(** What block allocation leaves alone in an inode, besides the size. *)
Definition meta (sv : sfs_vnode) : Z * Z * list Z := (sfi_type (sv_i sv), sfi_linkcount (sv_i sv), sfi_waste (sv_i sv)).

(** The free map and its dirty flag: if the flag is clear nothing has changed. *)
Definition map_kept (s s' : sfs_fs) : Prop :=
  bm_nbits (sfs_freemap s') = bm_nbits (sfs_freemap s) ∧
  (sfs_freemapdirty s' = false → sfs_freemapdirty s = false ∧ sfs_freemap s' = sfs_freemap s).

Lemma fs_to_map s s' ss fm : fs_to s s' ss fm → map_kept s s'.
Proof.
  intros Hto. split; [rewrite (ft_map _ _ _ _ Hto); apply Hto|]. intros Hd. destruct (ft_clean _ _ _ _ Hto Hd) as [? Hm].
  split; [done|]. rewrite <- Hm. apply Hto.
Qed.

Lemma map_kept_trans s s1 s2 : map_kept s s1 → map_kept s1 s2 → map_kept s s2.
Proof.
  intros [Hn1 H1] [Hn2 H2]. split; [congruence|]. intros Hd. destruct (H2 Hd) as [Hd1 ->]. auto.
Qed.

(** [s', sv'] has grown out of [s, sv]: what was in use stays in use, and blocks
    in use elsewhere keep their contents and stay out of the file. *)
Record evolves (s : sfs_fs) (sv : sfs_vnode) (s' : sfs_fs) (sv' : sfs_vnode) : Prop := {
  ev_fs : fs_ok s';
  ev_file : file_ok s' sv';
  ev_nblocks : sp_nblocks s' = sp_nblocks s;
  ev_ino : sv_ino sv' = sv_ino sv;
  ev_size : sfi_size (sv_i sv') = sfi_size (sv_i sv);
  ev_marked : ∀ x, 0 ≤ x → marked s x → marked s' x;
  ev_other : ∀ x, 0 ≤ x → marked s x → x ∉ own s sv → (x ∉ own s' sv') ∧ sector s' x = sector s x;
  ev_meta : meta sv' = meta sv;
  ev_clean : sv_dirty sv' = false → sv' = sv;
  ev_own : ∀ x, x ∈ own s sv → x ∈ own s' sv';
  ev_new : ∀ x, 0 ≤ x → marked s' x → marked s x ∨ x ∈ own s' sv';
  ev_map : map_kept s s';
  ev_inode : sector s' (sv_ino sv) = sector s (sv_ino sv)
}.

Lemma evolves_refl s sv : fs_ok s → file_ok s sv → evolves s sv s sv.
Proof. intros. split; try done. intros. by left. Qed.

Lemma evolves_trans s sv s1 sv1 s2 sv2 : evolves s sv s1 sv1 → evolves s1 sv1 s2 sv2 → evolves s sv s2 sv2.
Proof.
  intros [] []. split; try done; try congruence; [auto| |intros Hc; pose proof (ev_clean1 Hc) as ->; auto|auto| |by eapply map_kept_trans].
  2: { intros x Hx [Hm|?]%ev_new1; [|by right|done]. apply ev_new0 in Hm as [?|?]; [by left|right; auto|done]. }
  intros x Hx Hm Hn. destruct (ev_other0 x Hx Hm Hn) as [Hn1 H1].
  destruct (ev_other1 x Hx) as [Hn2 H2]; [auto..|]. split; [done|congruence].
Qed.

Lemma sector_length_ok s b : fs_ok s → 0 ≤ b < sp_nblocks s → length (sector s b) = 512%nat.
Proof.
  intros Hs Hb. destruct (sector_get s b Hs) as (blk & Hblk & Hl); [pose proof (fs_size s Hs); lia|].
  unfold sector. by rewrite Hblk.
Qed.

Lemma own_indirect s sv : sfi_indirect (sv_i sv) ≠ 0 → sfi_indirect (sv_i sv) ∈ own s sv.
Proof. intros H. right. apply list_elem_of_filter. split; [done|by left]. Qed.

Lemma own_mapped s sv b : b ∈ bmap_of s sv → b ≠ 0 → b ∈ own s sv.
Proof. intros H ?. right. apply list_elem_of_filter. split; [done|by right]. Qed.

(** The inode's own block is not one of the file's other blocks. *)
Lemma ino_block s sv b : file_ok s sv → b ∈ filter (λ b, b ≠ 0) (sfi_indirect (sv_i sv) :: bmap_of s sv) → b ≠ sv_ino sv.
Proof. intros Hf Hb ->. pose proof (fo_nodup s sv Hf) as Hnd. unfold own in Hnd. by apply NoDup_cons in Hnd as [? _]. Qed.

Lemma ino_indirect s sv : file_ok s sv → sfi_indirect (sv_i sv) ≠ 0 → sfi_indirect (sv_i sv) ≠ sv_ino sv.
Proof. intros Hf H0. apply (ino_block s sv _ Hf). apply list_elem_of_filter. split; [done|by left]. Qed.

Lemma ino_mapped s sv b : file_ok s sv → b ∈ bmap_of s sv → b ≠ 0 → b ≠ sv_ino sv.
Proof. intros Hf Hb H0. apply (ino_block s sv _ Hf). apply list_elem_of_filter. split; [done|by right]. Qed.

Lemma own_ino s sv : sv_ino sv ∈ own s sv.
Proof. by left. Qed.

Lemma ids_length s sv : fs_ok s → file_ok s sv → length (ids s sv) = 128%nat.
Proof.
  intros Hs Hf. unfold ids. case_decide as Hd; [done|]. apply bytes_words_length.
  rewrite sector_length_ok; [done|done|]. destruct (fo_own s sv Hf _ (own_indirect s sv Hd)). lia.
Qed.

Lemma bmap_length s sv : fs_ok s → file_ok s sv → length (bmap_of s sv) = 143%nat.
Proof. intros Hs Hf. unfold bmap_of. rewrite length_app, ids_length, (fo_direct s sv Hf) by done. done. Qed.

Lemma mapped_range s sv k b : file_ok s sv → 0 < sp_nblocks s → bmap_of s sv !! k = Some b → 0 ≤ b < sp_nblocks s.
Proof.
  intros Hf Hn Hk. destruct (decide (b = 0)) as [->|Hb]; [lia|].
  destruct (fo_own s sv Hf b) as [? _]; [|lia]. apply own_mapped; [|done]. by eapply list_elem_of_lookup_2.
Qed.

Lemma ids_words s sv : fs_ok s → file_ok s sv → Forall word (ids s sv).
Proof.
  intros Hs Hf. apply Forall_lookup. intros k b Hk. pose proof (fs_size s Hs).
  destruct (mapped_range s sv (15 + k) b Hf) as [? ?]; [lia| |unfold word; lia].
  unfold bmap_of. rewrite lookup_app_r by (rewrite (fo_direct s sv Hf); lia). rewrite (fo_direct s sv Hf).
  by replace (15 + k - 15)%nat with k by lia.
Qed.

Lemma fblock_length s sv k : fs_ok s → file_ok s sv → length (fblock s sv k) = 512%nat.
Proof.
  intros Hs Hf. unfold fblock. case_decide as Hd; [done|]. apply sector_length_ok; [done|].
  destruct (bmap_of s sv !! Z.to_nat k) as [b|] eqn:Hb; [|done]. simpl in *.
  eapply mapped_range; [done|apply (fs_size s Hs)|done].
Qed.

(** States that agree on the owned sectors agree on the file. *)
Lemma file_frame s s' sv : (∀ b, b ∈ own s sv → sector s' b = sector s b) →
  ids s' sv = ids s sv ∧ bmap_of s' sv = bmap_of s sv ∧ own s' sv = own s sv ∧ ∀ k, fblock s' sv k = fblock s sv k.
Proof.
  intros Hs. assert (Hids : ids s' sv = ids s sv).
  { unfold ids. case_decide as Hd; [done|]. f_equal. apply Hs. by apply own_indirect. }
  assert (Hmap : bmap_of s' sv = bmap_of s sv) by (unfold bmap_of; by rewrite Hids).
  split_and!; try done; [unfold own; by rewrite Hmap|]. intros k. unfold fblock. rewrite Hmap.
  case_decide as Hd; [done|]. apply Hs. apply own_mapped; [|done].
  destruct (bmap_of s sv !! Z.to_nat k) as [b|] eqn:Hb; [|done]. simpl in *. by eapply list_elem_of_lookup_2.
Qed.

(** New blocks [l], not in use before, join the file. *)
Lemma evolves_grow s sv s' sv' l : fs_ok s → file_ok s sv → fs_ok s' → sp_nblocks s' = sp_nblocks s →
  sv_ino sv' = sv_ino sv → sfi_size (sv_i sv') = sfi_size (sv_i sv) → meta sv' = meta sv → (sv_dirty sv' = false → sv' = sv) → length (sfi_direct (sv_i sv')) = 15%nat →
  own s' sv' ≡ₚ l ++ own s sv → NoDup l → (∀ b, b ∈ l → 0 < b < sp_nblocks s ∧ ¬ marked s b) →
  (∀ x, 0 ≤ x → marked s' x ↔ x ∈ l ∨ marked s x) →
  (∀ x, 0 ≤ x → marked s x → (x ∉ own s sv) ∨ x = sv_ino sv → sector s' x = sector s x) → map_kept s s' → evolves s sv s' sv'.
Proof.
  intros Hs Hf Hs' Hn Hino Hsize Hmeta Hclean Hdir Hown Hnd Hl Hm Hsec Hmk.
  assert (Hlown : ∀ b, b ∈ l → b ∉ own s sv).
  { intros b Hb Hin. destruct (Hl b Hb) as [_ []]. by apply (fo_own s sv Hf). }
  split; try done.
  - split; [done| |].
    + rewrite Hown. apply NoDup_app. split_and!; [done|done|apply Hf].
    + intros b Hb. rewrite Hown in Hb. apply elem_of_app in Hb as [Hb|Hb].
      * destruct (Hl b Hb) as [? _]. split; [lia|]. apply Hm; [lia|by left].
      * destruct (fo_own s sv Hf b Hb). split; [lia|]. apply Hm; [lia|by right].
  - intros x Hx Hmx. apply Hm; [done|by right].
  - intros x Hx Hmx Hno. split; [|apply Hsec; auto]. rewrite Hown. intros [Hin|Hin]%elem_of_app; [|done].
    by destruct (Hl x Hin).
  - intros x Hx. rewrite Hown. apply elem_of_app. by right.
  - intros x Hx [?|?]%Hm; [right|by left|done]. rewrite Hown. apply elem_of_app. by left.
  - destruct (fo_own s sv Hf _ (own_ino s sv)). apply Hsec; [lia|done|by right].
Qed.

(** ** Growing the block map *)

Lemma filter_insert_perm (l : list Z) k b : l !! k = Some 0 → b ≠ 0 →
  filter (λ x, x ≠ 0) (<[k := b]> l) ≡ₚ b :: filter (λ x, x ≠ 0) l.
Proof.
  intros Hk Hb. pose proof (lookup_lt_Some _ _ _ Hk).
  rewrite <- (take_drop_middle l k 0 Hk) at 2. rewrite insert_take_drop by done. rewrite !filter_app, !filter_cons.
  rewrite decide_True by done. rewrite (decide_False (P := 0 ≠ 0)) by tauto. symmetry. apply Permutation_middle.
Qed.

Section grow.
Context (s : sfs_fs) (sv : sfs_vnode) (s' : sfs_fs) (sv' : sfs_vnode) (k : nat) (b : Z).
Context (Hmap : bmap_of s' sv' = <[k := b]> (bmap_of s sv)) (Hk : bmap_of s sv !! k = Some 0) (Hb : b ≠ 0).

Lemma own_grow : sv_ino sv' = sv_ino sv → sfi_indirect (sv_i sv') = sfi_indirect (sv_i sv) →
  own s' sv' ≡ₚ [b] ++ own s sv.
Proof.
  intros Hi Hind. unfold own. rewrite Hmap, Hi, Hind. rewrite !filter_cons.
  case_decide; rewrite (filter_insert_perm _ k b Hk Hb); simpl; solve_Permutation.
Qed.

Lemma fblock_grow : sector s' b = zero_block →
  (∀ x, x ∈ bmap_of s sv → x ≠ 0 → sector s' x = sector s x) → ∀ j, fblock s' sv' j = fblock s sv j.
Proof.
  intros Hz Hsec j. unfold fblock. rewrite Hmap. pose proof (lookup_lt_Some _ _ _ Hk).
  destruct (decide (Z.to_nat j = k)) as [->|Hj].
  - rewrite list_lookup_insert_eq, Hk by done. simpl. by rewrite decide_False by done.
  - rewrite list_lookup_insert_ne by done. case_decide; [done|].
    destruct (bmap_of s sv !! Z.to_nat j) eqn:He; [|done]. simpl in *. apply Hsec; [|done].
    by eapply list_elem_of_lookup_2.
Qed.
End grow.

Lemma sector_insert s s' b data fm x : fs_to s s' (<[Z.to_nat b := data]> (secs s)) fm → fs_ok s →
  0 ≤ b < sp_nblocks s → 0 ≤ x → sector s' x = if decide (x = b) then data else sector s x.
Proof.
  intros Hto Hs Hb Hx. unfold sector. rewrite (ft_secs _ _ _ _ Hto). pose proof (fs_sectors s Hs). pose proof (fs_size s Hs).
  case_decide as Hd.
  - subst x. rewrite list_lookup_insert_eq by lia. done.
  - rewrite list_lookup_insert_ne by lia. done.
Qed.

(** Reading a block changes nothing that matters. *)
Lemma evolves_read s sv s' : fs_ok s → file_ok s sv → fs_to s s' (secs s) (sfs_freemap s) →
  evolves s sv s' sv ∧ bmap_of s' sv = bmap_of s sv ∧ (∀ j, fblock s' sv j = fblock s sv j) ∧
  (∀ x, sector s' x = sector s x) ∧ (∀ x, marked s' x ↔ marked s x).
Proof.
  intros Hs Hf Hto. assert (Hsec : ∀ x, sector s' x = sector s x).
  { intros x. unfold sector. by rewrite (ft_secs _ _ _ _ Hto). }
  assert (Hm : ∀ x, marked s' x ↔ marked s x) by (intros x; unfold marked; by rewrite (ft_map _ _ _ _ Hto)).
  destruct (file_frame s s' sv) as (_ & Hmap & Hown & Hblk); [done|]. split_and!; try done.
  apply (evolves_grow s sv s' sv []); try done.
  - by apply (fs_ok_same s).
  - apply Hto.
  - apply Hf.
  - by rewrite Hown.
  - apply NoDup_nil_2.
  - by intros b ?%not_elem_of_nil.
  - intros x Hx. rewrite Hm. rewrite elem_of_nil. tauto.
  - by eapply fs_to_map.
Qed.

Lemma hand_back_ok s sv b : fs_ok s → 0 ≤ b < sp_nblocks s → (b ≠ 0 → marked s b) → hand_back s sv b = Ret (s, sv, inr b).
Proof.
  intros Hs Hb Hm. unfold hand_back. case_bool_decide as Hd; [|done].
  destruct (sfs_bused_ok s b Hs Hb) as (r & -> & Hr). ostep. rewrite (proj2 Hr (Hm Hd)). done.
Qed.

(** What sfs_bmap promises. *)
Definition bmap_post (s : sfs_fs) (sv : sfs_vnode) (k : Z) (doalloc : bool) (s' : sfs_fs) (sv' : sfs_vnode)
    (r : result Z) : Prop :=
  evolves s sv s' sv' ∧ (∀ j, fblock s' sv' j = fblock s sv j) ∧
  match r with
  | inr b => bmap_of s' sv' !! Z.to_nat k = Some b ∧ (doalloc = true → b ≠ 0) ∧
             (doalloc = false → bmap_of s' sv' = bmap_of s sv)
  | inl e => doalloc = true ∧ e = ENOSPC ∧ (∀ j, 0 ≤ j < sp_nblocks s' → marked s' j) ∧ bmap_of s sv !! Z.to_nat k = Some 0
  end.

Lemma indirect_apart s sv x : file_ok s sv → x ∈ bmap_of s sv → x ≠ 0 → x ≠ sfi_indirect (sv_i sv).
Proof.
  intros Hf Hx Hx0 ->. pose proof (fo_nodup s sv Hf) as Hnd. unfold own in Hnd. rewrite filter_cons, decide_True in Hnd by done.
  apply NoDup_cons in Hnd as [_ Hnd]. apply NoDup_cons in Hnd as [Hnd _]. apply Hnd, list_elem_of_filter. done.
Qed.

(** The state after a block has been allocated and joined the map at [k]. *)
Lemma joined_ok s sv s' sv' k b : fs_ok s → file_ok s sv → fs_ok s' → sp_nblocks s' = sp_nblocks s →
  bmap_of s' sv' = <[k := b]> (bmap_of s sv) → bmap_of s sv !! k = Some 0 → 0 < b < sp_nblocks s → ¬ marked s b →
  sv_ino sv' = sv_ino sv → sfi_size (sv_i sv') = sfi_size (sv_i sv) → meta sv' = meta sv → (sv_dirty sv' = false → sv' = sv) → sfi_indirect (sv_i sv') = sfi_indirect (sv_i sv) →
  length (sfi_direct (sv_i sv')) = 15%nat → (∀ x, 0 ≤ x → marked s' x ↔ x = b ∨ marked s x) →
  sector s' b = zero_block →
  (∀ x, 0 ≤ x → marked s x → x ≠ sfi_indirect (sv_i sv) ∨ x = 0 → sector s' x = sector s x) → map_kept s s' →
  evolves s sv s' sv' ∧ ∀ j, fblock s' sv' j = fblock s sv j.
Proof.
  intros Hs Hf Hs' Hn Hmap Hk Hb Hnm Hino Hsize Hmeta Hclean Hind Hdir Hm Hz Hsec Hmk. split.
  - apply (evolves_grow s sv s' sv' [b]); try done.
    + by apply (own_grow s sv s' sv' k b); try lia.
    + apply NoDup_singleton.
    + by intros x ->%list_elem_of_singleton.
    + intros x Hx. rewrite Hm by done. by rewrite list_elem_of_singleton.
    + intros x Hx Hmx Hno. apply Hsec; [done..|]. destruct (decide (x = 0)); [by right|left]. intros ->.
      destruct Hno as [Hno|He]; [by apply Hno, own_indirect|by apply (ino_indirect s sv Hf)].
  - apply (fblock_grow s sv s' sv' k b); try done; [lia|]. intros x Hx Hx0.
    destruct (fo_own s sv Hf x) as [? ?]; [by apply own_mapped|]. apply Hsec; [lia|done|]. left. by apply (indirect_apart s).
Qed.

(** Handing back the block found at [k]. *)
Lemma hand_back_mapped s sv k b : fs_ok s → file_ok s sv → bmap_of s sv !! k = Some b → hand_back s sv b = Ret (s, sv, inr b).
Proof.
  intros Hs Hf Hk. apply hand_back_ok; [done|eapply mapped_range; [done|apply (fs_size s Hs)|done]|].
  intros Hb. apply (fo_own s sv Hf), own_mapped; [|done]. by eapply list_elem_of_lookup_2.
Qed.

Lemma bmap_direct_ok s sv k doalloc : fs_ok s → file_ok s sv → 0 ≤ k < 15 →
  ∃ s' sv' r, bmap_direct present space s sv k doalloc = Ret (s', sv', r) ∧ bmap_post s sv k doalloc s' sv' r.
Proof.
  intros Hs Hf Hk. pose proof (fo_direct s sv Hf) as Hd.
  destruct (rd_in_range (sfi_direct (sv_i sv)) k) as (b & Hrd & Hb); [rewrite Hd; lia|].
  assert (Hmap : bmap_of s sv !! Z.to_nat k = Some b) by (unfold bmap_of; by apply lookup_app_l_Some).
  unfold bmap_direct. rewrite Hrd. ostep. destruct (bool_decide (b = 0) && doalloc) eqn:Hc; cbool.
  2: { rewrite (hand_back_mapped s sv (Z.to_nat k)) by done. exists s, sv, (inr b). split; [done|].
       split; [by apply evolves_refl|]. split_and!; try done. intros ->. rewrite andb_true_r in Hc. by cbool. }
  subst b doalloc. destruct (sfs_balloc_ok s Hs) as [(s' & b & fm & -> & Hb' & Hnm & Hto & Hs' & Hm)|[-> Hfull]]; ostep.
  2: { exists s, sv, (inl ENOSPC). split; [done|]. split; [by apply evolves_refl|]. done. }
  unfold set_direct. rewrite wr_in_range by (rewrite Hd; lia). ostep.
  set (sv' := SfsVnode _ _ _).
  assert (Hids : ids s' sv' = ids s sv).
  { unfold ids. change (sfi_indirect (sv_i sv')) with (sfi_indirect (sv_i sv)). case_decide as Hi; [done|]. f_equal.
    destruct (fo_own s sv Hf _ (own_indirect s sv Hi)) as [? Hmi].
    rewrite (sector_insert s s' b _ fm _ Hto) by (done || lia). apply decide_False. by intros He; rewrite He in Hmi. }
  assert (Hmap' : bmap_of s' sv' = <[Z.to_nat k := b]> (bmap_of s sv)).
  { unfold bmap_of. rewrite Hids. symmetry. apply insert_app_l. rewrite Hd. lia. }
  assert (Hk' : bmap_of s' sv' !! Z.to_nat k = Some b).
  { rewrite Hmap'. apply list_lookup_insert_eq. by apply lookup_lt_Some in Hmap. }
  destruct (joined_ok s sv s' sv' (Z.to_nat k) b) as [Hev Hblk]; try done.
  - apply Hto.
  - simpl. by rewrite length_insert.
  - rewrite (sector_insert s s' b _ fm _ Hto) by (done || lia). by rewrite decide_True.
  - intros x Hx Hmx _. rewrite (sector_insert s s' b _ fm _ Hto) by (done || lia). apply decide_False.
    by intros ->.
  - by eapply fs_to_map.
  - rewrite (hand_back_mapped s' sv' (Z.to_nat k)) by (done || apply Hev). exists s', sv', (inr b). split; [done|].
    split_and!; try done. lia.
Qed.

Lemma get_indirect_ok s sv : fs_ok s → file_ok s sv →
  ∃ s' sv' r, get_indirect present space s sv = Ret (s', sv', r) ∧ evolves s sv s' sv' ∧
    (∀ j, fblock s' sv' j = fblock s sv j) ∧
    match r with
    | inr (ib, idbuf) => ib = sfi_indirect (sv_i sv') ∧ ib ≠ 0 ∧ idbuf = ids s' sv' ∧ bmap_of s' sv' = bmap_of s sv
    | inl e => sfi_indirect (sv_i sv) = 0 ∧ e = ENOSPC ∧ ∀ j, 0 ≤ j < sp_nblocks s' → marked s' j
    end.
Proof.
  intros Hs Hf. unfold get_indirect. case_bool_decide as Hi.
  - destruct (sfs_balloc_ok s Hs) as [(s' & b & fm & -> & Hb' & Hnm & Hto & Hs' & Hm)|[-> Hfull]]; ostep.
    2: { exists s, sv, (inl ENOSPC). split; [done|]. split; [by apply evolves_refl|]. done. }
    set (sv' := set_indirect b sv).
    assert (Hz : sector s' b = zero_block).
    { rewrite (sector_insert s s' b _ fm _ Hto) by (done || lia). by rewrite decide_True. }
    assert (Hids : ids s' sv' = replicate 128 0).
    { unfold ids. simpl. rewrite decide_False by lia. rewrite Hz. apply zero_words. }
    assert (Hmap : bmap_of s' sv' = bmap_of s sv).
    { unfold bmap_of. rewrite Hids. unfold ids. by rewrite decide_True. }
    assert (Hsec : ∀ x, 0 ≤ x → marked s x → sector s' x = sector s x).
    { intros x Hx Hmx. rewrite (sector_insert s s' b _ fm _ Hto) by (done || lia). apply decide_False. by intros ->. }
    exists s', sv', (inr (b, replicate 128 0)). split; [done|]. split_and!; try done; [|intros j|lia].
    + apply (evolves_grow s sv s' sv' [b]); try done.
      * apply Hto.
      * apply Hf.
      * unfold own. rewrite Hmap. simpl sfi_indirect. rewrite Hi, !filter_cons. rewrite decide_True by lia.
        rewrite decide_False by tauto. simpl. solve_Permutation.
      * apply NoDup_singleton.
      * by intros x ->%list_elem_of_singleton.
      * intros x Hx. rewrite Hm by done. by rewrite list_elem_of_singleton.
      * intros x Hx Hmx _. by apply Hsec.
      * by eapply fs_to_map.
    + unfold fblock. rewrite Hmap. case_decide as Hd; [done|]. destruct (bmap_of s sv !! Z.to_nat j) as [x|] eqn:He; [|done].
      simpl in *. destruct (fo_own s sv Hf x) as [? ?]; [|apply Hsec; [lia|done]].
      apply own_mapped; [by eapply list_elem_of_lookup_2|done].
  - destruct (fo_own s sv Hf _ (own_indirect s sv Hi)) as [Hr _].
    destruct (sector_get s (sfi_indirect (sv_i sv)) Hs) as (blk & Hblk & Hbl); [pose proof (fs_size s Hs); lia|].
    destruct (sfs_rblock_ok s zero_block (sfi_indirect (sv_i sv)) blk Hs) as (s' & -> & Hto); [done|lia|done|]. ostep.
    destruct (evolves_read s sv s' Hs Hf Hto) as (Hev & Hmap & Hb & Hsec & _).
    eexists s', sv, (inr _). split; [done|]. split_and!; try done. unfold ids. rewrite decide_False by done.
    rewrite Hsec. unfold sector. by rewrite Hblk.
Qed.

(** An entry of the indirect block filled with a new block. *)
Lemma join_indirect_ok s sv off : fs_ok s → file_ok s sv → sfi_indirect (sv_i sv) ≠ 0 → 0 ≤ off < 128 →
  ids s sv !! Z.to_nat off = Some 0 → ∀ s1 b fm, 0 < b < sp_nblocks s → ¬ marked s b →
  fs_to s s1 (<[Z.to_nat b := zero_block]> (secs s)) fm → fs_ok s1 → (∀ j, 0 ≤ j → marked s1 j ↔ j = b ∨ marked s j) →
  ∃ s2, sfs_wblock present space s1 (words_bytes (<[Z.to_nat off := b]> (ids s sv))) (sfi_indirect (sv_i sv)) = Ret (0, s2) ∧
    evolves s sv s2 sv ∧ (∀ j, fblock s2 sv j = fblock s sv j) ∧ bmap_of s2 sv !! Z.to_nat (15 + off) = Some b.
Proof.
  intros Hs Hf Hi Hoff Hid s1 b fm Hb Hnm Hto Hs1 Hm. set (ib := sfi_indirect (sv_i sv)) in *.
  destruct (fo_own s sv Hf _ (own_indirect s sv Hi)) as [Hri Hmi]. fold ib in Hri, Hmi.
  assert (Hne : b ≠ ib) by (by intros ->). pose proof (fo_direct s sv Hf) as Hd.
  set (idbuf := <[Z.to_nat off := b]> (ids s sv)).
  assert (Hw : Forall word idbuf).
  { apply Forall_insert; [by apply ids_words|]. pose proof (fs_size s Hs). unfold word. lia. }
  assert (Hlen : length (words_bytes idbuf) = 512%nat).
  { rewrite words_bytes_length. unfold idbuf. rewrite length_insert, ids_length by done. done. }
  destruct (sfs_wblock_ok s1 (words_bytes idbuf) ib Hs1 Hlen) as (s2 & Hwr & Hto2).
  { rewrite (ft_nblocks _ _ _ _ Hto). lia. }
  assert (Hs2 : fs_ok s2).
  { eapply (fs_ok_to s1 s2); [done|done|by rewrite length_insert| |apply Hs1|done|apply (fs_beyond s1 Hs1)|apply (fs_super s1 Hs1)].
    apply Forall_insert; [apply Hs1|done]. }
  assert (Hsec : ∀ x, 0 ≤ x → sector s2 x = if decide (x = ib) then words_bytes idbuf else
    if decide (x = b) then zero_block else sector s x).
  { intros x Hx. rewrite (sector_insert s1 s2 ib _ _ x Hto2) by (rewrite ?(ft_nblocks _ _ _ _ Hto); done || lia).
    case_decide; [done|]. apply (sector_insert s s1 b _ fm x Hto); done || lia. }
  assert (Hids : ids s2 sv = idbuf).
  { unfold ids. fold ib. rewrite decide_False by done. rewrite Hsec, decide_True by (done || lia). by apply bytes_words_bytes. }
  assert (Hmap : bmap_of s2 sv = <[Z.to_nat (15 + off) := b]> (bmap_of s sv)).
  { unfold bmap_of. rewrite Hids. unfold idbuf. rewrite insert_app_r_alt by lia. do 2 f_equal. lia. }
  assert (Hk : bmap_of s sv !! Z.to_nat (15 + off) = Some 0).
  { unfold bmap_of. rewrite lookup_app_r by lia. rewrite Hd. by replace (Z.to_nat (15 + off) - 15)%nat with (Z.to_nat off) by lia. }
  destruct (joined_ok s sv s2 sv (Z.to_nat (15 + off)) b) as [Hev Hblk]; try done.
  - rewrite (ft_nblocks _ _ _ _ Hto2). apply Hto.
  - intros x Hx. unfold marked. rewrite (ft_map _ _ _ _ Hto2). by apply Hm.
  - rewrite Hsec by lia. rewrite decide_False by done. by rewrite decide_True.
  - intros x Hx Hmx Hxi. rewrite Hsec by done. rewrite decide_False by (unfold ib in *; lia). apply decide_False. by intros ->.
  - eapply map_kept_trans; by eapply fs_to_map.
  - exists s2. split_and!; try done. rewrite Hmap. apply list_lookup_insert_eq. by apply lookup_lt_Some in Hk.
Qed.

Lemma bmap_indirect_ok s sv off doalloc : fs_ok s → file_ok s sv → 0 ≤ off < 128 →
  (doalloc = true ∨ sfi_indirect (sv_i sv) ≠ 0) →
  ∃ s' sv' r, bmap_indirect present space s sv off doalloc = Ret (s', sv', r) ∧ bmap_post s sv (15 + off) doalloc s' sv' r.
Proof.
  intros Hs Hf Hoff Hd. unfold bmap_indirect.
  destruct (get_indirect_ok s sv Hs Hf) as (s1 & sv1 & r & -> & Hev1 & Hb1 & Hr). ostep.
  destruct r as [e|[ib idbuf]].
  { destruct Hr as (H0 & -> & Hfull). exists s1, sv1, (inl ENOSPC). split; [done|]. split; [done|]. split; [done|].
    split; [by destruct Hd|]. split_and!; try done. unfold bmap_of, ids. rewrite decide_True by done.
    rewrite lookup_app_r by (rewrite (fo_direct s sv Hf); lia). apply lookup_replicate_2. rewrite (fo_direct s sv Hf). lia. }
  destruct Hr as (-> & Hi1 & -> & Hmap1). pose proof Hev1 as [Hs1 Hf1 Hn1 _ _ _ _].
  destruct (rd_in_range (ids s1 sv1) off) as (b & Hrd & Hb); [rewrite ids_length by done; lia|]. rewrite Hrd. ostep.
  assert (Hk : bmap_of s1 sv1 !! Z.to_nat (15 + off) = Some b).
  { unfold bmap_of. rewrite lookup_app_r by (rewrite (fo_direct s1 sv1 Hf1); lia). rewrite (fo_direct s1 sv1 Hf1).
    by replace (Z.to_nat (15 + off) - 15)%nat with (Z.to_nat off) by lia. }
  destruct (bool_decide (b = 0) && doalloc) eqn:Hc; cbool.
  2: { rewrite (hand_back_mapped s1 sv1 (Z.to_nat (15 + off))) by done. exists s1, sv1, (inr b). split; [done|].
       split_and!; try done. intros ->. rewrite andb_true_r in Hc. by cbool. }
  subst b doalloc. destruct (sfs_balloc_ok s1 Hs1) as [(s2 & b & fm & -> & Hb' & Hnm & Hto & Hs2 & Hm)|[-> Hfull]]; ostep.
  2: { exists s1, sv1, (inl ENOSPC). rewrite Hmap1 in Hk. done. }
  rewrite wr_in_range by (rewrite ids_length by done; lia). ostep.
  destruct (join_indirect_ok s1 sv1 off Hs1 Hf1 Hi1 Hoff Hb s2 b fm) as (s3 & -> & Hev3 & Hb3 & Hk3); try done. ostep.
  rewrite (bool_decide_eq_false_2 (0 ≠ 0)) by tauto.
  rewrite (hand_back_mapped s3 sv1 (Z.to_nat (15 + off))) by (done || apply Hev3). exists s3, sv1, (inr b). split; [done|].
  split; [by eapply evolves_trans|]. split; [intros j; by rewrite Hb3, Hb1|]. split_and!; try done. lia.
Qed.

(** sfs_bmap finds the block, allocates it where asked to, keeps the contents of
    the file and touches nothing else; it fails only when the disk is full. *)
Lemma sfs_bmap_ok s sv k doalloc : fs_ok s → file_ok s sv → 0 ≤ k < 143 →
  ∃ s' sv' r, sfs_bmap present space s sv k doalloc = Ret (s', sv', r) ∧ bmap_post s sv k doalloc s' sv' r.
Proof.
  intros Hs Hf Hk. unfold sfs_bmap, SFS_NDIRECT, SFS_DBPERIDB. case_bool_decide as Hd; [apply bmap_direct_ok; done || lia|].
  cbv zeta. rewrite (Z.div_small (k - 15)), (Z.mod_small (k - 15)) by lia. rewrite bool_decide_eq_false_2 by lia.
  destruct (bool_decide (sfi_indirect (sv_i sv) = 0) && negb doalloc) eqn:Hc; cbool.
  - subst doalloc. exists s, sv, (inr 0). split; [done|]. split; [by apply evolves_refl|]. split_and!; try done.
    unfold bmap_of. rewrite lookup_app_r by (rewrite (fo_direct s sv Hf); lia). rewrite (fo_direct s sv Hf).
    unfold ids. rewrite decide_True by done. apply lookup_replicate_2. lia.
  - pose proof (bmap_indirect_ok s sv (k - 15) doalloc Hs Hf) as H. replace (15 + (k - 15)) with k in H by lia.
    apply H; [lia|]. apply andb_false_iff in Hc as [Hc|Hc]; cbool; [by right|by left].
Qed.

(** ** Bytes of a file *)

Definition fbyte (s : sfs_fs) (sv : sfs_vnode) (p : Z) : Z :=
  default 0 (fblock s sv (p / 512) !! Z.to_nat (p mod 512)).
Definition fbytes (s : sfs_fs) (sv : sfs_vnode) (p n : Z) : list Z := map (fbyte s sv) (seqZ p n).

Lemma block_pos k o : 0 ≤ o < 512 → (k * 512 + o) / 512 = k ∧ (k * 512 + o) mod 512 = o.
Proof. clear present space. intros. Z.to_euclidean_division_equations. lia. Qed.

Lemma fbytes_length s sv p n : length (fbytes s sv p n) = Z.to_nat n.
Proof. unfold fbytes. by rewrite length_map, length_seqZ. Qed.

Lemma fbytes_app s sv p n k : 0 ≤ n → 0 ≤ k → fbytes s sv p (n + k) = fbytes s sv p n ++ fbytes s sv (p + n) k.
Proof.
  intros. unfold fbytes. rewrite (seqZ_app p n k), map_app by lia. done.
Qed.

Lemma fbytes_ext s sv s' sv' p n : 0 ≤ p → (∀ x, 0 ≤ x → fbyte s' sv' x = fbyte s sv x) → fbytes s' sv' p n = fbytes s sv p n.
Proof. intros Hp H. unfold fbytes. apply map_ext_in. intros x Hx%list_elem_of_In%elem_of_seqZ. apply H. lia. Qed.

(** A piece of one block. *)
Lemma fbytes_block s sv k o n : length (fblock s sv k) = 512%nat → 0 ≤ o → 0 ≤ n → o + n ≤ 512 →
  fbytes s sv (k * 512 + o) n = take (Z.to_nat n) (drop (Z.to_nat o) (fblock s sv k)).
Proof.
  intros Hl Ho Hn Hon. apply list_eq. intros i. unfold fbytes. rewrite list_lookup_fmap.
  destruct (decide (i < Z.to_nat n)%nat) as [Hi|Hi].
  - rewrite lookup_seqZ_lt by lia. simpl. rewrite lookup_take_lt by done. rewrite lookup_drop. unfold fbyte.
    replace (k * 512 + o + Z.of_nat i) with (k * 512 + (o + Z.of_nat i)) by lia.
    destruct (block_pos k (o + Z.of_nat i)) as [-> ->]; [lia|].
    replace (Z.to_nat (o + Z.of_nat i)) with (Z.to_nat o + i)%nat by lia.
    destruct (lookup_lt_is_Some_2 (fblock s sv k) (Z.to_nat o + i)) as [x ->]; [rewrite Hl; lia|]. done.
  - rewrite lookup_seqZ_ge by lia. rewrite lookup_take_ge by lia. done.
Qed.

Lemma fbyte_blocks s sv s' sv' : (∀ j, fblock s' sv' j = fblock s sv j) → ∀ p, fbyte s' sv' p = fbyte s sv p.
Proof. intros H p. unfold fbyte. by rewrite H. Qed.

(** ** Writing a mapped block *)

Lemma filter_nodup_inj (l : list Z) i j b : NoDup (filter (λ x, x ≠ 0) l) → b ≠ 0 →
  l !! i = Some b → l !! j = Some b → i = j.
Proof.
  intros Hnd Hb. revert i j. induction l as [|x l IH]; intros i j Hi Hj; [done|]. rewrite filter_cons in Hnd.
  assert (Hin : ∀ n, l !! n = Some b → b ∈ filter (λ x, x ≠ 0) l).
  { intros n Hn. apply list_elem_of_filter. split; [done|]. by eapply list_elem_of_lookup_2. }
  destruct i as [|i], j as [|j]; simpl in Hi, Hj; [done|..].
  - injection Hi as ->. rewrite decide_True in Hnd by done. apply NoDup_cons in Hnd as [Hnd _]. by destruct Hnd; eapply Hin.
  - injection Hj as ->. rewrite decide_True in Hnd by done. apply NoDup_cons in Hnd as [Hnd _]. by destruct Hnd; eapply Hin.
  - f_equal. apply IH; try done. case_decide; [by apply NoDup_cons in Hnd as [_ ?]|done].
Qed.

Lemma bmap_inj s sv i j b : file_ok s sv → b ≠ 0 → bmap_of s sv !! i = Some b → bmap_of s sv !! j = Some b → i = j.
Proof.
  intros Hf Hb. apply (filter_nodup_inj (bmap_of s sv)); [|done]. pose proof (fo_nodup s sv Hf) as Hnd. unfold own in Hnd.
  apply NoDup_cons in Hnd as [_ Hnd]. rewrite filter_cons in Hnd. case_decide; [by apply NoDup_cons in Hnd as [_ ?]|done].
Qed.

(** The block at [k] gets new contents. *)
Lemma write_block_ok s sv s' k b data : fs_ok s → file_ok s sv → bmap_of s sv !! Z.to_nat k = Some b → b ≠ 0 →
  fs_to s s' (<[Z.to_nat b := data]> (secs s)) (sfs_freemap s) → length data = 512%nat →
  evolves s sv s' sv ∧ ∀ j, 0 ≤ k → 0 ≤ j → fblock s' sv j = if decide (j = k) then data else fblock s sv j.
Proof.
  intros Hs Hf Hk Hb Hto Hlen.
  assert (Hin : b ∈ bmap_of s sv) by by eapply list_elem_of_lookup_2.
  destruct (fo_own s sv Hf b) as [Hbr Hbm]; [by apply own_mapped|].
  assert (Hs' : fs_ok s').
  { eapply (fs_ok_to s s'); [done|done|by rewrite length_insert| |apply Hs|done|apply (fs_beyond s Hs)|apply (fs_super s Hs)].
    apply Forall_insert; [apply Hs|done]. }
  assert (Hsec : ∀ x, 0 ≤ x → sector s' x = if decide (x = b) then data else sector s x).
  { intros x Hx. eapply sector_insert; try done. lia. }
  assert (Hids : ids s' sv = ids s sv).
  { unfold ids. case_decide as Hi; [done|]. destruct (fo_own s sv Hf _ (own_indirect s sv Hi)) as [? _].
    rewrite Hsec by lia. rewrite decide_False; [done|]. by apply not_eq_sym, (indirect_apart s). }
  assert (Hmap : bmap_of s' sv = bmap_of s sv) by (unfold bmap_of; by rewrite Hids).
  split.
  - apply (evolves_grow s sv s' sv []); try done.
    + apply Hto.
    + apply Hf.
    + unfold own. by rewrite Hmap.
    + apply NoDup_nil_2.
    + by intros x ?%not_elem_of_nil.
    + intros x Hx. unfold marked. rewrite (ft_map _ _ _ _ Hto), elem_of_nil. tauto.
    + intros x Hx _ Hno. rewrite Hsec by done. rewrite decide_False; [done|]. intros ->.
      destruct Hno as [Hno|?]; [by apply Hno, own_mapped|by apply (ino_mapped s sv b Hf)].
    + by eapply fs_to_map.
  - intros j Hk0 Hj. unfold fblock. rewrite Hmap. destruct (decide (j = k)) as [->|Hjk].
    + rewrite Hk. simpl. rewrite decide_False by done. rewrite Hsec by lia. by rewrite decide_True.
    + case_decide as Hd; [done|]. destruct (bmap_of s sv !! Z.to_nat j) as [x|] eqn:Hx; [|done]. simpl in *.
      destruct (fo_own s sv Hf x) as [? _]; [apply own_mapped; [by eapply list_elem_of_lookup_2|done]|].
      rewrite Hsec by lia. rewrite decide_False; [done|]. intros ->. pose proof (bmap_inj s sv _ _ b Hf Hb Hk Hx). lia.
Qed.

(** ** Transfers *)

Abbreviation fstate := (sfs_fs * sfs_vnode * memory * uio)%type.

(** [k] bytes have moved between the file and the region of the uio. *)
Definition xfer (st : fstate) (k : Z) (st' : fstate) : Prop :=
  let '(s, sv, m, u) := st in
  let '(s', sv', m', u') := st' in
  u' = moved k u ∧ evolves s sv s' sv' ∧
  match uio_dir u with
  | UIO_READ => m' = store m (iov_base u) (fbytes s sv (uio_offset u) k) ∧
      ∀ p, 0 ≤ p → fbyte s' sv' p = fbyte s sv p
  | UIO_WRITE => m' = m ∧
      ∀ p, 0 ≤ p → fbyte s' sv' p =
        if decide (uio_offset u ≤ p < uio_offset u + k) then peek m (iov_base u + (p - uio_offset u)) else fbyte s sv p
  end.

(** A transfer of [n] bytes can start. *)
Record io_ok (st : fstate) (n : Z) : Prop := {
  io_fs : fs_ok st.1.1.1;
  io_file : file_ok st.1.1.1 st.1.1.2;
  io_uio : uio_wf space st.2;
  io_acc : accessible st.2 n;
  io_pos : 0 ≤ uio_offset st.2 ∧ uio_offset st.2 + n ≤ 143 * 512;
  io_n : 0 ≤ n ≤ uio_resid st.2
}.

Lemma moved_0 u : moved 0 u = u.
Proof. unfold moved. rewrite !Z.add_0_r, !Z.sub_0_r. by destruct u. Qed.

Lemma moved_add j k u : moved k (moved j u) = moved (j + k) u.
Proof. unfold moved. simpl. f_equal; lia. Qed.

(** Nothing has moved, but the map may have grown. *)
Lemma xfer_0 s sv m u s' sv' : evolves s sv s' sv' → (∀ p, 0 ≤ p → fbyte s' sv' p = fbyte s sv p) →
  xfer (s, sv, m, u) 0 (s', sv', m, u).
Proof.
  intros He Hb. split; [by rewrite moved_0|]. split; [done|]. destruct (uio_dir u); split; try done.
  intros p Hp. rewrite decide_False by lia. auto.
Qed.

Lemma xfer_trans st j st1 k st2 : 0 ≤ j → 0 ≤ k → 0 ≤ uio_offset st.2 → xfer st j st1 → xfer st1 k st2 → xfer st (j + k) st2.
Proof.
  destruct st as [[[s sv] m] u], st1 as [[[s1 sv1] m1] u1], st2 as [[[s2 sv2] m2] u2].
  intros Hj Hk Ho (-> & He1 & H1) (-> & He2 & H2). simpl in Ho.
  split; [by rewrite moved_add|]. split; [by eapply evolves_trans|]. simpl in H2.
  destruct (uio_dir u); destruct H1 as [-> Hb1]; destruct H2 as [-> Hb2]; split; try done.
  - rewrite fbytes_app, store_app, fbytes_length, Z2Nat.id by lia.
    by rewrite (fbytes_ext s sv s1 sv1 (uio_offset u + j) k) by (done || lia).
  - intros p Hp. by rewrite Hb2, Hb1.
  - intros p Hp. rewrite Hb2 by done. repeat case_decide; try lia; [f_equal; lia|..]; rewrite Hb1 by done;
      repeat case_decide; try lia; done.
Qed.

Lemma xfer_io_ok st n j st' : io_ok st n → 0 ≤ j ≤ n → xfer st j st' → io_ok st' (n - j).
Proof.
  destruct st as [[[s sv] m] u], st' as [[[s' sv'] m'] u']. intros [] Hj (-> & He & _). simpl in *. split; simpl.
  - apply He.
  - apply He.
  - apply moved_wf; [done|lia].
  - by apply accessible_moved.
  - lia.
  - lia.
Qed.

Definition full (st : fstate) : Prop := ∀ j, 0 ≤ j < sp_nblocks st.1.1.1 → marked st.1.1.1 j.

(** The outcome of a transfer of [n] bytes: all of them, or, writing to a full
    disk, some. *)
Definition io_post (st : fstate) (n e : Z) (st' : fstate) : Prop :=
  (e = 0 ∧ xfer st n st') ∨
  (e = ENOSPC ∧ is_write st.2 = true ∧ full st' ∧ ∃ k, 0 ≤ k < n ∧ xfer st k st').

(** The outcome of a transfer within one block: all or, on a full disk, nothing. *)
Definition piece_post (st : fstate) (n e : Z) (st' : fstate) : Prop :=
  (e = 0 ∧ xfer st n st') ∨
  (e = ENOSPC ∧ is_write st.2 = true ∧ full st' ∧ xfer st 0 st' ∧ fblock st.1.1.1 st.1.1.2 (uio_offset st.2 / 512) = zero_block).

Lemma piece_post_io st n e st' : 0 < n → piece_post st n e st' → io_post st n e st'.
Proof. intros Hn [?|(? & ? & ? & ? & _)]; [by left|right]. split_and!; try done. exists 0. by split; [lia|]. Qed.

Lemma load_lookup m n : ∀ a i, (i < n)%nat → load m a n !! i = Some (peek m (a + Z.of_nat i)).
Proof.
  induction n as [|n IH]; intros a i Hi; [lia|]. destruct i as [|i]; simpl; [by rewrite Z.add_0_r|].
  rewrite IH by lia. do 2 f_equal. lia.
Qed.

(** A block with the bytes from [o] on replaced by [n] bytes from memory. *)
Lemma overlay_lookup m a o n blk i : length blk = 512%nat → 0 ≤ o → 0 ≤ n → o + n ≤ 512 → 0 ≤ i < 512 →
  default 0 ((take (Z.to_nat o) blk ++ overwrite (load m a (Z.to_nat n)) (drop (Z.to_nat o) blk)) !! Z.to_nat i)
  = if decide (o ≤ i < o + n) then peek m (a + (i - o)) else default 0 (blk !! Z.to_nat i).
Proof.
  intros Hl Ho Hn Hon Hi. unfold overwrite. rewrite load_length.
  assert (Ht : length (take (Z.to_nat o) blk) = Z.to_nat o) by (rewrite length_take; lia). case_decide as Hc.
  - rewrite lookup_app_r by lia. rewrite Ht, lookup_app_l by (rewrite load_length; lia). rewrite load_lookup by lia.
    simpl. f_equal. lia.
  - destruct (decide (i < o)).
    + rewrite lookup_app_l by lia. by rewrite lookup_take_lt by lia.
    + rewrite lookup_app_r by lia. rewrite Ht, lookup_app_r by (rewrite load_length; lia).
      rewrite load_length, !lookup_drop. do 2 f_equal. lia.
Qed.

(** The effect of new contents of one block on the bytes of the file. *)
Lemma fbyte_write s sv s' sv' m a k o n data : length (fblock s sv k) = 512%nat → 0 ≤ k → 0 ≤ o → 0 ≤ n → o + n ≤ 512 →
  data = take (Z.to_nat o) (fblock s sv k) ++ overwrite (load m a (Z.to_nat n)) (drop (Z.to_nat o) (fblock s sv k)) →
  (∀ j, 0 ≤ j → fblock s' sv' j = if decide (j = k) then data else fblock s sv j) →
  ∀ p, 0 ≤ p → fbyte s' sv' p =
    if decide (k * 512 + o ≤ p < k * 512 + o + n) then peek m (a + (p - (k * 512 + o))) else fbyte s sv p.
Proof.
  intros Hl Hk Ho Hn Hon Hd Hb p Hp. unfold fbyte. pose proof (Z.div_pos p 512 ltac:(lia) ltac:(lia)).
  pose proof (Z.mod_pos_bound p 512 ltac:(lia)). pose proof (Z.div_mod p 512 ltac:(lia)). rewrite Hb by done.
  destruct (decide (p / 512 = k)) as [He|He].
  - rewrite Hd, overlay_lookup by (done || lia). rewrite He. repeat case_decide; try lia; try done. f_equal. lia.
  - rewrite (decide_False (P := _ ≤ p < _)); [done|]. lia.
Qed.

(** ** The I/O routines *)

(** The block number the routines compute. *)
Lemma file_block k o : 0 ≤ k < 143 → 0 ≤ o < 512 → u32 (Z.quot (k * 512 + o) SFS_BLOCKSIZE) = k.
Proof.
  intros Hk Ho. unfold SFS_BLOCKSIZE. rewrite Z.quot_div_nonneg by lia. destruct (block_pos k o Ho) as [-> _].
  apply u32_small. lia.
Qed.

(** The mapped block's contents. *)
Lemma fblock_mapped s sv k b : bmap_of s sv !! Z.to_nat k = Some b → fblock s sv k = if decide (b = 0) then zero_block else sector s b.
Proof. intros Hk. unfold fblock. by rewrite Hk. Qed.

Lemma sector_lookup s sv k b : fs_ok s → file_ok s sv → bmap_of s sv !! k = Some b →
  0 ≤ b < sp_nblocks s ∧ secs s !! Z.to_nat b = Some (sector s b).
Proof.
  intros Hs Hf Hk. pose proof (fs_size s Hs). assert (Hb : 0 ≤ b < sp_nblocks s) by (eapply mapped_range; [done|lia|done]).
  split; [done|]. destruct (sector_get s b Hs) as (blk & Hblk & _); [lia|]. unfold sector. by rewrite Hblk.
Qed.

(** Fetching the block the routines work on. *)
Lemma read_mapped s sv k b : fs_ok s → file_ok s sv → bmap_of s sv !! Z.to_nat k = Some b → b ≠ 0 →
  ∃ s', sfs_rblock present space s zero_block b = Ret (0, s', fblock s sv k) ∧ evolves s sv s' sv ∧
    bmap_of s' sv = bmap_of s sv ∧ ∀ j, fblock s' sv j = fblock s sv j.
Proof.
  intros Hs Hf Hk Hb. destruct (sector_lookup s sv _ b Hs Hf Hk) as [Hr Hsec].
  destruct (sfs_rblock_ok s zero_block b (sector s b) Hs) as (s' & Hrd & Hto); [done..|].
  exists s'. rewrite Hrd, (fblock_mapped s sv k b Hk), decide_False by done. split; [done|].
  by destruct (evolves_read s sv s' Hs Hf Hto) as (? & ? & ? & _).
Qed.

Lemma sfs_partialio_ok st k o n : io_ok st n → uio_offset st.2 = k * 512 + o → 0 ≤ k < 143 → 0 ≤ o < 512 → o + n ≤ 512 →
  ∃ e st', sfs_partialio present space o n st = Ret (e, st') ∧ piece_post st n e st'.
Proof.
  destruct st as [[[s sv] m] u]. intros [Hs Hf Hw Ha Hpos Hn] Hoff Hk Ho Hon. simpl in *. unfold sfs_partialio.
  rewrite (assert_true (bool_decide (o + n ≤ SFS_BLOCKSIZE))) by (by apply bool_decide_eq_true_2). ostep.
  rewrite Hoff, file_block by lia.
  destruct (sfs_bmap_ok s sv k (is_write u) Hs Hf Hk) as (s1 & sv1 & r & -> & Hev1 & Hb1 & Hr). ostep.
  pose proof Hev1 as [Hs1 Hf1 _ _ _ _ _]. destruct r as [e|b].
  { destruct Hr as (Hwr & -> & Hfull & Hk0). exists ENOSPC, (s1, sv1, m, u). split; [done|].
    right. split_and!; try done; [apply xfer_0; [done|]; intros p _; by apply fbyte_blocks|]. simpl.
    rewrite Hoff, (proj1 (block_pos k o Ho)), (fblock_mapped s sv k 0 Hk0). by rewrite decide_True. }
  destruct Hr as (Hkb & Hnz & _).
  assert (Hfetch : ∃ s2, (if bool_decide (b = 0) then c_assert (negb (is_write u));; Ret (0, s1, zero_block)
      else sfs_rblock present space s1 zero_block b) = Ret (0, s2, fblock s sv k) ∧ evolves s1 sv1 s2 sv1 ∧
      bmap_of s2 sv1 = bmap_of s1 sv1 ∧ ∀ j, fblock s2 sv1 j = fblock s1 sv1 j).
  { rewrite <- (Hb1 k). case_bool_decide as Hb.
    - exists s1. rewrite (fblock_mapped s1 sv1 k b Hkb), decide_True by done.
      assert (is_write u = false) as -> by (destruct (is_write u); naive_solver). split; [done|].
      split; [by apply evolves_refl|]. done.
    - by apply read_mapped. }
  destruct Hfetch as (s2 & -> & Hev2 & Hmap2 & Hb2). ostep. rewrite (bool_decide_eq_false_2 (0 ≠ 0)) by tauto.
  pose proof Hev2 as [Hs2 Hf2 _ _ _ _ _].
  assert (Hlen : length (fblock s sv k) = 512%nat) by by apply fblock_length.
  rewrite uiomove_ok; [|done|rewrite length_drop; lia|lia|done]. ostep. rewrite (bool_decide_eq_false_2 (0 ≠ 0)) by tauto.
  change (is_write (moved n u)) with (is_write u). unfold is_write in *. unfold moved_buf, moved_mem.
  destruct (uio_dir u) eqn:Hd.
  - rewrite bool_decide_eq_false_2 by done. eexists 0, _. split; [done|]. left. split; [done|].
    split; [done|]. split; [by eapply evolves_trans|]. rewrite Hd. rewrite Hoff, fbytes_block by (done || lia). split; [done|].
    intros p _. apply fbyte_blocks. intros j. by rewrite Hb2, Hb1.
  - rewrite bool_decide_eq_true_2 in * by done. specialize (Hnz eq_refl).
    set (data := take (Z.to_nat o) (fblock s sv k) ++ _).
    assert (Hdl : length data = 512%nat).
    { unfold data, overwrite. rewrite length_app, length_app, load_length, length_take, !length_drop. lia. }
    rewrite <- Hmap2 in Hkb. destruct (sector_lookup s2 sv1 _ b Hs2 Hf2 Hkb) as [Hbr _].
    destruct (sfs_wblock_ok s2 data b Hs2 Hdl Hbr) as (s3 & -> & Hto). ostep.
    destruct (write_block_ok s2 sv1 s3 k b data Hs2 Hf2 Hkb Hnz Hto Hdl) as [Hev3 Hb3].
    eexists 0, _. split; [done|]. left. split; [done|]. split; [done|].
    split; [eapply evolves_trans; [done|]; by eapply evolves_trans|]. rewrite Hd. split; [done|]. rewrite Hoff.
    apply (fbyte_write s sv s3 sv1 m (iov_base u) k o n data); try done; try lia.
    intros j Hj. rewrite Hb3 by lia. case_decide; [done|]. by rewrite Hb2, Hb1.
Qed.

Lemma sfs_blockio_ok st k : io_ok st 512 → uio_offset st.2 = k * 512 → 0 ≤ k < 143 →
  ∃ e st', sfs_blockio present space st = Ret (e, st') ∧ io_post st 512 e st'.
Proof.
  destruct st as [[[s sv] m] u]. intros [Hs Hf Hw Ha Hpos Hn] Hoff Hk. simpl in *. unfold sfs_blockio.
  pose proof (file_block k 0 Hk) as Hq. rewrite Z.add_0_r in Hq. rewrite Hoff, Hq by lia.
  destruct (sfs_bmap_ok s sv k (is_write u) Hs Hf Hk) as (s1 & sv1 & r & -> & Hev1 & Hb1 & Hr). ostep.
  pose proof Hev1 as [Hs1 Hf1 _ _ _ _ _]. destruct r as [e|b].
  { destruct Hr as (Hwr & -> & Hfull & _). exists ENOSPC, (s1, sv1, m, u). split; [done|]. right. split_and!; try done.
    exists 0. split; [lia|]. apply xfer_0; [done|]. intros p _. by apply fbyte_blocks. }
  destruct Hr as (Hkb & Hnz & _). assert (Hlen : length (fblock s sv k) = 512%nat) by by apply fblock_length.
  assert (Hfb : fbytes s sv (k * 512) 512 = fblock s sv k).
  { replace (k * 512) with (k * 512 + 0) by lia. rewrite fbytes_block by (done || lia).
    change (Z.to_nat 0) with 0%nat. rewrite drop_0. apply firstn_all2. rewrite Hlen. done. }
  case_bool_decide as Hb.
  - assert (Hrd : is_write u = false) by (destruct (is_write u); naive_solver). rewrite Hrd. cbn [negb c_assert]. ostep.
    assert (Hd : uio_dir u = UIO_READ) by (unfold is_write in Hrd; destruct (uio_dir u); [done|by cbool]).
    unfold uiomovezeros. rewrite bool_decide_eq_true_2 by done. cbn [c_assert]. ostep. unfold SFS_BLOCKSIZE.
    rewrite (zeros_loop_spec present space) by (done || lia). ostep. eexists 0, _. split; [done|]. left. split; [done|].
    split; [done|]. split; [done|]. rewrite Hd, Hoff, Hfb. split; [|intros p _; by apply fbyte_blocks].
    rewrite <- (Hb1 k), (fblock_mapped s1 sv1 k b Hkb), decide_True by done. done.
  - destruct (sector_lookup s1 sv1 _ b Hs1 Hf1 Hkb) as [Hbr Hsec]. pose proof (fs_size s1 Hs1). unfold SFS_BLOCKSIZE.
    rewrite bool_decide_eq_true_2 by lia. cbn [c_assert]. ostep.
    rewrite (u32_small (b * 512)), (s32_small (b * 512)) by lia. pose proof Hw as [Hwb Hwr Hwo Hws].
    rewrite (s32_small (uio_resid u)) by lia.
    destruct (sfs_rwblock_ok s1 m (set_pos (b * 512) 512 u) b (sector s1 b)) as (s2 & -> & Hto); try done; [|lia|].
    { split; simpl; try lia. done. }
    ostep. assert (Hpos' : set_pos (s32 (uio_offset (moved 512 (set_pos (b * 512) 512 u)) - b * 512 + k * 512))
      (u32 (uio_resid (moved 512 (set_pos (b * 512) 512 u)) - 512 + uio_resid u)) (moved 512 (set_pos (b * 512) 512 u)) = moved 512 u).
    { unfold set_pos, moved. simpl. rewrite s32_small by lia. rewrite u32_small by lia. f_equal; lia. }
    rewrite Hpos'. eexists 0, _. split; [done|]. left. split; [done|]. split; [done|].
    unfold block_mem, block_secs in *. cbn [uio_dir set_pos iov_base] in *.
    assert (Hblk : sector s1 b = fblock s sv k) by (by rewrite <- (Hb1 k), (fblock_mapped s1 sv1 k b Hkb), decide_False).
    destruct (uio_dir u) eqn:Hd.
    + destruct (evolves_read s1 sv1 s2 Hs1 Hf1 Hto) as (Hev2 & _ & Hb2 & _). split; [by eapply evolves_trans|].
      rewrite Hoff, Hfb, Hblk. split; [done|]. intros p _. apply fbyte_blocks. intros j. by rewrite Hb2, Hb1.
    + destruct (write_block_ok s1 sv1 s2 k b _ Hs1 Hf1 Hkb Hb Hto) as [Hev2 Hb2]; [apply load_length|].
      split; [by eapply evolves_trans|]. split; [done|]. rewrite Hoff. replace (k * 512) with (k * 512 + 0) by lia.
      apply (fbyte_write s sv s2 sv1 m (iov_base u) k 0 512 (load m (iov_base u) 512)); try done; try lia.
      * change (Z.to_nat 0) with 0%nat. change (Z.to_nat 512) with 512%nat. rewrite drop_0. unfold overwrite.
        rewrite load_length, drop_ge by (rewrite Hlen; done). by rewrite app_nil_r.
      * intros j Hj. rewrite Hb2 by lia. case_decide; [done|]. by rewrite Hb1.
Qed.

Lemma io_post_after st j st1 n e st' : 0 ≤ j → 0 ≤ n - j → 0 ≤ uio_offset st.2 → xfer st j st1 →
  io_post st1 (n - j) e st' → io_post st n e st'.
Proof.
  intros Hj Hn Ho Hx [[-> Hx']|(-> & Hw & Hfull & k & Hk & Hx')].
  - left. split; [done|]. replace n with (j + (n - j)) by lia. by eapply xfer_trans.
  - right. split_and!; try done.
    + destruct st as [[[? ?] ?] u], st1 as [[[? ?] ?] u1]. by destruct Hx as [-> _].
    + exists (j + k). split; [lia|]. by eapply (xfer_trans _ j st1 k); try lia.
Qed.

Lemma xfer_pos st j st' : xfer st j st' → uio_offset st'.2 = uio_offset st.2 + j ∧ uio_resid st'.2 = uio_resid st.2 - j.
Proof. destruct st as [[[? ?] ?] u], st' as [[[? ?] ?] u']. by intros [-> _]. Qed.

Lemma xfer_id st : fs_ok st.1.1.1 → file_ok st.1.1.1 st.1.1.2 → xfer st 0 st.
Proof. destruct st as [[[s sv] m] u]. intros. apply xfer_0; [by apply evolves_refl|done]. Qed.

Lemma io_ok_less st n k : io_ok st n → 0 ≤ k ≤ n → io_ok st k.
Proof. intros [] Hk. split; try done; try lia. by apply (accessible_sub _ n). Qed.

(** The loop over whole blocks. *)
Lemma block_loop_ok n : ∀ i st k, io_ok st (Z.of_nat n * 512) → uio_offset st.2 = k * 512 → 0 ≤ k →
  (∃ st', for_loop n i (block_turn present space) st = Ret (inl st') ∧ xfer st (Z.of_nat n * 512) st') ∨
  (∃ e st', for_loop n i (block_turn present space) st = Ret (inr (e, st')) ∧ e ≠ 0 ∧ io_post st (Z.of_nat n * 512) e st').
Proof.
  induction n as [|n IH]; intros i st k Hio Hoff Hk.
  - left. exists st. split; [done|]. apply xfer_id; apply Hio.
  - destruct (sfs_blockio_ok st k) as (e & st1 & Hrun & Hpost); [apply (io_ok_less _ _ _ Hio); lia|done| |].
    { pose proof (io_pos _ _ Hio). lia. }
    assert (Hturn : block_turn present space i st = Ret (if bool_decide (e ≠ 0) then inr (e, st1) else inl st1)).
    { unfold block_turn. rewrite Hrun. by ostep. }
    cbn [for_loop]. rewrite Hturn. ostep. destruct Hpost as [[-> Hx]|(-> & Hw & Hfull & j & Hj & Hx)].
    + rewrite (bool_decide_eq_false_2 (0 ≠ 0)) by tauto. pose proof (xfer_pos _ _ _ Hx) as [Ho1 _].
      assert (Hio1 : io_ok st1 (Z.of_nat n * 512)).
      { replace (Z.of_nat n * 512) with (Z.of_nat (S n) * 512 - 512) by lia. eapply xfer_io_ok; [done|lia|done]. }
      pose proof (io_pos _ _ Hio). destruct (IH (i + 1) st1 (k + 1) Hio1) as [(st' & -> & Hx')|(e & st' & -> & He & Hp)]; try lia.
      * left. exists st'. split; [done|]. replace (Z.of_nat (S n) * 512) with (512 + Z.of_nat n * 512) by lia.
        by eapply (xfer_trans _ 512 st1); try lia.
      * right. exists e, st'. split_and!; try done. eapply (io_post_after st 512 st1); try done; try lia.
        by replace (Z.of_nat (S n) * 512 - 512) with (Z.of_nat n * 512) by lia.
    + right. exists ENOSPC, st1. split_and!; try done. right. split_and!; try done. exists j. split; [lia|done].
Qed.

Lemma io_aligned_ok st k n : io_ok st n → uio_resid st.2 = n → uio_offset st.2 = k * 512 → 0 ≤ k →
  ∃ e st', io_aligned present space st = Ret (e, st') ∧ io_post st n e st'.
Proof.
  intros Hio Hres Hoff Hk. pose proof (io_n _ _ Hio). pose proof (io_pos _ _ Hio). unfold io_aligned, SFS_BLOCKSIZE.
  rewrite Hoff, Hres, Z.rem_mul by done. rewrite (assert_true (bool_decide (0 = 0))) by done. ostep.
  set (nb := n / 512). assert (Hnb : 0 ≤ nb ∧ 0 ≤ n - nb * 512 < 512).
  { unfold nb. Z.to_euclidean_division_equations. lia. }
  clearbody nb. destruct (block_loop_ok (Z.to_nat nb) 0 st k) as [(st1 & -> & Hx)|(e & st1 & -> & He & Hp)]; try done.
  - apply (io_ok_less _ _ _ Hio). lia.
  - rewrite Z2Nat.id in Hx by lia. ostep. pose proof (xfer_pos _ _ _ Hx) as [Ho1 Hr1].
    rewrite (assert_true (bool_decide _)) by (apply bool_decide_eq_true_2; lia). ostep.
    assert (Hio1 : io_ok st1 (n - nb * 512)) by (eapply xfer_io_ok; [done|lia|done]).
    rewrite Hr1, Hres. case_bool_decide as Hlast.
    + destruct (sfs_partialio_ok st1 (k + nb) 0 (n - nb * 512)) as (e & st' & Hrun & Hpost); try done; try lia.
      exists e, st'. split; [done|]. apply (io_post_after st (nb * 512) st1); try done; try lia. apply piece_post_io; [lia|done].
    + exists 0, st1. split; [done|]. left. split; [done|]. by replace n with (nb * 512) by lia.
  - ostep. exists e, st1. split; [done|]. rewrite Z2Nat.id in Hp by lia. destruct Hp as [[? _]|(? & ? & ? & j & ? & ?)]; [done|].
    right. split_and!; try done. exists j. split; [lia|done].
Qed.

Lemma io_blocks_ok st n : io_ok st n → uio_resid st.2 = n → 0 < n →
  ∃ e st', io_blocks present space st = Ret (e, st') ∧ io_post st n e st'.
Proof.
  intros Hio Hres Hpos. pose proof (io_pos _ _ Hio) as [Ho Hend]. unfold io_blocks, SFS_BLOCKSIZE.
  rewrite Z.rem_mod_nonneg by lia. set (o := uio_offset st.2 mod 512). set (k := uio_offset st.2 / 512).
  assert (Hko : uio_offset st.2 = k * 512 + o ∧ 0 ≤ o < 512 ∧ 0 ≤ k).
  { unfold k, o. Z.to_euclidean_division_equations. lia. }
  clearbody k o. rewrite u32_small by lia. rewrite Hres. case_bool_decide as Hb; ostep.
  - set (n1 := if bool_decide (n < 512 - o) then n else 512 - o).
    assert (Hn1 : n1 = n `min` (512 - o)) by (unfold n1; case_bool_decide; lia). clearbody n1.
    destruct (sfs_partialio_ok st k o n1) as (e & st1 & -> & Hpost); try lia; [apply (io_ok_less _ _ _ Hio); lia|].
    destruct Hpost as [[-> Hx]|(-> & Hw & Hf & Hx & _)]; ostep.
    + rewrite (bool_decide_eq_false_2 (0 ≠ 0)) by tauto. cbn [orb]. pose proof (xfer_pos _ _ _ Hx) as [Ho1 Hr1].
      case_bool_decide as Hdone.
      * exists 0, st1. split; [done|]. left. split; [done|]. by replace n with n1 by lia.
      * destruct (io_aligned_ok st1 (k + 1) (n - n1)) as (e & st' & Hrun & Hp); try lia.
        { eapply xfer_io_ok; [done|lia|done]. }
        exists e, st'. split; [done|]. apply (io_post_after st n1 st1); done || lia.
    + exists ENOSPC, st1. split; [done|]. right. split_and!; try done. exists 0. split; [lia|done].
  - rewrite (bool_decide_eq_false_2 (0 ≠ 0)) by tauto. cbn [orb]. rewrite Hres, bool_decide_eq_false_2 by lia.
    apply (io_aligned_ok st k); done || lia.
Qed.

(** A transfer that does not fill a block and does not leave it. *)
Lemma io_blocks_piece st n : io_ok st n → uio_resid st.2 = n → 0 < n < 512 → uio_offset st.2 mod 512 + n ≤ 512 →
  ∃ e st', io_blocks present space st = Ret (e, st') ∧ piece_post st n e st'.
Proof.
  intros Hio Hres Hn Hone. pose proof (io_pos _ _ Hio) as [Ho Hend]. unfold io_blocks, SFS_BLOCKSIZE.
  rewrite Z.rem_mod_nonneg by lia. set (o := uio_offset st.2 mod 512) in *. set (k := uio_offset st.2 / 512).
  assert (Hko : uio_offset st.2 = k * 512 + o ∧ 0 ≤ o < 512 ∧ 0 ≤ k).
  { unfold k, o. Z.to_euclidean_division_equations. lia. }
  clearbody k o. rewrite u32_small by lia. rewrite Hres. case_bool_decide as Hb; ostep.
  - assert (Hn1 : (if bool_decide (n < 512 - o) then n else 512 - o) = n) by (case_bool_decide; lia). rewrite Hn1.
    destruct (sfs_partialio_ok st k o n) as (e & st1 & -> & Hpost); try done; try lia. ostep. exists e, st1. split; [|done].
    destruct Hpost as [[-> Hx]|(-> & _)]; [|done]. pose proof (xfer_pos _ _ _ Hx) as [_ ->].
    by rewrite (bool_decide_eq_true_2 (_ - n = 0)), orb_true_r by lia.
  - rewrite (bool_decide_eq_false_2 (0 ≠ 0)) by tauto. cbn [orb]. rewrite Hres, bool_decide_eq_false_2 by lia.
    unfold io_aligned, SFS_BLOCKSIZE. destruct Hko as (Hoff & _ & Hk). assert (o = 0) as -> by lia.
    rewrite Hres, Hoff, Z.add_0_r, Z.rem_mul, Z.div_small by lia. rewrite (assert_true (bool_decide (0 = 0))) by done. ostep.
    change (Z.to_nat 0) with 0%nat. cbn [for_loop]. ostep. rewrite Hres.
    rewrite (assert_true (bool_decide (n < 512))) by (apply bool_decide_eq_true_2; lia). ostep. rewrite bool_decide_eq_true_2 by lia.
    apply (sfs_partialio_ok st k 0 n); try done; lia.
Qed.

(** ** sfs_io *)

Definition MAXFILE : Z := 143 * 512.

Lemma set_pos_wf u r : uio_wf space u → 0 ≤ r ≤ uio_resid u → uio_wf space (set_pos (uio_offset u) r u).
Proof. intros [] Hr. split; simpl; try done; lia. Qed.

(** The bytes a read gets: up to the end of the file. *)
Definition avail (sv : sfs_vnode) (u : uio) : Z := 0 `max` (uio_resid u `min` (sfi_size (sv_i sv) - uio_offset u)).

Lemma sfs_io_read s sv m u : fs_ok s → file_ok s sv → 0 ≤ sfi_size (sv_i sv) ≤ MAXFILE → uio_wf space u →
  uio_dir u = UIO_READ → 0 ≤ uio_offset u → 0 < uio_resid u → accessible u (avail sv u) →
  ∃ s' sv', sfs_io present space (s, sv, m, u) =
      Ret (0, (s', sv', store m (iov_base u) (fbytes s sv (uio_offset u) (avail sv u)), moved (avail sv u) u)) ∧
    evolves s sv s' sv' ∧ ∀ p, 0 ≤ p → fbyte s' sv' p = fbyte s sv p.
Proof.
  intros Hs Hf Hsz Hw Hd Hoff Hres Hacc. unfold MAXFILE in Hsz. pose proof Hw as [Hwb Hwr Hwo _]. unfold sfs_io, is_write.
  rewrite Hd. rewrite (bool_decide_eq_false_2 (UIO_READ = UIO_WRITE)) by done. cbv zeta.
  rewrite (s32_small (sfi_size (sv_i sv))), (s32_small (uio_offset u + uio_resid u)) by lia.
  unfold avail in *. set (size := sfi_size (sv_i sv)) in *. case_bool_decide as Heof.
  { replace (0 `max` _) with 0 by lia. exists s, sv. rewrite moved_0. split; [done|]. split; [by apply evolves_refl|done]. }
  assert (Hgo : ∀ n, 0 < n ≤ uio_resid u → n ≤ size - uio_offset u → accessible u n →
    ∃ s' sv', io_blocks present space (s, sv, m, set_pos (uio_offset u) n u) =
        Ret (0, (s', sv', store m (iov_base u) (fbytes s sv (uio_offset u) n), moved n (set_pos (uio_offset u) n u))) ∧
      evolves s sv s' sv' ∧ ∀ p, 0 ≤ p → fbyte s' sv' p = fbyte s sv p).
  { intros n Hn Hns Ha. destruct (io_blocks_ok (s, sv, m, set_pos (uio_offset u) n u) n) as (e & st' & Hrun & Hpost); try done; try lia.
    { split; simpl; try done; try lia. by apply set_pos_wf; try lia. }
    destruct Hpost as [[-> Hx]|(_ & Hwr' & _)]; [|by unfold is_write in Hwr'; simpl in Hwr'; rewrite Hd in Hwr'].
    destruct st' as [[[s' sv'] m'] u']. destruct Hx as (-> & Hev & Hx). simpl in Hx. rewrite Hd in Hx.
    destruct Hx as [-> Hb]. exists s', sv'. done. }
  assert (Hout : ∀ x s' sv' m' n, uio_resid u - n = x → 0 ≤ x → 0 ≤ n →
    io_out x (0, (s', sv', m', moved n (set_pos (uio_offset u) n u))) = (0, (s', sv', m', moved n u))).
  { intros x s' sv' m' n Hx Hx0 Hn. unfold io_out, is_write. simpl. rewrite Hd.
    rewrite (bool_decide_eq_false_2 (UIO_READ = UIO_WRITE)) by done. cbn [andb]. unfold set_pos, moved. simpl.
    rewrite u32_small by lia. do 3 f_equal. lia. }
  case_bool_decide as Hpast.
  - rewrite (u32_small (_ - size)) by lia. rewrite (assert_true (bool_decide _)) by (apply bool_decide_eq_true_2; lia). ostep.
    replace (uio_resid u - (uio_offset u + uio_resid u - size)) with (size - uio_offset u) by lia.
    replace (0 `max` _) with (size - uio_offset u) in * by lia.
    destruct (Hgo (size - uio_offset u)) as (s' & sv' & -> & Hev & Hb); [lia..|done|]. ostep. rewrite Hout by lia. by exists s', sv'.
  - replace (0 `max` _) with (uio_resid u) in * by lia.
    destruct (Hgo (uio_resid u)) as (s' & sv' & Hrun & Hev & Hb); [lia..|done|].
    replace (set_pos (uio_offset u) (uio_resid u) u) with u in Hrun by by destruct u. rewrite Hrun. ostep.
    pose proof (Hout 0 s' sv' (store m (iov_base u) (fbytes s sv (uio_offset u) (uio_resid u))) (uio_resid u)) as Ho.
    replace (set_pos (uio_offset u) (uio_resid u) u) with u in Ho by by destruct u. rewrite Ho by lia. by exists s', sv'.
Qed.

(** The size after [k] bytes have been written at [off]. *)
Definition resize (off k : Z) (sv : sfs_vnode) : sfs_vnode :=
  if decide (sfi_size (sv_i sv) < off + k) then set_size (off + k) sv else sv.

Lemma io_write_out s sv m u e st' k : 0 ≤ sfi_size (sv_i sv) ≤ MAXFILE → uio_wf space u → uio_dir u = UIO_WRITE →
  0 ≤ uio_offset u → uio_offset u + uio_resid u ≤ MAXFILE → 0 ≤ k ≤ uio_resid u →
  io_blocks present space (s, sv, m, u) = Ret (e, st') → xfer (s, sv, m, u) k st' →
  ∃ s' sv1, sfs_io present space (s, sv, m, u) = Ret (e, (s', resize (uio_offset u) k sv1, m, moved k u)) ∧ st'.1.1.1 = s' ∧
    evolves s sv s' sv1 ∧ ∀ p, 0 ≤ p → fbyte s' sv1 p =
      if decide (uio_offset u ≤ p < uio_offset u + k) then peek m (iov_base u + (p - uio_offset u)) else fbyte s sv p.
Proof.
  intros Hsz Hw Hd Hoff Hend Hk Hrun Hx. unfold MAXFILE in *. pose proof Hw as [Hwb Hwr Hwo _].
  destruct st' as [[[s' sv1] m'] u']. destruct Hx as (-> & Hev & Hx).
  rewrite Hd in Hx. destruct Hx as [-> Hb]. exists s', sv1. split; [|split; [done|by split]].
  unfold sfs_io. assert (Hwrite : is_write u = true) by (unfold is_write; by rewrite Hd). rewrite Hwrite, Hrun. ostep.
  unfold io_out. change (is_write (moved k u)) with (is_write u). rewrite Hwrite. cbn [andb].
  rewrite (ev_size _ _ _ _ Hev), s32_small by lia.
  assert (Hu : set_pos (uio_offset (moved k u)) (u32 (uio_resid (moved k u) + 0)) (moved k u) = moved k u).
  { unfold set_pos, moved. simpl. rewrite Z.add_0_r, u32_small by lia. done. }
  rewrite Hu. unfold resize. rewrite (ev_size _ _ _ _ Hev). simpl uio_offset. rewrite u32_small by lia.
  case_bool_decide; case_decide; done.
Qed.

Lemma sfs_io_write s sv m u : fs_ok s → file_ok s sv → 0 ≤ sfi_size (sv_i sv) ≤ MAXFILE → uio_wf space u →
  uio_dir u = UIO_WRITE → 0 ≤ uio_offset u → uio_offset u + uio_resid u ≤ MAXFILE → 0 < uio_resid u →
  accessible u (uio_resid u) →
  ∃ e s' sv1 k, sfs_io present space (s, sv, m, u) = Ret (e, (s', resize (uio_offset u) k sv1, m, moved k u)) ∧
    ((e = 0 ∧ k = uio_resid u) ∨ (e = ENOSPC ∧ 0 ≤ k < uio_resid u ∧ ∀ j, 0 ≤ j < sp_nblocks s' → marked s' j)) ∧
    evolves s sv s' sv1 ∧ ∀ p, 0 ≤ p → fbyte s' sv1 p =
      if decide (uio_offset u ≤ p < uio_offset u + k) then peek m (iov_base u + (p - uio_offset u)) else fbyte s sv p.
Proof.
  intros Hs Hf Hsz Hw Hd Hoff Hend Hres Hacc.
  destruct (io_blocks_ok (s, sv, m, u) (uio_resid u)) as (e & st' & Hrun & Hpost); try done; [split; simpl; try done; unfold MAXFILE in *; lia|].
  assert (Hk : ∃ k, xfer (s, sv, m, u) k st' ∧
    ((e = 0 ∧ k = uio_resid u) ∨ (e = ENOSPC ∧ 0 ≤ k < uio_resid u ∧ full st'))).
  { destruct Hpost as [[-> Hx]|(-> & _ & Hfull & k & Hk & Hx)]; [exists (uio_resid u)|exists k]; split_and!; try done; auto. }
  clear Hpost. destruct Hk as (k & Hx & Hcase). destruct (io_write_out s sv m u e st' k) as (s' & sv1 & ? & <- & ?); try done; [destruct Hcase as [[_ ->]|(_ & ? & _)]; lia|].
  by exists e, st'.1.1.1, sv1, k.
Qed.

(** A write within one block: all or nothing. *)
Lemma sfs_io_write_piece s sv m u : fs_ok s → file_ok s sv → 0 ≤ sfi_size (sv_i sv) ≤ MAXFILE → uio_wf space u →
  uio_dir u = UIO_WRITE → 0 ≤ uio_offset u → uio_offset u + uio_resid u ≤ MAXFILE → 0 < uio_resid u < 512 →
  uio_offset u mod 512 + uio_resid u ≤ 512 → accessible u (uio_resid u) →
  ∃ e s' sv1 k, sfs_io present space (s, sv, m, u) = Ret (e, (s', resize (uio_offset u) k sv1, m, moved k u)) ∧
    ((e = 0 ∧ k = uio_resid u) ∨
     (e = ENOSPC ∧ k = 0 ∧ (∀ j, 0 ≤ j < sp_nblocks s' → marked s' j) ∧ fblock s sv (uio_offset u / 512) = zero_block)) ∧
    evolves s sv s' sv1 ∧ ∀ p, 0 ≤ p → fbyte s' sv1 p =
      if decide (uio_offset u ≤ p < uio_offset u + k) then peek m (iov_base u + (p - uio_offset u)) else fbyte s sv p.
Proof.
  intros Hs Hf Hsz Hw Hd Hoff Hend Hres Hone Hacc.
  destruct (io_blocks_piece (s, sv, m, u) (uio_resid u)) as (e & st' & Hrun & Hpost); try done; [split; simpl; try done; unfold MAXFILE in *; lia|].
  assert (Hk : ∃ k, xfer (s, sv, m, u) k st' ∧ ((e = 0 ∧ k = uio_resid u) ∨
    (e = ENOSPC ∧ k = 0 ∧ full st' ∧ fblock s sv (uio_offset u / 512) = zero_block))).
  { destruct Hpost as [[-> Hx]|(-> & _ & Hfull & Hx & Hz)]; [exists (uio_resid u)|exists 0]; split_and!; try done; auto. }
  clear Hpost. destruct Hk as (k & Hx & Hcase). destruct (io_write_out s sv m u e st' k) as (s' & sv1 & ? & <- & ?); try done; [destruct Hcase as [[_ ->]|(_ & -> & _)]; lia|].
  by exists e, st'.1.1.1, sv1, k.
Qed.

(** A write past the last block the inode can map is refused. *)
Lemma sfs_io_write_past s sv m u : uio_wf space u → uio_dir u = UIO_WRITE → uio_offset u = MAXFILE → 0 < uio_resid u < 512 →
  sfi_size (sv_i sv) = MAXFILE → sfs_io present space (s, sv, m, u) = Ret (EINVAL, (s, sv, m, u)).
Proof.
  intros [Hwb Hwr Hwo _] Hd Hoff Hres Hsz. unfold sfs_io. assert (Hwrite : is_write u = true) by (unfold is_write; by rewrite Hd).
  rewrite Hwrite. unfold io_blocks. cbn [fst snd]. rewrite Hoff. change (u32 (Z.rem MAXFILE SFS_BLOCKSIZE)) with 0.
  rewrite (bool_decide_eq_false_2 (0 ≠ 0)) by tauto. ostep. rewrite (bool_decide_eq_false_2 (0 ≠ 0)) by tauto. cbn [orb fst snd].
  rewrite bool_decide_eq_false_2 by lia. unfold io_aligned. cbn [fst snd]. rewrite Hoff. change (Z.rem MAXFILE SFS_BLOCKSIZE) with 0.
  rewrite (assert_true (bool_decide (0 = 0))) by done. ostep. rewrite (Z.div_small (uio_resid u) SFS_BLOCKSIZE) by (unfold SFS_BLOCKSIZE; lia).
  change (Z.to_nat 0) with 0%nat. cbn [for_loop]. ostep. cbn [fst snd].
  rewrite (assert_true (bool_decide _)) by (apply bool_decide_eq_true_2; unfold SFS_BLOCKSIZE; lia). ostep.
  rewrite bool_decide_eq_true_2 by lia. unfold sfs_partialio.
  rewrite (assert_true (bool_decide _)) by (apply bool_decide_eq_true_2; unfold SFS_BLOCKSIZE; lia). ostep. rewrite Hoff.
  change (u32 (Z.quot MAXFILE SFS_BLOCKSIZE)) with 143. unfold sfs_bmap. change (bool_decide (143 < SFS_NDIRECT)) with false. cbv zeta.
  change (bool_decide (0 < (143 - SFS_NDIRECT) / SFS_DBPERIDB)) with true. cbv iota. ostep. unfold io_out. rewrite Hwrite.
  unfold MAXFILE in *. rewrite Hoff, s32_small by lia.
  rewrite (bool_decide_eq_false_2 (sfi_size (sv_i sv) < 143 * 512)) by lia. cbn [andb].
  do 3 f_equal. unfold set_pos. rewrite Z.add_0_r, u32_small by lia. rewrite <- Hoff. by destruct u.
Qed.
End spec.
