(* ===== verification/SfsTrunc.v ===== *)
(** * Specification of truncation

    [sfs_truncate] walks over the direct and the indirect part of the block map
    and gives blocks back. Both walks are a sweep: the entries of a list that a
    test selects are freed and set to 0. *)

From S2P Require Import Prelude Bitmap KHeap KHeapSpec Coremap Uio Sfs SfsSpec.

Abbreviation nz := (λ b : Z, b ≠ 0).

(** ** Sweeping a list of block numbers *)

(** The first [i] entries have been looked at. *)
Definition swept (drop : Z → bool) (i : Z) (l : list Z) : list Z :=
  imap (λ k b, if bool_decide (Z.of_nat k < i) && drop (Z.of_nat k) then 0 else b) l.
Definition freed (drop : Z → bool) (i : Z) (l : list Z) (b : Z) : Prop :=
  b ≠ 0 ∧ ∃ k, l !! k = Some b ∧ Z.of_nat k < i ∧ drop (Z.of_nat k) = true.

Lemma swept_lookup drop i l k : swept drop i l !! k =
  (λ b, if bool_decide (Z.of_nat k < i) && drop (Z.of_nat k) then 0 else b) <$> l !! k.
Proof. apply list_lookup_imap. Qed.

Lemma swept_0 drop l : swept drop 0 l = l.
Proof.
  apply list_eq. intros k. rewrite swept_lookup, bool_decide_eq_false_2 by lia. by destruct (l !! k).
Qed.

Lemma swept_length drop i l : length (swept drop i l) = length l.
Proof. apply length_imap. Qed.

(** Looking at one more entry either sets it to 0 or changes nothing. *)
Lemma swept_next drop i l b : 0 ≤ i → l !! Z.to_nat i = Some b →
  swept drop (i + 1) l = if decide (drop i = true ∧ b ≠ 0) then <[Z.to_nat i := 0]> (swept drop i l) else swept drop i l.
Proof.
  intros Hi Hb. apply list_eq. intros k. rewrite swept_lookup.
  destruct (decide (k = Z.to_nat i)) as [->|Hk].
  - rewrite Hb. simpl. rewrite Z2Nat.id by done. rewrite bool_decide_eq_true_2 by lia.
    destruct (decide (drop i = true ∧ b ≠ 0)) as [Hd|Hd].
    + destruct Hd as [-> Hb0]. rewrite list_lookup_insert_eq; [done|]. rewrite swept_length. by eapply lookup_lt_Some.
    + rewrite swept_lookup, Hb. simpl. rewrite Z2Nat.id by done. rewrite bool_decide_eq_false_2 by lia. simpl.
      destruct (drop i) eqn:E; simpl; [|done]. destruct (decide (b = 0)) as [->|]; [done|]. by destruct Hd.
  - assert (Hsame : bool_decide (Z.of_nat k < i + 1) = bool_decide (Z.of_nat k < i)) by (apply bool_decide_ext; lia).
    rewrite Hsame. destruct (decide (drop i = true ∧ b ≠ 0)); [rewrite list_lookup_insert_ne by done|]; by rewrite swept_lookup.
Qed.

Lemma freed_next drop i l b x : 0 ≤ i → l !! Z.to_nat i = Some b →
  freed drop (i + 1) l x ↔ freed drop i l x ∨ (x = b ∧ drop i = true ∧ b ≠ 0).
Proof.
  intros Hi Hb. split.
  - intros (Hx & k & Hk & Hlt & Hd). destruct (decide (k = Z.to_nat i)) as [->|].
    + right. rewrite Z2Nat.id in Hd by done. naive_solver.
    + left. split; [done|]. exists k. split_and!; try done. lia.
  - intros [(Hx & k & Hk & Hlt & Hd)|(-> & Hd & Hx)]; (split; [done|]).
    + exists k. split_and!; try done. lia.
    + exists (Z.to_nat i). rewrite Z2Nat.id by done. split_and!; try done. lia.
Qed.

(** Swept and original agree except for zeros. *)
Abbreviation zeroed := (Forall2 (λ b' b : Z, b' = b ∨ b' = 0)).

Lemma zeroed_refl l : zeroed l l.
Proof. induction l; constructor; auto. Qed.

Lemma swept_zeroed drop i l : zeroed (swept drop i l) l.
Proof.
  apply Forall2_same_length_lookup. split; [by rewrite swept_length|]. intros k b' b Hb' Hb.
  rewrite swept_lookup, Hb in Hb'. simpl in Hb'. injection Hb' as <-. destruct (_ && _); auto.
Qed.

Lemma zeroed_sublist l' l : zeroed l' l → sublist (filter nz l') (filter nz l).
Proof.
  induction 1 as [|b' b l' l Hb _ IH]; [done|]. rewrite !filter_cons.
  destruct Hb as [->| ->]; [|rewrite (decide_False (P := 0 ≠ 0)) by auto]; repeat case_decide; try done; by constructor.
Qed.

(** ** The two walks *)

Record sweeping (s0 : sfs_fs) (l : list Z) (drop : Z → bool) (i : Z) (s : sfs_fs) : Prop := {
  sw_to : fs_to s0 s (secs s0) (sfs_freemap s);
  sw_ok : fs_ok s;
  sw_marked : ∀ x, 0 ≤ x → marked s x ↔ marked s0 x ∧ ¬ freed drop i l x
}.

Section walks.
Context (s0 : sfs_fs) (l : list Z) (drop : Z → bool).
Context (Hs0 : fs_ok s0) (Hnd : NoDup (filter nz l)).
Context (Hl : ∀ b, b ∈ l → b ≠ 0 → 0 < b < sp_nblocks s0 ∧ marked s0 b).

Lemma sweeping_0 : sweeping s0 l drop 0 s0.
Proof.
  split; [done..|]. intros x Hx. split; [|naive_solver]. intros Hm. split; [done|]. intros (_ & k & _ & Hk & _). lia.
Qed.

(** The entry under the walk is freed when the test selects it. *)
Lemma sweep_free i s b : sweeping s0 l drop i s → 0 ≤ i → l !! Z.to_nat i = Some b → drop i = true → b ≠ 0 →
  ∃ s', sfs_bfree s b = Ret s' ∧ sweeping s0 l drop (i + 1) s'.
Proof.
  intros [Hto Hok Hm] Hi Hb Hd Hb0. destruct (Hl b) as [Hr Hmb]; [by eapply list_elem_of_lookup_2|done|].
  destruct (sfs_bfree_ok (λ _, false) s b) as (s' & fm & Hrun & Hto' & Hok' & Hm'); [done| | |].
  { by rewrite (ft_nblocks _ _ _ _ Hto). }
  { apply Hm; [lia|]. split; [done|]. intros (_ & k & Hk & Hlt & _).
    pose proof (filter_nodup_inj l k _ b Hnd Hb0 Hk Hb). lia. }
  exists s'. split; [done|]. pose proof (ft_map _ _ _ _ Hto') as Hfm. split; [|done|].
  - rewrite (ft_secs _ _ _ _ Hto) in Hto'. rewrite Hfm. by eapply fs_to_trans.
  - intros x Hx. rewrite Hm', Hm, (freed_next drop i l b) by done. naive_solver.
Qed.

Lemma sweep_skip i s b : sweeping s0 l drop i s → 0 ≤ i → l !! Z.to_nat i = Some b → ¬ (drop i = true ∧ b ≠ 0) →
  sweeping s0 l drop (i + 1) s.
Proof.
  intros [Hto Hok Hm] Hi Hb Hd. split; [done..|]. intros x Hx. rewrite Hm, (freed_next drop i l b) by done. naive_solver.
Qed.
End walks.

(** ** What a file loses *)

Definition lost (l l' : list Z) (x : Z) : Prop := x ≠ 0 ∧ ∃ k, l !! k = Some x ∧ l' !! k = Some 0.

Lemma lost_same l x : ¬ lost l l x.
Proof. intros (Hx & k & Hk & Hk'). congruence. Qed.

Lemma lost_cons a a' l l' x : lost (a :: l) (a' :: l') x ↔ (x ≠ 0 ∧ x = a ∧ a' = 0) ∨ lost l l' x.
Proof.
  split.
  - intros (Hx & [|k] & Hk & Hk'); [left|right]; [naive_solver|]. split; [done|]. by exists k.
  - intros [(Hx & -> & ->)|(Hx & k & Hk & Hk')]; (split; [done|]); [by exists 0%nat|by exists (S k)].
Qed.

Lemma lost_app l1 l1' l2 l2' x : length l1' = length l1 → lost (l1 ++ l2) (l1' ++ l2') x ↔ lost l1 l1' x ∨ lost l2 l2' x.
Proof.
  revert l1'. induction l1 as [|a l1 IH]; intros [|a' l1'] Hlen; try done; simpl.
  - split; [auto|]. intros [(_ & k & Hk & _)|?]; [by rewrite lookup_nil in Hk|done].
  - rewrite !lost_cons, IH by (simpl in Hlen; lia). tauto.
Qed.

Lemma freed_lost drop i l x : freed drop i l x ↔ lost l (swept drop i l) x.
Proof.
  split; intros (Hx & k & Hk & H).
  - destruct H as [Hlt Hd]. split; [done|]. exists k. split; [done|]. rewrite swept_lookup, Hk. simpl.
    by rewrite bool_decide_eq_true_2, Hd by done.
  - split; [done|]. exists k. rewrite swept_lookup, Hk in H. simpl in H. split; [done|].
    destruct (decide (Z.of_nat k < i)) as [Hlt|Hlt];
      [rewrite bool_decide_eq_true_2 in H by done|rewrite bool_decide_eq_false_2 in H by done; naive_solver].
    destruct (drop (Z.of_nat k)); naive_solver.
Qed.

Definition entries (s : sfs_fs) (sv : sfs_vnode) : list Z := sfi_indirect (sv_i sv) :: bmap_of s sv.

(** The file keeps part of its blocks and the others are free again. *)
Record shrinks (s : sfs_fs) (sv : sfs_vnode) (s' : sfs_fs) (sv' : sfs_vnode) : Prop := {
  sh_fs : fs_ok s';
  sh_file : file_ok s' sv';
  sh_nblocks : sp_nblocks s' = sp_nblocks s;
  sh_ino : sv_ino sv' = sv_ino sv;
  sh_own : ∀ x, x ∈ own s' sv' → x ∈ own s sv;
  sh_marked : ∀ x, 0 ≤ x → marked s' x ↔ marked s x ∧ ((x ∉ own s sv) ∨ x ∈ own s' sv');
  sh_sector : ∀ x, 0 ≤ x → x = 0 ∨ x ≠ sfi_indirect (sv_i sv) → sector s' x = sector s x;
  sh_meta : meta sv' = meta sv;
  sh_map : map_kept s s';
  sh_inode : sector s' (sv_ino sv) = sector s (sv_ino sv)
}.

Section shrink.
Context (s : sfs_fs) (sv : sfs_vnode) (s' : sfs_fs) (sv' : sfs_vnode).
Context (Hf : file_ok s sv) (Hino : sv_ino sv' = sv_ino sv) (Hmeta : meta sv' = meta sv) (Hz : zeroed (entries s' sv') (entries s sv)).

Lemma own_sublist : sublist (own s' sv') (own s sv).
Proof. unfold own. rewrite Hino. constructor. by apply zeroed_sublist. Qed.

Lemma entries_nodup : NoDup (filter nz (entries s sv)).
Proof. pose proof (fo_nodup s sv Hf) as H. unfold own in H. by apply NoDup_cons in H as [_ ?]. Qed.

Lemma lost_own x : lost (entries s sv) (entries s' sv') x → x ∈ own s sv ∧ x ∉ own s' sv'.
Proof.
  intros (Hx & k & Hk & Hk'). assert (Hin : x ∈ filter nz (entries s sv)).
  { apply list_elem_of_filter. split; [done|]. by eapply list_elem_of_lookup_2. }
  split; [by right|]. intros [Hxi|Hin']%elem_of_cons.
  - pose proof (fo_nodup s sv Hf) as H. unfold own in H. apply NoDup_cons in H as [H _]. apply H. by rewrite <- Hino, <- Hxi.
  - apply list_elem_of_filter in Hin' as [_ [j Hj]%list_elem_of_lookup_1].
    destruct (Forall2_lookup_l _ _ _ _ _ Hz Hj) as (y & Hy & [<-|]); [|done].
    pose proof (filter_nodup_inj _ j k x entries_nodup Hx Hy Hk) as ->. pose proof (eq_trans (eq_sym Hk') Hj) as E. by injection E as <-.
Qed.

Lemma kept_or_lost x : x ∈ own s sv → x ∈ own s' sv' ∨ lost (entries s sv) (entries s' sv') x.
Proof.
  intros [->|[Hx [k Hk]%list_elem_of_lookup_1]%list_elem_of_filter]%elem_of_cons; [left; rewrite <- Hino; by left|].
  destruct (Forall2_lookup_r _ _ _ _ _ Hz Hk) as (y & Hy & [->| ->]).
  - left. right. apply list_elem_of_filter. split; [done|]. by eapply list_elem_of_lookup_2.
  - right. split; [done|]. by exists k.
Qed.

Lemma shrinks_intro : fs_ok s' → sp_nblocks s' = sp_nblocks s → length (sfi_direct (sv_i sv')) = 15%nat →
  (∀ x, 0 ≤ x → marked s' x ↔ marked s x ∧ ¬ lost (entries s sv) (entries s' sv') x) →
  (∀ x, 0 ≤ x → x = 0 ∨ x ≠ sfi_indirect (sv_i sv) → sector s' x = sector s x) → map_kept s s' → shrinks s sv s' sv'.
Proof.
  intros Hs' Hn Hd Hm Hsec Hmk.
  assert (Hsub : ∀ x, x ∈ own s' sv' → x ∈ own s sv) by (intros x Hx; eapply elem_of_sublist; [done|apply own_sublist]).
  split; try done; [split; [done|..]|..].
  - eapply sublist_NoDup; [apply (fo_nodup s sv Hf)|apply own_sublist].
  - intros b Hb. destruct (fo_own s sv Hf b (Hsub b Hb)) as [Hr Hmb]. rewrite Hn. split; [done|].
    apply Hm; [lia|]. split; [done|]. by intros [_ ?]%lost_own.
  - intros x Hx. rewrite Hm by done. apply and_iff_compat_l. split.
    + intros Hl. destruct (decide (x ∈ own s sv)) as [Hi|]; [|by left]. right. by destruct (kept_or_lost x Hi).
    + intros Hcase [? ?]%lost_own. naive_solver.
  - destruct (fo_own s sv Hf _ (own_ino s sv)). apply Hsec; [lia|]. right. intros He. apply (ino_indirect s sv Hf); [lia|done].
Qed.
End shrink.

Lemma shrinks_trans s sv s1 sv1 s2 sv2 : sfi_indirect (sv_i sv1) = sfi_indirect (sv_i sv) →
  shrinks s sv s1 sv1 → shrinks s1 sv1 s2 sv2 → shrinks s sv s2 sv2.
Proof.
  intros Hi [? ? Hn1 Hi1 Hown1 Hm1 Hsec1 Hme1 Hk1 Hn1'] [? ? Hn2 Hi2 Hown2 Hm2 Hsec2 Hme2 Hk2 Hn2'].
  split; try done; try congruence; [auto|..|by eapply map_kept_trans].
  - intros x Hx. rewrite Hm2, Hm1 by done. pose proof (Hown1 x). pose proof (Hown2 x).
    destruct (decide (x ∈ own s1 sv1)), (decide (x ∈ own s sv)), (decide (x ∈ own s2 sv2)); naive_solver.
  - intros x Hx Hne. rewrite Hsec2, Hsec1 by (rewrite ?Hi; done). done.
Qed.

(** ** The direct blocks *)

Definition drop_direct (blocklen i : Z) : bool := bool_decide (blocklen ≤ i).
Definition drop_indirect (blocklen j : Z) : bool := bool_decide (blocklen < SFS_NDIRECT + j).

Lemma walk_next s0 l drop i s b : fs_ok s0 → NoDup (filter nz l) →
  (∀ b, b ∈ l → b ≠ 0 → 0 < b < sp_nblocks s0 ∧ marked s0 b) →
  sweeping s0 l drop i s → 0 ≤ i → l !! Z.to_nat i = Some b →
  swept drop i l !! Z.to_nat i = Some b ∧
  if drop i && bool_decide (b ≠ 0) then
    ∃ s', sfs_bfree s b = Ret s' ∧ sweeping s0 l drop (i + 1) s' ∧
      wr (swept drop i l) i 0 = Ret (swept drop (i + 1) l) ∧ swept drop (i + 1) l !! Z.to_nat i = Some 0
  else sweeping s0 l drop (i + 1) s ∧ swept drop (i + 1) l = swept drop i l.
Proof.
  intros Hs0 Hnd Hl Hsw Hi Hb. rewrite (swept_next drop i l b) by done.
  assert (Hlen : (Z.to_nat i < length (swept drop i l))%nat) by (rewrite swept_length; by eapply lookup_lt_Some).
  split. { rewrite swept_lookup, Hb, Z2Nat.id, bool_decide_eq_false_2 by lia. done. }
  destruct (drop i) eqn:Hd; simpl; [case_bool_decide as Hb0|].
  - destruct (sweep_free s0 l drop Hnd Hl i s b Hsw Hi Hb Hd Hb0) as (s' & Hrun & Hsw'). exists s'.
    rewrite decide_True by done. split_and!; try done; [by apply wr_in_range; lia|by apply list_lookup_insert_eq].
  - rewrite decide_False by naive_solver. split; [|done]. apply (sweep_skip s0 l drop Hl i s b); [done..|]. naive_solver.
  - split; [|done]. apply (sweep_skip s0 l drop Hl i s b); [done..|]. rewrite Hd. naive_solver.
Qed.

(** [sv] with other direct blocks. *)
Definition directs (d : list Z) (dirty : bool) (sv : sfs_vnode) : sfs_vnode :=
  SfsVnode (SfsInode (sfi_size (sv_i sv)) (sfi_type (sv_i sv)) (sfi_linkcount (sv_i sv)) d
              (sfi_indirect (sv_i sv)) (sfi_waste (sv_i sv))) (sv_ino sv) dirty.

Lemma file_sub s sv l : file_ok s sv → sublist (filter nz l) (filter nz (entries s sv)) →
  NoDup (filter nz l) ∧ ∀ b, b ∈ l → b ≠ 0 → 0 < b < sp_nblocks s ∧ marked s b.
Proof.
  intros Hf Hsub. split; [eapply sublist_NoDup; [by apply entries_nodup|done]|].
  intros b Hb Hb0. apply (fo_own s sv Hf). right. eapply elem_of_sublist; [|done]. by apply list_elem_of_filter.
Qed.

Lemma direct_walk s sv blocklen : fs_ok s → file_ok s sv →
  ∃ s' dirty, for_each (Z.to_nat SFS_NDIRECT) 0 (trunc_direct blocklen) (s, sv) =
      Ret (s', directs (swept (drop_direct blocklen) 15 (sfi_direct (sv_i sv))) dirty sv) ∧
    sweeping s (sfi_direct (sv_i sv)) (drop_direct blocklen) 15 s'.
Proof.
  intros Hs Hf. set (d := sfi_direct (sv_i sv)). set (drop := drop_direct blocklen).
  destruct (file_sub s sv d Hf) as [Hnd Hl].
  { unfold entries, bmap_of. fold d. rewrite filter_cons, filter_app.
    case_decide; [apply sublist_cons|]; apply sublist_inserts_r; done. }
  destruct (for_each_inv (λ i st, ∃ dirty, st.2 = directs (swept drop i d) dirty sv ∧ sweeping s d drop i st.1)
    (trunc_direct blocklen) (Z.to_nat SFS_NDIRECT) 0 (s, sv)) as ([s' sv'] & Hrun & dirty & Hsv & Hsw).
  - exists (sv_dirty sv). split; [|by apply sweeping_0]. simpl. rewrite swept_0. by destruct sv as [[] ? ?].
  - intros i [s1 sv1] Hi (dirty & Hsv & Hsw). simpl in Hsv, Hsw. subst sv1.
    destruct (lookup_lt_is_Some_2 d (Z.to_nat i)) as [b Hb]; [unfold d; rewrite (fo_direct s sv Hf); unfold SFS_NDIRECT in Hi; lia|].
    destruct (walk_next s d drop i s1 b) as [Hcur Hnext]; try done; [lia|].
    unfold trunc_direct. cbn [directs sv_i sfi_direct]. rewrite (rd_lookup _ i b) by (done || lia). ostep.
    change (bool_decide (blocklen ≤ i)) with (drop i). destruct (drop i && bool_decide (b ≠ 0)).
    + destruct Hnext as (s' & -> & Hsw' & Hwr & _). ostep. unfold set_direct. cbn [directs sv_i sfi_direct]. rewrite Hwr. ostep.
      eexists. split; [done|]. by exists true.
    + destruct Hnext as [Hsw' Heq]. eexists. split; [done|]. exists dirty. by rewrite Heq.
  - simpl in Hsv, Hsw. subst sv'. by exists s', dirty.
Qed.

(** ** The indirect block's entries *)

Lemma indirect_walk s l blocklen : fs_ok s → length l = 128%nat → NoDup (filter nz l) →
  (∀ b, b ∈ l → b ≠ 0 → 0 < b < sp_nblocks s ∧ marked s b) →
  ∃ s' hasnonzero iddirty, for_each (Z.to_nat SFS_DBPERIDB) 0 (trunc_indirect blocklen) (s, l, false, false) =
      Ret (s', swept (drop_indirect blocklen) 128 l, hasnonzero, iddirty) ∧
    sweeping s l (drop_indirect blocklen) 128 s' ∧
    (if hasnonzero then ∃ k b, swept (drop_indirect blocklen) 128 l !! k = Some b ∧ b ≠ 0
     else swept (drop_indirect blocklen) 128 l = replicate 128 0) ∧
    (iddirty = false → swept (drop_indirect blocklen) 128 l = l).
Proof.
  intros Hs Hlen Hnd Hl. set (drop := drop_indirect blocklen).
  destruct (for_each_inv (λ i st, ∃ s' (hnz dirty : bool), st = (s', swept drop i l, hnz, dirty) ∧ sweeping s l drop i s' ∧
      (if hnz then ∃ k b, Z.of_nat k < i ∧ swept drop i l !! k = Some b ∧ b ≠ 0
       else ∀ k b, Z.of_nat k < i → swept drop i l !! k = Some b → b = 0) ∧ (dirty = false → swept drop i l = l))
    (trunc_indirect blocklen) (Z.to_nat SFS_DBPERIDB) 0 (s, l, false, false))
    as (st & Hrun & s' & hnz & dirty & -> & Hsw & Hz & Hd).
  - exists s, false, false. rewrite swept_0. split_and!; try done; [by apply sweeping_0|lia].
  - intros i st Hi (s1 & hnz & dirty & -> & Hsw & Hz & Hd).
    destruct (lookup_lt_is_Some_2 l (Z.to_nat i)) as [b Hb]; [unfold SFS_DBPERIDB in Hi; lia|].
    destruct (walk_next s l drop i s1 b) as [Hcur Hnext]; try done; [lia|].
    assert (Hother : ∀ k, Z.of_nat k < i → swept drop (i + 1) l !! k = swept drop i l !! k).
    { intros k Hk. rewrite !swept_lookup, !bool_decide_eq_true_2 by lia. done. }
    assert (Hhnz : ∀ c, swept drop (i + 1) l !! Z.to_nat i = Some c →
      if hnz || bool_decide (c ≠ 0) then ∃ k b', Z.of_nat k < i + 1 ∧ swept drop (i + 1) l !! k = Some b' ∧ b' ≠ 0
      else ∀ k b', Z.of_nat k < i + 1 → swept drop (i + 1) l !! k = Some b' → b' = 0).
    { intros c Hc. destruct hnz; simpl.
      { destruct Hz as (k & b' & Hk & Hb' & ?). exists k, b'. rewrite Hother by lia. split_and!; done || lia. }
      destruct (decide (c ≠ 0)) as [Hc0|Hc0]; [rewrite bool_decide_eq_true_2 by done|rewrite bool_decide_eq_false_2 by done];
        [exists (Z.to_nat i), c; split_and!; done || lia|]. apply dec_stable in Hc0. subst c.
      intros k b' Hk Hb'. destruct (decide (k = Z.to_nat i)) as [->|]; [congruence|]. apply (Hz k); [lia|]. rewrite <- Hother by lia. done. }
    unfold trunc_indirect. rewrite (rd_lookup _ i b) by (done || lia). ostep.
    change (bool_decide (blocklen < SFS_NDIRECT + i)) with (drop i). destruct (drop i && bool_decide (b ≠ 0)).
    + destruct Hnext as (s' & -> & Hsw' & Hwr & H0). ostep. rewrite Hwr. ostep. rewrite (rd_lookup _ i 0) by (done || lia). ostep.
      eexists. split; [done|]. eexists s', _, true. split_and!; try done. by apply Hhnz.
    + destruct Hnext as [Hsw' Heq]. ostep. rewrite (rd_lookup _ i b) by (done || lia). ostep.
      eexists. split; [done|]. rewrite <- Heq in *. eexists s1, _, dirty. split_and!; try done. by apply Hhnz.
  - exists s', hnz, dirty. change (0 + Z.of_nat (Z.to_nat SFS_DBPERIDB)) with 128 in *. split_and!; try done.
    destruct hnz; [naive_solver|]. apply list_eq. intros k. destruct (swept drop 128 l !! k) as [b|] eqn:Hb.
    + pose proof (lookup_lt_Some _ _ _ Hb) as Hk. rewrite swept_length in Hk.
      rewrite (Hz k b) in * by (done || lia). symmetry. apply lookup_replicate. split; [done|lia].
    + apply lookup_ge_None in Hb. rewrite swept_length in Hb. symmetry. apply lookup_ge_None. rewrite length_replicate. lia.
Qed.

(** ** Truncation *)

Section truncate.
Context (present : Z → bool) (space : Z).

Lemma secs_sector s s' x : secs s' = secs s → sector s' x = sector s x.
Proof. intros H. unfold sector. by rewrite H. Qed.

Lemma truncate_direct s sv blocklen : fs_ok s → file_ok s sv →
  ∃ s' sv', for_each (Z.to_nat SFS_NDIRECT) 0 (trunc_direct blocklen) (s, sv) = Ret (s', sv') ∧
    shrinks s sv s' sv' ∧ sfi_indirect (sv_i sv') = sfi_indirect (sv_i sv) ∧
    bmap_of s' sv' = swept (drop_direct blocklen) 15 (sfi_direct (sv_i sv)) ++ ids s sv.
Proof.
  intros Hs Hf. destruct (direct_walk s sv blocklen Hs Hf) as (s' & dirty & Hrun & [Hto Hok Hm]).
  set (sv' := directs _ dirty sv) in *. exists s', sv'. pose proof (ft_secs _ _ _ _ Hto) as Hsecs.
  assert (Hids : ids s' sv' = ids s sv) by (unfold ids; cbn; by rewrite (secs_sector s s')).
  assert (Hlen : length (swept (drop_direct blocklen) 15 (sfi_direct (sv_i sv))) = 15%nat)
    by (rewrite swept_length; apply (fo_direct s sv Hf)).
  assert (Hmap : bmap_of s' sv' = swept (drop_direct blocklen) 15 (sfi_direct (sv_i sv)) ++ ids s sv)
    by (unfold bmap_of; by rewrite Hids).
  split_and!; try done. apply shrinks_intro; try done; [| by apply (ft_nblocks _ _ _ _ Hto)| | |].
  - unfold entries. rewrite Hmap. constructor; [by left|]. apply Forall2_app; [apply swept_zeroed|apply zeroed_refl].
  - intros x Hx. rewrite Hm, freed_lost by done. unfold entries. rewrite Hmap, lost_cons. unfold bmap_of.
    rewrite lost_app by (by rewrite swept_length). pose proof (lost_same (ids s sv) x). naive_solver.
  - intros x Hx _. by apply secs_sector.
  - by eapply fs_to_map.
Qed.

(** The entries of the indirect block are replaced by [l']. *)
Lemma shrinks_ids s sv s' sv' l' : file_ok s sv → fs_ok s' → sp_nblocks s' = sp_nblocks s → sv_ino sv' = sv_ino sv → meta sv' = meta sv →
  sfi_direct (sv_i sv') = sfi_direct (sv_i sv) → ids s' sv' = l' → zeroed l' (ids s sv) →
  sfi_indirect (sv_i sv') = sfi_indirect (sv_i sv) ∨ sfi_indirect (sv_i sv') = 0 →
  (∀ x, 0 ≤ x → marked s' x ↔ marked s x ∧ ¬ lost (ids s sv) l' x ∧
     (x = sfi_indirect (sv_i sv) → x ≠ 0 → sfi_indirect (sv_i sv') ≠ 0)) →
  (∀ x, 0 ≤ x → x = 0 ∨ x ≠ sfi_indirect (sv_i sv) → sector s' x = sector s x) → map_kept s s' →
  shrinks s sv s' sv' ∧ bmap_of s' sv' = sfi_direct (sv_i sv) ++ l'.
Proof.
  intros Hf Hs' Hn Hino Hmeta Hd Hids Hz Hi Hm Hsec Hmk.
  assert (Hmap : bmap_of s' sv' = sfi_direct (sv_i sv) ++ l') by (unfold bmap_of; by rewrite Hd, Hids).
  split; [|done]. apply shrinks_intro; try done; [|by rewrite Hd; apply (fo_direct s sv Hf)|].
  - unfold entries. rewrite Hmap. constructor; [naive_solver|]. apply Forall2_app; [apply zeroed_refl|done].
  - intros x Hx. rewrite Hm by done. unfold entries. rewrite Hmap, lost_cons. unfold bmap_of. rewrite lost_app by done.
    pose proof (lost_same (sfi_direct (sv_i sv)) x). split; [|naive_solver]. intros (? & ? & Hk). split; [done|].
    intros [(? & ? & ?)|[?|?]]; naive_solver.
Qed.

Lemma ids_sub s sv : sublist (filter nz (ids s sv)) (filter nz (entries s sv)).
Proof.
  unfold entries, bmap_of. rewrite filter_cons, filter_app. case_decide; [apply sublist_cons|]; by apply sublist_inserts_l.
Qed.

Lemma ids_unswept s sv blocklen : sfi_indirect (sv_i sv) = 0 ∨ 142 ≤ blocklen → length (ids s sv) = 128%nat →
  swept (drop_indirect blocklen) 128 (ids s sv) = ids s sv.
Proof.
  intros Hcase Hlen. apply list_eq. intros k. rewrite swept_lookup. destruct (ids s sv !! k) as [b|] eqn:Hb; [|done]. simpl. f_equal.
  pose proof (lookup_lt_Some _ _ _ Hb). destruct Hcase as [H0|Hbl].
  - unfold ids in Hb. rewrite decide_True in Hb by done. apply lookup_replicate in Hb as [-> _]. by destruct (_ && _).
  - unfold drop_indirect. rewrite (bool_decide_eq_false_2 (blocklen < _)) by (unfold SFS_NDIRECT; lia). by rewrite andb_false_r.
Qed.

Lemma marked_same s s' x : sfs_freemap s' = sfs_freemap s → marked s' x ↔ marked s x.
Proof. intros H. unfold marked. by rewrite H. Qed.

Lemma swept_words drop i l : Forall word l → Forall word (swept drop i l).
Proof.
  intros Hw. apply Forall_lookup. intros k b Hb. rewrite swept_lookup in Hb.
  destruct (l !! k) as [c|] eqn:Hc; [|done]. simpl in Hb. injection Hb as <-.
  destruct (_ && _); [by unfold word|]. by eapply Forall_lookup_1.
Qed.

(** What the walk over the indirect block's entries leaves, before the block
    itself is freed or written. *)
Lemma idblock_walk s sv blocklen : fs_ok s → file_ok s sv → sfi_indirect (sv_i sv) ≠ 0 →
  ∃ s1 s2 hasnonzero iddirty, let l' := swept (drop_indirect blocklen) 128 (ids s sv) in
    sfs_rblock present space s zero_block (sfi_indirect (sv_i sv)) = Ret (0, s1, sector s (sfi_indirect (sv_i sv))) ∧
    for_each (Z.to_nat SFS_DBPERIDB) 0 (trunc_indirect blocklen) (s1, ids s sv, false, false) = Ret (s2, l', hasnonzero, iddirty) ∧
    fs_to s s2 (secs s) (sfs_freemap s2) ∧ fs_ok s2 ∧
    (∀ x, 0 ≤ x → marked s2 x ↔ marked s x ∧ ¬ lost (ids s sv) l' x) ∧ marked s2 (sfi_indirect (sv_i sv)) ∧
    (if hasnonzero then ∃ k b, l' !! k = Some b ∧ b ≠ 0 else l' = replicate 128 0) ∧ (iddirty = false → l' = ids s sv).
Proof.
  intros Hs Hf Hi. set (ind := sfi_indirect (sv_i sv)) in *.
  destruct (fo_own s sv Hf ind (own_indirect s sv Hi)) as [Hr Hmi].
  assert (Hsec : secs s !! Z.to_nat ind = Some (sector s ind)).
  { destruct (sector_get s ind Hs) as (blk & Hblk & _); [pose proof (fs_size s Hs); lia|]. unfold sector. by rewrite Hblk. }
  destruct (sfs_rblock_ok present space s zero_block ind (sector s ind) Hs) as (s1 & Hrun & Hto1); [done|lia|exact Hsec|].
  pose proof (fs_ok_same s s1 Hs Hto1) as Hs1. pose proof (ft_map _ _ _ _ Hto1) as Hfm1.
  destruct (file_sub s sv (ids s sv) Hf (ids_sub s sv)) as [Hnd Hl].
  destruct (indirect_walk s1 (ids s sv) blocklen Hs1) as (s2 & hnz & dirty & Hwalk & [Hto2 Hok2 Hm2] & Hhnz & Hdirty);
    [by apply ids_length|done| |].
  { intros b Hb Hb0. rewrite (ft_nblocks _ _ _ _ Hto1), (marked_same s s1) by done. by apply Hl. }
  assert (Hm : ∀ x, 0 ≤ x → marked s2 x ↔ marked s x ∧ ¬ lost (ids s sv) (swept (drop_indirect blocklen) 128 (ids s sv)) x).
  { intros x Hx. by rewrite Hm2, freed_lost, (marked_same s s1) by done. }
  exists s1, s2, hnz, dirty. split_and!; try done.
  - rewrite (ft_secs _ _ _ _ Hto1) in Hto2. by eapply fs_to_trans.
  - apply Hm; [lia|]. split; [done|]. intros (_ & k & Hk & _).
    apply (indirect_apart s sv ind Hf); [|done..]. unfold bmap_of. apply elem_of_app. right. by eapply list_elem_of_lookup_2.
Qed.

Lemma fs_ok_write s s' b data : fs_ok s → length data = 512%nat →
  fs_to s s' (<[Z.to_nat b := data]> (secs s)) (sfs_freemap s) → fs_ok s'.
Proof.
  intros Hs Hd Hto. apply (fs_ok_to s s' _ _ Hs Hto);
    [by rewrite length_insert| |apply (fs_map s Hs)|done|apply (fs_beyond s Hs)|apply (fs_super s Hs)].
  apply Forall_insert; [apply (fs_full s Hs)|done].
Qed.

(** The three ways the indirect block is dealt with after the walk. *)
Section after_walk.
Context (s : sfs_fs) (sv : sfs_vnode) (s2 : sfs_fs) (l' : list Z).
Context (Hs : fs_ok s) (Hf : file_ok s sv) (Hi : sfi_indirect (sv_i sv) ≠ 0).
Context (Hto : fs_to s s2 (secs s) (sfs_freemap s2)) (Hok : fs_ok s2).
Context (Hz : zeroed l' (ids s sv)) (Hm : ∀ x, 0 ≤ x → marked s2 x ↔ marked s x ∧ ¬ lost (ids s sv) l' x).

Lemma idblock_range : 0 < sfi_indirect (sv_i sv) < sp_nblocks s2.
Proof. rewrite (ft_nblocks _ _ _ _ Hto). apply (fo_own s sv Hf). by apply own_indirect. Qed.

Lemma idblock_written : Forall word l' →
  ∃ s3, sfs_wblock present space s2 (words_bytes l') (sfi_indirect (sv_i sv)) = Ret (0, s3) ∧
    shrinks s sv s3 sv ∧ bmap_of s3 sv = sfi_direct (sv_i sv) ++ l'.
Proof.
  intros Hw. pose proof idblock_range as Hr. set (ind := sfi_indirect (sv_i sv)) in *.
  assert (Hlen : length (words_bytes l') = 512%nat).
  { rewrite words_bytes_length, (Forall2_length _ _ _ Hz), ids_length by done. done. }
  destruct (sfs_wblock_ok present space s2 (words_bytes l') ind Hok Hlen) as (s3 & Hrun & Hto3); [lia|].
  assert (Hs3 : ∀ x, 0 ≤ x → sector s3 x = if decide (x = ind) then words_bytes l' else sector s2 x).
  { intros x Hx. apply (sector_insert s2 s3 ind _ (sfs_freemap s2)); try done. lia. }
  exists s3. split; [done|]. apply (shrinks_ids s sv s3 sv l'); try done.
  - by eapply fs_ok_write.
  - rewrite (ft_nblocks _ _ _ _ Hto3). apply (ft_nblocks _ _ _ _ Hto).
  - unfold ids. fold ind. rewrite decide_False, Hs3, decide_True by (done || lia). by apply bytes_words_bytes.
  - by left.
  - intros x Hx. rewrite (marked_same s2 s3), Hm by (done || apply (ft_map _ _ _ _ Hto3)). naive_solver.
  - intros x Hx Hne. rewrite Hs3, decide_False by (unfold ind in *; lia). apply secs_sector. apply (ft_secs _ _ _ _ Hto).
  - eapply map_kept_trans; by eapply fs_to_map.
Qed.

Lemma idblock_unchanged : l' = ids s sv → shrinks s sv s2 sv ∧ bmap_of s2 sv = sfi_direct (sv_i sv) ++ l'.
Proof.
  intros Hl. pose proof (ft_secs _ _ _ _ Hto) as Hsecs. apply shrinks_ids; try done.
  - apply (ft_nblocks _ _ _ _ Hto).
  - rewrite Hl. unfold ids. rewrite decide_False, (secs_sector s s2) by done. by rewrite decide_False.
  - by left.
  - intros x Hx. rewrite Hm by done. naive_solver.
  - intros x Hx _. by apply secs_sector.
  - by eapply fs_to_map.
Qed.

Lemma idblock_freed : l' = replicate 128 0 → marked s2 (sfi_indirect (sv_i sv)) →
  ∃ s3, sfs_bfree s2 (sfi_indirect (sv_i sv)) = Ret s3 ∧ shrinks s sv s3 (set_indirect 0 sv) ∧
    bmap_of s3 (set_indirect 0 sv) = sfi_direct (sv_i sv) ++ l'.
Proof.
  intros Hl Hmi. destruct (sfs_bfree_ok present s2 _ Hok idblock_range Hmi) as (s3 & fm & Hrun & Hto3 & Hok3 & Hm3).
  exists s3. split; [done|]. apply shrinks_ids; try done.
  - rewrite (ft_nblocks _ _ _ _ Hto3). apply (ft_nblocks _ _ _ _ Hto).
  - by right.
  - intros x Hx. rewrite Hm3, Hm by done. simpl. split; [naive_solver|]. intros (? & ? & H3).
    split_and!; try done. intros ->. by apply H3.
  - intros x Hx _. rewrite (secs_sector s2 s3) by apply (ft_secs _ _ _ _ Hto3). apply secs_sector, (ft_secs _ _ _ _ Hto).
  - eapply map_kept_trans; by eapply fs_to_map.
Qed.
End after_walk.

Lemma truncate_indirect s sv blocklen : fs_ok s → file_ok s sv →
  ∃ s' sv', trunc_idblock present space blocklen s sv = Ret (0, s', sv') ∧ shrinks s sv s' sv' ∧
    bmap_of s' sv' = sfi_direct (sv_i sv) ++ swept (drop_indirect blocklen) 128 (ids s sv) ∧
    (blocklen < 142 → sfi_indirect (sv_i sv') = 0 ∨ ∃ k b, swept (drop_indirect blocklen) 128 (ids s sv) !! k = Some b ∧ b ≠ 0).
Proof.
  intros Hs Hf. set (l' := swept (drop_indirect blocklen) 128 (ids s sv)). unfold trunc_idblock.
  change (SFS_NDIRECT + SFS_DBPERIDB - 1) with 142. set (ind := sfi_indirect (sv_i sv)).
  destruct (decide (blocklen < 142 ∧ ind ≠ 0)) as [[Hbl Hi]|Hno].
  2:{ assert (Hl' : l' = ids s sv) by (apply ids_unswept; [destruct (decide (ind = 0)); [by left|right; lia]|by apply ids_length]).
    exists s, sv. split.
    { destruct (decide (ind = 0)); [rewrite (bool_decide_eq_false_2 (ind ≠ 0)) by auto; by rewrite andb_false_r|].
      by rewrite (bool_decide_eq_false_2 (blocklen < 142)) by lia. }
    destruct (shrinks_ids s sv s sv l') as [? ?]; try done; [rewrite Hl'; apply zeroed_refl|by left| |split_and!; try done; left; lia].
    intros x Hx. rewrite Hl'. pose proof (lost_same (ids s sv) x). naive_solver. }
  rewrite !bool_decide_eq_true_2 by done. cbn [andb].
  destruct (idblock_walk s sv blocklen Hs Hf Hi) as (s1 & s2 & hnz & dirty & Hrd & Hwalk & Hto & Hok & Hm & Hmi & Hhnz & Hdirty).
  fold ind l' in Hrd, Hwalk, Hm, Hmi, Hhnz, Hdirty. rewrite Hrd. ostep. rewrite (bool_decide_eq_false_2 (0 ≠ 0)) by auto.
  assert (Hw : bytes_words (sector s ind) = ids s sv) by (unfold ids; by rewrite decide_False).
  assert (Hz : zeroed l' (ids s sv)) by apply swept_zeroed.
  rewrite Hw, Hwalk. ostep. subst ind. destruct hnz; cbn [negb]; [destruct dirty|].
  - destruct (idblock_written s sv s2 l') as (s3 & -> & H); try done; [by apply swept_words, ids_words|]. ostep. exists s3, sv. destruct H. split_and!; auto.
  - exists s2, sv. destruct (idblock_unchanged s sv s2 l') as [? ?]; auto.
  - destruct (idblock_freed s sv s2 l') as (s3 & -> & H); auto. ostep. eexists s3, _. destruct H. split_and!; try done. by left.
Qed.

(** ** sfs_truncate *)

(** The blocks that survive: the test for the indirect ones is [<=]. *)
Definition kept (blocklen k : Z) : bool := if decide (k < 15) then bool_decide (k < blocklen) else bool_decide (k ≤ blocklen).

Lemma file_ok_size s sv n : file_ok s sv → file_ok s (set_size n sv).
Proof. intros [Hd Hnd Ho]. split; [exact Hd|exact Hnd|exact Ho]. Qed.

Lemma shrinks_size s sv s' sv' n : shrinks s sv s' sv' → shrinks s sv s' (set_size n sv').
Proof.
  intros [H1 H2 H3 H4 H5 H6 H7 H8 H9 H10]. split; [exact H1|by apply file_ok_size|exact H3|exact H4|exact H5|exact H6|exact H7|exact H8|exact H9|exact H10].
Qed.

Lemma sfs_truncate_ok s sv n : fs_ok s → file_ok s sv → 0 ≤ n < 2 ^ 31 - 512 →
  ∃ s' sv', sfs_truncate present space n s sv = Ret (0, s', sv') ∧ shrinks s sv s' sv' ∧ sfi_size (sv_i sv') = n ∧ sv_dirty sv' = true ∧
    (n = 0 → sfi_indirect (sv_i sv') = 0) ∧
    ∀ k b, bmap_of s sv !! k = Some b → bmap_of s' sv' !! k = Some (if kept ((n + 511) / 512) (Z.of_nat k) then b else 0).
Proof.
  intros Hs Hf Hn. unfold sfs_truncate.
  replace (u32 (Z.quot (n + SFS_BLOCKSIZE - 1) SFS_BLOCKSIZE)) with ((n + 511) / 512).
  2:{ unfold SFS_BLOCKSIZE. rewrite Z.quot_div_nonneg, u32_small by (Z.to_euclidean_division_equations; lia). f_equal. lia. }
  set (bl := (n + 511) / 512).
  destruct (truncate_direct s sv bl Hs Hf) as (s1 & sv1 & -> & Hsh1 & Hi1 & Hmap1). ostep.
  pose proof (sh_fs _ _ _ _ Hsh1) as Hs1. pose proof (sh_file _ _ _ _ Hsh1) as Hf1.
  destruct (truncate_indirect s1 sv1 bl Hs1 Hf1) as (s2 & sv2 & -> & Hsh2 & Hmap2 & Hfree). ostep.
  rewrite (bool_decide_eq_false_2 (0 ≠ 0)) by auto. exists s2, (set_size (u32 n) sv2).
  pose proof (shrinks_trans _ _ _ _ _ _ Hi1 Hsh1 Hsh2) as Hsh. split; [done|].
  split; [by apply shrinks_size|]. split; [simpl; by rewrite u32_small by lia|]. split; [done|]. split.
  { intros ->. destruct Hfree as [?|(k & b & Hk & Hb)]; [done|done|]. rewrite swept_lookup in Hk.
    destruct (ids s1 sv1 !! k) as [c|] eqn:Hc; [|done]. simpl in Hk. pose proof (lookup_lt_Some _ _ _ Hc) as Hlt.
    rewrite ids_length in Hlt by done. rewrite bool_decide_eq_true_2 in Hk by lia. unfold drop_indirect in Hk.
    rewrite bool_decide_eq_true_2 in Hk by (change bl with 0; unfold SFS_NDIRECT; lia). simpl in Hk. congruence. }
  intros k b Hb.
  change (bmap_of s2 (set_size (u32 n) sv2)) with (bmap_of s2 sv2). rewrite Hmap2.
  pose proof (fo_direct s sv Hf) as Hd. pose proof (fo_direct s1 sv1 Hf1) as Hd1.
  unfold bmap_of in Hmap1. apply app_inj_1 in Hmap1 as [Hdir Hids]; [|by rewrite swept_length, Hd].
  rewrite Hdir, Hids. unfold kept. unfold bmap_of in Hb. destruct (decide (Z.of_nat k < 15)) as [Hk|Hk].
  - rewrite lookup_app_l by (rewrite swept_length; lia). rewrite lookup_app_l in Hb by lia.
    rewrite swept_lookup, Hb. simpl. rewrite bool_decide_eq_true_2 by lia. unfold drop_direct. simpl.
    do 2 case_bool_decide; done || lia.
  - rewrite lookup_app_r by (rewrite swept_length; lia). rewrite lookup_app_r in Hb by lia.
    rewrite swept_length, swept_lookup, Hd. rewrite Hd in Hb. rewrite Hb. simpl.
    pose proof (lookup_lt_Some _ _ _ Hb) as Hlt. rewrite ids_length in Hlt by done.
    rewrite bool_decide_eq_true_2 by lia. unfold drop_indirect, SFS_NDIRECT. simpl. do 2 case_bool_decide; done || lia.
Qed.
End truncate.
