(* ===== verification/SfsTheorems.v ===== *)
(** * Files on the simple file system

    What reading, writing and truncating do to a file, to the other files and
    to the free map, and how the block layer deals with media errors. *)

From S2P Require Import Prelude Bitmap KHeap KHeapSpec Coremap Uio Sfs SfsSpec SfsTrunc.

(** ** Other files *)

Definition apart (s : sfs_fs) (sv sv2 : sfs_vnode) : Prop := ∀ b, b ∈ own s sv2 → b ∉ own s sv.

(** [sv2] is the same file in [s] and [s']. *)
Definition untouched (s s' : sfs_fs) (sv2 : sfs_vnode) : Prop :=
  file_ok s' sv2 ∧ ∀ p, fbyte s' sv2 p = fbyte s sv2 p.

Lemma untouched_frame s s' sv2 : file_ok s sv2 → sp_nblocks s' = sp_nblocks s →
  (∀ b, b ∈ own s sv2 → marked s' b ∧ sector s' b = sector s b) → untouched s s' sv2.
Proof.
  intros Hf Hn Hb. destruct (file_frame s s' sv2) as (_ & _ & Hown & Hblk); [by intros b [_ ?]%Hb|].
  split; [|by apply fbyte_blocks]. destruct Hf as [Hd Hnd Ho]. split; [done|by rewrite Hown|].
  rewrite Hown, Hn. intros b Hin. split; [by apply Ho|by apply Hb].
Qed.

Lemma evolves_untouched s sv s' sv' sv2 : evolves s sv s' sv' → file_ok s sv2 → apart s sv sv2 → untouched s s' sv2.
Proof.
  intros Hev Hf Ha. apply untouched_frame; [done|apply (ev_nblocks _ _ _ _ Hev)|].
  intros b Hb. destruct (fo_own s sv2 Hf b Hb) as [Hr Hm]. split; [apply (ev_marked _ _ _ _ Hev); [lia|done]|].
  apply (ev_other _ _ _ _ Hev); [lia|done|by apply Ha].
Qed.

Lemma shrinks_untouched s sv s' sv' sv2 : shrinks s sv s' sv' → file_ok s sv → file_ok s sv2 → apart s sv sv2 → untouched s s' sv2.
Proof.
  intros Hsh Hf Hf2 Ha. apply untouched_frame; [done|apply (sh_nblocks _ _ _ _ Hsh)|].
  intros b Hb. destruct (fo_own s sv2 Hf2 b Hb) as [Hr Hm]. split.
  - apply (sh_marked _ _ _ _ Hsh); [lia|]. split; [done|left; by apply Ha].
  - apply (sh_sector _ _ _ _ Hsh); [lia|]. right. intros ->. apply (Ha _ Hb). apply own_indirect. lia.
Qed.

Lemma resize_file s sv off k : file_ok s sv → file_ok s (resize off k sv).
Proof. intros Hf. unfold resize. case_decide; [by apply file_ok_size|done]. Qed.

Lemma resize_fbyte s sv off k p : fbyte s (resize off k sv) p = fbyte s sv p.
Proof. unfold resize. by case_decide. Qed.

Lemma resize_size off k sv : sfi_size (sv_i (resize off k sv)) = sfi_size (sv_i sv) `max` (off + k).
Proof. unfold resize. case_decide; simpl; lia. Qed.

Lemma resize_untouched s s' sv off k : untouched s s' sv → untouched s s' (resize off k sv).
Proof.
  intros [Hf Hb]. split; [by apply resize_file|]. intros p. by rewrite !resize_fbyte.
Qed.

Lemma fbytes_written s sv s' sv' m a off n : 0 ≤ off →
  (∀ p, 0 ≤ p → fbyte s' sv' p = if decide (off ≤ p < off + n) then peek m (a + (p - off)) else fbyte s sv p) →
  fbytes s' sv' off n = load m a (Z.to_nat n).
Proof.
  intros Hoff Hb. apply list_eq. intros i. unfold fbytes. rewrite list_lookup_fmap.
  destruct (decide (i < Z.to_nat n)%nat) as [Hi|Hi].
  - rewrite lookup_seqZ_lt, load_lookup by lia. simpl. rewrite Hb, decide_True by lia. do 2 f_equal. lia.
  - rewrite lookup_seqZ_ge by lia. symmetry. apply lookup_ge_None. rewrite load_length. lia.
Qed.

(** The uio asks for a transfer at a valid place of the file's range. *)
Record request (present : Z → bool) (space : Z) (u : uio) (rw : uio_rw) : Prop := {
  rq_wf : uio_wf space u;
  rq_dir : uio_dir u = rw;
  rq_offset : 0 ≤ uio_offset u;
  rq_resid : 0 < uio_resid u;
  rq_acc : accessible present u (uio_resid u)
}.

Definition good_file (s : sfs_fs) (sv : sfs_vnode) : Prop := fs_ok s ∧ file_ok s sv ∧ 0 ≤ sfi_size (sv_i sv) ≤ MAXFILE.

Lemma read_ok present space s sv m u : good_file s sv → request present space u UIO_READ →
  ∃ s' sv', sfs_io present space (s, sv, m, u) =
      Ret (0, (s', sv', store m (iov_base u) (fbytes s sv (uio_offset u) (avail sv u)), moved (avail sv u) u)) ∧
    evolves s sv s' sv' ∧ ∀ p, 0 ≤ p → fbyte s' sv' p = fbyte s sv p.
Proof.
  intros (Hs & Hf & Hsz) [Hw Hd Hoff Hres Hacc]. apply sfs_io_read; try done.
  eapply accessible_sub; [done|]. unfold avail. lia.
Qed.

(** The blocks of a file that has lost those that are not kept. *)
Lemma truncated_block s sv s' sv' bl k : fs_ok s → file_ok s sv → shrinks s sv s' sv' →
  (∀ k b, bmap_of s sv !! k = Some b → bmap_of s' sv' !! k = Some (if kept bl (Z.of_nat k) then b else 0)) → 0 ≤ k < 143 →
  fblock s' sv' k = if kept bl k then fblock s sv k else zero_block.
Proof.
  intros Hs Hf Hsh Hmap Hk. destruct (lookup_lt_is_Some_2 (bmap_of s sv) (Z.to_nat k)) as [b Hb]; [rewrite bmap_length by done; lia|].
  specialize (Hmap _ _ Hb). rewrite Z2Nat.id in Hmap by lia. rewrite (fblock_mapped s sv k b Hb), (fblock_mapped s' sv' k _ Hmap).
  destruct (kept _ k); [|done]. case_decide as Hb0; [done|]. apply (sh_sector _ _ _ _ Hsh).
  - apply (mapped_range s sv (Z.to_nat k) b Hf); [apply (fs_size s Hs)|done].
  - right. apply (indirect_apart s sv b Hf); [|done]. by eapply list_elem_of_lookup_2.
Qed.

Section files.
Context (present : Z → bool) (space : Z).

(** [C12] Reading a file gets exactly its bytes: on a well-formed file system
    without media errors, a read gets the bytes of the file from the offset on,
    up to the length asked for or the end of the file, holes as zeros; the uio
    says how much was transferred; this file and all others stay as they are. *)
Theorem sfs_read_correct s sv m u : good_file s sv → request present space u UIO_READ →
  ∃ s' sv', sfs_io present space (s, sv, m, u) =
      Ret (0, (s', sv', store m (iov_base u) (fbytes s sv (uio_offset u) (avail sv u)), moved (avail sv u) u)) ∧
    good_file s' sv' ∧ (∀ p, 0 ≤ p → fbyte s' sv' p = fbyte s sv p) ∧ sfi_size (sv_i sv') = sfi_size (sv_i sv) ∧
    ∀ sv2, file_ok s sv2 → apart s sv sv2 → untouched s s' sv2.
Proof.
  intros Hg Hu. destruct (read_ok present space s sv m u Hg Hu) as (s' & sv' & Hrun & Hev & Hb). destruct Hg as (_ & _ & Hsz).
  exists s', sv'. pose proof Hev as [? ? _ _ Hsize _ _ _ _]. split; [done|]. split; [by unfold good_file; rewrite Hsize|].
  split_and!; try done. intros. by eapply evolves_untouched.
Qed.

(** [C8] Writing a file changes the bytes written and nothing else: each byte of
    the file in the range written is the byte of the buffer, every other byte of
    this file and of the other files is as before, and the size grows to the
    end of the range. The write ends early only with ENOSPC when every block of
    the disk is taken, with the uio telling how far it got. *)
Theorem sfs_write_correct s sv m u : good_file s sv → request present space u UIO_WRITE →
  uio_offset u + uio_resid u ≤ MAXFILE →
  ∃ e s' sv' k, sfs_io present space (s, sv, m, u) = Ret (e, (s', sv', m, moved k u)) ∧
    ((e = 0 ∧ k = uio_resid u) ∨ (e = ENOSPC ∧ 0 ≤ k < uio_resid u ∧ ∀ j, 0 ≤ j < sp_nblocks s' → marked s' j)) ∧
    good_file s' sv' ∧ sfi_size (sv_i sv') = sfi_size (sv_i sv) `max` (uio_offset u + k) ∧
    (∀ p, 0 ≤ p → fbyte s' sv' p =
       if decide (uio_offset u ≤ p < uio_offset u + k) then peek m (iov_base u + (p - uio_offset u)) else fbyte s sv p) ∧
    ∀ sv2, file_ok s sv2 → apart s sv sv2 → untouched s s' sv2.
Proof.
  intros (Hs & Hf & Hsz) [Hw Hd Hoff Hres Hacc] Hend.
  destruct (sfs_io_write present space s sv m u) as (e & s' & sv1 & k & Hrun & Hcase & Hev & Hb); try done.
  exists e, s', (resize (uio_offset u) k sv1), k. pose proof Hev as [? Hf1 _ _ Hsize _ _ _ _].
  split; [done|]. split; [done|]. unfold good_file. rewrite resize_size, Hsize.
  split; [split_and!; [done|by apply resize_file|lia..]|]. split_and!; [done| |intros; by eapply evolves_untouched].
  intros p Hp. rewrite resize_fbyte. by apply Hb.
Qed.

(** What has been written is what is read back: a read of the range that a
    write has filled, into any buffer, returns the bytes written. *)
Theorem sfs_write_read_back s sv m u s' sv' m1 u1 m2 v : good_file s sv → request present space u UIO_WRITE →
  uio_offset u + uio_resid u ≤ MAXFILE → sfs_io present space (s, sv, m, u) = Ret (0, (s', sv', m1, u1)) →
  request present space v UIO_READ → uio_offset v = uio_offset u → uio_resid v = uio_resid u →
  ∃ s2 sv2, sfs_io present space (s', sv', m2, v) =
    Ret (0, (s2, sv2, store m2 (iov_base v) (load m (iov_base u) (Z.to_nat (uio_resid u))), moved (uio_resid v) v)).
Proof.
  intros (Hs & Hf & Hsz) [Hw Hd Hoff Hres Hacc] Hend Hrun Hv Hvo Hvr.
  destruct (sfs_io_write present space s sv m u) as (e & s0 & sv1 & k & Hrun' & Hcase & Hev & Hb); try done.
  rewrite Hrun in Hrun'. injection Hrun' as <- <- -> -> ->. destruct Hcase as [[_ ->]|[? _]]; [|done].
  set (sv' := resize _ _ sv1). pose proof Hev as [? Hf1 _ _ Hsize _ _ _ _].
  assert (Hsz' : sfi_size (sv_i sv') = sfi_size (sv_i sv) `max` (uio_offset u + uio_resid u)) by (unfold sv'; by rewrite resize_size, Hsize).
  destruct (read_ok present space s' sv' m2 v) as (s2 & sv2 & Hrd & _); [|done|].
  { split_and!; [done|by apply resize_file|lia..]. }
  exists s2, sv2. rewrite Hrd. replace (avail sv' v) with (uio_resid v) by (unfold avail; lia). do 5 f_equal.
  rewrite Hvo, Hvr. apply (fbytes_written s sv); [done|]. intros p Hp. unfold sv'. rewrite resize_fbyte. by apply Hb.
Qed.

(** [C27] Truncating a file sets its size and gives back blocks: the direct blocks
    at or past the new end are unmapped, the indirect ones past it as well (the
    one at index [blocklen] itself survives); mapped blocks keep their contents;
    a block is in use afterwards exactly if it was and does not belong to
    what the file lost; the other files stay as they are. *)
Theorem sfs_truncate_correct s sv n : good_file s sv → 0 ≤ n ≤ MAXFILE →
  ∃ s' sv', sfs_truncate present space n s sv = Ret (0, s', sv') ∧ good_file s' sv' ∧ sfi_size (sv_i sv') = n ∧
    (∀ k, 0 ≤ k < 143 → fblock s' sv' k = if kept ((n + 511) / 512) k then fblock s sv k else zero_block) ∧
    (∀ x, 0 ≤ x → marked s' x ↔ marked s x ∧ ((x ∉ own s sv) ∨ x ∈ own s' sv')) ∧
    ∀ sv2, file_ok s sv2 → apart s sv sv2 → untouched s s' sv2.
Proof.
  intros (Hs & Hf & Hsz) Hn. unfold MAXFILE in Hn. destruct (sfs_truncate_ok present space s sv n Hs Hf) as (s' & sv' & Hrun & Hsh & Hsize & _ & _ & Hmap); [lia|].
  exists s', sv'. pose proof Hsh as [? ? _ _ _ Hm Hsec _]. split; [done|].
  split; [by unfold good_file, MAXFILE; rewrite Hsize|]. split_and!; try done; [|intros; by eapply shrinks_untouched].
  intros k Hk. by eapply truncated_block.
Qed.
End files.

(** ** Media errors *)

(** The same file system on a disk that fails as [f] says, and after [n] more
    operations of the disk. *)
Definition with_faults (f : nat → bool) (s : sfs_fs) : sfs_fs :=
  set_device (Disk (d_blocks (sfs_device s)) (secs s) f (d_ops (sfs_device s))) s.
Definition after (n : nat) (s : sfs_fs) : sfs_fs :=
  set_device (Disk (d_blocks (sfs_device s)) (secs s) (d_fail (sfs_device s)) (n + d_ops (sfs_device s))) s.

Lemma after_0 s : sfs_device (after 0 s) = sfs_device s.
Proof. by destruct s as [? [] ? ?]. Qed.

Section media.
Context (present : Z → bool) (space : Z) (f : nat → bool).
Context (s : sfs_fs) (b : Z) (blk data : list Z).
Context (Hs : fs_ok s) (Hb : 0 ≤ b < sp_nblocks s) (Hblk : secs s !! Z.to_nat b = Some blk).

Let ku rw := mk_kuio KBUF SFS_BLOCKSIZE (b * 512) rw.
Let dk n := sfs_device (after n (with_faults f s)).
Let m0 := store ∅ KBUF data.

Lemma disk_range : 0 ≤ b < d_blocks (sfs_device s) ∧ d_blocks (sfs_device s) < 2 ^ 22.
Proof. pose proof (fs_size s Hs). lia. Qed.

Lemma try_fails n rw : f (n + d_ops (sfs_device s)) = true →
  lhd_io present space (dk n, m0, ku rw) =
    Ret (EIO, (dk (S n), m0, match rw with UIO_READ => ku UIO_READ | UIO_WRITE => moved 512 (ku UIO_WRITE) end)).
Proof.
  intros Hf. destruct disk_range as [Hr Hsz]. rewrite (lhd_io_fails present space (dk n) m0 (ku rw) b); try done; [|apply kbuf_wf; lia|by left].
  by destruct rw.
Qed.

Lemma try_reads n : f (n + d_ops (sfs_device s)) = false →
  lhd_io present space (dk n, m0, ku UIO_READ) = Ret (0, (dk (S n), store m0 KBUF blk, moved 512 (ku UIO_READ))).
Proof.
  intros Hf. destruct disk_range as [Hr Hsz]. rewrite (lhd_io_ok present space (dk n) m0 (ku UIO_READ) b blk); try done;
    [apply kbuf_wf; lia|by left|apply (fs_sectors s Hs)|by eapply sector_length].
Qed.

(** A read that meets [i] errors before it succeeds. *)
Lemma read_tries i : ∀ n more, (i ≤ more)%nat →
  (∀ j, (j < i)%nat → f (n + j + d_ops (sfs_device s)) = true) → f (n + i + d_ops (sfs_device s)) = false →
  sfs_rw_tries present space more (dk n, m0, ku UIO_READ) = Ret (0, (dk (n + S i), store m0 KBUF blk, moved 512 (ku UIO_READ))).
Proof.
  induction i as [|i IH]; intros n more Hi Hfail Hok.
  - rewrite Nat.add_0_r in Hok. replace (n + 1)%nat with (S n) by lia.
    destruct more; unfold sfs_rw_tries; fold sfs_rw_tries; rewrite try_reads by done; done.
  - destruct more as [|more]; [lia|]. unfold sfs_rw_tries; fold sfs_rw_tries.
    rewrite try_fails by (specialize (Hfail 0%nat); rewrite Nat.add_0_r in Hfail; apply Hfail; lia). ostep.
    rewrite (bool_decide_eq_false_2 (EIO = EINVAL)), (bool_decide_eq_true_2 (EIO = EIO)) by done.
    replace (n + S (S i))%nat with (S n + S i)%nat by lia. apply IH; [lia| |by replace (S n + i)%nat with (n + S i)%nat by lia].
    intros j Hj. replace (S n + j)%nat with (n + S j)%nat by lia. apply Hfail. lia.
Qed.

Lemma read_gives_up more : ∀ n, (∀ j, (j ≤ more)%nat → f (n + j + d_ops (sfs_device s)) = true) →
  sfs_rw_tries present space more (dk n, m0, ku UIO_READ) = Ret (EIO, (dk (n + S more), m0, ku UIO_READ)).
Proof.
  induction more as [|more IH]; intros n Hfail; unfold sfs_rw_tries; fold sfs_rw_tries;
    (rewrite try_fails by (specialize (Hfail 0%nat); rewrite Nat.add_0_r in Hfail; apply Hfail; lia)); ostep;
    rewrite (bool_decide_eq_false_2 (EIO = EINVAL)), (bool_decide_eq_true_2 (EIO = EIO)) by done.
  - by replace (n + 1)%nat with (S n) by lia.
  - replace (n + S (S more))%nat with (S n + S more)%nat by lia. apply IH.
    intros j Hj. replace (S n + j)%nat with (n + S j)%nat by lia. apply Hfail. lia.
Qed.

(** A write whose first attempt fails: the retry has nothing left to transfer. *)
Lemma write_tries more : f (d_ops (sfs_device s)) = true →
  sfs_rw_tries present space (S more) (dk 0, m0, ku UIO_WRITE) = Ret (0, (dk 1, m0, moved 512 (ku UIO_WRITE))).
Proof.
  intros Hfail. destruct disk_range as [Hr Hsz]. unfold sfs_rw_tries. fold sfs_rw_tries. rewrite (try_fails 0) by done. ostep.
  rewrite (bool_decide_eq_false_2 (EIO = EINVAL)), (bool_decide_eq_true_2 (EIO = EIO)) by done.
  assert (He : lhd_io present space (dk 1, m0, moved 512 (ku UIO_WRITE)) = Ret (0, (dk 1, m0, moved 512 (ku UIO_WRITE)))).
  { apply (lhd_io_empty present space _ _ _ (b + 1)); [done|simpl; lia| |exact Hsz]. change (0 ≤ b + 1 ≤ d_blocks (sfs_device s)). lia. }
  destruct more; unfold sfs_rw_tries; fold sfs_rw_tries; rewrite He; done.
Qed.
End media.

Section retries.
Context (present : Z → bool) (space : Z) (f : nat → bool) (s : sfs_fs) (b : Z) (blk data : list Z).

(** Reading a block survives media errors: if one of the first eleven
    attempts succeeds, sfs_rblock returns the block, having used exactly the
    attempts up to that one; if all eleven fail it stops there with EIO and the
    buffer as it was. The disk's contents never change. *)
Theorem sfs_read_retries : fs_ok s → 0 ≤ b < sp_nblocks s → secs s !! Z.to_nat b = Some blk → length data = 512%nat →
  (∀ i, (i ≤ 10)%nat → (∀ j, (j < i)%nat → f (j + d_ops (sfs_device s))%nat = true) → f (i + d_ops (sfs_device s))%nat = false →
     sfs_rblock present space (with_faults f s) data b = Ret (0, after (S i) (with_faults f s), blk)) ∧
  ((∀ j, (j ≤ 10)%nat → f (j + d_ops (sfs_device s))%nat = true) →
     sfs_rblock present space (with_faults f s) data b = Ret (EIO, after 11 (with_faults f s), data)).
Proof.
  intros Hs Hb Hblk Hd. pose proof (fs_size s Hs) as Hsz. unfold sfs_rblock, in_buffer, sfs_rwblock. rewrite block_offset by lia. split.
  - intros i Hi Hfail Hok. pose proof (read_tries present space f s b blk data Hs Hb Hblk i 0 10 Hi Hfail Hok) as Ht.
    cbv beta zeta in Ht. rewrite after_0 in Ht.
    rewrite Ht. ostep. do 2 f_equal. rewrite Hd, <- (sector_length s b blk) by done. apply load_store.
  - intros Hfail. pose proof (read_gives_up present space f s b data Hs Hb 10 0 Hfail) as Ht.
    cbv beta zeta in Ht. rewrite after_0 in Ht.
    rewrite Ht. ostep. do 2 f_equal. apply load_store.
Qed.

(** [C28] A write that meets a media error is lost: when the first attempt fails,
    sfs_wblock still returns success and the disk is unchanged. The driver has
    already moved the uio past the block, so that the retry transfers nothing. *)
Theorem sfs_write_error_lost : fs_ok s → 0 ≤ b < sp_nblocks s → f (d_ops (sfs_device s)) = true →
  sfs_wblock present space (with_faults f s) data b = Ret (0, after 1 (with_faults f s)).
Proof.
  intros Hs Hb Hf. pose proof (fs_size s Hs) as Hsz. unfold sfs_wblock, in_buffer, sfs_rwblock. rewrite block_offset by lia.
  pose proof (write_tries present space f s b data Hs Hb 9 Hf) as Ht.
  cbv beta zeta in Ht. rewrite after_0 in Ht. rewrite Ht. ostep. done.
Qed.
End retries.

(** ** Witnesses *)

Definition healthy : sfs_fs := small_fs (λ _, false).

Lemma healthy_ok : fs_ok healthy.
Proof.
  split; [done|vm_compute; done|vm_compute; done| | |vm_compute; done| |done].
  - vm_compute. repeat (constructor; [reflexivity|]). constructor.
  - split; [by split|done|repeat constructor; done|intros i Hi; simpl in Hi; lia].
  - intros i Hi. simpl in Hi. lia.
Qed.

(** A file with a direct block (4) and, behind the indirect block 5, block 6 at
    index 15. *)
Definition used_fs : sfs_fs :=
  SfsFs 40 (Disk 40 (<[5%nat := words_bytes (6 :: replicate 127 0)]> (replicate 40 (replicate 512 170))) (λ _, false) 0)
    (Bitmap 40 [127; 0; 0; 0; 0]) false.
Definition used_file : sfs_vnode := SfsVnode (SfsInode 8192 SFS_TYPE_FILE 1 (4 :: replicate 14 0) 5 (replicate 110 0)) 3 false.

Lemma used_ok : fs_ok used_fs.
Proof.
  split; [done|vm_compute; done|vm_compute; done| | |vm_compute; done| |done].
  - vm_compute. repeat (constructor; [reflexivity|]). constructor.
  - split; [by split|done|repeat constructor; done|intros i Hi; simpl in Hi; lia].
  - intros i Hi. simpl in Hi. lia.
Qed.

Lemma own_used : own used_fs used_file = [3; 5; 4; 6].
Proof. vm_compute. reflexivity. Qed.

Lemma good_used : good_file used_fs used_file.
Proof.
  split; [apply used_ok|]. split; [|by unfold MAXFILE]. split; [done|rewrite own_used|rewrite own_used].
  - apply (bool_decide_unpack _). vm_compute. done.
  - intros b Hb. assert (b = 3 ∨ b = 5 ∨ b = 4 ∨ b = 6) as Hb' by set_solver. destruct Hb' as [->|[->|[->| ->]]]; done.
Qed.

Lemma good_empty : good_file healthy empty_file.
Proof.
  split; [apply healthy_ok|]. split; [|by unfold MAXFILE]. assert (Hown : own healthy empty_file = [3]) by done.
  split; [done|rewrite Hown; apply NoDup_singleton|rewrite Hown; by intros b ->%list_elem_of_singleton].
Qed.

Lemma kernel_request base n pos rw : 0 ≤ base → 0 < n → base + n < 2 ^ 32 → 0 ≤ pos → pos + n < 2 ^ 31 →
  request no_user 0 (mk_kuio base n pos rw) rw.
Proof. intros. split; [split; simpl; done || lia|done|done|done|by left]. Qed.

Lemma sfs_read_correct_witness : ∃ s' sv', sfs_io no_user 0 (used_fs, used_file, ∅, mk_kuio 0x80200000 1000 7600 UIO_READ) =
  Ret (0, (s', sv', store ∅ 0x80200000 (fbytes used_fs used_file 7600 592), moved 592 (mk_kuio 0x80200000 1000 7600 UIO_READ))).
Proof.
  destruct (sfs_read_correct no_user 0 used_fs used_file ∅ (mk_kuio 0x80200000 1000 7600 UIO_READ)) as (s' & sv' & H & _);
    [apply good_used|by apply kernel_request|]. exists s', sv'. exact H.
Defined.

Lemma sfs_write_correct_witness : ∃ e s' sv' k,
  sfs_io no_user 0 (healthy, empty_file, store ∅ 0x80200000 (seqZ 0 700), mk_kuio 0x80200000 700 7600 UIO_WRITE) =
  Ret (e, (s', sv', store ∅ 0x80200000 (seqZ 0 700), moved k (mk_kuio 0x80200000 700 7600 UIO_WRITE))).
Proof.
  destruct (sfs_write_correct no_user 0 healthy empty_file (store ∅ 0x80200000 (seqZ 0 700)) (mk_kuio 0x80200000 700 7600 UIO_WRITE))
    as (e & s' & sv' & k & H & _); [apply good_empty|by apply kernel_request|done|]. exists e, s', sv', k. exact H.
Defined.

(** The state after writing the bytes 0, 1, ... 9 at offset 7675. *)
Definition written : sfs_fs * sfs_vnode * memory * uio :=
  match sfs_io no_user 0 (healthy, empty_file, store ∅ 0x80200000 (seqZ 0 10), mk_kuio 0x80200000 10 7675 UIO_WRITE) with
  | Ret (_, st) => st
  | _ => (healthy, empty_file, ∅, mk_kuio 0 0 0 UIO_READ)
  end.

Lemma written_run : sfs_io no_user 0 (healthy, empty_file, store ∅ 0x80200000 (seqZ 0 10), mk_kuio 0x80200000 10 7675 UIO_WRITE) =
  Ret (0, (written.1.1.1, written.1.1.2, written.1.2, written.2)).
Proof. vm_compute. reflexivity. Qed.

Lemma sfs_write_read_back_witness : ∃ s2 sv2, sfs_io no_user 0 (written.1.1.1, written.1.1.2, ∅, mk_kuio 0x80300000 10 7675 UIO_READ) =
  Ret (0, (s2, sv2, store ∅ 0x80300000 (load (store ∅ 0x80200000 (seqZ 0 10)) 0x80200000 10), moved 10 (mk_kuio 0x80300000 10 7675 UIO_READ))).
Proof.
  exact (sfs_write_read_back no_user 0 healthy empty_file (store ∅ 0x80200000 (seqZ 0 10)) (mk_kuio 0x80200000 10 7675 UIO_WRITE)
    _ _ _ _ ∅ (mk_kuio 0x80300000 10 7675 UIO_READ) good_empty
    (kernel_request 0x80200000 10 7675 UIO_WRITE ltac:(done) ltac:(done) ltac:(done) ltac:(done) ltac:(done))
    ltac:(done) written_run
    (kernel_request 0x80300000 10 7675 UIO_READ ltac:(done) ltac:(done) ltac:(done) ltac:(done) ltac:(done)) eq_refl eq_refl).
Defined.

Lemma sfs_truncate_correct_witness : ∃ s' sv', sfs_truncate no_user 0 7680 used_fs used_file = Ret (0, s', sv') ∧
  fblock s' sv' 15 = fblock used_fs used_file 15.
Proof.
  destruct (sfs_truncate_correct no_user 0 used_fs used_file 7680 good_used) as (s' & sv' & H & _ & _ & Hk & _); [done|].
  exists s', sv'. split; [exact H|].
  assert (Hkept : kept ((7680 + 511) / 512) 15 = true) by reflexivity.
  assert (Hr : 0 ≤ 15 < 143) by lia. pose proof (Hk 15 Hr) as H15. clear Hk. rewrite Hkept in H15. exact H15.
Defined.

Lemma sfs_read_retries_witness :
  sfs_rblock no_user 0 (with_faults (λ n, bool_decide (n < 10)%nat) healthy) zero_block 7 =
    Ret (0, after 11 (with_faults (λ n, bool_decide (n < 10)%nat) healthy), replicate 512 170).
Proof.
  apply (proj1 (sfs_read_retries no_user 0 (λ n, bool_decide (n < 10)%nat) healthy 7 (replicate 512 170) zero_block
    healthy_ok ltac:(done) eq_refl eq_refl) 10%nat); [lia| |done].
  intros j Hj. apply bool_decide_eq_true_2. simpl. lia.
Defined.

Lemma sfs_write_error_lost_witness :
  sfs_wblock no_user 0 (with_faults (λ n, bool_decide (n = 0)%nat) healthy) zero_block 7 =
    Ret (0, after 1 (with_faults (λ n, bool_decide (n = 0)%nat) healthy)).
Proof. exact (sfs_write_error_lost no_user 0 (λ n, bool_decide (n = 0)%nat) healthy 7 zero_block healthy_ok ltac:(done) eq_refl). Defined.

(** Truncating a file of 16 blocks to 15: block 6, at index 15, stays mapped and
    in use. *)
Example truncate_keeps_block :
  ('(e, s, sv) ← sfs_truncate no_user 0 7680 used_fs used_file; Ret (e, bmap_of s sv !! 15%nat, sfi_size (sv_i sv), bm_v (sfs_freemap s)))
  = Ret (0, Some 6, 7680, [127; 0; 0; 0; 0]).
Proof. vm_compute. reflexivity. Qed.
