(* ===== verification/SfsFrame.v ===== *)
(** * What a change to one file leaves alone

    Reading, writing and truncating a file all stand in the relation [changes]
    between the file system and the file before and after: blocks of the file
    may come and go, everything else on the disk stays. *)

From S2P Require Import Prelude Bitmap KHeap KHeapSpec Coremap Uio Sfs SfsSpec SfsTrunc SfsTheorems.

Record changes (s : sfs_fs) (sv : sfs_vnode) (s' : sfs_fs) (sv' : sfs_vnode) : Prop := {
  ch_fs : fs_ok s';
  ch_file : file_ok s' sv';
  ch_nblocks : sp_nblocks s' = sp_nblocks s;
  ch_ino : sv_ino sv' = sv_ino sv;
  ch_meta : meta sv' = meta sv;
  ch_clean : sv_dirty sv' = false → sv' = sv;
  ch_other : ∀ x, 0 ≤ x → marked s x → x ∉ own s sv → marked s' x ∧ (x ∉ own s' sv') ∧ sector s' x = sector s x;
  ch_new : ∀ x, 0 ≤ x → marked s' x → (marked s x ∧ x ∉ own s sv) ∨ x ∈ own s' sv';
  ch_map : map_kept s s';
  ch_inode : sector s' (sv_ino sv) = sector s (sv_ino sv)
}.

Lemma changes_refl s sv : fs_ok s → file_ok s sv → changes s sv s sv.
Proof.
  intros. split; try done. intros x Hx Hm. destruct (decide (x ∈ own s sv)); [by right|by left].
Qed.

Lemma changes_trans s sv s1 sv1 s2 sv2 : changes s sv s1 sv1 → changes s1 sv1 s2 sv2 → changes s sv s2 sv2.
Proof.
  intros H1 H2. split; try apply H2.
  - by rewrite (ch_nblocks _ _ _ _ H2), (ch_nblocks _ _ _ _ H1).
  - by rewrite (ch_ino _ _ _ _ H2), (ch_ino _ _ _ _ H1).
  - by rewrite (ch_meta _ _ _ _ H2), (ch_meta _ _ _ _ H1).
  - intros Hc. pose proof (ch_clean _ _ _ _ H2 Hc) as ->. by apply H1.
  - intros x Hx Hm Hn. destruct (ch_other _ _ _ _ H1 x Hx Hm Hn) as (Hm1 & Hn1 & <-). by apply (ch_other _ _ _ _ H2).
  - intros x Hx [[Hm Hn]|?]%(ch_new _ _ _ _ H2); [|by right|done]. apply (ch_new _ _ _ _ H1) in Hm as [?|?]; [by left|done|done].
  - eapply map_kept_trans; [apply H1|apply H2].
  - by rewrite <- (ch_ino _ _ _ _ H1), (ch_inode _ _ _ _ H2), (ch_ino _ _ _ _ H1), (ch_inode _ _ _ _ H1).
Qed.

Lemma changes_evolves s sv s' sv' : evolves s sv s' sv' → changes s sv s' sv'.
Proof.
  intros [Hs Hf Hn Hi Hsz Hm Ho Hme Hc Hown Hnew Hmap Hin]. split; try done.
  - intros x Hx Hmx Hno. destruct (Ho x Hx Hmx Hno). auto.
  - intros x Hx [Hmx|?]%Hnew; [|by right|done]. destruct (decide (x ∈ own s sv)); [right; auto|by left].
Qed.

Lemma changes_shrinks s sv s' sv' : file_ok s sv → sv_dirty sv' = true → shrinks s sv s' sv' → changes s sv s' sv'.
Proof.
  intros Hfo Hd [Hs Hf Hn Hi Hown Hm Hsec Hme Hmap Hin]. split; try done; [by rewrite Hd|..].
  - intros x Hx Hmx Hno. split; [apply Hm; [done|]; split; [done|by left]|]. split; [by intros ?%Hown|]. apply Hsec; [done|].
    destruct (decide (x = 0)) as [->|H0]; [by left|right]. intros ->. by apply Hno, own_indirect.
  - intros x Hx [Hmx [?|?]]%Hm; [by left|by right|done].
Qed.

Lemma changes_size s sv s' sv' n : changes s sv s' sv' → changes s sv s' (set_size n sv').
Proof. intros []. split; try done. by apply file_ok_size. Qed.

Lemma changes_resize s sv s' sv' off k : changes s sv s' sv' → changes s sv s' (resize off k sv').
Proof. intros H. unfold resize. case_decide; [by apply changes_size|done]. Qed.

(** ** Files that stay as they are *)

(** [sv2] is the same file, in the same blocks, in [s] and [s']. *)
Record still (s s' : sfs_fs) (sv2 : sfs_vnode) : Prop := {
  st_file : file_ok s' sv2;
  st_own : own s' sv2 = own s sv2;
  st_block : ∀ k, fblock s' sv2 k = fblock s sv2 k;
  st_sector : ∀ b, b ∈ own s sv2 → sector s' b = sector s b
}.

Lemma still_frame s s' sv2 : file_ok s sv2 → sp_nblocks s' = sp_nblocks s →
  (∀ b, b ∈ own s sv2 → marked s' b ∧ sector s' b = sector s b) → still s s' sv2.
Proof.
  intros Hf Hn Hb. destruct (file_frame s s' sv2) as (_ & _ & Hown & Hblk); [by intros b [_ ?]%Hb|].
  split; [|done|done|by intros b [_ ?]%Hb]. destruct Hf as [Hd Hnd Ho]. split; [done|by rewrite Hown|].
  rewrite Hown, Hn. intros b Hin. split; [by apply Ho|by apply Hb].
Qed.

Lemma still_byte s s' sv2 : still s s' sv2 → ∀ p, fbyte s' sv2 p = fbyte s sv2 p.
Proof. intros H. apply fbyte_blocks, H. Qed.

Lemma still_refl s sv : file_ok s sv → still s s sv.
Proof. by split. Qed.

Lemma still_trans s s1 s2 sv : still s s1 sv → still s1 s2 sv → still s s2 sv.
Proof.
  intros H1 H2. split; [apply H2|by rewrite (st_own _ _ _ H2), (st_own _ _ _ H1)| |].
  - intros k. by rewrite (st_block _ _ _ H2), (st_block _ _ _ H1).
  - intros b Hb. rewrite (st_sector _ _ _ H2) by by rewrite (st_own _ _ _ H1). by apply H1.
Qed.

Lemma changes_still s sv s' sv' sv2 : changes s sv s' sv' → file_ok s sv2 → apart s sv sv2 → still s s' sv2.
Proof.
  intros Hc Hf Ha. apply still_frame; [done|apply Hc|]. intros b Hb. destruct (fo_own s sv2 Hf b Hb) as [Hr Hm].
  destruct (ch_other _ _ _ _ Hc b) as (? & _ & ?); [lia|done|by apply Ha|done].
Qed.

(** Files that were apart stay apart. *)
Lemma changes_apart s sv s' sv' sv2 : changes s sv s' sv' → file_ok s sv2 → apart s sv sv2 → apart s' sv' sv2.
Proof.
  intros Hc Hf Ha b Hb. pose proof (changes_still _ _ _ _ _ Hc Hf Ha) as Hst. rewrite (st_own _ _ _ Hst) in Hb.
  destruct (fo_own s sv2 Hf b Hb). apply (ch_other _ _ _ _ Hc); [lia|done|by apply Ha].
Qed.

Lemma apart_sym s sv sv2 : apart s sv sv2 → apart s sv2 sv.
Proof. intros H b Hb Hb2. by apply (H b). Qed.
