(* ===== verification/SfsDir.v ===== *)
(** * Directories of the simple file system: the directory part of
    fs/sfs/sfs_vnode.c

    A directory is a file of entries of 64 bytes, an inode number and a name. The
    buffer of an entry lies at [DBUF] in kernel memory. A function that hands
    back a slot or an inode through a pointer that may be null returns it in any
    case. Names are lists of bytes with their terminator. *)

From S2P Require Import Prelude Bitmap KHeap KHeapSpec Coremap Uio CString Sfs.

Definition SFS_ROOT_LOCATION : Z := 1.
Definition SFS_TYPE_INVAL : Z := 0.
Definition DIRSIZE : Z := 64.

(** struct sfs_dir *)
Record sfs_dir := SfsDir { sfd_ino : Z; sfd_name : list Z }.

Definition dir_bytes (d : sfs_dir) : list Z := word_bytes (sfd_ino d) ++ sfd_name d.
Definition bytes_dir (l : list Z) : sfs_dir :=
  SfsDir (match bytes_words (take 4 l) with w :: _ => w | [] => 0 end) (drop 4 l).

Definition DBUF : Z := 0x80180000.

Section dir.
Context (present : Z → bool) (space : Z).

Definition sfs_readdir (s : sfs_fs) (sv : sfs_vnode) (slot : Z) : outcome (Z * sfs_fs * sfs_vnode * sfs_dir) :=
  let actualpos := s32 (u32 (slot * DIRSIZE)) in
  '(e, (s, sv, m, ku)) ← sfs_io present space (s, sv, ∅, mk_kuio DBUF DIRSIZE actualpos UIO_READ);
  let sd := bytes_dir (load m DBUF 64) in
  if bool_decide (e ≠ 0) then Ret (e, s, sv, sd)
  else if bool_decide (0 < uio_resid ku) then Panic
  else Ret (0, s, sv, sd).

Definition sfs_writedir (s : sfs_fs) (sv : sfs_vnode) (sd : sfs_dir) (slot : Z) : outcome (Z * sfs_fs * sfs_vnode) :=
  c_assert (bool_decide (0 ≤ slot));;
  let actualpos := s32 (u32 (slot * DIRSIZE)) in
  '(e, (s, sv, _, ku)) ← sfs_io present space (s, sv, store ∅ DBUF (dir_bytes sd), mk_kuio DBUF DIRSIZE actualpos UIO_WRITE);
  if bool_decide (e ≠ 0) then Ret (e, s, sv)
  else if bool_decide (0 < uio_resid ku) then Panic
  else Ret (0, s, sv).

Definition sfs_dir_nentries (sv : sfs_vnode) : outcome Z :=
  c_assert (bool_decide (sfi_type (sv_i sv) = SFS_TYPE_DIR));;
  let size := s32 (sfi_size (sv_i sv)) in
  if bool_decide (u32 size mod DIRSIZE ≠ 0) then Panic else Ret (u32 size / DIRSIZE).

(** What the search has found: inode and slot of the name, and a free slot. *)
Record search := Search { s_ino : Z; s_slot : Z; s_empty : Z; s_found : bool }.

Definition findname_turn (name : list Z) (i : Z) (st : sfs_fs * sfs_vnode * search)
    : outcome ((sfs_fs * sfs_vnode * search) + Z * (sfs_fs * sfs_vnode * search)) :=
  let '(s, sv, q) := st in
  '(e, s, sv, tsd) ← sfs_readdir s sv i;
  if bool_decide (e ≠ 0) then Ret (inr (e, (s, sv, q)))
  else if bool_decide (sfd_ino tsd = SFS_NOINO) then Ret (inl (s, sv, Search (s_ino q) (s_slot q) i (s_found q)))
  else
    text ← wr (sfd_name tsd) (SFS_NAMELEN - 1) 0;
    r ← strcmp text name;
    if bool_decide (r = 0) then
      c_assert (negb (s_found q));;
      Ret (inl (s, sv, Search (sfd_ino tsd) i (s_empty q) true))
    else Ret (inl (s, sv, q)).

(** [emptyslot] is the value of the variable before the call. *)
Definition sfs_dir_findname (s : sfs_fs) (sv : sfs_vnode) (name : list Z) (emptyslot : Z) : outcome (Z * sfs_fs * sfs_vnode * search) :=
  nentries ← sfs_dir_nentries sv;
  r ← for_loop (Z.to_nat nentries) 0 (findname_turn name) (s, sv, Search 0 0 emptyslot false);
  Ret (match r with
       | inr (e, (s, sv, q)) => (e, s, sv, q)
       | inl (s, sv, q) => (if s_found q then 0 else ENOENT, s, sv, q)
       end).

(** The slot is handed back. *)
Definition sfs_dir_link (s : sfs_fs) (sv : sfs_vnode) (name : list Z) (ino : Z) : outcome (Z * sfs_fs * sfs_vnode * Z) :=
  '(result, s, sv, q) ← sfs_dir_findname s sv name (-1);
  if bool_decide (result ≠ 0) && bool_decide (result ≠ ENOENT) then Ret (result, s, sv, 0)
  else if bool_decide (result = 0) then Ret (EEXIST, s, sv, 0)
  else
    n ← strlen name;
    if bool_decide (SFS_NAMELEN < n + 1) then Ret (ENAMETOOLONG, s, sv, 0)
    else
      emptyslot ← (if bool_decide (s_empty q < 0) then sfs_dir_nentries sv else Ret (s_empty q));
      text ← strcpy (replicate (Z.to_nat SFS_NAMELEN) 0) name;
      '(e, s, sv) ← sfs_writedir s sv (SfsDir ino text) emptyslot;
      Ret (e, s, sv, emptyslot).

Definition sfs_dir_unlink (s : sfs_fs) (sv : sfs_vnode) (slot : Z) : outcome (Z * sfs_fs * sfs_vnode) :=
  sfs_writedir s sv (SfsDir SFS_NOINO (replicate (Z.to_nat SFS_NAMELEN) 0)) slot.
End dir.
