(* ===== verification/SfsDirSpec.v ===== *)
(** * Specification of directories

    A directory holds a finite map from names to inode numbers, spread over
    its slots. The lemmas give each routine of SfsDir.v its effect on the map. *)

From S2P Require Import Prelude Bitmap KHeap KHeapSpec Coremap Uio CString Sfs SfsSpec SfsTrunc SfsTheorems SfsFrame SfsDir.

(** ** Slots *)

(** What a slot says: nothing if it is free, else a name and an inode. *)
Definition slot_of (d : sfs_dir) : option (list Z * Z) :=
  if decide (sfd_ino d = SFS_NOINO) then None else Some (cut (<[59%nat := 0]> (sfd_name d)), sfd_ino d).

Definition raw (s : sfs_fs) (sv : sfs_vnode) (i : Z) : sfs_dir := bytes_dir (fbytes s sv (i * 64) 64).
Definition ent (s : sfs_fs) (sv : sfs_vnode) (i : Z) : option (list Z * Z) := slot_of (raw s sv i).
Definition nslots (sv : sfs_vnode) : Z := sfi_size (sv_i sv) / 64.

(** The slots up to [n] hold exactly the map [M]. *)
Definition holds (e : Z → option (list Z * Z)) (n : Z) (M : gmap (list Z) Z) : Prop :=
  (∀ nm ino, M !! nm = Some ino ↔ ∃ i, 0 ≤ i < n ∧ e i = Some (nm, ino)) ∧
  (∀ i j nm a b, 0 ≤ i < n → 0 ≤ j < n → e i = Some (nm, a) → e j = Some (nm, b) → i = j).

Record dir_ok (s : sfs_fs) (sv : sfs_vnode) (M : gmap (list Z) Z) : Prop := {
  do_good : good_file s sv;
  do_type : sfi_type (sv_i sv) = SFS_TYPE_DIR;
  do_size : sfi_size (sv_i sv) mod 64 = 0;
  do_map : holds (ent s sv) (nslots sv) M
}.

Lemma holds_ext e e' n M : (∀ i, 0 ≤ i < n → e' i = e i) → holds e n M → holds e' n M.
Proof.
  intros He [Hm Hi]. split.
  - intros nm ino. rewrite Hm. split; intros (i & Hi' & Hx); exists i; (split; [done|]); by rewrite ?He in * by done.
  - intros i j nm a b Hri Hrj. rewrite !He by done. by apply Hi.
Qed.

(** A new name in a free slot, or in one more. *)
Lemma holds_add e e' n n' M slot nm ino : holds e n M → 0 ≤ slot ≤ n → (slot < n → e slot = None) → n' = n `max` (slot + 1) →
  (∀ i, 0 ≤ i < n → e' i = if decide (i = slot) then Some (nm, ino) else e i) → e' slot = Some (nm, ino) → M !! nm = None →
  holds e' n' (<[nm := ino]> M).
Proof.
  intros [Hm Hi] Hs Hfree -> He Hes Hnm.
  assert (Hold : ∀ i p, 0 ≤ i < n `max` (slot + 1) → i ≠ slot → e' i = Some p → 0 ≤ i < n ∧ e i = Some p).
  { intros i p Hr Hne Hp. assert (0 ≤ i < n) by lia. by rewrite He, decide_False in Hp by done. }
  split.
  - intros x a. destruct (decide (x = nm)) as [->|Hx].
    + rewrite lookup_insert_eq. split; [intros [= ->]; exists slot; split; [lia|done]|]. intros (i & Hr & Hp).
      destruct (decide (i = slot)) as [->|Hne]; [congruence|]. destruct (Hold i _ Hr Hne Hp) as [Hr' Hp'].
      assert (M !! nm = Some a) by (apply Hm; eauto). congruence.
    + rewrite lookup_insert_ne, Hm by done. split; intros (i & Hr & Hp).
      * exists i. split; [lia|]. rewrite He by done. destruct (decide (i = slot)) as [->|]; [|done]. rewrite Hfree in Hp by lia. done.
      * destruct (decide (i = slot)) as [->|Hne]; [congruence|]. exists i. by apply Hold.
  - intros i j x a b Hri Hrj Hpi Hpj. destruct (decide (i = slot)) as [->|Hi'], (decide (j = slot)) as [->|Hj']; [done|..].
    + destruct (Hold j _ Hrj Hj' Hpj) as [Hr Hp]. assert (x = nm) as -> by congruence. assert (M !! nm = Some b) by (apply Hm; eauto). congruence.
    + destruct (Hold i _ Hri Hi' Hpi) as [Hr Hp]. assert (x = nm) as -> by congruence. assert (M !! nm = Some a) by (apply Hm; eauto). congruence.
    + destruct (Hold j _ Hrj Hj' Hpj), (Hold i _ Hri Hi' Hpi). eauto.
Qed.

(** A name taken out of its slot. *)
Lemma holds_del e e' n M slot nm ino : holds e n M → 0 ≤ slot < n → e slot = Some (nm, ino) →
  (∀ i, 0 ≤ i < n → e' i = if decide (i = slot) then None else e i) → holds e' n (delete nm M).
Proof.
  intros [Hm Hi] Hs Hsl He. split.
  - intros x a. rewrite lookup_delete_Some, Hm. split.
    + intros (Hx & i & Hr & Hp). exists i. split; [done|]. rewrite He, decide_False by (done || intros ->; congruence). done.
    + intros (i & Hr & Hp). rewrite He in Hp by done. case_decide as Hne; [done|]. split; [|eauto]. intros <-. by apply Hne, (Hi i slot nm a ino).
  - intros i j x a b Hri Hrj. rewrite !He by done. repeat case_decide; try done. by apply Hi.
Qed.

(** ** Reading *)

(** The file, in possibly other blocks. *)
Definition same_file (s : sfs_fs) (sv : sfs_vnode) (s' : sfs_fs) (sv' : sfs_vnode) : Prop :=
  evolves s sv s' sv' ∧ ∀ p, 0 ≤ p → fbyte s' sv' p = fbyte s sv p.

Lemma same_file_refl s sv : good_file s sv → same_file s sv s sv.
Proof. intros (? & ? & ?). split; [by apply evolves_refl|done]. Qed.

Lemma same_file_trans s sv s1 sv1 s2 sv2 : same_file s sv s1 sv1 → same_file s1 sv1 s2 sv2 → same_file s sv s2 sv2.
Proof. intros [H1 Hb1] [H2 Hb2]. split; [by eapply evolves_trans|]. intros p Hp. by rewrite Hb2, Hb1. Qed.

Lemma same_file_good s sv s' sv' : same_file s sv s' sv' → good_file s sv → good_file s' sv'.
Proof. intros [H _] (_ & _ & Hsz). split_and!; [apply H|apply H|rewrite (ev_size _ _ _ _ H); lia..]. Qed.

Lemma same_file_raw s sv s' sv' i : same_file s sv s' sv' → 0 ≤ i → raw s' sv' i = raw s sv i.
Proof. intros [_ Hb] Hi. unfold raw. f_equal. apply fbytes_ext; [lia|done]. Qed.

Lemma same_file_dir s sv s' sv' M : same_file s sv s' sv' → dir_ok s sv M → dir_ok s' sv' M.
Proof.
  intros Hsf [Hg Ht Hsz Hm]. pose proof Hsf as [He _].
  assert (Hsize : sfi_size (sv_i sv') = sfi_size (sv_i sv)) by apply He. split.
  - by eapply same_file_good.
  - pose proof (ev_meta _ _ _ _ He) as [= -> _]. done.
  - by rewrite Hsize.
  - unfold nslots. rewrite Hsize. eapply holds_ext; [|done]. intros i Hi. unfold ent. by rewrite (same_file_raw s sv) by (done || lia).
Qed.

Lemma nslots_range s sv : good_file s sv → 0 ≤ nslots sv ≤ 1144 ∧ nslots sv * 64 ≤ sfi_size (sv_i sv).
Proof. intros (_ & _ & Hsz). unfold nslots, MAXFILE in *. Z.to_euclidean_division_equations. lia. Qed.

(** A slot in a hole of the directory is free. *)
Lemma ent_hole s sv i : 0 ≤ i → fblock s sv (i * 64 / 512) = zero_block → ent s sv i = None.
Proof.
  intros Hi Hz. unfold ent, slot_of, raw. assert (Hb : fbytes s sv (i * 64) 64 = replicate 64 0).
  { set (k := i * 64 / 512) in *. replace (i * 64) with (k * 512 + (i * 64) mod 512) by (unfold k; Z.to_euclidean_division_equations; lia).
    assert ((i * 64) mod 512 + 64 ≤ 512 ∧ 0 ≤ (i * 64) mod 512) by (Z.to_euclidean_division_equations; lia).
    rewrite fbytes_block by (rewrite ?Hz; done || lia). rewrite Hz. unfold zero_block. rewrite drop_replicate, take_replicate. f_equal. lia. }
  rewrite Hb. done.
Qed.

Section ops.
Context (present : Z → bool) (space : Z).

Lemma entry_request pos rw : 0 ≤ pos ≤ MAXFILE → request present space (mk_kuio DBUF DIRSIZE pos rw) rw.
Proof. unfold MAXFILE, DBUF, DIRSIZE. intros. split; [split; simpl; done || lia|done|simpl; lia|done|by left]. Qed.

Lemma entry_pos slot : 0 ≤ slot ≤ 1144 → s32 (u32 (slot * DIRSIZE)) = slot * 64.
Proof. intros. unfold DIRSIZE. rewrite u32_small by lia. apply s32_small. lia. Qed.

Lemma sfs_readdir_ok s sv i : good_file s sv → 0 ≤ i < nslots sv →
  returns (sfs_readdir present space s sv i) (λ '(e, s', sv', d), e = 0 ∧ d = raw s sv i ∧ same_file s sv s' sv').
Proof.
  intros Hg Hi. pose proof (nslots_range s sv Hg) as [Hr Hr2]. unfold sfs_readdir. rewrite entry_pos by lia.
  assert (Hav : avail sv (mk_kuio DBUF DIRSIZE (i * 64) UIO_READ) = 64) by (unfold avail, DIRSIZE; simpl; lia).
  destruct (read_ok present space s sv ∅ (mk_kuio DBUF DIRSIZE (i * 64) UIO_READ)) as (s' & sv' & -> & Hev & Hb);
    [done|apply entry_request; unfold MAXFILE; lia|]. ostep. rewrite Hav. rewrite (bool_decide_eq_false_2 (0 ≠ 0)) by tauto.
  rewrite bool_decide_eq_false_2 by (simpl; unfold DIRSIZE; lia). apply returns_ret. split; [done|]. split; [|done].
  unfold raw. by f_equal.
Qed.

Lemma sfs_dir_nentries_ok s sv M : dir_ok s sv M → sfs_dir_nentries sv = Ret (nslots sv).
Proof.
  intros [(_ & _ & Hsz) Ht Hm _]. unfold sfs_dir_nentries, nslots, DIRSIZE, MAXFILE in *. rewrite Ht. cbn [c_assert bool_decide]. ostep.
  rewrite s32_small, u32_small by lia. by rewrite Hm.
Qed.

(** ** Looking up a name *)

Lemma raw_name_length s sv i : length (sfd_name (raw s sv i)) = 60%nat.
Proof. done. Qed.

Lemma terminated_name (l : list Z) : length l = 60%nat → 0 ∈ <[59%nat := 0]> l.
Proof. intros Hl. eapply (list_elem_of_lookup_2 _ 59). apply list_lookup_insert_eq. lia. Qed.

(** What the search has found after looking at the slots below [i]. *)
Definition found_upto (e : Z → option (list Z * Z)) (w : list Z) (e0 i : Z) (q : search) : Prop :=
  (if s_found q then 0 ≤ s_slot q < i ∧ e (s_slot q) = Some (w, s_ino q)
   else ∀ j ino, 0 ≤ j < i → e j ≠ Some (w, ino)) ∧
  (s_empty q = e0 ∨ (0 ≤ s_empty q < i ∧ e (s_empty q) = None)).

Lemma findname_turn_ok s sv M w t e0 i st : dir_ok s sv M → nonzero w → 0 ≤ i < nslots sv →
  same_file s sv st.1.1 st.1.2 → found_upto (ent s sv) w e0 i st.2 →
  returns (findname_turn present space (w ++ 0 :: t) i st)
    (λ r, ∃ st', r = inl st' ∧ same_file s sv st'.1.1 st'.1.2 ∧ found_upto (ent s sv) w e0 (i + 1) st'.2).
Proof.
  destruct st as [[s1 sv1] q]. simpl. intros Hd Hw Hi Hsf [Hq He]. unfold findname_turn.
  assert (Hn : nslots sv1 = nslots sv) by (unfold nslots; by rewrite (ev_size _ _ _ _ (proj1 Hsf))).
  eapply returns_bind; [apply sfs_readdir_ok; [by eapply same_file_good, Hd|lia]|].
  intros [[[e s2] sv2] d] (-> & -> & Hsf2). rewrite (bool_decide_eq_false_2 (0 ≠ 0)) by tauto.
  pose proof (same_file_trans _ _ _ _ _ _ Hsf Hsf2) as Hsf'. rewrite (same_file_raw s sv s1 sv1 i Hsf) by lia.
  assert (Hent : ent s sv i = slot_of (raw s sv i)) by done. unfold slot_of in Hent.
  assert (He' : s_empty q = e0 ∨ (0 ≤ s_empty q < i + 1 ∧ ent s sv (s_empty q) = None)).
  { destruct He as [?|[? ?]]; [by left|right; split; [lia|done]]. }
  case_bool_decide as Hino.
  - rewrite decide_True in Hent by done. apply returns_ret. eexists. split; [done|]. split; [done|]. split; simpl; [|right; split; [lia|done]].
    destruct (s_found q); [split; [lia|apply Hq]|]. intros j ino Hj. destruct (decide (j = i)) as [->|]; [by rewrite Hent|apply Hq; lia].
  - rewrite decide_False in Hent by done. pose proof (raw_name_length s sv i) as Hl.
    rewrite wr_in_range by (rewrite Hl; unfold SFS_NAMELEN; lia). ostep. change (Z.to_nat (SFS_NAMELEN - 1)) with 59%nat.
    set (text := <[59%nat := 0]> (sfd_name (raw s sv i))) in *.
    destruct (cut_split text (terminated_name _ Hl)) as [t' Ht'].
    destruct (strcmp_ok (cut text) w t' t (cut_nonzero text) Hw) as (r & Hcmp & Hr). rewrite <- Ht' in Hcmp. rewrite Hcmp. ostep.
    case_bool_decide as Hr0.
    + assert (Hf : s_found q = false).
      { destruct (s_found q); [|done]. destruct Hq as [Hqr Hqe]. rewrite (proj1 Hr Hr0) in Hent.
        assert (Hqn : 0 ≤ s_slot q < nslots sv) by lia. pose proof (proj2 (do_map _ _ _ Hd) _ _ _ _ _ Hqn Hi Hqe Hent). lia. }
      rewrite Hf. cbn [negb c_assert]. ostep. apply returns_ret. eexists. split; [done|]. split; [done|]. split; simpl; [|done].
      split; [lia|]. by rewrite Hent, (proj1 Hr Hr0).
    + apply returns_ret. eexists. split; [done|]. split; [done|]. split; [|done]. simpl.
      destruct (s_found q); [split; [lia|apply Hq]|]. intros j ino Hj. destruct (decide (j = i)) as [->|]; [|apply Hq; lia].
      rewrite Hent. intros [= Hcut _]. by apply Hr0, Hr.
Qed.

(** The result of looking [w] up. *)
Definition lookup_result (M : gmap (list Z) Z) (w : list Z) : Z := match M !! w with Some _ => 0 | None => ENOENT end.

Lemma sfs_dir_findname_ok s sv M w t e0 : dir_ok s sv M → nonzero w →
  returns (sfs_dir_findname present space s sv (w ++ 0 :: t) e0) (λ '(e, s', sv', q),
    same_file s sv s' sv' ∧ e = lookup_result M w ∧ (∀ ino, M !! w = Some ino → s_ino q = ino ∧ 0 ≤ s_slot q < nslots sv ∧ ent s sv (s_slot q) = Some (w, ino)) ∧
    (s_empty q = e0 ∨ (0 ≤ s_empty q < nslots sv ∧ ent s sv (s_empty q) = None))).
Proof.
  intros Hd Hw. pose proof (nslots_range s sv (do_good _ _ _ Hd)) as [Hr _]. unfold sfs_dir_findname.
  rewrite (sfs_dir_nentries_ok s sv M Hd). ostep.
  destruct (for_loop_inv (λ i st, same_file s sv st.1.1 st.1.2 ∧ found_upto (ent s sv) w e0 i st.2) (λ _, False)
    (findname_turn present space (w ++ 0 :: t)) (Z.to_nat (nslots sv)) 0 (s, sv, Search 0 0 e0 false))
    as [([[s' sv'] q] & -> & Hsf & Hq)|(? & _ & [])].
  - split; [apply same_file_refl, Hd|]. split; simpl; [lia|by left].
  - intros i st Hi [Hsf Hq]. left. destruct (findname_turn_ok s sv M w t e0 i st) as (r & Hrun & st' & -> & ?); try done; [lia|]. eauto.
  - simpl in Hsf, Hq. rewrite Z.add_0_l, Z2Nat.id in Hq by lia. destruct Hq as [Hf He]. ostep. apply returns_ret.
    destruct (do_map _ _ _ Hd) as [Hm Hinj]. split; [done|]. unfold lookup_result. destruct (s_found q).
    + destruct Hf as [Hrange Hent]. assert (HM : M !! w = Some (s_ino q)) by (apply Hm; eauto). rewrite HM.
      split; [done|]. split; [|done]. by intros ino [= <-].
    + assert (HM : M !! w = None).
      { destruct (M !! w) as [ino|] eqn:HM; [|done]. apply Hm in HM as (j & Hj & Hent). by destruct (Hf j ino). }
      rewrite HM. done.
Qed.

(** ** Writing a slot *)

Lemma bytes_dir_bytes d : word (sfd_ino d) → bytes_dir (dir_bytes d) = d.
Proof.
  intros Hw. unfold bytes_dir, dir_bytes. rewrite take_app_length' by done. rewrite drop_app_length' by done.
  assert (Hb : bytes_words (words_bytes [sfd_ino d]) = [sfd_ino d]) by (apply bytes_words_bytes; by constructor).
  change (words_bytes [sfd_ino d]) with (word_bytes (sfd_ino d) ++ []) in Hb. rewrite app_nil_r in Hb. rewrite Hb. by destruct d.
Qed.

Lemma fbytes_apart s sv s' sv' p n : (∀ x, p ≤ x < p + n → fbyte s' sv' x = fbyte s sv x) → fbytes s' sv' p n = fbytes s sv p n.
Proof. intros H. unfold fbytes. apply map_ext_in. intros x Hx%list_elem_of_In%elem_of_seqZ. by apply H. Qed.

(** Why an entry cannot be written: the disk or the directory is full. *)
Definition no_room (s : sfs_fs) (sv : sfs_vnode) (e : Z) : Prop :=
  (e = ENOSPC ∧ ∀ j, 0 ≤ j < sp_nblocks s → marked s j) ∨ (e = EINVAL ∧ nslots sv = 1144).

(** Slot [slot] says [d], and the others what they said. *)
Definition wrote (s : sfs_fs) (sv : sfs_vnode) (slot : Z) (d : sfs_dir) (s' : sfs_fs) (sv' : sfs_vnode) : Prop :=
  changes s sv s' sv' ∧ good_file s' sv' ∧ sfi_size (sv_i sv') = sfi_size (sv_i sv) `max` (slot * 64 + 64) ∧
  ∀ i, 0 ≤ i → raw s' sv' i = if decide (i = slot) then d else raw s sv i.

Lemma wrote_dir s sv slot d s' sv' M M' : dir_ok s sv M → wrote s sv slot d s' sv' → 0 ≤ slot ≤ nslots sv →
  (∀ e' n', n' = nslots sv `max` (slot + 1) → (∀ i, 0 ≤ i → e' i = if decide (i = slot) then slot_of d else ent s sv i) → holds e' n' M') →
  dir_ok s' sv' M'.
Proof.
  intros [Hg Ht Hmod Hm] (Hch & Hg' & Hsz & Hraw) Hslot Hh. split; [done| | |].
  - pose proof (ch_meta _ _ _ _ Hch) as [= -> _]. done.
  - rewrite Hsz. destruct (Z.max_spec (sfi_size (sv_i sv)) (slot * 64 + 64)) as [[_ ->]|[_ ->]]; [|done]. Z.to_euclidean_division_equations. lia.
  - apply Hh.
    + unfold nslots. rewrite Hsz. Z.to_euclidean_division_equations. lia.
    + intros i Hi. unfold ent. rewrite Hraw by done. by case_decide.
Qed.

Lemma sfs_writedir_ok s sv d slot : good_file s sv → sfi_size (sv_i sv) mod 64 = 0 → 0 ≤ slot ≤ nslots sv →
  length (sfd_name d) = 60%nat → word (sfd_ino d) →
  returns (sfs_writedir present space s sv d slot) (λ '(e, s', sv'),
    (e = 0 ∧ wrote s sv slot d s' sv') ∨ (e ≠ 0 ∧ same_file s sv s' sv' ∧ no_room s' sv' e ∧ (slot < nslots sv → ent s sv slot = None))).
Proof.
  intros Hg Hmod Hslot Hl Hw. pose proof (nslots_range s sv Hg) as [Hr Hr2]. pose proof Hg as (Hs & Hf & Hsz).
  assert (Hns : nslots sv * 64 = sfi_size (sv_i sv)) by (unfold nslots; Z.to_euclidean_division_equations; lia).
  unfold sfs_writedir. rewrite bool_decide_eq_true_2 by lia. cbn [c_assert]. ostep. rewrite entry_pos by lia.
  set (m := store ∅ DBUF (dir_bytes d)). set (u := mk_kuio DBUF DIRSIZE (slot * 64) UIO_WRITE).
  assert (Hu : request present space u UIO_WRITE) by (apply entry_request; unfold MAXFILE; lia).
  destruct Hu as [Huw Hud _ _ Hua]. destruct (decide (slot = 1144)) as [->|Hne].
  - rewrite sfs_io_write_past; try done; [|unfold MAXFILE in *; lia]. ostep. apply returns_ret. right.
    split_and!; [done|by apply same_file_refl|right; split; [done|lia]|lia].
  - destruct (sfs_io_write_piece present space s sv m u) as (e & s' & sv1 & k & -> & Hcase & Hev & Hb); try done; try (simpl; lia).
    { unfold MAXFILE. simpl. unfold DIRSIZE. lia. }
    { simpl. unfold DIRSIZE. Z.to_euclidean_division_equations. lia. }
    ostep. destruct Hcase as [[-> ->]|(-> & -> & Hfull & Hz)].
    + rewrite (bool_decide_eq_false_2 (0 ≠ 0)) by tauto. rewrite bool_decide_eq_false_2 by (simpl; lia). apply returns_ret. left.
      split; [done|]. unfold wrote, good_file. rewrite resize_size, (ev_size _ _ _ _ Hev). cbn [uio_offset uio_resid mk_kuio u].
      split_and!; [by apply changes_resize, changes_evolves|apply Hev|apply resize_file, Hev|unfold DIRSIZE, MAXFILE in *; lia..|done|].
      assert (Hby : ∀ p, 0 ≤ p → fbyte s' (resize (slot * 64) DIRSIZE sv1) p =
        if decide (slot * 64 ≤ p < slot * 64 + 64) then peek m (DBUF + (p - slot * 64)) else fbyte s sv p).
      { intros p Hp. rewrite resize_fbyte. by apply Hb. }
      intros i Hi. unfold raw. case_decide as Hd.
      * subst i. rewrite (fbytes_written s sv s' _ m DBUF (slot * 64) 64) by (done || lia). change (Z.to_nat 64) with 64%nat.
        replace 64%nat with (length (dir_bytes d)) by (unfold dir_bytes; by rewrite length_app, Hl). unfold m. rewrite load_store. by apply bytes_dir_bytes.
      * f_equal. apply fbytes_apart. intros x Hx. rewrite Hby, decide_False by lia. done.
    + rewrite bool_decide_eq_true_2 by done. apply returns_ret. right.
      assert (Hsf : same_file s sv s' sv1) by (split; [done|]; intros p Hp; rewrite Hb, decide_False by lia; done).
      replace (resize (uio_offset u) 0 sv1) with sv1. { split_and!; [done|done|by left|]. intros _. apply ent_hole; [lia|exact Hz]. }
      unfold resize. rewrite decide_False; [done|]. rewrite (ev_size _ _ _ _ Hev). simpl. lia.
Qed.

(** ** Linking and unlinking *)

(** The name is legal and short enough for an entry. *)
Definition name_text (w : list Z) : list Z := w ++ 0 :: replicate (59 - length w) 0.

Lemma name_text_slot w ino : nonzero w → (length w ≤ 59)%nat → ino ≠ 0 → slot_of (SfsDir ino (name_text w)) = Some (w, ino).
Proof.
  intros Hw Hl Hi. unfold slot_of, SFS_NOINO. simpl. rewrite decide_False by done. do 2 f_equal. unfold name_text.
  destruct (decide (length w = 59%nat)) as [He|He].
  - rewrite insert_app_r_alt by lia. rewrite He. simpl. rewrite cut_app; done.
  - rewrite insert_app_r_alt by lia. replace (59 - length w)%nat with (S (58 - length w)) by lia. simpl. by rewrite cut_app.
Qed.

Lemma strcpy_name w t : nonzero w → (length w ≤ 59)%nat → strcpy (replicate (Z.to_nat SFS_NAMELEN) 0) (w ++ 0 :: t) = Ret (name_text w).
Proof.
  intros Hw Hl. unfold strcpy. change (Z.to_nat SFS_NAMELEN) with 60%nat. rewrite strcpy_at_ok by (done || rewrite length_replicate; lia).
  change (Z.to_nat 0) with 0%nat. rewrite take_0, drop_replicate. simpl app. unfold name_text. do 4 f_equal. lia.
Qed.

(** What sfs_dir_link does: it refuses names that exist and names that are too
    long, and otherwise enters the name or finds no room. *)
Definition link_post (s : sfs_fs) (sv : sfs_vnode) (M : gmap (list Z) Z) (w : list Z) (ino e : Z) (s' : sfs_fs) (sv' : sfs_vnode) (slot : Z) : Prop :=
  changes s sv s' sv' ∧
  if decide (e = 0) then M !! w = None ∧ (length w ≤ 59)%nat ∧ dir_ok s' sv' (<[w := ino]> M) ∧
    0 ≤ slot < nslots sv' ∧ ent s' sv' slot = Some (w, ino) ∧ (∀ i x, 0 ≤ i < nslots sv → ent s sv i = Some x → ent s' sv' i = Some x) ∧ nslots sv ≤ nslots sv'
  else same_file s sv s' sv' ∧
    ((e = EEXIST ∧ is_Some (M !! w)) ∨ (e = ENAMETOOLONG ∧ M !! w = None ∧ (59 < length w)%nat) ∨ (M !! w = None ∧ no_room s' sv' e)).

Lemma same_file_changes s sv s' sv' : same_file s sv s' sv' → changes s sv s' sv'.
Proof. intros [? _]. by apply changes_evolves. Qed.

Lemma sfs_dir_link_ok s sv M w t ino : dir_ok s sv M → nonzero w → 0 < ino < 2 ^ 32 →
  returns (sfs_dir_link present space s sv (w ++ 0 :: t) ino) (λ '(e, s', sv', slot), link_post s sv M w ino e s' sv' slot).
Proof.
  intros Hd Hw Hino. unfold sfs_dir_link. eapply returns_bind; [by apply (sfs_dir_findname_ok s sv M w t)|].
  intros [[[e s1] sv1] q] (Hsf & -> & Hfound & Hempty). unfold lookup_result. pose proof (same_file_changes _ _ _ _ Hsf) as Hch1.
  destruct (M !! w) as [a|] eqn:HM.
  { apply returns_ret. split; [done|]. cbn. split; [done|]. left. rewrite HM. eauto. }
  change (bool_decide (ENOENT ≠ 0) && bool_decide (ENOENT ≠ ENOENT)) with false. change (bool_decide (ENOENT = 0)) with false. cbv iota.
  rewrite strlen_ok by done. ostep. case_bool_decide as Hlen.
  { apply returns_ret. split; [done|]. cbn. split; [done|]. right. left. unfold SFS_NAMELEN in Hlen. split_and!; [done|done|lia]. }
  assert (Hl : (length w ≤ 59)%nat) by (unfold SFS_NAMELEN in Hlen; lia). pose proof (same_file_dir _ _ _ _ _ Hsf Hd) as Hd1.
  assert (Hn : nslots sv1 = nslots sv) by (unfold nslots; by rewrite (ev_size _ _ _ _ (proj1 Hsf))).
  pose proof (nslots_range s sv (do_good _ _ _ Hd)) as [Hr _].
  assert (Hslot : ∃ slot, (if bool_decide (s_empty q < 0) then sfs_dir_nentries sv1 else Ret (s_empty q)) = Ret slot ∧
    0 ≤ slot ≤ nslots sv1 ∧ (slot < nslots sv1 → ent s1 sv1 slot = None)).
  { rewrite (sfs_dir_nentries_ok s1 sv1 M Hd1). destruct Hempty as [->|[Hre Hent]].
    - exists (nslots sv1). split; [done|]. split; [lia|]. lia.
    - exists (s_empty q). rewrite bool_decide_eq_false_2 by lia. split; [done|]. split; [lia|]. intros _. unfold ent.
      by rewrite (same_file_raw s sv) by (done || lia). }
  destruct Hslot as (slot & -> & Hsr & Hfree). ostep. rewrite strcpy_name by done. ostep.
  eapply returns_bind; [apply sfs_writedir_ok; [apply Hd1|apply Hd1|done|unfold name_text; simpl; rewrite length_app; simpl; rewrite length_replicate; lia|unfold word; simpl; lia]|].
  intros [[e s2] sv2] [[-> Hwr]|(He & Hsf2 & Hno & _)]; apply returns_ret.
  - pose proof Hwr as (Hch2 & _ & Hsz & Hraw). split; [by eapply changes_trans|]. cbn. split_and!; try done.
    + eapply (wrote_dir s1 sv1 slot); try done. intros e' n' Hn' He'.
      eapply (holds_add (ent s1 sv1) e' (nslots sv1) n' M slot w ino); try done; [apply Hd1| |].
      * intros i Hi. rewrite He' by lia. case_decide; [|done]. by apply name_text_slot; [..|lia].
      * rewrite He', decide_True by (done || lia). by apply name_text_slot; [..|lia].
    + lia.
    + unfold nslots. rewrite Hsz. Z.to_euclidean_division_equations. lia.
    + unfold ent. rewrite Hraw, decide_True by (done || lia). by apply name_text_slot; [..|lia].
    + intros i x Hi Hx. assert (Hx1 : ent s1 sv1 i = Some x) by (unfold ent; by rewrite (same_file_raw s sv) by (done || lia)).
      unfold ent. rewrite Hraw, decide_False; [done|intros ->; rewrite Hfree in Hx1 by lia; done|lia].
    + rewrite <- Hn. unfold nslots. rewrite Hsz. apply Z.div_le_mono; lia.
  - split; [eapply changes_trans; [done|by apply same_file_changes]|]. rewrite decide_False by done.
    split; [by eapply same_file_trans|]. right. right. done.
Qed.

(** A name can always be taken out: its slot lies in a block the directory has. *)
Lemma sfs_dir_unlink_ok s sv M slot w ino : dir_ok s sv M → 0 ≤ slot < nslots sv → ent s sv slot = Some (w, ino) →
  returns (sfs_dir_unlink present space s sv slot) (λ '(e, s', sv'), e = 0 ∧ changes s sv s' sv' ∧ dir_ok s' sv' (delete w M)).
Proof.
  intros Hd Hslot Hent. unfold sfs_dir_unlink. eapply returns_mono.
  - apply sfs_writedir_ok; [apply Hd|apply Hd|lia|done|by unfold word].
  - intros [[e s'] sv'] [[-> Hwr]|(_ & _ & _ & Hfree)]; [|rewrite Hfree in Hent by lia; done].
    split; [done|]. split; [apply Hwr|]. eapply (wrote_dir s sv slot); try done; [lia|]. intros e' n' -> He'.
    replace (nslots sv `max` (slot + 1)) with (nslots sv) by lia.
    eapply (holds_del (ent s sv) e'); [apply Hd|done|done|]. intros i Hi. rewrite He' by lia. by case_decide.
Qed.
End ops.
