(* ===== verification/SfsVnode.v ===== *)
(** * Vnodes of the simple file system: fs/vfs/vnode.c and the vnode operations
    of fs/sfs/sfs_vnode.c

    A vnode is an object in the kernel heap, found by its address; the table of
    loaded vnodes is the array [sfs_vnodes] of addresses. struct vnode lies
    inside struct sfs_vnode, so that one object holds both. [nomem n] says
    whether the [n]-th call of kmalloc fails. The code runs without
    interruption, as it does not lock anything but the counts. *)

From S2P Require Import Prelude Bitmap CArray KHeap KHeapSpec Coremap Uio CString Sfs SfsDir.

(** ** State *)

Inductive vnode_ops := sfs_fileops | sfs_dirops.

(** The operations whose entries do nothing in both tables. *)
Inductive vop := vop_readlink | vop_getdirentry | vop_ioctl | vop_mmap | vop_namefile | vop_symlink | vop_mkdir | vop_rmdir.

Record vnode := Vnode { vn_refcount : Z; vn_opencount : Z; vn_ops : vnode_ops; vn_data : sfs_vnode }.

(** The superblock but for [sp_nblocks]. *)
Record sfs_super := SfsSuper { sp_magic : Z; sp_volname : list Z; sp_reserved : list Z }.

Record sfs := SfsMount {
  sfs_d : sfs_fs;
  sfs_sp : sfs_super;
  sfs_superdirty : bool;
  sfs_vnodes : array nat;
  vheap : gmap nat vnode;
  nalloc : nat
}.

Definition set_d (d : sfs_fs) (st : sfs) : sfs := SfsMount d (sfs_sp st) (sfs_superdirty st) (sfs_vnodes st) (vheap st) (nalloc st).
Definition set_superdirty (b : bool) (st : sfs) : sfs := SfsMount (sfs_d st) (sfs_sp st) b (sfs_vnodes st) (vheap st) (nalloc st).
Definition set_vnodes (a : array nat) (st : sfs) : sfs := SfsMount (sfs_d st) (sfs_sp st) (sfs_superdirty st) a (vheap st) (nalloc st).
Definition set_vheap (h : gmap nat vnode) (st : sfs) : sfs := SfsMount (sfs_d st) (sfs_sp st) (sfs_superdirty st) (sfs_vnodes st) h (nalloc st).
Definition set_nalloc (n : nat) (st : sfs) : sfs := SfsMount (sfs_d st) (sfs_sp st) (sfs_superdirty st) (sfs_vnodes st) (vheap st) n.

Definition vget (p : nat) (st : sfs) : outcome vnode := match vheap st !! p with Some v => Ret v | None => Wild end.
Definition vput (p : nat) (v : vnode) (st : sfs) : sfs := set_vheap (<[p := v]> (vheap st)) st.

Definition with_refcount (n : Z) (v : vnode) : vnode := Vnode n (vn_opencount v) (vn_ops v) (vn_data v).
Definition with_opencount (n : Z) (v : vnode) : vnode := Vnode (vn_refcount v) n (vn_ops v) (vn_data v).
Definition with_data (sv : sfs_vnode) (v : vnode) : vnode := Vnode (vn_refcount v) (vn_opencount v) (vn_ops v) sv.

(** [sfi_linkcount] set, the inode marked dirty or left as it is. *)
Definition with_linkcount (n : Z) (dirty : bool) (sv : sfs_vnode) : sfs_vnode :=
  SfsVnode (SfsInode (sfi_size (sv_i sv)) (sfi_type (sv_i sv)) n (sfi_direct (sv_i sv)) (sfi_indirect (sv_i sv)) (sfi_waste (sv_i sv)))
    (sv_ino sv) dirty.

(** An inode out of its block. *)
Definition bytes_inode (l : list Z) : sfs_inode :=
  match bytes_words l with
  | size :: tl :: ws => SfsInode size (tl / 2 ^ 16) (tl mod 2 ^ 16) (take 15 ws) (default 0 (ws !! 15%nat)) (drop 16 ws)
  | _ => SfsInode 0 0 0 [] 0 []
  end.

Section vnodes.
Context (present : Z → bool) (space : Z) (nomem : nat → bool).

(** The address of the new object, if there is memory. *)
Definition kmalloc (st : sfs) : option nat * sfs :=
  (if nomem (nalloc st) then None else Some (nalloc st), set_nalloc (S (nalloc st)) st).

(** ** vnode.c *)

(** [vn_countlock]: the lock and a copy of its name. *)
Definition create_countlock (st : sfs) : bool * sfs :=
  match kmalloc st with
  | (Some _, st) => match kmalloc st with (Some _, st) => (true, st) | (None, st) => (false, st) end
  | (None, st) => (false, st)
  end.

Definition vnode_init (ops : vnode_ops) (sv : sfs_vnode) (st : sfs) : result vnode * sfs :=
  match create_countlock st with
  | (true, st) => (inr (Vnode 1 0 ops sv), st)
  | (false, st) => (inl ENOMEM, st)
  end.

(** The checks; the object itself is freed by the caller. *)
Definition vnode_kill (v : vnode) : outcome () :=
  c_assert (bool_decide (vn_refcount v = 1));;
  c_assert (bool_decide (vn_opencount v = 0)).

Definition vnode_incref (p : nat) (st : sfs) : outcome sfs :=
  v ← vget p st;
  Ret (vput p (with_refcount (s32 (vn_refcount v + 1)) v) st).

(** What vnode_check tests before an operation of the vnode is called. *)
Definition vnode_check (p : nat) (reclaim : bool) (st : sfs) : outcome vnode :=
  v ← vget p st;
  if bool_decide (vn_refcount v < 0) then Panic
  else if bool_decide (vn_refcount v = 0) && negb reclaim then Panic
  else if bool_decide (vn_opencount v < 0) then Panic
  else Ret v.

(** ** Operations of files *)

Definition sfs_fsync (p : nat) (st : sfs) : outcome (Z * sfs) :=
  v ← vget p st;
  '(e, d, sv) ← sfs_sync_inode present space (sfs_d st) (vn_data v);
  Ret (e, vput p (with_data sv v) (set_d d st)).

Definition VOP_FSYNC (p : nat) (st : sfs) : outcome (Z * sfs) := vnode_check p false st;; sfs_fsync p st.

Definition sfs_close (p : nat) (st : sfs) : outcome (Z * sfs) := VOP_FSYNC p st.

Definition VOP_TRUNCATE (p : nat) (len : Z) (st : sfs) : outcome (Z * sfs) :=
  v ← vnode_check p false st;
  match vn_ops v with
  | sfs_fileops =>
      '(e, d, sv) ← sfs_truncate present space len (sfs_d st) (vn_data v);
      Ret (e, vput p (with_data sv v) (set_d d st))
  | sfs_dirops => Ret (EISDIR, st)
  end.

(** sfs_read and sfs_write, with the memory the uio is about. *)
Definition vop_io (rw : uio_rw) (p : nat) (m : memory) (u : uio) (st : sfs) : outcome (Z * (memory * uio * sfs)) :=
  v ← vnode_check p false st;
  match vn_ops v with
  | sfs_fileops =>
      c_assert (bool_decide (uio_dir u = rw));;
      '(e, (d, sv, m, u)) ← sfs_io present space (sfs_d st, vn_data v, m, u);
      Ret (e, (m, u, vput p (with_data sv v) (set_d d st)))
  | sfs_dirops => Ret (EISDIR, (m, u, st))
  end.
Definition VOP_READ := vop_io UIO_READ.
Definition VOP_WRITE := vop_io UIO_WRITE.

Definition S_IFREG : Z := 4096.
Definition S_IFDIR : Z := 8192.
Definition O_ACCMODE : Z := 3.
Definition O_APPEND : Z := 32.

Definition sfs_gettype (p : nat) (st : sfs) : outcome Z :=
  v ← vget p st;
  if bool_decide (sfi_type (sv_i (vn_data v)) = SFS_TYPE_FILE) then Ret S_IFREG
  else if bool_decide (sfi_type (sv_i (vn_data v)) = SFS_TYPE_DIR) then Ret S_IFDIR
  else Panic.
Definition VOP_GETTYPE (p : nat) (st : sfs) : outcome Z := vnode_check p false st;; sfs_gettype p st.

(** Type and size; the other fields are 0. *)
Definition sfs_stat (p : nat) (st : sfs) : outcome (Z * Z) :=
  mode ← VOP_GETTYPE p st;
  v ← vget p st;
  Ret (mode, s32 (sfi_size (sv_i (vn_data v)))).

Definition VOP_STAT (p : nat) (st : sfs) : outcome (Z * Z) := vnode_check p false st;; sfs_stat p st.

Definition VOP_TRYSEEK (p : nat) (pos : Z) (st : sfs) : outcome Z :=
  v ← vnode_check p false st;
  Ret (match vn_ops v with
       | sfs_fileops => if bool_decide (pos < 0) then EINVAL else 0
       | sfs_dirops => EUNIMP
       end).

(** sfs_open and sfs_opendir. *)
Definition VOP_OPEN (p : nat) (openflags : Z) (st : sfs) : outcome Z :=
  v ← vnode_check p false st;
  Ret (match vn_ops v with
       | sfs_fileops => if bool_decide (Z.land openflags O_APPEND ≠ 0) then EUNIMP else 0
       | sfs_dirops =>
           if bool_decide (Z.land openflags O_ACCMODE ≠ 0) then EISDIR
           else if bool_decide (Z.land openflags O_APPEND ≠ 0) then EISDIR else 0
       end).

(** ** Reclaiming a vnode *)

(** The place of the vnode in the table. *)
Definition find_vnode (p : nat) (st : sfs) : outcome Z :=
  r ← for_loop (Z.to_nat (array_getnum (sfs_vnodes st))) 0
        (λ i (_ : ()), sv2 ← array_getguy (sfs_vnodes st) i; Ret (if decide (sv2 = p) then inr i else inl ())) ();
  match r with inr ix => Ret ix | inl _ => Panic end.

Definition sfs_reclaim (p : nat) (st : sfs) : outcome (Z * sfs) :=
  v ← vget p st;
  if bool_decide (vn_refcount v ≠ 1) then
    c_assert (bool_decide (1 < vn_refcount v));;
    Ret (EBUSY, vput p (with_refcount (vn_refcount v - 1) v) st)
  else
    '(result, st) ← (if bool_decide (sfi_linkcount (sv_i (vn_data v)) = 0) then VOP_TRUNCATE p 0 st else Ret (0, st));
    if bool_decide (result ≠ 0) then Ret (result, st)
    else
      '(result, st) ← sfs_fsync p st;
      if bool_decide (result ≠ 0) then Ret (result, st)
      else
        v ← vget p st;
        d ← (if bool_decide (sfi_linkcount (sv_i (vn_data v)) = 0) then sfs_bfree (sfs_d st) (sv_ino (vn_data v)) else Ret (sfs_d st));
        ix ← find_vnode p st;
        a ← array_remove (sfs_vnodes st) ix;
        vnode_kill v;;
        Ret (0, set_vheap (delete p (vheap st)) (set_vnodes a (set_d d st))).

(** A failure to reclaim is only reported. *)
Definition vnode_decref (p : nat) (st : sfs) : outcome sfs :=
  v ← vget p st;
  c_assert (bool_decide (0 < vn_refcount v));;
  if bool_decide (1 < vn_refcount v) then Ret (vput p (with_refcount (vn_refcount v - 1) v) st)
  else vnode_check p true st;; '(_, st) ← sfs_reclaim p st; Ret st.

Definition vnode_incopen (p : nat) (st : sfs) : outcome sfs :=
  v ← vget p st;
  Ret (vput p (with_opencount (s32 (vn_opencount v + 1)) v) st).

Definition vnode_decopen (p : nat) (st : sfs) : outcome sfs :=
  v ← vget p st;
  c_assert (bool_decide (0 < vn_opencount v));;
  let opencount := vn_opencount v - 1 in
  let st := vput p (with_opencount opencount v) st in
  if bool_decide (0 < opencount) then Ret st
  else vnode_check p false st;; '(_, st) ← sfs_close p st; Ret st.

(** ** Loading a vnode *)

Definition load_turn (ino forcetype i : Z) (st : sfs) : outcome (sfs + sfs * nat) :=
  p ← array_getguy (sfs_vnodes st) i;
  v ← vget p st;
  used ← sfs_bused (sfs_d st) (sv_ino (vn_data v));
  if negb used then Panic
  else if bool_decide (sv_ino (vn_data v) = ino) then
    c_assert (bool_decide (forcetype = SFS_TYPE_INVAL));;
    st ← vnode_incref p st;
    Ret (inr (st, p))
  else Ret (inl st).

Definition set_type (ty : Z) (i : sfs_inode) : sfs_inode :=
  SfsInode (sfi_size i) ty (sfi_linkcount i) (sfi_direct i) (sfi_indirect i) (sfi_waste i).

(** The new vnode for the inode [i], at the address [p]. *)
Definition enter_vnode (p : nat) (ino : Z) (i : sfs_inode) (dirty : bool) (st : sfs) : outcome (sfs * result nat) :=
  ops ← (if bool_decide (sfi_type i = SFS_TYPE_FILE) then Ret sfs_fileops
         else if bool_decide (sfi_type i = SFS_TYPE_DIR) then Ret sfs_dirops else Panic);
  let '(r, st) := vnode_init ops (SfsVnode i ino dirty) st in
  match r with
  | inl e => Ret (st, inl e)
  | inr v =>
      '(a, result) ← array_add (λ _, negb (nomem (nalloc st))) (sfs_vnodes st) p;
      let st := set_nalloc (S (nalloc st)) (set_vnodes a st) in
      if bool_decide (result ≠ 0) then vnode_kill v;; Ret (st, inl result)
      else Ret (vput p v st, inr p)
  end.

Definition sfs_loadvnode (ino forcetype : Z) (st : sfs) : outcome (sfs * result nat) :=
  r ← for_loop (Z.to_nat (array_getnum (sfs_vnodes st))) 0 (load_turn ino forcetype) st;
  match r with
  | inr (st, p) => Ret (st, inr p)
  | inl st =>
      let '(m, st) := kmalloc st in
      match m with
      | None => Ret (st, inl ENOMEM)
      | Some p =>
          used ← sfs_bused (sfs_d st) ino;
          if negb used then Panic
          else
            '(e, d, blk) ← sfs_rblock present space (sfs_d st) zero_block ino;
            let st := set_d d st in
            if bool_decide (e ≠ 0) then Ret (st, inl e)
            else
              let i := bytes_inode blk in
              if bool_decide (forcetype ≠ SFS_TYPE_INVAL) then
                c_assert (bool_decide (sfi_type i = SFS_TYPE_INVAL));;
                enter_vnode p ino (set_type forcetype i) true st
              else enter_vnode p ino i false st
      end
  end.

Definition sfs_getroot (st : sfs) : outcome (sfs * nat) :=
  '(st, r) ← sfs_loadvnode SFS_ROOT_LOCATION SFS_TYPE_INVAL st;
  match r with inl _ => Panic | inr p => Ret (st, p) end.

(** ** Directory operations on the directory at [d] *)

Definition dir_findname (d : nat) (name : list Z) (st : sfs) : outcome (Z * sfs * search) :=
  v ← vget d st;
  '(e, s, sv, q) ← sfs_dir_findname present space (sfs_d st) (vn_data v) name 0;
  Ret (e, vput d (with_data sv v) (set_d s st), q).

Definition dir_link (d : nat) (name : list Z) (ino : Z) (st : sfs) : outcome (Z * sfs * Z) :=
  v ← vget d st;
  '(e, s, sv, slot) ← sfs_dir_link present space (sfs_d st) (vn_data v) name ino;
  Ret (e, vput d (with_data sv v) (set_d s st), slot).

Definition dir_unlink (d : nat) (slot : Z) (st : sfs) : outcome (Z * sfs) :=
  v ← vget d st;
  '(e, s, sv) ← sfs_dir_unlink present space (sfs_d st) (vn_data v) slot;
  Ret (e, vput d (with_data sv v) (set_d s st)).

(** [sfi_linkcount] of the vnode at [p] changed by [n]. *)
Definition add_links (p : nat) (n : Z) (dirty : option bool) (st : sfs) : outcome sfs :=
  v ← vget p st;
  let sv := vn_data v in
  Ret (vput p (with_data (with_linkcount (u16 (sfi_linkcount (sv_i sv) + n)) (default (sv_dirty sv) dirty) sv) v) st).

(** The vnode and the slot of a name. *)
Definition sfs_lookonce (d : nat) (name : list Z) (st : sfs) : outcome (sfs * result (nat * Z)) :=
  '(e, st, q) ← dir_findname d name st;
  if bool_decide (e ≠ 0) then Ret (st, inl e)
  else
    '(st, r) ← sfs_loadvnode (s_ino q) SFS_TYPE_INVAL st;
    match r with
    | inl e => Ret (st, inl e)
    | inr p =>
        v ← vget p st;
        if bool_decide (sfi_linkcount (sv_i (vn_data v)) = 0) then Panic else Ret (st, inr (p, s_slot q))
    end.

Definition sfs_makeobj (type : Z) (st : sfs) : outcome (sfs * result nat) :=
  '(d, r) ← sfs_balloc present space (sfs_d st);
  let st := set_d d st in
  match r with
  | inl e => Ret (st, inl e)
  | inr ino => sfs_loadvnode ino type st
  end.

Definition sfs_creat (d : nat) (name : list Z) (excl : bool) (st : sfs) : outcome (sfs * result nat) :=
  '(result, st, q) ← dir_findname d name st;
  if bool_decide (result ≠ 0) && bool_decide (result ≠ ENOENT) then Ret (st, inl result)
  else if bool_decide (result = 0) && excl then Ret (st, inl EEXIST)
  else if bool_decide (result = 0) then sfs_loadvnode (s_ino q) SFS_TYPE_INVAL st
  else
    '(st, r) ← sfs_makeobj SFS_TYPE_FILE st;
    match r with
    | inl e => Ret (st, inl e)
    | inr newguy =>
        v ← vget newguy st;
        '(result, st, _) ← dir_link d name (sv_ino (vn_data v)) st;
        if bool_decide (result ≠ 0) then st ← vnode_decref newguy st; Ret (st, inl result)
        else st ← add_links newguy 1 (Some true) st; Ret (st, inr newguy)
    end.

Definition sfs_link (dir : nat) (name : list Z) (file : nat) (st : sfs) : outcome (Z * sfs) :=
  f ← vget file st;
  '(result, st, _) ← dir_link dir name (sv_ino (vn_data f)) st;
  if bool_decide (result ≠ 0) then Ret (result, st)
  else st ← add_links file 1 (Some true) st; Ret (0, st).

Definition sfs_remove (dir : nat) (name : list Z) (st : sfs) : outcome (Z * sfs) :=
  '(st, r) ← sfs_lookonce dir name st;
  match r with
  | inl e => Ret (e, st)
  | inr (victim, slot) =>
      '(result, st) ← dir_unlink dir slot st;
      st ← (if bool_decide (result = 0) then
              v ← vget victim st;
              c_assert (bool_decide (0 < sfi_linkcount (sv_i (vn_data v))));;
              add_links victim (-1) (Some true) st
            else Ret st);
      st ← vnode_decref victim st;
      Ret (result, st)
  end.

Definition sfs_rename (d1 : nat) (n1 : list Z) (d2 : nat) (n2 : list Z) (st : sfs) : outcome (Z * sfs) :=
  c_assert (bool_decide (d1 = d2));;
  v ← vget d1 st;
  c_assert (bool_decide (sv_ino (vn_data v) = SFS_ROOT_LOCATION));;
  '(st, r) ← sfs_lookonce d1 n1 st;
  match r with
  | inl e => Ret (e, st)
  | inr (g1, slot1) =>
      g ← vget g1 st;
      c_assert (bool_decide (sfi_type (sv_i (vn_data g)) = SFS_TYPE_FILE));;
      '(result, st, slot2) ← dir_link d1 n2 (sv_ino (vn_data g)) st;
      if bool_decide (result ≠ 0) then st ← vnode_decref g1 st; Ret (result, st)
      else
        st ← add_links g1 1 (Some true) st;
        '(result, st) ← dir_unlink d1 slot1 st;
        if bool_decide (result ≠ 0) then
          '(result2, st) ← dir_unlink d1 slot2 st;
          if bool_decide (result2 ≠ 0) then Panic
          else st ← add_links g1 (-1) None st; st ← vnode_decref g1 st; Ret (result, st)
        else
          g ← vget g1 st;
          c_assert (bool_decide (0 < sfi_linkcount (sv_i (vn_data g))));;
          st ← add_links g1 (-1) (Some true) st;
          st ← vnode_decref g1 st;
          Ret (0, st)
  end.

(** [buf] of [len buf] bytes gets the last component of the path. *)
Definition sfs_lookparent (p : nat) (path buf : list Z) (st : sfs) : outcome (sfs * list Z * result nat) :=
  v ← vget p st;
  if bool_decide (sfi_type (sv_i (vn_data v)) ≠ SFS_TYPE_DIR) then Ret (st, buf, inl ENOTDIR)
  else
    n ← strlen path;
    if bool_decide (len buf < n + 1) then Ret (st, buf, inl ENAMETOOLONG)
    else
      buf ← strcpy buf path;
      st ← vnode_incref p st;
      Ret (st, buf, inr p).

Definition sfs_lookup (p : nat) (path : list Z) (st : sfs) : outcome (sfs * result nat) :=
  v ← vget p st;
  if bool_decide (sfi_type (sv_i (vn_data v)) ≠ SFS_TYPE_DIR) then Ret (st, inl ENOTDIR)
  else
    '(st, r) ← sfs_lookonce p path st;
    Ret (st, match r with inl e => inl e | inr (final, _) => inr final end).

(** The root directory is the only one: its path is the empty string. *)
Definition sfs_namefile (p : nat) (st : sfs) : outcome Z :=
  v ← vget p st;
  c_assert (bool_decide (sv_ino (vn_data v) = SFS_ROOT_LOCATION));;
  Ret 0.

(** ** The operation tables: directories only *)

Definition if_dir {A} (p : nat) (st : sfs) (notdir run : outcome A) : outcome A :=
  v ← vnode_check p false st;
  match vn_ops v with sfs_fileops => notdir | sfs_dirops => run end.

Definition VOP_LOOKUP (p : nat) (path : list Z) (st : sfs) := if_dir p st (Ret (st, inl ENOTDIR)) (sfs_lookup p path st).
Definition VOP_LOOKPARENT (p : nat) (path buf : list Z) (st : sfs) :=
  if_dir p st (Ret (st, buf, inl ENOTDIR)) (sfs_lookparent p path buf st).
Definition VOP_CREAT (p : nat) (name : list Z) (excl : bool) (st : sfs) := if_dir p st (Ret (st, inl ENOTDIR)) (sfs_creat p name excl st).
Definition VOP_LINK (p : nat) (name : list Z) (file : nat) (st : sfs) := if_dir p st (Ret (ENOTDIR, st)) (sfs_link p name file st).
Definition VOP_REMOVE (p : nat) (name : list Z) (st : sfs) := if_dir p st (Ret (ENOTDIR, st)) (sfs_remove p name st).
Definition VOP_RENAME (d1 : nat) (n1 : list Z) (d2 : nat) (n2 : list Z) (st : sfs) :=
  if_dir d1 st (Ret (ENOTDIR, st)) (sfs_rename d1 n1 d2 n2 st).

(** The entries that do nothing. *)
Definition VOP_OTHER (o : vop) (p : nat) (st : sfs) : outcome Z :=
  v ← vnode_check p false st;
  match vn_ops v, o with
  | _, vop_ioctl => Ret EINVAL
  | sfs_fileops, vop_mmap => Ret EUNIMP
  | sfs_fileops, _ => Ret ENOTDIR
  | sfs_dirops, (vop_readlink | vop_mmap) => Ret EISDIR
  | sfs_dirops, vop_namefile => sfs_namefile p st
  | sfs_dirops, _ => Ret EUNIMP
  end.
End vnodes.
