(* ===== verification/SfsMount.v ===== *)
(** * Mounting: fs/sfs/sfs_fs.c

    The free map and the superblock between memory and disk, sync, mount and
    unmount. The result of mounting is the state of SfsVnode.v. *)

From S2P Require Import Prelude Bitmap CArray KHeap KHeapSpec Coremap Uio CString Sfs SfsDir SfsVnode.

Definition SFS_SB_LOCATION : Z := 0.
Definition SFS_MAP_LOCATION : Z := 2.
Definition SFS_MAGIC : Z := 0xabadf001.
Definition SFS_VOLNAME_SIZE : Z := 32.
Definition SFS_BLOCKBITS : Z := 4096.

Definition SFS_BITMAPSIZE (nblocks : Z) : Z := u32 (u32 (nblocks + SFS_BLOCKBITS - 1) / SFS_BLOCKBITS * SFS_BLOCKBITS).
Definition SFS_BITBLOCKS (nblocks : Z) : Z := SFS_BITMAPSIZE nblocks / SFS_BLOCKBITS.

Definition super_bytes (sp : sfs_super) (nblocks : Z) : list Z :=
  word_bytes (sp_magic sp) ++ word_bytes nblocks ++ sp_volname sp ++ words_bytes (sp_reserved sp).

(** The superblock, with its number of blocks. *)
Definition bytes_super (l : list Z) : sfs_super * Z :=
  match bytes_words l with
  | magic :: nblocks :: ws => (SfsSuper magic (take 32 (drop 8 l)) (drop 8 ws), nblocks)
  | _ => (SfsSuper 0 [] [], 0)
  end.

(** Sector [j] of the free map, in memory. *)
Definition map_chunk (fm : bitmap) (j : Z) : outcome (list Z) :=
  if bool_decide ((j + 1) * SFS_BLOCKSIZE ≤ len (bitmap_getdata fm)) then
    Ret (take 512 (drop (Z.to_nat (j * SFS_BLOCKSIZE)) (bitmap_getdata fm)))
  else Wild.
Definition set_chunk (fm : bitmap) (j : Z) (data : list Z) : bitmap :=
  Bitmap (bm_nbits fm) (take (Z.to_nat (j * SFS_BLOCKSIZE)) (bm_v fm) ++ data ++ drop (Z.to_nat (j * SFS_BLOCKSIZE) + length data) (bm_v fm)).
Definition with_freemap (fm : bitmap) (s : sfs_fs) : sfs_fs := SfsFs (sp_nblocks s) (sfs_device s) fm (sfs_freemapdirty s).
Definition clean_freemap (s : sfs_fs) : sfs_fs := SfsFs (sp_nblocks s) (sfs_device s) (sfs_freemap s) false.

Section mount.
Context (present : Z → bool) (space : Z) (nomem : nat → bool).

Definition mapio_turn (rw : uio_rw) (j : Z) (s : sfs_fs) : outcome (sfs_fs + Z * sfs_fs) :=
  ptr ← map_chunk (sfs_freemap s) j;
  '(result, s) ← match rw with
    | UIO_READ =>
        '(e, s, data) ← sfs_rblock present space s ptr (SFS_MAP_LOCATION + j);
        Ret (e, with_freemap (set_chunk (sfs_freemap s) j data) s)
    | UIO_WRITE => sfs_wblock present space s ptr (SFS_MAP_LOCATION + j)
    end;
  Ret (if bool_decide (result ≠ 0) then inr (result, s) else inl s).

Definition sfs_mapio (rw : uio_rw) (s : sfs_fs) : outcome (Z * sfs_fs) :=
  r ← for_loop (Z.to_nat (SFS_BITBLOCKS (sp_nblocks s))) 0 (mapio_turn rw) s;
  Ret (match r with inl s => (0, s) | inr r => r end).

(** ** Sync *)

Definition sync_turn (i : Z) (st : sfs) : outcome sfs :=
  p ← array_getguy (sfs_vnodes st) i;
  '(_, st) ← VOP_FSYNC present space p st;
  Ret st.

Definition sfs_sync (st : sfs) : outcome (Z * sfs) :=
  st ← for_each (Z.to_nat (array_getnum (sfs_vnodes st))) 0 sync_turn st;
  '(result, st) ← (if sfs_freemapdirty (sfs_d st) then
      '(e, d) ← sfs_mapio UIO_WRITE (sfs_d st);
      Ret (e, set_d (if bool_decide (e ≠ 0) then d else clean_freemap d) st)
    else Ret (0, st));
  if bool_decide (result ≠ 0) then Ret (result, st)
  else if sfs_superdirty st then
    '(e, d) ← sfs_wblock present space (sfs_d st) (super_bytes (sfs_sp st) (sp_nblocks (sfs_d st))) SFS_SB_LOCATION;
    let st := set_d d st in
    Ret (if bool_decide (e ≠ 0) then (e, st) else (0, set_superdirty false st))
  else Ret (0, st).

Definition sfs_getvolname (st : sfs) : list Z := sp_volname (sfs_sp st).

(** ** Unmount: the device is left, unless there are vnodes in use *)

Definition sfs_unmount (st : sfs) : outcome (result disk) :=
  if bool_decide (0 < array_getnum (sfs_vnodes st)) then Ret (inl EBUSY)
  else
    c_assert (negb (sfs_superdirty st));;
    c_assert (negb (sfs_freemapdirty (sfs_d st)));;
    Ret (inr (sfs_device (sfs_d st))).

(** ** Mount *)

(** What has been allocated but not filled in yet is not read. *)
Definition bare (dev : disk) : sfs_fs := SfsFs 0 dev (Bitmap 0 []) false.

(** [n]: how many allocations there have been. *)
Definition sfs_domount (d_blocksize : Z) (dev : disk) (n : nat) : outcome (disk * nat * result sfs) :=
  if bool_decide (d_blocksize ≠ SFS_BLOCKSIZE) then Ret (dev, n, inl ENXIO)
  else if nomem n then Ret (dev, S n, inl ENOMEM)
  else
    match array_create (negb (nomem (S n))) with
    | None => Ret (dev, S (S n), inl ENOMEM)
    | Some vnodes =>
        '(e, s, blk) ← sfs_rblock present space (bare dev) zero_block SFS_SB_LOCATION;
        if bool_decide (e ≠ 0) then Ret (sfs_device s, S (S n), inl e)
        else
          let '(sp, nblocks) := bytes_super blk in
          if bool_decide (sp_magic sp ≠ SFS_MAGIC) then Ret (sfs_device s, S (S n), inl EINVAL)
          else
            volname ← wr (sp_volname sp) (SFS_VOLNAME_SIZE - 1) 0;
            let sp := SfsSuper (sp_magic sp) volname (sp_reserved sp) in
            fm ← bitmap_create (negb (nomem (S (S n)))) (negb (nomem (S (S (S n))))) (SFS_BITMAPSIZE nblocks);
            match fm with
            | None => Ret (sfs_device s, (if nomem (S (S n)) then 3 + n else 4 + n)%nat, inl ENOMEM)
            | Some fm =>
                '(e, s) ← sfs_mapio UIO_READ (SfsFs nblocks (sfs_device s) fm false);
                Ret (sfs_device s, S (S (S (S n))),
                     if bool_decide (e ≠ 0) then inl e
                     else inr (SfsMount s sp false vnodes ∅ (S (S (S (S n))))))
            end
    end.
End mount.
