(* ===== verification/SfsInv.v ===== *)
(** * The invariant of a mounted file system

    [F] gives every file in use its inode as the kernel sees it: the one in
    memory if the file is loaded, the one on disk otherwise. [M] is the map
    from names to inodes, [L] the blocks that are marked but lost. *)

From S2P Require Import Prelude Bitmap CArray KHeap KHeapSpec Coremap Uio CString.
From S2P Require Import Sfs SfsSpec SfsTrunc SfsTheorems SfsFrame SfsDir SfsDirSpec SfsVnode SfsMount.

(** ** Inodes in their blocks *)

Record inode_ok (i : sfs_inode) : Prop := {
  ik_type : sfi_type i = SFS_TYPE_FILE ∨ sfi_type i = SFS_TYPE_DIR;
  ik_links : 0 ≤ sfi_linkcount i < 2 ^ 16;
  ik_waste : length (sfi_waste i) = 110%nat ∧ Forall word (sfi_waste i)
}.

Lemma words_bytes_app l k : words_bytes (l ++ k) = words_bytes l ++ words_bytes k.
Proof. induction l as [|w l IH]; [done|]. simpl. by rewrite IH. Qed.

Definition inode_words (i : sfs_inode) : list Z :=
  sfi_size i :: (sfi_type i * 2 ^ 16 + sfi_linkcount i) :: sfi_direct i ++ sfi_indirect i :: sfi_waste i.

Lemma halves_word ty lk : 0 ≤ ty < 2 ^ 16 → 0 ≤ lk < 2 ^ 16 → half_bytes ty ++ half_bytes lk = word_bytes (ty * 2 ^ 16 + lk).
Proof.
  intros Ht Hl. unfold half_bytes, word_bytes. change (2 ^ 24) with 16777216. change (2 ^ 16) with 65536 in *. change (2 ^ 8) with 256.
  simpl. f_equal; [|f_equal; [|f_equal; [|f_equal]]]; Z.to_euclidean_division_equations; lia.
Qed.

Lemma inode_bytes_words i : inode_ok i → inode_bytes i = words_bytes (inode_words i).
Proof.
  intros [Ht Hl _]. unfold inode_bytes, inode_words. cbn [words_bytes]. rewrite words_bytes_app. cbn [words_bytes].
  rewrite <- halves_word by (unfold SFS_TYPE_FILE, SFS_TYPE_DIR in Ht; lia). by rewrite <- !app_assoc.
Qed.

Section inodes.
Context (s : sfs_fs) (sv : sfs_vnode) (Hg : good_file s sv) (Hi : inode_ok (sv_i sv)).

Lemma inode_words_ok : Forall word (inode_words (sv_i sv)) ∧ length (inode_words (sv_i sv)) = 128%nat.
Proof.
  destruct Hg as (Hs & Hf & Hsz). destruct Hi as [Ht Hl [Hwl Hww]]. pose proof (fs_size s Hs) as [Hn Hn2].
  unfold inode_words, MAXFILE, SFS_TYPE_FILE, SFS_TYPE_DIR in *. split.
  - repeat constructor; try (unfold word; lia). apply Forall_app. split.
    + apply Forall_lookup. intros k b Hb. destruct (mapped_range s sv k b Hf) as [? ?]; [lia|unfold bmap_of; by apply lookup_app_l_Some|unfold word; lia].
    + constructor; [|done]. destruct (decide (sfi_indirect (sv_i sv) = 0)) as [->|H0]; [by unfold word|].
      destruct (fo_own s sv Hf _ (own_indirect s sv H0)). unfold word. lia.
  - simpl. rewrite length_app. simpl. rewrite (fo_direct s sv Hf), Hwl. done.
Qed.

Lemma inode_bytes_length : length (inode_bytes (sv_i sv)) = 512%nat.
Proof. rewrite inode_bytes_words, words_bytes_length by done. by rewrite (proj2 inode_words_ok). Qed.

Lemma bytes_inode_bytes : bytes_inode (inode_bytes (sv_i sv)) = sv_i sv.
Proof.
  rewrite inode_bytes_words by done. unfold bytes_inode. rewrite bytes_words_bytes by apply inode_words_ok.
  destruct Hg as (_ & Hf & _). destruct Hi as [_ Hl _]. unfold inode_words. pose proof (fo_direct s sv Hf) as Hd.
  rewrite take_app_length' by done. rewrite lookup_app_r by lia. rewrite Hd, drop_app_ge by lia. rewrite Hd. simpl.
  rewrite Z.div_add_l, (Z.div_small (sfi_linkcount _)), Z.add_0_r by lia.
  rewrite Z.add_comm, Z_mod_plus_full, Z.mod_small by lia.
  by destruct sv as [[] ? ?].
Qed.
End inodes.

(** ** Blocks *)

(** The number of blocks of the free map, and the blocks that belong to no file. *)
Definition mapblocks (n : Z) : Z := (n + 4095) / 4096.
Definition reserved (n b : Z) : Prop := b = 0 ∨ 2 ≤ b < 2 + mapblocks n.

(** The first words of the superblock. *)
Definition super_ok (s : sfs_fs) : Prop := take 8 (sector s 0) = word_bytes SFS_MAGIC ++ word_bytes (sp_nblocks s).

Record disk_ok (s : sfs_fs) (F : gmap Z sfs_vnode) (L : gset Z) : Prop := {
  dk_fs : fs_ok s;
  dk_file : ∀ ino sv, F !! ino = Some sv → sv_ino sv = ino ∧ good_file s sv ∧ inode_ok (sv_i sv);
  dk_apart : ∀ i j si sj, F !! i = Some si → F !! j = Some sj → i ≠ j → apart s si sj;
  dk_disk : ∀ ino sv, F !! ino = Some sv → sv_dirty sv = false → sector s ino = inode_bytes (sv_i sv);
  dk_reserved : ∀ b, reserved (sp_nblocks s) b → marked s b ∧ ∀ ino sv, F !! ino = Some sv → b ∉ own s sv;
  dk_used : ∀ b, 0 ≤ b < sp_nblocks s → marked s b →
    reserved (sp_nblocks s) b ∨ (∃ ino sv, F !! ino = Some sv ∧ b ∈ own s sv) ∨ b ∈ L;
  dk_bits : bm_nbits (sfs_freemap s) = mapblocks (sp_nblocks s) * 4096;
  dk_map : sfs_freemapdirty s = false → ∀ j, 0 ≤ j < mapblocks (sp_nblocks s) →
    sector s (2 + j) = take 512 (drop (Z.to_nat (j * 512)) (bm_v (sfs_freemap s)));
  dk_super : super_ok s;
  dk_fits : 2 + mapblocks (sp_nblocks s) ≤ sp_nblocks s
}.

(** The file at one inode, if there is one, changes, comes or goes. *)
Definition oown (s : sfs_fs) (o : option sfs_vnode) : list Z := match o with Some sv => own s sv | None => [] end.

Record step (s : sfs_fs) (o : option sfs_vnode) (s' : sfs_fs) (o' : option sfs_vnode) (X : gset Z) : Prop := {
  sp_ok : fs_ok s';
  sp_n : sp_nblocks s' = sp_nblocks s;
  sp_other : ∀ x, 0 ≤ x → marked s x → x ∉ oown s o → marked s' x ∧ (x ∉ oown s' o') ∧ sector s' x = sector s x;
  sp_new : ∀ x, 0 ≤ x → marked s' x → (marked s x ∧ x ∉ oown s o) ∨ x ∈ oown s' o' ∨ x ∈ X;
  sp_map : map_kept s s'
}.

Lemma oown_apart s F L ino j sj : disk_ok s F L → F !! j = Some sj → j ≠ ino → ∀ b, b ∈ own s sj → b ∉ oown s (F !! ino).
Proof.
  intros Hd Hj Hne b Hb. destruct (F !! ino) as [sv|] eqn:Hi; simpl; [|apply not_elem_of_nil]. by apply (dk_apart _ _ _ Hd ino j sv sj).
Qed.

Section disk_step.
Context (s : sfs_fs) (F : gmap Z sfs_vnode) (L : gset Z) (Hd : disk_ok s F L).
Context (ino : Z) (s' : sfs_fs) (o' : option sfs_vnode) (X : gset Z) (Hst : step s (F !! ino) s' o' X).

Lemma step_still j sj : F !! j = Some sj → j ≠ ino → still s s' sj.
Proof.
  intros Hj Hne. destruct (dk_file _ _ _ Hd j sj Hj) as (_ & (_ & Hf & _) & _). apply still_frame; [done|apply Hst|]. intros b Hb.
  destruct (fo_own s sj Hf b Hb) as [? Hm]. destruct (sp_other _ _ _ _ _ Hst b) as (? & _ & ?); [lia|done|by eapply oown_apart|done].
Qed.

Lemma disk_step : (∀ sv', o' = Some sv' → sv_ino sv' = ino ∧ good_file s' sv' ∧ inode_ok (sv_i sv') ∧
    (sv_dirty sv' = false → sector s' ino = inode_bytes (sv_i sv'))) →
  disk_ok s' (partial_alter (λ _, o') ino F) (L ∪ X).
Proof.
  intros Ho'. pose proof Hd as [Hfs Hfile Hap Hdisk Hres Hused Hbits Hmap Hsup Hfits]. pose proof (sp_n _ _ _ _ _ Hst) as Hn.
  assert (Hlk : ∀ j sj, partial_alter (λ _, o') ino F !! j = Some sj → (j = ino ∧ o' = Some sj) ∨ (j ≠ ino ∧ F !! j = Some sj ∧ still s s' sj)).
  { intros j sj Hj. destruct (decide (j = ino)) as [->|Hne]; [left; by rewrite lookup_partial_alter_eq in Hj|right].
    rewrite lookup_partial_alter_ne in Hj by done. split_and!; try done. by eapply step_still. }
  assert (Hother : ∀ j sj sv', o' = Some sv' → F !! j = Some sj → j ≠ ino → still s s' sj → apart s' sv' sj).
  { intros j sj sv' Ho Hj Hne Hs b Hb. rewrite (st_own _ _ _ Hs) in Hb. destruct (dk_file _ _ _ Hd j sj Hj) as (_ & (_ & Hf & _) & _).
    destruct (fo_own s sj Hf b Hb). destruct (sp_other _ _ _ _ _ Hst b) as (_ & Hno & _); [lia|done|by eapply oown_apart|].
    by rewrite Ho in Hno. }
  assert (Hrm : ∀ b, reserved (sp_nblocks s) b → 0 ≤ b ∧ marked s b ∧ b ∉ oown s (F !! ino)).
  { intros b Hb. destruct (Hres b Hb) as [Hm Hno]. split; [unfold reserved in Hb; lia|]. split; [done|].
    destruct (F !! ino) eqn:Hi; simpl; [by eapply Hno|apply not_elem_of_nil]. }
  split.
  - apply Hst.
  - intros j sj [[-> Hj]|(Hne & Hj & Hs)]%Hlk; [by destruct (Ho' sj Hj) as (? & ? & ? & _)|].
    destruct (Hfile j sj Hj) as (? & (_ & _ & ?) & ?). split; [done|]. split; [|done]. split_and!; [apply Hst|apply Hs|lia..].
  - intros i j si sj [[-> Hi]|(Hni & Hi & Hsi)]%Hlk [[-> Hj]|(Hnj & Hj & Hsj)]%Hlk Hij; [done|by eapply Hother|by eapply apart_sym, Hother|].
    intros b. rewrite (st_own _ _ _ Hsi), (st_own _ _ _ Hsj). by apply (Hap i j).
  - intros j sj [[-> Hj]|(Hne & Hj & Hs)]%Hlk Hc; [by apply (Ho' sj Hj)|]. destruct (Hfile j sj Hj) as (Hsj & _).
    rewrite (st_sector _ _ _ Hs) by (rewrite <- Hsj; apply own_ino). by apply Hdisk.
  - rewrite Hn. intros b Hb. destruct (Hrm b Hb) as (H0 & Hm & Hno). destruct (sp_other _ _ _ _ _ Hst b H0 Hm Hno) as (Hm' & Hno' & _).
    split; [done|]. intros j sj [[-> Hj]|(Hne & Hj & Hs)]%Hlk; [by rewrite Hj in Hno'|]. rewrite (st_own _ _ _ Hs). by eapply Hres.
  - rewrite Hn. intros b Hb Hm. apply (sp_new _ _ _ _ _ Hst) in Hm as [[Hm Hno]|[Hin|Hin]]; [| |by set_solver|lia].
    + destruct (Hused b Hb Hm) as [?|[(j & sj & Hj & Hin)|?]]; [by left| |by set_solver]. right. left.
      assert (j ≠ ino) by (intros ->; by rewrite Hj in Hno). exists j, sj. rewrite lookup_partial_alter_ne by done. split; [done|].
      by rewrite (st_own s s' sj) by by eapply step_still.
    + right. left. destruct o' as [sv'|]; [|by apply not_elem_of_nil in Hin]. exists ino, sv'. by rewrite lookup_partial_alter_eq.
  - rewrite Hn, <- Hbits. apply Hst.
  - intros Hc j Hj. rewrite Hn in Hj. destruct (proj2 (sp_map _ _ _ _ _ Hst) Hc) as [Hc0 ->]. rewrite <- Hmap by done.
    destruct (Hrm (2 + j)) as (H0 & Hm & Hno); [right; lia|]. by apply (sp_other _ _ _ _ _ Hst).
  - unfold super_ok. rewrite Hn. destruct (Hrm 0) as (H0 & Hm & Hno); [by left|].
    destruct (sp_other _ _ _ _ _ Hst 0 H0 Hm Hno) as (_ & _ & ->). apply Hsup.
  - by rewrite Hn.
Qed.
End disk_step.

(** *** The steps *)

Lemma step_changes s sv s' sv' : changes s sv s' sv' → step s (Some sv) s' (Some sv') ∅.
Proof.
  intros [Hs Hf Hn _ _ _ Ho Hnew Hm _]. split; try done. intros x Hx Hmx. destruct (Hnew x Hx Hmx); [by left|right; by left].
Qed.

(** One file changes. *)
Lemma disk_changes s F L ino sv s' sv' : disk_ok s F L → F !! ino = Some sv → changes s sv s' sv' →
  0 ≤ sfi_size (sv_i sv') ≤ MAXFILE → disk_ok s' (<[ino := sv']> F) L.
Proof.
  intros Hd Hi Hch Hsz. replace L with (L ∪ ∅) by set_solver. destruct (dk_file _ _ _ Hd ino sv Hi) as (Hino & Hg & Hik).
  apply (disk_step s F L Hd ino s' (Some sv') ∅); [rewrite Hi; by apply step_changes|]. intros ? [= <-].
  pose proof (ch_meta _ _ _ _ Hch) as [= Ht Hlk Hw]. split; [by rewrite (ch_ino _ _ _ _ Hch)|].
  split; [split_and!; [apply Hch|apply Hch|lia..]|]. split; [destruct Hik; split; congruence|].
  intros Hc. pose proof (ch_clean _ _ _ _ Hch Hc) as ->. rewrite <- (dk_disk _ _ _ Hd ino sv Hi Hc), <- Hino. apply (ch_inode _ _ _ _ Hch).
Qed.

(** The disk has been read. *)
Lemma disk_read s F L s' : disk_ok s F L → fs_to s s' (secs s) (sfs_freemap s) → disk_ok s' F L.
Proof.
  intros Hd Hto. pose proof Hd as [Hfs Hfile _ Hdisk _ _ _ _ _ _]. assert (Hsec : ∀ x, sector s' x = sector s x).
  { intros x. unfold sector. by rewrite (ft_secs _ _ _ _ Hto). }
  assert (Hm : ∀ x, marked s' x ↔ marked s x) by (intros x; unfold marked; by rewrite (ft_map _ _ _ _ Hto)).
  assert (Hfr : ∀ sv, own s' sv = own s sv) by (intros sv; by apply (file_frame s s' sv)).
  replace L with (L ∪ ∅) by set_solver.
  replace F with (partial_alter (λ _, F !! 1) 1 F) by (apply map_eq; intros j; destruct (decide (j = 1)) as [->|]; [by rewrite lookup_partial_alter_eq|by rewrite lookup_partial_alter_ne]).
  apply (disk_step s F L Hd).
  - assert (Hoo : ∀ o, oown s' o = oown s o) by (intros [sv|]; [apply Hfr|done]).
    split; [by eapply fs_ok_same|apply Hto|..|by eapply fs_to_map].
    + intros x Hx Hmx Hno. rewrite Hm, Hoo, Hsec. auto.
    + intros x Hx Hmx%Hm. rewrite Hoo. destruct (decide (x ∈ oown s (F !! 1))); auto.
  - intros sv' H1. destruct (Hfile 1 sv' H1) as (? & (? & Hf & ?) & ?). split; [done|]. split; [|split; [done|]].
    + split_and!; [by eapply fs_ok_same| |lia..]. destruct Hf as [Hdl Hnd Ho]. split; [done|by rewrite Hfr|]. rewrite Hfr.
      intros b Hb. rewrite Hm, (ft_nblocks _ _ _ _ Hto). by apply Ho.
    + rewrite Hsec. by apply Hdisk.
Qed.

(** The inode of a file is written to its block. *)
Section sync.
Context (s : sfs_fs) (F : gmap Z sfs_vnode) (L : gset Z) (ino : Z) (sv : sfs_vnode) (s' : sfs_fs).
Context (Hd : disk_ok s F L) (Hi : F !! ino = Some sv).
Context (Hto : fs_to s s' (<[Z.to_nat ino := inode_bytes (sv_i sv)]> (secs s)) (sfs_freemap s)).

Lemma sync_good : sv_ino sv = ino ∧ good_file s sv ∧ inode_ok (sv_i sv) ∧ 0 < ino < sp_nblocks s.
Proof.
  destruct (dk_file _ _ _ Hd ino sv Hi) as (Hino & Hg & Hik). split_and!; try done; destruct Hg as (_ & Hf & _);
    destruct (fo_own s sv Hf _ (own_ino s sv)); lia.
Qed.

Lemma sync_sector x : 0 ≤ x → sector s' x = if decide (x = ino) then inode_bytes (sv_i sv) else sector s x.
Proof. intros Hx. destruct sync_good as (_ & (Hs & _) & _ & ?). eapply sector_insert; try done. lia. Qed.

Lemma sync_marked x : marked s' x ↔ marked s x.
Proof. unfold marked. by rewrite (ft_map _ _ _ _ Hto). Qed.

Lemma sync_other b : b ∈ own s sv → b ≠ ino → sector s' b = sector s b.
Proof.
  destruct sync_good as (_ & (_ & Hf & _) & _). intros Hb Hne. destruct (fo_own _ _ Hf b Hb). rewrite sync_sector by lia. by apply decide_False.
Qed.

Lemma sync_ids : ids s' (set_clean sv) = ids s sv.
Proof.
  destruct sync_good as (Hino & (_ & Hf & _) & _). unfold ids. simpl. case_decide as H0; [done|]. f_equal.
  apply sync_other; [by apply own_indirect|]. rewrite <- Hino. by apply (ino_indirect s).
Qed.

Lemma sync_own : own s' (set_clean sv) = own s sv.
Proof. unfold own, bmap_of. by rewrite sync_ids. Qed.

Lemma sync_block k : fblock s' (set_clean sv) k = fblock s sv k.
Proof.
  destruct sync_good as (Hino & (_ & Hf & _) & _). unfold fblock, bmap_of. rewrite sync_ids. simpl. case_decide as H0; [done|].
  destruct (bmap_of s sv !! Z.to_nat k) as [b|] eqn:Hk; unfold bmap_of in Hk; rewrite Hk in *; [|done]. simpl in *.
  assert (b ∈ bmap_of s sv) by by eapply list_elem_of_lookup_2.
  apply sync_other; [by apply own_mapped|]. rewrite <- Hino. by apply (ino_mapped s).
Qed.

Lemma disk_sync : disk_ok s' (<[ino := set_clean sv]> F) L.
Proof.
  destruct sync_good as (Hino & Hg & Hik & Hr). pose proof Hg as (Hs & Hf & Hsz). pose proof sync_own as Hown.
  assert (Hs' : fs_ok s') by (eapply fs_ok_write; [done| |done]; by eapply inode_bytes_length).
  replace L with (L ∪ ∅) by set_solver. apply (disk_step s F L Hd).
  - rewrite Hi. split; [done|apply Hto|..|by eapply fs_to_map]; simpl; rewrite ?Hown.
    + intros x Hx Hmx Hno. rewrite sync_marked, sync_sector by done. rewrite decide_False; [done|]. intros ->. apply Hno. rewrite <- Hino. apply own_ino.
    + intros x Hx Hmx%sync_marked. destruct (decide (x ∈ own s sv)); auto.
  - intros ? [= <-]. split; [done|]. split; [|split; [done|]].
    + split_and!; [done| |simpl; lia..]. destruct Hf as [Hdl Hnd Ho]. split; [done|by rewrite Hown|]. rewrite Hown.
      intros b Hb. rewrite sync_marked, (ft_nblocks _ _ _ _ Hto). by apply Ho.
    + intros _. by rewrite sync_sector, decide_True by lia.
Qed.

Lemma sync_still j sj : F !! j = Some sj → j ≠ ino → still s s' sj.
Proof.
  intros Hj Hne. destruct sync_good as (Hino & _ & _ & _). destruct (dk_file _ _ _ Hd j sj Hj) as (_ & (_ & Hfj & _) & _).
  apply still_frame; [done|apply Hto|]. intros b Hb. destruct (fo_own _ _ Hfj b Hb) as [? Hm]. rewrite sync_marked. split; [done|].
  rewrite sync_sector, decide_False; [done| |lia]. intros ->. apply (dk_apart _ _ _ Hd ino j sv sj Hi Hj (not_eq_sym Hne) _ Hb).
  rewrite <- Hino at 1. apply own_ino.
Qed.
End sync.

(** Fields of the inode other than the block map are set. *)
Lemma disk_edit s F L ino sv sv' : disk_ok s F L → F !! ino = Some sv → sv_ino sv' = ino → sv_dirty sv' = true →
  sfi_direct (sv_i sv') = sfi_direct (sv_i sv) → sfi_indirect (sv_i sv') = sfi_indirect (sv_i sv) →
  0 ≤ sfi_size (sv_i sv') ≤ MAXFILE → inode_ok (sv_i sv') → disk_ok s (<[ino := sv']> F) L.
Proof.
  intros Hd Hi Hino' Hdirty Hdir Hind Hsz Hik'. destruct (dk_file _ _ _ Hd ino sv Hi) as (Hino & (Hs & Hf & _) & _).
  assert (Hown : own s sv' = own s sv) by (unfold own, bmap_of, ids; by rewrite Hino, Hino', Hdir, Hind).
  replace L with (L ∪ ∅) by set_solver. apply (disk_step s F L Hd).
  - rewrite Hi. split; try done; simpl; rewrite ?Hown; [done|]. intros x Hx Hmx. rewrite ?Hown. destruct (decide (x ∈ own s sv)); auto.
  - intros ? [= <-]. split; [done|]. split; [|split; [done|by rewrite Hdirty]]. split_and!; [done| |lia..].
    destruct Hf as [Hdl Hnd Ho]. split; [by rewrite Hdir|by rewrite Hown|by rewrite Hown].
Qed.

(** A block is allocated: for a new file, or for nothing. *)
Section alloc.
Context (s : sfs_fs) (F : gmap Z sfs_vnode) (L : gset Z) (s' : sfs_fs) (b : Z) (fm : bitmap).
Context (Hd : disk_ok s F L) (Hb : 0 < b < sp_nblocks s) (Hnm : ¬ marked s b).
Context (Hto : fs_to s s' (<[Z.to_nat b := zero_block]> (secs s)) fm) (Hs' : fs_ok s').
Context (Hm : ∀ j, 0 ≤ j → marked s' j ↔ j = b ∨ marked s j).

Lemma alloc_fresh : F !! b = None.
Proof.
  destruct (F !! b) as [sv|] eqn:Hi; [|done]. destruct (dk_file _ _ _ Hd b sv Hi) as (Hino & (_ & Hf & _) & _).
  destruct Hnm. rewrite <- Hino. apply (fo_own s sv Hf), own_ino.
Qed.

Lemma alloc_sector x : 0 ≤ x → sector s' x = if decide (x = b) then zero_block else sector s x.
Proof. intros Hx. pose proof (dk_fs _ _ _ Hd). eapply sector_insert; try done. lia. Qed.

Lemma alloc_other x : 0 ≤ x → marked s x → marked s' x ∧ x ≠ b ∧ sector s' x = sector s x.
Proof.
  intros Hx Hmx. assert (x ≠ b) by (by intros ->). split; [apply Hm; auto|]. split; [done|]. by rewrite alloc_sector, decide_False.
Qed.

Lemma disk_leak : disk_ok s' F (L ∪ {[b]}).
Proof.
  replace F with (partial_alter (λ _, None) b F).
  2:{ apply map_eq. intros j. destruct (decide (j = b)) as [->|]; [by rewrite lookup_partial_alter_eq, alloc_fresh|by rewrite lookup_partial_alter_ne]. }
  apply (disk_step s F L Hd); [|done]. rewrite alloc_fresh. split; [done|apply Hto|..|by eapply fs_to_map]; simpl.
  - intros x Hx Hmx _. destruct (alloc_other x Hx Hmx) as (? & _ & ?). split_and!; try done. apply not_elem_of_nil.
  - intros x Hx [->|Hmx]%Hm; [right; right; set_solver|left; split; [done|apply not_elem_of_nil]|done].
Qed.

Lemma disk_create i : sfi_direct i = replicate 15 0 → sfi_indirect i = 0 → sfi_size i = 0 → inode_ok i →
  disk_ok s' (<[b := SfsVnode i b true]> F) L.
Proof.
  intros Hdir Hind Hsz Hik. replace L with (L ∪ ∅) by set_solver. pose proof (fs_size s' Hs').
  assert (Hown : own s' (SfsVnode i b true) = [b]).
  { unfold own, bmap_of, ids. cbn [sv_ino sv_i]. rewrite Hdir, Hind. rewrite decide_True by done. done. }
  apply (disk_step s F L Hd).
  - rewrite alloc_fresh. split; [done|apply Hto|..|by eapply fs_to_map]; simpl; rewrite Hown.
    + intros x Hx Hmx _. destruct (alloc_other x Hx Hmx) as (? & ? & ?). split_and!; try done. by rewrite list_elem_of_singleton.
    + intros x Hx [->|Hmx]%Hm; [right; left; by apply list_elem_of_singleton|left; split; [done|apply not_elem_of_nil]|done].
  - intros ? [= <-]. split; [done|]. split; [|done]. split_and!; [done| |simpl; rewrite Hsz; unfold MAXFILE; lia..]. split.
    + simpl. by rewrite Hdir.
    + rewrite Hown. apply NoDup_singleton.
    + rewrite Hown. intros x ->%list_elem_of_singleton. rewrite (ft_nblocks _ _ _ _ Hto). split; [done|]. apply Hm; [lia|by left].
Qed.
End alloc.

(** A file that owns its inode only is given up. *)
Lemma step_free s ino sv s' fm : own s sv = [ino] → fs_to s s' (secs s) fm → fs_ok s' →
  (∀ j, 0 ≤ j → marked s' j ↔ j ≠ ino ∧ marked s j) → step s (Some sv) s' None ∅.
Proof.
  intros Hown Hto Hs' Hm. split; [done|apply Hto|..|by eapply fs_to_map]; simpl; rewrite Hown.
  - intros x Hx Hmx Hno. rewrite list_elem_of_singleton in Hno. split; [by apply Hm|]. split; [apply not_elem_of_nil|].
    unfold sector. by rewrite (ft_secs _ _ _ _ Hto).
  - intros x Hx [? ?]%Hm; [|done]. left. split; [done|]. by rewrite list_elem_of_singleton.
Qed.

Lemma disk_free s F L ino sv s' fm : disk_ok s F L → F !! ino = Some sv → own s sv = [ino] →
  fs_to s s' (secs s) fm → fs_ok s' → (∀ j, 0 ≤ j → marked s' j ↔ j ≠ ino ∧ marked s j) → disk_ok s' (delete ino F) L.
Proof.
  intros Hd Hi Hown Hto Hs' Hm. replace L with (L ∪ ∅) by set_solver. apply (disk_step s F L Hd); [|done]. rewrite Hi. by eapply step_free.
Qed.
