(* ===== verification/SfsTree.v ===== *)
(** * Names, links and loaded vnodes

    The part of the invariant above the blocks: every name leads to a file,
    link counts count names, and the table of vnodes holds the files in use. *)

From S2P Require Import Prelude Bitmap CArray KHeap KHeapSpec Coremap Uio CString.
From S2P Require Import Sfs SfsSpec SfsTrunc SfsTheorems SfsFrame SfsDir SfsDirSpec SfsVnode SfsInv.

(** ** Counting names *)

Abbreviation names := (gmap (list Z) Z).

Definition links (M : names) (ino : Z) : Z := Z.of_nat (size (filter (λ wi, wi.2 = ino) M)).

Lemma links_insert (M : names) w a ino : M !! w = None → links (<[w := a]> M) ino = links M ino + (if decide (a = ino) then 1 else 0).
Proof.
  intros Hw. unfold links. case_decide as Ha.
  - rewrite map_filter_insert_True by done. rewrite map_size_insert_None; [lia|]. by rewrite map_lookup_filter, Hw.
  - rewrite map_filter_insert_False by done. rewrite delete_id by done. lia.
Qed.

Lemma links_delete (M : names) w a ino : M !! w = Some a → links (delete w M) ino = links M ino - (if decide (a = ino) then 1 else 0).
Proof.
  intros Hw. rewrite <- (insert_delete_id M w a Hw) at 2. rewrite links_insert by apply lookup_delete_eq. lia.
Qed.

Lemma links_pos (M : names) w ino : M !! w = Some ino → 0 < links M ino.
Proof.
  intros Hw. pose proof (links_delete M w ino ino Hw) as H. rewrite decide_True in H by done. unfold links in *. lia.
Qed.

Lemma links_size (M : names) ino : 0 ≤ links M ino ≤ Z.of_nat (size M).
Proof. unfold links. pose proof (map_size_filter (λ wi : list Z * Z, wi.2 = ino) M). lia. Qed.

(** There are no more names than slots. *)
Lemma holds_size (e : Z → option (list Z * Z)) (n : Z) (M : names) : 0 ≤ n → holds e n M → Z.of_nat (size M) ≤ n.
Proof.
  intros Hn [Hm _]. rewrite <- size_dom. set (l := (λ i, default [] (fst <$> e i)) <$> seqZ 0 n).
  assert (Hsub : elements (dom M) ⊆+ l).
  { apply NoDup_submseteq; [apply NoDup_elements|]. intros w [ino Hw]%elem_of_elements%elem_of_dom.
    apply Hm in Hw as (i & Hi & He). apply list_elem_of_fmap. exists i. rewrite He. split; [done|apply elem_of_seqZ; lia]. }
  apply submseteq_length in Hsub. unfold l in Hsub. rewrite length_fmap, length_seqZ in Hsub.
  change (size (dom M)) with (length (elements (dom M))). lia.
Qed.

(** ** The tree of names *)

(** [D ino]: links entered in the directory but not yet counted in the inode. *)
Record tree_ok (s : sfs_fs) (F : gmap Z sfs_vnode) (M : names) (D : Z → Z) : Prop := {
  tr_root : ∃ rt, F !! 1 = Some rt ∧ dir_ok s rt M;
  tr_type : ∀ ino sv, F !! ino = Some sv → sfi_type (sv_i sv) = if decide (ino = 1) then SFS_TYPE_DIR else SFS_TYPE_FILE;
  tr_names : ∀ w ino, M !! w = Some ino → ino ≠ 1 ∧ is_Some (F !! ino);
  tr_links : ∀ ino sv, F !! ino = Some sv → sfi_linkcount (sv_i sv) + D ino = links M ino + if decide (ino = 1) then 1 else 0
}.

Definition none_owed (_ : Z) : Z := 0.
Definition owed (ino n j : Z) : Z := if decide (j = ino) then n else 0.

(** A directory is known by its bytes, its type and its size. *)
Lemma dir_ok_bytes s sv s' sv' M : dir_ok s sv M → good_file s' sv' → sfi_type (sv_i sv') = sfi_type (sv_i sv) →
  sfi_size (sv_i sv') = sfi_size (sv_i sv) → (∀ p, fbyte s' sv' p = fbyte s sv p) → dir_ok s' sv' M.
Proof.
  intros [_ Ht Hmod Hm] Hg Hty Hsz Hb. split; [done|congruence|congruence|]. unfold nslots. rewrite Hsz.
  eapply holds_ext; [|exact Hm]. intros i _. unfold ent, raw. by rewrite (fbytes_apart s sv) by auto.
Qed.

Lemma still_dir s s' rt M : fs_ok s' → still s s' rt → dir_ok s rt M → dir_ok s' rt M.
Proof.
  intros Hs Hst Hd. pose proof (do_good _ _ _ Hd) as (_ & _ & Hsz). eapply dir_ok_bytes; [done| |done|done|by apply still_byte].
  split_and!; [done|apply Hst|lia..].
Qed.

(** A file changes in a way that keeps its type and links. *)
Lemma tree_set s F M D ino sv s' sv' : tree_ok s F M D → F !! ino = Some sv → meta sv' = meta sv →
  (∀ rt, <[ino := sv']> F !! 1 = Some rt → F !! 1 = Some rt ∨ ino = 1 → dir_ok s' rt M) → tree_ok s' (<[ino := sv']> F) M D.
Proof.
  intros [(rt & Hrt & Hdir) Hty Hnm Hlk] Hi [= Ht Hl _] Hroot. split.
  - destruct (decide (ino = 1)) as [->|Hne].
    + exists sv'. rewrite lookup_insert_eq. split; [done|]. apply Hroot; [by rewrite lookup_insert_eq|by right].
    + exists rt. rewrite lookup_insert_ne by done. split; [done|]. apply Hroot; [by rewrite lookup_insert_ne|by left].
  - intros j sj [[<- <-]|[? Hj]]%lookup_insert_Some; [rewrite Ht|]; by apply Hty.
  - intros w j Hw. destruct (Hnm w j Hw) as [? ?]. split; [done|]. destruct (decide (ino = j)) as [->|]; [rewrite lookup_insert_eq; eauto|by rewrite lookup_insert_ne].
  - intros j sj [[<- <-]|[? Hj]]%lookup_insert_Some; [rewrite Hl|]; by apply Hlk.
Qed.

(** The number of links stays far below what the inode can count. *)
Lemma links_small s F M D ino : tree_ok s F M D → 0 ≤ links M ino ≤ 1144.
Proof.
  intros [(rt & _ & Hdir) _ _ _]. pose proof (links_size M ino). pose proof (nslots_range s rt (do_good _ _ _ Hdir)) as [Hr _].
  pose proof (holds_size _ _ _ (proj1 Hr) (do_map _ _ _ Hdir)). lia.
Qed.

(** Names are strings that fit an entry. *)
Lemma cut_short l t k : (length l ≤ k)%nat → (length (cut (l ++ 0%Z :: t)) ≤ k)%nat.
Proof.
  revert k. induction l as [|c l IH]; intros k Hk; simpl; [lia|]. case_decide; simpl; [lia|]. simpl in Hk.
  destruct k as [|k]; [lia|]. specialize (IH k). lia.
Qed.

Lemma slot_name d w ino : length (sfd_name d) = 60%nat → slot_of d = Some (w, ino) → nonzero w ∧ (length w ≤ 59)%nat ∧ ino ≠ 0.
Proof.
  intros Hl He. unfold slot_of in He. case_decide as H0; [done|]. injection He as <- <-. split; [apply cut_nonzero|]. split; [|done].
  rewrite insert_take_drop by lia. apply cut_short. rewrite length_take. lia.
Qed.

Lemma tree_name s F M D w ino : tree_ok s F M D → M !! w = Some ino → nonzero w ∧ (length w ≤ 59)%nat ∧ ino ≠ 0.
Proof.
  intros [(rt & _ & Hdir) _ _ _] Hw. apply (do_map _ _ _ Hdir) in Hw as (i & Hi & He). eapply slot_name; [|exact He]. apply raw_name_length.
Qed.

(** ** Loaded vnodes *)

Definition ops_of (ino : Z) : vnode_ops := if decide (ino = 1) then sfs_dirops else sfs_fileops.
Abbreviation vino v := (sv_ino (vn_data v)).

Record inv (st : sfs) (F : gmap Z sfs_vnode) (M : names) (L : gset Z) (D : Z → Z) (n : Z) : Prop := {
  iv_disk : disk_ok (sfs_d st) F L;
  iv_tree : tree_ok (sfs_d st) F M D;
  iv_table : ∃ ptrs, arepr (sfs_vnodes st) ptrs ∧ NoDup ptrs ∧ ∀ p, p ∈ ptrs ↔ is_Some (vheap st !! p);
  iv_fresh : ∀ p v, vheap st !! p = Some v → (p < nalloc st)%nat;
  iv_vnode : ∀ p v, vheap st !! p = Some v → F !! vino v = Some (vn_data v) ∧ 1 ≤ vn_refcount v ≤ n ∧
    0 ≤ vn_opencount v ≤ vn_refcount v ∧ vn_ops v = ops_of (vino v);
  iv_inj : ∀ p q v w, vheap st !! p = Some v → vheap st !! q = Some w → vino v = vino w → p = q;
  iv_cold : ∀ ino sv, F !! ino = Some sv → (∃ p v, vheap st !! p = Some v ∧ vino v = ino) ∨ (sv_dirty sv = false ∧ 0 < sfi_linkcount (sv_i sv));
  iv_superclean : sfs_superdirty st = false
}.

(** The loaded vnode at [p] changes: its inode, its counts, and the disk. *)
Lemma inv_set st F M L D n p v s' v' M' L' D' : inv st F M L D n → vheap st !! p = Some v → vino v' = vino v → vn_ops v' = vn_ops v →
  1 ≤ vn_refcount v' ≤ n → 0 ≤ vn_opencount v' ≤ vn_refcount v' →
  disk_ok s' (<[vino v := vn_data v']> F) L' → tree_ok s' (<[vino v := vn_data v']> F) M' D' →
  inv (vput p v' (set_d s' st)) (<[vino v := vn_data v']> F) M' L' D' n.
Proof.
  intros [Hd Ht (ptrs & Har & Hnd & Hptr) Hfr Hv Hinj Hcold Hsup] Hp Hino Hops Hrc Hoc Hd' Ht'. split; simpl; try done.
  - exists ptrs. split_and!; try done. intros q. rewrite Hptr. destruct (decide (q = p)) as [->|]; [rewrite lookup_insert_eq, Hp; split; eauto|by rewrite lookup_insert_ne].
  - intros q w [[<- <-]|[? Hq]]%lookup_insert_Some; eauto.
  - intros q w [[<- <-]|[Hne Hq]]%lookup_insert_Some.
    + rewrite Hino, lookup_insert_eq, Hops. destruct (Hv p v Hp) as (_ & _ & _ & ?). done.
    + destruct (Hv q w Hq) as (? & ? & ? & ?). rewrite lookup_insert_ne; [done|]. intros He. by apply Hne, (Hinj p q v w).
  - intros q r w x [[<- <-]|[? Hq]]%lookup_insert_Some [[<- <-]|[? Hr]]%lookup_insert_Some; rewrite ?Hino; eauto.
  - intros ino sv [[<- <-]|[Hne Hi]]%lookup_insert_Some.
    + left. exists p, v'. by rewrite lookup_insert_eq, Hino.
    + destruct (Hcold ino sv Hi) as [(q & w & Hq & <-)|?]; [left|by right]. exists q, w. rewrite lookup_insert_ne by (intros ->; congruence). done.
Qed.
