(* ===== verification/SfsOps.v ===== *)
(** * The vnode operations keep the invariant

    For each operation of SfsVnode.v: it returns, the invariant holds again,
    and what has become of names, files and references. *)

From S2P Require Import Prelude Bitmap CArray KHeap KHeapSpec Coremap Uio CString.
From S2P Require Import Sfs SfsSpec SfsTrunc SfsTheorems SfsFrame SfsDir SfsDirSpec SfsVnode SfsInv SfsTree.

(** ** Files that keep their contents *)

Definition kept_file (s s' : sfs_fs) (o o' : option sfs_vnode) : Prop :=
  match o, o' with
  | Some sv, Some sv' => sfi_size (sv_i sv') = sfi_size (sv_i sv) ∧ ∀ p, 0 ≤ p → fbyte s' sv' p = fbyte s sv p
  | None, None => True
  | _, _ => False
  end.

(** All files outside [X]. *)
Definition frame (s : sfs_fs) (F : gmap Z sfs_vnode) (s' : sfs_fs) (F' : gmap Z sfs_vnode) (X : gset Z) : Prop :=
  ∀ ino, ino ∉ X → kept_file s s' (F !! ino) (F' !! ino).

Lemma kept_refl s o : kept_file s s o o.
Proof. by destruct o. Qed.

Lemma kept_trans s s1 s2 o o1 o2 : kept_file s s1 o o1 → kept_file s1 s2 o1 o2 → kept_file s s2 o o2.
Proof.
  destruct o as [sv|], o1 as [sv1|], o2 as [sv2|]; simpl; try done. intros [Hs1 Hb1] [Hs2 Hb2].
  split; [congruence|]. intros p Hp. by rewrite Hb2, Hb1.
Qed.

Lemma frame_refl s F X : frame s F s F X.
Proof. intros ino _. apply kept_refl. Qed.

Lemma frame_trans s F s1 F1 s2 F2 X Y : frame s F s1 F1 X → frame s1 F1 s2 F2 Y → frame s F s2 F2 (X ∪ Y).
Proof. intros H1 H2 ino Hi. eapply kept_trans; [apply H1|apply H2]; set_solver. Qed.

Lemma frame_mono s F s' F' X Y : frame s F s' F' X → X ⊆ Y → frame s F s' F' Y.
Proof. intros H HXY ino Hi. apply H. set_solver. Qed.

Lemma frame_trans_same s F s1 F1 s2 F2 X : frame s F s1 F1 X → frame s1 F1 s2 F2 X → frame s F s2 F2 X.
Proof. intros H1 H2. replace X with (X ∪ X) by set_solver. by eapply frame_trans. Qed.

(** A change at one inode. *)
Lemma frame_set s F L ino s' o' X : disk_ok s F L → step s (F !! ino) s' o' X → frame s F s' (partial_alter (λ _, o') ino F) {[ino]}.
Proof.
  intros Hd Hst j Hj. assert (Hne : j ≠ ino) by set_solver. rewrite lookup_partial_alter_ne by done.
  destruct (F !! j) as [sj|] eqn:HF; [|done]. simpl. split; [done|]. intros p _. eapply still_byte, step_still; try done.
Qed.

Lemma frame_changes s F L ino sv s' sv' : disk_ok s F L → F !! ino = Some sv → changes s sv s' sv' → frame s F s' (<[ino := sv']> F) {[ino]}.
Proof. intros Hd Hi Hch. eapply (frame_set s F L ino s' (Some sv') ∅); [done|]. rewrite Hi. by apply step_changes. Qed.

(** Including the inode itself. *)
Lemma frame_full s F s' F' ino X : frame s F s' F' ({[ino]} ∪ X) → kept_file s s' (F !! ino) (F' !! ino) → frame s F s' F' X.
Proof. intros H Hi j Hj. destruct (decide (j = ino)) as [->|]; [done|]. apply H. set_solver. Qed.

(** ** Monotonicity *)

Lemma inv_mono st F M L D n n' : inv st F M L D n → n ≤ n' → inv st F M L D n'.
Proof. intros [? ? ? ? Hv ? ? ?] Hn. split; try done. intros p v Hp. destruct (Hv p v Hp) as (? & ? & ? & ?). split_and!; try done; lia. Qed.

Lemma tree_ext s F M D D' : tree_ok s F M D → (∀ j, D' j = D j) → tree_ok s F M D'.
Proof. intros [] HD. split; try done. intros ino sv. rewrite HD. auto. Qed.

Lemma inv_ext st F M L D D' n : inv st F M L D n → (∀ j, D' j = D j) → inv st F M L D' n.
Proof. intros [] HD. split; try done. by eapply tree_ext. Qed.

Lemma inv_file st F M L D n p v : inv st F M L D n → vheap st !! p = Some v →
  F !! vino v = Some (vn_data v) ∧ good_file (sfs_d st) (vn_data v) ∧ inode_ok (sv_i (vn_data v)).
Proof.
  intros Hi Hp. destruct (iv_vnode _ _ _ _ _ _ Hi p v Hp) as (HF & _). split; [done|].
  by apply (dk_file _ _ _ (iv_disk _ _ _ _ _ _ Hi) (vino v)).
Qed.

Lemma inv_check st F M L D n p v r : inv st F M L D n → vheap st !! p = Some v → vnode_check p r st = Ret v.
Proof.
  intros Hi Hp. destruct (iv_vnode _ _ _ _ _ _ Hi p v Hp) as (_ & ? & ? & _). unfold vnode_check, vget. rewrite Hp. ostep.
  rewrite !bool_decide_eq_false_2 by lia. done.
Qed.

(** The root vnode is the only one that can be a directory. *)
Lemma inv_root_dir st F M L D n p v : inv st F M L D n → vheap st !! p = Some v → vino v = 1 → dir_ok (sfs_d st) (vn_data v) M.
Proof.
  intros Hi Hp H1. destruct (iv_vnode _ _ _ _ _ _ Hi p v Hp) as (HF & _). rewrite H1 in HF.
  destruct (tr_root _ _ _ _ (iv_tree _ _ _ _ _ _ Hi)) as (rt & Hrt & Hdir). congruence.
Qed.

(** ** The inode of a loaded vnode changes *)

Lemma inv_changes st F M L D n p v s' sv' : inv st F M L D n → vheap st !! p = Some v →
  changes (sfs_d st) (vn_data v) s' sv' → 0 ≤ sfi_size (sv_i sv') ≤ MAXFILE → (vino v = 1 → dir_ok s' sv' M) →
  inv (vput p (with_data sv' v) (set_d s' st)) (<[vino v := sv']> F) M L D n.
Proof.
  intros Hi Hp Hch Hsz Hroot. destruct (iv_vnode _ _ _ _ _ _ Hi p v Hp) as (HF & Hrc & Hoc & _).
  pose proof (iv_disk _ _ _ _ _ _ Hi) as Hd. eapply (inv_set st F M L D n p v s' (with_data sv' v)); try done.
  - apply Hch.
  - by eapply disk_changes.
  - eapply tree_set; [apply Hi|done|apply Hch|]. intros rt Hrt Hc. destruct (decide (vino v = 1)) as [H1|H1].
    + rewrite H1, lookup_insert_eq in Hrt. injection Hrt as <-. auto.
    + rewrite lookup_insert_ne in Hrt by done. destruct (tr_root _ _ _ _ (iv_tree _ _ _ _ _ _ Hi)) as (rt' & Hrt' & Hdir).
      assert (rt' = rt) as -> by congruence. eapply still_dir; [apply Hch| |done].
      destruct (dk_file _ _ _ Hd 1 rt Hrt) as (_ & (_ & ? & _) & _). eapply changes_still; [done|done|].
      by apply (dk_apart _ _ _ Hd (vino v) 1).
Qed.

(** The directory gets or loses a name; the inode's count is adjusted later. *)
Lemma inv_names st F M L D n p v s' sv' M' D' : inv st F M L D n → vheap st !! p = Some v → vino v = 1 →
  changes (sfs_d st) (vn_data v) s' sv' → dir_ok s' sv' M' → (∀ w ino, M' !! w = Some ino → ino ≠ 1 ∧ is_Some (F !! ino)) →
  (∀ ino sv, F !! ino = Some sv → D' ino - D ino = links M' ino - links M ino) →
  inv (vput p (with_data sv' v) (set_d s' st)) (<[1 := sv']> F) M' L D' n.
Proof.
  intros Hi Hp H1 Hch Hdir Hnm Hlk. destruct (iv_vnode _ _ _ _ _ _ Hi p v Hp) as (HF & Hrc & Hoc & _).
  pose proof (ch_meta _ _ _ _ Hch) as [= Ht Hl _]. destruct (iv_tree _ _ _ _ _ _ Hi) as [_ Hty _ Hlinks]. rewrite <- H1.
  eapply (inv_set st F M L D n p v s' (with_data sv' v)); try done.
  - apply Hch.
  - eapply disk_changes; [apply Hi|done|done|]. apply (do_good _ _ _ Hdir).
  - simpl. rewrite H1 in *. split.
    + exists sv'. by rewrite lookup_insert_eq.
    + intros j sj [[<- <-]|[? Hj]]%lookup_insert_Some; [rewrite Ht|]; by apply Hty.
    + intros w j Hw. destruct (Hnm w j Hw). split; [done|]. by rewrite lookup_insert_ne.
    + intros j sj [[<- <-]|[? Hj]]%lookup_insert_Some.
      * rewrite Hl. pose proof (Hlinks 1 _ HF). pose proof (Hlk 1 _ HF). lia.
      * pose proof (Hlinks j sj Hj). pose proof (Hlk j sj Hj). lia.
Qed.

(** The link count of a file is adjusted. *)
Lemma inv_links st F M L D n p v k : inv st F M L D n → vheap st !! p = Some v → vino v ≠ 1 →
  0 ≤ links M (vino v) - D (vino v) + k < 2 ^ 16 →
  let sv' := with_linkcount (sfi_linkcount (sv_i (vn_data v)) + k) true (vn_data v) in
  inv (vput p (with_data sv' v) st) (<[vino v := sv']> F) M L (λ j, if decide (j = vino v) then D j - k else D j) n.
Proof.
  intros Hi Hp H1 Hk sv'. destruct (inv_file _ _ _ _ _ _ _ _ Hi Hp) as (HF & Hg & Hik).
  destruct (iv_vnode _ _ _ _ _ _ Hi p v Hp) as (_ & Hrc & Hoc & _). pose proof (iv_tree _ _ _ _ _ _ Hi) as [Hroot Hty Hnm Hlinks].
  pose proof (Hlinks _ _ HF) as Hl. rewrite decide_False in Hl by done.
  replace st with (set_d (sfs_d st) st) at 1 by by destruct st.
  eapply (inv_set st F M L D n p v (sfs_d st) (with_data sv' v)); try done; simpl.
  - eapply (disk_edit (sfs_d st) F L (vino v) (vn_data v) sv'); try done; [apply Hi|apply Hg|]. destruct Hik. split; try done. simpl. lia.
  - destruct Hroot as (rt & Hrt & Hdir). split.
    + exists rt. by rewrite lookup_insert_ne.
    + intros j sj [[<- <-]|[? Hj]]%lookup_insert_Some; [simpl|]; by apply Hty.
    + intros w j Hw. destruct (Hnm w j Hw) as [? ?]. split; [done|]. destruct (decide (vino v = j)) as [<-|]; [rewrite lookup_insert_eq; eauto|by rewrite lookup_insert_ne].
    + intros j sj [[<- <-]|[? Hj]]%lookup_insert_Some; [rewrite decide_True by done; rewrite (decide_False (P := _ = 1)) by done; simpl; lia|].
      rewrite (decide_False (P := j = vino v)) by done. by apply Hlinks.
Qed.

(** ** The table of vnodes *)

Lemma delete_nodup (l : list nat) i p : NoDup l → l !! i = Some p → NoDup (delete i l) ∧ ∀ q, q ∈ delete i l ↔ q ∈ l ∧ q ≠ p.
Proof.
  intros Hnd Hi. rewrite <- (take_drop_middle l i p Hi) in Hnd. rewrite delete_take_drop.
  apply NoDup_app in Hnd as (Hnd1 & Hdis & Hnd2). apply NoDup_cons in Hnd2 as [Hp Hnd2].
  assert (Hp1 : p ∉ take i l) by (intros H; apply (Hdis p H); by left). split.
  - apply NoDup_app. split_and!; try done. intros x Hx Hx2. apply (Hdis x Hx). by right.
  - intros q. rewrite <- (take_drop_middle l i p Hi) at 3. rewrite !elem_of_app, elem_of_cons. naive_solver.
Qed.

Lemma find_vnode_ok st ptrs p : arepr (sfs_vnodes st) ptrs → p ∈ ptrs →
  returns (find_vnode p st) (λ ix, 0 ≤ ix < len ptrs ∧ ptrs !! Z.to_nat ix = Some p).
Proof.
  intros Har Hp. pose proof (ar_num _ _ Har) as Hn. unfold find_vnode, array_getnum. rewrite Hn, Nat2Z.id.
  destruct (for_loop_inv (λ i (_ : ()), ∀ j, (Z.of_nat j < i) → ptrs !! j ≠ Some p) (λ ix, 0 ≤ ix < len ptrs ∧ ptrs !! Z.to_nat ix = Some p)
    (λ i (_ : ()), sv2 ← array_getguy (sfs_vnodes st) i; Ret (if decide (sv2 = p) then inr i else inl ())) (length ptrs) 0 ())
    as [([] & _ & Hno)|(ix & -> & Hix)].
  - intros j Hj. lia.
  - intros i [] Hi Hno. destruct (lookup_lt_is_Some_2 ptrs (Z.to_nat i)) as [q Hq]; [lia|].
    rewrite (array_getguy_ok (sfs_vnodes st) ptrs i q) by (done || lia). ostep. case_decide as Hqp.
    + right. exists i. split; [done|]. subst q. split; [lia|done].
    + left. exists (). split; [done|]. intros j Hj. destruct (decide (Z.of_nat j = i)) as [<-|]; [|apply Hno; lia]. rewrite Nat2Z.id in Hq. congruence.
  - exfalso. apply list_elem_of_lookup_1 in Hp as [j Hj]. apply (Hno j); [|done]. apply lookup_lt_Some in Hj. lia.
  - ostep. by apply returns_ret.
Qed.

(** A vnode leaves the table; its file stays on disk, or is gone. *)
Lemma inv_unload st F M L D n p v s' F' a ptrs : inv st F M L D n → vheap st !! p = Some v →
  arepr a ptrs → NoDup ptrs → (∀ q, q ∈ ptrs ↔ is_Some (vheap st !! q) ∧ q ≠ p) →
  disk_ok s' F' L → tree_ok s' F' M D →
  (F' = F ∧ sv_dirty (vn_data v) = false ∧ 0 < sfi_linkcount (sv_i (vn_data v))) ∨ F' = delete (vino v) F →
  inv (set_vheap (delete p (vheap st)) (set_vnodes a (set_d s' st))) F' M L D n.
Proof.
  intros [Hd Ht _ Hfr Hv Hinj Hcold Hsup] Hp Har Hnd Hptr Hd' Ht' Hcase. destruct (Hv p v Hp) as (HF & _).
  assert (Hsub : ∀ j sj, F' !! j = Some sj → F !! j = Some sj) by (intros j sj; destruct Hcase as [[-> _]| ->]; [done|by intros [_ ?]%lookup_delete_Some]).
  split; simpl; try done.
  - exists ptrs. split_and!; try done. intros q. rewrite Hptr. split.
    + intros [[w Hw] Hne]. exists w. by rewrite lookup_delete_ne.
    + intros [w [Hne Hw]%lookup_delete_Some]. split; [eauto|congruence].
  - intros q w [? Hq]%lookup_delete_Some. eauto.
  - intros q w [Hne Hq]%lookup_delete_Some. destruct (Hv q w Hq) as (HFq & ? & ? & ?). split; [|done].
    destruct Hcase as [[-> _]| ->]; [done|]. rewrite lookup_delete_ne; [done|]. intros He. by apply Hne, (Hinj p q v w).
  - intros q r w x [? Hq]%lookup_delete_Some [? Hr]%lookup_delete_Some. eauto.
  - intros ino sv Hino. destruct (Hcold ino sv (Hsub _ _ Hino)) as [(q & w & Hq & <-)|?]; [|by right].
    destruct (decide (q = p)) as [->|Hne].
    + assert (w = v) as -> by congruence. destruct Hcase as [(-> & ? & ?)| ->]; [right; rewrite HF in Hino; by injection Hino as <-|].
      by rewrite lookup_delete_eq in Hino.
    + left. exists q, w. by rewrite lookup_delete_ne.
Qed.

(** A file without names goes. *)
Lemma tree_delete s F M D ino sv s' : tree_ok s F M D → F !! ino = Some sv → ino ≠ 1 → links M ino = 0 →
  (∀ rt, F !! 1 = Some rt → dir_ok s' rt M) → tree_ok s' (delete ino F) M D.
Proof.
  intros [(rt & Hrt & Hdir) Hty Hnm Hlk] Hi Hne Hl Hroot. split.
  - exists rt. rewrite lookup_delete_ne by done. auto.
  - intros j sj [_ Hj]%lookup_delete_Some. auto.
  - intros w j Hw. destruct (Hnm w j Hw) as [? ?]. split; [done|]. rewrite lookup_delete_ne; [done|]. intros <-. apply links_pos in Hw. lia.
  - intros j sj [_ Hj]%lookup_delete_Some. auto.
Qed.

(** ** References *)

(** Who is referred to, how often, and how often it is open. *)
Abbreviation reftab := (gmap nat (Z * Z * Z)).
Definition refs (st : sfs) : reftab := (λ v, (vino v, vn_refcount v, vn_opencount v)) <$> vheap st.

Definition ref_lost (R : reftab) (p : nat) : reftab :=
  match R !! p with
  | Some (ino, rc, oc) => if decide (1 < rc) then <[p := (ino, rc - 1, oc)]> R else delete p R
  | None => R
  end.

(** The file that goes with the last reference, as it has no name. *)
Definition forgotten (M : names) (R : reftab) (p : nat) : gset Z :=
  match R !! p with
  | Some (ino, rc, _) => if decide (rc ≤ 1 ∧ links M ino = 0 ∧ ino ≠ 1) then {[ino]} else ∅
  | None => ∅
  end.

Section ops.
Context (present : Z → bool) (space : Z).

(** ** References *)

Lemma vnode_incref_ok st F M L D n p v : inv st F M L D n → vheap st !! p = Some v → n < 2 ^ 31 - 1 →
  vnode_incref p st = Ret (vput p (with_refcount (vn_refcount v + 1) v) st) ∧
  inv (vput p (with_refcount (vn_refcount v + 1) v) st) F M L D (n + 1).
Proof.
  intros Hi Hp Hn. destruct (iv_vnode _ _ _ _ _ _ Hi p v Hp) as (HF & Hrc & Hoc & _). unfold vnode_incref, vget. rewrite Hp. ostep.
  rewrite s32_small by lia. split; [done|]. replace st with (set_d (sfs_d st) st) at 1 by by destruct st.
  rewrite <- (insert_id F (vino v) (vn_data v) HF). pose proof (inv_mono _ _ _ _ _ _ (n + 1) Hi ltac:(lia)) as Hi'.
  eapply (inv_set st F M L D (n + 1) p v (sfs_d st) (with_refcount (vn_refcount v + 1) v)); try done; simpl; try lia;
    rewrite insert_id by done; apply Hi.
Qed.

(** The same for a reference given back that is not the last one. *)
Lemma decref_some st F M L D n p v : inv st F M L D n → vheap st !! p = Some v → 1 < vn_refcount v → vn_opencount v < vn_refcount v →
  inv (vput p (with_refcount (vn_refcount v - 1) v) st) F M L D n.
Proof.
  intros Hi Hp Hn Ho. destruct (iv_vnode _ _ _ _ _ _ Hi p v Hp) as (HF & Hrc & Hoc & _).
  replace st with (set_d (sfs_d st) st) at 1 by by destruct st. rewrite <- (insert_id F (vino v) (vn_data v) HF).
  eapply (inv_set st F M L D n p v (sfs_d st) (with_refcount (vn_refcount v - 1) v)); try done; simpl; try lia;
    rewrite insert_id by done; apply Hi.
Qed.

(** ** Writing an inode back *)

Lemma sfs_fsync_ok st F M L D n p v : inv st F M L D n → vheap st !! p = Some v →
  returns (sfs_fsync present space p st) (λ '(e, st'), e = 0 ∧ ∃ s', st' = vput p (with_data (set_clean (vn_data v)) v) (set_d s' st) ∧
    inv st' (<[vino v := set_clean (vn_data v)]> F) M L D n ∧ frame (sfs_d st) F s' (<[vino v := set_clean (vn_data v)]> F) ∅).
Proof.
  intros Hi Hp. destruct (inv_file _ _ _ _ _ _ _ _ Hi Hp) as (HF & Hg & Hik). destruct (iv_vnode _ _ _ _ _ _ Hi p v Hp) as (_ & Hrc & Hoc & _).
  pose proof (iv_disk _ _ _ _ _ _ Hi) as Hd. pose proof Hg as (Hs & Hf & Hsz).
  unfold sfs_fsync, vget. rewrite Hp. ostep. unfold sfs_sync_inode. destruct (sv_dirty (vn_data v)) eqn:Hdirty.
  - destruct (fo_own _ _ Hf _ (own_ino _ _)) as [Hr _].
    destruct (sfs_wblock_ok present space (sfs_d st) (inode_bytes (sv_i (vn_data v))) (vino v) Hs) as (s' & -> & Hto);
      [by eapply inode_bytes_length|lia|]. ostep. apply returns_ret. cbn. split; [done|]. exists s'. split; [done|].
    pose proof (disk_sync _ _ _ _ _ _ Hd HF Hto) as Hd'. pose proof (sync_still _ _ _ _ _ _ Hd HF Hto) as Hst.
    assert (Hb : ∀ q, fbyte s' (set_clean (vn_data v)) q = fbyte (sfs_d st) (vn_data v) q) by (apply fbyte_blocks; intros k; by eapply sync_block).
    split.
    + eapply (inv_set st F M L D n p v s' (with_data (set_clean (vn_data v)) v)); try done. eapply tree_set; [apply Hi|done|done|].
      intros rt Hrt _. destruct (tr_root _ _ _ _ (iv_tree _ _ _ _ _ _ Hi)) as (rt' & Hrt' & Hdir). destruct (decide (vino v = 1)) as [H1|H1].
      * rewrite H1, lookup_insert_eq in Hrt. injection Hrt as <-. assert (rt' = vn_data v) as -> by congruence.
        destruct (dk_file _ _ _ Hd' (vino v) (set_clean (vn_data v))) as (_ & ? & _); [by rewrite lookup_insert_eq|]. by eapply dir_ok_bytes.
      * rewrite lookup_insert_ne in Hrt by done. assert (rt' = rt) as -> by congruence. eapply still_dir; [apply Hd'|by eapply Hst|done].
    + intros j _. destruct (decide (j = vino v)) as [->|Hne]; [rewrite lookup_insert_eq, HF; split; auto|]. rewrite lookup_insert_ne by done.
      destruct (F !! j) as [sj|] eqn:Hj; [|done]. split; [done|]. intros q _. apply still_byte. by eapply Hst.
  - ostep. apply returns_ret. split; [done|]. exists (sfs_d st).
    assert (Hsc : set_clean (vn_data v) = vn_data v) by (destruct (vn_data v) as [? ? []]; done).
    rewrite Hsc, insert_id by done. assert (Hst : vput p (with_data (vn_data v) v) (set_d (sfs_d st) st) = st).
    { replace (with_data (vn_data v) v) with v by by destruct v. unfold vput. simpl. rewrite insert_id by done. by destruct st. }
    rewrite Hst. split; [done|]. split; [done|apply frame_refl].
Qed.

(** ** Giving up a file *)

Lemma own_empty s sv : sfi_indirect (sv_i sv) = 0 → (∀ b, b ∈ sfi_direct (sv_i sv) → b = 0) → own s sv = [sv_ino sv].
Proof.
  intros Hi Hd. unfold own, bmap_of, ids. rewrite Hi, decide_True by done. f_equal. rewrite filter_cons, decide_False by tauto.
  rewrite filter_app. assert (Hz : ∀ l : list Z, (∀ b, b ∈ l → b = 0) → filter (λ b, b ≠ 0) l = []).
  { induction l as [|b l IH]; intros Hl; [done|]. rewrite filter_cons, decide_False; [|intros []; apply Hl; by left]. apply IH. intros c Hc. apply Hl. by right. }
  rewrite !Hz; [done| |done]. by intros b [-> _]%elem_of_replicate.
Qed.

(** Truncating to nothing leaves the inode only. *)
Lemma truncate_all s sv : good_file s sv →
  returns (sfs_truncate present space 0 s sv) (λ '(e, s', sv'), e = 0 ∧ changes s sv s' sv' ∧ sfi_size (sv_i sv') = 0 ∧
    sfi_indirect (sv_i sv') = 0 ∧ ∀ b, b ∈ sfi_direct (sv_i sv') → b = 0).
Proof.
  intros (Hs & Hf & _). destruct (sfs_truncate_ok present space s sv 0 Hs Hf) as (s' & sv' & -> & Hsh & Hsz & Hdirty & Hind & Hmap); [lia|].
  apply returns_ret. split_and!; try done; [by apply changes_shrinks|auto|]. intros b [k Hk]%list_elem_of_lookup_1.
  pose proof (sh_file _ _ _ _ Hsh) as Hf'. pose proof (lookup_lt_Some _ _ _ Hk) as Hlt. rewrite (fo_direct _ _ Hf') in Hlt.
  destruct (lookup_lt_is_Some_2 (sfi_direct (sv_i sv)) k) as [c Hc]; [rewrite (fo_direct _ _ Hf); lia|].
  assert (Hm : bmap_of s sv !! k = Some c) by (unfold bmap_of; by apply lookup_app_l_Some). apply Hmap in Hm.
  unfold bmap_of in Hm. rewrite lookup_app_l in Hm by (rewrite (fo_direct _ _ Hf'); lia). unfold kept in Hm.
  rewrite decide_True, bool_decide_eq_false_2 in Hm by (change ((0 + 511) / 512) with 0; lia). congruence.
Qed.

(** The end of a vnode: out of the table and freed. *)
Lemma drop_vnode st F M L D n p v d F' : inv st F M L D n → vheap st !! p = Some v → vn_refcount v = 1 → vn_opencount v = 0 →
  disk_ok d F' L → tree_ok d F' M D →
  (F' = F ∧ sv_dirty (vn_data v) = false ∧ 0 < sfi_linkcount (sv_i (vn_data v))) ∨ F' = delete (vino v) F →
  returns (ix ← find_vnode p st; a ← array_remove (sfs_vnodes st) ix; vnode_kill v;; Ret (0, set_vheap (delete p (vheap st)) (set_vnodes a (set_d d st))))
    (λ '(e, st'), e = 0 ∧ vheap st' = delete p (vheap st) ∧ sfs_d st' = d ∧ inv st' F' M L D n).
Proof.
  intros Hi Hp Hrc Hoc Hd Ht Hcase. destruct (iv_table _ _ _ _ _ _ Hi) as (ptrs & Har & Hnd & Hptr).
  eapply returns_bind; [eapply find_vnode_ok; [done|]; apply Hptr; eauto|]. intros ix [Hix Hlk].
  destruct (array_remove_ok (sfs_vnodes st) ptrs ix Har Hix) as (a & -> & Har' & _). ostep. unfold vnode_kill. rewrite Hrc, Hoc. cbn [c_assert bool_decide]. ostep.
  destruct (delete_nodup ptrs _ p Hnd Hlk) as [Hnd' Hel]. apply returns_ret. split_and!; try done.
  eapply inv_unload; try done. intros q. by rewrite Hel, Hptr.
Qed.

(** What becomes of the file when the last reference goes. *)
Definition after_last (F : gmap Z sfs_vnode) (v : vnode) (F' : gmap Z sfs_vnode) : Prop :=
  if decide (sfi_linkcount (sv_i (vn_data v)) = 0) then F' = delete (vino v) F
  else F' = <[vino v := set_clean (vn_data v)]> F.

(** A file without names and blocks: its inode is freed with the vnode. *)
Lemma free_vnode st F M L D n p v : inv st F M L D n → vheap st !! p = Some v → vn_refcount v = 1 → vn_opencount v = 0 →
  vino v ≠ 1 → links M (vino v) = 0 → own (sfs_d st) (vn_data v) = [vino v] →
  returns (d ← sfs_bfree (sfs_d st) (vino v); ix ← find_vnode p st; a ← array_remove (sfs_vnodes st) ix; vnode_kill v;;
      Ret (0, set_vheap (delete p (vheap st)) (set_vnodes a (set_d d st))))
    (λ '(e, st'), e = 0 ∧ vheap st' = delete p (vheap st) ∧ inv st' (delete (vino v) F) M L D n ∧
      frame (sfs_d st) F (sfs_d st') (delete (vino v) F) {[vino v]}).
Proof.
  intros Hi Hp Hrc Hoc H1 Hl Hown. destruct (inv_file _ _ _ _ _ _ _ _ Hi Hp) as (HF & (Hs & Hf & _) & _).
  destruct (fo_own _ _ Hf _ (own_ino _ _)) as [Hr Hmk].
  destruct (sfs_bfree_ok present (sfs_d st) (vino v) Hs Hr Hmk) as (s' & fm & -> & Hto & Hs' & Hm). ostep.
  pose proof (disk_free _ _ _ _ _ _ _ (iv_disk _ _ _ _ _ _ Hi) HF Hown Hto Hs' Hm) as Hd'.
  assert (Hst : step (sfs_d st) (F !! vino v) s' None ∅) by (rewrite HF; by eapply step_free).
  assert (Ht' : tree_ok s' (delete (vino v) F) M D).
  { eapply tree_delete; [apply Hi|done..|]. intros rt Hrt. destruct (tr_root _ _ _ _ (iv_tree _ _ _ _ _ _ Hi)) as (rt' & Hrt' & Hdir).
    assert (rt' = rt) as -> by congruence. eapply still_dir; [done| |done]. eapply step_still; [apply Hi|exact Hst|done|congruence]. }
  eapply returns_mono; [eapply (drop_vnode st F M L D n p v s'); try done; by right|].
  intros [e st'] (-> & -> & -> & Hi'). split_and!; try done. eapply frame_set; [apply Hi|done].
Qed.

Lemma vget_ok p st v : vheap st !! p = Some v → vget p st = Ret v.
Proof. intros Hp. unfold vget. by rewrite Hp. Qed.

Lemma vget_put p st v : vget p (vput p v st) = Ret v.
Proof. apply vget_ok, lookup_insert_eq. Qed.

Lemma sfs_reclaim_ok st F M L D n p v : inv st F M L D n → vheap st !! p = Some v → vn_refcount v = 1 → vn_opencount v = 0 → D (vino v) = 0 →
  returns (sfs_reclaim present space p st) (λ '(e, st'), e = 0 ∧ vheap st' = delete p (vheap st) ∧
    ∃ F', inv st' F' M L D n ∧ after_last F v F' ∧
      frame (sfs_d st) F (sfs_d st') F' (if decide (sfi_linkcount (sv_i (vn_data v)) = 0) then {[vino v]} else ∅)).
Proof.
  intros Hi Hp Hrc Hoc HD. destruct (inv_file _ _ _ _ _ _ _ _ Hi Hp) as (HF & Hg & Hik). unfold after_last.
  pose proof (tr_links _ _ _ _ (iv_tree _ _ _ _ _ _ Hi) _ _ HF) as Hlk. pose proof (links_size M (vino v)) as Hls.
  unfold sfs_reclaim. rewrite (vget_ok p st v Hp). ostep. rewrite Hrc, (bool_decide_eq_false_2 (1 ≠ 1)) by tauto.
  destruct (decide (sfi_linkcount (sv_i (vn_data v)) = 0)) as [Hl|Hl].
  - rewrite bool_decide_eq_true_2 by done.
    assert (H1 : vino v ≠ 1) by (intros H1; rewrite decide_True in Hlk by done; lia). rewrite decide_False in Hlk by done.
    unfold VOP_TRUNCATE. rewrite (inv_check _ _ _ _ _ _ _ _ _ Hi Hp). ostep. destruct (iv_vnode _ _ _ _ _ _ Hi p v Hp) as (_ & _ & _ & ->).
    unfold ops_of. rewrite decide_False by done.
    destruct (truncate_all (sfs_d st) (vn_data v) Hg) as ([[e s1] sv1] & -> & -> & Hch & Hsz1 & Hind & Hdir). ostep.
    rewrite (bool_decide_eq_false_2 (0 ≠ 0)) by tauto. set (v1 := with_data sv1 v).
    assert (Hi1 : inv (vput p v1 (set_d s1 st)) (<[vino v := sv1]> F) M L D n) by (apply inv_changes; try done; unfold MAXFILE; lia).
    assert (Hfr1 : frame (sfs_d st) F s1 (<[vino v := sv1]> F) {[vino v]}) by (eapply frame_changes; [apply Hi|done|done]).
    set (st1 := vput p v1 (set_d s1 st)) in *. assert (Hp1 : vheap st1 !! p = Some v1) by apply lookup_insert_eq.
    assert (Hino1 : vino v1 = vino v) by apply Hch. destruct (sfs_fsync_ok st1 _ M L D n p v1 Hi1 Hp1) as ([e2 st2] & -> & -> & s2 & -> & Hi2 & Hfr2). ostep.
    rewrite (bool_decide_eq_false_2 (0 ≠ 0)) by tauto. rewrite vget_put. ostep. set (v2 := with_data (set_clean (vn_data v1)) v1) in *.
    pose proof (ch_meta _ _ _ _ Hch) as [= _ Hl1 _]. rewrite bool_decide_eq_true_2 by (simpl; congruence).
    rewrite Hino1, insert_insert_eq in Hi2, Hfr2. assert (Hino2 : vino v2 = vino v) by done.
    eapply returns_mono; [apply (free_vnode _ _ M L D n p v2 Hi2); [apply lookup_insert_eq|done|done|by rewrite Hino2|rewrite Hino2; lia|by apply own_empty]|].
    rewrite Hino2. intros [e st'] (-> & -> & Hi' & Hfr'). split; [done|]. split; [simpl; by rewrite !delete_insert_eq|].
    rewrite delete_insert_eq in Hi', Hfr'. eexists. split_and!; [done|done|].
    eapply frame_trans_same; [exact Hfr1|]. eapply frame_trans_same; [eapply frame_mono; [exact Hfr2|set_solver]|exact Hfr'].
  - rewrite bool_decide_eq_false_2 by done. ostep. rewrite (bool_decide_eq_false_2 (0 ≠ 0)) by tauto.
    destruct (sfs_fsync_ok st F M L D n p v Hi Hp) as ([e2 st2] & -> & -> & s2 & -> & Hi2 & Hfr2). ostep.
    rewrite (bool_decide_eq_false_2 (0 ≠ 0)) by tauto. rewrite vget_put. ostep. set (v2 := with_data (set_clean (vn_data v)) v) in *.
    rewrite bool_decide_eq_false_2 by done. ostep.
    eapply returns_mono; [eapply (drop_vnode _ _ M L D n p v2 s2 _ Hi2); try done; [apply lookup_insert_eq|apply Hi2|apply Hi2|]|].
    { left. split; [done|]. split; [done|]. simpl. destruct Hik as [_ Hr _]. lia. }
    intros [e st'] (-> & -> & -> & Hi'). split; [done|]. split; [simpl; by rewrite delete_insert_eq|]. eauto.
Qed.

(** ** Giving a reference back *)

Lemma vnode_decref_ok st F M L D n p v : inv st F M L D n → vheap st !! p = Some v → vn_opencount v < vn_refcount v → D (vino v) = 0 →
  returns (vnode_decref present space p st) (λ st', ∃ F', inv st' F' M L D n ∧ refs st' = ref_lost (refs st) p ∧
    frame (sfs_d st) F (sfs_d st') F' (forgotten M (refs st) p) ∧ ∀ ino, ino ∈ forgotten M (refs st) p → F' !! ino = None).
Proof.
  intros Hi Hp Hoc HD. destruct (iv_vnode _ _ _ _ _ _ Hi p v Hp) as (HF & Hrc & Hoc' & _).
  pose proof (tr_links _ _ _ _ (iv_tree _ _ _ _ _ _ Hi) _ _ HF) as Hlk. pose proof (links_size M (vino v)) as Hls.
  unfold vnode_decref. rewrite (vget_ok p st v Hp). ostep. rewrite (bool_decide_eq_true_2 (0 < vn_refcount v)) by lia. cbn [c_assert]. ostep.
  assert (Hr : refs st !! p = Some (vino v, vn_refcount v, vn_opencount v)) by (unfold refs; by rewrite lookup_fmap, Hp).
  unfold ref_lost, forgotten. rewrite Hr. destruct (decide (1 < vn_refcount v)) as [H1|H1].
  - rewrite bool_decide_eq_true_2 by done. apply returns_ret. exists F. rewrite decide_False by lia.
    split; [by apply decref_some|]. split; [unfold refs; simpl; by rewrite fmap_insert|]. split; [apply frame_refl|set_solver].
  - rewrite bool_decide_eq_false_2 by done. rewrite (inv_check _ _ _ _ _ _ _ _ _ Hi Hp). ostep.
    eapply returns_bind; [apply (sfs_reclaim_ok st F M L D n p v Hi Hp); [lia..|done]|].
    intros [e st'] (-> & Hh & F' & Hi' & Hlast & Hfr). apply returns_ret. exists F'. split; [done|].
    split; [unfold refs; by rewrite Hh, fmap_delete|]. unfold after_last in Hlast. destruct (decide (sfi_linkcount (sv_i (vn_data v)) = 0)) as [Hl|Hl].
    + assert (vino v ≠ 1) by (intros He; rewrite decide_True in Hlk by done; lia). rewrite decide_False in Hlk by done.
      rewrite decide_True by lia. split; [done|]. intros ino ->%elem_of_singleton. rewrite Hlast. apply lookup_delete_eq.
    + rewrite decide_False; [split; [done|set_solver]|]. intros (_ & Hz & ?). rewrite decide_False in Hlk by done. lia.
Qed.
End ops.
