(* ===== verification/SfsLoad.v ===== *)
(** * Loading vnodes: sfs_loadvnode, sfs_getroot and sfs_makeobj *)

From S2P Require Import Prelude Bitmap CArray KHeap KHeapSpec Coremap Uio CString.
From S2P Require Import Sfs SfsSpec SfsTrunc SfsTheorems SfsFrame SfsDir SfsDirSpec SfsVnode SfsInv SfsTree SfsOps.

(** ** What has no effect on files *)

Lemma read_still s s' sv fm : file_ok s sv → fs_to s s' (secs s) fm → fm = sfs_freemap s → still s s' sv.
Proof.
  intros Hf Hto ->. apply still_frame; [done|apply Hto|]. intros b Hb. destruct (fo_own _ _ Hf b Hb) as [_ Hm].
  unfold marked, sector. by rewrite (ft_map _ _ _ _ Hto), (ft_secs _ _ _ _ Hto).
Qed.

Lemma still_frames s F s' : (∀ ino sv, F !! ino = Some sv → still s s' sv) → frame s F s' F ∅.
Proof. intros H ino _. destruct (F !! ino) as [sv|] eqn:Hi; [|done]. split; [done|]. intros p _. by eapply still_byte, H. Qed.

(** Every file stays in its blocks, the free map may differ. *)
Lemma tree_still s F M D s' : tree_ok s F M D → fs_ok s' → (∀ ino sv, F !! ino = Some sv → still s s' sv) → tree_ok s' F M D.
Proof. intros [(rt & Hrt & Hdir) ? ? ?] Hs Hst. split; try done. exists rt. split; [done|]. eapply still_dir; eauto. Qed.

Lemma inv_still st F M L D n s' L' : inv st F M L D n → disk_ok s' F L' → (∀ ino sv, F !! ino = Some sv → still (sfs_d st) s' sv) →
  inv (set_d s' st) F M L' D n.
Proof. intros [] Hd Hst. split; try done. eapply tree_still; eauto. apply Hd. Qed.

Lemma inv_read st F M L D n s' : inv st F M L D n → fs_to (sfs_d st) s' (secs (sfs_d st)) (sfs_freemap (sfs_d st)) →
  inv (set_d s' st) F M L D n ∧ frame (sfs_d st) F s' F ∅.
Proof.
  intros Hi Hto. assert (Hst : ∀ ino sv, F !! ino = Some sv → still (sfs_d st) s' sv).
  { intros ino sv Hin. destruct (dk_file _ _ _ (iv_disk _ _ _ _ _ _ Hi) ino sv Hin) as (_ & (_ & ? & _) & _). by eapply read_still. }
  split; [|by apply still_frames]. eapply inv_still; [done| |done]. eapply disk_read; [apply Hi|done].
Qed.

Lemma inv_nalloc st F M L D n k : inv st F M L D n → (nalloc st ≤ k)%nat → inv (set_nalloc k st) F M L D n.
Proof. intros [] Hk. split; try done. simpl. intros p v Hp. pose proof (iv_fresh p v Hp). lia. Qed.

Lemma inv_vnodes st F M L D n a ptrs : inv st F M L D n → arepr a ptrs → NoDup ptrs → (∀ p, p ∈ ptrs ↔ is_Some (vheap st !! p)) →
  inv (set_vnodes a st) F M L D n.
Proof. intros [] Ha Hn Hp. split; try done. by exists ptrs. Qed.

(** ** A vnode enters the table *)

Lemma inv_enter st F M L D n p a ptrs ino sv s' F' L' : inv st F M L D n → 1 ≤ n → (p < nalloc st)%nat → vheap st !! p = None →
  (∀ q v, vheap st !! q = Some v → vino v ≠ ino) → sv_ino sv = ino → F' !! ino = Some sv → (∀ j, j ≠ ino → F' !! j = F !! j) →
  arepr (sfs_vnodes st) ptrs → NoDup ptrs → (∀ q, q ∈ ptrs ↔ is_Some (vheap st !! q)) → arepr a (ptrs ++ [p]) →
  disk_ok s' F' L' → tree_ok s' F' M D →
  inv (vput p (Vnode 1 0 (ops_of ino) sv) (set_vnodes a (set_d s' st))) F' M L' D n.
Proof.
  intros [Hd Ht _ Hfr Hv Hinj Hcold Hsup] Hn Hp Hnone Hnot Hino HF' Hother Har Hnd Hptr Ha Hd' Ht'. split; simpl; try done.
  - exists (ptrs ++ [p]). split; [done|]. split.
    + apply NoDup_app. split_and!; [done| |apply NoDup_singleton]. intros x Hx ->%list_elem_of_singleton. apply Hptr in Hx as [? ?]. congruence.
    + intros q. rewrite elem_of_app, list_elem_of_singleton, Hptr. destruct (decide (q = p)) as [->|Hne].
      * rewrite lookup_insert_eq. split; [eauto|by right].
      * rewrite lookup_insert_ne by done. naive_solver.
  - intros q w [[<- <-]|[? Hq]]%lookup_insert_Some; [lia|eauto].
  - intros q w [[<- <-]|[? Hq]]%lookup_insert_Some; simpl.
    + rewrite Hino. split_and!; try done; lia.
    + rewrite Hother by eauto. by apply (Hv q).
  - intros q r w x [[<- <-]|[? Hq]]%lookup_insert_Some [[<- <-]|[? Hr]]%lookup_insert_Some; simpl; rewrite ?Hino; try done.
    + intros He. by destruct (Hnot r x).
    + intros He. by destruct (Hnot q w).
    + eauto.
  - intros j sj Hj. destruct (decide (j = ino)) as [->|Hne].
    + left. exists p. eexists. rewrite lookup_insert_eq. done.
    + rewrite Hother in Hj by done. destruct (Hcold j sj Hj) as [(q & w & Hq & Hw)|?]; [left|by right]. exists q, w.
      rewrite lookup_insert_ne by congruence. done.
Qed.

(** There are fewer vnodes than blocks. *)
Lemma table_small st F M L D n ptrs : inv st F M L D n → NoDup ptrs → (∀ p, p ∈ ptrs ↔ is_Some (vheap st !! p)) → len ptrs < 2 ^ 29.
Proof.
  intros Hi Hnd Hptr. pose proof (dk_fs _ _ _ (iv_disk _ _ _ _ _ _ Hi)) as Hs. pose proof (fs_size _ Hs) as Hsz.
  set (ino := λ p, match vheap st !! p with Some v => vino v | None => 0 end).
  assert (Hinj : NoDup (ino <$> ptrs)).
  { clear Hsz. assert (Hall : ∀ p, p ∈ ptrs → is_Some (vheap st !! p)) by (intros p; apply Hptr). clear Hptr. induction Hnd as [|p l Hp Hnd IH]; [constructor|].
    simpl. constructor; [|apply IH; intros q Hq; apply Hall; by right]. intros (q & Heq & Hq)%list_elem_of_fmap.
    destruct (Hall p ltac:(by left)) as [v Hv]. destruct (Hall q ltac:(by right)) as [w Hw]. unfold ino in Heq. rewrite Hv, Hw in Heq.
    apply Hp. by rewrite (iv_inj _ _ _ _ _ _ Hi p q v w Hv Hw Heq). }
  assert (Hsub : ino <$> ptrs ⊆+ seqZ 0 (sp_nblocks (sfs_d st))).
  { apply NoDup_submseteq; [done|]. intros x (p & -> & Hp)%list_elem_of_fmap. apply Hptr in Hp as [v Hv]. unfold ino. rewrite Hv.
    destruct (inv_file _ _ _ _ _ _ _ _ Hi Hv) as (_ & (_ & Hf & _) & _). apply elem_of_seqZ. pose proof (fo_own _ _ Hf _ (own_ino _ _)). lia. }
  apply submseteq_length in Hsub. rewrite length_fmap, length_seqZ in Hsub. lia.
Qed.

(** ** sfs_loadvnode *)

(** What loading the vnode of [ino] does to the references. *)
Definition ref_loaded (R : reftab) (ino : Z) (p : nat) (R' : reftab) : Prop :=
  (∃ rc oc, R !! p = Some (ino, rc, oc) ∧ R' = <[p := (ino, rc + 1, oc)]> R) ∨
  (R !! p = None ∧ (∀ q rc oc, R !! q ≠ Some (ino, rc, oc)) ∧ R' = <[p := (ino, 1, 0)]> R).

Lemma refs_some st p ino rc oc : refs st !! p = Some (ino, rc, oc) →
  ∃ v, vheap st !! p = Some v ∧ vino v = ino ∧ vn_refcount v = rc ∧ vn_opencount v = oc.
Proof. unfold refs. rewrite lookup_fmap. intros (v & Heq & Hv)%fmap_Some_1. exists v. by simplify_eq. Qed.

Lemma refs_of st p v : vheap st !! p = Some v → refs st !! p = Some (vino v, vn_refcount v, vn_opencount v).
Proof. intros Hp. unfold refs. by rewrite lookup_fmap, Hp. Qed.

Lemma refs_put st p v : refs (vput p v st) = <[p := (vino v, vn_refcount v, vn_opencount v)]> (refs st).
Proof. unfold refs. simpl. by rewrite fmap_insert. Qed.

(** A vnode changes but for its number and its counts. *)
Lemma refs_data st p v s sv' : vheap st !! p = Some v → sv_ino sv' = vino v → refs (vput p (with_data sv' v) (set_d s st)) = refs st.
Proof.
  intros Hp Hi. rewrite refs_put. simpl. rewrite Hi. change (refs (set_d s st)) with (refs st). apply insert_id. by apply refs_of.
Qed.

Section load.
Context (present : Z → bool) (space : Z) (nomem : nat → bool).

(** The vnode is in the table, or not. *)
Lemma search_table st F M L D n ino ty : inv st F M L D n → n < 2 ^ 31 - 1 → ty = SFS_TYPE_INVAL ∨ F !! ino = None →
  let run := for_loop (Z.to_nat (array_getnum (sfs_vnodes st))) 0 (load_turn ino ty) st in
  (run = Ret (inl st) ∧ ∀ p v, vheap st !! p = Some v → vino v ≠ ino) ∨
  (∃ p v, run = Ret (inr (vput p (with_refcount (vn_refcount v + 1) v) st, p)) ∧ vheap st !! p = Some v ∧ vino v = ino).
Proof.
  intros Hi Hn Hty run. unfold run. destruct (iv_table _ _ _ _ _ _ Hi) as (ptrs & Har & _ & Hptr).
  pose proof (ar_num _ _ Har) as Hnum. unfold array_getnum. rewrite Hnum, Nat2Z.id.
  destruct (for_loop_inv (λ i st', st' = st ∧ ∀ j p v, (Z.of_nat j < i) → ptrs !! j = Some p → vheap st !! p = Some v → vino v ≠ ino)
    (λ r, ∃ v, r = (vput r.2 (with_refcount (vn_refcount v + 1) v) st, r.2) ∧ vheap st !! r.2 = Some v ∧ vino v = ino)
    (load_turn ino ty) (length ptrs) 0 st) as [(st' & -> & -> & Hno)|([st' p] & -> & v & Hr & Hv & Hino)].
  - split; [done|]. intros j p v Hj. lia.
  - intros i st' Hir [-> Hno]. destruct (lookup_lt_is_Some_2 ptrs (Z.to_nat i)) as [p Hp]; [lia|]. unfold load_turn.
    rewrite (array_getguy_ok (sfs_vnodes st) ptrs i p) by (done || lia). ostep.
    destruct (proj1 (Hptr p)) as [v Hv]; [by eapply list_elem_of_lookup_2|]. rewrite (vget_ok p st v Hv). ostep.
    destruct (inv_file _ _ _ _ _ _ _ _ Hi Hv) as (HF & (Hs & Hf & _) & _). destruct (fo_own _ _ Hf _ (own_ino _ _)) as [Hrange Hm].
    destruct (sfs_bused_ok (sfs_d st) (vino v) Hs ltac:(lia)) as (r & -> & Hused). ostep. rewrite (proj2 Hused Hm). cbn [negb].
    destruct (decide (vino v = ino)) as [He|He].
    + right. rewrite bool_decide_eq_true_2 by done. destruct Hty as [->|Hnone]; [|congruence]. cbn [c_assert bool_decide]. ostep.
      rewrite (proj1 (vnode_incref_ok st F M L D n p v Hi Hv Hn)). ostep. eexists. split; [done|]. exists v. done.
    + left. rewrite bool_decide_eq_false_2 by done. exists st. split; [done|]. split; [done|]. intros j q w Hj Hq Hw.
      destruct (decide (Z.of_nat j = i)) as [<-|]; [|eapply Hno; [|done|done]; lia]. rewrite Nat2Z.id in Hp. congruence.
  - left. split; [done|]. intros p v Hv. assert (Hin : p ∈ ptrs) by (apply Hptr; eauto). apply list_elem_of_lookup_1 in Hin as [j Hj].
    eapply Hno; [|done|done]. apply lookup_lt_Some in Hj. lia.
  - right. injection Hr as ->. eauto.
Qed.

(** The new vnode, or not enough memory. *)
Lemma enter_vnode_ok st ptrs p ino i dirty : arepr (sfs_vnodes st) ptrs → len ptrs < 2 ^ 29 →
  sfi_type i = (if decide (ino = 1) then SFS_TYPE_DIR else SFS_TYPE_FILE) →
  ∃ k, (nalloc st ≤ k)%nat ∧
    ((enter_vnode nomem p ino i dirty st = Ret (set_nalloc k st, inl ENOMEM) ∧ ∃ j, nomem j = true) ∨
     ∃ a, arepr a (ptrs ++ [p]) ∧
       enter_vnode nomem p ino i dirty st = Ret (vput p (Vnode 1 0 (ops_of ino) (SfsVnode i ino dirty)) (set_nalloc k (set_vnodes a st)), inr p)).
Proof.
  intros Har Hsm Hty. unfold enter_vnode.
  assert (Hops : (if bool_decide (sfi_type i = SFS_TYPE_FILE) then Ret sfs_fileops
         else if bool_decide (sfi_type i = SFS_TYPE_DIR) then Ret sfs_dirops else Panic) = Ret (ops_of ino))
    by (rewrite Hty; unfold ops_of; by case_decide).
  rewrite Hops. ostep. unfold vnode_init, create_countlock, kmalloc.
  destruct (nomem (nalloc st)) eqn:H1.
  { exists (S (nalloc st)). split; [lia|]. left. eauto. }
  cbn [nalloc set_nalloc]. destruct (nomem (S (nalloc st))) eqn:H2.
  { exists (S (S (nalloc st))). split; [lia|]. left. eauto. }
  cbn [nalloc set_nalloc]. exists (S (S (S (nalloc st)))). split; [lia|].
  destruct (array_add_ok (λ _, negb (nomem (S (S (nalloc st))))) (sfs_vnodes st) ptrs p Har Hsm) as [(a & Hadd & Har' & _)|(Hadd & _ & j & Hj)];
    cbn [sfs_vnodes set_nalloc nalloc]; rewrite Hadd; ostep.
  - right. rewrite (bool_decide_eq_false_2 (0 ≠ 0)) by tauto. exists a. by split.
  - left. change (bool_decide (ENOMEM ≠ 0)) with true. unfold vnode_kill. cbn. split; [by destruct st|].
    exists (S (S (nalloc st))). by apply negb_false_iff.
Qed.

Lemma enter_ok st F M L D n p ino i dirty F' L' : inv st F M L D n → 1 ≤ n → (p < nalloc st)%nat → vheap st !! p = None →
  (∀ q v, vheap st !! q = Some v → vino v ≠ ino) → F' !! ino = Some (SfsVnode i ino dirty) → (∀ j, j ≠ ino → F' !! j = F !! j) →
  disk_ok (sfs_d st) F' L' → tree_ok (sfs_d st) F' M D →
  returns (enter_vnode nomem p ino i dirty st) (λ '(st', r), sfs_d st' = sfs_d st ∧
    match r with
    | inl e => e = ENOMEM ∧ (∃ j, nomem j = true) ∧ refs st' = refs st ∧ inv st' F M L D n
    | inr q => ref_loaded (refs st) ino q (refs st') ∧ inv st' F' M L' D n
    end).
Proof.
  intros Hi Hn Hp Hnone Hnot HF' Hother Hd' Ht'. destruct (iv_table _ _ _ _ _ _ Hi) as (ptrs & Har & Hnd & Hptr).
  pose proof (tr_type _ _ _ _ Ht' _ _ HF') as Hty. pose proof (table_small _ _ _ _ _ _ _ Hi Hnd Hptr) as Hsm.
  destruct (enter_vnode_ok st ptrs p ino i dirty Har Hsm Hty) as (k & Hk & [[-> Hj]|(a & Ha & ->)]); apply returns_ret; (split; [done|]).
  - split_and!; try done. by apply inv_nalloc.
  - split.
    + right. rewrite refs_put. change (refs (set_nalloc k (set_vnodes a st))) with (refs st). split_and!; try done.
      * unfold refs. by rewrite lookup_fmap, Hnone.
      * intros q rc oc (v & Hv & Hino & _)%refs_some. by apply (Hnot q v).
    + change (inv (vput p (Vnode 1 0 (ops_of ino) (SfsVnode i ino dirty)) (set_vnodes a (set_d (sfs_d st) (set_nalloc k st)))) F' M L' D n).
      eapply inv_enter; try done; [by apply inv_nalloc|simpl; lia].
Qed.

(** A file's vnode: loaded, or no memory for it. *)
Definition load_post (st : sfs) F M L D n ino (st' : sfs) (r : result nat) : Prop :=
  inv st' F M L D (n + 1) ∧ frame (sfs_d st) F (sfs_d st') F ∅ ∧
  match r with
  | inl e => e = ENOMEM ∧ (∃ j, nomem j = true) ∧ refs st' = refs st
  | inr p => ref_loaded (refs st) ino p (refs st')
  end.

Lemma sfs_loadvnode_ok st F M L D n ino sv : inv st F M L D n → 0 ≤ n < 2 ^ 31 - 1 → F !! ino = Some sv →
  returns (sfs_loadvnode present space nomem ino SFS_TYPE_INVAL st) (λ '(st', r), load_post st F M L D n ino st' r).
Proof.
  intros Hi Hn HF. unfold sfs_loadvnode, load_post.
  destruct (search_table st F M L D n ino SFS_TYPE_INVAL Hi) as [[-> Hnot]|(p & v & -> & Hv & Hino)]; [lia|by left|..]; ostep.
  2: { apply returns_ret. destruct (vnode_incref_ok st F M L D n p v Hi Hv ltac:(lia)) as [_ Hi']. split; [done|]. split; [apply frame_refl|].
       left. exists (vn_refcount v), (vn_opencount v). rewrite refs_put. simpl. rewrite Hino. split; [|done]. by rewrite (refs_of st p v Hv), Hino. }
  destruct (iv_cold _ _ _ _ _ _ Hi ino sv HF) as [(q & w & Hq & Hw)|[Hclean Hl]]; [by destruct (Hnot q w)|].
  pose proof (inv_mono _ _ _ _ _ _ (n + 1) Hi ltac:(lia)) as Hi1. apply (inv_nalloc _ _ _ _ _ _ (S (nalloc st))) in Hi1; [|lia].
  unfold kmalloc. destruct (nomem (nalloc st)) eqn:Hmem.
  { apply returns_ret. split; [done|]. split; [apply frame_refl|]. eauto. }
  set (st1 := set_nalloc (S (nalloc st)) st) in *. pose proof (iv_disk _ _ _ _ _ _ Hi) as Hd.
  destruct (dk_file _ _ _ Hd ino sv HF) as (Hino & Hg & Hik). pose proof Hg as (Hs & Hf & _).
  destruct (fo_own _ _ Hf _ (own_ino _ _)) as [Hrange Hm]. rewrite Hino in Hrange, Hm.
  destruct (sfs_bused_ok (sfs_d st) ino Hs ltac:(lia)) as (r & Hbu & Hused). change (sfs_d st1) with (sfs_d st). rewrite Hbu. ostep.
  rewrite (proj2 Hused Hm). cbn [negb].
  destruct (sfs_rblock_ok present space (sfs_d st) zero_block ino (inode_bytes (sv_i sv)) Hs) as (s' & -> & Hto); [done|lia| |].
  { rewrite <- (dk_disk _ _ _ Hd ino sv HF Hclean). destruct (sector_get (sfs_d st) ino Hs) as (blk & Hblk & _); [pose proof (fs_size _ Hs); lia|].
    unfold sector. by rewrite Hblk. }
  ostep. rewrite (bool_decide_eq_false_2 (0 ≠ 0)) by tauto. change (bool_decide (SFS_TYPE_INVAL ≠ SFS_TYPE_INVAL)) with false. cbv iota.
  rewrite (bytes_inode_bytes (sfs_d st) sv Hg Hik). destruct (inv_read st1 F M L D (n + 1) s' Hi1 Hto) as [Hi2 Hfr].
  eapply returns_mono; [eapply (enter_ok (set_d s' st1) F M L D (n + 1) (nalloc st) ino (sv_i sv) false F L Hi2)|].
  - lia.
  - simpl. lia.
  - simpl. apply eq_None_not_Some. intros [v Hv]. apply (iv_fresh _ _ _ _ _ _ Hi) in Hv. lia.
  - done.
  - rewrite HF. f_equal. destruct sv. simpl in *. congruence.
  - done.
  - apply Hi2.
  - apply Hi2.
  - intros [st' [e|p]] [-> Hpost]; simpl; naive_solver.
Qed.

(** The root directory's vnode; the code has no other answer to a lack of
    memory than to panic, but needs none when the vnode is there. *)
Lemma sfs_getroot_ok st F M L D n : inv st F M L D n → 0 ≤ n < 2 ^ 31 - 1 →
  (∃ d rc oc, refs st !! d = Some (1, rc, oc)) ∨ (∀ j, nomem j = false) →
  returns (sfs_getroot present space nomem st) (λ '(st', p), load_post st F M L D n 1 st' (inr p)).
Proof.
  intros Hi Hn Hcase. destruct (tr_root _ _ _ _ (iv_tree _ _ _ _ _ _ Hi)) as (rt & Hrt & _). unfold sfs_getroot, SFS_ROOT_LOCATION.
  destruct (sfs_loadvnode_ok st F M L D n 1 rt Hi Hn Hrt) as ([st' r] & Hrun & Hpost). rewrite Hrun. ostep.
  destruct r as [e|p]; [|by apply returns_ret]. destruct Hcase as [(d & rc & oc & (v & Hv & H1 & _)%refs_some)|Hmem].
  - unfold sfs_loadvnode in Hrun. destruct (search_table st F M L D n 1 SFS_TYPE_INVAL Hi) as [[_ Hnot]|(q & w & Hq & _)];
      [lia|by left|by destruct (Hnot d v)|]. rewrite Hq in Hrun. discriminate.
  - destruct Hpost as (_ & _ & _ & (j & Hj) & _). by rewrite Hmem in Hj.
Qed.

(** ** sfs_makeobj *)

Definition new_inode : sfs_inode := set_type SFS_TYPE_FILE (bytes_inode zero_block).

Lemma new_inode_ok : inode_ok new_inode.
Proof. split; [by left|done|]. split; [done|]. apply (Forall_replicate word 110 0). unfold word. lia. Qed.

Lemma own_new s b dirty : own s (SfsVnode new_inode b dirty) = [b].
Proof. done. Qed.

Lemma new_file_zero s b dirty q : fbyte s (SfsVnode new_inode b dirty) q = 0.
Proof.
  unfold fbyte, fblock. set (k := Z.to_nat (q / 512)).
  assert (Hz : default 0 (bmap_of s (SfsVnode new_inode b dirty) !! k) = 0).
  { change (bmap_of s (SfsVnode new_inode b dirty)) with (replicate 143 0). destruct (replicate 143 0 !! k) as [x|] eqn:Hx; [|done].
    by apply lookup_replicate in Hx as [-> _]. }
  rewrite Hz, decide_True by done. destruct (zero_block !! Z.to_nat (q mod 512)) as [x|] eqn:Hx; [|done].
  by apply lookup_replicate in Hx as [-> _].
Qed.

Lemma links_none (M : names) ino : (∀ w, M !! w ≠ Some ino) → links M ino = 0.
Proof.
  intros H. unfold links. assert (filter (λ wi : list Z * Z, wi.2 = ino) M = ∅) as ->; [|by rewrite map_size_empty].
  apply map_empty. intros w. apply map_lookup_filter_None. right. intros j Hw Hj. simpl in Hj. subst j. by apply (H w).
Qed.

Lemma tree_create s F M b s' : tree_ok s F M none_owed → F !! b = None → fs_ok s' → (∀ ino sv, F !! ino = Some sv → still s s' sv) →
  tree_ok s' (<[b := SfsVnode new_inode b true]> F) M none_owed.
Proof.
  intros Ht Hb Hs Hst. destruct (tree_still _ _ _ _ _ Ht Hs Hst) as [(rt & Hrt & Hdir) Hty Hnm Hlk].
  assert (H1 : b ≠ 1) by (intros ->; congruence). split.
  - exists rt. by rewrite lookup_insert_ne.
  - intros j sj [[<- <-]|[? Hj]]%lookup_insert_Some; [by rewrite decide_False|by apply Hty].
  - intros w j Hw. destruct (Hnm w j Hw) as [? [sj Hj]]. split; [done|]. rewrite lookup_insert_ne by congruence. eauto.
  - intros j sj [[<- <-]|[? Hj]]%lookup_insert_Some; [|by apply Hlk]. rewrite decide_False, links_none; [done| |done]. intros w Hw.
    destruct (Hnm w b Hw) as [_ [? ?]]. congruence.
Qed.

Definition make_post (st : sfs) F M L n (st' : sfs) (r : result nat) : Prop :=
  match r with
  | inl e => refs st' = refs st ∧ frame (sfs_d st) F (sfs_d st') F ∅ ∧
      ((e = ENOSPC ∧ (∀ j, 0 ≤ j < sp_nblocks (sfs_d st) → marked (sfs_d st) j) ∧ inv st' F M L none_owed (n + 1)) ∨
       (e = ENOMEM ∧ (∃ j, nomem j = true) ∧ ∃ b, inv st' F M (L ∪ {[b]}) none_owed (n + 1)))
  | inr p => ∃ b, F !! b = None ∧ ref_loaded (refs st) b p (refs st') ∧ frame (sfs_d st) F (sfs_d st') (<[b := SfsVnode new_inode b true]> F) {[b]} ∧
      inv st' (<[b := SfsVnode new_inode b true]> F) M L none_owed (n + 1)
  end.

(** The new inode is loaded from its zeroed block [b]. *)
Lemma load_new st F M L n b : inv st F M (L ∪ {[b]}) none_owed n → 0 ≤ n < 2 ^ 31 - 1 → F !! b = None →
  0 < b < sp_nblocks (sfs_d st) → marked (sfs_d st) b → sector (sfs_d st) b = zero_block →
  disk_ok (sfs_d st) (<[b := SfsVnode new_inode b true]> F) L →
  returns (sfs_loadvnode present space nomem b SFS_TYPE_FILE st) (λ '(st', r), frame (sfs_d st) F (sfs_d st') F ∅ ∧
    match r with
    | inl e => e = ENOMEM ∧ (∃ j, nomem j = true) ∧ refs st' = refs st ∧ inv st' F M (L ∪ {[b]}) none_owed (n + 1)
    | inr p => ref_loaded (refs st) b p (refs st') ∧ inv st' (<[b := SfsVnode new_inode b true]> F) M L none_owed (n + 1)
    end).
Proof.
  intros Hi Hn Hb Hr Hm Hz Hd'. pose proof (dk_fs _ _ _ Hd') as Hs. unfold sfs_loadvnode.
  destruct (search_table st F M _ none_owed n b SFS_TYPE_FILE Hi) as [[-> Hnot]|(p & v & _ & Hv & Hino)]; [lia|by right| |].
  2: { destruct (inv_file _ _ _ _ _ _ _ _ Hi Hv). congruence. }
  ostep. pose proof (inv_mono _ _ _ _ _ _ (n + 1) Hi ltac:(lia)) as Hi1. apply (inv_nalloc _ _ _ _ _ _ (S (nalloc st))) in Hi1; [|lia].
  unfold kmalloc. destruct (nomem (nalloc st)) eqn:Hmem.
  { apply returns_ret. split; [apply frame_refl|]. eauto. }
  set (st1 := set_nalloc (S (nalloc st)) st) in *. change (sfs_d st1) with (sfs_d st).
  destruct (sfs_bused_ok (sfs_d st) b Hs ltac:(lia)) as (r & -> & Hused). ostep. rewrite (proj2 Hused Hm). cbn [negb].
  destruct (sfs_rblock_ok present space (sfs_d st) zero_block b zero_block Hs) as (s' & -> & Hto); [done|lia| |].
  { rewrite <- Hz. destruct (sector_get (sfs_d st) b Hs) as (blk & Hblk & _); [pose proof (fs_size _ Hs); lia|].
    unfold sector. by rewrite Hblk. }
  ostep. rewrite (bool_decide_eq_false_2 (0 ≠ 0)) by tauto. change (bool_decide (SFS_TYPE_FILE ≠ SFS_TYPE_INVAL)) with true. cbv iota.
  change (bool_decide (sfi_type (bytes_inode zero_block) = SFS_TYPE_INVAL)) with true. cbn [c_assert]. ostep.
  destruct (inv_read st1 F M _ none_owed (n + 1) s' Hi1 Hto) as [Hi2 Hfr]. fold new_inode.
  eapply returns_mono; [eapply (enter_ok (set_d s' st1) F M _ none_owed (n + 1) (nalloc st) b new_inode true _ L Hi2)|].
  - lia.
  - simpl. lia.
  - simpl. apply eq_None_not_Some. intros [v Hv]. apply (iv_fresh _ _ _ _ _ _ Hi) in Hv. lia.
  - done.
  - apply lookup_insert_eq.
  - intros j Hj. by apply lookup_insert_ne.
  - by eapply disk_read.
  - eapply (tree_create s'); [apply Hi2|done|apply Hi2|]. intros ino sv Hino. apply still_refl.
    by destruct (dk_file _ _ _ (iv_disk _ _ _ _ _ _ Hi2) ino sv Hino) as (_ & (_ & ? & _) & _).
  - intros [st' [e|p]] [-> Hpost]; simpl; naive_solver.
Qed.

Lemma sfs_makeobj_ok st F M L n : inv st F M L none_owed n → 0 ≤ n < 2 ^ 31 - 1 →
  returns (sfs_makeobj present space nomem SFS_TYPE_FILE st) (λ '(st', r), make_post st F M L n st' r).
Proof.
  intros Hi Hn. pose proof (iv_disk _ _ _ _ _ _ Hi) as Hd. pose proof (dk_fs _ _ _ Hd) as Hs. unfold sfs_makeobj.
  pose proof (inv_mono _ _ _ _ _ _ (n + 1) Hi ltac:(lia)) as Hi1.
  destruct (sfs_balloc_ok present space (sfs_d st) Hs) as [(s' & b & fm & -> & Hb & Hnm & Hto & Hs' & Hm)|[-> Hfull]]; ostep.
  2: { apply returns_ret. split; [done|]. split; [apply frame_refl|]. left. split_and!; try done. by destruct st. }
  pose proof (alloc_fresh _ _ _ b Hd Hnm) as Hfresh. pose proof (disk_leak _ _ _ _ _ _ Hd Hb Hnm Hto Hs' Hm) as Hleak.
  assert (Hst : ∀ ino sv, F !! ino = Some sv → still (sfs_d st) s' sv).
  { intros ino sv Hino. destruct (dk_file _ _ _ Hd ino sv Hino) as (_ & (_ & Hf & _) & _). apply still_frame; [done|apply Hto|].
    intros x Hx. destruct (fo_own _ _ Hf x Hx) as [? Hmx]. destruct (alloc_other _ _ _ _ b _ Hd Hb Hnm Hto Hm x) as (? & _ & ?); [lia|done|done]. }
  pose proof (still_frames _ _ _ Hst) as Hfr.
  eapply returns_mono; [eapply (load_new (set_d s' st) F M L n b); [by eapply inv_still|done..| | | |]|].
  - simpl. by rewrite (ft_nblocks _ _ _ _ Hto).
  - apply Hm; [lia|by left].
  - rewrite (alloc_sector _ _ _ _ _ _ Hd Hb Hto) by lia. by rewrite decide_True.
  - eapply (disk_create _ _ _ _ _ _ Hd Hb Hnm Hto Hs' Hm); try done. apply new_inode_ok.
  - intros [st' [e|p]] [Hfr' Hpost]; pose proof (frame_trans_same _ _ _ _ _ _ _ Hfr Hfr') as Hfr2.
    + destruct Hpost as (-> & Hmem & Hrefs & Hi'). split_and!; try done. right. eauto.
    + destruct Hpost as [Hrl Hi']. exists b. split_and!; try done. intros j Hj. rewrite lookup_insert_ne by set_solver. apply Hfr2. set_solver.
Qed.
End load.
