(* ===== verification/SfsNames.v ===== *)
(** * Names: lookup, creation, linking, removal and renaming

    The operations of directories, from the search for a slot to sfs_rename.
    Between the steps of an operation a name may be in the directory that the
    link count does not count yet, or the other way round: the argument [D] of
    the invariant is what is owed. *)

From S2P Require Import Prelude Bitmap CArray KHeap KHeapSpec Coremap Uio CString.
From S2P Require Import Sfs SfsSpec SfsTrunc SfsTheorems SfsFrame SfsDir SfsDirSpec SfsVnode SfsInv SfsTree SfsOps SfsLoad.

(** ** Slots *)

Definition slot_at (s : sfs_fs) (F : gmap Z sfs_vnode) (slot : Z) (w : list Z) (ino : Z) : Prop :=
  ∃ rt, F !! 1 = Some rt ∧ 0 ≤ slot < nslots rt ∧ ent s rt slot = Some (w, ino).

Lemma slot_frame s F s' F' X slot w ino : slot_at s F slot w ino → frame s F s' F' X → 1 ∉ X → slot_at s' F' slot w ino.
Proof.
  intros (rt & Hrt & Hr & He) Hfr HX. pose proof (Hfr 1 HX) as Hk. rewrite Hrt in Hk. destruct (F' !! 1) as [rt'|] eqn:Hrt'; [|done].
  destruct Hk as [Hsz Hb]. exists rt'. split; [done|]. unfold nslots. rewrite Hsz. split; [done|]. rewrite <- He. unfold ent, raw. do 2 f_equal.
  apply fbytes_apart. intros x Hx. apply Hb. lia.
Qed.

Lemma slot_name_of s F M D slot w ino : tree_ok s F M D → slot_at s F slot w ino → M !! w = Some ino.
Proof.
  intros [(rt & Hrt & Hdir) _ _ _] (rt' & Hrt' & Hr & He). assert (rt' = rt) as -> by congruence. apply (do_map _ _ _ Hdir). eauto.
Qed.

Lemma same_file_frame s F L sv s' sv' : disk_ok s F L → F !! 1 = Some sv → same_file s sv s' sv' → frame s F s' (<[1 := sv']> F) ∅.
Proof.
  intros Hd H1 Hsf. pose proof (same_file_changes _ _ _ _ Hsf) as Hch. apply (frame_full _ _ _ _ 1).
  - eapply frame_mono; [by eapply frame_changes|set_solver].
  - rewrite H1, lookup_insert_eq. destruct Hsf as [He Hb]. split; [apply He|done].
Qed.

(** ** Files that are still there *)

(** What exists outside [X] after the operation existed before, with the same contents. *)
Definition keeps (s : sfs_fs) (F : gmap Z sfs_vnode) (s' : sfs_fs) (F' : gmap Z sfs_vnode) (X : gset Z) : Prop :=
  ∀ ino sv', ino ∉ X → F' !! ino = Some sv' →
    ∃ sv, F !! ino = Some sv ∧ sfi_size (sv_i sv') = sfi_size (sv_i sv) ∧ ∀ p, 0 ≤ p → fbyte s' sv' p = fbyte s sv p.

Lemma frame_keeps s F s' F' X Y : frame s F s' F' X → (∀ ino, ino ∈ X → ino ∈ Y ∨ F' !! ino = None) → keeps s F s' F' Y.
Proof.
  intros Hfr HX ino sv' Hn HF'. assert (Hn' : ino ∉ X) by (intros [?|?]%HX; [done|congruence]). pose proof (Hfr ino Hn') as Hk.
  rewrite HF' in Hk. destruct (F !! ino) as [sv|]; [|done]. exists sv. by split.
Qed.

Lemma keeps_trans s F s1 F1 s2 F2 X Y : keeps s F s1 F1 X → keeps s1 F1 s2 F2 Y → keeps s F s2 F2 (X ∪ Y).
Proof.
  intros H1 H2 ino sv2 Hn HF2. destruct (H2 ino sv2) as (sv1 & HF1 & Hs2 & Hb2); [set_solver|done|].
  destruct (H1 ino sv1) as (sv & HF & Hs1 & Hb1); [set_solver|done|]. exists sv. split; [done|]. split; [congruence|]. intros p Hp. by rewrite Hb2, Hb1.
Qed.

Lemma keeps_mono s F s' F' X Y : keeps s F s' F' X → X ⊆ Y → keeps s F s' F' Y.
Proof. intros H HXY ino sv' Hn. apply H. set_solver. Qed.

Lemma frame_keeps_same s F s' F' X : frame s F s' F' X → keeps s F s' F' X.
Proof. intros H. by eapply frame_keeps; [|left]. Qed.

(** One step after the other. *)
Ltac keep_hop := first [eassumption | eapply frame_keeps_same; eassumption].
Ltac keep_chain := eapply keeps_mono; [repeat first [keep_hop | eapply keeps_trans; [keep_hop|]]|set_solver].

(** A file is there as long as it has a name or someone refers to it. *)
Lemma inv_used st F M L n ino : inv st F M L none_owed n →
  is_Some (F !! ino) ↔ ino = 1 ∨ (∃ w, M !! w = Some ino) ∨ (∃ p rc oc, refs st !! p = Some (ino, rc, oc)).
Proof.
  intros Hi. pose proof (iv_tree _ _ _ _ _ _ Hi) as Ht. split.
  - intros [sv Hsv]. destruct (decide (ino = 1)) as [->|H1]; [by left|right].
    destruct (iv_cold _ _ _ _ _ _ Hi ino sv Hsv) as [(p & v & Hp & <-)|[_ Hl]]; [right; eexists _, _, _; by apply refs_of|left].
    pose proof (tr_links _ _ _ _ Ht _ _ Hsv) as Hlk. rewrite decide_False in Hlk by done. unfold none_owed, links in Hlk.
    destruct (map_choose (filter (λ wi : list Z * Z, wi.2 = ino) M)) as (w & j & [Hw Hj]%map_lookup_filter_Some); [|simpl in Hj; subst; eauto].
    intros He. rewrite He, map_size_empty in Hlk. lia.
  - intros [->|[[w Hw]|(p & rc & oc & (v & Hv & <- & _)%refs_some)]].
    + destruct (tr_root _ _ _ _ Ht) as (rt & Hrt & _). eauto.
    + by destruct (tr_names _ _ _ _ Ht w ino Hw).
    + destruct (inv_file _ _ _ _ _ _ _ _ Hi Hv). eauto.
Qed.

(** ** References to what has been loaded *)

Definition is_dir (R : reftab) (d : nat) : Prop := ∃ rc oc, R !! d = Some (1, rc, oc).

Lemma is_dir_vnode st d : is_dir (refs st) d → ∃ v, vheap st !! d = Some v ∧ vino v = 1.
Proof. intros (rc & oc & (v & ? & ? & _)%refs_some). eauto. Qed.

Lemma ref_loaded_keep (R R' : reftab) ino p d : ref_loaded R ino p R' → is_dir R d → is_dir R' d.
Proof.
  intros Hl (rc & oc & Hd). destruct (decide (p = d)) as [->|Hne].
  - destruct Hl as [(rc' & oc' & Hp & ->)|(Hp & _)]; [|congruence]. rewrite Hp in Hd. injection Hd as -> -> ->.
    exists (rc + 1), oc. by rewrite lookup_insert_eq.
  - exists rc, oc. destruct Hl as [(? & ? & _ & ->)|(_ & _ & ->)]; by rewrite lookup_insert_ne.
Qed.

Lemma ref_loaded_vnode st F M L D n st' ino p : inv st F M L D n → ref_loaded (refs st) ino p (refs st') →
  ∃ v, vheap st' !! p = Some v ∧ vino v = ino ∧ vn_opencount v < vn_refcount v.
Proof.
  intros Hi Hl. assert (∃ rc oc, refs st' !! p = Some (ino, rc, oc) ∧ oc < rc) as (rc & oc & (v & ? & ? & <- & <-)%refs_some & ?); [|eauto].
  destruct Hl as [(rc & oc & (w & Hw & Hx & <- & <-)%refs_some & ->)|(_ & _ & ->)]; [|exists 1, 0; split; [apply lookup_insert_eq|lia]].
  eexists _, _. split; [apply lookup_insert_eq|]. destruct (iv_vnode _ _ _ _ _ _ Hi p w Hw) as (_ & _ & ? & _). lia.
Qed.

(** Giving back what has been loaded. *)
Lemma ref_loaded_lost st F M L D n ino p R' : inv st F M L D n → ref_loaded (refs st) ino p R' → ref_lost R' p = refs st.
Proof.
  intros Hi [(rc & oc & Hp & ->)|(Hp & _ & ->)]; unfold ref_lost; rewrite lookup_insert_eq.
  - pose proof Hp as (w & Hw & _ & <- & _)%refs_some. destruct (iv_vnode _ _ _ _ _ _ Hi p w Hw) as (_ & ? & _).
    rewrite decide_True by lia. rewrite insert_insert_eq. replace (vn_refcount w + 1 - 1) with (vn_refcount w) by lia. by apply insert_id.
  - rewrite decide_False by lia. by apply delete_insert_id.
Qed.

(** [D] with [k] more for [ino]. *)
Definition owe (D : Z → Z) (ino k j : Z) : Z := if decide (j = ino) then D j + k else D j.

(** Why a name is refused: it exists, is too long, or there is no room on the
    disk or in the directory. *)
Definition link_refused (M : names) (w : list Z) (e : Z) : Prop :=
  (e = EEXIST ∧ is_Some (M !! w)) ∨ (e = ENAMETOOLONG ∧ M !! w = None ∧ (59 < length w)%nat) ∨
  (M !! w = None ∧ (e = ENOSPC ∨ e = EINVAL)).

Definition disk_full (s : sfs_fs) : Prop := ∀ j, 0 ≤ j < sp_nblocks s → marked s j.

Section names.
Context (present : Z → bool) (space : Z) (nomem : nat → bool).

Section dir.
Context (st : sfs) (F : gmap Z sfs_vnode) (M : names) (L : gset Z) (D : Z → Z) (n : Z) (d : nat) (v : vnode).
Context (Hi : inv st F M L D n) (Hd : vheap st !! d = Some v) (H1 : vino v = 1).

Lemma dir_findname_ok w t : nonzero w →
  returns (dir_findname present space d (w ++ 0 :: t) st) (λ '(e, st', q), e = lookup_result M w ∧ refs st' = refs st ∧
    ∃ F', inv st' F' M L D n ∧ frame (sfs_d st) F (sfs_d st') F' ∅ ∧
      ∀ ino, M !! w = Some ino → s_ino q = ino ∧ slot_at (sfs_d st') F' (s_slot q) w ino).
Proof.
  intros Hw. pose proof (inv_root_dir _ _ _ _ _ _ _ _ Hi Hd H1) as Hdir. destruct (inv_file _ _ _ _ _ _ _ _ Hi Hd) as (HF & Hg & _).
  unfold dir_findname. rewrite (vget_ok d st v Hd). ostep. eapply returns_bind; [by apply (sfs_dir_findname_ok present space _ _ M w t)|].
  intros [[[e s'] sv'] q] (Hsf & -> & Hfound & _). pose proof (same_file_changes _ _ _ _ Hsf) as Hch. apply returns_ret. split; [done|].
  split; [apply refs_data; [done|apply Hch]|]. exists (<[1 := sv']> F). pose proof (same_file_dir _ _ _ _ _ Hsf Hdir) as Hdir'.
  assert (Hfr : frame (sfs_d st) F s' (<[1 := sv']> F) ∅) by (eapply same_file_frame; [apply Hi|by rewrite <- H1|done]).
  split; [|split; [done|]].
  - rewrite <- H1. apply inv_changes; try done. destruct (do_good _ _ _ Hdir') as (_ & _ & ?). done.
  - intros ino Hino. destruct (Hfound ino Hino) as (? & Hr & He). split; [done|]. eapply slot_frame; [|exact Hfr|set_solver].
    exists (vn_data v). by rewrite <- H1.
Qed.

Lemma dir_link_ok w t ino : nonzero w → is_Some (F !! ino) → ino ≠ 1 →
  returns (dir_link present space d (w ++ 0 :: t) ino st) (λ '(e, st', slot), refs st' = refs st ∧ ∃ F',
    if decide (e = 0) then M !! w = None ∧ (length w ≤ 59)%nat ∧ inv st' F' (<[w := ino]> M) L (owe D ino 1) n ∧
      frame (sfs_d st) F (sfs_d st') F' {[1]} ∧ slot_at (sfs_d st') F' slot w ino ∧
      ∀ slot' w' ino', slot_at (sfs_d st) F slot' w' ino' → slot_at (sfs_d st') F' slot' w' ino'
    else inv st' F' M L D n ∧ frame (sfs_d st) F (sfs_d st') F' ∅ ∧ link_refused M w e ∧ (e = ENOSPC → disk_full (sfs_d st'))).
Proof.
  intros Hw [sf Hsf] Hne. pose proof (inv_root_dir _ _ _ _ _ _ _ _ Hi Hd H1) as Hdir. destruct (inv_file _ _ _ _ _ _ _ _ Hi Hd) as (HF & Hg & _).
  pose proof (iv_disk _ _ _ _ _ _ Hi) as Hdk. destruct (dk_file _ _ _ Hdk ino sf Hsf) as (Hino & (Hs & Hf & _) & _).
  destruct (fo_own _ _ Hf _ (own_ino _ _)) as [Hrange _]. rewrite Hino in Hrange. pose proof (fs_size _ Hs).
  unfold dir_link. rewrite (vget_ok d st v Hd). ostep. eapply returns_bind; [by apply (sfs_dir_link_ok present space _ _ M w t ino); [..|lia]|].
  intros [[[e s'] sv'] slot] [Hch Hpost]. apply returns_ret. split; [apply refs_data; [done|apply Hch]|]. exists (<[1 := sv']> F).
  case_decide as He.
  - destruct Hpost as (HM & Hl & Hdir' & Hslot & Hent & Hkeep & Hgrow). split; [done|]. split; [done|]. split; [|split; [|split]].
    + eapply inv_names; try done.
      * intros x j [[<- <-]|[? Hx]]%lookup_insert_Some; [by eauto|]. by apply (tr_names _ _ _ _ (iv_tree _ _ _ _ _ _ Hi) x).
      * intros j sj Hj. rewrite links_insert by done. unfold owe. destruct (decide (j = ino)) as [->|]; [rewrite decide_True by done|rewrite decide_False by done]; lia.
    + rewrite <- H1. eapply frame_changes; [apply Hi|done|done].
    + exists sv'. by rewrite lookup_insert_eq.
    + intros slot' w' ino' (rt & Hrt & Hr & Hx). assert (rt = vn_data v) as -> by congruence. exists sv'. rewrite lookup_insert_eq.
      split; [done|]. split; [lia|]. by apply Hkeep.
  - destruct Hpost as [Hsame Hwhy]. split; [|split; [|split]].
    + rewrite <- H1. pose proof (same_file_dir _ _ _ _ _ Hsame Hdir) as Hdir'. apply inv_changes; try done.
      by destruct (do_good _ _ _ Hdir') as (_ & _ & ?).
    + eapply same_file_frame; [apply Hi|by rewrite <- H1|done].
    + unfold link_refused, no_room in *. naive_solver.
    + intros ->. unfold no_room in *. by destruct Hwhy as [[? _]|[[? _]|(_ & [[_ ?]|[? _]])]].
Qed.

Lemma dir_unlink_ok slot w ino : slot_at (sfs_d st) F slot w ino →
  returns (dir_unlink present space d slot st) (λ '(e, st'), e = 0 ∧ refs st' = refs st ∧ ∃ F',
    inv st' F' (delete w M) L (owe D ino (-1)) n ∧ frame (sfs_d st) F (sfs_d st') F' {[1]}).
Proof.
  intros Hslot. pose proof (slot_name_of _ _ _ _ _ _ _ (iv_tree _ _ _ _ _ _ Hi) Hslot) as HM. destruct Hslot as (rt & Hrt & Hr & He).
  pose proof (inv_root_dir _ _ _ _ _ _ _ _ Hi Hd H1) as Hdir. destruct (inv_file _ _ _ _ _ _ _ _ Hi Hd) as (HF & Hg & _).
  assert (rt = vn_data v) as -> by congruence. unfold dir_unlink. rewrite (vget_ok d st v Hd). ostep.
  eapply returns_bind; [by eapply (sfs_dir_unlink_ok present space _ _ M slot w ino)|]. intros [[e s'] sv'] (-> & Hch & Hdir').
  apply returns_ret. split; [done|]. split; [apply refs_data; [done|apply Hch]|]. exists (<[1 := sv']> F). split.
  - eapply inv_names; try done.
    + intros x j [_ Hx]%lookup_delete_Some. by apply (tr_names _ _ _ _ (iv_tree _ _ _ _ _ _ Hi) x).
    + intros j sj Hj. rewrite (links_delete _ _ _ _ HM). unfold owe. destruct (decide (j = ino)) as [->|]; [rewrite decide_True by done|rewrite decide_False by done]; lia.
  - rewrite <- H1. eapply frame_changes; [apply Hi|done|done].
Qed.
End dir.

(** ** Links *)

(** What was owed is paid. *)
Lemma add_links_ok st F M L n p v k : inv st F M L (owe none_owed (vino v) k) n → vheap st !! p = Some v → vino v ≠ 1 →
  returns (add_links p k (Some true) st) (λ st', refs st' = refs st ∧
    ∃ F', inv st' F' M L none_owed n ∧ frame (sfs_d st) F (sfs_d st') F' ∅).
Proof.
  intros Hi Hp H1. destruct (inv_file _ _ _ _ _ _ _ _ Hi Hp) as (HF & _). pose proof (links_small _ _ _ _ (vino v) (iv_tree _ _ _ _ _ _ Hi)) as Hsm.
  assert (Hk : owe none_owed (vino v) k (vino v) = k) by (unfold owe, none_owed; by rewrite decide_True).
  pose proof (tr_links _ _ _ _ (iv_tree _ _ _ _ _ _ Hi) _ _ HF) as Hl. rewrite decide_False, Hk in Hl by done.
  unfold add_links. rewrite (vget_ok p st v Hp). ostep. cbn [default]. unfold u16. rewrite Z.mod_small by lia. apply returns_ret.
  split; [by apply (refs_data st p v (sfs_d st))|]. eexists. split.
  - eapply inv_ext; [apply (inv_links st F M L (owe none_owed (vino v) k) n p v k); try done; rewrite Hk; lia|]. intros j. unfold owe, none_owed. by repeat case_decide; lia.
  - intros j _. destruct (decide (j = vino v)) as [->|]; [rewrite HF, lookup_insert_eq|rewrite lookup_insert_ne by done; apply kept_refl]. done.
Qed.

(** ** sfs_lookonce *)

Definition look_post (st : sfs) F M L n w (st' : sfs) (r : result (nat * Z)) : Prop :=
  ∃ F', inv st' F' M L none_owed (n + 1) ∧ frame (sfs_d st) F (sfs_d st') F' ∅ ∧
  match r with
  | inl e => refs st' = refs st ∧ ((e = ENOENT ∧ M !! w = None) ∨ (e = ENOMEM ∧ ∃ j, nomem j = true))
  | inr (p, slot) => ∃ ino, M !! w = Some ino ∧ ref_loaded (refs st) ino p (refs st') ∧ slot_at (sfs_d st') F' slot w ino
  end.

Lemma sfs_lookonce_ok st F M L n d w t : inv st F M L none_owed n → 0 ≤ n < 2 ^ 31 - 1 → is_dir (refs st) d → nonzero w →
  returns (sfs_lookonce present space nomem d (w ++ 0 :: t) st) (λ '(st', r), look_post st F M L n w st' r).
Proof.
  intros Hi Hn (v & Hd & H1)%is_dir_vnode Hw. unfold sfs_lookonce. eapply returns_bind; [by eapply dir_findname_ok|].
  intros [[e st1] q] (-> & Hr1 & F1 & Hi1 & Hfr1 & Hfound). unfold lookup_result, look_post. destruct (M !! w) as [ino|] eqn:HM.
  2: { apply returns_ret. exists F1. split; [eapply inv_mono; [done|lia]|]. split; [done|]. split; [done|]. by left. }
  destruct (Hfound ino eq_refl) as [-> Hslot]. rewrite (bool_decide_eq_false_2 (0 ≠ 0)) by tauto.
  destruct (tr_names _ _ _ _ (iv_tree _ _ _ _ _ _ Hi1) w ino HM) as [Hne [sv Hsv]].
  eapply returns_bind; [by eapply sfs_loadvnode_ok|]. intros [st2 r] (Hi2 & Hfr2 & Hr2). rewrite Hr1 in Hr2.
  pose proof (frame_trans_same _ _ _ _ _ _ _ Hfr1 Hfr2) as Hfr. destruct r as [e|p].
  - apply returns_ret. exists F1. destruct Hr2 as (-> & ? & ?). split_and!; try done. right. done.
  - rewrite <- Hr1 in Hr2. destruct (ref_loaded_vnode st1 _ _ _ _ _ st2 ino p Hi1 Hr2) as (v2 & Hv2 & Hino & _).
    rewrite (vget_ok p st2 v2 Hv2). ostep. destruct (inv_file _ _ _ _ _ _ _ _ Hi2 Hv2) as (HF2 & _).
    pose proof (tr_links _ _ _ _ (iv_tree _ _ _ _ _ _ Hi2) _ _ HF2) as Hl. pose proof (links_pos M w ino HM).
    rewrite Hino, decide_False in Hl by done. unfold none_owed in Hl. rewrite bool_decide_eq_false_2 by lia. apply returns_ret. exists F1.
    split_and!; try done. exists ino. rewrite <- Hr1. split_and!; try done. eapply slot_frame; [done|exact Hfr2|set_solver].
Qed.

(** What has been loaded is given back. *)
Lemma give_back st F M L n p v : inv st F M L none_owed n → vheap st !! p = Some v → vn_opencount v < vn_refcount v →
  returns (vnode_decref present space p st) (λ st', ∃ F', inv st' F' M L none_owed n ∧ refs st' = ref_lost (refs st) p ∧
    keeps (sfs_d st) F (sfs_d st') F' ∅).
Proof.
  intros Hi Hp Ho. eapply returns_mono; [by eapply vnode_decref_ok|]. intros st' (F' & Hi' & Hr & Hfr & Hgone).
  exists F'. split_and!; try done. eapply frame_keeps; [done|]. intros ino Hino. right. auto.
Qed.

(** ** sfs_link *)

Definition link_ok_post (st : sfs) F M L n w ino (e : Z) (st' : sfs) : Prop :=
  refs st' = refs st ∧ ∃ F' M', inv st' F' M' L none_owed n ∧ keeps (sfs_d st) F (sfs_d st') F' {[1]} ∧
    if decide (e = 0) then M !! w = None ∧ (length w ≤ 59)%nat ∧ M' = <[w := ino]> M else M' = M ∧ link_refused M w e ∧ (e = ENOSPC → disk_full (sfs_d st')).

Lemma sfs_link_ok st F M L n d w t p ino rc oc : inv st F M L none_owed n → is_dir (refs st) d → nonzero w →
  refs st !! p = Some (ino, rc, oc) → ino ≠ 1 →
  returns (sfs_link present space d (w ++ 0 :: t) p st) (λ '(e, st'), link_ok_post st F M L n w ino e st').
Proof.
  intros Hi (v & Hd & H1)%is_dir_vnode Hw Hpr Hne. pose proof Hpr as (f & Hf & Hino & _)%refs_some. unfold sfs_link, link_ok_post.
  rewrite (vget_ok p st f Hf). ostep. rewrite Hino. destruct (inv_file _ _ _ _ _ _ _ _ Hi Hf) as (HF & _).
  eapply returns_bind; [eapply (dir_link_ok st F M L none_owed n d v Hi Hd H1 w t ino); [done|rewrite <- Hino; eauto|done]|].
  intros [[e st1] slot] (Hr1 & F1 & Hpost). case_decide as He.
  - subst e. rewrite (bool_decide_eq_false_2 (0 ≠ 0)) by tauto. destruct Hpost as (HM & Hl & Hi1 & Hfr1 & _).
    rewrite <- Hr1 in Hpr. apply refs_some in Hpr as (f1 & Hf1 & Hino1 & _). rewrite <- Hino1 in Hi1.
    eapply returns_bind; [eapply (add_links_ok st1 F1 _ L n p f1 1); [exact Hi1|done|congruence]|].
    intros st2 (Hr2 & F2 & Hi2 & Hfr2). apply returns_ret. split; [congruence|]. rewrite Hino1 in Hi2. eexists F2, _. split; [done|]. split; [|done].
    keep_chain.
  - rewrite bool_decide_eq_true_2 by done. apply returns_ret. destruct Hpost as (Hi1 & Hfr1 & Hwhy). split; [done|].
    eexists F1, M. split; [done|]. split; [keep_chain|]. by rewrite decide_False.
Qed.

(** A name has gone, the count has not: it is positive. *)
Lemma owed_linked st F M L n p v : inv st F M L (owe none_owed (vino v) (-1)) n → vheap st !! p = Some v → vino v ≠ 1 →
  0 < sfi_linkcount (sv_i (vn_data v)).
Proof.
  intros Hi Hv H1. destruct (inv_file _ _ _ _ _ _ _ _ Hi Hv) as (HF & _).
  pose proof (tr_links _ _ _ _ (iv_tree _ _ _ _ _ _ Hi) _ _ HF) as Hl. rewrite decide_False in Hl by done.
  pose proof (links_size M (vino v)). unfold owe, none_owed in Hl. rewrite decide_True in Hl by done. lia.
Qed.

(** ** sfs_remove *)

Definition remove_post (st : sfs) F M L n w (e : Z) (st' : sfs) : Prop :=
  refs st' = refs st ∧ ∃ F' M', inv st' F' M' L none_owed (n + 1) ∧ keeps (sfs_d st) F (sfs_d st') F' {[1]} ∧
    ((e = 0 ∧ is_Some (M !! w) ∧ M' = delete w M) ∨ (M' = M ∧ ((e = ENOENT ∧ M !! w = None) ∨ (e = ENOMEM ∧ ∃ j, nomem j = true)))).

(** The loaded file at [p] loses its name in [slot], is counted and given back. *)
Lemma unlink_ends st0 F0 M0 L0 n0 st F M L n d p slot w ino : inv st0 F0 M0 L0 none_owed n0 → ref_loaded (refs st0) ino p (refs st) →
  inv st F M L none_owed n → is_dir (refs st) d → slot_at (sfs_d st) F slot w ino →
  ∃ st2 v2 st3 st4 F4, dir_unlink present space d slot st = Ret (0, st2) ∧ vget p st2 = Ret v2 ∧ 0 < sfi_linkcount (sv_i (vn_data v2)) ∧
    add_links p (-1) (Some true) st2 = Ret st3 ∧ vnode_decref present space p st3 = Ret st4 ∧ refs st4 = refs st0 ∧
    inv st4 F4 (delete w M) L none_owed n ∧ keeps (sfs_d st) F (sfs_d st4) F4 {[1]}.
Proof.
  intros Hi0 Hload Hi (v & Hd & H1)%is_dir_vnode Hslot. pose proof (slot_name_of _ _ _ _ _ _ _ (iv_tree _ _ _ _ _ _ Hi) Hslot) as HM.
  destruct (tr_names _ _ _ _ (iv_tree _ _ _ _ _ _ Hi) w ino HM) as [Hne _].
  destruct (dir_unlink_ok st F M L none_owed n d v Hi Hd H1 slot w ino Hslot) as ([e st2] & -> & -> & Hr2 & F2 & Hi2 & Hfr2). rewrite <- Hr2 in Hload.
  destruct (ref_loaded_vnode st0 F0 M0 L0 none_owed n0 st2 ino p Hi0 Hload) as (v2 & Hv2 & Hino2 & _). rewrite <- Hino2 in Hi2.
  pose proof (owed_linked st2 F2 _ L _ p v2 Hi2 Hv2 ltac:(congruence)) as Hpos.
  destruct (add_links_ok st2 F2 _ L _ p v2 (-1) Hi2 Hv2) as (st3 & Hadd & Hr3 & F3 & Hi3 & Hfr3); [congruence|]. rewrite <- Hr3 in Hload.
  destruct (ref_loaded_vnode st0 F0 M0 L0 none_owed n0 st3 ino p Hi0 Hload) as (v3 & Hv3 & _ & Hoc3).
  destruct (give_back st3 F3 _ L n p v3 Hi3 Hv3 Hoc3) as (st4 & Hdec & F4 & Hi4 & Hr4 & Hk4).
  exists st2, v2, st3, st4, F4. split_and!; try done; [by apply vget_ok|rewrite Hr4; by eapply ref_loaded_lost|]. keep_chain.
Qed.

Lemma sfs_remove_ok st F M L n d w t : inv st F M L none_owed n → 0 ≤ n < 2 ^ 31 - 1 → is_dir (refs st) d → nonzero w →
  returns (sfs_remove present space nomem d (w ++ 0 :: t) st) (λ '(e, st'), remove_post st F M L n w e st').
Proof.
  intros Hi Hn Hdir Hw. unfold sfs_remove, remove_post. eapply returns_bind; [by eapply sfs_lookonce_ok|].
  intros [st1 [e|[p slot]]] (F1 & Hi1 & Hfr1 & Hr).
  { apply returns_ret. destruct Hr as [Hr1 Hwhy]. split; [done|]. exists F1, M. split; [done|]. split; [keep_chain|]. by right. }
  destruct Hr as (ino & HM & Hload & Hslot).
  destruct (unlink_ends st F M L n st1 F1 M L (n + 1) d p slot w ino) as (st2 & v2 & st3 & st4 & F4 & -> & Hget & Hpos & Hadd & Hdec & Hr4 & Hi4 & Hk4);
    try done; [by eapply ref_loaded_keep|]. ostep.
  rewrite (bool_decide_eq_true_2 (0 = 0)) by done. rewrite Hget. ostep. rewrite bool_decide_eq_true_2 by done. cbn [c_assert]. ostep.
  rewrite Hadd. ostep. rewrite Hdec. ostep. apply returns_ret. split; [done|]. exists F4, (delete w M). split; [done|]. split; [keep_chain|]. left. eauto.
Qed.

(** ** sfs_rename *)

Definition rename_post (st : sfs) F M L n w1 w2 (e : Z) (st' : sfs) : Prop :=
  refs st' = refs st ∧ ∃ F' M', inv st' F' M' L none_owed (n + 1) ∧ keeps (sfs_d st) F (sfs_d st') F' {[1]} ∧
    ((e = 0 ∧ M !! w2 = None ∧ (length w2 ≤ 59)%nat ∧ ∃ ino, M !! w1 = Some ino ∧ M' = delete w1 (<[w2 := ino]> M)) ∨
     (e ≠ 0 ∧ M' = M ∧ ((e = ENOENT ∧ M !! w1 = None) ∨ (e = ENOMEM ∧ ∃ j, nomem j = true) ∨ (is_Some (M !! w1) ∧ link_refused M w2 e)))).

Lemma sfs_rename_ok st F M L n d w1 t1 w2 t2 : inv st F M L none_owed n → 0 ≤ n < 2 ^ 31 - 1 → is_dir (refs st) d → nonzero w1 → nonzero w2 →
  returns (sfs_rename present space nomem d (w1 ++ 0 :: t1) d (w2 ++ 0 :: t2) st) (λ '(e, st'), rename_post st F M L n w1 w2 e st').
Proof.
  intros Hi Hn Hdir Hw1 Hw2. unfold sfs_rename, rename_post. rewrite bool_decide_eq_true_2 by done. cbn [c_assert]. ostep.
  destruct (is_dir_vnode st d Hdir) as (v & Hd & H1). rewrite (vget_ok d st v Hd). ostep.
  rewrite bool_decide_eq_true_2 by done. cbn [c_assert]. ostep. eapply returns_bind; [by eapply sfs_lookonce_ok|].
  intros [st1 [e|[p slot]]] (F1 & Hi1 & Hfr1 & Hr).
  { apply returns_ret. destruct Hr as [Hr1 Hwhy]. split; [done|]. exists F1, M. split; [done|]. split; [keep_chain|]. right.
    split; [by destruct Hwhy as [[-> _]|[-> _]]|]. split; [done|]. tauto. }
  destruct Hr as (ino & HM & Hload & Hslot). destruct (is_dir_vnode st1 d) as (v1 & Hd1 & Hv1); [by eapply ref_loaded_keep|].
  destruct (tr_names _ _ _ _ (iv_tree _ _ _ _ _ _ Hi1) w1 ino HM) as [Hne Hsome].
  destruct (ref_loaded_vnode st F M L none_owed n st1 ino p Hi Hload) as (g1 & Hg1 & Hino1 & _). rewrite (vget_ok p st1 g1 Hg1). ostep.
  destruct (inv_file _ _ _ _ _ _ _ _ Hi1 Hg1) as (HF1 & _). pose proof (tr_type _ _ _ _ (iv_tree _ _ _ _ _ _ Hi1) _ _ HF1) as Hty.
  rewrite Hino1, decide_False in Hty by done. rewrite bool_decide_eq_true_2 by done. cbn [c_assert]. ostep. rewrite Hino1.
  eapply returns_bind; [by eapply (dir_link_ok st1)|]. intros [[e st2] slot2] (Hr2 & F2 & Hpost). rewrite <- Hr2 in Hload.
  destruct (ref_loaded_vnode st F M L none_owed n st2 ino p Hi Hload) as (g2 & Hg2 & Hino2 & Hoc2). case_decide as He.
  2: { destruct Hpost as (Hi2 & Hfr2 & Hwhy & _). rewrite bool_decide_eq_true_2 by done. eapply returns_bind; [by eapply give_back|].
       intros st3 (F3 & Hi3 & Hr3 & Hk3). apply returns_ret. split; [rewrite Hr3; by eapply ref_loaded_lost|].
       exists F3, M. split; [done|]. split; [keep_chain|]. right. split_and!; try done. right. right. eauto. }
  subst e. rewrite (bool_decide_eq_false_2 (0 ≠ 0)) by tauto. destruct Hpost as (HM2 & Hl2 & Hi2 & Hfr2 & _ & Hkeep). rewrite <- Hino2 in Hi2.
  eapply returns_bind; [eapply (add_links_ok st2 F2 _ L _ p g2 1); [exact Hi2|done|congruence]|].
  intros st3 (Hr3 & F3 & Hi3 & Hfr3). rewrite <- Hr3 in Hload. pose proof (slot_frame _ _ _ _ _ _ _ _ (Hkeep _ _ _ Hslot) Hfr3 ltac:(set_solver)) as Hslot3.
  destruct (unlink_ends st F M L n st3 F3 _ L (n + 1) d p slot w1 ino Hi Hload Hi3)
    as (st4 & v4 & st5 & st6 & F6 & -> & Hget & Hpos & Hadd & Hdec & Hr6 & Hi6 & Hk6); [by eapply ref_loaded_keep|done|]. ostep.
  rewrite (bool_decide_eq_false_2 (0 ≠ 0)) by tauto. rewrite Hget. ostep. rewrite bool_decide_eq_true_2 by done. cbn [c_assert]. ostep.
  rewrite Hadd. ostep. rewrite Hdec. ostep. apply returns_ret. split; [done|]. rewrite Hino2 in Hi6. eexists F6, _. split; [done|].
  split; [keep_chain|]. left. split_and!; try done. exists ino. done.
Qed.

(** ** sfs_creat *)

(** A new file under a new name, a file that is there already, or an error;
    a block is lost when there is no memory for the vnode of the new file. *)
Definition creat_post (st : sfs) F M L n w (excl : bool) (st' : sfs) (r : result nat) : Prop :=
  ∃ F' M' L', inv st' F' M' L' none_owed (n + 1) ∧
  match r with
  | inr p => L' = L ∧ ∃ ino, ref_loaded (refs st) ino p (refs st') ∧
      match M !! w with
      | Some i => i = ino ∧ excl = false ∧ M' = M ∧ keeps (sfs_d st) F (sfs_d st') F' {[1]}
      | None => F !! ino = None ∧ (length w ≤ 59)%nat ∧ M' = <[w := ino]> M ∧ keeps (sfs_d st) F (sfs_d st') F' {[1; ino]} ∧
          ∃ sv, F' !! ino = Some sv ∧ sfi_size (sv_i sv) = 0 ∧ ∀ q, 0 ≤ q → fbyte (sfs_d st') sv q = 0
      end
  | inl e => refs st' = refs st ∧ M' = M ∧ keeps (sfs_d st) F (sfs_d st') F' {[1]} ∧
      ((e = EEXIST ∧ excl = true ∧ is_Some (M !! w) ∧ L' = L) ∨ (e = ENOMEM ∧ (∃ j, nomem j = true) ∧ (L' = L ∨ ∃ b, L' = L ∪ {[b]})) ∨
       (M !! w = None ∧ L' = L ∧ (e = ENOSPC ∨ e = EINVAL ∨ (e = ENAMETOOLONG ∧ (59 < length w)%nat))))
  end.

(** The rest of it when the name is new. *)
Lemma creat_new st F M L n d w t : inv st F M L none_owed n → 0 ≤ n < 2 ^ 31 - 1 → is_dir (refs st) d → nonzero w → M !! w = None → ∀ excl,
  returns ('(st, r) ← sfs_makeobj present space nomem SFS_TYPE_FILE st;
      match r with
      | inl e => Ret (st, inl e)
      | inr newguy =>
          v ← vget newguy st;
          '(result, st, _) ← dir_link present space d (w ++ 0 :: t) (sv_ino (vn_data v)) st;
          if bool_decide (result ≠ 0) then st ← vnode_decref present space newguy st; Ret (st, inl result)
          else st ← add_links newguy 1 (Some true) st; Ret (st, inr newguy)
      end) (λ '(st', r), creat_post st F M L n w excl st' r).
Proof.
  intros Hi Hn Hdir Hw HM excl. unfold creat_post. rewrite HM. eapply returns_bind; [by eapply sfs_makeobj_ok|]. intros [st1 [e|p]] Hpost.
  { apply returns_ret. destruct Hpost as (Hr1 & Hfr1 & [(-> & _ & Hi1)|(-> & Hmem & b & Hi1)]); eexists F, M, _; (split; [exact Hi1|]);
      (split_and!; [done|done|keep_chain|]); [right; right; tauto|right; left]. split; [done|]. split; [done|]. right. eauto. }
  destruct Hpost as (b & Hb & Hload & Hfr1 & Hi1). destruct (ref_loaded_vnode _ _ _ _ _ _ _ _ _ Hi Hload) as (v1 & Hv1 & Hino1 & _).
  rewrite (vget_ok p st1 v1 Hv1). ostep. rewrite Hino1. destruct (is_dir_vnode st1 d) as (dv & Hd1 & Hdv); [by eapply ref_loaded_keep|].
  assert (Hb1 : b ≠ 1) by (intros ->; destruct (tr_root _ _ _ _ (iv_tree _ _ _ _ _ _ Hi)) as (? & ? & _); congruence).
  eapply returns_bind; [eapply (dir_link_ok st1 _ M L none_owed (n + 1) d dv Hi1 Hd1 Hdv w t b); [done|rewrite lookup_insert_eq; eauto|done]|].
  intros [[e st2] slot] (Hr2 & F2 & Hpost). rewrite <- Hr2 in Hload.
  destruct (ref_loaded_vnode _ _ _ _ _ _ _ _ _ Hi Hload) as (v2 & Hv2 & Hino2 & Hoc2). case_decide as He.
  - subst e. rewrite (bool_decide_eq_false_2 (0 ≠ 0)) by tauto. destruct Hpost as (_ & Hl & Hi2 & Hfr2 & _). rewrite <- Hino2 in Hi2.
    eapply returns_bind; [eapply (add_links_ok st2 F2 _ L _ p v2 1); [exact Hi2|done|congruence]|].
    intros st3 (Hr3 & F3 & Hi3 & Hfr3). apply returns_ret. rewrite <- Hr3 in Hload. rewrite Hino2 in Hi3. eexists F3, _, L. split; [done|]. split; [done|].
    exists b. split_and!; try done; [keep_chain|]. pose proof (Hfr3 b ltac:(set_solver)) as Hk3. pose proof (Hfr2 b ltac:(set_solver)) as Hk2.
    rewrite lookup_insert_eq in Hk2. destruct (F2 !! b) as [sv2|]; [|done]. destruct (F3 !! b) as [sv3|]; [|done]. destruct Hk2 as [Hz2 Hb2], Hk3 as [Hz3 Hb3].
    exists sv3. split; [done|]. split; [by rewrite Hz3, Hz2|]. intros q Hq. rewrite Hb3, Hb2 by done. apply new_file_zero.
  - destruct Hpost as (Hi2 & Hfr2 & Hwhy & _). rewrite bool_decide_eq_true_2 by done. eapply returns_bind; [by eapply give_back|].
    intros st3 (F3 & Hi3 & Hr3 & Hk3). apply returns_ret. eexists F3, M, L. split; [done|].
    assert (Hrefs : refs st3 = refs st) by (rewrite Hr3; by eapply ref_loaded_lost).
    split; [done|]. split; [done|]. split.
    + assert (Hk : keeps (sfs_d st) F (sfs_d st3) F3 {[1; b]}) by keep_chain. intros j sj Hj HF3.
      destruct (decide (j = b)) as [->|Hne]; [|apply Hk; [set_solver|done]]. exfalso.
      assert (Hun : is_Some (F3 !! b)) by eauto. rewrite (inv_used _ _ _ _ _ _ Hi3), Hrefs in Hun.
      rewrite <- (inv_used _ _ _ _ _ b Hi), Hb in Hun. by destruct Hun.
    + right. right. unfold link_refused in Hwhy. rewrite HM in Hwhy. destruct Hwhy as [[_ [? ?]]|[(-> & _ & ?)|(_ & [-> | ->])]]; [done|tauto..].
Qed.

Lemma sfs_creat_ok st F M L n d w t excl : inv st F M L none_owed n → 0 ≤ n < 2 ^ 31 - 1 → is_dir (refs st) d → nonzero w →
  returns (sfs_creat present space nomem d (w ++ 0 :: t) excl st) (λ '(st', r), creat_post st F M L n w excl st' r).
Proof.
  intros Hi Hn Hdir Hw. unfold sfs_creat. destruct (is_dir_vnode st d Hdir) as (v & Hd & H1).
  eapply returns_bind; [by eapply dir_findname_ok|]. intros [[e st1] q] (-> & Hr1 & F1 & Hi1 & Hfr1 & Hfound).
  unfold lookup_result. destruct (M !! w) as [ino|] eqn:HM.
  - destruct (Hfound ino eq_refl) as [-> _]. destruct (tr_names _ _ _ _ (iv_tree _ _ _ _ _ _ Hi1) w ino HM) as [_ [sv Hsv]].
    change (bool_decide (0 ≠ 0) && bool_decide (0 ≠ ENOENT)) with false. change (bool_decide (0 = 0)) with true. cbv iota. unfold creat_post. rewrite HM.
    destruct excl; cbn [andb].
    + apply returns_ret. exists F1, M, L. split; [eapply inv_mono; [done|lia]|]. split_and!; try done; [keep_chain|]. left. eauto.
    + eapply returns_mono; [by eapply sfs_loadvnode_ok|]. intros [st2 r] (Hi2 & Hfr2 & Hr2). rewrite Hr1 in Hr2. exists F1, M, L.
      split; [done|]. destruct r as [e|p].
      * destruct Hr2 as (-> & Hmem & ->). split_and!; try done; [keep_chain|]. right. left. tauto.
      * split; [done|]. exists ino. split_and!; try done. keep_chain.
  - change (bool_decide (ENOENT ≠ 0) && bool_decide (ENOENT ≠ ENOENT)) with false. change (bool_decide (ENOENT = 0)) with false. cbn [andb].
    eapply returns_mono; [eapply (creat_new st1 F1 M L n d w t Hi1 Hn); [by rewrite Hr1|done|done]|].
    intros [st2 r] (F' & M' & L' & Hi' & Hpost). exists F', M', L'. split; [done|]. rewrite Hr1 in Hpost. destruct r as [e|p].
    + destruct Hpost as (? & ? & Hk & ?). split_and!; try done. keep_chain.
    + rewrite HM in Hpost |- *. destruct Hpost as (? & ino & ? & Hb & ? & ? & Hk & ?). split; [done|]. exists ino. split_and!; try done; [|keep_chain].
      pose proof (Hfr1 ino ltac:(set_solver)) as Hk1. rewrite Hb in Hk1. by destruct (F !! ino).
Qed.
End names.
