(* ===== verification/SfsFiles.v ===== *)
(** * The operations of files on a mounted file system

    Reading, writing, truncating and syncing through the vnode at [p], and the
    counts of references and opens. *)

From S2P Require Import Prelude Bitmap CArray KHeap KHeapSpec Coremap Uio CString.
From S2P Require Import Sfs SfsSpec SfsTrunc SfsTheorems SfsFrame SfsDir SfsDirSpec SfsVnode SfsInv SfsTree SfsOps SfsLoad SfsNames.

Section files.
Context (present : Z → bool) (space : Z).

Section file.
Context (st : sfs) (F : gmap Z sfs_vnode) (M : names) (L : gset Z) (n : Z) (p : nat) (ino rc oc : Z).
Context (Hi : inv st F M L none_owed n) (Hp : refs st !! p = Some (ino, rc, oc)).

(** The file at [p], in a state with invariant. *)
Lemma the_file : ∃ v, vheap st !! p = Some v ∧ vino v = ino ∧ F !! ino = Some (vn_data v) ∧ good_file (sfs_d st) (vn_data v) ∧
  vn_ops v = ops_of ino ∧ vnode_check p false st = Ret v.
Proof.
  pose proof Hp as (v & Hv & Hino & _)%refs_some. destruct (inv_file _ _ _ _ _ _ _ _ Hi Hv) as (HF & Hg & _).
  destruct (iv_vnode _ _ _ _ _ _ Hi p v Hv) as (_ & _ & _ & Hops). rewrite <- Hino. exists v. split_and!; try done. by eapply inv_check.
Qed.

(** Its inode and its blocks change. *)
Lemma file_changes v s' sv' : vheap st !! p = Some v → vino v = ino → ino ≠ 1 → changes (sfs_d st) (vn_data v) s' sv' →
  0 ≤ sfi_size (sv_i sv') ≤ MAXFILE →
  let st' := vput p (with_data sv' v) (set_d s' st) in
  inv st' (<[ino := sv']> F) M L none_owed n ∧ refs st' = refs st ∧ keeps (sfs_d st) F s' (<[ino := sv']> F) {[ino]}.
Proof.
  intros Hv Hino Hne Hch Hsz. destruct (inv_file _ _ _ _ _ _ _ _ Hi Hv) as (HF & _). rewrite <- Hino in *. split.
  - by apply inv_changes.
  - split; [apply refs_data; [done|apply Hch]|]. eapply frame_keeps_same, frame_changes; [apply Hi|done|done].
Qed.

Lemma keeps_more s' sv sv' : F !! ino = Some sv → keeps (sfs_d st) F s' (<[ino := sv']> F) {[ino]} →
  sfi_size (sv_i sv') = sfi_size (sv_i sv) → (∀ q, 0 ≤ q → fbyte s' sv' q = fbyte (sfs_d st) sv q) →
  keeps (sfs_d st) F s' (<[ino := sv']> F) ∅.
Proof.
  intros HF Hk Hsz Hb j sj _ Hj. destruct (decide (j = ino)) as [->|Hne]; [|apply Hk; [set_solver|done]].
  rewrite lookup_insert_eq in Hj. injection Hj as <-. eauto.
Qed.

Lemma VOP_READ_ok m u : ino ≠ 1 → request present space u UIO_READ →
  returns (VOP_READ present space p m u st) (λ '(e, (m', u', st')), e = 0 ∧ refs st' = refs st ∧
    ∃ sv, F !! ino = Some sv ∧ m' = store m (iov_base u) (fbytes (sfs_d st) sv (uio_offset u) (avail sv u)) ∧ u' = moved (avail sv u) u ∧
    ∃ F', inv st' F' M L none_owed n ∧ keeps (sfs_d st) F (sfs_d st') F' ∅).
Proof.
  intros Hne Hu. destruct the_file as (v & Hv & Hino & HF & Hg & Hops & Hck). unfold VOP_READ, vop_io. rewrite Hck. ostep.
  rewrite Hops. unfold ops_of. rewrite decide_False by done. rewrite bool_decide_eq_true_2 by apply Hu. cbn [c_assert]. ostep.
  destruct (read_ok present space (sfs_d st) (vn_data v) m u Hg Hu) as (s' & sv' & -> & Hev & Hb). ostep. apply returns_ret.
  destruct (file_changes v s' sv' Hv Hino Hne (changes_evolves _ _ _ _ Hev)) as (Hi' & Hr' & Hk').
  { rewrite (ev_size _ _ _ _ Hev). apply Hg. }
  split; [done|]. split; [done|]. exists (vn_data v). split_and!; try done. eexists. split; [done|]. eapply keeps_more; try done. apply Hev.
Qed.

Lemma VOP_WRITE_ok m u : ino ≠ 1 → request present space u UIO_WRITE → uio_offset u + uio_resid u ≤ MAXFILE →
  returns (VOP_WRITE present space p m u st) (λ '(e, (m', u', st')), refs st' = refs st ∧ m' = m ∧
    ∃ k sv sv' F', u' = moved k u ∧ ((e = 0 ∧ k = uio_resid u) ∨ (e = ENOSPC ∧ 0 ≤ k < uio_resid u ∧ disk_full (sfs_d st'))) ∧
      F !! ino = Some sv ∧ F' !! ino = Some sv' ∧ inv st' F' M L none_owed n ∧ keeps (sfs_d st) F (sfs_d st') F' {[ino]} ∧
      sfi_size (sv_i sv') = sfi_size (sv_i sv) `max` (uio_offset u + k) ∧
      ∀ q, 0 ≤ q → fbyte (sfs_d st') sv' q =
        if decide (uio_offset u ≤ q < uio_offset u + k) then peek m (iov_base u + (q - uio_offset u)) else fbyte (sfs_d st) sv q).
Proof.
  intros Hne [Hw Hd Hoff Hres Hacc] Hend. destruct the_file as (v & Hv & Hino & HF & (Hs & Hf & Hsz) & Hops & Hck). unfold VOP_WRITE, vop_io. rewrite Hck. ostep.
  rewrite Hops. unfold ops_of. rewrite decide_False by done. rewrite bool_decide_eq_true_2 by done. cbn [c_assert]. ostep.
  destruct (sfs_io_write present space (sfs_d st) (vn_data v) m u) as (e & s' & sv1 & k & -> & Hcase & Hev & Hb); try done. ostep. apply returns_ret.
  set (sv' := resize (uio_offset u) k sv1). assert (Hsz' : sfi_size (sv_i sv') = sfi_size (sv_i (vn_data v)) `max` (uio_offset u + k)).
  { unfold sv'. by rewrite resize_size, (ev_size _ _ _ _ Hev). }
  destruct (file_changes v s' sv' Hv Hino Hne) as (Hi' & Hr' & Hk').
  { by apply changes_resize, changes_evolves. }
  { rewrite Hsz'. unfold MAXFILE in *. lia. }
  split; [done|]. split; [done|]. exists k, (vn_data v), sv', (<[ino := sv']> F). split_and!; try done; [apply lookup_insert_eq|].
  intros q Hq. unfold sv'. simpl. rewrite resize_fbyte. by apply Hb.
Qed.

(** Blocks behind the last one of the block map read as zeros. *)
Lemma fblock_beyond s sv k : file_ok s sv → fs_ok s → 143 ≤ k → fblock s sv k = zero_block.
Proof.
  intros Hf Hs Hk. unfold fblock. rewrite (lookup_ge_None_2 (bmap_of s sv)) by (rewrite bmap_length by done; lia). done.
Qed.

Lemma VOP_TRUNCATE_ok len : ino ≠ 1 → 0 ≤ len ≤ MAXFILE →
  returns (VOP_TRUNCATE present space p len st) (λ '(e, st'), e = 0 ∧ refs st' = refs st ∧
    ∃ sv sv' F', F !! ino = Some sv ∧ F' !! ino = Some sv' ∧ inv st' F' M L none_owed n ∧ keeps (sfs_d st) F (sfs_d st') F' {[ino]} ∧
      sfi_size (sv_i sv') = len ∧
      ∀ q, 0 ≤ q → fbyte (sfs_d st') sv' q = if kept ((len + 511) / 512) (q / 512) then fbyte (sfs_d st) sv q else 0).
Proof.
  intros Hne Hlen. destruct the_file as (v & Hv & Hino & HF & Hg & Hops & Hck). pose proof Hg as (Hs & Hf & Hsz). unfold VOP_TRUNCATE. rewrite Hck. ostep.
  rewrite Hops. unfold ops_of. rewrite decide_False by done. pose proof Hlen as Hlen'. unfold MAXFILE in Hlen'.
  destruct (sfs_truncate_ok present space (sfs_d st) (vn_data v) len Hs Hf) as (s' & sv' & -> & Hsh & Hsz' & Hdirty & _ & Hmap); [lia|]. ostep.
  apply returns_ret. destruct (file_changes v s' sv' Hv Hino Hne) as (Hi' & Hr' & Hk'); [by apply changes_shrinks|lia|].
  split; [done|]. split; [done|]. exists (vn_data v), sv', (<[ino := sv']> F). split_and!; try done; [apply lookup_insert_eq|].
  intros q Hq. assert (Hz : ∀ i, default 0 (zero_block !! i) = 0).
  { intros i. destruct (zero_block !! i) as [x|] eqn:Hx; [|done]. by apply lookup_replicate in Hx as [-> _]. }
  assert (Hblk : fblock s' sv' (q / 512) = if kept ((len + 511) / 512) (q / 512) then fblock (sfs_d st) (vn_data v) (q / 512) else zero_block).
  { pose proof (Z.div_pos q 512 Hq ltac:(lia)). destruct (decide (q / 512 < 143)) as [Hlt|Hge].
    - by eapply truncated_block.
    - rewrite !fblock_beyond by (done || lia || apply Hsh). by destruct (kept _ _). }
  simpl. unfold fbyte. rewrite Hblk. destruct (kept _ _); [done|apply Hz].
Qed.

Lemma VOP_FSYNC_ok : returns (VOP_FSYNC present space p st) (λ '(e, st'), e = 0 ∧ refs st' = refs st ∧
  ∃ F', inv st' F' M L none_owed n ∧ keeps (sfs_d st) F (sfs_d st') F' ∅).
Proof.
  destruct the_file as (v & Hv & Hino & HF & _ & _ & Hck). unfold VOP_FSYNC. rewrite Hck. ostep.
  eapply returns_mono; [by eapply sfs_fsync_ok|]. intros [e st'] (-> & s' & -> & Hi' & Hfr). split; [done|]. split; [by apply refs_data|].
  eexists. split; [done|]. by apply frame_keeps_same.
Qed.

(** ** Counts *)

Lemma inv_counts v rc' oc' : vheap st !! p = Some v → 1 ≤ rc' ≤ n → 0 ≤ oc' ≤ rc' →
  inv (vput p (Vnode rc' oc' (vn_ops v) (vn_data v)) st) F M L none_owed n.
Proof.
  intros Hv Hrc Hoc. destruct (iv_vnode _ _ _ _ _ _ Hi p v Hv) as (HF & _).
  replace st with (set_d (sfs_d st) st) at 1 by by destruct st. rewrite <- (insert_id F (vino v) (vn_data v) HF).
  eapply (inv_set st F M L none_owed n p v (sfs_d st) (Vnode rc' oc' (vn_ops v) (vn_data v))); try done; rewrite insert_id by done; apply Hi.
Qed.

Lemma vnode_incopen_ok : oc < rc → n < 2 ^ 31 - 1 → returns (vnode_incopen p st) (λ st', sfs_d st' = sfs_d st ∧
  refs st' = <[p := (ino, rc, oc + 1)]> (refs st) ∧ inv st' F M L none_owed n).
Proof.
  intros Hlt Hn. destruct the_file as (v & Hv & Hino & _). pose proof Hp as (v' & Hv' & _ & Hrc & Hoc)%refs_some. assert (v' = v) as -> by congruence.
  destruct (iv_vnode _ _ _ _ _ _ Hi p v Hv) as (_ & Hr & Ho & _). unfold vnode_incopen. rewrite (vget_ok p st v Hv). ostep. rewrite s32_small by lia.
  apply returns_ret. split; [done|]. rewrite refs_put. simpl. rewrite Hino, Hrc, Hoc. split; [done|].
  apply inv_counts; [done|lia..].
Qed.

(** The last close writes the inode back. *)
Lemma vnode_decopen_ok : 0 < oc → returns (vnode_decopen present space p st) (λ st', refs st' = <[p := (ino, rc, oc - 1)]> (refs st) ∧
  ∃ F', inv st' F' M L none_owed n ∧ keeps (sfs_d st) F (sfs_d st') F' ∅).
Proof.
  intros Hlt. destruct the_file as (v & Hv & Hino & _). pose proof Hp as (v' & Hv' & _ & Hrc & Hoc)%refs_some. assert (v' = v) as -> by congruence.
  destruct (iv_vnode _ _ _ _ _ _ Hi p v Hv) as (_ & Hr & Ho & _). unfold vnode_decopen. rewrite (vget_ok p st v Hv). ostep.
  rewrite (bool_decide_eq_true_2 (0 < vn_opencount v)) by lia. cbn [c_assert]. ostep. set (v1 := with_opencount (vn_opencount v - 1) v).
  assert (Hi1 : inv (vput p v1 st) F M L none_owed n) by (apply inv_counts; [done|lia..]).
  assert (Hr1 : refs (vput p v1 st) = <[p := (ino, rc, oc - 1)]> (refs st)) by (rewrite refs_put; simpl; by rewrite Hino, Hrc, Hoc).
  case_bool_decide as Hc.
  - apply returns_ret. split; [done|]. exists F. split; [done|]. apply frame_keeps_same, frame_refl.
  - assert (Hv1 : vheap (vput p v1 st) !! p = Some v1) by apply lookup_insert_eq. rewrite (inv_check _ _ _ _ _ _ _ _ _ Hi1 Hv1). ostep.
    unfold sfs_close, VOP_FSYNC. rewrite (inv_check _ _ _ _ _ _ _ _ _ Hi1 Hv1). ostep.
    eapply returns_bind; [by eapply sfs_fsync_ok|]. intros [e st'] (-> & s' & -> & Hi' & Hfr). apply returns_ret.
    split; [rewrite <- Hr1; by apply refs_data|]. eexists. split; [done|]. by apply frame_keeps_same.
Qed.

(** The type and the size. *)
Lemma VOP_GETTYPE_ok : VOP_GETTYPE p st = Ret (if decide (ino = 1) then S_IFDIR else S_IFREG).
Proof.
  destruct the_file as (v & Hv & Hino & HF & _ & _ & Hck). pose proof (tr_type _ _ _ _ (iv_tree _ _ _ _ _ _ Hi) _ _ HF) as Hty.
  unfold VOP_GETTYPE. rewrite Hck. ostep. unfold sfs_gettype. rewrite (vget_ok p st v Hv). ostep. rewrite Hty. by case_decide.
Qed.

Lemma VOP_STAT_ok : ∃ sv, F !! ino = Some sv ∧ VOP_STAT p st = Ret (if decide (ino = 1) then S_IFDIR else S_IFREG, sfi_size (sv_i sv)).
Proof.
  destruct the_file as (v & Hv & Hino & HF & (_ & _ & Hsz) & _ & Hck). exists (vn_data v). split; [done|].
  unfold VOP_STAT. rewrite Hck. ostep. unfold sfs_stat. rewrite VOP_GETTYPE_ok. ostep. rewrite (vget_ok p st v Hv). ostep.
  unfold MAXFILE in Hsz. by rewrite s32_small by lia.
Qed.
End file.
End files.
