(* ===== verification/FileSys.v ===== *)
(** * What a file system promises to its clients

    struct fs and the tables of vnode operations are the interface between the
    VFS layer and the file systems: [FsOps]. A file system shows an abstract
    machine of names, files as sequences of bytes, and references, with one root
    directory: [fsys], [fstep]. [FileSystem] says that every operation a client
    with references may call refines a step of that machine. The simple file
    system is an instance; the theorems on the VFS layer rely on this interface
    only. *)

From S2P Require Import Prelude KHeap KHeapSpec Coremap Uio CString Sfs SfsSpec SfsTrunc SfsTheorems SfsDirSpec SfsVnode SfsTree SfsOps SfsLoad SfsNames.

(** ** The abstract machine *)

(** A file: its size, and its bytes, also those behind the end. *)
Record afile := AFile { a_size : Z; a_byte : Z → Z }.

(** Names of the root directory lead to files; references count who uses a
    file, and how often it is open. The root directory is number 1. *)
Record fsys := Fsys { f_names : names; f_files : gmap Z afile; f_refs : reftab }.

(** The operations; names are strings in memory. *)
Inductive op :=
| Getroot
| Lookup (d : nat) (name : list Z)
| Lookparent (d : nat) (path buf : list Z)
| Creat (d : nat) (name : list Z) (excl : bool)
| Link (d : nat) (name : list Z) (p : nat)
| Remove (d : nat) (name : list Z)
| Rename (d : nat) (name1 name2 : list Z)
| Incref (p : nat)
| Decref (p : nat)
| Incopen (p : nat)
| Decopen (p : nat)
| Open (p : nat) (flags : Z)
| Gettype (p : nat)
| Tryseek (p : nat) (pos : Z)
| Other (o : vop) (p : nat)
| Read (p : nat) (m : memory) (u : uio)
| Write (p : nat) (m : memory) (u : uio)
| Truncate (p : nat) (length : Z)
| Fsync (p : nat)
| Stat (p : nat).

Inductive reply :=
| Done
| Err (e : Z)
| Got (p : nat)
| Parent (p : nat) (buf : list Z)
| Moved (e : Z) (m : memory) (u : uio)
| Mode (mode : Z)
| Stats (mode size : Z).

(** The files outside [X] that exist after the step existed before, unchanged. *)
Definition same_files (A A' : fsys) (X : gset Z) : Prop :=
  ∀ ino f', ino ∉ X → f_files A' !! ino = Some f' →
    ∃ f, f_files A !! ino = Some f ∧ a_size f' = a_size f ∧ ∀ q, 0 ≤ q → a_byte f' q = a_byte f q.

Lemma same_files_refl A X : same_files A A X.
Proof. intros ino f' _ Hf. by exists f'. Qed.

Lemma same_files_trans A A1 A2 X : same_files A A1 X → same_files A1 A2 X → same_files A A2 X.
Proof.
  intros H1 H2 ino f2 Hn Hf2. destruct (H2 ino f2 Hn Hf2) as (f1 & Hf1 & Hs2 & Hb2). destruct (H1 ino f1 Hn Hf1) as (f & Hf & Hs1 & Hb1).
  exists f. split; [done|]. split; [congruence|]. intros q Hq. by rewrite Hb2, Hb1.
Qed.

(** Only references change; names and references change; nothing does. *)
Definition refs_to (A A' : fsys) (R : reftab) : Prop := f_names A' = f_names A ∧ f_refs A' = R ∧ same_files A A' ∅.
Definition names_to (A A' : fsys) (M : names) : Prop := f_names A' = M ∧ f_refs A' = f_refs A ∧ same_files A A' ∅.
Definition quiet (A A' : fsys) : Prop := names_to A A' (f_names A).

Definition file_at (A : fsys) (p : nat) (ino : Z) : Prop := ino ≠ 1 ∧ ∃ rc oc, f_refs A !! p = Some (ino, rc, oc).

(** The byte [q] of the file after writing [k] bytes of the uio, or after cutting it. *)
Definition write_byte (f : afile) (m : memory) (u : uio) (k q : Z) : Z :=
  if decide (uio_offset u ≤ q < uio_offset u + k) then peek m (iov_base u + (q - uio_offset u)) else a_byte f q.
Definition cut_byte (f : afile) (length q : Z) : Z := if kept ((length + 511) / 512) (q / 512) then a_byte f q else 0.
Definition readable (f : afile) (u : uio) : Z := 0 `max` (uio_resid u `min` (a_size f - uio_offset u)).

(** The operations of directories, and the name they look for. *)
Definition dir_op (o : op) : option nat :=
  match o with Lookup d _ | Lookparent d _ _ | Creat d _ _ | Link d _ _ | Remove d _ | Rename d _ _ => Some d | _ => None end.
Definition old_name (o : op) : option (list Z) := match o with Lookup _ b | Remove _ b | Rename _ b _ => Some (cut b) | _ => None end.
Definition new_name (o : op) : option (list Z) :=
  match o with Creat _ b true | Link _ b _ | Rename _ _ b => Some (cut b) | _ => None end.
Definition add_name (o : op) : option (list Z) := match o with Creat _ b _ | Link _ b _ | Rename _ _ b => Some (cut b) | _ => None end.
Definition load_op (o : op) : Prop := match o with Lookup _ _ | Creat _ _ _ | Remove _ _ | Rename _ _ _ => True | _ => False end.

(** What opening refuses. *)
Definition append (flags : Z) : Prop := Z.land flags O_APPEND ≠ 0.
Definition writing (flags : Z) : Prop := Z.land flags O_ACCMODE ≠ 0.

(** The operations that no file has, and those that no directory has. *)
Definition other_result (dir : bool) (o : vop) : Z :=
  match o with
  | vop_ioctl => EINVAL
  | vop_mmap => if dir then EISDIR else EUNIMP
  | vop_readlink => if dir then EISDIR else ENOTDIR
  | vop_namefile => if dir then 0 else ENOTDIR
  | vop_getdirentry | vop_symlink | vop_mkdir | vop_rmdir => if dir then EUNIMP else ENOTDIR
  end.

(** Why an operation fails without effect; [low]: memory may be lacking. *)
Inductive fails {low : Prop} (A : fsys) : op → Z → Prop :=
| F_notdir o p ino : dir_op o = Some p → file_at A p ino → fails A o ENOTDIR
| F_isdir_cut p length : is_dir (f_refs A) p → fails A (Truncate p length) EISDIR
| F_isdir_open p flags : is_dir (f_refs A) p → writing flags ∨ append flags → fails A (Open p flags) EISDIR
| F_isdir_seek p pos : is_dir (f_refs A) p → fails A (Tryseek p pos) EUNIMP
| F_append p ino flags : file_at A p ino → append flags → fails A (Open p flags) EUNIMP
| F_before p ino pos : file_at A p ino → pos < 0 → fails A (Tryseek p pos) EINVAL
| F_other_dir p o e : is_dir (f_refs A) p → e = other_result true o → e ≠ 0 → fails A (Other o p) e
| F_other p ino o e : file_at A p ino → e = other_result false o → e ≠ 0 → fails A (Other o p) e
| F_noent o w : old_name o = Some w → f_names A !! w = None → fails A o ENOENT
| F_exist o w ino : new_name o = Some w → f_names A !! w = Some ino → fails A o EEXIST
| F_long o w : add_name o = Some w → f_names A !! w = None → (59 < length w)%nat → fails A o ENAMETOOLONG
| F_buffer d path buf : len buf < len (cut path) + 1 → fails A (Lookparent d path buf) ENAMETOOLONG
| F_room o w e : add_name o = Some w → f_names A !! w = None → e = ENOSPC ∨ e = EINVAL → fails A o e
| F_memory o : low → load_op o → fails A o ENOMEM.
Arguments fails low A o e : clear implicits.

(** [buf] after the string [w] has been copied to its start. *)
Definition filled (w buf : list Z) : list Z := w ++ 0 :: drop (S (length w)) buf.

Inductive fstep {low : Prop} (A : fsys) : op → reply → fsys → Prop :=
| S_fails o e A' : fails low A o e → quiet A A' → fstep A o (Err e) A'
| S_isdir_io o p m u A' : o = Read p m u ∨ o = Write p m u → is_dir (f_refs A) p → quiet A A' → fstep A o (Moved EISDIR m u) A'
| S_getroot p R A' : ref_loaded (f_refs A) 1 p R → refs_to A A' R → fstep A Getroot (Got p) A'
| S_lookup d b ino p R A' : f_names A !! cut b = Some ino → ref_loaded (f_refs A) ino p R → refs_to A A' R →
    fstep A (Lookup d b) (Got p) A'
| S_lookparent d path buf rc oc A' : len (cut path) + 1 ≤ len buf → f_refs A !! d = Some (1, rc, oc) → refs_to A A' (<[d := (1, rc + 1, oc)]> (f_refs A)) →
    fstep A (Lookparent d path buf) (Parent d (filled (cut path) buf)) A'
| S_open_old d b ino p R A' : f_names A !! cut b = Some ino → ref_loaded (f_refs A) ino p R → refs_to A A' R →
    fstep A (Creat d b false) (Got p) A'
| S_creat d b excl ino p f A' : f_names A !! cut b = None → (length (cut b) ≤ 59)%nat → ino ≠ 1 → f_files A !! ino = None →
    f_names A' = <[cut b := ino]> (f_names A) → ref_loaded (f_refs A) ino p (f_refs A') → same_files A A' {[ino]} →
    f_files A' !! ino = Some f → a_size f = 0 → (∀ q, 0 ≤ q → a_byte f q = 0) → fstep A (Creat d b excl) (Got p) A'
| S_link d b p ino A' : f_names A !! cut b = None → (length (cut b) ≤ 59)%nat → file_at A p ino →
    names_to A A' (<[cut b := ino]> (f_names A)) → fstep A (Link d b p) Done A'
| S_remove d b ino A' : f_names A !! cut b = Some ino → names_to A A' (delete (cut b) (f_names A)) → fstep A (Remove d b) Done A'
| S_rename d b1 b2 ino A' : f_names A !! cut b1 = Some ino → f_names A !! cut b2 = None → (length (cut b2) ≤ 59)%nat →
    names_to A A' (delete (cut b1) (<[cut b2 := ino]> (f_names A))) → fstep A (Rename d b1 b2) Done A'
| S_incref p ino rc oc A' : f_refs A !! p = Some (ino, rc, oc) → refs_to A A' (<[p := (ino, rc + 1, oc)]> (f_refs A)) → fstep A (Incref p) Done A'
| S_decref p A' : refs_to A A' (ref_lost (f_refs A) p) → fstep A (Decref p) Done A'
| S_incopen p ino rc oc A' : f_refs A !! p = Some (ino, rc, oc) → refs_to A A' (<[p := (ino, rc, oc + 1)]> (f_refs A)) → fstep A (Incopen p) Done A'
| S_decopen p ino rc oc A' : f_refs A !! p = Some (ino, rc, oc) → refs_to A A' (<[p := (ino, rc, oc - 1)]> (f_refs A)) → fstep A (Decopen p) Done A'
| S_open p ino flags A' : file_at A p ino → ¬ append flags → quiet A A' → fstep A (Open p flags) Done A'
| S_opendir p flags A' : is_dir (f_refs A) p → ¬ writing flags → ¬ append flags → quiet A A' → fstep A (Open p flags) Done A'
| S_gettype p ino A' : file_at A p ino → quiet A A' → fstep A (Gettype p) (Mode S_IFREG) A'
| S_gettype_dir p A' : is_dir (f_refs A) p → quiet A A' → fstep A (Gettype p) (Mode S_IFDIR) A'
| S_tryseek p ino pos A' : file_at A p ino → 0 ≤ pos → quiet A A' → fstep A (Tryseek p pos) Done A'
| S_namefile p A' : is_dir (f_refs A) p → quiet A A' → fstep A (Other vop_namefile p) Done A'
| S_read p m u ino f A' : file_at A p ino → f_files A !! ino = Some f → quiet A A' →
    fstep A (Read p m u) (Moved 0 (store m (iov_base u) (map (a_byte f) (seqZ (uio_offset u) (readable f u)))) (moved (readable f u) u)) A'
| S_write p m u ino f f' e k A' : file_at A p ino → (e = 0 ∧ k = uio_resid u) ∨ (e = ENOSPC ∧ 0 ≤ k < uio_resid u) →
    f_files A !! ino = Some f → f_files A' !! ino = Some f' → a_size f' = a_size f `max` (uio_offset u + k) →
    (∀ q, 0 ≤ q → a_byte f' q = write_byte f m u k q) →
    f_names A' = f_names A → f_refs A' = f_refs A → same_files A A' {[ino]} → fstep A (Write p m u) (Moved e m (moved k u)) A'
| S_truncate p length ino f f' A' : file_at A p ino → f_files A !! ino = Some f → f_files A' !! ino = Some f' → a_size f' = length →
    (∀ q, 0 ≤ q → a_byte f' q = cut_byte f length q) → f_names A' = f_names A → f_refs A' = f_refs A → same_files A A' {[ino]} →
    fstep A (Truncate p length) Done A'
| S_fsync p A' : quiet A A' → fstep A (Fsync p) Done A'
| S_stat p ino f A' : file_at A p ino → f_files A !! ino = Some f → quiet A A' → fstep A (Stat p) (Stats S_IFREG (a_size f)) A'
| S_stat_dir p size A' : is_dir (f_refs A) p → quiet A A' → fstep A (Stat p) (Stats S_IFDIR size) A'.
Arguments fstep low A o r A' : clear implicits.

(** A file exists as long as it has a name or a reference. *)
Definition sound (A : fsys) : Prop :=
  ∀ ino, is_Some (f_files A !! ino) ↔ ino ≠ 1 ∧ ((∃ w, f_names A !! w = Some ino) ∨ (∃ p rc oc, f_refs A !! p = Some (ino, rc, oc))).

(** *** What a step of each operation can be *)

Ltac fstep_inv H :=
  inversion H; subst; clear H;
  repeat match goal with
  | Hf : fails _ _ _ _ |- _ => inversion Hf; subst; clear Hf; simplify_eq/=
  | Hf : _ = Read _ _ _ ∨ _ = Write _ _ _ |- _ => destruct Hf; discriminate
  | Hf : load_op _ |- _ => destruct Hf
  | Hf : False |- _ => destruct Hf
  end.

Lemma fails_mono (low low' : Prop) A o e : fails low A o e → (low → low') → fails low' A o e.
Proof. intros Hf Hl. destruct Hf; by eauto using fails. Qed.
Lemma fstep_mono (low low' : Prop) A o r A' : fstep low A o r A' → (low → low') → fstep low' A o r A'.
Proof. intros Hs Hl. destruct Hs; [eapply S_fails; [by eapply fails_mono|done]|econstructor; done..]. Qed.

(** The root directory, once gotten, is referred to. *)
Lemma fstep_getroot {low : Prop} A r A' : fstep low A Getroot r A' → ∃ p, r = Got p ∧ is_dir (f_refs A') p ∧ ref_loaded (f_refs A) 1 p (f_refs A') ∧ refs_to A A' (f_refs A').
Proof.
  intros Hs. fstep_inv Hs. match goal with H : refs_to _ _ _ |- _ => destruct H as (Hn & <- & Hsame) end. exists p. split_and!; try done.
  match goal with H : ref_loaded _ _ _ _ |- _ => destruct H as [(rc & oc & _ & ->)|(_ & _ & ->)] end; eexists _, _; apply lookup_insert_eq.
Qed.

Lemma fstep_incref {low : Prop} A p r A' : fstep low A (Incref p) r A' → r = Done ∧ ∃ ino rc oc, f_refs A !! p = Some (ino, rc, oc) ∧ refs_to A A' (<[p := (ino, rc + 1, oc)]> (f_refs A)).
Proof. intros Hs. fstep_inv Hs. eauto 10. Qed.
Lemma fstep_decref {low : Prop} A p r A' : fstep low A (Decref p) r A' → r = Done ∧ refs_to A A' (ref_lost (f_refs A) p).
Proof. intros Hs. fstep_inv Hs. eauto 10. Qed.
Lemma fstep_incopen {low : Prop} A p r A' : fstep low A (Incopen p) r A' → r = Done ∧ ∃ ino rc oc, f_refs A !! p = Some (ino, rc, oc) ∧ refs_to A A' (<[p := (ino, rc, oc + 1)]> (f_refs A)).
Proof. intros Hs. fstep_inv Hs. eauto 10. Qed.
Lemma fstep_decopen {low : Prop} A p r A' : fstep low A (Decopen p) r A' → r = Done ∧ ∃ ino rc oc, f_refs A !! p = Some (ino, rc, oc) ∧ refs_to A A' (<[p := (ino, rc, oc - 1)]> (f_refs A)).
Proof. intros Hs. fstep_inv Hs. eauto 10. Qed.

(** Operations on a directory. *)
Lemma dir_not_file A d ino : is_dir (f_refs A) d → ¬ file_at A d ino.
Proof. intros (rc & oc & Hd) (Hne & rc' & oc' & Hd'). congruence. Qed.

Lemma fstep_lookup {low : Prop} A d b r A' : is_dir (f_refs A) d → fstep low A (Lookup d b) r A' → match r with
  | Err e => quiet A A' ∧ (e = ENOENT ∧ f_names A !! cut b = None ∨ e = ENOMEM ∧ low)
  | Got p => ∃ ino, f_names A !! cut b = Some ino ∧ ref_loaded (f_refs A) ino p (f_refs A') ∧ refs_to A A' (f_refs A')
  | _ => False
  end.
Proof.
  intros Hd Hs. fstep_inv Hs; [by edestruct dir_not_file|split; [done|by left]|split; [done|by right]|].
  match goal with H : refs_to _ _ _ |- _ => destruct H as (Hn & <- & Hsame) end. eexists. split_and!; done.
Qed.

Lemma fstep_lookparent {low : Prop} A d path buf r A' : is_dir (f_refs A) d → fstep low A (Lookparent d path buf) r A' → match r with
  | Err e => quiet A A' ∧ e = ENAMETOOLONG ∧ len buf < len (cut path) + 1
  | Parent p b => p = d ∧ b = filled (cut path) buf ∧ len (cut path) + 1 ≤ len buf ∧ ∃ rc oc, f_refs A !! d = Some (1, rc, oc) ∧ refs_to A A' (<[d := (1, rc + 1, oc)]> (f_refs A))
  | _ => False
  end.
Proof. intros Hd Hs. fstep_inv Hs; [by edestruct dir_not_file|done|]. eauto 10. Qed.

(** Why a name cannot be added. *)
Definition no_room (M : names) (w : list Z) (e : Z) : Prop :=
  M !! w = None ∧ (e = ENAMETOOLONG ∧ (59 < length w)%nat ∨ e = ENOSPC ∨ e = EINVAL).

(** A new empty file under the name [w]. *)
Definition created (A : fsys) (w : list Z) (ino : Z) (A' : fsys) : Prop :=
  f_names A !! w = None ∧ ino ≠ 1 ∧ f_files A !! ino = None ∧ f_names A' = <[w := ino]> (f_names A) ∧ same_files A A' {[ino]} ∧
  ∃ f, f_files A' !! ino = Some f ∧ a_size f = 0 ∧ ∀ q, 0 ≤ q → a_byte f q = 0.

Lemma fstep_creat {low : Prop} A d b excl r A' : is_dir (f_refs A) d → fstep low A (Creat d b excl) r A' → match r with
  | Err e => quiet A A' ∧ (e = EEXIST ∧ excl = true ∧ is_Some (f_names A !! cut b) ∨ no_room (f_names A) (cut b) e ∨ e = ENOMEM ∧ low)
  | Got p => ∃ ino, ref_loaded (f_refs A) ino p (f_refs A') ∧
      (f_names A !! cut b = Some ino ∧ excl = false ∧ refs_to A A' (f_refs A') ∨ created A (cut b) ino A')
  | _ => False
  end.
Proof.
  intros Hd Hs. fstep_inv Hs.
  - by edestruct dir_not_file.
  - split; [done|]. left. destruct excl; [|done]. simplify_eq/=. split; [done|]. split; [done|]. by eexists.
  - split; [done|]. right. left. split; [done|]. by left.
  - split; [done|]. right. left. split; [done|]. by right.
  - split; [done|]. by right; right.
  - match goal with H : refs_to _ _ _ |- _ => destruct H as (Hn & <- & Hsame) end. eexists. split; [done|]. left. split; [done|]. split; [done|]. by split.
  - eexists. split; [done|]. right. split_and!; try done. eexists. done.
Qed.

Lemma fstep_link {low : Prop} A d b p r A' : is_dir (f_refs A) d → fstep low A (Link d b p) r A' → match r with
  | Err e => quiet A A' ∧ (e = EEXIST ∧ is_Some (f_names A !! cut b) ∨ no_room (f_names A) (cut b) e)
  | Done => f_names A !! cut b = None ∧ ∃ ino, file_at A p ino ∧ names_to A A' (<[cut b := ino]> (f_names A))
  | _ => False
  end.
Proof.
  intros Hd Hs. fstep_inv Hs.
  - by edestruct dir_not_file.
  - split; [done|]. left. split; [done|]. by eexists.
  - split; [done|]. right. split; [done|]. by left.
  - split; [done|]. right. split; [done|]. by right.
  - split; [done|]. by eexists.
Qed.

Lemma fstep_remove {low : Prop} A d b r A' : is_dir (f_refs A) d → fstep low A (Remove d b) r A' → match r with
  | Err e => quiet A A' ∧ (e = ENOENT ∧ f_names A !! cut b = None ∨ e = ENOMEM ∧ low)
  | Done => is_Some (f_names A !! cut b) ∧ names_to A A' (delete (cut b) (f_names A))
  | _ => False
  end.
Proof.
  intros Hd Hs. fstep_inv Hs; [by edestruct dir_not_file|split; [done|by left]|split; [done|by right]|]. split; [by eexists|done].
Qed.

Lemma fstep_rename {low : Prop} A d b1 b2 r A' : is_dir (f_refs A) d → fstep low A (Rename d b1 b2) r A' → match r with
  | Err e => quiet A A' ∧ (e = ENOENT ∧ f_names A !! cut b1 = None ∨ e = EEXIST ∧ is_Some (f_names A !! cut b2) ∨ no_room (f_names A) (cut b2) e ∨ e = ENOMEM ∧ low)
  | Done => ∃ ino, f_names A !! cut b1 = Some ino ∧ f_names A !! cut b2 = None ∧ names_to A A' (delete (cut b1) (<[cut b2 := ino]> (f_names A)))
  | _ => False
  end.
Proof.
  intros Hd Hs. fstep_inv Hs.
  - by edestruct dir_not_file.
  - split; [done|]. by left.
  - split; [done|]. right. left. split; [done|]. by eexists.
  - split; [done|]. right. right. left. split; [done|]. by left.
  - split; [done|]. right. right. left. split; [done|]. by right.
  - split; [done|]. by right; right; right.
  - eexists. done.
Qed.

(** What opening, with these flags, the root directory or a file gives. *)
Definition open_result (dir : bool) (flags : Z) : Z :=
  if dir then if decide (writing flags ∨ append flags) then EISDIR else 0 else if decide (append flags) then EUNIMP else 0.
#[export] Instance writing_dec flags : Decision (writing flags).
Proof. unfold writing. apply _. Defined.
#[export] Instance append_dec flags : Decision (append flags).
Proof. unfold append. apply _. Defined.

Definition errno (e : Z) : reply := if decide (e = 0) then Done else Err e.

Lemma fstep_open {low : Prop} A p flags r A' ino rc oc : f_refs A !! p = Some (ino, rc, oc) → fstep low A (Open p flags) r A' →
  quiet A A' ∧ r = errno (open_result (bool_decide (ino = 1)) flags).
Proof.
  intros Hp Hs. unfold open_result. fstep_inv Hs; (split; [done|]);
    repeat match goal with H : file_at _ _ _ |- _ => destruct H as (? & ? & ? & ?) | H : is_dir _ _ |- _ => destruct H as (? & ? & ?) end; simplify_eq/=;
    try (rewrite (bool_decide_eq_true_2 (1 = 1)) by done); try (rewrite (bool_decide_eq_false_2 (ino = 1)) by done).
  - by rewrite decide_True.
  - by rewrite decide_True.
  - by rewrite decide_False.
  - rewrite decide_False; [done|tauto].
Qed.

Lemma fstep_gettype {low : Prop} A p r A' ino rc oc : f_refs A !! p = Some (ino, rc, oc) → fstep low A (Gettype p) r A' →
  quiet A A' ∧ r = Mode (if decide (ino = 1) then S_IFDIR else S_IFREG).
Proof.
  intros Hp Hs. fstep_inv Hs; (split; [done|]);
    repeat match goal with H : file_at _ _ _ |- _ => destruct H as (? & ? & ? & ?) | H : is_dir _ _ |- _ => destruct H as (? & ? & ?) end; simplify_eq/=; [by rewrite decide_False|done].
Qed.

Lemma fstep_other {low : Prop} A o p r A' ino rc oc : f_refs A !! p = Some (ino, rc, oc) → fstep low A (Other o p) r A' →
  quiet A A' ∧ r = errno (other_result (bool_decide (ino = 1)) o).
Proof.
  intros Hp Hs. unfold errno. fstep_inv Hs; (split; [done|]);
    repeat match goal with H : file_at _ _ _ |- _ => destruct H as (? & ? & ? & ?) | H : is_dir _ _ |- _ => destruct H as (? & ? & ?) end; simplify_eq/=;
    [by rewrite decide_False|rewrite (bool_decide_eq_false_2 (ino = 1)) by done; by rewrite decide_False|done].
Qed.

(** A file cut to the length. *)
Definition shortened (A : fsys) (ino length : Z) (A' : fsys) : Prop :=
  f_names A' = f_names A ∧ f_refs A' = f_refs A ∧ same_files A A' {[ino]} ∧ ∃ f f', f_files A !! ino = Some f ∧ f_files A' !! ino = Some f' ∧
  a_size f' = length ∧ ∀ q, 0 ≤ q → a_byte f' q = cut_byte f length q.

Lemma fstep_truncate {low : Prop} A p length r A' ino rc oc : f_refs A !! p = Some (ino, rc, oc) → fstep low A (Truncate p length) r A' →
  if decide (ino = 1) then r = Err EISDIR ∧ quiet A A' else r = Done ∧ shortened A ino length A'.
Proof.
  intros Hp Hs. fstep_inv Hs;
    repeat match goal with H : file_at _ _ _ |- _ => destruct H as (? & ? & ? & ?) | H : is_dir _ _ |- _ => destruct H as (? & ? & ?) end; simplify_eq/=; [done|].
  rewrite decide_False by done. split; [done|]. split; [done|]. split; [done|]. split; [done|]. eexists _, _. done.
Qed.

(** ** The interface *)

(** The operations of struct fs and, with the checks of the VOP macros, those of
    its vnodes; [D] is the device a file system is mounted on, [S] its state.
    [fs_mount] is the function that mounts it: block size, device, and how many
    allocations there have been. *)
Class FsOps (D S : Type) := {
  fs_sync : S → outcome (Z * S);
  fs_getvolname : S → option (list Z);
  fs_getroot : S → outcome (S * nat);
  fs_unmount : S → outcome (result D);
  fs_mount : Z → D → nat → outcome (D * nat * result S);
  fs_lookup : nat → list Z → S → outcome (S * result nat);
  fs_lookparent : nat → list Z → list Z → S → outcome (S * list Z * result nat);
  fs_creat : nat → list Z → bool → S → outcome (S * result nat);
  fs_link : nat → list Z → nat → S → outcome (Z * S);
  fs_remove : nat → list Z → S → outcome (Z * S);
  fs_rename : nat → list Z → nat → list Z → S → outcome (Z * S);
  fs_incref : nat → S → outcome S;
  fs_decref : nat → S → outcome S;
  fs_incopen : nat → S → outcome S;
  fs_decopen : nat → S → outcome S;
  fs_open : nat → Z → S → outcome Z;
  fs_gettype : nat → S → outcome Z;
  fs_tryseek : nat → Z → S → outcome Z;
  fs_other : vop → nat → S → outcome Z;
  fs_read : nat → memory → uio → S → outcome (Z * (memory * uio * S));
  fs_write : nat → memory → uio → S → outcome (Z * (memory * uio * S));
  fs_truncate : nat → Z → S → outcome (Z * S);
  fs_fsync : nat → S → outcome (Z * S);
  fs_stat : nat → S → outcome (Z * Z)
}.

Definition pointer (r : result nat) : reply := match r with inl e => Err e | inr p => Got p end.

Definition run {D S : Type} `{FsOps D S} (o : op) (s : S) : outcome (reply * S) :=
  match o with
  | Getroot => '(s, p) ← fs_getroot s; Ret (Got p, s)
  | Lookup d b => '(s, r) ← fs_lookup d b s; Ret (pointer r, s)
  | Lookparent d path buf => '(s, buf, r) ← fs_lookparent d path buf s; Ret (match r with inl e => Err e | inr p => Parent p buf end, s)
  | Creat d b excl => '(s, r) ← fs_creat d b excl s; Ret (pointer r, s)
  | Link d b p => '(e, s) ← fs_link d b p s; Ret (errno e, s)
  | Remove d b => '(e, s) ← fs_remove d b s; Ret (errno e, s)
  | Rename d b1 b2 => '(e, s) ← fs_rename d b1 d b2 s; Ret (errno e, s)
  | Incref p => s ← fs_incref p s; Ret (Done, s)
  | Decref p => s ← fs_decref p s; Ret (Done, s)
  | Incopen p => s ← fs_incopen p s; Ret (Done, s)
  | Decopen p => s ← fs_decopen p s; Ret (Done, s)
  | Open p flags => e ← fs_open p flags s; Ret (errno e, s)
  | Gettype p => mode ← fs_gettype p s; Ret (Mode mode, s)
  | Tryseek p pos => e ← fs_tryseek p pos s; Ret (errno e, s)
  | Other o p => e ← fs_other o p s; Ret (errno e, s)
  | Read p m u => '(e, (m, u, s)) ← fs_read p m u s; Ret (Moved e m u, s)
  | Write p m u => '(e, (m, u, s)) ← fs_write p m u s; Ret (Moved e m u, s)
  | Truncate p length => '(e, s) ← fs_truncate p length s; Ret (errno e, s)
  | Fsync p => '(e, s) ← fs_fsync p s; Ret (errno e, s)
  | Stat p => '(mode, size) ← fs_stat p s; Ret (Stats mode size, s)
  end.

(** What a client may ask: it owns the references it uses and gives back, opens
    only what it refers to, and asks for transfers within the file's range.
    Getting the root directory needs memory if it is not in use; the root
    directory gets no second name. *)
Definition owns (R : reftab) (p : nat) : Prop := is_Some (R !! p).
Definition allowed (present : Z → bool) (space : Z) (low : Prop) (R : reftab) (o : op) : Prop :=
  match o with
  | Getroot => (∃ d, is_dir R d) ∨ ¬ low
  | Lookup d b | Lookparent d b _ | Creat d b _ | Remove d b => owns R d ∧ 0 ∈ b
  | Rename d b1 b2 => owns R d ∧ 0 ∈ b1 ∧ 0 ∈ b2
  | Link d b p => owns R d ∧ 0 ∈ b ∧ ∃ ino rc oc, R !! p = Some (ino, rc, oc) ∧ ino ≠ 1
  | Incref p | Fsync p | Stat p | Open p _ | Gettype p | Tryseek p _ | Other _ p => owns R p
  | Decref p | Incopen p => ∃ ino rc oc, R !! p = Some (ino, rc, oc) ∧ oc < rc
  | Decopen p => ∃ ino rc oc, R !! p = Some (ino, rc, oc) ∧ 0 < oc
  | Read p _ u => owns R p ∧ request present space u UIO_READ
  | Write p _ u => owns R p ∧ request present space u UIO_WRITE ∧ uio_offset u + uio_resid u ≤ MAXFILE
  | Truncate p length => owns R p ∧ 0 ≤ length ≤ MAXFILE
  end.

(** [fs_shows s A n]: the state is in order and shows [A], no count exceeds [n];
    [fs_low]: memory may be lacking; [fs_clean]: nothing waits to be written;
    [fs_holds d A]: what mounting the device gives. *)
Class FileSystem (D S : Type) (present : Z → bool) (space : Z) `{FsOps D S} := {
  fs_shows : S → fsys → Z → Prop;
  fs_low : Prop;
  fs_clean : S → Prop;
  fs_holds : D → fsys → Prop;
  fs_step s A n o : fs_shows s A n → 0 ≤ n < 2 ^ 31 - 1 → allowed present space fs_low (f_refs A) o →
    returns (run o s) (λ '(r, s'), ∃ A', fs_shows s' A' (n + 1) ∧ fstep fs_low A o r A' ∧ fs_getvolname s' = fs_getvolname s);
  fs_no_root s A n : fs_shows s A n → 0 ≤ n < 2 ^ 31 - 1 → fs_getroot s = Panic ∧ fs_low ∨
    returns (run Getroot s) (λ '(r, s'), ∃ A', fs_shows s' A' (n + 1) ∧ fstep fs_low A Getroot r A' ∧ fs_getvolname s' = fs_getvolname s);
  fs_sound s A n : fs_shows s A n → sound A;
  fs_counts s A n p ino rc oc : fs_shows s A n → f_refs A !! p = Some (ino, rc, oc) → 1 ≤ rc ≤ n ∧ 0 ≤ oc ≤ rc;
  fs_once s A n p q ino rc oc rc' oc' : fs_shows s A n → f_refs A !! p = Some (ino, rc, oc) → f_refs A !! q = Some (ino, rc', oc') → p = q;
  fs_later s A n n' : fs_shows s A n → n ≤ n' → fs_shows s A n';
  fs_volname_ends s A n v : fs_shows s A n → fs_getvolname s = Some v → 0 ∈ v;
  fs_sync_ok s A n : fs_shows s A n → returns (fs_sync s) (λ '(e, s'), e = 0 ∧ fs_clean s' ∧ fs_getvolname s' = fs_getvolname s ∧
    ∃ A', fs_shows s' A' n ∧ quiet A A');
  fs_unmount_ok s A n : fs_shows s A n → fs_clean s →
    (f_refs A = ∅ ∧ ∃ d, fs_unmount s = Ret (inr d) ∧ fs_holds d A) ∨ (f_refs A ≠ ∅ ∧ fs_unmount s = Ret (inl EBUSY));
  fs_mount_ok d A k : fs_holds d A → returns (fs_mount SFS_BLOCKSIZE d k) (λ '(d', _, r),
    match r with
    | inl e => e = ENOMEM ∧ fs_low ∧ fs_holds d' A
    | inr s => ∃ A', fs_shows s A' 0 ∧ f_refs A' = ∅ ∧ f_names A' = f_names A ∧ same_files A A' ∅
    end)
}.
