(* ===== verification/SfsNamespace.v ===== *)
(** * The simple file system keeps what file systems promise

    Every operation of the code refines a step of the abstract machine of
    FileSys.v, and so does every sequence a client with references may call. *)

From S2P Require Import Prelude Bitmap CArray KHeap KHeapSpec Coremap Uio CString.
From S2P Require Import Sfs SfsSpec SfsTrunc SfsTheorems SfsFrame SfsDir SfsDirSpec SfsVnode SfsInv SfsTree SfsOps SfsLoad SfsNames SfsFiles FileSys SfsMount.

(** ** The code as a machine *)

Section machine.
Context (present : Z → bool) (space : Z) (nomem : nat → bool).

(** The tables sfs_fileops and sfs_dirops, and struct fs. *)
Definition sfs_ops : FsOps disk sfs := {|
  fs_sync := sfs_sync present space;
  fs_getvolname st := Some (sfs_getvolname st);
  fs_getroot := sfs_getroot present space nomem;
  fs_unmount := sfs_unmount;
  fs_mount := sfs_domount present space nomem;
  fs_lookup := VOP_LOOKUP present space nomem;
  fs_lookparent := VOP_LOOKPARENT;
  fs_creat := VOP_CREAT present space nomem;
  fs_link := VOP_LINK present space;
  fs_remove := VOP_REMOVE present space nomem;
  fs_rename := VOP_RENAME present space nomem;
  fs_incref := vnode_incref;
  fs_decref := vnode_decref present space;
  fs_incopen := vnode_incopen;
  fs_decopen := vnode_decopen present space;
  fs_open := VOP_OPEN;
  fs_gettype := VOP_GETTYPE;
  fs_tryseek := VOP_TRYSEEK;
  fs_other := VOP_OTHER;
  fs_read := VOP_READ present space;
  fs_write := VOP_WRITE present space;
  fs_truncate := VOP_TRUNCATE present space;
  fs_fsync := VOP_FSYNC present space;
  fs_stat := VOP_STAT
|}.
#[local] Existing Instance sfs_ops.

Ltac run_op := cbn [run sfs_ops fs_getroot fs_lookup fs_lookparent fs_creat fs_link fs_remove fs_rename fs_incref fs_decref fs_incopen fs_decopen
  fs_open fs_gettype fs_tryseek fs_other fs_read fs_write fs_truncate fs_fsync fs_stat].

Definition low_memory : Prop := ∃ j, nomem j = true.

(** ** The view *)

Definition afile_of (s : sfs_fs) (sv : sfs_vnode) : afile := AFile (sfi_size (sv_i sv)) (fbyte s sv).
Definition view (st : sfs) (F : gmap Z sfs_vnode) (M : names) : fsys := Fsys M (afile_of (sfs_d st) <$> delete 1 F) (refs st).

Lemma view_file st F M ino f : f_files (view st F M) !! ino = Some f → ∃ sv, ino ≠ 1 ∧ F !! ino = Some sv ∧ f = afile_of (sfs_d st) sv.
Proof.
  unfold view. cbn [f_files]. rewrite lookup_fmap. intros Hf. apply fmap_Some in Hf as (sv & [Hne HF]%lookup_delete_Some & ->). eauto.
Qed.

Lemma view_lookup st F M ino sv : ino ≠ 1 → F !! ino = Some sv → f_files (view st F M) !! ino = Some (afile_of (sfs_d st) sv).
Proof.
  intros Hne HF. unfold view. cbn [f_files]. rewrite lookup_fmap, fmap_Some. exists sv. split; [|done]. by apply lookup_delete_Some.
Qed.

Lemma view_same st F M st' F' M' X Y : keeps (sfs_d st) F (sfs_d st') F' X → (∀ ino, ino ∈ X → ino = 1 ∨ ino ∈ Y) →
  same_files (view st F M) (view st' F' M') Y.
Proof.
  intros Hk HX ino f' Hn (sv' & Hne & HF' & ->)%view_file. destruct (Hk ino sv') as (sv & HF & Hsz & Hb); [by intros [?|?]%HX|done|].
  exists (afile_of (sfs_d st) sv). split; [by apply view_lookup|]. split; done.
Qed.

Lemma view_sound st F M L n : inv st F M L none_owed n → sound (view st F M).
Proof.
  intros Hi ino. split.
  - intros [f (sv & Hne & HF & _)%view_file]. split; [done|]. assert (Hs : is_Some (F !! ino)) by eauto.
    apply (inv_used _ _ _ _ _ _ Hi) in Hs as [?|?]; done.
  - intros [Hne Hu]. destruct (proj2 (inv_used _ _ _ _ _ ino Hi) (or_intror Hu)) as [sv HF]. rewrite (view_lookup st F M ino sv) by done. eauto.
Qed.

(** ** Refinement *)

Section refine.
Context (st : sfs) (F : gmap Z sfs_vnode) (M : names) (L : gset Z) (n : Z).
Context (Hi : inv st F M L none_owed n) (Hn : 0 ≤ n < 2 ^ 31 - 1).

Definition refined (o : op) '(r, st') : Prop := ∃ F' M' L', inv st' F' M' L' none_owed (n + 1) ∧ fstep low_memory (view st F M) o r (view st' F' M') ∧
  (L' = L ∨ (r = Err ENOMEM ∧ ∃ b, L' = L ∪ {[b]})).

Lemma inv_later st' F' M' L' k : inv st' F' M' L' none_owed k → k ≤ n + 1 → inv st' F' M' L' none_owed (n + 1).
Proof. apply inv_mono. Qed.

Lemma names_view st' F' M' : refs st' = refs st → keeps (sfs_d st) F (sfs_d st') F' {[1]} → names_to (view st F M) (view st' F' M') M'.
Proof. intros Hr Hk. split; [done|]. split; [done|]. eapply view_same; [done|]. intros ino ->%elem_of_singleton. by left. Qed.

Lemma refs_view st' F' : keeps (sfs_d st) F (sfs_d st') F' {[1]} → refs_to (view st F M) (view st' F' M) (refs st').
Proof. intros Hk. split; [done|]. split; [done|]. eapply view_same; [done|]. intros ino ->%elem_of_singleton. by left. Qed.

Lemma keeps_root s' F' : keeps (sfs_d st) F s' F' ∅ → keeps (sfs_d st) F s' F' {[1]}.
Proof. intros Hk. eapply keeps_mono; [done|set_solver]. Qed.

Lemma keeps_self X : keeps (sfs_d st) F (sfs_d st) F X.
Proof. apply frame_keeps_same, frame_refl. Qed.

Lemma owns_file p : owns (refs st) p → is_dir (refs st) p ∨ ∃ ino, file_at (view st F M) p ino.
Proof.
  intros [[[ino rc] oc] Hp]. destruct (decide (ino = 1)) as [->|Hne]; [left; by exists rc, oc|right]. exists ino. split; [done|]. by exists rc, oc.
Qed.

(** The operation table: those of directories, and what files have instead. *)
Lemma dispatch {A} p (a b : outcome A) ino rc oc : refs st !! p = Some (ino, rc, oc) → if_dir p st a b = if decide (ino = 1) then b else a.
Proof.
  intros Hp. destruct (the_file st F M L n p ino rc oc Hi Hp) as (v & _ & _ & _ & _ & Hops & Hck). unfold if_dir. rewrite Hck. ostep. rewrite Hops.
  unfold ops_of. by case_decide.
Qed.

Lemma dispatch_dir {A} p (a b : outcome A) : is_dir (refs st) p → if_dir p st a b = b.
Proof. intros (rc & oc & Hp). by rewrite (dispatch p a b 1 rc oc Hp). Qed.

Lemma dispatch_file {A} p (a b : outcome A) ino : file_at (view st F M) p ino → if_dir p st a b = a.
Proof. intros (Hne & rc & oc & Hp). rewrite (dispatch p a b ino rc oc Hp). by rewrite decide_False. Qed.

(** An operation of directories called on a file. *)
Lemma refused o p ino : dir_op o = Some p → file_at (view st F M) p ino → refined o (Err ENOTDIR, st).
Proof.
  intros Ho Hf. exists F, M, L. split; [eapply inv_later; [done|lia]|]. split; [|by left]. apply S_fails; [by eapply F_notdir|].
  apply names_view; [done|]. apply keeps_self.
Qed.

Lemma failed o e st' F' : inv st' F' M L none_owed (n + 1) → refs st' = refs st → keeps (sfs_d st) F (sfs_d st') F' {[1]} →
  fails low_memory (view st F M) o e → refined o (Err e, st').
Proof. intros Hi' Hr Hk Hf. exists F', M, L. split; [done|]. split; [|by left]. apply S_fails; [done|]. by apply names_view. Qed.

Lemma lookup_refined d b : owns (refs st) d → 0 ∈ b → returns (run (Lookup d b) st) (refined (Lookup d b)).
Proof.
  intros Hd [t Hb]%cut_split. run_op. unfold VOP_LOOKUP. destruct (owns_file d Hd) as [Hdir|(ino & Hf)].
  2: { rewrite (dispatch_file d _ _ ino Hf). ostep. apply returns_ret. by eapply refused. }
  rewrite (dispatch_dir d _ _ Hdir). destruct (is_dir_vnode st d Hdir) as (v & Hv & H1).
  pose proof (inv_root_dir _ _ _ _ _ _ _ _ Hi Hv H1) as Hdk. unfold sfs_lookup. rewrite (vget_ok d st v Hv). ostep.
  rewrite bool_decide_eq_false_2 by (rewrite (do_type _ _ _ Hdk); tauto).
  pose proof (sfs_lookonce_ok present space nomem st F M L n d (cut b) t Hi Hn Hdir (cut_nonzero b)) as Hlook. rewrite <- Hb in Hlook.
  destruct Hlook as ([st' r] & -> & F' & Hi' & Hfr & Hpost). ostep. apply returns_ret.
  pose proof (keeps_root _ _ (frame_keeps_same _ _ _ _ _ Hfr)) as Hk. destruct r as [e|[p slot]].
  - destruct Hpost as [Hr [[-> HM]|[-> Hlow]]]; eapply failed; try done; [by eapply F_noent|by apply F_memory; [exact Hlow|]].
  - destruct Hpost as (ino & HM & Hload & _). exists F', M, L. split; [done|]. split; [|by left]. eapply S_lookup; [done|done|]. by apply refs_view.
Qed.

Lemma link_fails o w e : add_name o = Some w → new_name o = Some w → link_refused M w e → fails low_memory (view st F M) o e.
Proof.
  intros Ha Hnew [[-> [ino HM]]|[(-> & HM & Hl)|[HM He]]]; [by eapply F_exist|by eapply F_long|by eapply F_room].
Qed.

Lemma link_refined d b p : owns (refs st) d → 0 ∈ b → (∃ ino rc oc, refs st !! p = Some (ino, rc, oc) ∧ ino ≠ 1) →
  returns (run (Link d b p) st) (refined (Link d b p)).
Proof.
  intros Hd [t Hb]%cut_split (ino & rc & oc & Hp & Hne). run_op. unfold VOP_LINK. destruct (owns_file d Hd) as [Hdir|(i & Hf)].
  2: { rewrite (dispatch_file d _ _ i Hf). ostep. apply returns_ret. by eapply refused. }
  rewrite (dispatch_dir d _ _ Hdir). eapply returns_bind; [rewrite Hb at 1; by eapply sfs_link_ok; [..|apply cut_nonzero| |]|]. intros [e st'] (Hr & F' & M' & Hi' & Hk & Hpost).
  apply returns_ret. unfold errno. apply (inv_later _ _ _ _ _) in Hi'; [|lia]. case_decide as He.
  - destruct Hpost as (HM & Hl & ->). eexists F', _, L. split; [done|]. split; [|by left]. eapply (S_link _ d b p ino); try done; [|by apply names_view].
    split; [done|]. by exists rc, oc.
  - destruct Hpost as (-> & Hwhy & _). eapply failed; try done. by eapply link_fails.
Qed.

Lemma remove_refined d b : owns (refs st) d → 0 ∈ b → returns (run (Remove d b) st) (refined (Remove d b)).
Proof.
  intros Hd [t Hb]%cut_split. run_op. unfold VOP_REMOVE. destruct (owns_file d Hd) as [Hdir|(i & Hf)].
  2: { rewrite (dispatch_file d _ _ i Hf). ostep. apply returns_ret. by eapply refused. }
  rewrite (dispatch_dir d _ _ Hdir). eapply returns_bind; [rewrite Hb at 1; by eapply (sfs_remove_ok present space nomem); [..|apply cut_nonzero]|].
  intros [e st'] (Hr & F' & M' & Hi' & Hk & Hpost). apply returns_ret. unfold errno. destruct Hpost as [(-> & [ino HM] & ->)|(-> & Hwhy)].
  - rewrite decide_True by done. exists F', (delete (cut b) M), L. split; [done|]. split; [|by left]. eapply S_remove; [done|]. by apply names_view.
  - destruct Hwhy as [[-> HM]|[-> Hlow]]; (rewrite decide_False by done); eapply failed; try done; [by eapply F_noent|by apply F_memory; [exact Hlow|]].
Qed.

Lemma rename_refined d b1 b2 : owns (refs st) d → 0 ∈ b1 → 0 ∈ b2 → returns (run (Rename d b1 b2) st) (refined (Rename d b1 b2)).
Proof.
  intros Hd [t1 Hb1]%cut_split [t2 Hb2]%cut_split. run_op. unfold VOP_RENAME. destruct (owns_file d Hd) as [Hdir|(i & Hf)].
  2: { rewrite (dispatch_file d _ _ i Hf). ostep. apply returns_ret. by eapply refused. }
  rewrite (dispatch_dir d _ _ Hdir). eapply returns_bind; [rewrite Hb1, Hb2 at 1; by eapply (sfs_rename_ok present space nomem); [..|apply cut_nonzero|apply cut_nonzero]|].
  intros [e st'] (Hr & F' & M' & Hi' & Hk & Hpost). apply returns_ret. unfold errno.
  destruct Hpost as [(-> & HM2 & Hl & ino & HM1 & ->)|(Hne & -> & Hwhy)].
  - rewrite decide_True by done. eexists F', _, L. split; [done|]. split; [|by left]. eapply S_rename; [done..|]. by apply names_view.
  - rewrite decide_False by done. eapply failed; try done. destruct Hwhy as [[-> HM]|[[-> Hlow]|[_ Hwhy]]];
      [by eapply F_noent|by apply F_memory; [exact Hlow|]|by eapply link_fails].
Qed.

Lemma creat_refined d b excl : owns (refs st) d → 0 ∈ b → returns (run (Creat d b excl) st) (refined (Creat d b excl)).
Proof.
  intros Hd [t Hb]%cut_split. run_op. unfold VOP_CREAT. destruct (owns_file d Hd) as [Hdir|(i & Hf)].
  2: { rewrite (dispatch_file d _ _ i Hf). ostep. apply returns_ret. by eapply refused. }
  rewrite (dispatch_dir d _ _ Hdir). eapply returns_bind; [rewrite Hb at 1; by eapply (sfs_creat_ok present space nomem); [..|apply cut_nonzero]|].
  intros [st' r] (F' & M' & L' & Hi' & Hpost). apply returns_ret. destruct r as [e|p]; cbn [pointer].
  - destruct Hpost as (Hr & -> & Hk & Hwhy). exists F', M, L'. split; [done|].
    assert (Hq : quiet (view st F M) (view st' F' M)) by by apply names_view. destruct Hwhy as [(-> & -> & [ino HM] & ->)|[(-> & Hlow & HL)|(HM & -> & He)]].
    + split; [|by left]. apply S_fails; [by eapply F_exist|done].
    + split; [by apply S_fails; [apply F_memory; [exact Hlow|done]|]|]. destruct HL; [by left|right]. done.
    + split; [|by left]. apply S_fails; [|done]. destruct He as [->|[->|[-> Hl]]]; [eapply F_room; eauto..|by eapply F_long].
  - destruct Hpost as (-> & ino & Hload & Hcase). exists F', M', L. split; [done|]. split; [|by left]. destruct (M !! cut b) as [i|] eqn:HM.
    + destruct Hcase as (-> & -> & -> & Hk). eapply S_open_old; [done|done|]. by apply refs_view.
    + destruct Hcase as (Hnone & Hl & -> & Hk & sv & HF' & Hsz & Hz).
      assert (Hne : ino ≠ 1) by (intros ->; destruct (tr_root _ _ _ _ (iv_tree _ _ _ _ _ _ Hi)) as (? & ? & _); congruence).
      eapply (S_creat _ d b excl ino p (afile_of (sfs_d st') sv)); try done; [| |by apply view_lookup].
      * apply eq_None_not_Some. intros [f (? & _ & ? & _)%view_file]. congruence.
      * eapply view_same; [done|]. set_solver.
Qed.

Lemma getroot_refined : (∃ d, is_dir (refs st) d) ∨ ¬ low_memory → returns (run Getroot st) (refined Getroot).
Proof.
  intros Hc. run_op. eapply returns_bind; [eapply (sfs_getroot_ok present space nomem st F M L none_owed n Hi Hn)|].
  { destruct Hc as [(d & rc & oc & Hd)|Hm]; [left; eauto|right]. intros j. destruct (nomem j) eqn:Hj; [|done]. destruct Hm. by exists j. }
  intros [st' p] (Hi' & Hfr & Hload). apply returns_ret. exists F, M, L. split; [done|]. split; [|by left].
  eapply S_getroot; [done|]. by apply refs_view, keeps_root, frame_keeps_same.
Qed.

Lemma counts_refined o st' F' : inv st' F' M L none_owed (n + 1) → keeps (sfs_d st) F (sfs_d st') F' ∅ →
  (refs_to (view st F M) (view st' F' M) (refs st') → fstep low_memory (view st F M) o Done (view st' F' M)) → refined o (Done, st').
Proof. intros Hi' Hk Hs. exists F', M, L. split; [done|]. split; [|by left]. by apply Hs, refs_view, keeps_root. Qed.

Lemma incref_refined p : owns (refs st) p → returns (run (Incref p) st) (refined (Incref p)).
Proof.
  intros [[[ino rc] oc] Hp]. pose proof Hp as (v & Hv & Hino & Hrc & Hoc)%refs_some. run_op.
  destruct (vnode_incref_ok st F M L none_owed n p v Hi Hv ltac:(lia)) as [-> Hi']. ostep. apply returns_ret.
  eapply counts_refined; [done|apply keeps_self|]. intros Hto. eapply (S_incref _ p ino rc oc); [done|].
  rewrite refs_put in Hto. by rewrite <- Hino, <- Hrc, <- Hoc.
Qed.

Lemma decref_refined p : (∃ ino rc oc, refs st !! p = Some (ino, rc, oc) ∧ oc < rc) → returns (run (Decref p) st) (refined (Decref p)).
Proof.
  intros (ino & rc & oc & Hp & Hlt). pose proof Hp as (v & Hv & Hino & Hrc & Hoc)%refs_some. run_op.
  eapply returns_bind; [eapply (give_back present space); [done|done|lia]|]. intros st' (F' & Hi' & Hr & Hk). apply returns_ret.
  eapply counts_refined; [eapply inv_later; [done|lia]|done|]. intros Hto. apply S_decref. by rewrite Hr in Hto.
Qed.

Lemma opens_refined p : (∃ ino rc oc, refs st !! p = Some (ino, rc, oc) ∧ oc < rc) → returns (run (Incopen p) st) (refined (Incopen p)).
Proof.
  intros (ino & rc & oc & Hp & Hlt). run_op. eapply returns_bind; [eapply vnode_incopen_ok; [exact Hi|exact Hp|done|lia]|].
  intros st' (Hsame & Hr & Hi'). apply returns_ret. eapply counts_refined; [eapply inv_later; [done|lia]|rewrite Hsame; apply keeps_self|].
  intros Hto. rewrite Hr in Hto. by eapply S_incopen.
Qed.

Lemma closes_refined p : (∃ ino rc oc, refs st !! p = Some (ino, rc, oc) ∧ 0 < oc) → returns (run (Decopen p) st) (refined (Decopen p)).
Proof.
  intros (ino & rc & oc & Hp & Hlt). run_op. eapply returns_bind; [by eapply (vnode_decopen_ok present space)|].
  intros st' (Hr & F' & Hi' & Hk). apply returns_ret. eapply counts_refined; [eapply inv_later; [done|lia]|done|].
  intros Hto. rewrite Hr in Hto. by eapply S_decopen.
Qed.

(** Reading and writing a directory. *)
Lemma io_dir rw p m u : is_dir (refs st) p → vop_io present space rw p m u st = Ret (EISDIR, (m, u, st)).
Proof.
  intros (rc & oc & Hp). destruct (the_file st F M L n p 1 rc oc Hi Hp) as (v & _ & _ & _ & _ & Hops & Hck). unfold vop_io. rewrite Hck. ostep. by rewrite Hops.
Qed.

Lemma quiet_self : quiet (view st F M) (view st F M).
Proof. apply names_view; [done|apply keeps_self]. Qed.

Lemma stays o r : fstep low_memory (view st F M) o r (view st F M) → refined o (r, st).
Proof. intros Hs. exists F, M, L. split; [eapply inv_later; [done|lia]|]. split; [done|by left]. Qed.

Lemma read_refined p m u : owns (refs st) p → request present space u UIO_READ → returns (run (Read p m u) st) (refined (Read p m u)).
Proof.
  intros Hp Hu. run_op. destruct (owns_file p Hp) as [Hd|(ino & Hne & rc & oc & Hr)].
  - unfold VOP_READ. rewrite io_dir by done. ostep. apply returns_ret, stays. eapply S_isdir_io; [by left|done|apply quiet_self].
  - eapply returns_bind; [by eapply VOP_READ_ok|]. intros [e [[m' u'] st']] (-> & Hr' & sv & HF & -> & -> & F' & Hi' & Hk). apply returns_ret.
    exists F', M, L. split; [eapply inv_later; [done|lia]|]. split; [|by left].
    apply (S_read _ p m u ino (afile_of (sfs_d st) sv)); [split; [done|by exists rc, oc]|by apply view_lookup|by apply names_view, keeps_root].
Qed.

Lemma write_refined p m u : owns (refs st) p → request present space u UIO_WRITE → uio_offset u + uio_resid u ≤ MAXFILE →
  returns (run (Write p m u) st) (refined (Write p m u)).
Proof.
  intros Hp Hu Hend. run_op. destruct (owns_file p Hp) as [Hd|(ino & Hne & rc & oc & Hr)].
  - unfold VOP_WRITE. rewrite io_dir by done. ostep. apply returns_ret, stays. eapply S_isdir_io; [by right|done|apply quiet_self].
  - eapply returns_bind; [by eapply VOP_WRITE_ok|].
    intros [e [[m' u'] st']] (Hr' & -> & k & sv & sv' & F' & -> & Hcase & HF & HF' & Hi' & Hk & Hsz & Hb). apply returns_ret.
    exists F', M, L. split; [eapply inv_later; [done|lia]|]. split; [|by left].
    apply (S_write _ p m u ino (afile_of (sfs_d st) sv) (afile_of (sfs_d st') sv') e k); try done; [split; [done|by exists rc, oc]|naive_solver|by apply view_lookup..|].
    eapply view_same; [done|]. by right.
Qed.

Lemma truncate_refined p length : owns (refs st) p → 0 ≤ length ≤ MAXFILE → returns (run (Truncate p length) st) (refined (Truncate p length)).
Proof.
  intros Hp Hlen. run_op. destruct (owns_file p Hp) as [Hd|(ino & Hne & rc & oc & Hr)].
  - pose proof Hd as (rc & oc & Hr). destruct (the_file st F M L n p 1 rc oc Hi Hr) as (v & _ & _ & _ & _ & Hops & Hck). unfold VOP_TRUNCATE.
    rewrite Hck. ostep. rewrite Hops. cbn. apply returns_ret, stays. apply S_fails; [by apply F_isdir_cut|apply quiet_self].
  - eapply returns_bind; [by eapply VOP_TRUNCATE_ok|]. intros [e st'] (-> & Hr' & sv & sv' & F' & HF & HF' & Hi' & Hk & Hsz & Hb). apply returns_ret.
    exists F', M, L. split; [eapply inv_later; [done|lia]|]. split; [|by left].
    apply (S_truncate _ p length ino (afile_of (sfs_d st) sv) (afile_of (sfs_d st') sv')); try done; [split; [done|by exists rc, oc]|by apply view_lookup..|].
    eapply view_same; [done|]. by right.
Qed.

Lemma fsync_refined p : owns (refs st) p → returns (run (Fsync p) st) (refined (Fsync p)).
Proof.
  intros [[[ino rc] oc] Hp]. run_op. eapply returns_bind; [by eapply VOP_FSYNC_ok|]. intros [e st'] (-> & Hr & F' & Hi' & Hk). apply returns_ret.
  exists F', M, L. split; [eapply inv_later; [done|lia]|]. split; [|by left]. apply S_fsync. by apply names_view, keeps_root.
Qed.

Lemma stat_refined p : owns (refs st) p → returns (run (Stat p) st) (refined (Stat p)).
Proof.
  intros [[[ino rc] oc] Hp]. run_op. destruct (VOP_STAT_ok st F M L n p ino rc oc Hi Hp) as (sv & HF & ->). ostep. apply returns_ret, stays. case_decide as H1.
  - apply S_stat_dir; [subst ino; by exists rc, oc|apply quiet_self].
  - eapply (S_stat _ p ino (afile_of (sfs_d st) sv)); [split; [done|by exists rc, oc]|by apply view_lookup|apply quiet_self].
Qed.

(** What only the table of operations decides. *)
Lemma table_of p : owns (refs st) p → ∃ v, vnode_check p false st = Ret v ∧ vheap st !! p = Some v ∧
  ((vn_ops v = sfs_dirops ∧ vino v = 1 ∧ is_dir (f_refs (view st F M)) p) ∨ (vn_ops v = sfs_fileops ∧ file_at (view st F M) p (vino v))).
Proof.
  intros [[[ino rc] oc] Hp]. destruct (the_file st F M L n p ino rc oc Hi Hp) as (v & Hv & Hino & _ & _ & Hops & Hck). exists v. split; [done|]. split; [done|].
  unfold ops_of in Hops. rewrite Hops, Hino. case_decide as H1; [left|right]; [rewrite H1 in *; split_and!; [done..|by exists rc, oc]|].
  split; [done|]. split; [done|]. by exists rc, oc.
Qed.

Lemma open_refined p flags : owns (refs st) p → returns (run (Open p flags) st) (refined (Open p flags)).
Proof.
  intros (v & Hck & _ & Hcase)%table_of. run_op. unfold VOP_OPEN. rewrite Hck. ostep. pose proof quiet_self as Hq.
  destruct Hcase as [(-> & _ & Hd)|[-> Hf]]; repeat case_bool_decide; apply returns_ret, stays; cbn [errno].
  - apply S_fails; [|done]. apply F_isdir_open; [done|by left].
  - apply S_fails; [|done]. apply F_isdir_open; [done|by right].
  - apply S_opendir; [done|unfold writing; tauto|unfold append; tauto|done].
  - apply S_fails; [|done]. by eapply F_append.
  - eapply S_open; [done|unfold append; tauto|done].
Qed.

Lemma gettype_refined p : owns (refs st) p → returns (run (Gettype p) st) (refined (Gettype p)).
Proof.
  intros [[[ino rc] oc] Hp]. run_op. rewrite (VOP_GETTYPE_ok st F M L n p ino rc oc Hi Hp). ostep. apply returns_ret, stays. case_decide as H1.
  - apply S_gettype_dir; [subst ino; by exists rc, oc|apply quiet_self].
  - eapply S_gettype; [split; [done|by exists rc, oc]|apply quiet_self].
Qed.

Lemma tryseek_refined p pos : owns (refs st) p → returns (run (Tryseek p pos) st) (refined (Tryseek p pos)).
Proof.
  intros (v & Hck & _ & Hcase)%table_of. run_op. unfold VOP_TRYSEEK. rewrite Hck. ostep. pose proof quiet_self as Hq.
  destruct Hcase as [(-> & _ & Hd)|[-> Hf]]; [|case_bool_decide]; apply returns_ret, stays.
  - apply S_fails; [|done]. by apply F_isdir_seek.
  - apply S_fails; [|done]. by eapply F_before.
  - eapply S_tryseek; [done|lia|done].
Qed.

Lemma other_refined o p : owns (refs st) p → returns (run (Other o p) st) (refined (Other o p)).
Proof.
  intros (v & Hck & Hv & Hcase)%table_of. run_op. unfold VOP_OTHER. rewrite Hck. ostep. pose proof quiet_self as Hq.
  destruct Hcase as [(-> & H1 & Hd)|[-> Hf]].
  - assert (Hname : sfs_namefile p st = Ret 0).
    { unfold sfs_namefile. rewrite (vget_ok p st v Hv). ostep. by rewrite H1. }
    destruct o; try rewrite Hname; ostep; apply returns_ret, stays; try (apply S_fails; [by apply F_other_dir|done]). by apply S_namefile.
  - destruct o; ostep; apply returns_ret, stays; (apply S_fails; [by eapply F_other|done]).
Qed.

Lemma lookparent_refined d path buf : owns (refs st) d → 0 ∈ path → returns (run (Lookparent d path buf) st) (refined (Lookparent d path buf)).
Proof.
  intros Hd [t Hb]%cut_split. run_op. unfold VOP_LOOKPARENT. destruct (owns_file d Hd) as [Hdir|(ino & Hf)].
  2: { rewrite (dispatch_file d _ _ ino Hf). ostep. apply returns_ret. by eapply refused. }
  rewrite (dispatch_dir d _ _ Hdir). pose proof Hdir as (rc & oc & Hr). pose proof Hr as (v & Hv & H1 & Hrc & Hoc)%refs_some.
  pose proof (inv_root_dir _ _ _ _ _ _ _ _ Hi Hv H1) as Hdk. unfold sfs_lookparent. rewrite (vget_ok d st v Hv). ostep.
  rewrite bool_decide_eq_false_2 by (rewrite (do_type _ _ _ Hdk); tauto). pose proof (cut_nonzero path) as Hw.
  rewrite Hb at 1. rewrite strlen_ok by done. ostep. case_bool_decide as Hlen; ostep.
  { apply returns_ret, stays. apply S_fails; [by apply F_buffer|apply quiet_self]. }
  unfold strcpy. rewrite Hb at 1. rewrite strcpy_at_ok by (done || lia). ostep.
  destruct (vnode_incref_ok st F M L none_owed n d v Hi Hv ltac:(lia)) as [-> Hi']. ostep. apply returns_ret. exists F, M, L. split; [done|]. split; [|by left].
  change (take (Z.to_nat 0) buf) with (@nil Z). cbn [app]. replace (Z.to_nat 0 + length (cut path) + 1)%nat with (S (length (cut path))) by lia.
  eapply (S_lookparent _ d path buf rc oc); [lia|done|]. split; [done|]. split; [|apply view_same with (X := ∅); [apply keeps_self|by intros ? ?%elem_of_empty]].
  cbn [f_refs view]. rewrite refs_put. cbn. by rewrite H1, Hrc, Hoc.
Qed.
End refine.

(** One operation: it returns, and it is a step of the abstract machine. *)
Lemma run_refined st F M L n o : inv st F M L none_owed n → 0 ≤ n < 2 ^ 31 - 1 → allowed present space low_memory (refs st) o →
  returns (run o st) (refined st F M L n o).
Proof.
  intros Hi Hn Ho. destruct o; simpl in Ho; [by apply getroot_refined|..];
    try (destruct Ho as [? Ho]; (apply lookup_refined || apply creat_refined || apply remove_refined || apply read_refined || apply truncate_refined || apply lookparent_refined); done);
    try (destruct Ho as (? & ? & Ho); (apply link_refined || apply rename_refined || apply write_refined); done);
    by first [apply incref_refined|apply decref_refined|apply opens_refined|apply closes_refined|apply fsync_refined|apply stat_refined|apply open_refined|
      apply gettype_refined|apply tryseek_refined|apply other_refined].
Qed.

(** ** Sequences of operations *)

Inductive trace : sfs → list (op * reply) → sfs → Prop :=
| T_nil st : trace st [] st
| T_cons st o r st1 l st' : allowed present space low_memory (refs st) o → run o st = Ret (r, st1) → trace st1 l st' → trace st ((o, r) :: l) st'.

Inductive ftrace : fsys → list (op * reply) → fsys → Prop :=
| FT_nil A : ftrace A [] A
| FT_cons A o r A1 l A' : fstep low_memory A o r A1 → sound A1 → ftrace A1 l A' → ftrace A ((o, r) :: l) A'.

Lemma trace_refined st l st' : trace st l st' → ∀ F M L n, inv st F M L none_owed n → 0 ≤ n → n + len l < 2 ^ 31 →
  ∃ F' M' L', inv st' F' M' L' none_owed (n + len l) ∧ ftrace (view st F M) l (view st' F' M') ∧ ((∀ o, (o, Err ENOMEM) ∉ l) → L' = L).
Proof.
  induction 1 as [st|st o r st1 l st' Ho Hrun Ht IH]; intros F M L n Hi Hn Hlen.
  - exists F, M, L. rewrite Z.add_0_r. split; [done|]. split; [constructor|done].
  - cbn [length] in Hlen. destruct (run_refined st F M L n o Hi) as ([r1 st2] & Hrun' & F1 & M1 & L1 & Hi1 & Hs1 & HL1); [lia|done|].
    rewrite Hrun in Hrun'. injection Hrun' as <- <-. destruct (IH F1 M1 L1 (n + 1) Hi1) as (F' & M' & L' & Hi' & Hft & HL'); [lia..|].
    exists F', M', L'. cbn [length]. replace (n + Z.of_nat (S (length l))) with (n + 1 + len l) by lia. split; [done|]. split.
    + econstructor; [done|by eapply view_sound|done].
    + intros Hno. rewrite HL' by (intros o' Ho'; apply (Hno o'); by right). destruct HL1 as [?|[-> _]]; [done|]. exfalso. apply (Hno o). by left.
Qed.
End machine.
