(* ===== verification/SfsLabel.v ===== *)
(** * The label of a volume stays

    No operation on a mounted file system changes the superblock, so that the
    volume keeps its name. *)

From S2P Require Import Prelude Bitmap CArray KHeap KHeapSpec Coremap Uio CString Sfs SfsDir SfsVnode SfsMount FileSys SfsNamespace.

(** ** Partial correctness: if the code returns, the result satisfies [Q] *)

Definition yields {A} (m : outcome A) (Q : A → Prop) : Prop := ∀ a, m = Ret a → Q a.

Lemma yields_ret {A} (a : A) (Q : A → Prop) : Q a → yields (Ret a) Q.
Proof. by intros HQ b [= <-]. Qed.
Lemma yields_panic {A} (Q : A → Prop) : yields Panic Q.
Proof. by intros a. Qed.
Lemma yields_wild {A} (Q : A → Prop) : yields Wild Q.
Proof. by intros a. Qed.
Lemma yields_any {A} (m : outcome A) : yields m (λ _, True).
Proof. by intros a. Qed.
Lemma yields_bind {A B} (m : outcome A) (f : A → outcome B) P Q : yields m P → (∀ a, P a → yields (f a) Q) → yields (m ≫= f) Q.
Proof. intros Hm Hf b (a & Ha & Hb)%bind_Ret_inv. by eapply Hf; [apply Hm|]. Qed.

Lemma yields_assoc {A B C} (m : outcome A) (f : A → outcome B) (g : B → outcome C) Q : yields (a ← m; f a ≫= g) Q → yields ((m ≫= f) ≫= g) Q.
Proof. by destruct m. Qed.

Lemma yields_for_each {S} (Q : S → Prop) body : (∀ i s, Q s → yields (body i s) Q) → ∀ n i s, Q s → yields (for_each n i body s) Q.
Proof. intros Hb n. induction n as [|n IH]; intros i s Hs; [by apply yields_ret|]. simpl. eapply yields_bind; [by apply Hb|]. intros s' Hs'. by apply IH. Qed.

Lemma yields_for_loop {S R} (Q : S → Prop) (E : R → Prop) body :
  (∀ i s, Q s → yields (body i s) (λ x, match x with inl s => Q s | inr r => E r end)) →
  ∀ n i s, Q s → yields (for_loop n i body s) (λ x, match x with inl s => Q s | inr r => E r end).
Proof.
  intros Hb n. induction n as [|n IH]; intros i s Hs; [by apply yields_ret|]. simpl. eapply yields_bind; [by apply Hb|]. intros [s'|r] Hx; [by apply IH|by apply yields_ret].
Qed.

(** ** The operations *)

Create HintDb label.

(** Walk through the code: known calls by the hints, others give any result;
    a choice between calls gives a state, or a code and a state. *)
Ltac label_walk sp :=
  repeat (progress simpl in * ||
  match goal with
  | |- yields (Ret _) _ => apply yields_ret; simpl; repeat case_match; simplify_eq/=; try done
  | |- yields Panic _ => apply yields_panic
  | |- yields Wild _ => apply yields_wild
  | |- yields ((_ ≫= _) ≫= _) _ => apply yields_assoc
  | |- yields (?m ≫= _) _ =>
      first [eapply yields_bind; [solve [eauto with label]|]
            |lazymatch m with match _ with _ => _ end =>
               first [apply (yields_bind _ _ (λ st, sfs_sp st = sp)); [solve [label_walk sp]|]
                     |apply (yields_bind _ _ (λ '(_, st), sfs_sp st = sp)); [solve [label_walk sp]|]
                     |lazymatch m with match ?x with _ => _ end => destruct x end] end
            |eapply yields_bind; [apply yields_any|]]; simpl; intros
  | |- yields (match ?x with _ => _ end) _ => destruct x; simpl in *
  | |- yields _ _ => solve [eauto with label]
  | H : _ ∧ _ |- _ => destruct H
  end).

Section label.
Context (present : Z → bool) (space : Z) (nomem : nat → bool) (sp : sfs_super).
Abbreviation keeps_label := (λ st : sfs, sfs_sp st = sp).

Abbreviation labelled_first := (λ '(st, _), sfs_sp st = sp).
Abbreviation labelled_second := (λ '(_, st), sfs_sp st = sp).

Lemma countlock_label st : sfs_sp st = sp → sfs_sp (create_countlock nomem st).2 = sp.
Proof. intros H. unfold create_countlock, kmalloc. by repeat (case_match; simplify_eq/=). Qed.

Lemma vnode_init_label ops sv st : sfs_sp st = sp → sfs_sp (vnode_init nomem ops sv st).2 = sp.
Proof. intros H. unfold vnode_init. pose proof (countlock_label st H) as H1. by repeat (case_match; simplify_eq/=). Qed.

Lemma incref_label p st : keeps_label st → yields (vnode_incref p st) keeps_label.
Proof. intros H. unfold vnode_incref. label_walk sp. Qed.
Lemma incopen_label p st : keeps_label st → yields (vnode_incopen p st) keeps_label.
Proof. intros H. unfold vnode_incopen. label_walk sp. Qed.
Lemma fsync_label p st : keeps_label st → yields (sfs_fsync present space p st) labelled_second.
Proof. intros H. unfold sfs_fsync. label_walk sp. Qed.
#[local] Hint Resolve incref_label incopen_label fsync_label : label.
Lemma VOP_FSYNC_label p st : keeps_label st → yields (VOP_FSYNC present space p st) labelled_second.
Proof. intros H. unfold VOP_FSYNC. label_walk sp. Qed.
Lemma truncate_label p n st : keeps_label st → yields (VOP_TRUNCATE present space p n st) labelled_second.
Proof. intros H. unfold VOP_TRUNCATE. label_walk sp. Qed.
Lemma io_label rw p m u st : keeps_label st → yields (vop_io present space rw p m u st) (λ '(_, (_, _, st')), sfs_sp st' = sp).
Proof. intros H. unfold vop_io. label_walk sp. Qed.
#[local] Hint Resolve VOP_FSYNC_label truncate_label io_label : label.
Lemma reclaim_label p st : keeps_label st → yields (sfs_reclaim present space p st) labelled_second.
Proof. intros H. unfold sfs_reclaim. label_walk sp. Qed.
#[local] Hint Resolve reclaim_label : label.
Lemma decref_label p st : keeps_label st → yields (vnode_decref present space p st) keeps_label.
Proof. intros H. unfold vnode_decref. label_walk sp. Qed.
Lemma decopen_label p st : keeps_label st → yields (vnode_decopen present space p st) keeps_label.
Proof. intros H. unfold vnode_decopen, sfs_close. label_walk sp. Qed.
#[local] Hint Resolve decref_label decopen_label : label.

Lemma enter_label p ino i dirty st : keeps_label st → yields (enter_vnode nomem p ino i dirty st) labelled_first.
Proof.
  intros H. unfold enter_vnode. eapply yields_bind; [apply yields_any|]. intros ops _. pose proof (vnode_init_label ops (SfsVnode i ino dirty) st H) as Hs.
  destruct (vnode_init nomem ops _ st) as [r st1]. label_walk sp.
Qed.
#[local] Hint Resolve enter_label : label.
Lemma load_label ino ty st : keeps_label st → yields (sfs_loadvnode present space nomem ino ty st) labelled_first.
Proof.
  intros H. unfold sfs_loadvnode. eapply yields_bind; [apply (yields_for_loop keeps_label labelled_first); [|done]|].
  { intros i s Hs. unfold load_turn. label_walk sp. }
  intros [s|[s p]] Hs; label_walk sp.
Qed.
#[local] Hint Resolve load_label : label.
Lemma getroot_label st : keeps_label st → yields (sfs_getroot present space nomem st) labelled_first.
Proof. intros H. unfold sfs_getroot. label_walk sp. Qed.
Lemma findname_label d b st : keeps_label st → yields (dir_findname present space d b st) (λ '(_, st', _), sfs_sp st' = sp).
Proof. intros H. unfold dir_findname. label_walk sp. Qed.
Lemma dir_link_label d b ino st : keeps_label st → yields (dir_link present space d b ino st) (λ '(_, st', _), sfs_sp st' = sp).
Proof. intros H. unfold dir_link. label_walk sp. Qed.
Lemma unlink_label d slot st : keeps_label st → yields (dir_unlink present space d slot st) labelled_second.
Proof. intros H. unfold dir_unlink. label_walk sp. Qed.
Lemma links_label p n dirty st : keeps_label st → yields (add_links p n dirty st) keeps_label.
Proof. intros H. unfold add_links. label_walk sp. Qed.
#[local] Hint Resolve getroot_label findname_label dir_link_label unlink_label links_label : label.
Lemma lookonce_label d b st : keeps_label st → yields (sfs_lookonce present space nomem d b st) labelled_first.
Proof. intros H. unfold sfs_lookonce. label_walk sp. Qed.
Lemma makeobj_label ty st : keeps_label st → yields (sfs_makeobj present space nomem ty st) labelled_first.
Proof. intros H. unfold sfs_makeobj. label_walk sp. Qed.
#[local] Hint Resolve lookonce_label makeobj_label : label.
Lemma creat_label d b excl st : keeps_label st → yields (sfs_creat present space nomem d b excl st) labelled_first.
Proof. intros H. unfold sfs_creat. label_walk sp. Qed.
Lemma link_label d b p st : keeps_label st → yields (sfs_link present space d b p st) labelled_second.
Proof. intros H. unfold sfs_link. label_walk sp. Qed.
Lemma remove_label d b st : keeps_label st → yields (sfs_remove present space nomem d b st) labelled_second.
Proof. intros H. unfold sfs_remove. label_walk sp. Qed.
Lemma rename_label d b1 d2 b2 st : keeps_label st → yields (sfs_rename present space nomem d b1 d2 b2 st) labelled_second.
Proof. intros H. unfold sfs_rename. label_walk sp. Qed.
Lemma lookparent_label d path buf st : keeps_label st → yields (sfs_lookparent d path buf st) (λ '(st', _, _), sfs_sp st' = sp).
Proof. intros H. unfold sfs_lookparent. label_walk sp. Qed.
Lemma lookup_label d b st : keeps_label st → yields (sfs_lookup present space nomem d b st) labelled_first.
Proof. intros H. unfold sfs_lookup. label_walk sp. Qed.
#[local] Hint Resolve creat_label link_label remove_label rename_label lookparent_label lookup_label : label.

Lemma run_label o st : keeps_label st → yields (run (H := sfs_ops present space nomem) o st) labelled_second.
Proof.
  intros H. destruct o; unfold run, sfs_ops; simpl; unfold VOP_LOOKUP, VOP_LOOKPARENT, VOP_CREAT, VOP_LINK, VOP_REMOVE, VOP_RENAME, VOP_READ, VOP_WRITE, if_dir; label_walk sp.
Qed.

Lemma sync_label st : keeps_label st → yields (sfs_sync present space st) labelled_second.
Proof.
  intros H. unfold sfs_sync. eapply yields_bind; [apply (yields_for_each keeps_label); [|done]|].
  { intros i s Hs. unfold sync_turn. label_walk sp. }
  intros s Hs. label_walk sp.
Qed.
End label.
