(* ===== verification/SfsSync.v ===== *)
(** * Sync and mount keep what there is

    After sfs_sync everything that has a name is on the disk: mounting the disk
    again gives the same names and the same files. *)

From S2P Require Import Prelude Bitmap CArray KHeap KHeapSpec Coremap Uio CString.
From S2P Require Import Sfs SfsSpec SfsTrunc SfsTheorems SfsFrame SfsDir SfsDirSpec SfsVnode SfsMount SfsInv SfsTree SfsOps SfsLoad SfsNames SfsFiles.

(** ** The free map on disk *)

Lemma bitmapsize_ok n : 0 < n < 2 ^ 22 → SFS_BITMAPSIZE n = mapblocks n * 4096.
Proof.
  intros Hn. unfold SFS_BITMAPSIZE, SFS_BLOCKBITS, mapblocks. replace (n + 4096 - 1) with (n + 4095) by lia.
  rewrite (u32_small (n + 4095)) by lia. apply u32_small. Z.to_euclidean_division_equations. lia.
Qed.

Lemma bitblocks_ok n : 0 < n < 2 ^ 22 → SFS_BITBLOCKS n = mapblocks n.
Proof. intros Hn. unfold SFS_BITBLOCKS. rewrite bitmapsize_ok by done. unfold SFS_BLOCKBITS. by apply Z.div_mul. Qed.

Lemma map_length s F L : disk_ok s F L → len (bm_v (sfs_freemap s)) = mapblocks (sp_nblocks s) * 512.
Proof.
  intros Hd. rewrite (wf_words _ (fs_map _ (dk_fs _ _ _ Hd))), (dk_bits _ _ _ Hd). unfold mapblocks. Z.to_euclidean_division_equations. lia.
Qed.

Definition chunk (fm : bitmap) (j : Z) : list Z := take 512 (drop (Z.to_nat (j * 512)) (bm_v fm)).

Lemma map_chunk_ok fm j : 0 ≤ j → (j + 1) * 512 ≤ len (bm_v fm) → map_chunk fm j = Ret (chunk fm j) ∧ length (chunk fm j) = 512%nat.
Proof.
  intros Hj Hl. unfold map_chunk, bitmap_getdata, SFS_BLOCKSIZE. rewrite bool_decide_eq_true_2 by done. split; [done|].
  unfold chunk. rewrite length_take, length_drop. lia.
Qed.

(** The blocks of the free map are written, nothing else is. *)
Lemma disk_resector s F L s' : disk_ok s F L → fs_ok s' → sp_nblocks s' = sp_nblocks s → sfs_freemap s' = sfs_freemap s →
  (∀ x, 0 ≤ x → ¬ (2 ≤ x < 2 + mapblocks (sp_nblocks s)) → sector s' x = sector s x) →
  (sfs_freemapdirty s' = false → ∀ j, 0 ≤ j < mapblocks (sp_nblocks s) → sector s' (2 + j) = chunk (sfs_freemap s) j) →
  disk_ok s' F L ∧ ∀ ino sv, F !! ino = Some sv → still s s' sv.
Proof.
  intros Hd Hs' Hn Hfm Hsec Hmap. pose proof Hd as [Hfs Hfile Hap Hdisk Hres Hused Hbits _ Hsup Hfits].
  assert (Hm : ∀ x, marked s' x ↔ marked s x) by (intros x; unfold marked; by rewrite Hfm).
  assert (Hown : ∀ ino sv b, F !! ino = Some sv → b ∈ own s sv → sector s' b = sector s b).
  { intros ino sv b Hi Hb. destruct (Hfile ino sv Hi) as (_ & (_ & Hf & _) & _). destruct (fo_own _ _ Hf b Hb). apply Hsec; [lia|]. intros Hr.
    destruct (Hres b) as [_ Hno]; [by right|]. by apply (Hno ino sv). }
  assert (Hst : ∀ ino sv, F !! ino = Some sv → still s s' sv).
  { intros ino sv Hi. destruct (Hfile ino sv Hi) as (_ & (_ & Hf & _) & _). apply still_frame; [done|done|]. intros b Hb.
    destruct (fo_own _ _ Hf b Hb). rewrite Hm. split; [done|by eapply Hown]. }
  split; [|done]. split; rewrite ?Hn, ?Hfm; try done.
  - intros ino sv Hi. destruct (Hfile ino sv Hi) as (? & (_ & _ & ?) & ?). split; [done|]. split; [|done]. split_and!; [done|by apply (Hst ino)|lia..].
  - intros i j si sj Hi Hj Hne b. rewrite (st_own _ _ _ (Hst i si Hi)), (st_own _ _ _ (Hst j sj Hj)). by apply (Hap i j).
  - intros ino sv Hi Hc. destruct (Hfile ino sv Hi) as (Hino & _). rewrite (Hown ino sv) by (done || rewrite <- Hino; apply own_ino). by apply Hdisk.
  - intros b Hb. rewrite Hm. destruct (Hres b Hb) as [? Hno]. split; [done|]. intros ino sv Hi. rewrite (st_own _ _ _ (Hst ino sv Hi)). by eapply Hno.
  - intros b Hb Hmb%Hm. destruct (Hused b Hb Hmb) as [?|[(ino & sv & Hi & Hin)|?]]; [by left|right; left|by right; right].
    exists ino, sv. by rewrite (st_own _ _ _ (Hst ino sv Hi)).
  - unfold super_ok in *. rewrite Hn, Hsec by lia. done.
Qed.

Section sync.
Context (present : Z → bool) (space : Z).

(** ** Writing the free map *)

Lemma mapio_write s F L : disk_ok s F L → returns (sfs_mapio present space UIO_WRITE s) (λ '(e, s'), e = 0 ∧
  fs_to s s' (secs s') (sfs_freemap s) ∧ fs_ok s' ∧
  ∀ x, 0 ≤ x → sector s' x = if decide (2 ≤ x < 2 + mapblocks (sp_nblocks s)) then chunk (sfs_freemap s) (x - 2) else sector s x).
Proof.
  intros Hd. pose proof (dk_fs _ _ _ Hd) as Hs. pose proof (fs_size _ Hs). pose proof (dk_fits _ _ _ Hd) as Hfits. pose proof (map_length _ _ _ Hd) as Hlen.
  unfold sfs_mapio. rewrite bitblocks_ok by lia. set (mb := mapblocks (sp_nblocks s)) in *. assert (Hmb : 0 ≤ mb) by lia.
  destruct (for_loop_inv (λ j sj, fs_to s sj (secs sj) (sfs_freemap s) ∧ fs_ok sj ∧
      ∀ x, 0 ≤ x → sector sj x = if decide (2 ≤ x < 2 + j) then chunk (sfs_freemap s) (x - 2) else sector s x) (λ _, False)
      (mapio_turn present space UIO_WRITE) (Z.to_nat mb) 0 s) as [(s' & -> & Hto & Hs' & Hsec)|(? & _ & [])].
  - split; [done|]. split; [done|]. intros x Hx. rewrite decide_False by lia. done.
  - intros j sj Hj (Hto & Hsj & Hsec). left. unfold mapio_turn. rewrite (ft_map _ _ _ _ Hto).
    destruct (map_chunk_ok (sfs_freemap s) j) as [-> Hcl]; [lia|lia|]. ostep.
    destruct (sfs_wblock_ok present space sj (chunk (sfs_freemap s) j) (2 + j) Hsj Hcl) as (s1 & Hw & Hto1); [rewrite (ft_nblocks _ _ _ _ Hto); lia|].
    unfold SFS_MAP_LOCATION. rewrite Hw. ostep. exists s1. split; [done|].
    assert (Hs1 : fs_ok s1) by (eapply fs_ok_write; [exact Hsj|exact Hcl|exact Hto1]). split; [|split; [done|]].
    + rewrite (ft_map _ _ _ _ Hto) in Hto1. eapply fs_to_trans; [exact Hto|]. by rewrite (ft_secs _ _ _ _ Hto1).
    + intros x Hx. rewrite (sector_insert sj s1 (2 + j) (chunk (sfs_freemap s) j) _ x Hto1 Hsj) by (rewrite ?(ft_nblocks _ _ _ _ Hto); lia).
      destruct (decide (x = 2 + j)) as [->|Hne]; [rewrite decide_True by lia; f_equal; lia|]. rewrite Hsec by done.
      destruct (decide (2 ≤ x < 2 + j)); [by rewrite decide_True by lia|by rewrite decide_False by lia].
  - ostep. apply returns_ret. split; [done|]. rewrite Z2Nat.id in Hsec by lia. done.
Qed.

(** ** sfs_sync *)

Definition synced (F : gmap Z sfs_vnode) : Prop := ∀ ino sv, F !! ino = Some sv → sv_dirty sv = false.

Lemma sync_turn_ok st F M L n ptrs i p : inv st F M L none_owed n → arepr (sfs_vnodes st) ptrs → 0 ≤ i → ptrs !! Z.to_nat i = Some p →
  is_Some (vheap st !! p) →
  returns (sync_turn present space i st) (λ st', ∃ v s' F', vheap st !! p = Some v ∧ st' = vput p (with_data (set_clean (vn_data v)) v) (set_d s' st) ∧
    inv st' F' M L none_owed n ∧ refs st' = refs st ∧ keeps (sfs_d st) F (sfs_d st') F' ∅).
Proof.
  intros Hi Har H0 Hp [v Hv]. unfold sync_turn. rewrite (array_getguy_ok (sfs_vnodes st) ptrs i p) by done. ostep.
  unfold VOP_FSYNC. rewrite (inv_check _ _ _ _ _ _ _ _ _ Hi Hv). ostep.
  eapply returns_bind; [by eapply sfs_fsync_ok|]. intros [e st'] (-> & s' & -> & Hi' & Hfr). apply returns_ret.
  eexists v, s', _. split_and!; try done; [by apply refs_data|by apply frame_keeps_same].
Qed.

(** Every vnode in the table is written back. *)
Lemma sync_vnodes st F M L n : inv st F M L none_owed n →
  returns (for_each (Z.to_nat (array_getnum (sfs_vnodes st))) 0 (sync_turn present space) st) (λ st', refs st' = refs st ∧
    ∃ F', inv st' F' M L none_owed n ∧ keeps (sfs_d st) F (sfs_d st') F' ∅ ∧ synced F').
Proof.
  intros Hi. destruct (iv_table _ _ _ _ _ _ Hi) as (ptrs & Har & Hnd & Hptr). pose proof (ar_num _ _ Har) as Hnum. unfold array_getnum. rewrite Hnum, Nat2Z.id.
  destruct (for_each_inv (λ i st', 0 ≤ i ∧ sfs_vnodes st' = sfs_vnodes st ∧ refs st' = refs st ∧
      (∃ F', inv st' F' M L none_owed n ∧ keeps (sfs_d st) F (sfs_d st') F' ∅) ∧
      ∀ j p v, (Z.of_nat j < i) → ptrs !! j = Some p → vheap st' !! p = Some v → sv_dirty (vn_data v) = false)
      (sync_turn present space) (length ptrs) 0 st) as (st' & -> & _ & Hvn & Hr & (F' & Hi' & Hk) & Hclean).
  - split; [done|]. split_and!; try done; [exists F; split; [done|]; apply frame_keeps_same, frame_refl|]. intros; lia.
  - intros i st1 Hr (H0 & Hvn & Hr1 & (F1 & Hi1 & Hk1) & Hclean). destruct (lookup_lt_is_Some_2 ptrs (Z.to_nat i)) as [p Hp]; [lia|].
    assert (Hin : is_Some (refs st !! p)) by (destruct (proj1 (Hptr p)) as [v Hv]; [by eapply list_elem_of_lookup_2|]; rewrite (refs_of st p v Hv); eauto).
    rewrite <- Hr1 in Hin. destruct Hin as [[[ino rc] oc] (v & Hv & _)%refs_some].
    destruct (sync_turn_ok st1 F1 M L n ptrs i p Hi1) as (st2 & Hrun & v' & s2 & F2 & Hv' & -> & Hi2 & Hr2 & Hk2); try done; [by rewrite Hvn|].
    eexists. split; [done|]. split; [lia|]. split; [done|]. split; [congruence|]. split.
    + exists F2. split; [done|]. replace (∅ : gset Z) with (∅ ∪ ∅ : gset Z) by set_solver. by eapply keeps_trans.
    + intros j q w Hj Hq Hw. simpl in Hw. destruct (decide (q = p)) as [->|Hne].
      * rewrite lookup_insert_eq in Hw. injection Hw as <-. done.
      * rewrite lookup_insert_ne in Hw by done. eapply Hclean; [|exact Hq|exact Hw]. assert (Z.of_nat j ≠ i); [|lia]. intros <-. rewrite Nat2Z.id in Hp. congruence.
  - apply returns_ret. split; [done|]. exists F'. split_and!; try done. intros ino sv Hsv.
    destruct (iv_cold _ _ _ _ _ _ Hi' ino sv Hsv) as [(p & v & Hv & <-)|[? _]]; [|done]. destruct (inv_file _ _ _ _ _ _ _ _ Hi' Hv) as (HF & _).
    assert (sv = vn_data v) as -> by congruence. assert (Hin : p ∈ ptrs).
    { apply Hptr. pose proof (refs_of st' p v Hv) as Hrp. rewrite Hr in Hrp. apply refs_some in Hrp as (w & ? & _). eauto. }
    apply list_elem_of_lookup_1 in Hin as [j Hj]. eapply Hclean; [|exact Hj|exact Hv]. apply lookup_lt_Some in Hj. lia.
Qed.

Lemma sfs_sync_ok st F M L n : inv st F M L none_owed n →
  returns (sfs_sync present space st) (λ '(e, st'), e = 0 ∧ refs st' = refs st ∧
    ∃ F', inv st' F' M L none_owed n ∧ keeps (sfs_d st) F (sfs_d st') F' ∅ ∧ synced F' ∧ sfs_freemapdirty (sfs_d st') = false).
Proof.
  intros Hi. unfold sfs_sync. eapply returns_bind; [by eapply sync_vnodes|]. intros st1 (Hr1 & F1 & Hi1 & Hk1 & Hc1).
  pose proof (iv_superclean _ _ _ _ _ _ Hi1) as Hsup. destruct (sfs_freemapdirty (sfs_d st1)) eqn:Hdirty.
  2: { ostep. rewrite (bool_decide_eq_false_2 (0 ≠ 0)) by tauto. rewrite Hsup. apply returns_ret. split_and!; try done. by exists F1. }
  destruct (mapio_write (sfs_d st1) F1 L (iv_disk _ _ _ _ _ _ Hi1)) as ([e s2] & -> & -> & Hto & Hs2 & Hsec). ostep.
  rewrite (bool_decide_eq_false_2 (0 ≠ 0)) by tauto. cbn [set_d sfs_superdirty]. rewrite Hsup. apply returns_ret. split; [done|]. split; [done|].
  destruct (disk_resector (sfs_d st1) F1 L (clean_freemap s2) (iv_disk _ _ _ _ _ _ Hi1)) as [Hd2 Hst].
  - destruct Hs2. by split.
  - apply Hto.
  - apply Hto.
  - intros x Hx Hn. change (sector (clean_freemap s2) x) with (sector s2 x). rewrite Hsec by done. by rewrite decide_False.
  - intros _ j Hj. change (sector (clean_freemap s2) (2 + j)) with (sector s2 (2 + j)). rewrite Hsec, decide_True by lia. f_equal. lia.
  - exists F1. split; [by eapply inv_still|]. split_and!; try done. replace (∅ : gset Z) with (∅ ∪ ∅ : gset Z) by set_solver.
    eapply keeps_trans; [done|]. by apply frame_keeps_same, still_frames.
Qed.
End sync.
