(* ===== verification/SfsRemount.v ===== *)
(** * Mounting what is on the disk *)

From S2P Require Import Prelude Bitmap CArray KHeap KHeapSpec Coremap Uio CString.
From S2P Require Import Sfs SfsSpec SfsTrunc SfsTheorems SfsFrame SfsDir SfsDirSpec SfsVnode SfsMount SfsInv SfsTree SfsOps SfsLoad SfsNames SfsFiles SfsSync.

(** ** Reading blocks of a known disk *)

Record same_disk (dk dk' : disk) : Prop := {
  sd_blocks : d_blocks dk' = d_blocks dk;
  sd_sectors : d_sectors dk' = d_sectors dk;
  sd_fail : d_fail dk' = d_fail dk
}.

Lemma same_disk_to s dk : same_disk (sfs_device s) dk → fs_to s (set_device dk s) (secs s) (sfs_freemap s).
Proof. intros []. by split. Qed.

Lemma fs_to_disk s s' fm : fs_to s s' (secs s) fm → same_disk (sfs_device s) (sfs_device s').
Proof. intros []. by split. Qed.

Lemma words_two a b rest : word a → word b → bytes_words (word_bytes a ++ word_bytes b ++ rest) = a :: b :: bytes_words rest.
Proof.
  intros Ha Hb. assert (H : bytes_words (words_bytes [a; b]) = [a; b]) by (apply bytes_words_bytes; by rewrite !Forall_cons).
  unfold word_bytes. cbn [words_bytes word_bytes app bytes_words] in *. injection H as H1 H2. by rewrite H1, H2.
Qed.

Lemma super_words blk n : length blk = 512%nat → 0 ≤ n < 2 ^ 32 → take 8 blk = word_bytes SFS_MAGIC ++ word_bytes n →
  ∃ vol ws, bytes_super blk = (SfsSuper SFS_MAGIC vol ws, n) ∧ length vol = 32%nat.
Proof.
  intros Hl Hn Ht. rewrite <- (take_drop 8 blk), Ht. unfold bytes_super.
  set (rest := drop 8 blk). assert (Hrest : length rest = 504%nat) by (unfold rest; rewrite length_drop; lia).
  assert (Hw : bytes_words ((word_bytes SFS_MAGIC ++ word_bytes n) ++ rest) = SFS_MAGIC :: n :: bytes_words rest).
  { rewrite <- app_assoc. apply words_two; unfold word, SFS_MAGIC; lia. }
  rewrite Hw. eexists _, _. split; [done|]. rewrite drop_app_length' by done. rewrite length_take. lia.
Qed.

Lemma set_chunk_ok fm v j mb data : len (bm_v fm) = mb * 512 → len v = mb * 512 → 0 ≤ j < mb → length data = 512%nat →
  take (Z.to_nat (j * 512)) (bm_v fm) = take (Z.to_nat (j * 512)) v → data = take 512 (drop (Z.to_nat (j * 512)) v) →
  len (bm_v (set_chunk fm j data)) = mb * 512 ∧ take (Z.to_nat ((j + 1) * 512)) (bm_v (set_chunk fm j data)) = take (Z.to_nat ((j + 1) * 512)) v.
Proof.
  intros Hl Hlv Hj Hd Ht ->. unfold set_chunk, SFS_BLOCKSIZE. cbn [bm_v]. rewrite Hd. set (k := Z.to_nat (j * 512)) in *. split.
  - rewrite !length_app, length_take, length_drop, Hd. lia.
  - replace (Z.to_nat ((j + 1) * 512)) with (k + 512)%nat by lia. rewrite app_assoc, Ht. rewrite take_take_drop. apply take_app_length'.
    rewrite length_take. lia.
Qed.

Section remount.
Context (present : Z → bool) (space : Z) (nomem : nat → bool).

(** The block routines look at the device only. *)
Lemma rblock_device s1 s2 data b : sfs_device s1 = sfs_device s2 →
  sfs_rblock present space s1 data b =
    ('(e, s', d) ← sfs_rblock present space s2 data b; Ret (e, set_device (sfs_device s') s1, d)).
Proof.
  intros Hdev. unfold sfs_rblock, in_buffer, sfs_rwblock. rewrite Hdev.
  destruct (sfs_rw_tries _ _ _ _) as [[e [[dk m] u]]| | |]; done.
Qed.

Lemma read_device s x data b : fs_ok s → same_disk (sfs_device s) (sfs_device x) → length data = 512%nat → 0 ≤ b < sp_nblocks s →
  ∃ dk, sfs_rblock present space x data b = Ret (0, set_device dk x, sector s b) ∧ same_disk (sfs_device s) dk.
Proof.
  intros Hs Hsd Hl Hb. set (s2 := set_device (sfs_device x) s). pose proof (same_disk_to s _ Hsd) as Hto. pose proof (fs_ok_same _ _ Hs Hto) as Hs2.
  destruct (sector_get s b Hs) as (blk & Hblk & _); [pose proof (fs_size _ Hs); lia|].
  assert (Hblk2 : secs s2 !! Z.to_nat b = Some blk) by (unfold s2; by rewrite (ft_secs _ _ _ _ Hto)).
  destruct (sfs_rblock_ok present space s2 data b blk Hs2 Hl Hb Hblk2) as (s' & Hrun & Hto').
  exists (sfs_device s'). rewrite (rblock_device x s2) by done. rewrite Hrun. ostep. unfold sector. rewrite Hblk. split; [done|].
  eapply (fs_to_disk s s'). eapply fs_to_trans; [exact Hto|]. unfold s2 in Hto'. by rewrite (ft_secs _ _ _ _ Hto), (ft_map _ _ _ _ Hto) in Hto'.
Qed.

(** The free map comes back as it was written. *)
Lemma mapio_read s F L dk fm : disk_ok s F L → sfs_freemapdirty s = false → same_disk (sfs_device s) dk →
  bm_nbits fm = bm_nbits (sfs_freemap s) → len (bm_v fm) = len (bm_v (sfs_freemap s)) →
  ∃ dk', sfs_mapio present space UIO_READ (SfsFs (sp_nblocks s) dk fm false) = Ret (0, SfsFs (sp_nblocks s) dk' (sfs_freemap s) false) ∧
    same_disk (sfs_device s) dk'.
Proof.
  intros Hd Hclean Hsd Hnb Hl. pose proof (dk_fs _ _ _ Hd) as Hs. pose proof (fs_size _ Hs). pose proof (dk_fits _ _ _ Hd) as Hfits.
  pose proof (map_length _ _ _ Hd) as Hlen. unfold sfs_mapio. cbn [sp_nblocks]. rewrite bitblocks_ok by lia. set (mb := mapblocks (sp_nblocks s)) in *.
  assert (Hmb : 0 ≤ mb) by lia. set (v := bm_v (sfs_freemap s)) in *.
  destruct (for_loop_inv (λ j sj, 0 ≤ j ∧ ∃ dkj fmj, sj = SfsFs (sp_nblocks s) dkj fmj false ∧ same_disk (sfs_device s) dkj ∧
      bm_nbits fmj = bm_nbits (sfs_freemap s) ∧ len (bm_v fmj) = mb * 512 ∧ take (Z.to_nat (j * 512)) (bm_v fmj) = take (Z.to_nat (j * 512)) v) (λ _, False)
      (mapio_turn present space UIO_READ) (Z.to_nat mb) 0 (SfsFs (sp_nblocks s) dk fm false))
    as [(s' & -> & _ & dk' & fm' & -> & Hsd' & Hnb' & Hl' & Ht')|(? & _ & [])].
  - split; [done|]. exists dk, fm. split_and!; try done. lia.
  - intros j sj Hj (H0 & dkj & fmj & -> & Hsdj & Hnbj & Hlj & Htj). left. unfold mapio_turn. cbn [sfs_freemap].
    destruct (map_chunk_ok fmj j) as [-> Hcl]; [lia|lia|]. ostep. unfold SFS_MAP_LOCATION.
    destruct (read_device s (SfsFs (sp_nblocks s) dkj fmj false) (chunk fmj j) (2 + j) Hs Hsdj Hcl) as (dk1 & -> & Hsd1); [lia|]. ostep.
    rewrite (bool_decide_eq_false_2 (0 ≠ 0)) by tauto. eexists. split; [done|]. split; [lia|]. eexists dk1, _. split; [done|]. split; [done|].
    cbn [set_device sfs_freemap]. split; [done|]. apply (set_chunk_ok fmj v j mb); try done; [lia|apply sector_length_ok; [done|lia]|].
    apply (dk_map _ _ _ Hd); [done|lia].
  - ostep. rewrite Z.add_0_l, Z2Nat.id in Ht' by lia. rewrite !take_ge in Ht' by lia. exists dk'. split; [|done]. do 3 f_equal.
    destruct fm' as [nb' v'], (sfs_freemap s) as [nb v0]. simpl in *. subst v. congruence.
Qed.

(** Mounting: the superblock and the free map are read, no vnode is loaded. *)
Lemma sfs_domount_ok s F L k : disk_ok s F L → sfs_freemapdirty s = false →
  returns (sfs_domount present space nomem SFS_BLOCKSIZE (sfs_device s) k) (λ '(dev, k', r), same_disk (sfs_device s) dev ∧
    match r with
    | inl e => e = ENOMEM ∧ ∃ j, nomem j = true
    | inr st => sfs_d st = SfsFs (sp_nblocks s) dev (sfs_freemap s) false ∧ sfs_superdirty st = false ∧ sfs_vnodes st = Array 0 0 None ∧ vheap st = ∅ ∧ 0 ∈ sfs_getvolname st
    end).
Proof.
  intros Hd Hclean. pose proof (dk_fs _ _ _ Hd) as Hs. pose proof (fs_size _ Hs) as Hsz. pose proof (dk_fits _ _ _ Hd) as Hfits.
  assert (Hself : same_disk (sfs_device s) (sfs_device s)) by done. assert (Hmb : 0 < mapblocks (sp_nblocks s) < 2 ^ 11) by (unfold mapblocks; Z.to_euclidean_division_equations; lia).
  unfold sfs_domount, SFS_SB_LOCATION. rewrite (bool_decide_eq_false_2 (SFS_BLOCKSIZE ≠ SFS_BLOCKSIZE)) by tauto.
  destruct (nomem k) eqn:H0; [apply returns_ret; eauto|]. unfold array_create. destruct (nomem (S k)) eqn:H1; cbn [negb]; [apply returns_ret; eauto|].
  destruct (read_device s (bare (sfs_device s)) zero_block 0 Hs Hself) as (dk & -> & Hsd); [done|lia|]. ostep. rewrite (bool_decide_eq_false_2 (0 ≠ 0)) by tauto.
  destruct (super_words (sector s 0) (sp_nblocks s)) as (vol & ws & -> & Hvol); [apply sector_length_ok; [done|lia]|lia|apply Hd|]. cbn [sp_magic].
  rewrite (bool_decide_eq_false_2 (SFS_MAGIC ≠ SFS_MAGIC)) by tauto. cbn [sp_volname]. rewrite wr_in_range by (unfold SFS_VOLNAME_SIZE; lia). ostep.
  rewrite bitmapsize_ok by lia. destruct (nomem (S (S k))) eqn:H2; cbn [negb]; [cbn; apply returns_ret; eauto|].
  destruct (nomem (S (S (S k)))) eqn:H3; cbn [negb]; [cbn; apply returns_ret; eauto|].
  destruct (bitmap_create_ok (mapblocks (sp_nblocks s) * 4096)) as (fm & -> & Hw & Hnb & _); [lia|]. ostep.
  destruct (mapio_read s F L dk fm Hd Hclean Hsd) as (dk' & Hrun & Hsd').
  { by rewrite Hnb, (dk_bits _ _ _ Hd). }
  { rewrite (map_length _ _ _ Hd), (wf_words _ Hw), Hnb. Z.to_euclidean_division_equations. lia. }
  cbn [set_device sfs_device bare]. rewrite Hrun. ostep. apply returns_ret. split; [done|]. rewrite (bool_decide_eq_false_2 (0 ≠ 0)) by tauto.
  split_and!; try done. unfold sfs_getvolname. cbn [sfs_sp sp_volname]. apply (list_elem_of_lookup_2 _ 31). apply list_lookup_insert_eq. unfold SFS_VOLNAME_SIZE. lia.
Qed.
End remount.

(** ** Files without a name are left behind *)

Definition linked (jsv : Z * sfs_vnode) : Prop := jsv.1 = 1 ∨ 0 < sfi_linkcount (sv_i jsv.2).
#[export] Instance linked_dec jsv : Decision (linked jsv).
Proof. unfold linked. apply _. Defined.

(** Blocks of the files that no name leads to. *)
Definition orphans (s : sfs_fs) (F : gmap Z sfs_vnode) : gset Z :=
  ⋃ ((λ jsv, list_to_set (own s jsv.2)) <$> map_to_list (filter (λ jsv, ¬ linked jsv) F)).

Lemma elem_of_orphans s F b : b ∈ orphans s F ↔ ∃ ino sv, F !! ino = Some sv ∧ ¬ linked (ino, sv) ∧ b ∈ own s sv.
Proof.
  unfold orphans. rewrite elem_of_union_list. split.
  - intros (X & ([ino sv] & -> & Hin)%list_elem_of_fmap & Hb). apply elem_of_map_to_list, map_lookup_filter_Some in Hin as [HF Hl].
    exists ino, sv. split_and!; try done. by apply elem_of_list_to_set in Hb.
  - intros (ino & sv & HF & Hl & Hb). eexists. split; [apply list_elem_of_fmap; exists (ino, sv); split; [done|]|by apply elem_of_list_to_set].
    apply elem_of_map_to_list, map_lookup_filter_Some. done.
Qed.

Lemma disk_forget s F L : disk_ok s F L → disk_ok s (filter linked F) (L ∪ orphans s F).
Proof.
  intros [Hfs Hfile Hap Hdisk Hres Hused Hbits Hmap Hsup Hfits].
  assert (Hsub : ∀ ino sv, filter linked F !! ino = Some sv → F !! ino = Some sv) by (intros ino sv [? _]%map_lookup_filter_Some; done).
  split; try done; eauto.
  - intros b Hb. destruct (Hres b Hb) as [? Hno]. split; [done|]. intros ino sv Hi. eauto.
  - intros b Hb Hm. destruct (Hused b Hb Hm) as [?|[(ino & sv & Hi & Hin)|?]]; [by left|right|right; right; set_solver].
    destruct (decide (linked (ino, sv))) as [Hl|Hl]; [left; exists ino, sv; split; [by apply map_lookup_filter_Some|done]|right].
    apply elem_of_union. right. apply elem_of_orphans. eauto.
Qed.

Lemma tree_forget s F M : tree_ok s F M none_owed → tree_ok s (filter linked F) M none_owed.
Proof.
  intros [(rt & Hrt & Hdir) Hty Hnm Hlk]. split.
  - exists rt. split; [|done]. apply map_lookup_filter_Some. split; [done|by left].
  - intros ino sv [? _]%map_lookup_filter_Some. auto.
  - intros w ino Hw. destruct (Hnm w ino Hw) as [Hne [sv Hsv]]. split; [done|]. exists sv. apply map_lookup_filter_Some. split; [done|]. right. simpl.
    pose proof (Hlk ino sv Hsv) as Hl. rewrite decide_False in Hl by done. apply links_pos in Hw. unfold none_owed in Hl. lia.
  - intros ino sv [? _]%map_lookup_filter_Some. auto.
Qed.

(** A mounted file system with no vnode in use. *)
Lemma mounted_inv s F M L st dev : disk_ok s F L → tree_ok s F M none_owed → synced F → sfs_freemapdirty s = false → same_disk (sfs_device s) dev →
  sfs_d st = SfsFs (sp_nblocks s) dev (sfs_freemap s) false → sfs_superdirty st = false → sfs_vnodes st = Array 0 0 None → vheap st = ∅ →
  inv st (filter linked F) M (L ∪ orphans s F) none_owed 0 ∧ refs st = ∅ ∧ frame s (filter linked F) (sfs_d st) (filter linked F) ∅.
Proof.
  intros Hd Ht Hsync Hclean Hsd Hst Hsup Hvn Hh. pose proof (disk_forget _ _ _ Hd) as Hd1. pose proof (tree_forget _ _ _ Ht) as Ht1.
  assert (Hto : fs_to s (sfs_d st) (secs s) (sfs_freemap s)) by (rewrite Hst; destruct Hsd; by split).
  assert (Hstill : ∀ ino sv, filter linked F !! ino = Some sv → still s (sfs_d st) sv).
  { intros ino sv Hi. destruct (dk_file _ _ _ Hd1 ino sv Hi) as (_ & (_ & ? & _) & _). by eapply read_still. }
  split; [|split; [unfold refs; by rewrite Hh, fmap_empty|by apply still_frames]]. split; rewrite ?Hh; try done.
  - by eapply disk_read.
  - eapply tree_still; [done| |done]. eapply fs_ok_same; [apply Hd|done].
  - exists []. rewrite Hvn. split; [apply arepr_create|]. split; [constructor|]. intros p. rewrite lookup_empty. split; [by intros ?%not_elem_of_nil|by intros [? ?]].
  - intros ino sv Hi. right. pose proof Hi as [HF Hl]%map_lookup_filter_Some. split; [by eapply Hsync|]. destruct Hl as [He|?]; [|done]. simpl in He.
    subst ino. pose proof (tr_links _ _ _ _ Ht1 _ _ Hi) as Hlk. rewrite decide_True in Hlk by done. unfold none_owed in Hlk. pose proof (links_size M 1). lia.
Qed.

(** When nobody refers to a file, every file has a name. *)
Lemma no_orphans st F M L n : inv st F M L none_owed n → refs st = ∅ → filter linked F = F ∧ orphans (sfs_d st) F = ∅.
Proof.
  intros Hi Hr. assert (Hall : ∀ ino sv, F !! ino = Some sv → linked (ino, sv)).
  { intros ino sv HF. destruct (iv_cold _ _ _ _ _ _ Hi ino sv HF) as [(p & v & Hv & _)|[_ ?]]; [|by right].
    pose proof (refs_of st p v Hv) as Hp. by rewrite Hr in Hp. }
  split.
  - apply map_filter_id. intros ino sv HF. by apply Hall.
  - apply set_eq. intros b. rewrite elem_of_orphans. split; [|set_solver]. intros (ino & sv & HF & Hl & _). by destruct Hl; apply Hall.
Qed.
