(* ===== verification/Mksfs.v ===== *)
(** * Making a file system: sbin/mksfs

    mksfs.c and the part of disk.c it uses, as built for the target machine
    (not the HOST variant). The disk file is a list of sectors; [sys n] says
    what the [n]-th call of write(2) does. An exit through err or errx is
    [Exit]. *)

From S2P Require Import Prelude Bitmap CArray KHeap KHeapSpec Coremap Uio CString Sfs SfsDir SfsVnode SfsMount.

(** A call of write takes some bytes, is to be repeated, or fails. *)
Inductive write_result := Took (k : Z) | Again | Failed.

Inductive ended A := Exit | Cont (a : A).
Arguments Exit {A}.
Arguments Cont {A} a.

(** Go on if the program has not ended. *)
Definition andthen {A B} (m : outcome (ended A)) (f : A → outcome (ended B)) : outcome (ended B) :=
  m ≫= (λ r, match r with Exit => Ret Exit | Cont a => f a end).
Notation "x ⇐ m ; k" := (andthen m (λ x, k)) (at level 20, m at level 100, k at level 200, only parsing).

Section mksfs.
Context (sys : nat → write_result).

(** The sectors of the file, and how often write has been called. *)
Abbreviation image := (list (list Z) * nat)%type.

(** ** disk.c *)

(** [write(fd, cdata + tot, BLOCKSIZE - tot)] at the place [tot] of a sector. *)
Definition put (ss : list (list Z)) (block tot : Z) (bytes : list Z) : outcome (list (list Z)) :=
  old ← rd ss block;
  wr ss block (take (Z.to_nat tot) old ++ bytes ++ drop (Z.to_nat tot + length bytes) old).

Fixpoint write_rest (fuel : nat) (cdata : list Z) (block tot : Z) (im : image) : outcome (ended image) :=
  if bool_decide (tot < SFS_BLOCKSIZE) then
    match fuel with
    | O => Spin
    | S fuel =>
        let '(ss, n) := im in
        match sys n with
        | Again => write_rest fuel cdata block tot (ss, S n)
        | Failed => Ret Exit
        | Took k =>
            let len := k `min` (SFS_BLOCKSIZE - tot) in
            if bool_decide (len = 0) then Ret Exit
            else
              ss ← put ss block tot (take (Z.to_nat len) (drop (Z.to_nat tot) cdata));
              write_rest fuel cdata block (tot + len) (ss, S n)
        end
    end
  else Ret (Cont im).

Definition diskwrite (data : list Z) (block : Z) (im : image) : outcome (ended image) := write_rest 512 data block 0 im.

Definition diskblocks (im : image) : Z := u32 (len im.1).

(** ** mksfs.c *)

Definition writesuper (volname : list Z) (nblocks : Z) (im : image) : outcome (ended image) :=
  n ← strlen volname;
  if bool_decide (SFS_VOLNAME_SIZE ≤ n) then Ret Exit
  else
    name ← strcpy (replicate 32 0) volname;
    diskwrite (super_bytes (SfsSuper SFS_MAGIC name (replicate 118 0)) nblocks) SFS_SB_LOCATION im.

Definition writerootdir (im : image) : outcome (ended image) :=
  diskwrite (inode_bytes (SfsInode 0 SFS_TYPE_DIR 1 (replicate 15 0) 0 (replicate 110 0))) SFS_ROOT_LOCATION im.

Definition MAXBITBLOCKS : Z := 32.

Definition doallocbit (bit : Z) (bitbuf : list Z) : outcome (list Z) :=
  let byte := bit / 8 in
  let mask := u8 (Z.shiftl 1 (bit mod 8)) in
  w ← rd bitbuf byte;
  c_assert (bool_decide (Z.land w mask = 0));;
  wr bitbuf byte (u8 (Z.lor w mask)).

Definition write_map (bitbuf : list Z) (i : Z) (r : ended image) : outcome (ended image) :=
  im ⇐ Ret r;
  diskwrite (take 512 (drop (Z.to_nat (i * SFS_BLOCKSIZE)) bitbuf)) (SFS_MAP_LOCATION + i) im.

Definition writebitmap (fsblocks : Z) (im : image) : outcome (ended image) :=
  let nbits := SFS_BITMAPSIZE fsblocks in
  let nblocks := SFS_BITBLOCKS fsblocks in
  if bool_decide (MAXBITBLOCKS < nblocks) then Ret Exit
  else
    buf ← doallocbit SFS_SB_LOCATION (replicate (Z.to_nat (MAXBITBLOCKS * SFS_BLOCKSIZE)) 0);
    buf ← doallocbit SFS_ROOT_LOCATION buf;
    buf ← for_each (Z.to_nat nblocks) 0 (λ i, doallocbit (SFS_MAP_LOCATION + i)) buf;
    buf ← for_each (Z.to_nat (nbits - fsblocks)) fsblocks doallocbit buf;
    for_each (Z.to_nat nblocks) 0 (write_map buf) (Cont im).

(** The name of the volume, without the colon at its end. *)
Definition volume_name (volname : list Z) : outcome (ended (list Z)) :=
  s ← strchr volname 58;
  volname ⇐ match s with
    | Some s =>
        n ← strlen_at volname s;
        if bool_decide (n ≠ 1) then Ret Exit else v ← wr volname s 0; Ret (Cont v)
    | None => Ret (Cont volname)
    end;
  s ← strchr volname 47;
  Ret (match s with Some _ => Exit | None => Cont volname end).

Definition mksfs_main (argc : Z) (argv2 : list Z) (im : image) : outcome (ended image) :=
  if bool_decide (argc ≠ 3) then Ret Exit
  else
    volname ⇐ volume_name argv2;
    let size := diskblocks im in
    im ⇐ writesuper volname size im;
    im ⇐ writerootdir im;
    writebitmap size im.
End mksfs.
