(* ===== verification/MksfsSpec.v ===== *)
(** * A new file system mounts as an empty one *)

From S2P Require Import Prelude Bitmap CArray KHeap KHeapSpec Coremap Uio CString.
From S2P Require Import Sfs SfsSpec SfsTrunc SfsTheorems SfsFrame SfsDir SfsDirSpec SfsVnode SfsMount SfsInv SfsTree SfsOps SfsLoad SfsNames SfsFiles SfsSync SfsRemount Mksfs.

(** ** Writing sectors *)

Section image.
Context (sys : nat → write_result) (Hsys : ∀ n, ∃ k, sys n = Took k ∧ 0 < k).

Lemma write_rest_ok data block old : length data = 512%nat → length old = 512%nat → 0 ≤ block →
  ∀ fuel ss tot n, (Z.to_nat block < length ss)%nat → 0 ≤ tot ≤ 512 → 512 - tot ≤ Z.of_nat fuel →
  ∃ n', write_rest sys fuel data block tot (<[Z.to_nat block := take (Z.to_nat tot) data ++ drop (Z.to_nat tot) old]> ss, n) =
    Ret (Cont (<[Z.to_nat block := data]> ss, n')).
Proof.
  intros Hd Ho Hb fuel. induction fuel as [|fuel IH]; intros ss tot n Hlt Htot Hfuel; simpl; unfold SFS_BLOCKSIZE.
  - rewrite bool_decide_eq_false_2 by lia. exists n. rewrite take_ge, drop_ge, app_nil_r by lia. done.
  - case_bool_decide as Hlt'; [|exists n; by rewrite take_ge, drop_ge, app_nil_r by lia].
    destruct (Hsys n) as (k & -> & Hk). set (ln := k `min` (512 - tot)). assert (Hln : 0 < ln ≤ 512 - tot) by lia.
    rewrite bool_decide_eq_false_2 by lia. unfold put. set (cur := take (Z.to_nat tot) data ++ drop (Z.to_nat tot) old).
    assert (Hcur : length cur = 512%nat) by (unfold cur; rewrite length_app, length_take, length_drop; lia).
    destruct (rd_in_range (<[Z.to_nat block := cur]> ss) block) as (w & -> & Hw); [rewrite length_insert; lia|].
    rewrite list_lookup_insert_eq in Hw by done. injection Hw as <-. ostep. rewrite wr_in_range by (rewrite length_insert; lia). ostep.
    rewrite list_insert_insert_eq. set (piece := take (Z.to_nat ln) (drop (Z.to_nat tot) data)).
    assert (Hp : length piece = Z.to_nat ln) by (unfold piece; rewrite length_take, length_drop; lia).
    destruct (IH ss (tot + ln) (S n) Hlt ltac:(lia) ltac:(lia)) as (n' & Hrun). exists n'. rewrite <- Hrun. do 3 f_equal.
    replace (Z.to_nat (tot + ln)) with (Z.to_nat tot + Z.to_nat ln)%nat by lia. rewrite Hp. unfold cur.
    rewrite take_app_length' by (rewrite length_take; lia). rewrite drop_app_ge by (rewrite length_take; lia).
    rewrite length_take, drop_drop. rewrite <- take_take_drop, <- app_assoc. do 2 f_equal. f_equal. lia.
Qed.

Lemma diskwrite_ok data block ss n : length data = 512%nat → Forall (λ b, length b = 512%nat) ss → 0 ≤ block < len ss →
  ∃ n', diskwrite sys data block (ss, n) = Ret (Cont (<[Z.to_nat block := data]> ss, n')).
Proof.
  intros Hd Hf Hb. destruct (lookup_lt_is_Some_2 ss (Z.to_nat block)) as [old Hold]; [lia|].
  pose proof (Forall_lookup_1 _ _ _ _ Hf Hold) as Ho. destruct (write_rest_ok data block old Hd Ho ltac:(lia) 512 ss 0 n) as (n' & Hrun); [lia..|].
  change (Z.to_nat 0) with 0%nat in Hrun. rewrite take_0, drop_0, app_nil_l, list_insert_id in Hrun by done. exists n'. exact Hrun.
Qed.
End image.

(** ** Setting bits *)

(** The buffer, as a map of all its bits. *)
Definition BUFBITS : Z := 131072.

Lemma doallocbit_ok b i : bitmap_wf b → 0 ≤ i < bm_nbits b → bit b i = false →
  ∃ b', doallocbit i (bm_v b) = Ret (bm_v b') ∧ bitmap_wf b' ∧ bm_nbits b' = bm_nbits b ∧
    ∀ j, 0 ≤ j → bit b' j = if bool_decide (j = i) then true else bit b j.
Proof.
  intros Hwf Hi Hz. pose proof (wf_bound b i Hwf ltac:(lia)) as Hi8. destruct (wf_word b i Hwf ltac:(lia)) as (w & Hrd & Hw & Hr).
  unfold doallocbit. rewrite Hrd. ostep. pose proof (Z.mod_pos_bound i 8 ltac:(lia)). rewrite bool_decide_eq_true_2 by (apply land_mask; [lia|]; by rewrite <- (bit_word b i w)).
  cbn [c_assert]. ostep. rewrite wr_in_range by (split; [apply Z.div_pos; lia|apply Z.div_lt_upper_bound; lia]).
  destruct (set_word_spec b i w Hwf Hi Hw) as [Hwf' Hbit]. cbv zeta in Hwf', Hbit.
  exists (Bitmap (bm_nbits b) (<[Z.to_nat (i / 8) := u8 (Z.lor w (u8 (Z.shiftl 1 (i mod 8))))]> (bm_v b))). done.
Qed.

(** A run of bits. *)
Lemma alloc_run c (g : Z → list Z → outcome (list Z)) n : (∀ j buf, g j buf = doallocbit (c + j) buf) →
  ∀ i b, bitmap_wf b → 0 ≤ c + i → c + i + Z.of_nat n ≤ bm_nbits b → (∀ j, c + i ≤ j < c + i + Z.of_nat n → bit b j = false) →
  ∃ b', for_each n i g (bm_v b) = Ret (bm_v b') ∧ bitmap_wf b' ∧ bm_nbits b' = bm_nbits b ∧
    ∀ j, 0 ≤ j → bit b' j = if bool_decide (c + i ≤ j < c + i + Z.of_nat n) then true else bit b j.
Proof.
  intros Hg. induction n as [|n IH]; intros i b Hwf H0 Hle Hz; simpl.
  - exists b. split_and!; try done. intros j Hj. by rewrite bool_decide_eq_false_2 by lia.
  - rewrite Hg. destruct (doallocbit_ok b (c + i) Hwf) as (b1 & -> & Hwf1 & Hn1 & Hb1); [lia|apply Hz; lia|]. ostep.
    destruct (IH (i + 1) b1 Hwf1) as (b' & Hrun & Hwf' & Hn' & Hb'); [lia|lia| |].
    { intros j Hj. rewrite Hb1, bool_decide_eq_false_2 by lia. apply Hz. lia. }
    exists b'. split; [done|]. split; [done|]. split; [congruence|]. intros j Hj. rewrite Hb', Hb1 by done.
    repeat case_bool_decide; try done; lia.
Qed.

Lemma no_bits n k i : bit (Bitmap n (replicate k 0)) i = false.
Proof.
  unfold bit. simpl. destruct (replicate k 0 !! Z.to_nat (i / 8)) as [x|] eqn:Hx; [|done]. apply lookup_replicate in Hx as [-> _]. apply Z.bits_0.
Qed.

Lemma empty_buffer : bitmap_wf (Bitmap BUFBITS (replicate (Z.to_nat (MAXBITBLOCKS * SFS_BLOCKSIZE)) 0)).
Proof.
  split; cbn [bm_nbits bm_v]; [unfold BUFBITS; lia| |apply Forall_replicate; lia|]; rewrite length_replicate; unfold BUFBITS, MAXBITBLOCKS, SFS_BLOCKSIZE; [done|lia].
Qed.

(** The first bits of a map that fills its bytes. *)
Definition prefix_map (mb : Z) (b : bitmap) : bitmap := Bitmap (mb * 4096) (take (Z.to_nat (mb * 512)) (bm_v b)).

Lemma prefix_bit mb b j : 0 ≤ j < mb * 4096 → bit (prefix_map mb b) j = bit b j.
Proof.
  intros Hj. unfold bit, prefix_map. simpl. rewrite lookup_take_lt; [done|]. assert (0 ≤ j / 8 < mb * 512) by (Z.to_euclidean_division_equations; lia). lia.
Qed.

Lemma prefix_length mb b : 0 ≤ mb → mb * 512 ≤ len (bm_v b) → len (bm_v (prefix_map mb b)) = mb * 512.
Proof. intros H0 Hl. unfold prefix_map. simpl. rewrite length_take. lia. Qed.

Lemma prefix_wf mb b : bitmap_wf b → 0 ≤ mb → mb * 512 ≤ len (bm_v b) → mb * 4096 ≤ 2 ^ 32 - 8 → bitmap_wf (prefix_map mb b).
Proof.
  intros [Hn Hl Hb Hp] H0 Hle Hbig. pose proof (prefix_length mb b H0 Hle) as Hlen. split.
  - simpl. lia.
  - rewrite Hlen. simpl. Z.to_euclidean_division_equations. lia.
  - simpl. by apply Forall_take.
  - rewrite Hlen. simpl. lia.
Qed.

Lemma prefix_chunk mb b j : 0 ≤ j < mb → chunk (prefix_map mb b) j = take 512 (drop (Z.to_nat (j * 512)) (bm_v b)).
Proof. intros Hj. unfold chunk, prefix_map. cbn [bm_v]. rewrite !take_drop_commute, take_take. do 2 f_equal. lia. Qed.

Section map.
Context (sys : nat → write_result) (Hsys : ∀ n, ∃ k, sys n = Took k ∧ 0 < k).

(** What the sectors of the disk hold afterwards. *)
Definition map_written (mb : Z) (fm : bitmap) (ss ss' : list (list Z)) : Prop :=
  length ss' = length ss ∧ Forall (λ b, length b = 512%nat) ss' ∧
  ∀ x, 0 ≤ x < len ss → ss' !! Z.to_nat x = if decide (2 ≤ x < 2 + mb) then Some (chunk fm (x - 2)) else ss !! Z.to_nat x.

Lemma write_maps mb b ss k : Forall (λ b, length b = 512%nat) ss → 0 ≤ mb → 2 + mb ≤ len ss → mb * 512 ≤ len (bm_v b) →
  ∃ ss' k', for_each (Z.to_nat mb) 0 (write_map sys (bm_v b)) (Cont (ss, k)) = Ret (Cont (ss', k')) ∧ map_written mb (prefix_map mb b) ss ss'.
Proof.
  intros Hf H0 Hfit Hle.
  destruct (for_each_inv (λ i r, ∃ ssi ki, r = Cont (ssi, ki) ∧ map_written i (prefix_map mb b) ss ssi)
    (write_map sys (bm_v b)) (Z.to_nat mb) 0 (Cont (ss, k))) as (r & -> & ss' & k' & -> & Hw).
  - exists ss, k. split; [done|]. split; [done|]. split; [done|]. intros x Hx. by rewrite decide_False by lia.
  - intros i r Hi (ssi & ki & -> & Hl & Hfi & Hx). unfold write_map, andthen. ostep. unfold SFS_MAP_LOCATION, SFS_BLOCKSIZE.
    assert (Hcl : length (take 512 (drop (Z.to_nat (i * 512)) (bm_v b))) = 512%nat) by (rewrite length_take, length_drop; lia).
    destruct (diskwrite_ok sys Hsys _ (2 + i) ssi ki Hcl Hfi) as (k1 & ->); [lia|]. eexists. split; [done|]. eexists _, k1. split; [done|].
    split; [by rewrite length_insert|]. split; [by apply Forall_insert|]. intros x Hxr. destruct (decide (x = 2 + i)) as [->|Hne].
    + rewrite list_lookup_insert_eq by lia. rewrite decide_True by lia. f_equal. rewrite prefix_chunk by lia. do 2 f_equal. lia.
    + rewrite list_lookup_insert_ne by lia. rewrite Hx by done. destruct (decide (2 ≤ x < 2 + i)); [by rewrite decide_True by lia|by rewrite decide_False by lia].
  - exists ss', k'. split; [done|]. by rewrite Z2Nat.id in Hw by lia.
Qed.

Lemma writebitmap_ok ss k : Forall (λ b, length b = 512%nat) ss → 3 ≤ len ss ≤ 131072 →
  let mb := mapblocks (len ss) in
  ∃ fm ss' k', writebitmap sys (len ss) (ss, k) = Ret (Cont (ss', k')) ∧ map_written mb fm ss ss' ∧ bitmap_wf fm ∧ bm_nbits fm = mb * 4096 ∧
    len (bm_v fm) = mb * 512 ∧ ∀ j, 0 ≤ j < mb * 4096 → bit fm j = bool_decide (j < 2 + mb ∨ len ss ≤ j).
Proof.
  intros Hf Hn mb. assert (Hmb : 1 ≤ mb ≤ 32 ∧ 2 + mb ≤ len ss ≤ mb * 4096) by (unfold mb, mapblocks; Z.to_euclidean_division_equations; lia).
  unfold writebitmap. rewrite bitmapsize_ok, bitblocks_ok by lia. fold mb. rewrite bool_decide_eq_false_2 by (unfold MAXBITBLOCKS; lia).
  destruct (doallocbit_ok _ SFS_SB_LOCATION empty_buffer) as (b1 & Hr1 & Hwf1 & Hn1 & Hb1); [done|apply no_bits|]. cbn [bm_v] in Hr1. rewrite Hr1. ostep.
  destruct (doallocbit_ok b1 SFS_ROOT_LOCATION Hwf1) as (b2 & -> & Hwf2 & Hn2 & Hb2); [by rewrite Hn1|by rewrite Hb1, bool_decide_eq_false_2, no_bits|]. ostep.
  assert (Hbits2 : ∀ j, 0 ≤ j → bit b2 j = bool_decide (j < 2)).
  { intros j Hj. rewrite Hb2, Hb1, no_bits by done. unfold SFS_SB_LOCATION, SFS_ROOT_LOCATION. repeat case_bool_decide; try done; lia. }
  cbn [bm_nbits] in Hn1. rewrite Hn1 in Hn2. unfold BUFBITS in Hn2.
  destruct (alloc_run 2 (λ i, doallocbit (SFS_MAP_LOCATION + i)) (Z.to_nat mb) ltac:(done) 0 b2 Hwf2) as (b3 & -> & Hwf3 & Hn3 & Hb3); [lia|lia| |].
  { intros j Hj. rewrite Hbits2, bool_decide_eq_false_2 by lia. done. }
  ostep. destruct (alloc_run 0 doallocbit (Z.to_nat (mb * 4096 - len ss)) ltac:(done) (len ss) b3 Hwf3) as (b4 & -> & Hwf4 & Hn4 & Hb4); [lia|lia| |].
  { intros j Hj. rewrite Hb3, Hbits2 by lia. rewrite !bool_decide_eq_false_2 by lia. done. }
  ostep. assert (Hlen : len (bm_v b4) = 16384) by (rewrite (wf_words _ Hwf4), Hn4, Hn3, Hn2; done).
  destruct (write_maps mb b4 ss k Hf) as (ss' & k' & -> & Hw); [lia..|]. exists (prefix_map mb b4), ss', k'. split; [done|]. split; [done|].
  split; [apply prefix_wf; done || lia|]. split; [done|]. split; [apply prefix_length; lia|]. intros j Hj.
  rewrite prefix_bit, Hb4, Hb3, Hbits2 by lia. repeat case_bool_decide; try done; lia.
Qed.
End map.

(** ** The volume name *)

Definition good_name (v : list Z) : Prop := nonzero v ∧ (58 ∉ v) ∧ (47 ∉ v) ∧ (length v < 32)%nat.

Lemma strchr_none w t ch : nonzero w → ch ∉ w → ch ≠ 0 → strchr (w ++ 0 :: t) ch = Ret None.
Proof.
  intros Hw Hn H0. destruct (strchr_ok w t ch Hw) as ([i|] & -> & Hi); [|done]. destruct Hi as (_ & Hi & _). exfalso.
  apply list_elem_of_lookup_2, elem_of_app in Hi as [?|?%list_elem_of_singleton]; done.
Qed.

Lemma strchr_last v t ch : nonzero v → ch ∉ v → ch ≠ 0 → strchr (v ++ ch :: 0 :: t) ch = Ret (Some (len v)).
Proof.
  intros Hw Hn H0. assert (Hw' : nonzero (v ++ [ch])) by (apply Forall_app; split; [done|by constructor]).
  replace (v ++ ch :: 0 :: t) with ((v ++ [ch]) ++ 0 :: t) by by rewrite <- app_assoc.
  destruct (strchr_ok (v ++ [ch]) t ch Hw') as ([i|] & -> & Hi); [|destruct Hi as [Hi _]; set_solver]. destruct Hi as (Hi0 & Hi & Hfirst). do 2 f_equal.
  rewrite <- app_assoc in Hi. destruct (decide (Z.to_nat i < length v)%nat) as [Hlt|Hge].
  - rewrite lookup_app_l in Hi by done. by apply list_elem_of_lookup_2 in Hi.
  - destruct (decide (Z.to_nat i = length v)) as [He|Hne]; [lia|]. exfalso. apply (Hfirst (length v)); [lia|].
    by rewrite lookup_app_r, Nat.sub_diag by lia.
Qed.

Lemma volume_name_ok v t : good_name v →
  (∃ t', volume_name (v ++ 0 :: t) = Ret (Cont (v ++ 0 :: t'))) ∧ ∃ t', volume_name (v ++ 58 :: 0 :: t) = Ret (Cont (v ++ 0 :: t')).
Proof.
  intros (Hv & Hc & Hs & _). unfold volume_name. split.
  - exists t. rewrite strchr_none by done. ostep. unfold andthen. ostep. by rewrite strchr_none by done.
  - exists (0 :: t). rewrite strchr_last by done. ostep. pose proof (strlen_at_ok v [58] t) as Hl. simpl in Hl. rewrite Hl by by constructor. ostep.
    rewrite bool_decide_eq_false_2 by (simpl; lia). rewrite wr_in_range by (rewrite length_app; simpl; lia). unfold andthen. ostep.
    rewrite Nat2Z.id, insert_app_r_alt, Nat.sub_diag by lia. simpl. by rewrite strchr_none by done.
Qed.

(** ** The file system on the new disk *)

Definition root_inode : sfs_inode := SfsInode 0 SFS_TYPE_DIR 1 (replicate 15 0) 0 (replicate 110 0).
Definition root_vnode : sfs_vnode := SfsVnode root_inode 1 false.

Lemma root_inode_ok : inode_ok root_inode.
Proof. split; [by right|done|]. split; [done|]. apply Forall_replicate. unfold word. lia. Qed.

(** The disk after mksfs. *)
Record fresh (ss : list (list Z)) (fm : bitmap) : Prop := {
  fr_full : Forall (λ b, length b = 512%nat) ss;
  fr_size : 3 ≤ len ss ≤ 131072;
  fr_super : ∃ vol, ss !! 0%nat = Some (word_bytes SFS_MAGIC ++ word_bytes (len ss) ++ vol);
  fr_root : ss !! 1%nat = Some (inode_bytes root_inode);
  fr_map : ∀ j, 0 ≤ j < mapblocks (len ss) → ss !! Z.to_nat (2 + j) = Some (chunk fm j);
  fr_wf : bitmap_wf fm;
  fr_nbits : bm_nbits fm = mapblocks (len ss) * 4096;
  fr_bits : ∀ j, 0 ≤ j < mapblocks (len ss) * 4096 → bit fm j = bool_decide (j < 2 + mapblocks (len ss) ∨ len ss ≤ j)
}.

Section fresh.
Context (ss : list (list Z)) (fm : bitmap) (Hfr : fresh ss fm) (fail : nat → bool) (ops : nat) (Hfail : ∀ n, fail n = false).

Definition new_fs : sfs_fs := SfsFs (len ss) (Disk (len ss) ss fail ops) fm false.

Lemma new_sizes : 1 ≤ mapblocks (len ss) ≤ 32 ∧ 2 + mapblocks (len ss) ≤ len ss ≤ mapblocks (len ss) * 4096.
Proof. pose proof (fr_size _ _ Hfr). unfold mapblocks. clear - H. Z.to_euclidean_division_equations. lia. Qed.

Lemma new_fs_ok : fs_ok new_fs.
Proof.
  pose proof new_sizes. pose proof (fr_size _ _ Hfr). destruct Hfr as [Hfull Hsz _ _ _ Hwf Hnb Hbits]. split; simpl; try done; try lia.
  - rewrite Hnb. intros i Hi. rewrite Hbits by lia. apply bool_decide_eq_true_2. lia.
  - rewrite Hbits by lia. apply bool_decide_eq_true_2. lia.
Qed.

Lemma new_marked j : 0 ≤ j < len ss → marked new_fs j ↔ j < 2 + mapblocks (len ss).
Proof.
  intros Hj. pose proof new_sizes. unfold marked. simpl. rewrite (fr_bits _ _ Hfr) by lia. rewrite bool_decide_eq_true. lia.
Qed.

Lemma new_file_ok : good_file new_fs root_vnode.
Proof.
  pose proof new_sizes. assert (Hown : own new_fs root_vnode = [1]) by done. split; [apply new_fs_ok|]. split; [|simpl; unfold MAXFILE; lia].
  split; [done|rewrite Hown; apply NoDup_singleton|rewrite Hown]. intros b ->%list_elem_of_singleton. split; [simpl; lia|]. apply new_marked; lia.
Qed.

Lemma new_disk_ok : disk_ok new_fs {[1 := root_vnode]} ∅.
Proof.
  pose proof new_sizes as Hsz. assert (Hone : ∀ ino sv, ({[1 := root_vnode]} : gmap Z sfs_vnode) !! ino = Some sv → ino = 1 ∧ sv = root_vnode)
    by (intros ino sv [? ?]%lookup_singleton_Some; done).
  assert (Hown : own new_fs root_vnode = [1]) by done. split.
  - apply new_fs_ok.
  - intros ino sv [-> ->]%Hone. split; [done|]. split; [apply new_file_ok|apply root_inode_ok].
  - intros i j si sj [-> _]%Hone [-> _]%Hone. done.
  - intros ino sv [-> ->]%Hone _. change (default [] (ss !! 1%nat) = inode_bytes root_inode). by rewrite (fr_root _ _ Hfr).
  - intros b Hb. assert (0 ≤ b < 2 + mapblocks (len ss)) by (unfold reserved in Hb; simpl in Hb; lia). split; [apply new_marked; lia|].
    intros ino sv [-> ->]%Hone. rewrite Hown, list_elem_of_singleton. unfold reserved in Hb. lia.
  - intros b Hb Hm%new_marked; [|done]. destruct (decide (b = 1)) as [->|Hne]; [|left; unfold reserved; simpl in *; lia]. right. left. exists 1, root_vnode.
    split; [apply lookup_singleton_eq|]. rewrite Hown. by apply list_elem_of_singleton.
  - apply (fr_nbits _ _ Hfr).
  - intros _ j Hj. change (sector new_fs (2 + j)) with (default [] (ss !! Z.to_nat (2 + j))). by rewrite (fr_map _ _ Hfr) by done.
  - destruct (fr_super _ _ Hfr) as [vol Hvol]. change (take 8 (default [] (ss !! 0%nat)) = word_bytes SFS_MAGIC ++ word_bytes (len ss)). by rewrite Hvol.
  - simpl. lia.
Qed.

Lemma new_tree_ok : tree_ok new_fs {[1 := root_vnode]} ∅ none_owed.
Proof.
  split.
  - exists root_vnode. split; [apply lookup_singleton_eq|]. split; [apply new_file_ok|done|done|]. split.
    + intros nm ino. rewrite lookup_empty. split; [done|]. intros (i & Hi & _). change (nslots root_vnode) with 0 in Hi. lia.
    + intros i j nm a b Hi. change (nslots root_vnode) with 0 in Hi. lia.
  - intros ino sv [<- <-]%lookup_singleton_Some. done.
  - intros w ino. by rewrite lookup_empty.
  - intros ino sv [<- <-]%lookup_singleton_Some. done.
Qed.
End fresh.

(** ** mksfs *)

Section main.
Context (sys : nat → write_result) (Hsys : ∀ n, ∃ k, sys n = Took k ∧ 0 < k).

Lemma writesuper_ok v t ss k : good_name v → Forall (λ b, length b = 512%nat) ss → 3 ≤ len ss ≤ 131072 →
  ∃ vol k', let blk := word_bytes SFS_MAGIC ++ word_bytes (len ss) ++ vol in
    length blk = 512%nat ∧ writesuper sys (v ++ 0 :: t) (len ss) (ss, k) = Ret (Cont (<[0%nat := blk]> ss, k')).
Proof.
  intros (Hv & _ & _ & Hl) Hf Hn. unfold writesuper. rewrite strlen_ok by done. ostep. rewrite bool_decide_eq_false_2 by (unfold SFS_VOLNAME_SIZE; lia).
  unfold strcpy. rewrite strcpy_at_ok by (done || rewrite length_replicate; lia). ostep. set (name := _ ++ v ++ _).
  assert (Hname : length name = 32%nat) by (unfold name; rewrite !length_app, length_take; cbn [length]; rewrite length_drop, length_replicate; lia).
  exists (name ++ words_bytes (replicate 118 0)). unfold super_bytes. cbn [sp_magic sp_volname sp_reserved].
  assert (Hlen : length (word_bytes SFS_MAGIC ++ word_bytes (len ss) ++ name ++ words_bytes (replicate 118 0)) = 512%nat).
  { rewrite !length_app, words_bytes_length, Hname, length_replicate. done. }
  destruct (diskwrite_ok sys Hsys _ SFS_SB_LOCATION ss k Hlen Hf) as (k' & ->); [unfold SFS_SB_LOCATION; lia|]. exists k'. done.
Qed.

Lemma mksfs_main_ok argv2 v ss k : good_name v → (∃ t, argv2 = v ++ 0 :: t ∨ argv2 = v ++ 58 :: 0 :: t) →
  Forall (λ b, length b = 512%nat) ss → 3 ≤ len ss ≤ 131072 →
  ∃ ss' k' fm, mksfs_main sys 3 argv2 (ss, k) = Ret (Cont (ss', k')) ∧ length ss' = length ss ∧ fresh ss' fm ∧
    ∀ x, 2 + mapblocks (len ss) ≤ x < len ss → ss' !! Z.to_nat x = ss !! Z.to_nat x.
Proof.
  intros Hv (t & Harg) Hf Hn. unfold mksfs_main. rewrite (bool_decide_eq_false_2 (3 ≠ 3)) by tauto.
  assert (Hvol : ∃ t', volume_name argv2 = Ret (Cont (v ++ 0 :: t'))) by (destruct Harg as [-> | ->]; by apply volume_name_ok).
  destruct Hvol as (t' & ->). unfold andthen at 1. ostep. unfold diskblocks. cbn [fst]. rewrite u32_small by lia.
  destruct (writesuper_ok v t' ss k Hv Hf Hn) as (vol & k1 & Hblk & ->). unfold andthen at 1. ostep.
  set (ss1 := <[0%nat := _]> ss). assert (Hl1 : length ss1 = length ss) by (unfold ss1; by rewrite length_insert).
  assert (Hf1 : Forall (λ b, length b = 512%nat) ss1) by by apply Forall_insert.
  unfold writerootdir. fold root_inode. assert (Hrl : length (inode_bytes root_inode) = 512%nat) by done.
  destruct (diskwrite_ok sys Hsys (inode_bytes root_inode) SFS_ROOT_LOCATION ss1 k1 Hrl Hf1) as (k2 & ->); [unfold SFS_ROOT_LOCATION; lia|].
  unfold andthen. ostep. change (Z.to_nat SFS_ROOT_LOCATION) with 1%nat. set (ss2 := <[1%nat := _]> ss1).
  assert (Hl2 : length ss2 = length ss) by (unfold ss2; by rewrite length_insert). assert (Hf2 : Forall (λ b, length b = 512%nat) ss2) by by apply Forall_insert.
  rewrite <- Hl2 in Hn. rewrite <- Hl2. destruct (writebitmap_ok sys Hsys ss2 k2 Hf2 Hn) as (fm & ss3 & k3 & -> & (Hl3 & Hf3 & Hx) & Hwf & Hnb & _ & Hbits).
  assert (Hsz : 2 + mapblocks (len ss2) ≤ len ss2 ∧ 1 ≤ mapblocks (len ss2)) by (clear - Hn; unfold mapblocks; Z.to_euclidean_division_equations; lia).
  exists ss3, k3, fm. split; [done|]. split; [done|]. split.
  - split; rewrite ?Hl3; try done.
    + exists vol. pose proof (Hx 0 ltac:(lia)) as H0. change (Z.to_nat 0) with 0%nat in H0. rewrite H0, decide_False by lia. unfold ss2, ss1.
      rewrite list_lookup_insert_ne, list_lookup_insert_eq by lia. by rewrite length_insert, length_insert.
    + pose proof (Hx 1 ltac:(lia)) as H1. change (Z.to_nat 1) with 1%nat in H1. rewrite H1, decide_False by lia. unfold ss2.
      by rewrite list_lookup_insert_eq by lia.
    + intros j Hj. rewrite Hx, decide_True by lia. do 2 f_equal. lia.
  - intros x Hxr. rewrite Hx, decide_False by lia. unfold ss2, ss1. by rewrite !list_lookup_insert_ne by lia.
Qed.
End main.
