(* ===== verification/SfsSystem.v ===== *)
(** * The file system as a whole

    From mksfs over mounting and any sequence of operations to sync, unmount and
    the next mount. *)

From S2P Require Import Prelude Bitmap CArray KHeap KHeapSpec Coremap Uio CString.
From S2P Require Import Sfs SfsSpec SfsTrunc SfsTheorems SfsFrame SfsDir SfsDirSpec SfsVnode SfsMount SfsInv SfsTree SfsOps SfsLoad SfsNames SfsFiles.
From S2P Require Import FileSys SfsNamespace SfsLabel SfsSync SfsRemount Mksfs MksfsSpec.

(** The state is in order and shows the abstract state [A]. The blocks in [L]
    are in use but belong to no file; no count exceeds [n]. *)
Definition implements (st : sfs) (A : fsys) (L : gset Z) (n : Z) : Prop := ∃ F M, inv st F M L none_owed n ∧ A = view st F M.

Lemma view_refs st F M : f_refs (view st F M) = refs st.
Proof. done. Qed.

Section system.
Context (present : Z → bool) (space : Z) (nomem : nat → bool).

(** [C1] Every sequence of operations on a mounted file system is one of the
    abstract machine: each operation whose caller holds the references it uses
    returns (no panic, no wild access, no endless loop), the replies are those
    of the specification, the invariant of disk, names, link counts and vnode
    table holds again, and no block is lost unless an allocation failed. *)
Theorem sfs_trace_refinement st A L n l st' : implements st A L n → 0 ≤ n → n + len l < 2 ^ 31 - 1 → trace present space nomem st l st' →
  (∃ A' L', implements st' A' L' (n + len l) ∧ ftrace nomem A l A' ∧ f_refs A' = refs st' ∧ ((∀ o, (o, Err ENOMEM) ∉ l) → L' = L)) ∧
  ∀ o, allowed present space (low_memory nomem) (refs st') o → ∃ r st'', run (H := sfs_ops present space nomem) o st' = Ret (r, st'').
Proof.
  intros (F & M & Hi & ->) Hn Hlen Ht. destruct (trace_refined present space nomem st l st' Ht F M L n Hi Hn) as (F' & M' & L' & Hi' & Hft & HL); [lia|].
  split; [exists (view st' F' M'), L'; split_and!; try done; by exists F', M'|]. intros o Ho.
  destruct (run_refined present space nomem st' F' M' L' (n + len l) o Hi') as ([r st''] & Hrun & _); [lia|done|]. eauto.
Qed.

Lemma unmount_ok st F M L n : inv st F M L none_owed n → sfs_freemapdirty (sfs_d st) = false →
  sfs_unmount st = Ret (if decide (refs st = ∅) then inr (sfs_device (sfs_d st)) else inl EBUSY).
Proof.
  intros Hi Hclean. destruct (iv_table _ _ _ _ _ _ Hi) as (ptrs & Har & _ & Hptr). pose proof (ar_num _ _ Har) as Hnum. unfold sfs_unmount, array_getnum. rewrite Hnum.
  destruct ptrs as [|p ptrs].
  - rewrite bool_decide_eq_false_2 by (simpl; lia). rewrite (iv_superclean _ _ _ _ _ _ Hi), Hclean. cbn. rewrite decide_True; [done|].
    unfold refs. apply fmap_empty_iff, map_eq. intros p. rewrite lookup_empty. apply eq_None_not_Some. intros Hp%Hptr. by apply not_elem_of_nil in Hp.
  - rewrite bool_decide_eq_true_2 by (simpl; lia). rewrite decide_False; [done|]. intros He. destruct (proj1 (Hptr p)) as [v Hv]; [by left|].
    pose proof (refs_of st p v Hv) as Hr. by rewrite He in Hr.
Qed.

Lemma view_quiet st F M st' F' : refs st' = refs st → keeps (sfs_d st) F (sfs_d st') F' ∅ → quiet (view st F M) (view st' F' M).
Proof. intros Hr Hk. split; [done|]. split; [done|]. eapply view_same; [done|]. set_solver. Qed.

(** [C6] sfs_sync puts everything on the disk: it returns 0 and changes nothing
    that can be seen; unmounting then succeeds if no file is in use and is
    refused otherwise; and mounting the disk afterwards, even without an
    unmount as after a power failure, gives the same names and the same files,
    with no block lost if no file was in use. *)
Theorem sfs_sync_durable st A L n k : implements st A L n →
  returns (sfs_sync present space st) (λ '(e, st1), e = 0 ∧
    (∃ A1, implements st1 A1 L n ∧ quiet A A1) ∧
    sfs_unmount st1 = Ret (if decide (refs st = ∅) then inr (sfs_device (sfs_d st1)) else inl EBUSY) ∧
    returns (sfs_domount present space nomem SFS_BLOCKSIZE (sfs_device (sfs_d st1)) k) (λ '(_, _, r),
      match r with
      | inl e => e = ENOMEM ∧ ∃ j, nomem j = true
      | inr st2 => ∃ A2 L2, implements st2 A2 L2 0 ∧ f_names A2 = f_names A ∧ f_refs A2 = ∅ ∧ same_files A A2 ∅ ∧ sound A2 ∧ (refs st = ∅ → L2 = L)
      end)).
Proof.
  intros (F & M & Hi & ->). eapply returns_mono; [by eapply sfs_sync_ok|]. intros [e st1] (-> & Hr1 & F1 & Hi1 & Hk1 & Hsync & Hclean).
  pose proof (view_quiet st F M st1 F1 Hr1 Hk1) as Hq. split; [done|]. split; [exists (view st1 F1 M); split; [by exists F1, M|done]|].
  split; [rewrite <- Hr1; by eapply unmount_ok|].
  eapply returns_mono; [eapply sfs_domount_ok; [apply Hi1|done]|]. intros [[dev k'] [e|st2]] [Hsd Hpost]; [done|]. destruct Hpost as (Hd2 & Hs2 & Hv2 & Hh2 & _).
  destruct (mounted_inv (sfs_d st1) F1 M L st2 dev (iv_disk _ _ _ _ _ _ Hi1) (iv_tree _ _ _ _ _ _ Hi1)) as (Hi2 & Hr2 & Hfr2); try done.
  exists (view st2 (filter linked F1) M). eexists. split; [by exists (filter linked F1), M|]. split; [done|]. split; [done|]. split.
  - eapply same_files_trans; [apply Hq|]. eapply view_same; [|by intros ino ?%elem_of_empty]. intros ino sv' Hn HF2.
    destruct (frame_keeps_same _ _ _ _ _ Hfr2 ino sv' Hn HF2) as (sv & [HF1 _]%map_lookup_filter_Some & ?). eauto.
  - split; [by eapply view_sound|]. intros Hr. rewrite <- Hr1 in Hr. destruct (no_orphans st1 F1 M L n Hi1 Hr) as [_ ->]. set_solver.
Qed.

Lemma mksfs_mounts_ok sys argv2 v t ss k : (∀ n, ∃ j, sys n = Took j ∧ 0 < j) → good_name v →
  argv2 = v ++ 0 :: t ∨ argv2 = v ++ 58 :: 0 :: t → Forall (λ b, length b = 512%nat) ss → 3 ≤ len ss ≤ 131072 →
  ∃ ss' k', mksfs_main sys 3 argv2 (ss, k) = Ret (Cont (ss', k')) ∧ ∀ fail ops i, (∀ n, fail n = false) →
    returns (sfs_domount present space nomem SFS_BLOCKSIZE (Disk (len ss) ss' fail ops) i) (λ '(_, _, r),
      match r with
      | inl e => e = ENOMEM ∧ ∃ j, nomem j = true
      | inr st => implements st (Fsys ∅ ∅ ∅) ∅ 0
      end).
Proof.
  intros Hsys Hv Harg Hf Hn. destruct (mksfs_main_ok sys Hsys argv2 v ss k Hv) as (ss' & k' & fm & Hrun & Hl & Hfr & _); [by eauto|done|done|].
  exists ss', k'. split; [done|]. intros fail ops i Hfail. rewrite <- Hl.
  pose proof (new_disk_ok ss' fm Hfr fail ops Hfail) as Hd. pose proof (new_tree_ok ss' fm Hfr fail ops Hfail) as Ht.
  eapply returns_mono; [eapply (sfs_domount_ok present space nomem (new_fs ss' fm fail ops) _ _ i Hd); done|].
  intros [[dev i'] [e|st]] [Hsd Hpost]; [done|]. destruct Hpost as (Hd2 & Hs2 & Hv2 & Hh2 & _).
  destruct (mounted_inv (new_fs ss' fm fail ops) {[1 := root_vnode]} ∅ ∅ st dev Hd Ht) as (Hi & Hr & _); try done.
  { intros ino sv [_ <-]%lookup_singleton_Some. done. }
  assert (HF : filter linked ({[1 := root_vnode]} : gmap Z sfs_vnode) = {[1 := root_vnode]}) by (apply map_filter_id; intros ino sv [<- _]%lookup_singleton_Some; by left).
  assert (HL : ∅ ∪ orphans (new_fs ss' fm fail ops) {[1 := root_vnode]} = ∅).
  { apply set_eq. intros b. rewrite elem_of_union, elem_of_orphans. split; [|set_solver]. intros [?|(ino & sv & [<- <-]%lookup_singleton_Some & Hl' & _)]; [done|].
    exfalso. apply Hl'. by left. }
  rewrite HF, HL in Hi. exists {[1 := root_vnode]}, ∅. split; [done|]. unfold view. by rewrite Hr, delete_singleton_eq, fmap_empty.
Qed.

(** [C11] A disk made by mksfs mounts as an empty file system: for any disk of 3
    to 131072 sectors and any volume name it accepts, mksfs succeeds (however
    many bytes the single calls of write take), and mounting gives a file
    system without names, files and references in which no block is lost. *)
Theorem mksfs_mounts_empty sys argv2 v t ss k : (∀ n, ∃ j, sys n = Took j ∧ 0 < j) → good_name v →
  argv2 = v ++ 0 :: t ∨ argv2 = v ++ 58 :: 0 :: t → Forall (λ b, length b = 512%nat) ss → 3 ≤ len ss ≤ 131072 →
  ∃ ss' k', mksfs_main sys 3 argv2 (ss, k) = Ret (Cont (ss', k')) ∧ ∀ fail ops i, (∀ n, fail n = false) →
    returns (sfs_domount present space nomem SFS_BLOCKSIZE (Disk (len ss) ss' fail ops) i) (λ '(_, _, r),
      match r with
      | inl e => e = ENOMEM ∧ ∃ j, nomem j = true
      | inr st => implements st (Fsys ∅ ∅ ∅) ∅ 0
      end).
Proof. exact (mksfs_mounts_ok sys argv2 v t ss k). Qed.

(** ** The interface of file systems, kept *)

(** Without memory, and with nobody using the root directory, it cannot be loaded. *)
Lemma getroot_or_panic st F M L n : inv st F M L none_owed n → 0 ≤ n < 2 ^ 31 - 1 → sfs_getroot present space nomem st = Panic ∧ low_memory nomem ∨
  returns (run (H := sfs_ops present space nomem) Getroot st) (refined nomem st F M L n Getroot).
Proof.
  intros Hi Hn. destruct (tr_root _ _ _ _ (iv_tree _ _ _ _ _ _ Hi)) as (rt & Hrt & _).
  destruct (sfs_loadvnode_ok present space nomem st F M L none_owed n 1 rt Hi Hn Hrt) as ([st' [e|p]] & Hrun & Hpost); [left|right].
  - unfold sfs_getroot, SFS_ROOT_LOCATION. rewrite Hrun. split; [done|]. by destruct Hpost as (_ & _ & _ & Hj & _).
  - exists (Got p, st'). split; [cbn [run sfs_ops fs_getroot]; unfold sfs_getroot, SFS_ROOT_LOCATION; by rewrite Hrun|]. destruct Hpost as (Hi' & Hfr & Hload).
    exists F, M, L. split; [done|]. split; [|by left]. eapply S_getroot; [done|]. by eapply refs_view, keeps_root, frame_keeps_same.
Qed.

(** What a device that nobody uses holds. *)
Definition on_disk (dk : disk) (A : fsys) : Prop := ∃ s F M L, dk = sfs_device s ∧ disk_ok s F L ∧ tree_ok s F M none_owed ∧ synced F ∧
  sfs_freemapdirty s = false ∧ f_names A = M ∧ same_files A (Fsys M (afile_of s <$> delete 1 (filter linked F)) ∅) ∅.

Definition shows (st : sfs) (A : fsys) (n : Z) : Prop := (∃ L, implements st A L n) ∧ 0 ∈ sfs_getvolname st.

Lemma refined_shows st F M L n o r st' : 0 ∈ sfs_getvolname st → refined nomem st F M L n o (r, st') → run (H := sfs_ops present space nomem) o st = Ret (r, st') →
  ∃ A', shows st' A' (n + 1) ∧ fstep (low_memory nomem) (view st F M) o r A' ∧ Some (sfs_getvolname st') = Some (sfs_getvolname st).
Proof.
  intros Hv (F' & M' & L' & Hi' & Hs & _) Hrun. assert (Heq : sfs_getvolname st' = sfs_getvolname st).
  { unfold sfs_getvolname. by rewrite (run_label present space nomem (sfs_sp st) o st eq_refl _ Hrun). }
  exists (view st' F' M'). split; [|by rewrite Heq]. split; [exists L', F', M'; done|]. by rewrite Heq.
Qed.

Lemma on_disk_same dk dk' A : on_disk dk A → same_disk dk dk' → on_disk dk' A.
Proof.
  intros (s & F & M & L & -> & Hd & Ht & Hsync & Hclean & HM & Hfiles) Hsd. pose proof (same_disk_to s dk' Hsd) as Hto.
  assert (Hstill : ∀ ino sv, F !! ino = Some sv → still s (set_device dk' s) sv).
  { intros ino sv HF. destruct (dk_file _ _ _ Hd ino sv HF) as (_ & (_ & ? & _) & _). by eapply read_still. }
  pose proof (disk_read _ _ _ _ Hd Hto) as Hd'. exists (set_device dk' s), F, M, L. split; [done|]. split; [done|]. split; [eapply tree_still; [done|apply Hd'|done]|].
  split; [done|]. split; [done|]. split; [done|]. intros ino f' _ (sv & <- & [Hne HF]%lookup_delete_Some)%lookup_fmap_Some.
  destruct (Hfiles ino (afile_of s sv)) as (f & Hf & Hsz & Hb); [set_solver|apply lookup_fmap_Some; exists sv; split; [done|by apply lookup_delete_Some]|].
  exists f. split; [done|]. split; [done|]. intros q Hq. rewrite <- Hb by done. apply map_lookup_filter_Some in HF as [HF _]. by eapply still_byte, Hstill.
Qed.

Lemma shows_unmount st A n : shows st A n → sfs_freemapdirty (sfs_d st) = false →
  (f_refs A = ∅ ∧ ∃ d, sfs_unmount st = Ret (inr d) ∧ on_disk d A) ∨ (f_refs A ≠ ∅ ∧ sfs_unmount st = Ret (inl EBUSY)).
Proof.
  intros [(L & F & M & Hi & ->) _] Hclean. rewrite (unmount_ok st F M L n Hi Hclean), view_refs. case_decide as Hr; [left|by right]. split; [done|].
  eexists. split; [done|]. exists (sfs_d st), F, M, L. split; [done|]. split; [apply Hi|]. split; [apply Hi|]. split.
  - intros ino sv HF. destruct (iv_cold _ _ _ _ _ _ Hi ino sv HF) as [(p & v & Hv & _)|[? _]]; [|done]. pose proof (refs_of st p v Hv) as Hp. by rewrite Hr in Hp.
  - split; [done|]. split; [done|]. destruct (no_orphans st F M L n Hi Hr) as [HF _]. rewrite HF. intros ino f' _ Hf'. exists f'. done.
Qed.

Lemma on_disk_mount dk A k : on_disk dk A → returns (sfs_domount present space nomem SFS_BLOCKSIZE dk k) (λ '(d', _, r),
  match r with
  | inl e => e = ENOMEM ∧ low_memory nomem ∧ on_disk d' A
  | inr st => ∃ A', shows st A' 0 ∧ f_refs A' = ∅ ∧ f_names A' = f_names A ∧ same_files A A' ∅
  end).
Proof.
  intros Hdisk. pose proof Hdisk as (s & F & M & L & -> & Hd & Ht & Hsync & Hclean & HM & Hfiles).
  eapply returns_mono; [by eapply sfs_domount_ok|]. intros [[dev k'] [e|st]] [Hsd Hpost].
  - destruct Hpost as [-> Hlow]. split; [done|]. split; [done|]. by eapply on_disk_same.
  - destruct Hpost as (Hd2 & Hs2 & Hv2 & Hh2 & Hvol). destruct (mounted_inv s F M L st dev Hd Ht) as (Hi & Hr & Hfr); try done.
    exists (view st (filter linked F) M). split; [split; [by exists (L ∪ orphans s F), (filter linked F), M|done]|]. split; [done|]. split; [done|].
    eapply same_files_trans; [exact Hfiles|]. intros ino f' _ (sv & Hne & HF & ->)%view_file.
    exists (afile_of s sv). split; [apply lookup_fmap_Some; exists sv; split; [done|by apply lookup_delete_Some]|].
    destruct (frame_keeps_same _ _ _ _ _ Hfr ino sv) as (sv1 & HF1 & Hsz & Hb); [set_solver|done|]. rewrite HF in HF1. injection HF1 as <-. done.
Qed.

#[local] Existing Instance sfs_ops.
Definition sfs_filesystem : FileSystem disk sfs present space (H := sfs_ops present space nomem).
Proof.
  refine {| fs_shows := shows; fs_low := low_memory nomem; fs_clean := λ st, sfs_freemapdirty (sfs_d st) = false; fs_holds := on_disk |}.
  - intros st A n o [(L & F & M & Hi & ->) Hv] Hn Ho. destruct (run_refined present space nomem st F M L n o Hi Hn Ho) as ([r st'] & Hrun & Href).
    exists (r, st'). split; [done|]. by eapply refined_shows.
  - intros st A n [(L & F & M & Hi & ->) Hv] Hn. destruct (getroot_or_panic st F M L n Hi Hn) as [?|([r st'] & Hrun & Href)]; [by left|right].
    exists (r, st'). split; [done|]. by eapply refined_shows.
  - intros st A n [(L & F & M & Hi & ->) _]. by eapply view_sound.
  - intros st A n p ino rc oc [(L & F & M & Hi & ->) _] (v & Hv & _ & <- & <-)%refs_some. by destruct (iv_vnode _ _ _ _ _ _ Hi p v Hv) as (_ & ? & ? & _).
  - intros st A n p q ino rc oc rc' oc' [(L & F & M & Hi & ->) _] (v & Hv & <- & _)%refs_some (w & Hw & Heq & _)%refs_some. by eapply (iv_inj _ _ _ _ _ _ Hi).
  - intros st A n n' [(L & F & M & Hi & ->) Hv] Hn. split; [|done]. exists L, F, M. split; [by eapply inv_mono|done].
  - intros st A n v [_ Hv] [= <-]. done.
  - intros st A n [(L & F & M & Hi & ->) Hv]. destruct (sfs_sync_ok present space st F M L n Hi) as ([e st'] & Hrun & -> & Hr & F' & Hi' & Hk & _ & Hclean).
    exists (0, st'). split; [done|]. split; [done|]. split; [done|].
    assert (Heq : sfs_getvolname st' = sfs_getvolname st) by (unfold sfs_getvolname; by rewrite (sync_label present space (sfs_sp st) st eq_refl _ Hrun)).
    split; [cbn; by rewrite Heq|]. exists (view st' F' M). split; [|by apply view_quiet]. split; [by exists L, F', M|]. by rewrite Heq.
  - intros st A n. apply shows_unmount.
  - intros dk A k. apply on_disk_mount.
Defined.
End system.

(** ** A disk of 8 sectors *)

Definition all_taken : nat → write_result := λ _, Took 512.
Definition blank_disk : list (list Z) := replicate 8 (replicate 512 170).

(** The name "v:". *)
Definition vol_arg : list Z := [118; 58; 0].
Definition sectors_of (r : outcome (ended (list (list Z) * nat))) : list (list Z) := match r with Ret (Cont im) => im.1 | _ => [] end.
Definition made_disk : list (list Z) := sectors_of (mksfs_main all_taken 3 vol_arg (blank_disk, 0%nat)).
Definition healthy_disk : disk := Disk 8 made_disk (λ _, false) 0.
Definition memory_enough : nat → bool := λ _, false.
Definition no_fs : sfs := SfsMount (bare (Disk 0 [] (λ _, false) 0)) (SfsSuper 0 [] []) false (Array 0 0 None) ∅ 0.
Definition fs_of (r : outcome (disk * nat * result sfs)) : sfs := match r with Ret (_, _, inr st) => st | _ => no_fs end.
Definition mounted : sfs := fs_of (sfs_domount no_user 0 memory_enough SFS_BLOCKSIZE healthy_disk 0).

Lemma blank_sizes : Forall (λ b : list Z, length b = 512%nat) blank_disk ∧ 3 ≤ len blank_disk ≤ 131072.
Proof. unfold blank_disk. split; [apply Forall_replicate, length_replicate|rewrite length_replicate; lia]. Qed.

Lemma vol_good : good_name [118].
Proof. split; [by repeat constructor|]. rewrite !list_elem_of_singleton. split; [done|]. split; [done|]. simpl. lia. Qed.

Lemma mounted_implements : implements mounted (Fsys ∅ ∅ ∅) ∅ 0.
Proof.
  destruct (mksfs_mounts_ok no_user 0 memory_enough all_taken vol_arg [118] [] blank_disk 0) as (ss' & k' & Hrun & Hmount);
    [by exists 512|apply vol_good|by right|apply blank_sizes|apply blank_sizes|].
  assert (Hss : ss' = made_disk) by (unfold made_disk; by rewrite Hrun). subst ss'.
  destruct (Hmount (λ _, false) 0%nat 0%nat ltac:(done)) as ([[dev i] [e|st]] & Hm & Hpost); [by destruct Hpost as (_ & ? & ?)|].
  assert (Hst : st = mounted).
  { unfold mounted, healthy_disk. change (len blank_disk) with 8 in Hm. by rewrite Hm. }
  by rewrite <- Hst.
Qed.

Lemma fresh_on_disk ss fm fail ops : fresh ss fm → (∀ n, fail n = false) → on_disk (Disk (len ss) ss fail ops) (Fsys ∅ ∅ ∅).
Proof.
  intros Hfr Hfail. exists (new_fs ss fm fail ops), {[1 := root_vnode]}, ∅, ∅. split; [done|]. split; [by apply new_disk_ok|]. split; [by apply new_tree_ok|].
  split; [intros ino sv [_ <-]%lookup_singleton_Some; done|]. split; [done|]. split; [done|]. intros ino f' _.
  assert (HF : filter linked ({[1 := root_vnode]} : gmap Z sfs_vnode) = {[1 := root_vnode]}) by (apply map_filter_id; intros ? ? [<- _]%lookup_singleton_Some; by left).
  rewrite HF, delete_singleton_eq. cbn [f_files]. by rewrite fmap_empty, lookup_empty.
Qed.

Lemma healthy_on_disk : on_disk healthy_disk (Fsys ∅ ∅ ∅).
Proof.
  destruct (mksfs_main_ok all_taken ltac:(by exists 512) vol_arg [118] blank_disk 0 vol_good) as (ss' & k' & fm & Hrun & Hl & Hfr & _);
    [exists []; by right|apply blank_sizes|apply blank_sizes|].
  assert (Hss : ss' = made_disk) by (unfold made_disk; by rewrite Hrun). subst ss'. unfold healthy_disk.
  replace 8 with (len made_disk) by (rewrite Hl; unfold blank_disk; by rewrite length_replicate). by eapply fresh_on_disk.
Qed.

Lemma memory_not_low : ¬ low_memory memory_enough.
Proof. by intros [j Hj]. Qed.

(** The root directory is looked up, a file "a" is created in it. *)
Lemma small_trace : ∃ p r st', trace no_user 0 memory_enough mounted [(Getroot, Got p); (Creat p [97; 0] true, r)] st'.
Proof.
  destruct mounted_implements as (F & M & Hi & _).
  destruct (run_refined no_user 0 memory_enough mounted F M ∅ 0 Getroot Hi ltac:(done) (or_intror memory_not_low)) as ([r1 st1] & Hrun1 & F1 & M1 & L1 & Hi1 & Hs1 & _).
  apply fstep_getroot in Hs1 as (p & -> & (rc & oc & Hp) & _). assert (Ho : allowed no_user 0 (low_memory memory_enough) (refs st1) (Creat p [97; 0] true)).
  { split; [by exists (1, rc, oc)|]. apply list_elem_of_lookup. by exists 1%nat. }
  destruct (run_refined no_user 0 memory_enough st1 F1 M1 L1 1 (Creat p [97; 0] true) Hi1 ltac:(lia) Ho) as ([r st'] & Hrun & _).
  exists p, r, st'. eapply T_cons; [right; apply memory_not_low|exact Hrun1|]. eapply T_cons; [exact Ho|exact Hrun|constructor].
Qed.

Lemma sfs_trace_refinement_witness : ∃ p r st', trace no_user 0 memory_enough mounted [(Getroot, Got p); (Creat p [97; 0] true, r)] st' ∧
  (∃ A', ftrace memory_enough (Fsys ∅ ∅ ∅) [(Getroot, Got p); (Creat p [97; 0] true, r)] A') ∧
  ∃ r' st'', run (H := sfs_ops no_user 0 memory_enough) Getroot st' = Ret (r', st'').
Proof.
  destruct small_trace as (p & r & st' & Ht). exists p, r, st'. split; [exact Ht|].
  destruct (sfs_trace_refinement no_user 0 memory_enough mounted (Fsys ∅ ∅ ∅) ∅ 0 [(Getroot, Got p); (Creat p [97; 0] true, r)] st'
    mounted_implements ltac:(done) ltac:(done) Ht) as [(A' & L' & _ & Hft & _) Hnext].
  split; [exists A'; exact Hft|]. apply Hnext. right. exact memory_not_low.
Defined.

Lemma mounted_unused : refs mounted = ∅.
Proof. destruct mounted_implements as (F & M & _ & HA). rewrite <- (view_refs mounted F M), <- HA. reflexivity. Qed.

Lemma sfs_sync_durable_witness : returns (sfs_sync no_user 0 mounted) (λ '(e, st1), e = 0 ∧
  sfs_unmount st1 = Ret (inr (sfs_device (sfs_d st1)))).
Proof.
  eapply returns_mono; [exact (sfs_sync_durable no_user 0 memory_enough mounted (Fsys ∅ ∅ ∅) ∅ 0 0%nat mounted_implements)|].
  intros [e st1] (He & _ & Hu & _). split; [exact He|]. rewrite Hu, decide_True; [reflexivity|exact mounted_unused].
Defined.

Lemma mksfs_mounts_empty_witness : ∃ ss' k', mksfs_main all_taken 3 vol_arg (blank_disk, 0%nat) = Ret (Cont (ss', k')).
Proof.
  destruct (mksfs_mounts_empty no_user 0 memory_enough all_taken vol_arg [118] [] blank_disk 0%nat) as (ss' & k' & Hrun & _);
    [by exists 512|apply vol_good|by right|apply blank_sizes|apply blank_sizes|]. exists ss', k'. exact Hrun.
Defined.
