(* ===== verification/Vfs.v ===== *)
(** * The VFS layer: fs/vfs (vfslist.c, vfslookup.c, vfspath.c, vfscwd.c, device.c,
    devnull.c)

    A vnode pointer leads to the vnode of a device or to one of a mounted file
    system: [vptr]. File systems are reached through the tables of operations
    [fsops]. The table of devices is an array of addresses of [knowndev]s.
    The two locks are the layer's own; no other thread runs meanwhile, so that
    taking a lock twice is the only way to wait for ever. The working
    directory belongs to the thread. [nomem n] says whether the [n]th call of
    kmalloc fails. *)

From S2P Require Import Prelude CArray KHeap KHeapSpec Coremap Uio CString Printf FileSys SfsVnode.

(** ** State *)

Inductive vptr := VDev (k : nat) | VFs (f p : nat).
#[export] Instance vptr_eq_dec : EqDecision vptr.
Proof. solve_decision. Defined.
#[export] Instance vptr_countable : Countable vptr.
Proof.
  apply (inj_countable' (λ v, match v with VDev k => inl k | VFs f p => inr (f, p) end)
    (λ x, match x with inl k => VDev k | inr (f, p) => VFs f p end)). by intros [].
Defined.

(** struct device; [d_data] is what its driver keeps. No driver's d_open, d_close
    or d_ioctl does anything but return a code. *)
Record device (D : Type) := Device {
  d_open : Z → Z; d_close : Z; d_io : memory → uio → D → outcome (Z * (memory * uio * D)); d_ioctl : Z;
  d_blocks : Z; d_blocksize : Z; d_data : D
}.
Arguments Device {D}. Arguments d_open {D}. Arguments d_close {D}. Arguments d_io {D}. Arguments d_ioctl {D}. Arguments d_blocks {D}. Arguments d_blocksize {D}. Arguments d_data {D}.

(** The vnode of a device. *)
Record dvnode := Dvnode { dv_refcount : Z; dv_opencount : Z; dv_data : option nat }.

Record knowndev := Knowndev {
  kd_name : list Z; kd_rawname : option (list Z); kd_device : option nat; kd_vnode : nat; kd_fs : option nat
}.

Record vfs (D S : Type) := Vfs {
  knowndevs : array nat;
  kds : gmap nat knowndev;
  dvnodes : gmap nat dvnode;
  devices : gmap nat (device D);
  fses : gmap nat S;
  bootfs_vnode : option vptr;
  t_cwd : gmap nat vptr;
  rw_lock : gmap vptr (option nat);
  locks : gset nat;
  knowndevs_lock : bool;
  bootfs_lock : bool;
  nmalloc : nat
}.
Arguments Vfs {D S}. Arguments knowndevs {D S}. Arguments kds {D S}. Arguments dvnodes {D S}. Arguments devices {D S}. Arguments fses {D S}.
Arguments bootfs_vnode {D S}. Arguments t_cwd {D S}. Arguments rw_lock {D S}. Arguments locks {D S}. Arguments knowndevs_lock {D S}.
Arguments bootfs_lock {D S}. Arguments nmalloc {D S}.

Section vfs.
Context {D S : Type} (fsops : nat → FsOps D S) (nomem : nat → bool) (stack : list Z) (curthread : nat).
Abbreviation state := (vfs D S).

Definition set_knowndevs (a : array nat) (st : state) : state :=
  Vfs a (kds st) (dvnodes st) (devices st) (fses st) (bootfs_vnode st) (t_cwd st) (rw_lock st) (locks st) (knowndevs_lock st) (bootfs_lock st) (nmalloc st).
Definition set_kds (h : gmap nat knowndev) (st : state) : state :=
  Vfs (knowndevs st) h (dvnodes st) (devices st) (fses st) (bootfs_vnode st) (t_cwd st) (rw_lock st) (locks st) (knowndevs_lock st) (bootfs_lock st) (nmalloc st).
Definition set_dvnodes (h : gmap nat dvnode) (st : state) : state :=
  Vfs (knowndevs st) (kds st) h (devices st) (fses st) (bootfs_vnode st) (t_cwd st) (rw_lock st) (locks st) (knowndevs_lock st) (bootfs_lock st) (nmalloc st).
Definition set_devices (h : gmap nat (device D)) (st : state) : state :=
  Vfs (knowndevs st) (kds st) (dvnodes st) h (fses st) (bootfs_vnode st) (t_cwd st) (rw_lock st) (locks st) (knowndevs_lock st) (bootfs_lock st) (nmalloc st).
Definition set_fses (h : gmap nat S) (st : state) : state :=
  Vfs (knowndevs st) (kds st) (dvnodes st) (devices st) h (bootfs_vnode st) (t_cwd st) (rw_lock st) (locks st) (knowndevs_lock st) (bootfs_lock st) (nmalloc st).
Definition set_bootfs (v : option vptr) (st : state) : state :=
  Vfs (knowndevs st) (kds st) (dvnodes st) (devices st) (fses st) v (t_cwd st) (rw_lock st) (locks st) (knowndevs_lock st) (bootfs_lock st) (nmalloc st).
Definition set_cwds (h : gmap nat vptr) (st : state) : state :=
  Vfs (knowndevs st) (kds st) (dvnodes st) (devices st) (fses st) (bootfs_vnode st) h (rw_lock st) (locks st) (knowndevs_lock st) (bootfs_lock st) (nmalloc st).
Definition set_rw (h : gmap vptr (option nat)) (ls : gset nat) (st : state) : state :=
  Vfs (knowndevs st) (kds st) (dvnodes st) (devices st) (fses st) (bootfs_vnode st) (t_cwd st) h ls (knowndevs_lock st) (bootfs_lock st) (nmalloc st).
Definition set_held (kd boot : bool) (st : state) : state :=
  Vfs (knowndevs st) (kds st) (dvnodes st) (devices st) (fses st) (bootfs_vnode st) (t_cwd st) (rw_lock st) (locks st) kd boot (nmalloc st).
Definition set_nmalloc (n : nat) (st : state) : state :=
  Vfs (knowndevs st) (kds st) (dvnodes st) (devices st) (fses st) (bootfs_vnode st) (t_cwd st) (rw_lock st) (locks st) (knowndevs_lock st) (bootfs_lock st) n.

Definition the {A} (o : option A) : outcome A := match o with Some a => Ret a | None => Wild end.
Definition getfs (f : nat) (st : state) : outcome S := the (fses st !! f).
Definition putfs (f : nat) (s : S) (st : state) : state := set_fses (<[f := s]> (fses st)) st.
Definition set_d_data (a : nat) (d : device D) (x : D) (st : state) : state :=
  set_devices (<[a := Device (d_open d) (d_close d) (d_io d) (d_ioctl d) (d_blocks d) (d_blocksize d) x]> (devices st)) st.
Definition dvput (k : nat) (dv : dvnode) (st : state) : state := set_dvnodes (<[k := dv]> (dvnodes st)) st.

(** ** Memory and locks *)

Definition kmalloc (st : state) : option nat * state :=
  (if nomem (nmalloc st) then None else Some (nmalloc st), set_nmalloc (Datatypes.S (nmalloc st)) st).

(** The lock and a copy of its name. *)
Definition lock_create (st : state) : option nat * state :=
  match kmalloc st with
  | (Some l, st) => match kmalloc st with (Some _, st) => (Some l, set_rw (rw_lock st) ({[l]} ∪ locks st) st) | (None, st) => (None, st) end
  | (None, st) => (None, st)
  end.

Definition lock_destroy (l : option nat) (st : state) : outcome state :=
  match l with
  | None => Panic
  | Some l => if decide (l ∈ locks st) then Ret (set_rw (rw_lock st) (locks st ∖ {[l]}) st) else Wild
  end.

(** Who asks for a lock it has waits for ever. *)
Definition acquire_knowndevs (st : state) : outcome state := if knowndevs_lock st then Spin else Ret (set_held true (bootfs_lock st) st).
Definition release_knowndevs (st : state) : state := set_held false (bootfs_lock st) st.
Definition acquire_bootfs (st : state) : outcome state := if bootfs_lock st then Spin else Ret (set_held (knowndevs_lock st) true st).
Definition release_bootfs (st : state) : state := set_held (knowndevs_lock st) false st.

(** ** device.c: vnodes of devices *)

Definition O_CREAT : Z := 4.
Definition O_EXCL : Z := 8.
Definition O_TRUNC : Z := 16.
Definition S_IFMT : Z := 28672.
Definition S_IFCHR : Z := 16384.
Definition S_IFBLK : Z := 20480.

Definition dev_open (d : device D) (flags : Z) : Z :=
  if bool_decide (Z.land flags (Z.lor (Z.lor (Z.lor O_CREAT O_TRUNC) O_EXCL) O_APPEND) ≠ 0) then EINVAL else d_open d flags.

Definition dev_gettype (d : device D) : Z := if bool_decide (0 < d_blocks d) then S_IFBLK else S_IFCHR.

(** Mode, links, size, blocks. *)
Definition dev_stat (d : device D) : Z * Z * Z * Z :=
  (dev_gettype d, 1, (if bool_decide (0 < d_blocks d) then s32 (u32 (d_blocks d * d_blocksize d)) else 0), d_blocks d).

(** The position is signed, the block size is not. *)
Definition dev_tryseek (d : device D) (pos : Z) : outcome Z :=
  if bool_decide (0 < d_blocks d) then
    if bool_decide (d_blocksize d = 0) then Panic
    else if bool_decide (u32 pos mod d_blocksize d ≠ 0) then Ret EINVAL
    else if bool_decide (pos < 0) then Ret EINVAL
    else if bool_decide (d_blocks d ≤ u32 pos / d_blocksize d) then Ret EINVAL
    else Ret 0
  else Ret ESPIPE.

Definition dev_truncate (d : device D) (length : Z) : Z :=
  if bool_decide (0 < d_blocks d) && bool_decide (s32 (u32 (d_blocks d * d_blocksize d)) = length) then 0 else EINVAL.

Definition dev_io (rw : uio_rw) (d : device D) (m : memory) (u : uio) : outcome (Z * (memory * uio * D)) :=
  c_assert (bool_decide (uio_dir u = rw));;
  d_io d m u (d_data d).
Definition dev_read := dev_io UIO_READ.
Definition dev_write := dev_io UIO_WRITE.

(** The vnode, checked, and its device. *)
Definition dev_check (k : nat) (reclaim : bool) (st : state) : outcome dvnode :=
  dv ← the (dvnodes st !! k);
  if bool_decide (dv_refcount dv < 0) then Panic
  else if bool_decide (dv_refcount dv = 0) && negb reclaim then Panic
  else if bool_decide (dv_opencount dv < 0) then Panic
  else Ret dv.
Definition dev_of (dv : dvnode) (st : state) : outcome (device D) := a ← the (dv_data dv); the (devices st !! a).

Definition dev_create_vnode (dev : option nat) (st : state) : outcome (option nat * state) :=
  match kmalloc st with
  | (None, st) => Ret (None, st)
  | (Some v, st) =>
      match lock_create st with
      | (None, _) => Panic
      | (Some _, st) => Ret (Some v, dvput v (Dvnode 1 0 dev) st)
      end
  end.

(** ** Operations on vnodes, of whatever kind *)

Definition vn_fs (vn : vptr) : option nat := match vn with VDev _ => None | VFs f _ => Some f end.

(** A call of file system [f]. *)
Definition on_fs {A} (f : nat) (call : S → outcome (A * S)) (st : state) : outcome (A * state) :=
  s ← getfs f st;
  '(a, s) ← call s;
  Ret (a, putfs f s st).
Definition on_fs_state (f : nat) (call : S → outcome S) (st : state) : outcome state :=
  '(_, st) ← on_fs f (λ s, s ← call s; Ret ((), s)) st; Ret st.

Definition VOP_INCREF (vn : vptr) (st : state) : outcome state :=
  match vn with
  | VDev k => dv ← the (dvnodes st !! k); Ret (dvput k (Dvnode (s32 (dv_refcount dv + 1)) (dv_opencount dv) (dv_data dv)) st)
  | VFs f p => on_fs_state f (fs_incref (FsOps := fsops f) p) st
  end.

Definition VOP_DECREF (vn : vptr) (st : state) : outcome state :=
  match vn with
  | VDev k =>
      dv ← the (dvnodes st !! k);
      c_assert (bool_decide (0 < dv_refcount dv));;
      if bool_decide (1 < dv_refcount dv) then Ret (dvput k (Dvnode (dv_refcount dv - 1) (dv_opencount dv) (dv_data dv)) st)
      else dev_check k true st;; Ret st
  | VFs f p => on_fs_state f (fs_decref (FsOps := fsops f) p) st
  end.

Definition VOP_INCOPEN (vn : vptr) (st : state) : outcome state :=
  match vn with
  | VDev k => dv ← the (dvnodes st !! k); Ret (dvput k (Dvnode (dv_refcount dv) (s32 (dv_opencount dv + 1)) (dv_data dv)) st)
  | VFs f p => on_fs_state f (fs_incopen (FsOps := fsops f) p) st
  end.

(** A failure to close is only reported. *)
Definition VOP_DECOPEN (vn : vptr) (st : state) : outcome state :=
  match vn with
  | VDev k =>
      dv ← the (dvnodes st !! k);
      c_assert (bool_decide (0 < dv_opencount dv));;
      let st := dvput k (Dvnode (dv_refcount dv) (dv_opencount dv - 1) (dv_data dv)) st in
      if bool_decide (0 < dv_opencount dv - 1) then Ret st
      else dv ← dev_check k false st; d ← dev_of dv st; let _ := d_close d in Ret st
  | VFs f p => on_fs_state f (fs_decopen (FsOps := fsops f) p) st
  end.

(** An operation that leaves the state alone. *)
Definition asking {A} (vn : vptr) (dev : device D → outcome A) (fs : FsOps D S → nat → S → outcome A) (st : state) : outcome A :=
  match vn with
  | VDev k => dv ← dev_check k false st; d ← dev_of dv st; dev d
  | VFs f p => s ← getfs f st; fs (fsops f) p s
  end.
Definition VOP_OPEN (vn : vptr) (flags : Z) : state → outcome Z := asking vn (λ d, Ret (dev_open d flags)) (λ ops p s, fs_open p flags s).
Definition VOP_GETTYPE (vn : vptr) : state → outcome Z := asking vn (λ d, Ret (dev_gettype d)) (λ ops p s, fs_gettype p s).
Definition VOP_TRYSEEK (vn : vptr) (pos : Z) : state → outcome Z := asking vn (λ d, dev_tryseek d pos) (λ ops p s, fs_tryseek p pos s).

(** What the VFS layer does itself for devices: dev_ioctl, null_io, dev_mmap,
    dev_namefile, null_symlink and null_nameop. *)
Definition null_op (d : device D) (o : vop) : Z :=
  match o with
  | vop_readlink | vop_getdirentry => EINVAL
  | vop_ioctl => d_ioctl d
  | vop_mmap => EUNIMP
  | vop_namefile => 0
  | vop_symlink | vop_mkdir | vop_rmdir => ENOTDIR
  end.
Definition VOP_OTHER (o : vop) (vn : vptr) (st : state) : outcome Z :=
  match vn with
  | VDev k => dv ← dev_check k false st; d ← dev_of dv st; Ret (null_op d o)
  | VFs f p => s ← getfs f st; fs_other (FsOps := fsops f) o p s
  end.

Definition VOP_TRUNCATE (vn : vptr) (length : Z) (st : state) : outcome (Z * state) :=
  match vn with
  | VDev k => dv ← dev_check k false st; d ← dev_of dv st; Ret (dev_truncate d length, st)
  | VFs f p => on_fs f (fs_truncate (FsOps := fsops f) p length) st
  end.

(** Transfers: what the driver keeps, or the file system, changes. *)
Definition VOP_IO (rw : uio_rw) (fs : ∀ f : nat, nat → memory → uio → S → outcome (Z * (memory * uio * S)))
    (vn : vptr) (m : memory) (u : uio) (st : state) : outcome (Z * (memory * uio) * state) :=
  match vn with
  | VDev k =>
      dv ← dev_check k false st;
      a ← the (dv_data dv);
      d ← the (devices st !! a);
      '(e, (m, u, x)) ← dev_io rw d m u;
      Ret (e, (m, u), set_d_data a d x st)
  | VFs f p => on_fs f (λ s, '(e, (m, u, s)) ← fs f p m u s; Ret (e, (m, u), s)) st
  end.
Definition VOP_READ := VOP_IO UIO_READ (λ f, fs_read (FsOps := fsops f)).
Definition VOP_WRITE := VOP_IO UIO_WRITE (λ f, fs_write (FsOps := fsops f)).

Definition located (f : nat) (r : result nat) : result vptr := match r with inl e => inl e | inr p => inr (VFs f p) end.

(** Of a device, the empty name only: dev_lookup, dev_lookparent. *)
Definition VOP_LOOKUP (vn : vptr) (path : list Z) (st : state) : outcome (state * result vptr) :=
  match vn with
  | VDev k =>
      dev_check k false st;;
      n ← strlen path;
      if bool_decide (0 < n) then Ret (st, inl ENOENT) else st ← VOP_INCREF vn st; Ret (st, inr vn)
  | VFs f p => '(r, st) ← on_fs f (λ s, '(s, r) ← fs_lookup (FsOps := fsops f) p path s; Ret (r, s)) st; Ret (st, located f r)
  end.
Definition VOP_LOOKPARENT (vn : vptr) (path buf : list Z) (st : state) : outcome (state * list Z * result vptr) :=
  match vn with
  | VDev k => dev_check k false st;; Ret (st, buf, inl ENOTDIR)
  | VFs f p =>
      '(br, st) ← on_fs f (λ s, '(s, buf, r) ← fs_lookparent (FsOps := fsops f) p path buf s; Ret ((buf, r), s)) st;
      Ret (st, br.1, located f br.2)
  end.
Definition VOP_CREAT (vn : vptr) (name : list Z) (excl : bool) (st : state) : outcome (state * result vptr) :=
  match vn with
  | VDev k => dev_check k false st;; Ret (st, inl ENOTDIR)
  | VFs f p => '(r, st) ← on_fs f (λ s, '(s, r) ← fs_creat (FsOps := fsops f) p name excl s; Ret (r, s)) st; Ret (st, located f r)
  end.
Definition VOP_REMOVE (vn : vptr) (name : list Z) (st : state) : outcome (Z * state) :=
  match vn with
  | VDev k => dev_check k false st;; Ret (ENOTDIR, st)
  | VFs f p => on_fs f (fs_remove (FsOps := fsops f) p name) st
  end.

(** The file systems check that both vnodes are theirs. *)
Definition VOP_LINK (vn : vptr) (name : list Z) (file : vptr) (st : state) : outcome (Z * state) :=
  match vn, file with
  | VDev k, _ => dev_check k false st;; Ret (ENOTDIR, st)
  | VFs f d, VFs g p => if decide (g = f) then on_fs f (fs_link (FsOps := fsops f) d name p) st else Panic
  | VFs _ _, VDev _ => Panic
  end.
Definition VOP_RENAME (vn1 : vptr) (n1 : list Z) (vn2 : vptr) (n2 : list Z) (st : state) : outcome (Z * state) :=
  match vn1, vn2 with
  | VDev k, _ => dev_check k false st;; Ret (ENOTDIR, st)
  | VFs f d1, VFs g d2 => if decide (g = f) then on_fs f (fs_rename (FsOps := fsops f) d1 n1 d2 n2) st else Panic
  | VFs _ _, VDev _ => Panic
  end.

(** ** vfslist.c: the table of devices *)

Definition string_raw : list Z := [114; 97; 119; 0].

(** [!strcmp(a, b)]. *)
Definition same (a b : list Z) : outcome bool := r ← strcmp a b; Ret (bool_decide (r = 0)).

Definition samestring (a b : option (list Z)) : outcome bool :=
  match a, b with Some a, Some b => same a b | _, _ => Ret false end.
Definition or_else (m1 m2 : outcome bool) : outcome bool := b ← m1; if (b : bool) then Ret true else m2.
Definition samestring3 (a b c d : option (list Z)) : outcome bool :=
  or_else (samestring a b) (or_else (samestring a c) (samestring a d)).

(** The entry [i] of the table, and its address. *)
Definition known (i : Z) (st : state) : outcome (nat * knowndev) :=
  a ← array_getguy (knowndevs st) i;
  kd ← the (kds st !! a);
  Ret (a, kd).
Definition numdevs (st : state) : nat := Z.to_nat (array_getnum (knowndevs st)).

Definition volname_of (f : nat) (st : state) : outcome (option (list Z)) :=
  s ← getfs f st; Ret (fs_getvolname (FsOps := fsops f) s).

Definition sync_turn (i : Z) (st : state) : outcome state :=
  '(_, kd) ← known i st;
  match kd_fs kd with
  | Some f => '(_, st) ← on_fs f (fs_sync (FsOps := fsops f)) st; Ret st
  | None => Ret st
  end.
Definition vfs_sync (st : state) : outcome (Z * state) :=
  st ← acquire_knowndevs st;
  st ← for_each (numdevs st) 0 sync_turn st;
  Ret (0, release_knowndevs st).

Definition fsop_getroot (f : nat) (st : state) : outcome (state * vptr) :=
  '(p, st) ← on_fs f (λ s, '(s, p) ← fs_getroot (FsOps := fsops f) s; Ret (p, s)) st;
  Ret (st, VFs f p).

(** The device itself. *)
Definition the_device (kd : knowndev) (st : state) : outcome (state * result vptr) :=
  c_assert (bool_decide (kd_device kd ≠ None));;
  st ← VOP_INCREF (VDev (kd_vnode kd)) st;
  Ret (st, inr (VDev (kd_vnode kd))).

Definition getroot_turn (devname : list Z) (i : Z) (st : state) : outcome (state + state * result vptr) :=
  '(_, kd) ← known i st;
  hit ← match kd_fs kd with
        | Some f =>
            volname ← volname_of f st;
            b ← or_else (same (kd_name kd) devname) (match volname with Some v => same v devname | None => Ret false end);
            if (b : bool) then '(st, vn) ← fsop_getroot f st; Ret (Some (st, inr vn)) else Ret None
        | None =>
            match kd_rawname kd with
            | Some _ => b ← same (kd_name kd) devname; Ret (if (b : bool) then Some (st, inl ENXIO) else None)
            | None => Ret None
            end
        end;
  match hit with
  | Some r => Ret (inr r)
  | None =>
      b ← same (kd_name kd) devname;
      if (b : bool) then
        c_assert (bool_decide (kd_fs kd = None));;
        c_assert (bool_decide (kd_rawname kd = None));;
        r ← the_device kd st; Ret (inr r)
      else
        match kd_rawname kd with
        | Some raw => b ← same raw devname; if (b : bool) then r ← the_device kd st; Ret (inr r) else Ret (inl st)
        | None => Ret (inl st)
        end
  end.
Definition vfs_getroot (devname : list Z) (st : state) : outcome (state * result vptr) :=
  st ← acquire_knowndevs st;
  r ← for_loop (numdevs st) 0 (getroot_turn devname) st;
  let '(st, r) := match r with inl st => (st, inl ENODEV) | inr r => r end in
  Ret (release_knowndevs st, r).

Definition vfs_getdevname (f : nat) (st : state) : outcome (state * option (list Z)) :=
  st ← acquire_knowndevs st;
  r ← for_loop (numdevs st) 0 (λ i (_ : ()), '(_, kd) ← known i st; Ret (if decide (kd_fs kd = Some f) then inr (kd_name kd) else inl ())) ();
  Ret (release_knowndevs st, match r with inr name => Some name | inl _ => None end).

Definition mkrawname (name : list Z) (st : state) : outcome (option (list Z) * state) :=
  n ← strlen name;
  match kmalloc st with
  | (None, st) => Ret (None, st)
  | (Some _, st) =>
      s ← strcpy (replicate (Z.to_nat (n + 3 + 1)) 0) name;
      s ← strcat s string_raw;
      Ret (Some s, st)
  end.
Definition kstrdup (name : list Z) (st : state) : outcome (option (list Z) * state) :=
  n ← strlen name;
  match kmalloc st with
  | (None, st) => Ret (None, st)
  | (Some _, st) => s ← strcpy (replicate (Z.to_nat (n + 1)) 0) name; Ret (Some s, st)
  end.

Definition badnames_turn (st : state) (n1 n2 n3 : option (list Z)) (i : Z) (_ : ()) : outcome (() + ()) :=
  '(_, kd) ← known i st;
  b ← match kd_fs kd with
      | Some f => volname ← volname_of f st; samestring3 volname n1 n2 n3
      | None => Ret false
      end;
  if (b : bool) then Ret (inr ())
  else
    b ← or_else (samestring3 (kd_rawname kd) n1 n2 n3) (samestring3 (Some (kd_name kd)) n1 n2 n3);
    Ret (if (b : bool) then inr () else inl ()).
Definition badnames (n1 n2 n3 : option (list Z)) (st : state) : outcome bool :=
  c_assert (knowndevs_lock st);;
  r ← for_loop (numdevs st) 0 (badnames_turn st n1 n2 n3) ();
  Ret (match r with inl _ => false | inr _ => true end).

(** The end of vfs_doadd: the new entry is put in the table. *)
Definition add_known (kd : knowndev) (volname : option (list Z)) (st : state) : outcome (Z * state) :=
  match kmalloc st with
  | (None, st) => Ret (ENOMEM, set_dvnodes (delete (kd_vnode kd) (dvnodes st)) st)
  | (Some a, st) =>
      st ← acquire_knowndevs (set_kds (<[a := kd]> (kds st)) st);
      bad ← badnames (Some (kd_name kd)) (kd_rawname kd) volname st;
      '(err, st) ← (if (bad : bool) then Ret (EEXIST, st)
                    else '(arr, e) ← array_add (λ _, negb (nomem (nmalloc st))) (knowndevs st) a;
                         Ret (e, set_nmalloc (Datatypes.S (nmalloc st)) (set_knowndevs arr st)));
      Ret (err, release_knowndevs st)
  end.

Definition vfs_doadd (dname : list Z) (mountable : bool) (dev fs : option nat) (st : state) : outcome (Z * state) :=
  '(name, st) ← kstrdup dname st;
  match name with
  | None => Ret (ENOMEM, st)
  | Some name =>
      '(raw, st) ← (if mountable then mkrawname name st else Ret (None, st));
      if mountable && bool_decide (raw = None) then Ret (ENOMEM, st)
      else
        '(v, st) ← dev_create_vnode dev st;
        match v with
        | None => Ret (ENOMEM, st)
        | Some v =>
            volname ← match fs with Some f => volname_of f st | None => Ret None end;
            add_known (Knowndev name raw dev v fs) volname st
        end
  end.

(** The device, or the file system, comes into being with the call. *)
Definition vfs_adddev (devname : list Z) (a : nat) (mountable : bool) (st : state) : outcome (Z * state) := vfs_doadd devname mountable (Some a) None st.
Definition vfs_addfs (devname : list Z) (f : nat) (st : state) : outcome (Z * state) := vfs_doadd devname false None (Some f) st.

(** *** Mounting *)

Definition findmount_turn (devname : list Z) (st : state) (i : Z) (_ : ()) : outcome (() + nat * knowndev) :=
  '(a, kd) ← known i st;
  match kd_rawname kd with
  | None => Ret (inl ())
  | Some _ => b ← same devname (kd_name kd); Ret (if (b : bool) then inr (a, kd) else inl ())
  end.
Definition findmount (devname : list Z) (st : state) : outcome (result (nat * knowndev)) :=
  c_assert (knowndevs_lock st);;
  r ← for_loop (numdevs st) 0 (findmount_turn devname st) ();
  Ret (match r with inl _ => inl ENODEV | inr kd => inr kd end).

Definition set_kd_fs (a : nat) (kd : knowndev) (f : option nat) (st : state) : state :=
  set_kds (<[a := Knowndev (kd_name kd) (kd_rawname kd) (kd_device kd) (kd_vnode kd) f]> (kds st)) st.

(** [fs_mount] stands for [mountfunc]; the address of the file system is that
    of the memory it gets first. *)
Definition mount_on (a : nat) (kd : knowndev) (st : state) : outcome (Z * state) :=
  c_assert (bool_decide (kd_rawname kd ≠ None));;
  c_assert (bool_decide (kd_device kd ≠ None));;
  da ← the (kd_device kd);
  d ← the (devices st !! da);
  let f := nmalloc st in
  '(x, _, r) ← fs_mount (FsOps := fsops f) (d_blocksize d) (d_data d) f;
  let st := set_nmalloc (Datatypes.S f) (set_d_data da d x st) in
  match r with
  | inl e => Ret (e, st)
  | inr s => Ret (0, set_kd_fs a kd (Some f) (putfs f s st))
  end.
Definition vfs_mount (devname : list Z) (st : state) : outcome (Z * state) :=
  st ← acquire_knowndevs st;
  r ← findmount devname st;
  '(result, st) ← match r with
    | inl e => Ret (e, st)
    | inr (a, kd) => if bool_decide (kd_fs kd ≠ None) then Ret (EBUSY, st) else mount_on a kd st
    end;
  Ret (result, release_knowndevs st).

(** FSOP_UNMOUNT, and the file system dropped if it agrees: its device is again
    the driver's alone. *)
Definition unmount_from (a : nat) (kd : knowndev) (f : nat) (st : state) : outcome (Z * state) :=
  s ← getfs f st;
  r ← fs_unmount (FsOps := fsops f) s;
  match r with
  | inl e => Ret (e, st)
  | inr x =>
      da ← the (kd_device kd);
      d ← the (devices st !! da);
      Ret (0, set_kd_fs a kd None (set_d_data da d x (set_fses (delete f (fses st)) st)))
  end.
Definition vfs_unmount (devname : list Z) (st : state) : outcome (Z * state) :=
  st ← acquire_knowndevs st;
  r ← findmount devname st;
  '(result, st) ← match r with
    | inl e => Ret (e, st)
    | inr (a, kd) =>
        match kd_fs kd with
        | None => Ret (EINVAL, st)
        | Some f =>
            c_assert (bool_decide (kd_rawname kd ≠ None));;
            c_assert (bool_decide (kd_device kd ≠ None));;
            '(e, st) ← on_fs f (fs_sync (FsOps := fsops f)) st;
            if bool_decide (e ≠ 0) then Ret (e, st) else unmount_from a kd f st
        end
    end;
  Ret (result, release_knowndevs st).

Definition unmountall_turn (i : Z) (st : state) : outcome state :=
  '(a, kd) ← known i st;
  match kd_rawname kd, kd_fs kd with
  | None, _ | _, None => Ret st
  | Some _, Some f =>
      '(e, st) ← on_fs f (fs_sync (FsOps := fsops f)) st;
      '(e, st) ← (if bool_decide (e ≠ 0) then on_fs f (fs_sync (FsOps := fsops f)) st else Ret (e, st));
      if bool_decide (e ≠ 0) then Ret st else '(_, st) ← unmount_from a kd f st; Ret st
  end.
Definition vfs_unmountall (st : state) : outcome (Z * state) :=
  st ← acquire_knowndevs st;
  st ← for_each (numdevs st) 0 unmountall_turn st;
  Ret (0, release_knowndevs st).

(** ** vfscwd.c: the working directory of the thread *)

Definition vfs_getcurdir (st : state) : outcome (state * result vptr) :=
  match t_cwd st !! curthread with
  | Some cwd => st ← VOP_INCREF cwd st; Ret (st, inr cwd)
  | None => Ret (st, inl ENOENT)
  end.

Definition decref_old (old : option vptr) (st : state) : outcome state := match old with Some vn => VOP_DECREF vn st | None => Ret st end.

Definition vfs_setcurdir (dir : vptr) (st : state) : outcome (Z * state) :=
  vtype ← VOP_GETTYPE dir st;
  if bool_decide (Z.land vtype S_IFMT ≠ S_IFDIR) then Ret (ENOTDIR, st)
  else
    st ← VOP_INCREF dir st;
    let old := t_cwd st !! curthread in
    st ← decref_old old (set_cwds (<[curthread := dir]> (t_cwd st)) st);
    Ret (0, st).

Definition vfs_clearcurdir (st : state) : outcome (Z * state) :=
  let old := t_cwd st !! curthread in
  st ← decref_old old (set_cwds (delete curthread (t_cwd st)) st);
  Ret (0, st).

(** thread_fork: the new thread starts in the same directory. *)
Definition fork_cwd (newguy : nat) (st : state) : outcome state :=
  match t_cwd st !! curthread with
  | Some cwd => st ← VOP_INCREF cwd st; Ret (set_cwds (<[newguy := cwd]> (t_cwd st)) st)
  | None => Ret st
  end.

(** ** vfslookup.c *)

Definition COLON : Z := 58.
Definition SLASH : Z := 47.

(** The first colon or slash: [colon] and [slash]. *)
Definition find_sep (path : list Z) : outcome (Z * Z) :=
  scan path 0 (λ i c (_ : ()),
    Ret (if bool_decide (c = 0) then inr (-1, -1)
         else if bool_decide (c = COLON) then inr (i, -1)
         else if bool_decide (c = SLASH) then inr (-1, i) else inl ())) ().

(** [while (path[p+1] == '/') p++]. *)
Definition skip_slashes (path : list Z) (p : Z) : outcome Z :=
  scan path (p + 1) (λ i c (_ : ()), Ret (if bool_decide (c = SLASH) then inl () else inr (i - 1))) ().

(** Paths that begin with a slash, at the root of the boot file system. *)
Definition boot_start (st : state) : outcome (state * result vptr) :=
  st ← acquire_bootfs st;
  match bootfs_vnode st with
  | None => Ret (release_bootfs st, inl ENOENT)
  | Some vn => st ← VOP_INCREF vn st; Ret (release_bootfs st, inr vn)
  end.

(** Paths that begin with a colon, at the root of the current file system. *)
Definition curfs_start (st : state) : outcome (state * result vptr) :=
  '(st, r) ← vfs_getcurdir st;
  match r with
  | inl e => Ret (st, inl e)
  | inr vn =>
      c_assert (bool_decide (vn_fs vn ≠ None));;
      f ← the (vn_fs vn);
      '(st, startvn) ← fsop_getroot f st;
      st ← VOP_DECREF vn st;
      Ret (st, inr startvn)
  end.

(** Where the lookup begins, and the path from there; the device name is cut off
    within the path. *)
Definition getdevice (path : list Z) (st : state) : outcome (state * list Z * result (list Z * vptr)) :=
  '(colon, slash) ← find_sep path;
  if bool_decide (colon < 0) && bool_decide (slash ≠ 0) then
    '(st, r) ← vfs_getcurdir st;
    Ret (st, path, match r with inl e => inl e | inr vn => inr (path, vn) end)
  else if bool_decide (0 < colon) then
    path ← wr path colon 0;
    p ← skip_slashes path colon;
    '(st, r) ← vfs_getroot path st;
    Ret (st, path, match r with inl e => inl e | inr vn => inr (drop (Z.to_nat (p + 1)) path, vn) end)
  else
    c_assert (bool_decide (colon = 0) || bool_decide (slash = 0));;
    c ← rd path 0;
    '(st, r) ← (if bool_decide (c = SLASH) then boot_start st
                else c_assert (bool_decide (c = COLON));; curfs_start st);
    match r with
    | inl e => Ret (st, path, inl e)
    | inr vn => p ← skip_slashes path 0; Ret (st, path, inr (drop (Z.to_nat (p + 1)) path, vn))
    end.

Definition vfs_lookparent (path buf : list Z) (st : state) : outcome (state * list Z * result vptr) :=
  '(st, _, r) ← getdevice path st;
  match r with
  | inl e => Ret (st, buf, inl e)
  | inr (path, startvn) =>
      n ← strlen path;
      '(st, buf, r) ← (if bool_decide (n = 0) then Ret (st, buf, inl EINVAL) else VOP_LOOKPARENT startvn path buf st);
      st ← VOP_DECREF startvn st;
      Ret (st, buf, r)
  end.

Definition vfs_lookup (path : list Z) (st : state) : outcome (state * result vptr) :=
  '(st, _, r) ← getdevice path st;
  match r with
  | inl e => Ret (st, inl e)
  | inr (path, startvn) =>
      n ← strlen path;
      if bool_decide (n = 0) then Ret (st, inr startvn)
      else
        '(st, r) ← VOP_LOOKUP startvn path st;
        st ← VOP_DECREF startvn st;
        Ret (st, r)
  end.

Definition vfs_chdir (path : list Z) (st : state) : outcome (Z * state) :=
  '(st, r) ← vfs_lookup path st;
  match r with
  | inl e => Ret (e, st)
  | inr vn =>
      '(result, st) ← vfs_setcurdir vn st;
      st ← VOP_DECREF vn st;
      Ret (result, st)
  end.

Definition change_bootfs (newguy : option vptr) (st : state) : outcome state :=
  st ← acquire_bootfs st;
  let oldguy := bootfs_vnode st in
  decref_old oldguy (release_bootfs (set_bootfs newguy st)).

Definition format_s : list Z := [37; 115; 0].
Definition string_colon : list Z := [58; 0].

Definition vfs_setbootfs (fsname : list Z) (st : state) : outcome (Z * state) :=
  '(_, tmp) ← vsnprintf stack (len stack - 1) format_s [AStr (Some fsname)];
  s ← strchr tmp COLON;
  tmp ← match s with
        | Some p => n ← strlen_at tmp p; Ret (if bool_decide (0 < n) then None else Some tmp)
        | None => tmp ← strcat tmp string_colon; Ret (Some tmp)
        end;
  match tmp with
  | None => Ret (EINVAL, st)
  | Some tmp =>
      '(result, st) ← vfs_chdir tmp st;
      if bool_decide (result ≠ 0) then Ret (result, st)
      else
        '(st, r) ← vfs_getcurdir st;
        match r with
        | inl e => Ret (e, st)
        | inr newguy => st ← change_bootfs (Some newguy) st; Ret (0, st)
        end
  end.

Definition vfs_clearbootfs : state → outcome state := change_bootfs None.

(** The name of the directory, as "volume:". *)
Definition vfs_getcwd (present : Z → bool) (space : Z) (m : memory) (u : uio) (st : state) : outcome (Z * (memory * uio) * state) :=
  c_assert (bool_decide (uio_dir u = UIO_READ));;
  '(st, r) ← vfs_getcurdir st;
  match r with
  | inl e => Ret (e, (m, u), st)
  | inr cwd =>
      c_assert (bool_decide (vn_fs cwd ≠ None));;
      f ← the (vn_fs cwd);
      volname ← volname_of f st;
      '(st, name) ← match volname with Some v => Ret (st, Some v) | None => vfs_getdevname f st end;
      c_assert (bool_decide (name ≠ None));;
      name ← the name;
      n ← strlen name;
      '(e, m, _, u) ← uiomove present space m name n u;
      '(e, m, u) ← (if bool_decide (e ≠ 0) then Ret (e, m, u)
                    else '(e, m, _, u) ← uiomove present space m [COLON] 1 u;
                         if bool_decide (e ≠ 0) then Ret (e, m, u) else e ← VOP_OTHER vop_namefile cwd st; Ret (e, m, u));
      st ← VOP_DECREF cwd st;
      Ret (e, (m, u), st)
  end.

(** ** vfspath.c *)

(** [canwrite], or nothing if the flags make no sense. *)
Definition open_mode (openflags : Z) : option bool :=
  let how := Z.land openflags O_ACCMODE in
  if bool_decide (how = 0) then Some false
  else if bool_decide (how = 1) || bool_decide (how = 2) then Some true
  else None.

(** The vnode, created if that is asked for. *)
Definition open_vnode (path : list Z) (openflags : Z) (st : state) : outcome (state * result vptr) :=
  if bool_decide (Z.land openflags O_CREAT ≠ 0) then
    '(st, name, r) ← vfs_lookparent path stack st;
    match r with
    | inl e => Ret (st, inl e)
    | inr dir =>
        '(st, r) ← VOP_CREAT dir name (bool_decide (Z.land openflags O_EXCL ≠ 0)) st;
        st ← VOP_DECREF dir st;
        Ret (st, r)
    end
  else vfs_lookup path st.

Definition vfs_open (path : list Z) (openflags : Z) (st : state) : outcome (state * result vptr) :=
  match open_mode openflags with
  | None => Ret (st, inl EINVAL)
  | Some canwrite =>
      '(st, r) ← open_vnode path openflags st;
      match r with
      | inl e => Ret (st, inl e)
      | inr vn =>
          result ← VOP_OPEN vn openflags st;
          if bool_decide (result ≠ 0) then st ← VOP_DECREF vn st; Ret (st, inl result)
          else
            st ← VOP_INCOPEN vn st;
            '(result, st) ← (if bool_decide (Z.land openflags O_TRUNC ≠ 0) then
                               if negb canwrite then Ret (EINVAL, st) else VOP_TRUNCATE vn 0 st
                             else Ret (0, st));
            if bool_decide (result ≠ 0) then st ← VOP_DECOPEN vn st; st ← VOP_DECREF vn st; Ret (st, inl result)
            else
              let '(l, st) := lock_create st in
              Ret (set_rw (<[vn := l]> (rw_lock st)) (locks st) st, inr vn)
      end
  end.

(** The field [rw_lock] of a vnode that has not been opened holds anything. *)
Definition vfs_close (vn : vptr) (st : state) : outcome state :=
  l ← the (rw_lock st !! vn);
  st ← lock_destroy l st;
  st ← VOP_DECOPEN vn st;
  VOP_DECREF vn st.

(** The last component of the path, and what is done with it in its directory. *)
Definition in_parent (path : list Z) (act : vptr → list Z → state → outcome (Z * state)) (st : state) : outcome (Z * state) :=
  '(st, name, r) ← vfs_lookparent path stack st;
  match r with
  | inl e => Ret (e, st)
  | inr dir =>
      '(result, st) ← act dir name st;
      st ← VOP_DECREF dir st;
      Ret (result, st)
  end.
Definition vfs_remove (path : list Z) : state → outcome (Z * state) := in_parent path VOP_REMOVE.
Definition vfs_symlink (path : list Z) : state → outcome (Z * state) := in_parent path (λ dir _ st, e ← VOP_OTHER vop_symlink dir st; Ret (e, st)).
Definition vfs_mkdir (path : list Z) : state → outcome (Z * state) := in_parent path (λ dir _ st, e ← VOP_OTHER vop_mkdir dir st; Ret (e, st)).
Definition vfs_rmdir (path : list Z) : state → outcome (Z * state) := in_parent path (λ dir _ st, e ← VOP_OTHER vop_rmdir dir st; Ret (e, st)).

Definition vfs_readlink (path : list Z) (st : state) : outcome (Z * state) :=
  '(st, r) ← vfs_lookup path st;
  match r with
  | inl e => Ret (e, st)
  | inr vn => e ← VOP_OTHER vop_readlink vn st; st ← VOP_DECREF vn st; Ret (e, st)
  end.

(** Two vnodes, in one file system. *)
Definition same_fs (a b : vptr) : bool := bool_decide (vn_fs a ≠ None) && bool_decide (vn_fs a = vn_fs b).
Definition with_both (vn1 vn2 : vptr) (act : state → outcome (Z * state)) (st : state) : outcome (Z * state) :=
  '(result, st) ← (if same_fs vn1 vn2 then act st else Ret (EXDEV, st));
  st ← VOP_DECREF vn2 st;
  st ← VOP_DECREF vn1 st;
  Ret (result, st).

Definition vfs_rename (oldpath newpath : list Z) (st : state) : outcome (Z * state) :=
  '(st, oldname, r) ← vfs_lookparent oldpath stack st;
  match r with
  | inl e => Ret (e, st)
  | inr olddir =>
      '(st, newname, r) ← vfs_lookparent newpath stack st;
      match r with
      | inl e => st ← VOP_DECREF olddir st; Ret (e, st)
      | inr newdir => with_both olddir newdir (VOP_RENAME olddir oldname newdir newname) st
      end
  end.

Definition vfs_link (oldpath newpath : list Z) (st : state) : outcome (Z * state) :=
  '(st, r) ← vfs_lookup oldpath st;
  match r with
  | inl e => Ret (e, st)
  | inr oldfile =>
      '(st, newname, r) ← vfs_lookparent newpath stack st;
      match r with
      | inl e => st ← VOP_DECREF oldfile st; Ret (e, st)
      | inr newdir => with_both oldfile newdir (VOP_LINK newdir newname oldfile) st
      end
  end.
End vfs.

(** ** devnull.c and vfs_bootstrap *)

Section bootstrap.
Context {D S : Type} (fsops : nat → FsOps D S) (nomem : nat → bool) (nothing : D).

Definition nullio (m : memory) (u : uio) (x : D) : outcome (Z * (memory * uio * D)) :=
  Ret (0, (m, (if decide (uio_dir u = UIO_WRITE) then Uio (iov_base u) (iov_len u) (uio_offset u) 0 (uio_segflg u) (uio_dir u) (uio_space u) else u), x)).
Definition null_device : device D := Device (λ _, 0) 0 nullio EINVAL 0 1 nothing.
Definition string_null : list Z := [110; 117; 108; 108; 0].

Definition devnull_create (st : vfs D S) : outcome (vfs D S) :=
  match kmalloc nomem st with
  | (None, _) => Panic
  | (Some a, st) =>
      '(result, st) ← vfs_adddev fsops nomem string_null a false (set_devices (<[a := null_device]> (devices st)) st);
      if bool_decide (result ≠ 0) then Panic else Ret st
  end.

Definition vfs_initbootfs (st : vfs D S) : outcome (vfs D S) :=
  match lock_create nomem st with (None, _) => Panic | (Some _, st) => Ret st end.

(** [n]: how many allocations there have been. *)
Definition vfs_bootstrap (n : nat) : outcome (vfs D S) :=
  let st := Vfs (Array 0 0 None) ∅ ∅ ∅ ∅ None ∅ ∅ ∅ false false n in
  match array_create (negb (nomem n)) with
  | None => Panic
  | Some a =>
      match lock_create nomem (set_knowndevs a (set_nmalloc (Datatypes.S n) st)) with
      | (None, _) => Panic
      | (Some _, st) => st ← vfs_initbootfs st; devnull_create st
      end
  end.
End bootstrap.
