(* ===== verification/VfsPath.v ===== *)
(** * Paths: what getdevice makes of them

    A path is relative to the working directory, or begins at the root of the
    boot file system ("/..."), at the root of the current file system (":...") or
    at a device or volume ("name:..."). [parse] says so for strings; the code
    works in place. *)

From S2P Require Import Prelude CArray KHeap KHeapSpec Coremap Uio CString FileSys Vfs.

Inductive place := Relative | Root | Volume | Named (name : list Z).

Definition plain (c : Z) : bool := negb (bool_decide (c = COLON)) && negb (bool_decide (c = SLASH)).
Definition is_slash (c : Z) : bool := bool_decide (c = SLASH).

(** Where a path begins, and what is left of it. *)
Definition parse (w : list Z) : place * list Z :=
  match after plain w with
  | [] => (Relative, w)
  | c :: rest =>
      match before plain w with
      | [] => (if bool_decide (c = SLASH) then Root else Volume, after is_slash rest)
      | name => if bool_decide (c = SLASH) then (Relative, w) else (Named name, after is_slash rest)
      end
  end.

Lemma after_suffix f l : ∃ l', l = l' ++ after f l.
Proof. exists (before f l). by rewrite before_after. Qed.

Lemma after_nonzero f l : nonzero l → nonzero (after f l).
Proof. intros H. destruct (after_suffix f l) as [l' Hl]. rewrite Hl in H. by apply Forall_app in H as [_ ?]. Qed.

Lemma parse_nonzero w : nonzero w → nonzero (parse w).2.
Proof.
  intros Hw. unfold parse. pose proof (after_nonzero plain w Hw) as Ha. destruct (after plain w) as [|c rest]; [done|].
  apply Forall_cons in Ha as [_ Ha]. destruct (before plain w); simpl; [by apply after_nonzero|]. case_bool_decide; [done|]. by apply after_nonzero.
Qed.

Lemma find_sep_ok w t : nonzero w → find_sep (w ++ 0 :: t) = Ret (match after plain w with
  | [] => (-1, -1)
  | c :: _ => if bool_decide (c = COLON) then (len (before plain w), -1) else (-1, len (before plain w))
  end).
Proof.
  intros Hw. unfold find_sep. assert (Hsplit : ∃ t', w ++ 0 :: t = before plain w ++ match after plain w with [] => 0 | c :: _ => c end :: t').
  { pose proof (before_after plain w) as Hba. destruct (after plain w) as [|c rest]; [exists t|exists (rest ++ 0 :: t)]; rewrite <- Hba at 1;
      [by rewrite app_nil_r|by rewrite <- app_assoc]. }
  destruct Hsplit as [t' ->]. pose proof (before_all plain w) as Hall. pose proof (after_head plain w) as Hhead.
  assert (Hb : nonzero (before plain w)) by (rewrite <- (before_after plain w) in Hw; by apply Forall_app in Hw as [? _]).
  pose proof (after_nonzero plain w Hw) as Ha. set (pre := before plain w) in *. set (a := after plain w) in *.
  match goal with |- scan _ _ ?body _ = Ret ?r => destruct (scan_start body (λ _ _, True) (λ x, x = r) pre (match a with [] => 0 | c :: _ => c end) t' ()) as (x & -> & ->) end; [done| | |done].
  - intros i d [] Hd _. left. exists (). split; [|done]. rewrite (bool_decide_eq_false_2 (d = 0)) by (by eapply Forall_lookup_1 in Hb).
    eapply Forall_lookup_1 in Hall; [|exact Hd]. simpl in Hall. unfold plain in Hall. cbool. by rewrite (bool_decide_eq_false_2 (d = COLON)), (bool_decide_eq_false_2 (d = SLASH)) by done.
  - intros [] _. eexists. split; [|reflexivity]. destruct a as [|c rest]; [done|]. pose proof (Hhead c rest eq_refl) as Hc. apply Forall_cons in Ha as [Hc0 _].
    rewrite (bool_decide_eq_false_2 (c = 0)) by done. case_bool_decide as H1; [done|]. unfold plain in Hc. rewrite (bool_decide_eq_false_2 (c = COLON)) in Hc by done.
    simpl in Hc. cbool. by rewrite (bool_decide_eq_true_2 (c = SLASH)).
Qed.

(** Slashes behind [pre] are skipped. *)
Lemma skip_slashes_ok pre c s t : nonzero s → skip_slashes ((pre ++ [c]) ++ s ++ 0 :: t) (len pre) = Ret (len pre + len (before is_slash s)) .
Proof.
  intros Hs. unfold skip_slashes. replace (len pre + 1) with (len (pre ++ [c])) by (rewrite length_app; simpl; lia).
  pose proof (before_all is_slash s) as Hall. pose proof (after_head is_slash s) as Hhead.
  assert (Hsplit : ∃ t' e, after is_slash s ++ 0 :: t = e :: t' ∧ e ≠ SLASH).
  { pose proof (after_nonzero is_slash s Hs) as Ha. destruct (after is_slash s) as [|e rest]; [by exists t, 0|]. exists (rest ++ 0 :: t), e. split; [done|].
    specialize (Hhead e rest eq_refl). unfold is_slash in Hhead. by cbool. }
  destruct Hsplit as (t' & e & Heq & He).
  replace (s ++ 0 :: t) with (before is_slash s ++ e :: t') by (rewrite <- Heq, app_assoc; by rewrite before_after). set (sl := before is_slash s) in *.
  match goal with |- scan _ _ ?body _ = Ret ?r => destruct (scan_string_ok body (λ _ _, True) (λ x, x = r) (pre ++ [c]) sl e t' ()) as (x & -> & ->) end; [done| | |done].
  - intros i d [] Hd _. left. exists (). split; [|done]. eapply Forall_lookup_1 in Hall; [|exact Hd]. unfold is_slash in Hall. by rewrite Hall.
  - intros [] _. rewrite bool_decide_eq_false_2 by done. eexists. split; [done|]. rewrite length_app. simpl. lia.
Qed.

Lemma skipped pre c s t : drop (Z.to_nat (len pre + len (before is_slash s) + 1)) ((pre ++ [c]) ++ s ++ 0 :: t) = after is_slash s ++ 0 :: t.
Proof.
  rewrite <- (before_after is_slash s) at 2. rewrite <- (app_assoc (before is_slash s)), app_assoc. apply drop_app_length'.
  rewrite !length_app. simpl. lia.
Qed.

Section getdevice.
Context {D S : Type} (fsops : nat → FsOps D S) (curthread : nat).

(** Where the lookup begins; [t] is what follows the name in memory. *)
Definition start (t : list Z) (pl : place) (st : vfs D S) : outcome (vfs D S * result vptr) :=
  match pl with
  | Relative => vfs_getcurdir fsops curthread st
  | Root => boot_start fsops st
  | Volume => curfs_start fsops curthread st
  | Named name => vfs_getroot fsops (name ++ 0 :: t) st
  end.

Definition from_start (sub : list Z) (path : list Z) '(st, r) : vfs D S * list Z * result (list Z * vptr) :=
  (st, path, match r with inl e => inl e | inr vn => inr (sub, vn) end).

Lemma getdevice_ok w t st : nonzero w → ∃ path' t', getdevice fsops curthread (w ++ 0 :: t) st =
  (x ← start t' (parse w).1 st; Ret (from_start ((parse w).2 ++ 0 :: t) path' x)).
Proof.
  intros Hw. unfold getdevice. rewrite find_sep_ok by done. ostep. unfold parse. pose proof (before_after plain w) as Hba. pose proof (after_nonzero plain w Hw) as Ha.
  pose proof (after_head plain w) as Hhead. assert (Hrel : ∃ path' t', ('(st0, r) ← vfs_getcurdir fsops curthread st; Ret (st0, w ++ 0 :: t, match r with inl e => inl e | inr vn => inr (w ++ 0 :: t, vn) end)) =
    (x ← start t' Relative st; Ret (from_start (w ++ 0 :: t) path' x))).
  { exists (w ++ 0 :: t), []. simpl. by destruct (vfs_getcurdir _ _ _) as [[? []]| | |]. }
  destruct (after plain w) as [|c rest]; [exact Hrel|].
  specialize (Hhead c rest eq_refl). apply Forall_cons in Ha as [Hc0 Hrest]. assert (Hc : c = COLON ∨ c = SLASH).
  { unfold plain in Hhead. destruct (bool_decide_reflect (c = COLON)), (bool_decide_reflect (c = SLASH)); tauto || done. }
  destruct (before plain w) as [|x name] eqn:Hn; simpl length.
  - exists (w ++ 0 :: t), []. assert (Hrd : rd (w ++ 0 :: t) 0 = Ret c) by (rewrite <- Hba; by apply rd_lookup).
    assert (Hskip : skip_slashes (w ++ 0 :: t) 0 = Ret (len (before is_slash rest))) by (rewrite <- Hba; by apply (skip_slashes_ok [] c rest t)).
    assert (Hdrop : drop (Z.to_nat (len (before is_slash rest) + 1)) (w ++ 0 :: t) = after is_slash rest ++ 0 :: t) by (rewrite <- Hba; by apply (skipped [] c rest t)).
    destruct Hc as [-> | ->].
    + change (bool_decide (COLON = COLON)) with true. change (bool_decide (COLON = SLASH)) with false. change (bool_decide (Z.of_nat 0 < 0)) with false.
      cbn [andb fst snd start]. change (bool_decide (0 < Z.of_nat 0)) with false. cbv iota. rewrite assert_true by done. ostep. rewrite Hrd. ostep.
      change (bool_decide (COLON = SLASH)) with false. cbv iota. rewrite assert_true by done. ostep.
      destruct (curfs_start _ _ _) as [[s' [e|vn]]| | |]; try done. ostep. rewrite Hskip. ostep. by rewrite Hdrop.
    + change (bool_decide (SLASH = COLON)) with false. change (bool_decide (SLASH = SLASH)) with true. change (bool_decide (-1 < 0)) with true.
      change (bool_decide (Z.of_nat 0 ≠ 0)) with false. cbn [andb fst snd start]. change (bool_decide (0 < -1)) with false. cbv iota. rewrite assert_true by done. ostep. rewrite Hrd. ostep.
      change (bool_decide (SLASH = SLASH)) with true. cbv iota. destruct (boot_start _ _) as [[s' [e|vn]]| | |]; try done. ostep. rewrite Hskip. ostep. by rewrite Hdrop.
  - set (full := x :: name) in *. replace (Z.of_nat (Datatypes.S (length name))) with (len full) by done. assert (0 < len full) by (simpl; lia).
    destruct Hc as [-> | ->].
    2: { change (bool_decide (SLASH = COLON)) with false. change (bool_decide (SLASH = SLASH)) with true. cbv iota. by rewrite bool_decide_eq_true_2, bool_decide_eq_true_2 by lia. }
    change (bool_decide (COLON = COLON)) with true. change (bool_decide (COLON = SLASH)) with false. cbv iota.
    rewrite (bool_decide_eq_false_2 (len full < 0)), (bool_decide_eq_true_2 (0 < len full)) by lia. cbn [andb].
    assert (Hwr : wr (w ++ 0 :: t) (len full) 0 = Ret ((full ++ [0]) ++ rest ++ 0 :: t)).
    { rewrite wr_in_range by (rewrite <- Hba, !length_app; simpl; lia). rewrite <- Hba, <- !app_assoc. rewrite Nat2Z.id.
      replace (length full) with (length full + 0)%nat by lia. by rewrite insert_app_r. }
    rewrite Hwr. ostep. rewrite skip_slashes_ok by done. ostep. rewrite skipped. exists ((full ++ [0]) ++ rest ++ 0 :: t), (rest ++ 0 :: t).
    cbn [fst snd start]. replace ((full ++ [0]) ++ rest ++ 0 :: t) with (full ++ 0 :: rest ++ 0 :: t) by (by rewrite <- app_assoc).
    by destruct (vfs_getroot _ _ _) as [[s' [e|vn]]| | |].
Qed.
End getdevice.
