(* ===== verification/VfsInv.v ===== *)
(** * The VFS layer: abstract state, invariant and reference accounting

    Above the file systems the VFS layer keeps a table of names, the boot file
    system and a working directory per thread: [vsys]. References are accounted
    for exactly: the references to a vnode that are not needed by an open file
    are those of the layer itself, [holds], and those in the hands of the caller,
    a multiset [E]. *)

From stdpp Require Import gmultiset.
From S2P Require Import Prelude CArray KHeap KHeapSpec Coremap Uio CString SfsTheorems SfsTree SfsOps SfsLoad SfsNames FileSys Vfs VfsPath.

Lemma multiplicity_add (u v : vptr) (E : gmultiset vptr) : multiplicity u (E ⊎ {[+ v +]}) = (multiplicity u E + if decide (u = v) then 1 else 0)%nat.
Proof. by rewrite multiplicity_disj_union, multiplicity_singleton. Qed.

Lemma multiplicity_take (u v : vptr) (E : gmultiset vptr) : multiplicity u (E ∖ {[+ v +]}) = (multiplicity u E - if decide (u = v) then 1 else 0)%nat.
Proof. by rewrite multiplicity_difference, multiplicity_singleton. Qed.

(** ** The abstract state *)

(** A device with its names; [e_fs] is the mounted file system with the name of
    its volume. *)
Record entry := Entry { e_name : list Z; e_raw : option (list Z); e_dev : option nat; e_vnode : nat; e_fs : option (nat * option (list Z)) }.

(** [y_cwd]: the file systems the threads are in; [y_disks]: the devices that can
    be mounted; [y_drv]: what opening the devices gives; [y_devs]: how often the
    vnodes of devices are open, and their devices; [y_locked]: the vnodes with a
    valid lock. *)
Record vsys := Vsys {
  y_table : list entry;
  y_fs : gmap nat fsys;
  y_boot : option nat;
  y_cwd : gmap nat nat;
  y_disks : gmap nat fsys;
  y_drv : gmap nat (Z → Z);
  y_devs : gmap nat (Z * option nat);
  y_locked : gset vptr
}.

Definition set_fs (f : nat) (A : fsys) (Y : vsys) : vsys := Vsys (y_table Y) (<[f := A]> (y_fs Y)) (y_boot Y) (y_cwd Y) (y_disks Y) (y_drv Y) (y_devs Y) (y_locked Y).
Definition set_cwd (t : nat) (x : option nat) (Y : vsys) : vsys := Vsys (y_table Y) (y_fs Y) (y_boot Y) (partial_alter (λ _, x) t (y_cwd Y)) (y_disks Y) (y_drv Y) (y_devs Y) (y_locked Y).
Definition set_boot (x : option nat) (Y : vsys) : vsys := Vsys (y_table Y) (y_fs Y) x (y_cwd Y) (y_disks Y) (y_drv Y) (y_devs Y) (y_locked Y).
Definition set_locked (L : gset vptr) (Y : vsys) : vsys := Vsys (y_table Y) (y_fs Y) (y_boot Y) (y_cwd Y) (y_disks Y) (y_drv Y) (y_devs Y) L.
Definition set_open (k : nat) (x : Z * option nat) (Y : vsys) : vsys := Vsys (y_table Y) (y_fs Y) (y_boot Y) (y_cwd Y) (y_disks Y) (y_drv Y) (<[k := x]> (y_devs Y)) (y_locked Y).

(** References to [p] that no open file needs. *)
Definition spare_refs (R : reftab) (p : nat) : Z := match R !! p with Some (_, rc, oc) => rc - oc | None => 0 end.

(** What a vnode stands for. *)
Inductive object := ODev (k a : nat) | OFile (f : nat) (ino : Z).
Definition object_of (Y : vsys) (v : vptr) : option object :=
  match v with
  | VDev k => '(_, data) ← y_devs Y !! k; a ← data; Some (ODev k a)
  | VFs f p => A ← y_fs Y !! f; '(ino, _, _) ← f_refs A !! p; Some (OFile f ino)
  end.

(** ** References come and go *)

(** From [R] with [E] to [R'] with [E'], at the file system [f]: the difference
    between references and what is accounted for stays, and a vnode stays the
    vnode of its file. *)
Definition accounts (f : nat) (R : reftab) (E : gmultiset vptr) (R' : reftab) (E' : gmultiset vptr) : Prop :=
  (∀ p, spare_refs R' p - Z.of_nat (multiplicity (VFs f p) E') = spare_refs R p - Z.of_nat (multiplicity (VFs f p) E)) ∧
  (∀ v, vn_fs v ≠ Some f → multiplicity v E' = multiplicity v E) ∧
  ∀ p ino rc oc ino' rc' oc', R !! p = Some (ino, rc, oc) → R' !! p = Some (ino', rc', oc') → ino' = ino.

Lemma accounts_same f R E : accounts f R E R E.
Proof. split; [done|]. split; [done|]. intros. by simplify_eq. Qed.

Lemma spare_insert R p x q : spare_refs (<[p := x]> R) q = if decide (q = p) then x.1.2 - x.2 else spare_refs R q.
Proof. unfold spare_refs. case_decide as H; [subst; rewrite lookup_insert_eq; by destruct x as [[]]|]. by rewrite lookup_insert_ne by done. Qed.

Lemma accounts_ref f R E p ino rc oc rc' oc' d : R !! p = Some (ino, rc, oc) → rc' - oc' = rc - oc + d →
  (d = 1 → accounts f R E (<[p := (ino, rc', oc')]> R) (E ⊎ {[+ VFs f p +]})) ∧
  (d = -1 → VFs f p ∈ E → accounts f R E (<[p := (ino, rc', oc')]> R) (E ∖ {[+ VFs f p +]})).
Proof.
  intros Hp Hd. assert (Hsp : spare_refs R p = rc - oc) by (unfold spare_refs; by rewrite Hp).
  assert (Hino : ∀ q i r o i' r' o', R !! q = Some (i, r, o) → <[p := (ino, rc', oc')]> R !! q = Some (i', r', o') → i' = i).
  { intros q i r o i' r' o' Hq Hq'. destruct (decide (q = p)) as [->|]; [rewrite lookup_insert_eq in Hq'|rewrite lookup_insert_ne in Hq' by done]; by simplify_eq. }
  split; intros ->; [|intros Hin]; split_and!; try done.
  - intros q. rewrite spare_insert, multiplicity_add. destruct (decide (q = p)) as [->|Hq]; [rewrite decide_True by done; simpl; lia|rewrite decide_False by congruence; lia].
  - intros v Hv. rewrite multiplicity_add, decide_False; [lia|]. by intros ->.
  - intros q. assert (0 < multiplicity (VFs f p) E)%nat by (by apply elem_of_multiplicity). rewrite spare_insert, multiplicity_take.
    destruct (decide (q = p)) as [->|Hq]; [rewrite decide_True by done; simpl; lia|rewrite decide_False by congruence; lia].
  - intros v Hv. rewrite multiplicity_take, decide_False; [lia|]. by intros ->.
Qed.

Lemma accounts_loaded f R E ino p R' : ref_loaded R ino p R' → accounts f R E R' (E ⊎ {[+ VFs f p +]}).
Proof.
  intros [(rc & oc & Hp & ->)|(Hp & _ & ->)]; [eapply (accounts_ref f R E p ino rc oc (rc + 1) oc 1); [done|lia|done]|].
  assert (Hsp : spare_refs R p = 0) by (unfold spare_refs; by rewrite Hp). split_and!.
  - intros q. rewrite spare_insert, multiplicity_add. destruct (decide (q = p)) as [->|Hq]; [rewrite decide_True by done; simpl; lia|rewrite decide_False by congruence; lia].
  - intros v Hv. rewrite multiplicity_add, decide_False; [lia|]. by intros ->.
  - intros q i r o i' r' o' Hq Hq'. destruct (decide (q = p)) as [->|]; [congruence|rewrite lookup_insert_ne in Hq' by done]. by simplify_eq.
Qed.

Lemma accounts_lost f R E p ino rc oc : R !! p = Some (ino, rc, oc) → 0 ≤ oc < rc → VFs f p ∈ E → accounts f R E (ref_lost R p) (E ∖ {[+ VFs f p +]}).
Proof.
  intros Hp Hc Hin. unfold ref_lost. rewrite Hp. case_decide as H1; [eapply (accounts_ref f R E p ino rc oc (rc - 1) oc (-1)); [done|lia|done|done]|].
  assert (Hsp : spare_refs R p = 1) by (unfold spare_refs; rewrite Hp; lia). assert (0 < multiplicity (VFs f p) E)%nat by (by apply elem_of_multiplicity). split_and!.
  - intros q. rewrite multiplicity_take. case_decide as Hq; simplify_eq.
    + unfold spare_refs at 1. rewrite lookup_delete_eq. lia.
    + unfold spare_refs. rewrite lookup_delete_ne by congruence. lia.
  - intros v Hv. rewrite multiplicity_take, decide_False; [lia|]. by intros ->.
  - intros q i r o i' r' o' Hq [_ Hq']%lookup_delete_Some. by simplify_eq.
Qed.
(** ** What an operation changes *)

Definition opens (R : reftab) (p : nat) : option (Z * Z) :=
  match R !! p with Some (ino, _, oc) => if decide (0 < oc) then Some (ino, oc) else None | None => None end.

Definition empty_file (f : afile) : Prop := a_size f = 0 ∧ ∀ q, 0 ≤ q → a_byte f q = 0.

(** The names are now [M], the files in [X] are empty, the open ones are [O]. *)
Definition change (M : names) (X : gset Z) (O : nat → option (Z * Z)) (A A' : fsys) : Prop :=
  f_names A' = M ∧ same_files A A' X ∧ (∀ ino f, ino ∈ X → f_files A' !! ino = Some f → empty_file f) ∧ ∀ p, opens (f_refs A') p = O p.

(** Nothing but references. *)
Definition calm (A A' : fsys) : Prop := change (f_names A) ∅ (opens (f_refs A)) A A'.

Lemma calm_refl A : calm A A.
Proof. split; [done|]. split; [apply same_files_refl|]. by split. Qed.
Lemma change_trans M M' X X' O O' A A1 A2 : change M X O A A1 → change M' X' O' A1 A2 → change M' (X ∪ X') O' A A2.
Proof.
  intros (Hn1 & Hf1 & He1 & Ho1) (Hn2 & Hf2 & He2 & Ho2). split; [done|]. split; [|split; [|done]].
  - intros ino f2 Hin H2. destruct (Hf2 ino f2) as (f1 & H1 & Hs & Hb); [set_solver|done|]. destruct (Hf1 ino f1) as (f & H & Hs' & Hb'); [set_solver|done|].
    exists f. split; [done|]. split; [congruence|]. intros q Hq. by rewrite Hb, Hb'.
  - intros ino f2 Hin H2. destruct (decide (ino ∈ X')) as [Hx|Hx]; [by eapply He2|]. destruct (Hf2 ino f2 Hx H2) as (f1 & H1 & Hs & Hb).
    destruct (He1 ino f1) as [Hs1 Hb1]; [set_solver|done|]. split; [congruence|]. intros q Hq. by rewrite Hb, Hb1.
Qed.
Lemma change_calm M X O A A1 A2 : change M X O A A1 → calm A1 A2 → change M X O A A2.
Proof.
  intros H1 H2. pose proof (change_trans _ _ _ _ _ _ _ _ _ H1 H2) as (Hn & Hs & He & Ho). destruct H1 as (Hn1 & _ & _ & Ho1). rewrite (union_empty_r_L X) in Hs, He.
  split; [congruence|]. split; [done|]. split; [done|]. intros p. by rewrite Ho, Ho1.
Qed.
Lemma calm_change M X O A A1 A2 : calm A A1 → change M X O A1 A2 → change M X O A A2.
Proof. intros H1 H2. pose proof (change_trans _ _ _ _ _ _ _ _ _ H1 H2) as H. by rewrite (union_empty_l_L X) in H. Qed.
Lemma calm_trans A A1 A2 : calm A A1 → calm A1 A2 → calm A A2.
Proof. apply change_calm. Qed.

(** The same table, directories and disks, the file systems related by [C]; the
    vnodes in [E] stand for what they did. *)
Definition fs_by (C : nat → fsys → fsys → Prop) (Y Y' : vsys) : Prop :=
  ∀ f, match y_fs Y !! f, y_fs Y' !! f with Some A, Some A' => C f A A' | None, None => True | _, _ => False end.
Definition same_rest (Y Y' : vsys) : Prop :=
  y_table Y' = y_table Y ∧ y_boot Y' = y_boot Y ∧ y_cwd Y' = y_cwd Y ∧ y_disks Y' = y_disks Y ∧ y_drv Y' = y_drv Y ∧ y_devs Y' = y_devs Y ∧ y_locked Y' = y_locked Y.

Record shifts (C : nat → fsys → fsys → Prop) (E : gmultiset vptr) (Y Y' : vsys) : Prop := {
  sh_rest : same_rest Y Y';
  sh_fs : fs_by C Y Y';
  sh_object : ∀ v, v ∈ E → object_of Y' v = object_of Y v
}.
Abbreviation calmly := (shifts (λ _, calm)).

(** Changes in the file system [f] only. *)
Definition within (f : nat) (C : fsys → fsys → Prop) (g : nat) : fsys → fsys → Prop := if decide (g = f) then C else calm.

Lemma shifts_trans (C C1 C2 : nat → fsys → fsys → Prop) E E1 Y Y1 Y2 : shifts C1 E Y Y1 → shifts C2 E1 Y1 Y2 → E ⊆ E1 →
  (∀ f A A1 A2, y_fs Y !! f = Some A → y_fs Y1 !! f = Some A1 → C1 f A A1 → C2 f A1 A2 → C f A A2) → shifts C E Y Y2.
Proof.
  intros [(?&?&?&?&?&?&?) Hf1 Hv1] [(?&?&?&?&?&?&?) Hf2 Hv2] Hsub HC. split.
  - split_and!; congruence.
  - intros f. specialize (Hf1 f). specialize (Hf2 f). destruct (y_fs Y !! f) eqn:?, (y_fs Y1 !! f) eqn:?, (y_fs Y2 !! f); try done. by eapply HC.
  - intros v Hv. rewrite Hv2 by multiset_solver. by apply Hv1.
Qed.
Lemma shifts_mono C E E' Y Y' : shifts C E Y Y' → E' ⊆ E → shifts C E' Y Y'.
Proof. intros [] Hsub. split; try done. intros v Hv. apply sh_object0. multiset_solver. Qed.

Lemma calmly_refl E Y : calmly E Y Y.
Proof. split; [done| |done]. intros f. destruct (y_fs Y !! f); [apply calm_refl|done]. Qed.
Lemma calmly_trans E E1 Y Y1 Y2 : calmly E Y Y1 → calmly E1 Y1 Y2 → E ⊆ E1 → calmly E Y Y2.
Proof. intros H1 H2 HE. eapply shifts_trans; [done..|]. intros g A A1 A2 _ _. apply calm_trans. Qed.
Lemma within_calmly f C E E1 Y Y1 Y2 : shifts (within f C) E Y Y1 → calmly E1 Y1 Y2 → E ⊆ E1 → (∀ A A1 A2, C A A1 → calm A1 A2 → C A A2) → shifts (within f C) E Y Y2.
Proof. intros H1 H2 HE HC. eapply shifts_trans; [done..|]. intros g A A1 A2 _ _. unfold within. case_decide; [apply HC|apply calm_trans]. Qed.
Lemma calmly_within f C E E1 Y Y1 Y2 : calmly E Y Y1 → shifts (within f C) E1 Y1 Y2 → E ⊆ E1 → (∀ A A1 A2, calm A A1 → C A1 A2 → C A A2) → shifts (within f C) E Y Y2.
Proof. intros H1 H2 HE HC. eapply shifts_trans; [done..|]. intros g A A1 A2 _ _. unfold within. case_decide; [apply HC|apply calm_trans]. Qed.

Lemma within_set E Y f (C : fsys → fsys → Prop) A A' : y_fs Y !! f = Some A → C A A' →
  (∀ p, VFs f p ∈ E → fst ∘ fst <$> f_refs A' !! p = fst ∘ fst <$> f_refs A !! p) → shifts (within f C) E Y (set_fs f A' Y).
Proof.
  intros HA Hc Hk. split; [done| |].
  - intros g. simpl. unfold within. destruct (decide (g = f)) as [->|Hne]; [by rewrite HA, lookup_insert_eq|]. rewrite lookup_insert_ne by done. destruct (y_fs Y !! g); [apply calm_refl|done].
  - intros [k|g p] Hv; [done|]. simpl. destruct (decide (g = f)) as [->|Hne]; [|by rewrite lookup_insert_ne by done]. rewrite lookup_insert_eq, HA. simpl.
    specialize (Hk p Hv). destruct (f_refs A !! p) as [[[ino rc] oc]|], (f_refs A' !! p) as [[[ino' rc'] oc']|]; simpl in *; by simplify_eq.
Qed.
Lemma within_calm f E Y Y' : shifts (within f calm) E Y Y' → calmly E Y Y'.
Proof. intros [H1 H2 H3]. split; try done. intros g. specialize (H2 g). unfold within in H2. destruct (y_fs Y !! g), (y_fs Y' !! g); try done. by destruct (decide (g = f)). Qed.

(** *** Open counts *)

Definition open_count (Y : vsys) (v : vptr) : Z :=
  match v with
  | VDev k => match y_devs Y !! k with Some (oc, _) => oc | None => 0 end
  | VFs f p => match y_fs Y !! f with Some A => match opens (f_refs A) p with Some (_, oc) => oc | None => 0 end | None => 0 end
  end.

(** [p] is now open as [x] says. *)
Definition recount (p : nat) (x : option (Z * Z)) (A A' : fsys) : Prop :=
  change (f_names A) ∅ (λ q, if decide (q = p) then x else opens (f_refs A) q) A A'.

Definition reopened (E : gmultiset vptr) (Y : vsys) (v : vptr) (oc : Z) (Y' : vsys) : Prop :=
  match v with
  | VDev k => ∃ x, y_devs Y !! k = Some x ∧ Y' = set_open k (oc, x.2) Y
  | VFs f p => ∃ ino, object_of Y v = Some (OFile f ino) ∧ shifts (within f (recount p (if decide (0 < oc) then Some (ino, oc) else None))) E Y Y'
  end.

Lemma recount_back p x A A1 A2 : recount p x A A1 → recount p (opens (f_refs A) p) A1 A2 → calm A A2.
Proof.
  intros H1 H2. pose proof (change_trans _ _ _ _ _ _ _ _ _ H1 H2) as (Hn & Hs & He & Ho). destruct H1 as (Hn1 & _ & _ & Ho1). rewrite (union_empty_r_L ∅) in Hs, He.
  split; [congruence|]. split; [done|]. split; [done|]. intros q. rewrite Ho. case_decide; [by subst|]. rewrite Ho1. by case_decide.
Qed.
Lemma recount_after p x A A1 A2 : recount p x A A1 → calm A1 A2 → recount p x A A2.
Proof. apply change_calm. Qed.
Lemma recount_before p x A A1 A2 : calm A A1 → recount p x A1 A2 → recount p x A A2.
Proof.
  intros H1 H2. pose proof (calm_change _ _ _ _ _ _ H1 H2) as (Hn & Hs & He & Ho). destruct H1 as (Hn1 & _ & _ & Ho1).
  split; [congruence|]. split; [done|]. split; [done|]. intros q. rewrite Ho. case_decide; [done|]. by rewrite Ho1.
Qed.

Section inv.
Context {D S : Type} (present : Z → bool) (space : Z) (fsops : nat → FsOps D S) (laws : ∀ f, FileSystem D S present space (H := fsops f)).
Abbreviation state := (vfs D S).

Definition shows_at (f : nat) (s : S) (A : fsys) (n : Z) : Prop := fs_shows (FileSystem := laws f) s A n.
Definition low_at (f : nat) : Prop := fs_low (FileSystem := laws f).
Definition volume (f : nat) (s : S) : option (list Z) := cut <$> fs_getvolname (FsOps := fsops f) s.

(** The table has one reference to every device. *)
Definition spare (st : state) (Y : vsys) (v : vptr) : Z :=
  match v with
  | VDev k => match dvnodes st !! k with Some dv => dv_refcount dv - dv_opencount dv - 1 | None => 0 end
  | VFs f p => match y_fs Y !! f with Some A => spare_refs (f_refs A) p | None => 0 end
  end.

(** The references of the layer itself. *)
Definition cwds (h : gmap nat vptr) (v : vptr) : Z := Z.of_nat (size (filter (λ tv : nat * vptr, tv.2 = v) h)).
Definition boots (b : option vptr) (v : vptr) : Z := if decide (b = Some v) then 1 else 0.
Definition holds (st : state) (v : vptr) : Z := boots (bootfs_vnode st) v + cwds (t_cwd st) v.

(** A string in memory. *)
Definition string_of (b w : list Z) : Prop := nonzero w ∧ ∃ t, b = w ++ 0 :: t.
Definition maybe_string (b w : option (list Z)) : Prop := match b, w with Some b, Some w => string_of b w | None, None => True | _, _ => False end.

(** A vnode of the root directory of [f]. *)
Definition root_of (Y : vsys) (v : vptr) (f : nat) : Prop := ∃ p A, v = VFs f p ∧ y_fs Y !! f = Some A ∧ is_dir (f_refs A) p.

Definition has_device (st : state) (a : option nat) : Prop := ∃ d, a = Some d ∧ is_Some (devices st !! d).

Record entry_at (st : state) (a : nat) (e : entry) : Prop := {
  en_kd : ∃ kd, kds st !! a = Some kd ∧ string_of (kd_name kd) (e_name e) ∧ maybe_string (kd_rawname kd) (e_raw e) ∧ kd_vnode kd = e_vnode e ∧
    kd_fs kd = fst <$> e_fs e ∧ kd_device kd = e_dev e;
  en_vnode : ∃ dv, dvnodes st !! e_vnode e = Some dv ∧ dv_data dv = e_dev e;
  en_dev : e_raw e ≠ None ∨ e_fs e = None → has_device st (e_dev e);
  en_fs : ∀ f vol, e_fs e = Some (f, vol) → ∃ s, fses st !! f = Some s ∧ volume f s = vol;
  en_size : e_fs e ≠ None → e_raw e ≠ None → ∃ a d, e_dev e = Some a ∧ devices st !! a = Some d ∧ d_blocksize d = 512
}.

Record vinv (st : state) (Y : vsys) (E : gmultiset vptr) (n : Z) : Prop := {
  vi_table : ∃ ks, arepr (knowndevs st) ks ∧ NoDup ks ∧ Forall2 (entry_at st) ks (y_table Y);
  vi_once : NoDup (omap (λ e, fst <$> e_fs e) (y_table Y));
  vi_fs : ∀ f, match fses st !! f, y_fs Y !! f with Some s, Some A => shows_at f s A n | None, None => True | _, _ => False end;
  vi_dev : ∀ k dv, dvnodes st !! k = Some dv → 1 ≤ dv_refcount dv ≤ n ∧ 0 ≤ dv_opencount dv < dv_refcount dv ∧
    (1 < dv_refcount dv → has_device st (dv_data dv));
  vi_open : y_devs Y = (λ dv, (dv_opencount dv, dv_data dv)) <$> dvnodes st;
  vi_drv : y_drv Y = d_open <$> devices st;
  vi_count : ∀ v, spare st Y v = holds st v + Z.of_nat (multiplicity v E);
  vi_boot : match bootfs_vnode st, y_boot Y with Some v, Some f => root_of Y v f | None, None => True | _, _ => False end;
  vi_cwd : ∀ t, match t_cwd st !! t, y_cwd Y !! t with Some v, Some f => root_of Y v f | None, None => True | _, _ => False end;
  vi_fresh : (∀ k, is_Some (dvnodes st !! k) → (k < nmalloc st)%nat) ∧ (∀ a, is_Some (kds st !! a) → (a < nmalloc st)%nat) ∧
    (∀ f, is_Some (fses st !! f) → (f < nmalloc st)%nat) ∧ (∀ l, l ∈ locks st → (l < nmalloc st)%nat);
  vi_disks : ∀ a A, y_disks Y !! a = Some A → ∃ d, devices st !! a = Some d ∧ d_blocksize d = 512 ∧ ∀ f, fs_holds (FileSystem := laws f) (d_data d) A;
  vi_locked : ∀ v, v ∈ y_locked Y → ∃ l, rw_lock st !! v = Some (Some l) ∧ l ∈ locks st ∧ ∀ u, u ∈ y_locked Y → rw_lock st !! u = Some (Some l) → u = v;
  vi_attached : ∀ a, is_Some (devices st !! a) → (a < nmalloc st)%nat
}.

(** The locks of the layer. *)
Definition unlocked (st : state) : Prop := knowndevs_lock st = false ∧ bootfs_lock st = false.

End inv.
