(* ===== verification/VfsOps.v ===== *)
(** * The VFS layer: operations on vnodes *)

From stdpp Require Import gmultiset.
From S2P Require Import Prelude CArray KHeap KHeapSpec Coremap Uio CString SfsVnode SfsTheorems SfsOps SfsLoad SfsNames FileSys Vfs VfsPath VfsInv.

(** ** Total correctness, but for a panic because memory is lacking *)

Definition safely {A} (low : Prop) (m : outcome A) (Q : A → Prop) : Prop := returns m Q ∨ (m = Panic ∧ low).

Lemma safely_returns {A} low (m : outcome A) Q : returns m Q → safely low m Q.
Proof. by left. Qed.
Lemma safely_ret {A} low (a : A) (Q : A → Prop) : Q a → safely low (Ret a) Q.
Proof. intros. left. by apply returns_ret. Qed.
Lemma safely_panic {A} (low : Prop) (Q : A → Prop) : low → safely low Panic Q.
Proof. by right. Qed.
Lemma safely_mono {A} low (m : outcome A) (P Q : A → Prop) : safely low m P → (∀ a, P a → Q a) → safely low m Q.
Proof. intros [H|H] HQ; [left; by eapply returns_mono|by right]. Qed.
Lemma safely_bind {A B} low (m : outcome A) (f : A → outcome B) P Q : safely low m P → (∀ a, P a → safely low (f a) Q) → safely low (m ≫= f) Q.
Proof. intros [(a & -> & Ha)|[-> Hlow]] Hf; [by apply Hf|by right]. Qed.

Section ops.
Context {D S : Type} (present : Z → bool) (space : Z) (fsops : nat → FsOps D S) (laws : ∀ f, FileSystem D S present space (H := fsops f)).
Abbreviation state := (vfs D S).
Abbreviation vinv := (vinv present space fsops laws).
Abbreviation shows_at := (shows_at present space fsops laws).

Lemma cwds_pos h t (v : vptr) : h !! t = Some v → 1 ≤ cwds h v.
Proof.
  intros Ht. unfold cwds. assert (Hf : filter (λ tv : nat * vptr, tv.2 = v) h !! t = Some v) by (by apply map_lookup_filter_Some).
  destruct (size _) eqn:Hs; [|lia]. apply map_size_empty_inv in Hs. by rewrite Hs in Hf.
Qed.

Lemma holds_boot (st : state) v : bootfs_vnode st = Some v → 1 ≤ holds st v.
Proof. intros H. unfold holds, boots. rewrite decide_True by done. unfold cwds. lia. Qed.

Lemma holds_cwd (st : state) t v : t_cwd st !! t = Some v → 1 ≤ holds st v.
Proof. intros H%cwds_pos. unfold holds, boots. case_decide; lia. Qed.

Lemma holds_nonneg (st : state) v : 0 ≤ holds st v.
Proof. unfold holds, boots, cwds. case_decide; lia. Qed.

(** A vnode that is accounted for is there. *)
Lemma spare_owned R p : 1 ≤ spare_refs R p → ∃ ino rc oc, R !! p = Some (ino, rc, oc) ∧ 1 ≤ rc - oc.
Proof. unfold spare_refs. destruct (R !! p) as [[[ino rc] oc]|]; [eauto|lia]. Qed.

Lemma root_stays st Y E n f p A A' E' : vinv st Y E n → y_fs Y !! f = Some A → accounts f (f_refs A) E (f_refs A') E' →
  1 ≤ holds st (VFs f p) → is_dir (f_refs A) p → is_dir (f_refs A') p.
Proof.
  intros Hi HA (Hc & _ & Hino) Hh (rc & oc & Hp). pose proof (vi_count _ _ _ _ _ _ _ _ Hi (VFs f p)) as Hsp. simpl in Hsp. rewrite HA in Hsp.
  specialize (Hc p). destruct (spare_owned (f_refs A') p) as (ino' & rc' & oc' & Hp' & _); [lia|]. specialize (Hino _ _ _ _ _ _ _ Hp Hp'). subst. by exists rc', oc'.
Qed.

Lemma root_of_stays st Y E n f A A' E' v g : vinv st Y E n → y_fs Y !! f = Some A → accounts f (f_refs A) E (f_refs A') E' →
  1 ≤ holds st v → root_of Y v g → root_of (set_fs f A' Y) v g.
Proof.
  intros Hi HA Hacc Hh (p & B & -> & HB & Hd). destruct (decide (g = f)) as [->|Hne].
  - exists p, A'. split; [done|]. split; [apply lookup_insert_eq|]. rewrite HA in HB. injection HB as <-. by eapply root_stays.
  - exists p, B. split; [done|]. split; [by rewrite <- HB; apply lookup_insert_ne|done].
Qed.

Lemma vinv_putfs st Y E n n' f s s' A A' E' : vinv st Y E n → fses st !! f = Some s → y_fs Y !! f = Some A → shows_at f s' A' n' → n ≤ n' →
  volume fsops f s' = volume fsops f s → accounts f (f_refs A) E (f_refs A') E' → vinv (putfs f s' st) (set_fs f A' Y) E' n'.
Proof.
  intros Hi Hs HA Hs' Hle Hvol Hacc. pose proof Hi as [Htab Honce Hfs Hdev Hopen Hdrv Hcount Hboot Hcwd Hfresh Hdisks Hlocked]. split; try done.
  - destruct Htab as (ks & Har & Hnd & Hall). exists ks. split; [done|]. split; [done|]. eapply Forall2_impl; [done|]. intros a e [Hkd Hv Hd Hf Hsz]. split; try done.
    intros g vol He. destruct (Hf g vol He) as (sg & Hg & Hvg). destruct (decide (g = f)) as [->|Hne].
    + exists s'. split; [apply lookup_insert_eq|]. simplify_eq. by rewrite Hvol.
    + exists sg. split; [by rewrite <- Hg; apply lookup_insert_ne|done].
  - intros g. simpl. destruct (decide (g = f)) as [->|Hne]; [by rewrite !lookup_insert_eq|]. rewrite !lookup_insert_ne by done. specialize (Hfs g).
    destruct (fses st !! g), (y_fs Y !! g); try done. eapply fs_later; [exact Hfs|lia].
  - intros k dv Hk. destruct (Hdev k dv Hk) as (? & ? & ?). split; [lia|done].
  - intros v. specialize (Hcount v). destruct Hacc as (Hc & Hother & _). destruct v as [k|g p]; [by rewrite Hother|].
    destruct (decide (g = f)) as [->|Hne]; [|rewrite Hother by (simpl; congruence); simpl in *; by rewrite lookup_insert_ne by done].
    simpl in *. rewrite lookup_insert_eq. rewrite HA in Hcount. specialize (Hc p). change (holds (putfs f s' st) (VFs f p)) with (holds st (VFs f p)). lia.
  - destruct (bootfs_vnode st) as [v|] eqn:Hb; simpl in *; rewrite Hb; [|done]. destruct (y_boot Y); [|done]. eapply root_of_stays; eauto using holds_boot.
  - intros t. specialize (Hcwd t). simpl. destruct (t_cwd st !! t) as [v|] eqn:Ht; [|done]. destruct (y_cwd Y !! t); [|done].
    eapply root_of_stays; eauto using holds_cwd.
  - destruct Hfresh as (H1 & H2 & H3 & H4). split; [done|]. split; [done|]. split; [|done]. intros g [sg Hg]. apply H3. simpl in Hg.
    destruct (decide (g = f)) as [->|]; [by exists s|]. rewrite lookup_insert_ne in Hg by done. by exists sg.
Qed.

(** ** Calls of a file system *)

(** Lack of memory, in some file system. *)
Definition low : Prop := ∃ f, low_at present space fsops laws f.

Lemma fs_there st Y E n f A : vinv st Y E n → y_fs Y !! f = Some A → ∃ s, fses st !! f = Some s ∧ shows_at f s A n.
Proof. intros Hi HA. pose proof (vi_fs _ _ _ _ _ _ _ _ Hi f) as Hf. rewrite HA in Hf. destruct (fses st !! f) as [s|]; [eauto|done]. Qed.

Lemma call_ok st Y E n f A o : vinv st Y E n → 0 ≤ n < 2 ^ 31 - 1 → y_fs Y !! f = Some A → allowed present space (low_at present space fsops laws f) (f_refs A) o →
  ∃ s r s' A', fses st !! f = Some s ∧ run (H := fsops f) o s = Ret (r, s') ∧ fstep low A o r A' ∧
    ∀ E', accounts f (f_refs A) E (f_refs A') E' → vinv (putfs f s' st) (set_fs f A' Y) E' (n + 1).
Proof.
  intros Hi Hn HA Ho. destruct (fs_there st Y E n f A Hi HA) as (s & Hs & Hshow).
  destruct (fs_step (FileSystem := laws f) s A n o Hshow Hn Ho) as ([r s'] & Hrun & A' & Hs' & Hstep & Hvol). exists s, r, s', A'. split_and!; try done.
  { eapply fstep_mono; [done|]. intros Hl. by exists f. }
  intros E' Hacc. eapply (vinv_putfs _ _ _ n); try done; [lia|]. unfold volume. by rewrite Hvol.
Qed.

(** ** Reference counts *)

(** Nothing but vnodes changes. *)
Definition vnodes_only (st st' : state) : Prop := ∃ h g, st' = set_dvnodes h (set_fses g st).

Lemma vnodes_only_refl st : vnodes_only st st.
Proof. exists (dvnodes st), (fses st). by destruct st. Qed.
Lemma vnodes_only_trans st st1 st2 : vnodes_only st st1 → vnodes_only st1 st2 → vnodes_only st st2.
Proof. intros (h1 & g1 & ->) (h2 & g2 & ->). by exists h2, g2. Qed.
Lemma vnodes_only_fs st f s : vnodes_only st (putfs f s st).
Proof. exists (dvnodes st), (<[f := s]> (fses st)). by destruct st. Qed.
Lemma vnodes_only_dev st k dv : vnodes_only st (dvput k dv st).
Proof. exists (<[k := dv]> (dvnodes st)), (fses st). by destruct st. Qed.

Lemma vinv_dvput st Y E n k dv dv' E' : vinv st Y E n → dvnodes st !! k = Some dv → dv_data dv' = dv_data dv → 1 ≤ dv_refcount dv' ≤ n + 1 →
  0 ≤ dv_opencount dv' < dv_refcount dv' → (1 < dv_refcount dv' → has_device st (dv_data dv)) →
  dv_refcount dv' - dv_opencount dv' - Z.of_nat (multiplicity (VDev k) E') = dv_refcount dv - dv_opencount dv - Z.of_nat (multiplicity (VDev k) E) →
  (∀ v, v ≠ VDev k → multiplicity v E' = multiplicity v E) → vinv (dvput k dv' st) (set_open k (dv_opencount dv', dv_data dv') Y) E' (n + 1).
Proof.
  intros Hi Hk Hdata Hrc Hoc Hhas Hc Hother. pose proof Hi as [Htab Honce Hfs Hdev Hopen Hdrv Hcount Hboot Hcwd Hfresh Hdisks Hlocked]. split; try done.
  - destruct Htab as (ks & Har & Hnd & Hall). exists ks. split; [done|]. split; [done|]. eapply Forall2_impl; [done|]. intros a e [Hkd (dve & Hv & He) Hd Hf Hsz]. split; try done.
    simpl. destruct (decide (e_vnode e = k)) as [<-|Hne]; [exists dv'; rewrite lookup_insert_eq; split; [done|]; congruence|].
    exists dve. by rewrite lookup_insert_ne by congruence.
  - intros f. specialize (Hfs f). simpl. destruct (fses st !! f), (y_fs Y !! f); try done. eapply fs_later; [exact Hfs|lia].
  - intros j dj Hj. simpl in Hj. destruct (decide (j = k)) as [->|Hne]; [rewrite lookup_insert_eq in Hj; injection Hj as <-; by rewrite Hdata|].
    rewrite lookup_insert_ne in Hj by done. destruct (Hdev j dj Hj) as (? & ? & ?). split; [lia|done].
  - simpl. by rewrite Hopen, fmap_insert.
  - intros v. specialize (Hcount v). destruct (decide (v = VDev k)) as [->|Hne].
    + simpl in *. rewrite lookup_insert_eq. rewrite Hk in Hcount. change (holds (dvput k dv' st) (VDev k)) with (holds st (VDev k)). lia.
    + rewrite Hother by done. destruct v as [j|f p]; [simpl in *; by rewrite lookup_insert_ne by congruence|done].
  - destruct Hfresh as (H1 & H2 & H3 & H4). split; [|done]. intros j [dj Hj]. apply H1. simpl in Hj.
    destruct (decide (j = k)) as [->|]; [by exists dv|]. rewrite lookup_insert_ne in Hj by done. by exists dj.
Qed.

Lemma vinv_dvput_same st Y E n k dv dv' E' : vinv st Y E n → dvnodes st !! k = Some dv → dv_data dv' = dv_data dv → 1 ≤ dv_refcount dv' ≤ n + 1 →
  dv_opencount dv' = dv_opencount dv → dv_opencount dv < dv_refcount dv' → (1 < dv_refcount dv' → has_device st (dv_data dv)) →
  dv_refcount dv' - Z.of_nat (multiplicity (VDev k) E') = dv_refcount dv - Z.of_nat (multiplicity (VDev k) E) →
  (∀ v, v ≠ VDev k → multiplicity v E' = multiplicity v E) → vinv (dvput k dv' st) Y E' (n + 1).
Proof.
  intros Hi Hk Hdata Hrc Hoc Hlt Hhas Hc Hother. destruct (vi_dev _ _ _ _ _ _ _ _ Hi k dv Hk) as (_ & ? & _). replace Y with (set_open k (dv_opencount dv', dv_data dv') Y).
  - eapply vinv_dvput; eauto; lia.
  - unfold set_open. rewrite insert_id; [by destruct Y|]. rewrite (vi_open _ _ _ _ _ _ _ _ Hi), lookup_fmap, Hk. simpl. by rewrite Hoc, Hdata.
Qed.

Lemma spare_there st Y E n v : vinv st Y E n → 1 ≤ spare st Y v → match v with
  | VDev k => ∃ dv, dvnodes st !! k = Some dv ∧ dv_opencount dv + 1 < dv_refcount dv ≤ n ∧ 0 ≤ dv_opencount dv ∧ has_device st (dv_data dv)
  | VFs f p => ∃ A ino rc oc, y_fs Y !! f = Some A ∧ f_refs A !! p = Some (ino, rc, oc) ∧ 0 ≤ oc < rc ∧ rc ≤ n
  end.
Proof.
  intros Hi Hsp. destruct v as [k|f p]; simpl in Hsp.
  - destruct (dvnodes st !! k) as [dv|] eqn:Hk; [|lia]. exists dv. destruct (vi_dev _ _ _ _ _ _ _ _ Hi k dv Hk) as (? & ? & Hhas). split; [done|]. split; [lia|]. split; [lia|]. apply Hhas. lia.
  - destruct (y_fs Y !! f) as [A|] eqn:HA; [|lia]. destruct (spare_owned _ _ Hsp) as (ino & rc & oc & Hp & Hc). exists A, ino, rc, oc. split; [done|]. split; [done|].
    destruct (fs_there st Y E n f A Hi HA) as (s & _ & Hs). pose proof (fs_counts s A n p ino rc oc Hs Hp) as [? ?]. lia.
Qed.

Lemma spare_mine st Y E n v : vinv st Y E n → v ∈ E → 1 ≤ spare st Y v.
Proof.
  intros Hi Hv. rewrite (vi_count _ _ _ _ _ _ _ _ Hi v). pose proof (holds_nonneg st v). assert (0 < multiplicity v E)%nat by (by apply elem_of_multiplicity). lia.
Qed.

Lemma spare_held st Y E n v : vinv st Y E n → 1 ≤ holds st v → 1 ≤ spare st Y v.
Proof. intros Hi Hv. rewrite (vi_count _ _ _ _ _ _ _ _ Hi v). lia. Qed.

(** What a step does that is calm and leaves [E'] to the caller. *)
Definition quietly (st : state) (Y : vsys) (E E' : gmultiset vptr) (n : Z) (st' : state) (Y' : vsys) : Prop :=
  vinv st' Y' E' (n + 1) ∧ calmly E Y Y' ∧ vnodes_only st st'.

(** The references of one vnode change; what is open stays open. *)
Lemma refs_change A A' R : refs_to A A' R → (∀ p, opens R p = opens (f_refs A) p) → calm A A'.
Proof. intros (Hn & <- & Hs) Ho. split; [done|]. split; [done|]. by split. Qed.

Lemma opens_insert R p ino rc oc q : opens (<[p := (ino, rc, oc)]> R) q = if decide (q = p) then if decide (0 < oc) then Some (ino, oc) else None else opens R q.
Proof. unfold opens. case_decide; [subst; by rewrite lookup_insert_eq|by rewrite lookup_insert_ne]. Qed.

Lemma calmly_quiet E Y f A A' : y_fs Y !! f = Some A → quiet A A' → calmly E Y (set_fs f A' Y).
Proof. intros HA Hq. pose proof Hq as (Hn & Hr & Hs). eapply within_calm, within_set; [done|by eapply refs_change|]. by rewrite Hr. Qed.

Lemma calmly_insert E Y f A A' p ino rc rc' oc : y_fs Y !! f = Some A → f_refs A !! p = Some (ino, rc, oc) →
  refs_to A A' (<[p := (ino, rc', oc)]> (f_refs A)) → calmly E Y (set_fs f A' Y) ∧ object_of (set_fs f A' Y) (VFs f p) = Some (OFile f ino).
Proof.
  intros HA Hp Hto. pose proof Hto as (_ & Hr & _). split.
  - eapply within_calm, within_set; [done|eapply refs_change; [done|]|rewrite Hr].
    + intros q. rewrite opens_insert. case_decide; [subst; unfold opens; by rewrite Hp|done].
    + intros q _. destruct (decide (q = p)) as [->|]; [by rewrite lookup_insert_eq, Hp|by rewrite lookup_insert_ne].
  - simpl. rewrite lookup_insert_eq. simpl. by rewrite Hr, lookup_insert_eq.
Qed.

Lemma object_at Y f A p ino rc oc : y_fs Y !! f = Some A → f_refs A !! p = Some (ino, rc, oc) → object_of Y (VFs f p) = Some (OFile f ino).
Proof. intros HA Hp. simpl. rewrite HA. simpl. by rewrite Hp. Qed.

(** A call whose result is only a state. *)
Lemma on_fs_state_ok (f : nat) (o : op) (call : S → outcome S) (st : state) s r s' : fses st !! f = Some s → run (H := fsops f) o s = Ret (r, s') →
  run (H := fsops f) o s = (s ← call s; Ret (Done, s)) → on_fs_state f call st = Ret (putfs f s' st).
Proof.
  intros Hs Hrun Heq. rewrite Heq in Hrun. apply bind_Ret_inv in Hrun as (s1 & Hc & Hrun). injection Hrun as _ ->.
  unfold on_fs_state, on_fs, getfs, the. rewrite Hs. ostep. by rewrite Hc.
Qed.

Lemma INCREF_dev st Y E n k dv : vinv st Y E n → 0 ≤ n < 2 ^ 31 - 1 → dvnodes st !! k = Some dv → has_device st (dv_data dv) →
  returns (VOP_INCREF fsops (VDev k) st) (λ st', quietly st Y E (E ⊎ {[+ VDev k +]}) n st' Y).
Proof.
  intros Hi Hn Hk Hhas. unfold VOP_INCREF, the. rewrite Hk. ostep. apply returns_ret. split; [|split; [apply calmly_refl|apply vnodes_only_dev]].
  destruct (vi_dev _ _ _ _ _ _ _ _ Hi k dv Hk) as (? & ? & _). eapply vinv_dvput_same; try done; simpl; rewrite ?s32_small by lia; try lia.
  - rewrite multiplicity_add, decide_True by done. lia.
  - intros v Hne. rewrite multiplicity_add, decide_False by done. lia.
Qed.

Lemma INCREF_ok st Y E n v : vinv st Y E n → 0 ≤ n < 2 ^ 31 - 1 → 1 ≤ spare st Y v →
  returns (VOP_INCREF fsops v st) (λ st', ∃ Y', quietly st Y E (E ⊎ {[+ v +]}) n st' Y' ∧ object_of Y' v = object_of Y v).
Proof.
  intros Hi Hn Hsp. pose proof (spare_there st Y E n v Hi Hsp) as Hv. destruct v as [k|f p].
  - destruct Hv as (dv & Hk & _ & _ & Hhas). eapply returns_mono; [by eapply INCREF_dev|]. intros st' Hq. by exists Y.
  - destruct Hv as (A & ino & rc & oc & HA & Hp & Hc & Hr). destruct (call_ok st Y E n f A (Incref p) Hi Hn HA) as (s & r & s' & A' & Hs & Hrun & Hstep & Hinv); [by eexists|].
    unfold VOP_INCREF. rewrite (on_fs_state_ok f (Incref p) _ st s r s' Hs Hrun eq_refl). apply returns_ret.
    apply fstep_incref in Hstep as (-> & ino' & rc' & oc' & Hp' & Hto). rewrite Hp in Hp'. injection Hp' as <- <- <-.
    destruct (calmly_insert E Y f A A' p ino rc _ oc HA Hp Hto) as [Hcalm Hno]. exists (set_fs f A' Y). split; [|by rewrite Hno, (object_at Y f A p ino rc oc)].
    split; [|split; [done|apply vnodes_only_fs]]. apply Hinv. destruct Hto as (_ & -> & _). eapply (accounts_ref f _ E p ino rc oc (rc + 1) oc 1); [done|lia|done].
Qed.

Lemma DECREF_ok st Y E n v : vinv st Y E n → 0 ≤ n < 2 ^ 31 - 1 → v ∈ E →
  returns (VOP_DECREF fsops v st) (λ st', ∃ Y', quietly st Y (E ∖ {[+ v +]}) (E ∖ {[+ v +]}) n st' Y').
Proof.
  intros Hi Hn Hin. pose proof (spare_there st Y E n v Hi (spare_mine _ _ _ _ _ Hi Hin)) as Hv. assert (Hm : (0 < multiplicity v E)%nat) by (by apply elem_of_multiplicity).
  destruct v as [k|f p].
  - destruct Hv as (dv & Hk & Hrc & Hoc & Hhas). unfold VOP_DECREF, the. rewrite Hk. ostep. rewrite assert_true by (apply bool_decide_eq_true_2; lia). ostep.
    rewrite bool_decide_eq_true_2 by lia. apply returns_ret. exists Y. split; [|split; [apply calmly_refl|apply vnodes_only_dev]].
    eapply vinv_dvput_same; try done; simpl; try lia.
    + rewrite multiplicity_take, decide_True by done. lia.
    + intros v Hne. rewrite multiplicity_take, decide_False by done. lia.
  - destruct Hv as (A & ino & rc & oc & HA & Hp & Hc & Hr). destruct (call_ok st Y E n f A (Decref p) Hi Hn HA) as (s & r & s' & A' & Hs & Hrun & Hstep & Hinv).
    { exists ino, rc, oc. split; [done|lia]. }
    unfold VOP_DECREF. rewrite (on_fs_state_ok f (Decref p) _ st s r s' Hs Hrun eq_refl). apply returns_ret. apply fstep_decref in Hstep as [-> Hto].
    exists (set_fs f A' Y). pose proof (accounts_lost f (f_refs A) E p ino rc oc Hp Hc Hin) as Hacc. pose proof Hto as (Hnm & Hrf & Hsame).
    split; [apply Hinv; by rewrite Hrf|]. split; [|apply vnodes_only_fs]. unfold ref_lost in Hrf. rewrite Hp in Hrf. case_decide as H1.
    { eapply calmly_insert; [done|done|]. split; [done|]. by split. }
    eapply within_calm, within_set; [done|eapply refs_change; [split; [done|]; by split|]|rewrite Hrf].
    + intros q. unfold opens. destruct (decide (q = p)) as [->|]; [|by rewrite lookup_delete_ne by congruence]. rewrite lookup_delete_eq, Hp, decide_False by lia. done.
    + intros q HE. destruct (decide (q = p)) as [->|]; [|by rewrite lookup_delete_ne by congruence].
      exfalso. pose proof (vi_count _ _ _ _ _ _ _ _ Hi (VFs f p)) as Hcnt. simpl in Hcnt. rewrite HA in Hcnt. unfold spare_refs in Hcnt. rewrite Hp in Hcnt.
      pose proof (holds_nonneg st (VFs f p)). assert (0 < multiplicity (VFs f p) (E ∖ {[+ VFs f p +]}))%nat as Hm' by (by apply elem_of_multiplicity).
      rewrite multiplicity_take, decide_True in Hm' by done. lia.
Qed.

(** ** Open counts *)

Lemma recount_insert A A' p ino rc oc rc' oc' : f_refs A !! p = Some (ino, rc, oc) → refs_to A A' (<[p := (ino, rc', oc')]> (f_refs A)) →
  recount p (if decide (0 < oc') then Some (ino, oc') else None) A A'.
Proof. intros Hp (Hn & Hr & Hs). split; [done|]. split; [done|]. split; [done|]. intros q. by rewrite Hr, opens_insert. Qed.

Lemma reopened_insert E Y f p A ino rc oc oc' A' : y_fs Y !! f = Some A → f_refs A !! p = Some (ino, rc, oc) → refs_to A A' (<[p := (ino, rc, oc')]> (f_refs A)) →
  reopened E Y (VFs f p) oc' (set_fs f A' Y).
Proof.
  intros HA Hp Hto. exists ino. split; [by eapply object_at|]. eapply within_set; [done|by eapply recount_insert|]. intros q _. destruct Hto as (_ & -> & _).
  destruct (decide (q = p)) as [->|]; [by rewrite lookup_insert_eq, Hp|by rewrite lookup_insert_ne].
Qed.

Lemma open_count_fs Y f A p ino rc oc : y_fs Y !! f = Some A → f_refs A !! p = Some (ino, rc, oc) → 0 ≤ oc → open_count Y (VFs f p) = oc.
Proof. intros HA Hp Hoc. simpl. rewrite HA. unfold opens. rewrite Hp. case_decide; [done|lia]. Qed.

Lemma open_count_dev st Y E n k dv : vinv st Y E n → dvnodes st !! k = Some dv → y_devs Y !! k = Some (dv_opencount dv, dv_data dv).
Proof. intros Hi Hk. by rewrite (vi_open _ _ _ _ _ _ _ _ Hi), lookup_fmap, Hk. Qed.

Lemma INCOPEN_fs st Y E n f p : vinv st Y E n → 0 ≤ n < 2 ^ 31 - 1 → VFs f p ∈ E →
  returns (VOP_INCOPEN fsops (VFs f p) st) (λ st', ∃ Y', vinv st' Y' (E ∖ {[+ VFs f p +]}) (n + 1) ∧ reopened E Y (VFs f p) (open_count Y (VFs f p) + 1) Y' ∧ vnodes_only st st').
Proof.
  intros Hi Hn Hin. destruct (spare_there st Y E n (VFs f p) Hi (spare_mine _ _ _ _ _ Hi Hin)) as (A & ino & rc & oc & HA & Hp & Hc & Hr).
  destruct (call_ok st Y E n f A (Incopen p) Hi Hn HA) as (s & r & s' & A' & Hs & Hrun & Hstep & Hinv).
  { exists ino, rc, oc. split; [done|lia]. }
  unfold VOP_INCOPEN. rewrite (on_fs_state_ok f (Incopen p) _ st s r s' Hs Hrun eq_refl). apply returns_ret. apply fstep_incopen in Hstep as (-> & i & rc' & o & Hp' & Hto). rewrite Hp in Hp'. injection Hp' as <- <- <-.
  exists (set_fs f A' Y). rewrite (open_count_fs Y f A p ino rc oc) by (done || lia). split; [|split; [by eapply reopened_insert|apply vnodes_only_fs]].
  apply Hinv. destruct Hto as (_ & -> & _). eapply (accounts_ref f _ E p ino rc oc rc (oc + 1) (-1)); [done|lia|done|done].
Qed.

Lemma DECOPEN_fs st Y E n f p : vinv st Y E n → 0 ≤ n < 2 ^ 31 - 1 → 0 < open_count Y (VFs f p) →
  returns (VOP_DECOPEN fsops (VFs f p) st) (λ st', ∃ Y', vinv st' Y' (E ⊎ {[+ VFs f p +]}) (n + 1) ∧ reopened E Y (VFs f p) (open_count Y (VFs f p) - 1) Y' ∧ vnodes_only st st').
Proof.
  intros Hi Hn Ho. assert (∃ A ino rc oc, y_fs Y !! f = Some A ∧ f_refs A !! p = Some (ino, rc, oc) ∧ 0 < oc) as (A & ino & rc & oc & HA & Hp & Hoc).
  { simpl in Ho. destruct (y_fs Y !! f) as [A|]; [|lia]. unfold opens in Ho. destruct (f_refs A !! p) as [[[ino rc] oc]|] eqn:Hp; [|lia]. case_decide; [eauto 10|lia]. }
  rewrite (open_count_fs Y f A p ino rc oc) by (done || lia).
  destruct (call_ok st Y E n f A (Decopen p) Hi Hn HA) as (s & r & s' & A' & Hs & Hrun & Hstep & Hinv).
  { exists ino, rc, oc. split; [done|lia]. }
  unfold VOP_DECOPEN. rewrite (on_fs_state_ok f (Decopen p) _ st s r s' Hs Hrun eq_refl). apply returns_ret. apply fstep_decopen in Hstep as (-> & i & rc' & o & Hp' & Hto). rewrite Hp in Hp'. injection Hp' as <- <- <-.
  exists (set_fs f A' Y). split; [|split; [by eapply reopened_insert|apply vnodes_only_fs]].
  apply Hinv. destruct Hto as (_ & -> & _). eapply (accounts_ref f _ E p ino rc oc rc (oc - 1) 1); [done|lia|done].
Qed.

Lemma INCOPEN_dev st Y E n k dv : vinv st Y E n → 0 ≤ n < 2 ^ 31 - 1 → VDev k ∈ E → dvnodes st !! k = Some dv →
  returns (VOP_INCOPEN fsops (VDev k) st) (λ st', vinv st' (set_open k (dv_opencount dv + 1, dv_data dv) Y) (E ∖ {[+ VDev k +]}) (n + 1) ∧ vnodes_only st st').
Proof.
  intros Hi Hn Hin Hk. destruct (spare_there st Y E n (VDev k) Hi (spare_mine _ _ _ _ _ Hi Hin)) as (dv0 & Hk0 & Hrc & Hoc & Hhas). simplify_eq.
  assert (0 < multiplicity (VDev k) E)%nat by (by apply elem_of_multiplicity).
  unfold VOP_INCOPEN, the. rewrite Hk. ostep. rewrite s32_small by lia. apply returns_ret. split; [|apply vnodes_only_dev].
  apply (vinv_dvput st Y E n k dv (Dvnode (dv_refcount dv) (dv_opencount dv + 1) (dv_data dv))); try done; simpl; try lia.
  - rewrite multiplicity_take, decide_True by done. lia.
  - intros v Hne. rewrite multiplicity_take, decide_False by done. lia.
Qed.

Lemma DECOPEN_dev st Y E n k dv : vinv st Y E n → 0 ≤ n < 2 ^ 31 - 1 → dvnodes st !! k = Some dv → 0 < dv_opencount dv →
  returns (VOP_DECOPEN fsops (VDev k) st) (λ st', vinv st' (set_open k (dv_opencount dv - 1, dv_data dv) Y) (E ⊎ {[+ VDev k +]}) (n + 1) ∧ vnodes_only st st').
Proof.
  intros Hi Hn Hk Ho. destruct (vi_dev _ _ _ _ _ _ _ _ Hi k dv Hk) as (Hrc & Hoc & Hhas). specialize (Hhas ltac:(lia)) as (d & Hd & [dev Hdev]).
  unfold VOP_DECOPEN, the. rewrite Hk. ostep. rewrite assert_true by (by apply bool_decide_eq_true_2). ostep. set (dv' := Dvnode _ _ _). set (st' := dvput k dv' st).
  assert (Hgoal : vinv st' (set_open k (dv_opencount dv', dv_data dv') Y) (E ⊎ {[+ VDev k +]}) (n + 1) ∧ vnodes_only st st').
  { split; [|apply vnodes_only_dev]. eapply vinv_dvput; try done; simpl; try lia; [intros _; by exists d|..].
    - rewrite multiplicity_add, decide_True by done. lia.
    - intros v Hne. rewrite multiplicity_add, decide_False by done. lia. }
  assert (Hof : dev_of dv' st' = Ret dev) by (unfold dev_of, the; simpl; rewrite Hd; ostep; by rewrite Hdev).
  case_bool_decide; [apply returns_ret, Hgoal|]. unfold dev_check, the. simpl. rewrite lookup_insert_eq. ostep. simpl.
  rewrite (bool_decide_eq_false_2 (dv_refcount dv < 0)), (bool_decide_eq_false_2 (dv_refcount dv = 0)), (bool_decide_eq_false_2 (dv_opencount dv - 1 < 0)) by lia. cbn [andb]. ostep.
  rewrite Hof. ostep. apply returns_ret, Hgoal.
Qed.

Lemma INCOPEN_ok st Y E n v : vinv st Y E n → 0 ≤ n < 2 ^ 31 - 1 → v ∈ E →
  returns (VOP_INCOPEN fsops v st) (λ st', ∃ Y', vinv st' Y' (E ∖ {[+ v +]}) (n + 1) ∧ reopened E Y v (open_count Y v + 1) Y' ∧ vnodes_only st st').
Proof.
  intros Hi Hn Hin. destruct v as [k|f p]; [|by apply INCOPEN_fs]. pose proof (spare_there st Y E n (VDev k) Hi (spare_mine _ _ _ _ _ Hi Hin)) as (dv & Hk & _).
  eapply returns_mono; [by eapply INCOPEN_dev|]. intros st' [Hi' Hv']. eexists. split; [exact Hi'|]. split; [|done]. simpl. rewrite (open_count_dev st Y E n k dv Hi Hk). eauto.
Qed.

Lemma DECOPEN_ok st Y E n v : vinv st Y E n → 0 ≤ n < 2 ^ 31 - 1 → 0 < open_count Y v →
  returns (VOP_DECOPEN fsops v st) (λ st', ∃ Y', vinv st' Y' (E ⊎ {[+ v +]}) (n + 1) ∧ reopened E Y v (open_count Y v - 1) Y' ∧ vnodes_only st st').
Proof.
  intros Hi Hn Ho. destruct v as [k|f p]; [|by apply DECOPEN_fs]. simpl in *. destruct (y_devs Y !! k) as [[oc data]|] eqn:Hy; [|lia].
  assert (∃ dv, dvnodes st !! k = Some dv ∧ dv_opencount dv = oc ∧ dv_data dv = data) as (dv & Hk & <- & <-).
  { rewrite (vi_open _ _ _ _ _ _ _ _ Hi), lookup_fmap in Hy. destruct (dvnodes st !! k) as [dv|]; [|done]. simpl in Hy. simplify_eq. eauto. }
  eapply returns_mono; [by eapply DECOPEN_dev|]. intros st' [Hi' Hv']. eexists. split; [exact Hi'|]. split; [|done]. simpl. eauto.
Qed.
End ops.
