(* ===== verification/VfsCalls.v ===== *)
(** * The VFS layer: the operations on vnodes it passes on *)

From stdpp Require Import gmultiset.
From S2P Require Import Prelude CArray KHeap KHeapSpec Coremap Uio CString SfsVnode SfsTheorems SfsTree SfsOps SfsLoad SfsNames FileSys Vfs VfsPath VfsInv VfsOps.

(** What opening gives: the driver's answer, or the file system's. *)
Definition open_code (Y : vsys) (ob : object) (flags : Z) : Z :=
  match ob with
  | ODev _ a =>
      if bool_decide (Z.land flags (Z.lor (Z.lor (Z.lor O_CREAT O_TRUNC) O_EXCL) O_APPEND) ≠ 0) then EINVAL
      else match y_drv Y !! a with Some drv => drv flags | None => 0 end
  | OFile _ ino => open_result (bool_decide (ino = 1)) flags
  end.

(** What the operations give that neither devices nor files have; ioctl is the
    driver's. *)
Definition other_code (ob : object) (o : vop) : Z :=
  match ob with
  | ODev _ _ => match o with vop_readlink | vop_getdirentry | vop_ioctl => EINVAL | vop_mmap => EUNIMP | vop_namefile => 0 | _ => ENOTDIR end
  | OFile _ ino => other_result (bool_decide (ino = 1)) o
  end.

Definition is_root (ob : object) : bool := match ob with OFile _ ino => bool_decide (ino = 1) | ODev _ _ => false end.

Definition names_of (Y : vsys) (f : nat) : names := match y_fs Y !! f with Some A => f_names A | None => ∅ end.

Definition opens_at (Y : vsys) (f p : nat) : option (Z * Z) := match y_fs Y !! f with Some A => opens (f_refs A) p | None => None end.

(** The names of [f] become [M], the files in [X] are made empty. *)
Abbreviation alters f M X E Y := (shifts (within f (change M X (opens_at Y f))) E Y).

(** No file has that number. *)
Definition unused (Y : vsys) (f : nat) (ino : Z) : Prop :=
  ino ≠ 1 ∧ (∀ w, names_of Y f !! w ≠ Some ino) ∧ ∀ p oc, opens_at Y f p ≠ Some (ino, oc).

Lemma errno_inj e e' : errno e = errno e' → e = e'.
Proof. unfold errno. repeat case_decide; congruence. Qed.

Lemma names_of_calmly E Y Y' f : calmly E Y Y' → names_of Y' f = names_of Y f.
Proof. intros [_ Hfs _]. specialize (Hfs f). unfold names_of. destruct (y_fs Y !! f), (y_fs Y' !! f); try done. by destruct Hfs as [? _]. Qed.

Section calls.
Context {D S : Type} (present : Z → bool) (space : Z) (fsops : nat → FsOps D S) (laws : ∀ f, FileSystem D S present space (H := fsops f)).
Abbreviation state := (vfs D S).
Abbreviation vinv := (vinv present space fsops laws).
Abbreviation quietly := (quietly present space fsops laws).

Lemma vinv_later st Y E n n' : vinv st Y E n → n ≤ n' → vinv st Y E n'.
Proof.
  intros [Htab Honce Hfs Hdev Hopen Hdrv Hcount Hboot Hcwd Hfresh Hdisks Hlocked] Hle. split; try done.
  - intros f. specialize (Hfs f). destruct (fses st !! f), (y_fs Y !! f); try done. by eapply fs_later.
  - intros k dv Hk. destruct (Hdev k dv Hk) as (? & ? & ?). split; [lia|done].
Qed.

(** ** Devices *)

Lemma dev_check_ok st Y E n k dv : vinv st Y E n → dvnodes st !! k = Some dv → dev_check k false st = Ret dv.
Proof.
  intros Hi Hk. destruct (vi_dev _ _ _ _ _ _ _ _ Hi k dv Hk) as (? & ? & _). unfold dev_check, the. rewrite Hk. ostep.
  by rewrite (bool_decide_eq_false_2 (dv_refcount dv < 0)), (bool_decide_eq_false_2 (dv_refcount dv = 0)), (bool_decide_eq_false_2 (dv_opencount dv < 0)) by lia.
Qed.

(** A vnode in use stands for something. *)
Lemma object_dev st Y E n k : vinv st Y E n → VDev k ∈ E → ∃ dv a d, dvnodes st !! k = Some dv ∧ dev_check k false st = Ret dv ∧ dv_data dv = Some a ∧
  devices st !! a = Some d ∧ object_of Y (VDev k) = Some (ODev k a) ∧ y_drv Y !! a = Some (d_open d).
Proof.
  intros Hi Hin. destruct (spare_there _ _ _ _ st Y E n (VDev k) Hi (spare_mine _ _ _ _ _ _ _ _ _ Hi Hin)) as (dv & Hk & _ & _ & a & Ha & [d Hd]).
  exists dv, a, d. split_and!; try done; [by eapply dev_check_ok| |].
  - simpl. rewrite (open_count_dev _ _ _ _ st Y E n k dv Hi Hk). simpl. by rewrite Ha.
  - by rewrite (vi_drv _ _ _ _ _ _ _ _ Hi), lookup_fmap, Hd.
Qed.

Lemma object_file st Y E n f p : vinv st Y E n → VFs f p ∈ E → ∃ A ino rc oc, y_fs Y !! f = Some A ∧ f_refs A !! p = Some (ino, rc, oc) ∧ object_of Y (VFs f p) = Some (OFile f ino).
Proof.
  intros Hi Hin. destruct (spare_there _ _ _ _ st Y E n (VFs f p) Hi (spare_mine _ _ _ _ _ _ _ _ _ Hi Hin)) as (A & ino & rc & oc & HA & Hp & _).
  exists A, ino, rc, oc. split; [done|]. split; [done|]. by eapply object_at.
Qed.

Lemma object_mine st Y E n v : vinv st Y E n → v ∈ E → is_Some (object_of Y v).
Proof.
  intros Hi Hin. destruct v as [k|f p].
  - destruct (object_dev st Y E n k Hi Hin) as (? & ? & ? & _ & _ & _ & _ & -> & _). eauto.
  - destruct (object_file st Y E n f p Hi Hin) as (? & ? & ? & ? & _ & _ & ->). eauto.
Qed.

(** ** Questions *)

(** A call of the file system that does not change it. *)
Lemma ask_ok st Y E n f A o {B} (call : S → outcome B) (rep : B → reply) : vinv st Y E n → 0 ≤ n < 2 ^ 31 - 1 → y_fs Y !! f = Some A →
  allowed present space (low_at present space fsops laws f) (f_refs A) o → (∀ s, run (H := fsops f) o s = (e ← call s; Ret (rep e, s))) →
  ∃ s e A', getfs f st = Ret s ∧ call s = Ret e ∧ fstep (low present space fsops laws) A o (rep e) A'.
Proof.
  intros Hi Hn HA Ho Heq. destruct (call_ok _ _ _ _ st Y E n f A o Hi Hn HA Ho) as (s & r & s' & A' & Hs & Hrun & Hstep & _).
  rewrite Heq in Hrun. apply bind_Ret_inv in Hrun as (e & Hc & Hrun). injection Hrun as <- <-. exists s, e, A'. unfold getfs. by rewrite Hs.
Qed.

Lemma OPEN_ok st Y E n v ob flags : vinv st Y E n → 0 ≤ n < 2 ^ 31 - 1 → v ∈ E → object_of Y v = Some ob → VOP_OPEN fsops v flags st = Ret (open_code Y ob flags).
Proof.
  intros Hi Hn Hin Hob. unfold VOP_OPEN, asking. destruct v as [k|f p].
  - destruct (object_dev st Y E n k Hi Hin) as (dv & a & d & _ & -> & Ha & Hd & Hob' & Hdrv). rewrite Hob' in Hob. injection Hob as <-. ostep.
    unfold dev_of, the. rewrite Ha. ostep. rewrite Hd. ostep. unfold dev_open, open_code. by rewrite Hdrv.
  - destruct (object_file st Y E n f p Hi Hin) as (A & ino & rc & oc & HA & Hp & Hob'). rewrite Hob' in Hob. injection Hob as <-.
    destruct (ask_ok st Y E n f A (Open p flags) (fs_open (FsOps := fsops f) p flags) errno Hi Hn HA) as (s & e & A' & -> & Hc & Hstep); [by eexists|done|].
    ostep. rewrite Hc. eapply fstep_open in Hstep as [_ ->%errno_inj]; [done|exact Hp].
Qed.

Lemma GETTYPE_ok st Y E n v ob : vinv st Y E n → 0 ≤ n < 2 ^ 31 - 1 → v ∈ E → object_of Y v = Some ob →
  ∃ mode, VOP_GETTYPE fsops v st = Ret mode ∧ bool_decide (Z.land mode S_IFMT ≠ S_IFDIR) = negb (is_root ob).
Proof.
  intros Hi Hn Hin Hob. unfold VOP_GETTYPE, asking. destruct v as [k|f p].
  - destruct (object_dev st Y E n k Hi Hin) as (dv & a & d & _ & -> & Ha & Hd & Hob' & _). rewrite Hob' in Hob. injection Hob as <-. ostep.
    unfold dev_of, the. rewrite Ha. ostep. rewrite Hd. ostep. eexists. split; [done|]. unfold dev_gettype. by destruct (bool_decide (0 < d_blocks d)).
  - destruct (object_file st Y E n f p Hi Hin) as (A & ino & rc & oc & HA & Hp & Hob'). rewrite Hob' in Hob. injection Hob as <-.
    destruct (ask_ok st Y E n f A (Gettype p) (fs_gettype (FsOps := fsops f) p) Mode Hi Hn HA) as (s & e & A' & -> & Hc & Hstep); [by eexists|done|].
    ostep. rewrite Hc. eapply fstep_gettype in Hstep as [_ [= ->]]; [|exact Hp]. eexists. split; [done|]. simpl. case_decide; [by subst|]. by rewrite (bool_decide_eq_false_2 (ino = 1)).
Qed.

Lemma OTHER_ok st Y E n v ob o : vinv st Y E n → 0 ≤ n < 2 ^ 31 - 1 → v ∈ E → object_of Y v = Some ob → o ≠ vop_ioctl → VOP_OTHER fsops o v st = Ret (other_code ob o).
Proof.
  intros Hi Hn Hin Hob Ho. unfold VOP_OTHER. destruct v as [k|f p].
  - destruct (object_dev st Y E n k Hi Hin) as (dv & a & d & _ & -> & Ha & Hd & Hob' & _). rewrite Hob' in Hob. injection Hob as <-. ostep.
    unfold dev_of, the. rewrite Ha. ostep. rewrite Hd. ostep. by destruct o.
  - destruct (object_file st Y E n f p Hi Hin) as (A & ino & rc & oc & HA & Hp & Hob'). rewrite Hob' in Hob. injection Hob as <-.
    destruct (ask_ok st Y E n f A (Other o p) (fs_other (FsOps := fsops f) o p) errno Hi Hn HA) as (s & e & A' & -> & Hc & Hstep); [by eexists|done|].
    ostep. rewrite Hc. eapply fstep_other in Hstep as [_ ->%errno_inj]; [done|exact Hp].
Qed.

(** ** Calls that change the file system *)

Lemma on_fs_ok st Y E n f A o {B} (call : S → outcome (B * S)) (rep : B → reply) : vinv st Y E n → 0 ≤ n < 2 ^ 31 - 1 → y_fs Y !! f = Some A →
  allowed present space (low_at present space fsops laws f) (f_refs A) o → (∀ s, run (H := fsops f) o s = ('(b, s) ← call s; Ret (rep b, s))) →
  ∃ b s' A', on_fs f call st = Ret (b, putfs f s' st) ∧ fstep (low present space fsops laws) A o (rep b) A' ∧
    ∀ E', accounts f (f_refs A) E (f_refs A') E' → vinv (putfs f s' st) (set_fs f A' Y) E' (n + 1).
Proof.
  intros Hi Hn HA Ho Heq. destruct (call_ok _ _ _ _ st Y E n f A o Hi Hn HA Ho) as (s & r & s' & A' & Hs & Hrun & Hstep & Hinv).
  rewrite Heq in Hrun. apply bind_Ret_inv in Hrun as ([b s1] & Hc & Hrun). injection Hrun as <- <-. exists b, s1, A'. split; [|done].
  unfold on_fs, getfs, the. rewrite Hs. ostep. by rewrite Hc.
Qed.

(** A file comes into use, or is used once more. *)
Lemma loaded_opens R ino p R' q : ref_loaded R ino p R' → opens R' q = opens R q.
Proof. intros [(rc & oc & Hp & ->)|(Hp & _ & ->)]; rewrite opens_insert; (case_decide; [subst; unfold opens; by rewrite Hp|done]). Qed.
Lemma loaded_there R ino p R' : ref_loaded R ino p R' → ∃ rc oc, R' !! p = Some (ino, rc, oc).
Proof. intros [(rc & oc & Hp & ->)|(Hp & _ & ->)]; rewrite lookup_insert_eq; eauto. Qed.
Lemma loaded_objects st Y E n f A ino p R' q : vinv st Y E n → y_fs Y !! f = Some A → ref_loaded (f_refs A) ino p R' → VFs f q ∈ E →
  fst ∘ fst <$> R' !! q = fst ∘ fst <$> f_refs A !! q.
Proof.
  intros Hi HA Hl Hq. destruct (object_file st Y E n f q Hi Hq) as (A0 & i & r & o & HA0 & Hr & _). rewrite HA in HA0. injection HA0 as <-.
  destruct Hl as [(rc & oc & Hp & ->)|(Hp & _ & ->)]; (destruct (decide (q = p)) as [->|]; [rewrite lookup_insert_eq|by rewrite lookup_insert_ne]); [by rewrite Hp|congruence].
Qed.

Lemma within_loaded st Y E n f A A' M X ino p : vinv st Y E n → y_fs Y !! f = Some A → ref_loaded (f_refs A) ino p (f_refs A') → f_names A' = M →
  same_files A A' X → (∀ i a, i ∈ X → f_files A' !! i = Some a → empty_file a) →
  shifts (within f (change M X (opens (f_refs A)))) E Y (set_fs f A' Y) ∧ object_of (set_fs f A' Y) (VFs f p) = Some (OFile f ino).
Proof.
  intros Hi HA Hl Hn Hs He. split.
  - eapply within_set; [done| |intros q Hq; by eapply loaded_objects]. split; [done|]. split; [done|]. split; [done|]. intros q. by eapply loaded_opens.
  - destruct (loaded_there _ _ _ _ Hl) as (rc & oc & Hp). eapply object_at; [apply lookup_insert_eq|done].
Qed.

Lemma calmly_loaded st Y E n f A A' ino p : vinv st Y E n → y_fs Y !! f = Some A → ref_loaded (f_refs A) ino p (f_refs A') → refs_to A A' (f_refs A') →
  calmly E Y (set_fs f A' Y) ∧ object_of (set_fs f A' Y) (VFs f p) = Some (OFile f ino).
Proof.
  intros Hi HA Hl (Hn & _ & Hs). destruct (within_loaded st Y E n f A A' (f_names A) ∅ ino p Hi HA Hl Hn Hs) as [H1 H2]; [done|]. split; [|done].
  destruct H1 as [Hr Hf Ho]. split; [done| |done]. intros g. specialize (Hf g). unfold within in Hf. destruct (decide (g = f)) as [->|]; [|done]. rewrite HA in *. simpl in *.
  rewrite lookup_insert_eq in *. done.
Qed.

Lemma root_dir Y v f : object_of Y v = Some (OFile f 1) → ∃ p A, v = VFs f p ∧ y_fs Y !! f = Some A ∧ is_dir (f_refs A) p.
Proof.
  destruct v as [k|g p]; simpl; [destruct (y_devs Y !! k) as [[? [?|]]|]; simpl; congruence|]. destruct (y_fs Y !! g) as [A|] eqn:HA; [|done]. simpl.
  destruct (f_refs A !! p) as [[[i rc] oc]|] eqn:Hp; [|done]. simpl. intros [= -> ->]. exists p, A. split; [done|]. split; [done|]. by exists rc, oc.
Qed.

Lemma LOOKUP_fs st Y E n v f b : vinv st Y E n → 0 ≤ n < 2 ^ 31 - 1 → object_of Y v = Some (OFile f 1) → 0 ∈ b →
  returns (VOP_LOOKUP fsops v b st) (λ '(st', r), ∃ Y', match r with
    | inl e => quietly st Y E E n st' Y' ∧ (e = ENOENT ∧ names_of Y f !! cut b = None ∨ e = ENOMEM ∧ low present space fsops laws)
    | inr u => ∃ ino, quietly st Y E (E ⊎ {[+ u +]}) n st' Y' ∧ names_of Y f !! cut b = Some ino ∧ object_of Y' u = Some (OFile f ino)
    end).
Proof.
  intros Hi Hn (d & A & -> & HA & Hd)%root_dir Hb. simpl.
  destruct (on_fs_ok st Y E n f A (Lookup d b) (λ s, '(s, r) ← fs_lookup (FsOps := fsops f) d b s; Ret (r, s)) pointer Hi Hn HA) as (r & s' & A' & -> & Hstep & Hinv).
  { split; [|done]. destruct Hd as (? & ? & ?). by eexists. }
  { intros s. simpl. by destruct (fs_lookup d b s) as [[]| | |]. }
  ostep. apply returns_ret. exists (set_fs f A' Y). unfold names_of. rewrite HA. eapply fstep_lookup in Hstep; [|done]. destruct r as [e|p]; simpl in Hstep.
  - destruct Hstep as [Hq He]. split; [|done]. split; [|split; [by eapply calmly_quiet|apply vnodes_only_fs]]. apply Hinv. destruct Hq as (_ & -> & _). apply accounts_same.
  - destruct Hstep as (ino & Hnm & Hl & Hto). destruct (calmly_loaded st Y E n f A A' ino p Hi HA Hl Hto) as [Hc Hob]. exists ino. split; [|done].
    split; [|split; [done|apply vnodes_only_fs]]. apply Hinv. by eapply accounts_loaded.
Qed.

Lemma LOOKPARENT_fs st Y E n v f path buf : vinv st Y E n → 0 ≤ n < 2 ^ 31 - 1 → object_of Y v = Some (OFile f 1) → 0 ∈ path →
  returns (VOP_LOOKPARENT fsops v path buf st) (λ '(st', buf', r), ∃ Y', match r with
    | inl e => quietly st Y E E n st' Y' ∧ e = ENAMETOOLONG ∧ len buf < len (cut path) + 1
    | inr u => quietly st Y E (E ⊎ {[+ u +]}) n st' Y' ∧ object_of Y' u = Some (OFile f 1) ∧ len (cut path) + 1 ≤ len buf ∧ buf' = filled (cut path) buf
    end).
Proof.
  intros Hi Hn (d & A & -> & HA & Hd)%root_dir Hb. simpl.
  destruct (on_fs_ok st Y E n f A (Lookparent d path buf) (λ s, '(s, buf, r) ← fs_lookparent (FsOps := fsops f) d path buf s; Ret ((buf, r), s))
    (λ '(buf, r), match r with inl e => Err e | inr p => Parent p buf end) Hi Hn HA) as ([buf' r] & s' & A' & -> & Hstep & Hinv).
  { split; [|done]. destruct Hd as (? & ? & ?). by eexists. }
  { intros s. simpl. by destruct (fs_lookparent d path buf s) as [[[]]| | |]. }
  ostep. apply returns_ret. exists (set_fs f A' Y). eapply fstep_lookparent in Hstep; [|done]. destruct r as [e|p]; simpl in Hstep.
  - destruct Hstep as [Hq He]. split; [|done]. split; [|split; [by eapply calmly_quiet|apply vnodes_only_fs]]. apply Hinv. destruct Hq as (_ & -> & _). apply accounts_same.
  - destruct Hstep as (-> & -> & Hlen & rc & oc & Hp & Hto). destruct (calmly_insert E Y f A A' d 1 rc _ oc HA Hp Hto) as [Hc Hob]. split; [|done].
    split; [|split; [done|apply vnodes_only_fs]]. apply Hinv. destruct Hto as (_ & -> & _). eapply (accounts_ref f _ E d 1 rc oc (rc + 1) oc 1); [done|lia|done].
Qed.

Lemma unused_sound Y f A ino : y_fs Y !! f = Some A → sound A → ino ≠ 1 → f_files A !! ino = None → unused Y f ino.
Proof.
  intros HA Hs H1 Hno. unfold unused, names_of, opens_at. rewrite HA. specialize (Hs ino). split; [done|]. split.
  - intros w Hw. destruct (proj2 Hs) as [x Hx]; [eauto|congruence].
  - intros p oc. unfold opens. destruct (f_refs A !! p) as [[[i rc] oc']|] eqn:Hp; [|done]. case_decide; [|done]. intros [= -> ->]. destruct (proj2 Hs) as [x Hx]; [eauto 10|congruence].
Qed.

Lemma alters_names E Y f A A' M : y_fs Y !! f = Some A → names_to A A' M → alters f M ∅ E Y (set_fs f A' Y).
Proof.
  intros HA (Hn & Hr & Hs). eapply within_set; [done| |by rewrite Hr]. split; [done|]. split; [done|]. split; [done|]. intros p. unfold opens_at. by rewrite HA, Hr.
Qed.

Lemma CREAT_fs st Y E n v f b excl : vinv st Y E n → 0 ≤ n < 2 ^ 31 - 1 → object_of Y v = Some (OFile f 1) → 0 ∈ b →
  returns (VOP_CREAT fsops v b excl st) (λ '(st', r), ∃ Y', vnodes_only st st' ∧ match r with
    | inl e => vinv st' Y' E (n + 1) ∧ calmly E Y Y' ∧ (e = EEXIST ∧ excl = true ∧ is_Some (names_of Y f !! cut b) ∨ no_room (names_of Y f) (cut b) e ∨ e = ENOMEM ∧ low present space fsops laws)
    | inr u => vinv st' Y' (E ⊎ {[+ u +]}) (n + 1) ∧ ∃ ino, object_of Y' u = Some (OFile f ino) ∧
        (names_of Y f !! cut b = Some ino ∧ excl = false ∧ calmly E Y Y' ∨
         names_of Y f !! cut b = None ∧ unused Y f ino ∧ alters f (<[cut b := ino]> (names_of Y f)) {[ino]} E Y Y')
    end).
Proof.
  intros Hi Hn (d & A & -> & HA & Hd)%root_dir Hb. simpl.
  destruct (on_fs_ok st Y E n f A (Creat d b excl) (λ s, '(s, r) ← fs_creat (FsOps := fsops f) d b excl s; Ret (r, s)) pointer Hi Hn HA) as (r & s' & A' & -> & Hstep & Hinv).
  { split; [|done]. destruct Hd as (? & ? & ?). by eexists. }
  { intros s. simpl. by destruct (fs_creat d b excl s) as [[]| | |]. }
  ostep. apply returns_ret. exists (set_fs f A' Y). split; [apply vnodes_only_fs|]. unfold names_of. rewrite HA. eapply fstep_creat in Hstep; [|done]. destruct r as [e|p]; simpl in Hstep.
  - destruct Hstep as [Hq He]. split; [|split; [by eapply calmly_quiet|done]]. apply Hinv. destruct Hq as (_ & -> & _). apply accounts_same.
  - destruct Hstep as (ino & Hl & Hcase). split; [apply Hinv; by eapply accounts_loaded|]. exists ino. destruct Hcase as [(Hnm & -> & Hto)|(Hnone & H1 & Hno & Hnm & Hs & x & Hx & He)].
    + destruct (calmly_loaded st Y E n f A A' ino p Hi HA Hl Hto) as [Hc Hob]. split; [done|]. by left.
    + assert (Hemp : ∀ i a, i ∈ ({[ino]} : gset Z) → f_files A' !! i = Some a → empty_file a) by (intros i a ->%elem_of_singleton Hia; by simplify_eq).
      destruct (within_loaded st Y E n f A A' _ {[ino]} ino p Hi HA Hl Hnm Hs Hemp) as [Hc Hob]. split; [done|]. right. split; [done|].
      destruct (fs_there _ _ _ _ st Y E n f A Hi HA) as (s & _ & Hshow). split; [eapply unused_sound; [done|by eapply fs_sound|done|done]|].
      unfold opens_at. by rewrite HA.
Qed.

Lemma REMOVE_fs st Y E n v f b : vinv st Y E n → 0 ≤ n < 2 ^ 31 - 1 → object_of Y v = Some (OFile f 1) → 0 ∈ b →
  returns (VOP_REMOVE fsops v b st) (λ '(e, st'), ∃ Y', vinv st' Y' E (n + 1) ∧ vnodes_only st st' ∧
    if decide (e = 0) then is_Some (names_of Y f !! cut b) ∧ alters f (delete (cut b) (names_of Y f)) ∅ E Y Y'
    else calmly E Y Y' ∧ (e = ENOENT ∧ names_of Y f !! cut b = None ∨ e = ENOMEM ∧ low present space fsops laws)).
Proof.
  intros Hi Hn (d & A & -> & HA & Hd)%root_dir Hb. simpl.
  destruct (on_fs_ok st Y E n f A (Remove d b) (fs_remove (FsOps := fsops f) d b) errno Hi Hn HA) as (e & s' & A' & -> & Hstep & Hinv).
  { split; [|done]. destruct Hd as (? & ? & ?). by eexists. }
  { done. }
  apply returns_ret. exists (set_fs f A' Y). eapply fstep_remove in Hstep; [|done]. unfold errno in Hstep. unfold names_of. rewrite HA.
  assert (Hr : f_refs A' = f_refs A) by (case_decide; by destruct Hstep as (? & ? & ? & ?) || by destruct Hstep as ((? & ? & ?) & ?)).
  split; [apply Hinv; rewrite Hr; apply accounts_same|]. split; [apply vnodes_only_fs|]. case_decide.
  - destruct Hstep as [Hw Hto]. split; [done|]. by eapply alters_names.
  - destruct Hstep as [Hq He]. split; [by eapply calmly_quiet|done].
Qed.

Lemma LINK_fs st Y E n v f b u ino : vinv st Y E n → 0 ≤ n < 2 ^ 31 - 1 → object_of Y v = Some (OFile f 1) → object_of Y u = Some (OFile f ino) → ino ≠ 1 → 0 ∈ b →
  returns (VOP_LINK fsops v b u st) (λ '(e, st'), ∃ Y', vinv st' Y' E (n + 1) ∧ vnodes_only st st' ∧
    if decide (e = 0) then names_of Y f !! cut b = None ∧ alters f (<[cut b := ino]> (names_of Y f)) ∅ E Y Y'
    else calmly E Y Y' ∧ (e = EEXIST ∧ is_Some (names_of Y f !! cut b) ∨ no_room (names_of Y f) (cut b) e)).
Proof.
  intros Hi Hn (d & A & -> & HA & Hd)%root_dir Hu Hino Hb. destruct u as [k|g p]; simpl in Hu; [by destruct (y_devs Y !! k) as [[? []]|]|].
  destruct (y_fs Y !! g) as [B|] eqn:HB; [|done]. simpl in Hu. destruct (f_refs B !! p) as [[[i rc] oc]|] eqn:Hp; [|done]. simpl in Hu. injection Hu as -> ->. rewrite HA in HB. injection HB as <-.
  simpl. rewrite decide_True by done. destruct (on_fs_ok st Y E n f A (Link d b p) (fs_link (FsOps := fsops f) d b p) errno Hi Hn HA) as (e & s' & A' & -> & Hstep & Hinv).
  { split; [destruct Hd as (? & ? & ?); by eexists|]. split; [done|]. eauto. }
  { done. }
  apply returns_ret. exists (set_fs f A' Y). eapply fstep_link in Hstep; [|done]. unfold errno in Hstep. unfold names_of. rewrite HA.
  assert (Hr : f_refs A' = f_refs A) by (case_decide; [by destruct Hstep as (? & ? & ? & ? & ? & ?)|by destruct Hstep as ((? & ? & ?) & ?)]).
  split; [apply Hinv; rewrite Hr; apply accounts_same|]. split; [apply vnodes_only_fs|]. case_decide.
  - destruct Hstep as (Hw & i & (_ & rc' & oc' & Hp') & Hto). rewrite Hp in Hp'. injection Hp' as <- _ _. split; [done|]. by eapply alters_names.
  - destruct Hstep as [Hq He]. split; [by eapply calmly_quiet|done].
Qed.

Lemma root_once st Y E n v u f : vinv st Y E n → object_of Y v = Some (OFile f 1) → object_of Y u = Some (OFile f 1) → u = v.
Proof.
  intros Hi (d & A & -> & HA & rc & oc & Hd)%root_dir (d' & A' & -> & HA' & rc' & oc' & Hd')%root_dir. rewrite HA in HA'. injection HA' as <-.
  destruct (fs_there _ _ _ _ st Y E n f A Hi HA) as (s & _ & Hshow). f_equal. symmetry. by eapply fs_once.
Qed.

Lemma RENAME_fs st Y E n v f b1 b2 : vinv st Y E n → 0 ≤ n < 2 ^ 31 - 1 → object_of Y v = Some (OFile f 1) → 0 ∈ b1 → 0 ∈ b2 →
  returns (VOP_RENAME fsops v b1 v b2 st) (λ '(e, st'), ∃ Y', vinv st' Y' E (n + 1) ∧ vnodes_only st st' ∧
    if decide (e = 0) then ∃ ino, names_of Y f !! cut b1 = Some ino ∧ names_of Y f !! cut b2 = None ∧
      alters f (delete (cut b1) (<[cut b2 := ino]> (names_of Y f))) ∅ E Y Y'
    else calmly E Y Y' ∧ (e = ENOENT ∧ names_of Y f !! cut b1 = None ∨ e = EEXIST ∧ is_Some (names_of Y f !! cut b2) ∨ no_room (names_of Y f) (cut b2) e ∨ e = ENOMEM ∧ low present space fsops laws)).
Proof.
  intros Hi Hn (d & A & -> & HA & Hd)%root_dir Hb1 Hb2. simpl. rewrite decide_True by done.
  destruct (on_fs_ok st Y E n f A (Rename d b1 b2) (fs_rename (FsOps := fsops f) d b1 d b2) errno Hi Hn HA) as (e & s' & A' & -> & Hstep & Hinv).
  { split; [|done]. destruct Hd as (? & ? & ?). by eexists. }
  { done. }
  apply returns_ret. exists (set_fs f A' Y). eapply fstep_rename in Hstep; [|done]. unfold errno in Hstep. unfold names_of. rewrite HA.
  assert (Hr : f_refs A' = f_refs A) by (case_decide; [by destruct Hstep as (? & ? & ? & ? & ? & ?)|by destruct Hstep as ((? & ? & ?) & ?)]).
  split; [apply Hinv; rewrite Hr; apply accounts_same|]. split; [apply vnodes_only_fs|]. case_decide.
  - destruct Hstep as (ino & H1 & H2 & Hto). exists ino. split; [done|]. split; [done|]. by eapply alters_names.
  - destruct Hstep as [Hq He]. split; [by eapply calmly_quiet|done].
Qed.

Lemma cut_all f q : 0 ≤ q → cut_byte f 0 q = 0.
Proof.
  intros Hq. unfold cut_byte, SfsTrunc.kept. change ((0 + 511) / 512) with 0. assert (0 ≤ q / 512) by (apply Z.div_pos; lia).
  case_decide; rewrite bool_decide_eq_false_2 by lia; done.
Qed.

(** A file is cut to nothing. *)
Lemma TRUNCATE_fs st Y E n f p ino : vinv st Y E n → 0 ≤ n < 2 ^ 31 - 1 → object_of Y (VFs f p) = Some (OFile f ino) →
  returns (VOP_TRUNCATE fsops (VFs f p) 0 st) (λ '(e, st'), ∃ Y', vinv st' Y' E (n + 1) ∧ vnodes_only st st' ∧
    if decide (ino = 1) then e = EISDIR ∧ calmly E Y Y' else e = 0 ∧ alters f (names_of Y f) {[ino]} E Y Y').
Proof.
  intros Hi Hn Hob. simpl in Hob. destruct (y_fs Y !! f) as [A|] eqn:HA; [|done]. simpl in Hob. destruct (f_refs A !! p) as [[[i rc] oc]|] eqn:Hp; [|done]. injection Hob as ->. simpl.
  destruct (on_fs_ok st Y E n f A (Truncate p 0) (fs_truncate (FsOps := fsops f) p 0) errno Hi Hn HA) as (e & s' & A' & -> & Hstep & Hinv).
  { split; [by eexists|]. vm_compute; by split. }
  { done. }
  apply returns_ret. exists (set_fs f A' Y). eapply fstep_truncate in Hstep; [|done]. unfold errno in Hstep.
  assert (Hr : f_refs A' = f_refs A) by (case_decide; [by destruct Hstep as (? & ? & ? & ?)|by destruct Hstep as (? & ? & ? & ?)]).
  split; [apply Hinv; rewrite Hr; apply accounts_same|]. split; [apply vnodes_only_fs|]. case_decide.
  - destruct Hstep as [He Hq]. split; [case_decide; congruence|by eapply calmly_quiet].
  - destruct Hstep as [He (Hnm & _ & Hs & x & x' & Hx & Hx' & Hsize & Hb)]. split; [by case_decide|]. eapply within_set; [done| |by rewrite Hr].
    unfold names_of, opens_at. rewrite HA. split; [done|]. split; [done|]. split; [|by rewrite Hr]. intros i a ->%elem_of_singleton Hia. rewrite Hx' in Hia. injection Hia as <-.
    split; [done|]. intros q Hq. rewrite Hb by done. by apply cut_all.
Qed.

(** ** Devices have no names *)

Lemma LOOKPARENT_dev st Y E n k path buf : vinv st Y E n → VDev k ∈ E → VOP_LOOKPARENT fsops (VDev k) path buf st = Ret (st, buf, inl ENOTDIR).
Proof. intros Hi Hin. destruct (object_dev st Y E n k Hi Hin) as (? & ? & ? & _ & Hc & _). simpl. by rewrite Hc. Qed.

Lemma LOOKUP_dev st Y E n k w t : vinv st Y E n → VDev k ∈ E → nonzero w → w ≠ [] → VOP_LOOKUP fsops (VDev k) (w ++ 0 :: t) st = Ret (st, inl ENOENT).
Proof.
  intros Hi Hin Hw Hne. destruct (object_dev st Y E n k Hi Hin) as (? & ? & ? & _ & Hc & _). simpl. rewrite Hc. ostep. rewrite strlen_ok by done. ostep.
  rewrite bool_decide_eq_true_2; [done|]. destruct w; [done|]. simpl. lia.
Qed.

Lemma open_count_nonneg st Y E n v : vinv st Y E n → 0 ≤ open_count Y v.
Proof.
  intros Hi. destruct v as [k|f p]; simpl.
  - rewrite (vi_open _ _ _ _ _ _ _ _ Hi), lookup_fmap. destruct (dvnodes st !! k) as [dv|] eqn:Hk; simpl; [|lia]. destruct (vi_dev _ _ _ _ _ _ _ _ Hi k dv Hk) as (_ & ? & _). lia.
  - destruct (y_fs Y !! f) as [A|]; [|lia]. unfold opens. destruct (f_refs A !! p) as [[[] ?]|]; [case_decide; lia|lia].
Qed.
End calls.
