(* ===== verification/VfsResolve.v ===== *)
(** * The VFS layer: from paths to vnodes

    [resolve] says what the beginning of a path stands for, [look] what the whole
    path does, [parent] where its last component is kept. The code agrees with
    them; the vnode it gives comes with one reference, and nothing else changes. *)

From stdpp Require Import gmultiset.
From S2P Require Import Prelude CArray KHeap KHeapSpec Coremap Uio CString SfsVnode SfsTheorems SfsTree SfsOps SfsLoad SfsNames FileSys Vfs VfsPath VfsInv VfsOps VfsCalls.

Fixpoint first {A B} (g : A → option B) (l : list A) : option B :=
  match l with [] => None | a :: l => match g a with Some b => Some b | None => first g l end end.

Lemma for_loop_first {A B T R} low (body : Z → T → outcome (T + R)) (s : T) (g : A → option B) (Q : B → R → Prop) (l : list A) : ∀ i,
  (∀ j a, l !! j = Some a → safely low (body (i + Z.of_nat j) s) (λ x, match g a with None => x = inl s | Some b => ∃ r, x = inr r ∧ Q b r end)) →
  safely low (for_loop (length l) i body s) (λ x, match first g l with None => x = inl s | Some b => ∃ r, x = inr r ∧ Q b r end).
Proof.
  induction l as [|a l IH]; intros i H; simpl; [by apply safely_ret|]. eapply safely_bind.
  { rewrite <- (Z.add_0_r i). by apply (H 0%nat a). }
  intros x Hx. destruct (g a) as [b|]; [destruct Hx as (r & -> & Hr); apply safely_ret; eauto|]. subst x. apply IH. intros j c Hj.
  replace (i + 1 + Z.of_nat j) with (i + Z.of_nat (Datatypes.S j)) by lia. by apply H.
Qed.

(** ** What names stand for *)

(** What an entry of the table makes of a name. *)
Definition raw_object (e : entry) : object := ODev (e_vnode e) (match e_dev e with Some a => a | None => 0%nat end).
Definition hit (w : list Z) (e : entry) : option (result object) :=
  match e_fs e with
  | Some (f, vol) =>
      if decide (w = e_name e ∨ vol = Some w) then Some (inr (OFile f 1))
      else if decide (e_raw e = Some w) then Some (inr (raw_object e)) else None
  | None =>
      if decide (w = e_name e) then Some (if decide (e_raw e = None) then inr (raw_object e) else inl ENXIO)
      else if decide (e_raw e = Some w) then Some (inr (raw_object e)) else None
  end.
Definition named (Y : vsys) (w : list Z) : result object := match first (hit w) (y_table Y) with Some r => r | None => inl ENODEV end.

Definition root_or (e : Z) (o : option nat) : result object := match o with Some f => inr (OFile f 1) | None => inl e end.
Definition resolve (Y : vsys) (t : nat) (pl : place) : result object :=
  match pl with
  | Relative | Volume => root_or ENOENT (y_cwd Y !! t)
  | Root => root_or ENOENT (y_boot Y)
  | Named w => named Y w
  end.

(** The object a path leads to; there may be no memory for it. *)
Definition look (Y : vsys) (t : nat) (w : list Z) : result object :=
  match resolve Y t (parse w).1 with
  | inl e => inl e
  | inr ob =>
      if decide ((parse w).2 = []) then inr ob
      else match ob with
           | ODev _ _ => inl ENOENT
           | OFile f _ => match names_of Y f !! (parse w).2 with Some ino => inr (OFile f ino) | None => inl ENOENT end
           end
  end.

(** The file system whose root directory keeps the last component. *)
Definition parent (Y : vsys) (t : nat) (w : list Z) : result nat :=
  match resolve Y t (parse w).1 with
  | inl e => inl e
  | inr ob =>
      if decide ((parse w).2 = []) then inl EINVAL
      else match ob with
           | ODev _ _ => inl ENOTDIR
           | OFile f _ => if decide (256 < len (parse w).2 + 1) then inl ENAMETOOLONG else inr f
           end
  end.

Lemma same_ok a b w v : string_of a w → string_of b v → same a b = Ret (bool_decide (w = v)).
Proof. intros (Hw & t & ->) (Hv & t' & ->). unfold same. destruct (strcmp_ok w v t t' Hw Hv) as (r & -> & Hr). ostep. f_equal. by apply bool_decide_ext. Qed.

Section resolve.
Context {D S : Type} (present : Z → bool) (space : Z) (fsops : nat → FsOps D S) (laws : ∀ f, FileSystem D S present space (H := fsops f)) (curthread : nat).
Abbreviation state := (vfs D S).
Abbreviation vinv := (vinv present space fsops laws).
Abbreviation quietly := (quietly present space fsops laws).
Abbreviation low := (low present space fsops laws).

Lemma GETROOT_ok st Y E n f A : vinv st Y E n → 0 ≤ n < 2 ^ 31 - 1 → y_fs Y !! f = Some A →
  safely low (fsop_getroot fsops f st) (λ '(st', v), ∃ Y', quietly st Y E (E ⊎ {[+ v +]}) n st' Y' ∧ object_of Y' v = Some (OFile f 1)).
Proof.
  intros Hi Hn HA. destruct (fs_there _ _ _ _ st Y E n f A Hi HA) as (s & Hs & Hshow). unfold fsop_getroot, on_fs, getfs, the. rewrite Hs. ostep.
  destruct (fs_no_root (FileSystem := laws f) s A n Hshow Hn) as [[-> Hl]|([r s'] & Hrun & A' & Hs' & Hstep & Hvol)]; [apply safely_panic; by exists f|].
  simpl in Hrun. apply bind_Ret_inv in Hrun as ([s1 p] & -> & Hrun). injection Hrun as <- <-. ostep. apply safely_ret.
  apply fstep_getroot in Hstep as (p' & [= <-] & _ & Hl & Hto). destruct (calmly_loaded _ _ _ _ st Y E n f A A' 1 p Hi HA Hl Hto) as [Hc Hob].
  exists (set_fs f A' Y). split; [|done]. split; [|split; [done|apply vnodes_only_fs]].
  eapply (vinv_putfs _ _ _ _ _ _ _ n); try done; [lia|unfold volume; by rewrite Hvol|by eapply accounts_loaded].
Qed.

(** ** The table *)

Lemma vinv_held st Y E n a b : vinv st Y E n → vinv (set_held a b st) Y E n.
Proof.
  intros [(ks & Har & Hnd & Hall)]. split; try done. exists ks. split; [done|]. split; [done|]. eapply Forall2_impl; [done|]. intros c e []. by split.
Qed.

Lemma numdevs_ok st Y E n : vinv st Y E n → numdevs st = length (y_table Y).
Proof.
  intros Hi. destruct (vi_table _ _ _ _ _ _ _ _ Hi) as (ks & Har & _ & Hall). unfold numdevs, array_getnum. apply Forall2_length in Hall. rewrite (ar_num _ _ Har). lia.
Qed.

Lemma known_ok st Y E n i e : vinv st Y E n → y_table Y !! i = Some e → ∃ a kd, known (Z.of_nat i) st = Ret (a, kd) ∧ entry_at fsops st a e ∧ kds st !! a = Some kd ∧
  string_of (kd_name kd) (e_name e) ∧ maybe_string (kd_rawname kd) (e_raw e) ∧ kd_vnode kd = e_vnode e ∧ kd_fs kd = fst <$> e_fs e ∧ kd_device kd = e_dev e.
Proof.
  intros Hi He. destruct (vi_table _ _ _ _ _ _ _ _ Hi) as (ks & Har & _ & Hall). destruct (Forall2_lookup_r _ _ _ _ _ Hall He) as (a & Ha & Hea).
  destruct (en_kd _ _ _ _ Hea) as (kd & Hkd & Hrest). exists a, kd. split; [|done]. unfold known. rewrite (array_getguy_ok _ ks _ a Har) by (by rewrite ?Nat2Z.id || lia). ostep.
  unfold the. by rewrite Hkd.
Qed.

(** The name of the volume in memory. *)
Lemma volname_ok st Y E n a e f vol : vinv st Y E n → entry_at fsops st a e → e_fs e = Some (f, vol) →
  is_Some (y_fs Y !! f) ∧ ∃ v, volname_of fsops f st = Ret v ∧ maybe_string v vol.
Proof.
  intros Hi Hea He. destruct (en_fs _ _ _ _ Hea f vol He) as (s & Hs & Hvol). pose proof (vi_fs _ _ _ _ _ _ _ _ Hi f) as Hf. rewrite Hs in Hf.
  destruct (y_fs Y !! f) as [A|]; [|done]. split; [by eexists|]. unfold volname_of, getfs, the. rewrite Hs. ostep. eexists. split; [done|]. unfold volume in Hvol.
  destruct (fs_getvolname s) as [v|] eqn:Hv; simpl in Hvol; subst vol; [|done]. simpl. split; [apply cut_nonzero|]. apply cut_split. by eapply fs_volname_ends.
Qed.

Lemma the_device_ok st Y E n a e kd : vinv st Y E n → 0 ≤ n < 2 ^ 31 - 1 → entry_at fsops st a e → kd_vnode kd = e_vnode e → kd_device kd = e_dev e →
  has_device st (e_dev e) → returns (the_device fsops kd st) (λ '(st', r), ∃ v, r = inr v ∧ quietly st Y E (E ⊎ {[+ v +]}) n st' Y ∧ object_of Y v = Some (raw_object e)).
Proof.
  intros Hi Hn Hea Hv Hd Hhas. destruct (en_vnode _ _ _ _ Hea) as (dv & Hk & Hdata). unfold the_device. rewrite Hv, Hd.
  destruct Hhas as (x & Hx & Hdx). rewrite assert_true by (by rewrite Hx). ostep. eapply returns_bind.
  { eapply INCREF_dev; [done|done|exact Hk|]. exists x. by rewrite Hdata. }
  intros st' Hq. apply returns_ret. eexists. split; [done|]. split; [done|]. simpl. rewrite (open_count_dev _ _ _ _ st Y E n _ dv Hi Hk). simpl. by rewrite Hdata, Hx; unfold raw_object; rewrite Hx.
Qed.

(** What a lookup of [w] found. *)
Definition reached (st : state) (Y : vsys) (E : gmultiset vptr) (n : Z) (spec : result object) (x : state * result vptr) : Prop :=
  match spec with
  | inl e => x.2 = inl e ∧ ∃ Y', quietly st Y E E n x.1 Y'
  | inr ob => ∃ v Y', x.2 = inr v ∧ quietly st Y E (E ⊎ {[+ v +]}) n x.1 Y' ∧ object_of Y' v = Some ob
  end.

Lemma quietly_self st Y E n : vinv st Y E n → quietly st Y E E n st Y.
Proof. intros Hi. split; [eapply vinv_later; [done|lia]|]. split; [apply calmly_refl|apply vnodes_only_refl]. Qed.

Lemma getroot_turn_ok st Y E n i e b w : vinv st Y E n → 0 ≤ n < 2 ^ 31 - 1 → y_table Y !! i = Some e → string_of b w →
  safely low (getroot_turn fsops b (Z.of_nat i) st) (λ x, match hit w e with None => x = inl st | Some spec => ∃ r, x = inr r ∧ reached st Y E n spec r end).
Proof.
  intros Hi Hn He Hb. destruct (known_ok st Y E n i e Hi He) as (a & kd & Hkn & Hea & Hkd & Hname & Hraw & Hv & Hfs & Hdv). unfold getroot_turn. rewrite Hkn. ostep. rewrite Hfs.
  assert (Hdev : has_device st (e_dev e) → safely low (r ← the_device fsops kd st; Ret (inr r : state + state * result vptr)) (λ x, ∃ r, x = inr r ∧ reached st Y E n (inr (raw_object e)) r)).
  { intros Hhas. apply safely_returns. eapply returns_bind; [by eapply the_device_ok|]. intros [st' r] (v & -> & Hq & Hob). apply returns_ret. eexists. split; [done|]. exists v, Y. done. }
  unfold hit. pose proof (en_dev _ _ _ _ Hea) as Hhas. destruct (e_fs e) as [[f vol]|] eqn:Hef; simpl.
  - destruct (volname_ok st Y E n a e f vol Hi Hea Hef) as [[A HA] (v & -> & Hvol)]. ostep. rewrite (same_ok _ _ _ _ Hname Hb). unfold or_else. ostep.
    assert (Hor : (if bool_decide (e_name e = w) then Ret true else match v with Some v => same v b | None => Ret false end) = Ret (bool_decide (w = e_name e ∨ vol = Some w))).
    { case_bool_decide as H1; [subst; f_equal; symmetry; apply bool_decide_eq_true_2; by left|]. destruct v as [v|], vol as [vol|]; try done.
      - rewrite (same_ok _ _ _ _ Hvol Hb). f_equal. apply bool_decide_ext. split; [intros ->; by right|]. intros [->|[= ->]]; done.
      - f_equal. symmetry. apply bool_decide_eq_false_2. intros [->|?]; done. }
    rewrite Hor. ostep. destruct (decide (w = e_name e ∨ vol = Some w)) as [Hc|Hc]; [rewrite (bool_decide_eq_true_2 _ Hc)|rewrite (bool_decide_eq_false_2 _ Hc)].
    + eapply safely_bind; [eapply safely_bind; [by eapply GETROOT_ok|]|].
      * intros [st' u] Hq. apply (safely_ret _ _ (λ o, ∃ st' u, o = Some (st', inr u) ∧ ∃ Y', quietly st Y E (E ⊎ {[+ u +]}) n st' Y' ∧ object_of Y' u = Some (OFile f 1))). eauto.
      * intros o (st' & u & -> & Y' & Hq & Hob). apply safely_ret. eexists. split; [done|]. exists u, Y'. done.
    + ostep. rewrite bool_decide_eq_false_2 by (intros Hw; apply Hc; by left). ostep.
      destruct (kd_rawname kd) as [raw|], (e_raw e) as [r|] eqn:Her; try done; [|by apply safely_ret]. rewrite (same_ok _ _ _ _ Hraw Hb). ostep.
      destruct (decide (r = w)) as [->|Hr].
      2: { rewrite bool_decide_eq_false_2, decide_False by congruence. by apply safely_ret. }
      rewrite bool_decide_eq_true_2, decide_True by done. apply Hdev, Hhas. by left.
  - destruct (kd_rawname kd) as [raw|], (e_raw e) as [r|] eqn:Her; try done.
    + rewrite (same_ok _ _ _ _ Hname Hb). ostep. case_bool_decide as H1.
      * rewrite decide_True by done. rewrite decide_False by done. ostep. apply safely_ret. eexists. split; [done|]. split; [done|]. exists Y. by apply quietly_self.
      * rewrite decide_False by congruence. ostep. rewrite (same_ok _ _ _ _ Hraw Hb). ostep.
        destruct (decide (r = w)) as [->|Hr].
      2: { rewrite bool_decide_eq_false_2, decide_False by congruence. by apply safely_ret. }
      rewrite bool_decide_eq_true_2, decide_True by done. apply Hdev, Hhas. by left.
    + ostep. rewrite (same_ok _ _ _ _ Hname Hb). ostep. case_bool_decide as H1.
      * rewrite decide_True by done. rewrite decide_True by done. rewrite !assert_true by done. ostep. apply Hdev, Hhas. by right.
      * rewrite decide_False by congruence. rewrite decide_False by done. by apply safely_ret.
Qed.

(** Locks taken and given back. *)
Lemma vnodes_only_held (st st' : state) : knowndevs_lock st = false → vnodes_only (set_held true (bootfs_lock st) st) st' → vnodes_only st (release_knowndevs st').
Proof. intros Hk (h & g & ->). exists h, g. unfold release_knowndevs, set_held, set_dvnodes, set_fses. simpl. by rewrite Hk. Qed.

Lemma quietly_held st Y E E' n st' Y' : knowndevs_lock st = false → quietly (set_held true (bootfs_lock st) st) Y E E' n st' Y' → quietly st Y E E' n (release_knowndevs st') Y'.
Proof. intros Hk (Hi & Hc & Hv). split; [by apply vinv_held|]. split; [done|]. by apply vnodes_only_held. Qed.

Lemma reached_held st Y E n spec st' r : knowndevs_lock st = false → reached (set_held true (bootfs_lock st) st) Y E n spec (st', r) → reached st Y E n spec (release_knowndevs st', r).
Proof.
  intros Hk. destruct spec as [e|ob]; simpl.
  - intros (-> & Y' & Hq). split; [done|]. exists Y'. by apply quietly_held.
  - intros (v & Y' & -> & Hq & Hob). exists v, Y'. split; [done|]. split; [by apply quietly_held|done].
Qed.

Lemma vfs_getroot_ok st Y E n b w : vinv st Y E n → 0 ≤ n < 2 ^ 31 - 1 → knowndevs_lock st = false → string_of b w →
  safely low (vfs_getroot fsops b st) (reached st Y E n (named Y w)).
Proof.
  intros Hi Hn Hk Hb. unfold vfs_getroot, acquire_knowndevs. rewrite Hk. ostep. set (st1 := set_held true (bootfs_lock st) st).
  assert (Hi1 : vinv st1 Y E n) by (by apply vinv_held). rewrite (numdevs_ok st1 Y E n Hi1). eapply safely_bind.
  { eapply (for_loop_first low _ st1 (hit w) (reached st1 Y E n) (y_table Y) 0). intros j e Hj. by eapply getroot_turn_ok. }
  intros x Hx. unfold named. destruct (first (hit w) (y_table Y)) as [spec|].
  - destruct Hx as ([st' r] & -> & Hr). apply safely_ret. by apply reached_held.
  - subst x. apply safely_ret. apply reached_held; [done|]. split; [done|]. exists Y. by apply quietly_self.
Qed.

(** ** The beginning of a path *)

Lemma root_object st Y E n v f : vinv st Y E n → root_of Y v f → object_of Y v = Some (OFile f 1).
Proof. intros Hi (p & A & -> & HA & rc & oc & Hp). by eapply object_at. Qed.

Lemma vfs_getcurdir_ok st Y E n : vinv st Y E n → 0 ≤ n < 2 ^ 31 - 1 → returns (vfs_getcurdir fsops curthread st) (reached st Y E n (root_or ENOENT (y_cwd Y !! curthread))).
Proof.
  intros Hi Hn. pose proof (vi_cwd _ _ _ _ _ _ _ _ Hi curthread) as Hc. unfold vfs_getcurdir. destruct (t_cwd st !! curthread) as [v|] eqn:Ht.
  - destruct (y_cwd Y !! curthread) as [f|]; [|done]. eapply returns_bind; [eapply INCREF_ok; [done|done|]|].
    { eapply spare_held; [done|]. by eapply holds_cwd. }
    intros st' (Y' & Hq & Hob). apply returns_ret. exists v, Y'. split; [done|]. split; [done|]. rewrite Hob. by eapply root_object.
  - destruct (y_cwd Y !! curthread); [done|]. apply returns_ret. split; [done|]. exists Y. by apply quietly_self.
Qed.

Lemma vnodes_only_boot (st st' : state) : bootfs_lock st = false → vnodes_only (set_held (knowndevs_lock st) true st) st' → vnodes_only st (release_bootfs st').
Proof. intros Hk (h & g & ->). exists h, g. unfold release_bootfs, set_held, set_dvnodes, set_fses. simpl. by rewrite Hk. Qed.

Lemma boot_start_ok st Y E n : vinv st Y E n → 0 ≤ n < 2 ^ 31 - 1 → bootfs_lock st = false → returns (boot_start fsops st) (reached st Y E n (root_or ENOENT (y_boot Y))).
Proof.
  intros Hi Hn Hk. pose proof (vi_boot _ _ _ _ _ _ _ _ Hi) as Hb. unfold boot_start, acquire_bootfs. rewrite Hk. ostep. set (st1 := set_held (knowndevs_lock st) true st).
  assert (Hi1 : vinv st1 Y E n) by (by apply vinv_held). change (bootfs_vnode st1) with (bootfs_vnode st). destruct (bootfs_vnode st) as [v|] eqn:Hv.
  - destruct (y_boot Y) as [f|]; [|done]. eapply returns_bind; [eapply INCREF_ok; [exact Hi1|done|]|].
    { eapply spare_held; [done|]. by apply holds_boot. }
    intros st' (Y' & (Hi' & Hc & Hvn) & Hob). apply returns_ret. exists v, Y'. split; [done|]. split; [|rewrite Hob; by eapply root_object].
    split; [by apply vinv_held|]. split; [done|]. by apply vnodes_only_boot.
  - destruct (y_boot Y); [done|]. apply returns_ret. split; [done|]. exists Y. split; [apply vinv_held; eapply vinv_later; [done|lia]|]. split; [apply calmly_refl|].
    apply vnodes_only_boot; [done|apply vnodes_only_refl].
Qed.

Lemma reached_later st Y E n n' spec x : reached st Y E n spec x → n ≤ n' → reached st Y E n' spec x.
Proof.
  intros H Hle. destruct spec as [e|ob]; simpl in *.
  - destruct H as (-> & Y' & Hi & Hc). split; [done|]. exists Y'. split; [eapply vinv_later; [done|lia]|done].
  - destruct H as (v & Y' & Hv & (Hi & Hc) & Hob). exists v, Y'. split; [done|]. split; [|done]. split; [eapply vinv_later; [done|lia]|done].
Qed.

Lemma hand_over (E : gmultiset vptr) u v : (E ⊎ {[+ v +]} ⊎ {[+ u +]}) ∖ {[+ v +]} = E ⊎ {[+ u +]}.
Proof. multiset_solver. Qed.

Lemma curfs_start_ok st Y E n : vinv st Y E n → 0 ≤ n < 2 ^ 31 - 3 → safely low (curfs_start fsops curthread st) (reached st Y E (n + 2) (root_or ENOENT (y_cwd Y !! curthread))).
Proof.
  intros Hi Hn. unfold curfs_start. eapply safely_bind; [apply safely_returns, vfs_getcurdir_ok; [done|lia]|]. intros [st1 r] Hr.
  destruct (y_cwd Y !! curthread) as [f|]; simpl in Hr.
  2: { destruct Hr as (-> & Y1 & Hi1 & Hc1). apply safely_ret. split; [done|]. exists Y1. split; [eapply vinv_later; [done|lia]|done]. }
  destruct Hr as (v & Y1 & -> & (Hi1 & Hc1 & Hv1) & Hob). destruct (root_dir _ _ _ Hob) as (p & A & -> & HA & _).
  rewrite assert_true by (by apply bool_decide_eq_true_2). ostep. change (the (vn_fs (VFs f p))) with (Ret f). ostep.
  eapply safely_bind; [eapply GETROOT_ok; [done|lia|done]|]. intros [st2 u] (Y2 & (Hi2 & Hc2 & Hv2) & Hob2). set (v := VFs f p) in *.
  eapply safely_bind; [apply safely_returns, (DECREF_ok _ _ _ _ st2 Y2 (E ⊎ {[+ v +]} ⊎ {[+ u +]}) (n + 1 + 1) v); [done|lia|multiset_solver]|].
  intros st3 (Y3 & Hi3 & Hc3 & Hv3). apply safely_ret. rewrite hand_over in Hi3, Hc3. exists u, Y3. split; [done|]. split.
  - split; [eapply vinv_later; [done|lia]|]. split; [|eauto using vnodes_only_trans]. eapply calmly_trans; [eapply calmly_trans; [done|done|multiset_solver]|done|multiset_solver].
  - rewrite (sh_object _ _ _ _ Hc3); [done|multiset_solver].
Qed.

Lemma start_ok t st Y E n pl : vinv st Y E n → 0 ≤ n < 2 ^ 31 - 3 → unlocked st → match pl with Named w => nonzero w | _ => True end →
  safely low (start fsops curthread t pl st) (reached st Y E (n + 2) (resolve Y curthread pl)).
Proof.
  intros Hi Hn [Hk Hb] Hw. destruct pl as [| | |w]; simpl.
  - apply safely_returns. eapply returns_mono; [apply vfs_getcurdir_ok; [done|lia]|]. intros x Hx. eapply reached_later; [done|lia].
  - apply safely_returns. eapply returns_mono; [apply boot_start_ok; [done|lia|done]|]. intros x Hx. eapply reached_later; [done|lia].
  - by apply curfs_start_ok.
  - eapply safely_mono; [apply (vfs_getroot_ok st Y E n _ w); [done|lia|done|split; [done|by exists t]]|]. intros x Hx. eapply reached_later; [done|lia].
Qed.

(** ** Whole paths *)

Lemma first_some {A B} (g : A → option B) l b : first g l = Some b → ∃ a, a ∈ l ∧ g a = Some b.
Proof.
  induction l as [|a l IH]; simpl; [done|]. destruct (g a) eqn:Ha; [intros [= ->]; exists a; split; [left|done]|]. intros (c & Hc & Hg)%IH. exists c. split; [by right|done].
Qed.

Lemma resolve_root Y t pl f ino : resolve Y t pl = inr (OFile f ino) → ino = 1.
Proof.
  assert (Hr : ∀ e o, root_or e o = inr (OFile f ino) → ino = 1) by (intros e [g|]; simpl; congruence). destruct pl as [| | |w]; simpl; try apply Hr.
  unfold named. destruct (first (hit w) (y_table Y)) as [r|] eqn:Hf; [|done]. intros ->. apply first_some in Hf as (e & _ & He). unfold hit in He.
  destruct (e_fs e) as [[g vol]|]; repeat case_decide; by simplify_eq.
Qed.

Lemma parse_name w : nonzero w → match (parse w).1 with Named v => nonzero v | _ => True end.
Proof.
  intros Hw. unfold parse. assert (Hb : nonzero (before plain w)) by (rewrite <- (before_after plain w) in Hw; by apply Forall_app in Hw as [? _]).
  destruct (CString.after plain w); [done|]. destruct (before plain w); [by case_bool_decide|]. by case_bool_decide.
Qed.

Lemma getdevice_at st Y E n w t : vinv st Y E n → 0 ≤ n < 2 ^ 31 - 3 → unlocked st → nonzero w →
  safely low (getdevice fsops curthread (w ++ 0 :: t) st) (λ '(st', _, r), match resolve Y curthread (parse w).1 with
    | inl e => r = inl e ∧ ∃ Y', quietly st Y E E (n + 2) st' Y'
    | inr ob => ∃ v Y', r = inr ((parse w).2 ++ 0 :: t, v) ∧ quietly st Y E (E ⊎ {[+ v +]}) (n + 2) st' Y' ∧ object_of Y' v = Some ob
    end).
Proof.
  intros Hi Hn Hu Hw. destruct (getdevice_ok fsops curthread w t st Hw) as (path' & t' & ->). eapply safely_bind; [eapply start_ok; [done|done|done|by apply parse_name]|].
  intros [st' r] Hr. apply safely_ret. unfold reached in Hr. destruct (resolve _ _ _) as [e|ob]; simpl in *.
  - destruct Hr as (-> & Hr). by split.
  - destruct Hr as (v & Y' & -> & Hr). exists v, Y'. by split.
Qed.

Lemma nil_len (w : list Z) : bool_decide (len w = 0) = bool_decide (w = []).
Proof. apply bool_decide_ext. destruct w; simpl; split; (done || lia). Qed.

Lemma take_back (E : gmultiset vptr) v : (E ⊎ {[+ v +]}) ∖ {[+ v +]} = E.
Proof. multiset_solver. Qed.

(** Dropping the vnode the lookup began with. *)
Lemma drop_start st Y E n st1 Y1 st2 v : quietly st Y E (E ⊎ {[+ v +]}) n st1 Y1 → 0 ≤ n + 1 < 2 ^ 31 - 2 → ∀ Y2 E', vinv st2 Y2 (E' ⊎ {[+ v +]}) (n + 1 + 1) →
  calmly (E ⊎ {[+ v +]}) Y1 Y2 → vnodes_only st1 st2 → E ⊆ E' → returns (VOP_DECREF fsops v st2) (λ st3, ∃ Y3, quietly st Y E E' (n + 2) st3 Y3 ∧ calmly E' Y2 Y3).
Proof.
  intros (_ & Hc1 & Hv1) Hn Y2 E' Hi2 Hc2 Hv2 Hsub. eapply returns_mono; [apply (DECREF_ok _ _ _ _ st2 Y2 (E' ⊎ {[+ v +]}) (n + 1 + 1) v); [done|lia|multiset_solver]|].
  intros st3 (Y3 & Hi3 & Hc3 & Hv3). rewrite take_back in Hi3, Hc3. exists Y3. split; [|done]. split; [eapply vinv_later; [done|lia]|]. split; [|eauto using vnodes_only_trans].
  eapply calmly_trans; [eapply calmly_trans; [done|done|multiset_solver]|done|done].
Qed.

(** The last component is left in the buffer. *)
Lemma vfs_lookparent_ok st Y E n w t buf : vinv st Y E n → 0 ≤ n < 2 ^ 31 - 6 → unlocked st → nonzero w → len buf = 256 →
  safely low (vfs_lookparent fsops curthread (w ++ 0 :: t) buf st) (λ '(st', buf', r), match parent Y curthread w with
    | inl e => r = inl e ∧ ∃ Y', quietly st Y E E (n + 4) st' Y'
    | inr f => ∃ v Y', r = inr v ∧ buf' = filled (parse w).2 buf ∧ quietly st Y E (E ⊎ {[+ v +]}) (n + 4) st' Y' ∧ object_of Y' v = Some (OFile f 1)
    end).
Proof.
  intros Hi Hn Hu Hw Hbuf. unfold vfs_lookparent. eapply safely_bind; [apply (getdevice_at st Y E n w t); [done|lia|done|done]|]. intros [[st1 path] r]. unfold parent.
  pose proof (parse_nonzero w Hw) as Hrest. destruct (resolve _ _ _) as [e|ob] eqn:Hres.
  { intros (-> & Y' & Hi' & Hc'). apply safely_ret. split; [done|]. exists Y'. split; [eapply vinv_later; [done|lia]|done]. }
  intros (v & Y1 & -> & Hq & Hob). rewrite strlen_ok by done. ostep. rewrite nil_len. set (rest := (parse w).2) in *. pose proof Hq as (Hi1 & Hc1 & Hv1).
  assert (Hmul : v ∈ E ⊎ {[+ v +]}) by multiset_solver. assert (Hfail : ∀ e st2 Y2 b, vinv st2 Y2 (E ⊎ {[+ v +]}) (n + 4) → calmly (E ⊎ {[+ v +]}) Y1 Y2 → vnodes_only st1 st2 →
    safely low (st3 ← VOP_DECREF fsops v st2; Ret (st3, b : list Z, inl e : result vptr)) (λ '(st', _, r), r = inl e ∧ ∃ Y', quietly st Y E E (n + 4) st' Y')).
  { intros e st2 Y2 b Hi2 Hc2 Hv2. apply safely_returns. eapply returns_bind; [eapply (drop_start st Y E (n + 2)); [done|lia|by replace (n + 2 + 1 + 1) with (n + 4) by lia|done|done|done]|].
    intros st3 (Y3 & Hq3 & _). apply returns_ret. split; [done|]. exists Y3. by replace (n + 4) with (n + 2 + 2) by lia. }
  destruct (decide (rest = [])) as [Hnil|Hnil]; [rewrite bool_decide_eq_true_2 by done; ostep; apply (Hfail EINVAL st1 Y1 buf); [eapply vinv_later; [done|lia]|apply calmly_refl|apply vnodes_only_refl]|].
  rewrite bool_decide_eq_false_2 by done. destruct ob as [k a|f ino]; [|pose proof (resolve_root _ _ _ _ _ Hres) as ->].
  { destruct v as [k'|f p]; [|simpl in Hob; destruct (y_fs Y1 !! f) as [A|]; [|done]; simpl in Hob; by destruct (f_refs A !! p) as [[[]]|]]. rewrite (LOOKPARENT_dev _ _ _ _ st1 Y1 _ _ k' _ _ Hi1 Hmul). ostep.
    apply (Hfail ENOTDIR st1 Y1 buf); [eapply vinv_later; [done|lia]|apply calmly_refl|apply vnodes_only_refl]. }
  assert (Hcut : cut (rest ++ 0 :: t) = rest) by (by apply cut_app). eapply safely_bind; [apply safely_returns, (LOOKPARENT_fs _ _ _ _ st1 Y1 _ _ v f _ buf Hi1); [lia|done|set_solver]|].
  intros [[st2 buf'] r] (Y2 & H2). rewrite Hcut, Hbuf in H2. destruct r as [e|u].
  - destruct H2 as ((Hi2 & Hc2 & Hv2) & -> & Hlen). rewrite decide_True by lia. apply (Hfail ENAMETOOLONG st2 Y2 buf'); [eapply vinv_later; [done|lia]|done|done].
  - destruct H2 as ((Hi2 & Hc2 & Hv2) & Hobu & Hlen & ->). rewrite decide_False by lia. apply safely_returns.
    replace (E ⊎ {[+ v +]} ⊎ {[+ u +]}) with ((E ⊎ {[+ u +]}) ⊎ {[+ v +]}) in Hi2 by multiset_solver.
    eapply returns_bind; [eapply (drop_start st Y E (n + 2) st1 Y1 st2 v Hq); [lia|done|done|done|multiset_solver]|].
    intros st3 (Y3 & Hq3 & Hc3). apply returns_ret. exists u, Y3. split; [done|]. split; [done|]. split; [by replace (n + 4) with (n + 2 + 2) by lia|].
    rewrite (sh_object _ _ _ _ Hc3); [done|multiset_solver].
Qed.

(** Unless there is no memory, the object is found. *)
Definition found (st : state) (Y : vsys) (E : gmultiset vptr) (n : Z) (spec : result object) (x : state * result vptr) : Prop :=
  reached st Y E n spec x ∨ low ∧ reached st Y E n (inl ENOMEM) x.

Lemma vfs_lookup_ok st Y E n w t : vinv st Y E n → 0 ≤ n < 2 ^ 31 - 6 → unlocked st → nonzero w →
  safely low (vfs_lookup fsops curthread (w ++ 0 :: t) st) (found st Y E (n + 4) (look Y curthread w)).
Proof.
  intros Hi Hn Hu Hw. unfold vfs_lookup. eapply safely_bind; [apply (getdevice_at st Y E n w t); [done|lia|done|done]|]. intros [[st1 path] r]. unfold look.
  pose proof (parse_nonzero w Hw) as Hrest. destruct (resolve _ _ _) as [e|ob] eqn:Hres.
  { intros (-> & Y' & Hi' & Hc'). apply safely_ret. left. split; [done|]. exists Y'. split; [eapply vinv_later; [done|lia]|done]. }
  intros (v & Y1 & -> & Hq & Hob). rewrite strlen_ok by done. ostep. rewrite nil_len. set (rest := (parse w).2) in *. pose proof Hq as (Hi1 & Hc1 & Hv1).
  destruct (decide (rest = [])) as [Hnil|Hnil].
  { rewrite bool_decide_eq_true_2 by done. apply safely_ret. left. exists v, Y1. split; [done|]. split; [|done]. split; [eapply vinv_later; [done|lia]|done]. }
  assert (Hmul : v ∈ E ⊎ {[+ v +]}) by multiset_solver. assert (Hfail : ∀ e st2 Y2, vinv st2 Y2 (E ⊎ {[+ v +]}) (n + 4) → calmly (E ⊎ {[+ v +]}) Y1 Y2 → vnodes_only st1 st2 →
    safely low (st3 ← VOP_DECREF fsops v st2; Ret (st3, inl e : result vptr)) (reached st Y E (n + 4) (inl e))).
  { intros e st2 Y2 Hi2 Hc2 Hv2. apply safely_returns. eapply returns_bind; [eapply (drop_start st Y E (n + 2)); [done|lia|by replace (n + 2 + 1 + 1) with (n + 4) by lia|done|done|done]|].
    intros st3 (Y3 & Hq3 & _). apply returns_ret. split; [done|]. exists Y3. by replace (n + 4) with (n + 2 + 2) by lia. }
  rewrite bool_decide_eq_false_2 by done. destruct ob as [k a|f ino]; [|pose proof (resolve_root _ _ _ _ _ Hres) as ->].
  { destruct v as [k'|f p]; [|simpl in Hob; destruct (y_fs Y1 !! f) as [A|]; [|done]; simpl in Hob; by destruct (f_refs A !! p) as [[[]]|]]. rewrite (LOOKUP_dev _ _ _ _ st1 Y1 _ _ k' _ _ Hi1 Hmul) by done. ostep.
    eapply safely_mono; [apply (Hfail ENOENT st1 Y1); [eapply vinv_later; [done|lia]|apply calmly_refl|apply vnodes_only_refl]|]. by left. }
  assert (Hcut : cut (rest ++ 0 :: t) = rest) by (by apply cut_app). eapply safely_bind; [apply safely_returns, (LOOKUP_fs _ _ _ _ st1 Y1 _ _ v f _ Hi1); [lia|done|set_solver]|].
  intros [st2 r] (Y2 & H2). rewrite Hcut in H2. rewrite (names_of_calmly _ _ _ f Hc1) in H2. destruct r as [e|u].
  - destruct H2 as ((Hi2 & Hc2 & Hv2) & He). eapply safely_mono; [apply (Hfail e st2 Y2); [eapply vinv_later; [done|lia]|done|done]|].
    intros x Hx. destruct He as [[-> ->]|[-> Hlow]]; [by left|by right].
  - destruct H2 as (ino & (Hi2 & Hc2 & Hv2) & -> & Hobu). apply safely_returns. replace (E ⊎ {[+ v +]} ⊎ {[+ u +]}) with ((E ⊎ {[+ u +]}) ⊎ {[+ v +]}) in Hi2 by multiset_solver.
    eapply returns_bind; [eapply (drop_start st Y E (n + 2) st1 Y1 st2 v Hq); [lia|done|done|done|multiset_solver]|].
    intros st3 (Y3 & Hq3 & Hc3). apply returns_ret. left. exists u, Y3. split; [done|]. split; [by replace (n + 4) with (n + 2 + 2) by lia|].
    rewrite (sh_object _ _ _ _ Hc3); [done|multiset_solver].
Qed.

Lemma found_cases st Y E n spec st1 r : found st Y E n spec (st1, r) →
  (∃ e Y', r = inl e ∧ (spec = inl e ∨ e = ENOMEM ∧ low) ∧ quietly st Y E E n st1 Y') ∨
  (∃ ob v Y', r = inr v ∧ spec = inr ob ∧ quietly st Y E (E ⊎ {[+ v +]}) n st1 Y' ∧ object_of Y' v = Some ob).
Proof.
  intros [H|(Hlow & Hr & Y' & Hq)]; [|left; simpl in *; eauto 10]. destruct spec as [e|ob]; simpl in H.
  - destruct H as (-> & Y' & Hq). left. eauto 10.
  - destruct H as (v & Y' & -> & Hq & Hob). right. eauto 10.
Qed.
End resolve.
