(* ===== verification/VfsState.v ===== *)
(** * The VFS layer: working directories, the boot file system, locks *)

From stdpp Require Import gmultiset.
From S2P Require Import Prelude CArray KHeap KHeapSpec Coremap Uio CString SfsVnode SfsTheorems SfsTree SfsOps SfsLoad SfsNames FileSys Vfs VfsPath VfsInv VfsOps VfsCalls VfsResolve.

(** The references of an optional vnode. *)
Definition some_of (o : option vptr) : gmultiset vptr := match o with Some v => {[+ v +]} | None => ∅ end.

Lemma multiplicity_some_of o u : multiplicity u (some_of o) = if decide (o = Some u) then 1%nat else 0%nat.
Proof.
  destruct o as [v|]; simpl; [rewrite multiplicity_singleton|by rewrite multiplicity_empty]. destruct (decide (u = v)) as [->|]; [by rewrite decide_True|by rewrite decide_False by congruence].
Qed.

Lemma cwds_delete h t u : cwds (delete t h) u = cwds h u - if decide (h !! t = Some u) then 1 else 0.
Proof.
  unfold cwds. rewrite map_filter_delete, map_size_delete. pose proof (map_lookup_filter_Some (λ tv : nat * vptr, tv.2 = u) h t u) as Hf. simpl in Hf. case_decide as Ht.
  - assert (Hs : filter (λ tv : nat * vptr, tv.2 = u) h !! t = Some u) by (by apply Hf). rewrite Hs.
    assert (size (filter (λ tv : nat * vptr, tv.2 = u) h) ≠ 0%nat) by (intros H0%map_size_empty_inv; by rewrite H0 in Hs). lia.
  - assert (Hs : filter (λ tv : nat * vptr, tv.2 = u) h !! t = None). { apply map_lookup_filter_None. right. intros v Hv Hvu. simpl in Hvu. congruence. }
    rewrite Hs. simpl. lia.
Qed.

Lemma cwds_alter h t x u : cwds (partial_alter (λ _, x) t h) u = cwds h u + (if decide (x = Some u) then 1 else 0) - if decide (h !! t = Some u) then 1 else 0.
Proof.
  destruct x as [v|]; [|change (partial_alter _ t h) with (delete t h); rewrite cwds_delete, (decide_False (P := None = Some u)) by done; lia].
  change (partial_alter _ t h) with (<[t := v]> h). rewrite <- insert_delete_eq. pose proof (cwds_delete h t u) as Hd. unfold cwds in *. rewrite map_filter_insert. simpl.
  destruct (decide (v = u)) as [->|Hne].
  - rewrite (decide_True (P := Some u = Some u)) by done. rewrite map_size_insert_None by (apply map_lookup_filter_None; left; apply lookup_delete_eq). lia.
  - rewrite (decide_False (P := Some v = Some u)) by congruence. rewrite delete_delete_eq. lia.
Qed.

Section changes.
Context {D S : Type} (present : Z → bool) (space : Z) (fsops : nat → FsOps D S) (laws : ∀ f, FileSystem D S present space (H := fsops f)).
Abbreviation state := (vfs D S).
Abbreviation vinv := (vinv present space fsops laws).

(** A root directory, or none. *)
Definition maybe_root (Y : vsys) (x : option vptr) (y : option nat) : Prop :=
  match x, y with Some v, Some f => root_of Y v f | None, None => True | _, _ => False end.

Lemma entries_same (st st' : state) (ks : list nat) (l : list entry) : kds st' = kds st → dvnodes st' = dvnodes st → devices st' = devices st → fses st' = fses st →
  Forall2 (entry_at fsops st) ks l → Forall2 (entry_at fsops st') ks l.
Proof.
  intros H1 H2 H3 H4 Hall. eapply Forall2_impl; [done|]. intros a e []. split; [by rewrite H1|by rewrite H2|unfold has_device; by rewrite H3|by rewrite H4|by rewrite H3].
Qed.

(** Working directories hold references: what one gives up the caller has. *)
Lemma vinv_cwd st Y E E' n t x y : vinv st Y E n → maybe_root Y x y → E' ⊎ some_of x = E ⊎ some_of (t_cwd st !! t) →
  vinv (set_cwds (partial_alter (λ _, x) t (t_cwd st)) st) (set_cwd t y Y) E' n.
Proof.
  intros [Htab Honce Hfs Hdev Hopen Hdrv Hcount Hboot Hcwd Hfresh Hdisks Hlocked] Hx HE. split; try done.
  - destruct Htab as (ks & Har & Hnd & Hall). exists ks. split; [done|]. split; [done|]. by apply (entries_same st).
  - intros v. specialize (Hcount v). assert (Hm : (multiplicity v E' + multiplicity v (some_of x) = multiplicity v E + multiplicity v (some_of (t_cwd st !! t)))%nat).
    { rewrite <- !multiplicity_disj_union. by rewrite HE. }
    rewrite !multiplicity_some_of in Hm. change (spare st Y v = holds (set_cwds (partial_alter (λ _, x) t (t_cwd st)) st) v + Z.of_nat (multiplicity v E')).
    unfold holds in *. simpl. rewrite cwds_alter. repeat case_decide; lia.
  - intros u. simpl. destruct (decide (u = t)) as [->|Hne]; [by rewrite !lookup_partial_alter_eq|]. rewrite !lookup_partial_alter_ne by done. apply Hcwd.
Qed.

Lemma vinv_boot st Y E E' n x y : vinv st Y E n → maybe_root Y x y → E' ⊎ some_of x = E ⊎ some_of (bootfs_vnode st) →
  vinv (set_bootfs x st) (set_boot y Y) E' n.
Proof.
  intros [Htab Honce Hfs Hdev Hopen Hdrv Hcount Hboot Hcwd Hfresh Hdisks Hlocked] Hx HE. split; try done.
  - destruct Htab as (ks & Har & Hnd & Hall). exists ks. split; [done|]. split; [done|]. by apply (entries_same st).
  - intros v. specialize (Hcount v). assert (Hm : (multiplicity v E' + multiplicity v (some_of x) = multiplicity v E + multiplicity v (some_of (bootfs_vnode st)))%nat).
    { rewrite <- !multiplicity_disj_union. by rewrite HE. }
    rewrite !multiplicity_some_of in Hm. change (spare st Y v = holds (set_bootfs x st) v + Z.of_nat (multiplicity v E')).
    unfold holds, boots in *. simpl. repeat case_decide; lia.
Qed.

(** Allocations: addresses are never given out twice. *)
Lemma vinv_nmalloc st Y E n k : vinv st Y E n → (nmalloc st ≤ k)%nat → vinv (set_nmalloc k st) Y E n.
Proof.
  intros [Htab Honce Hfs Hdev Hopen Hdrv Hcount Hboot Hcwd (H1 & H2 & H3 & H4) Hdisks Hlocked Hatt] Hk. split; try done.
  - destruct Htab as (ks & Har & Hnd & Hall). exists ks. split; [done|]. split; [done|]. by apply (entries_same st).
  - simpl. split_and!; [intros x Hx%H1|intros x Hx%H2|intros x Hx%H3|intros x Hx%H4]; lia.
  - intros a Ha. simpl. specialize (Hatt a Ha). lia.
Qed.

(** Locks: a new one, one gone. *)
Lemma vinv_lock st Y E n v l : vinv st Y E n → (∀ m, m ∈ locks st → m ≠ l) → (l < nmalloc st)%nat →
  vinv (set_rw (<[v := Some l]> (rw_lock st)) ({[l]} ∪ locks st) st) (set_locked ({[v]} ∪ y_locked Y) Y) E n.
Proof.
  intros [Htab Honce Hfs Hdev Hopen Hdrv Hcount Hboot Hcwd (H1 & H2 & H3 & H4) Hdisks Hlocked Hatt] Hnew Hl. split; try done.
  - destruct Htab as (ks & Har & Hnd & Hall). exists ks. split; [done|]. split; [done|]. by apply (entries_same st).
  - split_and!; try done. intros m. simpl. set_unfold. intros [->|Hm]; [done|by apply H4].
  - intros u Hu. simpl in *. destruct (decide (u = v)) as [->|Hne].
    + exists l. rewrite lookup_insert_eq. split; [done|]. split; [set_solver|]. intros w Hw. destruct (decide (w = v)) as [->|Hwv]; [done|]. rewrite lookup_insert_ne by done.
      intros Hwl. destruct (Hlocked w) as (l' & Hl' & Hin & _); [set_solver|]. rewrite Hwl in Hl'. injection Hl' as <-. by destruct (Hnew l Hin).
    + destruct (Hlocked u) as (l' & Hl' & Hin & Huniq); [set_solver|]. exists l'. rewrite lookup_insert_ne by done. split; [done|]. split; [set_solver|]. intros w Hw Hwl.
      destruct (decide (w = v)) as [->|Hwv]; [rewrite lookup_insert_eq in Hwl; injection Hwl as ->; by destruct (Hnew l' Hin)|]. rewrite lookup_insert_ne in Hwl by done. apply Huniq; [set_solver|done].
Qed.

Lemma vinv_unlock st Y E n v l h : vinv st Y E n → (∀ u, u ≠ v → h !! u = rw_lock st !! u) → (∀ u, u ∈ y_locked Y → u ≠ v → rw_lock st !! u ≠ Some (Some l)) →
  vinv (set_rw h (locks st ∖ {[l]}) st) (set_locked (y_locked Y ∖ {[v]}) Y) E n.
Proof.
  intros [Htab Honce Hfs Hdev Hopen Hdrv Hcount Hboot Hcwd (H1 & H2 & H3 & H4) Hdisks Hlocked Hatt] Hh Hl. split; try done.
  - destruct Htab as (ks & Har & Hnd & Hall). exists ks. split; [done|]. split; [done|]. by apply (entries_same st).
  - split_and!; try done. intros m. simpl. set_unfold. intros [Hm _]. by apply H4.
  - intros u Hu. simpl in *. assert (u ∈ y_locked Y ∧ u ≠ v) as [Huin Huv] by set_solver. destruct (Hlocked u Huin) as (l' & Hl' & Hin & Huniq). exists l'. rewrite Hh by done.
    split; [done|]. split.
    + assert (l' ≠ l) by (intros ->; by apply (Hl u)). set_solver.
    + intros w Hw. assert (w ∈ y_locked Y ∧ w ≠ v) as [Hwin Hwv] by set_solver. rewrite Hh by done. by apply Huniq.
Qed.
End changes.
