(* ===== verification/VfsSpec.v ===== *)
(** * The VFS layer: what it promises

    The layer as an abstract machine: paths are resolved by [look] and [parent],
    names change in one file system at a time, vnodes are open as often as they
    were opened, and all but the named changes leave every name, every file and
    every open count alone ([calmly]). *)

From stdpp Require Import gmultiset.
From S2P Require Import Prelude CArray KHeap KHeapSpec Coremap Uio CString SfsVnode SfsTheorems SfsTree SfsOps SfsLoad SfsNames FileSys Vfs VfsPath VfsInv VfsOps VfsCalls VfsResolve.

(** Paths are strings in memory. *)
Inductive vcall (D : Type) :=
| COpen (path : list Z) (flags : Z)
| CClose (v : vptr)
| CRead (v : vptr) (m : memory) (u : uio)
| CWrite (v : vptr) (m : memory) (u : uio)
| CRemove (path : list Z)
| CRename (path1 path2 : list Z)
| CLink (path1 path2 : list Z)
| CSymlink (path : list Z)
| CMkdir (path : list Z)
| CRmdir (path : list Z)
| CReadlink (path : list Z)
| CChdir (path : list Z)
| CClearcurdir
| CFork (newguy : nat)
| CSetbootfs (name : list Z)
| CClearbootfs
| CSync
| CAdddev (name : list Z) (dev : device D) (disk : option fsys) (mountable : bool)
| CMount (name : list Z)
| CUnmount (name : list Z)
| CUnmountall.
Arguments COpen {D}. Arguments CClose {D}. Arguments CRead {D}. Arguments CWrite {D}. Arguments CRemove {D}. Arguments CRename {D}. Arguments CLink {D}.
Arguments CSymlink {D}. Arguments CMkdir {D}. Arguments CRmdir {D}. Arguments CReadlink {D}. Arguments CChdir {D}. Arguments CClearcurdir {D}. Arguments CFork {D}.
Arguments CSetbootfs {D}. Arguments CClearbootfs {D}. Arguments CSync {D}. Arguments CAdddev {D}. Arguments CMount {D}. Arguments CUnmount {D}. Arguments CUnmountall {D}.

Inductive vreply := VCode (e : Z) | VGot (v : vptr) | VMoved (e : Z) (m : memory) (u : uio).

Definition flag (flags bit : Z) : bool := bool_decide (Z.land flags bit ≠ 0).

(** ** Opening *)

(** The object to be opened, created if it is to be. *)
Definition locate (low : Prop) (Y : vsys) (t : nat) (w : list Z) (flags : Z) (r : result object) (Y' : vsys) : Prop :=
  if flag flags O_CREAT then
    match parent Y t w with
    | inl e => r = inl e ∧ calmly ∅ Y Y'
    | inr f =>
        let M := names_of Y f in let name := (parse w).2 in
        match r with
        | inl e => calmly ∅ Y Y' ∧ (e = EEXIST ∧ flag flags O_EXCL = true ∧ is_Some (M !! name) ∨ no_room M name e ∨ e = ENOMEM ∧ low)
        | inr ob => ∃ ino, ob = OFile f ino ∧
            (M !! name = Some ino ∧ flag flags O_EXCL = false ∧ calmly ∅ Y Y' ∨
             M !! name = None ∧ unused Y f ino ∧ alters f (<[name := ino]> M) {[ino]} ∅ Y Y')
        end
    end
  else calmly ∅ Y Y' ∧ (r = look Y t w ∨ r = inl ENOMEM ∧ low).

(** Why an object is not opened. *)
Definition open_error (Y : vsys) (ob : object) (flags : Z) (canwrite : bool) : Z :=
  if decide (open_code Y ob flags ≠ 0) then open_code Y ob flags
  else if flag flags O_TRUNC && negb canwrite then EINVAL else 0.

Definition emptied (ob : object) (flags : Z) (Y Y' : vsys) : Prop :=
  match ob with
  | OFile f ino => if flag flags O_TRUNC then alters f (names_of Y f) {[ino]} ∅ Y Y' else Y' = Y
  | ODev _ _ => Y' = Y
  end.

(** The lock of the vnode is a new one; if memory is short, it may be none. *)
Definition relocked (short : Prop) (v : vptr) (Y Y' : vsys) : Prop :=
  Y' = set_locked ({[v]} ∪ y_locked Y) Y ∨ short ∧ Y' = set_locked (y_locked Y ∖ {[v]}) Y.

Definition open_spec (low short : Prop) (Y : vsys) (t : nat) (w : list Z) (flags : Z) (r : result vptr) (Y' : vsys) : Prop :=
  match open_mode flags with
  | None => r = inl EINVAL ∧ calmly ∅ Y Y'
  | Some canwrite => ∃ lr Y1, locate low Y t w flags lr Y1 ∧
      match lr with
      | inl e => r = inl e ∧ Y' = Y1
      | inr ob =>
          if decide (open_error Y1 ob flags canwrite = 0) then ∃ v Y2 Y3, r = inr v ∧ object_of Y1 v = Some ob ∧
            reopened ∅ Y1 v (open_count Y1 v + 1) Y2 ∧ emptied ob flags Y2 Y3 ∧ relocked short v Y3 Y'
          else r = inl (open_error Y1 ob flags canwrite) ∧ calmly ∅ Y1 Y'
      end
  end.

Definition close_spec (Y : vsys) (v : vptr) (Y' : vsys) : Prop :=
  ∃ Y1, reopened ∅ (set_locked (y_locked Y ∖ {[v]}) Y) v (open_count Y v - 1) Y1 ∧ calmly ∅ Y1 Y'.

(** ** Names *)

(** What is done in the root directory of the file system the path leads to. *)
Definition at_parent (Y : vsys) (t : nat) (w : list Z) (act : nat → Prop) (e : Z) (Y' : vsys) : Prop :=
  match parent Y t w with
  | inl e' => e = e' ∧ calmly ∅ Y Y'
  | inr f => act f
  end.

Definition remove_spec (low : Prop) (Y : vsys) (t : nat) (w : list Z) (e : Z) (Y' : vsys) : Prop :=
  at_parent Y t w (λ f, let M := names_of Y f in let name := (parse w).2 in
    if decide (e = 0) then is_Some (M !! name) ∧ alters f (delete name M) ∅ ∅ Y Y'
    else calmly ∅ Y Y' ∧ (e = ENOENT ∧ M !! name = None ∨ e = ENOMEM ∧ low)) e Y'.

(** No file system has symbolic links or more directories. *)
Definition unsupported_spec (Y : vsys) (t : nat) (w : list Z) (e : Z) (Y' : vsys) : Prop :=
  at_parent Y t w (λ _, e = EUNIMP ∧ calmly ∅ Y Y') e Y'.

Definition readlink_spec (low : Prop) (Y : vsys) (t : nat) (w : list Z) (e : Z) (Y' : vsys) : Prop :=
  calmly ∅ Y Y' ∧ (e = ENOMEM ∧ low ∨ e = match look Y t w with inl e => e | inr ob => other_code ob vop_readlink end).

Definition rename_spec (low : Prop) (Y : vsys) (t : nat) (w1 w2 : list Z) (e : Z) (Y' : vsys) : Prop :=
  at_parent Y t w1 (λ f1, at_parent Y t w2 (λ f2,
    if decide (f1 = f2) then
      let M := names_of Y f1 in let name1 := (parse w1).2 in let name2 := (parse w2).2 in
      if decide (e = 0) then ∃ ino, M !! name1 = Some ino ∧ M !! name2 = None ∧ alters f1 (delete name1 (<[name2 := ino]> M)) ∅ ∅ Y Y'
      else calmly ∅ Y Y' ∧ (e = ENOENT ∧ M !! name1 = None ∨ e = EEXIST ∧ is_Some (M !! name2) ∨ no_room M name2 e ∨ e = ENOMEM ∧ low)
    else e = EXDEV ∧ calmly ∅ Y Y') e Y') e Y'.

Definition object_fs (ob : object) : option nat := match ob with ODev _ _ => None | OFile f _ => Some f end.
Definition link_spec (low : Prop) (Y : vsys) (t : nat) (w1 w2 : list Z) (e : Z) (Y' : vsys) : Prop :=
  e = ENOMEM ∧ low ∧ calmly ∅ Y Y' ∨
  match look Y t w1 with
  | inl e' => e = e' ∧ calmly ∅ Y Y'
  | inr ob => at_parent Y t w2 (λ f,
      match ob with
      | OFile g ino =>
          if decide (g = f) then
            let M := names_of Y f in let name := (parse w2).2 in
            if decide (e = 0) then M !! name = None ∧ alters f (<[name := ino]> M) ∅ ∅ Y Y'
            else calmly ∅ Y Y' ∧ (e = EEXIST ∧ is_Some (M !! name) ∨ no_room M name e)
          else e = EXDEV ∧ calmly ∅ Y Y'
      | ODev _ _ => e = EXDEV ∧ calmly ∅ Y Y'
      end) e Y'
  end.

(** ** Directories *)

(** The thread is now in the file system [f]. *)
Definition chdir_spec (low : Prop) (Y : vsys) (t : nat) (w : list Z) (e : Z) (Y' : vsys) : Prop :=
  match look Y t w with
  | inr (OFile f ino) => if decide (ino = 1) then e = 0 ∧ calmly ∅ (set_cwd t (Some f) Y) Y' ∨ e = ENOMEM ∧ low ∧ calmly ∅ Y Y' else (e = ENOTDIR ∨ e = ENOMEM ∧ low) ∧ calmly ∅ Y Y'
  | inr (ODev _ _) => (e = ENOTDIR ∨ e = ENOMEM ∧ low) ∧ calmly ∅ Y Y'
  | inl e' => (e = e' ∨ e = ENOMEM ∧ low) ∧ calmly ∅ Y Y'
  end.

(** The root of the volume, which becomes the working directory as well. A name
    with a colon is refused. *)
Definition setbootfs_spec (low : Prop) (Y : vsys) (t : nat) (w : list Z) (e : Z) (Y' : vsys) : Prop :=
  let name := take 254 w in
  if decide (COLON ∈ name) then e = EINVAL ∧ calmly ∅ Y Y'
  else ∃ Y1, chdir_spec low Y t (name ++ [COLON]) e Y1 ∧
    if decide (e = 0) then calmly ∅ (set_boot (y_cwd Y1 !! t) Y1) Y' else calmly ∅ Y1 Y'.

(** ** Mounting *)

Definition with_fs (e : entry) (x : option (nat * option (list Z))) : entry := Entry (e_name e) (e_raw e) (e_dev e) (e_vnode e) x.
Definition mounted (i : nat) (e : entry) (f : nat) (vol : option (list Z)) (a : nat) (A : fsys) (Y : vsys) : vsys :=
  Vsys (<[i := with_fs e (Some (f, vol))]> (y_table Y)) (<[f := A]> (y_fs Y)) (y_boot Y) (y_cwd Y) (delete a (y_disks Y)) (y_drv Y) (y_devs Y) (y_locked Y).
Definition unmounted (i : nat) (e : entry) (f a : nat) (A : fsys) (Y : vsys) : vsys :=
  Vsys (<[i := with_fs e None]> (y_table Y)) (delete f (y_fs Y)) (y_boot Y) (y_cwd Y) (<[a := A]> (y_disks Y)) (y_drv Y) (y_devs Y) (y_locked Y).

(** Devices that can be mounted. *)
Definition mountpoint (w : list Z) (e : entry) : Prop := e_raw e ≠ None ∧ e_name e = w.
#[export] Instance mountpoint_dec w e : Decision (mountpoint w e).
Proof. unfold mountpoint. apply _. Defined.

(** What has been mounted has the names and files it had, and no references. *)
Definition same_disk (A A' : fsys) : Prop := f_refs A' = ∅ ∧ f_names A' = f_names A ∧ same_files A A' ∅.

Definition mount_spec (low : Prop) (Y : vsys) (w : list Z) (e : Z) (Y' : vsys) : Prop :=
  match list_find (mountpoint w) (y_table Y) with
  | None => e = ENODEV ∧ Y' = Y
  | Some (i, en) =>
      if decide (e_fs en = None) then
        e = ENOMEM ∧ low ∧ Y' = Y ∨
        e = 0 ∧ ∃ f vol a A A', e_dev en = Some a ∧ y_disks Y !! a = Some A ∧ y_fs Y !! f = None ∧ same_disk A A' ∧ Y' = mounted i en f vol a A' Y
      else e = EBUSY ∧ Y' = Y
  end.

(** Somebody is in the file system, or has a file of it open. *)
Definition busy (Y : vsys) (f : nat) : Prop :=
  (∃ p, opens_at Y f p ≠ None) ∨ y_boot Y = Some f ∨ ∃ t, y_cwd Y !! t = Some f.

Definition drop_fs (i : nat) (en : entry) (f : nat) (e : Z) (Y Y' : vsys) : Prop :=
  busy Y f ∧ e = EBUSY ∧ calmly ∅ Y Y' ∨
  ¬ busy Y f ∧ e = 0 ∧ ∃ a A A', e_dev en = Some a ∧ y_fs Y !! f = Some A ∧ same_disk A A' ∧ Y' = unmounted i en f a A' Y.

Definition unmount_spec (Y : vsys) (w : list Z) (e : Z) (Y' : vsys) : Prop :=
  match list_find (mountpoint w) (y_table Y) with
  | None => e = ENODEV ∧ Y' = Y
  | Some (i, en) =>
      match e_fs en with
      | None => e = EINVAL ∧ Y' = Y
      | Some (f, _) => drop_fs i en f e Y Y'
      end
  end.

(** The entries from [i] on, one after the other. *)
Fixpoint unmountall_spec (k i : nat) (Y Y' : vsys) : Prop :=
  match k with
  | O => Y' = Y
  | S k => ∃ Y1, unmountall_spec k (S i) Y1 Y' ∧
      match y_table Y !! i with
      | Some en =>
          match e_raw en, e_fs en with
          | Some _, Some (f, _) => ∃ e, drop_fs i en f e Y Y1
          | _, _ => Y1 = Y
          end
      | None => Y1 = Y
      end
  end.

(** ** New devices *)

Definition raw_name (w : list Z) (mountable : bool) : option (list Z) := if mountable then Some (w ++ [114; 97; 119]) else None.

(** The names of an entry. *)
Definition volume_of (e : entry) : option (list Z) := match e_fs e with Some (_, vol) => vol | None => None end.
Definition has_name (w : list Z) (e : entry) : Prop := volume_of e = Some w ∨ e_raw e = Some w ∨ w = e_name e.
Definition clash (w : list Z) (raw : option (list Z)) (e : entry) : Prop := has_name w e ∨ match raw with Some r => has_name r e | None => False end.
#[export] Instance clash_dec w raw e : Decision (clash w raw e).
Proof. unfold clash, has_name. destruct raw; apply _. Defined.

(** The device at address [a]; it may hold a file system. *)
Definition attached (a : nat) (drv : Z → Z) (disk : option fsys) (Y : vsys) : vsys :=
  Vsys (y_table Y) (y_fs Y) (y_boot Y) (y_cwd Y) (match disk with Some A => <[a := A]> (y_disks Y) | None => y_disks Y end) (<[a := drv]> (y_drv Y)) (y_devs Y) (y_locked Y).
Definition added (e : entry) (Y : vsys) : vsys :=
  Vsys (y_table Y ++ [e]) (y_fs Y) (y_boot Y) (y_cwd Y) (y_disks Y) (y_drv Y) (<[e_vnode e := (0, e_dev e)]> (y_devs Y)) (y_locked Y).

(** If it cannot be added, its vnode may be left over. *)
Definition left_over (a : nat) (Y Y' : vsys) : Prop := Y' = Y ∨ ∃ k, y_devs Y !! k = None ∧ Y' = set_open k (0, Some a) Y.

Definition adddev_spec (short : Prop) (Y : vsys) (w : list Z) (a : nat) (mountable : bool) (e : Z) (Y' : vsys) : Prop :=
  e = ENOMEM ∧ short ∧ left_over a Y Y' ∨
  e = EEXIST ∧ Exists (clash w (raw_name w mountable)) (y_table Y) ∧ left_over a Y Y' ∨
  e = 0 ∧ Forall (λ en, ¬ clash w (raw_name w mountable) en) (y_table Y) ∧ ∃ k, y_devs Y !! k = None ∧
    Y' = added (Entry w (raw_name w mountable) (Some a) k None) Y.
