(* ===== verification/VfsRefine.v ===== *)
(** * The VFS layer: the code does what it promises *)

From stdpp Require Import gmultiset.
From S2P Require Import Prelude CArray KHeap KHeapSpec Coremap Uio CString SfsVnode SfsTheorems SfsTree SfsOps SfsLoad SfsNames FileSys Vfs VfsPath VfsInv VfsOps VfsCalls VfsResolve VfsState VfsSpec.

(** ** Calm changes nothing that names depend on *)

Lemma change_ext M X O O' A A' : change M X O A A' → (∀ p, O p = O' p) → change M X O' A A'.
Proof. intros (Hn & Hs & He & Ho) HO. split; [done|]. split; [done|]. split; [done|]. intros p. by rewrite Ho. Qed.

Lemma opens_at_calmly E Y Y' f p : calmly E Y Y' → opens_at Y' f p = opens_at Y f p.
Proof. intros [_ Hfs _]. specialize (Hfs f). unfold opens_at. destruct (y_fs Y !! f), (y_fs Y' !! f); try done. by destruct Hfs as (_ & _ & _ & ->). Qed.

Lemma unused_calmly E Y Y' f ino : calmly E Y Y' → unused Y' f ino → unused Y f ino.
Proof. intros Hc (H1 & H2 & H3). split; [done|]. rewrite (names_of_calmly _ _ _ f Hc) in H2. split; [done|]. intros p oc. by rewrite <- (opens_at_calmly _ _ _ f p Hc). Qed.

Lemma resolve_same Y Y' t pl : same_rest Y Y' → resolve Y' t pl = resolve Y t pl.
Proof. intros (H1 & H2 & H3 & _). destruct pl; simpl; [by rewrite H3|by rewrite H2|by rewrite H3|unfold named; by rewrite H1]. Qed.

Lemma parent_calmly E Y Y' t w : calmly E Y Y' → parent Y' t w = parent Y t w.
Proof. intros Hc. unfold parent. by rewrite (resolve_same Y Y') by apply Hc. Qed.

Lemma look_calmly E Y Y' t w : calmly E Y Y' → look Y' t w = look Y t w.
Proof.
  intros Hc. unfold look. rewrite (resolve_same Y Y') by apply Hc. destruct (resolve Y t (parse w).1) as [|[]]; try done. by rewrite (names_of_calmly _ _ _ _ Hc).
Qed.

Lemma calmly_alters f M X E E1 Y Y1 Y2 : calmly E Y Y1 → alters f M X E1 Y1 Y2 → E ⊆ E1 → alters f M X E Y Y2.
Proof.
  intros Hc Ha HE. eapply calmly_within; [done| |done|apply calm_change]. destruct Ha as [Hr Hf Ho]. split; [done| |done]. intros g. specialize (Hf g).
  destruct (y_fs Y1 !! g), (y_fs Y2 !! g); try done. unfold within in *. case_decide; [|done]. eapply change_ext; [done|]. intros p. by apply (opens_at_calmly E).
Qed.
Lemma alters_calmly f M X E E1 Y Y1 Y2 : alters f M X E Y Y1 → calmly E1 Y1 Y2 → E ⊆ E1 → alters f M X E Y Y2.
Proof. intros Ha Hc HE. eapply within_calmly; [done|done|done|apply change_calm]. Qed.
Lemma alters_none f M X E E' Y Y' : alters f M X E Y Y' → E' ⊆ E → alters f M X E' Y Y'.
Proof. apply shifts_mono. Qed.

Lemma only_one (v : vptr) : (∅ : gmultiset vptr) ⊎ {[+ v +]} = {[+ v +]}.
Proof. multiset_solver. Qed.
Lemma none_left (v : vptr) : ({[+ v +]} : gmultiset vptr) ∖ {[+ v +]} = ∅.
Proof. multiset_solver. Qed.

(** The name left in the buffer is the last component. *)
Lemma filled_string w buf : nonzero w → 0 ∈ filled w buf ∧ cut (filled w buf) = w.
Proof. intros Hw. unfold filled. split; [set_solver|by apply cut_app]. Qed.

(** Opened and closed again: nothing has changed. *)
Lemma opens_shape R p ino rc oc : R !! p = Some (ino, rc, oc) → ∃ c, (match opens R p with Some (_, oc) => oc | None => 0 end) = c ∧ 0 ≤ c ∧ opens R p = if decide (0 < c) then Some (ino, c) else None.
Proof. intros Hp. unfold opens. rewrite Hp. case_decide; eexists; (split; [done|]); (split; [lia|]); [by rewrite decide_True|done]. Qed.

Lemma reopened_back E E1 Y v Y1 Y2 : reopened E Y v (open_count Y v + 1) Y1 → reopened E1 Y1 v (open_count Y1 v - 1) Y2 → E ⊆ E1 → calmly E Y Y2.
Proof.
  intros H1 H2 HE. destruct v as [k|f p]; simpl in *.
  - destruct H1 as (x & Hx & ->), H2 as (x' & Hx' & ->). simpl in *. rewrite Hx in *. rewrite lookup_insert_eq in *. injection Hx' as <-. destruct x as [oc data]. simpl in *.
    unfold set_open. simpl. rewrite insert_insert_eq, insert_id; [destruct Y; apply calmly_refl|]. rewrite Hx. repeat f_equal. lia.
  - destruct H1 as (ino & Hob & Hs1), H2 as (ino' & Hob' & Hs2). destruct (y_fs Y !! f) as [A|] eqn:HA; [|done]. simpl in Hob. destruct (f_refs A !! p) as [[[i rc] oc]|] eqn:Hp; [|done].
    simpl in Hob. injection Hob as ->. destruct (opens_shape _ _ _ _ _ Hp) as (c & Hc & Hpos & Hop). rewrite Hc in Hs1. rewrite decide_True in Hs1 by lia.
    pose proof (sh_fs _ _ _ _ Hs1 f) as Hf1. rewrite HA in Hf1. destruct (y_fs Y1 !! f) as [A1|] eqn:HA1; [|done]. unfold within in Hf1. rewrite decide_True in Hf1 by done.
    pose proof Hf1 as (_ & _ & _ & Ho1). specialize (Ho1 p). rewrite decide_True in Ho1 by done. rewrite Ho1 in Hs2.
    assert (ino' = ino) as ->. { simpl in Hob'. unfold opens in Ho1. destruct (f_refs A1 !! p) as [[[i' rc'] oc']|]; [|done]. case_decide; [|done]. simpl in Hob'. by simplify_eq. }
    replace (c + 1 - 1) with c in Hs2 by lia. rewrite <- Hop in Hs2. eapply shifts_trans; [exact Hs1|exact Hs2|done|]. intros g B B1 B2 HB _. unfold within.
    destruct (decide (g = f)) as [->|]; [|apply calm_trans]. rewrite HA in HB. injection HB as <-. apply recount_back.
Qed.

Lemma reopened_count E Y v c Y' : reopened E Y v c Y' → 0 ≤ c → open_count Y' v = c.
Proof.
  intros H Hc. destruct v as [k|f p]; simpl in *; [destruct H as (x & Hx & ->); simpl; by rewrite lookup_insert_eq|]. destruct H as (ino & Hob & Hs). pose proof (sh_fs _ _ _ _ Hs f) as Hf.
  destruct (y_fs Y !! f) as [A|]; [|done]. destruct (y_fs Y' !! f) as [A'|]; [|done]. unfold within in Hf. rewrite decide_True in Hf by done. destruct Hf as (_ & _ & _ & Ho). rewrite Ho.
  rewrite decide_True by done. case_decide; [done|lia].
Qed.

Lemma reopened_object E Y v c Y' u : reopened E Y v c Y' → u ∈ E → object_of Y' u = object_of Y u.
Proof.
  intros H Hu. destruct v as [k|f p]; simpl in *; [|destruct H as (ino & _ & Hs); by apply Hs]. destruct H as (x & Hx & ->). destruct u as [j|g q]; [|done]. simpl.
  destruct (decide (j = k)) as [->|]; [by rewrite lookup_insert_eq, Hx; destruct x|by rewrite lookup_insert_ne].
Qed.

Lemma reopened_mono E E' Y v c Y' : reopened E Y v c Y' → E' ⊆ E → reopened E' Y v c Y'.
Proof. intros H HE. destruct v as [k|f p]; [done|]. destruct H as (ino & Hob & Hs). exists ino. split; [done|]. by eapply shifts_mono. Qed.

(** Devices are not truncated. *)
Lemma open_trunc_dev Y k a flags : flag flags O_TRUNC = true → open_code Y (ODev k a) flags ≠ 0.
Proof.
  unfold flag. intros H%bool_decide_eq_true. unfold open_code. rewrite bool_decide_eq_true_2; [done|]. intros H0. apply H.
  replace O_TRUNC with (Z.land (Z.lor (Z.lor (Z.lor O_CREAT O_TRUNC) O_EXCL) O_APPEND) O_TRUNC) by done. by rewrite Z.land_assoc, H0.
Qed.

Lemma open_root_write Y f flags : open_mode flags = Some true → open_code Y (OFile f 1) flags ≠ 0.
Proof.
  unfold open_mode. intros H. unfold open_code, open_result. rewrite bool_decide_eq_true_2 by done. rewrite decide_True; [done|]. left. unfold writing.
  intros H0. by rewrite H0 in H.
Qed.

Section refine.
Context {D S : Type} (present : Z → bool) (space : Z) (fsops : nat → FsOps D S) (laws : ∀ f, FileSystem D S present space (H := fsops f)).
Context (nomem : nat → bool) (stack : list Z) (Hstack : len stack = 256) (curthread : nat).
Abbreviation state := (vfs D S).
Abbreviation vinv := (vinv present space fsops laws).
Abbreviation quietly := (quietly present space fsops laws).
Abbreviation low := (low present space fsops laws).

Lemma unlocked_vnodes (st st' : state) : vnodes_only st st' → unlocked st → unlocked st'.
Proof. by intros (h & g & ->). Qed.

(** Memory may be lacking. *)
Definition short : Prop := ∃ k, nomem k = true.

(** ** Opening *)

Lemma open_vnode_ok st Y n b flags : vinv st Y ∅ n → 0 ≤ n < 2 ^ 31 - 10 → unlocked st → 0 ∈ b →
  safely low (open_vnode fsops stack curthread b flags st) (λ '(st', r), ∃ Y', vnodes_only st st' ∧ match r with
    | inl e => vinv st' Y' ∅ (n + 7) ∧ locate low Y curthread (cut b) flags (inl e) Y'
    | inr v => vinv st' Y' {[+ v +]} (n + 7) ∧ ∃ ob, object_of Y' v = Some ob ∧ locate low Y curthread (cut b) flags (inr ob) Y'
    end).
Proof.
  intros Hi Hn Hu [t Hb]%cut_split. pose proof (cut_nonzero b) as Hw. set (w := cut b) in *. unfold open_vnode, locate. fold (flag flags O_CREAT). destruct (flag flags O_CREAT).
  - rewrite Hb at 1. eapply safely_bind; [apply (vfs_lookparent_ok _ _ _ _ curthread st Y ∅ n w t stack); [done|lia|done|done|done]|]. intros [[st1 name] r]. destruct (parent Y curthread w) as [e|f].
    { intros (-> & Y1 & Hi1 & Hc1 & Hv1). apply safely_ret. exists Y1. split; [done|]. split; [eapply vinv_later; [done|lia]|done]. }
    intros (v & Y1 & -> & -> & (Hi1 & Hc1 & Hv1) & Hob). rewrite only_one in Hi1. destruct (filled_string (parse w).2 stack (parse_nonzero w Hw)) as [H0 Hcut].
    fold (flag flags O_EXCL). eapply safely_bind; [apply safely_returns, (CREAT_fs _ _ _ _ st1 Y1 _ _ v f _ (flag flags O_EXCL) Hi1); [lia|done|done]|].
    rewrite Hcut, (names_of_calmly _ _ _ f Hc1). intros [st2 r] (Y2 & Hv2 & Hr). destruct r as [e|u].
    + destruct Hr as (Hi2 & Hc2 & He). eapply safely_bind; [apply safely_returns, (DECREF_ok _ _ _ _ st2 Y2 {[+ v +]} (n + 4 + 1 + 1) v); [done|lia|multiset_solver]|].
      intros st3 (Y3 & Hi3 & Hc3 & Hv3). rewrite none_left in Hi3, Hc3. apply safely_ret. exists Y3. split; [eauto using vnodes_only_trans|].
      split; [eapply vinv_later; [done|lia]|]. split; [|done]. eapply calmly_trans; [eapply calmly_trans; [done|done|multiset_solver]|done|done].
    + destruct Hr as (Hi2 & ino & Hobu & Hcase). eapply safely_bind; [apply safely_returns, (DECREF_ok _ _ _ _ st2 Y2 ({[+ v +]} ⊎ {[+ u +]}) (n + 4 + 1 + 1) v); [done|lia|multiset_solver]|].
      intros st3 (Y3 & Hi3 & Hc3 & Hv3). replace (({[+ v +]} ⊎ {[+ u +]}) ∖ {[+ v +]}) with ({[+ u +]} : gmultiset vptr) in * by multiset_solver.
      apply safely_ret. exists Y3. split; [eauto using vnodes_only_trans|]. split; [eapply vinv_later; [done|lia]|]. exists (OFile f ino).
      split; [rewrite (sh_object _ _ _ _ Hc3); [done|multiset_solver]|]. exists ino. split; [done|]. destruct Hcase as [(Hnm & Hx & Hc2)|(Hnm & Hun & Ha2)]; [left|right].
      * split; [done|]. split; [done|]. eapply calmly_trans; [eapply calmly_trans; [done|done|multiset_solver]|done|multiset_solver].
      * split; [done|]. split; [by eapply unused_calmly|]. eapply alters_calmly; [eapply calmly_alters; [done|done|multiset_solver]|done|multiset_solver].
  - rewrite Hb at 1. eapply safely_mono; [apply (vfs_lookup_ok _ _ _ _ curthread st Y ∅ n w t); [done|lia|done|done]|]. intros [st1 r] Hr.
    apply found_cases in Hr as [(e & Y' & -> & He & Hi' & Hc' & Hv')|(ob & v & Y' & -> & Hob & (Hi' & Hc' & Hv') & Hobv)]; exists Y'; (split; [done|]).
    + split; [eapply vinv_later; [done|lia]|]. split; [done|]. destruct He as [He|[-> Hlow]]; [by left|by right].
    + rewrite only_one in Hi'. split; [eapply vinv_later; [done|lia]|]. exists ob. split; [done|]. split; [done|]. by left.
Qed.

(** A new lock for an open vnode. *)
Lemma relock_ok st Y n v : vinv st Y ∅ n → let '(l, st') := lock_create nomem st in
  ∃ Y', vinv (set_rw (<[v := l]> (rw_lock st')) (locks st') st') Y' ∅ n ∧ relocked short v Y Y'.
Proof.
  intros Hi. destruct (vi_fresh _ _ _ _ _ _ _ _ Hi) as (_ & _ & _ & Hfresh). set (k := nmalloc st) in *.
  assert (Hnone : short → ∀ k', (nmalloc st ≤ k')%nat → ∃ Y', vinv (set_rw (<[v := None]> (rw_lock st)) (locks st) (set_nmalloc k' st)) Y' ∅ n ∧ relocked short v Y Y').
  { intros Hsh k' Hk'. exists (set_locked (y_locked Y ∖ {[v]}) Y). split; [|by right]. replace (locks st) with (locks st ∖ {[k]}) at 1.
    2: { apply leibniz_equiv. intros x. set_unfold. split; [tauto|]. intros Hx. split; [done|]. intros ->. specialize (Hfresh k Hx). lia. }
    eapply (vinv_unlock _ _ _ _ (set_nmalloc k' st)); [by apply vinv_nmalloc|intros u Hu; by rewrite lookup_insert_ne|].
    intros u Hu _ Hl. destruct (vi_locked _ _ _ _ _ _ _ _ Hi u Hu) as (l & Hl' & Hin & _). simpl in Hl. rewrite Hl in Hl'. injection Hl' as <-. specialize (Hfresh k Hin). lia. }
  unfold lock_create, kmalloc. fold k. destruct (nomem k) eqn:H1; [apply Hnone; [by eexists|lia]|]. simpl. destruct (nomem (Datatypes.S k)) eqn:H2; [apply (Hnone ltac:(by eexists) (Datatypes.S (Datatypes.S k))); lia|].
  eexists. split; [|by left]. eapply (vinv_lock _ _ _ _ (set_nmalloc (Datatypes.S (Datatypes.S k)) st) Y ∅ n v k); [apply vinv_nmalloc; [done|lia]| |simpl; lia].
  intros m Hm ->. specialize (Hfresh k Hm). lia.
Qed.


(** The rest of vfs_open, once the vnode is there. *)
Definition open_rest (canwrite : bool) (vn : vptr) (openflags : Z) (st : state) : outcome (state * result vptr) :=
  result ← VOP_OPEN fsops vn openflags st;
  if bool_decide (result ≠ 0) then st ← VOP_DECREF fsops vn st; Ret (st, inl result)
  else
    st ← VOP_INCOPEN fsops vn st;
    '(result, st) ← (if flag openflags O_TRUNC then if negb canwrite then Ret (EINVAL, st) else VOP_TRUNCATE fsops vn 0 st else Ret (0, st));
    if bool_decide (result ≠ 0) then st ← VOP_DECOPEN fsops vn st; st ← VOP_DECREF fsops vn st; Ret (st, inl result)
    else
      let '(l, st) := lock_create nomem st in
      Ret (set_rw (<[vn := l]> (rw_lock st)) (locks st) st, inr vn).

Lemma unlocked_lock (st : state) v : unlocked st → let '(l, st') := lock_create nomem st in unlocked (set_rw (<[v := l]> (rw_lock st')) (locks st') st').
Proof. intros Hu. unfold lock_create, kmalloc. by repeat (case_match; simplify_eq). Qed.

Lemma truncate_open st Y0 Y n v ob flags : vinv st Y ∅ n → 0 ≤ n < 2 ^ 31 - 5 → object_of Y v = Some ob → open_code Y0 ob flags = 0 → open_mode flags = Some true → flag flags O_TRUNC = true →
  returns (VOP_TRUNCATE fsops v 0 st) (λ '(e, st'), e = 0 ∧ vnodes_only st st' ∧ ∃ Y', vinv st' Y' ∅ (n + 1) ∧ emptied ob flags Y Y').
Proof.
  intros Hi Hn Hob Hcode Hmode Hfl. destruct ob as [k a|f ino]; [by destruct (open_trunc_dev Y0 k a flags)|]. assert (ino ≠ 1) by (intros ->; by apply (open_root_write Y0 f flags)).
  assert (∃ p, v = VFs f p) as [p ->].
  { destruct v as [k|g p]; simpl in Hob; [by destruct (y_devs Y !! k) as [[? [|]]|]|]. destruct (y_fs Y !! g) as [A|]; [|done]. simpl in Hob. destruct (f_refs A !! p) as [[[? ?] ?]|]; simpl in Hob; simplify_eq. eauto. }
  eapply returns_mono; [eapply (TRUNCATE_fs _ _ _ _ st Y ∅ n f p ino); [done|lia|done]|]. intros [e st'] (Y' & Hi' & Hv & He). rewrite decide_False in He by done. destruct He as [-> Ha].
  split; [done|]. split; [done|]. exists Y'. split; [done|]. simpl. by rewrite Hfl.
Qed.

Lemma open_rest_ok st Y n v ob flags canwrite : vinv st Y {[+ v +]} n → 0 ≤ n < 2 ^ 31 - 10 → unlocked st → object_of Y v = Some ob → open_mode flags = Some canwrite →
  returns (open_rest canwrite v flags st) (λ '(st', r), ∃ Y', vinv st' Y' ∅ (n + 4) ∧ unlocked st' ∧
    if decide (open_error Y ob flags canwrite = 0) then ∃ Y2 Y3, r = inr v ∧ reopened ∅ Y v (open_count Y v + 1) Y2 ∧ emptied ob flags Y2 Y3 ∧ relocked short v Y3 Y'
    else r = inl (open_error Y ob flags canwrite) ∧ calmly ∅ Y Y').
Proof.
  intros Hi Hn Hu Hob Hmode. unfold open_rest. rewrite (OPEN_ok _ _ _ _ st Y {[+ v +]} n v ob flags Hi) by (done || lia || multiset_solver). ostep. unfold open_error.
  destruct (decide (open_code Y ob flags ≠ 0)) as [Hcode|Hcode].
  { rewrite bool_decide_eq_true_2 by done. destruct (decide (open_code Y ob flags = 0)) as [?|_]; [done|]. eapply returns_bind; [eapply (DECREF_ok _ _ _ _ st Y {[+ v +]} n v); [done|lia|multiset_solver]|].
    intros st' (Y' & Hi' & Hc' & Hv'). rewrite none_left in Hi', Hc'. apply returns_ret. exists Y'. split; [eapply vinv_later; [done|lia]|]. split; [by eapply unlocked_vnodes|done]. }
  rewrite bool_decide_eq_false_2 by done. eapply returns_bind; [eapply (INCOPEN_ok _ _ _ _ st Y {[+ v +]} n v); [done|lia|multiset_solver]|].
  intros st2 (Y2 & Hi2 & Hre & Hv2). rewrite none_left in Hi2. assert (Hob2 : object_of Y2 v = Some ob) by (rewrite <- Hob; eapply reopened_object; [done|multiset_solver]).
  assert (Hgood : ∀ st3 Y3, vinv st3 Y3 ∅ (n + 4) → unlocked st3 → emptied ob flags Y2 Y3 → returns (let '(l, st) := lock_create nomem st3 in Ret (set_rw (<[v := l]> (rw_lock st)) (locks st) st, inr v : result vptr))
    (λ '(st', r), ∃ Y', vinv st' Y' ∅ (n + 4) ∧ unlocked st' ∧ ∃ Y2 Y3, r = inr v ∧ reopened ∅ Y v (open_count Y v + 1) Y2 ∧ emptied ob flags Y2 Y3 ∧ relocked short v Y3 Y')).
  { intros st3 Y3 Hi3 Hu3 Hem. pose proof (relock_ok st3 Y3 (n + 4) v Hi3) as Hl. pose proof (unlocked_lock st3 v Hu3) as Hul. destruct (lock_create nomem st3) as [l st4]. destruct Hl as (Y' & Hi' & Hre').
    apply returns_ret. exists Y'. split; [done|]. split; [done|]. exists Y2, Y3. split; [done|]. split; [eapply reopened_mono; [done|multiset_solver]|done]. }
  destruct (flag flags O_TRUNC) eqn:Hfl; cbn [andb].
  2: { ostep. rewrite bool_decide_eq_false_2 by tauto. destruct (decide (0 = 0)) as [_|]; [|done]. apply (Hgood st2 Y2); [eapply vinv_later; [done|lia]|by eapply unlocked_vnodes|]. destruct ob; simpl; by rewrite ?Hfl. }
  destruct canwrite; cbn [negb].
  - destruct (decide (0 = 0)) as [_|]; [|done]. eapply returns_bind; [eapply (truncate_open st2 Y Y2 (n + 1) v ob flags); try done; [lia|by apply dec_stable]|].
    intros [e st3] (-> & Hv3 & Y3 & Hi3 & Hem). rewrite bool_decide_eq_false_2 by tauto. apply (Hgood st3 Y3); [eapply vinv_later; [done|lia]| |done]. eauto using unlocked_vnodes.
  - ostep. change (bool_decide (EINVAL ≠ 0)) with true. cbv iota. destruct (decide (EINVAL = 0)) as [|_]; [done|]. pose proof (reopened_count _ _ _ _ _ Hre ltac:(pose proof (open_count_nonneg _ _ _ _ st Y _ n v Hi); lia)) as Hoc.
    eapply returns_bind; [eapply (DECOPEN_ok _ _ _ _ st2 Y2 ∅ (n + 1) v); [done|lia|]|].
    { rewrite Hoc. pose proof (open_count_nonneg _ _ _ _ st Y _ n v Hi). lia. }
    intros st3 (Y3 & Hi3 & Hre3 & Hv3). rewrite only_one in Hi3. eapply returns_bind; [eapply (DECREF_ok _ _ _ _ st3 Y3 {[+ v +]} (n + 1 + 1) v); [done|lia|multiset_solver]|].
    intros st4 (Y4 & Hi4 & Hc4 & Hv4). rewrite none_left in Hi4, Hc4. apply returns_ret. exists Y4. split; [eapply vinv_later; [done|lia]|]. split; [eauto using unlocked_vnodes|].
    split; [done|]. eapply calmly_trans; [eapply reopened_back; [eapply reopened_mono; [exact Hre|multiset_solver]|exact Hre3|done]|done|done].
Qed.

Lemma vfs_open_ok st Y n b flags : vinv st Y ∅ n → 0 ≤ n < 2 ^ 31 - 20 → unlocked st → 0 ∈ b →
  safely low (vfs_open fsops nomem stack curthread b flags st) (λ '(st', r), ∃ Y', vinv st' Y' ∅ (n + 11) ∧ unlocked st' ∧ open_spec low short Y curthread (cut b) flags r Y').
Proof.
  intros Hi Hn Hu Hb. unfold vfs_open, open_spec. destruct (open_mode flags) as [canwrite|] eqn:Hmode.
  2: { apply safely_ret. exists Y. split; [eapply vinv_later; [done|lia]|]. split; [done|]. split; [done|apply calmly_refl]. }
  eapply safely_bind; [apply (open_vnode_ok st Y n b flags); [done|lia|done|done]|]. intros [st1 r] (Y1 & Hv1 & Hr). destruct r as [e|v].
  { destruct Hr as [Hi1 Hloc]. apply safely_ret. exists Y1. split; [eapply vinv_later; [done|lia]|]. split; [by eapply unlocked_vnodes|]. exists (inl e), Y1. done. }
  destruct Hr as (Hi1 & ob & Hob & Hloc). apply safely_returns. eapply returns_mono; [eapply (open_rest_ok st1 Y1 (n + 7) v ob flags canwrite); [done|lia|by eapply unlocked_vnodes|done|done]|].
  intros [st2 r2] (Y2 & Hi2 & Hu2 & Hr2). exists Y2. split; [eapply vinv_later; [done|lia]|]. split; [done|]. exists (inr ob), Y1. split; [done|]. case_decide; [|done].
  destruct Hr2 as (Y3 & Y4 & -> & Hr2). exists v, Y3, Y4. split; [done|]. by split.
Qed.

(** ** Closing *)

Lemma vfs_close_ok st Y n v : vinv st Y ∅ n → 0 ≤ n < 2 ^ 31 - 10 → unlocked st → v ∈ y_locked Y → 0 < open_count Y v →
  returns (vfs_close fsops v st) (λ st', ∃ Y', vinv st' Y' ∅ (n + 2) ∧ unlocked st' ∧ close_spec Y v Y').
Proof.
  intros Hi Hn Hu Hv Ho. unfold vfs_close. destruct (vi_locked _ _ _ _ _ _ _ _ Hi v Hv) as (l & Hl & Hin & Huniq). unfold the. rewrite Hl. ostep. unfold lock_destroy. rewrite decide_True by done. ostep.
  set (st1 := set_rw _ _ st). set (Y1 := set_locked (y_locked Y ∖ {[v]}) Y).
  assert (Hi1 : vinv st1 Y1 ∅ n). { apply (vinv_unlock _ _ _ _ st Y ∅ n v l (rw_lock st)); [done|done|]. intros u Hu' Hne Hul. by apply Hne, Huniq. }
  change (open_count Y v) with (open_count Y1 v) in Ho. eapply returns_bind; [eapply (DECOPEN_ok _ _ _ _ st1 Y1 ∅ n v); [done|lia|done]|].
  intros st2 (Y2 & Hi2 & Hre & Hv2). rewrite only_one in Hi2. eapply returns_mono; [eapply (DECREF_ok _ _ _ _ st2 Y2 {[+ v +]} (n + 1) v); [done|lia|multiset_solver]|].
  intros st3 (Y3 & Hi3 & Hc3 & Hv3). rewrite none_left in Hi3, Hc3. exists Y3. split; [by replace (n + 2) with (n + 1 + 1) by lia|]. split; [|by exists Y2].
  eapply unlocked_vnodes; [done|]. by eapply unlocked_vnodes.
Qed.

(** ** Names *)

Lemma in_parent_ok st Y n b act (Q : nat → Z → vsys → Prop) : vinv st Y ∅ n → 0 ≤ n < 2 ^ 31 - 20 → unlocked st → 0 ∈ b →
  (∀ f dir st1 Y1, parent Y curthread (cut b) = inr f → vinv st1 Y1 {[+ dir +]} (n + 5) → object_of Y1 dir = Some (OFile f 1) → calmly ∅ Y Y1 →
    returns (act dir (filled (parse (cut b)).2 stack) st1) (λ '(e, st2), ∃ Y2, vinv st2 Y2 {[+ dir +]} (n + 6) ∧ vnodes_only st1 st2 ∧ ∀ Y3, calmly ∅ Y2 Y3 → Q f e Y3)) →
  safely low (in_parent fsops stack curthread b act st) (λ '(e, st'), ∃ Y', vinv st' Y' ∅ (n + 7) ∧ unlocked st' ∧ at_parent Y curthread (cut b) (λ f, Q f e Y') e Y').
Proof.
  intros Hi Hn Hu [t Hb]%cut_split Hact. pose proof (cut_nonzero b) as Hw. set (w := cut b) in *. unfold in_parent, at_parent. rewrite Hb at 1.
  eapply safely_bind; [apply (vfs_lookparent_ok _ _ _ _ curthread st Y ∅ n w t stack); [done|lia|done|done|done]|]. intros [[st1 name] r]. destruct (parent Y curthread w) as [e|f] eqn:Hpar.
  { intros (-> & Y1 & Hi1 & Hc1 & Hv1). apply safely_ret. exists Y1. split; [eapply vinv_later; [done|lia]|]. split; [by eapply unlocked_vnodes|done]. }
  intros (v & Y1 & -> & -> & (Hi1 & Hc1 & Hv1) & Hob). rewrite only_one in Hi1. apply safely_returns.
  eapply returns_bind; [eapply (Hact f v st1 Y1); [done|by replace (n + 5) with (n + 4 + 1) by lia|done|done]|].
  intros [e st2] (Y2 & Hi2 & Hv2 & HQ). eapply returns_bind; [eapply (DECREF_ok _ _ _ _ st2 Y2 {[+ v +]} (n + 6) v); [done|lia|multiset_solver]|].
  intros st3 (Y3 & Hi3 & Hc3 & Hv3). rewrite none_left in Hi3, Hc3. apply returns_ret. exists Y3. split; [by replace (n + 7) with (n + 6 + 1) by lia|]. split; [eauto using unlocked_vnodes|]. by apply HQ.
Qed.

Lemma last_name b : 0 ∈ filled (parse (cut b)).2 stack ∧ cut (filled (parse (cut b)).2 stack) = (parse (cut b)).2.
Proof. apply filled_string, parse_nonzero, cut_nonzero. Qed.

Lemma vfs_remove_ok st Y n b : vinv st Y ∅ n → 0 ≤ n < 2 ^ 31 - 20 → unlocked st → 0 ∈ b →
  safely low (vfs_remove fsops stack curthread b st) (λ '(e, st'), ∃ Y', vinv st' Y' ∅ (n + 7) ∧ unlocked st' ∧ remove_spec low Y curthread (cut b) e Y').
Proof.
  intros Hi Hn Hu Hb. eapply in_parent_ok; [done|lia|done|done|]. intros f dir st1 Y1 _ Hi1 Hob Hc1. destruct (last_name b) as [H0 Hcut].
  eapply returns_mono; [eapply (REMOVE_fs _ _ _ _ st1 Y1 _ (n + 5) dir f); [done|lia|done|done]|]. rewrite Hcut, (names_of_calmly _ _ _ f Hc1). intros [e st2] (Y2 & Hi2 & Hv2 & He).
  exists Y2. split; [eapply vinv_later; [done|lia]|]. split; [done|]. intros Y3 Hc3. case_decide.
  - destruct He as [Hw Ha]. split; [done|]. eapply alters_calmly; [|exact Hc3|done]. eapply calmly_alters; [done|exact Ha|multiset_solver].
  - destruct He as [Hc2 He]. split; [|done]. eapply calmly_trans; [eapply calmly_trans; [exact Hc1|exact Hc2|multiset_solver]|exact Hc3|done].
Qed.

Lemma unsupported_ok st Y n b o : vinv st Y ∅ n → 0 ≤ n < 2 ^ 31 - 20 → unlocked st → 0 ∈ b → o = vop_symlink ∨ o = vop_mkdir ∨ o = vop_rmdir →
  safely low (in_parent fsops stack curthread b (λ dir _ st, e ← VOP_OTHER fsops o dir st; Ret (e, st)) st)
    (λ '(e, st'), ∃ Y', vinv st' Y' ∅ (n + 7) ∧ unlocked st' ∧ unsupported_spec Y curthread (cut b) e Y').
Proof.
  intros Hi Hn Hu Hb Ho. eapply (in_parent_ok st Y n b _ (λ _ e Y', e = EUNIMP ∧ calmly ∅ Y Y')); [done|lia|done|done|]. intros f dir st1 Y1 _ Hi1 Hob Hc1.
  rewrite (OTHER_ok _ _ _ _ st1 Y1 {[+ dir +]} (n + 5) dir (OFile f 1) o Hi1); [|lia|multiset_solver|done|by destruct Ho as [->|[->| ->]]]. ostep. apply returns_ret.
  exists Y1. split; [eapply vinv_later; [done|lia]|]. split; [apply vnodes_only_refl|]. intros Y3 Hc3. split; [by destruct Ho as [->|[->| ->]]|]. eapply calmly_trans; [done|exact Hc3|done].
Qed.

Lemma vfs_readlink_ok st Y n b : vinv st Y ∅ n → 0 ≤ n < 2 ^ 31 - 20 → unlocked st → 0 ∈ b →
  safely low (vfs_readlink fsops curthread b st) (λ '(e, st'), ∃ Y', vinv st' Y' ∅ (n + 7) ∧ unlocked st' ∧ readlink_spec low Y curthread (cut b) e Y').
Proof.
  intros Hi Hn Hu [t Hb]%cut_split. pose proof (cut_nonzero b) as Hw. set (w := cut b) in *. unfold vfs_readlink, readlink_spec. rewrite Hb at 1.
  eapply safely_bind; [apply (vfs_lookup_ok _ _ _ _ curthread st Y ∅ n w t); [done|lia|done|done]|]. intros [st1 r] Hr.
  apply found_cases in Hr as [(e & Y1 & -> & He & Hi1 & Hc1 & Hv1)|(ob & v & Y1 & -> & -> & (Hi1 & Hc1 & Hv1) & Hob)].
  { apply safely_ret. exists Y1. split; [eapply vinv_later; [done|lia]|]. split; [by eapply unlocked_vnodes|]. split; [done|]. destruct He as [->|[-> Hlow]]; [by right|by left]. }
  rewrite only_one in Hi1.
  rewrite (OTHER_ok _ _ _ _ st1 Y1 {[+ v +]} (n + 4 + 1) v ob vop_readlink Hi1); [|lia|multiset_solver|done|done]. ostep. apply safely_returns.
  eapply returns_bind; [eapply (DECREF_ok _ _ _ _ st1 Y1 {[+ v +]} (n + 4 + 1) v); [done|lia|multiset_solver]|].
  intros st3 (Y3 & Hi3 & Hc3 & Hv3). rewrite none_left in Hi3, Hc3. apply returns_ret. exists Y3. split; [eapply vinv_later; [done|lia]|]. split; [eauto using unlocked_vnodes|].
  split; [|by right]. eapply calmly_trans; [done|done|done].
Qed.

Lemma object_vn_fs Y v ob : object_of Y v = Some ob → vn_fs v = object_fs ob.
Proof.
  destruct v as [k|f p]; simpl; [destruct (y_devs Y !! k) as [[? [|]]|]; simpl; intros; by simplify_eq|].
  destruct (y_fs Y !! f) as [A|]; [|done]. simpl. destruct (f_refs A !! p) as [[[] ?]|]; simpl; intros; by simplify_eq.
Qed.

(** Both vnodes are given back. *)
Lemma with_both_ok st Y n v1 v2 ob1 ob2 act (Q : Z → vsys → Prop) : vinv st Y ({[+ v1 +]} ⊎ {[+ v2 +]}) n → 0 ≤ n < 2 ^ 31 - 5 → object_of Y v1 = Some ob1 → object_of Y v2 = Some ob2 →
  (object_fs ob1 = object_fs ob2 → object_fs ob1 ≠ None →
    returns (act st) (λ '(e, st2), ∃ Y2, vinv st2 Y2 ({[+ v1 +]} ⊎ {[+ v2 +]}) (n + 1) ∧ vnodes_only st st2 ∧ ∀ Y3, calmly ∅ Y2 Y3 → Q e Y3)) →
  (object_fs ob1 = object_fs ob2 ∧ object_fs ob1 ≠ None ∨ ∀ Y3, calmly ∅ Y Y3 → Q EXDEV Y3) →
  returns (with_both fsops v1 v2 act st) (λ '(e, st'), ∃ Y', vinv st' Y' ∅ (n + 3) ∧ vnodes_only st st' ∧ Q e Y').
Proof.
  intros Hi Hn Hob1 Hob2 Hact Hno. unfold with_both, same_fs. rewrite (object_vn_fs _ _ _ Hob1), (object_vn_fs _ _ _ Hob2).
  eapply (returns_bind _ _ (λ '(e, st2), ∃ Y2, vinv st2 Y2 ({[+ v1 +]} ⊎ {[+ v2 +]}) (n + 1) ∧ vnodes_only st st2 ∧ ∀ Y3, calmly ∅ Y2 Y3 → Q e Y3)).
  - destruct (decide (object_fs ob1 = object_fs ob2)) as [He|He]; [destruct (decide (object_fs ob1 = None)) as [H0|H0]|].
    + rewrite (bool_decide_eq_false_2 (object_fs ob1 ≠ None)) by tauto. apply returns_ret. exists Y. split; [eapply vinv_later; [done|lia]|]. split; [apply vnodes_only_refl|]. destruct Hno as [[? ?]|Hno]; [done|exact Hno].
    + rewrite !bool_decide_eq_true_2 by done. by apply Hact.
    + rewrite (bool_decide_eq_false_2 (object_fs ob1 = _)), andb_false_r by done. apply returns_ret. exists Y. split; [eapply vinv_later; [done|lia]|]. split; [apply vnodes_only_refl|]. destruct Hno as [[? ?]|Hno]; [done|exact Hno].
  - intros [e st2] (Y2 & Hi2 & Hv2 & HQ). eapply returns_bind; [eapply (DECREF_ok _ _ _ _ st2 Y2 _ (n + 1) v2); [done|lia|multiset_solver]|].
    intros st3 (Y3 & Hi3 & Hc3 & Hv3). rewrite take_back in Hi3, Hc3. eapply returns_bind; [eapply (DECREF_ok _ _ _ _ st3 Y3 _ (n + 1 + 1) v1); [done|lia|multiset_solver]|].
    intros st4 (Y4 & Hi4 & Hc4 & Hv4). rewrite none_left in Hi4, Hc4. apply returns_ret. exists Y4. split; [by replace (n + 3) with (n + 1 + 1 + 1) by lia|].
    split; [eauto using vnodes_only_trans|]. apply HQ. eapply calmly_trans; [eapply shifts_mono; [done|multiset_solver]|done|done].
Qed.

Lemma vfs_rename_ok st Y n b1 b2 : vinv st Y ∅ n → 0 ≤ n < 2 ^ 31 - 30 → unlocked st → 0 ∈ b1 → 0 ∈ b2 →
  safely low (vfs_rename fsops stack curthread b1 b2 st) (λ '(e, st'), ∃ Y', vinv st' Y' ∅ (n + 13) ∧ unlocked st' ∧ rename_spec low Y curthread (cut b1) (cut b2) e Y').
Proof.
  intros Hi Hn Hu [t1 Hb1]%cut_split [t2 Hb2]%cut_split. pose proof (cut_nonzero b1) as Hw1. pose proof (cut_nonzero b2) as Hw2. pose proof (last_name b1) as [H01 Hcut1]. pose proof (last_name b2) as [H02 Hcut2].
  set (w1 := cut b1) in *. set (w2 := cut b2) in *. unfold vfs_rename, rename_spec, at_parent. rewrite Hb1, Hb2.
  eapply safely_bind; [apply (vfs_lookparent_ok _ _ _ _ curthread st Y ∅ n w1 t1 stack); [done|lia|done|done|done]|]. intros [[st1 name1] r1]. destruct (parent Y curthread w1) as [e|f1].
  { intros (-> & Y1 & Hi1 & Hc1 & Hv1). apply safely_ret. exists Y1. split; [eapply vinv_later; [done|lia]|]. split; [by eapply unlocked_vnodes|done]. }
  intros (v1 & Y1 & -> & -> & (Hi1 & Hc1 & Hv1) & Hob1). rewrite only_one in Hi1.
  eapply safely_bind; [apply (vfs_lookparent_ok _ _ _ _ curthread st1 Y1 _ _ w2 t2 stack Hi1); [lia|by eapply unlocked_vnodes|done|done]|].
  rewrite (parent_calmly _ _ _ curthread w2 Hc1). intros [[st2 name2] r2]. destruct (parent Y curthread w2) as [e|f2].
  { intros (-> & Y2 & Hi2 & Hc2 & Hv2). apply safely_returns. eapply returns_bind; [eapply (DECREF_ok _ _ _ _ st2 Y2 {[+ v1 +]} (n + 4 + 1 + 4 + 1) v1); [done|lia|multiset_solver]|].
    intros st3 (Y3 & Hi3 & Hc3 & Hv3). rewrite none_left in Hi3, Hc3. apply returns_ret. exists Y3. split; [eapply vinv_later; [done|lia]|]. split; [eauto using unlocked_vnodes|].
    split; [done|]. eapply calmly_trans; [eapply calmly_trans; [exact Hc1|exact Hc2|multiset_solver]|done|done]. }
  intros (v2 & Y2 & -> & -> & (Hi2 & Hc2 & Hv2) & Hob2). apply safely_returns. assert (Hc : calmly ∅ Y Y2) by (eapply calmly_trans; [exact Hc1|exact Hc2|multiset_solver]).
  assert (Hob1' : object_of Y2 v1 = Some (OFile f1 1)) by (rewrite (sh_object _ _ _ _ Hc2); [done|multiset_solver]).
  eapply returns_mono; [eapply (with_both_ok st2 Y2 (n + 10) v1 v2 _ _ _ (λ e Y', if decide (f1 = f2) then _ else e = EXDEV ∧ calmly ∅ Y Y'));
    [by replace (n + 10) with (n + 4 + 1 + 4 + 1) by lia|lia|done|done| |]|intros [e st'] (Y' & Hi' & Hv' & HQ); exists Y'; split; [eapply vinv_later; [done|lia]|]; split; [eauto using unlocked_vnodes|exact HQ]].
  - simpl. intros [= <-] _. assert (v2 = v1) as -> by (by eapply root_once). destruct (decide (f1 = f1)) as [_|]; [|done].
    eapply returns_mono; [eapply (RENAME_fs _ _ _ _ st2 Y2 _ (n + 10) v1 f1); [by replace (n + 10) with (n + 4 + 1 + 4 + 1) by lia|lia|done|done|done]|].
    rewrite Hcut1, Hcut2, (names_of_calmly _ _ _ f1 Hc). intros [e st3] (Y3 & Hi3 & Hv3 & He). exists Y3. split; [done|]. split; [done|]. intros Y4 Hc4. case_decide.
    + destruct He as (ino & Hn1 & Hn2 & Ha). exists ino. split; [done|]. split; [done|]. eapply alters_calmly; [|exact Hc4|done]. eapply calmly_alters; [done|exact Ha|multiset_solver].
    + destruct He as [Hc3 He]. split; [|done]. eapply calmly_trans; [eapply calmly_trans; [exact Hc|exact Hc3|multiset_solver]|exact Hc4|done].
  - simpl. destruct (decide (f1 = f2)) as [->|]; [by left|right]. intros Y3 Hc3. split; [done|]. eapply calmly_trans; [done|exact Hc3|done].
Qed.

Lemma vfs_link_ok st Y n b1 b2 : vinv st Y ∅ n → 0 ≤ n < 2 ^ 31 - 30 → unlocked st → 0 ∈ b1 → 0 ∈ b2 → (∀ f, look Y curthread (cut b1) ≠ inr (OFile f 1)) →
  safely low (vfs_link fsops stack curthread b1 b2 st) (λ '(e, st'), ∃ Y', vinv st' Y' ∅ (n + 13) ∧ unlocked st' ∧ link_spec low Y curthread (cut b1) (cut b2) e Y').
Proof.
  intros Hi Hn Hu [t1 Hb1]%cut_split [t2 Hb2]%cut_split Hroot. pose proof (cut_nonzero b1) as Hw1. pose proof (cut_nonzero b2) as Hw2. pose proof (last_name b2) as [H02 Hcut2].
  set (w1 := cut b1) in *. set (w2 := cut b2) in *. unfold vfs_link, link_spec, at_parent. rewrite Hb1, Hb2.
  eapply safely_bind; [apply (vfs_lookup_ok _ _ _ _ curthread st Y ∅ n w1 t1); [done|lia|done|done]|]. intros [st1 r] Hr.
  apply found_cases in Hr as [(e & Y1 & -> & He & Hi1 & Hc1 & Hv1)|(ob & v1 & Y1 & -> & Hlk & (Hi1 & Hc1 & Hv1) & Hob1)].
  { apply safely_ret. exists Y1. split; [eapply vinv_later; [done|lia]|]. split; [by eapply unlocked_vnodes|]. destruct He as [->|[-> Hlow]]; [by right|by left]. }
  rewrite Hlk in *. rewrite only_one in Hi1. eapply safely_bind; [apply (vfs_lookparent_ok _ _ _ _ curthread st1 Y1 _ _ w2 t2 stack Hi1); [lia|by eapply unlocked_vnodes|done|done]|].
  rewrite (parent_calmly _ _ _ curthread w2 Hc1). intros [[st2 name2] r2]. destruct (parent Y curthread w2) as [e|f2].
  { intros (-> & Y2 & Hi2 & Hc2 & Hv2). apply safely_returns. eapply returns_bind; [eapply (DECREF_ok _ _ _ _ st2 Y2 {[+ v1 +]} (n + 4 + 1 + 4 + 1) v1); [done|lia|multiset_solver]|].
    intros st3 (Y3 & Hi3 & Hc3 & Hv3). rewrite none_left in Hi3, Hc3. apply returns_ret. exists Y3. split; [eapply vinv_later; [done|lia]|]. split; [eauto using unlocked_vnodes|].
    right. split; [done|]. eapply calmly_trans; [eapply calmly_trans; [exact Hc1|exact Hc2|multiset_solver]|done|done]. }
  intros (v2 & Y2 & -> & -> & (Hi2 & Hc2 & Hv2) & Hob2). apply safely_returns. assert (Hc : calmly ∅ Y Y2) by (eapply calmly_trans; [exact Hc1|exact Hc2|multiset_solver]).
  assert (Hob1' : object_of Y2 v1 = Some ob) by (rewrite (sh_object _ _ _ _ Hc2); [done|multiset_solver]). replace (n + 4 + 1 + 4 + 1) with (n + 10) in Hi2 by lia.
  eapply returns_mono; [eapply (with_both_ok st2 Y2 (n + 10) v1 v2 _ _ _ (λ e Y', match ob with OFile g ino => if decide (g = f2) then _ else e = EXDEV ∧ calmly ∅ Y Y' | ODev _ _ => e = EXDEV ∧ calmly ∅ Y Y' end)); [done|lia|done|done| |]
    |intros [e st'] (Y' & Hi' & Hv' & HQ); exists Y'; split; [eapply vinv_later; [done|lia]|]; split; [eauto using unlocked_vnodes|right; exact HQ]].
  - destruct ob as [k a|f1 ino]; simpl; [done|]. intros [= ->] _. destruct (decide (f2 = f2)) as [_|]; [|done]. assert (ino ≠ 1) by (intros ->; by apply (Hroot f2)).
    eapply returns_mono; [eapply (LINK_fs _ _ _ _ st2 Y2 _ (n + 10) v2 f2 _ v1 ino); [done|lia|done|done|done|done]|].
    rewrite Hcut2, (names_of_calmly _ _ _ f2 Hc). intros [e st3] (Y3 & Hi3 & Hv3 & He). exists Y3. split; [done|]. split; [done|]. intros Y4 Hc4. case_decide.
    + destruct He as (Hn2 & Ha). split; [done|]. eapply alters_calmly; [|exact Hc4|done]. eapply calmly_alters; [done|exact Ha|multiset_solver].
    + destruct He as [Hc3 He]. split; [|done]. eapply calmly_trans; [eapply calmly_trans; [exact Hc|exact Hc3|multiset_solver]|exact Hc4|done].
  - destruct ob as [k a|f1 ino]; simpl; [|destruct (decide (f1 = f2)) as [->|]; [by left|]]; right; intros Y3 Hc3; (split; [done|]); (eapply calmly_trans; [done|exact Hc3|done]).
Qed.
End refine.
