(* ===== verification/VfsDirs.v ===== *)
(** * The VFS layer: working directories and the boot file system *)

From stdpp Require Import gmultiset.
From S2P Require Import Prelude CArray KHeap KHeapSpec Coremap Uio CString Printf SfsVnode SfsTheorems SfsTree SfsOps SfsLoad SfsNames FileSys Vfs VfsPath VfsInv VfsOps VfsCalls VfsResolve VfsState VfsSpec VfsRefine.

Lemma calmly_set_cwd E Y Y' t x : calmly E Y Y' → calmly E (set_cwd t x Y) (set_cwd t x Y').
Proof. intros [(?&?&Hc&?&?&?&?) Hf Ho]. split; [|done|done]. split_and!; try done. simpl. by rewrite Hc. Qed.

Lemma calmly_set_boot E Y Y' x : calmly E Y Y' → calmly E (set_boot x Y) (set_boot x Y').
Proof. intros [(?&?&?&?&?&?&?) Hf Ho]. split; [|done|done]. by split_and!. Qed.

Lemma resolve_error Y t pl e : resolve Y t pl = inl e → e ≠ 0.
Proof.
  assert (Hr : ∀ o, root_or ENOENT o = inl e → e ≠ 0) by (intros [g|]; simpl; [done|by intros [= <-]]). destruct pl as [| | |w]; simpl; try apply Hr.
  unfold named. destruct (first (hit w) (y_table Y)) as [r|] eqn:Hf; [|by intros [= <-]]. intros ->. apply first_some in Hf as (a & _ & Ha). unfold hit in Ha.
  destruct (e_fs a) as [[g vol]|]; repeat case_decide; by simplify_eq.
Qed.

Lemma look_error Y t w e : look Y t w = inl e → e ≠ 0.
Proof.
  unfold look. destruct (resolve Y t (parse w).1) as [e'|ob] eqn:Hr; [intros [= <-]; by eapply resolve_error|]. case_decide; [done|].
  destruct ob; [by intros [= <-]|]. case_match; [done|]. by intros [= <-].
Qed.

(** Whoever has changed the directory is there. *)
Lemma chdir_there (low : Prop) Y t w Y' : chdir_spec low Y t w 0 Y' → is_Some (y_cwd Y' !! t).
Proof.
  unfold chdir_spec. destruct (look Y t w) as [e|[k a|f ino]] eqn:Hl.
  - intros [[<-|[? _]] _]; [by apply look_error in Hl|done].
  - by intros [[?|[? _]] _].
  - case_decide; [|by intros [[?|[? _]] _]]. intros [[_ [(_&_&Hc&_) _ _]]|[? _]]; [|done]. rewrite Hc. simpl. rewrite lookup_partial_alter_eq. by eexists.
Qed.

Section dirs.
Context {D S : Type} (present : Z → bool) (space : Z) (fsops : nat → FsOps D S) (laws : ∀ f, FileSystem D S present space (H := fsops f)).
Context (nomem : nat → bool) (stack : list Z) (Hstack : len stack = 256) (curthread : nat).
Abbreviation state := (vfs D S).
Abbreviation vinv := (vinv present space fsops laws).
Abbreviation quietly := (quietly present space fsops laws).
Abbreviation low := (low present space fsops laws).

Lemma decref_old_ok st Y E n o : vinv st Y (E ⊎ some_of o) n → 0 ≤ n < 2 ^ 31 - 1 → returns (decref_old fsops o st) (λ st', ∃ Y', quietly st Y E E n st' Y').
Proof.
  intros Hi Hn. destruct o as [v|]; simpl in *.
  - eapply returns_mono; [eapply (DECREF_ok _ _ _ _ st Y _ n v Hi); [done|multiset_solver]|]. intros st' (Y' & Hq). rewrite take_back in Hq. by exists Y'.
  - apply returns_ret. exists Y. replace (E ⊎ ∅) with E in Hi by multiset_solver. by apply quietly_self.
Qed.

Lemma object_root Y v f : object_of Y v = Some (OFile f 1) → maybe_root Y (Some v) (Some f).
Proof. intros (p & A & -> & HA & Hd)%root_dir. by exists p, A. Qed.

Lemma cwd_shift st v E : (E : gmultiset vptr) ⊎ some_of (t_cwd (D := D) (S := S) st !! curthread) ⊎ some_of (Some v) = E ⊎ {[+ v +]} ⊎ some_of (t_cwd st !! curthread).
Proof. simpl. multiset_solver. Qed.

Lemma vfs_setcurdir_ok st Y E n v ob : vinv st Y E n → 0 ≤ n < 2 ^ 31 - 5 → unlocked st → v ∈ E → object_of Y v = Some ob →
  returns (vfs_setcurdir fsops curthread v st) (λ '(e, st'), ∃ Y', vinv st' Y' E (n + 2) ∧ unlocked st' ∧ match ob with
    | OFile f ino => if decide (ino = 1) then e = 0 ∧ calmly E (set_cwd curthread (Some f) Y) Y' else e = ENOTDIR ∧ Y' = Y
    | ODev _ _ => e = ENOTDIR ∧ Y' = Y
    end).
Proof.
  intros Hi Hn Hu Hin Hob. unfold vfs_setcurdir. destruct (GETTYPE_ok _ _ _ _ st Y E n v ob Hi) as (mode & -> & Hmode); [lia|done|done|]. ostep. rewrite Hmode.
  assert (Hno : is_root ob = false → returns (Ret (ENOTDIR, st)) (λ '(e, st'), ∃ Y', vinv st' Y' E (n + 2) ∧ unlocked st' ∧ e = ENOTDIR ∧ Y' = Y)).
  { intros _. apply returns_ret. exists Y. split; [eapply vinv_later; [done|lia]|done]. }
  destruct ob as [k a|f ino]; [by apply Hno|]. cbn [is_root] in *. destruct (decide (ino = 1)) as [->|Hne]; [|rewrite bool_decide_eq_false_2 in * by done; by apply Hno].
  rewrite bool_decide_eq_true_2 by done. cbn [negb]. pose proof (spare_mine _ _ _ _ st Y E n v Hi Hin) as Hsp.
  eapply returns_bind; [eapply (INCREF_ok _ _ _ _ st Y E n v Hi); [lia|done]|]. intros st1 (Y1 & (Hi1 & Hc1 & Hv1) & Hob1). rewrite Hob in Hob1.
  pose proof (vinv_cwd _ _ _ _ st1 Y1 _ _ _ curthread (Some v) (Some f) Hi1 (object_root _ _ _ Hob1) (cwd_shift st1 v E)) as Hi2.
  eapply returns_bind; [eapply (decref_old_ok _ _ E _ (t_cwd st1 !! curthread)); [exact Hi2|lia]|]. intros st3 (Y3 & Hi3 & Hc3 & Hv3). apply returns_ret.
  exists Y3. split; [by replace (n + 2) with (n + 1 + 1) by lia|]. split; [eapply unlocked_vnodes; [exact Hv3|]; eapply (unlocked_vnodes st st1 Hv1 Hu)|].
  split; [done|]. eapply calmly_trans; [apply calmly_set_cwd; exact Hc1|exact Hc3|done].
Qed.

Lemma vfs_chdir_ok st Y n b : vinv st Y ∅ n → 0 ≤ n < 2 ^ 31 - 20 → unlocked st → 0 ∈ b →
  safely low (vfs_chdir fsops curthread b st) (λ '(e, st'), ∃ Y', vinv st' Y' ∅ (n + 8) ∧ unlocked st' ∧ chdir_spec low Y curthread (cut b) e Y').
Proof.
  intros Hi Hn Hu [t Hb]%cut_split. pose proof (cut_nonzero b) as Hw. set (w := cut b) in *. unfold vfs_chdir, chdir_spec. rewrite Hb.
  eapply safely_bind; [apply (vfs_lookup_ok _ _ _ _ curthread st Y ∅ n w t); [done|lia|done|done]|]. intros [st1 r] Hr.
  apply found_cases in Hr as [(e & Y1 & -> & He & Hi1 & Hc1 & Hv1)|(ob & v & Y1 & -> & -> & (Hi1 & Hc1 & Hv1) & Hob)].
  { apply safely_ret. exists Y1. split; [eapply vinv_later; [done|lia]|]. split; [by eapply unlocked_vnodes|]. destruct He as [->|[-> Hlow]]; [eauto|].
    destruct (look Y curthread w) as [e|[k a|f ino]]; [by split; [right|]|by split; [right|]|]. case_decide; [by right|]. by split; [right|]. }
  rewrite only_one in Hi1. apply safely_returns. eapply returns_bind; [eapply (vfs_setcurdir_ok st1 Y1 {[+ v +]} (n + 4 + 1) v ob Hi1); [lia|by eapply unlocked_vnodes|multiset_solver|done]|].
  intros [e st2] (Y2 & Hi2 & Hu2 & He). eapply returns_bind; [eapply (DECREF_ok _ _ _ _ st2 Y2 {[+ v +]} _ v Hi2); [lia|multiset_solver]|].
  intros st3 (Y3 & Hi3 & Hc3 & Hv3). rewrite none_left in Hi3, Hc3. apply returns_ret. exists Y3. split; [by replace (n + 8) with (n + 4 + 1 + 2 + 1) by lia|]. split; [eauto using unlocked_vnodes|].
  assert (Hno : e = ENOTDIR ∧ Y2 = Y1 → (e = ENOTDIR ∨ e = ENOMEM ∧ low) ∧ calmly ∅ Y Y3). { intros [-> ->]. split; [by left|]. eapply calmly_trans; [done|exact Hc3|done]. }
  destruct ob as [k a|f ino]; [by apply Hno|]. case_decide; [|by apply Hno]. left. destruct He as [-> Hc2]. split; [done|].
  eapply calmly_trans; [eapply calmly_trans; [apply calmly_set_cwd; exact Hc1|exact Hc2|multiset_solver]|exact Hc3|done].
Qed.

Lemma vfs_clearcurdir_ok st Y n : vinv st Y ∅ n → 0 ≤ n < 2 ^ 31 - 20 → unlocked st →
  returns (vfs_clearcurdir fsops curthread st) (λ '(e, st'), ∃ Y', vinv st' Y' ∅ (n + 1) ∧ unlocked st' ∧ e = 0 ∧ calmly ∅ (set_cwd curthread None Y) Y').
Proof.
  intros Hi Hn Hu. unfold vfs_clearcurdir. assert (HE : (some_of (t_cwd st !! curthread) : gmultiset vptr) ⊎ some_of None = ∅ ⊎ some_of (t_cwd st !! curthread)) by (simpl; multiset_solver).
  pose proof (vinv_cwd _ _ _ _ st Y _ _ _ curthread None None Hi I HE) as Hi1. eapply returns_bind.
  { eapply (decref_old_ok _ _ ∅ n (t_cwd st !! curthread)); [|lia]. replace (∅ ⊎ some_of (t_cwd st !! curthread)) with (some_of (t_cwd st !! curthread)) by multiset_solver. exact Hi1. }
  intros st' (Y' & Hi' & Hc' & Hv'). apply returns_ret. exists Y'. split; [done|]. split; [|done]. eapply unlocked_vnodes; [exact Hv'|done].
Qed.

(** The new thread is where its parent is. *)
Lemma fork_cwd_ok st Y n u : vinv st Y ∅ n → 0 ≤ n < 2 ^ 31 - 20 → unlocked st → y_cwd Y !! u = None →
  returns (fork_cwd fsops curthread u st) (λ st', ∃ Y', vinv st' Y' ∅ (n + 1) ∧ unlocked st' ∧ calmly ∅ (set_cwd u (y_cwd Y !! curthread) Y) Y').
Proof.
  intros Hi Hn Hu Hnew. unfold fork_cwd. pose proof (vi_cwd _ _ _ _ _ _ _ _ Hi curthread) as Hc. pose proof (vi_cwd _ _ _ _ _ _ _ _ Hi u) as Hcu. rewrite Hnew in Hcu.
  destruct (t_cwd st !! u) as [|] eqn:Htu; [done|]. destruct (t_cwd st !! curthread) as [v|] eqn:Ht.
  - destruct (y_cwd Y !! curthread) as [f|]; [|done]. pose proof (root_object _ _ _ _ st Y _ _ _ _ Hi Hc) as Hob.
    eapply returns_bind; [eapply (INCREF_ok _ _ _ _ st Y ∅ n v Hi); [lia|]|].
    { eapply spare_held; [done|]. by eapply holds_cwd. }
    intros st1 (Y1 & (Hi1 & Hc1 & Hv1) & Hob1). rewrite Hob in Hob1. apply returns_ret. rewrite only_one in Hi1. exists (set_cwd u (Some f) Y1). split; [|split; [eapply (unlocked_vnodes st st1 Hv1 Hu)|by apply calmly_set_cwd]].
    eapply (vinv_cwd _ _ _ _ st1 Y1 {[+ v +]} ∅ _ u (Some v) (Some f) Hi1 (object_root _ _ _ Hob1)). destruct Hv1 as (h & g & ->). simpl. rewrite Htu. simpl. multiset_solver.
  - destruct (y_cwd Y !! curthread); [done|]. apply returns_ret. exists Y. split; [eapply vinv_later; [done|lia]|]. split; [done|].
    assert (partial_alter (λ _, None) u (y_cwd Y) = y_cwd Y) as Heq by (change (delete u (y_cwd Y) = y_cwd Y); by apply delete_id). unfold set_cwd. rewrite Heq. destruct Y. apply calmly_refl.
Qed.

(** ** The boot file system *)

Lemma change_bootfs_ok st Y E n x y : vinv st Y (E ⊎ some_of x) n → 0 ≤ n < 2 ^ 31 - 5 → unlocked st → maybe_root Y x y →
  returns (change_bootfs fsops x st) (λ st', ∃ Y', vinv st' Y' E (n + 1) ∧ unlocked st' ∧ calmly E (set_boot y Y) Y').
Proof.
  intros Hi Hn [Hk Hb] Hx. unfold change_bootfs, acquire_bootfs. rewrite Hb. ostep. simpl.
  assert (HE : E ⊎ some_of (bootfs_vnode st) ⊎ some_of x = E ⊎ some_of x ⊎ some_of (bootfs_vnode st)) by multiset_solver.
  pose proof (vinv_boot _ _ _ _ st Y _ _ _ x y Hi Hx HE) as Hi1. eapply returns_mono; [eapply (decref_old_ok _ _ E n (bootfs_vnode st)); [|lia]|].
  { eapply vinv_held. exact (vinv_held _ _ _ _ _ _ _ _ (knowndevs_lock st) true Hi1). }
  intros st' (Y' & Hi' & Hc' & Hv'). exists Y'. split; [done|]. split; [|done]. eapply unlocked_vnodes; [exact Hv'|done].
Qed.

(** The name as vfs_setbootfs prints it, and a colon behind it. *)
Lemma boot_name b : 0 ∈ b → len b < 2 ^ 31 → let name := take 254 (cut b) in ∃ t, len t = 255 - len name ∧
  vsnprintf stack (len stack - 1) format_s [AStr (Some b)] = Ret (len (cut b), name ++ 0 :: t).
Proof.
  intros H0 Hlen name. destruct (vsnprintf_ok stack (len stack - 1) [37; 115] [] [AStr (Some b)]) as (out & Hout & Hrun); [lia|by repeat constructor|by split|].
  cbn [app] in Hout, Hrun. unfold format_s. rewrite (pct_s_ok b H0 Hlen) in Hout. injection Hout as Hl <-. rewrite decide_False in Hrun by lia. rewrite Hstack in *.
  change (Z.to_nat (256 - 1 - 1)) with 254%nat in Hrun. fold name in Hrun. rewrite Hrun, <- Hl. eexists. split; [|done]. rewrite length_drop.
  assert (length name ≤ 254)%nat by (unfold name; rewrite length_take; lia). lia.
Qed.

Lemma colon_found name t : nonzero name → (∃ i n, strchr (name ++ 0 :: t) COLON = Ret (Some i) ∧ strlen_at (name ++ 0 :: t) i = Ret n ∧ 0 < n ∧ COLON ∈ name) ∨
  (strchr (name ++ 0 :: t) COLON = Ret None ∧ COLON ∉ name).
Proof.
  intros Hw. destruct (strchr_ok name t COLON Hw) as ([i|] & -> & Hi); [left|right; tauto]. destruct Hi as (Hi0 & Hi & _). exists i. set (k := Z.to_nat i) in *.
  assert (Hk : name !! k = Some COLON). { destruct (decide (k < length name)%nat); [by rewrite lookup_app_l in Hi|]. rewrite lookup_app_r in Hi by lia. by destruct (k - length name)%nat as [|[]]. }
  exists (len (drop k name)). pose proof (lookup_lt_Some _ _ _ Hk). split; [done|]. split; [|split; [rewrite length_drop; lia|by eapply list_elem_of_lookup_2]].
  replace i with (len (take k name)) by (rewrite length_take; lia). rewrite <- (take_drop k name) at 1. rewrite <- app_assoc. apply strlen_at_ok. by apply Forall_drop.
Qed.

Lemma vfs_setbootfs_ok st Y n b : vinv st Y ∅ n → 0 ≤ n < 2 ^ 31 - 30 → unlocked st → 0 ∈ b → len b < 2 ^ 31 →
  safely low (vfs_setbootfs fsops stack curthread b st) (λ '(e, st'), ∃ Y', vinv st' Y' ∅ (n + 10) ∧ unlocked st' ∧ setbootfs_spec low Y curthread (cut b) e Y').
Proof.
  intros Hi Hn Hu H0 Hlen. unfold vfs_setbootfs, setbootfs_spec. destruct (boot_name b H0 Hlen) as (t & Ht & ->). ostep. set (name := take 254 (cut b)) in *.
  assert (Hw : nonzero name) by (apply Forall_take, cut_nonzero). assert (length name ≤ 254)%nat by (unfold name; rewrite length_take; lia).
  destruct (colon_found name t Hw) as [(i & k & -> & Hk & Hpos & Hin)|[-> Hnot]].
  { ostep. rewrite Hk. ostep. rewrite bool_decide_eq_true_2 by done. apply safely_ret. exists Y. split; [eapply vinv_later; [done|lia]|]. split; [done|].
    destruct (decide (COLON ∈ name)); [|done]. split; [done|apply calmly_refl]. }
  ostep. pose proof (strcat_ok name t [COLON] [] Hw ltac:(by repeat constructor) ltac:(simpl; lia)) as Hcat. cbn [app] in Hcat. change string_colon with [COLON; 0]. rewrite Hcat. ostep.
  set (tmp := name ++ COLON :: 0 :: drop _ t). assert (Hcut : cut tmp = name ++ [COLON]).
  { unfold tmp. replace (name ++ COLON :: 0 :: drop _ t) with ((name ++ [COLON]) ++ 0 :: drop (length [COLON]) t) by (by rewrite <- app_assoc). apply cut_app. apply Forall_app. split; [done|by repeat constructor]. }
  eapply safely_bind; [apply (vfs_chdir_ok st Y n tmp); [done|lia|done|unfold tmp; set_solver]|]. rewrite Hcut. intros [e st1] (Y1 & Hi1 & Hu1 & Hch).
  destruct (decide (COLON ∈ name)) as [|_]; [done|]. destruct (decide (e = 0)) as [->|Hne].
  2: { rewrite bool_decide_eq_true_2 by done. apply safely_ret. exists Y1. split; [eapply vinv_later; [done|lia]|]. split; [done|]. exists Y1. split; [done|]. rewrite decide_False by done. apply calmly_refl. }
  rewrite bool_decide_eq_false_2 by tauto. destruct (chdir_there _ _ _ _ _ Hch) as [f Hf]. apply safely_returns. eapply returns_bind; [eapply (vfs_getcurdir_ok _ _ _ _ curthread st1 Y1 ∅ _ Hi1); lia|].
  rewrite Hf. intros [st2 r] (v & Y2 & Hr & (Hi2 & Hc2 & Hv2) & Hob). simpl in Hr, Hi2, Hv2. subst r. eapply returns_bind.
  { eapply (change_bootfs_ok st2 Y2 ∅ _ (Some v) (Some f)); [exact Hi2|lia|by eapply unlocked_vnodes|by apply object_root]. }
  intros st3 (Y3 & Hi3 & Hu3 & Hc3). apply returns_ret. exists Y3. split; [by replace (n + 10) with (n + 8 + 1 + 1) by lia|]. split; [done|]. exists Y1. split; [done|].
  rewrite decide_True by done. rewrite Hf. eapply calmly_trans; [by apply calmly_set_boot|exact Hc3|done].
Qed.

Lemma vfs_clearbootfs_ok st Y n : vinv st Y ∅ n → 0 ≤ n < 2 ^ 31 - 30 → unlocked st →
  returns (vfs_clearbootfs fsops st) (λ st', ∃ Y', vinv st' Y' ∅ (n + 1) ∧ unlocked st' ∧ calmly ∅ (set_boot None Y) Y').
Proof. intros Hi Hn Hu. apply (change_bootfs_ok st Y ∅ n None None); [|lia|done|done]. simpl. by replace (∅ ⊎ ∅) with (∅ : gmultiset vptr) by multiset_solver. Qed.
End dirs.
