(* ===== verification/VfsMounts.v ===== *)
(** * The VFS layer: the table of devices, and mounting *)

From stdpp Require Import gmultiset.
From S2P Require Import Prelude CArray KHeap KHeapSpec Coremap Uio CString SfsVnode SfsTheorems SfsTree SfsOps SfsLoad SfsNames FileSys Vfs VfsPath VfsInv VfsOps VfsCalls VfsResolve VfsState VfsSpec VfsRefine.

Lemma for_loop_find {A T R} (body : Z → T → outcome (T + R)) (s : T) (P : A → Prop) `{∀ a, Decision (P a)} (Q : nat → A → R → Prop) (l : list A) : ∀ i,
  (∀ j a, l !! j = Some a → returns (body (i + Z.of_nat j) s) (λ x, if decide (P a) then ∃ r, x = inr r ∧ Q j a r else x = inl s)) →
  returns (for_loop (length l) i body s) (λ x, match list_find P l with None => x = inl s | Some (j, a) => ∃ r, x = inr r ∧ Q j a r end).
Proof.
  revert Q. induction l as [|a l IH]; intros Q i Hb; simpl; [by apply returns_ret|]. eapply returns_bind.
  { rewrite <- (Z.add_0_r i). by apply (Hb 0%nat a). }
  intros x Hx. destruct (decide (P a)); [destruct Hx as (r & -> & Hr); apply returns_ret; eauto|]. subst x.
  eapply returns_mono; [apply (IH (λ j, Q (Datatypes.S j)))|]; [|by intros x; destruct (list_find P l) as [[]|]]. intros j c Hj.
  replace (i + 1 + Z.of_nat j) with (i + Z.of_nat (Datatypes.S j)) by lia. by apply Hb.
Qed.

Section mounts.
Context {D S : Type} (present : Z → bool) (space : Z) (fsops : nat → FsOps D S) (laws : ∀ f, FileSystem D S present space (H := fsops f)).
Context (nomem : nat → bool) (curthread : nat).
Abbreviation state := (vfs D S).
Abbreviation vinv := (vinv present space fsops laws).
Abbreviation low := (low present space fsops laws).

(** What one file system can mount another can. *)
Context (uniform : ∀ f g d A, fs_holds (FileSystem := laws f) d A → fs_holds (FileSystem := laws g) d A).

(** ** Sync *)

Lemma SYNC_ok st Y E n f A : vinv st Y E n → y_fs Y !! f = Some A →
  ∃ s' A', on_fs f (fs_sync (FsOps := fsops f)) st = Ret (0, putfs f s' st) ∧ vinv (putfs f s' st) (set_fs f A' Y) E n ∧ quiet A A' ∧
    fs_clean (FileSystem := laws f) s' ∧ shows_at present space fsops laws f s' A' n.
Proof.
  intros Hi HA. destruct (fs_there _ _ _ _ st Y E n f A Hi HA) as (s & Hs & Hshow). destruct (fs_sync_ok (FileSystem := laws f) s A n Hshow) as ([e s'] & Hrun & -> & Hcl & Hvol & A' & Hs' & Hq).
  exists s', A'. unfold on_fs, getfs, the. rewrite Hs. ostep. rewrite Hrun. split; [done|]. split; [|done]. eapply (vinv_putfs _ _ _ _ st Y E n); try done; [unfold volume; by rewrite Hvol|].
  destruct Hq as (_ & -> & _). apply accounts_same.
Qed.

(** Every file system of the table so far has written everything. *)
Definition synced (k : nat) (Y : vsys) (st : state) : Prop :=
  ∀ i e f vol, (i < k)%nat → y_table Y !! i = Some e → e_fs e = Some (f, vol) → ∃ s, fses st !! f = Some s ∧ fs_clean (FileSystem := laws f) s.

Lemma synced_put k Y st f s : synced k Y st → fs_clean (FileSystem := laws f) s → synced k Y (putfs f s st).
Proof.
  intros H Hs i e g vol Hi He Hg. destruct (decide (g = f)) as [->|Hne]; [exists s; split; [apply lookup_insert_eq|done]|].
  destruct (H i e g vol Hi He Hg) as (sg & Hsg & Hc). exists sg. split; [|done]. simpl. by rewrite lookup_insert_ne by done.
Qed.

Lemma vfs_sync_ok st Y n : vinv st Y ∅ n → unlocked st → returns (vfs_sync fsops st) (λ '(e, st'), e = 0 ∧ unlocked st' ∧ synced (length (y_table Y)) Y st' ∧
  ∃ Y', vinv st' Y' ∅ n ∧ calmly ∅ Y Y').
Proof.
  intros Hi [Hk Hb]. unfold vfs_sync, acquire_knowndevs. rewrite Hk. ostep. set (st1 := set_held true (bootfs_lock st) st).
  assert (Hi1 : vinv st1 Y ∅ n) by (by apply vinv_held). rewrite (numdevs_ok _ _ _ _ st1 Y ∅ n Hi1). eapply returns_bind.
  { apply (for_each_inv (λ i st', ∃ Y', vinv st' Y' ∅ n ∧ calmly ∅ Y Y' ∧ vnodes_only st1 st' ∧ synced (Z.to_nat i) Y st')).
    - exists Y. split; [done|]. split; [apply calmly_refl|]. split; [apply vnodes_only_refl|]. intros i e f vol Hi0. change (Z.to_nat 0) with 0%nat in Hi0. lia.
    - intros j t Hj (Yt & Hit & Hct & Hvt & Hst). destruct (lookup_lt_is_Some_2 (y_table Y) (Z.to_nat j)) as [e He]; [lia|].
      assert (Htab : y_table Yt = y_table Y) by apply Hct. destruct (known_ok _ _ _ _ t Yt ∅ n (Z.to_nat j) e Hit) as (a & kd & Hkn & Hea & _ & _ & _ & _ & Hfs & _); [by rewrite Htab|].
      rewrite Z2Nat.id in Hkn by lia. unfold sync_turn. rewrite Hkn. ostep. rewrite Hfs. replace (Z.to_nat (j + 1)) with (Datatypes.S (Z.to_nat j)) by lia.
      destruct (e_fs e) as [[f vol]|] eqn:Hef; simpl.
      + destruct (volname_ok _ _ _ _ t Yt ∅ n a e f vol Hit Hea Hef) as [[A HA] _]. destruct (SYNC_ok t Yt ∅ n f A Hit HA) as (s' & A' & -> & Hi' & Hq & Hcl & _). ostep.
        eexists. split; [done|]. exists (set_fs f A' Yt). split; [done|]. split; [eapply calmly_trans; [done|by eapply calmly_quiet|done]|].
        split; [eauto using vnodes_only_trans, vnodes_only_fs|]. intros i e' g vol' Hi'' He' Hg. destruct (decide (i = Z.to_nat j)) as [->|Hne].
        * assert (e' = e) as -> by congruence. assert (g = f) as -> by congruence. exists s'. split; [apply lookup_insert_eq|done].
        * eapply synced_put; [exact Hst|done| |done|done]. lia.
      + eexists. split; [done|]. exists Yt. split; [done|]. split; [done|]. split; [done|]. intros i e' g vol' Hi'' He' Hg. destruct (decide (i = Z.to_nat j)) as [->|Hne]; [congruence|].
        eapply Hst; [|done|done]. lia. }
  intros st2 (Y2 & Hi2 & Hc2 & Hv2 & Hs2). apply returns_ret. split; [done|]. rewrite Z.add_0_l, Nat2Z.id in Hs2.
  split; [eapply unlocked_vnodes; [by apply vnodes_only_held|done]|]. split; [done|]. exists Y2. split; [by apply vinv_held|done].
Qed.

(** ** Mounting *)

(** The entry [i] of the table: its address and what is kept there. *)
Definition entry_of (st : state) (i : nat) (e : entry) (a : nat) (kd : knowndev) : Prop :=
  entry_at fsops st a e ∧ kds st !! a = Some kd ∧ string_of (kd_name kd) (e_name e) ∧ maybe_string (kd_rawname kd) (e_raw e) ∧ kd_vnode kd = e_vnode e ∧
  kd_fs kd = fst <$> e_fs e ∧ kd_device kd = e_dev e ∧ ∃ ks, arepr (knowndevs st) ks ∧ ks !! i = Some a.

Lemma known_at st Y E n i e : vinv st Y E n → y_table Y !! i = Some e → ∃ a kd, known (Z.of_nat i) st = Ret (a, kd) ∧ entry_of st i e a kd.
Proof.
  intros Hi He. destruct (vi_table _ _ _ _ _ _ _ _ Hi) as (ks & Har & _ & Hall). destruct (Forall2_lookup_r _ _ _ _ _ Hall He) as (a & Ha & Hea).
  destruct (en_kd _ _ _ _ Hea) as (kd & Hkd & H1 & H2 & H3 & H4 & H5). exists a, kd. split; [|split; [done|split_and!; try done; by exists ks]].
  unfold known. rewrite (array_getguy_ok _ ks _ a Har) by (by rewrite ?Nat2Z.id || lia). ostep. unfold the. by rewrite Hkd.
Qed.

Lemma maybe_some b w : maybe_string b w → (b = None ↔ w = None).
Proof. by destruct b, w. Qed.

Lemma findmount_ok st Y E n b w : vinv st Y E n → string_of b w → knowndevs_lock st = true →
  ∃ r, findmount b st = Ret r ∧ match list_find (mountpoint w) (y_table Y) with
    | None => r = inl ENODEV
    | Some (i, e) => ∃ a kd, r = inr (a, kd) ∧ entry_of st i e a kd
    end.
Proof.
  intros Hi Hb Hl. unfold findmount. rewrite Hl. rewrite assert_true by done. ostep. rewrite (numdevs_ok _ _ _ _ st Y E n Hi).
  destruct (for_loop_find (findmount_turn b st) () (mountpoint w) (λ i e r, entry_of st i e r.1 r.2) (y_table Y) 0) as (x & -> & Hx).
  { intros j e He. rewrite Z.add_0_l. destruct (known_at st Y E n j e Hi He) as (a & kd & Hkn & Hent). unfold findmount_turn. rewrite Hkn. ostep.
    pose proof Hent as (_ & _ & Hname & Hraw & _). pose proof (maybe_some _ _ Hraw) as Hno. destruct (kd_rawname kd) as [raw|].
    - rewrite (same_ok _ _ _ _ Hb Hname). ostep. apply returns_ret. destruct (decide (w = e_name e)) as [->|Hne].
      + rewrite bool_decide_eq_true_2 by done. rewrite decide_True; [by exists (a, kd)|]. split; [|done]. intros H0. by apply Hno in H0.
      + rewrite bool_decide_eq_false_2 by done. rewrite decide_False; [done|]. by intros [_ ?].
    - apply returns_ret. rewrite decide_False; [done|]. intros [H0 _]. apply H0. by apply Hno. }
  ostep. destruct (list_find _ _) as [[i e]|]; [destruct Hx as ([a kd] & -> & Hent); eauto 10|]. subst x. eauto.
Qed.

(** The devices keep their size and their driver when their contents change. *)
Lemma drv_data (st : state) a d x : devices st !! a = Some d → d_open <$> devices (set_d_data a d x st) = d_open <$> devices st.
Proof. intros Ha. simpl. rewrite fmap_insert. simpl. apply insert_id. by rewrite lookup_fmap, Ha. Qed.

Lemma device_data (st : state) a d x b : devices st !! a = Some d → is_Some (devices st !! b) ↔ is_Some (devices (set_d_data a d x st) !! b).
Proof.
  intros Ha. simpl. destruct (decide (b = a)) as [->|Hne]; [rewrite lookup_insert_eq, Ha; split; by eexists|by rewrite lookup_insert_ne].
Qed.

(** The entry [i], when its file system has changed: [x]. *)
Lemma entry_changed (st st' : state) (ks : list nat) (l : list entry) i a kd e x da d y : NoDup ks → Forall2 (entry_at fsops st) ks l → ks !! i = Some a → l !! i = Some e →
  entry_at fsops st a e → kds st !! a = Some kd → string_of (kd_name kd) (e_name e) → maybe_string (kd_rawname kd) (e_raw e) → kd_vnode kd = e_vnode e → kd_device kd = e_dev e →
  devices st !! da = Some d → e_dev e = Some da → d_blocksize d = 512 →
  kds st' = <[a := Knowndev (kd_name kd) (kd_rawname kd) (kd_device kd) (kd_vnode kd) (fst <$> x)]> (kds st) → dvnodes st' = dvnodes st → devices st' = devices (set_d_data da d y st) →
  (∀ f vol, x = Some (f, vol) → ∃ s, fses st' !! f = Some s ∧ volume fsops f s = vol) →
  (∀ j e' f vol, j ≠ i → l !! j = Some e' → e_fs e' = Some (f, vol) → fses st' !! f = fses st !! f) →
  Forall2 (entry_at fsops st') ks (<[i := with_fs e x]> l).
Proof.
  intros Hnd Hall Hka Hle Hea Hkd Hname Hraw Hvn Hdevn Hda Hde Hsz Hkds Hdv Hdevs Hx Hother. rewrite <- (list_insert_id ks i a Hka).
  assert (Hdev : ∀ b, has_device st b → has_device st' b). { intros b (c & -> & Hc). exists c. split; [done|]. rewrite Hdevs. by apply device_data. }
  apply Forall2_same_length_lookup. rewrite !length_insert. split; [by eapply Forall2_length|]. intros j aj ej Hj Hej. destruct (decide (j = i)) as [->|Hne].
  - rewrite list_lookup_insert_eq in Hj by (by eapply lookup_lt_Some). rewrite list_lookup_insert_eq in Hej by (by eapply lookup_lt_Some). injection Hj as <-. injection Hej as <-. split; simpl.
    + eexists. rewrite Hkds, lookup_insert_eq. split; [done|]. by split_and!.
    + rewrite Hdv. apply (en_vnode _ _ _ _ Hea).
    + intros _. apply Hdev. rewrite Hde. exists da. split; [done|by eexists].
    + done.
    + intros _ _. exists da. rewrite Hdevs, Hde. simpl. rewrite lookup_insert_eq. eexists. split; [done|]. by split.
  - rewrite list_lookup_insert_ne in Hj by done. rewrite list_lookup_insert_ne in Hej by done. pose proof (Forall2_lookup_lr _ _ _ _ _ _ Hall Hj Hej) as [Hk Hv Hd Hf Hs].
    assert (aj ≠ a) by (intros ->; by apply Hne, (NoDup_lookup ks j i a)). split.
    + rewrite Hkds, lookup_insert_ne by done. done.
    + by rewrite Hdv.
    + intros Hc. by apply Hdev, Hd.
    + intros f vol Hfv. rewrite (Hother j ej f vol) by done. by apply Hf.
    + intros H1 H2. destruct (Hs H1 H2) as (c & dc & Hc & Hdc & Hsc). exists c. rewrite Hdevs. simpl. destruct (decide (c = da)) as [->|Hcd].
      * rewrite lookup_insert_eq. eexists. split; [done|]. split; [done|]. simpl. congruence.
      * rewrite lookup_insert_ne by done. eauto.
Qed.

(** The array keeps its elements. *)
Lemma same_keys (st : state) ks ks' : arepr (knowndevs st) ks → arepr (knowndevs st) ks' → ks = ks'.
Proof.
  intros H1 H2. pose proof (ar_num _ _ H1). pose proof (ar_num _ _ H2). assert (Hl : length ks = length ks') by lia.
  destruct H1 as [_ Hm1 Hv1], H2 as [_ _ Hv2]. rewrite !length_fmap in *. destruct (a_v (knowndevs st)) as [c|].
  - destruct Hv1 as [_ Hv1], Hv2 as [_ Hv2]. rewrite Hl, Hv2 in Hv1. by apply (inj (fmap Some)) in Hv1.
  - destruct ks, ks'; simpl in *; (done || lia).
Qed.

Lemma fs_absent st Y E n f p : vinv st Y E n → y_fs Y !! f = None → holds st (VFs f p) = 0 ∧ multiplicity (VFs f p) E = 0%nat.
Proof. intros Hi Hf. pose proof (vi_count _ _ _ _ _ _ _ _ Hi (VFs f p)) as Hc. simpl in Hc. rewrite Hf in Hc. pose proof (holds_nonneg st (VFs f p)). lia. Qed.

Lemma root_elsewhere Y Y' v f : root_of Y v f → y_fs Y' !! f = y_fs Y !! f → root_of Y' v f.
Proof. intros (p & A & -> & HA & Hd) Hf. exists p, A. by rewrite Hf. Qed.

Lemma once_insert (l : list entry) i e x : l !! i = Some e → NoDup (omap (λ e, fst <$> e_fs e) l) →
  match x with Some (f, _) => ∀ e' vol, e' ∈ l → e_fs e' ≠ Some (f, vol) | None => True end → NoDup (omap (λ e, fst <$> e_fs e) (<[i := with_fs e x]> l)).
Proof.
  intros Hi Hnd Hx. rewrite insert_take_drop by (by eapply lookup_lt_Some). rewrite <- (take_drop_middle l i e Hi) in Hnd, Hx. rewrite omap_app in *. simpl in *.
  set (g := λ e : entry, fst <$> e_fs e) in *. assert (Hbase : NoDup (omap g (take i l) ++ omap g (drop (Datatypes.S i) l))).
  { change (list_omap entry nat g) with (omap (M := list) g) in Hnd. destruct (fst <$> e_fs e); [|done]. apply NoDup_app in Hnd as (H1 & H2 & H3). apply NoDup_cons in H3 as [_ H3]. apply NoDup_app. split; [done|]. split; [|done]. intros y Hy. specialize (H2 y Hy). set_solver. }
  change (list_omap entry nat g) with (omap (M := list) g). destruct x as [[f vol]|]; simpl; [|done]. assert (Hno : ∀ l', l' ⊆ take i l ++ e :: drop (Datatypes.S i) l → f ∉ omap g l').
  { intros l' Hsub (e' & Hin & Hg)%list_elem_of_omap. unfold g in Hg. destruct (e_fs e') as [[f' vol']|] eqn:He; [|done]. simpl in Hg. injection Hg as ->. by apply (Hx e' vol'); [apply Hsub|]. }
  apply NoDup_app in Hbase as (H1 & H2 & H3). apply NoDup_app. split; [done|]. split.
  - intros y Hy [->|Hy']%elem_of_cons; [by apply (Hno (take i l)); [set_solver|]|]. by apply (H2 y).
  - apply NoDup_cons. split; [|done]. apply Hno. set_solver.
Qed.

Lemma once_lookup (l : list entry) i j e e' f vol vol' : NoDup (omap (λ e, fst <$> e_fs e) l) → l !! i = Some e → l !! j = Some e' → e_fs e = Some (f, vol) → e_fs e' = Some (f, vol') → i = j.
Proof.
  revert i j. induction l as [|x l IH]; intros i j Hnd Hi Hj He He'; [done|]. simpl in Hnd. change (list_omap entry nat (λ e, fst <$> e_fs e)) with (omap (M := list) (λ e : entry, fst <$> e_fs e)) in Hnd.
  assert (Hin : ∀ k y v, l !! k = Some y → e_fs y = Some (f, v) → f ∈ omap (λ e, fst <$> e_fs e) l).
  { intros k y v Hk Hy. apply list_elem_of_omap. exists y. split; [by eapply list_elem_of_lookup_2|]. by rewrite Hy. }
  destruct i as [|i], j as [|j]; simpl in *; [done| | |].
  - injection Hi as ->. rewrite He in Hnd. simpl in Hnd. apply NoDup_cons in Hnd as [Hnot _]. by destruct Hnot; eapply Hin.
  - injection Hj as ->. rewrite He' in Hnd. simpl in Hnd. apply NoDup_cons in Hnd as [Hnot _]. by destruct Hnot; eapply Hin.
  - f_equal. eapply IH; try done. destruct (fst <$> e_fs x); [by apply NoDup_cons in Hnd as [_ ?]|done].
Qed.

Lemma vinv_mounted st Y E n i e a kd da d x s A vol (f := nmalloc st) : vinv st Y E n → 0 ≤ n → y_table Y !! i = Some e → entry_of st i e a kd → e_dev e = Some da →
  devices st !! da = Some d → d_blocksize d = 512 → shows_at present space fsops laws f s A 0 → f_refs A = ∅ → volume fsops f s = vol →
  vinv (set_kd_fs a kd (Some f) (putfs f s (set_nmalloc (Datatypes.S f) (set_d_data da d x st)))) (mounted i e f vol da A Y) E n ∧ y_fs Y !! f = None.
Proof.
  intros Hi Hn He (Hea & Hkd & H1 & H2 & H3 & H4 & H5 & ks' & Har' & Hka) Hde Hda Hsz Hs HR Hvol. pose proof Hi as [Htab Honce Hfs Hdev Hopen Hdrv Hcount Hboot Hcwd (F1 & F2 & F3 & F4) Hdisks Hlocked Hatt].
  assert (Hno : fses st !! f = None). { destruct (fses st !! f) eqn:Hf; [|done]. assert (f < nmalloc st)%nat by (apply F3; by eexists). lia. }
  assert (HnoY : y_fs Y !! f = None) by (specialize (Hfs f); rewrite Hno in Hfs; by destruct (y_fs Y !! f)). split; [|done].
  destruct Htab as (ks & Har & Hnd & Hall). rewrite (same_keys st _ _ Har' Har) in *. assert (Hlive : ∀ e' g vol', e' ∈ y_table Y → e_fs e' = Some (g, vol') → g ≠ f).
  { intros e' g vol' [j Hj]%list_elem_of_lookup Hg ->. destruct (Forall2_lookup_r _ _ _ _ _ Hall Hj) as (aj & _ & Hej). destruct (en_fs _ _ _ _ Hej f vol' Hg) as (sg & Hsg & _). congruence. }
  split.
  - exists ks. split; [done|]. split; [done|]. eapply (entry_changed st); try done.
    + intros g vol' [= <- <-]. exists s. split; [apply lookup_insert_eq|done].
    + intros j e' g vol' _ Hj Hg. simpl. rewrite lookup_insert_ne; [done|]. intros <-. eapply Hlive; [by eapply list_elem_of_lookup_2|done|done].
  - simpl. apply once_insert; [done|done|]. intros e' vol' He' Hg. by eapply Hlive.
  - intros g. simpl. destruct (decide (g = f)) as [->|Hne]; [rewrite !lookup_insert_eq; by eapply fs_later|]. rewrite !lookup_insert_ne by done. apply Hfs.
  - intros k dv Hk. destruct (Hdev k dv Hk) as (? & ? & Hh). split; [done|]. split; [done|]. intros Hlt. destruct (Hh Hlt) as (c & -> & Hc). exists c. split; [done|]. by apply (device_data st da d x).
  - done.
  - simpl in *. rewrite Hdrv. symmetry. by apply (drv_data st da d x).
  - intros v. specialize (Hcount v). change (holds _ v) with (holds st v). destruct v as [k|g p]; [done|]. simpl in *. destruct (decide (g = f)) as [->|Hne]; [|by rewrite lookup_insert_ne].
    rewrite lookup_insert_eq. destruct (fs_absent st Y E n f p Hi HnoY) as [Hh Hm]. unfold spare_refs. rewrite HR, lookup_empty. lia.
  - simpl. destruct (bootfs_vnode st), (y_boot Y) as [g|]; try done. eapply root_elsewhere; [done|]. simpl. rewrite lookup_insert_ne; [done|]. intros <-. destruct Hboot as (p & B & _ & HB & _). congruence.
  - intros t. specialize (Hcwd t). simpl. destruct (t_cwd st !! t), (y_cwd Y !! t) as [g|]; try done. eapply root_elsewhere; [done|]. simpl. rewrite lookup_insert_ne; [done|]. intros <-. destruct Hcwd as (p & B & _ & HB & _). congruence.
  - simpl. split_and!; [intros k Hk%F1; lia| |intros g; destruct (decide (g = f)) as [->|]; [lia|rewrite lookup_insert_ne by done; intros Hg%F3; lia]|intros l Hl%F4; lia].
    intros c. destruct (decide (c = a)) as [->|]; [intros _; assert (a < nmalloc st)%nat by (apply F2; by eexists); lia|rewrite lookup_insert_ne by done; intros Hc%F2; lia].
  - intros b B. simpl. intros [Hne HB]%lookup_delete_Some. rewrite lookup_insert_ne by done. by apply Hdisks.
  - done.
  - intros b Hb. simpl. apply (device_data st da d x b Hda) in Hb. specialize (Hatt b Hb). lia.
Qed.

(** The contents of a device change, what can be mounted does not. *)
Lemma vinv_data st Y E n da d x : vinv st Y E n → devices st !! da = Some d → (∀ A, y_disks Y !! da = Some A → ∀ f, fs_holds (FileSystem := laws f) x A) → vinv (set_d_data da d x st) Y E n.
Proof.
  intros [Htab Honce Hfs Hdev Hopen Hdrv Hcount Hboot Hcwd Hfresh Hdisks Hlocked Hatt] Hda Hx.
  assert (Hhas : ∀ b, has_device st b → has_device (set_d_data da d x st) b). { intros b (c & -> & Hc). exists c. split; [done|]. by apply device_data. }
  split; try done.
  - destruct Htab as (ks & Har & Hnd & Hall). exists ks. split; [done|]. split; [done|]. eapply Forall2_impl; [done|]. intros a e [Hk Hv Hd Hf Hs]. split; try done.
    + intros Hc. by apply Hhas, Hd.
    + intros H1 H2. destruct (Hs H1 H2) as (c & dc & Hc & Hdc & Hsc). exists c. simpl. destruct (decide (c = da)) as [->|Hcd].
      * rewrite lookup_insert_eq. eexists. split; [done|]. split; [done|]. simpl. congruence.
      * rewrite lookup_insert_ne by done. eauto.
  - intros k dv Hk. destruct (Hdev k dv Hk) as (? & ? & Hh). split; [done|]. split; [done|]. intros Hlt. by apply Hhas, Hh.
  - simpl in *. rewrite Hdrv. symmetry. by apply (drv_data st da d x).
  - intros b B HB. destruct (Hdisks b B HB) as (db & Hdb & Hsz & Hho). simpl. destruct (decide (b = da)) as [->|Hne]; [|rewrite lookup_insert_ne by done; eauto].
    rewrite lookup_insert_eq. eexists. split; [done|]. split; [simpl; congruence|]. by apply Hx.
  - intros b Hb. apply (device_data st da d x b Hda) in Hb. by apply Hatt.
Qed.

Lemma vfs_mount_ok st Y n b w : vinv st Y ∅ n → 0 ≤ n → unlocked st → string_of b w →
  (∀ i e, list_find (mountpoint w) (y_table Y) = Some (i, e) → e_fs e = None → ∃ a A, e_dev e = Some a ∧ y_disks Y !! a = Some A) →
  returns (vfs_mount fsops b st) (λ '(e, st'), ∃ Y', vinv st' Y' ∅ n ∧ unlocked st' ∧ mount_spec low Y w e Y').
Proof.
  intros Hi Hn [Hk Hb] Hw Hdisk. unfold vfs_mount, acquire_knowndevs. rewrite Hk. ostep. set (st1 := set_held true (bootfs_lock st) st).
  assert (Hi1 : vinv st1 Y ∅ n) by (by apply vinv_held). destruct (findmount_ok st1 Y ∅ n b w Hi1 Hw eq_refl) as (r & -> & Hr). ostep. unfold mount_spec.
  assert (Hsame : ∀ e, ∃ Y', vinv (release_knowndevs st1) Y' ∅ n ∧ unlocked (release_knowndevs st1) ∧ (e : Z) = e ∧ Y' = Y). { intros e. exists Y. split; [by apply vinv_held|]. done. }
  destruct (list_find _ _) as [[i e]|] eqn:Hfind; [|subst r; ostep; apply returns_ret; apply (Hsame ENODEV)].
  destruct Hr as (a & kd & -> & Hent). pose proof Hent as (Hea & Hkd & Hname & Hraw & Hvn & Hfs & Hdv & _). rewrite Hfs. apply list_find_Some in Hfind as Hfound. destruct Hfound as (He & [Hmp _] & _).
  destruct (e_fs e) as [[g vol]|] eqn:Hef.
  { rewrite bool_decide_eq_true_2 by done. ostep. apply returns_ret. destruct (decide (Some (g, vol) = None)) as [|_]; [done|]. apply (Hsame EBUSY). }
  rewrite bool_decide_eq_false_2 by tauto. destruct (decide (None = None)) as [_|]; [|done]. destruct (Hdisk i e eq_refl Hef) as (da & A & Hde & HA). destruct (vi_disks _ _ _ _ _ _ _ _ Hi1 da A HA) as (d & Hd & Hsz & Hho).
  unfold mount_on. rewrite (assert_true (bool_decide (kd_rawname kd ≠ None))) by (apply bool_decide_eq_true_2; intros H0; by apply Hmp, (maybe_some _ _ Hraw)). ostep.
  rewrite assert_true by (apply bool_decide_eq_true_2; by rewrite Hdv, Hde). ostep. rewrite Hdv, Hde. unfold the. ostep. rewrite Hd. ostep. rewrite Hsz. change 512 with Sfs.SFS_BLOCKSIZE.
  set (f := nmalloc st1). destruct (fs_mount_ok (FileSystem := laws f) (d_data d) A f (Hho f)) as ([[x k] r] & Hrun & Hres). rewrite Hrun. ostep. destruct r as [e'|s].
  - destruct Hres as (-> & Hlow & Hx). ostep. apply returns_ret. exists Y. split; [|split; [done|left; split; [done|]; split; [by exists f|done]]]. apply vinv_held, vinv_nmalloc; [|unfold f; simpl; lia]. apply vinv_data; [done|done|].
    intros B HB g. rewrite HA in HB. injection HB as <-. by eapply uniform.
  - destruct Hres as (A' & Hs & HR & Hnm & Hsf). ostep. apply returns_ret.
    destruct (vinv_mounted st1 Y ∅ n i e a kd da d x s A' (volume fsops f s) Hi1 Hn He Hent Hde Hd Hsz Hs HR eq_refl) as [Hi2 Hno].
    eexists. split; [apply vinv_held; exact Hi2|]. split; [done|]. right. split; [done|]. exists f, (volume fsops f s), da, A, A'. by split_and!.
Qed.

(** ** Unmounting *)

(** Nothing refers to a file system exactly if nobody uses it. *)
Lemma holder st Y n v f : vinv st Y ∅ n → vn_fs v = Some f → 1 ≤ holds st v → y_boot Y = Some f ∨ ∃ t, y_cwd Y !! t = Some f.
Proof.
  intros Hi Hf Hh. unfold holds, boots in Hh. case_decide as Hb.
  - left. pose proof (vi_boot _ _ _ _ _ _ _ _ Hi) as Hr. rewrite Hb in Hr. destruct (y_boot Y) as [g|]; [|done]. destruct Hr as (p & A & -> & _). simpl in Hf. congruence.
  - right. assert (∃ t, t_cwd st !! t = Some v) as [t Ht].
    { unfold cwds in Hh. destruct (decide (filter (λ tv : nat * vptr, tv.2 = v) (t_cwd st) = ∅)) as [He|(t & u & Hu)%map_choose]; [rewrite He, map_size_empty in Hh; lia|].
      apply map_lookup_filter_Some in Hu as [Hu Huv]. simpl in Huv. subst u. eauto. }
    exists t. pose proof (vi_cwd _ _ _ _ _ _ _ _ Hi t) as Hr. rewrite Ht in Hr. destruct (y_cwd Y !! t) as [g|]; [|done]. destruct Hr as (p & A & -> & _). simpl in Hf. congruence.
Qed.

Lemma busy_refs st Y n f A : vinv st Y ∅ n → y_fs Y !! f = Some A → (f_refs A = ∅ → ¬ busy Y f) ∧ (f_refs A ≠ ∅ → busy Y f).
Proof.
  intros Hi HA. split.
  - intros HR [[p Hp]|[Hb|[t Ht]]].
    + unfold opens_at in Hp. rewrite HA in Hp. unfold opens in Hp. by rewrite HR, lookup_empty in Hp.
    + pose proof (vi_boot _ _ _ _ _ _ _ _ Hi) as Hr. rewrite Hb in Hr. destruct (bootfs_vnode st) as [v|]; [|done]. destruct Hr as (p & B & _ & HB & rc & oc & Hp). rewrite HA in HB. injection HB as <-. by rewrite HR, lookup_empty in Hp.
    + pose proof (vi_cwd _ _ _ _ _ _ _ _ Hi t) as Hr. rewrite Ht in Hr. destruct (t_cwd st !! t) as [v|]; [|done]. destruct Hr as (p & B & _ & HB & rc & oc & Hp). rewrite HA in HB. injection HB as <-. by rewrite HR, lookup_empty in Hp.
  - intros (p & [[ino rc] oc] & Hp)%map_choose.
    destruct (fs_there _ _ _ _ st Y ∅ n f A Hi HA) as (s & _ & Hs). pose proof (fs_counts s A n p ino rc oc Hs Hp) as [? ?]. destruct (decide (0 < oc)) as [Ho|Ho].
    + left. exists p. unfold opens_at, opens. rewrite HA, Hp. by rewrite decide_True.
    + right. apply (holder st Y n (VFs f p)); [done|done|]. pose proof (vi_count _ _ _ _ _ _ _ _ Hi (VFs f p)) as Hc. simpl in Hc. rewrite HA in Hc. unfold spare_refs in Hc. rewrite Hp, multiplicity_empty in Hc. lia.
Qed.

Lemma vinv_unmounted st Y E n i e a kd f vol da d x A : vinv st Y E n → y_table Y !! i = Some e → entry_of st i e a kd → e_fs e = Some (f, vol) → e_dev e = Some da → devices st !! da = Some d →
  d_blocksize d = 512 → y_fs Y !! f = Some A → f_refs A = ∅ → (∀ g, fs_holds (FileSystem := laws g) x A) →
  vinv (set_kd_fs a kd None (set_d_data da d x (set_fses (delete f (fses st)) st))) (unmounted i e f da A Y) E n.
Proof.
  intros Hi He (Hea & Hkd & H1 & H2 & H3 & H4 & H5 & ks' & Har' & Hka) Hef Hde Hda Hsz HA HR Hx. pose proof Hi as [Htab Honce Hfs Hdev Hopen Hdrv Hcount Hboot Hcwd (F1 & F2 & F3 & F4) Hdisks Hlocked Hatt].
  destruct Htab as (ks & Har & Hnd & Hall). rewrite (same_keys st _ _ Har' Har) in *. assert (Hroot : ∀ v g, root_of Y v g → g ≠ f).
  { intros v g (p & B & _ & HB & rc & oc & Hp) ->. rewrite HA in HB. injection HB as <-. by rewrite HR, lookup_empty in Hp. }
  assert (Hdata : ∀ b, is_Some (devices st !! b) ↔ is_Some (<[da := Device (d_open d) (d_close d) (d_io d) (d_ioctl d) (d_blocks d) (d_blocksize d) x]> (devices st) !! b)) by (intros b; by apply (device_data st da d x)).
  split.
  - exists ks. split; [done|]. split; [done|]. eapply (entry_changed st); try done. intros j e' g vol' Hj He' Hg. simpl. rewrite lookup_delete_ne; [done|]. intros <-.
    by apply Hj, (once_lookup (y_table Y) j i e' e f vol' vol).
  - simpl. by apply once_insert.
  - intros g. simpl. destruct (decide (g = f)) as [->|Hne]; [by rewrite !lookup_delete_eq|]. rewrite !lookup_delete_ne by done. apply Hfs.
  - intros k dv Hk. destruct (Hdev k dv Hk) as (? & ? & Hh). split; [done|]. split; [done|]. intros Hlt. destruct (Hh Hlt) as (c & -> & Hc). exists c. split; [done|]. by apply Hdata.
  - done.
  - simpl in *. rewrite Hdrv. symmetry. by apply (drv_data st da d x).
  - intros v. specialize (Hcount v). change (holds _ v) with (holds st v). destruct v as [k|g p]; [done|]. simpl in *. destruct (decide (g = f)) as [->|Hne]; [|by rewrite lookup_delete_ne].
    rewrite lookup_delete_eq. rewrite HA in Hcount. unfold spare_refs in Hcount. by rewrite HR, lookup_empty in Hcount.
  - simpl. destruct (bootfs_vnode st), (y_boot Y) as [g|]; try done. eapply root_elsewhere; [done|]. simpl. apply lookup_delete_ne. intros <-. by eapply Hroot.
  - intros t. specialize (Hcwd t). simpl. destruct (t_cwd st !! t), (y_cwd Y !! t) as [g|]; try done. eapply root_elsewhere; [done|]. simpl. apply lookup_delete_ne. intros <-. by eapply Hroot.
  - simpl. split_and!; try done.
    + intros c. destruct (decide (c = a)) as [->|]; [intros _; apply F2; by eexists|rewrite lookup_insert_ne by done; apply F2].
    + intros g [sg [_ Hg]%lookup_delete_Some]. apply F3. by eexists.
  - intros b B. simpl. destruct (decide (b = da)) as [->|Hne].
    + rewrite !lookup_insert_eq. intros [= <-]. eexists. split; [done|]. by split.
    + rewrite !lookup_insert_ne by done. apply Hdisks.
  - done.
  - intros b Hb. simpl. apply Hatt. by apply Hdata.
Qed.

Lemma entry_of_put st Y E n i e a kd f s : vinv (putfs f s st) Y E n → y_table Y !! i = Some e → entry_of st i e a kd → entry_of (putfs f s st) i e a kd.
Proof.
  intros Hi He (_ & Hkd & H1 & H2 & H3 & H4 & H5 & ks & Har & Hka). destruct (known_at (putfs f s st) Y E n i e Hi He) as (a' & kd' & _ & Hea' & Hkd' & _ & _ & _ & _ & _ & ks' & Har' & Hka').
  rewrite (same_keys st _ _ Har' Har) in Hka'. rewrite Hka in Hka'. injection Hka' as <-. split_and!; try done. by exists ks.
Qed.

(** Synchronised, and dropped unless it is in use. *)
Lemma drop_ok st Y n i e a kd f vol : vinv st Y ∅ n → y_table Y !! i = Some e → entry_of st i e a kd → e_fs e = Some (f, vol) → e_raw e ≠ None →
  ∃ st1 c st2 Y', on_fs f (fs_sync (FsOps := fsops f)) st = Ret (0, st1) ∧ unmount_from fsops a kd f st1 = Ret (c, st2) ∧ vinv st2 Y' ∅ n ∧ drop_fs i e f c Y Y' ∧
    knowndevs_lock st2 = knowndevs_lock st ∧ bootfs_lock st2 = bootfs_lock st.
Proof.
  intros Hi He Hent Hef Hraw. pose proof Hent as (Hea & _ & _ & _ & _ & _ & Hdv & _). destruct (volname_ok _ _ _ _ st Y ∅ n a e f vol Hi Hea Hef) as [[A HA] _].
  destruct (SYNC_ok st Y ∅ n f A Hi HA) as (s' & A' & -> & Hi' & Hq & Hcl & Hsh). pose proof Hq as (Hnm & Hrf & Hsf). exists (putfs f s' st).
  assert (Hget : getfs f (putfs f s' st) = Ret s') by (unfold getfs, putfs; simpl; by rewrite lookup_insert_eq). unfold unmount_from. rewrite Hget. ostep.
  pose proof (busy_refs st Y n f A Hi HA) as Hbusy. destruct (fs_unmount_ok (FileSystem := laws f) s' A' n Hsh Hcl) as [(HR & x & -> & Hx)|(HR & ->)]; ostep.
  - destruct (en_size _ _ _ _ Hea) as (da & d & Hde & Hd & Hsz); [by rewrite Hef|done|]. rewrite Hdv, Hde. unfold the. ostep. simpl. rewrite Hd. ostep.
    eexists _, _, (unmounted i e f da A' (set_fs f A' Y)). split; [done|]. split; [done|]. split; [|split; [right|done]].
    + eapply vinv_unmounted; try done; [by eapply entry_of_put|apply lookup_insert_eq|]. intros g. by eapply uniform.
    + split; [apply Hbusy; by rewrite <- Hrf|]. split; [done|]. exists da, A, A'. split; [done|]. split; [done|]. split; [done|]. unfold unmounted. simpl. by rewrite delete_insert_eq.
  - eexists _, _, (set_fs f A' Y). split; [done|]. split; [done|]. split; [done|]. split; [left|done]. split; [|split; [done|by eapply calmly_quiet]].
    apply Hbusy. by rewrite <- Hrf.
Qed.

Lemma vfs_unmount_ok st Y n b w : vinv st Y ∅ n → unlocked st → string_of b w → returns (vfs_unmount fsops b st) (λ '(e, st'), ∃ Y', vinv st' Y' ∅ n ∧ unlocked st' ∧ unmount_spec Y w e Y').
Proof.
  intros Hi [Hk Hb] Hw. unfold vfs_unmount, acquire_knowndevs. rewrite Hk. ostep. set (st1 := set_held true (bootfs_lock st) st).
  assert (Hi1 : vinv st1 Y ∅ n) by (by apply vinv_held). destruct (findmount_ok st1 Y ∅ n b w Hi1 Hw eq_refl) as (r & -> & Hr). ostep. unfold unmount_spec.
  assert (Hsame : ∀ e, ∃ Y', vinv (release_knowndevs st1) Y' ∅ n ∧ unlocked (release_knowndevs st1) ∧ (e : Z) = e ∧ Y' = Y). { intros e. exists Y. split; [by apply vinv_held|]. done. }
  destruct (list_find _ _) as [[i e]|] eqn:Hfind; [|subst r; ostep; apply returns_ret; apply (Hsame ENODEV)].
  destruct Hr as (a & kd & -> & Hent). pose proof Hent as (Hea & Hkd & Hname & Hraw & Hvn & Hfs & Hdv & _). rewrite Hfs. apply list_find_Some in Hfind as (He & [Hmp _] & _).
  destruct (e_fs e) as [[f vol]|] eqn:Hef; simpl; [|ostep; apply returns_ret; apply (Hsame EINVAL)].
  rewrite (assert_true (bool_decide (kd_rawname kd ≠ None))) by (apply bool_decide_eq_true_2; intros H0; by apply Hmp, (maybe_some _ _ Hraw)). ostep.
  destruct (en_size _ _ _ _ Hea) as (da & d & Hde & Hd & Hsz); [by rewrite Hef|done|]. rewrite assert_true by (apply bool_decide_eq_true_2; by rewrite Hdv, Hde). ostep.
  destruct (drop_ok st1 Y n i e a kd f vol Hi1 He Hent Hef Hmp) as (st2 & c & st3 & Y' & -> & Hun & Hi3 & Hdrop & Hl1 & Hl2). ostep. rewrite bool_decide_eq_false_2 by tauto. rewrite Hun. ostep.
  apply returns_ret. exists Y'. split; [by apply vinv_held|]. split; [|done]. split; [done|]. simpl. by rewrite Hl2.
Qed.

(** ** vfs_unmountall *)

Lemma drop_table i en f c Y Y' : drop_fs i en f c Y Y' → length (y_table Y') = length (y_table Y).
Proof.
  intros [(_ & _ & Hc)|(_ & _ & a & A & A' & _ & _ & _ & ->)]; [destruct Hc as [(-> & _) _ _]; done|]. simpl. by rewrite length_insert.
Qed.

Lemma unmountall_turn_ok st Y n i : vinv st Y ∅ n → (i < length (y_table Y))%nat → returns (unmountall_turn fsops (Z.of_nat i) st) (λ st', ∃ Y', vinv st' Y' ∅ n ∧
  length (y_table Y') = length (y_table Y) ∧ knowndevs_lock st' = knowndevs_lock st ∧ bootfs_lock st' = bootfs_lock st ∧
  match y_table Y !! i with
  | Some en => match e_raw en, e_fs en with Some _, Some (f, _) => ∃ e, drop_fs i en f e Y Y' | _, _ => Y' = Y end
  | None => Y' = Y
  end).
Proof.
  intros Hi Hlt. destruct (lookup_lt_is_Some_2 _ _ Hlt) as [e He]. destruct (known_at st Y ∅ n i e Hi He) as (a & kd & Hkn & Hent). pose proof Hent as (Hea & _ & _ & Hraw & _ & Hfs & _).
  unfold unmountall_turn. rewrite Hkn. ostep. rewrite Hfs, He. assert (Hsame : returns (Ret st) (λ st', ∃ Y', vinv st' Y' ∅ n ∧ length (y_table Y') = length (y_table Y) ∧
    knowndevs_lock st' = knowndevs_lock st ∧ bootfs_lock st' = bootfs_lock st ∧ Y' = Y)) by (apply returns_ret; by exists Y).
  destruct (kd_rawname kd) as [raw|], (e_raw e) as [rw|] eqn:Her; try done. destruct (e_fs e) as [[f vol]|] eqn:Hef; [|done]. simpl.
  destruct (drop_ok st Y n i e a kd f vol Hi He Hent Hef) as (st1 & c & st2 & Y' & -> & Hun & Hi2 & Hdrop & Hl1 & Hl2); [by rewrite Her|]. ostep.
  rewrite (bool_decide_eq_false_2 (0 ≠ 0)) by tauto. ostep. rewrite (bool_decide_eq_false_2 (0 ≠ 0)) by tauto. rewrite Hun. ostep. apply returns_ret. exists Y'.
  split; [done|]. split; [by eapply drop_table|]. split; [done|]. split; [done|]. by exists c.
Qed.

Lemma unmountall_loop k : ∀ i st Y n, vinv st Y ∅ n → (i + k)%nat = length (y_table Y) →
  returns (for_each k (Z.of_nat i) (unmountall_turn fsops) st) (λ st', ∃ Y', vinv st' Y' ∅ n ∧ knowndevs_lock st' = knowndevs_lock st ∧ bootfs_lock st' = bootfs_lock st ∧ unmountall_spec k i Y Y').
Proof.
  induction k as [|k IH]; intros i st Y n Hi Hlen; simpl; [apply returns_ret; by exists Y|]. eapply returns_bind; [apply (unmountall_turn_ok st Y n i Hi); lia|].
  intros st1 (Y1 & Hi1 & Hl & Hk1 & Hb1 & Hstep). replace (Z.of_nat i + 1) with (Z.of_nat (Datatypes.S i)) by lia. eapply returns_mono; [apply (IH (Datatypes.S i) st1 Y1 n Hi1); lia|].
  intros st2 (Y2 & Hi2 & Hk2 & Hb2 & Hrest). exists Y2. split; [done|]. split; [congruence|]. split; [congruence|]. by exists Y1.
Qed.

Lemma vfs_unmountall_ok st Y n : vinv st Y ∅ n → unlocked st → returns (vfs_unmountall fsops st) (λ '(e, st'), ∃ Y', vinv st' Y' ∅ n ∧ unlocked st' ∧ e = 0 ∧ unmountall_spec (length (y_table Y)) 0 Y Y').
Proof.
  intros Hi [Hk Hb]. unfold vfs_unmountall, acquire_knowndevs. rewrite Hk. ostep. set (st1 := set_held true (bootfs_lock st) st). assert (Hi1 : vinv st1 Y ∅ n) by (by apply vinv_held).
  rewrite (numdevs_ok _ _ _ _ st1 Y ∅ n Hi1). eapply returns_bind; [apply (unmountall_loop _ 0 st1 Y n Hi1); done|]. intros st2 (Y2 & Hi2 & Hk2 & Hb2 & Hspec). apply returns_ret.
  exists Y2. split; [by apply vinv_held|]. split; [|done]. split; [done|]. simpl. by rewrite Hb2.
Qed.
End mounts.
