(* ===== verification/VfsAdd.v ===== *)
(** * The VFS layer: new devices, and vfs_bootstrap *)

From stdpp Require Import gmultiset.
From S2P Require Import Prelude CArray KHeap KHeapSpec Coremap Uio CString SfsVnode SfsTheorems SfsTree SfsOps SfsLoad SfsNames FileSys Vfs VfsPath VfsInv VfsOps VfsCalls VfsResolve VfsState VfsSpec VfsRefine VfsMounts.

(** ** Comparing names *)

Definition eqs (a b : option (list Z)) : bool := match a, b with Some x, Some y => bool_decide (x = y) | _, _ => false end.

Lemma samestring_ok a b wa wb : maybe_string a wa → maybe_string b wb → samestring a b = Ret (eqs wa wb).
Proof. intros Ha Hb. destruct a, wa, b, wb; try done. by apply same_ok. Qed.

Lemma samestring3_ok a b c d wa wb wc wd : maybe_string a wa → maybe_string b wb → maybe_string c wc → maybe_string d wd →
  samestring3 a b c d = Ret (eqs wa wb || (eqs wa wc || eqs wa wd)).
Proof.
  intros Ha Hb Hc Hd. unfold samestring3, or_else. rewrite (samestring_ok a b wa wb), (samestring_ok a c wa wc), (samestring_ok a d wa wd) by done. ostep. by destruct (eqs wa wb), (eqs wa wc).
Qed.

Lemma clash_bool w raw e : bool_decide (clash w raw e) =
  (eqs (volume_of e) (Some w) || (eqs (volume_of e) raw || eqs (volume_of e) None)) ||
  ((eqs (e_raw e) (Some w) || (eqs (e_raw e) raw || eqs (e_raw e) None)) || (eqs (Some (e_name e)) (Some w) || (eqs (Some (e_name e)) raw || eqs (Some (e_name e)) None))).
Proof.
  assert (Hnone : ∀ a, eqs a None = false) by (by intros []). rewrite !Hnone, !orb_false_r. assert (Heq : ∀ a b, eqs a b = true ↔ ∃ x, a = Some x ∧ b = Some x).
  { intros [x|] [y|]; simpl; [rewrite bool_decide_eq_true; naive_solver|naive_solver..]. }
  apply eq_true_iff_eq. rewrite bool_decide_eq_true, !orb_true_iff, !Heq. unfold clash, has_name. destruct raw; naive_solver.
Qed.

Section add.
Context {D S : Type} (present : Z → bool) (space : Z) (fsops : nat → FsOps D S) (laws : ∀ f, FileSystem D S present space (H := fsops f)).
Context (nomem : nat → bool).
Abbreviation state := (vfs D S).
Abbreviation vinv := (vinv present space fsops laws).

Abbreviation short := (short nomem).

(** ** The parts of the state a new device needs *)

Lemma vinv_newdev st Y E n k a : vinv st Y E n → 0 ≤ n → dvnodes st !! k = None → (k < nmalloc st)%nat →
  vinv (dvput k (Dvnode 1 0 a) st) (set_open k (0, a) Y) E (n + 1) ∧ y_devs Y !! k = None.
Proof.
  intros Hi Hn Hk Hlt. pose proof Hi as [Htab Honce Hfs Hdev Hopen Hdrv Hcount Hboot Hcwd (F1 & F2 & F3 & F4) Hdisks Hlocked Hatt]. split; [|rewrite Hopen, lookup_fmap, Hk; done]. split; try done.
  - destruct Htab as (ks & Har & Hnd & Hall). exists ks. split; [done|]. split; [done|]. eapply Forall2_impl; [done|]. intros b e [Hkd (dve & Hv & He) Hd Hf Hsz]. split; try done.
    exists dve. simpl. rewrite lookup_insert_ne; [done|congruence].
  - intros f. specialize (Hfs f). simpl. destruct (fses st !! f), (y_fs Y !! f); try done. eapply fs_later; [exact Hfs|lia].
  - intros j dj Hj. simpl in Hj. destruct (decide (j = k)) as [->|Hne]; [rewrite lookup_insert_eq in Hj; injection Hj as <-; simpl; split; [lia|]; split; [lia|]; lia|].
    rewrite lookup_insert_ne in Hj by done. destruct (Hdev j dj Hj) as (? & ? & ?). split; [lia|done].
  - simpl. by rewrite Hopen, fmap_insert.
  - intros v. specialize (Hcount v). change (holds _ v) with (holds st v). destruct v as [j|f p]; [|done]. simpl in *. destruct (decide (j = k)) as [->|Hne]; [|by rewrite lookup_insert_ne].
    rewrite lookup_insert_eq. rewrite Hk in Hcount. simpl. lia.
  - split; [|done]. intros j [dj Hj]. simpl in *. destruct (decide (j = k)) as [->|]; [done|]. rewrite lookup_insert_ne in Hj by done. apply F1. by eexists.
Qed.

Lemma vinv_newlock st Y E n l : vinv st Y E n → (l < nmalloc st)%nat → vinv (set_rw (rw_lock st) ({[l]} ∪ locks st) st) Y E n.
Proof.
  intros [Htab Honce Hfs Hdev Hopen Hdrv Hcount Hboot Hcwd (F1 & F2 & F3 & F4) Hdisks Hlocked Hatt] Hl. split; try done.
  - destruct Htab as (ks & Har & Hnd & Hall). exists ks. split; [done|]. split; [done|]. by apply (entries_same _ st).
  - split_and!; try done. intros m. simpl. set_unfold. intros [->|Hm]; [done|by apply F4].
  - intros v Hv. destruct (Hlocked v Hv) as (l' & Hl' & Hin & Huniq). exists l'. split; [done|]. split; [simpl; set_solver|done].
Qed.

Lemma vinv_newkd st Y E n a kd : vinv st Y E n → kds st !! a = None → (a < nmalloc st)%nat → vinv (set_kds (<[a := kd]> (kds st)) st) Y E n.
Proof.
  intros [Htab Honce Hfs Hdev Hopen Hdrv Hcount Hboot Hcwd (F1 & F2 & F3 & F4) Hdisks Hlocked Hatt] Hno Ha. split; try done.
  - destruct Htab as (ks & Har & Hnd & Hall). exists ks. split; [done|]. split; [done|]. eapply Forall2_impl; [done|]. intros b e [(kd' & Hkd & Hrest) Hv Hd Hf Hsz]. split; try done.
    exists kd'. simpl. rewrite lookup_insert_ne; [done|congruence].
  - split_and!; try done. intros b. simpl. destruct (decide (b = a)) as [->|]; [done|]. rewrite lookup_insert_ne by done. apply F2.
Qed.

(** A device comes into being. *)
Lemma vinv_attached st Y E n a d disk : vinv st Y E n → devices st !! a = None → (a < nmalloc st)%nat →
  match disk with Some A => d_blocksize d = 512 ∧ ∀ f, fs_holds (FileSystem := laws f) (d_data d) A | None => True end →
  vinv (set_devices (<[a := d]> (devices st)) st) (attached a (d_open d) disk Y) E n.
Proof.
  intros [Htab Honce Hfs Hdev Hopen Hdrv Hcount Hboot Hcwd Hfresh Hdisks Hlocked Hatt] Hno Ha Hdisk.
  assert (Hold : ∀ b db, devices st !! b = Some db → <[a := d]> (devices st) !! b = Some db) by (intros b db Hb; rewrite lookup_insert_ne; [done|congruence]).
  assert (Hhas : ∀ b, has_device st b → has_device (set_devices (<[a := d]> (devices st)) st) b) by (intros b (c & -> & dc & Hc); exists c; split; [done|]; exists dc; by apply Hold).
  split; try done.
  - destruct Htab as (ks & Har & Hnd & Hall). exists ks. split; [done|]. split; [done|]. eapply Forall2_impl; [done|]. intros b e [Hkd Hv Hd Hf Hsz]. split; try done.
    + intros Hc. by apply Hhas, Hd.
    + intros H1 H2. destruct (Hsz H1 H2) as (c & dc & Hc & Hdc & Hsc). exists c, dc. split; [done|]. split; [by apply Hold|done].
  - intros k dv Hk. destruct (Hdev k dv Hk) as (? & ? & Hh). split; [done|]. split; [done|]. intros Hlt. by apply Hhas, Hh.
  - simpl. by rewrite Hdrv, fmap_insert.
  - intros b B. simpl. assert (Hb : y_disks Y !! b = Some B → ∃ db, <[a := d]> (devices st) !! b = Some db ∧ d_blocksize db = 512 ∧ ∀ f, fs_holds (FileSystem := laws f) (d_data db) B).
    { intros (db & Hdb & Hrest)%Hdisks. exists db. split; [by apply Hold|done]. }
    destruct disk as [A|]; [|done]. destruct (decide (b = a)) as [->|Hne]; [|by rewrite lookup_insert_ne in |- * by done]. rewrite lookup_insert_eq. intros [= <-]. exists d. by rewrite lookup_insert_eq.
  - intros b [db Hb]. simpl in *. destruct (decide (b = a)) as [->|]; [done|]. rewrite lookup_insert_ne in Hb by done. apply Hatt. by eexists.
Qed.

(** The new entry goes to the end of the table. *)
Lemma vinv_append st Y E n a kd e arr ks : vinv st Y E n → arepr (knowndevs st) ks → arepr arr (ks ++ [a]) → a ∉ ks → entry_at fsops st a e → e_fs e = None →
  y_devs Y !! e_vnode e = Some (0, e_dev e) → kds st !! a = Some kd → vinv (set_knowndevs arr st) (added e Y) E n.
Proof.
  intros [Htab Honce Hfs Hdev Hopen Hdrv Hcount Hboot Hcwd Hfresh Hdisks Hlocked Hatt] Har0 Har Hnew Hea Hef Hdv Hkd. destruct Htab as (ks' & Har' & Hnd & Hall). rewrite (same_keys st _ _ Har' Har0) in *.
  split; try done.
  - exists (ks ++ [a]). split; [done|]. split; [apply NoDup_app; split; [done|]; split; [set_solver|apply NoDup_singleton]|]. simpl. apply Forall2_app; [|apply Forall2_cons; split; [|done]].
    + eapply Forall2_impl; [done|]. intros b e' []. by split.
    + destruct Hea. by split.
  - simpl. rewrite omap_app. simpl. by rewrite Hef, app_nil_r.
  - simpl. by rewrite insert_id.
Qed.

(** ** vfs_adddev *)

Lemma kmalloc_cases (st : state) : kmalloc nomem st = (None, set_nmalloc (Datatypes.S (nmalloc st)) st) ∧ short ∨ kmalloc nomem st = (Some (nmalloc st), set_nmalloc (Datatypes.S (nmalloc st)) st).
Proof. unfold kmalloc. destruct (nomem (nmalloc st)) eqn:Hn; [left|by right]. split; [done|]. by eexists. Qed.

Lemma lock_create_ok (st : state) : (∃ st', lock_create nomem st = (None, st')) ∧ short ∨
  lock_create nomem st = (Some (nmalloc st), set_rw (rw_lock st) ({[nmalloc st]} ∪ locks st) (set_nmalloc (Datatypes.S (Datatypes.S (nmalloc st))) st)).
Proof.
  unfold lock_create, kmalloc. destruct (nomem (nmalloc st)) eqn:H1; [left; split; [by eexists|by eexists]|]. simpl.
  destruct (nomem (Datatypes.S (nmalloc st))) eqn:H2; [left; split; [by eexists|by eexists]|by right].
Qed.

(** A copy of a name; no memory, no copy. *)
Definition copied (st : state) (w : list Z) (x : option (list Z) * state) : Prop :=
  x.2 = set_nmalloc (Datatypes.S (nmalloc st)) st ∧ match x.1 with Some s => string_of s w | None => short end.

Lemma kstrdup_ok st b w : string_of b w → ∃ x, kstrdup nomem b st = Ret x ∧ copied st w x.
Proof.
  intros (Hw & t & ->). unfold kstrdup. rewrite strlen_ok by done. ostep. destruct (kmalloc_cases st) as [[-> Hs]| ->]; [eexists; split; [done|]; by split|]. unfold strcpy.
  rewrite strcpy_at_ok; [|done|lia|rewrite length_replicate; lia]. ostep. change (take (Z.to_nat 0) (replicate (Z.to_nat (len w + 1)) 0)) with (@nil Z). cbn [app].
  eexists. split; [done|]. split; [done|]. simpl. split; [done|]. by eexists.
Qed.

Lemma mkrawname_ok st b w : string_of b w → ∃ x, mkrawname nomem b st = Ret x ∧ copied st (w ++ [114; 97; 119]) x.
Proof.
  intros (Hw & t & ->). unfold mkrawname. rewrite strlen_ok by done. ostep. destruct (kmalloc_cases st) as [[-> Hs]| ->]; [eexists; split; [done|]; by split|]. unfold strcpy.
  rewrite strcpy_at_ok; [|done|lia|rewrite length_replicate; lia]. ostep. change (take (Z.to_nat 0) (replicate (Z.to_nat (len w + 3 + 1)) 0)) with (@nil Z). cbn [app].
  unfold string_raw. pose proof (strcat_ok w (drop (Z.to_nat 0 + length w + 1) (replicate (Z.to_nat (len w + 3 + 1)) 0)) [114; 97; 119] [] Hw ltac:(by repeat constructor)) as Hcat. cbn [app] in Hcat.
  rewrite Hcat; [|rewrite length_drop, length_replicate; simpl; lia]. ostep. eexists. split; [done|]. split; [done|]. simpl. split; [apply Forall_app; split; [done|by repeat constructor]|].
  eexists. by rewrite <- app_assoc.
Qed.

Lemma badnames_ok st Y E n s w rs raw : vinv st Y E n → knowndevs_lock st = true → string_of s w → maybe_string rs raw →
  badnames fsops (Some s) rs None st = Ret (bool_decide (Exists (clash w raw) (y_table Y))).
Proof.
  intros Hi Hl Hs Hr. unfold badnames. rewrite Hl. rewrite assert_true by done. ostep. rewrite (numdevs_ok _ _ _ _ st Y E n Hi).
  destruct (for_loop_find (badnames_turn fsops st (Some s) rs None) () (clash w raw) (λ _ _ _, True) (y_table Y) 0) as (x & -> & Hx).
  { intros j e He. rewrite Z.add_0_l. destruct (known_ok _ _ _ _ st Y E n j e Hi He) as (a & kd & Hkn & Hea & _ & Hname & Hraw & _ & Hfs & _). unfold badnames_turn. rewrite Hkn. ostep.
    assert (Hs1 : maybe_string (Some s) (Some w)) by done. assert (Hn1 : maybe_string (Some (kd_name kd)) (Some (e_name e))) by done. assert (H0 : maybe_string (@None (list Z)) None) by done.
    assert (Hvol : match kd_fs kd with Some f => v ← volname_of fsops f st; samestring3 v (Some s) rs None | None => Ret false end = Ret (eqs (volume_of e) (Some w) || (eqs (volume_of e) raw || eqs (volume_of e) None))).
    { rewrite Hfs. unfold volume_of. destruct (e_fs e) as [[f vol]|] eqn:Hef; [|done]. simpl. destruct (volname_ok _ _ _ _ st Y E n a e f vol Hi Hea Hef) as [_ (v & -> & Hv)]. ostep.
      by rewrite (samestring3_ok v _ _ _ vol (Some w) raw None). }
    rewrite Hvol. ostep. unfold or_else. rewrite (samestring3_ok (kd_rawname kd) (Some s) rs None (e_raw e) (Some w) raw None) by done. rewrite (samestring3_ok (Some (kd_name kd)) (Some s) rs None (Some (e_name e)) (Some w) raw None) by done. ostep.
    pose proof (clash_bool w raw e) as Hcl. set (b1 := eqs (volume_of e) _ || _) in *. set (b2 := eqs (e_raw e) _ || _) in *. set (b3 := eqs (Some (e_name e)) _ || _) in *.
    destruct (decide (clash w raw e)) as [Hc|Hc]; [rewrite bool_decide_eq_true_2 in Hcl by done|rewrite bool_decide_eq_false_2 in Hcl by done].
    - destruct b1; [apply returns_ret; by exists ()|]. destruct b2; [ostep; apply returns_ret; by exists ()|]. destruct b3; [ostep; apply returns_ret; by exists ()|done].
    - destruct b1, b2, b3; try done. ostep. by apply returns_ret. }
  ostep. f_equal. destruct (list_find _ _) as [[i e]|] eqn:Hf; [destruct Hx as (r & -> & _)|subst x]; symmetry.
  - apply list_find_Some in Hf as (He & Hc & _). apply bool_decide_eq_true_2, Exists_exists. exists e. split; [by eapply list_elem_of_lookup_2|done].
  - apply bool_decide_eq_false_2. intros (e & He & Hc)%Exists_exists. apply list_find_None in Hf. by eapply Forall_forall in Hf.
Qed.

(** Nothing but the allocator, locks and vnodes of devices that nobody knows. *)
Lemma dev_create_vnode_ok st Y n a : vinv st Y ∅ n → 0 ≤ n →
  safely short (dev_create_vnode nomem (Some a) st) (λ '(v, st'), match v with
    | None => vinv st' Y ∅ n ∧ unlocked st = unlocked st' ∧ short
    | Some k => vinv st' (set_open k (0, Some a) Y) ∅ (n + 1) ∧ vinv (set_dvnodes (delete k (dvnodes st')) st') Y ∅ n ∧ y_devs Y !! k = None ∧ dvnodes st' !! k = Some (Dvnode 1 0 (Some a)) ∧
        (unlocked st ↔ unlocked st') ∧ devices st' = devices st ∧ knowndevs st' = knowndevs st
    end).
Proof.
  intros Hi Hn. destruct (vi_fresh _ _ _ _ _ _ _ _ Hi) as (F1 & _). set (k := nmalloc st). assert (Hk : dvnodes st !! k = None).
  { destruct (dvnodes st !! k) eqn:Hk; [|done]. assert (k < nmalloc st)%nat by (apply F1; by eexists). lia. }
  unfold dev_create_vnode. destruct (kmalloc_cases st) as [[-> Hs]| ->]; fold k.
  { apply safely_ret. split; [|by split]. apply vinv_nmalloc; [done|lia]. }
  destruct (lock_create_ok (set_nmalloc (Datatypes.S k) st)) as [[[st' ->] Hs]| ->]; [by apply safely_panic|]. apply safely_ret.
  set (st' := set_nmalloc (Datatypes.S (Datatypes.S (Datatypes.S k))) st). assert (Hi1 : vinv (set_rw (rw_lock st') ({[Datatypes.S k]} ∪ locks st') st') Y ∅ n).
  { apply vinv_newlock; [apply vinv_nmalloc; [done|unfold k; lia]|simpl; lia]. }
  destruct (vinv_newdev _ Y ∅ n k (Some a) Hi1 Hn Hk) as [Hi2 Hy]; [simpl; lia|]. split; [exact Hi2|]. split; [|split; [done|]; split; [apply lookup_insert_eq|done]].
  simpl. rewrite delete_insert_eq, (delete_id _ _ Hk). exact Hi1.
Qed.

Lemma fresh_key st Y E n a ks : vinv st Y E n → (nmalloc st ≤ a)%nat → arepr (knowndevs st) ks → kds st !! a = None ∧ a ∉ ks.
Proof.
  intros Hi Ha Har. destruct (vi_fresh _ _ _ _ _ _ _ _ Hi) as (_ & F2 & _). assert (Hno : kds st !! a = None).
  { destruct (kds st !! a) eqn:Hk; [|done]. assert (a < nmalloc st)%nat by (apply F2; by eexists). lia. }
  split; [done|]. intros [i Hi']%list_elem_of_lookup. destruct (vi_table _ _ _ _ _ _ _ _ Hi) as (ks' & Har' & _ & Hall). rewrite (same_keys st _ _ Har' Har) in Hall.
  destruct (Forall2_lookup_l _ _ _ _ _ Hall Hi') as (e & _ & Hea). destruct (en_kd _ _ _ _ Hea) as (kd & Hkd & _). congruence.
Qed.

Lemma add_known_ok st Y n s w rs raw a k : let Yk := set_open k (0, Some a) Y in
  vinv st Yk ∅ n → vinv (set_dvnodes (delete k (dvnodes st)) st) Y ∅ n → unlocked st → string_of s w → maybe_string rs raw → has_device st (Some a) → dvnodes st !! k = Some (Dvnode 1 0 (Some a)) →
  y_devs Y !! k = None → len (y_table Y) < 2 ^ 29 →
  returns (add_known fsops nomem (Knowndev s rs (Some a) k None) None st) (λ '(e, st'), ∃ Y', vinv st' Y' ∅ n ∧ unlocked st' ∧ (e = ENOMEM → short) ∧
    (e = ENOMEM ∧ left_over a Y Y' ∨ e = EEXIST ∧ Exists (clash w raw) (y_table Y) ∧ left_over a Y Y' ∨
     e = 0 ∧ Forall (λ en, ¬ clash w raw en) (y_table Y) ∧ Y' = added (Entry w raw (Some a) k None) Y)).
Proof.
  intros Yk Hi Hback [Hk Hb] Hs Hr Hhas Hdv Hy Hlen. unfold add_known. destruct (kmalloc_cases st) as [[-> Hsh]| ->].
  { apply returns_ret. exists Y. split; [|split; [done|split; [done|left; split; [done|by left]]]]. exact (vinv_nmalloc _ _ _ _ _ _ _ _ (Datatypes.S (nmalloc st)) Hback (Nat.le_succ_diag_r _)). }
  destruct (vi_table _ _ _ _ _ _ _ _ Hi) as (ks & Har & _ & Hall). destruct (fresh_key st Yk ∅ n (nmalloc st) ks Hi (le_n _) Har) as [Hno Hnin]. set (c := nmalloc st) in *. set (kd := Knowndev _ _ _ _ _).
  set (st1 := set_nmalloc (Datatypes.S c) st). assert (Hi1 : vinv st1 Yk ∅ n) by (apply vinv_nmalloc; [done|unfold c; lia]).
  assert (Hi2 : vinv (set_kds (<[c := kd]> (kds st1)) st1) Yk ∅ n) by (apply vinv_newkd; [done|done|simpl; lia]). set (st2 := set_kds _ st1) in *.
  unfold acquire_knowndevs. change (knowndevs_lock st2) with (knowndevs_lock st). rewrite Hk. ostep. assert (Hi3 : vinv (set_held true (bootfs_lock st2) st2) Yk ∅ n) by (by apply vinv_held). set (st3 := set_held _ _ st2) in *.
  change (kd_name kd) with s. change (kd_rawname kd) with rs. rewrite (badnames_ok st3 Yk ∅ n s w rs raw Hi3 eq_refl Hs Hr). ostep. change (y_table Yk) with (y_table Y).
  destruct (decide (Exists (clash w raw) (y_table Y))) as [Hcl|Hcl].
  { rewrite bool_decide_eq_true_2 by done. ostep. apply returns_ret. exists Yk. split; [by apply vinv_held|]. split; [by split|]. split; [done|]. right. left. split; [done|]. split; [done|]. right. by exists k. }
  rewrite bool_decide_eq_false_2 by done. assert (Hlk : length ks = length (y_table Y)) by (by eapply Forall2_length in Hall).
  destruct (array_add_ok (λ _, negb (nomem (nmalloc st3))) (knowndevs st3) ks c Har) as [(arr & -> & Har' & _)|(-> & _ & _ & Hfull)]; [lia| |]; ostep; apply returns_ret.
  - exists (added (Entry w raw (Some a) k None) Y). split; [|split; [by split|split; [done|]]].
    + assert (Hea : entry_at fsops st3 c (Entry w raw (Some a) k None)).
      { split; simpl; [|by eexists|done|done|done]. exists kd. rewrite lookup_insert_eq. by split_and!. }
      pose proof (vinv_append st3 Yk ∅ n c kd _ arr ks Hi3 Har Har' Hnin Hea eq_refl (lookup_insert_eq _ _ _) (lookup_insert_eq _ _ _)) as Hi4.
      assert (HY : added (Entry w raw (Some a) k None) Yk = added (Entry w raw (Some a) k None) Y) by (unfold added; simpl; by rewrite insert_insert_eq). rewrite HY in Hi4.
      apply vinv_held. apply vinv_nmalloc; [done|simpl; lia].
    + right. right. split; [done|]. split; [|done]. apply Forall_forall. intros e He Hc. apply Hcl, Exists_exists. eauto.
  - exists Yk. split; [|split; [by split|split; [intros _; eexists; by apply negb_false_iff|left; split; [done|right; by exists k]]]]. apply vinv_held. apply vinv_nmalloc; [|simpl; lia]. exact Hi3.
Qed.

Lemma vfs_adddev_ok st Y n b w a mountable : vinv st Y ∅ n → 0 ≤ n → unlocked st → string_of b w → is_Some (devices st !! a) → len (y_table Y) < 2 ^ 29 →
  safely short (vfs_adddev fsops nomem b a mountable st) (λ '(e, st'), ∃ Y', vinv st' Y' ∅ (n + 1) ∧ unlocked st' ∧ adddev_spec short Y w a mountable e Y').
Proof.
  intros Hi Hn Hu Hb Ha Hlen. unfold vfs_adddev, vfs_doadd. assert (Hno : ∀ st', vinv st' Y ∅ n → unlocked st' → short → safely short (Ret (ENOMEM, st')) (λ '(e, st'), ∃ Y', vinv st' Y' ∅ (n + 1) ∧ unlocked st' ∧ adddev_spec short Y w a mountable e Y')).
  { intros st' Hi' Hu' Hsh. apply safely_ret. exists Y. split; [eapply vinv_later; [done|lia]|]. split; [done|]. left. split; [done|]. split; [done|by left]. }
  destruct (kstrdup_ok st b w Hb) as ([name st1] & -> & Hst1 & Hname). simpl in Hst1, Hname. subst st1. ostep. assert (Hi1 : vinv (set_nmalloc (Datatypes.S (nmalloc st)) st) Y ∅ n) by (apply vinv_nmalloc; [done|lia]).
  set (st1 := set_nmalloc _ st) in *. assert (Hu1 : unlocked st1) by done. destruct name as [name|]; [|by apply Hno].
  assert (∃ rs st2, (if mountable then mkrawname nomem name st1 else Ret (None, st1)) = Ret (rs, st2) ∧ vinv st2 Y ∅ n ∧ unlocked st2 ∧ devices st2 = devices st ∧
    (if mountable && bool_decide (rs = None) then short else maybe_string rs (raw_name w mountable))) as (rs & st2 & -> & Hi2 & Hu2 & Hd2 & Hrs).
  { destruct mountable; [|exists None, st1; by split_and!]. destruct (mkrawname_ok st1 name w Hname) as ([rs st2] & -> & Hst2 & Hrs). simpl in Hst2, Hrs. subst st2. exists rs, (set_nmalloc (Datatypes.S (nmalloc st1)) st1).
    split; [done|]. split; [apply vinv_nmalloc; [done|lia]|]. split; [done|]. split; [done|]. simpl. by destruct rs. }
  ostep. destruct (mountable && bool_decide (rs = None)); [by apply Hno|]. eapply safely_bind; [by apply (dev_create_vnode_ok st2 Y n a)|].
  intros [[k|] st3]; [|intros (Hi3 & Hu3 & Hsh); apply Hno; [done|by rewrite <- Hu3|done]]. intros (Hi3 & Hback & Hy & Hdv & Hu3 & Hd3 & Hkd3). ostep. apply safely_returns.
  eapply returns_mono; [apply (add_known_ok st3 Y (n + 1) name w rs (raw_name w mountable) a k); try done; [eapply vinv_later; [done|lia]|by apply Hu3|exists a; split; [done|]; by rewrite Hd3, Hd2]|].
  intros [e st'] (Y' & Hi' & Hu' & Hsh & Hres). exists Y'. split; [done|]. split; [done|]. destruct Hres as [[? ?]|[?|(-> & Hno' & ->)]]; [left; split; [done|]; split; [by apply Hsh|done]|by right; left|]. right. right. split; [done|]. split; [done|]. by exists k.
Qed.

(** ** vfs_bootstrap *)

Definition nothing_yet : vsys := Vsys [] ∅ None ∅ ∅ ∅ ∅ ∅.

Lemma vinv_empty h n0 : vinv (Vfs (Array 0 0 None) ∅ ∅ ∅ ∅ None ∅ h ∅ false false n0) nothing_yet ∅ 0.
Proof.
  split; simpl; try done.
  - exists []. split; [apply arepr_create|]. split; [constructor|done].
  - constructor.
  - intros v. unfold holds, boots, cwds. simpl. rewrite map_filter_empty, map_size_empty, multiplicity_empty. by destruct v.
  - split_and!; [by intros k [? ?]..|set_solver].
  - by intros a [? ?].
Qed.

(** After vfs_bootstrap there is the null device. *)
Definition booted (k a : nat) : vsys := Vsys [Entry [110; 117; 108; 108] None (Some a) k None] ∅ None ∅ ∅ {[a := λ _, 0]} {[k := (0, Some a)]} ∅.

Lemma vfs_bootstrap_ok (nothing : D) n0 : safely short (vfs_bootstrap fsops nomem nothing n0) (λ st, unlocked st ∧ ∃ k a, vinv st (booted k a) ∅ 1).
Proof.
  unfold vfs_bootstrap, array_create. destruct (nomem n0) eqn:Hn0; [apply safely_panic; by exists n0|]. simpl.
  set (st0 := Vfs (Array 0 0 None) ∅ ∅ ∅ ∅ None ∅ ∅ ∅ false false n0). change (set_knowndevs _ _) with (set_nmalloc (Datatypes.S n0) st0).
  assert (Hi0 : vinv (set_nmalloc (Datatypes.S n0) st0) nothing_yet ∅ 0) by (apply vinv_nmalloc; [apply vinv_empty|simpl; lia]). set (st1 := set_nmalloc _ st0) in *.
  assert (Hlock : ∀ st Y, vinv st Y ∅ 0 → unlocked st → devices st = ∅ → lock_create nomem st = (None, (lock_create nomem st).2) ∧ short ∨ ∃ st' l, lock_create nomem st = (Some l, st') ∧ vinv st' Y ∅ 0 ∧ unlocked st' ∧ devices st' = ∅).
  { intros st Y Hi Hu Hd. destruct (lock_create_ok st) as [[[st' ->] Hs]| ->]; [by left|right]. eexists _, _. split; [done|]. split; [|done].
    apply (vinv_newlock (set_nmalloc _ st)); [apply vinv_nmalloc; [done|lia]|simpl; lia]. }
  destruct (Hlock st1 _ Hi0) as [[-> Hs]|(st2 & l2 & -> & Hi2 & Hu2 & Hd2)]; [done|done|by apply safely_panic|]. unfold vfs_initbootfs.
  destruct (Hlock st2 _ Hi2 Hu2 Hd2) as [[-> Hs]|(st3 & l3 & -> & Hi3 & Hu3 & Hd3)]; [by apply safely_panic|]. ostep. unfold devnull_create. destruct (kmalloc_cases st3) as [[-> Hs]| ->]; [by apply safely_panic|].
  set (a := nmalloc st3). set (st4 := set_nmalloc (Datatypes.S a) st3). assert (Hi4 : vinv (set_devices (<[a := null_device nothing]> (devices st4)) st4) (attached a (λ _, 0) None nothing_yet) ∅ 0).
  { apply (vinv_attached st4 _ ∅ 0 a (null_device nothing) None); [apply vinv_nmalloc; [done|unfold a; lia]|unfold st4; simpl; by rewrite Hd3|simpl; lia|done]. }
  eapply safely_bind; [apply (vfs_adddev_ok _ _ 0 string_null [110; 117; 108; 108] a false Hi4); [lia|done|split; [by repeat constructor|by exists []]|simpl; rewrite lookup_insert_eq; by eexists|simpl; lia]|].
  intros [e st5] (Y' & Hi5 & Hu5 & Hspec). destruct Hspec as [(-> & Hsh & _)|[(_ & Hex & _)|(-> & _ & k & _ & ->)]].
  - rewrite bool_decide_eq_true_2 by done. by apply safely_panic.
  - simpl in Hex. by apply Exists_nil in Hex.
  - rewrite bool_decide_eq_false_2 by tauto. apply safely_ret. split; [done|]. exists k, a. exact Hi5.
Qed.
End add.
