(* ===== verification/VfsClients.v ===== *)
(** * The VFS layer as a whole: what its clients can rely on

    [vstep] is the abstract machine, [vallowed] what may be asked of it. Clients
    see only replies; whoever keeps to [vallowed] is served as the machine says. *)

From stdpp Require Import gmultiset.
From S2P Require Import Prelude CArray KHeap KHeapSpec Coremap Uio CString SfsVnode SfsTheorems SfsTree SfsOps SfsLoad SfsNames FileSys Vfs VfsPath VfsInv VfsOps VfsCalls VfsResolve VfsState VfsSpec VfsRefine VfsDirs VfsMounts VfsAdd.

(** ** The abstract machine *)

Definition reply_of (r : result vptr) : vreply := match r with inl e => VCode e | inr v => VGot v end.

(** Transfers are those of the file system. *)
Definition moves (low : Prop) (Y : vsys) (v : vptr) (o : nat → op) (r : vreply) (Y' : vsys) : Prop :=
  ∃ f p A A' e m u, v = VFs f p ∧ y_fs Y !! f = Some A ∧ r = VMoved e m u ∧ fstep low A (o p) (Moved e m u) A' ∧ Y' = set_fs f A' Y.

Definition coded (r : vreply) (P : Z → Prop) : Prop := ∃ e, r = VCode e ∧ P e.

Definition vstep {D} (low short : Prop) (Y : vsys) (t : nat) (c : vcall D) (r : vreply) (Y' : vsys) : Prop :=
  match c with
  | COpen b flags => ∃ x, r = reply_of x ∧ open_spec low short Y t (cut b) flags x Y'
  | CClose v => r = VCode 0 ∧ close_spec Y v Y'
  | CRead v m u => moves low Y v (λ p, Read p m u) r Y'
  | CWrite v m u => moves low Y v (λ p, Write p m u) r Y'
  | CRemove b => coded r (λ e, remove_spec low Y t (cut b) e Y')
  | CRename b1 b2 => coded r (λ e, rename_spec low Y t (cut b1) (cut b2) e Y')
  | CLink b1 b2 => coded r (λ e, link_spec low Y t (cut b1) (cut b2) e Y')
  | CSymlink b | CMkdir b | CRmdir b => coded r (λ e, unsupported_spec Y t (cut b) e Y')
  | CReadlink b => coded r (λ e, readlink_spec low Y t (cut b) e Y')
  | CChdir b => coded r (λ e, chdir_spec low Y t (cut b) e Y')
  | CClearcurdir => r = VCode 0 ∧ calmly ∅ (set_cwd t None Y) Y'
  | CFork newguy => r = VCode 0 ∧ calmly ∅ (set_cwd newguy (y_cwd Y !! t) Y) Y'
  | CSetbootfs b => coded r (λ e, setbootfs_spec low Y t (cut b) e Y')
  | CClearbootfs => r = VCode 0 ∧ calmly ∅ (set_boot None Y) Y'
  | CSync => r = VCode 0 ∧ calmly ∅ Y Y'
  | CAdddev b d disk mountable =>
      r = VCode ENOMEM ∧ short ∧ Y' = Y ∨
      ∃ a, y_drv Y !! a = None ∧ coded r (λ e, adddev_spec short (attached a (d_open d) disk Y) (cut b) a mountable e Y')
  | CMount b => coded r (λ e, mount_spec low Y (cut b) e Y')
  | CUnmount b => coded r (λ e, unmount_spec Y (cut b) e Y')
  | CUnmountall => r = VCode 0 ∧ unmountall_spec (length (y_table Y)) 0 Y Y'
  end.

(** Only what is open and has its lock is closed: after two opens of one file the
    second close would free a lock that is gone. *)
Definition opened (Y : vsys) : Prop := ∀ v, v ∈ y_locked Y → 0 < open_count Y v.

(** *** What is locked stays open *)

Lemma opened_same Y Y' : opened Y → y_locked Y' = y_locked Y → (∀ v, open_count Y' v = open_count Y v) → opened Y'.
Proof. intros Ho Hl Hc v. rewrite Hl, Hc. apply Ho. Qed.

Lemma open_count_at Y f p : open_count Y (VFs f p) = match opens_at Y f p with Some (_, oc) => oc | None => 0 end.
Proof. simpl. unfold opens_at. by destruct (y_fs Y !! f). Qed.

Lemma shifts_count C E Y Y' v : shifts C E Y Y' → (∀ f p, v = VFs f p → opens_at Y' f p = opens_at Y f p) → open_count Y' v = open_count Y v.
Proof.
  intros Hs Ho. destruct v as [k|f p]; [simpl; by destruct (sh_rest _ _ _ _ Hs) as (_ & _ & _ & _ & _ & -> & _)|]. rewrite !open_count_at. by rewrite (Ho f p).
Qed.

Lemma calmly_count E Y Y' v : calmly E Y Y' → open_count Y' v = open_count Y v.
Proof. intros Hc. eapply shifts_count; [done|]. intros f p _. by eapply opens_at_calmly. Qed.
Lemma calmly_opened E Y Y' : calmly E Y Y' → opened Y → opened Y'.
Proof. intros Hc Ho. eapply opened_same; [done|apply Hc|]. intros v. by eapply calmly_count. Qed.

Lemma alters_opens f M X E Y Y' g p : alters f M X E Y Y' → opens_at Y' g p = opens_at Y g p.
Proof.
  intros Ha. pose proof (sh_fs _ _ _ _ Ha g) as Hg. unfold opens_at in *. destruct (y_fs Y !! g) as [A|] eqn:HA, (y_fs Y' !! g) as [A'|]; try done. unfold within in Hg. destruct (decide (g = f)) as [->|].
  - destruct Hg as (_ & _ & _ & ->). by rewrite HA.
  - by destruct Hg as (_ & _ & _ & ->).
Qed.
Lemma alters_opened f M X E Y Y' : alters f M X E Y Y' → opened Y → opened Y'.
Proof. intros Ha Ho. eapply opened_same; [done|apply Ha|]. intros v. eapply shifts_count; [done|]. intros g p _. by eapply alters_opens. Qed.

Lemma reopened_other E Y v c Y' u : reopened E Y v c Y' → u ≠ v → open_count Y' u = open_count Y u.
Proof.
  intros H Hne. destruct v as [k|f p]; simpl in H.
  - destruct H as (x & Hx & ->). destruct u as [j|]; [|done]. simpl. rewrite lookup_insert_ne by congruence. done.
  - destruct H as (ino & Hob & Hs). eapply shifts_count; [done|]. intros g q ->. pose proof (sh_fs _ _ _ _ Hs g) as Hg. unfold opens_at. destruct (y_fs Y !! g) as [A|], (y_fs Y' !! g) as [A'|]; try done.
    unfold within in Hg. destruct (decide (g = f)) as [->|]; destruct Hg as (_ & _ & _ & ->); [|done]. rewrite decide_False; [done|]. intros ->. by apply Hne.
Qed.
Lemma reopened_locked E Y v c Y' : reopened E Y v c Y' → y_locked Y' = y_locked Y.
Proof. intros H. destruct v as [k|f p]; simpl in H; [by destruct H as (x & _ & ->)|]. destruct H as (ino & _ & Hs). apply Hs. Qed.

Lemma locate_opened (low : Prop) Y t w flags r Y' : locate low Y t w flags r Y' → opened Y → opened Y'.
Proof.
  unfold locate. destruct (flag flags O_CREAT); [|intros [Hc _]; by eapply calmly_opened]. destruct (parent Y t w) as [e|f]; [intros [_ Hc]; by eapply calmly_opened|].
  destruct r as [e|ob]; [intros [Hc _]; by eapply calmly_opened|]. intros (ino & _ & [(_ & _ & Hc)|(_ & _ & Ha)]); [by eapply calmly_opened|by eapply alters_opened].
Qed.

Lemma locate_count (low : Prop) Y t w flags r Y' v : locate low Y t w flags r Y' → open_count Y' v = open_count Y v.
Proof.
  unfold locate. destruct (flag flags O_CREAT); [|intros [Hc _]; by eapply calmly_count]. destruct (parent Y t w) as [e|f]; [intros [_ Hc]; by eapply calmly_count|].
  destruct r as [e|ob]; [intros [Hc _]; by eapply calmly_count|]. intros (ino & _ & [(_ & _ & Hc)|(_ & _ & Ha)]); [by eapply calmly_count|].
  eapply shifts_count; [done|]. intros g p _. by eapply alters_opens.
Qed.

Lemma emptied_opened ob flags Y Y' : emptied ob flags Y Y' → y_locked Y' = y_locked Y ∧ ∀ v, open_count Y' v = open_count Y v.
Proof.
  destruct ob as [k a|f ino]; simpl; [by intros ->|]. destruct (flag flags O_TRUNC); [|by intros ->]. intros Ha. split; [apply Ha|]. intros v. eapply shifts_count; [done|].
  intros g p _. by eapply alters_opens.
Qed.

Lemma open_opened (low short : Prop) Y t w flags r Y' : open_spec low short Y t w flags r Y' → (∀ v, 0 ≤ open_count Y v) → opened Y → opened Y'.
Proof.
  unfold open_spec. intros H Hpos Ho. destruct (open_mode flags) as [canwrite|]; [|destruct H as [_ Hc]; by eapply calmly_opened]. destruct H as (lr & Y1 & Hloc & H).
  pose proof (locate_opened _ _ _ _ _ _ _ Hloc Ho) as Ho1. destruct lr as [e|ob]; [by destruct H as [_ ->]|]. destruct (decide _) in H; [|destruct H as [_ Hc]; by eapply calmly_opened].
  destruct H as (v & Y2 & Y3 & -> & Hob & Hre & Hem & Hlk). destruct (emptied_opened _ _ _ _ Hem) as [Hl3 Hc3]. pose proof (reopened_locked _ _ _ _ _ Hre) as Hl2.
  assert (Hv : open_count Y2 v = open_count Y1 v + 1). { eapply reopened_count; [done|]. rewrite (locate_count _ _ _ _ _ _ _ v Hloc). specialize (Hpos v). lia. }
  assert (Hall : ∀ u, u = v ∨ u ∈ y_locked Y3 → 0 < open_count Y3 u).
  { intros u Hu. rewrite Hc3. destruct (decide (u = v)) as [->|Hne]; [rewrite Hv, (locate_count _ _ _ _ _ _ _ v Hloc); specialize (Hpos v); lia|].
    rewrite (reopened_other _ _ _ _ _ u Hre Hne). apply Ho1. destruct Hu; [done|]. by rewrite <- Hl2, <- Hl3. }
  destruct Hlk as [->|[_ ->]]; intros u Hu; simpl in Hu; apply Hall; set_solver.
Qed.

Lemma close_opened Y v Y' : close_spec Y v Y' → opened Y → opened Y'.
Proof.
  intros (Y1 & Hre & Hc) Ho. eapply calmly_opened; [done|]. intros u Hu. rewrite (reopened_locked _ _ _ _ _ Hre) in Hu. simpl in Hu.
  rewrite (reopened_other _ _ _ _ _ u Hre) by set_solver. apply Ho. set_solver.
Qed.

(** Names change, opens do not. *)
Ltac stays_open :=
  cbv beta in *;
  repeat match goal with
  | H : _ ∧ _ |- _ => destruct H
  | H : _ ∨ _ |- _ => destruct H
  | H : ∃ _, _ |- _ => destruct H
  end; subst;
  first [done | by eapply calmly_opened | by eapply alters_opened].

Lemma at_parent_opened Y t w act e Y' : at_parent Y t w act e Y' → opened Y → (∀ f, act f → opened Y') → opened Y'.
Proof. unfold at_parent. intros H Ho Hact. destruct (parent Y t w) as [|f]; [stays_open|by eapply Hact]. Qed.

Lemma names_opened (low : Prop) Y t w1 w2 e Y' : opened Y →
  remove_spec low Y t w1 e Y' ∨ unsupported_spec Y t w1 e Y' ∨ readlink_spec low Y t w1 e Y' ∨ rename_spec low Y t w1 w2 e Y' ∨ link_spec low Y t w1 w2 e Y' ∨ chdir_spec low Y t w1 e Y' → opened Y'.
Proof.
  intros Ho [H|[H|[H|[H|[H|H]]]]].
  - eapply at_parent_opened; [exact H|done|]. intros f. cbv beta zeta. destruct (decide (e = 0)); intros H0; stays_open.
  - eapply at_parent_opened; [exact H|done|]. intros f H0. stays_open.
  - destruct H as [Hc _]. by eapply calmly_opened.
  - eapply at_parent_opened; [exact H|done|]. intros f1 H1. eapply at_parent_opened; [exact H1|done|]. intros f2. cbv beta zeta. destruct (decide (f1 = f2)); [|intros H0; stays_open]. destruct (decide (e = 0)); intros H0; stays_open.
  - destruct H as [(_ & _ & Hc)|H]; [by eapply calmly_opened|]. destruct (look Y t w1) as [e'|ob]; [stays_open|]. eapply at_parent_opened; [exact H|done|]. intros f. cbv beta zeta. destruct ob as [k a|g ino]; [intros H0; stays_open|].
    destruct (decide (g = f)); [|intros H0; stays_open]. destruct (decide (e = 0)); intros H0; stays_open.
  - unfold chdir_spec in H. destruct (look Y t w1) as [e'|[k a|g ino]]; [destruct H as [_ Hc]; by eapply calmly_opened|destruct H as [_ Hc]; by eapply calmly_opened|].
    destruct (decide (ino = 1)); [destruct H as [[_ Hc]|(_ & _ & Hc)]|destruct H as [_ Hc]]; (eapply calmly_opened; [exact Hc|done]).
Qed.

Lemma setbootfs_opened (low : Prop) Y t w e Y' : setbootfs_spec low Y t w e Y' → opened Y → opened Y'.
Proof.
  unfold setbootfs_spec. intros H Ho. destruct (decide (COLON ∈ take 254 w)); [destruct H as [_ Hc]; by eapply calmly_opened|]. destruct H as (Y1 & Hch & H).
  assert (Ho1 : opened Y1) by (apply (names_opened low Y t (take 254 w ++ [COLON]) [] e Y1); [done|]; eauto 10). destruct (decide (e = 0)); (eapply calmly_opened; [exact H|done]).
Qed.

(** *** Mounting *)

Lemma not_open Y f p : opened Y → open_count Y (VFs f p) = 0 → VFs f p ∉ y_locked Y.
Proof. intros Ho Hc Hin. specialize (Ho _ Hin). lia. Qed.

Lemma mount_opened (low : Prop) Y w e Y' : mount_spec low Y w e Y' → opened Y → opened Y'.
Proof.
  unfold mount_spec. intros H Ho. destruct (list_find _ _) as [[i en]|]; [|by destruct H as [_ ->]]. destruct (decide (e_fs en = None)); [|by destruct H as [_ ->]]. destruct H as [(_ & _ & ->)|(_ & f & vol & a & A & A' & _ & _ & Hno & _ & ->)]; [done|].
  intros v Hv. simpl in Hv. destruct v as [k|g p]; [by apply (Ho (VDev k))|]. destruct (decide (g = f)) as [->|Hne]; [|specialize (Ho _ Hv); simpl in *; by rewrite lookup_insert_ne].
  exfalso. eapply not_open; [done| |done]. simpl. by rewrite Hno.
Qed.

Lemma drop_opened i en f e Y Y' : drop_fs i en f e Y Y' → opened Y → opened Y'.
Proof.
  intros [(_ & _ & Hc)|(Hfree & _ & a & A & A' & _ & HA & _ & ->)] Ho; [by eapply calmly_opened|]. intros v Hv. simpl in Hv. destruct v as [k|g p]; [by apply (Ho (VDev k))|].
  destruct (decide (g = f)) as [->|Hne]; [|specialize (Ho _ Hv); simpl in *; by rewrite lookup_delete_ne]. exfalso. eapply not_open; [done| |done]. rewrite open_count_at.
  destruct (opens_at Y f p) eqn:Hop; [|done]. destruct Hfree. left. exists p. by rewrite Hop.
Qed.

Lemma unmount_opened Y w e Y' : unmount_spec Y w e Y' → opened Y → opened Y'.
Proof.
  unfold unmount_spec. intros H Ho. destruct (list_find _ _) as [[i en]|]; [|by destruct H as [_ ->]]. destruct (e_fs en) as [[f vol]|]; [by eapply drop_opened|by destruct H as [_ ->]].
Qed.

Lemma unmountall_opened k : ∀ i Y Y', unmountall_spec k i Y Y' → opened Y → opened Y'.
Proof.
  induction k as [|k IH]; intros i Y Y'; simpl; [by intros ->|]. intros (Y1 & Hrest & H) Ho. eapply IH; [exact Hrest|]. destruct (y_table Y !! i) as [en|]; [|by subst].
  destruct (e_raw en), (e_fs en) as [[f vol]|]; try by subst. destruct H as [e H]. by eapply drop_opened.
Qed.

Lemma adddev_opened (short : Prop) Y a drv disk w m e Y' : adddev_spec short (attached a drv disk Y) w a m e Y' → opened Y → opened Y'.
Proof.
  intros H Ho. assert (Hnew : ∀ k x Yk, y_devs Y !! k = None → y_locked Yk = y_locked Y → y_fs Yk = y_fs Y → y_devs Yk = <[k := x]> (y_devs Y) → opened Yk).
  { intros k x Yk Hk Hl Hf Hd v Hv. rewrite Hl in Hv. specialize (Ho v Hv). destruct v as [j|f p]; simpl in *; [|by rewrite Hf]. rewrite Hd. rewrite lookup_insert_ne; [done|]. intros ->. by rewrite Hk in Ho. }
  assert (Hleft : left_over a (attached a drv disk Y) Y' → opened Y') by (intros [->|(k & Hk & ->)]; [done|by eapply Hnew]).
  destruct H as [(_ & _ & Hl)|[(_ & _ & Hl)|(_ & _ & k & Hk & ->)]]; [by apply Hleft|by apply Hleft|by eapply Hnew].
Qed.

Lemma fstep_moved {low : Prop} A o r A' : (∃ p m u, o = Read p m u ∨ o = Write p m u) → fstep low A o r A' → f_refs A' = f_refs A.
Proof. intros (p & m & u & Ho) Hs. destruct Hs; destruct Ho; simplify_eq; try done; by match goal with H : names_to _ _ _ |- _ => destruct H as (_ & ? & _) | H : quiet _ _ |- _ => destruct H as (_ & ? & _) | H : refs_to _ _ _ |- _ => destruct H as (_ & ? & _) | H : fails _ _ _ _ |- _ => inversion H; simplify_eq/= end. Qed.

Lemma moves_opened (low : Prop) Y v o r Y' : (∀ p, ∃ m u, o p = Read p m u ∨ o p = Write p m u) → moves low Y v o r Y' → opened Y → opened Y'.
Proof.
  intros Hio (f & p & A & A' & e & m & u & -> & HA & _ & Hs & ->) Ho. eapply opened_same; [done|done|]. intros w. destruct w as [k|g q]; [done|]. simpl.
  destruct (decide (g = f)) as [->|]; [|by rewrite lookup_insert_ne]. rewrite lookup_insert_eq, HA. destruct (Hio p) as (m' & u' & Hop). rewrite (fstep_moved (low := low) A (o p) (Moved e m u) A'); [done| |done]. eauto.
Qed.

Lemma vstep_opened {D} (low short : Prop) Y t (c : vcall D) r Y' : vstep low short Y t c r Y' → (∀ v, 0 ≤ open_count Y v) → opened Y → opened Y'.
Proof.
  intros H Hpos Ho. destruct c; simpl in H;
    try (destruct H as [_ Hc]; by (eapply close_opened + (eapply calmly_opened; [exact Hc|]) + eapply unmountall_opened));
    try (destruct H as (e & _ & H); by (eapply setbootfs_opened + eapply mount_opened + eapply unmount_opened)).
  - destruct H as (x & _ & H). by eapply open_opened.
  - eapply moves_opened; [|exact H|done]. intros p. exists m, u. by left.
  - eapply moves_opened; [|exact H|done]. intros p. exists m, u. by right.
  - destruct H as (e & _ & H). apply (names_opened low Y t (cut path) [] e Y'); [done|]. eauto.
  - destruct H as (e & _ & H). apply (names_opened low Y t (cut path1) (cut path2) e Y'); [done|]. eauto 10.
  - destruct H as (e & _ & H). apply (names_opened low Y t (cut path1) (cut path2) e Y'); [done|]. eauto 10.
  - destruct H as (e & _ & H). apply (names_opened low Y t (cut path) [] e Y'); [done|]. eauto.
  - destruct H as (e & _ & H). apply (names_opened low Y t (cut path) [] e Y'); [done|]. eauto.
  - destruct H as (e & _ & H). apply (names_opened low Y t (cut path) [] e Y'); [done|]. eauto.
  - destruct H as (e & _ & H). apply (names_opened low Y t (cut path) [] e Y'); [done|]. eauto.
  - destruct H as (e & _ & H). apply (names_opened low Y t (cut path) [] e Y'); [done|]. eauto 10.
  - destruct H as [(_ & _ & ->)|(a & _ & e & _ & H)]; [done|]. by eapply adddev_opened.
Qed.

Section clients.
Context {D S : Type} (present : Z → bool) (space : Z) (fsops : nat → FsOps D S) (laws : ∀ f, FileSystem D S present space (H := fsops f)).
Context (nomem : nat → bool) (stack : list Z) (Hstack : len stack = 256).
Context (uniform : ∀ f g d A, fs_holds (FileSystem := laws f) d A → fs_holds (FileSystem := laws g) d A).
Abbreviation state := (vfs D S).
Abbreviation vinv := (vinv present space fsops laws).
Abbreviation low := (low present space fsops laws).
Abbreviation short := (short nomem).

(** ** Calls *)

(** The driver puts its device in memory before it registers it. *)
Definition vrun (t : nat) (c : vcall D) (st : state) : outcome (vreply * state) :=
  let code m := '(e, st) ← m; Ret (VCode e, st) in
  let done m := st ← m; Ret (VCode 0, st) in
  match c with
  | COpen b flags => '(st, r) ← vfs_open fsops nomem stack t b flags st; Ret (reply_of r, st)
  | CClose v => done (vfs_close fsops v st)
  | CRead v m u => '(e, (m, u), st) ← VOP_READ fsops v m u st; Ret (VMoved e m u, st)
  | CWrite v m u => '(e, (m, u), st) ← VOP_WRITE fsops v m u st; Ret (VMoved e m u, st)
  | CRemove b => code (vfs_remove fsops stack t b st)
  | CRename b1 b2 => code (vfs_rename fsops stack t b1 b2 st)
  | CLink b1 b2 => code (vfs_link fsops stack t b1 b2 st)
  | CSymlink b => code (vfs_symlink fsops stack t b st)
  | CMkdir b => code (vfs_mkdir fsops stack t b st)
  | CRmdir b => code (vfs_rmdir fsops stack t b st)
  | CReadlink b => code (vfs_readlink fsops t b st)
  | CChdir b => code (vfs_chdir fsops t b st)
  | CClearcurdir => code (vfs_clearcurdir fsops t st)
  | CFork newguy => done (fork_cwd fsops t newguy st)
  | CSetbootfs b => code (vfs_setbootfs fsops stack t b st)
  | CClearbootfs => done (vfs_clearbootfs fsops st)
  | CSync => code (vfs_sync fsops st)
  | CAdddev b d _ mountable =>
      match kmalloc nomem st with
      | (None, st) => Ret (VCode ENOMEM, st)
      | (Some a, st) => code (vfs_adddev fsops nomem b a mountable (set_devices (<[a := d]> (devices st)) st))
      end
  | CMount b => code (vfs_mount fsops b st)
  | CUnmount b => code (vfs_unmount fsops b st)
  | CUnmountall => code (vfs_unmountall fsops st)
  end.

Definition vallowed (Y : vsys) (t : nat) (c : vcall D) : Prop :=
  match c with
  | COpen b _ | CRemove b | CSymlink b | CMkdir b | CRmdir b | CReadlink b | CChdir b | CUnmount b => 0 ∈ b
  | CClose v => v ∈ y_locked Y
  | CRead v _ u => (∃ f p, v = VFs f p) ∧ 0 < open_count Y v ∧ request present space u UIO_READ
  | CWrite v _ u => (∃ f p, v = VFs f p) ∧ 0 < open_count Y v ∧ request present space u UIO_WRITE ∧ uio_offset u + uio_resid u ≤ SfsSpec.MAXFILE
  | CRename b1 b2 => 0 ∈ b1 ∧ 0 ∈ b2
  | CLink b1 b2 => 0 ∈ b1 ∧ 0 ∈ b2 ∧ ∀ f, look Y t (cut b1) ≠ inr (OFile f 1)
  | CFork newguy => y_cwd Y !! newguy = None
  | CSetbootfs b => 0 ∈ b ∧ len b < 2 ^ 31
  | CAdddev b d disk _ => 0 ∈ b ∧ len (y_table Y) < 2 ^ 29 ∧
      match disk with Some A => d_blocksize d = 512 ∧ ∀ f, fs_holds (FileSystem := laws f) (d_data d) A | None => True end
  | CMount b => 0 ∈ b ∧ ∀ i e, list_find (mountpoint (cut b)) (y_table Y) = Some (i, e) → e_fs e = None → ∃ a A, e_dev e = Some a ∧ y_disks Y !! a = Some A
  | CClearcurdir | CClearbootfs | CSync | CUnmountall => True
  end.

(** The layer is in order between calls: no reference is held but those that are
    accounted for by open files, working directories and the boot file system. *)
Definition vgood (st : state) (Y : vsys) (n : Z) : Prop := vinv st Y ∅ n ∧ unlocked st ∧ opened Y.

Definition lacking : Prop := low ∨ short.

Lemma safely_weaken {A} (P Q : Prop) (m : outcome A) R : safely P m R → (P → Q) → safely Q m R.
Proof. intros [H|[H HP]] HPQ; [by left|right; by split; [|apply HPQ]]. Qed.

(** A call, in terms of what it leaves. *)
Definition stepped (Y : vsys) (t : nat) (c : vcall D) (n : Z) (x : vreply * state) : Prop := ∃ Y', vinv x.2 Y' ∅ (n + 16) ∧ unlocked x.2 ∧ vstep low short Y t c x.1 Y'.

Lemma coded_safely {m : outcome (Z * state)} (P : Prop) (Y : vsys) t c n k (Q : Z → vsys → Prop) : safely P m (λ '(e, st'), ∃ Y', vinv st' Y' ∅ k ∧ unlocked st' ∧ Q e Y') → k ≤ n + 16 →
  (∀ e Y', Q e Y' → vstep low short Y t c (VCode e) Y') → safely P ('(e, st) ← m; Ret (VCode e, st)) (stepped Y t c n).
Proof.
  intros H Hk HQ. eapply safely_bind; [exact H|]. intros [e st'] (Y' & Hi & Hu & He). apply safely_ret. exists Y'. split; [by eapply vinv_later|]. split; [done|]. by apply HQ.
Qed.

Lemma done_safely {m : outcome state} (P : Prop) (Y : vsys) t c n k (Q : vsys → Prop) : returns m (λ st', ∃ Y', vinv st' Y' ∅ k ∧ unlocked st' ∧ Q Y') → k ≤ n + 16 →
  (∀ Y', Q Y' → vstep low short Y t c (VCode 0) Y') → safely P (st ← m; Ret (VCode 0, st)) (stepped Y t c n).
Proof.
  intros H Hk HQ. eapply safely_bind; [by apply safely_returns|]. intros st' (Y' & Hi & Hu & He). apply safely_ret. exists Y'. split; [by eapply vinv_later|]. split; [done|]. by apply HQ.
Qed.

(** Reading and writing. *)
Lemma IO_ok st Y n f p (io : vptr → memory → uio → state → outcome (Z * (memory * uio) * state)) (o : nat → op) m u : vinv st Y ∅ n → 0 ≤ n < 2 ^ 31 - 1 → 0 < open_count Y (VFs f p) →
  (o = (λ p, Read p m u) ∧ io = VOP_READ fsops ∧ request present space u UIO_READ ∨
   o = (λ p, Write p m u) ∧ io = VOP_WRITE fsops ∧ request present space u UIO_WRITE ∧ uio_offset u + uio_resid u ≤ SfsSpec.MAXFILE) →
  returns (io (VFs f p) m u st) (λ '(e, (m', u'), st'), ∃ Y', vinv st' Y' ∅ (n + 1) ∧ vnodes_only st st' ∧ moves low Y (VFs f p) o (VMoved e m' u') Y').
Proof.
  intros Hi Hn Ho Hio. assert (∃ A, y_fs Y !! f = Some A ∧ owns (f_refs A) p) as (A & HA & Hown).
  { simpl in Ho. destruct (y_fs Y !! f) as [A|]; [|lia]. exists A. split; [done|]. unfold opens in Ho. destruct (f_refs A !! p) eqn:Hp; [by eexists|lia]. }
  assert (Hmain : ∀ call, (∀ s, run (H := fsops f) (o p) s = ('(b, s) ← call s; Ret (let '(e, (m, u)) := b in Moved e m u, s))) → allowed present space (low_at present space fsops laws f) (f_refs A) (o p) → io (VFs f p) m u st = on_fs f call st →
    (∃ m u, o p = Read p m u ∨ o p = Write p m u) → returns (io (VFs f p) m u st) (λ '(e, (m', u'), st'), ∃ Y', vinv st' Y' ∅ (n + 1) ∧ vnodes_only st st' ∧ moves low Y (VFs f p) o (VMoved e m' u') Y')).
  { intros call Hrun Hal -> Hop. destruct (on_fs_ok _ _ _ _ st Y ∅ n f A (o p) call (λ '(e, (m, u)), Moved e m u) Hi Hn HA Hal) as ([e [m' u']] & s' & A' & -> & Hstep & Hinv); [exact Hrun|].
    apply returns_ret. exists (set_fs f A' Y). destruct Hop as (m0 & u0 & Hop). rewrite (fstep_moved (low := low) A (o p) (Moved e m' u') A') in Hinv; [|eauto|done]. split; [apply Hinv, accounts_same|]. split; [apply vnodes_only_fs|].
    by exists f, p, A, A', e, m', u'. }
  destruct Hio as [(-> & -> & Hreq)|(-> & -> & Hreq)]; (eapply Hmain; [|by split|done|eauto]); intros s; simpl.
  - by destruct (fs_read p m u s) as [[? [[? ?] ?]]| | |].
  - by destruct (fs_write p m u s) as [[? [[? ?] ?]]| | |].
Qed.

Lemma string_cut b : 0 ∈ b → string_of b (cut b).
Proof. intros [t Ht]%cut_split. split; [apply cut_nonzero|by exists t]. Qed.

(** One call does what the machine says. *)
Lemma vrun_names st Y n t c : vinv st Y ∅ n → unlocked st → 0 ≤ n < 2 ^ 31 - 64 → vallowed Y t c →
  match c with CRemove _ | CRename _ _ | CLink _ _ | CSymlink _ | CMkdir _ | CRmdir _ | CReadlink _ | CChdir _ | CClearcurdir | CFork _ | CSetbootfs _ | CClearbootfs => True | _ => False end →
  safely low (vrun t c st) (stepped Y t c n).
Proof.
  intros Hi Hu Hn Ha Hc. destruct c; try done; simpl in Ha.
  - eapply (coded_safely _ _ _ _ _ (n + 7)); [apply (vfs_remove_ok _ _ _ _ nomem stack Hstack t st Y n path); [done|lia|done|done]|lia|]. intros e Y' H. by exists e.
  - destruct Ha as [H1 H2]. eapply (coded_safely _ _ _ _ _ (n + 13)); [apply (vfs_rename_ok _ _ _ _ nomem stack Hstack t st Y n path1 path2); [done|lia|done|done|done]|lia|]. intros e Y' H. by exists e.
  - destruct Ha as (H1 & H2 & H3). eapply (coded_safely _ _ _ _ _ (n + 13)); [apply (vfs_link_ok _ _ _ _ nomem stack Hstack t st Y n path1 path2); [done|lia|done|done|done|done]|lia|]. intros e Y' H. by exists e.
  - eapply (coded_safely _ _ _ _ _ (n + 7)); [apply (unsupported_ok _ _ _ _ stack Hstack t st Y n path vop_symlink); [done|lia|done|done|by left]|lia|]. intros e Y' H. by exists e.
  - eapply (coded_safely _ _ _ _ _ (n + 7)); [apply (unsupported_ok _ _ _ _ stack Hstack t st Y n path vop_mkdir); [done|lia|done|done|by right; left]|lia|]. intros e Y' H. by exists e.
  - eapply (coded_safely _ _ _ _ _ (n + 7)); [apply (unsupported_ok _ _ _ _ stack Hstack t st Y n path vop_rmdir); [done|lia|done|done|by right; right]|lia|]. intros e Y' H. by exists e.
  - eapply (coded_safely _ _ _ _ _ (n + 7)); [apply (vfs_readlink_ok _ _ _ _ stack Hstack t st Y n path); [done|lia|done|done]|lia|]. intros e Y' H. by exists e.
  - eapply (coded_safely _ _ _ _ _ (n + 8)); [apply (vfs_chdir_ok _ _ _ _ nomem stack Hstack t st Y n path); [done|lia|done|done]|lia|]. intros e Y' H. by exists e.
  - eapply (coded_safely _ _ _ _ _ (n + 1)); [apply safely_returns, (vfs_clearcurdir_ok _ _ _ _ nomem stack Hstack t st Y n); [done|lia|done]|lia|]. intros e Y' [-> H]. by split.
  - eapply (done_safely _ _ _ _ _ (n + 1)); [apply (fork_cwd_ok _ _ _ _ stack t st Y n newguy); [done|lia|done|done]|lia|]. intros Y' H. by split.
  - destruct Ha as [H1 H2]. eapply (coded_safely _ _ _ _ _ (n + 10)); [apply (vfs_setbootfs_ok _ _ _ _ nomem stack Hstack t st Y n name); [done|lia|done|done|done]|lia|]. intros e Y' H. by exists e.
  - eapply (done_safely _ _ _ _ _ (n + 1)); [apply (vfs_clearbootfs_ok _ _ _ _ nomem stack Hstack t st Y n); [done|lia|done]|lia|]. intros Y' H. by split.
Qed.

Lemma vrun_adddev st Y n t b d disk mountable : vinv st Y ∅ n → unlocked st → 0 ≤ n < 2 ^ 31 - 64 → vallowed Y t (CAdddev b d disk mountable) →
  safely short (vrun t (CAdddev b d disk mountable) st) (stepped Y t (CAdddev b d disk mountable) n).
Proof.
  intros Hi Hu Hn (H0 & Hlen & Hdisk). unfold vrun. cbv zeta. destruct (kmalloc_cases nomem st) as [[-> Hs]| ->].
  { apply safely_ret. exists Y. split; [apply vinv_nmalloc; [eapply vinv_later; [done|lia]|lia]|]. split; [done|]. by left. }
  set (a := nmalloc st). set (st1 := set_nmalloc (Datatypes.S a) st). assert (Hno : devices st !! a = None).
  { destruct (devices st !! a) eqn:Hd; [|done]. assert (a < nmalloc st)%nat by (apply (vi_attached _ _ _ _ _ _ _ _ Hi); by eexists). lia. }
  assert (Hi1 : vinv (set_devices (<[a := d]> (devices st1)) st1) (attached a (d_open d) disk Y) ∅ n) by (apply vinv_attached; [apply vinv_nmalloc; [done|unfold a; lia]|done|simpl; lia|done]).
  eapply (coded_safely _ _ _ _ _ (n + 1)); [eapply safely_mono; [apply (vfs_adddev_ok _ _ _ _ nomem _ _ n b (cut b) a mountable Hi1); [lia|done|by apply string_cut|simpl; rewrite lookup_insert_eq; by eexists|done]|]|lia|].
  - intros [e st'] (Y' & Hi' & Hu' & H). exists Y'. split; [done|]. split; [done|exact H].
  - intros e Y' H. right. exists a. split; [by rewrite (vi_drv _ _ _ _ _ _ _ _ Hi), lookup_fmap, Hno|]. by exists e.
Qed.

Lemma vrun_ok st Y n t c : vgood st Y n → 0 ≤ n < 2 ^ 31 - 64 → vallowed Y t c → safely lacking (vrun t c st) (λ '(r, st'), ∃ Y', vgood st' Y' (n + 16) ∧ vstep low short Y t c r Y').
Proof.
  intros (Hi & Hu & Ho) Hn Ha. eapply (safely_mono _ _ (stepped Y t c n)).
  2: { intros [r st'] (Y' & Hi' & Hu' & Hs). exists Y'. split; [|done]. split; [done|]. split; [done|]. eapply vstep_opened; [done| |done]. intros v. by eapply open_count_nonneg. }
  assert (Hlow : ∀ m, safely low m (stepped Y t c n) → safely lacking m (stepped Y t c n)) by (intros m H; eapply safely_weaken; [done|]; by left).
  destruct c; try (apply Hlow, vrun_names; done); simpl in Ha.
  - apply Hlow. eapply safely_bind; [apply (vfs_open_ok _ _ _ _ nomem stack Hstack t st Y n path flags); [done|lia|done|done]|]. intros [st' r] (Y' & Hi' & Hu' & Hs). apply safely_ret.
    exists Y'. split; [eapply vinv_later; [done|lia]|]. split; [done|]. by exists r.
  - eapply (done_safely _ _ _ _ _ (n + 2)); [apply (vfs_close_ok _ _ _ _ stack Hstack st Y n v); [done|lia|done|done|by apply Ho]|lia|]. intros Y' H. by split.
  - destruct Ha as ((f & p & ->) & Hoc & Hreq). apply safely_returns. eapply returns_bind; [apply (IO_ok st Y n f p _ (λ p, Read p m u) m u Hi); [lia|done|left; done]|].
    intros [[e [m' u']] st'] (Y' & Hi' & Hv' & Hm). apply returns_ret. exists Y'. split; [eapply vinv_later; [done|lia]|]. split; [by eapply unlocked_vnodes|done].
  - destruct Ha as ((f & p & ->) & Hoc & Hreq). apply safely_returns. eapply returns_bind; [apply (IO_ok st Y n f p _ (λ p, Write p m u) m u Hi); [lia|done|right; done]|].
    intros [[e [m' u']] st'] (Y' & Hi' & Hv' & Hm). apply returns_ret. exists Y'. split; [eapply vinv_later; [done|lia]|]. split; [by eapply unlocked_vnodes|done].
  - eapply (coded_safely _ _ _ _ _ n); [apply safely_returns; eapply returns_mono; [by apply (vfs_sync_ok _ _ _ _  st Y n)|]|lia|].
    + intros [e st'] (-> & Hu' & _ & Y' & Hi' & Hc). exists Y'. split; [done|]. split; [done|]. exact (conj eq_refl Hc : (λ e Y', e = 0 ∧ calmly ∅ Y Y') 0 Y').
    + intros e Y' [-> Hc]. by split.
  - eapply safely_weaken; [by apply vrun_adddev|]. by right.
  - destruct Ha as [H0 Hdisk]. eapply (coded_safely _ _ _ _ _ n); [apply safely_returns, (vfs_mount_ok _ _ _ _ nomem t uniform st Y n name (cut name)); [done|lia|done|by apply string_cut|done]|lia|]. intros e Y' H. by exists e.
  - eapply (coded_safely _ _ _ _ _ n); [apply safely_returns, (vfs_unmount_ok _ _ _ _ nomem t uniform st Y n name (cut name)); [done|done|by apply string_cut]|lia|]. intros e Y' H. by exists e.
  - eapply (coded_safely _ _ _ _ _ n); [apply safely_returns, (vfs_unmountall_ok _ _ _ _ nomem t uniform st Y n); done|lia|]. intros e Y' [-> H]. by split.
Qed.
End clients.
