(* ===== verification/VfsSystem.v ===== *)
(** * The VFS layer: theorems

    The layer over file systems that keep the interface [FileSystem], and, in the
    examples, over SFS. *)

From stdpp Require Import gmultiset.
From S2P Require Import Prelude CArray KHeap KHeapSpec Coremap Uio CString Sfs SfsVnode SfsTheorems SfsTree SfsOps SfsLoad SfsNames FileSys SfsNamespace SfsSystem.
From S2P Require Import Vfs VfsPath VfsInv VfsOps VfsCalls VfsResolve VfsState VfsSpec VfsRefine VfsDirs VfsMounts VfsAdd VfsClients.

(** ** What resolution depends on *)

Lemma look_shifts C E Y Y' t w : shifts C E Y Y' → (∀ f, names_of Y' f = names_of Y f) → look Y' t w = look Y t w.
Proof. intros Hs Hn. unfold look. rewrite (resolve_same Y Y') by apply Hs. destruct (resolve Y t (parse w).1) as [|[]]; try done. by rewrite Hn. Qed.

Lemma names_within f C E Y Y' M : shifts (within f C) E Y Y' → (∀ A A', C A A' → f_names A' = M) → ∀ g, names_of Y' g = if decide (g = f) then match y_fs Y !! f with Some _ => M | None => ∅ end else names_of Y g.
Proof.
  intros Hs HC g. unfold names_of. pose proof (sh_fs _ _ _ _ Hs g) as Hg. unfold within in Hg. destruct (decide (g = f)) as [->|];
    destruct (y_fs Y !! _), (y_fs Y' !! _); try done; [by apply HC in Hg|by destruct Hg as [-> _]].
Qed.

Lemma look_alters f X E Y Y' t w : alters f (names_of Y f) X E Y Y' → look Y' t w = look Y t w.
Proof.
  intros Ha. eapply look_shifts; [done|]. intros g. rewrite (names_within _ _ _ _ _ (names_of Y f) Ha) by (intros A A' HC; apply HC).
  case_decide; [|done]. subst. unfold names_of. by destruct (y_fs Y !! f).
Qed.

Lemma look_reopened E Y v c Y' t w : reopened E Y v c Y' → look Y' t w = look Y t w.
Proof.
  destruct v as [k|f p]; simpl; [by intros (x & _ & ->)|]. intros (ino & Hob & Hs). eapply look_shifts; [done|]. intros g. pose proof (sh_fs _ _ _ _ Hs g) as Hg. unfold names_of, within in *. clear Hob Hs.
  destruct (decide (g = f)) as [->|]; destruct (y_fs Y !! _), (y_fs Y' !! _); try done; exact (proj1 Hg).
Qed.

Lemma look_emptied ob flags Y Y' t w : emptied ob flags Y Y' → look Y' t w = look Y t w.
Proof. destruct ob as [k a|f ino]; simpl; [by intros ->|]. destruct (flag flags O_TRUNC); [apply look_alters|by intros ->]. Qed.

(** A path that has been opened leads to the object. *)
Lemma locate_found (low : Prop) Y t w flags v ob Y' : locate low Y t w flags (inr ob) Y' → object_of Y' v = Some ob → look Y' t w = inr ob.
Proof.
  unfold locate. destruct (flag flags O_CREAT); [|intros [Hc [H|[? _]]] _; [by rewrite (look_calmly _ _ _ _ _ Hc)|done]].
  destruct (parent Y t w) as [e|f] eqn:Hp; [by intros []|]. intros (ino & -> & Hcase) Hob. unfold parent in Hp.
  assert (∃ i, resolve Y t (parse w).1 = inr (OFile f i) ∧ (parse w).2 ≠ []) as (i & Hr & Hne).
  { destruct (resolve Y t (parse w).1) as [|ob]; [done|]. destruct (decide ((parse w).2 = [])); [done|]. destruct ob as [|f' i]; [done|]. case_decide; [done|]. injection Hp as ->. eauto. }
  assert (Hlook : ∀ Y', resolve Y' t (parse w).1 = resolve Y t (parse w).1 → names_of Y' f !! (parse w).2 = Some ino → look Y' t w = inr (OFile f ino)).
  { intros Y1 H1 H2. unfold look. rewrite H1, Hr. destruct (decide _); [done|]. by rewrite H2. }
  destruct Hcase as [(Hnm & _ & Hc)|(Hnone & _ & Ha)].
  - apply Hlook; [by apply resolve_same, Hc|by rewrite (names_of_calmly _ _ _ _ Hc)].
  - apply Hlook; [by apply resolve_same, Ha|]. rewrite (names_within _ _ _ _ _ (<[(parse w).2 := ino]> (names_of Y f)) Ha) by (intros A A' HC; apply HC).
    rewrite decide_True by done. pose proof (sh_fs _ _ _ _ Ha f) as Hf. destruct (y_fs Y !! f); [by rewrite lookup_insert_eq|].
    destruct v as [k|g p]; simpl in Hob; [by destruct (y_devs Y' !! k) as [[? []]|]|]. destruct (y_fs Y' !! g) as [A|] eqn:Hg; [|done]. simpl in Hob.
    destruct (f_refs A !! p) as [[[]]|]; [|done]. simpl in Hob. injection Hob as -> _. by rewrite Hg in Hf.
Qed.

(** *** What is open *)

Lemma reopened_opens E Y f p c Y' : reopened E Y (VFs f p) c Y' → 0 < c →
  ∃ ino, object_of Y (VFs f p) = Some (OFile f ino) ∧ opens_at Y' f p = Some (ino, c) ∧ ∀ g q, (g, q) ≠ (f, p) → opens_at Y' g q = opens_at Y g q.
Proof.
  intros (ino & Hob & Hs) Hc. exists ino. split; [done|]. rewrite decide_True in Hs by done.
  assert (Hall : ∀ g q, opens_at Y' g q = if decide ((g, q) = (f, p)) then Some (ino, c) else opens_at Y g q).
  { intros g q. pose proof (sh_fs _ _ _ _ Hs g) as Hg. unfold opens_at, within in *. destruct (y_fs Y !! g) as [A|] eqn:HA, (y_fs Y' !! g) as [A'|]; try done.
    - destruct (decide (g = f)) as [->|Hne]; destruct Hg as (_ & _ & _ & ->); [|rewrite decide_False by congruence; done].
      destruct (decide (q = p)) as [->|]; [by rewrite decide_True|by rewrite decide_False by congruence].
    - rewrite decide_False; [done|]. intros [= -> ->]. simpl in Hob. by rewrite HA in Hob. }
  split; [by rewrite Hall, decide_True|]. intros g q Hne. by rewrite Hall, decide_False.
Qed.

Lemma reopened_dev_opens E Y k c Y' g q : reopened E Y (VDev k) c Y' → opens_at Y' g q = opens_at Y g q.
Proof. by intros (x & _ & ->). Qed.

Lemma locate_opens (low : Prop) Y t w flags r Y' g q : locate low Y t w flags r Y' → opens_at Y' g q = opens_at Y g q.
Proof.
  unfold locate. destruct (flag flags O_CREAT); [|intros [Hc _]; by eapply opens_at_calmly]. destruct (parent Y t w) as [e|f]; [intros [_ Hc]; by eapply opens_at_calmly|].
  destruct r as [e|ob]; [intros [Hc _]; by eapply opens_at_calmly|]. intros (ino & _ & [(_ & _ & Hc)|(_ & _ & Ha)]); [by eapply opens_at_calmly|by eapply alters_opens].
Qed.

Lemma emptied_opens ob flags Y Y' g q : emptied ob flags Y Y' → opens_at Y' g q = opens_at Y g q.
Proof. destruct ob as [k a|f ino]; simpl; [by intros ->|]. destruct (flag flags O_TRUNC); [apply alters_opens|by intros ->]. Qed.

(** What opening a path leaves. *)
Lemma open_found (low short : Prop) Y t w flags v Y' : open_spec low short Y t w flags (inr v) Y' → (∀ u, 0 ≤ open_count Y u) →
  ∃ ob, look Y' t w = inr ob ∧ (¬ short → v ∈ y_locked Y') ∧
    match v with
    | VDev _ => True
    | VFs f p => ∃ ino, ob = OFile f ino ∧ opens_at Y' f p = Some (ino, open_count Y v + 1) ∧ ∀ g q, (g, q) ≠ (f, p) → opens_at Y' g q = opens_at Y g q
    end.
Proof.
  unfold open_spec. intros H Hpos. destruct (open_mode flags) as [cw|]; [|by destruct H]. destruct H as (lr & Y1 & Hloc & H). destruct lr as [e|ob]; [by destruct H|].
  destruct (decide _) in H; [|by destruct H]. destruct H as (v' & Y2 & Y3 & [= <-] & Hob & Hre & Hem & Hlk). exists ob.
  assert (Hlook : look Y3 t w = inr ob) by (rewrite (look_emptied _ _ _ _ _ _ Hem), (look_reopened _ _ _ _ _ _ _ Hre); by eapply locate_found).
  split; [by destruct Hlk as [->|[_ ->]]|]. split; [intros Hs; destruct Hlk as [->|[? _]]; [simpl; set_solver|done]|]. destruct v as [k|f p]; [done|].
  rewrite (locate_count _ _ _ _ _ _ _ (VFs f p) Hloc) in Hre. destruct (reopened_opens _ _ _ _ _ _ Hre) as (ino & Hob' & Hp & Hq); [specialize (Hpos (VFs f p)); lia|].
  exists ino. split; [congruence|]. assert (HY : ∀ g q, opens_at Y' g q = opens_at Y2 g q) by (intros g q; rewrite <- (emptied_opens _ _ _ _ g q Hem); by destruct Hlk as [->|[_ ->]]).
  split; [by rewrite HY|]. intros g q Hne. rewrite HY, Hq by done. by eapply locate_opens.
Qed.

(** Opening what a path leads to, for reading. *)
Lemma open_rdonly (low short : Prop) Y t w f ino r Y' : look Y t w = inr (OFile f ino) → ¬ low → open_spec low short Y t w 0 r Y' → (∀ u, 0 ≤ open_count Y u) →
  ∃ p, r = inr (VFs f p) ∧ opens_at Y' f p = Some (ino, open_count Y (VFs f p) + 1) ∧ ∀ g q, (g, q) ≠ (f, p) → opens_at Y' g q = opens_at Y g q.
Proof.
  intros Hlook Hlow H Hpos. unfold open_spec in H. change (open_mode 0) with (Some false) in H. destruct H as (lr & Y1 & Hloc & H). pose proof Hloc as [_ [->|[_ ?]]]; [|done].
  rewrite Hlook in *. assert (Herr : open_error Y1 (OFile f ino) 0 false = 0) by (unfold open_error, open_code, open_result; by destruct (bool_decide (ino = 1))).
  destruct (decide _) in H; [|done]. destruct H as (v & Y2 & Y3 & -> & Hob & Hre & Hem & Hlk). simpl in Hem. subst Y3.
  destruct v as [k|g p]; simpl in Hob; [by destruct (y_devs Y1 !! k) as [[? []]|]|]. assert (Hg : g = f ∧ ∃ rc oc, (A ← y_fs Y1 !! g; f_refs A !! p) = Some (ino, rc, oc)).
  { destruct (y_fs Y1 !! g) as [A|]; [|done]. simpl in *. destruct (f_refs A !! p) as [[[]]|]; [|done]. simpl in Hob. injection Hob as <- <-. eauto. } destruct Hg as [-> _].
  exists p. split; [done|]. rewrite (locate_count _ _ _ _ _ _ _ (VFs f p) Hloc) in Hre. destruct (reopened_opens _ _ _ _ _ _ Hre) as (i & Hob' & Hp & Hq); [specialize (Hpos (VFs f p)); lia|].
  simpl in Hob'. rewrite Hob in Hob'. injection Hob' as <-. assert (HY : ∀ g q, opens_at Y' g q = opens_at Y2 g q) by (intros g q; by destruct Hlk as [->|[_ ->]]).
  split; [by rewrite HY|]. intros g q Hne. rewrite HY, Hq by done. by eapply locate_opens.
Qed.

(** *** Facts shared below *)

Lemma safely_enough {A} (P : Prop) (m : outcome A) Q : safely P m Q → ¬ P → returns m Q.
Proof. by intros [?|[_ ?]]. Qed.

Lemma safely_got {A} (P : Prop) (a : A) Q : safely P (Ret a) Q → Q a.
Proof. by intros [(b & [= <-] & ?)|[? _]]. Qed.

Lemma opens_there Y f p ino oc : opens_at Y f p = Some (ino, oc) → ∃ A rc, y_fs Y !! f = Some A ∧ f_refs A !! p = Some (ino, rc, oc).
Proof.
  unfold opens_at, opens. destruct (y_fs Y !! f) as [A|]; [|done]. destruct (f_refs A !! p) as [[[i rc] o]|] eqn:Hp; [|done]. case_decide; [|done]. intros [= -> ->]. eauto.
Qed.

Lemma find_again w i e l x : list_find (mountpoint w) l = Some (i, e) → list_find (mountpoint w) (<[i := with_fs e x]> l) = Some (i, with_fs e x).
Proof.
  intros (He & Hm & Hbefore)%list_find_Some. apply list_find_Some. split; [apply list_lookup_insert_eq; by eapply lookup_lt_Some|]. split; [done|].
  intros j y Hj Hlt. rewrite list_lookup_insert_ne in Hj by lia. by eapply Hbefore.
Qed.

Lemma same_disk_trans A A1 A2 : VfsSpec.same_disk A A1 → VfsSpec.same_disk A1 A2 → VfsSpec.same_disk A A2.
Proof. intros (_ & Hn1 & Hf1) (Hr2 & Hn2 & Hf2). split; [done|]. split; [congruence|]. by eapply same_files_trans. Qed.

Section system.
Context {D S : Type} (present : Z → bool) (space : Z) (fsops : nat → FsOps D S) (laws : ∀ f, FileSystem D S present space (H := fsops f)).
Context (nomem : nat → bool) (stack : list Z) (Hstack : len stack = 256).
Context (uniform : ∀ f g d A, fs_holds (FileSystem := laws f) d A → fs_holds (FileSystem := laws g) d A).
Abbreviation state := (vfs D S).
Abbreviation vinv := (vinv present space fsops laws).
Abbreviation vgood := (vgood present space fsops laws).
Abbreviation low := (low present space fsops laws).
Abbreviation short := (short nomem).
Abbreviation lacking := (lacking present space fsops laws nomem).
Abbreviation vallowed := (vallowed present space fsops laws).
Abbreviation vrun := (vrun fsops nomem stack).

(** ** Clients *)

(** A client decides by the replies so far, the latest first, which thread makes
    which call next. *)
Abbreviation client := (list vreply → option (nat * vcall D)).

Fixpoint serve (k : nat) (c : client) (rs : list vreply) (st : state) : outcome (list vreply * state) :=
  match k with
  | O => Ret (rs, st)
  | Datatypes.S k =>
      match c rs with
      | None => Ret (rs, st)
      | Some (t, call) => '(r, st) ← vrun t call st; serve k c (r :: rs) st
      end
  end.

(** Whatever the replies, it asks only what it may. *)
Fixpoint behaves (k : nat) (c : client) (rs : list vreply) (Y : vsys) : Prop :=
  match k with
  | O => True
  | Datatypes.S k =>
      match c rs with
      | None => True
      | Some (t, call) => vallowed Y t call ∧ ∀ r Y', vstep low short Y t call r Y' → behaves k c (r :: rs) Y'
      end
  end.

(** The replies [rs'] are those of the abstract machine, which ends in [Y']. *)
Fixpoint answers (k : nat) (c : client) (rs : list vreply) (Y : vsys) (rs' : list vreply) (Y' : vsys) : Prop :=
  match k with
  | O => rs' = rs ∧ Y' = Y
  | Datatypes.S k =>
      match c rs with
      | None => rs' = rs ∧ Y' = Y
      | Some (t, call) => ∃ r Y1, vstep low short Y t call r Y1 ∧ answers k c (r :: rs) Y1 rs' Y'
      end
  end.

Lemma serve_ok k c : ∀ rs st Y n, vgood st Y n → 0 ≤ n → n + 16 * Z.of_nat k < 2 ^ 31 - 64 → behaves k c rs Y →
  safely lacking (serve k c rs st) (λ '(rs', st'), ∃ Y', vgood st' Y' (n + 16 * Z.of_nat k) ∧ answers k c rs Y rs' Y').
Proof.
  induction k as [|k IH]; intros rs st Y n Hg Hn Hk Hb; cbn [serve behaves answers] in *.
  { apply safely_ret. exists Y. by rewrite Z.add_0_r. }
  destruct (c rs) as [[t call]|].
  - destruct Hb as [Ha Hb]. eapply safely_bind; [by apply (vrun_ok present space fsops laws nomem stack Hstack uniform st Y n t call Hg); [lia|]|].
    intros [r st1] (Y1 & Hg1 & Hs1). eapply safely_mono; [apply (IH (r :: rs) st1 Y1 (n + 16) Hg1); [lia|lia|by apply Hb]|].
    intros [rs' st'] (Y' & Hg' & Hans). exists Y'. split; [by replace (n + 16 * Z.of_nat (Datatypes.S k)) with (n + 16 + 16 * Z.of_nat k) by lia|]. eauto.
  - apply safely_ret. exists Y. split; [|done]. destruct Hg as (Hi & Hu & Ho). split; [eapply vinv_later; [done|lia]|done].
Qed.

(** [C2] The VFS layer serves its clients: for any file systems that keep the
    interface [FileSystem], any client that asks only what it may gets the
    replies of the abstract machine [vstep]. Every call returns, panics only if
    memory is lacking, and leaves every reference counted. *)
Theorem vfs_serves_clients k c st Y n : vgood st Y n → 0 ≤ n → n + 16 * Z.of_nat k < 2 ^ 31 - 64 → behaves k c [] Y →
  safely lacking (serve k c [] st) (λ '(rs, st'), ∃ Y', vgood st' Y' (n + 16 * Z.of_nat k) ∧ answers k c [] Y rs Y').
Proof. apply serve_ok. Qed.

(** ** Paths *)

(** [C36] vfs_lookup reaches what the path stands for: the device or volume before
    the colon, the boot file system for a leading slash, the working directory
    otherwise, and in it the name that follows. It gives one new reference to that
    object or the error that [look] says, and ENOMEM only if memory is lacking;
    nothing else changes. *)
Theorem vfs_lookup_resolves t b st Y n : vgood st Y n → 0 ≤ n < 2 ^ 31 - 64 → 0 ∈ b → safely low (vfs_lookup fsops t b st) (λ '(st', r),
  match r with
  | inl e => (look Y t (cut b) = inl e ∨ e = ENOMEM ∧ low) ∧ ∃ Y', vgood st' Y' (n + 5) ∧ calmly ∅ Y Y'
  | inr v => ∃ ob Y', look Y t (cut b) = inr ob ∧ vinv st' Y' {[+ v +]} (n + 5) ∧ calmly ∅ Y Y' ∧ object_of Y' v = Some ob
  end).
Proof.
  clear uniform Hstack stack. intros (Hi & Hu & Ho) Hn [tl Hb]%cut_split. rewrite Hb at 1. eapply safely_mono; [apply (vfs_lookup_ok present space fsops laws t st Y ∅ n (cut b) tl Hi); [lia|done|apply cut_nonzero]|].
  intros [st' r] [(e & Y' & -> & He & Hi' & Hc' & Hv')|(ob & v & Y' & -> & Hob & (Hi' & Hc' & Hv') & Hobv)]%found_cases.
  - split; [done|]. exists Y'. split; [|done]. split; [eapply vinv_later; [done|lia]|]. split; [by eapply unlocked_vnodes|by eapply calmly_opened].
  - exists ob, Y'. split; [done|]. rewrite only_one in Hi'. split; [eapply vinv_later; [done|lia]|done].
Qed.

(** ** Opening and closing *)

Lemma open_again_ok t b flags st Y n f p st1 : vgood st Y n → 0 ≤ n < 2 ^ 31 - 64 → 0 ∈ b → ¬ lacking →
  vfs_open fsops nomem stack t b flags st = Ret (st1, inr (VFs f p)) →
  returns (vfs_open fsops nomem stack t b 0 st1) (λ '(st2, r), r = inr (VFs f p) ∧ ∃ Y2, vgood st2 Y2 (n + 22) ∧ VFs f p ∈ y_locked Y2 ∧ open_count Y2 (VFs f p) = open_count Y (VFs f p) + 2).
Proof.
  intros (Hi & Hu & Ho) Hn H0 Hno Hrun. assert (Hlow : ¬ low) by (intros H; apply Hno; by left). assert (Hs : ¬ short) by (intros H; apply Hno; by right).
  pose proof (vfs_open_ok present space fsops laws nomem stack Hstack t st Y n b flags Hi ltac:(lia) Hu H0) as H1. rewrite Hrun in H1. apply safely_got in H1 as (Y1 & Hi1 & Hu1 & Hs1).
  destruct (open_found _ _ _ _ _ _ _ _ Hs1) as (ob & Hlook & _ & ino & -> & Hop1 & _); [intros u; by eapply open_count_nonneg|].
  assert (Ho1 : opened Y1) by (eapply open_opened; [exact Hs1|intros u; by eapply open_count_nonneg|done]).
  eapply returns_mono; [eapply safely_enough; [apply (vfs_open_ok present space fsops laws nomem stack Hstack t st1 Y1 (n + 11) b 0 Hi1); [lia|done|done]|done]|].
  intros [st2 r] (Y2 & Hi2 & Hu2 & Hs2). destruct (open_rdonly _ _ _ _ _ _ _ _ _ Hlook Hlow Hs2) as (q & -> & Hop2 & Hrest); [intros u; by eapply open_count_nonneg|].
  assert (q = p) as ->.
  { destruct (decide (q = p)) as [|Hne]; [done|]. specialize (Hrest f p ltac:(congruence)). rewrite Hop1 in Hrest.
    apply opens_there in Hop2 as (A & rc & HA & Hq). apply opens_there in Hrest as (A' & rc' & HA' & Hp). rewrite HA in HA'. injection HA' as <-.
    destruct (fs_there _ _ _ _ st2 Y2 _ _ f A Hi2 HA) as (s & _ & Hshow). by eapply fs_once. }
  split; [done|]. exists Y2. destruct (open_found _ _ _ _ _ _ _ _ Hs2) as (ob & _ & Hl & _); [intros u; by eapply open_count_nonneg|].
  split; [split; [by replace (n + 22) with (n + 11 + 11) by lia|]; split; [done|]; eapply open_opened; [exact Hs2|intros u; by eapply open_count_nonneg|done]|].
  split; [by apply Hl|]. rewrite (open_count_at Y2), Hop2, (open_count_at Y1), Hop1. lia.
Qed.

(** [C38] One vnode per open file: if memory is not lacking, a file opened by some
    path, for whatever access, can be opened again by that path for reading,
    and what is gotten is the same vnode, now open twice. *)
Theorem vfs_open_again t b flags st Y n f p st1 : vgood st Y n → 0 ≤ n < 2 ^ 31 - 64 → 0 ∈ b → ¬ lacking →
  vfs_open fsops nomem stack t b flags st = Ret (st1, inr (VFs f p)) →
  returns (vfs_open fsops nomem stack t b 0 st1) (λ '(st2, r), r = inr (VFs f p) ∧
    ∃ Y2, vgood st2 Y2 (n + 22) ∧ VFs f p ∈ y_locked Y2 ∧ open_count Y2 (VFs f p) = open_count Y (VFs f p) + 2).
Proof. apply open_again_ok. Qed.

Lemma dec_locks v st st' : VOP_DECOPEN fsops v st = Ret st' ∨ VOP_DECREF fsops v st = Ret st' → rw_lock st' = rw_lock st ∧ locks st' = locks st.
Proof.
  clear uniform Hstack stack nomem. assert (Hfs : ∀ f (call : S → outcome S), on_fs_state f call st = Ret st' → rw_lock st' = rw_lock st ∧ locks st' = locks st).
  { intros f call H. unfold on_fs_state, on_fs in H. apply bind_Ret_inv in H as ([u st1] & H & [= <-]). apply bind_Ret_inv in H as (s & _ & H). apply bind_Ret_inv in H as ([? s'] & _ & H). by injection H as _ <-. }
  destruct v as [k|f p]; simpl; [|intros [H|H]; by eapply Hfs]. intros [H|H]; apply bind_Ret_inv in H as (dv & _ & H); apply bind_Ret_inv in H as (? & _ & H).
  - case_bool_decide; [by simplify_eq|]. apply bind_Ret_inv in H as (? & _ & H). apply bind_Ret_inv in H as (? & _ & H). by simplify_eq.
  - case_bool_decide; [by simplify_eq|]. apply bind_Ret_inv in H as (? & _ & H). by simplify_eq.
Qed.

Lemma closed_lock v st st' : vfs_close fsops v st = Ret st' → vfs_close fsops v st' = Wild.
Proof.
  clear uniform Hstack stack nomem. unfold vfs_close at 1. intros H. apply bind_Ret_inv in H as (l & Hl & H). apply bind_Ret_inv in H as (st1 & Hd & H). apply bind_Ret_inv in H as (st2 & H2 & H3).
  destruct (dec_locks v st1 st2) as [Hr2 Hl2]; [by left|]. destruct (dec_locks v st2 st') as [Hr3 Hl3]; [by right|]. unfold the in Hl. destruct (rw_lock st !! v) as [l'|] eqn:Hrw; [|done]. injection Hl as ->.
  destruct l as [l|]; [|done]. simpl in Hd. case_decide; [|done]. injection Hd as <-. unfold vfs_close. rewrite Hr3, Hr2. simpl. rewrite Hrw. unfold the. ostep. unfold lock_destroy. rewrite Hl3, Hl2. simpl.
  rewrite decide_False by set_solver. done.
Qed.

(** [C39] A file that is open twice cannot be closed twice: vfs_open gives it a new
    lock each time, in the one field [rw_lock] of its vnode, and vfs_close
    destroys the lock it finds there. The first close is in order and leaves
    the file open; the second frees a lock that has been freed. *)
Theorem vfs_second_close_wild st Y n v : vgood st Y n → 0 ≤ n < 2 ^ 31 - 64 → v ∈ y_locked Y → 1 < open_count Y v →
  returns (vfs_close fsops v st) (λ st', (∃ Y', vgood st' Y' (n + 2) ∧ 0 < open_count Y' v) ∧ vfs_close fsops v st' = Wild).
Proof.
  clear uniform nomem. intros (Hi & Hu & Ho) Hn Hl Hc. destruct (vfs_close_ok present space fsops laws stack Hstack st Y n v Hi ltac:(lia) Hu Hl ltac:(lia)) as (st' & Hrun & Y' & Hi' & Hu' & Hs).
  exists st'. split; [done|]. split; [|by eapply closed_lock]. exists Y'. split; [split; [done|]; split; [done|]; by eapply close_opened|].
  destruct Hs as (Y1 & Hre & Hca). rewrite (calmly_count _ _ _ v Hca). rewrite (reopened_count _ _ _ _ _ Hre); lia.
Qed.

(** ** The boot file system *)

(** vfs_setbootfs refuses every name with a colon among its first 254
    characters, "emu0:" as well, and does nothing then, whatever the state. *)
Theorem vfs_setbootfs_colon t b st : 0 ∈ b → len b < 2 ^ 31 → COLON ∈ take 254 (cut b) → vfs_setbootfs fsops stack t b st = Ret (EINVAL, st).
Proof.
  clear uniform. intros H0 Hlen Hin. unfold vfs_setbootfs. destruct (boot_name stack Hstack b H0 Hlen) as (tl & Ht & ->). ostep.
  destruct (colon_found nomem stack t (take 254 (cut b)) tl) as [(i & k & -> & Hk & Hpos & _)|[_ Hnot]]; [apply Forall_take, cut_nonzero| |done].
  ostep. rewrite Hk. ostep. by rewrite bool_decide_eq_true_2.
Qed.

(** ** Mounting *)

Lemma remount_ok st Y n b i e f vol A : vgood st Y n → 0 ≤ n → 0 ∈ b → list_find (mountpoint (cut b)) (y_table Y) = Some (i, e) → e_fs e = Some (f, vol) → y_fs Y !! f = Some A →
  returns (vfs_unmount fsops b st) (λ '(e1, st1),
    busy Y f ∧ e1 = EBUSY ∧ (∃ Y1, vgood st1 Y1 n ∧ calmly ∅ Y Y1) ∨
    ¬ busy Y f ∧ e1 = 0 ∧ returns (vfs_mount fsops b st1) (λ '(e2, st2),
      e2 = ENOMEM ∧ low ∨ e2 = 0 ∧ ∃ Y2 f2 A2 vol2, vgood st2 Y2 n ∧ y_table Y2 = <[i := with_fs e (Some (f2, vol2))]> (y_table Y) ∧ y_fs Y2 = <[f2 := A2]> (delete f (y_fs Y)) ∧ VfsSpec.same_disk A A2)).
Proof.
  clear Hstack stack. intros (Hi & Hu & Ho) Hn H0 Hfind Hef HA. eapply returns_mono; [apply (vfs_unmount_ok present space fsops laws nomem 0%nat uniform st Y n b (cut b) Hi Hu); by apply string_cut|].
  intros [e1 st1] (Y1 & Hi1 & Hu1 & Hs). assert (Ho1 : opened Y1) by (by eapply unmount_opened). unfold unmount_spec in Hs. rewrite Hfind, Hef in Hs.
  destruct Hs as [(Hb & -> & Hc)|(Hb & -> & a & A0 & A1 & Hd & HA0 & Hsame & HY1)]; [left; split; [done|]; split; [done|]; by exists Y1|right]. split; [done|]. split; [done|].
  rewrite HA in HA0. injection HA0 as <-. assert (Hfind1 : list_find (mountpoint (cut b)) (y_table Y1) = Some (i, with_fs e None)) by (rewrite HY1; by apply find_again).
  assert (Hdisk : y_disks Y1 !! a = Some A1) by (rewrite HY1; apply lookup_insert_eq).
  eapply returns_mono; [apply (vfs_mount_ok present space fsops laws nomem 0%nat uniform st1 Y1 n b (cut b) Hi1 Hn Hu1); [by apply string_cut|]|].
  { intros j x. rewrite Hfind1. intros [= <- <-] _. by exists a, A1. }
  intros [e2 st2] (Y2 & Hi2 & Hu2 & Hs). assert (Ho2 : opened Y2) by (by eapply mount_opened). unfold mount_spec in Hs. rewrite Hfind1 in Hs.
  destruct (decide _) in Hs; [|done]. destruct Hs as [(-> & Hlow & _)|(-> & f2 & vol2 & a' & B & A2 & Hd' & Hdk & Hno & Hsame2 & ->)]; [by left|right]. split; [done|].
  simpl in Hd'. rewrite Hd in Hd'. injection Hd' as <-. rewrite Hdisk in Hdk. injection Hdk as <-.
  eexists _, f2, A2, vol2. split; [by split; [|split]|]. rewrite HY1. simpl. rewrite list_insert_insert_eq. split; [done|]. split; [done|]. by eapply same_disk_trans.
Qed.

(** [C37] Unmounting and mounting again: vfs_unmount refuses with EBUSY exactly if
    a file of the volume is open or some thread, or the boot file system, is
    in it, and changes nothing then; otherwise it succeeds, and vfs_mount of the same
    device, unless memory is lacking, brings back the same names and files
    under the same entry of the table, with no references. *)
Theorem vfs_remount st Y n b i e f vol A : vgood st Y n → 0 ≤ n → 0 ∈ b → list_find (mountpoint (cut b)) (y_table Y) = Some (i, e) → e_fs e = Some (f, vol) → y_fs Y !! f = Some A →
  returns (vfs_unmount fsops b st) (λ '(e1, st1),
    busy Y f ∧ e1 = EBUSY ∧ (∃ Y1, vgood st1 Y1 n ∧ calmly ∅ Y Y1) ∨
    ¬ busy Y f ∧ e1 = 0 ∧ returns (vfs_mount fsops b st1) (λ '(e2, st2),
      e2 = ENOMEM ∧ low ∨ e2 = 0 ∧ ∃ Y2 f2 A2 vol2, vgood st2 Y2 n ∧ y_table Y2 = <[i := with_fs e (Some (f2, vol2))]> (y_table Y) ∧ y_fs Y2 = <[f2 := A2]> (delete f (y_fs Y)) ∧ VfsSpec.same_disk A A2)).
Proof. apply remount_ok. Qed.

(** vfs_sync: every mounted file system is clean afterwards, so that nothing
    of it waits to be written; names, files and open counts stay. *)
Theorem vfs_sync_clean st Y n : vgood st Y n → returns (vfs_sync fsops st) (λ '(e, st'), e = 0 ∧
  (∀ i en f vol, y_table Y !! i = Some en → e_fs en = Some (f, vol) → ∃ s, fses st' !! f = Some s ∧ fs_clean (FileSystem := laws f) s) ∧
  ∃ Y', vgood st' Y' n ∧ calmly ∅ Y Y').
Proof.
  intros (Hi & Hu & Ho). eapply returns_mono; [by apply (vfs_sync_ok present space fsops laws st Y n)|]. intros [e st'] (-> & Hu' & Hsy & Y' & Hi' & Hc). split; [done|]. split.
  - intros i en f vol He Hf. eapply Hsy; [by eapply lookup_lt_Some|done|done].
  - exists Y'. split; [|done]. split; [done|]. split; [done|]. by eapply calmly_opened.
Qed.

(** vfs_bootstrap panics only if memory is lacking; otherwise the layer is
    ready, with the null device as its only entry and all references counted. *)
Theorem vfs_bootstrap_ready (nothing : D) n0 : safely short (vfs_bootstrap fsops nomem nothing n0) (λ st, ∃ k a, vgood st (booted k a) 1).
Proof.
  clear uniform Hstack stack. eapply safely_mono; [apply (vfs_bootstrap_ok present space fsops laws nomem nothing n0)|]. intros st (Hu & k & a & Hi). exists k, a. split; [done|]. split; [done|]. intros v Hv. simpl in Hv. set_solver.
Qed.
End system.

(** ** SFS on lhd0 *)

Definition sfs_at (f : nat) : FsOps Sfs.disk sfs := sfs_ops no_user 0 memory_enough.
Definition sfs_laws (f : nat) : FileSystem Sfs.disk sfs no_user 0 (H := sfs_at f) := sfs_filesystem no_user 0 memory_enough.
Definition a_stack : list Z := replicate 256 0.

(** "lhd0" and "lhd0:". *)
Definition lhd0 : list Z := [108; 104; 100; 48; 0].
Definition lhd0_colon : list Z := [108; 104; 100; 48; 58; 0].
Definition lhd_device : device Sfs.disk := Device (λ _, 0) 0 (λ m u dk, '(e, (dk, m, u)) ← lhd_io no_user 0 (dk, m, u); Ret (e, (m, u, dk))) EIOCTL 8 512 healthy_disk.
Definition no_devices : vfs Sfs.disk sfs := Vfs (Array 0 0 None) ∅ ∅ ∅ ∅ None ∅ ∅ ∅ false false 0.

Lemma a_stack_ok : len a_stack = 256.
Proof. done. Qed.

Lemma enough : ¬ lacking no_user 0 sfs_at sfs_laws memory_enough.
Proof. intros [[f H]|[k H]]; [by apply memory_not_low in H|done]. Qed.

Lemma sfs_uniform f g d A : fs_holds (FileSystem := sfs_laws f) d A → fs_holds (FileSystem := sfs_laws g) d A.
Proof. done. Qed.

Lemma no_devices_good : vgood no_user 0 sfs_at sfs_laws no_devices nothing_yet 0.
Proof. split; [apply vinv_empty|]. split; [done|]. intros v Hv. simpl in Hv. set_solver. Qed.

(** After the device has been added. *)
Definition lhd_entry (a k : nat) (x : option (nat * option (list Z))) : entry := Entry (cut lhd0) (raw_name (cut lhd0) true) (Some a) k x.
Definition with_disk (a k : nat) : vsys := added (lhd_entry a k None) (attached a (λ _, 0) (Some (Fsys ∅ ∅ ∅)) nothing_yet).

Abbreviation sfs_step := (vstep (D := Sfs.disk) (low no_user 0 sfs_at sfs_laws) (short memory_enough)).

Lemma add_lhd_allowed t : vallowed no_user 0 sfs_at sfs_laws nothing_yet t (CAdddev lhd0 lhd_device (Some (Fsys ∅ ∅ ∅)) true).
Proof. split; [unfold lhd0; set_solver|]. split; [simpl; lia|]. split; [done|]. intros f. apply healthy_on_disk. Qed.

Lemma lhd_added t r Y : sfs_step nothing_yet t (CAdddev lhd0 lhd_device (Some (Fsys ∅ ∅ ∅)) true) r Y → r = VCode 0 ∧ ∃ a k, Y = with_disk a k.
Proof.
  intros [(_ & Hs & _)|(a & _ & e & -> & [(_ & Hs & _)|[(_ & Hex & _)|(-> & _ & k & _ & ->)]])]; [by destruct Hs|by destruct Hs|by apply Exists_nil in Hex|].
  split; [done|]. by exists a, k.
Qed.

Lemma mount_lhd_allowed t a k : vallowed no_user 0 sfs_at sfs_laws (with_disk a k) t (CMount lhd0).
Proof. split; [unfold lhd0; set_solver|]. intros i e Hf _. simpl in Hf. injection Hf as <- <-. exists a, (Fsys ∅ ∅ ∅). split; [done|]. apply lookup_insert_eq. Qed.

(** After it has been mounted. *)
Lemma lhd_mounted t a k r Y : sfs_step (with_disk a k) t (CMount lhd0) r Y → r = VCode 0 ∧ ∃ f vol A, Y = VfsSpec.mounted 0 (lhd_entry a k None) f vol a A (with_disk a k) ∧ VfsSpec.same_disk (Fsys ∅ ∅ ∅) A.
Proof.
  intros (e & -> & Hs). unfold mount_spec in Hs. simpl in Hs. destruct Hs as [(_ & Hl & _)|(-> & f & vol & a' & B & A & Hd & Hdk & _ & Hsame & ->)]; [destruct enough; by left|].
  split; [done|]. injection Hd as <-. rewrite lookup_insert_eq in Hdk. injection Hdk as <-. by exists f, vol, A.
Qed.

Definition with_lhd0 (a k f : nat) (vol : option (list Z)) (A : fsys) : vsys := VfsSpec.mounted 0 (lhd_entry a k None) f vol a A (with_disk a k).
Abbreviation sfs_good := (vgood no_user 0 sfs_at sfs_laws).

Lemma lhd_ready : ∃ st a k f vol A, sfs_good st (with_lhd0 a k f vol A) 32 ∧ VfsSpec.same_disk (Fsys ∅ ∅ ∅) A.
Proof.
  pose proof (vrun_ok no_user 0 sfs_at sfs_laws memory_enough a_stack a_stack_ok sfs_uniform) as Hrun.
  destruct (safely_enough _ _ _ (Hrun _ _ 0 0%nat _ no_devices_good ltac:(lia) (add_lhd_allowed 0)) enough) as ([r1 st1] & _ & Y1 & Hg1 & (-> & a & k & ->)%lhd_added).
  destruct (safely_enough _ _ _ (Hrun _ _ _ 0%nat _ Hg1 ltac:(lia) (mount_lhd_allowed 0 a k)) enough) as ([r2 st2] & _ & Y2 & Hg2 & (-> & f & vol & A & -> & Hsame)%lhd_mounted).
  by exists st2, a, k, f, vol, A.
Qed.

Lemma look_lhd0 a k f vol A : look (with_lhd0 a k f vol A) 0 (cut lhd0_colon) = inr (OFile f 1).
Proof. done. Qed.

Lemma nobody_there a k f vol A v : f_refs A = ∅ → open_count (with_lhd0 a k f vol A) v = 0.
Proof.
  intros HA. destruct v as [j|g p]; simpl; [destruct (decide (j = k)) as [->|]; [by rewrite lookup_insert_eq|by rewrite lookup_insert_ne, lookup_empty by done]|].
  destruct (decide (g = f)) as [->|]; [rewrite lookup_insert_eq; unfold opens; by rewrite HA, lookup_empty|by rewrite lookup_insert_ne, lookup_empty by done].
Qed.

(** The device is added and mounted; its root directory is opened, and closed if
    that has worked. *)
Definition a_client (rs : list vreply) : option (nat * vcall Sfs.disk) :=
  match rs with
  | [] => Some (0%nat, CAdddev lhd0 lhd_device (Some (Fsys ∅ ∅ ∅)) true)
  | [_] => Some (0%nat, CMount lhd0)
  | [_; _] => Some (0%nat, COpen lhd0_colon 0)
  | [VGot v; _; _] => Some (0%nat, CClose v)
  | _ => None
  end.

Lemma a_client_behaves : behaves no_user 0 sfs_at sfs_laws memory_enough 4 a_client [] nothing_yet.
Proof.
  cbn [behaves a_client]. split; [apply add_lhd_allowed|]. intros r1 Y1 (-> & a & k & ->)%lhd_added. split; [apply mount_lhd_allowed|]. intros r2 Y2 (-> & f & vol & A & -> & HA & _)%lhd_mounted.
  fold (with_lhd0 a k f vol A). split; [unfold lhd0_colon; simpl; set_solver|]. intros r3 Y3 (x & -> & Hs).
  assert (Hpos : ∀ u, 0 ≤ open_count (with_lhd0 a k f vol A) u) by (intros u; by rewrite nobody_there).
  destruct (open_rdonly _ _ _ _ _ _ _ _ _ (look_lhd0 a k f vol A) ltac:(intros H; apply enough; by left) Hs Hpos) as (p & -> & _). simpl. split; [|done].
  destruct (open_found _ _ _ _ _ _ _ _ Hs Hpos) as (_ & _ & Hl & _). apply Hl. intros H. apply enough. by right.
Qed.

Lemma vfs_serves_clients_witness : returns (serve sfs_at memory_enough a_stack 4 a_client [] no_devices)
  (λ '(rs, st'), ∃ Y', sfs_good st' Y' 64 ∧ answers no_user 0 sfs_at sfs_laws memory_enough 4 a_client [] nothing_yet rs Y').
Proof.
  eapply safely_enough; [|apply enough].
  exact (vfs_serves_clients no_user 0 sfs_at sfs_laws memory_enough a_stack a_stack_ok sfs_uniform 4 a_client no_devices nothing_yet 0 no_devices_good ltac:(lia) ltac:(lia) a_client_behaves).
Defined.

Lemma vfs_lookup_resolves_witness : ∃ st Y f, look Y 0 (cut lhd0_colon) = inr (OFile f 1) ∧ returns (vfs_lookup sfs_at 0 lhd0_colon st) (λ '(st', r), match r with
  | inl e => (look Y 0 (cut lhd0_colon) = inl e ∨ e = ENOMEM ∧ low no_user 0 sfs_at sfs_laws) ∧ ∃ Y', sfs_good st' Y' 37 ∧ calmly ∅ Y Y'
  | inr v => ∃ ob Y', look Y 0 (cut lhd0_colon) = inr ob ∧ vinv no_user 0 sfs_at sfs_laws st' Y' {[+ v +]} 37 ∧ calmly ∅ Y Y' ∧ object_of Y' v = Some ob
  end).
Proof.
  destruct lhd_ready as (st & a & k & f & vol & A & Hg & _). exists st, (with_lhd0 a k f vol A), f. split; [done|]. eapply safely_enough.
  - exact (vfs_lookup_resolves no_user 0 sfs_at sfs_laws 0 lhd0_colon st _ 32 Hg ltac:(lia) ltac:(unfold lhd0_colon; set_solver)).
  - intros H. apply enough. by left.
Defined.

(** The root directory of lhd0, opened. *)
Lemma lhd_opened : ∃ st Y f p st1, sfs_good st Y 32 ∧ open_count Y (VFs f p) = 0 ∧ vfs_open sfs_at memory_enough a_stack 0 lhd0_colon 0 st = Ret (st1, inr (VFs f p)).
Proof.
  destruct lhd_ready as (st & a & k & f & vol & A & Hg & HA & _). pose proof Hg as (Hi & Hu & Ho). assert (Hlow : ¬ low no_user 0 sfs_at sfs_laws) by (intros H; apply enough; by left).
  destruct (safely_enough _ _ _ (vfs_open_ok no_user 0 sfs_at sfs_laws memory_enough a_stack a_stack_ok 0 st _ 32 lhd0_colon 0 Hi ltac:(lia) Hu ltac:(unfold lhd0_colon; set_solver)) Hlow)
    as ([st1 r] & Hrun & Y1 & _ & _ & Hs).
  destruct (open_rdonly _ _ _ _ _ _ _ _ _ (look_lhd0 a k f vol A) Hlow Hs) as (p & -> & _); [intros u; by rewrite nobody_there|].
  exists st, (with_lhd0 a k f vol A), f, p, st1. split; [done|]. split; [by apply nobody_there|done].
Qed.

Lemma vfs_open_again_witness : ∃ Y st1 f p, open_count Y (VFs f p) = 0 ∧ returns (vfs_open sfs_at memory_enough a_stack 0 lhd0_colon 0 st1) (λ '(st2, r), r = inr (VFs f p) ∧
  ∃ Y2, sfs_good st2 Y2 54 ∧ VFs f p ∈ y_locked Y2 ∧ open_count Y2 (VFs f p) = open_count Y (VFs f p) + 2).
Proof.
  destruct lhd_opened as (st & Y & f & p & st1 & Hg & H0 & Hrun). exists Y, st1, f, p. split; [done|].
  exact (vfs_open_again no_user 0 sfs_at sfs_laws memory_enough a_stack a_stack_ok 0 lhd0_colon 0 st Y 32 f p st1 Hg ltac:(lia) ltac:(unfold lhd0_colon; set_solver) enough Hrun).
Defined.

Lemma vfs_second_close_wild_witness : ∃ st v, returns (vfs_close sfs_at v st) (λ st', (∃ Y', sfs_good st' Y' 56 ∧ 0 < open_count Y' v) ∧ vfs_close sfs_at v st' = Wild).
Proof.
  destruct lhd_opened as (st & Y & f & p & st1 & Hg & H0 & Hrun).
  destruct (open_again_ok no_user 0 sfs_at sfs_laws memory_enough a_stack a_stack_ok 0 lhd0_colon 0 st Y 32 f p st1 Hg ltac:(lia) ltac:(unfold lhd0_colon; set_solver) enough Hrun)
    as ([st2 r] & _ & -> & Y2 & Hg2 & Hl & Hc). exists st2, (VFs f p).
  exact (vfs_second_close_wild no_user 0 sfs_at sfs_laws a_stack a_stack_ok st2 Y2 54 (VFs f p) Hg2 ltac:(lia) Hl ltac:(lia)).
Defined.

Lemma vfs_setbootfs_colon_witness : vfs_setbootfs sfs_at a_stack 0 lhd0_colon no_devices = Ret (EINVAL, no_devices).
Proof. apply (vfs_setbootfs_colon sfs_at memory_enough a_stack a_stack_ok); [unfold lhd0_colon; set_solver|simpl; lia|unfold COLON; simpl; set_solver]. Defined.

Lemma vfs_remount_witness : ∃ st f a k vol A, let Y := with_lhd0 a k f vol A in returns (vfs_unmount sfs_at lhd0 st) (λ '(e1, st1),
    busy Y f ∧ e1 = EBUSY ∧ (∃ Y1, sfs_good st1 Y1 32 ∧ calmly ∅ Y Y1) ∨
    ¬ busy Y f ∧ e1 = 0 ∧ returns (vfs_mount sfs_at lhd0 st1) (λ '(e2, st2),
      e2 = ENOMEM ∧ low no_user 0 sfs_at sfs_laws ∨ e2 = 0 ∧ ∃ Y2 f2 A2 vol2, sfs_good st2 Y2 32 ∧ y_table Y2 = <[0%nat := with_fs (lhd_entry a k (Some (f, vol))) (Some (f2, vol2))]> (y_table Y) ∧
        y_fs Y2 = <[f2 := A2]> (delete f (y_fs Y)) ∧ VfsSpec.same_disk A A2)).
Proof.
  destruct lhd_ready as (st & a & k & f & vol & A & Hg & Hsame). exists st, f, a, k, vol, A.
  exact (vfs_remount no_user 0 sfs_at sfs_laws memory_enough sfs_uniform st _ 32 lhd0 0 (lhd_entry a k (Some (f, vol))) f vol A Hg ltac:(lia) ltac:(unfold lhd0; set_solver) eq_refl eq_refl (lookup_insert_eq _ _ _)).
Defined.

Lemma vfs_sync_clean_witness : ∃ st Y, returns (vfs_sync sfs_at st) (λ '(e, st'), e = 0 ∧
  (∀ i en f vol, y_table Y !! i = Some en → e_fs en = Some (f, vol) → ∃ s, fses st' !! f = Some s ∧ fs_clean (FileSystem := sfs_laws f) s) ∧
  ∃ Y', sfs_good st' Y' 32 ∧ calmly ∅ Y Y').
Proof.
  destruct lhd_ready as (st & a & k & f & vol & A & Hg & Hsame). exists st, (with_lhd0 a k f vol A). exact (vfs_sync_clean no_user 0 sfs_at sfs_laws st _ 32 Hg).
Defined.
