(* ===== verification/Process.v ===== *)
(** * Processes and file descriptors: kern/syscalls/process.c,
    kern/syscalls/fileDescriptor.c, kern/syscalls/process_syscall.c and the
    exit, open, close, read and write calls of kern/syscalls/file_syscall.c, with
    what its execv and kern/userprog/runprogram.c do with the program's file

    The structures the code allocates live in maps from addresses; kfree removes
    the entry, and using a freed or null pointer is [Wild]. Structures are
    shared by address as in the code: a file by all descriptors that point to
    it, a process by the table, its children and its waiting parent.

    The VFS layer is an interface, [Vfs]. [nomem n] says whether the [n]th call
    of kmalloc fails. *)

From S2P Require Import Prelude KHeap KHeapSpec Coremap Uio.

Definition MIN_PROCESS : Z := 1.
Definition MAX_PROCESS : Z := 100.
Definition MAX_FILE_OPEN : Z := 20.
Definition O_RDONLY : Z := 0.
Definition O_WRONLY : Z := 1.
Definition O_RDWR : Z := 2.

(** What the system calls use of the VFS layer; vnodes are numbers, [V] is the
    state of the file systems. *)
Class Vfs (V : Type) := {
  vfs_open : list Z → Z → V → outcome (result Z * V);
  vfs_close : Z → V → outcome V;
  VOP_READ : Z → memory → uio → V → outcome (Z * (memory * uio * V));
  VOP_WRITE : Z → memory → uio → V → outcome (Z * (memory * uio * V))
}.

(** What they rely on.  [vfs_in_order k O v]: the layer is in order for [k] more calls, and [O] are the
    vnodes that can be closed, those opened and not closed since.  Opening returns; closing returns
    for a vnode that can be closed, after which it cannot be closed again until it is opened again.  Nothing is
    said of what becomes of other vnodes handed to vfs_close. *)
Class VfsLaws (V : Type) `{Vfs V} := {
  vfs_in_order : nat → gset Z → V → Prop;
  vfs_order_later k O v : vfs_in_order (S k) O v → vfs_in_order k O v;
  vfs_open_returns k O name flag v : vfs_in_order (S k) O v → ∃ r v', vfs_open name flag v = Ret (r, v') ∧
    vfs_in_order k (match r with inr vn => {[vn]} ∪ O | inl _ => O end) v';
  vfs_close_returns k O vn v : vfs_in_order (S k) O v → vn ∈ O → ∃ v', vfs_close vn v = Ret v' ∧ vfs_in_order k (O ∖ {[vn]}) v'
}.

(** ** State *)

Record file := File { f_offset : Z; f_ref : Z; f_flag : Z; f_vn : Z }.

(** An exit code that has not been set is [None]. *)
Record process := Process {
  PID : Z; exit_code : option Z; p_exit : Z;
  exit_cv : option nat; proc_cv : option nat; fd_lock : option nat;
  p_table : option nat; p_parent : option nat
}.

Record sys (V : Type) := Sys {
  procs : gmap nat process;
  syncs : gset nat;                      (* locks and condition variables *)
  files : gmap nat file;
  tables : gmap nat (list (option nat));
  proctable : list (option nat);
  nalloc : nat;
  vstate : V
}.
Arguments Sys {V}.
Arguments procs {V}.
Arguments syncs {V}.
Arguments files {V}.
Arguments tables {V}.
Arguments proctable {V}.
Arguments nalloc {V}.
Arguments vstate {V}.

Section process.
Context {V : Type} `{Vfs V} (nomem : nat → bool).
Implicit Types s : sys V.

Definition set_procs (x : gmap nat process) s : sys V := Sys x (syncs s) (files s) (tables s) (proctable s) (nalloc s) (vstate s).
Definition set_syncs (x : gset nat) s : sys V := Sys (procs s) x (files s) (tables s) (proctable s) (nalloc s) (vstate s).
Definition set_files (x : gmap nat file) s : sys V := Sys (procs s) (syncs s) x (tables s) (proctable s) (nalloc s) (vstate s).
Definition set_tables (x : gmap nat (list (option nat))) s : sys V := Sys (procs s) (syncs s) (files s) x (proctable s) (nalloc s) (vstate s).
Definition set_proctable (x : list (option nat)) s : sys V := Sys (procs s) (syncs s) (files s) (tables s) x (nalloc s) (vstate s).
Definition set_vstate (x : V) s : sys V := Sys (procs s) (syncs s) (files s) (tables s) (proctable s) (nalloc s) x.

Definition kmalloc_obj s : option nat * sys V :=
  (if nomem (nalloc s) then None else Some (nalloc s),
   Sys (procs s) (syncs s) (files s) (tables s) (proctable s) (S (nalloc s)) (vstate s)).

(** Following a pointer. *)
Definition deref {A} (h : gmap nat A) (p : nat) : outcome A := match h !! p with Some x => Ret x | None => Wild end.
Definition nonnull {A} (p : option A) : outcome A := match p with Some a => Ret a | None => Wild end.

(** lock_create and cv_create: the structure and a copy of the name. *)
Definition sync_create s : option nat * sys V :=
  match kmalloc_obj s with
  | (Some a, s) => match kmalloc_obj s with (Some _, s) => (Some a, set_syncs ({[a]} ∪ syncs s) s) | (None, s) => (None, s) end
  | (None, s) => (None, s)
  end.

(** lock_destroy and cv_destroy. *)
Definition sync_destroy (p : option nat) s : outcome (sys V) :=
  match p with
  | None => Panic
  | Some a => if bool_decide (a ∈ syncs s) then Ret (set_syncs (syncs s ∖ {[a]}) s) else Wild
  end.

Definition update_proc (a : nat) (f : process → process) s : outcome (sys V) :=
  p ← deref (procs s) a; Ret (set_procs (<[a := f p]> (procs s)) s).

(** ** process.c *)

(** [contents] is what the memory for the table holds; cell 0 is never set. *)
Definition clear_slot (i : Z) s : outcome (sys V) := t ← wr (proctable s) i None; Ret (set_proctable t s).

Definition proctable_init (contents : list (option nat)) s : outcome (sys V) :=
  let '(m, s) := kmalloc_obj s in
  _ ← nonnull m;
  let '(_, s) := sync_create s in
  for_each (Z.to_nat (MAX_PROCESS - MIN_PROCESS)) MIN_PROCESS clear_slot (set_proctable contents s).

Definition remove_process (pid : Z) s : outcome (sys V) :=
  c ← rd (proctable s) pid;
  kill ← nonnull c;
  p ← deref (procs s) kill;
  s ← sync_destroy (fd_lock p) s;
  let s := set_procs (delete kill (procs s)) s in
  t ← wr (proctable s) pid None;
  Ret (set_proctable t s).

(** The test for an entry that can be taken over. *)
Definition reclaimable (p : process) s : outcome bool :=
  if bool_decide (p_exit p = 1) then
    match p_parent p with
    | None => Ret true
    | Some q => pq ← deref (procs s) q; Ret (bool_decide (p_exit pq = 1))
    end
  else Ret false.

Definition slot_turn (i : Z) s : outcome (sys V + Z * sys V) :=
  c ← rd (proctable s) i;
  match c with
  | None => Ret (inr (i, s))
  | Some a =>
      p ← deref (procs s) a;
      r ← reclaimable p s;
      if (r : bool) then s ← remove_process (PID p) s; Ret (inr (i, s)) else Ret (inl s)
  end.

Definition find_slot s : outcome (Z * sys V) :=
  r ← for_loop (Z.to_nat (MAX_PROCESS - MIN_PROCESS)) MIN_PROCESS slot_turn s;
  Ret (match r with inl s => (0, s) | inr r => r end).

Definition add_process_new s : outcome (option nat * sys V) :=
  '(my_pid, s) ← find_slot s;
  if bool_decide (my_pid = 0) then Ret (None, s)
  else
    let '(m, s) := kmalloc_obj s in
    new ← nonnull m;
    let '(exit_lock, s) := sync_create s in
    let '(ecv, s) := sync_create s in
    let '(pcv, s) := sync_create s in
    let '(fdl, s) := sync_create s in
    let s := set_procs (<[new := Process my_pid None 0 ecv pcv fdl None None]> (procs s)) s in
    t ← wr (proctable s) my_pid (Some new);
    Ret (Some new, set_proctable t s).

(** From the choice of the slot on; nothing keeps another thread from running in
    between. *)
Definition enter_child (my_pid : Z) (parent : option nat) s : outcome (option nat * sys V) :=
  if bool_decide (my_pid = 0) then Ret (None, s)
  else
    let '(m, s) := kmalloc_obj s in
    new ← nonnull m;
    let '(ecv, s) := sync_create s in
    let '(pcv, s) := sync_create s in
    let '(fdl, s) := sync_create s in
    let s := set_procs (<[new := Process my_pid None 0 ecv pcv fdl None parent]> (procs s)) s in
    t ← wr (proctable s) my_pid (Some new);
    Ret (Some new, set_proctable t s).

Definition add_process_child (parent : option nat) s : outcome (option nat * sys V) :=
  '(my_pid, s) ← find_slot s;
  enter_child my_pid parent s.

Definition orphan_turn (pid i : Z) s : outcome (sys V) :=
  c ← rd (proctable s) i;
  match c with
  | None => Ret s
  | Some a =>
      p ← deref (procs s) a;
      match p_parent p with
      | None => Ret s
      | Some q =>
          if bool_decide (i ≠ pid) then
            pq ← deref (procs s) q;
            if bool_decide (PID pq = pid) then
              update_proc a (λ p, Process (PID p) (exit_code p) (p_exit p) (exit_cv p) (proc_cv p) (fd_lock p) (p_table p) None) s
            else Ret s
          else Ret s
      end
  end.

Definition exit_process (pid exitcode : Z) s : outcome (sys V) :=
  c ← rd (proctable s) pid;
  e ← nonnull c;
  s ← update_proc e (λ p, Process (PID p) (Some exitcode) 1 (exit_cv p) (proc_cv p) (fd_lock p) (p_table p) (p_parent p)) s;
  p ← deref (procs s) e;
  match p_parent p with
  | None => Ret s
  | Some _ => for_each (Z.to_nat (MAX_PROCESS - MIN_PROCESS)) MIN_PROCESS (orphan_turn (PID p)) s
  end.

Definition process_get (pid : Z) s : outcome (option nat) :=
  if bool_decide (MIN_PROCESS ≤ pid) && bool_decide (pid ≤ MAX_PROCESS) then rd (proctable s) pid else Ret None.

(** ** fileDescriptor.c

    [cur] is curthread->t_process. *)

Definition my_table (cur : nat) s : outcome (nat * list (option nat)) :=
  p ← deref (procs s) cur;
  t ← nonnull (p_table p);
  fds ← deref (tables s) t;
  Ret (t, fds).

Definition scan_fd (fds : list (option nat)) (fd : Z) (_ : ()) : outcome (() + Z) :=
  c ← rd fds fd; Ret (match c with None => inr fd | Some _ => inl () end).

Definition set_fd (t : nat) (fd : Z) (x : option nat) s : outcome (sys V) :=
  fds ← deref (tables s) t;
  fds ← wr fds fd x;
  Ret (set_tables (<[t := fds]> (tables s)) s).

Definition fd_table_open (cur : nat) (name : list Z) (flag : Z) s : outcome (result Z * sys V) :=
  '(t, fds) ← my_table cur s;
  r ← for_loop (Z.to_nat MAX_FILE_OPEN) 0 (scan_fd fds) ();
  match r with
  | inl _ => Ret (inl EMFILE, s)
  | inr fd =>
      match kmalloc_obj s with
      | (None, s) => Ret (inl ENOMEM, s)
      | (Some f, s) =>
          '(r, v) ← vfs_open name flag (vstate s);
          let s := set_vstate v s in
          match r with
          | inl e => Ret (inl e, s)
          | inr vn =>
              let s := set_files (<[f := File 0 1 flag vn]> (files s)) s in
              '(t, _) ← my_table cur s;
              s ← set_fd t fd (Some f) s;
              Ret (inr fd, s)
          end
      end
  end.

Definition fd_table_get (cur : nat) (fd : Z) s : outcome (result nat) :=
  '(_, fds) ← my_table cur s;
  if bool_decide (fd < 0) || bool_decide (MAX_FILE_OPEN ≤ fd) then Ret (inl EBADF)
  else c ← rd fds fd; Ret (match c with None => inl EBADF | Some f => inr f end).

(** Dropping a reference; the slot is cleared with the last one. *)
Definition drop_ref (t : nat) (fd : Z) (f : nat) s : outcome (sys V) :=
  x ← deref (files s) f;
  let n := f_ref x - 1 in
  if bool_decide (n = 0) then
    v ← vfs_close (f_vn x) (vstate s);
    set_fd t fd None (set_files (delete f (files s)) (set_vstate v s))
  else Ret (set_files (<[f := File (f_offset x) n (f_flag x) (f_vn x)]> (files s)) s).

Definition fd_table_close (cur : nat) (fd : Z) s : outcome (Z * sys V) :=
  r ← fd_table_get cur fd s;
  match r with
  | inl e => Ret (e, s)
  | inr f => '(t, _) ← my_table cur s; s ← drop_ref t fd f s; Ret (0, s)
  end.

(** fd_table_get_me hands back a null pointer for an empty slot. *)
Definition fd_table_get_me (fd : Z) (t : nat) s : outcome (result (option nat)) :=
  if bool_decide (fd < 0) || bool_decide (MAX_FILE_OPEN ≤ fd) then Ret (inl EBADF)
  else fds ← deref (tables s) t; c ← rd fds fd; Ret (inr c).

Definition fd_table_close_me (fd : Z) (t : nat) s : outcome (Z * sys V) :=
  r ← fd_table_get_me fd t s;
  match r with
  | inl e => Ret (e, s)
  | inr c => f ← nonnull c; s ← drop_ref t fd f s; Ret (0, s)
  end.

Definition destroy_turn (cur : nat) (i : Z) s : outcome (sys V) :=
  '(t, fds) ← my_table cur s;
  c ← rd fds i;
  match c with None => Ret s | Some _ => '(_, s) ← fd_table_close cur i s; Ret s end.

Definition fd_table_destroy (cur : nat) s : outcome (sys V) :=
  p ← deref (procs s) cur;
  match p_table p with
  | None => Ret s
  | Some t =>
      s ← for_each (Z.to_nat MAX_FILE_OPEN) 0 (destroy_turn cur) s;
      Ret (set_tables (delete t (tables s)) s)
  end.

Definition destroy_me_turn (t : nat) (i : Z) s : outcome (sys V) :=
  fds ← deref (tables s) t;
  c ← rd fds i;
  match c with None => Ret s | Some _ => '(_, s) ← fd_table_close_me i t s; Ret s end.

Definition fd_table_destroy_me (t : option nat) s : outcome (sys V) :=
  match t with
  | None => Ret s
  | Some t =>
      s ← for_each (Z.to_nat MAX_FILE_OPEN) 0 (destroy_me_turn t) s;
      Ret (set_tables (delete t (tables s)) s)
  end.

(** The string con: *)
Definition con : list Z := [99; 111; 110; 58].

Definition open_std (cur : nat) (i : Z) s : outcome (sys V + Z * sys V) :=
  '(r, s) ← fd_table_open cur con (if bool_decide (i = 0) then O_RDONLY else O_WRONLY) s;
  Ret (match r with inl e => inr (e, s) | inr _ => inl s end).

Definition fd_table_create (cur : nat) s : outcome (Z * sys V) :=
  match kmalloc_obj s with
  | (None, s) => Ret (ENOMEM, s)
  | (Some t, s) =>
      let s := set_tables (<[t := replicate 20 None]> (tables s)) s in
      s ← update_proc cur (λ p, Process (PID p) (exit_code p) (p_exit p) (exit_cv p) (proc_cv p) (fd_lock p) (Some t) (p_parent p)) s;
      r ← for_loop 3 0 (open_std cur) s;
      Ret (match r with inl s => (0, s) | inr r => r end)
  end.

(** ** process_syscall.c *)

Definition getpid (cur : nat) s : outcome Z :=
  p ← deref (procs s) cur;
  c ← rd (proctable s) (PID p);
  Ret (match c with Some _ => PID p | None => -1 end).

(** waitpid after the process has been looked up: errors, the status of a child
    that has exited, or a wait on the child's condition variable. *)
Inductive waited := WaitError (errno : Z) | WaitDone (status : Z) | WaitBlocks.

Definition reap (kid : nat) s : outcome (waited * sys V) :=
  k ← deref (procs s) kid;
  status ← nonnull (exit_code k);
  s ← remove_process (PID k) s;
  Ret (WaitDone status, s).

Definition waitpid_locked (cur : nat) (kid : option nat) s : outcome (waited * sys V) :=
  match kid with
  | None => Ret (WaitError EAGAIN, s)
  | Some kid =>
      k ← deref (procs s) kid;
      if bool_decide (p_parent k ≠ Some cur) then Ret (WaitError ENOMEM, s)
      else if bool_decide (p_exit k = 1) then reap kid s
      else _ ← nonnull (exit_cv k); Ret (WaitBlocks, s)
  end.

(** The loop around cv_wait, each time the thread has the lock again. *)
Definition waitpid_woken (kid : nat) s : outcome (waited * sys V) :=
  k ← deref (procs s) kid;
  if bool_decide (p_exit k = 0) then _ ← nonnull (exit_cv k); Ret (WaitBlocks, s) else reap kid s.

(** Without another thread running between the lookup and the lock. *)
Definition waitpid (cur : nat) (pid options : Z) s : outcome (waited * sys V) :=
  if bool_decide (options ≠ 0) then Ret (WaitError EINVAL, s)
  else kid ← process_get pid s; waitpid_locked cur kid s.

(** Copying one descriptor to the child. *)
Definition share_fd (tp tc : nat) (i : Z) s : outcome (sys V) :=
  fds ← deref (tables s) tp;
  c ← rd fds i;
  s ← set_fd tc i c s;
  match c with
  | None => Ret s
  | Some f =>
      x ← deref (files s) f;
      Ret (set_files (<[f := File (f_offset x) (f_ref x + 1) (f_flag x) (f_vn x)]> (files s)) s)
  end.

(** md_forkentry up to the V on the semaphore, in the thread of the child:
    [as_err] is what as_copy returns, [parent] the process that forks. The
    number is what judge->child_pid holds; with [None] the child thread ends. *)
Definition md_forkentry (as_err : Z) (parent : nat) s : outcome (Z * option nat * sys V) :=
  if bool_decide (as_err ≠ 0) then Ret (ENOMEM, None, s)
  else
    '(c, s) ← add_process_child None s;
    match c with
    | None => Ret (EAGAIN, None, s)
    | Some child =>
        p ← deref (procs s) child;
        let pid := PID p in
        s ← update_proc child (λ p, Process (PID p) (exit_code p) (p_exit p) (exit_cv p) (proc_cv p) (fd_lock p) (p_table p) (Some parent)) s;
        '(result, s) ← fd_table_create child s;
        if bool_decide (result ≠ 0) then
          s ← remove_process pid s;
          Ret (result, None, s)
        else
          '(tp, _) ← my_table parent s;
          '(tc, _) ← my_table child s;
          s ← for_each (Z.to_nat MAX_FILE_OPEN) 0 (share_fd tp tc) s;
          Ret (pid, Some child, s)
    end.

(** sys_fork in the parent, when thread_fork has succeeded and the child has
    done its part: the error number and the value for the user. *)
Definition sys_fork_result (child_pid : Z) : Z * Z :=
  if bool_decide (child_pid ≤ 0) then (ENOMEM, -1) else (0, child_pid).

(** ** file_syscall.c *)

(** _exit with the lock: up to lock_release. *)
Definition exit_locked (cur : nat) (exitcode : Z) s : outcome (sys V) :=
  p ← deref (procs s) cur;
  match p_parent p with
  | None => Ret s
  | Some _ =>
      s ← exit_process (PID p) exitcode s;
      c_assert (bool_decide (exit_cv p ≠ None));;
      s ← sync_destroy (exit_cv p) s;
      p ← deref (procs s) cur;
      sync_destroy (proc_cv p) s
  end.

(** And after it. [exe] is curthread->t_vmspace->v, [None] if that has never been set. *)
Definition exit_close (exe : option Z) s : outcome (sys V) :=
  vn ← nonnull exe;
  v ← vfs_close vn (vstate s);
  Ret (set_vstate v s).

Definition sys__exit (cur : nat) (exitcode : Z) (exe : option Z) s : outcome (sys V) :=
  s ← exit_locked cur exitcode s;
  exit_close exe s.

(** How load_elf ends; an error of its second pass leaves the vnode in the address space. *)
Inductive loaded := Loaded | LoadFails (errno : Z) (late : bool).

(** runprogram up to the stack: the program stays open. *)
Definition open_program (name : list Z) (l : loaded) s : outcome (result Z * sys V) :=
  '(r, v) ← vfs_open name O_RDONLY (vstate s);
  let s := set_vstate v s in
  match r with
  | inl e => Ret (inl e, s)
  | inr vn =>
      match l with
      | Loaded => Ret (inr vn, s)
      | LoadFails e _ => v ← vfs_close vn (vstate s); Ret (inl e, set_vstate v s)
      end
  end.

(** execv from vfs_open to the stack, with the error number and the vnode in the address space of the thread
    afterwards, [exe] being the one before. *)
Definition execv_program (name : list Z) (l : loaded) (exe : option Z) s : outcome (Z * option Z * sys V) :=
  '(r, v) ← vfs_open name O_RDONLY (vstate s);
  let s := set_vstate v s in
  match r with
  | inl e => Ret (e, exe, s)
  | inr vn =>
      v ← vfs_close vn (vstate s);
      let s := set_vstate v s in
      Ret (match l with
           | Loaded => (0, Some vn, s)
           | LoadFails e late => (e, if late then Some vn else None, s)
           end)
  end.

Definition valid_fd (cur : nat) (fd : Z) s : outcome (option nat) :=
  if bool_decide (fd < 0) || bool_decide (MAX_FILE_OPEN ≤ fd) then Ret None
  else '(_, fds) ← my_table cur s; rd fds fd.

Definition set_offset (f : nat) (off : Z) s : outcome (sys V) :=
  x ← deref (files s) f;
  Ret (set_files (<[f := File off (f_ref x) (f_flag x) (f_vn x)]> (files s)) s).

(** The user's buffer is described as kernel memory. *)
Definition sys_write (cur : nat) (fd buf nbytes : Z) (m : memory) s : outcome (result Z * memory * sys V) :=
  c ← valid_fd cur fd s;
  match c with
  | None => Ret (inl EBADF, m, s)
  | Some f =>
      if bool_decide (buf = 0) || bool_decide (buf = 0x40000000) || bool_decide (buf = 0x80000000) then Ret (inl EFAULT, m, s)
      else
        x ← deref (files s) f;
        let u := mk_kuio buf nbytes (f_offset x) UIO_WRITE in
        if bool_decide (f_flag x = O_RDONLY) then Ret (inl EBADF, m, s)
        else
          '(e, (m, u, v)) ← VOP_WRITE (f_vn x) m u (vstate s);
          let s := set_vstate v s in
          if bool_decide (e ≠ 0) then Ret (inl e, m, s)
          else s ← set_offset f (uio_offset u) s; Ret (inr (s32 (nbytes - uio_resid u)), m, s)
  end.

Definition sys_read (cur : nat) (fd buf nbytes : Z) (m : memory) s : outcome (result Z * memory * sys V) :=
  if bool_decide (fd < 0) || bool_decide (MAX_FILE_OPEN ≤ fd) then Ret (inl EBADF, m, s)
  else if bool_decide (buf = 0) then Ret (inl EFAULT, m, s)
  else
    '(_, fds) ← my_table cur s;
    c ← rd fds fd;
    match c with
    | None => Ret (inl EBADF, m, s)
    | Some f =>
        x ← deref (files s) f;
        if bool_decide (f_flag x = O_WRONLY) then Ret (inl EBADF, m, s)
        else
          let u := mk_kuio buf nbytes (f_offset x) UIO_READ in
          '(e, (m, u, v)) ← VOP_READ (f_vn x) m u (vstate s);
          let s := set_vstate v s in
          if bool_decide (e ≠ 0) then Ret (inl e, m, s)
          else s ← set_offset f (uio_offset u) s; Ret (inr (s32 (nbytes - uio_resid u)), m, s)
    end.

(** The path is copied in for the check only; fd_table_open gets the user's
    pointer. *)
Definition PATH_MAX : Z := 1024.
Definition sys_open (present : Z → bool) (cur : nat) (filename flags : Z) (m : memory) s : outcome (result Z * sys V) :=
  let '(e, str) := copyinstr present m filename PATH_MAX in
  if bool_decide (e ≠ 0) then Ret (inl e, s) else fd_table_open cur (removelast str) flags s.

Definition sys_close (cur : nat) (fd : Z) s : outcome (Z * sys V) :=
  c ← valid_fd cur fd s;
  match c with
  | None => Ret (EBADF, s)
  | Some _ => '(e, s) ← fd_table_close cur fd s; Ret (if bool_decide (e ≠ 0) then -1 else 0, s)
  end.
End process.
