(* ===== verification/ProcessSpec.v ===== *)
(** * Specification of processes and descriptors

    The invariant [pinv] of the process table and the structures it leads to,
    and the effect of each operation on it, when kmalloc does not fail. *)

From S2P Require Import Prelude KHeap KHeapSpec Coremap Uio Process.

Section spec.
Context {V : Type} `{Vfs V}.
Implicit Types (s : sys V) (p : process) (a b : nat).

(** ** The invariant *)

(** The locks and condition variables a process still has. *)
Definition own_syncs p : list nat :=
  omap id (fd_lock p :: if decide (p_exit p = 0) then [exit_cv p; proc_cv p] else []).

Record proc_ok (s : sys V) a p : Prop := {
  po_pid : 1 ≤ PID p < 100;
  po_slot : proctable s !! Z.to_nat (PID p) = Some (Some a);
  po_parent : ∀ q, p_parent p = Some q → q ≠ a ∧ ∃ pq, procs s !! q = Some pq ∧ p_exit pq = 0;
  po_exit : p_exit p = 0 ∨ (p_exit p = 1 ∧ is_Some (exit_code p));
  po_lock : is_Some (fd_lock p);
  po_cvs : p_exit p = 0 → is_Some (exit_cv p) ∧ is_Some (proc_cv p);
  po_nodup : NoDup (own_syncs p);
  po_syncs : ∀ x, x ∈ own_syncs p → x ∈ syncs s;
  po_fresh : (a < nalloc s)%nat
}.

Record pinv (s : sys V) : Prop := {
  pi_len : length (proctable s) = 100%nat;
  pi_slot : ∀ i a, (1 ≤ i)%nat → proctable s !! i = Some (Some a) → ∃ p, procs s !! a = Some p ∧ PID p = Z.of_nat i;
  pi_proc : ∀ a p, procs s !! a = Some p → proc_ok s a p;
  pi_apart : ∀ a b p q, procs s !! a = Some p → procs s !! b = Some q → a ≠ b → ∀ x, x ∈ own_syncs p → x ∉ own_syncs q;
  pi_syncs : ∀ x, x ∈ syncs s → (x < nalloc s)%nat
}.

Lemma pid_inj s a b p q : pinv s → procs s !! a = Some p → procs s !! b = Some q → PID p = PID q → a = b.
Proof.
  intros Hi Ha Hb Heq. pose proof (po_slot _ _ _ (pi_proc s Hi a p Ha)) as H1.
  pose proof (po_slot _ _ _ (pi_proc s Hi b q Hb)) as H2. rewrite Heq in H1. congruence.
Qed.

Lemma rd_slot s p a : pinv s → procs s !! a = Some p → rd (proctable s) (PID p) = Ret (Some a).
Proof.
  intros Hi Ha. destruct (pi_proc s Hi a p Ha) as [Hp Hs _ _ _ _ _ _ _]. apply rd_lookup; [lia|done].
Qed.

Lemma deref_Some {A} (h : gmap nat A) a x : h !! a = Some x → deref h a = Ret x.
Proof. unfold deref. by intros ->. Qed.

(** A slot is empty or holds a process with that number. *)
Lemma slot_cases s i : pinv s → 1 ≤ i < 100 →
  rd (proctable s) i = Ret None ∨ ∃ a p, rd (proctable s) i = Ret (Some a) ∧ procs s !! a = Some p ∧ PID p = i.
Proof.
  intros Hi Hr. destruct (rd_in_range (proctable s) i) as (c & Hrd & Hc); [rewrite (pi_len s Hi); lia|].
  destruct c as [a|]; [right|by left]. destruct (pi_slot s Hi (Z.to_nat i) a) as (p & Hp & Hpid); [lia|done|].
  exists a, p. split; [done|]. split; [done|lia].
Qed.

(** ** Removing a process *)

Definition removed a p s : sys V :=
  Sys (delete a (procs s)) (syncs s ∖ list_to_set (omap id [fd_lock p])) (files s) (tables s)
      (<[Z.to_nat (PID p) := None]> (proctable s)) (nalloc s) (vstate s).

Lemma removed_proc_ok s a p b pb : pinv s → procs s !! a = Some p → (∀ c pc, procs s !! c = Some pc → p_parent pc ≠ Some a) →
  procs s !! b = Some pb → b ≠ a → proc_ok (removed a p s) b pb.
Proof.
  intros Hi Ha Hkids Hb Hne. destruct (pi_proc s Hi b pb Hb) as [Hp Hslot Hpar He Hl Hc Hnd Hsy Hf].
  pose proof (pi_proc s Hi a p Ha) as [Hpa Hslota _ _ _ _ _ _ _]. split; try done; simpl.
  - rewrite list_lookup_insert_ne; [done|]. intros Heq. rewrite Heq in Hslota. congruence.
  - intros q Hq. destruct (Hpar q Hq) as (? & pq & Hpq & Hex). split; [done|]. exists pq. split; [|done].
    rewrite lookup_delete_ne; [done|]. intros ->. by apply (Hkids b pb Hb).
  - intros x Hx. apply elem_of_difference. split; [by apply Hsy|]. intros Hin.
    assert (Hxp : x ∈ own_syncs p) by (unfold own_syncs; destruct (fd_lock p); set_solver).
    by apply (pi_apart s Hi a b p pb Ha Hb (not_eq_sym Hne) x Hxp).
Qed.

Lemma remove_process_ok s a p : pinv s → procs s !! a = Some p → (∀ b q, procs s !! b = Some q → p_parent q ≠ Some a) →
  remove_process (PID p) s = Ret (removed a p s) ∧ pinv (removed a p s).
Proof.
  intros Hi Ha Hkids. pose proof (pi_proc s Hi a p Ha) as [Hp Hs _ _ [l Hl] _ _ Hsy _].
  assert (Hlive : l ∈ syncs s) by (apply Hsy; unfold own_syncs; rewrite Hl; by left). split.
  - unfold remove_process. rewrite (rd_slot s p a) by done. ostep. simpl. rewrite (deref_Some _ _ _ Ha). ostep.
    unfold sync_destroy. rewrite Hl, bool_decide_eq_true_2 by done. ostep. cbn [proctable set_procs set_syncs procs].
    rewrite wr_in_range by (rewrite (pi_len s Hi); lia). ostep. unfold removed. rewrite Hl. simpl. by rewrite union_empty_r_L.
  - split; simpl.
    + rewrite length_insert. apply (pi_len s Hi).
    + intros i b Hge Hb. destruct (decide (i = Z.to_nat (PID p))) as [->|Hne].
      { rewrite list_lookup_insert_eq in Hb by (rewrite (pi_len s Hi); lia). done. }
      rewrite list_lookup_insert_ne in Hb by done. destruct (pi_slot s Hi i b Hge Hb) as (q & Hq & Hpq). exists q.
      rewrite lookup_delete_ne; [done|]. intros <-. simplify_eq. lia.
    + intros b pb [Hne Hb]%lookup_delete_Some. apply removed_proc_ok; done.
    + intros b c pb pc [_ Hb]%lookup_delete_Some [_ Hc]%lookup_delete_Some. by apply (pi_apart s Hi).
    + intros x [Hx _]%elem_of_difference. by apply (pi_syncs s Hi).
Qed.

(** ** Finding a slot *)

(** Only processes that have exited and have no parent are removed. *)
Record reclaims (s s' : sys V) : Prop := {
  rc_some : ∀ a p, procs s !! a = Some p → p_exit p = 0 ∨ p_parent p ≠ None → procs s' !! a = Some p;
  rc_sub : procs s' ⊆ procs s;
  rc_files : files s' = files s;
  rc_tables : tables s' = tables s;
  rc_nalloc : nalloc s' = nalloc s;
  rc_vstate : vstate s' = vstate s
}.

Lemma reclaims_refl s : reclaims s s.
Proof. by split. Qed.

Lemma reclaimable_ok s a p : pinv s → procs s !! a = Some p →
  reclaimable p s = Ret (bool_decide (p_exit p = 1 ∧ p_parent p = None)).
Proof.
  intros Hi Ha. unfold reclaimable. case_bool_decide as He; [|by rewrite bool_decide_eq_false_2 by tauto].
  destruct (p_parent p) as [q|] eqn:Hq; [|by rewrite bool_decide_eq_true_2].
  destruct (po_parent _ _ _ (pi_proc s Hi a p Ha) q Hq) as (_ & pq & Hpq & Hex). rewrite (deref_Some _ _ _ Hpq). ostep.
  rewrite !bool_decide_eq_false_2 by naive_solver lia. done.
Qed.

Lemma childless s a p : pinv s → procs s !! a = Some p → p_exit p = 1 → ∀ b q, procs s !! b = Some q → p_parent q ≠ Some a.
Proof.
  intros Hi Ha He b q Hb Hq. destruct (po_parent _ _ _ (pi_proc s Hi b q Hb) a Hq) as (_ & pa & Hpa & ?). simplify_eq. lia.
Qed.

Lemma slot_turn_ok s i : pinv s → 1 ≤ i < 100 →
  (∃ a p, slot_turn i s = Ret (inl s) ∧ proctable s !! Z.to_nat i = Some (Some a) ∧ procs s !! a = Some p ∧ ¬ (p_exit p = 1 ∧ p_parent p = None)) ∨
  (∃ s', slot_turn i s = Ret (inr (i, s')) ∧ pinv s' ∧ reclaims s s' ∧ proctable s' !! Z.to_nat i = Some None).
Proof.
  intros Hi Hr. unfold slot_turn. destruct (slot_cases s i Hi Hr) as [Hrd|(a & p & Hrd & Hp & Hpid)]; rewrite Hrd; ostep.
  { right. exists s. apply rd_Ret in Hrd as [_ Hrd]. split_and!; done || apply reclaims_refl. }
  rewrite (deref_Some _ _ _ Hp). ostep. rewrite (reclaimable_ok s a p) by done. ostep. case_bool_decide as Hc.
  - destruct (remove_process_ok s a p Hi Hp) as [-> Hinv]; [apply (childless s a p); naive_solver|]. ostep. right.
    eexists. split; [done|]. split; [done|]. split.
    + split; try done; simpl; [|apply delete_subseteq]. intros b q Hb Hcond. rewrite lookup_delete_ne; [done|]. naive_solver lia.
    + simpl. rewrite Hpid, list_lookup_insert_eq; [done|]. rewrite (pi_len s Hi). lia.
  - left. exists a, p. apply rd_Ret in Hrd as [_ Hrd]. done.
Qed.

Lemma find_slot_ok s : pinv s → ∃ pid s', find_slot s = Ret (pid, s') ∧ pinv s' ∧ reclaims s s' ∧
  ((pid = 0 ∧ s' = s ∧ ∀ i, 1 ≤ i < 100 → ∃ a p, proctable s !! Z.to_nat i = Some (Some a) ∧ procs s !! a = Some p ∧
      ¬ (p_exit p = 1 ∧ p_parent p = None)) ∨
   (1 ≤ pid < 100 ∧ proctable s' !! Z.to_nat pid = Some None)).
Proof.
  intros Hi. unfold find_slot. change (Z.to_nat (MAX_PROCESS - MIN_PROCESS)) with 99%nat.
  destruct (for_loop_inv (λ i t, t = s ∧ ∀ k, 1 ≤ k < i → ∃ a p, proctable s !! Z.to_nat k = Some (Some a) ∧ procs s !! a = Some p ∧
      ¬ (p_exit p = 1 ∧ p_parent p = None))
    (λ r, pinv r.2 ∧ reclaims s r.2 ∧ 1 ≤ r.1 < 100 ∧ proctable r.2 !! Z.to_nat r.1 = Some None) slot_turn 99 MIN_PROCESS s)
    as [(s' & -> & -> & Hall)|([pid s'] & -> & Hinv & Hrc & Hr & Hn)].
  - split; [done|]. intros k. unfold MIN_PROCESS. lia.
  - intros j t Hj [-> Hall]. unfold MIN_PROCESS in Hj. destruct (slot_turn_ok s j Hi) as [(a & p & -> & Hx)|(s' & -> & Hx)]; [lia| |].
    + left. exists s. split; [done|]. split; [done|]. intros k Hk. destruct (decide (k = j)) as [->|]; [by exists a, p|]. apply Hall. lia.
    + right. eexists. split; [done|]. simpl. split_and!; naive_solver lia.
  - ostep. exists 0, s. split; [done|]. split; [done|]. split; [apply reclaims_refl|]. left. done.
  - ostep. simpl in *. exists pid, s'. split_and!; try done. by right.
Qed.

(** ** Entering a process *)

(** [a] joins the table under [pid] with new synchronization objects. *)
Lemma entered_ok s s' a pid par e c l : pinv s → 1 ≤ pid < 100 → proctable s !! Z.to_nat pid = Some None →
  (∀ q, par = Some q → ∃ pq, procs s !! q = Some pq ∧ p_exit pq = 0) →
  (nalloc s ≤ a)%nat → NoDup [l; e; c] → (∀ x, x ∈ [l; e; c] → (nalloc s ≤ x)%nat ∧ x ∈ syncs s') →
  syncs s ⊆ syncs s' → (∀ x, x ∈ syncs s' → (x < nalloc s')%nat) → (a < nalloc s')%nat → (nalloc s ≤ nalloc s')%nat →
  procs s' = <[a := Process pid None 0 (Some e) (Some c) (Some l) None par]> (procs s) →
  proctable s' = <[Z.to_nat pid := Some a]> (proctable s) → pinv s'.
Proof.
  intros Hi Hpid Hfree Hpar Ha Hnd Hx Hsub Hb Ha' Hn Hprocs Htab.
  assert (Hnew : procs s !! a = None).
  { destruct (procs s !! a) as [p|] eqn:Hp; [|done]. pose proof (po_fresh _ _ _ (pi_proc s Hi a p Hp)). lia. }
  assert (Hold : ∀ b p, procs s !! b = Some p → b ≠ a) by (intros b p ? ->; congruence).
  assert (Hown : own_syncs (Process pid None 0 (Some e) (Some c) (Some l) None par) = [l; e; c]) by done.
  split.
  - rewrite Htab, length_insert. apply (pi_len s Hi).
  - intros i b Hge. rewrite Htab, Hprocs. destruct (decide (i = Z.to_nat pid)) as [->|Hne].
    + rewrite list_lookup_insert_eq by (rewrite (pi_len s Hi); lia). intros [= ->]. eexists. rewrite lookup_insert_eq. split; [done|]. simpl. lia.
    + rewrite list_lookup_insert_ne by done. intros Hs. destruct (pi_slot s Hi i b Hge Hs) as (p & Hp & ?). exists p.
      rewrite lookup_insert_ne by (symmetry; by eapply Hold). done.
  - intros b p. rewrite Hprocs. intros [[<- <-]|[Hne Hp]]%lookup_insert_Some.
    + split; simpl; [done|by rewrite Htab, list_lookup_insert_eq by (rewrite (pi_len s Hi); lia)| |by left|by eexists|by repeat eexists|by rewrite Hown| |done].
      * intros q Hq. destruct (Hpar q Hq) as (pq & Hpq & He). split; [by eapply Hold|]. exists pq. rewrite Hprocs, lookup_insert_ne; [done|].
        symmetry. by eapply Hold.
      * rewrite Hown. intros x Hin. by apply Hx.
    + destruct (pi_proc s Hi b p Hp) as [Hp1 Hs1 Hpar1 He1 Hl1 Hc1 Hnd1 Hsy1 Hf1]. split; try done.
      * rewrite Htab, list_lookup_insert_ne; [done|]. intros Heq. rewrite <- Heq in Hs1. congruence.
      * intros q Hq. destruct (Hpar1 q Hq) as (? & pq & Hpq & He). split; [done|]. exists pq. rewrite Hprocs, lookup_insert_ne; [done|]. symmetry. by eapply Hold.
      * intros x Hin. apply Hsub. by apply Hsy1.
      * lia.
  - assert (Holdx : ∀ b p x, procs s !! b = Some p → x ∈ own_syncs p → x ∉ [l; e; c]).
    { intros b p x Hp Hin Hin'. apply Hx in Hin' as [? _].
      pose proof (pi_syncs s Hi x (po_syncs _ _ _ (pi_proc s Hi b p Hp) x Hin)). lia. }
    intros b b' p p'. rewrite Hprocs. intros [[<- <-]|[_ Hp]]%lookup_insert_Some [[<- <-]|[_ Hp']]%lookup_insert_Some Hne x; try done.
    + rewrite Hown. intros Hin Hin'. by apply (Holdx b' p' x).
    + rewrite Hown. by apply (Holdx b p).
    + by apply (pi_apart s Hi b b').
  - done.
Qed.

(** Allocation does not fail. *)
Section mem.
Context (nomem : nat → bool) (Hmem : ∀ n, nomem n = false).

Definition bump (k : nat) (x : gset nat) s : sys V :=
  Sys (procs s) (x ∪ syncs s) (files s) (tables s) (proctable s) (k + nalloc s) (vstate s).

Lemma kmalloc_obj_ok s : kmalloc_obj nomem s = (Some (nalloc s), bump 1 ∅ s).
Proof. unfold kmalloc_obj, bump. rewrite Hmem. by rewrite union_empty_l_L. Qed.

Lemma sync_create_ok s : sync_create nomem s = (Some (nalloc s), bump 2 {[nalloc s]} s).
Proof.
  unfold sync_create. rewrite !kmalloc_obj_ok. unfold bump, set_syncs. simpl. by rewrite !union_empty_l_L.
Qed.

(** What a new process looks like in the table. *)
Definition joins (s : sys V) (pid : Z) (par : option nat) (a : nat) (s' : sys V) : Prop :=
  (nalloc s ≤ a < nalloc s')%nat ∧ proctable s' = <[Z.to_nat pid := Some a]> (proctable s) ∧
  (∃ e c l, procs s' = <[a := Process pid None 0 (Some e) (Some c) (Some l) None par]> (procs s)) ∧
  files s' = files s ∧ tables s' = tables s ∧ vstate s' = vstate s.

Lemma enter_child_ok s pid par : pinv s → 1 ≤ pid < 100 → proctable s !! Z.to_nat pid = Some None →
  (∀ q, par = Some q → ∃ pq, procs s !! q = Some pq ∧ p_exit pq = 0) →
  ∃ a s', enter_child nomem pid par s = Ret (Some a, s') ∧ pinv s' ∧ joins s pid par a s'.
Proof.
  intros Hi Hpid Hfree Hpar. unfold enter_child. rewrite bool_decide_eq_false_2 by lia. rewrite kmalloc_obj_ok. cbn [nonnull]. ostep.
  rewrite !sync_create_ok. cbn [proctable bump set_procs nalloc procs]. pose proof (pi_len s Hi) as Hlen.
  rewrite wr_in_range by lia. ostep. eexists _, _. split; [reflexivity|]. split.
  - eapply (entered_ok s _ (nalloc s) pid par); simpl; try done; try lia.
    + repeat constructor; set_solver by lia.
    + intros x Hx. set_solver by lia.
    + set_solver.
    + intros x Hx. assert (x ∈ syncs s → (x < nalloc s)%nat) by apply (pi_syncs s Hi). set_solver by lia.
  - split_and!; simpl; try done; try lia. by eexists _, _, _.
Qed.

Lemma add_process_new_ok s : pinv s → ∃ r s', add_process_new nomem s = Ret (r, s') ∧ pinv s' ∧
  match r with
  | None => s' = s
  | Some a => ∃ pid s1, 1 ≤ pid < 100 ∧ pinv s1 ∧ reclaims s s1 ∧ joins s1 pid None a s'
  end.
Proof.
  intros Hi. destruct (find_slot_ok s Hi) as (pid & s1 & Hrun & Hi1 & Hrc & Hcase). unfold add_process_new. rewrite Hrun. ostep.
  destruct Hcase as [(-> & -> & _)|[Hpid Hfree]].
  { rewrite bool_decide_eq_true_2 by done. by exists None, s. }
  rewrite bool_decide_eq_false_2 by lia. rewrite kmalloc_obj_ok. cbn [nonnull]. ostep.
  rewrite !sync_create_ok. cbn [proctable bump set_procs nalloc procs]. pose proof (pi_len s1 Hi1) as Hlen.
  rewrite wr_in_range by lia. ostep. eexists _, _. split; [reflexivity|]. split.
  - eapply (entered_ok s1 _ (nalloc s1) pid None); simpl; try done; try lia.
    + repeat constructor; set_solver by lia.
    + intros x Hx. set_solver by lia.
    + set_solver.
    + intros x Hx. assert (x ∈ syncs s1 → (x < nalloc s1)%nat) by apply (pi_syncs s1 Hi1). set_solver by lia.
  - exists pid, s1. split_and!; simpl; try done; try lia. split_and!; simpl; try done; try lia. by eexists _, _, _.
Qed.

Lemma add_process_child_ok s : pinv s → ∃ r s', add_process_child nomem None s = Ret (r, s') ∧ pinv s' ∧
  match r with
  | None => s' = s ∧ ∀ i, 1 ≤ i < 100 → ∃ a p, proctable s !! Z.to_nat i = Some (Some a) ∧ procs s !! a = Some p ∧ ¬ (p_exit p = 1 ∧ p_parent p = None)
  | Some a => ∃ pid s1, 1 ≤ pid < 100 ∧ pinv s1 ∧ reclaims s s1 ∧ joins s1 pid None a s'
  end.
Proof.
  intros Hi. destruct (find_slot_ok s Hi) as (pid & s1 & Hrun & Hi1 & Hrc & Hcase). unfold add_process_child. rewrite Hrun. ostep.
  destruct Hcase as [(-> & -> & Hfull)|[Hpid Hfree]].
  { unfold enter_child. rewrite bool_decide_eq_true_2 by done. by exists None, s. }
  destruct (enter_child_ok s1 pid None Hi1 Hpid Hfree) as (a & s' & -> & Hi' & Hj); [done|]. exists (Some a), s'. split_and!; try done.
  by exists pid, s1.
Qed.
End mem.

(** ** Exit *)

Definition cleared p : process := Process (PID p) (exit_code p) (p_exit p) (exit_cv p) (proc_cv p) (fd_lock p) (p_table p) None.
Definition exited (c : Z) p : process := Process (PID p) (Some c) 1 (exit_cv p) (proc_cv p) (fd_lock p) (p_table p) (p_parent p).

(** The children of [a] with a number below [n] have lost their parent. *)
Definition orphan a (n : Z) p : process := if decide (PID p < n ∧ p_parent p = Some a) then cleared p else p.
Definition orphaned a (n : Z) (m : gmap nat process) : gmap nat process := orphan a n <$> m.

Lemma orphan_pid a n p : PID (orphan a n p) = PID p.
Proof. unfold orphan. by case_decide. Qed.

Lemma orphaned_skip a n m : (∀ b p, m !! b = Some p → PID p = n → p_parent p ≠ Some a) → orphaned a (n + 1) m = orphaned a n m.
Proof.
  intros Hm. apply map_eq. intros b. unfold orphaned. rewrite !lookup_fmap. destruct (m !! b) as [p|] eqn:Hp; [|done]. simpl. f_equal.
  unfold orphan. specialize (Hm b p Hp). destruct (decide (PID p = n)); [by rewrite !decide_False by tauto|].
  assert (PID p < n + 1 ↔ PID p < n) by lia. do 2 case_decide; tauto || done.
Qed.

Lemma orphaned_clear a n m b p : m !! b = Some p → PID p = n → p_parent p = Some a →
  (∀ b' p', m !! b' = Some p' → PID p' = n → b' = b) → orphaned a (n + 1) m = <[b := cleared p]> (orphaned a n m).
Proof.
  intros Hp Hn Hpar Hu. apply map_eq. intros b'. unfold orphaned. destruct (decide (b' = b)) as [->|Hne].
  - rewrite lookup_insert_eq, lookup_fmap, Hp. simpl. f_equal. unfold orphan. rewrite decide_True by (split; [lia|done]). done.
  - rewrite lookup_insert_ne, !lookup_fmap by done. destruct (m !! b') as [p'|] eqn:Hp'; [|done]. simpl. f_equal.
    specialize (Hu b' p' Hp'). unfold orphan. assert (PID p' < n + 1 ↔ PID p' < n) by (destruct (decide (PID p' = n)); [tauto|lia]).
    do 2 case_decide; tauto || done.
Qed.

Lemma orphaned_0 a m : (∀ b p, m !! b = Some p → 1 ≤ PID p) → orphaned a 1 m = m.
Proof.
  intros Hm. apply map_eq. intros b. unfold orphaned. rewrite lookup_fmap. destruct (m !! b) as [p|] eqn:Hp; [|done]. simpl.
  specialize (Hm b p Hp). unfold orphan. rewrite decide_False by lia. done.
Qed.

(** A process that has kept its number and its synchronization objects, but for
    the condition variables of one that has exited. *)
Record fits p p' : Prop := {
  ft_pid : PID p' = PID p;
  ft_lock : fd_lock p' = fd_lock p;
  ft_exit : p_exit p' = p_exit p ∨ (p_exit p' = 1 ∧ is_Some (exit_code p'));
  ft_code : p_exit p' = p_exit p → exit_code p' = exit_code p;
  ft_cvs : exit_cv p' = exit_cv p ∧ proc_cv p' = proc_cv p
}.

Lemma fits_refl p : fits p p.
Proof. split; auto. Qed.

Lemma fits_syncs p p' : fits p p' → sublist (own_syncs p') (own_syncs p).
Proof.
  intros [_ Hl Hx _ [He Hc]]. unfold own_syncs. rewrite Hl, He, Hc. destruct Hx as [->|[-> _]]; [done|].
  rewrite (decide_False (P := 1 = 0)) by done. case_decide; destruct (fd_lock p), (exit_cv p), (proc_cv p); simpl; repeat constructor.
Qed.

Lemma pinv_fit s s' : pinv s → proctable s' = proctable s → (nalloc s ≤ nalloc s')%nat →
  (∀ b, procs s' !! b = None → procs s !! b = None) →
  (∀ b p', procs s' !! b = Some p' → ∃ p, procs s !! b = Some p ∧ fits p p' ∧
     (∀ q, p_parent p' = Some q → q ≠ b ∧ ∃ pq, procs s' !! q = Some pq ∧ p_exit pq = 0) ∧
     ∀ x, x ∈ own_syncs p' → x ∈ syncs s') →
  (∀ x, x ∈ syncs s' → (x < nalloc s')%nat) → pinv s'.
Proof.
  intros Hi Htab Hn Hdom Hp Hs. split.
  - rewrite Htab. apply (pi_len s Hi).
  - intros i a Hge Ha. rewrite Htab in Ha. destruct (pi_slot s Hi i a Hge Ha) as (p & Hpa & Hpid).
    destruct (procs s' !! a) as [p'|] eqn:Ha'; [|by rewrite Hdom in Hpa]. exists p'. split; [done|].
    destruct (Hp a p' Ha') as (p0 & Hp0 & Hfit & _). simplify_eq. rewrite (ft_pid _ _ Hfit). done.
  - intros a p' Ha. destruct (Hp a p' Ha) as (p & Hpa & Hfit & Hpar & Hsy).
    destruct (pi_proc s Hi a p Hpa) as [H1 H2 H3 H4 H5 H6 H7 H8 H9]. pose proof Hfit as [E1 E2 E3 E4 [E5 E6]].
    split; try done; try (rewrite ?Htab, ?E1, ?E2; done); try lia.
    + destruct E3 as [E|?]; [rewrite E, (E4 E); done|by right].
    + rewrite E5, E6. intros E0. apply H6. destruct E3 as [<-|[E3 _]]; [done|lia].
    + eapply sublist_NoDup; [exact H7|by apply fits_syncs].
  - intros a b p q Ha Hb Hne x Hx Hy. destruct (Hp a p Ha) as (p0 & Ha0 & Hfp & _), (Hp b q Hb) as (q0 & Hb0 & Hfq & _).
    apply (pi_apart s Hi a b p0 q0 Ha0 Hb0 Hne x); (eapply elem_of_sublist; [|by apply fits_syncs]; done).
  - done.
Qed.

Section exit.
Context (s : sys V) (a : nat) (p : process) (c : Z) (q : nat).
Context (Hi : pinv s) (Ha : procs s !! a = Some p) (He : p_exit p = 0) (Hq : p_parent p = Some q).

Let m1 := <[a := exited c p]> (procs s).

Lemma exit_lookup b pb : m1 !! b = Some pb → ∃ p0, procs s !! b = Some p0 ∧ PID p0 = PID pb ∧ p_parent p0 = p_parent pb ∧ fd_lock p0 = fd_lock pb.
Proof.
  unfold m1. intros [[<- <-]|[_ Hb]]%lookup_insert_Some; [by exists p|by exists pb].
Qed.

Lemma exit_unique b b' pb pb' : m1 !! b = Some pb → m1 !! b' = Some pb' → PID pb = PID pb' → b = b'.
Proof.
  intros (p0 & H0 & E0 & _)%exit_lookup (p1 & H1 & E1 & _)%exit_lookup Heq. eapply pid_inj; [done..|congruence].
Qed.

Lemma orphan_turn_ok i : 1 ≤ i < 100 →
  orphan_turn (PID p) i (set_procs (orphaned a i m1) s) = Ret (set_procs (orphaned a (i + 1) m1) s).
Proof.
  intros Hr. unfold orphan_turn. cbn [proctable procs set_procs].
  destruct (slot_cases s i Hi Hr) as [Hrd|(b & pb0 & Hrd & Hb0 & Hpid)]; rewrite Hrd; ostep.
  { rewrite orphaned_skip; [done|]. intros b pb (p0 & Hp0 & E & _)%exit_lookup Hn. rewrite <- E in Hn.
    rewrite <- Hn, (rd_slot s p0 b) in Hrd by done. done. }
  assert (∃ pb, m1 !! b = Some pb ∧ PID pb = i ∧ p_parent pb = p_parent pb0) as (pb & Hb & Hpb & Hpar).
  { unfold m1. destruct (decide (b = a)) as [->|]; [exists (exited c p)|exists pb0]; simplify_eq.
    - by rewrite lookup_insert_eq.
    - by rewrite lookup_insert_ne by done. }
  assert (Hlook : orphaned a i m1 !! b = Some pb).
  { unfold orphaned. rewrite lookup_fmap, Hb. simpl. unfold orphan. rewrite decide_False by lia. done. }
  rewrite (deref_Some _ _ _ Hlook). ostep.
  assert (Hskip : p_parent pb ≠ Some a → orphaned a (i + 1) m1 = orphaned a i m1).
  { intros Hne. apply orphaned_skip. intros b' pb' Hb' Hn. rewrite (exit_unique b' b pb' pb) in Hb' by (done || congruence). congruence. }
  destruct (p_parent pb) as [q'|] eqn:Hq'; [|by rewrite Hskip].
  destruct (po_parent _ _ _ (pi_proc s Hi b pb0 Hb0) q') as (Hself & pq0 & Hpq0 & _); [congruence|].
  case_bool_decide as Hne.
  2:{ rewrite Hskip; [done|]. intros [= ->]. apply Hself. apply (pid_inj s a b p pb0); congruence. }
  assert (∃ pq, orphaned a i m1 !! q' = Some pq ∧ PID pq = PID pq0) as (pq & Hpq & Hpid').
  { unfold orphaned, m1. rewrite lookup_fmap. destruct (decide (q' = a)) as [->|].
    - rewrite lookup_insert_eq. simpl. eexists. split; [done|]. rewrite orphan_pid. simpl. congruence.
    - rewrite lookup_insert_ne, Hpq0 by done. simpl. eexists. split; [done|]. apply orphan_pid. }
  rewrite (deref_Some _ _ _ Hpq). ostep. case_bool_decide as Hmine.
  - assert (q' = a) as -> by (apply (pid_inj s q' a pq0 p); congruence).
    unfold update_proc. cbn [procs set_procs]. rewrite (deref_Some _ _ _ Hlook). ostep.
    rewrite (orphaned_clear a i m1 b pb); try done. intros b' p' Hb' Hn. apply (exit_unique b' b p' pb); congruence.
  - rewrite Hskip; [done|]. intros [= ->]. apply Hmine. rewrite Hpid'. congruence.
Qed.

Definition after_exit : sys V := set_procs (orphaned a 100 m1) s.

Lemma exit_process_ok : exit_process (PID p) c s = Ret after_exit.
Proof.
  unfold exit_process. rewrite (rd_slot s p a) by done. ostep. cbn [nonnull]. ostep.
  unfold update_proc. rewrite (deref_Some _ _ _ Ha). ostep. change (set_procs _ s) with (set_procs m1 s).
  cbn [procs set_procs]. assert (Hm : m1 !! a = Some (exited c p)) by (unfold m1; by rewrite lookup_insert_eq).
  rewrite (deref_Some _ _ _ Hm). ostep. cbn [p_parent exited]. rewrite Hq.
  change (Z.to_nat (MAX_PROCESS - MIN_PROCESS)) with 99%nat.
  destruct (for_each_inv (λ i t, t = set_procs (orphaned a i m1) s) (orphan_turn (PID p)) 99 MIN_PROCESS (set_procs m1 s))
    as (t & Hrun & ->).
  - unfold MIN_PROCESS. rewrite orphaned_0; [done|]. intros b pb (p0 & Hp0 & <- & _)%exit_lookup.
    apply (po_pid _ _ _ (pi_proc s Hi b p0 Hp0)).
  - intros i t Hr ->. unfold MIN_PROCESS in Hr. eexists. split; [|done]. apply orphan_turn_ok. lia.
  - cbn [PID exited]. rewrite Hrun. done.
Qed.

Lemma after_exit_lookup b pb : procs after_exit !! b = Some pb →
  ∃ p0, procs s !! b = Some p0 ∧ pb = orphan a 100 (if decide (b = a) then exited c p0 else p0).
Proof.
  unfold after_exit, orphaned. cbn [procs set_procs]. rewrite lookup_fmap. intros (p1 & Hp1 & ->)%fmap_Some_1.
  unfold m1 in Hp1. apply lookup_insert_Some in Hp1 as [[<- <-]|[Hne Hb]].
  - exists p. by rewrite decide_True.
  - exists p1. by rewrite decide_False.
Qed.

Lemma after_exit_dom b : procs after_exit !! b = None ↔ procs s !! b = None.
Proof.
  unfold after_exit, orphaned. cbn [procs set_procs]. rewrite lookup_fmap, fmap_None. unfold m1.
  destruct (decide (b = a)) as [->|]; [by rewrite lookup_insert_eq, Ha|by rewrite lookup_insert_ne].
Qed.

Lemma orphan_fits n x : fits x (orphan a n x).
Proof. unfold orphan. case_decide; [|apply fits_refl]. split; simpl; auto. Qed.

Lemma after_exit_inv : pinv after_exit.
Proof.
  apply (pinv_fit s); try done; [by intros b ?%after_exit_dom| |apply (pi_syncs s Hi)].
  intros b pb Hb. destruct (after_exit_lookup b pb Hb) as (p0 & Hp0 & ->). exists p0. split; [done|].
  set (p1 := if decide (b = a) then exited c p0 else p0).
  assert (Hfit : fits p0 (orphan a 100 p1)).
  { unfold p1. case_decide; [|apply orphan_fits]. unfold orphan. case_decide; split; simpl; eauto; rewrite ?He; intros; simplify_eq; lia. }
  split; [done|]. destruct (pi_proc s Hi b p0 Hp0) as [Hpid _ Hpar _ _ _ _ Hsy _]. split.
  - intros q' Hq'. assert (Hpp : p_parent p1 = Some q' ∧ q' ≠ a).
    { unfold orphan in Hq'. case_decide as Hd; [done|]. split; [done|]. intros ->. apply Hd. split; [|done].
      assert (PID p1 = PID p0) by (unfold p1; by destruct (decide (b = a))). lia. }
    destruct Hpp as [Hpp Hna]. destruct (Hpar q') as (Hself & pq & Hpq & Hex); [unfold p1 in Hpp; by destruct (decide (b = a))|]. split; [done|].
    destruct (procs after_exit !! q') as [pq'|] eqn:Hl; [|by apply after_exit_dom in Hl; congruence].
    exists pq'. split; [done|]. destruct (after_exit_lookup q' pq' Hl) as (p2 & Hp2 & ->). rewrite decide_False by done.
    assert (p2 = pq) as -> by congruence. unfold orphan. destruct (decide (PID pq < 100 ∧ p_parent pq = Some a)); exact Hex.
  - intros x Hx. apply Hsy. eapply elem_of_sublist; [done|by apply fits_syncs].
Qed.
End exit.

Lemma pinv_drop_sync s x : pinv s → (∀ a p, procs s !! a = Some p → x ∉ own_syncs p) → pinv (set_syncs (syncs s ∖ {[x]}) s).
Proof.
  intros Hi Hx. apply (pinv_fit s); try done.
  - intros b p Hb. exists p. split; [done|]. split; [apply fits_refl|]. destruct (pi_proc s Hi b p Hb) as [_ _ Hpar _ _ _ _ Hsy _].
    split; [done|]. intros y Hy. simpl. apply elem_of_difference. split; [by apply Hsy|]. intros ->%elem_of_singleton. by apply (Hx b p Hb).
  - simpl. intros y [Hy _]%elem_of_difference. by apply (pi_syncs s Hi).
Qed.

Lemma pinv_vstate s v : pinv s → pinv (set_vstate v s).
Proof.
  intros Hi. apply (pinv_fit s); try done; [|apply (pi_syncs s Hi)]. intros b p Hb. exists p. split; [done|]. split; [apply fits_refl|].
  destruct (pi_proc s Hi b p Hb) as [_ _ Hpar _ _ _ _ Hsy _]. split; [exact Hpar|exact Hsy].
Qed.

(** _exit of a process with a parent. *)
Lemma exit_locked_child s a p c q : pinv s → procs s !! a = Some p → p_exit p = 0 → p_parent p = Some q →
  ∃ s', exit_locked a c s = Ret s' ∧ pinv s' ∧ procs s' = procs (after_exit s a p c) ∧
    files s' = files s ∧ tables s' = tables s ∧ nalloc s' = nalloc s ∧ vstate s' = vstate s.
Proof.
  intros Hi Ha He Hq. pose proof (after_exit_inv s a p c Hi Ha He) as Hi1.
  destruct (po_cvs _ _ _ (pi_proc s Hi a p Ha) He) as [[e Hecv] [d Hpcv]].
  destruct (po_lock _ _ _ (pi_proc s Hi a p Ha)) as [l Hlock].
  assert (Hown : own_syncs p = [l; e; d]) by (unfold own_syncs; by rewrite decide_True, Hlock, Hecv, Hpcv).
  pose proof (po_nodup _ _ _ (pi_proc s Hi a p Ha)) as Hnd. rewrite Hown in Hnd.
  assert (Hsy : ∀ x, x ∈ [l; e; d] → x ∈ syncs s) by (rewrite <- Hown; apply (po_syncs _ _ _ (pi_proc s Hi a p Ha))).
  set (s1 := after_exit s a p c) in *.
  assert (Ha1 : ∃ pa, procs s1 !! a = Some pa ∧ own_syncs pa = [l] ∧ proc_cv pa = Some d).
  { destruct (procs s1 !! a) as [pa|] eqn:Hpa; [|by apply (after_exit_dom s a p c Ha) in Hpa; congruence]. exists pa. split; [done|].
    destruct (after_exit_lookup s a p c Ha a pa Hpa) as (p0 & Hp0 & ->). rewrite decide_True by done. assert (p0 = p) as -> by congruence.
    unfold orphan. destruct (decide (PID (exited c p) < 100 ∧ p_parent (exited c p) = Some a)); unfold own_syncs, exited, cleared; cbn; by rewrite Hlock. }
  destruct Ha1 as (pa & Hpa & Hownpa & Hpcva).
  assert (Hnot : ∀ x, x = e ∨ x = d → ∀ b pb, procs s1 !! b = Some pb → x ∉ own_syncs pb).
  { intros x Hx b pb Hb Hin. destruct (decide (b = a)) as [->|Hne].
    - assert (pb = pa) as -> by congruence. rewrite Hownpa in Hin. apply list_elem_of_singleton in Hin as ->.
      apply NoDup_cons in Hnd as [Hnd _]. apply Hnd. destruct Hx as [->| ->]; set_solver.
    - destruct (after_exit_lookup s a p c Ha b pb Hb) as (p0 & Hp0 & ->). rewrite decide_False in Hin by done.
      apply (pi_apart s Hi a b p p0 Ha Hp0 (not_eq_sym Hne) x); [rewrite Hown; set_solver|].
      eapply elem_of_sublist; [exact Hin|apply fits_syncs, orphan_fits]. }
  assert (Hed : e ≠ d) by (apply NoDup_cons in Hnd as [_ Hnd]; apply NoDup_cons in Hnd as [Hnd _]; set_solver).
  unfold exit_locked. rewrite (deref_Some _ _ _ Ha). ostep. rewrite Hq, (exit_process_ok s a p c q) by done. ostep. fold s1.
  rewrite Hecv, (assert_true (bool_decide _)) by (by apply bool_decide_eq_true_2). ostep. unfold sync_destroy.
  rewrite bool_decide_eq_true_2 by (apply Hsy; set_solver). ostep. cbn [procs set_syncs]. rewrite (deref_Some _ _ _ Hpa). ostep.
  rewrite Hpcva. cbn [syncs set_syncs]. rewrite bool_decide_eq_true_2.
  2:{ apply elem_of_difference. split; [apply Hsy; set_solver|set_solver]. }
  eexists. split; [done|].
  split; [|done]. apply pinv_drop_sync; [apply pinv_drop_sync; [done|]|]; simpl; eauto.
Qed.

(** ** Reference counts *)

Definition cnt (f : nat) (fds : list (option nat)) : Z := len (filter (λ c, c = Some f) fds).
Definition refs (f : nat) (tb : gmap nat (list (option nat))) : Z := map_fold (λ _ fds n, cnt f fds + n) 0 tb.

Lemma refs_insert f tb t fds : tb !! t = None → refs f (<[t := fds]> tb) = cnt f fds + refs f tb.
Proof. intros Ht. unfold refs. rewrite map_fold_insert_L; [done| |done]. intros. lia. Qed.

Lemma refs_update f tb t fds fds' : tb !! t = Some fds → refs f (<[t := fds']> tb) = refs f tb - cnt f fds + cnt f fds'.
Proof.
  intros Ht. rewrite <- (insert_delete_id tb t fds Ht) at 2. rewrite <- insert_delete_eq.
  rewrite !refs_insert by apply lookup_delete_eq. lia.
Qed.

Lemma cnt_nonneg f fds : 0 ≤ cnt f fds.
Proof. unfold cnt. lia. Qed.

Lemma refs_nonneg f tb : 0 ≤ refs f tb.
Proof. induction tb as [|t fds tb Ht IH] using map_ind; [done|]. rewrite refs_insert by done. pose proof (cnt_nonneg f fds). lia. Qed.

Lemma cnt_le_refs f tb t fds : tb !! t = Some fds → cnt f fds ≤ refs f tb.
Proof.
  intros Ht. rewrite <- (insert_delete_id tb t fds Ht), refs_insert by apply lookup_delete_eq. pose proof (refs_nonneg f (delete t tb)). lia.
Qed.

Definition one (f : nat) (c : option nat) : Z := if decide (c = Some f) then 1 else 0.

Lemma cnt_cons f c fds : cnt f (c :: fds) = one f c + cnt f fds.
Proof. unfold cnt, one. rewrite filter_cons. case_decide; simpl; lia. Qed.

Lemma cnt_insert f fds i c c' : fds !! i = Some c → cnt f (<[i := c']> fds) = cnt f fds - one f c + one f c'.
Proof.
  revert i. induction fds as [|x fds IH]; intros [|i] Hi; simpl in *; try done.
  - injection Hi as ->. rewrite !cnt_cons. lia.
  - rewrite !cnt_cons, (IH i Hi). lia.
Qed.

Lemma cnt_pos f fds i : fds !! i = Some (Some f) → 1 ≤ cnt f fds.
Proof.
  intros Hi. pose proof (cnt_insert f fds i (Some f) None Hi) as E. unfold one in E. rewrite decide_True, decide_False in E by done.
  pose proof (cnt_nonneg f (<[i:=None]> fds)). lia.
Qed.
End spec.
