(* ===== verification/FdSpec.v ===== *)
(** * Specification of file descriptors and fork

    The invariant [finv] of the descriptor tables and the shared files: each
    file has at least as many references as there are descriptors for it, so
    that no descriptor leads to a freed file. *)

From S2P Require Import Prelude KHeap KHeapSpec Coremap Uio Process ProcessSpec.

Section fd.
Context {V : Type} `{Vfs V, !VfsLaws V} (nomem : nat → bool) (Hmem : ∀ n, nomem n = false).
Implicit Types (s : sys V) (p : process) (a : nat).

Definition ref_of s (f : nat) : Z := match files s !! f with Some x => f_ref x | None => 0 end.

Record finv (s : sys V) : Prop := {
  fi_tables : ∀ t fds, tables s !! t = Some fds → length fds = 20%nat ∧ (t < nalloc s)%nat;
  fi_files : ∀ f x, files s !! f = Some x → (f < nalloc s)%nat;
  fi_refs : ∀ f, refs f (tables s) ≤ ref_of s f;
  fi_proc : ∀ a p t, procs s !! a = Some p → p_table p = Some t → is_Some (tables s !! t)
}.

(** [a] is a process with the descriptors [fds] in table [t]. *)
Definition has_table s a t fds : Prop := ∃ p, procs s !! a = Some p ∧ p_table p = Some t ∧ tables s !! t = Some fds.

Lemma my_table_ok s a t fds : has_table s a t fds → my_table a s = Ret (t, fds).
Proof.
  intros (p & Hp & Ht & Hf). unfold my_table. rewrite (deref_Some _ _ _ Hp). ostep. rewrite Ht. cbn [nonnull]. ostep.
  rewrite (deref_Some _ _ _ Hf). done.
Qed.

Lemma descriptor_live s t fds i f : finv s → tables s !! t = Some fds → fds !! i = Some (Some f) →
  ∃ x, files s !! f = Some x ∧ 1 ≤ cnt f fds ≤ f_ref x.
Proof.
  intros Hi Ht Hf. pose proof (cnt_pos f fds i Hf). pose proof (cnt_le_refs f _ t fds Ht). pose proof (fi_refs s Hi f) as Hr.
  unfold ref_of in Hr. destruct (files s !! f) as [x|]; [|lia]. exists x. split; [done|lia].
Qed.

(** The VFS layer has [k] calls to go. *)
Definition vorder (k : nat) s : Prop := ∃ O, vfs_in_order k O (vstate s).

Lemma vorder_le k k' s s' : vorder k s → vstate s' = vstate s → (k' ≤ k)%nat → vorder k' s'.
Proof.
  unfold vorder. intros [O HO] -> Hle. exists O. induction Hle as [|k Hle IH]; [done|]. by apply IH, vfs_order_later.
Qed.

(** What a call that leaves processes alone keeps. *)
Record same_procs (s s' : sys V) : Prop := {
  sp_procs : procs s' = procs s;
  sp_proctable : proctable s' = proctable s;
  sp_syncs : syncs s' = syncs s;
  sp_nalloc : (nalloc s ≤ nalloc s')%nat
}.

Lemma same_procs_inv s s' : pinv s → same_procs s s' → pinv s'.
Proof.
  intros Hi [Hp Ht Hs Hn]. apply (pinv_fit s); try done; [by rewrite Hp| |].
  - intros b p Hb. rewrite Hp in Hb. exists p. split; [done|]. split; [apply fits_refl|].
    destruct (pi_proc s Hi b p Hb) as [_ _ Hpar _ _ _ _ Hsy _]. rewrite Hp, Hs. done.
  - rewrite Hs. intros x Hx. pose proof (pi_syncs s Hi x Hx). lia.
Qed.

(** ** Opening *)

Lemma scan_fd_ok fds : length fds = 20%nat →
  (for_loop (Z.to_nat MAX_FILE_OPEN) 0 (scan_fd fds) () = Ret (inl ()) ∧ ∀ i c, fds !! i = Some c → c ≠ None) ∨
  (∃ fd, for_loop (Z.to_nat MAX_FILE_OPEN) 0 (scan_fd fds) () = Ret (inr fd) ∧ 0 ≤ fd < 20 ∧ fds !! Z.to_nat fd = Some None ∧
     ∀ j c, (j < Z.to_nat fd)%nat → fds !! j = Some c → c ≠ None).
Proof.
  intros Hlen. change (Z.to_nat MAX_FILE_OPEN) with 20%nat.
  destruct (for_loop_inv (λ i (_ : ()), ∀ j c, Z.of_nat j < i → fds !! j = Some c → c ≠ None)
    (λ fd, 0 ≤ fd < 20 ∧ fds !! Z.to_nat fd = Some None ∧ ∀ j c, (j < Z.to_nat fd)%nat → fds !! j = Some c → c ≠ None)
    (scan_fd fds) 20 0 ()) as [([] & Hrun & Hall)|(fd & Hrun & Hfd)].
  - lia.
  - intros j [] Hj Hall. destruct (rd_in_range fds j) as (c & Hrd & Hc); [lia|]. unfold scan_fd. rewrite Hrd. ostep.
    destruct c as [f|]; [left|right].
    + exists (). split; [done|]. intros k c Hk Hkc. destruct (decide (Z.of_nat k = j)) as [<-|].
      * rewrite Nat2Z.id in Hc. congruence.
      * eapply Hall; [|done]. lia.
    + exists j. split; [done|]. split_and!; try done; try lia. intros k c Hk. apply Hall. lia.
  - left. split; [done|]. intros i c Hc. eapply Hall; [|done]. apply lookup_lt_Some in Hc. lia.
  - right. by exists fd.
Qed.

(** A new descriptor for a new file. *)
Lemma finv_open s s' t fds fd f x : finv s → tables s !! t = Some fds → fds !! Z.to_nat fd = Some None →
  (nalloc s ≤ f < nalloc s')%nat → f_ref x = 1 → procs s' = procs s →
  files s' = <[f := x]> (files s) → tables s' = <[t := <[Z.to_nat fd := Some f]> fds]> (tables s) → finv s'.
Proof.
  intros [H1 H2 H3 H4] Ht Hfd Hf Hx Hp Hfiles Htab. split; rewrite ?Htab, ?Hfiles.
  - intros t' fds'. intros [[<- <-]|[_ Ht']]%lookup_insert_Some.
    + rewrite length_insert. pose proof (H1 t fds Ht). split; [tauto|lia].
    + pose proof (H1 t' fds' Ht'). split; [tauto|lia].
  - intros g y. intros [[<- <-]|[_ Hg]]%lookup_insert_Some; [lia|]. pose proof (H2 g y Hg). lia.
  - intros g. rewrite (refs_update g _ t fds) by done. rewrite (cnt_insert g fds (Z.to_nat fd) None) by done.
    specialize (H3 g). unfold one, ref_of in *. rewrite Hfiles. rewrite (decide_False (P := None = Some g)) by done.
    assert (Hnew : files s !! f = None) by (destruct (files s !! f) as [y|] eqn:E; [apply H2 in E; lia|done]).
    destruct (decide (Some f = Some g)) as [[= ->]|Hne].
    + rewrite lookup_insert_eq. rewrite Hnew in H3. lia.
    + rewrite lookup_insert_ne by congruence. lia.
  - intros a p t'. rewrite Hp. intros Ha Hpt. destruct (decide (t' = t)) as [->|]; [by rewrite lookup_insert_eq|].
    rewrite lookup_insert_ne by done. by eapply H4.
Qed.

Lemma fd_table_open_ok s a t fds name flag k : finv s → has_table s a t fds → vorder (S k) s →
  ∃ r s', fd_table_open nomem a name flag s = Ret (r, s') ∧ finv s' ∧ vorder k s' ∧ same_procs s s' ∧
    match r with
    | inl e => tables s' = tables s ∧ files s' = files s ∧
        ((e = EMFILE ∧ s' = s ∧ ∀ i c, fds !! i = Some c → c ≠ None) ∨ vfs_open name flag (vstate s) = Ret (inl e, vstate s'))
    | inr fd => 0 ≤ fd < 20 ∧ fds !! Z.to_nat fd = Some None ∧ (∀ j c, (j < Z.to_nat fd)%nat → fds !! j = Some c → c ≠ None) ∧
        ∃ f vn, (nalloc s ≤ f)%nat ∧ vfs_open name flag (vstate s) = Ret (inr vn, vstate s') ∧
          files s' = <[f := File 0 1 flag vn]> (files s) ∧ tables s' = <[t := <[Z.to_nat fd := Some f]> fds]> (tables s)
    end.
Proof.
  intros Hi Hh Hv0. pose proof Hh as (p & Hp & Hpt & Ht). unfold fd_table_open. rewrite (my_table_ok s a t fds) by done. ostep.
  destruct (fi_tables s Hi t fds Ht) as [Hlen _].
  destruct (scan_fd_ok fds Hlen) as [[-> Hfull]|(fd & -> & Hfd & Hnone & Hlow)]; ostep.
  { eexists _, s. split; [done|]. split; [done|]. split; [eapply vorder_le; [done|done|lia]|]. split; [done|]. simpl. split_and!; try done. by left. }
  rewrite (kmalloc_obj_ok nomem Hmem s). destruct Hv0 as [O HO]. destruct (vfs_open_returns k O name flag (vstate s) HO) as (r & v & Hv & HO').
  cbn [vstate bump]. rewrite Hv. ostep. destruct r as [e|vn].
  { eexists _, _. split; [done|]. split; [|split; [by exists O|split; [split; simpl; try done; [set_solver|lia]|]]].
    - destruct Hi as [H1 H2 H3 H4]. split; simpl; try done; [intros ? ? Hx; apply H1 in Hx; lia|intros ? ? Hx; apply H2 in Hx; lia].
    - simpl. split_and!; try done. by right. }
  unfold my_table. cbn [procs set_files set_vstate bump files tables]. rewrite (deref_Some _ _ _ Hp). ostep. rewrite Hpt. cbn [nonnull]. ostep.
  rewrite (deref_Some _ _ _ Ht). ostep. unfold set_fd. cbn [procs set_files set_vstate bump files tables]. rewrite (deref_Some _ _ _ Ht). ostep.
  rewrite wr_in_range by lia. ostep. eexists _, _. split; [done|]. split; [|split; [by exists ({[vn]} ∪ O)|split; [split; simpl; try done; [set_solver|lia]|]]].
  - apply (finv_open s _ t fds fd (nalloc s) (File 0 1 flag vn)); simpl; done || lia.
  - split; [done|]. split; [done|]. split; [done|]. exists (nalloc s), vn. by split_and!.
Qed.

(** ** Closing a descriptor that is the only one *)

Lemma fd_table_close_ok s a t fds fd f x k O : finv s → has_table s a t fds → 0 ≤ fd < 20 → fds !! Z.to_nat fd = Some (Some f) →
  files s !! f = Some x → f_ref x = 1 → vfs_in_order (S k) O (vstate s) → f_vn x ∈ O →
  ∃ s', fd_table_close a fd s = Ret (0, s') ∧ finv s' ∧ vfs_in_order k (O ∖ {[f_vn x]}) (vstate s') ∧ same_procs s s' ∧ vfs_close (f_vn x) (vstate s) = Ret (vstate s') ∧
    files s' = delete f (files s) ∧ tables s' = <[t := <[Z.to_nat fd := None]> fds]> (tables s).
Proof.
  intros Hi Hh Hfd Hf Hx Href HO Hin. pose proof Hh as (p & Hp & Hpt & Ht). destruct (fi_tables s Hi t fds Ht) as [Hlen Hfr].
  destruct (vfs_close_returns k O (f_vn x) (vstate s) HO Hin) as (v & Hv & HO').
  unfold fd_table_close, fd_table_get. rewrite (my_table_ok s a t fds) by done. ostep. unfold MAX_FILE_OPEN. bdec.
  rewrite (rd_lookup fds fd (Some f)) by (done || lia). ostep. unfold drop_ref. rewrite (deref_Some _ _ _ Hx). ostep. cbv zeta.
  rewrite Href. change (1 - 1) with 0. rewrite bool_decide_eq_true_2 by done. rewrite Hv. ostep. unfold set_fd.
  cbn [tables set_files set_vstate]. rewrite (deref_Some _ _ _ Ht). ostep. rewrite wr_in_range by lia. ostep.
  eexists. split; [done|]. split; [|done]. destruct Hi as [H1 H2 H3 H4]. split; simpl.
  - intros t' fds'. intros [[<- <-]|[_ Ht']]%lookup_insert_Some; [by rewrite length_insert|by apply H1].
  - intros g y [_ Hg]%lookup_delete_Some. by eapply H2.
  - intros g. rewrite (refs_update g _ t fds), (cnt_insert g fds _ (Some f)) by done. specialize (H3 g). unfold ref_of in *. simpl.
    unfold one. rewrite (decide_False (P := None = Some g)) by done. destruct (decide (Some f = Some g)) as [[= ->]|Hne].
    + rewrite lookup_delete_eq. rewrite Hx in H3. lia.
    + rewrite lookup_delete_ne by congruence. lia.
  - intros b q t' Hb Hq. destruct (decide (t' = t)) as [->|]; [by rewrite lookup_insert_eq|]. rewrite lookup_insert_ne by done. by eapply H4.
Qed.

(** ** A new table *)

Definition with_table (t : nat) p : process :=
  Process (PID p) (exit_code p) (p_exit p) (exit_cv p) (proc_cv p) (fd_lock p) (Some t) (p_parent p).

Record creates (s : sys V) a p t (s' : sys V) : Prop := {
  cr_procs : procs s' = <[a := with_table t p]> (procs s);
  cr_proctable : proctable s' = proctable s;
  cr_syncs : syncs s' = syncs s;
  cr_fresh : (nalloc s ≤ t < nalloc s')%nat;
  cr_table : is_Some (tables s' !! t);
  cr_others : ∀ t', t' ≠ t → tables s' !! t' = tables s !! t'
}.

Lemma fd_table_create_ok s a p k : finv s → procs s !! a = Some p → vorder (3 + k) s →
  ∃ e t s', fd_table_create nomem a s = Ret (e, s') ∧ finv s' ∧ vorder k s' ∧ creates s a p t s'.
Proof.
  intros Hi Ha Hv0. unfold fd_table_create. rewrite (kmalloc_obj_ok nomem Hmem s). set (t := nalloc s). unfold update_proc.
  cbn [procs set_tables bump]. rewrite (deref_Some _ _ _ Ha). ostep.
  set (s1 := set_procs _ _). assert (Hi1 : finv s1).
  { destruct Hi as [H1 H2 H3 H4]. assert (Hnew : tables s !! t = None) by (destruct (tables s !! t) eqn:E; [apply H1 in E as [_ ?]; lia|done]).
    split; simpl.
    - intros t' fds [[<- <-]|[_ Ht']]%lookup_insert_Some; [split; [done|unfold t; lia]|]. apply H1 in Ht'. lia.
    - intros f x Hf. apply H2 in Hf. lia.
    - intros f. rewrite refs_insert by done. exact (H3 f).
    - intros b q t' Hb Hq. destruct (decide (t' = t)) as [->|]; [by rewrite lookup_insert_eq|]. rewrite lookup_insert_ne by done.
      apply lookup_insert_Some in Hb as [[<- <-]|[_ Hb]]; [simpl in Hq; congruence|by eapply H4]. }
  assert (Hinv : ∀ s2, finv s2 → same_procs s1 s2 → is_Some (tables s2 !! t) → (∀ t', t' ≠ t → tables s2 !! t' = tables s !! t') → creates s a p t s2).
  { intros s2 _ [Hp Hpt Hsy Hn] Ht Ho. split; try done; simpl in *.
    rewrite Hsy. set_solver. }
  destruct (for_loop_inv (λ i s2, vorder (Z.to_nat (3 - i) + k) s2 ∧ finv s2 ∧ same_procs s1 s2 ∧ is_Some (tables s2 !! t) ∧ ∀ t', t' ≠ t → tables s2 !! t' = tables s !! t')
    (λ r, vorder k r.2 ∧ finv r.2 ∧ same_procs s1 r.2 ∧ is_Some (tables r.2 !! t) ∧ ∀ t', t' ≠ t → tables r.2 !! t' = tables s !! t') (open_std nomem a) 3 0 s1)
    as [(s2 & -> & Hv & Hf & Hsp & Ht & Ho)|([e s2] & -> & Hv & Hf & Hsp & Ht & Ho)].
  - split; [done|]. split; [done|]. split; [done|]. unfold s1. simpl. split; [by rewrite lookup_insert_eq|]. intros t' Hne. by rewrite lookup_insert_ne.
  - intros j s2 Hj (Hv & Hf & Hsp & [fds Ht] & Ho). unfold open_std. set (flag := if bool_decide (j = 0) then O_RDONLY else O_WRONLY).
    destruct (fd_table_open_ok s2 a t fds con flag (Z.to_nat (3 - (j + 1)) + k) Hf) as (r & s3 & -> & Hf3 & Hv3 & Hsp3 & Hr).
    3: ostep.
    2: { eapply vorder_le; [done|done|]. simpl in Hj. lia. }
    { exists (with_table t p). split; [|done]. rewrite (sp_procs _ _ Hsp). unfold s1. simpl. by rewrite lookup_insert_eq. }
    assert (Hsp' : same_procs s1 s3) by (destruct Hsp, Hsp3; split; try congruence; lia).
    assert (Htab : is_Some (tables s3 !! t) ∧ ∀ t', t' ≠ t → tables s3 !! t' = tables s !! t').
    { destruct r as [e|fd]; [destruct Hr as [-> _]|destruct Hr as (_ & _ & _ & f & vn & _ & _ & _ & ->)]; [by rewrite Ht|].
      split; [by rewrite lookup_insert_eq|]. intros t' Hne. rewrite lookup_insert_ne by done. by apply Ho. }
    destruct r as [e|fd]; [right|left]; eexists; (split; [done|]); (split; [|done]); [|done]. eapply vorder_le; [done|done|lia].
  - ostep. exists 0, t, s2. split; [done|]. split; [done|]. split; [|by apply Hinv]. eapply vorder_le; [done|done|lia].
  - ostep. simpl in *. exists e, t, s2. split; [done|]. split; [done|]. split; [done|]. by apply Hinv.
Qed.

(** ** Sharing descriptors with a child *)

(** Storing another descriptor, with a reference more for its file. *)
Lemma finv_share s s' t fds i c0 c : finv s → tables s !! t = Some fds → fds !! i = Some c0 →
  procs s' = procs s → nalloc s' = nalloc s → tables s' = <[t := <[i := c]> fds]> (tables s) →
  match c with
  | None => files s' = files s
  | Some f => ∃ x y, files s !! f = Some x ∧ f_ref y = f_ref x + 1 ∧ files s' = <[f := y]> (files s)
  end → finv s'.
Proof.
  intros [H1 H2 H3 H4] Ht Hi Hp Hn Htab Hc. split; rewrite ?Htab, ?Hn.
  - intros t' fds'. intros [[<- <-]|[_ Ht']]%lookup_insert_Some; [rewrite length_insert|]; by apply H1.
  - intros g y Hg. destruct c as [f|]; [|rewrite Hc in Hg; by eapply H2]. destruct Hc as (x & z & Hx & _ & Hf). rewrite Hf in Hg.
    apply lookup_insert_Some in Hg as [[<- _]|[_ Hg]]; by eapply H2.
  - intros g. rewrite (refs_update g _ t fds), (cnt_insert g fds i c0) by done. specialize (H3 g). unfold ref_of in *.
    assert (0 ≤ one g c0) by (unfold one; case_decide; lia).
    destruct c as [f|]; unfold one at 2.
    + destruct Hc as (x & y & Hx & Hy & Hf). rewrite Hf. destruct (decide (Some f = Some g)) as [[= ->]|Hne].
      * rewrite lookup_insert_eq. rewrite Hx in H3. lia.
      * rewrite lookup_insert_ne by congruence. lia.
    + rewrite Hc, decide_False by done. lia.
  - intros a p t'. rewrite Hp. intros Ha Hpt. destruct (decide (t' = t)) as [->|]; [by rewrite lookup_insert_eq|].
    rewrite lookup_insert_ne by done. by eapply H4.
Qed.

(** What fork's copying does besides: nothing but tables and files change. *)
Record only_tables (s s' : sys V) (tc : nat) : Prop := {
  ot_same : same_procs s s';
  ot_nalloc : nalloc s' = nalloc s;
  ot_vstate : vstate s' = vstate s;
  ot_others : ∀ t, t ≠ tc → tables s' !! t = tables s !! t
}.

Lemma share_ok s tp tc fdsp fdsc : finv s → tables s !! tp = Some fdsp → tables s !! tc = Some fdsc → tp ≠ tc →
  ∃ s', for_each (Z.to_nat MAX_FILE_OPEN) 0 (share_fd tp tc) s = Ret s' ∧ finv s' ∧ only_tables s s' tc ∧ tables s' !! tc = Some fdsp.
Proof.
  intros Hi Hp Hc Hne. destruct (fi_tables s Hi tp fdsp Hp) as [Hlp _]. destruct (fi_tables s Hi tc fdsc Hc) as [Hlc _].
  destruct (for_each_inv (λ i s1, finv s1 ∧ only_tables s s1 tc ∧ ∃ fds, tables s1 !! tc = Some fds ∧
      ∀ j, (Z.of_nat j < i) → fds !! j = fdsp !! j) (share_fd tp tc) (Z.to_nat MAX_FILE_OPEN) 0 s)
    as (s' & Hrun & Hf & Hot & fds & Hfds & Heq).
  - split; [done|]. split; [by split|]. exists fdsc. split; [done|lia].
  - intros i s1 Hr (Hf & [[Hsp1 Hsp2 Hsp3 Hsp4] Hn Hvs Ho] & fds & Hfds & Heq). change (0 + Z.of_nat (Z.to_nat MAX_FILE_OPEN)) with 20 in Hr.
    assert (Hp1 : tables s1 !! tp = Some fdsp) by (by rewrite Ho).
    destruct (fi_tables s1 Hf tc fds Hfds) as [Hl _].
    destruct (rd_in_range fdsp i) as (c & Hrd & Hci); [lia|]. destruct (rd_in_range fds i) as (c0 & _ & Hc0); [lia|].
    unfold share_fd. rewrite (deref_Some _ _ _ Hp1). ostep. rewrite Hrd. ostep. unfold set_fd. rewrite (deref_Some _ _ _ Hfds). ostep.
    rewrite wr_in_range by lia. ostep.
    assert (Hnew : ∀ j, Z.of_nat j < i + 1 → <[Z.to_nat i := c]> fds !! j = fdsp !! j).
    { intros j Hj. destruct (decide (j = Z.to_nat i)) as [->|Hji]; [by rewrite list_lookup_insert_eq, Hci by lia|].
      rewrite list_lookup_insert_ne by done. apply Heq. lia. }
    assert (Hstep : ∀ s2, procs s2 = procs s1 → proctable s2 = proctable s1 → syncs s2 = syncs s1 → nalloc s2 = nalloc s1 → vstate s2 = vstate s1 →
      tables s2 = <[tc := <[Z.to_nat i := c]> fds]> (tables s1) → only_tables s s2 tc ∧ ∃ fds', tables s2 !! tc = Some fds' ∧
      ∀ j, Z.of_nat j < i + 1 → fds' !! j = fdsp !! j).
    { intros s2 E1 E2 E3 E4 E6 E5. split.
      - split; [split; congruence || lia|congruence|congruence|]. intros t Ht. rewrite E5, lookup_insert_ne by done. by apply Ho.
      - exists (<[Z.to_nat i := c]> fds). rewrite E5, lookup_insert_eq. done. }
    destruct c as [f|].
    + destruct (descriptor_live s1 tp fdsp (Z.to_nat i) f Hf Hp1 Hci) as (x & Hx & _). cbn [files set_tables].
      rewrite (deref_Some _ _ _ Hx). ostep. eexists. split; [done|]. split; [|by apply Hstep].
      eapply (finv_share s1 _ tc fds (Z.to_nat i) c0 (Some f)); try done. simpl.
      by exists x, (File (f_offset x) (f_ref x + 1) (f_flag x) (f_vn x)).
    + eexists. split; [done|]. split; [|by apply Hstep]. by apply (finv_share s1 _ tc fds (Z.to_nat i) c0 None).
  - exists s'. split; [done|]. split; [done|]. split; [done|]. rewrite Hfds. f_equal. apply list_eq. intros j.
    destruct (fi_tables s' Hf tc fds Hfds) as [Hl _]. destruct (decide (j < 20)%nat).
    + apply Heq. change (Z.to_nat MAX_FILE_OPEN) with 20%nat. lia.
    + by rewrite !lookup_ge_None_2 by lia.
Qed.

(** ** Fork *)

(** Processes that run, wait to be reaped, or wait for a child stay. *)
Definition keeps_live (s s' : sys V) : Prop :=
  ∀ b p, procs s !! b = Some p → p_exit p = 0 ∨ p_parent p ≠ None → procs s' !! b = Some p.
Definition keeps_tables (s s' : sys V) : Prop := ∀ t fds, tables s !! t = Some fds → tables s' !! t = Some fds.

Definition fork_post (s : sys V) a fds (n : Z) (r : option nat) (s' : sys V) : Prop :=
  pinv s' ∧ finv s' ∧ keeps_live s s' ∧ keeps_tables s s' ∧ (nalloc s ≤ nalloc s')%nat ∧
  match r with
  | None => procs s' ⊆ procs s
  | Some c => (nalloc s ≤ c)%nat ∧ 1 ≤ n < 100 ∧ (∀ b p, procs s' !! b = Some p → b = c ∨ procs s !! b = Some p) ∧
      ∃ p tc, procs s' !! c = Some p ∧ PID p = n ∧ p_exit p = 0 ∧ p_parent p = Some a ∧ p_table p = Some tc ∧ tables s' !! tc = Some fds
  end.

(** One process changes its table or its parent. *)
Lemma pinv_set s s' c pc pc' : pinv s → procs s !! c = Some pc → procs s' = <[c := pc']> (procs s) →
  proctable s' = proctable s → syncs s' = syncs s → (nalloc s ≤ nalloc s')%nat → fits pc pc' → p_exit pc' = p_exit pc →
  (∀ q, p_parent pc' = Some q → q ≠ c ∧ ∃ pq, procs s !! q = Some pq ∧ p_exit pq = 0) → pinv s'.
Proof.
  intros Hi Hc Hp Ht Hs Hn Hfit Hex Hpar.
  assert (Hlive : ∀ q pq, procs s !! q = Some pq → p_exit pq = 0 → ∃ pq', procs s' !! q = Some pq' ∧ p_exit pq' = 0).
  { intros q pq Hq He. rewrite Hp. destruct (decide (q = c)) as [->|]; [|by rewrite lookup_insert_ne by done; exists pq].
    rewrite lookup_insert_eq. exists pc'. split; [done|]. congruence. }
  apply (pinv_fit s); try done.
  - intros b. rewrite Hp. by intros [? ?]%lookup_insert_None.
  - intros b p. rewrite Hp at 1. intros [[<- <-]|[Hne Hb]]%lookup_insert_Some.
    + exists pc. split; [done|]. split; [done|]. destruct (pi_proc s Hi c pc Hc) as [_ _ _ _ _ _ _ Hsy _]. split.
      * intros q Hq. destruct (Hpar q Hq) as (? & pq & Hpq & ?). split; [done|]. by eapply Hlive.
      * rewrite Hs. intros x Hx. apply Hsy. eapply elem_of_sublist; [done|by apply fits_syncs].
    + exists p. split; [done|]. split; [apply fits_refl|]. destruct (pi_proc s Hi b p Hb) as [_ _ Hpar' _ _ _ _ Hsy _]. rewrite Hs. split; [|done].
      intros q Hq. destruct (Hpar' q Hq) as (? & pq & Hpq & ?). split; [done|]. by eapply Hlive.
  - rewrite Hs. intros x Hx. pose proof (pi_syncs s Hi x Hx). lia.
Qed.

Lemma finv_procs s s' : finv s → files s' = files s → tables s' = tables s → (nalloc s ≤ nalloc s')%nat →
  (∀ a p t, procs s' !! a = Some p → p_table p = Some t → is_Some (tables s !! t)) → finv s'.
Proof.
  intros [H1 H2 H3 H4] Hf Ht Hn Hp. split; unfold ref_of; rewrite ?Hf, ?Ht; try done.
  - intros t fds Hx. apply H1 in Hx. lia.
  - intros f x Hx. apply H2 in Hx. lia.
Qed.

(** A new process [c], not yet known to anybody, with parent [a]. *)
Definition newborn (s : sys V) a c (n : Z) (s' : sys V) : Prop :=
  pinv s' ∧ finv s' ∧ keeps_live s s' ∧ keeps_tables s s' ∧ (nalloc s ≤ c)%nat ∧ (nalloc s ≤ nalloc s')%nat ∧ 1 ≤ n < 100 ∧
  (∀ b p, procs s' !! b = Some p → b = c ∨ procs s !! b = Some p) ∧
  ∃ p, procs s' !! c = Some p ∧ PID p = n ∧ p_exit p = 0 ∧ p_parent p = Some a.

Lemma newborn_childless s a c n s' : pinv s → newborn s a c n s' → a ≠ c → ∀ b q, procs s' !! b = Some q → p_parent q ≠ Some c.
Proof.
  intros Hi (_ & _ & _ & _ & Hnew & _ & _ & Hold & p & Hp & _ & _ & Hpar) Hne b q Hb Hq.
  destruct (Hold b q Hb) as [->|Hb']; [congruence|].
  destruct (po_parent _ _ _ (pi_proc s Hi b q Hb') c Hq) as (_ & pc & Hpc & _).
  pose proof (po_fresh _ _ _ (pi_proc s Hi c pc Hpc)). lia.
Qed.

(** The child's entry in the table, with its parent. *)
Lemma fork_entry s a p : pinv s → finv s → procs s !! a = Some p → p_exit p = 0 →
  add_process_child nomem None s = Ret (None, s) ∨
  ∃ c n s1 pc s2, add_process_child nomem None s = Ret (Some c, s1) ∧ procs s1 !! c = Some pc ∧ PID pc = n ∧
    update_proc c (λ p, Process (PID p) (exit_code p) (p_exit p) (exit_cv p) (proc_cv p) (fd_lock p) (p_table p) (Some a)) s1 = Ret s2 ∧
    newborn s a c n s2 ∧ a ≠ c ∧ vstate s2 = vstate s.
Proof.
  intros Hi Hf Ha He. destruct (add_process_child_ok nomem Hmem s Hi) as ([c|] & s1 & Hrun & Hi1 & H1); [right|left; by destruct H1 as [-> _]].
  destruct H1 as (n & s0 & Hn & Hi0 & [Hrc1 Hrc2 Hrc3 Hrc4 Hrc5 Hrc6] & Hfr & Htab & (e & d & l & Hprocs) & Hfiles & Htables & Hvst).
  assert (Hnew0 : procs s !! c = None).
  { destruct (procs s !! c) as [x|] eqn:E; [|done]. pose proof (po_fresh _ _ _ (pi_proc s Hi c x E)). lia. }
  assert (Hne : a ≠ c) by congruence. assert (Ha0 : procs s0 !! a = Some p) by (apply Hrc1; auto).
  set (pc := Process n None 0 (Some e) (Some d) (Some l) None None) in *.
  assert (Hc1 : procs s1 !! c = Some pc) by (rewrite Hprocs; apply lookup_insert_eq).
  set (pc' := Process n None 0 (Some e) (Some d) (Some l) None (Some a)). set (s2 := set_procs (<[c := pc']> (procs s1)) s1).
  exists c, n, s1, pc, s2. split; [done|]. split; [done|]. split; [done|].
  split; [unfold update_proc; rewrite (deref_Some _ _ _ Hc1); done|]. split; [|split; [done|simpl; congruence]].
  assert (Hold : ∀ b q, procs s2 !! b = Some q → (b = c ∧ q = pc') ∨ procs s !! b = Some q).
  { intros b q. unfold s2. simpl. intros [[<- <-]|[? Hb]]%lookup_insert_Some; [by left|]. right. rewrite Hprocs, lookup_insert_ne in Hb by done.
    by eapply lookup_weaken. }
  assert (Hkeep : ∀ b q, procs s0 !! b = Some q → procs s2 !! b = Some q).
  { intros b q Hb. assert (b ≠ c) by (intros ->; pose proof (po_fresh _ _ _ (pi_proc s0 Hi0 c q Hb)); lia).
    unfold s2. simpl. rewrite lookup_insert_ne, Hprocs, lookup_insert_ne by done. done. }
  split_and!; try done; try lia.
  - apply (pinv_set s1 s2 c pc pc'); try done; [by split; auto|]. intros q [= <-]. split; [done|]. exists p. split; [|done].
    rewrite Hprocs, lookup_insert_ne by done. done.
  - apply (finv_procs s); [done|unfold s2; simpl; congruence..|unfold s2; simpl; lia|].
    intros b q t Hb Hq. destruct (Hold b q Hb) as [[-> ->]|Hb']; [done|]. by eapply (fi_proc s Hf).
  - intros b q Hb Hcond. apply Hkeep. by apply Hrc1.
  - intros t fds. unfold s2. simpl. rewrite Htables, Hrc4. done.
  - unfold s2. simpl. lia.
  - intros b q Hb. destruct (Hold b q Hb) as [[-> _]|?]; auto.
  - exists pc'. unfold s2. simpl. by rewrite lookup_insert_eq.
Qed.

(** The table made, still a newborn. *)
Lemma newborn_table s a c n s1 e t pc s2 : pinv s → finv s → newborn s a c n s1 → a ≠ c → procs s1 !! c = Some pc →
  fd_table_create nomem c s1 = Ret (e, s2) → finv s2 → creates s1 c pc t s2 → newborn s a c n s2 ∧ tables s !! t = None.
Proof.
  intros Hi Hf (Hi1 & Hf1 & Hk & Hkt & Hnew & Hna & Hn & Hold & pc0 & Hpc0 & Hpid & Hex & Hpar) Hne Hpc _ Hf2 [C1 C2 C3 C4 C5 C6].
  assert (pc0 = pc) as -> by congruence.
  assert (Hnt1 : tables s1 !! t = None) by (destruct (tables s1 !! t) as [fds|] eqn:E; [apply (fi_tables s1 Hf1) in E; lia|done]).
  assert (Hnt : tables s !! t = None) by (destruct (tables s !! t) as [fds|] eqn:E; [apply Hkt in E; congruence|done]).
  split; [|done]. split_and!; try done; try lia.
  - apply (pinv_set s1 s2 c pc (with_table t pc)); try done; [lia|by split; auto|].
    intros q Hq. simpl in Hq. rewrite Hpar in Hq. injection Hq as <-. apply (po_parent _ _ _ (pi_proc s1 Hi1 c pc Hpc)). done.
  - intros b q Hb Hcond. rewrite C1, lookup_insert_ne; [by apply Hk|]. intros <-. pose proof (po_fresh _ _ _ (pi_proc s Hi c q Hb)). lia.
  - intros t' fds Ht'. rewrite C6; [by apply Hkt|congruence].
  - intros b q. rewrite C1. intros [[<- _]|[_ Hb]]%lookup_insert_Some; [by left|by apply Hold].
  - exists (with_table t pc). rewrite C1, lookup_insert_eq. done.
Qed.

Lemma md_forkentry_ok s a p tp fds k : pinv s → finv s → procs s !! a = Some p → p_exit p = 0 → p_table p = Some tp → tables s !! tp = Some fds →
  vorder (3 + k) s → ∃ n r s', md_forkentry nomem 0 a s = Ret (n, r, s') ∧ vorder k s' ∧ fork_post s a fds n r s'.
Proof.
  intros Hi Hf Ha He Hpt Htp Hv0. unfold md_forkentry. rewrite (bool_decide_eq_false_2 (0 ≠ 0)) by auto.
  destruct (fork_entry s a p Hi Hf Ha He) as [Hrun|(c & n & s1 & pc & s2 & Hrun & Hpc & Hpid & Hupd & Hborn & Hne & Hvs)]; rewrite Hrun; ostep.
  { eexists _, None, s. split; [done|]. split; [eapply vorder_le; [done|done|lia]|]. split_and!; try done; by intros ?. }
  rewrite (deref_Some _ _ _ Hpc). ostep. cbv zeta. rewrite Hpid, Hupd. ostep.
  pose proof Hborn as (Hi2 & Hf2 & _ & _ & _ & _ & _ & _ & pc2 & Hpc2 & Hpid2 & _ & Hpar2).
  destruct (fd_table_create_ok s2 c pc2 k Hf2 Hpc2) as (e & tc & s3 & Hcr & Hf3 & Hv3 & Hc); [eapply vorder_le; [done|done|lia]|]. rewrite Hcr. ostep.
  destruct (newborn_table s a c n s2 e tc pc2 s3 Hi Hf Hborn Hne Hpc2 Hcr Hf3 Hc) as [Hborn3 Hntc].
  pose proof Hborn3 as (Hi3 & _ & Hk3 & Hkt3 & Hfr & Hna3 & Hn & Hold3 & pc3 & Hpc3 & Hpid3 & Hex3 & Hpar3).
  assert (Hnew : procs s !! c = None).
  { destruct (procs s !! c) as [x|] eqn:E; [|done]. pose proof (po_fresh _ _ _ (pi_proc s Hi c x E)). lia. }
  case_bool_decide as Herr.
  - destruct (remove_process_ok s3 c pc3 Hi3 Hpc3) as [Hrm Hi4]; [exact (newborn_childless s a c n s3 Hi Hborn3 Hne)|]. rewrite Hpid3 in Hrm. rewrite Hrm. ostep.
    eexists _, None, _. split; [done|]. split; [done|]. split; [done|]. split; [|split_and!].
    + apply (finv_procs s3); try done. simpl. intros b q t [_ Hb]%lookup_delete_Some. by eapply (fi_proc s3 Hf3).
    + intros b q Hb Hcond. simpl. rewrite lookup_delete_ne by congruence. by apply Hk3.
    + exact Hkt3.
    + done.
    + simpl. apply map_subseteq_spec. intros b q [Hbc Hb]%lookup_delete_Some. destruct (Hold3 b q Hb); done.
  - assert (Ha3 : procs s3 !! a = Some p) by (apply Hk3; auto). assert (Htp3 : tables s3 !! tp = Some fds) by by apply Hkt3.
    assert (Hpt3 : p_table pc3 = Some tc).
    { rewrite (cr_procs _ _ _ _ _ Hc), lookup_insert_eq in Hpc3. by injection Hpc3 as <-. }
    destruct (cr_table _ _ _ _ _ Hc) as [fdsc Htc3].
    rewrite (my_table_ok s3 a tp fds) by (by exists p). ostep. rewrite (my_table_ok s3 c tc fdsc) by (by exists pc3). ostep.
    destruct (share_ok s3 tp tc fds fdsc Hf3 Htp3 Htc3) as (s4 & -> & Hf4 & [Hsp4 Hn4 Hv4 Ho4] & Htc4); [congruence|]. ostep.
    pose proof Hsp4 as [Hp4 _ _ _]. eexists _, (Some c), s4. split; [done|]. split; [eapply vorder_le; [done|done|lia]|].
    split; [by eapply same_procs_inv|]. split; [done|]. unfold keeps_live, keeps_tables. rewrite Hp4. split; [exact Hk3|]. split.
    + intros t' fds' Ht'. rewrite Ho4; [by apply Hkt3|congruence].
    + split; [lia|]. split; [done|]. split; [done|]. split; [done|]. exists pc3, tc. done.
Qed.
End fd.
