(* ===== verification/ProcessTheorems.v ===== *)
(** * The process system

    Processes with one thread each run the calls of Process.v in any order. A
    call is one step, _exit two of them, before and after it releases the lock:
    the process table is guarded by a lock, and a switch in
    the middle of md_forkentry or between the lookup and the lock in waitpid is
    the subject of the examples at the end. A call that takes the lock has
    obtained it; runprogram returns with the lock held when there is no
    process or no console for the program. *)

From S2P Require Import Prelude KHeap KHeapSpec Coremap Uio Process ProcessSpec FdSpec.

(** ** Runs *)

(** [Leaving]: _exit has released the lock. *)
Inductive phase := Running | Waiting (kid : nat) | Leaving | Ended.

Inductive event :=
| Exited (a : nat) (code : Z)
| Reaped (parent kid : nat) (status : Z).

#[export] Instance phase_eq_dec : EqDecision phase.
Proof. solve_decision. Defined.

(** [w_exe]: the vnode in the address space of the process, absent while it has not been set. *)
Record world (V : Type) := World { w_sys : sys V; w_phase : gmap nat phase; w_exe : gmap nat Z; w_log : list event }.
Arguments World {V}.
Arguments w_sys {V}.
Arguments w_phase {V}.
Arguments w_exe {V}.
Arguments w_log {V}.

(** [Start]: a program started from the menu, [Exec]: execv, load_elf ending in [l]. [Exit] is _exit up to the release
    of the lock, [Leave] the rest. *)
Inductive pcmd :=
| Start (name : list Z) (l : loaded)
| Fork (a : nat)
| Exec (a : nat) (name : list Z) (l : loaded)
| Exit (a : nat) (code : Z)
| Leave (a : nat)
| Wait (a : nat) (pid options : Z)
| Wake (a : nat)
| Open (a : nat) (name : list Z) (flag : Z)
| Close (a : nat) (fd : Z).

Section runs.
Context {V : Type} `{Vfs V} (nomem : nat → bool).
Implicit Types (w : world V) (s : sys V).

(** What runprogram does for the process table and the descriptors, with the program's vnode. *)
Definition start_program (name : list Z) (l : loaded) s : outcome (option (nat * Z) * sys V) :=
  '(r, s) ← open_program name l s;
  match r with
  | inl _ => Ret (None, s)
  | inr vn =>
      '(r, s) ← add_process_new nomem s;
      match r with
      | None => Ret (None, s)
      | Some a => '(e, s) ← fd_table_create nomem a s; Ret (if bool_decide (e ≠ 0) then None else Some (a, vn), s)
      end
  end.

Definition settle (a kid : nat) (r : waited) s w : world V :=
  match r with
  | WaitError _ => World s (<[a := Running]> (w_phase w)) (w_exe w) (w_log w)
  | WaitDone st => World s (<[a := Running]> (w_phase w)) (w_exe w) (Reaped a kid st :: w_log w)
  | WaitBlocks => World s (<[a := Waiting kid]> (w_phase w)) (w_exe w) (w_log w)
  end.

Definition running a w : bool := bool_decide (w_phase w !! a = Some Running).

(** A command of a process that is not in the right phase is void. as_copy leaves the vnode of the copy unset. *)
Definition pexec (c : pcmd) w : outcome (world V) :=
  let s := w_sys w in
  match c with
  | Start name l =>
      '(r, s) ← start_program name l s;
      Ret (match r with
           | Some (a, vn) => World s (<[a := Running]> (w_phase w)) (<[a := vn]> (w_exe w)) (w_log w)
           | None => World s (w_phase w) (w_exe w) (w_log w)
           end)
  | Fork a =>
      if running a w then
        '(_, r, s) ← md_forkentry nomem 0 a s;
        Ret (match r with
             | Some c => World s (<[c := Running]> (w_phase w)) (delete c (w_exe w)) (w_log w)
             | None => World s (w_phase w) (w_exe w) (w_log w)
             end)
      else Ret w
  | Exec a name l =>
      if running a w then
        '(_, exe, s) ← execv_program name l (w_exe w !! a) s;
        Ret (World s (w_phase w) (partial_alter (λ _, exe) a (w_exe w)) (w_log w))
      else Ret w
  | Exit a code =>
      if running a w then s ← exit_locked a code s; Ret (World s (<[a := Leaving]> (w_phase w)) (w_exe w) (Exited a code :: w_log w))
      else Ret w
  | Leave a =>
      if bool_decide (w_phase w !! a = Some Leaving) then
        s ← exit_close (w_exe w !! a) s; Ret (World s (<[a := Ended]> (w_phase w)) (w_exe w) (w_log w))
      else Ret w
  | Wait a pid options =>
      if running a w then
        kid ← process_get pid s;
        '(r, s) ← waitpid a pid options s;
        Ret (settle a (default 0%nat kid) r s w)
      else Ret w
  | Wake a =>
      match w_phase w !! a with
      | Some (Waiting kid) => '(r, s) ← waitpid_woken kid s; Ret (settle a kid r s w)
      | _ => Ret w
      end
  | Open a name flag =>
      if running a w then '(_, s) ← fd_table_open nomem a name flag s; Ret (World s (w_phase w) (w_exe w) (w_log w)) else Ret w
  | Close a fd =>
      if running a w then '(_, s) ← sys_close a fd s; Ret (World s (w_phase w) (w_exe w) (w_log w)) else Ret w
  end.

(** The closes that go wrong, [O] being the vnodes opened and not closed since: _exit with a vnode that has never been
    set or is not open, and a close of a descriptor whose file has other references or whose vnode is not open. *)
Definition bad_close (O : gset Z) (c : pcmd) w : bool :=
  match c with
  | Leave a =>
      bool_decide (w_phase w !! a = Some Leaving) && match w_exe w !! a with Some vn => bool_decide (vn ∉ O) | None => true end
  | Close a fd =>
      running a w &&
      match fd_table_get a fd (w_sys w) with
      | Ret (inr f) =>
          match files (w_sys w) !! f with
          | Some x => bool_decide (f_ref x ≠ 1) || bool_decide (f_vn x ∉ O)
          | None => true
          end
      | _ => false
      end
  | _ => false
  end.

Fixpoint prun (cs : list pcmd) w : outcome (world V) :=
  match cs with [] => Ret w | c :: cs => w ← pexec c w; prun cs w end.

(** Boot: proctable_init on memory with any contents. *)
Definition boot (contents : list (option nat)) (v : V) : outcome (world V) :=
  s ← proctable_init nomem contents (Sys ∅ ∅ ∅ ∅ [] 0 v); Ret (World s ∅ ∅ []).
End runs.

(** ** The invariant of runs *)

Section inv.
Context {V : Type} `{Vfs V, !VfsLaws V} (nomem : nat → bool).
Implicit Types (w : world V) (s : sys V).

Definition up s (a : nat) : Prop := ∃ p t fds, procs s !! a = Some p ∧ p_exit p = 0 ∧ p_table p = Some t ∧ tables s !! t = Some fds.

Definition phase_ok s (a : nat) (ph : phase) : Prop :=
  match ph with
  | Running => up s a
  | Waiting kid => up s a ∧ ∃ k, procs s !! kid = Some k ∧ p_parent k = Some a
  | Leaving | Ended => True
  end.

Definition reaped_kids (l : list event) : list nat := omap (λ e, match e with Reaped _ k _ => Some k | _ => None end) l.

Record log_ok (s : sys V) (l : list event) : Prop := {
  lo_zombie : ∀ a p, procs s !! a = Some p → p_exit p = 1 → ∃ c, exit_code p = Some c ∧ Exited a c ∈ l;
  lo_reaped : ∀ a k st, Reaped a k st ∈ l → Exited k st ∈ l;
  lo_gone : ∀ k, k ∈ reaped_kids l → procs s !! k = None ∧ (k < nalloc s)%nat;
  lo_once : NoDup (reaped_kids l)
}.

Record winv w : Prop := {
  wi_procs : pinv (w_sys w);
  wi_files : finv (w_sys w);
  wi_phase : ∀ a ph, w_phase w !! a = Some ph → phase_ok (w_sys w) a ph;
  wi_log : log_ok (w_sys w) (w_log w)
}.

Lemma boot_ok contents v : (∀ n, nomem n = false) → length contents = 100%nat → ∃ w, boot nomem contents v = Ret w ∧ winv w ∧ vstate (w_sys w) = v.
Proof.
  intros Hmem Hlen. unfold boot, proctable_init. rewrite kmalloc_obj_ok by done. cbn [nonnull]. ostep. rewrite sync_create_ok by done.
  set (s0 := bump 2 _ _). change (Z.to_nat (MAX_PROCESS - MIN_PROCESS)) with 99%nat.
  destruct (for_each_inv (λ i s, ∃ t, s = set_proctable t s0 ∧ length t = 100%nat ∧ ∀ k, (1 ≤ k)%nat → Z.of_nat k < i → t !! k = Some None)
    clear_slot 99 MIN_PROCESS (set_proctable contents s0)) as (s & -> & t & -> & Hl & Ht).
  - exists contents. split; [done|]. split; [done|]. unfold MIN_PROCESS. lia.
  - intros i s Hi (t & -> & Hl & Ht). unfold clear_slot. unfold MIN_PROCESS in Hi. cbn [proctable set_proctable].
    rewrite wr_in_range by lia. ostep. eexists. split; [done|]. eexists. split; [done|]. split; [by rewrite length_insert|].
    intros k Hk1 Hk2. destruct (decide (k = Z.to_nat i)) as [->|]; [by apply list_lookup_insert_eq; lia|].
    rewrite list_lookup_insert_ne by done. apply Ht; lia.
  - ostep. eexists. split; [done|]. unfold MIN_PROCESS in Ht. split; [|done]. split; simpl.
    + split; simpl; try done; [|set_solver by lia]. intros i a Hi Ha.
      rewrite Ht in Ha; [done|done|]. apply lookup_lt_Some in Ha. lia.
    + split; simpl; try done.
    + done.
    + split; simpl; try done; [set_solver|set_solver|constructor].
Qed.

(** What keeps running processes running and the log valid. *)
Record advances (s s' : sys V) : Prop := {
  ad_up : ∀ b p, procs s !! b = Some p → p_exit p = 0 ∨ p_parent p ≠ None → procs s' !! b = Some p;
  ad_tables : ∀ b p t, procs s !! b = Some p → p_table p = Some t → is_Some (tables s !! t) → is_Some (tables s' !! t);
  ad_new : ∀ b p, procs s' !! b = Some p → procs s !! b = Some p ∨ ((nalloc s ≤ b)%nat ∧ p_exit p = 0);
  ad_nalloc : (nalloc s ≤ nalloc s')%nat
}.

Lemma advances_phase s s' a ph : advances s s' → phase_ok s a ph → phase_ok s' a ph.
Proof.
  intros [H1 H2 H3 H4]. assert (Hup : up s a → up s' a).
  { intros (p & t & fds & Hp & He & Ht & Hf). destruct (H2 a p t Hp Ht) as [fds' ?]; [done|]. exists p, t, fds'. auto. }
  destruct ph as [|kid| |]; simpl; [done| |done..]. intros [Hu (k & Hk & Hpar)]. split; [auto|]. exists k. split; [|done].
  apply H1; [done|]. right. congruence.
Qed.

Lemma advances_log s s' l : advances s s' → log_ok s l → log_ok s' l.
Proof.
  intros [H1 H2 H3 H4] [L1 L2 L3 L4]. split; try done.
  - intros a p Hp He. destruct (H3 a p Hp) as [?|[_ ?]]; [by apply L1|lia].
  - intros k Hk. destruct (L3 k Hk) as [Hn Hlt]. split; [|lia]. destruct (procs s' !! k) as [p|] eqn:E; [|done].
    destruct (H3 k p E) as [?|[? _]]; [congruence|lia].
Qed.

Lemma same_procs_advances s s' : same_procs s s' → finv s' → advances s s'.
Proof.
  intros [Hp _ _ Hn] Hf. split; [rewrite Hp; auto| |rewrite Hp; auto|done].
  intros b p t Hb Ht _. apply (fi_proc s' Hf b p t); [by rewrite Hp|done].
Qed.

Lemma reclaims_advances s s' : pinv s → reclaims s s' → advances s s'.
Proof.
  intros Hi [H1 H2 H3 H4 H5 H6]. split; [done|by rewrite H4| |by rewrite H5]. intros b p Hb. left. by eapply lookup_weaken.
Qed.

Lemma winv_advances w s' ph' exe' : winv w → pinv s' → finv s' → advances (w_sys w) s' →
  (∀ a ph, ph' !! a = Some ph → w_phase w !! a = Some ph ∨ phase_ok s' a ph) → winv (World s' ph' exe' (w_log w)).
Proof.
  intros [W1 W2 W3 W4] Hi Hf Had Hph. split; simpl; try done; [|by eapply advances_log].
  intros a ph Ha. destruct (Hph a ph Ha) as [?|?]; [|done]. eapply advances_phase; [done|]. by apply W3.
Qed.

(** A process without a parent that has called _exit: it is never marked as
    exited. *)
Definition departed w (a : nat) : Prop := w_phase w !! a = Some Leaving ∨ w_phase w !! a = Some Ended.

Definition stuck (a : nat) (p : process) w : Prop :=
  procs (w_sys w) !! a = Some p ∧ p_exit p = 0 ∧ p_parent p = None ∧ departed w a.

Definition good_step w w' : Prop := winv w' ∧ ∀ a p, stuck a p w → stuck a p w'.

Lemma good_void w : winv w → good_step w w.
Proof. by split. Qed.

Lemma good_advances w s' ph' exe' : winv w → pinv s' → finv s' → advances (w_sys w) s' →
  (∀ a ph, ph' !! a = Some ph → w_phase w !! a = Some ph ∨ phase_ok s' a ph) →
  (∀ a p, procs (w_sys w) !! a = Some p → departed w a → ph' !! a = Some Leaving ∨ ph' !! a = Some Ended) →
  good_step w (World s' ph' exe' (w_log w)).
Proof.
  intros Hw Hi Hf Had Hph Hend. split; [by apply winv_advances|]. intros a p (Hp & He & Hpar & Hph').
  split; [apply (ad_up _ _ Had); auto|]. simpl. split; [done|]. split; [done|]. by eapply Hend.
Qed.

(** A new state of the VFS layer only. *)
Lemma vstate_finv s v : finv s → finv (set_vstate v s).
Proof. intros Hf. apply (finv_procs s); try done. apply (fi_proc _ Hf). Qed.

Lemma advances_vstate s s' v : advances (set_vstate v s) s' → advances s s'.
Proof. intros [A1 A2 A3 A4]. by split. Qed.

Lemma good_vstate w v ph' exe' : winv w → (∀ a ph, ph' !! a = Some ph → w_phase w !! a = Some ph ∨ phase_ok (w_sys w) a ph) →
  (∀ a, departed w a → ph' !! a = Some Leaving ∨ ph' !! a = Some Ended) →
  good_step w (World (set_vstate v (w_sys w)) ph' exe' (w_log w)).
Proof.
  intros Hw Hph Hend. pose proof Hw as [Hi Hf _ _]. apply good_advances; try done; [by apply pinv_vstate|by apply vstate_finv|by split; simpl; auto|eauto].
Qed.

Lemma running_up w a : winv w → running a w = true → up (w_sys w) a.
Proof. intros Hw Hr. apply bool_decide_eq_true in Hr. apply (wi_phase w Hw a Running Hr). Qed.

(** ** Each command *)

(** A step of the machine, with [k] calls of the VFS layer to go afterwards. *)
Definition goes_on (c : pcmd) w (k : nat) : Prop := ∃ w', pexec nomem c w = Ret w' ∧ good_step w w' ∧ vorder k (w_sys w').

Lemma goes_nowhere c w k : winv w → vorder (4 + k) (w_sys w) → pexec nomem c w = Ret w → goes_on c w k.
Proof. intros Hw Hv He. exists w. split; [done|]. split; [by apply good_void|]. eapply vorder_le; [done|done|lia]. Qed.

Lemma open_program_ok name l s k : vorder (2 + k) s →
  ∃ r v, open_program name l s = Ret (r, set_vstate v s) ∧ vorder (match r with inl _ => k | inr _ => 1 + k end) (set_vstate v s).
Proof.
  intros [O HO]. unfold open_program. destruct (vfs_open_returns _ O name O_RDONLY _ HO) as (r & v & -> & HO1). ostep.
  destruct r as [e|vn]; [by eexists _, _; split; [done|]; eexists; apply vfs_order_later|]. destruct l as [|e late].
  - eexists _, _. split; [done|]. by eexists.
  - destruct (vfs_close_returns _ _ vn _ HO1) as (v' & Hc & HO2); [set_solver|]. cbn [vstate set_vstate]. rewrite Hc. ostep.
    eexists _, v'. split; [done|]. by eexists.
Qed.

Lemma execv_program_ok name l exe s k : vorder (2 + k) s →
  ∃ e exe' v, execv_program name l exe s = Ret (e, exe', set_vstate v s) ∧ vorder k (set_vstate v s).
Proof.
  intros [O HO]. unfold execv_program. destruct (vfs_open_returns _ O name O_RDONLY _ HO) as (r & v & -> & HO1). ostep.
  destruct r as [e|vn]; [by eexists _, _, _; split; [done|]; eexists; apply vfs_order_later|].
  destruct (vfs_close_returns _ _ vn _ HO1) as (v' & Hc & HO2); [set_solver|]. cbn [vstate set_vstate]. rewrite Hc. ostep.
  destruct l as [|e late]; eexists _, _, v'; (split; [done|]); by eexists.
Qed.

Section steps.
Context (Hmem : ∀ n, nomem n = false).

Lemma start_step w name l k : winv w → vorder (4 + k) (w_sys w) → goes_on (Start name l) w k.
Proof.
  intros Hw Hv0. unfold goes_on, pexec, start_program.
  destruct (open_program_ok name l (w_sys w) (2 + k) Hv0) as ([e|vn] & v & -> & Hv1); ostep.
  { eexists. split; [done|]. split; [by apply good_vstate; auto|]. eapply vorder_le; [done|done|lia]. }
  pose proof Hw as [Hi0 Hf0 _ _]. pose proof (pinv_vstate _ v Hi0) as Hi. pose proof (vstate_finv _ v Hf0) as Hf.
  set (s := set_vstate v (w_sys w)) in *.
  destruct (add_process_new_ok nomem Hmem s Hi) as ([a|] & s1 & -> & Hi1 & H1); ostep.
  2:{ subst s1. eexists. split; [done|]. split; [by apply good_vstate; auto|]. eapply vorder_le; [done|done|lia]. }
  destruct H1 as (n & s0 & Hn & Hi0' & Hrc & Hfr & Htab & (e & d & lk & Hprocs) & Hfiles & Htables & Hvs).
  pose proof Hrc as [R1 R2 R3 R4 R5 R6]. set (pc := Process n None 0 (Some e) (Some d) (Some lk) None None) in *.
  assert (Ha1 : procs s1 !! a = Some pc) by (rewrite Hprocs; apply lookup_insert_eq).
  assert (Hold : ∀ b p, procs s1 !! b = Some p → (b = a ∧ p = pc) ∨ procs s0 !! b = Some p).
  { intros b p. rewrite Hprocs. intros [[<- <-]|[_ ?]]%lookup_insert_Some; auto. }
  assert (Hf1 : finv s1).
  { apply (finv_procs s); [done|congruence..|lia|]. intros b p t Hb Ht. destruct (Hold b p Hb) as [[-> ->]|Hb']; [done|].
    eapply (fi_proc s Hf); [by eapply lookup_weaken|done]. }
  destruct (fd_table_create_ok nomem Hmem s1 a pc k Hf1 Ha1) as (err & t & s2 & -> & Hf2 & Hv2 & [C1 C2 C3 C4 [fds C5] C6]).
  { eapply vorder_le; [done|congruence|lia]. }
  ostep. assert (Hnt : tables s1 !! t = None) by (destruct (tables s1 !! t) eqn:E; [apply (fi_tables s1 Hf1) in E; lia|done]).
  assert (Had : advances (w_sys w) s2).
  { apply (advances_vstate _ _ v). fold s. split; [| | |lia].
    + intros b p Hb Hc. rewrite C1, lookup_insert_ne, Hprocs, lookup_insert_ne; [by apply R1|..];
        intros <-; pose proof (po_fresh _ _ _ (pi_proc s Hi a p Hb)); lia.
    + intros b p t' Hb Ht' Hs. rewrite C6; [by rewrite Htables, R4|]. intros ->. rewrite Htables, R4 in Hnt. by rewrite Hnt in Hs; destruct Hs.
    + intros b p. rewrite C1. intros [[<- <-]|[_ Hb]]%lookup_insert_Some; [right; split; [lia|done]|].
      destruct (Hold b p Hb) as [[-> ->]|Hb']; [right; split; [lia|done]|left; by eapply lookup_weaken]. }
  assert (Hi2 : pinv s2) by (apply (pinv_set s1 s2 a pc (with_table t pc)); try done; [lia|by split; auto]).
  eexists. split; [done|]. case_bool_decide; (split; [apply good_advances; auto|done]).
  - intros b ph [[<- <-]|[_ ?]]%lookup_insert_Some; [right|by left]. exists (with_table t pc), t, fds. rewrite C1, lookup_insert_eq. done.
  - intros b p Hb Hend. rewrite lookup_insert_ne; [done|]. intros <-. pose proof (po_fresh _ _ _ (pi_proc s Hi a p Hb)). lia.
Qed.

Lemma fork_step w a k : winv w → vorder (4 + k) (w_sys w) → goes_on (Fork a) w k.
Proof.
  intros Hw Hv. destruct (running a w) eqn:Hr; [|by apply goes_nowhere; [..|simpl; rewrite Hr]]. unfold goes_on, pexec. rewrite Hr.
  destruct (running_up w a Hw Hr) as (p & t & fds & Hp & He & Ht & Hfds).
  destruct (md_forkentry_ok nomem Hmem (w_sys w) a p t fds k (wi_procs w Hw) (wi_files w Hw) Hp He Ht Hfds)
    as (n & r & s' & -> & Hv' & Hi' & Hf' & Hk & Hkt & Hna & Hr'); [by eapply vorder_le; [done|done|lia]|]. ostep.
  assert (Htabs : ∀ t, is_Some (tables (w_sys w) !! t) → is_Some (tables s' !! t)) by (intros t0 [fds0 ?]; exists fds0; by apply Hkt).
  eexists. split; [done|]. destruct r as [c|]; (split; [apply good_advances; auto|done]).
  - destruct Hr' as (Hfr & _ & Hold & pc & tc & Hpc & _ & He' & _). split; [done|by intros; apply Htabs| |done].
    intros b q Hb. destruct (Hold b q Hb) as [->|?]; [right|by left]. by simplify_eq.
  - destruct Hr' as (_ & _ & _ & pc & tc & Hpc & _ & He' & _ & Htc & Hfc).
    intros b ph [[<- <-]|[_ ?]]%lookup_insert_Some; [right|by left]. by exists pc, tc, fds.
  - destruct Hr' as (Hfr & _). intros b q Hb Hend. rewrite lookup_insert_ne; [done|].
    intros <-. pose proof (po_fresh _ _ _ (pi_proc _ (wi_procs w Hw) c q Hb)). lia.
  - split; [done|by intros; apply Htabs| |done]. intros b q Hb. left. by eapply lookup_weaken.
Qed.

Lemma open_step w a name flag k : winv w → vorder (4 + k) (w_sys w) → goes_on (Open a name flag) w k.
Proof.
  intros Hw Hv. destruct (running a w) eqn:Hr; [|by apply goes_nowhere; [..|simpl; rewrite Hr]]. unfold goes_on, pexec. rewrite Hr.
  destruct (running_up w a Hw Hr) as (p & t & fds & Hp & He & Ht & Hfds).
  destruct (fd_table_open_ok nomem Hmem (w_sys w) a t fds name flag (3 + k) (wi_files w Hw)) as (r & s' & -> & Hf' & Hv' & Hsp & _); [by exists p|done|]. ostep.
  eexists. split; [done|]. split; [|eapply vorder_le; [done|done|lia]].
  apply good_advances; auto; [by eapply same_procs_inv, Hsp; apply Hw|by apply same_procs_advances].
Qed.
End steps.

Lemma exec_step w a name l k : winv w → vorder (4 + k) (w_sys w) → goes_on (Exec a name l) w k.
Proof.
  intros Hw Hv. destruct (running a w) eqn:Hr; [|by apply goes_nowhere; [..|simpl; rewrite Hr]]. unfold goes_on, pexec. rewrite Hr.
  destruct (execv_program_ok name l (w_exe w !! a) (w_sys w) (2 + k) Hv) as (e & exe & v & -> & Hv'). ostep.
  eexists. split; [done|]. split; [by apply good_vstate; auto|]. eapply vorder_le; [done|done|lia].
Qed.

Lemma sys_close_cases s a t fds fd : finv s → has_table s a t fds → (∃ e, sys_close a fd s = Ret (e, s)) ∨
  ∃ f x, 0 ≤ fd < 20 ∧ fds !! Z.to_nat fd = Some (Some f) ∧ files s !! f = Some x ∧ fd_table_get a fd s = Ret (inr f) ∧
    sys_close a fd s = ('(e, s) ← fd_table_close a fd s; Ret (if bool_decide (e ≠ 0) then -1 else 0, s)).
Proof.
  intros Hf Hh. pose proof Hh as (p & Hp & Hpt & Ht). destruct (fi_tables s Hf t fds Ht) as [Hlen _].
  unfold sys_close, valid_fd, fd_table_get. rewrite (my_table_ok s a t fds) by done. ostep. unfold MAX_FILE_OPEN.
  destruct (bool_decide (fd < 0) || bool_decide (20 ≤ fd)) eqn:Hout; [left; by eexists|].
  apply orb_false_iff in Hout as [H1%bool_decide_eq_false H2%bool_decide_eq_false].
  destruct (rd_in_range fds fd) as (c & -> & Hc); [lia|]. ostep. destruct c as [f|]; [right|left; by eexists].
  destruct (descriptor_live s t fds (Z.to_nat fd) f Hf Ht Hc) as (x & Hx & _). exists f, x. split; [lia|]. done.
Qed.

Lemma close_step w a fd k O : winv w → vfs_in_order (4 + k) O (vstate (w_sys w)) → bad_close O (Close a fd) w = false → goes_on (Close a fd) w k.
Proof.
  intros Hw HO Hbad. assert (Hv : vorder (4 + k) (w_sys w)) by by exists O.
  destruct (running a w) eqn:Hr; [|by apply goes_nowhere; [..|simpl; rewrite Hr]]. unfold bad_close in Hbad. rewrite Hr in Hbad. cbn [andb] in Hbad.
  destruct (running_up w a Hw Hr) as (p & t & fds & Hp & He & Ht & Hfds). assert (Hh : has_table (w_sys w) a t fds) by (by exists p).
  destruct (sys_close_cases _ a t fds fd (wi_files w Hw) Hh) as [[e Hcl]|(f & x & Hfd & Hc & Hx & Hget & Hcl)].
  { apply goes_nowhere; [done..|]. simpl. rewrite Hr, Hcl. ostep. by destruct w. }
  rewrite Hget, Hx in Hbad. apply orb_false_iff in Hbad as [Href Hin]. apply bool_decide_eq_false, dec_stable in Href, Hin.
  destruct (fd_table_close_ok _ a t fds fd f x (3 + k) O (wi_files w Hw) Hh Hfd Hc Hx Href HO Hin) as (s' & Hrun & Hf' & HO' & Hsp & _).
  unfold goes_on, pexec. rewrite Hr, Hcl, Hrun. ostep. eexists. split; [done|]. split; [|eapply (vorder_le (3 + k)); [by eexists|done|lia]].
  apply good_advances; auto; [by eapply same_procs_inv, Hsp; apply Hw|by apply same_procs_advances].
Qed.

(** A process that exits changes itself and its children only. *)
Lemma exit_child_step w a p c q s' : winv w → w_phase w !! a = Some Running → procs (w_sys w) !! a = Some p → p_exit p = 0 → p_parent p = Some q →
  pinv s' → procs s' = procs (after_exit (w_sys w) a p c) → files s' = files (w_sys w) → tables s' = tables (w_sys w) →
  nalloc s' = nalloc (w_sys w) → good_step w (World s' (<[a := Leaving]> (w_phase w)) (w_exe w) (Exited a c :: w_log w)).
Proof.
  intros Hw Hrun Ha He Hq Hi' Hp Hfl Ht Hn. pose proof Hw as [Hi Hf Hph [L1 L2 L3 L4]]. set (s := w_sys w) in *.
  assert (Hlook : ∀ b pb, procs s' !! b = Some pb → ∃ p0, procs s !! b = Some p0 ∧ pb = orphan a 100 (if decide (b = a) then exited c p0 else p0)).
  { rewrite Hp. apply (after_exit_lookup s a p c Ha). }
  assert (Hdom : ∀ b, procs s' !! b = None ↔ procs s !! b = None) by (rewrite Hp; apply (after_exit_dom s a p c Ha)).
  assert (Hfwd : ∀ b p0, procs s !! b = Some p0 → b ≠ a → procs s' !! b = Some (orphan a 100 p0)).
  { intros b p0 Hb Hne. destruct (procs s' !! b) as [pb|] eqn:E; [|apply Hdom in E; congruence].
    destruct (Hlook b pb E) as (p1 & Hp1 & ->). rewrite decide_False by done. congruence. }
  assert (Hsame : ∀ x, p_exit (orphan a 100 x) = p_exit x ∧ p_table (orphan a 100 x) = p_table x ∧ exit_code (orphan a 100 x) = exit_code x).
  { intros x. unfold orphan. by destruct (decide _). }
  assert (Hup : ∀ b, b ≠ a → up s b → up s' b).
  { intros b Hne (p0 & t & fds & Hp0 & He0 & Ht0 & Hfds). exists (orphan a 100 p0), t, fds. destruct (Hsame p0) as (E1 & E2 & _).
    rewrite (Hfwd b p0), E1, E2, Ht by done. done. }
  split.
  2:{ intros b p0 (Hb & He0 & Hpar0 & Hend). assert (b ≠ a) by (destruct Hend; congruence). split; simpl.
    - rewrite (Hfwd b p0) by done. unfold orphan. rewrite decide_False; [done|]. intros [_ ?]. congruence.
    - unfold departed. simpl. rewrite lookup_insert_ne by done. done. }
  split; simpl.
  - done.
  - apply (finv_procs s); try done; [lia|]. intros b pb t Hb Htb. destruct (Hlook b pb Hb) as (p0 & Hp0 & ->).
    eapply (fi_proc s Hf); [exact Hp0|]. destruct (Hsame (if decide (b = a) then exited c p0 else p0)) as (_ & E2 & _). rewrite E2 in Htb.
    by destruct (decide (b = a)).
  - intros b ph [[<- <-]|[Hne Hb]]%lookup_insert_Some; [done|]. specialize (Hph b ph Hb). destruct ph as [|kid| |]; simpl in *; [by apply Hup| |done..].
    destruct Hph as [Hu (k & Hk & Hpar)]. split; [by apply Hup|].
    destruct (procs s' !! kid) as [k'|] eqn:E; [|apply Hdom in E; congruence]. exists k'. split; [done|].
    destruct (Hlook kid k' E) as (k0 & Hk0 & ->). assert (k0 = k) as -> by congruence.
    assert (Hpar' : p_parent (if decide (kid = a) then exited c k else k) = Some b) by (by destruct (decide (kid = a))).
    unfold orphan. rewrite decide_False; [done|]. intros [_ Hx]. congruence.
  - split; simpl.
    + intros b pb Hb Hex. destruct (Hlook b pb Hb) as (p0 & Hp0 & ->). destruct (decide (b = a)) as [->|Hne].
      * exists c. destruct (Hsame (exited c p0)) as (_ & _ & E). rewrite E. split; [done|by left].
      * destruct (Hsame p0) as (E1 & _ & E3). rewrite E1 in Hex. rewrite E3. destruct (L1 b p0 Hp0 Hex) as (c' & ? & ?). exists c'. split; [done|by right].
    + intros b k st [?|Hin]%elem_of_cons; [done|]. right. by eapply L2.
    + intros k Hk. destruct (L3 k Hk). rewrite Hn. split; [by apply Hdom|done].
    + done.
Qed.

(** Without a parent it changes nothing. *)
Lemma exit_root_step w a p c : winv w → w_phase w !! a = Some Running → procs (w_sys w) !! a = Some p → p_parent p = None →
  good_step w (World (w_sys w) (<[a := Leaving]> (w_phase w)) (w_exe w) (Exited a c :: w_log w)).
Proof.
  intros Hw Hr Hp Hq. pose proof Hw as [Hi Hf Hph [M1 M2 M3 M4]]. split.
  2:{ intros b p0 (Hb & He0 & Hpar0 & Hend). split; simpl; [done|]. unfold departed. simpl.
    rewrite lookup_insert_ne by (intros ->; destruct Hend; congruence). done. }
  split; simpl; try done.
  - intros b ph [[<- <-]|[_ ?]]%lookup_insert_Some; [done|by apply Hph].
  - split; simpl; try done; [|by intros b kd st [?|Hin]%elem_of_cons; [|right; eapply M2]].
    intros b pb Hb Hex. destruct (M1 b pb Hb Hex) as (c' & ? & ?). exists c'. split; [done|by right].
Qed.

Lemma exit_step w a c k : winv w → vorder (4 + k) (w_sys w) → goes_on (Exit a c) w k.
Proof.
  intros Hw Hv. destruct (running a w) eqn:Hr; [|by apply goes_nowhere; [..|simpl; rewrite Hr]]. unfold goes_on, pexec. rewrite Hr.
  destruct (running_up w a Hw Hr) as (p & t & fds & Hp & He & Ht & Hfds).
  apply bool_decide_eq_true in Hr. destruct (p_parent p) as [q|] eqn:Hq.
  - destruct (exit_locked_child (w_sys w) a p c q (wi_procs w Hw) Hp He Hq) as (s' & -> & Hi' & Hps & Hfl & Htb & Hna & Hvs). ostep.
    eexists. split; [done|]. split; [by apply (exit_child_step w a p c q)|]. eapply vorder_le; [done|done|lia].
  - unfold exit_locked. rewrite (deref_Some _ _ _ Hp). ostep. rewrite Hq. ostep. eexists. split; [done|].
    split; [by apply (exit_root_step w a p c)|]. eapply vorder_le; [done|done|lia].
Qed.

Lemma leave_step w a k O : winv w → vfs_in_order (4 + k) O (vstate (w_sys w)) → bad_close O (Leave a) w = false → goes_on (Leave a) w k.
Proof.
  intros Hw HO Hbad. unfold bad_close in Hbad. destruct (decide (w_phase w !! a = Some Leaving)) as [Hph|Hph].
  2:{ apply goes_nowhere; [done|by exists O|]. simpl. by rewrite bool_decide_eq_false_2. }
  unfold goes_on, pexec. rewrite bool_decide_eq_true_2 in Hbad |- * by done. cbn [andb] in Hbad.
  destruct (w_exe w !! a) as [vn|]; [|done]. apply bool_decide_eq_false, dec_stable in Hbad. unfold exit_close. cbn [nonnull]. ostep.
  destruct (vfs_close_returns _ O vn _ HO Hbad) as (v & -> & HO'). ostep. eexists. split; [done|].
  split; [apply good_vstate; [done|..]|apply (vorder_le (3 + k) k (set_vstate v (w_sys w))); [by eexists|done|lia]].
  - intros b ph [[<- <-]|[_ ?]]%lookup_insert_Some; [by right|by left].
  - intros b Hb. destruct (decide (b = a)) as [->|]; [rewrite lookup_insert_eq; auto|by rewrite lookup_insert_ne].
Qed.

(** ** Waiting *)

Lemma reap_ok w a kid k : winv w → up (w_sys w) a → procs (w_sys w) !! kid = Some k → p_parent k = Some a → p_exit k = 1 →
  ¬ departed w a →
  ∃ st s', reap kid (w_sys w) = Ret (WaitDone st, s') ∧ vstate s' = vstate (w_sys w) ∧ good_step w (settle a kid (WaitDone st) s' w).
Proof.
  intros Hw Hu Hk Hpar He Hph. pose proof Hw as [Hi Hf Hphs [L1 L2 L3 L4]]. set (s := w_sys w) in *.
  destruct (L1 kid k Hk He) as (st & Hst & Hlog). unfold reap. fold s. rewrite (deref_Some _ _ _ Hk). ostep. rewrite Hst. cbn [nonnull]. ostep.
  destruct (remove_process_ok s kid k Hi Hk) as [-> Hi']; [by apply (childless s kid k)|]. ostep. exists st, (removed kid k s). split; [done|]. split; [done|].
  assert (Hup : ∀ b, up s b → up (removed kid k s) b).
  { intros b (p & t & fds & Hp & Hex & Ht & Hfds). exists p, t, fds. simpl. rewrite lookup_delete_ne; [done|]. intros ->. simplify_eq. lia. }
  split.
  2:{ intros b p0 (Hb & He0 & Hpar0 & Hend). split; simpl.
    - rewrite lookup_delete_ne; [done|]. fold s in Hb. intros ->. assert (p0 = k) as -> by congruence. lia.
    - unfold departed. simpl. rewrite lookup_insert_ne by congruence. done. }
  split; simpl; try done.
  - apply (finv_procs s); try done. simpl. intros b p t [_ Hb]%lookup_delete_Some. by eapply (fi_proc s Hf).
  - intros b ph [[<- <-]|[Hne Hb]]%lookup_insert_Some; [by apply Hup|]. specialize (Hphs b ph Hb). destruct ph as [|kid'| |]; simpl in *; [by apply Hup| |done..].
    destruct Hphs as [Hub (k' & Hk' & Hpar')]. split; [by apply Hup|]. exists k'. rewrite lookup_delete_ne; [done|]. intros ->. fold s in Hk'. congruence.
  - split; simpl.
    + intros b p [_ Hb]%lookup_delete_Some Hex. destruct (L1 b p Hb Hex) as (c' & ? & ?). exists c'. split; [done|by right].
    + intros b k' st' [[= -> -> ->]|Hin]%elem_of_cons; right; [done|by eapply L2].
    + intros k' [->|Hin]%elem_of_cons.
      * split; [apply lookup_delete_eq|apply (po_fresh _ _ _ (pi_proc s Hi kid k Hk))].
      * destruct (L3 k' Hin) as [Hn Hlt]. split; [|done]. rewrite lookup_delete_None. by right.
    + constructor; [|done]. intros Hin. destruct (L3 kid Hin) as [Hn _]. fold s in Hn. congruence.
Qed.

Lemma settle_same w a kid r : winv w → up (w_sys w) a → ¬ departed w a →
  match r with WaitError _ => True | WaitDone _ => False | WaitBlocks => ∃ k, procs (w_sys w) !! kid = Some k ∧ p_parent k = Some a end →
  good_step w (settle a kid r (w_sys w) w).
Proof.
  intros Hw Hu Hne Hr. destruct r as [e|st|]; [|done|]; (apply good_advances; [done|apply Hw|apply Hw|by apply reclaims_advances, reclaims_refl; apply Hw| |
    intros b p _ Hend; rewrite lookup_insert_ne by congruence; done]);
    intros b ph [[<- <-]|[_ ?]]%lookup_insert_Some; [by right|by left|by right|by left].
Qed.

Lemma process_get_ok s pid : pinv s → pid ≠ 100 → process_get pid s = Ret None ∨ ∃ a p, process_get pid s = Ret (Some a) ∧ procs s !! a = Some p ∧ PID p = pid.
Proof.
  intros Hi Hpid. unfold process_get, MIN_PROCESS, MAX_PROCESS. destruct (decide (1 ≤ pid < 100)) as [Hr|Hr].
  - bdec. by apply slot_cases.
  - left. do 2 case_bool_decide; done || lia.
Qed.

Lemma not_departed w a ph : w_phase w !! a = Some ph → ph ≠ Leaving → ph ≠ Ended → ¬ departed w a.
Proof. intros H1 H2 H3 [?|?]; congruence. Qed.

(** The end of waitpid, with nothing done or the child reaped. *)
Lemma settled w a kid r k : winv w → up (w_sys w) a → ¬ departed w a →
  match r with WaitError _ => True | WaitDone _ => False | WaitBlocks => ∃ k, procs (w_sys w) !! kid = Some k ∧ p_parent k = Some a end →
  vorder (4 + k) (w_sys w) → ∃ w', Ret (settle a kid r (w_sys w) w) = Ret w' ∧ good_step w w' ∧ vorder k (w_sys w').
Proof.
  intros Hw Hu Hd Hr Hv. eexists. split; [done|]. split; [by apply settle_same|]. eapply vorder_le; [done|by destruct r|lia].
Qed.

Lemma settled_done w a kid kp k : winv w → up (w_sys w) a → procs (w_sys w) !! kid = Some kp → p_parent kp = Some a → p_exit kp = 1 →
  ¬ departed w a → vorder (4 + k) (w_sys w) →
  ∃ w', ('(r, s) ← reap kid (w_sys w); Ret (settle a kid r s w)) = Ret w' ∧ good_step w w' ∧ vorder k (w_sys w').
Proof.
  intros Hw Hu Hk Hpar He Hd Hv. destruct (reap_ok w a kid kp Hw Hu Hk Hpar He Hd) as (st & s' & -> & Hvs & Hw'). ostep.
  eexists. split; [done|]. split; [done|]. eapply vorder_le; [done|done|lia].
Qed.

Lemma wait_step w a pid options k : winv w → pid ≠ 100 → vorder (4 + k) (w_sys w) → goes_on (Wait a pid options) w k.
Proof.
  intros Hw Hpid Hv. destruct (running a w) eqn:Hr; [|by apply goes_nowhere; [..|simpl; rewrite Hr]]. pose proof (running_up w a Hw Hr) as Hu.
  assert (Hnd : ¬ departed w a) by (apply bool_decide_eq_true in Hr; by eapply not_departed). unfold goes_on, pexec, waitpid. rewrite Hr.
  destruct (process_get_ok (w_sys w) pid (wi_procs w Hw) Hpid) as [Hg|(kid & kp & Hg & Hk & _)]; rewrite Hg; ostep;
    (case_bool_decide; [ostep; by apply settled|]); ostep; unfold waitpid_locked; [ostep; by apply settled|].
  rewrite (deref_Some _ _ _ Hk). ostep. case_bool_decide as Hpar; [ostep; by apply settled|].
  case_bool_decide as He; [by eapply settled_done|].
  destruct (po_exit _ _ _ (pi_proc _ (wi_procs w Hw) kid kp Hk)) as [He0|[? _]]; [|done].
  destruct (po_cvs _ _ _ (pi_proc _ (wi_procs w Hw) kid kp Hk) He0) as [[cv ->] _]. cbn [nonnull]. ostep.
  apply settled; try done. by exists kp.
Qed.

Lemma wake_step w a k : winv w → vorder (4 + k) (w_sys w) → goes_on (Wake a) w k.
Proof.
  intros Hw Hv. destruct (w_phase w !! a) as [[|kid| |]|] eqn:Hph; try by (apply goes_nowhere; [..|simpl; rewrite Hph]).
  destruct (wi_phase w Hw a _ Hph) as [Hu (kp & Hk & Hpar)]. assert (Hnd : ¬ departed w a) by by eapply not_departed.
  unfold goes_on, pexec. rewrite Hph. unfold waitpid_woken. rewrite (deref_Some _ _ _ Hk). ostep.
  destruct (po_exit _ _ _ (pi_proc _ (wi_procs w Hw) kid kp Hk)) as [He|[He _]].
  - rewrite bool_decide_eq_true_2 by done. destruct (po_cvs _ _ _ (pi_proc _ (wi_procs w Hw) kid kp Hk) He) as [[cv ->] _].
    cbn [nonnull]. ostep. apply settled; try done. by exists kp.
  - rewrite bool_decide_eq_false_2 by lia. by eapply settled_done.
Qed.

(** No waitpid on the number just past the table. *)
Definition in_table (c : pcmd) : bool := match c with Wait _ pid _ => bool_decide (pid ≠ 100) | _ => true end.

Lemma pexec_ok c w O k : (∀ n, nomem n = false) → in_table c = true → winv w → vfs_in_order (4 + k) O (vstate (w_sys w)) →
  bad_close O c w = false → goes_on c w k.
Proof.
  intros Hmem Hc Hw HO Hbad. assert (Hv : vorder (4 + k) (w_sys w)) by by exists O.
  destruct c as [name l|a|a name l|a code|a|a pid options|a|a name flag|a fd].
  - by apply start_step.
  - by apply fork_step.
  - by apply exec_step.
  - by apply exit_step.
  - by eapply leave_step.
  - apply wait_step; [done| |done]. by apply bool_decide_eq_true in Hc.
  - by apply wake_step.
  - by apply open_step.
  - by eapply close_step.
Qed.
End inv.

(** ** The open vnodes

    A VFS layer with a record of the vnodes that have been opened and not closed since. *)

Record tracked (V : Type) := Tracked { t_state : V; t_open : gset Z }.
Arguments Tracked {V}.
Arguments t_state {V}.
Arguments t_open {V}.

Section tracked.
Context {V : Type} `{Vfs V}.

#[export] Instance tracked_vfs : Vfs (tracked V) := {|
  vfs_open name flag x :=
    '(r, v) ← vfs_open name flag (t_state x);
    Ret (r, Tracked v (match r with inr vn => {[vn]} ∪ t_open x | inl _ => t_open x end));
  vfs_close vn x := v ← vfs_close vn (t_state x); Ret (Tracked v (t_open x ∖ {[vn]}));
  VOP_READ vn m u x := '(e, (m, u, v)) ← VOP_READ vn m u (t_state x); Ret (e, (m, u, Tracked v (t_open x)));
  VOP_WRITE vn m u x := '(e, (m, u, v)) ← VOP_WRITE vn m u (t_state x); Ret (e, (m, u, Tracked v (t_open x)))
|}.

#[export] Program Instance tracked_laws `{!VfsLaws V} : VfsLaws (tracked V) := {| vfs_in_order k O x := O = t_open x ∧ vfs_in_order k O (t_state x) |}.
Next Obligation. intros ? k O x [? ?]. split; [done|]. by apply vfs_order_later. Qed.
Next Obligation.
  intros ? k O name flag x [-> HO]. destruct (vfs_open_returns k _ name flag _ HO) as (r & v & Hv & HO'). simpl. rewrite Hv.
  eexists _, _. split; [done|]. by destruct r.
Qed.
Next Obligation.
  intros ? k O vn x [-> HO] Hin. destruct (vfs_close_returns k _ vn _ HO Hin) as (v & Hv & HO'). simpl. rewrite Hv. by eexists.
Qed.
End tracked.

(** ** Properties *)

Section properties.
Context {V : Type} `{Vfs V, !VfsLaws V} (nomem : nat → bool).

(** The commands run to the end, or up to a close that goes wrong. *)
Definition runs_to (cs : list pcmd) (w w' : world (tracked V)) : Prop :=
  ∃ cs1 cs2, cs = cs1 ++ cs2 ∧ prun nomem cs1 w = Ret w' ∧
    match cs2 with [] => True | c :: _ => bad_close (t_open (vstate (w_sys w'))) c w' = true end.

Definition in_order (k : nat) (w : world (tracked V)) : Prop := vfs_in_order k (t_open (vstate (w_sys w))) (t_state (vstate (w_sys w))).

Lemma in_order_0 k w : in_order k w → in_order 0 w.
Proof. unfold in_order. induction k as [|k IH]; [done|]. intros HO. by apply IH, vfs_order_later. Qed.

Lemma prun_ok cs w : (∀ n, nomem n = false) → forallb in_table cs = true → winv w → in_order (4 * length cs) w →
  ∃ w', runs_to cs w w' ∧ good_step w w' ∧ in_order 0 w'.
Proof.
  intros Hmem. revert w. induction cs as [|c cs IH]; intros w Hcs Hw HO; [by exists w; split; [exists [], []|split; [apply good_void|]]|].
  simpl in Hcs. apply andb_prop in Hcs as [Hc Hcs]. destruct (bad_close (t_open (vstate (w_sys w))) c w) eqn:Hbad.
  { exists w. split; [by exists [], (c :: cs)|]. split; [by apply good_void|]. by eapply in_order_0. }
  destruct (pexec_ok nomem c w (t_open (vstate (w_sys w))) (4 * length cs) Hmem Hc Hw) as (w1 & Hrun & [Hw1 Hs1] & O & -> & HO1); [|done|].
  { split; [done|]. unfold in_order in HO. cbn [length] in HO. by replace (4 + 4 * length cs)%nat with (4 * S (length cs))%nat by lia. }
  destruct (IH w1 Hcs Hw1 HO1) as (w2 & (cs1 & cs2 & -> & Hrun2 & Hend) & [Hw2 Hs2] & HO2). exists w2. split; [|split; [split; auto|done]].
  exists (c :: cs1), cs2. simpl. rewrite Hrun. ostep. done.
Qed.

Lemma boot_runs contents v O cs : (∀ n, nomem n = false) → length contents = 100%nat → forallb in_table cs = true → vfs_in_order (4 * length cs) O v →
  ∃ w0 w, boot nomem contents (Tracked v O) = Ret w0 ∧ runs_to cs w0 w ∧ winv w ∧ in_order 0 w.
Proof.
  intros Hmem Hlen Hcs HO. destruct (boot_ok nomem contents (Tracked v O) Hmem Hlen) as (w0 & Hb & Hw0 & Hv).
  destruct (prun_ok cs w0 Hmem Hcs Hw0) as (w & Hrun & [Hw _] & HO'); [unfold in_order; by rewrite Hv|]. by exists w0, w.
Qed.


(** [C30] waitpid delivers the exit status: in every such run every status handed to a parent is the
    code that child gave to _exit, no child is reaped twice, and a parent that
    waits for a child that has exited gets its status at the next wakeup. *)
Theorem waitpid_delivers_status contents v O cs : (∀ n, nomem n = false) → length contents = 100%nat → forallb in_table cs = true →
  vfs_in_order (4 * length cs) O v →
  ∃ w0 w, boot nomem contents (Tracked v O) = Ret w0 ∧ runs_to cs w0 w ∧
    (∀ a k st, Reaped a k st ∈ w_log w → Exited k st ∈ w_log w) ∧ NoDup (reaped_kids (w_log w)) ∧
    ∀ a kid k, w_phase w !! a = Some (Waiting kid) → procs (w_sys w) !! kid = Some k → p_exit k = 1 →
      ∃ st w', pexec nomem (Wake a) w = Ret w' ∧ Exited kid st ∈ w_log w ∧ w_log w' = Reaped a kid st :: w_log w ∧
        w_phase w' !! a = Some Running ∧ procs (w_sys w') !! kid = None.
Proof.
  intros Hmem Hlen Hcs HO. destruct (boot_runs contents v O cs Hmem Hlen Hcs HO) as (w0 & w & Hb & Hrun & Hw & _).
  exists w0, w. pose proof Hw as [_ _ Hph [L1 L2 L3 L4]].
  split; [done|]. split; [done|]. split; [done|]. split; [done|]. intros a kid k Hwait Hk He.
  destruct (Hph a _ Hwait) as [Hu (k' & Hk' & Hpar)]. assert (k' = k) as -> by congruence.
  destruct (reap_ok w a kid k Hw Hu Hk Hpar He) as (st & s' & Hreap & _ & [[_ _ _ [_ L2' L3' _]] _]); [by eapply not_departed|]. exists st. eexists.
  split. { simpl. rewrite Hwait. unfold waitpid_woken. rewrite (deref_Some _ _ _ Hk). ostep.
    rewrite bool_decide_eq_false_2 by lia. rewrite Hreap. ostep. done. }
  simpl in *. split; [|split; [done|split; [apply lookup_insert_eq|]]].
  - assert (Hin : Exited kid st ∈ Reaped a kid st :: w_log w) by (eapply L2'; by left). by apply elem_of_cons in Hin as [?|?].
  - apply L3'. by left.
Qed.

(** The slot of a process without a parent is lost when it exits: whatever
    runs afterwards, the process stays in the table, not marked as exited. This
    holds of every program started from the menu and of every process whose
    parent has exited first. *)
Theorem parentless_slot_leaks w a p c cs : winv w → (∀ n, nomem n = false) → forallb in_table cs = true → in_order (4 * length cs) w →
  w_phase w !! a = Some Running → procs (w_sys w) !! a = Some p → p_parent p = None →
  ∃ w1 w', pexec nomem (Exit a c) w = Ret w1 ∧ runs_to cs w1 w' ∧ procs (w_sys w') !! a = Some p ∧ p_exit p = 0 ∧
    proctable (w_sys w') !! Z.to_nat (PID p) = Some (Some a).
Proof.
  intros Hw Hmem Hcs HO Hrun Hp Hpar. destruct (wi_phase w Hw a _ Hrun) as (p' & t & fds & Hp' & He & _). assert (p' = p) as -> by congruence.
  destruct (exit_root_step w a p c Hw Hrun Hp Hpar) as [Hw1 Hs1].
  set (w1 := World (w_sys w) (<[a := Leaving]> (w_phase w)) (w_exe w) (Exited a c :: w_log w)) in *.
  assert (Hst : stuck a p w1) by (split_and!; [done..|left; apply lookup_insert_eq]).
  destruct (prun_ok cs w1 Hmem Hcs Hw1 HO) as (w2 & Hr2 & [Hw2 Hs2] & _). destruct (Hs2 a p Hst) as (Hp2 & _).
  exists w1, w2. split; [|split; [done|split; [done|split; [done|]]]].
  - simpl. unfold running. rewrite bool_decide_eq_true_2 by done. unfold exit_locked. rewrite (deref_Some _ _ _ Hp). ostep. by rewrite Hpar.
  - apply (po_slot _ _ _ (pi_proc _ (wi_procs w2 Hw2) a p Hp2)).
Qed.

(** fd_table_open takes the lowest free descriptor for a new file with
    offset 0 and one reference, and fails with EMFILE exactly when all twenty
    are taken or with the error of vfs_open, the table then being unchanged. *)
Theorem fd_table_open_lowest s a t fds name flag : (∀ n, nomem n = false) → finv s → has_table s a t fds → vorder 1 s →
  ∃ r s', fd_table_open nomem a name flag s = Ret (r, s') ∧ finv s' ∧
    match r with
    | inl e => tables s' = tables s ∧ files s' = files s ∧
        ((e = EMFILE ∧ ∀ i c, fds !! i = Some c → c ≠ None) ∨ vfs_open name flag (vstate s) = Ret (inl e, vstate s'))
    | inr fd => 0 ≤ fd < 20 ∧ fds !! Z.to_nat fd = Some None ∧ (∀ j c, (j < Z.to_nat fd)%nat → fds !! j = Some c → c ≠ None) ∧
        ∃ f vn, files s !! f = None ∧ vfs_open name flag (vstate s) = Ret (inr vn, vstate s') ∧
          files s' = <[f := File 0 1 flag vn]> (files s) ∧ tables s' = <[t := <[Z.to_nat fd := Some f]> fds]> (tables s)
    end.
Proof.
  intros Hmem Hf Hh Hv. destruct (fd_table_open_ok nomem Hmem s a t fds name flag 0 Hf Hh Hv) as (r & s' & Hrun & Hf' & _ & _ & Hr).
  exists r, s'. split; [done|]. split; [done|]. destruct r as [e|fd].
  - destruct Hr as (? & ? & Hc). split; [done|]. split; [done|]. naive_solver.
  - destruct Hr as (? & ? & ? & f & vn & Hfr & ?). split; [done|]. split; [done|]. split; [done|]. exists f, vn. split; [|done].
    destruct (files s !! f) as [x|] eqn:E; [apply (fi_files s Hf) in E; lia|done].
Qed.
End properties.

(** ** Reading and writing *)

Section transfers.
Context {V : Type} `{Vfs V}.

Definition sys_io (rw : uio_rw) := match rw with UIO_READ => sys_read (V := V) | UIO_WRITE => sys_write end.
Definition VOP_IO (rw : uio_rw) := match rw with UIO_READ => VOP_READ (V := V) | UIO_WRITE => VOP_WRITE end.
(** The flag word that the call refuses. The whole word the file was opened with is compared, O_CREAT and the like
    included. *)
Definition wrong_flag (rw : uio_rw) : Z := match rw with UIO_READ => O_WRONLY | UIO_WRITE => O_RDONLY end.

Definition user_buffer (buf : Z) : Prop := buf ≠ 0 ∧ buf ≠ 0x40000000 ∧ buf ≠ 0x80000000.

Lemma sys_io_bad rw s a t fds fd buf n m : has_table s a t fds → length fds = 20%nat → user_buffer buf →
  (∀ f, ¬ (0 ≤ fd ∧ fds !! Z.to_nat fd = Some (Some f))) → sys_io rw a fd buf n m s = Ret (inl EBADF, m, s).
Proof.
  intros Hh Hlen (Hb & _) Hno. assert (Hcase : (fd < 0 ∨ 20 ≤ fd) ∨ (0 ≤ fd < 20 ∧ fds !! Z.to_nat fd = Some None)).
  { destruct (decide (0 ≤ fd < 20)) as [Hr|]; [right|left; lia]. split; [done|].
    destruct (lookup_lt_is_Some_2 fds (Z.to_nat fd)) as [[f|] Hf]; [lia| |done]. destruct (Hno f). split; [lia|done]. }
  destruct rw; simpl; unfold sys_read, sys_write, valid_fd, MAX_FILE_OPEN.
  - destruct Hcase as [Hout|[Hr Hf]].
    + assert (bool_decide (fd < 0) || bool_decide (20 ≤ fd) = true) as -> by (do 2 case_bool_decide; done || lia). done.
    + bdec. rewrite (my_table_ok s a t fds) by done. ostep.
      rewrite (rd_lookup fds fd None) by (done || lia). done.
  - destruct Hcase as [Hout|[Hr Hf]].
    + assert (bool_decide (fd < 0) || bool_decide (20 ≤ fd) = true) as -> by (do 2 case_bool_decide; done || lia). done.
    + bdec. rewrite (my_table_ok s a t fds) by done. ostep. rewrite (rd_lookup fds fd None) by (done || lia). done.
Qed.

Lemma sys_io_open rw s a t fds fd buf n m f x : has_table s a t fds → user_buffer buf → 0 ≤ fd < 20 → fds !! Z.to_nat fd = Some (Some f) →
  files s !! f = Some x →
  sys_io rw a fd buf n m s =
    if bool_decide (f_flag x = wrong_flag rw) then Ret (inl EBADF, m, s)
    else
      '(e, (m, u, v)) ← VOP_IO rw (f_vn x) m (mk_kuio buf n (f_offset x) rw) (vstate s);
      if bool_decide (e ≠ 0) then Ret (inl e, m, set_vstate v s)
      else s ← set_offset f (uio_offset u) (set_vstate v s); Ret (inr (s32 (n - uio_resid u)), m, s).
Proof.
  intros Hh (Hb1 & Hb2 & Hb3) Hfd Hf Hx. destruct rw; simpl; unfold sys_read, sys_write, valid_fd, MAX_FILE_OPEN.
  - bdec. rewrite (my_table_ok s a t fds) by done. ostep.
    rewrite (rd_lookup fds fd (Some f)) by (done || lia). ostep. rewrite (deref_Some _ _ _ Hx). done.
  - bdec. rewrite (my_table_ok s a t fds) by done. ostep. rewrite (rd_lookup fds fd (Some f)) by (done || lia). ostep.
    bdec. rewrite (deref_Some _ _ _ Hx). done.
Qed.

(** [C31] Reading and writing through a descriptor: the call gives EBADF for a
    number that is no descriptor, and when the flags of the file are exactly O_WRONLY for a read or
    O_RDONLY for a write; with O_CREAT or another bit added the transfer is made. The call
    hands the transfer, at the file's offset, to the file system and returns its
    error, or else as many bytes as are no longer left to transfer, the offset the file system leaves becoming the
    file's, which all descriptors of the file share; nothing
    else changes. So a file system that moves [k] bytes has [k] returned and the offset moved by [k]. *)
Theorem descriptor_io rw s a t fds fd buf n m : finv s → has_table s a t fds → user_buffer buf → 0 ≤ n < 2 ^ 31 →
  ((∀ f, ¬ (0 ≤ fd ∧ fds !! Z.to_nat fd = Some (Some f))) → sys_io rw a fd buf n m s = Ret (inl EBADF, m, s)) ∧
  ∀ f, 0 ≤ fd → fds !! Z.to_nat fd = Some (Some f) → ∃ x, files s !! f = Some x ∧
    (f_flag x = wrong_flag rw → sys_io rw a fd buf n m s = Ret (inl EBADF, m, s)) ∧
    ∀ e m' u v, f_flag x ≠ wrong_flag rw → VOP_IO rw (f_vn x) m (mk_kuio buf n (f_offset x) rw) (vstate s) = Ret (e, (m', u, v)) →
      let after off := set_files (<[f := File off (f_ref x) (f_flag x) (f_vn x)]> (files s)) (set_vstate v s) in
      (e ≠ 0 → sys_io rw a fd buf n m s = Ret (inl e, m', set_vstate v s)) ∧
      (e = 0 → sys_io rw a fd buf n m s = Ret (inr (s32 (n - uio_resid u)), m', after (uio_offset u))) ∧
      (∀ k, e = 0 → 0 ≤ k ≤ n → u = moved k (mk_kuio buf n (f_offset x) rw) → sys_io rw a fd buf n m s = Ret (inr k, m', after (f_offset x + k))).
Proof.
  intros Hf Hh Hbuf Hn. pose proof Hh as (p & Hp & Hpt & Ht). destruct (fi_tables s Hf t fds Ht) as [Hlen _].
  split; [by apply (sys_io_bad rw s a t fds)|]. intros f Hfd Hfds. destruct (descriptor_live s t fds _ f Hf Ht Hfds) as (x & Hx & _).
  exists x. split; [done|]. assert (Hr : 0 ≤ fd < 20) by (apply lookup_lt_Some in Hfds; lia).
  rewrite (sys_io_open rw s a t fds fd buf n m f x) by done. split; [intros; by rewrite bool_decide_eq_true_2|].
  intros e m' u v Hfl Hv. rewrite bool_decide_eq_false_2, Hv by done. ostep. cbv zeta.
  assert (Hok : e = 0 → (s ← set_offset f (uio_offset u) (set_vstate v s); Ret (inr (s32 (n - uio_resid u)) : result Z, m', s)) =
    Ret (inr (s32 (n - uio_resid u)), m', set_files (<[f := File (uio_offset u) (f_ref x) (f_flag x) (f_vn x)]> (files s)) (set_vstate v s))).
  { intros _. unfold set_offset. cbn [files set_vstate]. rewrite (deref_Some _ _ _ Hx). ostep. done. }
  split; [intros He; by rewrite bool_decide_eq_true_2|]. split; [intros He; rewrite bool_decide_eq_false_2 by auto; by apply Hok|].
  intros k He Hk ->. rewrite bool_decide_eq_false_2 by auto. rewrite Hok by done. simpl.
  replace (n - (n - k)) with k by lia. rewrite s32_small by lia. done.
Qed.
End transfers.

(** ** A file layer for concrete runs

    The console is vnode 0; every other path is a file of its own, the vnodes numbered in the order they are opened; a
    vnode that is not open cannot be closed; a transfer moves everything and no data. *)

Definition move_all {V} (_ : Z) (m : memory) (u : uio) (v : V) : outcome (Z * (memory * uio * V)) := Ret (0, (m, moved (uio_resid u) u, v)).

Definition numbered : Type := Z * gset Z.

#[local] Instance numbered_vfs : Vfs numbered := {|
  vfs_open name _ v := let vn := if bool_decide (name = con) then 0 else v.1 in Ret (inr vn, (v.1 + 1, {[vn]} ∪ v.2));
  vfs_close vn v := if bool_decide (vn ∈ v.2) then Ret (v.1, v.2 ∖ {[vn]}) else Wild;
  VOP_READ := move_all;
  VOP_WRITE := move_all
|}.

#[local] Program Instance numbered_laws : VfsLaws numbered := {| vfs_in_order _ O v := v.2 = O |}.
Next Obligation. done. Qed.
Next Obligation. intros k O name flag v <-. by eexists _, _. Qed.
Next Obligation. intros k O vn v <- Hin. simpl. rewrite bool_decide_eq_true_2 by done. by eexists. Qed.

Definition no_fail (_ : nat) : bool := false.
Definition blank : list (option nat) := replicate 100 (Some 7%nat).
Definition fresh_vfs : numbered := (1, ∅).
Definition prog : list Z := [112].

(** A run from boot, as a state. *)
Definition after_run (cs : list pcmd) : world (tracked numbered) :=
  match (w ← boot no_fail blank (Tracked fresh_vfs ∅); prun no_fail cs w) with
  | Ret w => w
  | _ => World (Sys ∅ ∅ ∅ ∅ [] 0 (Tracked fresh_vfs ∅)) ∅ ∅ []
  end.

(** The first program is process 3 (at that address); its child is 16. *)
Definition family_cmds : list pcmd := [Start prog Loaded; Fork 3].
Definition family : world (tracked numbered) := after_run family_cmds.

Definition life : list pcmd := family_cmds ++ [Wait 3 2 0; Exit 16 42; Open 3 prog 2; Close 3 3].
Definition life_end : world (tracked numbered) := after_run (life ++ [Wake 3; Exit 3 0; Leave 3]).

Example life_log : w_log life_end = [Exited 3 0; Reaped 3 16 42; Exited 16 42] ∧ w_phase life_end !! 3%nat = Some Ended ∧
  w_phase life_end !! 16%nat = Some Leaving.
Proof. vm_compute. split; [reflexivity|split; reflexivity]. Qed.

Lemma fresh_in_order k : vfs_in_order k ∅ fresh_vfs.
Proof. reflexivity. Qed.

Lemma no_fail_ok n : no_fail n = false.
Proof. done. Qed.


Lemma waitpid_delivers_status_witness : ∃ w0 w, boot no_fail blank (Tracked fresh_vfs ∅) = Ret w0 ∧ runs_to no_fail life w0 w ∧
  ∀ a k st, Reaped a k st ∈ w_log w → Exited k st ∈ w_log w.
Proof.
  destruct (waitpid_delivers_status no_fail blank fresh_vfs ∅ life no_fail_ok eq_refl eq_refl (fresh_in_order _)) as (w0 & w & H1 & H2 & H3 & _). exists w0, w.
  split; [exact H1|]. split; [exact H2|exact H3].
Defined.

(** A run without a close that goes wrong runs to the end. *)
Lemma family_inv : winv family ∧ ∀ k, in_order k family.
Proof.
  destruct (boot_ok no_fail blank (Tracked fresh_vfs ∅) no_fail_ok eq_refl) as (w0 & Hb & Hw0 & Hv).
  destruct (prun_ok no_fail family_cmds w0 no_fail_ok eq_refl Hw0) as (w & (cs1 & cs2 & Hcs & Hrun & Hend) & [Hw _] & _).
  { unfold in_order. by rewrite Hv. }
  assert (cs2 = []) as ->.
  { destruct cs2 as [|c cs2]; [done|]. assert (Hin : c ∈ family_cmds) by (rewrite Hcs; apply elem_of_app; right; left).
    by apply elem_of_cons in Hin as [->|[->|[]%elem_of_nil]%elem_of_cons]. }
  rewrite app_nil_r in Hcs. subst cs1. unfold family, after_run. rewrite Hb, bind_Ret, Hrun. split; [done|].
  assert (He : w = family) by (unfold family, after_run; by rewrite Hb, bind_Ret, Hrun). rewrite He. intros k. vm_compute. reflexivity.
Qed.

Definition root_process : process := Process 1 None 0 (Some 6%nat) (Some 8%nat) (Some 10%nat) (Some 12%nat) None.

Lemma family_root : w_phase family !! 3%nat = Some Running ∧ procs (w_sys family) !! 3%nat = Some root_process.
Proof. vm_compute. split; reflexivity. Qed.

Lemma parentless_slot_leaks_witness : ∃ w1 w', pexec no_fail (Exit 3 0) family = Ret w1 ∧
  runs_to no_fail [Leave 3; Start prog Loaded; Wait 16 1 0] w1 w' ∧ procs (w_sys w') !! 3%nat = Some root_process.
Proof.
  destruct (parentless_slot_leaks no_fail family 3 root_process 0 [Leave 3; Start prog Loaded; Wait 16 1 0] (proj1 family_inv) no_fail_ok eq_refl
    (proj2 family_inv _) (proj1 family_root) (proj2 family_root) eq_refl) as (w1 & w' & H1 & H2 & H3 & _). exists w1, w'.
  split; [exact H1|]. split; [exact H2|exact H3].
Defined.

Lemma family_table : has_table (w_sys family) 16 23 ([Some 13; Some 14; Some 15] ++ replicate 17 None)%nat.
Proof. eexists. vm_compute. split; [reflexivity|]. split; reflexivity. Qed.

Lemma family_order : vorder 1 (w_sys family).
Proof. eexists. split; [reflexivity|exact (proj2 family_inv 1%nat)]. Qed.

Lemma fd_table_open_lowest_witness : ∃ r s', fd_table_open no_fail 16 con 2 (w_sys family) = Ret (r, s') ∧ finv s'.
Proof.
  destruct (fd_table_open_lowest no_fail (w_sys family) 16 23 _ con 2 no_fail_ok (wi_files _ (proj1 family_inv)) family_table family_order)
    as (r & s' & H1 & H2 & _). exists r, s'. split; [exact H1|exact H2].
Defined.

Lemma descriptor_io_witness : sys_io UIO_WRITE 16 0 0x400000 10 ∅ (w_sys family) = Ret (inl EBADF, ∅, w_sys family).
Proof.
  destruct (descriptor_io UIO_WRITE (w_sys family) 16 23 _ 0 0x400000 10 ∅ (wi_files _ (proj1 family_inv)) family_table) as [_ H];
    [split; [lia|split; lia]|lia|].
  destruct (H 13%nat ltac:(lia) eq_refl) as (x & Hx & Hbad & _). apply Hbad. vm_compute in Hx. injection Hx as <-. reflexivity.
Defined.

(** ** What goes wrong *)

(** The closes that [bad_close] names: the three descriptors of a new program are one vnode, the console's, which can
    be closed once; _exit of a forked child closes a vnode that was never set; _exit after execv closes
    a vnode that execv has closed already. *)
Example closes_go_wrong :
  prun no_fail [Close 3 1; Close 3 2] (after_run [Start prog Loaded]) = Wild ∧
  prun no_fail [Exit 16 0; Leave 16] family = Wild ∧
  prun no_fail [Exec 3 prog Loaded; Exit 3 0; Leave 3] (after_run [Start prog Loaded]) = Wild.
Proof. vm_compute. split; [reflexivity|split; reflexivity]. Qed.

(** A file opened with O_WRONLY and O_CREAT can be read. *)
Example created_file_read :
  ('(_, s) ← fd_table_open no_fail 3 prog (Z.lor O_WRONLY 4) (w_sys family);
   '(r, _, _) ← sys_read 3 3 0x400000 10 ∅ s; Ret r) = Ret (inr 10).
Proof. vm_compute. reflexivity. Qed.

(** Ninety-nine programs, all of which have exited, fill the table: no further
    program can be started. A fork then returns EAGAIN to the caller as if it
    were the number of a child. *)
Definition crowd : world (tracked numbered) := after_run (replicate 99 (Start prog Loaded)).
Definition crowd_gone : world (tracked numbered) :=
  match prun no_fail (flat_map (λ x, [Exit x.1 0; Leave x.1]) (map_to_list (w_phase crowd))) crowd with Ret w => w | _ => crowd end.

Example programs_fill_table :
  length (filter (λ x, x.2 = Ended) (map_to_list (w_phase crowd_gone))) = 99%nat ∧
  ('(r, _) ← start_program no_fail prog Loaded (w_sys crowd_gone); Ret r) = Ret None ∧
  ('(n, _, _) ← md_forkentry no_fail 0 3 (w_sys crowd); Ret (sys_fork_result n)) = Ret (0, EAGAIN).
Proof. vm_compute. split; [reflexivity|]. split; reflexivity. Qed.

(** Two switches that the process table does not survive. A process that
    forks while another is between choosing a slot and entering its child in it
    gets the same number for its child. A process that has looked up the pointer
    of somebody else's child in waitpid follows it after that child has been
    reaped and freed. *)
Example process_table_races :
  (let s := w_sys family in
   '(pid1, s) ← find_slot s;
   '(pid2, s) ← find_slot s;
   '(c1, s) ← enter_child no_fail pid1 None s;
   '(c2, s) ← enter_child no_fail pid2 None s;
   Ret (pid1, pid2, bool_decide (c1 = c2), proctable s !! 3%nat)) = Ret (3, 3, false, Some (Some 34%nat)) ∧
  (let w := after_run (family_cmds ++ [Start prog Loaded; Exit 16 0]) in
   kid ← process_get 2 (w_sys w);
   w ← pexec no_fail (Wait 3 2 0) w;
   waitpid_locked 27 kid (w_sys w)) = Wild.
Proof. vm_compute. split; reflexivity. Qed.

(** Closing a shared descriptor twice frees the file under the other process:
    the first close leaves the descriptor in place, the second takes the last
    reference, and a read of the child follows the freed pointer. *)
Example shared_close_frees_file :
  ('(e1, s) ← sys_close 3 0 (w_sys family);
   '(e2, s) ← sys_close 3 0 s;
   Ret (e1, e2, bool_decide (files s !! 13%nat = None))) = Ret (0, 0, true) ∧
  ('(_, s) ← sys_close 3 0 (w_sys family);
   '(_, s) ← sys_close 3 0 s;
   sys_read 16 0 0x400000 10 ∅ s) = Wild.
Proof. vm_compute. split; reflexivity. Qed.

(** waitpid on the number after the last one reads past the table. *)
Example waitpid_past_table : waitpid 3 100 0 (w_sys family) = Wild.
Proof. vm_compute. reflexivity. Qed.

(** Fork opens the console three times for a table that it then overwrites: three
    files with a reference that no descriptor holds. *)
Example fork_leaks_console :
  map (λ f, (refs f (tables (w_sys family)), ref_of (w_sys family) f)) [13; 24; 25; 26]%nat = [(2, 2); (0, 1); (0, 1); (0, 1)].
Proof. vm_compute. reflexivity. Qed.
