(* ===== verification/ProcessVfs.v ===== *)
(** * Processes over the VFS layer

    The system calls of Process.v need of the VFS layer what [VfsLaws] says. The
    layer of Vfs.v gives it, over any file systems that keep the interface
    [FileSystem], SFS in particular, as long as memory is not lacking: what can be
    closed are the vnodes whose lock is the one vfs_open made last. *)

From S2P Require Import Prelude CArray KHeap KHeapSpec Coremap Uio CString Sfs SfsVnode SfsTheorems SfsTree SfsOps SfsLoad SfsNames FileSys SfsNamespace SfsSystem.
From S2P Require Import Vfs VfsPath VfsInv VfsOps VfsCalls VfsResolve VfsState VfsSpec VfsRefine VfsDirs VfsMounts VfsAdd VfsClients VfsSystem.
From S2P Require Import Process ProcessSpec FdSpec ProcessTheorems.

(** ** What is locked *)

Lemma locate_locked (low : Prop) Y t w flags r Y' : locate low Y t w flags r Y' → y_locked Y' = y_locked Y.
Proof.
  unfold locate. destruct (flag flags O_CREAT); [|intros [Hc _]; apply Hc]. destruct (parent Y t w) as [e|f]; [intros [_ Hc]; apply Hc|].
  destruct r as [e|ob]; [intros [Hc _]; apply Hc|]. intros (ino & _ & [(_ & _ & Hc)|(_ & _ & Ha)]); [apply Hc|apply Ha].
Qed.

Lemma open_locked (low short : Prop) Y t w flags r Y' : open_spec low short Y t w flags r Y' → ¬ short →
  y_locked Y' = match r with inr v => {[v]} ∪ y_locked Y | inl _ => y_locked Y end.
Proof.
  unfold open_spec. intros H Hs. destruct (open_mode flags) as [cw|]; [|destruct H as [-> Hc]; apply Hc]. destruct H as (lr & Y1 & Hloc & H).
  rewrite <- (locate_locked _ _ _ _ _ _ _ Hloc). destruct lr as [e|ob]; [by destruct H as [-> ->]|].
  destruct (decide _) in H; [|destruct H as [-> Hc]; apply Hc]. destruct H as (v & Y2 & Y3 & -> & _ & Hre & Hem & [->|[? _]]); [|done]. simpl.
  by rewrite (proj1 (emptied_opened _ _ _ _ Hem)), (reopened_locked _ _ _ _ _ Hre).
Qed.

Lemma close_locked Y v Y' : close_spec Y v Y' → y_locked Y' = y_locked Y ∖ {[v]}.
Proof. intros (Y1 & Hre & Hc). transitivity (y_locked Y1); [apply Hc|]. by rewrite (reopened_locked _ _ _ _ _ Hre). Qed.

(** ** The numbers of vnodes *)

Definition vnum (v : vptr) : Z := Zpos (encode v).
Definition vof (n : Z) : option vptr := match n with Zpos p => decode p | _ => None end.

Lemma vof_vnum v : vof (vnum v) = Some v.
Proof. unfold vof, vnum. apply decode_encode. Qed.

#[local] Instance vnum_inj : Inj (=) (=) vnum.
Proof. intros u v Huv. apply (f_equal vof) in Huv. rewrite !vof_vnum in Huv. congruence. Qed.

Definition vnums (X : gset vptr) : gset Z := set_map vnum X.

Lemma vnums_add v X : vnums ({[v]} ∪ X) = {[vnum v]} ∪ vnums X.
Proof. unfold vnums. by rewrite set_map_union_L, set_map_singleton_L. Qed.

Lemma vnums_remove v X : vnums (X ∖ {[v]}) = vnums X ∖ {[vnum v]}.
Proof.
  apply set_eq. intros n. unfold vnums. rewrite elem_of_difference, !elem_of_map, elem_of_singleton. split.
  - intros (u & -> & Hu). split; [exists u; set_solver|]. intros ->%(inj vnum). set_solver.
  - intros [(u & -> & Hu) Hne]. exists u. split; [done|]. set_solver.
Qed.

(** ** The layer *)

Section layer.
Context {D S : Type} (present : Z → bool) (space : Z) (fsops : nat → FsOps D S) (laws : ∀ f, FileSystem D S present space (H := fsops f)).
Context (nomem : nat → bool) (stack : list Z) (Hstack : len stack = 256) (t : nat).
Abbreviation state := (vfs D S).
Abbreviation vgood := (vgood present space fsops laws).
Abbreviation lacking := (lacking present space fsops laws nomem).

Definition on_vnode {A} (vn : Z) (f : vptr → outcome A) : outcome A := match vof vn with Some v => f v | None => Wild end.

Definition transfer (m : outcome (Z * (memory * uio) * state)) : outcome (Z * (memory * uio * state)) :=
  '(e, (m, u), st) ← m; Ret (e, (m, u, st)).

(** The calls of the processes, in the working directory of the thread [t]; paths get their terminator. *)
#[local] Instance kernel_vfs : Process.Vfs state := {|
  Process.vfs_open name flag st := '(st, r) ← Vfs.vfs_open fsops nomem stack t (name ++ [0]) flag st; Ret (match r with inr v => inr (vnum v) | inl e => inl e end, st);
  Process.vfs_close vn st := on_vnode vn (λ v, Vfs.vfs_close fsops v st);
  Process.VOP_READ vn m u st := on_vnode vn (λ v, transfer (Vfs.VOP_READ fsops v m u st));
  Process.VOP_WRITE vn m u st := on_vnode vn (λ v, transfer (Vfs.VOP_WRITE fsops v m u st))
|}.

(** In order for [k] calls: [n] bounds the reference counts, and a call adds at most 16. *)
Definition vfs_ready (k : nat) (O : gset Z) (st : state) : Prop :=
  ∃ Y n, vgood st Y n ∧ 0 ≤ n ∧ n + 16 * Z.of_nat k < 2 ^ 31 - 64 ∧ O = vnums (y_locked Y).

Context (enough : ¬ lacking).

Lemma kernel_open k O name flag st : vfs_ready (Datatypes.S k) O st → ∃ r st', Process.vfs_open name flag st = Ret (r, st') ∧
  vfs_ready k (match r with inr vn => {[vn]} ∪ O | inl _ => O end) st'.
Proof.
  intros (Y & n & Hg & Hn & Hk & ->). pose proof Hg as (Hi & Hu & Ho). assert (Hlow : ¬ low present space fsops laws) by (intros H; apply enough; by left).
  destruct (safely_enough _ _ _ (vfs_open_ok present space fsops laws nomem stack Hstack t st Y n (name ++ [0]) flag Hi ltac:(lia) Hu ltac:(set_solver)) Hlow)
    as ([st' r] & Hrun & Y' & Hi' & Hu' & Hs).
  pose proof (open_locked _ _ _ _ _ _ _ _ Hs) as Hl. simpl. rewrite Hrun. eexists _, st'. split; [done|].
  exists Y', (n + 16). split; [|split; [lia|split; [lia|]]].
  - split; [eapply vinv_later; [done|lia]|]. split; [done|]. eapply open_opened; [exact Hs| |done]. intros v. by eapply open_count_nonneg.
  - rewrite Hl by (intros H; apply enough; by right). destruct r; [done|]. by rewrite vnums_add.
Qed.

Lemma kernel_close k O vn st : vfs_ready (Datatypes.S k) O st → vn ∈ O → ∃ st', Process.vfs_close vn st = Ret st' ∧ vfs_ready k (O ∖ {[vn]}) st'.
Proof.
  intros (Y & n & Hg & Hn & Hk & ->) (v & -> & Hv)%elem_of_map. pose proof Hg as (Hi & Hu & Ho). simpl. unfold on_vnode. rewrite vof_vnum.
  destruct (vfs_close_ok present space fsops laws stack Hstack st Y n v Hi ltac:(lia) Hu Hv (Ho v Hv)) as (st' & -> & Y' & Hi' & Hu' & Hs).
  exists st'. split; [done|]. exists Y', (n + 16). split; [|split; [lia|split; [lia|by rewrite (close_locked _ _ _ Hs), vnums_remove]]].
  split; [eapply vinv_later; [done|lia]|]. split; [done|]. by eapply close_opened.
Qed.

(** The layer keeps its contract with the processes. *)
#[local] Instance kernel_vfs_laws : Process.VfsLaws state.
Proof.
  apply (Process.Build_VfsLaws _ _ vfs_ready).
  - intros k O st (Y & n & Hg & Hn & Hk & ->). exists Y, n. split; [done|]. split; [done|]. split; [lia|done].
  - exact kernel_open.
  - exact kernel_close.
Defined.

End layer.

(** ** A console

    The kernel with one device, "con", and no file system; the program is read from the console as well. *)

Definition con_name : list Z := [99; 111; 110; 0].
Definition con_device : device Sfs.disk := Device (λ _, 0) 0 (λ m u dk, Ret (0, (m, moved (uio_resid u) u, dk))) EIOCTL 0 1 healthy_disk.
Definition con_added : outcome (vreply * vfs Sfs.disk sfs) := vrun sfs_at memory_enough a_stack 0 (CAdddev con_name con_device None false) no_devices.
Definition with_con : vfs Sfs.disk sfs := match con_added with Ret (_, st) => st | _ => no_devices end.

Lemma with_con_good : ∃ Y, VfsClients.vgood no_user 0 sfs_at sfs_laws with_con Y 16.
Proof.
  destruct (safely_enough _ _ _ (vrun_ok no_user 0 sfs_at sfs_laws memory_enough a_stack a_stack_ok sfs_uniform no_devices nothing_yet 0 0
    (CAdddev con_name con_device None false) no_devices_good ltac:(lia) ltac:(split; [unfold con_name; set_solver|done])) VfsSystem.enough) as ([r st] & Hrun & Y & Hg & _).
  exists Y. unfold with_con, con_added. by rewrite Hrun.
Qed.

(** A parent, its child and a file, up to the _exit of the parent. *)
Definition console_life : list pcmd := [Start con Loaded; Fork 3; Wait 3 2 0; Exit 16 42; Wake 3; Open 3 con 2; Close 3 3; Exit 3 0].


(** The run is as it should be, but a program that closes two of its three descriptors destroys the lock of the
    console's vnode twice. *)
Definition console_run (cs : list pcmd) : outcome (list event) :=
  let _ := kernel_vfs sfs_at memory_enough a_stack 0 in
  w ← boot no_fail blank with_con; w ← prun no_fail cs w; Ret (w_log w).

Example console_runs : console_run console_life = Ret [Exited 3 0; Reaped 3 16 42; Exited 16 42] ∧
  console_run [Start con Loaded; Close 3 0; Close 3 1] = Wild.
Proof. vm_compute. split; reflexivity. Qed.
