(* ===== verification/AddrSpace.v ===== *)
(** * Address spaces, the TLB and page faults: kern/vm/addrspace.c,
    kern/vm/vm-tlb.c, kern/vm/uw-vmstats.c, the functions vm_fault and
    load_each_segment of kern/vm/vm.c, and kern/userprog/loadelf.c

    The pages of a segment are structures of the kernel heap, reached through
    the arrays of the address space; fields that the code leaves unset are
    [None], and using them is [Wild]. The frames come from an interface,
    [Frames], which the coremap implements. Physical memory is a map from
    addresses to bytes, and the translation of the MIPS is written out: a store
    from the kernel to a user page goes through the TLB and may fault again, so
    that vm_fault calls itself through the copy of a page from the executable.

    [nomem n] says whether the [n]th kmalloc of a page structure fails, [km n]
    whether kmalloc has [n] bytes for an array. [exe v off n] is what VOP_READ
    of [n] bytes at [off] gives on the vnode [v]: an error number and the bytes
    transferred. *)

From S2P Require Import Prelude CArray KHeap KHeapSpec Coremap Uio.

Definition SPL_HIGH : Z := 15.
Definition USERSTACK : Z := USERTOP.
Definition DUMBVM_STACKPAGES : Z := 12.
Definition E_ONLY : Z := 1.
Definition RWE : Z := 7.
Definition VM_FAULT_READ : Z := 0.
Definition VM_FAULT_WRITE : Z := 1.
Definition VM_FAULT_READONLY : Z := 2.

Definition NUM_TLB : Z := 64.
Definition TLBHI_VPAGE : Z := 0xfffff000.
Definition TLBLO_PPAGE : Z := 0xfffff000.
Definition TLBLO_DIRTY : Z := 0x400.
Definition TLBLO_VALID : Z := 0x200.
Definition TLBHI_INVALID (entryno : Z) : Z := u32 (Z.shiftl (0x80000 + entryno) 12).
Definition TLBLO_INVALID : Z := 0.

Definition VMSTAT_TLB_FAULT : Z := 0.
Definition VMSTAT_TLB_FAULT_FREE : Z := 1.
Definition VMSTAT_TLB_FAULT_REPLACE : Z := 2.
Definition VMSTAT_TLB_INVALIDATE : Z := 3.
Definition VMSTAT_TLB_RELOAD : Z := 4.
Definition VMSTAT_PAGE_FAULT_ZERO : Z := 5.
Definition VMSTAT_PAGE_FAULT_DISK : Z := 6.
Definition VMSTAT_ELF_FILE_READ : Z := 7.
Definition VMSTAT_COUNT : Z := 10.

(** ** The frame allocator: getppages(1) *)

Class Frames (F : Type) := {
  getframe : F → outcome (F * Z);
  fr_inv : F → Prop;
  fr_used : F → Z → Prop;
  (** A frame handed out is aligned, below the unmapped segments, and new. *)
  getframe_spec f : fr_inv f → ∃ f' a, getframe f = Ret (f', a) ∧ fr_inv f' ∧
    ((a = 0 ∧ ∀ b, fr_used f' b ↔ fr_used f b) ∨
     (0 < a < 2 ^ 31 ∧ a mod PAGE_SIZE = 0 ∧ ¬ fr_used f a ∧ ∀ b, fr_used f' b ↔ fr_used f b ∨ b = a))
}.

(** ** State *)

Record page := Page { pg_vaddr : Z; pg_paddr : option Z; pg_valid : Z; pg_permission : Z }.

(** A segment of the address space: base, pages, file size, file offset, flags
    and page table. *)
Record segment := Segment {
  as_vbase : Z; as_npages : Z; as_filesz : option Z; as_off : option Z; as_flag : option Z;
  useg : option (array nat)
}.

(** Code, data and stack. *)
Record addrspace := AddrSpace { seg1 : segment; seg2 : segment; usegs : option (array nat); as_v : option Z }.

Record vms (F : Type) := Vms {
  pages : gmap nat page; npage : nat;
  tlb : list (Z * Z); next_victim : Z; tlb_lock : bool;
  frames : F; phys : memory;
  first_read : Z; second_write : Z; first_v : Z; first_code_read : Z; code_write_nread : Z;
  stats_counts : list Z; stats_lock : bool; cpu_spl : Z
}.
Arguments Vms {F}.
Arguments pages {F}.
Arguments npage {F}.
Arguments tlb {F}.
Arguments next_victim {F}.
Arguments tlb_lock {F}.
Arguments frames {F}.
Arguments phys {F}.
Arguments first_read {F}.
Arguments second_write {F}.
Arguments first_v {F}.
Arguments first_code_read {F}.
Arguments code_write_nread {F}.
Arguments stats_counts {F}.
Arguments stats_lock {F}.
Arguments cpu_spl {F}.

(** How vm_fault ends: with a return value, or by ending the process. *)
Inductive fres := Returns (e : Z) | Killed.

#[export] Instance fres_eq_dec : EqDecision fres.
Proof. solve_decision. Defined.

Section vm.
Context {F : Type} `{!Frames F} (nomem : nat → bool) (km : Z → bool) (exe : Z → Z → Z → Z * list Z).
Implicit Types s : vms F.

Definition set_pages (x : gmap nat page) s : vms F :=
  Vms x (npage s) (tlb s) (next_victim s) (tlb_lock s) (frames s) (phys s) (first_read s) (second_write s) (first_v s) (first_code_read s) (code_write_nread s) (stats_counts s) (stats_lock s) (cpu_spl s).
Definition set_tlb (x : list (Z * Z)) s : vms F :=
  Vms (pages s) (npage s) x (next_victim s) (tlb_lock s) (frames s) (phys s) (first_read s) (second_write s) (first_v s) (first_code_read s) (code_write_nread s) (stats_counts s) (stats_lock s) (cpu_spl s).
Definition set_next_victim (x : Z) s : vms F :=
  Vms (pages s) (npage s) (tlb s) x (tlb_lock s) (frames s) (phys s) (first_read s) (second_write s) (first_v s) (first_code_read s) (code_write_nread s) (stats_counts s) (stats_lock s) (cpu_spl s).
Definition set_tlb_lock (x : bool) s : vms F :=
  Vms (pages s) (npage s) (tlb s) (next_victim s) x (frames s) (phys s) (first_read s) (second_write s) (first_v s) (first_code_read s) (code_write_nread s) (stats_counts s) (stats_lock s) (cpu_spl s).
Definition set_frames (x : F) s : vms F :=
  Vms (pages s) (npage s) (tlb s) (next_victim s) (tlb_lock s) x (phys s) (first_read s) (second_write s) (first_v s) (first_code_read s) (code_write_nread s) (stats_counts s) (stats_lock s) (cpu_spl s).
Definition set_phys (x : memory) s : vms F :=
  Vms (pages s) (npage s) (tlb s) (next_victim s) (tlb_lock s) (frames s) x (first_read s) (second_write s) (first_v s) (first_code_read s) (code_write_nread s) (stats_counts s) (stats_lock s) (cpu_spl s).
Definition set_first_read (x : Z) s : vms F :=
  Vms (pages s) (npage s) (tlb s) (next_victim s) (tlb_lock s) (frames s) (phys s) x (second_write s) (first_v s) (first_code_read s) (code_write_nread s) (stats_counts s) (stats_lock s) (cpu_spl s).
Definition set_second_write (x : Z) s : vms F :=
  Vms (pages s) (npage s) (tlb s) (next_victim s) (tlb_lock s) (frames s) (phys s) (first_read s) x (first_v s) (first_code_read s) (code_write_nread s) (stats_counts s) (stats_lock s) (cpu_spl s).
Definition set_first_v (x : Z) s : vms F :=
  Vms (pages s) (npage s) (tlb s) (next_victim s) (tlb_lock s) (frames s) (phys s) (first_read s) (second_write s) x (first_code_read s) (code_write_nread s) (stats_counts s) (stats_lock s) (cpu_spl s).
Definition set_first_code_read (x : Z) s : vms F :=
  Vms (pages s) (npage s) (tlb s) (next_victim s) (tlb_lock s) (frames s) (phys s) (first_read s) (second_write s) (first_v s) x (code_write_nread s) (stats_counts s) (stats_lock s) (cpu_spl s).
Definition set_code_write_nread (x : Z) s : vms F :=
  Vms (pages s) (npage s) (tlb s) (next_victim s) (tlb_lock s) (frames s) (phys s) (first_read s) (second_write s) (first_v s) (first_code_read s) x (stats_counts s) (stats_lock s) (cpu_spl s).
Definition set_stats_counts (x : list Z) s : vms F :=
  Vms (pages s) (npage s) (tlb s) (next_victim s) (tlb_lock s) (frames s) (phys s) (first_read s) (second_write s) (first_v s) (first_code_read s) (code_write_nread s) x (stats_lock s) (cpu_spl s).
Definition set_cpu_spl (x : Z) s : vms F :=
  Vms (pages s) (npage s) (tlb s) (next_victim s) (tlb_lock s) (frames s) (phys s) (first_read s) (second_write s) (first_v s) (first_code_read s) (code_write_nread s) (stats_counts s) (stats_lock s) x.

(** Following a pointer, and using a pointer that may be null. *)
Definition page_at (p : nat) s : outcome page := match pages s !! p with Some x => Ret x | None => Wild end.
Definition known {A} (x : option A) : outcome A := match x with Some a => Ret a | None => Wild end.
Definition set_page (p : nat) (x : page) s : vms F := set_pages (<[p := x]> (pages s)) s.

Definition kmalloc_page s : option nat * vms F :=
  (if nomem (npage s) then None else Some (npage s),
   Vms (pages s) (S (npage s)) (tlb s) (next_victim s) (tlb_lock s) (frames s) (phys s) (first_read s) (second_write s)
     (first_v s) (first_code_read s) (code_write_nread s) (stats_counts s) (stats_lock s) (cpu_spl s)).

(** ** uw-vmstats.c *)

Definition _vmstats_inc (index : Z) s : outcome (vms F) :=
  c_assert (bool_decide (index < VMSTAT_COUNT));;
  c ← rd (stats_counts s) index;
  l ← wr (stats_counts s) index (u32 (c + 1));
  Ret (set_stats_counts l s).

Definition vmstats_inc (index : Z) s : outcome (vms F) :=
  if bool_decide (cpu_spl s = SPL_HIGH) then _vmstats_inc index s
  else c_assert (stats_lock s);; _vmstats_inc index s.

(** ** vm-tlb.c and the TLB *)

Definition tlb_get_rr_victim s : Z * vms F :=
  (next_victim s, set_next_victim ((next_victim s + 1) mod NUM_TLB) s).

Definition TLB_Write (ehi elo i : Z) s : outcome (vms F) := t ← wr (tlb s) i (ehi, elo); Ret (set_tlb t s).

(** The first entry for a page, with its index. *)
Fixpoint tlb_find (t : list (Z * Z)) (vpage : Z) (i : Z) : option (Z * Z) :=
  match t with
  | [] => None
  | (ehi, elo) :: t => if bool_decide (Z.land ehi TLBHI_VPAGE = vpage) then Some (i, elo) else tlb_find t vpage (i + 1)
  end.

Definition TLB_Probe (ehi : Z) s : Z :=
  match tlb_find (tlb s) (Z.land ehi TLBHI_VPAGE) 0 with Some (i, _) => i | None => -1 end.

(** The translation of the processor: the physical address, or the exception
    with its fault type. *)
Definition translate (write : bool) (va : Z) s : Z + Z :=
  let miss := if write then VM_FAULT_WRITE else VM_FAULT_READ in
  match tlb_find (tlb s) (Z.land va TLBHI_VPAGE) 0 with
  | None => inr miss
  | Some (_, elo) =>
      if bool_decide (Z.land elo TLBLO_VALID = 0) then inr miss
      else if write && bool_decide (Z.land elo TLBLO_DIRTY = 0) then inr VM_FAULT_READONLY
      else inl (Z.land elo TLBLO_PPAGE + va mod PAGE_SIZE)
  end.

Definition lock_acquire_tlb s : outcome (vms F) := if tlb_lock s then Spin else Ret (set_tlb_lock true s).
Definition lock_release_tlb s : outcome (vms F) := c_assert (tlb_lock s);; Ret (set_tlb_lock false s).

(** ** addrspace.c *)

Definition no_segment (a : option (array nat)) : segment := Segment 0 0 None None None a.

(** The flags tell which of the four kmallocs succeed. *)
Definition as_create (ok ok1 ok2 oks : bool) : option addrspace :=
  if ok then Some (AddrSpace (no_segment (array_create ok1)) (no_segment (array_create ok2)) (array_create oks) None) else None.

(** One turn of the loops that make page structures: [mk i] is the structure. *)
Definition add_page (mk : Z → page) (i : Z) (st : array nat * vms F) : outcome (array nat * vms F) :=
  let '(a, s) := st in
  let '(p, s) := kmalloc_page s in
  p ← known p;
  '(a, _) ← array_add km a p;
  Ret (a, set_page p (mk i) s).

Definition add_pages (mk : Z → page) (n : Z) (a : option (array nat)) s : outcome (option (array nat) * vms F) :=
  match a with
  | Some a => '(a, s) ← for_each (Z.to_nat n) 0 (add_page mk) (a, s); Ret (Some a, s)
  | None => if bool_decide (0 < n) then Wild else Ret (None, s)
  end.

(** as_copy: the new pages are marked valid, their frames are not set, and
    neither are the file sizes, offsets, flags and the vnode. *)
Definition as_copy (ok ok1 ok2 oks : bool) (old : addrspace) s : outcome (result addrspace * vms F) :=
  match as_create ok ok1 ok2 oks with
  | None => Ret (inl ENOMEM, s)
  | Some new =>
      let vb1 := as_vbase (seg1 old) in
      let vb2 := as_vbase (seg2 old) in
      '(a1, s) ← add_pages (λ i, Page (u32 (vb1 + i * PAGE_SIZE)) None 1 5) (as_npages (seg1 old)) (useg (seg1 new)) s;
      '(a2, s) ← add_pages (λ i, Page (u32 (vb2 + i * PAGE_SIZE)) None 1 6) (as_npages (seg2 old)) (useg (seg2 new)) s;
      '(a3, s) ← add_pages (λ i, Page (u32 (USERSTACK - i * PAGE_SIZE)) None 1 7) DUMBVM_STACKPAGES (usegs new) s;
      Ret (inr (AddrSpace (Segment vb1 (as_npages (seg1 old)) None None None a1)
                  (Segment vb2 (as_npages (seg2 old)) None None None a2) a3 None), s)
  end.

(** [same]: the argument is curthread->t_vmspace. *)
Definition as_activate (same : bool) s : outcome (vms F) :=
  let spl := cpu_spl s in
  let s := set_cpu_spl SPL_HIGH s in
  s ← (if same then Ret s
       else
         s ← vmstats_inc VMSTAT_TLB_INVALIDATE s;
         for_each (Z.to_nat NUM_TLB) 0 (λ i, TLB_Write (TLBHI_INVALID i) TLBLO_INVALID i) s);
  Ret (set_cpu_spl spl s).

(** Setting up one segment: [sz] is the size in bytes after alignment. *)
Definition define_segment (g : segment) (vaddr sz f_sz perm : Z) s : outcome (segment * vms F) :=
  let npages := sz / PAGE_SIZE in
  a ← known (useg g);
  '(a, _) ← array_preallocate km a (s32 sz);
  '(a, s) ← for_each (Z.to_nat npages) 0 (add_page (λ i, Page (u32 (vaddr + i * PAGE_SIZE)) None 0 perm)) (a, s);
  Ret (Segment vaddr npages (Some f_sz) (as_off g) (Some perm) (Some a), s).

Definition as_define_region (asp : addrspace) (vaddr sz f_sz readable writeable executable : Z) s
    : outcome (Z * addrspace * vms F) :=
  let sz := u32 (sz + Z.land vaddr (u32 (Z.lnot PAGE_FRAME))) in
  let vaddr := Z.land vaddr PAGE_FRAME in
  let sz := Z.land (u32 (u32 (sz + PAGE_SIZE) - 1)) PAGE_FRAME in
  let perm := Z.lor (Z.lor readable writeable) executable in
  if bool_decide (as_vbase (seg1 asp) = 0) then
    '(g, s) ← define_segment (seg1 asp) vaddr sz f_sz perm s;
    Ret (0, AddrSpace g (seg2 asp) (usegs asp) (as_v asp), s)
  else if bool_decide (as_vbase (seg2 asp) = 0) then
    '(g, s) ← define_segment (seg2 asp) vaddr sz f_sz perm s;
    Ret (0, AddrSpace (seg1 asp) g (usegs asp) (as_v asp), s)
  else Ret (EUNIMP, asp, s).

(** With the initial stack pointer. *)
Definition as_define_stack (asp : addrspace) s : outcome (Z * addrspace * vms F) :=
  a ← known (usegs asp);
  '(a, _) ← array_preallocate km a DUMBVM_STACKPAGES;
  '(a, s) ← for_each (Z.to_nat DUMBVM_STACKPAGES) 0
              (add_page (λ i, Page (u32 (USERSTACK - i * PAGE_SIZE)) None 0 7)) (a, s);
  Ret (USERSTACK, AddrSpace (seg1 asp) (seg2 asp) (Some a) (as_v asp), s).

(** The arrays are freed, the page structures and their frames are not. *)
Definition as_destroy (asp : addrspace) : outcome () :=
  _ ← known (useg (seg1 asp)); _ ← known (useg (seg2 asp)); _ ← known (usegs asp); Ret ().

(** ** load_each_segment and vm_fault of vm.c

    [nested] is vm_fault, called by the exception handler when a store of the
    kernel to user memory misses the TLB. *)

Section fault.
Context (nested : Z → Z → vms F → outcome (fres * vms F)).

(** A store through the TLB; after a fault that was handled it is tried again. *)
Fixpoint user_store (fuel : nat) (va b : Z) s : outcome (fres * vms F) :=
  match translate true va s with
  | inl pa => Ret (Returns 0, set_phys (<[pa := b]> (phys s)) s)
  | inr t =>
      match fuel with
      | O => Spin
      | S fuel =>
          '(r, s) ← nested t va s;
          match r with
          | Returns e => if bool_decide (e = 0) then user_store fuel va b s else Ret (Returns EFAULT, s)
          | Killed => Ret (Killed, s)
          end
      end
  end.

Fixpoint user_stores (va : Z) (l : list Z) s : outcome (fres * vms F) :=
  match l with
  | [] => Ret (Returns 0, s)
  | b :: l =>
      '(r, s) ← user_store 2 va b s;
      if bool_decide (r = Returns 0) then user_stores (va + 1) l s else Ret (r, s)
  end.

(** The copy to user space of uiomove: copyout, when there is something to
    copy. *)
Definition copyout_user (va : Z) (l : list Z) s : outcome (fres * vms F) :=
  if bool_decide (l = []) then Ret (Returns 0, s)
  else match copycheck va (len l) with
       | inl e => Ret (Returns e, s)
       | inr stoplen => if bool_decide (stoplen ≠ len l) then Ret (Returns EFAULT, s) else user_stores va l s
       end.

Definition load_each_segment (v offset : option Z) (vaddr memsize filesize first_read : Z) s : outcome (fres * vms F) :=
  let filesize := if bool_decide (memsize < filesize) then memsize else filesize in
  if bool_decide (first_read ≠ 0) then Ret (Returns 0, s)
  else
    v ← known v;
    offset ← known offset;
    let '(e, bytes) := exe v offset filesize in
    '(r, s) ← copyout_user vaddr bytes s;
    if negb (bool_decide (r = Returns 0)) then Ret (r, s)
    else if bool_decide (e ≠ 0) then Ret (Returns e, s)
    else if bool_decide (filesize - len bytes ≠ 0) then Ret (Returns ENOEXEC, s)
    else
      let fillamt := memsize - filesize in
      if bool_decide (0 < fillamt) then copyout_user (vaddr + filesize) (replicate (Z.to_nat fillamt) 0) s
      else Ret (Returns 0, s).

(** Where a fault is: the page, the number of the segment, its file size, file
    offset, vnode and the index of the page in the segment. *)
Record place := Place { pl_page : nat; pl_seg : Z; pl_fsize : option Z; pl_off : option Z; pl_index : Z }.

Definition in_range (fa base npages : Z) : bool := bool_decide (base ≤ fa) && bool_decide (fa < u32 (base + npages * PAGE_SIZE)).

Definition page_of (a : option (array nat)) (i : Z) : outcome nat := a ← known a; array_getguy a i.

Definition find_place (asp : addrspace) (fa : Z) : outcome (option place) :=
  let stackbase := USERSTACK - DUMBVM_STACKPAGES * PAGE_SIZE in
  let '(g1, g2) := (seg1 asp, seg2 asp) in
  if bool_decide (s32 (fa / PAGE_SIZE) < 0) then Panic
  else if in_range fa (as_vbase g1) (as_npages g1) then
    let i := (fa - as_vbase g1) / PAGE_SIZE in
    p ← page_of (useg g1) i; Ret (Some (Place p 0 (as_filesz g1) (as_off g1) i))
  else if in_range fa (as_vbase g2) (as_npages g2) then
    let i := (fa - as_vbase g2) / PAGE_SIZE in
    p ← page_of (useg g2) i; Ret (Some (Place p 1 (as_filesz g2) (as_off g2) i))
  else if bool_decide (stackbase ≤ fa) && bool_decide (fa < USERSTACK) then
    p ← page_of (usegs asp) ((fa - stackbase) / PAGE_SIZE);
    Ret (Some (Place p 2 (Some 0) None (u32 (fa - as_vbase g2) / PAGE_SIZE)))
  else Ret None.

Definition getppages1 s : outcome (Z * vms F) := '(f, a) ← getframe (frames s); Ret (a, set_frames f s).

Definition set_paddr (p : nat) (paddr : Z) s : outcome (vms F) :=
  x ← page_at p s; Ret (set_page p (Page (pg_vaddr x) (Some paddr) (pg_valid x) (pg_permission x)) s).

Definition mark_valid (p : nat) (fa : Z) s : outcome (vms F) :=
  x ← page_at p s; Ret (set_page p (Page fa (pg_paddr x) 1 (pg_permission x)) s).

Definition note_code (pl : place) s : vms F :=
  if bool_decide (pl_seg pl = 0) && bool_decide (first_code_read s = 0) then set_first_code_read 1 s else s.

(** The part of a page that is read: no more than the file size of the segment. *)
Definition f_amount (f_size : Z) : Z := if bool_decide (f_size < PAGE_SIZE) then f_size else PAGE_SIZE.

(** Filling a page of the file (a page of the stack has no file), with the interrupt level of the caller. *)
Definition fill_page (asp : addrspace) (pl : place) (fa f_size spl first_read : Z) s : outcome (fres * vms F) :=
  let offset := (λ off, s32 (off + pl_index pl * PAGE_SIZE)) <$> pl_off pl in
  '(r, s) ← load_each_segment (as_v asp) offset fa PAGE_SIZE (f_amount f_size) first_read (set_cpu_spl spl s);
  Ret (r, set_cpu_spl SPL_HIGH s).

(** The cases of the switch. [inr (paddr, wr_to)] goes on to the TLB. *)
Definition fault_read (asp : addrspace) (pl : place) (fa spl : Z) s : outcome ((fres + Z * Z) * vms F) :=
  x ← page_at (pl_page pl) s;
  if bool_decide (pg_valid x = 0) then
    s ← mark_valid (pl_page pl) fa s;
    f_size ← known (pl_fsize pl);
    '(paddr, s) ← getppages1 s;
    if bool_decide (paddr = 0) then Ret (inl (Returns ENOMEM), s)
    else if bool_decide (f_size ≠ 0) then
      s ← set_paddr (pl_page pl) paddr (set_code_write_nread 1 s);
      '(r, s) ← fill_page asp pl fa f_size spl 0 s;
      if negb (bool_decide (r = Returns 0)) then Ret (inl r, s)
      else
        s ← _vmstats_inc VMSTAT_PAGE_FAULT_DISK s;
        s ← _vmstats_inc VMSTAT_ELF_FILE_READ s;
        s ← set_paddr (pl_page pl) paddr (note_code pl s);
        Ret (inr (paddr, 0), s)
    else
      s ← _vmstats_inc VMSTAT_PAGE_FAULT_ZERO (note_code pl s);
      s ← set_paddr (pl_page pl) paddr s;
      Ret (inr (paddr, 0), s)
  else
    paddr ← known (pg_paddr x);
    s ← _vmstats_inc VMSTAT_TLB_RELOAD (note_code pl s);
    Ret (inr (paddr, 1), s).

Definition fault_write (asp : addrspace) (pl : place) (fa spl : Z) s : outcome ((fres + Z * Z) * vms F) :=
  x ← page_at (pl_page pl) s;
  if bool_decide (pg_valid x = 0) then
    s ← mark_valid (pl_page pl) fa s;
    f_size ← known (pl_fsize pl);
    if bool_decide (f_size ≠ 0) then
      let first := bool_decide (second_write s = 0) && bool_decide (pl_seg pl = 1) in
      let s := if first then set_first_read 0 s else set_first_read 1 s in
      '(paddr, s) ← getppages1 s;
      let s := if first then set_second_write 1 s else s in
      if bool_decide (paddr = 0) then Ret (inl (Returns ENOMEM), s)
      else
        s ← set_paddr (pl_page pl) paddr s;
        '(r, s) ← fill_page asp pl fa f_size spl (first_read s) s;
        if negb (bool_decide (r = Returns 0)) then
          match r with Killed => Ret (inl Killed, s) | r => s ← lock_release_tlb s; Ret (inl r, s) end
        else
          s ← _vmstats_inc VMSTAT_PAGE_FAULT_DISK s;
          s ← _vmstats_inc VMSTAT_ELF_FILE_READ s;
          s ← set_paddr (pl_page pl) paddr s;
          Ret (inr (paddr, if first then 0 else 1), s)
    else
      '(paddr, s) ← getppages1 s;
      if bool_decide (paddr = 0) then Ret (inl (Returns ENOMEM), s)
      else
        s ← _vmstats_inc VMSTAT_PAGE_FAULT_ZERO s;
        s ← set_paddr (pl_page pl) paddr s;
        Ret (inr (paddr, 1), s)
  else
    paddr ← known (pg_paddr x);
    s ← _vmstats_inc VMSTAT_TLB_RELOAD s;
    Ret (inr (paddr, 1), s).

(** The entry for the page, and the flags that are reset with it. *)
Definition new_elo (asp : addrspace) (fa paddr : Z) s : Z * vms F :=
  if in_range fa (as_vbase (seg1 asp)) (as_npages (seg1 asp))
     && (bool_decide (first_code_read s ≠ 0) || bool_decide (code_write_nread s = 0)) then
    (Z.lor paddr TLBLO_VALID, set_code_write_nread 0 (set_first_code_read 0 s))
  else (Z.lor (Z.lor paddr TLBLO_DIRTY) TLBLO_VALID, s).

(** One turn of the loop that write-protects the pages of the code segment. *)
Definition protect_entry (asp : addrspace) (i : Z) s : outcome (vms F) :=
  '(ehi, elo) ← rd (tlb s) i;
  if bool_decide (Z.land elo TLBLO_VALID = 0) then Ret s
  else TLB_Write ehi (if in_range ehi (as_vbase (seg1 asp)) (as_npages (seg1 asp)) then Z.ldiff elo TLBLO_DIRTY else elo) i s.

(** One turn of the loop that uses the first invalid entry. *)
Definition use_free (asp : addrspace) (fa paddr i : Z) s : outcome (vms F + vms F) :=
  '(_, elo) ← rd (tlb s) i;
  if negb (bool_decide (Z.land elo TLBLO_VALID = 0)) then Ret (inl s)
  else let '(elo, s) := new_elo asp fa paddr s in s ← TLB_Write fa elo i s; Ret (inr s).

Definition enter_tlb (asp : addrspace) (fa paddr : Z) s : outcome (fres * vms F) :=
  r ← for_loop (Z.to_nat NUM_TLB) 0 (use_free asp fa paddr) s;
  match r with
  | inr s =>
      s ← lock_release_tlb s;
      s ← vmstats_inc VMSTAT_TLB_FAULT_FREE s;
      Ret (Returns 0, s)
  | inl s =>
      let '(victim, s) := tlb_get_rr_victim s in
      if bool_decide (victim < 0) || bool_decide (NUM_TLB ≤ victim) then
        s ← lock_release_tlb s; Ret (Returns EFAULT, s)
      else
        let '(elo, s) := new_elo asp fa paddr s in
        s ← TLB_Write fa elo victim s;
        s ← lock_release_tlb s;
        s ← vmstats_inc VMSTAT_TLB_FAULT_REPLACE s;
        Ret (Returns 0, s)
  end.

(** From the end of the switch on. *)
Definition update_tlb (asp : addrspace) (pl : place) (fa paddr wr_to : Z) s : outcome (fres * vms F) :=
  s ← _vmstats_inc VMSTAT_TLB_FAULT s;
  if bool_decide (wr_to = 1) || bool_decide (pl_seg pl = 2) || bool_decide (first_code_read s = 1) then
    s ← lock_acquire_tlb s;
    if bool_decide (first_code_read s ≠ 0) && in_range fa (as_vbase (seg1 asp)) (as_npages (seg1 asp)) then
      s ← for_each (Z.to_nat NUM_TLB) 0 (protect_entry asp) s;
      if bool_decide (0 ≤ TLB_Probe fa s) then
        s ← lock_release_tlb (set_code_write_nread 0 (set_first_code_read 0 s));
        s ← vmstats_inc VMSTAT_TLB_FAULT_FREE s;
        Ret (Returns 0, s)
      else enter_tlb asp fa paddr s
    else enter_tlb asp fa paddr s
  else s ← vmstats_inc VMSTAT_TLB_FAULT_REPLACE s; Ret (Returns 0, s).

(** [asp] is curthread->t_vmspace. *)
Definition vm_fault_body (asp : option addrspace) (faulttype faultaddress : Z) s : outcome (fres * vms F) :=
  let s := if bool_decide (first_v s ≠ faultaddress) then set_first_read 0 (set_first_v faultaddress s) else set_first_read 1 s in
  let spl := cpu_spl s in
  let s := set_cpu_spl SPL_HIGH s in
  let fa := Z.land faultaddress PAGE_FRAME in
  match asp with
  | None => Ret (Returns EFAULT, s)
  | Some asp =>
      pl ← find_place asp fa;
      match pl with
      | None => Ret (Returns EFAULT, s)
      | Some pl =>
          '(r, s) ←
            (if bool_decide (faulttype = VM_FAULT_READONLY) then Ret (inl Killed, s)
             else if bool_decide (faulttype = VM_FAULT_READ) then fault_read asp pl fa spl s
             else if bool_decide (faulttype = VM_FAULT_WRITE) then fault_write asp pl fa spl s
             else Ret (inl (Returns EINVAL), s));
          match r with
          | inl r => Ret (r, s)
          | inr (paddr, wr_to) => update_tlb asp pl fa paddr wr_to (set_cpu_spl spl s)
          end
      end
  end.
End fault.

Fixpoint vm_fault_n (fuel : nat) (asp : option addrspace) (faulttype faultaddress : Z) s : outcome (fres * vms F) :=
  match fuel with
  | O => Spin
  | S fuel => vm_fault_body (vm_fault_n fuel asp) asp faulttype faultaddress s
  end.

(** A fault inside a fault finds its page valid and does not load again. *)
Definition vm_fault : option addrspace → Z → Z → vms F → outcome (fres * vms F) := vm_fault_n 2.
End vm.
