(* ===== verification/VmSpec.v ===== *)
(** * Page faults: invariant and effect of vm_fault

    [resident asp s fa pa]: the page at [fa] of the address space is in the
    frame [pa]. The TLB is sound when every valid entry is that of a resident
    page; the lemmas follow a fault through the switch of vm_fault, the nested
    fault of the copy, and the search for a TLB entry. *)

From S2P Require Import Prelude CArray KHeap KHeapSpec Coremap Uio AddrSpace.

(** ** Entries *)

Definition aligned (a : Z) : Prop := 0 ≤ a < 2 ^ 32 ∧ a mod PAGE_SIZE = 0.

(** The entry for a frame, writable or not. *)
Definition tlbe (pa : Z) (d : bool) : Z := Z.lor (if d then Z.lor pa TLBLO_DIRTY else pa) TLBLO_VALID.

Lemma aligned_frame a : aligned a → Z.land a PAGE_FRAME = a.
Proof. intros [Hr Ha]. rewrite page_frame by done. lia. Qed.

Lemma frame_aligned a : 0 ≤ a < 2 ^ 32 → aligned (Z.land a PAGE_FRAME).
Proof.
  intros Ha. rewrite page_frame by done. unfold PAGE_SIZE. pose proof (Z.mod_pos_bound a 4096).
  pose proof (Z.mod_le a 4096). split; [lia|]. unfold PAGE_SIZE.
  rewrite Zminus_mod, Z.mod_mod, Z.sub_diag by lia. done.
Qed.

Section entry.
Context (pa : Z) (Hpa : aligned pa).

Lemma low_bits n : 0 ≤ n < 12 → Z.testbit pa n = false.
Proof.
  intros Hn. destruct Hpa as [_ Hm]. pose proof (Z.mod_pow2_bits_low pa 12 n ltac:(lia)) as <-.
  change (2 ^ 12) with PAGE_SIZE. rewrite Hm. apply Z.bits_0.
Qed.

Lemma tlbe_bits d n : 0 ≤ n → Z.testbit (tlbe pa d) n =
  if decide (n < 12) then bool_decide (n = 9) || (d && bool_decide (n = 10)) else Z.testbit pa n.
Proof.
  intros Hn. unfold tlbe, TLBLO_DIRTY, TLBLO_VALID. change 0x400 with (2 ^ 10). change 0x200 with (2 ^ 9).
  rewrite Z.lor_spec, Z.pow2_bits_eqb by lia.
  assert (Z.testbit (if d then Z.lor pa (2 ^ 10) else pa) n = Z.testbit pa n || (d && bool_decide (n = 10))) as ->.
  { destruct d; [|by rewrite orb_false_r]. rewrite Z.lor_spec, Z.pow2_bits_eqb by lia. f_equal.
    case_bool_decide; [apply Z.eqb_eq|apply Z.eqb_neq]; lia. }
  rewrite Z.eqb_sym. replace (n =? 9) with (bool_decide (n = 9)) by (case_bool_decide; symmetry; [apply Z.eqb_eq|apply Z.eqb_neq]; lia).
  case_decide.
  - rewrite low_bits by lia. destruct d; simpl; [apply orb_comm|by rewrite orb_false_r].
  - rewrite !bool_decide_eq_false_2 by lia. by rewrite andb_false_r, !orb_false_r.
Qed.

Lemma tlbe_valid d : Z.land (tlbe pa d) TLBLO_VALID ≠ 0.
Proof.
  intros H. assert (Z.testbit (Z.land (tlbe pa d) TLBLO_VALID) 9 = false) as Hb by (rewrite H; done).
  rewrite Z.land_spec, tlbe_bits in Hb by lia. simpl in Hb. done.
Qed.

Lemma land_pow2 x k : 0 ≤ k → Z.land x (2 ^ k) = 0 ↔ Z.testbit x k = false.
Proof.
  intros Hk. split.
  - intros H. assert (Z.testbit (Z.land x (2 ^ k)) k = false) as Hb by (rewrite H; apply Z.bits_0).
    by rewrite Z.land_spec, Z.pow2_bits_true, andb_true_r in Hb by lia.
  - intros H. apply Z.bits_inj'. intros n Hn. rewrite Z.land_spec, Z.pow2_bits_eqb, Z.bits_0 by lia.
    destruct (Z.eqb_spec k n) as [->|]; [by rewrite H|by rewrite andb_false_r].
Qed.

Lemma tlbe_dirty d : Z.land (tlbe pa d) TLBLO_DIRTY = 0 ↔ d = false.
Proof.
  change TLBLO_DIRTY with (2 ^ 10). rewrite land_pow2, tlbe_bits by lia. simpl. by rewrite andb_true_r.
Qed.

Lemma tlbe_frame d : Z.land (tlbe pa d) TLBLO_PPAGE = pa.
Proof.
  rewrite <- (aligned_frame pa Hpa) at 2. apply Z.bits_inj'. intros n Hn.
  change TLBLO_PPAGE with PAGE_FRAME. rewrite !Z.land_spec, tlbe_bits by lia. case_decide; [|done].
  change PAGE_FRAME with (Z.shiftl (Z.ones 20) 12). rewrite Z.shiftl_spec, (Z.testbit_neg_r _ (n - 12)) by lia.
  by rewrite !andb_false_r.
Qed.

Lemma tlbe_protect d : Z.ldiff (tlbe pa d) TLBLO_DIRTY = tlbe pa false.
Proof.
  apply Z.bits_inj'. intros n Hn. rewrite Z.ldiff_spec, !tlbe_bits by lia. change TLBLO_DIRTY with (2 ^ 10).
  rewrite Z.pow2_bits_eqb by lia. destruct (Z.eqb_spec 10 n) as [<-|]; simpl; [by rewrite andb_false_r|].
  rewrite andb_true_r. case_decide; [|done]. rewrite (bool_decide_eq_false_2 (n = 10)) by lia. by rewrite andb_false_r.
Qed.
End entry.

(** ** The TLB *)

(** Every entry is either invalid, for an address outside user space, or that
    of a resident page; no page has two. *)
Record tlb_ok (R : Z → Z → Prop) (t : list (Z * Z)) : Prop := {
  to_len : len t = NUM_TLB;
  to_nodup : NoDup t.*1;
  to_entry ehi elo : (ehi, elo) ∈ t → aligned ehi ∧
    ((USERTOP ≤ ehi ∧ Z.land elo TLBLO_VALID = 0) ∨
     (ehi < USERTOP ∧ ∃ pa d, R ehi pa ∧ aligned pa ∧ elo = tlbe pa d))
}.

Lemma tlb_ok_mono (R R' : Z → Z → Prop) t : (∀ a p, R a p → R' a p) → tlb_ok R t → tlb_ok R' t.
Proof.
  intros HR [H1 H2 H3]. split; [done..|]. intros ehi elo Hin. destruct (H3 _ _ Hin) as (Ha & [?|(? & pa & d & ? & ? & ?)]).
  - split; [done|]. by left.
  - split; [done|]. right. split; [done|]. exists pa, d. auto.
Qed.

Lemma tlb_find_Some t v i k elo : tlb_find t v i = Some (k, elo) →
  ∃ n ehi, k = i + Z.of_nat n ∧ t !! n = Some (ehi, elo) ∧ Z.land ehi TLBHI_VPAGE = v.
Proof.
  revert i. induction t as [|[ehi lo] t IH]; intros i; simpl; [done|]. case_bool_decide.
  - intros [= <- <-]. exists 0%nat, ehi. split_and!; [lia|done..].
  - intros (n & h & -> & ? & ?)%IH. exists (S n), h. split_and!; [lia|done..].
Qed.

Lemma tlb_find_None t v i : tlb_find t v i = None ↔ ∀ ehi elo, (ehi, elo) ∈ t → Z.land ehi TLBHI_VPAGE ≠ v.
Proof.
  revert i. induction t as [|[ehi lo] t IH]; intros i; simpl; [split; [set_solver|done]|]. case_bool_decide as Hv.
  - split; [done|]. intros H. by destruct (H ehi lo (list_elem_of_here _ _)).
  - rewrite IH. split.
    + intros H h l [[= -> ->]|Hin]%elem_of_cons; [done|eauto].
    + intros H h l Hin. apply (H h l). by right.
Qed.

Section tlb.
Context (R : Z → Z → Prop).

(** The mapping the TLB has for a page. *)
Definition mapped_to (t : list (Z * Z)) (fa pa : Z) (d : bool) : Prop := (fa, tlbe pa d) ∈ t.

Lemma entry_page t ehi elo : tlb_ok R t → (ehi, elo) ∈ t → Z.land ehi TLBHI_VPAGE = ehi.
Proof. intros Ht Hin. apply aligned_frame. by apply (to_entry _ _ Ht _ elo). Qed.

Lemma find_mapped t fa pa d : tlb_ok R t → mapped_to t fa pa d → ∃ k, tlb_find t fa 0 = Some (k, tlbe pa d) ∧ 0 ≤ k.
Proof.
  intros Ht Hm. destruct (tlb_find t fa 0) as [[k elo]|] eqn:Hf.
  - destruct (tlb_find_Some _ _ _ _ _ Hf) as (n & ehi & -> & Hn & Hv). exists (0 + Z.of_nat n). split; [|lia].
    rewrite (entry_page t ehi elo) in Hv by (done || by eapply list_elem_of_lookup_2). subst ehi.
    apply list_elem_of_lookup in Hm as [m Hm].
    assert (n = m) as ->. { eapply (NoDup_lookup (t.*1)); [apply (to_nodup _ _ Ht)| |]; rewrite list_lookup_fmap, ?Hn, ?Hm; done. }
    rewrite Hm in Hn. by injection Hn as ->.
  - rewrite tlb_find_None in Hf. destruct (Hf _ _ Hm). by eapply entry_page.
Qed.

Lemma find_unmapped t fa : tlb_ok R t → tlb_find t fa 0 = None ↔ fa ∉ t.*1.
Proof.
  intros Ht. rewrite tlb_find_None. split.
  - intros H ([? elo] & -> & Hin)%list_elem_of_fmap. apply (H _ _ Hin). simpl. by eapply entry_page.
  - intros H ehi elo Hin Hv. apply H. rewrite (entry_page t ehi elo) in Hv by done. subst.
    apply list_elem_of_fmap. by exists (fa, elo).
Qed.

Lemma tlb_ok_write t k fa pa d : tlb_ok R t → 0 ≤ k < NUM_TLB → fa ∉ t.*1 → aligned fa → fa < USERTOP → R fa pa → aligned pa →
  tlb_ok R (<[Z.to_nat k := (fa, tlbe pa d)]> t) ∧ mapped_to (<[Z.to_nat k := (fa, tlbe pa d)]> t) fa pa d.
Proof.
  intros [H1 H2 H3] Hk Hfa Ha Hu HR Hpa. unfold NUM_TLB in *. split.
  - split.
    + by rewrite length_insert.
    + rewrite list_fmap_insert. simpl. apply NoDup_alt. intros i j x Hi Hj.
      destruct (decide (i = Z.to_nat k)), (decide (j = Z.to_nat k)); subst; try done.
      * rewrite list_lookup_insert_eq in Hi by (rewrite length_fmap; lia). injection Hi as <-.
        rewrite list_lookup_insert_ne in Hj by done. destruct Hfa. by eapply list_elem_of_lookup_2.
      * rewrite list_lookup_insert_eq in Hj by (rewrite length_fmap; lia). injection Hj as <-.
        rewrite list_lookup_insert_ne in Hi by done. destruct Hfa. by eapply list_elem_of_lookup_2.
      * rewrite list_lookup_insert_ne in Hi, Hj by done. by eapply NoDup_lookup.
    + intros ehi elo Hin. apply list_elem_of_lookup in Hin as [i Hi].
      destruct (decide (i = Z.to_nat k)) as [->|].
      * rewrite list_lookup_insert_eq in Hi by lia. injection Hi as <- <-. split; [done|]. right. split; [done|]. by exists pa, d.
      * rewrite list_lookup_insert_ne in Hi by done. apply H3. by eapply list_elem_of_lookup_2.
  - unfold mapped_to. apply (list_elem_of_lookup_2 _ (Z.to_nat k)). apply list_lookup_insert_eq. lia.
Qed.

(** An entry is valid exactly when it is for a user page. *)
Lemma entry_valid t ehi elo : tlb_ok R t → (ehi, elo) ∈ t → Z.land elo TLBLO_VALID ≠ 0 → ∃ pa d, R ehi pa ∧ aligned pa ∧ elo = tlbe pa d.
Proof. intros Ht Hin Hv. destruct (to_entry _ _ Ht _ _ Hin) as (_ & [[_ ?]|[_ ?]]); [done|done]. Qed.
End tlb.

(** ** Statistics *)

Definition bump (i : Z) (l : list Z) : list Z := alter (λ c, u32 (c + 1)) (Z.to_nat i) l.

(** What vmstats_print calls consistent: every fault counted is counted once as
    filling a free entry or replacing one, and once by how its page was found;
    pages read from disk come from the executable. *)
Definition cnt (l : list Z) (i : Z) : Z := default 0 (l !! Z.to_nat i).
Definition balanced (l : list Z) : Prop :=
  len l = VMSTAT_COUNT ∧ cnt l 0 = u32 (cnt l 1 + cnt l 2) ∧ cnt l 0 = u32 (cnt l 4 + cnt l 5 + cnt l 6) ∧ cnt l 6 = cnt l 7.

Lemma bump_length i l : len (bump i l) = len l.
Proof. unfold bump. by rewrite length_alter. Qed.

Lemma cnt_bump i j l : 0 ≤ i < len l → 0 ≤ j → cnt (bump i l) j = if decide (i = j) then u32 (cnt l j + 1) else cnt l j.
Proof.
  intros Hi Hj. unfold cnt, bump. case_decide as Hij.
  - subst j. rewrite list_lookup_alter_eq. destruct (lookup_lt_is_Some_2 l (Z.to_nat i)) as [x ->]; [lia|]. done.
  - rewrite list_lookup_alter_ne by lia. done.
Qed.

(** One fault: how the page was found, the fault, the kind of entry. *)
Definition counts (l l' : list Z) : Prop :=
  ∃ b, (b = 1 ∨ b = 2) ∧
    (l' = bump b (bump 0 (bump 4 l)) ∨ l' = bump b (bump 0 (bump 5 l)) ∨
     ∃ l1, (l1 = l ∨ ∃ c, (c = 1 ∨ c = 2) ∧ l1 = bump c (bump 0 (bump 4 l))) ∧ l' = bump b (bump 0 (bump 7 (bump 6 l1)))).

Lemma balanced_reload b k l : (b = 1 ∨ b = 2) → (k = 4 ∨ k = 5) → balanced l → balanced (bump b (bump 0 (bump k l))).
Proof.
  intros Hb Hk (Hl & H1 & H2 & H3). unfold VMSTAT_COUNT in *. split; [by rewrite !bump_length|].
  rewrite !cnt_bump by (rewrite ?bump_length; lia).
  destruct Hb, Hk; subst b k; simpl; rewrite H1 in *; unfold u32 in *; rewrite ?H1, ?H2, ?H3;
    split_and!; try done; try Z.to_euclidean_division_equations; lia.
Qed.

Lemma balanced_disk b l : (b = 1 ∨ b = 2) → balanced l → balanced (bump b (bump 0 (bump 7 (bump 6 l)))).
Proof.
  intros Hb (Hl & H1 & H2 & H3). unfold VMSTAT_COUNT in *. split; [by rewrite !bump_length|].
  rewrite !cnt_bump by (rewrite ?bump_length; lia).
  destruct Hb; subst b; simpl; unfold u32 in *; split_and!; try (rewrite H3; done); try Z.to_euclidean_division_equations; lia.
Qed.

Lemma counts_balanced l l' : counts l l' → balanced l → balanced l'.
Proof.
  intros (b & Hb & [->|[->|(l1 & Hl1 & ->)]]) Hl; [apply balanced_reload; auto..|]. apply balanced_disk; [done|].
  destruct Hl1 as [->|(c & Hc & ->)]; [done|apply balanced_reload; auto].
Qed.

Section faults.
Context {F : Type} `{!Frames F}.
Implicit Types s : vms F.

Record counters_ok s : Prop := { co_len : len (stats_counts s) = VMSTAT_COUNT; co_lock : stats_lock s = true }.

Lemma _vmstats_inc_ok i s : counters_ok s → 0 ≤ i < VMSTAT_COUNT → _vmstats_inc i s = Ret (set_stats_counts (bump i (stats_counts s)) s).
Proof.
  intros [Hl _] Hi. unfold _vmstats_inc. rewrite bool_decide_eq_true_2 by lia. cbn [c_assert]. ostep.
  destruct (rd_in_range (stats_counts s) i) as (c & -> & Hc); [lia|]. ostep. rewrite wr_in_range by lia. ostep.
  do 2 f_equal. unfold bump. apply list_eq. intros j. destruct (decide (j = Z.to_nat i)) as [->|].
  - rewrite list_lookup_insert_eq by lia. rewrite list_lookup_alter_eq, Hc. done.
  - rewrite list_lookup_insert_ne, list_lookup_alter_ne by done. done.
Qed.

Lemma vmstats_inc_ok i s : counters_ok s → 0 ≤ i < VMSTAT_COUNT → vmstats_inc i s = Ret (set_stats_counts (bump i (stats_counts s)) s).
Proof.
  intros Hc Hi. unfold vmstats_inc. rewrite (co_lock s Hc). cbn [c_assert]. ostep. rewrite _vmstats_inc_ok by done. by case_bool_decide.
Qed.

(** ** Translation *)

Section tlb_state.
Context (R : Z → Z → Prop).

Lemma translate_hit s w va pa d : tlb_ok R (tlb s) → aligned pa → mapped_to (tlb s) (Z.land va PAGE_FRAME) pa d → (w = true → d = true) →
  translate w va s = inl (pa + va mod PAGE_SIZE).
Proof.
  intros Ht Hpa Hm Hw. unfold translate. destruct (find_mapped R _ _ _ _ Ht Hm) as (k & Hk & _).
  change TLBHI_VPAGE with PAGE_FRAME. rewrite Hk. rewrite bool_decide_eq_false_2 by by apply tlbe_valid.
  destruct w; simpl.
  - rewrite bool_decide_eq_false_2 by (rewrite tlbe_dirty, Hw by done; done). by rewrite tlbe_frame.
  - by rewrite tlbe_frame.
Qed.

Lemma translate_miss s w va : tlb_ok R (tlb s) → Z.land va PAGE_FRAME ∉ (tlb s).*1 →
  translate w va s = inr (if w then VM_FAULT_WRITE else VM_FAULT_READ).
Proof. intros Ht Hm. unfold translate. change TLBHI_VPAGE with PAGE_FRAME. by rewrite (proj2 (find_unmapped R _ _ Ht) Hm). Qed.

(** A miss on a user page means that the TLB has no entry for it. *)
Lemma miss_unmapped s w va : tlb_ok R (tlb s) → Z.land va PAGE_FRAME < USERTOP →
  translate w va s = inr (if w then VM_FAULT_WRITE else VM_FAULT_READ) → Z.land va PAGE_FRAME ∉ (tlb s).*1.
Proof.
  intros Ht Hu. unfold translate. change TLBHI_VPAGE with PAGE_FRAME.
  destruct (tlb_find (tlb s) (Z.land va PAGE_FRAME) 0) as [[k elo]|] eqn:Hf.
  - destruct (tlb_find_Some _ _ _ _ _ Hf) as (n & ehi & _ & Hn%list_elem_of_lookup_2 & Hv).
    change TLBHI_VPAGE with PAGE_FRAME in Hv. pose proof (entry_page R _ _ _ Ht Hn) as Hp. change TLBHI_VPAGE with PAGE_FRAME in Hp.
    destruct (to_entry _ _ Ht _ _ Hn) as (_ & [[? ?]|(? & pa & d & HR & Hpa & ->)]); [lia|].
    rewrite bool_decide_eq_false_2 by by apply tlbe_valid. destruct w; simpl; [case_bool_decide|]; intros; discriminate.
  - intros _. by apply (find_unmapped R).
Qed.

(** ** Entering a page in the TLB *)

Context (asp : addrspace).

Definition in_code (fa : Z) : bool := in_range fa (as_vbase (seg1 asp)) (as_npages (seg1 asp)).

(** Is a new entry writable? *)
Definition writable (fa : Z) s : bool := negb (in_code fa && (bool_decide (first_code_read s ≠ 0) || bool_decide (code_write_nread s = 0))).

Lemma new_elo_eq fa pa s : new_elo asp fa pa s =
  (tlbe pa (writable fa s), if writable fa s then s else set_code_write_nread 0 (set_first_code_read 0 s)).
Proof. unfold new_elo, writable, in_code. by destruct (in_range _ _ _ && _). Qed.

(** Pages outside the code segment are writable. *)
Definition data_writable (t : list (Z * Z)) : Prop := ∀ fa pa d, in_code fa = false → aligned pa → mapped_to t fa pa d → d = true.

Lemma tlbe_inj pa pb d e : aligned pa → aligned pb → tlbe pa d = tlbe pb e → d = e.
Proof.
  intros Ha Hb H. destruct (tlbe_dirty pa Ha d) as [H1 H2], (tlbe_dirty pb Hb e) as [H3 H4]. rewrite H in H1, H2.
  destruct d, e; try done; [by rewrite H1 by auto|by rewrite H3 by auto].
Qed.

Lemma writable_write t k fa pa d : data_writable t → aligned pa → (in_code fa = false → d = true) → data_writable (<[k := (fa, tlbe pa d)]> t).
Proof.
  intros Ht Hpa Hd fb pb e Hc Hpb Hin. apply list_elem_of_lookup in Hin as [i Hi]. destruct (decide (i = k ∧ (k < length t)%nat)) as [[-> Hk]|Hne].
  - rewrite list_lookup_insert_eq in Hi by done. injection Hi as -> Hi. rewrite <- (tlbe_inj pa pb d e) by done. auto.
  - apply (Ht fb pb e Hc Hpb). apply (list_elem_of_lookup_2 _ i). rewrite list_lookup_insert in Hi. case_decide; [lia|done].
Qed.

(** The parts of the state that the end of a fault leaves alone. *)
Record keeps s s' : Prop := {
  ke_pages : pages s' = pages s; ke_npage : npage s' = npage s; ke_frames : frames s' = frames s; ke_phys : phys s' = phys s;
  ke_second : second_write s' = second_write s; ke_lock : stats_lock s' = stats_lock s; ke_spl : cpu_spl s' = cpu_spl s
}.

(** State and TLB after the page has been entered. *)
Record entered (fa pa : Z) (d : bool) s s' : Prop := {
  en_keeps : keeps s s';
  en_tlb : tlb_ok R (tlb s');
  en_mapped : mapped_to (tlb s') fa pa d;
  en_write : ∃ k, tlb s' = <[k := (fa, tlbe pa d)]> (tlb s);
  en_lock : tlb_lock s' = false;
  en_victim : 0 ≤ next_victim s' < NUM_TLB;
  en_code : first_code_read s' = if d then first_code_read s else 0;
  en_nread : code_write_nread s' = if d then code_write_nread s else 0;
  en_counts : ∃ b, (b = 1 ∨ b = 2) ∧ stats_counts s' = bump b (stats_counts s)
}.

Lemma enter_tlb_ok fa pa s : counters_ok s → tlb_ok R (tlb s) → tlb_lock s = true → 0 ≤ next_victim s < NUM_TLB →
  fa ∉ (tlb s).*1 → aligned fa → fa < USERTOP → R fa pa → aligned pa →
  ∃ s', enter_tlb asp fa pa s = Ret (Returns 0, s') ∧ entered fa pa (writable fa s) s s'.
Proof.
  intros Hco Ht Hlk Hv Hfa Ha Hu HR Hpa. unfold enter_tlb. pose proof (to_len _ _ Ht) as Hlen. unfold NUM_TLB in Hlen, Hv.
  destruct (for_loop_inv (λ _ t, t = s) (λ t, ∃ k, 0 ≤ k < NUM_TLB ∧
    t = set_tlb (<[Z.to_nat k := (fa, tlbe pa (writable fa s))]> (tlb s)) (if writable fa s then s else set_code_write_nread 0 (set_first_code_read 0 s)))
    (use_free asp fa pa) (Z.to_nat NUM_TLB) 0 s) as [(? & -> & ->)|(? & -> & k & Hk & ->)].
  - done.
  - intros j ? Hj ->. unfold NUM_TLB in Hj. unfold use_free. destruct (rd_in_range (tlb s) j) as ([ehi elo] & -> & Hin); [lia|]. ostep.
    case_bool_decide as Hvalid; cbn [negb]; [|left; by exists s]. right. rewrite new_elo_eq. eexists. unfold TLB_Write.
    split; [|exists j; split; [unfold NUM_TLB; lia|done]]. destruct (writable fa s); simpl; rewrite wr_in_range by lia; done.
  - ostep. unfold tlb_get_rr_victim. bdec. unfold NUM_TLB at 1. bdec. rewrite new_elo_eq. unfold TLB_Write.
    change (writable fa (set_next_victim ((next_victim s + 1) mod NUM_TLB) s)) with (writable fa s).
    destruct (tlb_ok_write R (tlb s) (next_victim s) fa pa (writable fa s)) as [? ?]; [done..|].
    destruct (writable fa s) eqn:Hw; eexists; (split; [cbn; rewrite wr_in_range by lia; ostep; unfold lock_release_tlb; cbn; rewrite Hlk; cbn [c_assert];
      ostep; rewrite vmstats_inc_ok by (done || (destruct Hco; by split)); ostep; reflexivity|]);
      (split; cbn; [by split|done|done|by eexists|done|apply Z.mod_pos_bound; done|done|done|]; exists 2; auto).
  - ostep. destruct (tlb_ok_write R (tlb s) k fa pa (writable fa s)) as [? ?]; [done..|].
    destruct (writable fa s) eqn:Hw; eexists; (split; [unfold lock_release_tlb; cbn; rewrite Hlk; cbn [c_assert];
      ostep; rewrite vmstats_inc_ok by (done || (destruct Hco; by split)); ostep; reflexivity|]);
      (split; cbn; [by split|done|done|by eexists|done|done|done|done|]; exists 1; auto).
Qed.

(** The loop that write-protects the code segment. *)
Definition protect (x : Z * Z) : Z * Z :=
  if bool_decide (Z.land x.2 TLBLO_VALID = 0) then x else (x.1, if in_code x.1 then Z.ldiff x.2 TLBLO_DIRTY else x.2).

Lemma protect_loop s : len (tlb s) = NUM_TLB →
  for_each (Z.to_nat NUM_TLB) 0 (protect_entry asp) s = Ret (set_tlb (protect <$> tlb s) s).
Proof.
  intros Hlen. unfold NUM_TLB in Hlen.
  destruct (for_each_inv (λ j t, t = set_tlb ((protect <$> take (Z.to_nat j) (tlb s)) ++ drop (Z.to_nat j) (tlb s)) s)
    (protect_entry asp) (Z.to_nat NUM_TLB) 0 s) as (s' & -> & ->).
  - by destruct s.
  - intros j ? Hj ->. unfold NUM_TLB in Hj. eexists. split; [|reflexivity].
    destruct (lookup_lt_is_Some_2 (tlb s) (Z.to_nat j)) as [[ehi elo] Hx]; [lia|].
    assert (Hl : length (protect <$> take (Z.to_nat j) (tlb s)) = Z.to_nat j) by (rewrite length_fmap, length_take; lia).
    unfold protect_entry. erewrite rd_lookup; [|lia|]; cycle 1.
    { cbn. rewrite lookup_app_r, Hl, Nat.sub_diag, lookup_drop, Nat.add_0_r by lia. exact Hx. }
    ostep. replace (Z.to_nat (j + 1)) with (S (Z.to_nat j)) by lia. rewrite (take_S_r _ _ _ Hx), fmap_app. rewrite (drop_S _ _ _ Hx).
    change (protect <$> [(ehi, elo)]) with [protect (ehi, elo)]. 
    assert (protect (ehi, elo) = if bool_decide (Z.land elo TLBLO_VALID = 0) then (ehi, elo)
      else (ehi, if in_code ehi then Z.ldiff elo TLBLO_DIRTY else elo)) as -> by done.
    case_bool_decide; [by rewrite <- app_assoc|]. unfold TLB_Write. fold (in_code ehi). cbn [tlb set_tlb].
    rewrite wr_in_range by (rewrite length_app, Hl; simpl; rewrite length_drop; lia). ostep.
    rewrite insert_app_r_alt, Hl, Nat.sub_diag by lia. by rewrite <- app_assoc.
  - do 2 f_equal. rewrite take_ge, drop_ge by (unfold NUM_TLB; lia). by rewrite app_nil_r.
Qed.

Lemma protect_fst t : (protect <$> t).*1 = t.*1.
Proof. rewrite <- list_fmap_compose. apply list_fmap_ext. intros _ [ehi elo] _. unfold protect. simpl. by case_bool_decide. Qed.

Lemma protect_tlbe ehi pa d : aligned pa → protect (ehi, tlbe pa d) = (ehi, tlbe pa (d && negb (in_code ehi))).
Proof.
  intros Hpa. unfold protect. simpl. rewrite bool_decide_eq_false_2 by by apply tlbe_valid.
  destruct (in_code ehi); simpl; [by rewrite tlbe_protect, andb_false_r|by rewrite andb_true_r].
Qed.

Lemma protect_ok t : tlb_ok R t → tlb_ok R (protect <$> t).
Proof.
  intros Ht. split; [rewrite length_fmap; apply Ht|rewrite protect_fst; apply Ht|].
  intros ehi elo ([h l] & Heq & Hin)%list_elem_of_fmap. destruct (to_entry _ _ Ht _ _ Hin) as (Ha & [[? Hv]|(? & pa & d & ? & Hpa & ->)]).
  - unfold protect in Heq. simpl in Heq. rewrite bool_decide_eq_true_2 in Heq by done. injection Heq as -> ->. auto.
  - rewrite protect_tlbe in Heq by done. injection Heq as -> ->. split; [done|]. right. split; [done|]. by eexists pa, _.
Qed.

Lemma protect_mapped t fa pa d : aligned pa → mapped_to t fa pa d → mapped_to (protect <$> t) fa pa (d && negb (in_code fa)).
Proof. intros Hpa Hm. unfold mapped_to. rewrite <- protect_tlbe by done. by apply list_elem_of_fmap_2. Qed.

(** No page of the code segment is writable. *)
Definition code_readonly (t : list (Z * Z)) : Prop := ∀ fa pa, in_code fa = true → aligned pa → ¬ mapped_to t fa pa true.

Lemma protect_readonly t : tlb_ok R t → code_readonly (protect <$> t).
Proof.
  intros Ht fa pa Hc Hpa ([h l] & Heq & Hin)%list_elem_of_fmap.
  destruct (to_entry _ _ Ht _ _ Hin) as (_ & [[? Hv]|(? & pa' & d & ? & Hpa' & ->)]).
  - unfold protect in Heq. simpl in Heq. rewrite bool_decide_eq_true_2 in Heq by done. injection Heq as -> <-. by apply tlbe_valid in Hv.
  - rewrite protect_tlbe in Heq by done. injection Heq as <- Heq.
    assert (Z.land (tlbe pa true) TLBLO_DIRTY ≠ 0) as Hd by (rewrite tlbe_dirty; done). apply Hd. rewrite Heq.
    rewrite tlbe_dirty by done. by rewrite Hc, andb_false_r.
Qed.

Lemma protect_writable t : tlb_ok R t → data_writable t → data_writable (protect <$> t).
Proof.
  intros Ht Hd fa pa d Hc Hpa ([h l] & Heq & Hin)%list_elem_of_fmap.
  destruct (to_entry _ _ Ht _ _ Hin) as (_ & [[? Hv]|(? & pb & e & ? & Hpb & ->)]).
  - unfold protect in Heq. simpl in Heq. rewrite bool_decide_eq_true_2 in Heq by done. injection Heq as -> <-. by apply tlbe_valid in Hv.
  - rewrite protect_tlbe in Heq by done. injection Heq as <- Heq. rewrite Hc, andb_true_r in Heq.
    rewrite (tlbe_inj pa pb d e) by done. by apply (Hd fa pb e).
Qed.

(** ** The end of a fault *)

Record updated s s' : Prop := {
  up_keeps : keeps s s';
  up_tlb : tlb_ok R (tlb s');
  up_writable : data_writable (tlb s) → data_writable (tlb s');
  up_lock : tlb_lock s' = false;
  up_victim : 0 ≤ next_victim s' < NUM_TLB;
  up_code : first_code_read s' = 0;
  up_counts : ∃ b, (b = 1 ∨ b = 2) ∧ stats_counts s' = bump b (bump 0 (stats_counts s))
}.

Section update.
Context (s : vms F) (pl : place) (fa pa : Z).
Context (Hco : counters_ok s) (Ht : tlb_ok R (tlb s)) (Hlk : tlb_lock s = false) (Hv : 0 ≤ next_victim s < NUM_TLB).
Context (Ha : aligned fa) (Hu : fa < USERTOP) (HR : R fa pa) (Hpa : aligned pa).

Lemma counters_set x t : counters_ok t → len x = VMSTAT_COUNT → counters_ok (set_stats_counts x t).
Proof. intros [_ ?] ?. by split. Qed.

Lemma update_enter wr_to : first_code_read s = 0 → wr_to = 1 ∨ pl_seg pl = 2 → fa ∉ (tlb s).*1 →
  ∃ s', update_tlb asp pl fa pa wr_to s = Ret (Returns 0, s') ∧ updated s s' ∧ mapped_to (tlb s') fa pa (writable fa s).
Proof.
  intros Hfc Hwr Hfa. unfold update_tlb. rewrite _vmstats_inc_ok by done. ostep.
  replace (bool_decide (wr_to = 1) || bool_decide (pl_seg pl = 2)) with true.
  2: { destruct Hwr; [rewrite (bool_decide_eq_true_2 (wr_to = 1))|rewrite (bool_decide_eq_true_2 (pl_seg pl = 2)), orb_true_r]; done. }
  cbn [orb]. unfold lock_acquire_tlb. cbn [tlb_lock set_stats_counts]. rewrite Hlk. ostep. cbn [first_code_read set_tlb_lock set_stats_counts].
  rewrite Hfc, (bool_decide_eq_false_2 (0 ≠ 0)) by lia. cbn [andb].
  set (t := set_tlb_lock true _).
  destruct (enter_tlb_ok fa pa t) as (s' & -> & [[] ? ? (k & Hk) ? ? Hc ? (b & ? & ?)]); [|done..|].
  { destruct Hco. split; [|done]. cbn. by rewrite bump_length. }
  exists s'. split; [done|]. split; [|done]. split; [by split|done|rewrite Hk; intros; apply writable_write; [done..|unfold writable; by intros ->]|done..| |].
  - rewrite Hc. cbn. rewrite Hfc. by destruct (writable fa t).
  - by exists b.
Qed.

Lemma update_skip wr_to : first_code_read s = 0 → wr_to ≠ 1 → pl_seg pl ≠ 2 →
  ∃ s', update_tlb asp pl fa pa wr_to s = Ret (Returns 0, s') ∧ updated s s' ∧ tlb s' = tlb s.
Proof.
  intros Hfc Hwr Hs. unfold update_tlb. rewrite _vmstats_inc_ok by done. ostep. cbn [first_code_read set_stats_counts].
  rewrite Hfc, !bool_decide_eq_false_2 by done. cbn [orb].
  rewrite vmstats_inc_ok; [|apply counters_set; [done|rewrite bump_length; apply Hco]|done]. ostep.
  eexists. split; [done|]. split; [|done]. split; cbn; [by split|done..|]. exists 2. auto.
Qed.

Lemma update_code wr_to : first_code_read s = 1 → in_code fa = true → (fa ∉ (tlb s).*1 ∨ ∃ d, mapped_to (tlb s) fa pa d) →
  ∃ s', update_tlb asp pl fa pa wr_to s = Ret (Returns 0, s') ∧ updated s s' ∧ mapped_to (tlb s') fa pa false.
Proof.
  intros Hfc Hc Hm. unfold update_tlb. rewrite _vmstats_inc_ok by done. ostep. cbn [first_code_read set_stats_counts].
  rewrite Hfc, (bool_decide_eq_true_2 (1 = 1)), orb_true_r by done. unfold lock_acquire_tlb. cbn [tlb_lock set_stats_counts].
  rewrite Hlk. ostep. cbn [first_code_read set_tlb_lock set_stats_counts]. fold (in_code fa).
  rewrite Hfc, Hc, (bool_decide_eq_true_2 (1 ≠ 0)) by done. cbn [andb]. rewrite protect_loop by apply Ht. ostep.
  set (t := set_tlb _ _). assert (Htt : tlb_ok R (tlb t)) by by apply protect_ok.
  assert (Hct : counters_ok t) by (destruct Hco; split; [|done]; unfold t; cbn; by rewrite bump_length).
  unfold TLB_Probe. change TLBHI_VPAGE with PAGE_FRAME. rewrite (aligned_frame fa) by done. destruct Hm as [Hm|[d Hm]].
  - assert (Hm' : fa ∉ (tlb t).*1) by (unfold t; cbn; by rewrite protect_fst).
    rewrite (proj2 (find_unmapped R _ _ Htt) Hm'). rewrite bool_decide_eq_false_2 by lia.
    destruct (enter_tlb_ok fa pa t) as (s' & -> & [[] ? Hmap (k & Hk) ? ? Hc' ? (b & ? & ?)]); [done..|].
    assert (Hw : writable fa t = false) by (unfold writable; rewrite Hc; unfold t; cbn; by rewrite Hfc).
    rewrite Hw in *. exists s'. split; [done|]. split; [|done]. split; [by split|done| |done..|by exists b].
    intros Hd. rewrite Hk. apply writable_write; [by apply protect_writable|done|by rewrite Hc].
  - apply (protect_mapped _ _ _ _ Hpa) in Hm. rewrite Hc, andb_false_r in Hm.
    destruct (find_mapped R (tlb t) fa pa false Htt Hm) as (k & -> & Hk). rewrite bool_decide_eq_true_2 by done.
    unfold lock_release_tlb. cbn [tlb_lock set_code_write_nread set_first_code_read t set_tlb set_tlb_lock c_assert]. ostep.
    rewrite vmstats_inc_ok; [|by destruct Hct; split|done]. ostep. eexists. split; [done|]. split; [|done].
    split; [by split|done|by intros; apply protect_writable|done..|]. exists 1. auto.
Qed.
End update.
End tlb_state.

(** ** Address spaces *)

Section space.
Context (asp : addrspace) (P1 P2 PS : list nat).

Record seg_ok (g : segment) (P : list nat) : Prop := {
  so_pages : ∃ a, useg g = Some a ∧ arepr a P;
  so_npages : as_npages g = len P;
  so_base : aligned (as_vbase g);
  so_top : as_vbase g + as_npages g * PAGE_SIZE ≤ USERTOP;
  so_file : ∃ f o, as_filesz g = Some f ∧ 0 ≤ f ∧ as_off g = Some o
}.

Record as_ok : Prop := {
  ao_code : seg_ok (seg1 asp) P1;
  ao_data : seg_ok (seg2 asp) P2;
  ao_stack : ∃ a, usegs asp = Some a ∧ arepr a PS;
  ao_nstack : len PS = DUMBVM_STACKPAGES;
  ao_nodup : NoDup (P1 ++ P2 ++ PS);
  ao_file : is_Some (as_v asp)
}.

(** The position of the page for an address among all pages. *)
Definition page_index (fa : Z) : option nat :=
  if in_code asp fa then Some (Z.to_nat ((fa - as_vbase (seg1 asp)) / PAGE_SIZE))
  else if in_range fa (as_vbase (seg2 asp)) (as_npages (seg2 asp)) then
    Some (length P1 + Z.to_nat ((fa - as_vbase (seg2 asp)) / PAGE_SIZE))%nat
  else if bool_decide (USERSTACK - DUMBVM_STACKPAGES * PAGE_SIZE ≤ fa) && bool_decide (fa < USERSTACK) then
    Some (length P1 + length P2 + Z.to_nat ((fa - (USERSTACK - DUMBVM_STACKPAGES * PAGE_SIZE)) / PAGE_SIZE))%nat
  else None.

Context (Has : as_ok).

Lemma in_seg fa g P : seg_ok g P → aligned fa → in_range fa (as_vbase g) (as_npages g) = true →
  as_vbase g ≤ fa < as_vbase g + len P * PAGE_SIZE ∧ fa < USERTOP ∧
  (fa - as_vbase g) / PAGE_SIZE < len P ∧ fa = as_vbase g + (fa - as_vbase g) / PAGE_SIZE * PAGE_SIZE.
Proof.
  intros [_ Hn [[Hb0 Hb1] Hb] Ht _] [_ Ha] Hr. unfold in_range in Hr. rewrite Hn in *. apply andb_prop in Hr as [Hlo Hhi]. cbool.
  unfold USERTOP, MIPS_KSEG0, PAGE_SIZE in *. rewrite u32_small in Hhi by lia. split; [lia|]. split; [lia|].
  Z.to_euclidean_division_equations. lia.
Qed.

Lemma page_of_ok a P i p : arepr a P → 0 ≤ i → P !! Z.to_nat i = Some p → page_of (Some a) i = Ret p.
Proof. intros. unfold page_of. cbn [known]. ostep. by eapply array_getguy_ok. Qed.

(** Every aligned address either is in no segment or has its place. *)
Lemma find_place_ok fa : aligned fa →
  match page_index fa with
  | None => find_place asp fa = Ret None
  | Some k => ∃ pl f, find_place asp fa = Ret (Some pl) ∧ (P1 ++ P2 ++ PS) !! k = Some (pl_page pl) ∧ fa < USERTOP ∧
      pl_fsize pl = Some f ∧ 0 ≤ f ∧ (f ≠ 0 → is_Some (pl_off pl)) ∧
      (pl_seg pl = 0 ∧ in_code asp fa = true ∨ pl_seg pl = 1 ∧ in_code asp fa = false ∨
       pl_seg pl = 2 ∧ in_code asp fa = false ∧ f = 0)
  end.
Proof.
  intros Ha. destruct Has as [Hc Hd (as_ & Hs & Hrs) Hns _ _]. unfold page_index, find_place, in_code.
  rewrite (bool_decide_eq_false_2 (s32 (fa / PAGE_SIZE) < 0)).
  2: { destruct Ha as [? _]. unfold PAGE_SIZE. rewrite s32_small; Z.to_euclidean_division_equations; lia. }
  destruct (in_range fa (as_vbase (seg1 asp)) _) eqn:H1.
  { destruct (in_seg fa _ _ Hc Ha H1) as (? & ? & ? & _). destruct (so_pages _ _ Hc) as (a & -> & Hra).
    destruct (so_file _ _ Hc) as (f & o & -> & ? & ->). assert (0 ≤ (fa - as_vbase (seg1 asp)) / PAGE_SIZE) by (apply Z.div_pos; unfold PAGE_SIZE; lia).
    destruct (lookup_lt_is_Some_2 P1 (Z.to_nat ((fa - as_vbase (seg1 asp)) / PAGE_SIZE))) as [p Hp]; [lia|].
    rewrite (page_of_ok a P1 _ p) by done. ostep. eexists _, f. split; [done|]. rewrite lookup_app_l by (apply lookup_lt_Some in Hp; lia). naive_solver. }
  destruct (in_range fa (as_vbase (seg2 asp)) _) eqn:H2.
  { destruct (in_seg fa _ _ Hd Ha H2) as (? & ? & ? & _). destruct (so_pages _ _ Hd) as (a & -> & Hra).
    destruct (so_file _ _ Hd) as (f & o & -> & ? & ->). assert (0 ≤ (fa - as_vbase (seg2 asp)) / PAGE_SIZE) by (apply Z.div_pos; unfold PAGE_SIZE; lia).
    destruct (lookup_lt_is_Some_2 P2 (Z.to_nat ((fa - as_vbase (seg2 asp)) / PAGE_SIZE))) as [p Hp]; [lia|].
    rewrite (page_of_ok a P2 _ p) by done. ostep. eexists _, f. split; [done|]. rewrite lookup_app_r by lia.
    rewrite lookup_app_l by (apply lookup_lt_Some in Hp; lia). rewrite Nat.add_comm, Nat.add_sub. naive_solver. }
  destruct (bool_decide (_ ≤ fa) && _) eqn:H3; [|done]. cbool.
  assert (Hi : 0 ≤ (fa - (USERSTACK - DUMBVM_STACKPAGES * PAGE_SIZE)) / PAGE_SIZE < DUMBVM_STACKPAGES).
  { unfold USERSTACK, USERTOP, MIPS_KSEG0, DUMBVM_STACKPAGES, PAGE_SIZE in *. Z.to_euclidean_division_equations; lia. }
  destruct (lookup_lt_is_Some_2 PS (Z.to_nat ((fa - (USERSTACK - DUMBVM_STACKPAGES * PAGE_SIZE)) / PAGE_SIZE))) as [p Hp]; [lia|].
  rewrite Hs, (page_of_ok as_ PS _ p) by (done || lia). ostep. eexists _, 0. split; [done|]. rewrite !lookup_app_r by lia.
  replace (length P1 + length P2 + _ - _ - _)%nat with (Z.to_nat ((fa - (USERSTACK - DUMBVM_STACKPAGES * PAGE_SIZE)) / PAGE_SIZE)) by lia.
  unfold USERSTACK in *. naive_solver.
Qed.

Lemma page_index_inj fa fb k : aligned fa → aligned fb → page_index fa = Some k → page_index fb = Some k → fa = fb.
Proof.
  intros Ha Hb. destruct Has as [Hc Hd _ Hns _ _]. unfold page_index, in_code.
  assert (Hstack : ∀ x, aligned x → bool_decide (USERSTACK - DUMBVM_STACKPAGES * PAGE_SIZE ≤ x) && bool_decide (x < USERSTACK) = true →
    0 ≤ (x - (USERSTACK - DUMBVM_STACKPAGES * PAGE_SIZE)) / PAGE_SIZE ∧
    x = USERSTACK - DUMBVM_STACKPAGES * PAGE_SIZE + (x - (USERSTACK - DUMBVM_STACKPAGES * PAGE_SIZE)) / PAGE_SIZE * PAGE_SIZE).
  { intros x [_ Hx] H. cbool. unfold USERSTACK, USERTOP, MIPS_KSEG0, DUMBVM_STACKPAGES, PAGE_SIZE in *. clear - Hx H H0. split; Z.to_euclidean_division_equations; lia. }
  assert (Hpos : ∀ g x, as_vbase g ≤ x → 0 ≤ (x - as_vbase g) / PAGE_SIZE) by (intros; apply Z.div_pos; unfold PAGE_SIZE; lia).
  destruct (in_range fa (as_vbase (seg1 asp)) _) eqn:A1; [|destruct (in_range fa (as_vbase (seg2 asp)) _) eqn:A2; [|destruct (bool_decide (_ ≤ fa) && _) eqn:A3]];
  (destruct (in_range fb (as_vbase (seg1 asp)) _) eqn:B1; [|destruct (in_range fb (as_vbase (seg2 asp)) _) eqn:B2; [|destruct (bool_decide (_ ≤ fb) && _) eqn:B3]]);
  intros [= <-] [= Heq];
  repeat match goal with
  | H : in_range ?x (as_vbase (seg1 asp)) _ = true |- _ => apply (in_seg x _ _ Hc) in H; [|done]
  | H : in_range ?x (as_vbase (seg2 asp)) _ = true |- _ => apply (in_seg x _ _ Hd) in H; [|done]
  | H : (_ && _) = true |- _ => apply Hstack in H; [|done]
  end;
  pose proof (Hpos (seg1 asp) fa); pose proof (Hpos (seg2 asp) fa); pose proof (Hpos (seg1 asp) fb); pose proof (Hpos (seg2 asp) fb); unfold PAGE_SIZE in *; lia.
Qed.

Lemma place_inj fa fb pl pl' : aligned fa → aligned fb → find_place asp fa = Ret (Some pl) → find_place asp fb = Ret (Some pl') →
  pl_page pl = pl_page pl' → fa = fb.
Proof.
  intros Ha Hb H1 H2 Hp. pose proof (find_place_ok fa Ha) as Hfa. pose proof (find_place_ok fb Hb) as Hfb.
  destruct (page_index fa) as [k|] eqn:Hk; [|congruence]. destruct (page_index fb) as [k'|] eqn:Hk'; [|congruence].
  destruct Hfa as (? & _ & E1 & Hl & _). destruct Hfb as (? & _ & E2 & Hl' & _). 
  rewrite H1 in E1. rewrite H2 in E2. injection E1 as <-. injection E2 as <-. rewrite <- Hp in Hl'. assert (k' = k) as -> by (by eapply NoDup_lookup; [apply Has|..]).
  by eapply page_index_inj.
Qed.

(** ** The invariant *)

Definition frame_ok (f : F) (pa : Z) : Prop := 0 < pa < 2 ^ 31 ∧ pa mod PAGE_SIZE = 0 ∧ fr_used f pa.

Lemma frame_ok_aligned f pa : frame_ok f pa → aligned pa.
Proof. intros ([? ?] & ? & _). split; [lia|done]. Qed.

Definition holds s (p : nat) (pa : Z) : Prop := ∃ x, pages s !! p = Some x ∧ pg_valid x = 1 ∧ pg_paddr x = Some pa.

Definition resident s (fa pa : Z) : Prop := aligned fa ∧ ∃ pl, find_place asp fa = Ret (Some pl) ∧ holds s (pl_page pl) pa.

Record vinv s : Prop := {
  v_counters : counters_ok s;
  v_tlb : tlb_ok (resident s) (tlb s);
  v_writable : data_writable asp (tlb s);
  v_lock : tlb_lock s = false;
  v_victim : 0 ≤ next_victim s < NUM_TLB;
  v_code : first_code_read s = 0;
  v_frames : fr_inv (frames s);
  v_page p : p ∈ P1 ++ P2 ++ PS → ∃ x, pages s !! p = Some x ∧
    (pg_valid x = 0 ∨ pg_valid x = 1 ∧ ∃ pa, pg_paddr x = Some pa ∧ frame_ok (frames s) pa);
  v_apart p q pa : p ∈ P1 ++ P2 ++ PS → q ∈ P1 ++ P2 ++ PS → holds s p pa → holds s q pa → p = q
}.

Lemma holds_fun s p pa pb : holds s p pa → holds s p pb → pa = pb.
Proof. intros (x & Hx & _ & Hp) (y & Hy & _ & Hq). congruence. Qed.

Lemma resident_fun s fa pa pb : resident s fa pa → resident s fa pb → pa = pb.
Proof. intros (_ & pl & Hpl & H1) (_ & pl' & Hpl' & H2). assert (pl' = pl) as -> by congruence. by eapply holds_fun. Qed.

(** A place that was found: its page, its segment, its file. *)
Record placed (fa : Z) (pl : place) (f : Z) : Prop := {
  pd_aligned : aligned fa;
  pd_find : find_place asp fa = Ret (Some pl);
  pd_page : pl_page pl ∈ P1 ++ P2 ++ PS;
  pd_user : fa < USERTOP;
  pd_fsize : pl_fsize pl = Some f;
  pd_nonneg : 0 ≤ f;
  pd_off : f ≠ 0 → is_Some (pl_off pl);
  pd_seg : pl_seg pl = 0 ∧ in_code asp fa = true ∨ pl_seg pl = 1 ∧ in_code asp fa = false ∨ pl_seg pl = 2 ∧ in_code asp fa = false ∧ f = 0
}.

Lemma find_place_placed fa : aligned fa → find_place asp fa = Ret None ∨ ∃ pl f, placed fa pl f.
Proof.
  intros Ha. pose proof (find_place_ok fa Ha) as H. destruct (page_index fa); [|by left].
  destruct H as (pl & f & ? & Hp & ? & ? & ? & ? & ?). right. exists pl, f. split; try done. by eapply list_elem_of_lookup_2.
Qed.

Lemma resident_frame s fa pa : vinv s → resident s fa pa → frame_ok (frames s) pa ∧ aligned pa.
Proof.
  intros Hv (Ha & pl & Hpl & x & Hx & Hval & Hpa). destruct (find_place_placed fa Ha) as [|(pl' & f & Hp)]; [congruence|].
  pose proof (pd_find _ _ _ Hp) as Hf. assert (pl' = pl) as -> by congruence.
  destruct (v_page s Hv _ (pd_page _ _ _ Hp)) as (y & Hy & [?|(_ & pb & ? & Hfr)]); [congruence|].
  assert (pb = pa) as -> by congruence. split; [done|]. by eapply frame_ok_aligned.
Qed.

(** States that differ only in what the invariant does not mention. *)
Lemma vinv_same s s' : pages s' = pages s → frames s' = frames s → tlb s' = tlb s → tlb_lock s' = tlb_lock s → next_victim s' = next_victim s →
  first_code_read s' = 0 → counters_ok s' → vinv s → vinv s'.
Proof.
  intros Hp Hf Ht Hl Hv Hc Hco [H1 H2 H2' H3 H4 H5 H6 H7 H8]. split; rewrite ?Hf, ?Ht, ?Hl, ?Hv, ?Hp; try done.
  - eapply tlb_ok_mono, H2. unfold resident, holds. by rewrite Hp.
  - intros p q pa. unfold holds. rewrite Hp. apply H8.
Qed.

Lemma vinv_updated s t s' : pages t = pages s → frames t = frames s → tlb t = tlb s → counters_ok t → updated (resident s) asp t s' → vinv s → vinv s'.
Proof.
  intros Hpt Hft Htt [Hc1 Hc2] [[Hp ? Hf ? ? Hlk ?] ? Hwr ? ? ? (b & ? & Hst)] [_ H2 H2' H3 H4 H5 H6 H7 H8]. rewrite Hpt in Hp. rewrite Hft in Hf. split; try done.
  - split; [by rewrite Hst, !bump_length|by rewrite Hlk].
  - eapply tlb_ok_mono; [|done]. unfold resident, holds. by rewrite Hp.
  - apply Hwr. by rewrite Htt.
  - by rewrite Hf.
  - rewrite Hp, Hf. apply H7.
  - intros p q pa. unfold holds. rewrite Hp. apply H8.
Qed.

(** ** Faults *)

Context (exe : Z → Z → Z → Z * list Z).

Section body.
Context (nested : Z → Z → vms F → outcome (fres * vms F)).

(** The state in which the switch starts. *)
Definition opened (va : Z) s : vms F :=
  set_cpu_spl SPL_HIGH (set_first_read (if bool_decide (first_v s ≠ va) then 0 else 1) (set_first_v va s)).

Lemma body_placed t va s pl f : placed (Z.land va PAGE_FRAME) pl f →
  vm_fault_body exe nested (Some asp) t va s =
    ('(r, s') ←
       (if bool_decide (t = VM_FAULT_READONLY) then Ret (inl Killed, opened va s)
        else if bool_decide (t = VM_FAULT_READ) then fault_read exe nested asp pl (Z.land va PAGE_FRAME) (cpu_spl s) (opened va s)
        else if bool_decide (t = VM_FAULT_WRITE) then fault_write exe nested asp pl (Z.land va PAGE_FRAME) (cpu_spl s) (opened va s)
        else Ret (inl (Returns EINVAL), opened va s));
     match r with
     | inl r => Ret (r, s')
     | inr (paddr, wr_to) => update_tlb asp pl (Z.land va PAGE_FRAME) paddr wr_to (set_cpu_spl (cpu_spl s) s')
     end).
Proof.
  intros Hp. unfold vm_fault_body.
  replace (if bool_decide (first_v s ≠ va) then set_first_read 0 (set_first_v va s) else set_first_read 1 s)
    with (set_first_read (if bool_decide (first_v s ≠ va) then 0 else 1) (set_first_v va s)).
  2: { case_bool_decide as Hne; [done|]. assert (first_v s = va) as <- by lia. by destruct s. }
  rewrite (pd_find _ _ _ Hp). ostep. done.
Qed.

Lemma note_code_eq pl s : first_code_read s = 0 → note_code pl s = if bool_decide (pl_seg pl = 0) then set_first_code_read 1 s else s.
Proof. intros H. unfold note_code. rewrite H. by case_bool_decide. Qed.

(** What the fault on a resident page does: the TLB gets its entry. *)
Record reloaded (fa pa : Z) (d : bool) s s' : Prop := {
  rl_inv : vinv s';
  rl_keeps : keeps s s';
  rl_mapped : mapped_to (tlb s') fa pa d;
  rl_counts : ∃ b, (b = 1 ∨ b = 2) ∧ stats_counts s' = bump b (bump 0 (bump 4 (stats_counts s)))
}.

Lemma resident_placed s fa pa : resident s fa pa → ∃ pl f, placed fa pl f ∧ holds s (pl_page pl) pa.
Proof.
  intros (Ha & pl & Hpl & Hh). destruct (find_place_placed fa Ha) as [|(pl' & f & Hp)]; [congruence|].
  assert (pl' = pl) as -> by (pose proof (pd_find _ _ _ Hp); congruence). by exists pl, f.
Qed.

Lemma fault_resident t va s pa : vinv s → t = VM_FAULT_READ ∨ t = VM_FAULT_WRITE →
  resident s (Z.land va PAGE_FRAME) pa → Z.land va PAGE_FRAME ∉ (tlb s).*1 →
  ∃ s', vm_fault_body exe nested (Some asp) t va s = Ret (Returns 0, s') ∧
    reloaded (Z.land va PAGE_FRAME) pa
      (negb (in_code asp (Z.land va PAGE_FRAME) && (bool_decide (t = VM_FAULT_READ) || bool_decide (code_write_nread s = 0)))) s s'.
Proof.
  intros Hv Ht Hr Hfa. set (fa := Z.land va PAGE_FRAME) in *. destruct (resident_frame s fa pa Hv Hr) as [_ Hpa].
  destruct (resident_placed s fa pa Hr) as (pl & f & Hp & x & Hx & Hval & Hxp). rewrite (body_placed _ _ _ _ _ Hp).
  fold fa. pose proof Hv as [Hco Htlb _ Hlk Hvi Hc _ _ _]. pose proof Hr as [Ha _].
  assert (Hco' : ∀ s1, len (stats_counts s1) = VMSTAT_COUNT → stats_lock s1 = stats_lock s → counters_ok s1).
  { intros s1 ? Heq. split; [done|]. rewrite Heq. apply Hco. }
  assert (Hl4 : len (bump 4 (stats_counts s)) = VMSTAT_COUNT) by (rewrite bump_length; apply Hco).
  assert (Hfin : ∀ t s' d, updated (resident s) asp t s' → mapped_to (tlb s') fa pa d → keeps s t → tlb t = tlb s →
    stats_counts t = bump 4 (stats_counts s) → reloaded fa pa d s s').
  { intros t1 s' d Hup Hm [? ? ? ? ? ? ?] ? Hst. split; [|destruct Hup as [[] _ _ _ _ _ _]; split; congruence|done|].
    - eapply (vinv_updated s t1); try done. apply Hco'; [by rewrite Hst|done].
    - destruct (up_counts _ _ _ _ Hup) as (b & ? & Hb). exists b. by rewrite Hb, Hst. }
  assert (Hop : page_at (pl_page pl) (opened va s) = Ret x) by (unfold page_at; cbn; by rewrite Hx).
  destruct Ht as [-> | ->]; [rewrite (bool_decide_eq_false_2 (VM_FAULT_READ = _)), (bool_decide_eq_true_2 (VM_FAULT_READ = _)) by done
    |rewrite (bool_decide_eq_false_2 (VM_FAULT_WRITE = VM_FAULT_READONLY)), (bool_decide_eq_false_2 (VM_FAULT_WRITE = VM_FAULT_READ)), (bool_decide_eq_true_2 (VM_FAULT_WRITE = _)) by done].
  - unfold fault_read. rewrite Hop. ostep.
    rewrite Hval, Hxp. rewrite (bool_decide_eq_false_2 (1 = 0)) by done. cbn [known]. ostep. rewrite note_code_eq by done.
    destruct (pd_seg _ _ _ Hp) as [[Hs Hcode]|Hs].
    + rewrite bool_decide_eq_true_2 by done. rewrite _vmstats_inc_ok by (done || (apply Hco'; [apply Hco|done])). ostep.
      rewrite Hcode. cbn [andb orb negb].
      match goal with |- context [update_tlb asp pl fa pa ?w ?t] =>
        destruct (update_code (resident s) asp t pl fa pa) with (wr_to := w) as (s' & Hu & Hup & Hm);
          [by apply Hco'|done|done|done|done|apply Hp|done|done|done|done|by left|] end.
      rewrite Hu. exists s'. split; [done|]. eapply Hfin; [exact Hup|exact Hm|by split|done|done].
    + assert (Hcode : in_code asp fa = false) by tauto. rewrite (bool_decide_eq_false_2 (pl_seg pl = 0)) by lia.
      rewrite _vmstats_inc_ok by (done || (apply Hco'; [apply Hco|done])). ostep. rewrite Hcode. cbn [andb orb negb].
      match goal with |- context [update_tlb asp pl fa pa ?w ?t] =>
        destruct (update_enter (resident s) asp t pl fa pa) with (wr_to := w) as (s' & Hu & Hup & Hm);
          [by apply Hco'|done|done|done|done|apply Hp|done|done|done|by left|done|] end.
      unfold writable in Hm. rewrite Hcode in Hm.
      rewrite Hu. exists s'. split; [done|]. eapply Hfin; [exact Hup|exact Hm|by split|done|done].
  - unfold fault_write. rewrite Hop. ostep. rewrite Hval, Hxp. rewrite (bool_decide_eq_false_2 (1 = 0)) by done. cbn [known]. ostep.
    rewrite _vmstats_inc_ok by (done || (apply Hco'; [apply Hco|done])). ostep.
    match goal with |- context [update_tlb asp pl fa pa ?w ?t] =>
      destruct (update_enter (resident s) asp t pl fa pa) with (wr_to := w) as (s' & Hu & Hup & Hm);
        [by apply Hco'|done|done|done|done|apply Hp|done|done|done|by left|done|] end.
    unfold writable in Hm. cbn in Hm. rewrite Hc, (bool_decide_eq_false_2 (0 ≠ 0)) in Hm by lia.
    rewrite Hu. exists s'. split; [done|]. eapply Hfin; [exact Hup|exact Hm|by split|done|done].
Qed.
End body.

(** ** Copying a page in *)

Lemma in_page fa va : aligned fa → fa ≤ va < fa + PAGE_SIZE → 0 ≤ va < 2 ^ 32 ∧ Z.land va PAGE_FRAME = fa ∧ va mod PAGE_SIZE = va - fa.
Proof.
  intros [Hr Ha] Hva. unfold PAGE_SIZE in *.
  assert (Hm : va mod 4096 = va - fa) by (Z.to_euclidean_division_equations; lia).
  assert (va < 2 ^ 32) by (Z.to_euclidean_division_equations; lia).
  split; [lia|]. split; [|done]. rewrite page_frame by lia. unfold PAGE_SIZE. lia.
Qed.

Lemma page_below fa : aligned fa → fa < USERTOP → fa + PAGE_SIZE ≤ USERTOP.
Proof. intros [_ Ha]. unfold PAGE_SIZE, USERTOP, MIPS_KSEG0 in *. Z.to_euclidean_division_equations. lia. Qed.

Section stores.
Context (nested : Z → Z → vms F → outcome (fres * vms F)) (R : Z → Z → Prop) (fa pa : Z).
Context (Ha : aligned fa) (Hpa : aligned pa).

Lemma stores_hit l : ∀ va s, tlb_ok R (tlb s) → mapped_to (tlb s) fa pa true → fa ≤ va → va + len l ≤ fa + PAGE_SIZE →
  user_stores nested va l s = Ret (Returns 0, set_phys (store (phys s) (pa + (va - fa)) l) s).
Proof.
  induction l as [|b l IH]; intros va s Ht Hm Hlo Hhi; cbn [user_stores store length] in *; [by destruct s|].
  destruct (in_page fa va Ha) as (_ & Hf & Hmod); [lia|]. cbn [user_store].
  rewrite (translate_hit R s true va pa true Ht Hpa) by (try rewrite Hf; done). ostep.
  rewrite bool_decide_eq_true_2, IH by (done || lia). rewrite Hmod.
  by replace (pa + (va + 1 - fa)) with (pa + (va - fa) + 1) by lia.
Qed.
End stores.

Lemma vm_fault_S n a t va s : vm_fault_n exe (S n) a t va s = vm_fault_body exe (vm_fault_n exe n a) a t va s.
Proof. done. Qed.

Lemma stores_miss fa pa l va s : vinv s → resident s fa pa → fa ∉ (tlb s).*1 → (in_code asp fa = true → code_write_nread s ≠ 0) →
  l ≠ [] → fa ≤ va → va + len l ≤ fa + PAGE_SIZE →
  ∃ s1, reloaded fa pa true s s1 ∧
    user_stores (vm_fault_n exe 1 (Some asp)) va l s = Ret (Returns 0, set_phys (store (phys s) (pa + (va - fa)) l) s1).
Proof.
  intros Hv Hr Hfa Hcw Hl Hlo Hhi. destruct (resident_frame s fa pa Hv Hr) as [_ Hpa]. pose proof Hr as [Ha _].
  destruct l as [|b l]; [done|]. cbn [length] in Hhi. destruct (in_page fa va Ha) as (_ & Hf & Hmod); [lia|].
  destruct (fault_resident (vm_fault_n exe 0 (Some asp)) VM_FAULT_WRITE va s pa Hv) as (s1 & Hb & Hrl); [by right|by rewrite Hf..|].
  rewrite Hf in Hrl. rewrite (bool_decide_eq_false_2 (VM_FAULT_WRITE = _)) in Hrl by done. cbn [orb] in Hrl.
  replace (negb _) with true in Hrl.
  2: { destruct (in_code asp fa); [|done]. simpl. by rewrite bool_decide_eq_false_2 by auto. }
  exists s1. split; [done|]. destruct Hrl as [Hv1 [_ _ _ Hph _ _ _] Hm _].
  cbn [user_stores user_store]. rewrite (translate_miss (resident s) s true va) by (try rewrite Hf; done || apply Hv). rewrite vm_fault_S, Hb. ostep. rewrite (bool_decide_eq_true_2 (0 = 0)) by done. cbn [user_store].
  rewrite (translate_hit (resident s1) s1 true va pa true) by (try rewrite Hf; done || apply Hv1). ostep.
  rewrite bool_decide_eq_true_2 by done. rewrite (stores_hit _ (resident s1) fa pa Ha Hpa) by (done || lia || apply Hv1).
  rewrite Hmod. replace (pa + (va + 1 - fa)) with (pa + (va - fa) + 1) by lia. cbn [phys set_phys store]. by rewrite Hph.
Qed.

Lemma copyout_user_eq nested va l s : l ≠ [] → 0 ≤ va → va + len l ≤ USERTOP → copyout_user nested va l s = user_stores nested va l s.
Proof.
  intros Hl Hlo Hhi. unfold copyout_user. rewrite bool_decide_eq_false_2 by done.
  assert (0 < len l) by (destruct l; [done|simpl; lia]). unfold USERTOP, MIPS_KSEG0 in Hhi.
  rewrite copycheck_ok by (unfold word; lia). unfold USERTOP, MIPS_KSEG0. rewrite !decide_True by lia. by rewrite bool_decide_eq_false_2 by lia.
Qed.

(** The page as the executable and the rest of the page, zeros, give it. *)
Definition page_data (bytes : list Z) : list Z := bytes ++ replicate (Z.to_nat (PAGE_SIZE - len bytes)) 0.

Lemma load_ok fa pa v off fs bytes s : vinv s → resident s fa pa → fa < USERTOP → fa ∉ (tlb s).*1 → (in_code asp fa = true → code_write_nread s ≠ 0) →
  0 < fs ≤ PAGE_SIZE → exe v off fs = (0, bytes) → len bytes = fs →
  ∃ s1, reloaded fa pa true s s1 ∧
    load_each_segment exe (vm_fault_n exe 1 (Some asp)) (Some v) (Some off) fa PAGE_SIZE fs 0 s =
    Ret (Returns 0, set_phys (store (phys s) pa (page_data bytes)) s1).
Proof.
  intros Hv Hr Hu Hfa Hcw Hfs Hex Hlen. pose proof Hr as [Ha _]. destruct (resident_frame s fa pa Hv Hr) as [_ Hpa].
  pose proof (page_below fa Ha Hu) as Hpb. assert (Hne : bytes ≠ []) by (intros ->; simpl in Hlen; lia). pose proof Ha as [[Ha0 _] _].
  destruct (stores_miss fa pa bytes fa s) as (s1 & Hrl & Hst); [done..|lia|lia|]. exists s1. split; [done|].
  unfold load_each_segment. rewrite (bool_decide_eq_false_2 (PAGE_SIZE < fs)), (bool_decide_eq_false_2 (0 ≠ 0)) by lia.
  cbn [known]. ostep. rewrite Hex. rewrite copyout_user_eq, Hst by (done || lia). ostep.
  rewrite (bool_decide_eq_true_2 (Returns 0 = Returns 0)) by done. cbn [negb].
  rewrite (bool_decide_eq_false_2 (0 ≠ 0)), (bool_decide_eq_false_2 (fs - len bytes ≠ 0)) by lia. rewrite Z.sub_diag, Z.add_0_r.
  unfold page_data. rewrite store_app, Hlen. case_bool_decide as Hfill.
  - rewrite copyout_user_eq.
    2: { intros H. apply (f_equal length) in H. rewrite length_replicate in H. simpl in H. lia. } 2: lia. 2: rewrite length_replicate; lia.
    destruct Hrl as [Hv1 _ Hm _]. rewrite (stores_hit _ (resident s1) fa pa Ha Hpa); [|apply Hv1|done|lia|rewrite length_replicate; lia].
    by replace (pa + (fa + fs - fa)) with (pa + fs) by lia.
  - replace (PAGE_SIZE - fs) with 0 by lia. done.
Qed.

(** ** Faults on pages that are not in memory *)

Lemma vinv_new_page s s1 p fa pl f x f' pa : vinv s → placed fa pl f → p = pl_page pl → pages s !! p = Some x → pg_valid x = 0 →
  ¬ fr_used (frames s) pa → 0 < pa < 2 ^ 31 → pa mod PAGE_SIZE = 0 → fr_inv f' → (∀ b, fr_used f' b ↔ fr_used (frames s) b ∨ b = pa) →
  pages s1 = <[p := Page fa (Some pa) 1 (pg_permission x)]> (pages s) → frames s1 = f' → tlb s1 = tlb s → tlb_lock s1 = tlb_lock s →
  next_victim s1 = next_victim s → first_code_read s1 = 0 → counters_ok s1 → vinv s1 ∧ resident s1 fa pa.
Proof.
  intros Hv Hpl -> Hx Hval Hnew Hpa Hal Hf' Hused Hpg Hfr Ht Hl Hvi Hc Hco.
  assert (Hholds : ∀ q b, holds s q b → holds s1 q b).
  { intros q b (y & Hy & Hyv & Hyp). exists y. rewrite Hpg. rewrite lookup_insert_ne by congruence. done. }
  assert (Hinv : ∀ q b, holds s1 q b → (q = pl_page pl ∧ b = pa) ∨ (q ≠ pl_page pl ∧ holds s q b)).
  { intros q b (y & Hy & Hyv & Hyp). rewrite Hpg in Hy. destruct (decide (q = pl_page pl)) as [->|Hne].
    - rewrite lookup_insert_eq in Hy. injection Hy as <-. left. simpl in Hyp. split; [done|congruence].
    - rewrite lookup_insert_ne in Hy by done. right. split; [done|]. by exists y. }
  assert (Hr : resident s1 fa pa).
  { split; [apply Hpl|]. exists pl. split; [apply Hpl|]. eexists. rewrite Hpg, lookup_insert_eq. done. }
  assert (Hfroz : ∀ q b, q ∈ P1 ++ P2 ++ PS → holds s q b → frame_ok (frames s) b).
  { intros q b Hq (y & Hy & Hyv & Hyp). destruct (v_page s Hv q Hq) as (z & Hz & [?|(_ & c & ? & ?)]); [congruence|].
    assert (c = b) as -> by congruence. done. }
  split; [|done]. split; rewrite ?Hfr, ?Ht, ?Hl, ?Hvi; try done; try apply Hv.
  - eapply tlb_ok_mono, Hv. intros a b (Ha & pl' & ? & ?). split; [done|]. exists pl'. auto.
  - intros q Hq. destruct (decide (q = pl_page pl)) as [->|Hne].
    + eexists. rewrite Hpg, lookup_insert_eq. split; [done|]. right. split; [done|]. exists pa. split; [done|]. split; [done|]. split; [done|]. apply Hused. by right.
    + destruct (v_page s Hv q Hq) as (y & Hy & Hy'). exists y. rewrite Hpg, lookup_insert_ne by done. split; [done|].
      destruct Hy' as [?|(? & b & ? & ? & ? & ?)]; [by left|]. right. split; [done|]. exists b. split; [done|]. split; [done|]. split; [done|].
      apply Hused. by left.
  - intros q q' b Hq Hq' Hh Hh'. destruct (Hinv _ _ Hh) as [[-> ->]|[Hne Hs]], (Hinv _ _ Hh') as [[-> E]|[Hne' Hs']]; try done.
    + destruct Hnew. apply (Hfroz q' pa Hq' Hs').
    + subst b. destruct Hnew. apply (Hfroz q pa Hq Hs).
    + by eapply (v_apart s Hv).
Qed.

(** A page that is not in memory is not in the TLB. *)
Lemma absent_unmapped s fa pl f x : vinv s → placed fa pl f → pages s !! pl_page pl = Some x → pg_valid x = 0 → fa ∉ (tlb s).*1.
Proof.
  intros Hv Hpl Hx Hval ([? elo] & -> & Hin)%list_elem_of_fmap. simpl in *.
  destruct (to_entry _ _ (v_tlb s Hv) _ _ Hin) as (_ & [[? _]|(_ & pa & d & (_ & pl' & Hf & y & Hy & ? & _) & _)]).
  - pose proof (pd_user _ _ _ Hpl). lia.
  - rewrite (pd_find _ _ _ Hpl) in Hf. injection Hf as <-. congruence.
Qed.

(** What the executable has for a place. *)
Definition in_file (pl : place) (f : Z) (bytes : list Z) : Prop :=
  ∃ v off, as_v asp = Some v ∧ pl_off pl = Some off ∧ exe v (s32 (off + pl_index pl * PAGE_SIZE)) (f_amount f) = (0, bytes) ∧ len bytes = f_amount f.

Definition file_ok : Prop := ∀ fa pl f, placed fa pl f → f ≠ 0 → ∃ bytes, in_file pl f bytes.

(** Is the page read from the executable? *)
Definition loads (t : Z) (pl : place) (f : Z) s : bool :=
  negb (bool_decide (f = 0)) && (bool_decide (t = VM_FAULT_READ) || (bool_decide (second_write s = 0) && bool_decide (pl_seg pl = 1))).

(** The state at the end of the switch, for a page that was not in memory. *)
Record switched (t fa : Z) (pl : place) (f pa : Z) s s' : Prop := {
  sw_ready : vinv (set_first_code_read 0 s');
  sw_resident : resident s' fa pa;
  sw_new : ¬ fr_used (frames s) pa;
  sw_code : first_code_read s' = if bool_decide (t = VM_FAULT_READ) && bool_decide (pl_seg pl = 0) then 1 else 0;
  sw_nread : loads t pl f s = false → t = VM_FAULT_WRITE → code_write_nread s' = code_write_nread s;
  sw_second : second_write s' = if loads VM_FAULT_WRITE pl f s && bool_decide (t = VM_FAULT_WRITE) then 1 else second_write s;
  sw_pages q : q ≠ pl_page pl → pages s' !! q = pages s !! q;
  sw_data : if loads t pl f s then ∃ bytes, in_file pl f bytes ∧ phys s' = store (phys s) pa (page_data bytes) else phys s' = phys s;
  sw_mapped : if loads t pl f s then mapped_to (tlb s') fa pa true else tlb s' = tlb s;
  sw_counts : if decide (f = 0) then stats_counts s' = bump 5 (stats_counts s)
    else ∃ l1, (l1 = stats_counts s ∨ ∃ c, (c = 1 ∨ c = 2) ∧ l1 = bump c (bump 0 (bump 4 (stats_counts s)))) ∧
      stats_counts s' = bump 7 (bump 6 l1);
  sw_spl : cpu_spl s' = SPL_HIGH
}.

Section new_page.
Context (s : vms F) (fa : Z) (pl : place) (f : Z) (x : page) (spl : Z).
Context (Hv : vinv s) (Hpl : placed fa pl f) (Hx : pages s !! pl_page pl = Some x) (Hval : pg_valid x = 0) (Hfile : file_ok) (Hspl : cpu_spl s = SPL_HIGH).

Lemma page_at_insert y (t : vms F) m : pages t = <[pl_page pl := y]> m → page_at (pl_page pl) t = Ret y.
Proof. intros H. unfold page_at. by rewrite H, lookup_insert_eq. Qed.

Lemma mark_valid_eq : mark_valid (pl_page pl) fa s = Ret (set_page (pl_page pl) (Page fa (pg_paddr x) 1 (pg_permission x)) s).
Proof. unfold mark_valid, page_at. by rewrite Hx. Qed.

Lemma set_paddr_eq y (t : vms F) m pa : pages t = <[pl_page pl := y]> m →
  set_paddr (pl_page pl) pa t = Ret (set_page (pl_page pl) (Page (pg_vaddr y) (Some pa) (pg_valid y) (pg_permission y)) t).
Proof. intros H. unfold set_paddr. by rewrite (page_at_insert y t m H). Qed.

Lemma f_amount_range : f ≠ 0 → 0 < f_amount f ≤ PAGE_SIZE.
Proof. intros. pose proof (pd_nonneg _ _ _ Hpl). unfold f_amount, PAGE_SIZE. case_bool_decide; lia. Qed.

(** Filling the page, in a state in which it has its frame. *)
Lemma fill_page_ok pa s1 : vinv s1 → resident s1 fa pa → tlb s1 = tlb s → (in_code asp fa = true → code_write_nread s1 ≠ 0) → f ≠ 0 →
  ∃ s2 bytes, in_file pl f bytes ∧ reloaded fa pa true (set_cpu_spl spl s1) s2 ∧
    fill_page exe (vm_fault_n exe 1 (Some asp)) asp pl fa f spl 0 s1 =
    Ret (Returns 0, set_cpu_spl SPL_HIGH (set_phys (store (phys s1) pa (page_data bytes)) s2)).
Proof.
  intros Hv1 Hr1 Ht Hcw Hf. destruct (Hfile fa pl f Hpl Hf) as (bytes & Hin). pose proof Hin as (v & off & Has_v & Hoff & Hex & Hlen).
  assert (Hv1' : vinv (set_cpu_spl spl s1)) by (apply (vinv_same s1); try done; [apply Hv1|destruct (v_counters _ Hv1); by split]).
  destruct (load_ok fa pa v (s32 (off + pl_index pl * PAGE_SIZE)) (f_amount f) bytes (set_cpu_spl spl s1)) as (s2 & Hrl & Hld); try done.
  - apply Hpl.
  - cbn. rewrite Ht. by eapply absent_unmapped.
  - by apply f_amount_range.
  - exists s2, bytes. split; [done|]. split; [done|]. unfold fill_page. rewrite Has_v, Hoff. cbn [fmap option_fmap option_map]. rewrite Hld. ostep. done.
Qed.

Lemma insert_same_page y (t : vms F) m : pages t = <[pl_page pl := y]> m → pages (set_page (pl_page pl) y t) = pages t.
Proof. intros H. unfold set_page. cbn. apply insert_id. by rewrite H, lookup_insert_eq. Qed.

Lemma seg_code : bool_decide (pl_seg pl = 0) = in_code asp fa.
Proof. destruct (pd_seg _ _ _ Hpl) as [[-> ->]|[[-> ->]|(-> & -> & _)]]; done. Qed.

Lemma fault_read_new :
  (∃ f' s', getframe (frames s) = Ret (f', 0) ∧ fault_read exe (vm_fault_n exe 1 (Some asp)) asp pl fa spl s = Ret (inl (Returns ENOMEM), s')) ∨
  (∃ pa s', fault_read exe (vm_fault_n exe 1 (Some asp)) asp pl fa spl s = Ret (inr (pa, 0), s') ∧ switched VM_FAULT_READ fa pl f pa s s').
Proof.
  unfold fault_read, page_at. rewrite Hx. ostep. rewrite Hval. rewrite (bool_decide_eq_true_2 (0 = 0)) by done. rewrite mark_valid_eq. ostep.
  rewrite (pd_fsize _ _ _ Hpl). cbn [known]. ostep. unfold getppages1. cbn [frames set_page set_pages].
  destruct (getframe_spec _ (v_frames s Hv)) as (f' & pa & Hg & Hf' & [[-> _]|(Hpa & Hal & Hnew & Hused)]); rewrite Hg; ostep.
  { left. exists f'. eexists. split; [done|]. by rewrite bool_decide_eq_true_2. }
  right. exists pa. rewrite bool_decide_eq_false_2 by lia. pose proof (v_counters s Hv) as [Hcl Hcs]. pose proof (v_code s Hv) as Hfc.
  set (y := Page fa (Some pa) 1 (pg_permission x)).
  assert (Hnewp : ∀ t, pages t = <[pl_page pl := y]> (pages s) → frames t = f' → tlb t = tlb s → tlb_lock t = tlb_lock s →
    next_victim t = next_victim s → first_code_read t = 0 → counters_ok t → vinv t ∧ resident t fa pa).
  { intros. by eapply (vinv_new_page s t (pl_page pl) fa pl f x f' pa). }
  case_bool_decide as Hf0.
  - erewrite set_paddr_eq; [|cbn; reflexivity]. ostep. cbn [pg_vaddr pg_valid pg_permission]. fold y.
    match goal with |- context [fill_page _ _ _ _ _ _ _ _ ?t] => set (s1 := t) end.
    assert (Hpg1 : pages s1 = <[pl_page pl := y]> (pages s)) by (unfold s1; cbn; by rewrite insert_insert_eq).
    destruct (Hnewp s1 Hpg1) as [Hv1 Hr1]; try done.
    destruct (fill_page_ok pa s1 Hv1 Hr1) as (s2 & bytes & Hin & [Hv2 [Hk1 Hk2 Hk3 Hk4 Hk5 Hk6 Hk7] Hm2 (c & Hc & Hst2)] & Hfill); try done.
    rewrite Hfill. ostep. rewrite (bool_decide_eq_true_2 (Returns 0 = Returns 0)) by done. cbn [negb].
    pose proof (v_counters _ Hv2) as [Hcl2 Hcs2].
    rewrite _vmstats_inc_ok by done || (split; done). ostep. rewrite _vmstats_inc_ok by (done || (split; cbn; [by rewrite bump_length|done])). ostep.
    rewrite note_code_eq by apply Hv2. cbn [pages set_cpu_spl set_phys] in Hk1. rewrite Hpg1 in Hk1.
    rewrite (set_paddr_eq y _ (pages s)) by (by case_bool_decide). ostep. fold y. eexists. split; [done|].
    assert (Hld : loads VM_FAULT_READ pl f s = true) by (unfold loads; by rewrite bool_decide_eq_false_2).
    match goal with |- switched _ _ _ _ _ _ ?t => assert (Hpt : pages t = pages s2) end.
    { rewrite (insert_same_page y _ (pages s)) by (by case_bool_decide). by case_bool_decide. }
    split; rewrite ?Hld; try done.
    + apply (vinv_same s2); try done; try (by case_bool_decide). split; case_bool_decide; cbn; by rewrite ?bump_length.
    + destruct Hr1 as (? & pl' & ? & z & Hz & ?). split; [done|]. exists pl'. split; [done|]. exists z. rewrite Hpt, Hk1. by rewrite <- Hpg1.
    + rewrite (bool_decide_eq_true_2 (VM_FAULT_READ = _)) by done. case_bool_decide; cbn; [done|]. apply Hv2.
    + rewrite (bool_decide_eq_false_2 (VM_FAULT_READ = _)), andb_false_r by done. case_bool_decide; cbn; by rewrite Hk5.
    + intros q Hq. rewrite Hpt, Hk1, lookup_insert_ne by done. done.
    + exists bytes. split; [done|]. by case_bool_decide.
    + by case_bool_decide.
    + rewrite decide_False by done. exists (stats_counts s2). split; [right; exists c; by rewrite Hst2|by case_bool_decide].
    + by case_bool_decide.
  - assert (f = 0) as -> by lia.
    rewrite note_code_eq by done. match goal with |- context [_vmstats_inc _ ?t] => set (s1 := t) end.
    rewrite _vmstats_inc_ok by (done || (unfold s1; split; by case_bool_decide)). ostep.
    erewrite set_paddr_eq; [|unfold s1; case_bool_decide; reflexivity]. ostep. cbn [pg_vaddr pg_valid pg_permission]. fold y. eexists. split; [done|].
    match goal with |- switched _ _ _ _ _ _ ?t => assert (Hpt : pages t = <[pl_page pl := y]> (pages s)) end.
    { unfold s1. case_bool_decide; cbn; by rewrite insert_insert_eq. }
    match goal with |- switched _ _ _ _ _ _ ?t => destruct (Hnewp (set_first_code_read 0 t) Hpt) as [Hv1 Hr1] end; try (unfold s1; by case_bool_decide).
    { split; unfold s1; case_bool_decide; cbn; by rewrite ?bump_length. }
    match goal with |- switched _ _ _ _ _ _ ?t => assert (Hq : ∀ q, q ≠ pl_page pl → pages t !! q = pages s !! q) end.
    { intros q Hq. by rewrite Hpt, lookup_insert_ne. }
    split; try done; unfold s1; by case_bool_decide.
Qed.

Lemma fault_write_new :
  (∃ f' s', getframe (frames s) = Ret (f', 0) ∧ fault_write exe (vm_fault_n exe 1 (Some asp)) asp pl fa spl s = Ret (inl (Returns ENOMEM), s')) ∨
  (∃ pa s', fault_write exe (vm_fault_n exe 1 (Some asp)) asp pl fa spl s = Ret (inr (pa, if loads VM_FAULT_WRITE pl f s then 0 else 1), s') ∧
     switched VM_FAULT_WRITE fa pl f pa s s').
Proof.
  unfold fault_write, page_at. rewrite Hx. ostep. rewrite Hval. rewrite (bool_decide_eq_true_2 (0 = 0)) by done. rewrite mark_valid_eq. ostep.
  rewrite (pd_fsize _ _ _ Hpl). cbn [known]. ostep. unfold getppages1. pose proof (v_counters s Hv) as [Hcl Hcs]. pose proof (v_code s Hv) as Hfc.
  destruct (getframe_spec _ (v_frames s Hv)) as (f' & pa & Hg & Hf' & Hpa).
  set (y := Page fa (Some pa) 1 (pg_permission x)).
  assert (Hnewp : pa ≠ 0 → ∀ t, pages t = <[pl_page pl := y]> (pages s) → frames t = f' → tlb t = tlb s → tlb_lock t = tlb_lock s →
    next_victim t = next_victim s → first_code_read t = 0 → counters_ok t → vinv t ∧ resident t fa pa).
  { intros. destruct Hpa as [[? _]|(? & ? & ? & ?)]; [done|]. by eapply (vinv_new_page s t (pl_page pl) fa pl f x f' pa). }
  assert (Hnew : pa ≠ 0 → ¬ fr_used (frames s) pa) by naive_solver. clear Hpa.
  case_bool_decide as Hf0.
  - unfold loads. rewrite (bool_decide_eq_false_2 (f = 0)), (bool_decide_eq_false_2 (VM_FAULT_WRITE = VM_FAULT_READ)) by done. cbn [orb andb negb].
    cbn [second_write set_page set_pages].
    destruct (bool_decide (second_write s = 0) && bool_decide (pl_seg pl = 1)) eqn:Hfirst; cbn [frames set_first_read set_page set_pages]; rewrite Hg; ostep.
    + destruct (decide (pa = 0)) as [Hz|Hz]; [rewrite (bool_decide_eq_true_2 (pa = 0)) by done; left; exists f'; eexists; split; [by rewrite Hz|done]
        |rewrite (bool_decide_eq_false_2 (pa = 0)) by done; right]. exists pa.
      erewrite set_paddr_eq; [|cbn; reflexivity]. ostep. cbn [pg_vaddr pg_valid pg_permission]. fold y.
      match goal with |- context [fill_page _ _ _ _ _ _ _ _ ?t] => set (s1 := t) end. change (first_read s1) with 0.
      assert (Hpg1 : pages s1 = <[pl_page pl := y]> (pages s)) by (unfold s1; cbn; by rewrite insert_insert_eq).
      destruct (Hnewp Hz s1 Hpg1) as [Hv1 Hr1]; try done.
      assert (Hnc : in_code asp fa = false) by (rewrite <- seg_code; cbool; by rewrite bool_decide_eq_false_2 by lia).
      destruct (fill_page_ok pa s1 Hv1 Hr1) as (s2 & bytes & Hin & [Hv2 [Hk1 Hk2 Hk3 Hk4 Hk5 Hk6 Hk7] Hm2 (c & Hc & Hst2)] & Hfill); try done; [congruence|].
      rewrite Hfill. ostep. rewrite (bool_decide_eq_true_2 (Returns 0 = Returns 0)) by done. cbn [negb].
      pose proof (v_counters _ Hv2) as [Hcl2 Hcs2].
      rewrite _vmstats_inc_ok by done || (split; done). ostep. rewrite _vmstats_inc_ok by (done || (split; cbn; [by rewrite bump_length|done])). ostep.
      cbn [pages set_cpu_spl set_phys] in Hk1. rewrite Hpg1 in Hk1. rewrite (set_paddr_eq y _ (pages s)) by done. ostep. fold y. eexists. split; [done|].
      assert (Hld : loads VM_FAULT_WRITE pl f s = true) by (unfold loads; by rewrite Hfirst, (bool_decide_eq_false_2 (f = 0)), orb_true_r).
      match goal with |- switched _ _ _ _ _ _ ?t => assert (Hpt : pages t = pages s2) by by rewrite (insert_same_page y _ (pages s)) end.
      split; rewrite ?Hld; try done.
      * apply (vinv_same s2); try done. split; cbn; by rewrite ?bump_length.
      * destruct Hr1 as (? & pl' & ? & z & Hz' & ?). split; [done|]. exists pl'. split; [done|]. exists z. rewrite Hpt, Hk1. by rewrite <- Hpg1.
      * auto.
      * apply Hv2.
      * intros q Hq. rewrite Hpt, Hk1, lookup_insert_ne by done. done.
      * exists bytes. done.
      * rewrite decide_False by done. exists (stats_counts s2). split; [right; exists c; by rewrite Hst2|done].
    + destruct (decide (pa = 0)) as [Hz|Hz]; [rewrite (bool_decide_eq_true_2 (pa = 0)) by done; left; exists f'; eexists; split; [by rewrite Hz|done]
        |rewrite (bool_decide_eq_false_2 (pa = 0)) by done; right]. exists pa.
      erewrite set_paddr_eq; [|cbn; reflexivity]. ostep. cbn [pg_vaddr pg_valid pg_permission]. fold y.
      match goal with |- context [fill_page _ _ _ _ _ _ _ _ ?t] => set (s1 := t) end. change (first_read s1) with 1.
      unfold fill_page, load_each_segment. rewrite (bool_decide_eq_true_2 (1 ≠ 0)) by done. ostep.
      rewrite (bool_decide_eq_true_2 (Returns 0 = Returns 0)) by done. cbn [negb].
      rewrite _vmstats_inc_ok by done || (split; done). ostep. rewrite _vmstats_inc_ok by (done || (split; cbn; [by rewrite bump_length|done])). ostep.
      erewrite set_paddr_eq; [|cbn; reflexivity]. ostep. cbn [pg_vaddr pg_valid pg_permission]. fold y. eexists. split; [done|].
      assert (Hld : loads VM_FAULT_WRITE pl f s = false) by (unfold loads; by rewrite Hfirst, (bool_decide_eq_false_2 (f = 0))).
      match goal with |- switched _ _ _ _ _ _ ?t => assert (Hpt : pages t = <[pl_page pl := y]> (pages s)) by (cbn; by rewrite !insert_insert_eq);
        destruct (Hnewp Hz (set_first_code_read 0 t) Hpt) as [Hv1 Hr1] end; try done.
      { split; cbn; by rewrite ?bump_length. }
      split; rewrite ?Hld; try done; [by auto|intros q Hq; by rewrite Hpt, lookup_insert_ne|].
      rewrite decide_False by done. exists (stats_counts s). auto.
  - assert (f = 0) as -> by lia. cbn [frames set_page set_pages]. rewrite Hg. ostep.
    destruct (decide (pa = 0)) as [Hz|Hz]; [rewrite (bool_decide_eq_true_2 (pa = 0)) by done; left; exists f'; eexists; split; [by rewrite Hz|done]
        |rewrite (bool_decide_eq_false_2 (pa = 0)) by done; right]. exists pa.
    rewrite _vmstats_inc_ok by done || (split; done). ostep.
    erewrite set_paddr_eq; [|cbn; reflexivity]. ostep. cbn [pg_vaddr pg_valid pg_permission]. fold y. eexists. split; [done|].
    match goal with |- switched _ _ _ _ _ _ ?t => assert (Hpt : pages t = <[pl_page pl := y]> (pages s)) by (cbn; by rewrite !insert_insert_eq);
      destruct (Hnewp Hz (set_first_code_read 0 t) Hpt) as [Hv1 Hr1] end; try done.
    { split; cbn; by rewrite ?bump_length. }
    split; try done; [by auto|]. intros q Hq. by rewrite Hpt, lookup_insert_ne.
Qed.
End new_page.

(** A page has been brought into memory by a fault of type [t]. *)
Record paged_in (t fa : Z) (pl : place) (f pa : Z) s s' : Prop := {
  pi_inv : vinv s';
  pi_resident : resident s' fa pa;
  pi_new : ¬ fr_used (frames s) pa;
  pi_second : second_write s' = if loads VM_FAULT_WRITE pl f s && bool_decide (t = VM_FAULT_WRITE) then 1 else second_write s;
  pi_pages q : q ≠ pl_page pl → pages s' !! q = pages s !! q;
  pi_data : if loads t pl f s then ∃ bytes, in_file pl f bytes ∧ phys s' = store (phys s) pa (page_data bytes) else phys s' = phys s;
  pi_tlb : (∃ d, mapped_to (tlb s') fa pa d ∧ (in_code asp fa = false → d = true) ∧ (t = VM_FAULT_READ → d = negb (in_code asp fa))) ∨
    (f = 0 ∧ t = VM_FAULT_READ ∧ pl_seg pl = 1);
  pi_counts : counts (stats_counts s) (stats_counts s');
  pi_spl : cpu_spl s' = cpu_spl s
}.

Lemma vinv_opened va s : vinv s → vinv (opened va s).
Proof. intros Hv. apply (vinv_same s); try done; [apply Hv|]. destruct (v_counters s Hv). by split. Qed.

Lemma finish_fault t va s pl f pa wr u : placed (Z.land va PAGE_FRAME) pl f → t = VM_FAULT_READ ∨ t = VM_FAULT_WRITE →
  Z.land va PAGE_FRAME ∉ (tlb s).*1 → switched t (Z.land va PAGE_FRAME) pl f pa (opened va s) u →
  wr = (if bool_decide (t = VM_FAULT_READ) || loads t pl f s then 0 else 1) →
  ∃ s', update_tlb asp pl (Z.land va PAGE_FRAME) pa wr (set_cpu_spl (cpu_spl s) u) = Ret (Returns 0, s') ∧
    paged_in t (Z.land va PAGE_FRAME) pl f pa s s'.
Proof.
  intros Hpl Ht Hfa Hsw Hwr. set (fa := Z.land va PAGE_FRAME) in *. destruct Hsw as [Hrdy Hres Hnew Hcode Hnr Hsec Hpg Hdata Hmap Hcnt Hspl].
  change (loads t pl f (opened va s)) with (loads t pl f s) in *. change (loads VM_FAULT_WRITE pl f (opened va s)) with (loads VM_FAULT_WRITE pl f s) in *.
  cbn [phys stats_counts frames second_write code_write_nread tlb pages opened set_cpu_spl set_first_read set_first_v] in *.
  set (b := set_first_code_read 0 u) in *. set (t1 := set_cpu_spl (cpu_spl s) u).
  assert (Hco : counters_ok t1) by (destruct (v_counters b Hrdy); by split).
  assert (Hresb : resident b fa pa) by done. destruct (resident_frame b fa pa Hrdy Hresb) as [_ Hpa].
  assert (Hfin : ∀ s', updated (resident b) asp t1 s' →
    ((∃ d, mapped_to (tlb s') fa pa d ∧ (in_code asp fa = false → d = true) ∧ (t = VM_FAULT_READ → d = negb (in_code asp fa))) ∨
     (f = 0 ∧ t = VM_FAULT_READ ∧ pl_seg pl = 1)) → paged_in t fa pl f pa s s').
  { intros s' Hup Htlb. assert (Hv' : vinv s') by by eapply (vinv_updated b t1). destruct Hup as [[Hk1 Hk2 Hk3 Hk4 Hk5 Hk6 Hk7] ? ? ? ? ? (c & Hc & Hst)].
    split; try done; rewrite ?Hk1, ?Hk4, ?Hk5, ?Hk7; try done.
    - destruct Hres as (? & pl' & ? & z & Hz & ?). split; [done|]. exists pl'. split; [done|]. exists z. by rewrite Hk1.
    - exists c. split; [done|]. rewrite Hst. cbn. case_decide as Hf0; [right; left; by rewrite Hcnt|].
      destruct Hcnt as (l1 & ? & ->). right. right. by exists l1. }
  assert (Hargs : tlb_ok (resident b) (tlb t1) ∧ tlb_lock t1 = false ∧ 0 ≤ next_victim t1 < NUM_TLB) by (split_and!; apply Hrdy).
  destruct Hargs as (Htlb & Hlk & Hvi). change (tlb t1) with (tlb u) in Htlb.
  assert (Henter : first_code_read u = 0 → wr = 1 ∨ pl_seg pl = 2 → loads t pl f s = false → (t = VM_FAULT_READ → in_code asp fa = false) →
    ∃ s', update_tlb asp pl fa pa wr t1 = Ret (Returns 0, s') ∧ paged_in t fa pl f pa s s').
  { intros H0 Hw Hld Hrd. rewrite Hld in Hmap. destruct (update_enter (resident b) asp t1 pl fa pa) with (wr_to := wr) as (s' & Hu & Hup & Hm);
      [done|done|done|done|apply Hpl|apply Hpl|done|done|done|done|change (tlb t1) with (tlb u); by rewrite Hmap|].
    exists s'. split; [done|]. apply Hfin; [done|]. left. eexists. split; [exact Hm|]. unfold writable.
    split; [by intros ->|]. intros Hrd'. by rewrite (Hrd Hrd'). }
  assert (Hskip : first_code_read u = 0 → wr = 0 → pl_seg pl ≠ 2 → ((mapped_to (tlb u) fa pa true ∧ in_code asp fa = false) ∨ (f = 0 ∧ t = VM_FAULT_READ ∧ pl_seg pl = 1)) →
    ∃ s', update_tlb asp pl fa pa wr t1 = Ret (Returns 0, s') ∧ paged_in t fa pl f pa s s').
  { intros H0 Hw Hs Hor. destruct (update_skip (resident b) asp t1 pl fa pa) with (wr_to := wr) as (s' & Hu & Hup & Heq); [done|done|done|done|done|lia|done|].
    exists s'. split; [done|]. apply Hfin; [done|]. destruct Hor as [[Hm Hc]|Hor]; [|by right]. left. exists true. rewrite Heq. by rewrite Hc. }
  pose proof (seg_code fa pl f Hpl) as Hsc.
  destruct Ht as [-> | ->].
  - rewrite (bool_decide_eq_true_2 (VM_FAULT_READ = _)) in Hwr, Hcode by done. cbn [orb andb] in Hwr, Hcode.
    assert (Hld : loads VM_FAULT_READ pl f s = negb (bool_decide (f = 0))) by (unfold loads; by rewrite andb_true_r).
    destruct (pd_seg _ _ _ Hpl) as [[Hs Hc]|[[Hs Hc]|(Hs & Hc & Hf0)]]; rewrite Hs in Hcode; cbn in Hcode.
    + destruct (update_code (resident b) asp t1 pl fa pa) with (wr_to := wr) as (s' & Hu & Hup & Hm);
        [done|done|done|done|apply Hpl|apply Hpl|done|done|done|done| |].
      { change (tlb t1) with (tlb u). destruct (loads VM_FAULT_READ pl f s); [right; by exists true|left; by rewrite Hmap]. }
      exists s'. split; [done|]. apply Hfin; [done|]. left. exists false. by rewrite Hc.
    + apply Hskip; [done..|lia|]. destruct (decide (f = 0)) as [Hf0|Hf0]; [by right|left]. split; [|done].
      rewrite bool_decide_eq_false_2 in Hld by done. by rewrite Hld in Hmap.
    + apply Henter; [done|by right| |done]. rewrite Hld. by rewrite bool_decide_eq_true_2.
  - rewrite (bool_decide_eq_false_2 (VM_FAULT_WRITE = _)) in Hwr, Hcode by done. cbn [orb andb] in Hwr, Hcode.
    destruct (loads VM_FAULT_WRITE pl f s) eqn:Hld; [|by apply Henter; [|left|..]].
    assert (pl_seg pl = 1) as Hs.
    { unfold loads in Hld. rewrite (bool_decide_eq_false_2 (VM_FAULT_WRITE = _)) in Hld by done. cbool. cbn [orb] in *. by cbool. }
    apply Hskip; [done..|lia|]. left. split; [done|]. rewrite <- Hsc. by rewrite bool_decide_eq_false_2 by lia.
Qed.

Lemma fault_new t va s pl f x : vinv s → placed (Z.land va PAGE_FRAME) pl f → t = VM_FAULT_READ ∨ t = VM_FAULT_WRITE →
  pages s !! pl_page pl = Some x → pg_valid x = 0 → file_ok →
  (∃ f' s', getframe (frames s) = Ret (f', 0) ∧ vm_fault exe (Some asp) t va s = Ret (Returns ENOMEM, s')) ∨
  (∃ pa s', vm_fault exe (Some asp) t va s = Ret (Returns 0, s') ∧ paged_in t (Z.land va PAGE_FRAME) pl f pa s s').
Proof.
  intros Hv Hpl Ht Hx Hval Hfile. unfold vm_fault. rewrite vm_fault_S, (body_placed _ _ _ _ _ _ Hpl).
  pose proof (absent_unmapped s _ pl f x Hv Hpl Hx Hval) as Hfa. pose proof (vinv_opened va s Hv) as Hvo.
  destruct Ht as [-> | ->]; [rewrite (bool_decide_eq_false_2 (VM_FAULT_READ = VM_FAULT_READONLY)), (bool_decide_eq_true_2 (VM_FAULT_READ = _)) by done
    |rewrite (bool_decide_eq_false_2 (VM_FAULT_WRITE = VM_FAULT_READONLY)), (bool_decide_eq_false_2 (VM_FAULT_WRITE = VM_FAULT_READ)), (bool_decide_eq_true_2 (VM_FAULT_WRITE = _)) by done].
  - destruct (fault_read_new (opened va s) (Z.land va PAGE_FRAME) pl f x (cpu_spl s)) as [(f' & s' & Hg & ->)|(pa & s' & -> & Hsw)]; [done..| |]; ostep.
    + left. by exists f', s'.
    + right. destruct (finish_fault VM_FAULT_READ va s pl f pa 0 s') as (s2 & -> & Hpi); [done|by left|done..|]. by exists pa, s2.
  - destruct (fault_write_new (opened va s) (Z.land va PAGE_FRAME) pl f x (cpu_spl s)) as [(f' & s' & Hg & ->)|(pa & s' & -> & Hsw)]; [done..| |]; ostep.
    + left. by exists f', s'.
    + right. destruct (finish_fault VM_FAULT_WRITE va s pl f pa (if loads VM_FAULT_WRITE pl f (opened va s) then 0 else 1) s') as (s2 & -> & Hpi);
        [done|by right|done..|]. by exists pa, s2.
Qed.
End space.
End faults.
