(* ===== verification/LoadElf.v ===== *)
(** * Loading programs: kern/userprog/loadelf.c

    The headers are read from the executable into kernel structures; the
    segments they describe become regions of the address space, whose pages
    vm_fault loads later. [exe v off n] is what VOP_READ of [n] bytes at [off]
    gives. *)

From S2P Require Import Prelude CArray KHeap KHeapSpec Coremap Uio AddrSpace.

Definition EV_CURRENT : Z := 1.
Definition ET_EXEC : Z := 2.
Definition EM_MACHINE : Z := 8.
Definition PT_NULL : Z := 0.
Definition PT_LOAD : Z := 1.
Definition PT_PHDR : Z := 6.
Definition PT_MIPS_REGINFO : Z := 0x70000000.
Definition PF_R : Z := 4.
Definition PF_W : Z := 2.
Definition PF_X : Z := 1.

Record Elf_Ehdr := Ehdr {
  e_ident : list Z; e_type : Z; e_machine : Z; e_version : Z; e_entry : Z; e_phoff : Z; e_phentsize : Z; e_phnum : Z
}.
Definition sizeof_Ehdr : Z := 52.

Record Elf_Phdr := Phdr { p_type : Z; p_offset : Z; p_vaddr : Z; p_filesz : Z; p_memsz : Z; p_flags : Z }.
Definition sizeof_Phdr : Z := 32.

(** The structures as the big-endian machine sees their bytes. *)
Definition byte_at (l : list Z) (i : nat) : Z := default 0 (l !! i).
Definition be16 (l : list Z) (i : nat) : Z := byte_at l i * 256 + byte_at l (i + 1).
Definition be32 (l : list Z) (i : nat) : Z := be16 l i * 65536 + be16 l (i + 2).

Definition as_Ehdr (l : list Z) : Elf_Ehdr :=
  Ehdr (take 16 l) (be16 l 16) (be16 l 18) (be32 l 20) (be32 l 24) (be32 l 28) (be16 l 42) (be16 l 44).

Definition as_Phdr (l : list Z) : Elf_Phdr :=
  Phdr (be32 l 0) (be32 l 4) (be32 l 8) (be32 l 16) (be32 l 20) (be32 l 24).

Definition header_ok (eh : Elf_Ehdr) : bool :=
  bool_decide (take 7 (e_ident eh) = [0x7f; 69; 76; 70; 1; 2; EV_CURRENT]) &&
  bool_decide (e_version eh = EV_CURRENT) && bool_decide (e_type eh = ET_EXEC) && bool_decide (e_machine eh = EM_MACHINE).

Section load.
Context {F : Type} `{!Frames F} (nomem : nat → bool) (km : Z → bool) (exe : Z → Z → Z → Z * list Z).
Implicit Types s : vms F.

(** VOP_READ of a structure into the kernel. *)
Definition read_struct (v offset size : Z) : result (list Z) :=
  let '(e, bytes) := exe v offset size in
  if bool_decide (e ≠ 0) then inl e else if bool_decide (size - len bytes ≠ 0) then inl ENOEXEC else inr bytes.

(** The program header [i]: an error, a header to skip, or a segment. *)
Definition read_phdr (v : Z) (eh : Elf_Ehdr) (i : Z) : result (option Elf_Phdr) :=
  match read_struct v (s32 (e_phoff eh + i * e_phentsize eh)) sizeof_Phdr with
  | inl e => inl e
  | inr bytes =>
      let ph := as_Phdr bytes in
      if bool_decide (p_type ph = PT_NULL) || bool_decide (p_type ph = PT_PHDR) || bool_decide (p_type ph = PT_MIPS_REGINFO) then inr None
      else if bool_decide (p_type ph = PT_LOAD) then inr (Some ph)
      else inl ENOEXEC
  end.

Definition define_turn (v : Z) (eh : Elf_Ehdr) (i : Z) (st : addrspace * vms F)
    : outcome (addrspace * vms F + Z * addrspace * vms F) :=
  let '(asp, s) := st in
  match read_phdr v eh i with
  | inl e => Ret (inr (e, asp, s))
  | inr None => Ret (inl (asp, s))
  | inr (Some ph) =>
      '(e, asp, s) ← as_define_region nomem km asp (p_vaddr ph) (p_memsz ph) (p_filesz ph)
                       (Z.land (p_flags ph) PF_R) (Z.land (p_flags ph) PF_W) (Z.land (p_flags ph) PF_X) s;
      if bool_decide (e ≠ 0) then Ret (inr (e, asp, s)) else Ret (inl (asp, s))
  end.

Definition set_file (off filesz : Z) (g : segment) : segment :=
  Segment (as_vbase g) (as_npages g) (Some filesz) (Some off) (as_flag g) (useg g).

(** The second pass notes the place in the file: that of header 1 for the first
    region and that of header 2 for the second. *)
Definition place_turn (v : Z) (eh : Elf_Ehdr) (i : Z) (asp : addrspace) : outcome (addrspace + Z * addrspace) :=
  match read_phdr v eh i with
  | inl e => Ret (inr (e, asp))
  | inr None => Ret (inl asp)
  | inr (Some ph) =>
      Ret (inl (if bool_decide (i = 1) then AddrSpace (set_file (s32 (p_offset ph)) (p_filesz ph) (seg1 asp)) (seg2 asp) (usegs asp) (as_v asp)
                else if bool_decide (i = 2) then AddrSpace (seg1 asp) (set_file (s32 (p_offset ph)) (p_filesz ph) (seg2 asp)) (usegs asp) (as_v asp)
                else asp))
  end.

(** [inr entrypoint] on success. *)
Definition load_elf (v : Z) (asp : addrspace) s : outcome (result Z * addrspace * vms F) :=
  match read_struct v 0 sizeof_Ehdr with
  | inl e => Ret (inl e, asp, s)
  | inr bytes =>
      let eh := as_Ehdr bytes in
      if negb (header_ok eh) then Ret (inl ENOEXEC, asp, s)
      else
        r ← for_loop (Z.to_nat (e_phnum eh)) 0 (define_turn v eh) (asp, s);
        match r with
        | inr (e, asp, s) => Ret (inl e, asp, s)
        | inl (asp, s) =>
            let asp := AddrSpace (seg1 asp) (seg2 asp) (usegs asp) (Some v) in
            r ← for_loop (Z.to_nat (e_phnum eh)) 0 (place_turn v eh) asp;
            match r with
            | inr (e, asp) => Ret (inl e, asp, s)
            | inl asp => Ret (inr (e_entry eh), asp, s)
            end
        end
  end.
End load.
