(* ===== verification/VmLoad.v ===== *)
(** * Loading a program: load_elf and as_define_stack on a new address space

    For every executable: the errors in the order in which load_elf meets them,
    and on success the segments that the program headers ask for, the file
    positions that load_elf notes for them, and the stack. *)

From S2P Require Import Prelude CArray KHeap KHeapSpec Coremap Uio AddrSpace VmSpec LoadElf.

(** ** Setting up an address space *)

Section setup.
Context {F : Type} `{!Frames F} (nomem : nat → bool) (km : Z → bool) (exe : Z → Z → Z → Z * list Z).
Context (Hmem : ∀ n, nomem n = false) (Hkm : ∀ n, km n = true).
Implicit Types s : vms F.

(** New pages: everything but the page structures is unchanged. *)
Record grown s s' : Prop := {
  gr_old p : (p < npage s)%nat → pages s' !! p = pages s !! p;
  gr_npage : (npage s ≤ npage s')%nat;
  gr_rest : set_pages ∅ (Vms ∅ 0 (tlb s') (next_victim s') (tlb_lock s') (frames s') (phys s') (first_read s') (second_write s')
    (first_v s') (first_code_read s') (code_write_nread s') (stats_counts s') (stats_lock s') (cpu_spl s')) =
    set_pages ∅ (Vms ∅ 0 (tlb s) (next_victim s) (tlb_lock s) (frames s) (phys s) (first_read s) (second_write s)
    (first_v s) (first_code_read s) (code_write_nread s) (stats_counts s) (stats_lock s) (cpu_spl s))
}.

Lemma grown_fields s s' : grown s s' → tlb s' = tlb s ∧ next_victim s' = next_victim s ∧ tlb_lock s' = tlb_lock s ∧ frames s' = frames s ∧
  phys s' = phys s ∧ second_write s' = second_write s ∧ first_code_read s' = first_code_read s ∧ stats_counts s' = stats_counts s ∧
  stats_lock s' = stats_lock s.
Proof. intros [_ _ H]. by injection H. Qed.

Lemma grown_refl s : grown s s.
Proof. by split. Qed.

Lemma grown_trans s1 s2 s3 : grown s1 s2 → grown s2 s3 → grown s1 s3.
Proof.
  intros [A1 A2 A3] [B1 B2 B3]. split; [|lia|congruence]. intros p Hp. rewrite B1 by lia. by apply A1.
Qed.

Lemma add_pages_loop mk n : ∀ i a l s, arepr a l → len l + Z.of_nat n ≤ 2 ^ 29 →
  ∃ a' s', for_each n i (add_page nomem km mk) (a, s) = Ret (a', s') ∧ arepr a' (l ++ seq (npage s) n) ∧ grown s s' ∧
    npage s' = (npage s + n)%nat ∧ ∀ k, (k < n)%nat → pages s' !! (npage s + k)%nat = Some (mk (i + Z.of_nat k)).
Proof.
  induction n as [|n IH]; intros i a l s Ha Hlen.
  { exists a, s. cbn. rewrite app_nil_r. split; [done|]. split; [done|]. split; [apply grown_refl|]. split; [lia|lia]. }
  set (s1 := set_page (npage s) (mk i) (kmalloc_page nomem s).2).
  assert (∃ a1, add_page nomem km mk i (a, s) = Ret (a1, s1) ∧ arepr a1 (l ++ [npage s])) as (a1 & Hadd & Ha1).
  { unfold add_page, kmalloc_page. rewrite Hmem. cbn [known]. ostep.
    destruct (array_add_ok km a l (npage s) Ha) as [(a1 & -> & Ha1 & _)|(_ & _ & x & Hx)]; [lia| |by rewrite Hkm in Hx]. ostep. by exists a1. }
  cbn [for_each]. rewrite Hadd. ostep. destruct (IH (i + 1) a1 (l ++ [npage s]) s1 Ha1) as (a' & s' & -> & Ha' & Hg & Hn & Hp).
  { rewrite length_app. simpl. lia. }
  exists a', s'. split; [done|]. change (npage s1) with (S (npage s)) in *. cbn [seq]. rewrite <- app_assoc in Ha'. cbn [app] in Ha'.
  assert (Hg1 : grown s s1) by (split; [intros p Hlt; cbn; by rewrite lookup_insert_ne by lia|cbn; lia|done]).
  split; [done|]. split; [by eapply grown_trans|]. split; [lia|]. intros [|k] Hk.
  - rewrite Nat.add_0_r, Z.add_0_r. rewrite (gr_old _ _ Hg) by (cbn; lia). cbn. by rewrite lookup_insert_eq.
  - replace (npage s + S k)%nat with (S (npage s) + k)%nat by lia. rewrite Hp by lia. do 2 f_equal. lia.
Qed.

(** Pages that are not in memory. *)
Definition absent s (P : list nat) : Prop := ∀ p, p ∈ P → ∃ x, pages s !! p = Some x ∧ pg_valid x = 0.

Lemma absent_grown s s' P : absent s P → (∀ p, p ∈ P → (p < npage s)%nat) → grown s s' → absent s' P.
Proof. intros H Hlt Hg p Hp. destruct (H p Hp) as (x & ? & ?). exists x. by rewrite (gr_old _ _ Hg) by auto. Qed.

(** A segment after it has been defined, its pages being [seq n k]. *)
Record region (g : segment) (vaddr filesz : Z) (n k : nat) : Prop := {
  rg_pages : ∃ a, useg g = Some a ∧ arepr a (seq n k);
  rg_npages : as_npages g = Z.of_nat k;
  rg_base : as_vbase g = vaddr;
  rg_filesz : as_filesz g = Some filesz
}.

Lemma define_segment_ok g vaddr sz f_sz perm s : (∃ a, useg g = Some a ∧ arepr a []) → 0 ≤ sz ≤ 2 ^ 29 →
  ∃ g' s', define_segment nomem km g vaddr sz f_sz perm s = Ret (g', s') ∧ grown s s' ∧
    region g' vaddr f_sz (npage s) (Z.to_nat (sz / PAGE_SIZE)) ∧ as_off g' = as_off g ∧
    npage s' = (npage s + Z.to_nat (sz / PAGE_SIZE))%nat ∧ absent s' (seq (npage s) (Z.to_nat (sz / PAGE_SIZE))).
Proof.
  intros (a & Hu & Ha) Hsz. unfold define_segment. rewrite Hu. cbn [known]. ostep. rewrite s32_small by lia.
  destruct (array_preallocate_ok km a [] sz Ha Hsz) as [(a1 & -> & Ha1 & _)|(_ & x & Hx)]; [|by rewrite Hkm in Hx]. ostep.
  assert (0 ≤ sz / PAGE_SIZE ≤ 2 ^ 29) by (unfold PAGE_SIZE; Z.to_euclidean_division_equations; lia).
  destruct (add_pages_loop (λ i, Page (u32 (vaddr + i * PAGE_SIZE)) None 0 perm) (Z.to_nat (sz / PAGE_SIZE)) 0 a1 [] s Ha1)
    as (a' & s' & -> & Ha' & Hg & Hn & Hp); [simpl; lia|]. ostep.
  eexists _, s'. split; [done|]. split; [done|]. split; [split; cbn; [by exists a'|lia|done..]|]. split; [done|]. split; [done|].
  intros p Hin. apply elem_of_seq in Hin. replace p with (npage s + (p - npage s))%nat by lia. rewrite Hp by lia. by eexists.
Qed.

(** The first page and the number of pages of a region. *)
Definition region_base (vaddr : Z) : Z := vaddr - vaddr mod PAGE_SIZE.
Definition region_pages (vaddr memsz : Z) : nat := Z.to_nat ((vaddr mod PAGE_SIZE + memsz + PAGE_SIZE - 1) / PAGE_SIZE).

Lemma region_size vaddr sz : 0 ≤ vaddr → 0 ≤ sz → vaddr + sz ≤ 2 ^ 31 →
  let sz' := Z.land (u32 (u32 (u32 (sz + Z.land vaddr (u32 (Z.lnot PAGE_FRAME))) + PAGE_SIZE) - 1)) PAGE_FRAME in
  Z.to_nat (sz' / PAGE_SIZE) = region_pages vaddr sz ∧ 0 ≤ sz' ≤ sz + 8190.
Proof.
  intros Hv Hs Ht. change (u32 (Z.lnot PAGE_FRAME)) with 0xfff. rewrite page_low. cbv zeta. unfold region_pages, PAGE_SIZE.
  pose proof (Z.mod_pos_bound vaddr 4096 ltac:(lia)). 
  rewrite (u32_small (sz + _)) by lia. rewrite (u32_small (_ + 4096)) by lia. rewrite u32_small by lia. rewrite page_frame by lia. unfold PAGE_SIZE.
  replace (sz + vaddr mod 4096 + 4096 - 1) with (vaddr mod 4096 + sz + 4096 - 1) by lia. set (t := vaddr mod 4096 + sz + 4096 - 1) in *.
  assert (0 ≤ t ≤ sz + 8190) by lia. clearbody t. split; [f_equal|]; Z.to_euclidean_division_equations; lia.
Qed.

Lemma as_define_region_1 asp vaddr sz f_sz r w x s : as_vbase (seg1 asp) = 0 → (∃ a, useg (seg1 asp) = Some a ∧ arepr a []) →
  0 ≤ vaddr → 0 ≤ sz → sz ≤ 2 ^ 28 → vaddr + sz ≤ 2 ^ 31 →
  ∃ g' s', as_define_region nomem km asp vaddr sz f_sz r w x s = Ret (0, AddrSpace g' (seg2 asp) (usegs asp) (as_v asp), s') ∧ grown s s' ∧
    region g' (region_base vaddr) f_sz (npage s) (region_pages vaddr sz) ∧ as_off g' = as_off (seg1 asp) ∧
    npage s' = (npage s + region_pages vaddr sz)%nat ∧ absent s' (seq (npage s) (region_pages vaddr sz)).
Proof.
  intros Hb Ha Hv Hs Hs' Ht. destruct (region_size vaddr sz Hv Hs Ht) as [Hn Hr]. unfold as_define_region. rewrite bool_decide_eq_true_2 by done.
  cbv zeta in Hr. match type of Hr with _ ≤ ?z ≤ _ => assert (Hsz : 0 ≤ z ≤ 2 ^ 29) by lia end.
  destruct (define_segment_ok (seg1 asp) (Z.land vaddr PAGE_FRAME) _ f_sz (Z.lor (Z.lor r w) x) s Ha Hsz) as (g' & s' & -> & H1 & H2 & H3 & H4 & H5).
  ostep. rewrite Hn in *. rewrite page_frame in H2 by lia. by exists g', s'.
Qed.

Lemma as_define_region_2 asp vaddr sz f_sz r w x s : as_vbase (seg1 asp) ≠ 0 → as_vbase (seg2 asp) = 0 → (∃ a, useg (seg2 asp) = Some a ∧ arepr a []) →
  0 ≤ vaddr → 0 ≤ sz → sz ≤ 2 ^ 28 → vaddr + sz ≤ 2 ^ 31 →
  ∃ g' s', as_define_region nomem km asp vaddr sz f_sz r w x s = Ret (0, AddrSpace (seg1 asp) g' (usegs asp) (as_v asp), s') ∧ grown s s' ∧
    region g' (region_base vaddr) f_sz (npage s) (region_pages vaddr sz) ∧ as_off g' = as_off (seg2 asp) ∧
    npage s' = (npage s + region_pages vaddr sz)%nat ∧ absent s' (seq (npage s) (region_pages vaddr sz)).
Proof.
  intros Hb1 Hb Ha Hv Hs Hs' Ht. destruct (region_size vaddr sz Hv Hs Ht) as [Hn Hr]. unfold as_define_region.
  rewrite bool_decide_eq_false_2, bool_decide_eq_true_2 by done.
  cbv zeta in Hr. match type of Hr with _ ≤ ?z ≤ _ => assert (Hsz : 0 ≤ z ≤ 2 ^ 29) by lia end.
  destruct (define_segment_ok (seg2 asp) (Z.land vaddr PAGE_FRAME) _ f_sz (Z.lor (Z.lor r w) x) s Ha Hsz) as (g' & s' & -> & H1 & H2 & H3 & H4 & H5).
  ostep. rewrite Hn in *. rewrite page_frame in H2 by lia. by exists g', s'.
Qed.

Lemma as_define_stack_ok asp s : (∃ a, usegs asp = Some a ∧ arepr a []) →
  ∃ a s', as_define_stack nomem km asp s = Ret (USERSTACK, AddrSpace (seg1 asp) (seg2 asp) (Some a) (as_v asp), s') ∧ grown s s' ∧
    arepr a (seq (npage s) 12) ∧ npage s' = (npage s + 12)%nat ∧ absent s' (seq (npage s) 12).
Proof.
  intros (a & Hu & Ha). unfold as_define_stack. rewrite Hu. cbn [known]. ostep.
  destruct (array_preallocate_ok km a [] DUMBVM_STACKPAGES Ha) as [(a1 & -> & Ha1 & _)|(_ & x & Hx)]; [done| |by rewrite Hkm in Hx]. ostep.
  destruct (add_pages_loop (λ i, Page (u32 (USERSTACK - i * PAGE_SIZE)) None 0 7) (Z.to_nat DUMBVM_STACKPAGES) 0 a1 [] s Ha1)
    as (a' & s' & -> & Ha' & Hg & Hn & Hp); [done|]. ostep. exists a', s'. split; [done|]. split; [done|]. split; [done|]. split; [done|].
  intros p Hin. apply elem_of_seq in Hin. replace p with (npage s + (p - npage s))%nat by lia. rewrite Hp by (change (Z.to_nat DUMBVM_STACKPAGES) with 12%nat; lia). by eexists.
Qed.

(** ** Loading a program *)

Definition create_space : addrspace := AddrSpace (no_segment (array_create true)) (no_segment (array_create true)) (array_create true) None.

(** The machine before a program is loaded: no user page is in the TLB. *)
Record machine_ok s : Prop := {
  mo_counters : counters_ok s;
  mo_tlb : tlb_ok (λ _ _, False) (tlb s);
  mo_lock : tlb_lock s = false;
  mo_victim : 0 ≤ next_victim s < NUM_TLB;
  mo_code : first_code_read s = 0;
  mo_frames : fr_inv (frames s)
}.

(** What runprogram does with the address space. *)
Definition load_program (v : Z) s : outcome (result (Z * Z) * addrspace * vms F) :=
  '(r, asp, s) ← load_elf nomem km exe v create_space s;
  match r with
  | inl e => Ret (inl e, asp, s)
  | inr entry => '(sp, asp, s) ← as_define_stack nomem km asp s; Ret (inr (entry, sp), asp, s)
  end.

Lemma region_base_bounds vaddr memsz : PAGE_SIZE ≤ vaddr → 0 ≤ memsz → vaddr + memsz ≤ USERTOP →
  region_base vaddr ≠ 0 ∧ aligned (region_base vaddr) ∧ region_base vaddr + Z.of_nat (region_pages vaddr memsz) * PAGE_SIZE ≤ USERTOP.
Proof.
  intros H1 H2 H3. unfold aligned, region_base, region_pages, PAGE_SIZE, USERTOP, MIPS_KSEG0 in *. rewrite Z2Nat.id by (Z.to_euclidean_division_equations; lia).
  Z.to_euclidean_division_equations. lia.
Qed.

(** ** The headers *)

(** A segment that fits into user space, above the first page. *)
Definition sane (ph : Elf_Phdr) : Prop :=
  PAGE_SIZE ≤ p_vaddr ph ∧ 0 ≤ p_memsz ph ≤ 2 ^ 28 ∧ p_vaddr ph + p_memsz ph ≤ USERTOP ∧ 0 ≤ p_filesz ph ∧ 0 ≤ p_offset ph < 2 ^ 31.

Section headers.
Context (v : Z) (eh : Elf_Ehdr).

(** The segments that the [n] headers from [i] on add to [l]; an address space has room for two. *)
Fixpoint scan (n : nat) (i : Z) (l : list Elf_Phdr) : result (list Elf_Phdr) :=
  match n with
  | O => inr l
  | S n =>
      match read_phdr exe v eh i with
      | inl e => inl e
      | inr None => scan n (i + 1) l
      | inr (Some ph) => if bool_decide (length l = 2%nat) then inl EUNIMP else scan n (i + 1) (l ++ [ph])
      end
  end.

(** Header [i], if it is one of the [n] headers from [i0] on and describes a segment. *)
Definition header_among (i0 : Z) (n : nat) (i : Z) : option Elf_Phdr :=
  if bool_decide (i0 ≤ i < i0 + Z.of_nat n) then match read_phdr exe v eh i with inr o => o | inl _ => None end else None.

Lemma scan_reads n : ∀ i l L, scan n i l = inr L → ∀ j, i ≤ j < i + Z.of_nat n → ∃ o, read_phdr exe v eh j = inr o.
Proof.
  induction n as [|n IH]; intros i l L Hs j Hj; [lia|]. simpl in Hs.
  destruct (read_phdr exe v eh i) as [e|o] eqn:Hi; [done|]. destruct (decide (j = i)) as [->|Hne]; [by exists o|].
  destruct o; [case_bool_decide; [done|]|]; (eapply IH; [exact Hs|lia]).
Qed.

Definition pages_of (o : option Elf_Phdr) : nat := match o with Some ph => region_pages (p_vaddr ph) (p_memsz ph) | None => 0 end.

(** A segment of the address space in the first pass. *)
Definition defined (g : segment) (o : option Elf_Phdr) (n : nat) : Prop :=
  match o with
  | None => g = no_segment (array_create true)
  | Some ph => region g (region_base (p_vaddr ph)) (p_filesz ph) n (pages_of o) ∧ as_off g = None
  end.

(** After the headers of [l], starting from [s0]. *)
Record defining s0 (asp : addrspace) s (l : list Elf_Phdr) : Prop := {
  df_seg1 : defined (seg1 asp) (l !! 0%nat) (npage s0);
  df_seg2 : defined (seg2 asp) (l !! 1%nat) (npage s0 + pages_of (l !! 0%nat));
  df_stack : usegs asp = array_create true;
  df_len : (length l ≤ 2)%nat;
  df_grown : grown s0 s;
  df_npage : npage s = (npage s0 + pages_of (l !! 0%nat) + pages_of (l !! 1%nat))%nat;
  df_absent : absent s (seq (npage s0) (pages_of (l !! 0%nat) + pages_of (l !! 1%nat)));
  df_sane : Forall sane l
}.

Lemma defining_start s : defining s create_space s [].
Proof. split; simpl; try done; try lia. intros p Hp. by apply not_elem_of_nil in Hp. Qed.

Lemma absent_app s P Q : absent s P → absent s Q → absent s (P ++ Q).
Proof. intros HP HQ p [?|?]%elem_of_app; auto. Qed.

Lemma empty_array (g : segment) : g = no_segment (array_create true) → as_vbase g = 0 ∧ as_off g = None ∧ ∃ a : array nat, useg g = Some a ∧ arepr a [].
Proof. intros ->. split; [done|]. split; [done|]. eexists. split; [done|apply arepr_create]. Qed.

Lemma sane_base ph : sane ph → region_base (p_vaddr ph) ≠ 0.
Proof. intros (? & ? & ? & ?). destruct (region_base_bounds (p_vaddr ph) (p_memsz ph)) as (? & _); [lia..|done]. Qed.

(** One more header with a segment. *)
Lemma define_one s0 asp s l ph r w x : defining s0 asp s l → sane ph → (length l < 2)%nat →
  ∃ asp' s', as_define_region nomem km asp (p_vaddr ph) (p_memsz ph) (p_filesz ph) r w x s = Ret (0, asp', s') ∧ defining s0 asp' s' (l ++ [ph]).
Proof.
  intros [D1 D2 D3 D4 D5 D6 D7 D8] Hph Hl. pose proof Hph as (Hv & Hm & Ht & _). unfold PAGE_SIZE, USERTOP, MIPS_KSEG0 in Hv, Ht.
  destruct l as [|ph1 [|]]; simpl in *; [..|lia].
  - destruct (empty_array _ D1) as (Hb & Ho & Ha).
    destruct (as_define_region_1 asp (p_vaddr ph) (p_memsz ph) (p_filesz ph) r w x s) as (g' & s' & -> & Hg & Hr & Hof & Hn & Hab); [done|done|lia..|].
    replace (npage s) with (npage s0) in * by lia. eexists _, s'. split; [done|]. split; simpl; try done; try lia.
    + split; [done|congruence].
    + by eapply grown_trans.
    + by rewrite Nat.add_0_r.
    + by constructor.
  - destruct (empty_array _ D2) as (Hb & Ho & Ha). destruct D1 as [Hr1 Ho1]. apply Forall_cons in D8 as [D8 _].
    destruct (as_define_region_2 asp (p_vaddr ph) (p_memsz ph) (p_filesz ph) r w x s) as (g' & s' & -> & Hg & Hr & Hof & Hn & Hab);
      [rewrite (rg_base _ _ _ _ _ Hr1); by apply sane_base|done|done|lia..|].
    rewrite Nat.add_0_r in D6, D7. rewrite D6 in Hr, Hn, Hab. eexists _, s'. split; [done|]. split; simpl; try done; try lia.
    + split; [done|congruence].
    + by eapply grown_trans.
    + rewrite seq_app. apply absent_app; [|done]. eapply absent_grown; [done| |done]. intros p Hp%elem_of_seq. lia.
    + by rewrite !Forall_cons, Forall_nil.
Qed.

(** A third segment. *)
Lemma as_define_region_full s0 asp s l vaddr sz f_sz r w x : defining s0 asp s l → length l = 2%nat →
  as_define_region nomem km asp vaddr sz f_sz r w x s = Ret (EUNIMP, asp, s).
Proof.
  intros [D1 D2 _ _ _ _ _ D8] Hl. destruct l as [|ph1 [|ph2 []]]; try done. apply Forall_cons in D8 as [S1 [S2 _]%Forall_cons].
  destruct D1 as [H1 _], D2 as [H2 _]. unfold as_define_region.
  rewrite (rg_base _ _ _ _ _ H1), (rg_base _ _ _ _ _ H2), !bool_decide_eq_false_2 by (by apply sane_base). done.
Qed.

(** The first pass. *)
Lemma define_loop s0 n : ∀ i asp s l, defining s0 asp s l →
  (∀ j ph, i ≤ j < i + Z.of_nat n → read_phdr exe v eh j = inr (Some ph) → sane ph) →
  match scan n i l with
  | inl e => ∃ asp' s', for_loop n i (define_turn nomem km exe v eh) (asp, s) = Ret (inr (e, asp', s')) ∧ grown s0 s'
  | inr L => ∃ asp' s', for_loop n i (define_turn nomem km exe v eh) (asp, s) = Ret (inl (asp', s')) ∧ defining s0 asp' s' L
  end.
Proof.
  induction n as [|n IH]; intros i asp s l D Hsane; cbn [scan for_loop]; [by exists asp, s|].
  set (turn := define_turn nomem km exe v eh) in *. assert (Ht : turn i (asp, s) = define_turn nomem km exe v eh i (asp, s)) by done.
  rewrite Ht. unfold define_turn. destruct (read_phdr exe v eh i) as [e|[ph|]] eqn:Hi; ostep.
  - exists asp, s. split; [done|apply D].
  - case_bool_decide as Hl.
    + rewrite (as_define_region_full s0 asp s l) by done. ostep. exists asp, s. split; [done|apply D].
    + destruct (define_one s0 asp s l ph (Z.land (p_flags ph) PF_R) (Z.land (p_flags ph) PF_W) (Z.land (p_flags ph) PF_X) D) as (asp' & s' & -> & D').
      { eapply Hsane; [|done]. lia. }
      { pose proof (df_len _ _ _ _ D). lia. }
      ostep. rewrite (bool_decide_eq_false_2 (0 ≠ 0)) by lia. ostep. apply IH; [done|]. intros j ph' Hj. apply Hsane. lia.
  - apply IH; [done|]. intros j ph' Hj. apply Hsane. lia.
Qed.

(** The second pass notes the file positions of headers 1 and 2. *)
Definition with_file (o : option Elf_Phdr) (g : segment) : segment :=
  match o with Some ph => set_file (s32 (p_offset ph)) (p_filesz ph) g | None => g end.

Lemma header_among_S i n j o : read_phdr exe v eh i = inr o →
  header_among i (S n) j = if decide (j = i) then o else header_among (i + 1) n j.
Proof.
  intros Ho. unfold header_among. case_decide as Hj; [subst; rewrite bool_decide_eq_true_2 by lia; by rewrite Ho|].
  repeat case_bool_decide; done || lia.
Qed.

Lemma header_among_past i n j : j < i → header_among i n j = None.
Proof. intros H. unfold header_among. by rewrite bool_decide_eq_false_2 by lia. Qed.

Lemma place_loop n : ∀ i asp, (∀ j, i ≤ j < i + Z.of_nat n → ∃ o, read_phdr exe v eh j = inr o) →
  for_loop n i (place_turn exe v eh) asp = Ret (inl (AddrSpace (with_file (header_among i n 1) (seg1 asp))
    (with_file (header_among i n 2) (seg2 asp)) (usegs asp) (as_v asp))).
Proof.
  induction n as [|n IH]; intros i asp Hr; cbn [for_loop].
  { unfold header_among. rewrite !bool_decide_eq_false_2 by lia. by destruct asp. }
  destruct (Hr i) as [o Ho]; [lia|]. rewrite !(header_among_S i n _ o) by done.
  assert (IH' : ∀ asp, for_loop n (i + 1) (place_turn exe v eh) asp = Ret (inl (AddrSpace (with_file (header_among (i + 1) n 1) (seg1 asp))
    (with_file (header_among (i + 1) n 2) (seg2 asp)) (usegs asp) (as_v asp)))) by (intros; apply IH; intros; apply Hr; lia).
  set (turn := place_turn exe v eh) in *. change (turn i asp) with (place_turn exe v eh i asp). unfold place_turn. rewrite Ho.
  destruct o as [ph|]; ostep; rewrite IH'.
  - repeat case_bool_decide; repeat case_decide; try lia; subst; cbn [seg1 seg2 usegs as_v]; rewrite ?header_among_past by lia; done.
  - repeat case_decide; subst; rewrite ?header_among_past by lia; done.
Qed.

(** ** What has been loaded *)

(** A segment with the pages of header [o] from the page structure [n] on, to be filled from the
    file as header [place] says. *)
Record laid_out (g : segment) (o place : option Elf_Phdr) (n : nat) : Prop := {
  lo_pages : ∃ a, useg g = Some a ∧ arepr a (seq n (pages_of o));
  lo_npages : as_npages g = Z.of_nat (pages_of o);
  lo_base : as_vbase g = match o with Some ph => region_base (p_vaddr ph) | None => 0 end;
  lo_filesz : as_filesz g = p_filesz <$> (match place with Some ph => Some ph | None => o end);
  lo_off : as_off g = p_offset <$> place
}.

Lemma defined_laid_out g o place n : defined g o n → (∀ ph, place = Some ph → sane ph) → laid_out (with_file place g) o place n.
Proof.
  intros Hd Hp. assert (H : laid_out g o None n).
  { destruct o as [ph|]; [destruct Hd as [[] ?]; by split|]. simpl in Hd. subst g. split; try done. eexists. split; [done|apply arepr_create]. }
  destruct place as [ph|]; [|done]. destruct H as [H1 H2 H3 _ _]. destruct (Hp ph eq_refl) as (_ & _ & _ & _ & Ho).
  split; try done. simpl. by rewrite s32_small by lia.
Qed.

Lemma laid_out_seg_ok g ph n : laid_out g (Some ph) (Some ph) n → sane ph → seg_ok g (seq n (pages_of (Some ph))).
Proof.
  intros [H1 H2 H3 H4 H5] (Hv & Hm & Ht & Hf & Ho). destruct (region_base_bounds (p_vaddr ph) (p_memsz ph)) as (_ & ? & ?); [lia..|].
  split; [done|by rewrite length_seq|by rewrite H3|by rewrite H3, H2|]. exists (p_filesz ph), (p_offset ph). by rewrite H4, H5.
Qed.
End headers.

(** The pages of the three parts of an address space, [n] being the first. *)
Definition code_pages (n : nat) (o1 : option Elf_Phdr) : list nat := seq n (pages_of o1).
Definition data_pages (n : nat) (o1 o2 : option Elf_Phdr) : list nat := seq (n + pages_of o1) (pages_of o2).
Definition stack_pages (n : nat) (o1 o2 : option Elf_Phdr) : list nat := seq (n + pages_of o1 + pages_of o2) 12.

(** The address space of a program with the segments [L], whose headers 1 and 2 are [h1] and [h2]. *)
Record program_space (v : Z) s (L : list Elf_Phdr) (h1 h2 : option Elf_Phdr) (asp : addrspace) s' : Prop := {
  ps_code : laid_out (seg1 asp) (L !! 0%nat) h1 (npage s);
  ps_data : laid_out (seg2 asp) (L !! 1%nat) h2 (npage s + pages_of (L !! 0%nat));
  ps_stack : ∃ a, usegs asp = Some a ∧ arepr a (stack_pages (npage s) (L !! 0%nat) (L !! 1%nat));
  ps_file : as_v asp = Some v;
  ps_grown : grown s s';
  ps_absent : absent s' (code_pages (npage s) (L !! 0%nat) ++ data_pages (npage s) (L !! 0%nat) (L !! 1%nat) ++
    stack_pages (npage s) (L !! 0%nat) (L !! 1%nat))
}.

(** A program whose segments are those of headers 1 and 2 can run. *)
Lemma program_space_vinv v s ph1 ph2 asp s' : sane ph1 → sane ph2 → program_space v s [ph1; ph2] (Some ph1) (Some ph2) asp s' → machine_ok s →
  as_ok asp (code_pages (npage s) (Some ph1)) (data_pages (npage s) (Some ph1) (Some ph2)) (stack_pages (npage s) (Some ph1) (Some ph2)) ∧
  vinv asp (code_pages (npage s) (Some ph1)) (data_pages (npage s) (Some ph1) (Some ph2)) (stack_pages (npage s) (Some ph1) (Some ph2)) s'.
Proof.
  intros S1 S2 [H1 H2 H3 H4 H5 Habs] Hmo. simpl lookup in *.
  destruct (grown_fields _ _ H5) as (E1 & E2 & E3 & E4 & E5 & E6 & E7 & E8 & E9). split.
  - split; [by eapply laid_out_seg_ok|by eapply laid_out_seg_ok|done|done| |by exists v].
    unfold code_pages, data_pages, stack_pages. rewrite <- !seq_app. apply NoDup_seq.
  - split; rewrite ?E1, ?E2, ?E3, ?E4, ?E7; try apply Hmo.
    + destruct (mo_counters s Hmo). split; by rewrite ?E8, ?E9.
    + eapply tlb_ok_mono; [|apply Hmo]. done.
    + intros fa pa d _ Hpa Hin. destruct (to_entry _ _ (mo_tlb s Hmo) _ _ Hin) as (_ & [[_ Hval]|(_ & ? & ? & [] & _)]). by apply tlbe_valid in Hval.
    + intros p Hp. destruct (Habs p Hp) as (x & ? & ?). exists x. auto.
    + intros p q pa Hp _ (x & Hx & Hxv & _). destruct (Habs p Hp) as (y & ? & ?). congruence.
Qed.

(** The whole of load_program, for every file. *)
Lemma load_program_cases v s :
  match read_struct exe v 0 sizeof_Ehdr with
  | inl e => load_program v s = Ret (inl e, create_space, s)
  | inr bytes =>
      let eh := as_Ehdr bytes in
      let n := Z.to_nat (e_phnum eh) in
      if header_ok eh then
        (∀ i ph, 0 ≤ i < Z.of_nat n → read_phdr exe v eh i = inr (Some ph) → sane ph) →
        match scan v eh n 0 [] with
        | inl e => ∃ asp s', load_program v s = Ret (inl e, asp, s') ∧ grown s s'
        | inr L => ∃ asp s', load_program v s = Ret (inr (e_entry eh, USERSTACK), asp, s') ∧
            program_space v s L (header_among v eh 0 n 1) (header_among v eh 0 n 2) asp s' ∧ Forall sane L
        end
      else load_program v s = Ret (inl ENOEXEC, create_space, s)
  end.
Proof.
  unfold load_program, load_elf. destruct (read_struct exe v 0 sizeof_Ehdr) as [e|bytes]; [done|]. cbv zeta. set (eh := as_Ehdr bytes).
  destruct (header_ok eh); cbn [negb]; [|done]. set (n := Z.to_nat (e_phnum eh)). intros Hsane.
  pose proof (define_loop v eh s n 0 create_space s [] (defining_start s) Hsane) as Hd. pose proof (scan_reads v eh n 0 []) as Hreads.
  destruct (scan v eh n 0 []) as [e|L].
  { destruct Hd as (asp & s' & -> & Hg). ostep. by exists asp, s'. }
  destruct Hd as (asp & s' & -> & [D1 D2 D3 D4 D5 D6 D7 D8]). ostep. rewrite place_loop by (by eapply Hreads). ostep. cbn [seg1 seg2 usegs as_v].
  match goal with |- context [as_define_stack _ _ ?a _] => destruct (as_define_stack_ok a s') as (a3 & s3 & -> & Hg3 & Hr3 & Hn3 & Ha3) end.
  { cbn. rewrite D3. eexists. split; [done|apply arepr_create]. }
  ostep. cbn [seg1 seg2 usegs as_v].
  assert (Hh : ∀ j ph, header_among v eh 0 n j = Some ph → sane ph).
  { intros j ph. unfold header_among. case_bool_decide; [|done]. destruct (read_phdr exe v eh j) as [|[]] eqn:?; [done| |done].
    intros [= ->]. eapply Hsane; [|done]. lia. }
  eexists _, s3. split; [done|]. split; [|done]. split; cbn [seg1 seg2 usegs as_v].
  - apply defined_laid_out; eauto.
  - apply defined_laid_out; eauto.
  - exists a3. split; [done|]. unfold stack_pages. by rewrite <- D6.
  - done.
  - by eapply grown_trans.
  - unfold code_pages, data_pages, stack_pages. rewrite (assoc_L (++)), <- seq_app, <- Nat.add_assoc.
    apply absent_app; [|by rewrite Nat.add_assoc, <- D6]. eapply absent_grown; [done| |done]. intros p Hp%elem_of_seq. lia.
Qed.
End setup.

(** ** What loading leaves alone, whatever the file and the memory *)

Section partial.
Context {S R : Type} (Inv : S → Prop).

Lemma for_each_keeps (body : Z → S → outcome S) n : (∀ i s s', body i s = Ret s' → Inv s → Inv s') →
  ∀ i s s', for_each n i body s = Ret s' → Inv s → Inv s'.
Proof.
  intros Hb. induction n as [|n IH]; intros i s s' Hr Hi; simpl in Hr; ret_inv; [by subst|]. eauto.
Qed.

Lemma for_loop_keeps (Exit : R → Prop) (body : Z → S → outcome (S + R)) n :
  (∀ i s r, body i s = Ret r → Inv s → match r with inl s' => Inv s' | inr x => Exit x end) →
  ∀ i s r, for_loop n i body s = Ret r → Inv s → match r with inl s' => Inv s' | inr x => Exit x end.
Proof.
  intros Hb. induction n as [|n IH]; intros i s r Hr Hi; simpl in Hr; ret_inv; [by subst|].
  pose proof (Hb i s a E Hi) as Ha. destruct a as [s1|x]; [by eapply IH|]. ret_inv. by subst.
Qed.
End partial.

Section kept.
Context {F : Type} `{!Frames F} (nomem : nat → bool) (km : Z → bool) (exe : Z → Z → Z → Z * list Z).
Implicit Types s : vms F.

(** The TLB and physical memory. *)
Definition mmu s : list (Z * Z) * memory := (tlb s, phys s).

Lemma add_page_mmu mk i st st' : add_page nomem km mk i st = Ret st' → mmu st'.2 = mmu st.2.
Proof.
  destruct st as [a s]. unfold add_page, kmalloc_page. intros Hr. destruct (nomem (npage s)); simpl in Hr; ret_inv; [done|].
  destruct a0. ret_inv. by subst.
Qed.

Lemma add_pages_mmu mk n a s a' s' : for_each n 0 (add_page nomem km mk) (a, s) = Ret (a', s') → mmu s' = mmu s.
Proof.
  intros Hr. change (mmu (a', s').2 = mmu s). revert Hr. generalize (a', s') as st'. intros st' Hr.
  eapply (for_each_keeps (λ st, mmu st.2 = mmu s)); [|exact Hr|done]. intros i st1 st2 H%add_page_mmu. congruence.
Qed.

Lemma define_segment_mmu g vaddr sz f_sz perm s g' s' : define_segment nomem km g vaddr sz f_sz perm s = Ret (g', s') → mmu s' = mmu s.
Proof.
  unfold define_segment. intros Hr. ret_inv. destruct a0. ret_inv. destruct a1. ret_inv. subst. by eapply add_pages_mmu.
Qed.

Lemma as_define_region_mmu asp vaddr sz f_sz r w x s e asp' s' :
  as_define_region nomem km asp vaddr sz f_sz r w x s = Ret (e, asp', s') → mmu s' = mmu s.
Proof.
  unfold as_define_region. intros Hr. repeat case_bool_decide; ret_inv; try (destruct a; ret_inv); subst; try done; by eapply define_segment_mmu.
Qed.

Lemma load_elf_mmu v asp s r asp' s' : load_elf nomem km exe v asp s = Ret (r, asp', s') → mmu s' = mmu s.
Proof.
  unfold load_elf. destruct (read_struct exe v 0 sizeof_Ehdr) as [e|bytes]; intros Hr; ret_inv; [by subst|].
  destruct (header_ok _); simpl in Hr; ret_inv; [|by subst].
  assert (Hk : match a with inl st => mmu st.2 = mmu s | inr x => mmu x.2 = mmu s end).
  { eapply (for_loop_keeps (λ st, mmu st.2 = mmu s) (λ x, mmu x.2 = mmu s)); [|exact E|done].
    intros i [asp1 s1] r1 Ht Hm. unfold define_turn in Ht. destruct (read_phdr _ _ _ _) as [e|[ph|]]; ret_inv; [by subst| |by subst].
    destruct a0 as [[e asp2] s2]. apply as_define_region_mmu in E0. case_bool_decide; ret_inv; subst; simpl in *; congruence. }
  destruct a as [[asp1 s1]|[[e asp1] s1]]; ret_inv; [|by subst]. destruct a; [|destruct p]; ret_inv; by subst.
Qed.

Lemma load_program_mmu v s r asp s' : load_program nomem km exe v s = Ret (r, asp, s') → mmu s' = mmu s.
Proof.
  unfold load_program. intros Hr. ret_inv. destruct a as [[r1 asp1] s1]. apply load_elf_mmu in E. destruct r1; ret_inv; [by subst|].
  destruct a as [[sp asp2] s2]. ret_inv. subst. unfold as_define_stack in E0. ret_inv. destruct a0. ret_inv. destruct a1. ret_inv. subst.
  apply add_pages_mmu in E3. congruence.
Qed.
End kept.
