(* ===== verification/VmTheorems.v ===== *)
(** * Virtual memory: properties

    The coremap as a source of frames, loading a program, runs of
    accesses of a user program, and what goes wrong. *)

From S2P Require Import Prelude CArray KHeap KHeapSpec Coremap Uio AddrSpace VmSpec LoadElf VmLoad.

(** ** The coremap hands out frames *)

Definition cp_frame (p : cpages) : outcome (cpages * Z) :=
  '(s, a) ← getppages (cp_env p (cp_tick p)) 1 (cp_st p);
  Ret (CPages s (cp_env p) (S (cp_tick p)), a).

Definition cp_used (p : cpages) (a : Z) : Prop := ∃ k c, rd (coremap (cp_st p)) k = Ret c ∧ cm_paddr c = a ∧ cm_used c ≠ 0.

Lemma cp_used_ok base fx u l p a : cinv base fx u l (cp_st p) →
  cp_used p a ↔ ∃ k, 0 ≤ k < coremap_size (cp_st p) ∧ a = base + k * PAGE_SIZE ∧ u k ≠ 0.
Proof.
  intros Hi. unfold cp_used. pose proof (ci_rep _ _ _ _ _ Hi) as Hr. pose proof (ci_size _ _ _ _ _ Hi) as Hsz. split.
  - intros (k & c & Hc & <- & Hu). pose proof (rd_Ret_range _ _ _ Hc) as Hk.
    destruct (Hr k) as (c' & Hc' & Hp & Hu' & _); [lia|]. rewrite Hc in Hc'. injection Hc' as <-.
    exists k. rewrite <- Hu', Hp. split; [lia|done].
  - intros (k & Hk & -> & Hu). destruct (Hr k) as (c & Hc & Hp & Hu' & _); [lia|]. exists k, c. by rewrite Hp, Hu'.
Qed.

Lemma cp_frame_spec p : cp_inv p → ∃ p' a, cp_frame p = Ret (p', a) ∧ cp_inv p' ∧
  ((a = 0 ∧ ∀ b, cp_used p' b ↔ cp_used p b) ∨
   (0 < a < 2 ^ 31 ∧ a mod PAGE_SIZE = 0 ∧ ¬ cp_used p a ∧ ∀ b, cp_used p' b ↔ cp_used p b ∨ b = a)).
Proof.
  intros (base & fx & u & l & Hi). unfold cp_frame.
  destruct (getppages_ok base fx u l (cp_st p) (cp_env p (cp_tick p)) 1 Hi) as [[-> _]|(s' & j & -> & Hff & Hsz & Hi')]; [done|..]; ostep.
  - eexists _, 0. split; [done|]. split; [by exists base, fx, u, l|]. left. split; [done|]. intros b. unfold cp_used. done.
  - set (p' := CPages _ _ _). change s' with (cp_st p') in Hi'. destruct Hff as [(Hj & HjN & Hfree) _].
    destruct (ci_base _ _ _ _ _ Hi) as (Hb1 & Hb2 & Hb3).
    exists p', (base + j * PAGE_SIZE). split; [done|]. split; [by exists base, fx, (fill j 1 1 u), (put j 1 l)|]. right.
    assert (Hinj : ∀ k, base + k * PAGE_SIZE = base + j * PAGE_SIZE → k = j) by (unfold PAGE_SIZE; lia).
    split; [unfold PAGE_SIZE in *; lia|]. split; [unfold PAGE_SIZE in *; by rewrite Z.mod_add|]. split.
    + rewrite (cp_used_ok _ _ _ _ _ _ Hi). intros (k & _ & Hk & Hu). symmetry in Hk. apply Hinj in Hk as ->. apply Hu, Hfree. lia.
    + intros b. rewrite (cp_used_ok _ _ _ _ _ _ Hi), (cp_used_ok _ _ _ _ _ _ Hi'). cbn [cp_st p']. rewrite Hsz. unfold fill. split.
      * intros (k & Hk & -> & Hu). destruct (decide (k = j)) as [->|Hne]; [by right|left]. exists k. rewrite decide_False in Hu by lia. done.
      * intros [(k & Hk & -> & Hu)| ->]; [exists k|exists j]; (split; [lia|split; [done|case_decide; [done|]]]); [done|lia].
Qed.

#[export] Instance coremap_frames : Frames cpages := {|
  getframe := cp_frame; fr_inv := cp_inv; fr_used := cp_used; getframe_spec := cp_frame_spec
|}.

(** ** A user program at work *)

Section user.
Context {F : Type} `{!Frames F} (exe : Z → Z → Z → Z * list Z) (asp : addrspace) (P1 P2 PS : list nat).
Implicit Types s : vms F.

(** An access of the user program: the processor translates, and the exception
    handler calls vm_fault and tries again. [None]: the process is ended. *)
Fixpoint user_access (faults : nat) (write : bool) (va : Z) s : outcome (option Z * vms F) :=
  match translate write va s with
  | inl pa => Ret (Some pa, s)
  | inr t =>
      match faults with
      | O => Spin
      | S faults =>
          '(r, s) ← vm_fault exe (Some asp) t va s;
          if bool_decide (r = Returns 0) then user_access faults write va s else Ret (None, s)
      end
  end.

(** What the program sees at an address. *)
Definition sees s (va b : Z) : Prop := ∃ pa, resident asp s (Z.land va PAGE_FRAME) pa ∧ peek (phys s) (pa + va mod PAGE_SIZE) = b.

(** Pages in memory stay where they are, with their contents. *)
Definition stable s s' : Prop :=
  ∀ fa pa, resident asp s fa pa → resident asp s' fa pa ∧ load (phys s') pa (Z.to_nat PAGE_SIZE) = load (phys s) pa (Z.to_nat PAGE_SIZE).

Context (Has : as_ok asp P1 P2 PS) (Hfile : file_ok asp P1 P2 PS exe).
Abbreviation inv := (vinv asp P1 P2 PS).
Abbreviation Placed := (placed asp P1 P2 PS).

Lemma stable_refl s : stable s s.
Proof. by intros fa pa Hr. Qed.

Lemma stable_trans s1 s2 s3 : stable s1 s2 → stable s2 s3 → stable s1 s3.
Proof. intros H1 H2 fa pa Hr. destruct (H1 fa pa Hr) as [Hr' <-]. by apply H2. Qed.

Lemma keeps_stable s s' : keeps s s' → stable s s'.
Proof.
  intros [Hp _ _ Hph _ _ _] fa pa (Ha & pl & Hpl & x & Hx). rewrite Hph. split; [|done]. split; [done|]. exists pl. split; [done|].
  exists x. by rewrite Hp.
Qed.

(** Frames of different addresses do not overlap. *)
Lemma frames_apart a b : a mod PAGE_SIZE = 0 → b mod PAGE_SIZE = 0 → a ≠ b → a + PAGE_SIZE ≤ b ∨ b + PAGE_SIZE ≤ a.
Proof. unfold PAGE_SIZE. intros. Z.to_euclidean_division_equations. lia. Qed.

Lemma page_data_length bytes : len bytes ≤ PAGE_SIZE → length (page_data bytes) = Z.to_nat PAGE_SIZE.
Proof. intros H. unfold page_data. rewrite length_app, length_replicate. lia. Qed.

Lemma in_file_data pl f bytes : in_file asp exe pl f bytes → length (page_data bytes) = Z.to_nat PAGE_SIZE.
Proof. intros (v & off & _ & _ & _ & Hl). apply page_data_length. rewrite Hl. unfold f_amount. case_bool_decide; lia. Qed.

Lemma load_page_outside m a l b n : b + n ≤ a ∨ a + len l ≤ b → load (store m a l) b (Z.to_nat n) = load m b (Z.to_nat n).
Proof. intros H. apply load_ext. intros x Hx. apply peek_store_outside. lia. Qed.

Lemma paged_in_stable t fa pl f pa x s s' : inv s → Placed fa pl f → pages s !! pl_page pl = Some x → pg_valid x = 0 →
  paged_in asp P1 P2 PS exe t fa pl f pa s s' → stable s s'.
Proof.
  intros Hv Hpl Hx Hval Hpi fb pb Hr. destruct (resident_frame asp P1 P2 PS Has s fb pb Hv Hr) as [(Hpb0 & Hpb & Hused) _].
  pose proof Hr as (Hab & pl' & Hpl' & y & Hy & Hyv & Hyp).
  assert (Hne : pl_page pl' ≠ pl_page pl) by congruence. split.
  - split; [done|]. exists pl'. split; [done|]. exists y. by rewrite (pi_pages _ _ _ _ _ _ _ _ _ _ _ _ Hpi).
  - assert (pb ≠ pa) as Hdiff by (intros ->; by apply (pi_new _ _ _ _ _ _ _ _ _ _ _ _ Hpi)).
    destruct (resident_frame asp P1 P2 PS Has s' fa pa (pi_inv _ _ _ _ _ _ _ _ _ _ _ _ Hpi) (pi_resident _ _ _ _ _ _ _ _ _ _ _ _ Hpi)) as [_ [_ Hpa]].
    pose proof (pi_data _ _ _ _ _ _ _ _ _ _ _ _ Hpi) as Hd. destruct (loads t pl f s); [|by rewrite Hd].
    destruct Hd as (bytes & Hin & ->). apply load_page_outside. rewrite (in_file_data _ _ _ Hin).
    destruct (frames_apart pa pb Hpa Hpb) as [?|?]; [done|right|left]; unfold PAGE_SIZE in *; lia.
Qed.

(** One fault on a miss: an error, the page in the TLB, or, for a read of a page
    without file contents, the page in memory only. *)
Definition progress (write : bool) (fa : Z) s s' : Prop :=
  inv s' ∧ stable s s' ∧ cpu_spl s' = cpu_spl s ∧ (balanced (stats_counts s) → balanced (stats_counts s')) ∧
  ∃ pa, resident asp s' fa pa ∧
    ((∃ d, mapped_to (tlb s') fa pa d ∧ (in_code asp fa = false → d = true)) ∨ (write = false ∧ ¬ ∃ pb, resident asp s fa pb)).

Lemma miss_fault write va s : inv s → 0 ≤ va < 2 ^ 32 → translate write va s = inr (if write then VM_FAULT_WRITE else VM_FAULT_READ) →
  ∃ e s', vm_fault exe (Some asp) (if write then VM_FAULT_WRITE else VM_FAULT_READ) va s = Ret (Returns e, s') ∧
    ((e = EFAULT ∧ find_place asp (Z.land va PAGE_FRAME) = Ret None) ∨
     (e = ENOMEM ∧ (∃ f', getframe (frames s) = Ret (f', 0)) ∧ ¬ ∃ pb, resident asp s (Z.land va PAGE_FRAME) pb) ∨
     (e = 0 ∧ progress write (Z.land va PAGE_FRAME) s s')).
Proof.
  intros Hv Hva Hmiss. set (t := if write then VM_FAULT_WRITE else VM_FAULT_READ) in *. set (fa := Z.land va PAGE_FRAME) in *.
  assert (Ht : t = VM_FAULT_READ ∨ t = VM_FAULT_WRITE) by (unfold t; destruct write; auto).
  destruct (find_place_placed asp P1 P2 PS Has fa (frame_aligned va Hva)) as [Hnone|(pl & f & Hpl)].
  { exists EFAULT. eexists. split; [|by left]. unfold vm_fault. rewrite vm_fault_S. unfold vm_fault_body. fold fa. rewrite Hnone. ostep. reflexivity. }
  assert (Hfa : fa ∉ (tlb s).*1) by (eapply (miss_unmapped (resident asp s)); [apply Hv|apply Hpl|done]).
  destruct (v_page _ _ _ _ s Hv _ (pd_page _ _ _ _ _ _ _ Hpl)) as (x & Hx & [Hval|(Hval & pa & Hpa & _)]).
  - assert (Hnr : ¬ ∃ pb, resident asp s fa pb).
    { intros (pb & _ & pl' & Hpl' & y & Hy & ? & _). rewrite (pd_find _ _ _ _ _ _ _ Hpl) in Hpl'. injection Hpl' as <-. congruence. }
    destruct (fault_new asp P1 P2 PS Has exe t va s pl f x Hv Hpl Ht Hx Hval Hfile) as [(f' & s' & Hg & ->)|(pa & s' & -> & Hpi)].
    { exists ENOMEM, s'. split; [done|]. right. left. split; [done|]. split; [by exists f'|done]. }
    exists 0, s'. split; [done|]. right. right. split; [done|]. split; [apply Hpi|]. split; [by eapply paged_in_stable|]. split; [apply Hpi|].
    split; [by apply counts_balanced, Hpi|]. exists pa. split; [apply Hpi|].
    destruct (pi_tlb _ _ _ _ _ _ _ _ _ _ _ _ Hpi) as [(d & ? & ? & _)|(_ & Ht' & _)]; [left; by exists d|right]. split; [|done].
    unfold t in Ht'. by destruct write.
  - assert (Hr : resident asp s fa pa) by (split; [apply Hpl|]; exists pl; split; [apply Hpl|by exists x]).
    destruct (fault_resident asp P1 P2 PS Has exe (vm_fault_n exe 1 (Some asp)) t va s pa Hv Ht Hr Hfa) as (s' & Hf & [Hv' Hk Hm (b & Hb & Hst)]).
    exists 0, s'. split; [exact Hf|]. right. right. split; [done|]. split; [done|]. split; [by apply keeps_stable|]. split; [apply Hk|].
    split. { intros Hbal. rewrite Hst. apply balanced_reload; auto. }
    exists pa. split; [by apply (keeps_stable _ _ Hk)|]. left. eexists. split; [exact Hm|]. intros Hc. fold fa. by rewrite Hc.
Qed.

(** A write to a page that is mapped read-only ends the process. *)
Lemma readonly_fault va s : 0 ≤ va < 2 ^ 32 → is_Some (page_index asp P1 P2 (Z.land va PAGE_FRAME)) →
  ∃ s', vm_fault exe (Some asp) VM_FAULT_READONLY va s = Ret (Killed, s').
Proof.
  intros Hva [k Hk]. pose proof (find_place_ok asp P1 P2 PS Has _ (frame_aligned va Hva)) as H. rewrite Hk in H.
  destruct H as (pl & f & Hf & _). eexists. unfold vm_fault. rewrite vm_fault_S. unfold vm_fault_body. rewrite Hf. ostep. reflexivity.
Qed.

(** When an access ends the process. *)
Definition refused (write : bool) (va : Z) s : Prop :=
  find_place asp (Z.land va PAGE_FRAME) = Ret None ∨ (∃ f', getframe (frames s) = Ret (f', 0)) ∨
  (write = true ∧ in_code asp (Z.land va PAGE_FRAME) = true).

Definition granted (va pa : Z) s s' : Prop :=
  inv s' ∧ stable s s' ∧ cpu_spl s' = cpu_spl s ∧ (balanced (stats_counts s) → balanced (stats_counts s')) ∧
  ∃ p, resident asp s' (Z.land va PAGE_FRAME) p ∧ pa = p + va mod PAGE_SIZE.

Lemma mapped_access write va s pa d n : inv s → 0 ≤ va < 2 ^ 32 → resident asp s (Z.land va PAGE_FRAME) pa → mapped_to (tlb s) (Z.land va PAGE_FRAME) pa d →
  (in_code asp (Z.land va PAGE_FRAME) = false → d = true) →
  user_access (S n) write va s = Ret (Some (pa + va mod PAGE_SIZE), s) ∨
  (write = true ∧ in_code asp (Z.land va PAGE_FRAME) = true ∧ ∃ s', user_access (S n) write va s = Ret (None, s')).
Proof.
  intros Hv Hva Hr Hm Hd. destruct (resident_frame asp P1 P2 PS Has s _ pa Hv Hr) as [_ Hpa].
  destruct (decide (write = true ∧ d = false)) as [[-> ->]|Hok].
  - right. split; [done|]. split; [destruct (in_code _ _); [done|by discriminate Hd]|].
    assert (Ht : translate true va s = inr VM_FAULT_READONLY).
    { unfold translate. destruct (find_mapped (resident asp s) _ _ _ _ (v_tlb _ _ _ _ s Hv) Hm) as (k & Hk & _).
      change TLBHI_VPAGE with PAGE_FRAME. rewrite Hk. rewrite bool_decide_eq_false_2 by by apply tlbe_valid. simpl.
      by rewrite bool_decide_eq_true_2 by by apply tlbe_dirty. }
    destruct (resident_placed asp P1 P2 PS Has s _ pa Hr) as (pl & f & Hpl & _).
    pose proof (find_place_ok asp P1 P2 PS Has _ (frame_aligned va Hva)) as Hfp.
    destruct (page_index asp P1 P2 (Z.land va PAGE_FRAME)) as [k|] eqn:Hk; [|by rewrite (pd_find _ _ _ _ _ _ _ Hpl) in Hfp].
    destruct (readonly_fault va s Hva) as (s' & Hf); [by rewrite Hk|]. exists s'. cbn [user_access]. rewrite Ht, Hf. ostep. done.
  - left. cbn [user_access]. rewrite (translate_hit (resident asp s) s write va pa d); [done|apply Hv|done|done|].
    intros ->. destruct d; [done|]. naive_solver.
Qed.

Lemma translate_cases write va s : inv s → 0 ≤ va < 2 ^ 32 →
  (∃ pa d, resident asp s (Z.land va PAGE_FRAME) pa ∧ mapped_to (tlb s) (Z.land va PAGE_FRAME) pa d ∧ (in_code asp (Z.land va PAGE_FRAME) = false → d = true)) ∨
  translate write va s = inr (if write then VM_FAULT_WRITE else VM_FAULT_READ).
Proof.
  intros Hv Hva. unfold translate. change TLBHI_VPAGE with PAGE_FRAME.
  destruct (tlb_find (tlb s) (Z.land va PAGE_FRAME) 0) as [[k elo]|] eqn:Hf; [|by right].
  destruct (tlb_find_Some _ _ _ _ _ Hf) as (n & ehi & _ & Hn%list_elem_of_lookup_2 & Hp).
  pose proof (entry_page (resident asp s) _ _ _ (v_tlb _ _ _ _ s Hv) Hn) as Hp'. rewrite Hp' in Hp. subst ehi.
  destruct (to_entry _ _ (v_tlb _ _ _ _ s Hv) _ _ Hn) as (_ & [[_ Hval]|(_ & pa & d & Hr & Hpa & ->)]).
  - right. by rewrite bool_decide_eq_true_2.
  - left. exists pa, d. split; [done|]. split; [done|]. intros Hc. by eapply (v_writable _ _ _ _ s Hv).
Qed.

Lemma granted_here va s pa : inv s → resident asp s (Z.land va PAGE_FRAME) pa → granted va (pa + va mod PAGE_SIZE) s s.
Proof. intros Hv Hr. split; [done|]. split; [apply stable_refl|]. split; [done|]. split; [done|]. by exists pa. Qed.

Lemma granted_after write va s1 s2 s3 pa : progress write (Z.land va PAGE_FRAME) s1 s2 → granted va pa s2 s3 → granted va pa s1 s3.
Proof.
  intros (_ & Hst & Hspl & Hbal & _) (Hv & Hst' & Hspl' & Hbal' & Hr). split; [done|]. split; [by eapply stable_trans|]. split; [congruence|]. split; [auto|done].
Qed.

Lemma user_access_ok write va s : inv s → 0 ≤ va < 2 ^ 32 →
  ∃ r s', user_access 2 write va s = Ret (r, s') ∧ match r with Some pa => granted va pa s s' | None => refused write va s end.
Proof.
  intros Hv Hva. destruct (translate_cases write va s Hv Hva) as [(pa & d & Hr & Hm & Hd)|Hmiss].
  { destruct (mapped_access write va s pa d 1 Hv Hva Hr Hm Hd) as [->|(-> & Hc & s' & ->)].
    - eexists _, s. split; [done|]. by apply granted_here.
    - eexists None, s'. split; [done|]. right. right. done. }
  cbn [user_access]. rewrite Hmiss. destruct (miss_fault write va s Hv Hva Hmiss) as (e & s1 & -> & He). ostep.
  destruct He as [[-> Hn]|[(-> & Hf & _)|[-> Hpr]]].
  { eexists None, s1. split; [done|]. by left. }
  { eexists None, s1. split; [done|]. right. by left. }
  rewrite (bool_decide_eq_true_2 (Returns 0 = Returns 0)) by done. pose proof Hpr as (Hv1 & _ & _ & _ & pa & Hr & [(d & Hm & Hd)|[-> Hnr]]).
  { destruct (mapped_access write va s1 pa d 0 Hv1 Hva Hr Hm Hd) as [Hacc|(-> & Hc & s' & Hacc)]; cbn [user_access] in Hacc; rewrite Hacc.
    - eexists _, s1. split; [done|]. eapply granted_after; [exact Hpr|]. by apply granted_here.
    - eexists None, s'. split; [done|]. right. right. done. }
  destruct (translate_cases false va s1 Hv1 Hva) as [(pb & d & Hr1 & Hm & Hd)|Hmiss1].
  { destruct (mapped_access false va s1 pb d 0 Hv1 Hva Hr1 Hm Hd) as [Hacc|(? & _)]; [|done]. cbn [user_access] in Hacc. rewrite Hacc.
    eexists _, s1. split; [done|]. eapply granted_after; [exact Hpr|]. by apply granted_here. }
  rewrite Hmiss1. destruct (miss_fault false va s1 Hv1 Hva Hmiss1) as (e & s2 & -> & He). ostep.
  destruct He as [[-> Hn]|[(-> & _ & Hno)|[-> Hpr2]]]; [|by destruct Hno; exists pa|].
  { eexists None, s2. split; [done|]. by left. }
  rewrite (bool_decide_eq_true_2 (Returns 0 = Returns 0)) by done. pose proof Hpr2 as (Hv2 & _ & _ & _ & pb & Hr2 & [(d & Hm & Hd)|[_ Hno]]); [|by destruct Hno; exists pa].
  destruct (resident_frame asp P1 P2 PS Has s2 _ pb Hv2 Hr2) as [_ Hpb].
  rewrite (translate_hit (resident asp s2) s2 false va pb d) by (done || apply Hv2). eexists _, s2. split; [done|].
  eapply granted_after; [exact Hpr|]. eapply granted_after; [exact Hpr2|]. by apply granted_here.
Qed.

(** ** The memory of a program *)

Inductive uop := ULoad (va : Z) | UStore (va b : Z).

Definition op_va (o : uop) : Z := match o with ULoad va | UStore va _ => va end.
Definition op_write (o : uop) : bool := match o with ULoad _ => false | UStore _ _ => true end.

(** An instruction: the byte loaded or stored, or [None] when the process ends. *)
Definition ustep (o : uop) s : outcome (option Z * vms F) :=
  '(r, s) ← user_access 2 (op_write o) (op_va o) s;
  match r with
  | None => Ret (None, s)
  | Some pa =>
      match o with
      | ULoad _ => Ret (Some (peek (phys s) pa), s)
      | UStore _ b => Ret (Some b, set_phys (<[pa := b]> (phys s)) s)
      end
  end.

(** A program: the bytes, and whether it has run to its end. *)
Fixpoint urun (ops : list uop) s : outcome (list Z * bool * vms F) :=
  match ops with
  | [] => Ret ([], true, s)
  | o :: ops =>
      '(r, s) ← ustep o s;
      match r with
      | None => Ret ([], false, s)
      | Some b => '(bs, fin, s) ← urun ops s; Ret (b :: bs, fin, s)
      end
  end.

(** The bytes are those of a flat memory: a load gives what is known to be at its
    address. *)
Fixpoint flat (M : gmap Z Z) (ops : list uop) (bs : list Z) : Prop :=
  match ops, bs with
  | ULoad va :: ops, b :: bs => (∀ c, M !! va = Some c → b = c) ∧ flat (<[va := b]> M) ops bs
  | UStore va c :: ops, b :: bs => b = c ∧ flat (<[va := c]> M) ops bs
  | _, _ => True
  end.

Lemma sees_stable s s' va b : inv s → stable s s' → sees s va b → sees s' va b.
Proof.
  intros Hv Hst (pa & Hr & <-). destruct (Hst _ _ Hr) as [Hr' Hl]. exists pa. split; [done|].
  pose proof (Z.mod_pos_bound va PAGE_SIZE ltac:(done)) as Hm. set (o := va mod PAGE_SIZE) in *. clearbody o.
  replace (Z.to_nat PAGE_SIZE) with (Z.to_nat o + S (Z.to_nat (PAGE_SIZE - o - 1)))%nat in Hl by lia.
  rewrite !load_app in Hl. apply app_inj_1 in Hl as [_ Hl]; [|by rewrite !load_length]. cbn [load] in Hl. injection Hl as Hl _.
  by rewrite Z2Nat.id in Hl by lia.
Qed.

(** Different addresses are at different places. *)
Lemma place_apart s va vb pa pb : inv s → resident asp s (Z.land va PAGE_FRAME) pa → resident asp s (Z.land vb PAGE_FRAME) pb →
  0 ≤ va < 2 ^ 32 → 0 ≤ vb < 2 ^ 32 → pa + va mod PAGE_SIZE = pb + vb mod PAGE_SIZE → va = vb.
Proof.
  intros Hv Hra Hrb Hva Hvb Heq. destruct (resident_frame asp P1 P2 PS Has s _ _ Hv Hra) as [(_ & Hpa & _) _], (resident_frame asp P1 P2 PS Has s _ _ Hv Hrb) as [(_ & Hpb & _) _].
  assert (pa = pb ∧ va mod PAGE_SIZE = vb mod PAGE_SIZE) as [<- Hmod] by (unfold PAGE_SIZE in *; Z.to_euclidean_division_equations; lia).
  destruct (resident_placed asp P1 P2 PS Has s _ _ Hra) as (pl & f & Hpl & Hh), (resident_placed asp P1 P2 PS Has s _ _ Hrb) as (pl' & f' & Hpl' & Hh').
  assert (pl_page pl = pl_page pl') as Hp by (eapply (v_apart _ _ _ _ s Hv); [apply Hpl|apply Hpl'|done..]).
  assert (Z.land va PAGE_FRAME = Z.land vb PAGE_FRAME) as Hf by (eapply (place_inj asp P1 P2 PS Has); [apply Hpl|apply Hpl'|apply Hpl|apply Hpl'|done]).
  rewrite !page_frame in Hf by done. lia.
Qed.

Lemma ustep_ok o s : inv s → 0 ≤ op_va o < 2 ^ 32 →
  ∃ r s', ustep o s = Ret (r, s') ∧
    match r with
    | None => refused (op_write o) (op_va o) s
    | Some b => inv s' ∧ (balanced (stats_counts s) → balanced (stats_counts s')) ∧ sees s' (op_va o) b ∧
        (∀ c, o = UStore (op_va o) c → b = c) ∧ (∀ va c, o = ULoad va → sees s va c → b = c) ∧
        (∀ vb c, 0 ≤ vb < 2 ^ 32 → vb ≠ op_va o → sees s vb c → sees s' vb c)
    end.
Proof.
  intros Hv Hva. unfold ustep. destruct (user_access_ok (op_write o) (op_va o) s Hv Hva) as (r & s1 & -> & Hr). ostep.
  destruct r as [pa|]; [|by exists None, s1]. destruct Hr as (Hv1 & Hst & _ & Hbal & p & Hres & ->).
  destruct o as [va|va b]; cbn [op_va op_write] in *.
  - eexists (Some _), s1. split; [done|]. split; [done|]. split; [done|]. split; [by exists p|]. split; [done|]. split.
    + intros ? c [= <-] Hs. destruct (sees_stable s s1 va c Hv Hst Hs) as (q & Hq & <-). by rewrite (resident_fun asp s1 (Z.land va PAGE_FRAME) p q).
    + intros vb c _ _. by apply sees_stable.
  - eexists (Some b), _. split; [done|]. split.
    { apply (vinv_same asp P1 P2 PS s1); try done; [apply Hv1|]. destruct (v_counters _ _ _ _ _ Hv1). by split. }
    split; [done|]. split. { exists p. split; [done|]. cbn. by rewrite peek_insert, decide_True. }
    split; [congruence|]. split; [done|]. intros vb c Hvb Hne Hs. destruct (sees_stable s s1 vb c Hv Hst Hs) as (q & Hq & <-).
    exists q. split; [done|]. cbn. rewrite peek_insert, decide_False; [done|]. intros Heq. apply Hne. by eapply (place_apart s1).
Qed.

Lemma urun_ok ops : ∀ M s, inv s → Forall (λ o, 0 ≤ op_va o < 2 ^ 32) ops → (∀ va b, M !! va = Some b → 0 ≤ va < 2 ^ 32 ∧ sees s va b) →
  ∃ bs fin s', urun ops s = Ret (bs, fin, s') ∧ flat M ops bs ∧
    (fin = true → inv s' ∧ length bs = length ops ∧ (balanced (stats_counts s) → balanced (stats_counts s'))).
Proof.
  induction ops as [|o ops IH]; intros M s Hv Hf HM.
  { exists [], true, s. done. }
  apply Forall_cons in Hf as [Ho Hf]. destruct (ustep_ok o s Hv Ho) as (r & s1 & Hst & Hr). cbn [urun]. rewrite Hst. ostep.
  destruct r as [b|]; [|eexists [], false, s1; by destruct o]. destruct Hr as (Hv1 & Hbal & Hsee & Hstore & Hload & Hother).
  destruct (IH (<[op_va o := b]> M) s1 Hv1 Hf) as (bs & fin & s2 & -> & Hflat & Hfin).
  { intros va c. rewrite lookup_insert_Some. intros [[<- <-]|[Hne Hc]]; [done|]. destruct (HM va c Hc) as [? ?]. auto. }
  ostep. exists (b :: bs), fin, s2. split; [done|]. split.
  - destruct o as [va|va c]; cbn [flat op_va] in *.
    + split; [|done]. intros c Hc. destruct (HM va c Hc) as [_ Hs]. eauto.
    + rewrite <- (Hstore c eq_refl). done.
  - intros Hf1. destruct (Hfin Hf1) as (? & ? & ?). split; [done|]. split; [simpl; lia|auto].
Qed.
End user.

(** ** Properties *)

Section properties.
Context {F : Type} `{!Frames F} (exe : Z → Z → Z → Z * list Z).
Implicit Types s : vms F.



(** [C3] To the program its memory is flat: in every run of loads and stores, a
    load gives the byte last stored at or loaded from its address. *)
Theorem user_memory_flat asp P1 P2 PS ops s : as_ok asp P1 P2 PS → file_ok asp P1 P2 PS exe → vinv asp P1 P2 PS s →
  Forall (λ o, 0 ≤ op_va o < 2 ^ 32) ops →
  ∃ bs fin s', urun exe asp ops s = Ret (bs, fin, s') ∧ flat ∅ ops bs ∧
    (fin = true → vinv asp P1 P2 PS s' ∧ length bs = length ops ∧ (balanced (stats_counts s) → balanced (stats_counts s'))).
Proof. intros Has Hfile Hv Hf. by apply (urun_ok exe asp P1 P2 PS Has Hfile). Qed.


(** A write to a page with file contents that is not in memory reads the
    file only once in the life of the system: when a first such write has been
    served, every other page that is written before it is read is mapped, and
    counted as read from disk, without having been read: it holds whatever its
    frame held. *)
Theorem written_page_not_loaded asp P1 P2 PS s va pl f x : as_ok asp P1 P2 PS → file_ok asp P1 P2 PS exe → vinv asp P1 P2 PS s →
  placed asp P1 P2 PS (Z.land va PAGE_FRAME) pl f → f ≠ 0 → pages s !! pl_page pl = Some x → pg_valid x = 0 → second_write s ≠ 0 →
  (∃ f' s', getframe (frames s) = Ret (f', 0) ∧ vm_fault exe (Some asp) VM_FAULT_WRITE va s = Ret (Returns ENOMEM, s')) ∨
  (∃ pa s', vm_fault exe (Some asp) VM_FAULT_WRITE va s = Ret (Returns 0, s') ∧ vinv asp P1 P2 PS s' ∧
     resident asp s' (Z.land va PAGE_FRAME) pa ∧ (∃ d, mapped_to (tlb s') (Z.land va PAGE_FRAME) pa d) ∧
     load (phys s') pa (Z.to_nat PAGE_SIZE) = load (phys s) pa (Z.to_nat PAGE_SIZE)).
Proof.
  intros Has Hfile Hv Hpl Hf Hx Hval Hsec.
  destruct (fault_new asp P1 P2 PS Has exe VM_FAULT_WRITE va s pl f x Hv Hpl (or_intror eq_refl) Hx Hval Hfile) as [?|(pa & s' & Hf' & Hpi)]; [by left|].
  right. pose proof (pi_data _ _ _ _ _ _ _ _ _ _ _ _ Hpi) as Hd.
  assert (Hl : loads VM_FAULT_WRITE pl f s = false) by (unfold loads; rewrite (bool_decide_eq_false_2 (second_write s = 0)) by done; by rewrite andb_false_r).
  rewrite Hl in Hd. exists pa, s'. split; [done|]. split; [apply Hpi|]. split; [apply Hpi|]. rewrite Hd. split; [|done].
  destruct (pi_tlb _ _ _ _ _ _ _ _ _ _ _ _ Hpi) as [(d & Hm & _)|(_ & ? & _)]; [by exists d|done].
Qed.
End properties.

(** ** A small machine and a program *)

(** Frames handed out one after the other, up to a limit. *)
Definition pool : Type := Z * Z.
Definition pool_get (f : pool) : outcome (pool * Z) := let '(n, top) := f in Ret (if bool_decide (n < top) then (n + PAGE_SIZE, top, n) else (n, top, 0)).
Definition pool_inv (f : pool) : Prop := 0 < f.1 ∧ f.1 mod PAGE_SIZE = 0 ∧ f.2 ≤ 2 ^ 30.
Definition pool_used (f : pool) (a : Z) : Prop := a < f.1 ∧ a mod PAGE_SIZE = 0.

Lemma pool_get_spec f : pool_inv f → ∃ f' a, pool_get f = Ret (f', a) ∧ pool_inv f' ∧
  ((a = 0 ∧ ∀ b, pool_used f' b ↔ pool_used f b) ∨
   (0 < a < 2 ^ 31 ∧ a mod PAGE_SIZE = 0 ∧ ¬ pool_used f a ∧ ∀ b, pool_used f' b ↔ pool_used f b ∨ b = a)).
Proof.
  destruct f as [n top]. intros (H1 & H2 & H3). cbn [fst snd] in *. unfold pool_get. case_bool_decide; eexists _, _; (split; [reflexivity|]).
  - unfold pool_inv, pool_used, PAGE_SIZE in *. cbn [fst snd] in *. split; [Z.to_euclidean_division_equations; lia|]. right. split; [lia|]. split; [done|]. split; [lia|].
    intros b. Z.to_euclidean_division_equations. lia.
  - split; [done|]. by left.
Qed.

#[local] Instance pool_frames : Frames pool := {|
  getframe := pool_get; fr_inv := pool_inv; fr_used := pool_used; getframe_spec := pool_get_spec
|}.

Definition b16 (x : Z) : list Z := [x / 256 mod 256; x mod 256].
Definition b32 (x : Z) : list Z := b16 (x / 65536) ++ b16 (x mod 65536).

(** Code of 100 bytes at 0x400000, data of 5000 bytes and 9000 in memory at
    0x10000000; a byte of the file is its offset plus the vnode modulo 251. *)
Definition cat_header (phoff phnum : Z) : list Z :=
  [0x7f; 69; 76; 70; 1; 2; 1] ++ replicate 9 0 ++ b16 2 ++ b16 8 ++ b32 1 ++ b32 0x400000 ++ b32 phoff ++ b32 0 ++ b32 0 ++
  b16 52 ++ b16 32 ++ b16 phnum ++ b16 0 ++ b16 0 ++ b16 0 ++
  b32 PT_MIPS_REGINFO ++ replicate 28 0 ++
  b32 1 ++ b32 0x1000 ++ b32 0x400000 ++ b32 0 ++ b32 100 ++ b32 100 ++ b32 5 ++ b32 4096 ++
  b32 1 ++ b32 0x2000 ++ b32 0x10000000 ++ b32 0 ++ b32 5000 ++ b32 9000 ++ b32 6 ++ b32 4096.
Definition file_of (header : list Z) (v off n : Z) : Z * list Z := (0, map (λ i, default ((i + v) mod 251) (header !! Z.to_nat i)) (seqZ off n)).
Definition cat_exe : Z → Z → Z → Z * list Z := file_of (cat_header 52 3).
Definition cat_code : Elf_Phdr := Phdr 1 0x1000 0x400000 100 100 5.
Definition cat_data : Elf_Phdr := Phdr 1 0x2000 0x10000000 5000 9000 6.

Definition idle_tlb : list (Z * Z) := map (λ i, (TLBHI_INVALID i, TLBLO_INVALID)) (seqZ 0 64).
Definition idle_vm (top : Z) : vms pool := Vms ∅ 0 idle_tlb 0 false (0x100000, top) ∅ 0 0 0 0 0 (replicate 10 0) true 0.

Lemma machine_idle_ok top : top ≤ 2 ^ 30 → machine_ok (idle_vm top).
Proof.
  intros Ht. split; try done.
  assert (Hall : Forall (λ e, aligned e.1 ∧ USERTOP ≤ e.1 ∧ Z.land e.2 TLBLO_VALID = 0) idle_tlb).
  { apply (bool_decide_unpack _). vm_compute. exact I. }
  split; [done|apply (bool_decide_unpack _); vm_compute; exact I|]. intros ehi elo Hin.
  rewrite Forall_forall in Hall. destruct (Hall _ Hin) as (? & ? & ?). auto.
Qed.

Definition no_fail (_ : nat) : bool := false.
Definition any_size (_ : Z) : bool := true.

Definition cat_bytes : list Z := take 52 (cat_header 52 3).

Lemma cat_headers : read_struct cat_exe 7 0 sizeof_Ehdr = inr cat_bytes ∧ header_ok (as_Ehdr cat_bytes) = true ∧ e_phnum (as_Ehdr cat_bytes) = 3 ∧
  read_phdr cat_exe 7 (as_Ehdr cat_bytes) 0 = inr None ∧ read_phdr cat_exe 7 (as_Ehdr cat_bytes) 1 = inr (Some cat_code) ∧
  read_phdr cat_exe 7 (as_Ehdr cat_bytes) 2 = inr (Some cat_data).
Proof. vm_compute. done. Qed.

Lemma cat_sane i ph : 0 ≤ i < 3 → read_phdr cat_exe 7 (as_Ehdr cat_bytes) i = inr (Some ph) → sane ph.
Proof.
  destruct cat_headers as (_ & _ & _ & H0 & H1 & H2). revert H0 H1 H2. generalize (read_phdr cat_exe 7 (as_Ehdr cat_bytes)) as f.
  intros f H0 H1 H2 Hi Hp. assert (Hc : i = 0 ∨ i = 1 ∨ i = 2) by lia.
  destruct Hc as [->|[-> | ->]]; [congruence|rewrite H1 in Hp; by injection Hp as <-|rewrite H2 in Hp; by injection Hp as <-].
Qed.

Lemma cat_scan : scan cat_exe 7 (as_Ehdr cat_bytes) 3 0 [] = inr [cat_code; cat_data] ∧ header_among cat_exe 7 (as_Ehdr cat_bytes) 0 3 1 = Some cat_code ∧
  header_among cat_exe 7 (as_Ehdr cat_bytes) 0 3 2 = Some cat_data.
Proof.
  destruct cat_headers as (_ & _ & _ & H0 & H1 & H2). unfold header_among. cbn [scan]. rewrite H0. change (0 + 1) with 1. change (1 + 1) with 2.
  rewrite H1, H2. split_and!; reflexivity.
Qed.


(** The program loaded. *)
Definition cat_loaded : addrspace * vms pool :=
  match load_program no_fail any_size cat_exe 7 (idle_vm 0x200000) with Ret (_, asp, s) => (asp, s) | _ => (create_space, idle_vm 0) end.

Lemma cat_loaded_ok : as_ok cat_loaded.1 (seq 0 1) (seq 1 3) (seq 4 12) ∧ vinv cat_loaded.1 (seq 0 1) (seq 1 3) (seq 4 12) cat_loaded.2 ∧
  as_v cat_loaded.1 = Some 7 ∧ second_write cat_loaded.2 = 0.
Proof.
  pose proof (load_program_cases no_fail any_size cat_exe ltac:(reflexivity) ltac:(reflexivity) 7 (idle_vm 0x200000)) as H.
  destruct cat_headers as (H1 & H2 & H3 & _). destruct cat_scan as (H4 & H5 & H6).
  rewrite H1 in H. cbv zeta in H. rewrite H2, H3 in H. change (Z.to_nat 3) with 3%nat in H. rewrite H4, H5, H6 in H.
  destruct (H cat_sane) as (asp & s' & Hl & Hp & Hsane). unfold cat_loaded. rewrite Hl. cbn [fst snd].
  apply Forall_cons in Hsane as [S1 [S2 _]%Forall_cons]. 
  destruct (program_space_vinv cat_exe 7 (idle_vm 0x200000) cat_code cat_data asp s' S1 S2 Hp (machine_idle_ok 0x200000 ltac:(done))) as [Has Hv].
  split; [exact Has|]. split; [exact Hv|]. split; [apply Hp|]. by destruct (grown_fields _ _ (ps_grown _ _ _ _ _ _ _ Hp)) as (_ & _ & _ & _ & _ & -> & _).
Qed.

Lemma cat_file_ok : file_ok cat_loaded.1 (seq 0 1) (seq 1 3) (seq 4 12) cat_exe.
Proof.
  intros fa pl f Hpl Hf. destruct (pd_off _ _ _ _ _ _ _ Hpl Hf) as [off Hoff]. destruct cat_loaded_ok as (_ & _ & Hv & _).
  eexists _, 7, off. split; [done|]. split; [done|]. split; [reflexivity|]. rewrite length_map, length_seqZ.
  pose proof (pd_nonneg _ _ _ _ _ _ _ Hpl). unfold f_amount, PAGE_SIZE. case_bool_decide; lia.
Qed.


Lemma cat_run : (r ← urun cat_exe cat_loaded.1 [ULoad 0x400000; UStore 0x10000004 42; UStore 0x7ffffffc 1; ULoad 0x10000004] cat_loaded.2; Ret r.1) =
  Ret ([87; 42; 1; 42], true).
Proof. vm_compute. reflexivity. Qed.

Lemma user_memory_flat_witness :
  ∃ bs fin s', urun cat_exe cat_loaded.1 [ULoad 0x400000; UStore 0x10000004 42; UStore 0x7ffffffc 1; ULoad 0x10000004] cat_loaded.2 = Ret (bs, fin, s') ∧
    flat ∅ [ULoad 0x400000; UStore 0x10000004 42; UStore 0x7ffffffc 1; ULoad 0x10000004] bs ∧ bs = [87; 42; 1; 42] ∧ fin = true.
Proof.
  destruct (user_memory_flat cat_exe cat_loaded.1 (seq 0 1) (seq 1 3) (seq 4 12)
    [ULoad 0x400000; UStore 0x10000004 42; UStore 0x7ffffffc 1; ULoad 0x10000004] cat_loaded.2) as (bs & fin & s' & Hrun & Hflat & _);
    [apply cat_loaded_ok|apply cat_file_ok|apply cat_loaded_ok|repeat constructor; done|].
  exists bs, fin, s'. split; [exact Hrun|]. split; [exact Hflat|]. pose proof cat_run as Hr. rewrite Hrun in Hr. rewrite bind_Ret in Hr. injection Hr as -> ->. split; reflexivity.
Defined.

(** The second page of the data segment. *)
Definition second_page : place := Place 2 1 (Some 5000) (Some 0x2000) 1.

Lemma second_page_placed : placed cat_loaded.1 (seq 0 1) (seq 1 3) (seq 4 12) (Z.land 0x10001004 PAGE_FRAME) second_page 5000.
Proof.
  split; [by vm_compute|by vm_compute|change (pl_page second_page) with 2%nat; rewrite !elem_of_app, !elem_of_seq; lia|by vm_compute|done|done|by eexists|].
  right. left. by vm_compute.
Qed.


Lemma vinv_second {F} `{!Frames F} asp P1 P2 PS x (s : vms F) : vinv asp P1 P2 PS s → vinv asp P1 P2 PS (set_second_write x s).
Proof. intros Hv. apply (vinv_same asp P1 P2 PS s); try done; [apply Hv|]. destruct (v_counters _ _ _ _ _ Hv). by split. Qed.

Lemma written_once_ok : vinv cat_loaded.1 (seq 0 1) (seq 1 3) (seq 4 12) (set_second_write 1 cat_loaded.2).
Proof. exact (vinv_second _ _ _ _ 1 _ (proj1 (proj2 cat_loaded_ok))). Qed.

Lemma written_page_not_loaded_witness :
  ∃ pa s', vm_fault cat_exe (Some cat_loaded.1) VM_FAULT_WRITE 0x10001004 (set_second_write 1 cat_loaded.2) = Ret (Returns 0, s') ∧
    load (phys s') pa (Z.to_nat PAGE_SIZE) = load (phys cat_loaded.2) pa (Z.to_nat PAGE_SIZE).
Proof.
  destruct (written_page_not_loaded cat_exe cat_loaded.1 (seq 0 1) (seq 1 3) (seq 4 12) (set_second_write 1 cat_loaded.2) 0x10001004 second_page 5000
    (Page 0x10001000 None 0 6)) as [(f' & s' & Hg & _)|(pa & s' & Hf & _ & _ & _ & Hl)];
    [apply cat_loaded_ok|apply cat_file_ok|apply written_once_ok|apply second_page_placed|done|vm_compute; reflexivity|reflexivity|discriminate|vm_compute in Hg; discriminate Hg|].
  exists pa, s'. split; [exact Hf|exact Hl].
Defined.

(** ** What goes wrong *)

(** An access that reaches memory leaves its translation in the TLB. *)
Lemma user_access_hit {F} `{!Frames F} exe asp n write va (s : vms F) pa s' :
  user_access exe asp n write va s = Ret (Some pa, s') → translate write va s' = inl pa.
Proof.
  revert s. induction n as [|n IH]; intros s; simpl; destruct (translate write va s) as [p|t] eqn:Ht; intros Hr; ret_inv; try congruence.
  destruct a as [r s1]. destruct (bool_decide (r = Returns 0)); [by eapply IH|]. ret_inv. done.
Qed.

Lemma translate_mmu {F} write va (s s' : vms F) : mmu s' = mmu s → translate write va s' = translate write va s.
Proof. intros [= Ht _]. unfold translate. by rewrite Ht. Qed.

(** The entries that a flush leaves. *)
Lemma flushed_find (t : list (Z * Z)) va i : (∀ k e, t !! k = Some e → e = (TLBHI_INVALID (Z.of_nat k), TLBLO_INVALID)) → length t = 64%nat →
  0 ≤ va < USERTOP → tlb_find t (Z.land va TLBHI_VPAGE) i = None.
Proof.
  intros Ht Hl Hva. assert (Hall : Forall (λ e, USERTOP ≤ Z.land e.1 TLBHI_VPAGE) t).
  { apply Forall_lookup. intros k e Hk. rewrite (Ht k e Hk). apply lookup_lt_Some in Hk. rewrite Hl in Hk. cbn [fst].
    assert (Hinv : Forall (λ x, USERTOP ≤ Z.land (TLBHI_INVALID x) TLBHI_VPAGE) (seqZ 0 64)) by (apply (bool_decide_unpack _); vm_compute; exact I).
    rewrite Forall_forall in Hinv. apply Hinv. apply elem_of_seqZ. lia. }
  assert (Hlow : Z.land va TLBHI_VPAGE < USERTOP).
  { change TLBHI_VPAGE with PAGE_FRAME. unfold USERTOP, MIPS_KSEG0 in *. rewrite page_frame by lia. pose proof (Z.mod_pos_bound va PAGE_SIZE ltac:(done)). lia. }
  clear Ht Hl. revert i. induction Hall as [|[ehi elo] t Hx _ IH]; intros i; [done|]. simpl. rewrite bool_decide_eq_false_2 by (simpl in Hx; lia). apply IH.
Qed.

Lemma flush_loop {F} (n : nat) : ∀ i (s s' : vms F), 0 ≤ i → i + Z.of_nat n = 64 → length (tlb s) = 64%nat →
  for_each n i (λ i, TLB_Write (TLBHI_INVALID i) TLBLO_INVALID i) s = Ret s' →
  (∀ k e, (k < Z.to_nat i)%nat → tlb s !! k = Some e → e = (TLBHI_INVALID (Z.of_nat k), TLBLO_INVALID)) →
  length (tlb s') = 64%nat ∧ ∀ k e, tlb s' !! k = Some e → e = (TLBHI_INVALID (Z.of_nat k), TLBLO_INVALID).
Proof.
  induction n as [|n IH]; intros i s s' Hi Hn Hl Hr Hinv; simpl in Hr; ret_inv.
  - subst. split; [done|]. intros k e Hk. apply Hinv; [|done]. apply lookup_lt_Some in Hk. lia.
  - unfold TLB_Write in E. ret_inv. apply wr_Ret in E0 as [_ ->]. subst.
    eapply (IH (i + 1)); [lia|lia| |done|]; cbn [tlb set_tlb]; [by rewrite length_insert|].
    intros k e Hk. destruct (decide (k = Z.to_nat i)) as [->|Hne].
    + rewrite list_lookup_insert_eq by lia. intros [= <-]. by rewrite Z2Nat.id by lia.
    + rewrite list_lookup_insert_ne by done. apply Hinv. lia.
Qed.

Lemma activate_flushes {F} (s s' : vms F) write va : as_activate false s = Ret s' → length (tlb s) = 64%nat → 0 ≤ va < USERTOP →
  translate write va s' = inr (if write then VM_FAULT_WRITE else VM_FAULT_READ).
Proof.
  unfold as_activate. intros Hr Hl Hva. ret_inv. subst. unfold translate. cbn [tlb set_cpu_spl].
  assert (Hs : tlb a0 = tlb s).
  { unfold vmstats_inc in E0. cbn [cpu_spl set_cpu_spl] in E0. rewrite bool_decide_eq_true_2 in E0 by done. unfold _vmstats_inc in E0. ret_inv. by subst. }
  destruct (flush_loop (Z.to_nat NUM_TLB) 0 a0 a) as [Hl' Ha]; [done|done|by rewrite Hs|done|lia|].
  by rewrite flushed_find.
Qed.

(** [C34] Address spaces are not kept apart.  as_activate flushes the TLB, so that every user address faults
    again, when its argument is not the current address space; but every caller sets
    curthread->t_vmspace first and passes that, and then nothing is flushed: whatever byte a program has
    loaded from an address, the next program to be loaded, whichever file it comes from and
    whatever its segments, loads the same byte of the other's page from that
    address, without a fault. *)
Theorem activate_leaks_pages {F} `{!Frames F} exeA exeB nomem km A va b v (s s1 s2 : vms F) r B s3 :
  ustep exeA A (ULoad va) s = Ret (Some b, s1) →
  as_activate true s1 = Ret s2 → load_program nomem km exeB v s2 = Ret (r, B, s3) →
  ustep exeB B (ULoad va) s3 = Ret (Some b, s3) ∧
  (∀ s2', as_activate false s1 = Ret s2' → length (tlb s1) = 64%nat → 0 ≤ va < USERTOP → translate false va s2' = inr VM_FAULT_READ).
Proof.
  intros Ha Hact Hl. split; [|intros s2' H1 H2 H3; by apply (activate_flushes s1)].
  unfold ustep in Ha. ret_inv. destruct a as [[pa|] s1']; ret_inv; [|done]. subst. apply user_access_hit in E.
  apply load_program_mmu in Hl. unfold as_activate in Hact. ret_inv. subst.
  assert (Hm : mmu s3 = mmu s1) by done. unfold ustep, user_access. cbn [op_va op_write] in *. rewrite (translate_mmu false va s1 s3 Hm), E. ostep.
  by injection Hm as _ ->.
Qed.

(** cat writes to its stack and reads it back; then another program is started. *)
Definition after_step (o : uop) (s : vms pool) : vms pool :=
  match ustep cat_exe cat_loaded.1 o s with Ret (_, s) => s | _ => idle_vm 0 end.
Definition cat_wrote : vms pool := after_step (UStore 0x7ffffffc 42) cat_loaded.2.
Definition cat_read : vms pool := after_step (ULoad 0x7ffffffc) cat_wrote.
Definition cat_activated : vms pool := set_cpu_spl (cpu_spl cat_read) (set_cpu_spl SPL_HIGH cat_read).
Definition next_loaded : result (Z * Z) * addrspace * vms pool :=
  match load_program no_fail any_size cat_exe 8 cat_activated with Ret x => x | _ => (inl 0, create_space, idle_vm 0) end.

Lemma activate_leaks_pages_witness :
  ustep cat_exe cat_loaded.1 (ULoad 0x7ffffffc) cat_wrote = Ret (Some 42, cat_read) ∧ as_activate true cat_read = Ret cat_activated ∧
  load_program no_fail any_size cat_exe 8 cat_activated = Ret (next_loaded.1.1, next_loaded.1.2, next_loaded.2) ∧
  ustep cat_exe next_loaded.1.2 (ULoad 0x7ffffffc) next_loaded.2 = Ret (Some 42, next_loaded.2).
Proof.
  assert (H1 : ustep cat_exe cat_loaded.1 (ULoad 0x7ffffffc) cat_wrote = Ret (Some 42, cat_read)) by (vm_compute; reflexivity).
  assert (H2 : as_activate true cat_read = Ret cat_activated) by reflexivity.
  assert (H3 : load_program no_fail any_size cat_exe 8 cat_activated = Ret (next_loaded.1.1, next_loaded.1.2, next_loaded.2)) by (vm_compute; reflexivity).
  split; [exact H1|]. split; [exact H2|]. split; [exact H3|].
  exact (proj1 (activate_leaks_pages cat_exe cat_exe no_fail any_size cat_loaded.1 0x7ffffffc 42 8 cat_wrote cat_read cat_activated
    next_loaded.1.1 next_loaded.1.2 next_loaded.2 H1 H2 H3)).
Defined.

(** as_copy does not copy: the pages of the copy are marked as in memory but
    have no frames, so that the first access of a forked child uses a frame
    number that was never set. A page whose frame could not be allocated is left
    in the same state, and the next access to it does the same. *)
Example copied_pages_have_no_frames :
  ('(r, s) ← as_copy no_fail any_size true true true true cat_loaded.1 cat_loaded.2;
   match r with inr child => user_access cat_exe child 2 false 0x400000 s | inl _ => Ret (None, s) end) = Wild ∧
  (let '(a, s) := cat_loaded in
   let s := set_frames (0, 0) s in
   '(r1, s) ← user_access cat_exe a 2 false 0x400000 s;
   match r1 with None => user_access cat_exe a 2 false 0x400000 s | Some _ => Ret (r1, s) end) = Wild.
Proof. vm_compute. split; reflexivity. Qed.

(** load_elf takes the file offsets from the headers numbered 1 and 2: with the
    code and the data segment in headers 0 and 1 the data segment gets none. *)
Example offsets_by_header_number :
  ('(r, a, s) ← load_program no_fail any_size (file_of (cat_header 84 2)) 7 (idle_vm 0x200000);
   user_access (file_of (cat_header 84 2)) a 2 false 0x10000000 s) = Wild.
Proof. vm_compute. reflexivity. Qed.
