(* ===== verification/Usermode.v ===== *)
(** * Entering user mode: the arguments of a program

    The argument passing of runprogram (kern/userprog/runprogram.c) and of execv
    (kern/syscalls/file_syscall.c), and the first trap frame of a program, by
    md_usermode (kern/arch/mips/mips/trap.c). [present] tells which user
    addresses are accessible. *)

From S2P Require Import Prelude KHeap KHeapSpec Coremap Uio.

Definition CST_IRQMASK : Z := 0xff00.
Definition CST_IEp : Z := 4.
Definition CST_KUp : Z := 8.

(** struct trapframe; [tf_rest] are the registers that the kernel only saves and
    restores. *)
Record trapframe := Trapframe {
  tf_vaddr : Z; tf_status : Z; tf_cause : Z; tf_v0 : Z;
  tf_a0 : Z; tf_a1 : Z; tf_a2 : Z; tf_a3 : Z; tf_sp : Z; tf_epc : Z; tf_rest : list Z
}.

Definition md_usermode (argc argv stack entry : Z) : trapframe :=
  Trapframe 0 (Z.lor (Z.lor CST_IRQMASK CST_IEp) CST_KUp) 0 0 argc argv 0 0 stack entry (replicate 27 0).

(** An argument is the list of its bytes without the terminator. *)
Definition calc_align_length (arg : list Z) : Z :=
  let argvlen := len arg + 1 in
  let paddinglen := 4 - argvlen mod 4 in
  argvlen + paddinglen.

(** A word in memory. *)
Definition word_be (x : Z) : list Z := [x / 2 ^ 24 mod 256; x / 2 ^ 16 mod 256; x / 2 ^ 8 mod 256; x mod 256].
Definition word_at (m : memory) (a : Z) : Z :=
  peek m a * 2 ^ 24 + peek m (a + 1) * 2 ^ 16 + peek m (a + 2) * 2 ^ 8 + peek m (a + 3).

Section args.
Context (present : Z → bool).

(** One turn of the loop that copies the strings out, from the last to the first;
    [argv] becomes the array of user addresses. An error is only printed. *)
Definition push_string (args : list (list Z)) (i : Z) (st : memory * Z * list Z) : outcome (memory * Z * list Z) :=
  let '(m, stackptr, argv) := st in
  let j := len args - (i + 1) in
  arg ← rd args j;
  let stackptr := u32 (stackptr - calc_align_length arg) in
  '(_, m, _) ← copyoutstr present m (arg ++ [0]) stackptr (len arg + 1);
  argv ← wr argv j stackptr;
  Ret (m, stackptr, argv).

(** One turn of the loop that copies the array out. *)
Definition push_pointer (argc : Z) (argv : list Z) (i : Z) (st : memory * Z) : outcome (memory * Z) :=
  let '(m, stackptr) := st in
  let j := argc - i in
  let stackptr := u32 (stackptr - 4) in
  p ← rd argv j;
  let '(_, m) := copyout present m (word_be p) stackptr in
  Ret (m, stackptr).

(** [argv]: the array of kernel pointers, with room for the last null pointer. *)
Definition pass_args (args : list (list Z)) (argv : list Z) (m : memory) (stackptr : Z) : outcome (memory * Z) :=
  let argc := len args in
  '(m, stackptr, argv) ← for_each (Z.to_nat argc) 0 (push_string args) (m, stackptr, argv);
  argv ← wr argv argc 0;
  for_each (Z.to_nat (argc + 1)) 0 (push_pointer argc argv) (m, stackptr).

End args.

(** ** The layout *)

(** The bytes taken by the arguments from the [j]th on. *)
Definition room (args : list (list Z)) (j : nat) : Z := foldr (λ a n, calc_align_length a + n) 0 (drop j args).

Definition nonzero_bytes (l : list Z) : Prop := Forall (λ b, b ≠ 0) l.

Lemma align_length arg : calc_align_length arg mod 4 = 0 ∧ len arg + 2 ≤ calc_align_length arg ≤ len arg + 5.
Proof. unfold calc_align_length. cbv zeta. Z.to_euclidean_division_equations. lia. Qed.

Lemma room_step args j arg : args !! j = Some arg → room args j = calc_align_length arg + room args (S j).
Proof. intros H. unfold room. by rewrite (drop_S _ _ _ H). Qed.

Lemma room_end args : room args (length args) = 0.
Proof. unfold room. by rewrite drop_all. Qed.

Lemma room_mono args i j : (i ≤ j)%nat → 0 ≤ room args j ≤ room args i.
Proof.
  intros Hij. assert (Hpos : ∀ l, 0 ≤ foldr (λ a n, calc_align_length a + n) 0 l).
  { induction l as [|a l IH]; simpl; [lia|]. pose proof (align_length a). lia. }
  split; [apply Hpos|]. unfold room. replace j with (i + (j - i))%nat by lia. rewrite <- drop_drop. generalize (drop i args) as l. generalize (j - i)%nat as k.
  intros k l. revert k. induction l as [|a l IH]; intros [|k]; simpl; try lia. pose proof (align_length a). specialize (IH k). lia.
Qed.

Lemma room_mod args j : room args j mod 4 = 0.
Proof.
  unfold room. generalize (drop j args) as l. induction l as [|a l IH]; simpl; [done|]. pose proof (align_length a) as [Ha _].
  by rewrite Zplus_mod, Ha, IH.
Qed.

Section layout_lemmas.
Context (present : Z → bool).

Lemma copystr_out_ok l : ∀ n m a, nonzero_bytes l → (S (length l) ≤ n)%nat → (∀ x, a ≤ x < a + len l + 1 → present x = true) →
  copystr_out present n m (l ++ [0]) a = Ret (Some 0, store m a (l ++ [0]), len l + 1).
Proof.
  induction l as [|b l IH]; intros [|n] m a Hnz Hn Hp; simpl in *; try lia.
  - rewrite Hp by lia. done.
  - apply Forall_cons in Hnz as [Hb Hnz]. rewrite Hp by lia. rewrite bool_decide_eq_false_2 by done. rewrite IH by (done || lia || (intros; apply Hp; lia)).
    ostep. do 2 f_equal. lia.
Qed.

Lemma copyoutstr_ok l m a : nonzero_bytes l → 0 ≤ a → a + len l + 1 ≤ USERTOP → (∀ x, a ≤ x < a + len l + 1 → present x = true) →
  copyoutstr present m (l ++ [0]) a (len l + 1) = Ret (0, store m a (l ++ [0]), len l + 1).
Proof.
  intros Hnz Ha Ht Hp. unfold USERTOP, MIPS_KSEG0 in Ht. unfold copyoutstr. rewrite copycheck_ok by (unfold word; lia). unfold USERTOP, MIPS_KSEG0.
  rewrite !decide_True by lia. rewrite Z.min_id, copystr_out_ok by (done || lia). ostep. done.
Qed.

Lemma reach_ok n : ∀ a, (∀ x, a ≤ x < a + Z.of_nat n → present x = true) → reach present a n = n.
Proof. induction n as [|n IH]; intros a Hp; simpl; [done|]. rewrite Hp by lia. rewrite IH; [done|]. intros x Hx. apply Hp. lia. Qed.

Lemma copyout_word_ok p m a : 0 ≤ a → a + 4 ≤ USERTOP → (∀ x, a ≤ x < a + 4 → present x = true) →
  copyout present m (word_be p) a = (0, store m a (word_be p)).
Proof.
  intros Ha Ht Hp. unfold USERTOP, MIPS_KSEG0 in Ht. unfold copyout. change (len (word_be p)) with 4.
  rewrite copycheck_ok by (unfold word; lia). unfold USERTOP, MIPS_KSEG0. rewrite !decide_True by lia.
  rewrite bool_decide_eq_false_2 by lia. change (length (word_be p)) with 4%nat. rewrite reach_ok by done. done.
Qed.

Lemma word_store m a p : 0 ≤ p < 2 ^ 32 → word_at (store m a (word_be p)) a = p.
Proof.
  intros Hp. unfold word_at, word_be. cbn [store]. rewrite !peek_insert. repeat (case_decide; try lia). Z.to_euclidean_division_equations. lia.
Qed.

Lemma word_store_other m a b l : b + 4 ≤ a ∨ a + len l ≤ b → word_at (store m a l) b = word_at m b.
Proof. intros H. unfold word_at. by rewrite !peek_store_outside by lia. Qed.

(** The user address of the [j]th argument, and the stack region used. *)
Definition arg_addr (args : list (list Z)) (top : Z) (j : nat) : Z := top - room args j.
Definition frame_size (args : list (list Z)) : Z := room args 0 + 4 * (len args + 1).

Section layout.
Context (args : list (list Z)) (top : Z).
Context (Hnz : Forall nonzero_bytes args) (Htop : top ≤ USERTOP) (Hal : top mod 4 = 0) (Hfit : frame_size args ≤ top).
Context (Hpres : ∀ x, top - frame_size args ≤ x < top → present x = true).

Definition string_at (m : memory) (j : nat) : Prop :=
  ∀ arg, args !! j = Some arg → load m (arg_addr args top j) (S (length arg)) = arg ++ [0].

(** After the strings from [j] on have been copied. *)
Definition strings_done (m0 m : memory) (argv : list Z) (j : nat) : Prop :=
  (∀ k, (j ≤ k < length args)%nat → string_at m k ∧ argv !! k = Some (arg_addr args top k)) ∧
  (∀ x, x < arg_addr args top j ∨ top ≤ x → peek m x = peek m0 x).

Lemma string_bounds j arg : args !! j = Some arg →
  top - room args 0 ≤ arg_addr args top j ∧ arg_addr args top j + len arg + 1 < arg_addr args top (S j) ≤ top ∧ 0 ≤ arg_addr args top j.
Proof.
  intros H. unfold arg_addr. pose proof (room_step args j arg H). pose proof (align_length arg). pose proof (room_mono args 0 j ltac:(lia)).
  pose proof (room_mono args (S j) (S j) ltac:(lia)). unfold frame_size in Hfit. lia.
Qed.

Lemma strings_loop m argv : length argv = S (length args) →
  ∃ m' argv', for_each (Z.to_nat (len args)) 0 (push_string present args) (m, top, argv) = Ret (m', arg_addr args top 0, argv') ∧
    length argv' = S (length args) ∧ strings_done m m' argv' 0.
Proof.
  intros Hargv. destruct (for_each_inv (λ i st, ∃ m' argv', st = (m', arg_addr args top (Z.to_nat (len args - i)), argv') ∧
    length argv' = S (length args) ∧ strings_done m m' argv' (Z.to_nat (len args - i))) (push_string present args) (Z.to_nat (len args)) 0 (m, top, argv))
    as (st & Hrun & m' & argv' & -> & Hl & Hd).
  - exists m, argv. rewrite Z.sub_0_r, Nat2Z.id. unfold arg_addr. rewrite room_end, Z.sub_0_r. split; [done|]. split; [done|].
    split; [intros k Hk; lia|done].
  - intros i ? Hi (m1 & argv1 & -> & Hl & Hs & Ho). rewrite Z2Nat.id in Hi by lia. unfold push_string.
    set (j := Z.to_nat (len args - (i + 1))). assert (Hj : Z.to_nat (len args - i) = S j) by lia. rewrite Hj in *.
    destruct (rd_in_range args (len args - (i + 1))) as (arg & -> & Harg); [lia|]. ostep. fold j in Harg.
    destruct (string_bounds j arg Harg) as (H1 & [H2 H2'] & H3).
    assert (Hsp : u32 (arg_addr args top (S j) - calc_align_length arg) = arg_addr args top j).
    { unfold arg_addr in *. pose proof (room_step args j arg Harg). unfold USERTOP, MIPS_KSEG0 in Htop. rewrite u32_small; lia. }
    rewrite Hsp. rewrite copyoutstr_ok; [|by eapply (Forall_lookup_1 _ _ _ _ Hnz)|lia|lia|intros x Hx; apply Hpres; unfold frame_size; lia]. ostep.
    rewrite wr_in_range by lia. ostep. fold j. eexists. split; [done|]. exists (store m1 (arg_addr args top j) (arg ++ [0])), (<[j := arg_addr args top j]> argv1).
    split; [done|]. split; [by rewrite length_insert|]. split.
    + intros k Hk. destruct (decide (k = j)) as [->|Hne].
      * split; [|rewrite list_lookup_insert_eq by lia; done]. intros a Ha. rewrite Harg in Ha. injection Ha as <-.
        replace (S (length arg)) with (length (arg ++ [0])) by (rewrite length_app; simpl; lia). apply load_store.
      * destruct (Hs k) as [Hk1 Hk2]; [lia|]. split; [|by rewrite list_lookup_insert_ne by done]. intros a Ha. rewrite <- (Hk1 a Ha). apply load_ext.
        intros x Hx. apply peek_store_outside. rewrite length_app. simpl. pose proof (room_mono args (S j) k ltac:(lia)). unfold arg_addr in *. lia.
    + intros x Hx. rewrite peek_store_outside by (rewrite length_app; simpl; lia). apply Ho. lia.
  - rewrite Z2Nat.id in Hd by lia. rewrite Hrun. rewrite Z.add_0_l, Z2Nat.id, Z.sub_diag in * by lia. by exists m', argv'.
Qed.

(** The place of the [j]th word of the array. *)
Definition slot_addr (j : Z) : Z := arg_addr args top 0 - 4 * (len args + 1 - j).

Lemma pointers_loop m argv : length argv = S (length args) → Forall (λ p, 0 ≤ p < 2 ^ 32) argv →
  ∃ m', for_each (Z.to_nat (len args + 1)) 0 (push_pointer present (len args) argv) (m, arg_addr args top 0) = Ret (m', slot_addr 0) ∧
    (∀ j p, argv !! j = Some p → word_at m' (slot_addr (Z.of_nat j)) = p) ∧
    (∀ x, x < slot_addr 0 ∨ arg_addr args top 0 ≤ x → peek m' x = peek m x).
Proof.
  intros Hargv Hwords. assert (Hlow : 0 ≤ slot_addr 0) by (unfold slot_addr, arg_addr, frame_size in *; lia).
  destruct (for_each_inv (λ i st, ∃ m', st = (m', slot_addr (len args + 1 - i)) ∧
    (∀ j p, len args + 1 - i ≤ Z.of_nat j → argv !! j = Some p → word_at m' (slot_addr (Z.of_nat j)) = p) ∧
    (∀ x, x < slot_addr (len args + 1 - i) ∨ arg_addr args top 0 ≤ x → peek m' x = peek m x))
    (push_pointer present (len args) argv) (Z.to_nat (len args + 1)) 0 (m, arg_addr args top 0)) as (st & Hrun & m' & -> & Hw & Ho).
  - exists m. split; [do 2 f_equal; unfold slot_addr; lia|]. split; [|done]. intros j p Hj Hp. apply lookup_lt_Some in Hp. lia.
  - intros i ? Hi (m1 & -> & Hw & Ho). rewrite Z2Nat.id in Hi by lia. unfold push_pointer.
    destruct (rd_in_range argv (len args - i)) as (p & -> & Hp); [lia|].
    assert (Hsp : u32 (slot_addr (len args + 1 - i) - 4) = slot_addr (len args + 1 - (i + 1))).
    { pose proof (room_mono args 0 0 ltac:(lia)). unfold slot_addr, arg_addr, USERTOP, MIPS_KSEG0 in *. rewrite u32_small; lia. }
    pose proof (room_mono args 0 0 ltac:(lia)) as Hr0.
    rewrite Hsp. ostep. rewrite copyout_word_ok.
    2: unfold slot_addr in *; lia. 2: unfold slot_addr, arg_addr in *; lia. 2: intros x Hx; apply Hpres; unfold slot_addr, arg_addr, frame_size in *; lia.
    eexists. split; [done|]. eexists. split; [done|]. split.
    + intros j q Hj Hq. destruct (decide (Z.of_nat j = len args - i)) as [He|Hne].
      * replace (len args + 1 - (i + 1)) with (Z.of_nat j) by lia. rewrite <- He, Nat2Z.id in Hp. rewrite Hq in Hp. injection Hp as <-.
        apply word_store. by eapply (Forall_lookup_1 _ _ _ _ Hwords).
      * rewrite word_store_other by (simpl; unfold slot_addr; lia). apply Hw; [lia|done].
    + intros x Hx. rewrite peek_store_outside by (simpl; unfold slot_addr in *; lia). apply Ho. unfold slot_addr in *. lia.
  - rewrite Z2Nat.id in * by lia. rewrite Hrun. replace (len args + 1 - (0 + (len args + 1))) with 0 in * by lia. exists m'. split; [done|]. split; [|done].
    intros j p Hp. apply Hw; [lia|done].
Qed.

Lemma pass_args_ok m argv : length argv = S (length args) → Forall (λ p, 0 ≤ p < 2 ^ 32) argv →
  ∃ m', pass_args present args argv m top = Ret (m', top - frame_size args) ∧
    (∀ j arg, args !! j = Some arg →
       word_at m' (top - frame_size args + 4 * Z.of_nat j) = arg_addr args top j ∧
       load m' (arg_addr args top j) (S (length arg)) = arg ++ [0]) ∧
    word_at m' (top - frame_size args + 4 * len args) = 0 ∧
    (∀ x, x < top - frame_size args ∨ top ≤ x → peek m' x = peek m x).
Proof.
  intros Hargv Hwords. unfold pass_args. destruct (strings_loop m argv Hargv) as (m1 & argv1 & -> & Hl1 & Hs & Ho). ostep.
  rewrite wr_in_range by lia. ostep. rewrite Nat2Z.id.
  assert (Hlook : ∀ j arg, args !! j = Some arg → <[length args := 0]> argv1 !! j = Some (arg_addr args top j)).
  { intros j arg Hj. apply lookup_lt_Some in Hj. rewrite list_lookup_insert_ne by lia. apply Hs. lia. }
  assert (Hw1 : Forall (λ p, 0 ≤ p < 2 ^ 32) (<[length args := 0]> argv1)).
  { apply Forall_lookup_2. intros j p Hj. destruct (decide (j = length args)) as [->|Hne].
    - rewrite list_lookup_insert_eq in Hj by lia. injection Hj as <-. lia.
    - destruct (lookup_lt_is_Some_2 args j) as [arg Harg]. { apply lookup_lt_Some in Hj. rewrite length_insert in Hj. lia. }
      rewrite (Hlook j arg Harg) in Hj. injection Hj as <-. destruct (string_bounds j arg Harg) as (_ & ? & ?).
      unfold USERTOP, MIPS_KSEG0 in Htop. lia. }
  destruct (pointers_loop m1 (<[length args := 0]> argv1)) as (m2 & -> & Hp & Ho2); [by rewrite length_insert|done|].
  assert (Hslot : ∀ j, slot_addr j = top - frame_size args + 4 * j) by (intros j; unfold slot_addr, arg_addr, frame_size; lia).
  exists m2. split; [do 2 f_equal; rewrite Hslot; lia|]. split; [|split].
  - intros j arg Hj. rewrite <- Hslot. split; [by apply Hp, (Hlook j arg)|]. pose proof (lookup_lt_Some _ _ _ Hj). destruct (Hs j) as [Hstr _]; [lia|].
    rewrite <- (Hstr arg Hj). destruct (string_bounds j arg Hj) as (Hb & _). apply load_ext. intros x Hx. apply Ho2. right. unfold arg_addr at 1. lia.
  - rewrite <- Hslot. apply Hp. rewrite list_lookup_insert_eq by lia. done.
  - intros x Hx. pose proof (room_mono args 0 0 ltac:(lia)). rewrite Ho2 by (rewrite Hslot; unfold arg_addr, frame_size in *; lia). apply Ho.
    unfold arg_addr, frame_size in *. lia.
Qed.
End layout.
End layout_lemmas.

(** [C18] The arguments arrive: when the stack has room for them, the new program
    finds at its stack pointer, which is also the argument vector, the addresses
    of its arguments and a null pointer, at each address the bytes of the
    argument with their terminator, everything word-aligned; no other memory
    changes. *)
Theorem args_arrive present args argv m top : Forall nonzero_bytes args → top ≤ USERTOP → top mod 4 = 0 → frame_size args ≤ top →
  (∀ x, top - frame_size args ≤ x < top → present x = true) → length argv = S (length args) → Forall (λ p, 0 ≤ p < 2 ^ 32) argv →
  ∃ m', pass_args present args argv m top = Ret (m', top - frame_size args) ∧ (top - frame_size args) mod 4 = 0 ∧
    (∀ j arg, args !! j = Some arg →
       let p := word_at m' (top - frame_size args + 4 * Z.of_nat j) in
       p mod 4 = 0 ∧ top - frame_size args < p < top ∧ load m' p (S (length arg)) = arg ++ [0]) ∧
    word_at m' (top - frame_size args + 4 * len args) = 0 ∧
    (∀ x, x < top - frame_size args ∨ top ≤ x → peek m' x = peek m x).
Proof.
  intros Hnz Htop Hal Hfit Hpres Hargv Hw. destruct (pass_args_ok present args top Hnz Htop Hfit Hpres m argv Hargv Hw) as (m' & Hrun & Ha & Hz & Ho).
  exists m'. split; [done|]. pose proof (room_mod args 0) as Hr. split; [unfold frame_size; Z.to_euclidean_division_equations; lia|]. split; [|done].
  intros j arg Hj. destruct (Ha j arg Hj) as [-> Hl]. pose proof (room_mod args j) as Hrj. destruct (string_bounds args top Hfit j arg Hj) as (H1 & H2 & _).
  split; [unfold arg_addr; Z.to_euclidean_division_equations; lia|]. split; [unfold frame_size, arg_addr in *; lia|done].
Qed.

(** cat a bc *)
Definition cat_args : list (list Z) := [[99; 97; 116]; [97]; [98; 99]].

Lemma args_arrive_witness :
  ∃ m', pass_args (λ a, bool_decide (0x7fff0000 ≤ a < USERTOP)) cat_args [0x80010000; 0x80010010; 0x80010020; 7] ∅ USERTOP = Ret (m', USERTOP - 32) ∧
    load m' (word_at m' (USERTOP - 32 + 8)) 3 = [98; 99; 0].
Proof.
  destruct (args_arrive (λ a, bool_decide (0x7fff0000 ≤ a < USERTOP)) cat_args [0x80010000; 0x80010010; 0x80010020; 7] ∅ USERTOP)
    as (m' & Hrun & _ & Ha & _); [repeat constructor; done|done|done|done| |done|repeat constructor; done|].
  - intros x Hx. apply bool_decide_eq_true_2. change (frame_size cat_args) with 32 in Hx. unfold USERTOP, MIPS_KSEG0 in *. lia.
  - exists m'. split; [exact Hrun|]. destruct (Ha 2%nat [98; 99] eq_refl) as (_ & _ & Hl). exact Hl.
Defined.
