(* ===== verification/Trap.v ===== *)
(** * Exceptions and system calls: kern/arch/mips/mips/trap.c and
    kern/arch/mips/mips/syscall.c

    The kernel behind the two handlers is an interface, [Kernel]: the interrupt
    level, the interrupt handler, vm_fault, the recovery address of copyin and
    copyout, and the system calls. [process_call] is the switch of mips_syscall
    on the calls of Process.v. Not modelled are the tests that the trap frame
    lies on the stack of the thread. *)

From S2P Require Import Prelude CArray KHeap KHeapSpec Coremap Uio AddrSpace Process Usermode.

Definition EX_IRQ : Z := 0.
Definition EX_MOD : Z := 1.
Definition EX_TLBL : Z := 2.
Definition EX_TLBS : Z := 3.
Definition EX_IBE : Z := 6.
Definition EX_DBE : Z := 7.
Definition EX_SYS : Z := 8.
Definition NTRAPCODES : Z := 13.
Definition CCA_CODE : Z := 0x3c.
Definition CCA_CODESHIFT : Z := 2.
Definition ENOSYS : Z := 23.

Definition SYS__exit : Z := 0.
Definition SYS_execv : Z := 1.
Definition SYS_fork : Z := 2.
Definition SYS_waitpid : Z := 3.
Definition SYS_open : Z := 4.
Definition SYS_read : Z := 5.
Definition SYS_write : Z := 6.
Definition SYS_close : Z := 7.
Definition SYS_reboot : Z := 8.
Definition SYS_getpid : Z := 11.

(** The calls with their arguments. *)
Inductive call :=
| CReboot (code : Z)
| CWrite (fd buf nbytes : Z)
| CRead (fd buf nbytes : Z)
| CExit (code : Z)
| COpen (filename flags mode : Z)
| CClose (fd : Z)
| CWaitpid (pid status options : Z)
| CGetpid
| CFork (tf : trapframe)
| CExecv (progname argv : Z).

(** How a call ends: with an error number and a return value; not in this trap
    frame (exit, execv); or later, when the thread is woken up. *)
Inductive callend := Back (err retval : Z) | Away | Asleep.

Class Kernel (K : Type) := {
  k_spl : K → Z;
  k_set_spl : Z → K → K;
  k_interrupt : Z → K → outcome K;
  k_vm_fault : Z → Z → K → outcome (fres * K);
  k_badfault : K → option Z;
  k_call : call → K → outcome (callend * K)
}.

Section trap.
Context {K : Type} `{!Kernel K}.
Implicit Types (k : K) (tf : trapframe).

(** The switch of mips_syscall. *)
Definition decode tf : option call :=
  let n := s32 (tf_v0 tf) in
  if bool_decide (n = SYS_reboot) then Some (CReboot (s32 (tf_a0 tf)))
  else if bool_decide (n = SYS_write) then Some (CWrite (s32 (tf_a0 tf)) (tf_a1 tf) (tf_a2 tf))
  else if bool_decide (n = SYS_read) then Some (CRead (s32 (tf_a0 tf)) (tf_a1 tf) (tf_a2 tf))
  else if bool_decide (n = SYS__exit) then Some (CExit (s32 (tf_a0 tf)))
  else if bool_decide (n = SYS_open) then Some (COpen (tf_a0 tf) (s32 (tf_a1 tf)) (s32 (tf_a2 tf)))
  else if bool_decide (n = SYS_close) then Some (CClose (s32 (tf_a0 tf)))
  else if bool_decide (n = SYS_waitpid) then Some (CWaitpid (s32 (tf_a0 tf)) (tf_a1 tf) (s32 (tf_a2 tf)))
  else if bool_decide (n = SYS_getpid) then Some CGetpid
  else if bool_decide (n = SYS_fork) then Some (CFork tf)
  else if bool_decide (n = SYS_execv) then Some (CExecv (tf_a0 tf) (tf_a1 tf))
  else None.

(** Registers after the call. *)
Definition set_result (v0 a3 : Z) tf : trapframe :=
  Trapframe (tf_vaddr tf) (tf_status tf) (tf_cause tf) v0 (tf_a0 tf) (tf_a1 tf) (tf_a2 tf) a3 (tf_sp tf) (u32 (tf_epc tf + 4)) (tf_rest tf).

Definition set_epc (epc : Z) tf : trapframe :=
  Trapframe (tf_vaddr tf) (tf_status tf) (tf_cause tf) (tf_v0 tf) (tf_a0 tf) (tf_a1 tf) (tf_a2 tf) (tf_a3 tf) (tf_sp tf) epc (tf_rest tf).

(** [None]: the thread does not come back to this trap frame, or not now. *)
Definition mips_syscall tf k : outcome (option trapframe * K) :=
  c_assert (bool_decide (k_spl k = 0));;
  '(e, k) ← match decode tf with Some c => k_call c k | None => Ret (Back ENOSYS 0, k) end;
  match e with
  | Back err retval =>
      let tf := if bool_decide (err ≠ 0) then set_result (u32 err) 1 tf else set_result (u32 retval) 0 tf in
      c_assert (bool_decide (k_spl k = 0));;
      Ret (Some tf, k)
  | _ => Ret (None, k)
  end.

(** A fatal fault of a user program. *)
Definition kill_curthread (code : Z) k : outcome (callend * K) :=
  c_assert (bool_decide (code < NTRAPCODES));;
  k_call (CExit code) k.

Definition trap_code tf : Z := Z.shiftr (Z.land (tf_cause tf) CCA_CODE) CCA_CODESHIFT.
Definition from_kernel tf : bool := bool_decide (Z.land (tf_status tf) CST_KUp = 0).

(** The fault type of a TLB exception. *)
Definition tlb_fault (code : Z) : option Z :=
  if bool_decide (code = EX_MOD) then Some VM_FAULT_READONLY
  else if bool_decide (code = EX_TLBL) then Some VM_FAULT_READ
  else if bool_decide (code = EX_TLBS) then Some VM_FAULT_WRITE
  else None.

(** The label done. *)
Definition trap_done (savespl : Z) (r : option trapframe) k : outcome (option trapframe * K) :=
  match r with Some tf => Ret (Some tf, k_set_spl savespl (k_set_spl SPL_HIGH k)) | None => Ret (None, k) end.

(** From the point on where the fault is fatal. *)
Definition fatal_fault (savespl : Z) tf k : outcome (option trapframe * K) :=
  if negb (from_kernel tf) then
    '(e, k) ← kill_curthread (trap_code tf) k;
    trap_done savespl (match e with Back _ _ => Some tf | _ => None end) k
  else match k_badfault k with
       | Some f => trap_done savespl (Some (set_epc f tf)) k
       | None => Panic
       end.

Definition mips_trap tf k : outcome (option trapframe * K) :=
  let savespl := k_spl k in
  let k := k_set_spl SPL_HIGH k in
  let code := trap_code tf in
  c_assert (bool_decide (code < NTRAPCODES));;
  if bool_decide (code = EX_IRQ) then k ← k_interrupt (tf_cause tf) k; trap_done savespl (Some tf) k
  else
    let k := k_set_spl savespl k in
    if bool_decide (code = EX_SYS) then
      c_assert (bool_decide (k_spl k = 0));;
      '(r, k) ← mips_syscall tf k;
      trap_done savespl r k
    else match tlb_fault code with
         | Some t =>
             '(r, k) ← k_vm_fault t (tf_vaddr tf) k;
             match r with
             | Returns e => if bool_decide (e = 0) then trap_done savespl (Some tf) k else fatal_fault savespl tf k
             | Killed => Ret (None, k)
             end
         | None =>
             if bool_decide (code = EX_IBE) || bool_decide (code = EX_DBE) then Panic
             else fatal_fault savespl tf k
         end.

(** ** Where a trap leads *)

(** The kernel when vm_fault or a system call begins. *)
Definition at_entry k : K := k_set_spl (k_spl k) (k_set_spl SPL_HIGH k).

(** The kernel when the trap returns. *)
Definition at_return k k' : K := k_set_spl (k_spl k) (k_set_spl SPL_HIGH k').

(** A handler that does not return stops the trap in the same way. *)
Definition stops {A B} (o : outcome A) (r : outcome B) : Prop :=
  match o with Ret _ => False | Panic => r = Panic | Wild => r = Wild | Spin => r = Spin end.

(** [unresolved tf k k']: an exception that is not an interrupt, a system call or a bus error, and
    that vm_fault, if it is a TLB exception, answers with an error; the kernel is then [k']. *)
Inductive unresolved tf k : K → Prop :=
| unresolved_tlb t e k' : tlb_fault (trap_code tf) = Some t → k_vm_fault t (tf_vaddr tf) (at_entry k) = Ret (Returns e, k') →
    e ≠ 0 → unresolved tf k k'
| unresolved_other : tlb_fault (trap_code tf) = None → trap_code tf < NTRAPCODES →
    trap_code tf ∉ [EX_IRQ; EX_SYS; EX_IBE; EX_DBE] → unresolved tf k (at_entry k).

(** The classes of exceptions, each with the way the trap ends: [Ret (Some tf', k')] when it returns to
    the frame [tf'], [Ret (None, k')] when the thread does not return to its frame, or not now. *)
Inductive trap_result tf k : outcome (option trapframe * K) → Prop :=
| tr_interrupt k' : trap_code tf = EX_IRQ → k_interrupt (tf_cause tf) (k_set_spl SPL_HIGH k) = Ret k' →
    trap_result tf k (Ret (Some tf, at_return k k'))
| tr_unknown_call : trap_code tf = EX_SYS → k_spl k = 0 → decode tf = None →
    trap_result tf k (Ret (Some (set_result ENOSYS 1 tf), at_return k (at_entry k)))
| tr_call_done c retval k' : trap_code tf = EX_SYS → k_spl k = 0 → decode tf = Some c →
    k_call c (at_entry k) = Ret (Back 0 retval, k') → k_spl k' = 0 →
    trap_result tf k (Ret (Some (set_result (u32 retval) 0 tf), at_return k k'))
| tr_call_error c err retval k' : trap_code tf = EX_SYS → k_spl k = 0 → decode tf = Some c →
    k_call c (at_entry k) = Ret (Back err retval, k') → err ≠ 0 → k_spl k' = 0 →
    trap_result tf k (Ret (Some (set_result (u32 err) 1 tf), at_return k k'))
| tr_call_away c e k' : trap_code tf = EX_SYS → k_spl k = 0 → decode tf = Some c →
    k_call c (at_entry k) = Ret (e, k') → e = Away ∨ e = Asleep → trap_result tf k (Ret (None, k'))
| tr_fault_resolved t k' : tlb_fault (trap_code tf) = Some t → k_vm_fault t (tf_vaddr tf) (at_entry k) = Ret (Returns 0, k') →
    trap_result tf k (Ret (Some tf, at_return k k'))
| tr_fault_killed t k' : tlb_fault (trap_code tf) = Some t → k_vm_fault t (tf_vaddr tf) (at_entry k) = Ret (Killed, k') →
    trap_result tf k (Ret (None, k'))
| tr_user_killed k1 e k' : unresolved tf k k1 → from_kernel tf = false → k_call (CExit (trap_code tf)) k1 = Ret (e, k') →
    e = Away ∨ e = Asleep → trap_result tf k (Ret (None, k'))
| tr_user_survives k1 err retval k' : unresolved tf k k1 → from_kernel tf = false →
    k_call (CExit (trap_code tf)) k1 = Ret (Back err retval, k') → trap_result tf k (Ret (Some tf, at_return k k'))
| tr_recovers k1 f : unresolved tf k k1 → from_kernel tf = true → k_badfault k = Some f →
    trap_result tf k (Ret (Some (set_epc f tf), at_return k k1))
(* the kernel's own errors *)
| tr_kernel_fault k1 : unresolved tf k k1 → from_kernel tf = true → k_badfault k = None → trap_result tf k Panic
| tr_bus_error : trap_code tf = EX_IBE ∨ trap_code tf = EX_DBE → trap_result tf k Panic
| tr_bad_code : NTRAPCODES ≤ trap_code tf → trap_result tf k Panic
| tr_call_masked : trap_code tf = EX_SYS → k_spl k ≠ 0 → trap_result tf k Panic
| tr_call_left_masked c err retval k' : trap_code tf = EX_SYS → k_spl k = 0 → decode tf = Some c →
    k_call c (at_entry k) = Ret (Back err retval, k') → k_spl k' ≠ 0 → trap_result tf k Panic
(* a handler that fails *)
| tr_interrupt_fails r : trap_code tf = EX_IRQ → stops (k_interrupt (tf_cause tf) (k_set_spl SPL_HIGH k)) r → trap_result tf k r
| tr_call_fails c r : trap_code tf = EX_SYS → k_spl k = 0 → decode tf = Some c → stops (k_call c (at_entry k)) r → trap_result tf k r
| tr_fault_fails t r : tlb_fault (trap_code tf) = Some t → stops (k_vm_fault t (tf_vaddr tf) (at_entry k)) r → trap_result tf k r
| tr_kill_fails k1 r : unresolved tf k k1 → from_kernel tf = false → stops (k_call (CExit (trap_code tf)) k1) r → trap_result tf k r.

(** What the interface promises of its state. *)
Class KernelLaws : Prop := {
  k_spl_set n k : k_spl (k_set_spl n k) = n;
  k_bad_set n k : k_badfault (k_set_spl n k) = k_badfault k;
  k_vm_fault_bad t a k r k' : k_vm_fault t a k = Ret (r, k') → k_badfault k' = k_badfault k
}.

Context `{!KernelLaws}.

Lemma at_entry_spl k : k_spl (at_entry k) = k_spl k.
Proof. apply k_spl_set. Qed.

Lemma at_entry_bad k : k_badfault (at_entry k) = k_badfault k.
Proof. unfold at_entry. by rewrite !k_bad_set. Qed.

Lemma tlb_fault_code code : match tlb_fault code with
  | Some _ => code < NTRAPCODES ∧ code ≠ EX_IRQ ∧ code ≠ EX_SYS | None => True end.
Proof. unfold tlb_fault, NTRAPCODES, EX_IRQ, EX_SYS, EX_MOD, EX_TLBL, EX_TLBS. repeat case_bool_decide; lia. Qed.

(** The last part of mips_trap. *)
Lemma fatal_fault_ok tf k k1 : trap_code tf < NTRAPCODES → unresolved tf k k1 → trap_result tf k (fatal_fault (k_spl k) tf k1).
Proof.
  intros Hc Hu. assert (Hb : k_badfault k1 = k_badfault k).
  { destruct Hu as [t e k' _ Hvm _|_ _ _]; [by rewrite (k_vm_fault_bad _ _ _ _ _ Hvm), at_entry_bad|apply at_entry_bad]. }
  unfold fatal_fault. destruct (from_kernel tf) eqn:Hk; cbn [negb].
  - rewrite Hb. destruct (k_badfault k) as [f|] eqn:Hbad; [by eapply tr_recovers|by eapply tr_kernel_fault].
  - unfold kill_curthread. rewrite bool_decide_eq_true_2 by done. cbn [c_assert]. ostep.
    destruct (k_call (CExit (trap_code tf)) k1) as [[[err retval| |] k']| | |] eqn:He; ostep.
    4-6: eapply tr_kill_fails; [done..|by rewrite He].
    + by eapply tr_user_survives.
    + by eapply tr_user_killed; [..|left].
    + by eapply tr_user_killed; [..|right].
Qed.

Lemma syscall_result tf k : trap_code tf = EX_SYS → k_spl k = 0 →
  trap_result tf k ('(r, k') ← mips_syscall tf (at_entry k); trap_done (k_spl k) r k').
Proof.
  intros Hc Hs. unfold mips_syscall. rewrite bool_decide_eq_true_2 by (by rewrite at_entry_spl). cbn [c_assert]. ostep.
  destruct (decode tf) as [c|] eqn:Hd.
  - destruct (k_call c (at_entry k)) as [[[err retval| |] k']| | |] eqn:Hk; ostep.
    4-6: eapply tr_call_fails; [done..|by rewrite Hk].
    2: by eapply tr_call_away; [..|left].
    2: by eapply tr_call_away; [..|right].
    destruct (decide (k_spl k' = 0)) as [Hs'|Hs'].
    + rewrite (bool_decide_eq_true_2 (k_spl k' = 0)) by done. cbn [c_assert]. ostep.
      case_bool_decide as He; [by eapply tr_call_error|]. assert (err = 0) as -> by lia. by eapply tr_call_done.
    + rewrite (bool_decide_eq_false_2 (k_spl k' = 0)) by done. by eapply tr_call_left_masked.
  - ostep. rewrite (bool_decide_eq_true_2 (k_spl (at_entry k) = 0)) by (by rewrite at_entry_spl). cbn [c_assert]. ostep.
    by apply tr_unknown_call.
Qed.

Lemma mips_trap_ok tf k : trap_result tf k (mips_trap tf k).
Proof.
  unfold mips_trap. cbv zeta. fold (at_entry k). pose proof (tlb_fault_code (trap_code tf)) as Htc.
  destruct (decide (trap_code tf < NTRAPCODES)) as [Hc|Hc].
  2: { rewrite (bool_decide_eq_false_2 (trap_code tf < NTRAPCODES)) by done. apply tr_bad_code. lia. }
  rewrite (bool_decide_eq_true_2 (trap_code tf < NTRAPCODES)) by done. cbn [c_assert]. ostep.
  case_bool_decide as Hirq.
  { destruct (k_interrupt _ _) as [k'| | |] eqn:He; ostep; [by apply tr_interrupt|eapply tr_interrupt_fails; [done|by rewrite He]..]. }
  case_bool_decide as Hsy.
  { rewrite at_entry_spl. case_bool_decide as Hs; [|by apply tr_call_masked]. cbn [c_assert]. ostep. by apply syscall_result. }
  destruct (tlb_fault (trap_code tf)) as [t|] eqn:Ht.
  - destruct (k_vm_fault t (tf_vaddr tf) (at_entry k)) as [[[e|] k']| | |] eqn:Hvm; ostep.
    3-5: eapply tr_fault_fails; [done|by rewrite Hvm].
    2: by eapply tr_fault_killed.
    case_bool_decide as He; [subst e; by eapply tr_fault_resolved|]. apply fatal_fault_ok; [done|]. by eapply unresolved_tlb.
  - case_bool_decide as Hi; [apply tr_bus_error; by left|]. case_bool_decide as Hd; [apply tr_bus_error; by right|].
    apply fatal_fault_ok; [done|]. apply unresolved_other; [done..|]. set_solver.
Qed.

(** A trap that returns leaves the interrupt level as it was. *)
Lemma trap_result_spl tf k tf' k' : trap_result tf k (Ret (Some tf', k')) → k_spl k' = k_spl k.
Proof.
  assert (Hn : ∀ A (o : outcome A) x, ¬ stops o (Ret (A := option trapframe * K) x)) by (by intros A [] x; simpl; intros ?).
  assert (Hr : ∀ k1, k_spl (at_return k k1) = k_spl k) by (intros k1; apply k_spl_set).
  intros Ht. inversion Ht; subst; try apply Hr; exfalso; by eapply Hn.
Qed.
End trap.

(** ** The calls of Process.v *)

(** [M]: the memory system, with the pages of the address space in [ks_mem]. *)
Record kern (V M : Type) := Kern {
  ks_sys : sys V; ks_mem : memory; ks_spl : Z; ks_bad : option Z; ks_vm : M
}.
Arguments Kern {V M}.
Arguments ks_sys {V M}.
Arguments ks_mem {V M}.
Arguments ks_spl {V M}.
Arguments ks_bad {V M}.
Arguments ks_vm {V M}.

Section process_kernel.
Context {V M : Type} `{Vfs V} (nomem : nat → bool) (present : Z → bool) (cur : nat) (exe : option Z).
Context (interrupt : Z → M → outcome M) (fault : Z → Z → M → Z → outcome (fres * M * Z)).
Context (other : call → kern V M → outcome (callend * kern V M)).
Implicit Types k : kern V M.

Definition set_sys (s : sys V) k : kern V M := Kern s (ks_mem k) (ks_spl k) (ks_bad k) (ks_vm k).
Definition set_mem (m : memory) k : kern V M := Kern (ks_sys k) m (ks_spl k) (ks_bad k) (ks_vm k).

Definition back (r : result Z) : callend := match r with inl e => Back e 0 | inr n => Back 0 n end.

(** The status that waitpid leaves, without a check of the pointer. *)
Definition put_status (a x : Z) k : kern V M := set_mem (store (ks_mem k) a (word_be (u32 x))) k.

(** The calls that mips_syscall makes; [other] are reboot, fork and execv. *)
Definition process_call (c : call) k : outcome (callend * kern V M) :=
  match c with
  | CWrite fd buf n => '(r, m, s) ← sys_write cur fd buf n (ks_mem k) (ks_sys k); Ret (back r, set_mem m (set_sys s k))
  | CRead fd buf n => '(r, m, s) ← sys_read cur fd buf n (ks_mem k) (ks_sys k); Ret (back r, set_mem m (set_sys s k))
  | COpen filename flags _ => '(r, s) ← sys_open nomem present cur filename flags (ks_mem k) (ks_sys k); Ret (back r, set_sys s k)
  | CClose fd => '(e, s) ← sys_close cur fd (ks_sys k); Ret (Back e 0, set_sys s k)
  | CGetpid => p ← getpid cur (ks_sys k); Ret (Back 0 p, k)
  | CWaitpid pid status options =>
      '(w, s) ← waitpid cur pid options (ks_sys k);
      let k := set_sys s k in
      Ret (match w with
           | WaitError e => (Back e (-1), if bool_decide (e = EAGAIN) then put_status status (-1) k else k)
           | WaitDone st => (Back 0 pid, put_status status st k)
           | WaitBlocks => (Asleep, k)
           end)
  | CExit code => s ← sys__exit cur code exe (ks_sys k); Ret (Away, set_sys s k)
  | CReboot _ | CFork _ | CExecv _ _ => other c k
  end.

#[local] Instance process_kernel : Kernel (kern V M) := {|
  k_spl := ks_spl;
  k_set_spl n k := Kern (ks_sys k) (ks_mem k) n (ks_bad k) (ks_vm k);
  k_interrupt c k := m ← interrupt c (ks_vm k); Ret (Kern (ks_sys k) (ks_mem k) (ks_spl k) (ks_bad k) m);
  k_vm_fault t a k := '(r, m, n) ← fault t a (ks_vm k) (ks_spl k); Ret (r, Kern (ks_sys k) (ks_mem k) n (ks_bad k) m);
  k_badfault := ks_bad;
  k_call := process_call
|}.

#[local] Instance process_kernel_laws : KernelLaws (K := kern V M).
Proof.
  split; [done|done|]. intros t a k r k' Hf. simpl in Hf.
  destruct (fault t a (ks_vm k) (ks_spl k)) as [[[r' m] n]| | |]; [|discriminate..]. by injection Hf as _ <-.
Qed.
End process_kernel.


(** A machine with one process, number 5, that asks for its number. *)
Definition no_vfs : Vfs () := {|
  vfs_open _ _ v := Ret (inl EINVAL, v);
  vfs_close _ v := Ret v;
  VOP_READ _ m u v := Ret (EINVAL, (m, u, v));
  VOP_WRITE _ m u v := Ret (EINVAL, (m, u, v))
|}.

Definition one_process : kern () () :=
  Kern (Sys {[ 9%nat := Process 5 None 0 None None None None None ]} ∅ ∅ ∅ (<[5%nat := Some 9%nat]> (replicate 100 None)) 10 ()) ∅ 0 None ().

Definition asks : trapframe := Trapframe 0 (Z.lor CST_IEp CST_KUp) (Z.shiftl EX_SYS 2) SYS_getpid 0 0 0 0 0x7fffff00 0x400100 [].

Definition lone_kernel : Kernel (kern () ()) :=
  process_kernel (H := no_vfs) (λ _, false) (λ _, true) 9 (Some 0) (λ _ m, Ret m) (λ _ _ m n, Ret (Returns 6, m, n)) (λ _ k, Ret (Away, k)).

